(* ===== verification/_CoqProject ===== *)
-Q . S2P
Prelude.v
Text.v
Budget.v
Codec.v
Wire.v
Sasl.v
Scram.v
MskIam.v
Frame.v
Crc.v
Records.v
Fields.v
KnownTags.v
Settles.v
MessageTrait.v
MsgConnection.v
MsgTxn.v
MsgGroup.v
MsgGroupAdmin.v
MsgOffset.v
MsgMetadata.v
MsgAdmin.v
MsgFetch.v
MsgProduce.v
Registry.v
Proxy.v
Fuzz.v
PassThrough.v
ConsumerProtocol.v
ClientError.v
Negotiate.v
Conn.v
Exchange.v
Session.v
Authentication.v
ClusterImpl.v
ClusterSafety.v
Event.v
Json.v
Source.v
Cursor.v
Pump.v
PumpStream.v
Hub.v
HubSafety.v
Transport.v
Batching.v
Offsets.v
Consumer.v
ReadCommitted.v
Compression.v
Delivery.v
ConsumerLog.v
Group.v
Membership.v
ConsumerGroup.v
Reconciliation.v
Txn.v
Producer.v
ProducerSafety.v
Admin.v
ClusterRecovery.v
Report.v
ClientChecks.v
ClientConformance.v
Codegen.v
Subject.v
SubjectLog.v
SubjectGroups.v
SubjectServe.v
SubjectSafety.v
Probe.v
ServerChecks.v
TopicChecks.v
TxnChecks.v
OffsetChecks.v
ClusterChecks.v
Catalog.v
Calibration.v
SuiteErrors.v
