(* ===== verification/Prelude.v ===== *)
(** * odradek: a verification development

    odradek is a Kafka client stack in Rust: a protocol crate, an async client,
    SASL mechanisms, crates that stream topics to browsers, and an acceptance
    suite with a small broker of its own. This library models the protocol crate,
    the client (connections, cluster, authentication, consumer, producer, groups,
    administration), the SASL mechanisms, the streaming crates, and of the
    acceptance suite the server checks, the broker, the client's harness and the
    reports, as
    executable definitions that follow the source function by function, and proves
    what they promise.

    ** The program's parts, and the files that model them

    The crates form a stack, and the files follow it. Paths are under
    [src/crates/].

    - [Text.v] has what all of them use of Rust's strings: integers in decimal,
      splitting, replacing.
    - [odradek-protocol/src/budget.rs], [error.rs]: [Budget.v]. The allocation
      budget every decoder spends, and the growth of a vector under it. The
      allocator and [size_of] are the class [Runtime].
    - [wire.rs]: [Codec.v] (encoders as buffer transformers that keep what they
      wrote before an error, decoders as functions on the rest of the input,
      and the relations [encodes], [gets], [reads], [pairs]) and [Wire.v].
    - [frame.rs]: [Frame.v]. [records.rs]: [Crc.v] and [Records.v].
    - [messages/*.rs], 55 files: [Fields.v] and [KnownTags.v] (the shapes of
      the generated code), [MessageTrait.v] (the [Message] trait as a class
      whose law is that encoder and decoder agree), and one [Module] per
      message in the files [MsgConnection.v] to [MsgProduce.v].
    - [api_key.rs], [error_code.rs], [header.rs], [messages/mod.rs]:
      [Registry.v]. [consumer_protocol.rs]: [ConsumerProtocol.v].
    - [Settles.v] goes from accepted input back to the value, for every message;
      [Proxy.v] does so for record sets. [fuzz.rs]: [Fuzz.v].
      [examples/proxy.rs]: [PassThrough.v]. [src/xtask/src/main.rs], of the
      generator of the messages: [Codegen.v].
    - [odradek-sasl/src/lib.rs], [mechanism.rs], [prep.rs], [plain.rs],
      [oauthbearer.rs]: [Sasl.v]; [scram.rs]: [Scram.v], both roles;
      [msk_iam.rs]: [MskIam.v].
    - [odradek-client/src/error.rs], [retry.rs]: [ClientError.v];
      [negotiate.rs]: [Negotiate.v]; [conn.rs]: [Conn.v], a step system of
      calls, arriving frames, failures and cancellations.
    - [sasl.rs]: [Session.v] (dialling and authenticating a connection, over the
      class [Network] of sockets) and [Authentication.v].
    - [cluster.rs]: [ClusterImpl.v] (the state behind the lock, its locked
      sections and the calls made of them), [ClusterSafety.v]
      and [ClusterRecovery.v], which also makes it the
      instance of the class [Cluster] that its clients are proved against.
      [admin.rs]: [Admin.v].
    - [compression.rs]: [Compression.v], over the class [Codecs] of the
      compression crates.
    - [consumer.rs]: [Consumer.v], [ReadCommitted.v] and [ConsumerLog.v];
      [offsets.rs]: [Offsets.v].
    - [group.rs]: [Group.v] (the range assignor, memberships) and
      [Membership.v]; [consumer_group.rs]: [ConsumerGroup.v] and
      [Reconciliation.v].
    - [producer.rs]: [Batching.v] (partitioner and batches), [Producer.v] (the
      state machine) and [ProducerSafety.v]; [txn.rs]: [Txn.v].
    - [Exchange.v] has what all of these share: a request to a broker and its
      decoded response, leases, the retry loop around them, and the class
      [Cluster] of what they call of [cluster.rs].
    - [Delivery.v] composes producer, compression, record batches and consumer.
    - [odradek-web-core/src/event.rs]: [Event.v]; [json.rs] and the shared events
      of [event.rs]: [Json.v]; [source.rs], [memory.rs]:
      [Source.v]; [cursor.rs], [params.rs]: [Cursor.v]; [pump.rs]: [Pump.v] and
      [PumpStream.v]; [hub.rs]: [Hub.v], [HubSafety.v] and [Transport.v].
    - [odradek-web-sse/src/lib.rs], [odradek-web-ws/src/lib.rs]: the modules
      [sse] and [ws] of [Transport.v].
    - [odradek-acceptance/src/subject.rs], the reference broker: [Subject.v] (its
      state, placement, topics and committed offsets), [SubjectLog.v] (logs and
      transactions), [SubjectGroups.v], [SubjectServe.v] (authentication, its
      connections, and nodes that stop and start, as a step relation) and
      [SubjectSafety.v].
    - [odradek-acceptance/src/raw.rs] and what the checks of a server share:
      [Probe.v] (connections, discovery, negotiation, waits, over the class
      [Subjects] of dialling and the clock); [checks/server.rs]: the checks, in
      [ServerChecks.v] (api versions, metadata, coordinators, SASL, topics,
      groups), [TopicChecks.v] (records, offsets, fetches), [TxnChecks.v],
      [OffsetChecks.v] and [ClusterChecks.v] (with the sweep of all versions);
      [Catalog.v] has the 62 of them with their ids, the selection of
      [checks/mod.rs] and the runs. [Calibration.v] gives [Subjects] the sockets of the
      reference broker and runs the catalog on it, as [tests/server_checks.rs]
      does; [SuiteErrors.v] is about subjects that cannot be reached.
    - [odradek-acceptance/src/checks/client.rs]: [ClientChecks.v] and
      [ClientConformance.v]; [report.rs], [lib.rs] and
      [bin/odradek-accept.rs]: [Report.v].

    ** How state and effects are represented

    A [w]-bit integer is a [Z] with its wrap-around ([wrap], [sint]), its
    saturation or its checked conversion ([try_from]) written out where the
    code has it. Arithmetic the code leaves unchecked wraps, as it does in a
    release build. Bytes are [list byte], strings are [string], a [HashMap] is
    a [gmap], a [BTreeMap] an ascending list where its order shows. A fallible
    function returns [result E A]; one on [&mut self] takes and returns the
    record of the struct. What is not the program's own, the operating system,
    the allocator, the compression crates, hashes and base64, a broker's answers,
    is a parameter, a class or a world threaded through. An async function is the function of
    the answers it awaits; where interleaving matters (the calls of a
    connection, the locked sections of a shared hub, the leases of a pool, the
    forwarders of a merged stream) the model is a list of steps that a theorem
    quantifies over; a call of the cluster runs its I/O on a world that holds the
    shared state, so that the I/O may change it the way other tasks do.

    ** What the theorems show

    - Every message of the protocol, at every version it supports, decodes to
      what was encoded and leaves what follows ([Registry]); batches and sets
      of records do too, with their checksum ([Records], [Crc]); malformed
      input is an error, and no decoder goes past its budget ([Budget]). What a
      decoder made of any input encodes and decodes again, in no more bytes
      ([Settles], [Fuzz]); a record set that passes through comes out as it was,
      or shorter ([Proxy]).
    - A connection answers every caller at most once with the response to its
      own request, and all of them when it fails ([Conn]); frames cut anywhere
      come back whole ([Frame]).
    - A client and a server with one password authenticate each other, a client
      that accepts has the server's signature and a server that accepts the
      stored key ([Scram]); a session succeeds over such a server, and only
      after an exchange that shows it ([Authentication]); what a mechanism puts
      in a message the other side reads back ([Sasl], [MskIam]).
    - Connections lead where the metadata says and a pool counts its leases,
      under every interleaving ([ClusterSafety]); a refresh
      takes an answer whole or not at all and the control connection fails over
      ([ClusterSafety]); a listing of groups is of the whole cluster ([Admin]). A
      proxy between client and broker changes nothing but the endpoints
      ([PassThrough]).
    - What producers encode and compress is what consumers get ([Delivery]) and
      what decompresses is bounded ([Compression]); a
      read-committed fetch has exactly the committed batches of the log
      ([ReadCommitted]), and a consumer over brokers that keep one log reads
      that log, through any failures and retries ([ConsumerLog]); a flush loses
      nothing and a commit that succeeds commits a whole transaction
      ([ProducerSafety]).
    - A group's leader gives every partition of a subscribed topic to exactly
      one subscriber, and each member decodes its share ([Group],
      [Membership]); what a member holds is what its coordinator gave it, in
      the classic protocol and the next ([Membership], [Reconciliation]).
    - A pump's subscriber receives a gap-free stretch of the log, in order,
      whatever its queue, the source's errors and other writers do
      ([PumpStream]); sources refine the contract this needs ([Source]); under
      every interleaving, a pump that runs and was not told to stop is the one its
      hub holds for the partition ([HubSafety]); tokens handed to a client resume where it left off
      ([Cursor], [Transport]), and an event's JSON says what the event is
      ([Json]).
    - The reference broker's tables agree whatever it is sent, a producer that
      lost its id stays fenced, a retry is written once, clients are sent to nodes
      that serve them and committed offsets come back ([SubjectSafety]). The
      client of this repository passes the harness's checks of form
      ([ClientConformance]); the suite passes the reference broker on every check
      and every fault of the broker is caught by the check that claims it
      ([Calibration]), and a subject that cannot be reached is an error of the run
      and no verdict on it ([SuiteErrors]). The fuzz harness passes for every seed, until a
      count of it overflows ([Fuzz]), a run matches a baseline exactly when it reduces to it ([Report]), and a
      field's guard holds at the versions of its range ([Codegen]).
    - These theorems state what the code does where its documentation says
      otherwise: [PumpStream.latest_can_replay_held_records],
      [HubSafety.respawn_ignores_ceiling_and_shutdown],
      [ProducerSafety.flush_drops_unstamped_buffers],
      [ProducerSafety.failed_stamp_is_reused],
      [Reconciliation.failed_resolve_loses_the_assignment],
      [Reconciliation.join_returns_unassigned],
      [ClusterRecovery.dead_leader_connection_is_kept],
      [ClusterRecovery.dead_controller_connection_is_kept],
      [Admin.deleted_topics_stay_cached], [Proxy.overlong_batch_is_rewritten],
      [Fuzz.settling_can_be_refused], [PassThrough.short_answers_end_the_link],
      [PassThrough.bracketed_upstream_is_not_found],
      [ClientConformance.passes_that_mean_less],
      [SubjectSafety.new_epoch_loses_its_first_batch],
      [SubjectSafety.takeover_commits_the_predecessors_work],
      [SubjectSafety.topic_ids_collide],
      [SubjectSafety.batched_announcements_are_not_read],
      [SuiteErrors.gone_subject_passes_the_coordinator_check] and
      [SuiteErrors.unreachable_listener_fails_the_sweep].

    ** Fuel and bounds

    [decode_set_loop] takes the length of its input as fuel, and every batch is
    at least 61 bytes ([Records.decode_set_terminates]). Varint loops have ten
    rounds, the width of a [u64]. [Frame.drain] is given the length of the
    buffer and every frame takes four bytes; so is [Compression.read_blocks],
    whose blocks take four. [retry_loop] has the attempts it
    is configured with, [Fuzz.framing_rounds] the rounds of the harness, and
    [Codegen.parse_type] the length of the name, of which every round takes two
    characters. [Calibration.serve_link] has the bytes that arrived, of which a
    frame takes four, and [Probe.turns] the attempts of the probe's budgets: a
    budget divided by its delay. Every other recursion is structural. The epochs of
    [SubjectSafety] are those of the first 32767 steps: a claim adds one to an
    [i16].

    ** What is not modelled

    TLS, the compression crates, hashes, stringprep, base64, [serde_json],
    sockets, HTTP routing and timers are third-party code or pure I/O; where the
    code relies on one, its documented contract is a law of a class. Of the
    cluster, the order in which a [HashMap] is walked, the text a derived
    [Display] renders and lossy decoding are parameters, and a task that derives
    keys always joins. Wiping secrets from memory is not modelled. Of the
    acceptance suite, loading trust anchors and the subprocesses behind a
    [ClusterControl] are left out, as are the listeners and accept loops of the
    broker and the harness; a subject is what dialling it gives ([Subjects]), and
    the calibration runs on the reference broker alone, its probe configured with
    short waits as the tests configure it. Of [xtask], walking
    the JSON of a schema and laying out the text of a struct are left out, since
    what they wrote is modelled itself, and the commands that run containers, CI
    jobs and schema checks are process and file I/O. Benches, tests and the other
    examples use the library. *)
From stdpp Require Export base tactics list sorting numbers strings gmap.
From Stdlib Require Export ZArith Lia.
From Stdlib Require Strings.Byte.

Abbreviation byte := Corelib.Init.Byte.byte.

Declare Scope odradek_scope.
Delimit Scope odradek_scope with od.
#[global] Open Scope odradek_scope.
#[global] Open Scope Z_scope.

(** ** Results *)

Inductive result (E A : Type) : Type :=
| Ok (a : A)
| Err (e : E).
Arguments Ok {E A} a.
Arguments Err {E A} e.

Definition res_bind {E A B} (m : result E A) (k : A → result E B) : result E B :=
  match m with
  | Ok a => k a
  | Err e => Err e
  end.

Definition map_err {E F A} (f : E → F) (m : result E A) : result F A :=
  match m with
  | Ok a => Ok a
  | Err e => Err (f e)
  end.

(** [Option::ok_or]. *)
Definition ok_or {E A} (e : E) (o : option A) : result E A :=
  match o with
  | Some a => Ok a
  | None => Err e
  end.

Definition is_ok {E A} (m : result E A) : bool :=
  match m with
  | Ok _ => true
  | Err _ => false
  end.

(** The [?] operator, on plain results. *)
Notation "'let?' x ':=' m 'in' k" := (res_bind m (fun x => k))
  (at level 10, x pattern, m at level 100, k at level 200) : odradek_scope.

Lemma res_bind_ok {E A B} (m : result E A) (k : A → result E B) b :
  res_bind m k = Ok b ↔ ∃ a, m = Ok a ∧ k a = Ok b.
Proof.
  destruct m; simpl; split.
  - intros Hk. by eexists.
  - by intros (? & [= ->] & ?).
  - done.
  - by intros (? & ? & ?).
Qed.

Lemma map_err_ok {E F A} (f : E → F) (r : result E A) a : map_err f r = Ok a ↔ r = Ok a.
Proof. destruct r; cbn; split; congruence. Qed.

#[export] Instance result_eq_dec {E A} `{EqDecision E} `{EqDecision A} :
  EqDecision (result E A).
Proof. solve_decision. Defined.

(** ** Machine integers

    A [w]-bit integer is a [Z]; [wrap w] is the unsigned reading of its low
    [w] bits and [sint w] the two's complement one. *)

Definition wrap (w z : Z) : Z := z mod 2 ^ w.
Definition sint (w z : Z) : Z := (z + 2 ^ (w - 1)) mod 2 ^ w - 2 ^ (w - 1).

Definition i8_max : Z := 127.
Definition i16_max : Z := 32767.
Definition i32_max : Z := 2147483647.
Definition i32_min : Z := -2147483648.
Definition i64_max : Z := 9223372036854775807.
Definition i64_min : Z := -9223372036854775808.
Definition u32_max : Z := 4294967295.
Definition u64_max : Z := 18446744073709551615.
(** The targets modelled are 64-bit: [usize] is [u64]. *)
Definition usize_max : Z := u64_max.

Definition is_i8 (z : Z) : Prop := -128 ≤ z ≤ i8_max.
Definition is_i16 (z : Z) : Prop := -32768 ≤ z ≤ i16_max.
Definition is_u16 (z : Z) : Prop := 0 ≤ z ≤ 65535.
Definition is_i32 (z : Z) : Prop := i32_min ≤ z ≤ i32_max.
Definition is_u32 (z : Z) : Prop := 0 ≤ z ≤ u32_max.
Definition is_i64 (z : Z) : Prop := i64_min ≤ z ≤ i64_max.
Definition is_u64 (z : Z) : Prop := 0 ≤ z ≤ u64_max.
Definition is_usize (z : Z) : Prop := 0 ≤ z ≤ usize_max.

(** Unfold every machine-integer bound and decide by [lia]. *)
Ltac int_unfold :=
  unfold is_i8, is_i16, is_u16, is_i32, is_u32, is_i64, is_u64, is_usize,
    i8_max, i16_max, i32_max, i32_min, i64_max, i64_min, u32_max, u64_max,
    usize_max in *;
  unfold u64_max in *.
Ltac int_lia := int_unfold; lia.

(** [usize::saturating_add], [saturating_mul], [saturating_sub]. *)
Definition sat_add (a b : Z) : Z := Z.min (a + b) usize_max.
Definition sat_mul (a b : Z) : Z := Z.min (a * b) usize_max.
Definition sat_sub (a b : Z) : Z := Z.max (a - b) 0.

(** [T::try_from(z)] for the target range [lo..=hi]. *)
Definition try_from (lo hi z : Z) : option Z :=
  if (lo <=? z) && (z <=? hi) then Some z else None.

Lemma try_from_Some lo hi z z' : try_from lo hi z = Some z' ↔ z' = z ∧ lo ≤ z ≤ hi.
Proof.
  unfold try_from. destruct (Z.leb_spec lo z), (Z.leb_spec z hi); simpl;
    split; intros H'; try discriminate; try (destruct H'; lia).
  - injection H' as <-. lia.
  - destruct H' as [-> _]. done.
Qed.

Lemma try_from_in lo hi z : lo ≤ z ≤ hi → try_from lo hi z = Some z.
Proof. intros H. by apply try_from_Some. Qed.

Lemma wrap_small w z : 0 ≤ z < 2 ^ w → wrap w z = z.
Proof. apply Z.mod_small. Qed.

Lemma sint_small w z : 0 < w → - 2 ^ (w - 1) ≤ z < 2 ^ (w - 1) → sint w z = z.
Proof.
  intros Hw Hz. unfold sint.
  assert (2 ^ w = 2 * 2 ^ (w - 1)) as E.
  { replace w with (Z.succ (w - 1)) at 1 by lia. rewrite Z.pow_succ_r; lia. }
  rewrite Z.mod_small; lia.
Qed.

Lemma sint_wrap w z : 0 < w → sint w (z mod 2 ^ w) = sint w z.
Proof.
  intros Hw. unfold sint. f_equal.
  rewrite Zplus_mod_idemp_l. done.
Qed.

Lemma sint_range w z : 0 < w → - 2 ^ (w - 1) ≤ sint w z < 2 ^ (w - 1).
Proof.
  intros Hw. unfold sint.
  assert (2 ^ w = 2 * 2 ^ (w - 1)) as E.
  { replace w with (Z.succ (w - 1)) at 1 by lia. rewrite Z.pow_succ_r; lia. }
  assert (0 < 2 ^ (w - 1)) by (apply Z.pow_pos_nonneg; lia).
  pose proof (Z.mod_pos_bound (z + 2 ^ (w - 1)) (2 ^ w)). lia.
Qed.

(** ** Bytes *)

#[export] Instance byte_eq_dec : EqDecision byte := Byte.byte_eq_dec.

Definition byte_to_Z (b : byte) : Z := Z.of_N (Byte.to_N b).
Definition byte_of_Z (z : Z) : byte :=
  match Byte.of_N (Z.to_N (z mod 256)) with
  | Some b => b
  | None => Byte.x00
  end.

Lemma byte_to_Z_range b : 0 ≤ byte_to_Z b < 256.
Proof.
  unfold byte_to_Z. pose proof (Byte.to_N_bounded b). lia.
Qed.

Lemma byte_to_Z_of_Z z : byte_to_Z (byte_of_Z z) = z mod 256.
Proof.
  unfold byte_of_Z. pose proof (Z.mod_pos_bound z 256 eq_refl) as Hb.
  destruct (Byte.of_N (Z.to_N (z mod 256))) as [b|] eqn:E.
  - apply Byte.to_of_N in E. unfold byte_to_Z. rewrite E. lia.
  - apply Byte.of_N_None_iff in E. lia.
Qed.

Lemma byte_of_Z_to_Z b : byte_of_Z (byte_to_Z b) = b.
Proof.
  unfold byte_of_Z. rewrite Z.mod_small by apply byte_to_Z_range.
  unfold byte_to_Z. rewrite N2Z.id, Byte.of_to_N. done.
Qed.

Lemma byte_to_Z_inj b c : byte_to_Z b = byte_to_Z c → b = c.
Proof. intros E. rewrite <- (byte_of_Z_to_Z b), E. apply byte_of_Z_to_Z. Qed.

#[export] Program Instance byte_countable : Countable byte :=
  inj_countable' byte_to_Z byte_of_Z byte_of_Z_to_Z.

(** The [n] low-order bytes of [z], most significant first: what
    [z.to_be_bytes()] yields for an [8n]-bit integer of either sign. *)
Fixpoint be_bytes (n : nat) (z : Z) : list byte :=
  match n with
  | O => []
  | S n' => byte_of_Z (z / 256 ^ Z.of_nat n') :: be_bytes n' z
  end.

(** The unsigned value of a big-endian byte string. *)
Fixpoint be_val (bs : list byte) : Z :=
  match bs with
  | [] => 0
  | b :: bs' => byte_to_Z b * 256 ^ Z.of_nat (length bs') + be_val bs'
  end.

Lemma be_bytes_length n z : length (be_bytes n z) = n.
Proof. induction n; simpl; lia. Qed.

Lemma be_val_bytes n z : be_val (be_bytes n z) = z mod 256 ^ Z.of_nat n.
Proof.
  induction n as [|n IH]; [by rewrite Z.mod_1_r|].
  cbn [be_bytes be_val]. rewrite be_bytes_length, byte_to_Z_of_Z, IH.
  rewrite Nat2Z.inj_succ, Z.pow_succ_r by lia.
  rewrite (Z.mul_comm 256), Z.rem_mul_r; [lia| |lia].
  apply Z.pow_nonzero; lia.
Qed.

Lemma be_val_range bs : 0 ≤ be_val bs < 256 ^ Z.of_nat (length bs).
Proof.
  induction bs as [|b bs IH]; [cbn; lia|].
  cbn [be_val length]. rewrite Nat2Z.inj_succ, Z.pow_succ_r by lia.
  pose proof (byte_to_Z_range b). nia.
Qed.

Lemma be_bytes_mod n m z :
  (n ≤ m)%nat → be_bytes n (z mod 256 ^ Z.of_nat m) = be_bytes n z.
Proof.
  induction n as [|n IH]; intros H; [done|]. cbn [be_bytes].
  rewrite IH by lia. f_equal. apply byte_to_Z_inj. rewrite !byte_to_Z_of_Z.
  replace (Z.of_nat m) with (Z.of_nat n + (1 + (Z.of_nat m - Z.of_nat n - 1))) by lia.
  rewrite !Z.pow_add_r, Z.rem_mul_r by lia.
  rewrite (Z.mul_comm _ (_ mod _)), Z.div_add by lia.
  rewrite Z.div_small by (apply Z.mod_pos_bound; lia). rewrite Z.add_0_l.
  change (256 ^ 1) with 256.
  rewrite Z.mod_mod_divide; [done|]. apply Z.divide_factor_l.
Qed.

Lemma be_bytes_val bs : be_bytes (length bs) (be_val bs) = bs.
Proof.
  induction bs as [|b bs IH]; [done|].
  cbn [be_val length be_bytes]. pose proof (be_val_range bs).
  f_equal.
  - rewrite Z.div_add_l by lia. rewrite Z.div_small, Z.add_0_r by done.
    apply byte_of_Z_to_Z.
  - rewrite <- (be_bytes_mod _ (length bs)) by lia.
    rewrite Z.add_comm, Z.mod_add, Z.mod_small by lia. done.
Qed.

(** ** Strings

    A Rust [String] or [&str] is a Rocq [string] of its UTF-8 bytes. *)

Definition str_bytes (s : string) : list byte := String.list_byte_of_string s.
Definition bytes_str (bs : list byte) : string := String.string_of_list_byte bs.

Lemma bytes_str_bytes s : bytes_str (str_bytes s) = s.
Proof. apply String.string_of_list_byte_of_string. Qed.
Lemma str_bytes_str bs : str_bytes (bytes_str bs) = bs.
Proof. apply String.list_byte_of_string_of_list_byte. Qed.
Lemma str_bytes_inj s t : str_bytes s = str_bytes t → s = t.
Proof. intros E. by rewrite <- (bytes_str_bytes s), E, bytes_str_bytes. Qed.

Definition str_len (s : string) : Z := Z.of_nat (length (str_bytes s)).

(** ** Lists *)

Abbreviation len l := (Z.of_nat (length l)).

Lemma take_app_exact {A} (l k : list A) n : n = length l → take n (l ++ k) = l.
Proof. intros ->. by rewrite take_app_length. Qed.
Lemma drop_app_exact {A} (l k : list A) n : n = length l → drop n (l ++ k) = k.
Proof. intros ->. by rewrite drop_app_length. Qed.

Lemma filter_none {A} (P : A → Prop) `{∀ x, Decision (P x)} l :
  Forall (λ x, ¬ P x) l → filter P l = [].
Proof. induction 1 as [|x l Hx _ IH]; [done|]. by rewrite filter_cons, decide_False. Qed.
Lemma filter_all {A} (P : A → Prop) `{∀ x, Decision (P x)} l :
  Forall P l → filter P l = l.
Proof. induction 1 as [|x l Hx _ IH]; [done|]. by rewrite filter_cons, decide_True, IH. Qed.

(** ** Bounded loops

    [for _ in 0..n] with an early exit, by recursion on the binary count: a
    count read off the wire may be astronomically larger than what the loop
    ever gets to run, so a unary counter would not evaluate. *)

Fixpoint iter_nat {E S} (n : nat) (f : S → result E S) (s : S) : result E S :=
  match n with
  | O => Ok s
  | Datatypes.S n' => let? s' := f s in iter_nat n' f s'
  end.

Fixpoint iter_pos {E S} (p : positive) (f : S → result E S) (s : S) : result E S :=
  match p with
  | xH => f s
  | xO q => let? s' := iter_pos q f s in iter_pos q f s'
  | xI q => let? s0 := f s in let? s' := iter_pos q f s0 in iter_pos q f s'
  end.

Definition iter_Z {E S} (n : Z) (f : S → result E S) (s : S) : result E S :=
  match n with
  | Zpos p => iter_pos p f s
  | _ => Ok s
  end.

Lemma iter_nat_add {E S} n m (f : S → result E S) s :
  iter_nat (n + m) f s = let? s' := iter_nat n f s in iter_nat m f s'.
Proof.
  revert s; induction n as [|n IH]; intros s; simpl; [done|].
  destruct (f s); simpl; [apply IH|done].
Qed.

Lemma iter_pos_nat {E S} p (f : S → result E S) s :
  iter_pos p f s = iter_nat (Pos.to_nat p) f s.
Proof.
  revert s; induction p as [p IH|p IH|]; intros s; cbn [iter_pos].
  - replace (Pos.to_nat p~1) with (Datatypes.S (Pos.to_nat p + Pos.to_nat p)) by lia.
    cbn [iter_nat]. destruct (f s); cbn [res_bind]; [|done]. rewrite iter_nat_add, IH.
    by destruct (iter_nat _ _ _); cbn [res_bind].
  - replace (Pos.to_nat p~0) with (Pos.to_nat p + Pos.to_nat p)%nat by lia.
    rewrite iter_nat_add, IH. by destruct (iter_nat _ _ _); cbn [res_bind].
  - change (Pos.to_nat 1) with 1%nat. cbn [iter_nat]. by destruct (f s).
Qed.

Lemma iter_Z_nat {E S} n (f : S → result E S) s :
  iter_Z n f s = iter_nat (Z.to_nat n) f s.
Proof. destruct n as [|p|p]; simpl; [done| |done]. apply iter_pos_nat. Qed.

(** An invariant of the body is an invariant of the loop. *)
Lemma iter_nat_inv {E S} (I : S → Prop) n (f : S → result E S) s s' :
  (∀ s s', I s → f s = Ok s' → I s') → I s → iter_nat n f s = Ok s' → I s'.
Proof.
  intros Hf. revert s. induction n as [|n IH]; simpl; intros s Hs.
  - by intros [= <-].
  - destruct (f s) eqn:E1; simpl; [|done]. eauto.
Qed.

(** ** Bits as arithmetic *)

Lemma land_low z w : 0 ≤ w → Z.land z (2 ^ w - 1) = z mod 2 ^ w.
Proof. intros Hw. rewrite <- Z.land_ones, Z.ones_equiv by done. by rewrite Z.sub_1_r. Qed.

Lemma testbit_high a s i : 0 ≤ a < 2 ^ s → s ≤ i → Z.testbit a i = false.
Proof.
  intros Ha Hi. destruct (Z.eq_dec a 0) as [->|Hn]; [apply Z.testbit_0_l|].
  apply Z.bits_above_log2; [lia|].
  assert (Z.log2 a < s); [|lia]. apply Z.log2_lt_pow2; lia.
Qed.

(** Or-ing into bits above the ones in use is addition. *)
Lemma lor_shiftl_add a b s : 0 ≤ s → 0 ≤ a < 2 ^ s → Z.lor a (Z.shiftl b s) = a + b * 2 ^ s.
Proof.
  intros Hs Ha. rewrite <- Z.shiftl_mul_pow2 by done.
  assert (Z.land a (Z.shiftl b s) = 0) as E.
  { apply Z.bits_inj'. intros i Hi. rewrite Z.land_spec, Z.bits_0, Z.shiftl_spec by done.
    destruct (Z.lt_ge_cases i s).
    - rewrite (Z.testbit_neg_r b) by lia. apply andb_false_r.
    - by rewrite (testbit_high a s i). }
  by rewrite Z.add_nocarry_lxor, Z.lxor_lor by done.
Qed.

Lemma lor_lt a b w : 0 ≤ w → 0 ≤ a < 2 ^ w → 0 ≤ b < 2 ^ w → Z.lor a b < 2 ^ w.
Proof.
  intros Hw Ha Hb. assert (Z.lor a b = Z.lor a b mod 2 ^ w) as ->.
  - rewrite <- Z.land_ones by done. apply Z.bits_inj'. intros i Hi.
    rewrite Z.land_spec, Z.testbit_ones_nonneg, Z.lor_spec by done.
    destruct (Z.ltb_spec i w); [by rewrite andb_true_r|].
    by rewrite (testbit_high a w), (testbit_high b w).
  - apply Z.mod_pos_bound. lia.
Qed.

Lemma lxor_lt a b n : 0 ≤ n → 0 ≤ a < 2 ^ n → 0 ≤ b < 2 ^ n → 0 ≤ Z.lxor a b < 2 ^ n.
Proof.
  intros Hn Ha Hb. split; [apply Z.lxor_nonneg; lia|].
  assert (Z.lxor a b = Z.lxor a b mod 2 ^ n) as ->.
  - rewrite <- Z.land_ones by done. apply Z.bits_inj'. intros i Hi.
    rewrite Z.land_spec, Z.testbit_ones_nonneg, Z.lxor_spec by done.
    destruct (Z.ltb_spec i n); [by rewrite andb_true_r|].
    by rewrite (testbit_high a n), (testbit_high b n).
  - apply Z.mod_pos_bound. lia.
Qed.
