(* ===== verification/Text.v ===== *)
(** * Text

    What the development uses of Rust's [str] and integer formatting, on the
    bytes of a string: [Display] and [FromStr] of integers, [split],
    [split_once], [rsplit_once], [strip_prefix], [replace], and how they undo
    one another.  The characters searched for are ASCII, which no other
    character's encoding contains. *)
From S2P Require Import Prelude.

Abbreviation text := (list byte).

(** ** Decimal integers *)
Module decimal.

Definition digit (d : Z) : byte := byte_of_Z (48 + d).

Definition digit_value (b : byte) : option Z :=
  let z := byte_to_Z b in if (48 <=? z) && (z <=? 57) then Some (z - 48) else None.

(** The digits of [n], most significant first; [fuel] bounds their count. *)
Fixpoint digits (fuel : nat) (n : Z) : text :=
  match fuel with
  | O => []
  | S fuel => if n <? 10 then [digit n] else digits fuel (n / 10) ++ [digit (n mod 10)]
  end.

(** No [i64] has more than 19 digits. *)
Definition DIGITS : nat := 20.

(** [Display]. *)
Definition print (z : Z) : text :=
  if z <? 0 then byte_of_Z 45 :: digits DIGITS (- z) else digits DIGITS z.

Fixpoint value (acc : Z) (ds : text) : option Z :=
  match ds with
  | [] => Some acc
  | d :: ds => match digit_value d with Some v => value (acc * 10 + v) ds | None => None end
  end.

(** [FromStr] of the integer type with range [lo..=hi], which is signed: an
    optional sign and at least one digit, within the range. *)
Definition parse (lo hi : Z) (s : text) : option Z :=
  let '(negative, ds) :=
    match s with
    | b :: rest =>
        if bool_decide (b = byte_of_Z 45) then (true, rest)
        else if bool_decide (b = byte_of_Z 43) then (false, rest)
        else (false, s)
    | [] => (false, [])
    end in
  match ds with
  | [] => None
  | _ =>
      match value 0 ds with
      | Some v => try_from lo hi (if negative : bool then - v else v)
      | None => None
      end
  end.

(** [FromStr] of the unsigned integer type with maximum [hi]. *)
Definition parse_unsigned (hi : Z) (s : text) : option Z :=
  let ds := match s with
            | b :: rest => if bool_decide (b = byte_of_Z 43) then rest else s
            | [] => []
            end in
  match ds with
  | [] => None
  | _ => match value 0 ds with Some v => try_from 0 hi v | None => None end
  end.

End decimal.

(** ** Text *)

(** [str::split] on one character. *)
Fixpoint split (sep : byte) (s : text) : list text :=
  match s with
  | [] => [[]]
  | b :: rest =>
      if bool_decide (b = sep) then [] :: split sep rest
      else match split sep rest with
           | first :: more => (b :: first) :: more
           | [] => [[b]]
           end
  end.

(** [str::split_once]. *)
Fixpoint split_once (sep : byte) (s : text) : option (text * text) :=
  match s with
  | [] => None
  | b :: rest =>
      if bool_decide (b = sep) then Some ([], rest)
      else match split_once sep rest with
           | Some (l, r) => Some (b :: l, r)
           | None => None
           end
  end.

(** [str::strip_prefix]. *)
Definition strip_prefix (s p : text) : option text :=
  if bool_decide (take (length p) s = p) then Some (drop (length p) s) else None.

(** [slice::splitn]. *)
Fixpoint splitn (n : nat) (sep : byte) (s : text) : list text :=
  match n with
  | O => []
  | 1%nat => [s]
  | S n =>
      match split_once sep s with
      | Some (l, r) => l :: splitn n sep r
      | None => [s]
      end
  end.

(** [str::rsplit_once], on a pattern that is not empty. *)
Fixpoint rsplit_once (p s : text) : option (text * text) :=
  match s with
  | [] => None
  | b :: rest =>
      match rsplit_once p rest with
      | Some (l, r) => Some (b :: l, r)
      | None => match strip_prefix s p with Some r => Some ([], r) | None => None end
      end
  end.

(** [str::replace], on a pattern that is not empty: [skip] bytes belong to an
    occurrence already replaced. *)
Fixpoint replace_from (skip : nat) (p by_ s : text) : text :=
  match s with
  | [] => []
  | b :: rest =>
      match skip with
      | S skip => replace_from skip p by_ rest
      | O =>
          match strip_prefix s p with
          | Some _ => by_ ++ replace_from (length p - 1) p by_ rest
          | None => b :: replace_from 0 p by_ rest
          end
      end
  end.

Definition replace (p by_ s : text) : text := replace_from 0 p by_ s.

Definition COMMA : byte := byte_of_Z 44.
Definition COLON : byte := byte_of_Z 58.

(** ** Printing and parsing *)

Lemma digit_value_digit d : 0 ≤ d < 10 → decimal.digit_value (decimal.digit d) = Some d.
Proof.
  intros H. unfold decimal.digit_value, decimal.digit. rewrite byte_to_Z_of_Z, Z.mod_small by lia.
  destruct (Z.leb_spec 48 (48 + d)), (Z.leb_spec (48 + d) 57); try lia. cbn. f_equal. lia.
Qed.

Lemma value_app acc l k :
  decimal.value acc (l ++ k) = decimal.value acc l ≫= λ v, decimal.value v k.
Proof.
  revert acc. induction l as [|d l IH]; intros acc; [done|]. cbn.
  destruct (decimal.digit_value d); [apply IH|done].
Qed.

Definition is_digit (b : byte) : Prop := 48 ≤ byte_to_Z b ≤ 57.

Lemma is_digit_digit d : 0 ≤ d < 10 → is_digit (decimal.digit d).
Proof.
  intros H. unfold is_digit, decimal.digit. rewrite byte_to_Z_of_Z, Z.mod_small; lia.
Qed.

Lemma digits_spec fuel : ∀ n, 0 ≤ n < 10 ^ Z.of_nat fuel → (0 < fuel)%nat →
  decimal.value 0 (decimal.digits fuel n) = Some n ∧ decimal.digits fuel n ≠ [] ∧
  Forall is_digit (decimal.digits fuel n).
Proof.
  induction fuel as [|fuel IH]; intros n Hn Hf; [lia|]. cbn [decimal.digits].
  destruct (Z.ltb_spec n 10) as [Hlt|Hge].
  - split_and!; [|done|constructor; [apply is_digit_digit; lia|constructor]].
    cbn [decimal.value]. rewrite digit_value_digit by lia. f_equal.
  - rewrite Nat2Z.inj_succ, Z.pow_succ_r in Hn by lia.
    assert (0 < fuel)%nat as Hf' by (destruct fuel; cbn in Hn; lia).
    pose proof (Z.mod_pos_bound n 10 eq_refl) as Hm. pose proof (Z.div_mod n 10 ltac:(lia)) as Hd.
    destruct (IH (n / 10)) as (H1 & H2 & H3); [|done|].
    { split; [apply Z.div_pos; lia|]. apply Z.div_lt_upper_bound; lia. }
    split_and!.
    + rewrite value_app, H1. cbn [mbind option_bind decimal.value].
      rewrite digit_value_digit by lia. f_equal. lia.
    + intros H. by apply app_nil in H as [_ ?].
    + apply Forall_app. split; [done|]. constructor; [by apply is_digit_digit|constructor].
Qed.

Lemma parse_digits lo hi s v :
  Forall is_digit s → s ≠ [] → decimal.value 0 s = Some v → lo ≤ v ≤ hi →
  decimal.parse lo hi s = Some v.
Proof.
  intros Hd Hne Hv Hr. unfold decimal.parse. destruct s as [|b s]; [done|].
  apply Forall_cons in Hd as [Hb _].
  rewrite !bool_decide_eq_false_2 by (intros ->; destruct Hb as [Hb _]; by apply Hb).
  rewrite Hv. by apply try_from_in.
Qed.

Lemma parse_print lo hi z :
  i64_min ≤ lo → hi ≤ i64_max → lo ≤ z ≤ hi → decimal.parse lo hi (decimal.print z) = Some z.
Proof.
  intros Hlo Hhi Hz. unfold decimal.print. destruct (Z.ltb_spec z 0) as [Hneg|Hpos].
  - destruct (digits_spec decimal.DIGITS (- z)) as (H1 & H2 & H3); [|unfold decimal.DIGITS; lia|].
    { change (10 ^ Z.of_nat decimal.DIGITS) with 100000000000000000000. int_lia. }
    unfold decimal.parse. rewrite bool_decide_eq_true_2 by done.
    destruct (decimal.digits decimal.DIGITS (- z)); [done|]. rewrite H1.
    rewrite Z.opp_involutive. by apply try_from_in.
  - destruct (digits_spec decimal.DIGITS z) as (H1 & H2 & H3); [|unfold decimal.DIGITS; lia|].
    { change (10 ^ Z.of_nat decimal.DIGITS) with 100000000000000000000. int_lia. }
    by apply parse_digits.
Qed.

Lemma parse_unsigned_print hi z :
  hi ≤ i64_max → 0 ≤ z ≤ hi → decimal.parse_unsigned hi (decimal.print z) = Some z.
Proof.
  intros Hhi Hz. unfold decimal.print. destruct (Z.ltb_spec z 0) as [Hneg|_]; [lia|].
  destruct (digits_spec decimal.DIGITS z) as (H1 & H2 & H3); [|unfold decimal.DIGITS; lia|].
  { change (10 ^ Z.of_nat decimal.DIGITS) with 100000000000000000000. int_lia. }
  unfold decimal.parse_unsigned. destruct (decimal.digits decimal.DIGITS z) as [|b s]; [done|].
  apply Forall_cons in H3 as [Hb _].
  rewrite bool_decide_eq_false_2 by (intros ->; destruct Hb as [Hb _]; by apply Hb).
  rewrite H1. by apply try_from_in.
Qed.

(** What the text of a pair is made of: no separator, nothing to trim. *)
Definition plain (b : byte) : Prop := is_digit b ∨ b = byte_of_Z 45.

Lemma print_plain z : i64_min ≤ z ≤ i64_max →
  Forall plain (decimal.print z) ∧ decimal.print z ≠ [].
Proof.
  intros Hz. assert (∀ n, 0 ≤ n ≤ - i64_min → Forall plain (decimal.digits decimal.DIGITS n) ∧
    decimal.digits decimal.DIGITS n ≠ []) as H.
  { intros n Hn. destruct (digits_spec decimal.DIGITS n) as (_ & H2 & H3); [|unfold decimal.DIGITS; lia|].
    { change (10 ^ Z.of_nat decimal.DIGITS) with 100000000000000000000. int_lia. }
    split; [|done]. eapply Forall_impl; [done|]. by left. }
  unfold decimal.print. destruct (Z.ltb_spec z 0); [|apply H; int_lia].
  split; [|done]. constructor; [by right|]. apply H. int_lia.
Qed.

Lemma plain_bounds b : plain b → 45 ≤ byte_to_Z b ≤ 57 ∧ byte_to_Z b ≠ 46.
Proof.
  intros [H|H]; [unfold is_digit in H; lia|]. apply (f_equal byte_to_Z) in H.
  rewrite byte_to_Z_of_Z in H. change (45 mod 256) with 45 in H. lia.
Qed.

Lemma not_plain_byte z : 0 ≤ z < 256 → z < 45 ∨ 57 < z → ¬ plain (byte_of_Z z).
Proof.
  intros Hz Ho Hp%plain_bounds. rewrite byte_to_Z_of_Z, Z.mod_small in Hp by done. lia.
Qed.

Lemma split_once_plain c l r : ¬ plain c → Forall plain l → split_once c (l ++ c :: r) = Some (l, r).
Proof.
  intros Hc. induction 1 as [|b l Hb _ IH]; cbn [split_once app].
  - by rewrite bool_decide_eq_true_2.
  - rewrite bool_decide_eq_false_2 by congruence. by rewrite IH.
Qed.

Lemma split_none c s : c ∉ s → split c s = [s].
Proof.
  induction s as [|b s IH]; [done|]. intros [H1 H2]%not_elem_of_cons. cbn.
  rewrite bool_decide_eq_false_2 by congruence. by rewrite IH.
Qed.

Lemma split_app c s r : c ∉ s → split c (s ++ c :: r) = s :: split c r.
Proof.
  induction s as [|b s IH]; cbn [app split].
  - intros _. by rewrite bool_decide_eq_true_2.
  - intros [H1 H2]%not_elem_of_cons. rewrite bool_decide_eq_false_2 by congruence. by rewrite IH.
Qed.

Lemma split_once_app c l r : c ∉ l → split_once c (l ++ c :: r) = Some (l, r).
Proof.
  induction l as [|b l IH]; cbn [split_once app].
  - intros _. by rewrite bool_decide_eq_true_2.
  - intros [Hb Hl]%not_elem_of_cons. rewrite bool_decide_eq_false_2 by congruence. by rewrite IH.
Qed.

Lemma split_once_Some c s l r : split_once c s = Some (l, r) → s = l ++ c :: r ∧ c ∉ l.
Proof.
  revert l. induction s as [|b s IH]; intros l; cbn [split_once]; [done|].
  case_bool_decide as Hb.
  - intros [= <- <-]. subst b. split; [done|apply not_elem_of_nil].
  - destruct (split_once c s) as [[l' r']|]; [|done]. intros [= <- <-].
    destruct (IH l' eq_refl) as [-> Hl]. split; [done|]. by apply not_elem_of_cons.
Qed.

Lemma strip_prefix_app p r : strip_prefix (p ++ r) p = Some r.
Proof.
  unfold strip_prefix. rewrite take_app_length, bool_decide_eq_true_2 by done.
  by rewrite drop_app_length.
Qed.

Lemma strip_prefix_Some s p r : strip_prefix s p = Some r → s = p ++ r.
Proof.
  unfold strip_prefix. case_bool_decide as H; [|done]. intros [= <-].
  rewrite <- H at 1. by rewrite take_drop.
Qed.

(** The split at the last occurrence of a pattern that starts with [c]. *)
Lemma rsplit_once_app c p l r :
  c ∉ p → c ∉ r → rsplit_once (c :: p) (l ++ c :: p ++ r) = Some (l, r).
Proof.
  intros Hp Hr. assert (∀ s, c ∉ s → rsplit_once (c :: p) s = None) as Hnone.
  { induction s as [|b s IH]; [done|]. intros [Hb Hs]%not_elem_of_cons. cbn [rsplit_once].
    rewrite IH by done. destruct (strip_prefix (b :: s) (c :: p)) as [r'|] eqn:E; [|done].
    apply strip_prefix_Some in E. injection E as -> _. done. }
  induction l as [|b l IH]; cbn [app rsplit_once].
  - rewrite Hnone by (by rewrite not_elem_of_app). change (c :: p ++ r) with ((c :: p) ++ r).
    by rewrite strip_prefix_app.
  - by rewrite IH.
Qed.

Lemma strip_prefix_ne b c s p : b ≠ c → strip_prefix (b :: s) (c :: p) = None.
Proof. intros H. unfold strip_prefix. rewrite bool_decide_eq_false_2; [done|]. by intros [= ? _]. Qed.

Lemma rsplit_once_Some p s l r : rsplit_once p s = Some (l, r) → s = l ++ p ++ r.
Proof.
  revert l r. induction s as [|b s IH]; intros l r; [done|]. cbn [rsplit_once].
  destruct (rsplit_once p s) as [[l' r']|].
  - intros [= <- <-]. by rewrite (IH l' r' eq_refl).
  - destruct (strip_prefix (b :: s) p) as [r'|] eqn:E; [|done]. intros [= <- <-].
    by apply strip_prefix_Some in E.
Qed.

(** ** Replacing *)

Lemma replace_skip p w l s : replace_from (length l) p w (l ++ s) = replace_from 0 p w s.
Proof. by induction l. Qed.

Lemma replace_occurrence c p w s : replace (c :: p) w ((c :: p) ++ s) = w ++ replace (c :: p) w s.
Proof.
  unfold replace. cbn [app replace_from]. change (c :: p ++ s) with ((c :: p) ++ s).
  rewrite strip_prefix_app. cbn [length]. rewrite Nat.sub_succ, Nat.sub_0_r.
  by rewrite replace_skip.
Qed.

Lemma replace_char c w s : replace [c] w (c :: s) = w ++ replace [c] w s.
Proof. exact (replace_occurrence c [] w s). Qed.

Lemma replace_other c p w b s : b ≠ c → replace (c :: p) w (b :: s) = b :: replace (c :: p) w s.
Proof. intros Hb. unfold replace. cbn [replace_from]. by rewrite strip_prefix_ne. Qed.
