(* ===== verification/Budget.v ===== *)
(** * Decode errors and the allocation budget
    ([odradek-protocol/src/error.rs], [odradek-protocol/src/budget.rs])

    The error values of the codecs, the [Limits] policy, the [Budget] a decode
    spends, and the growable vectors it charges for.  What the standard
    library decides at run time -- the size of a type and what the allocator
    hands back -- is the class [Runtime]. *)
From S2P Require Import Prelude.

Inductive EncodeError : Type :=
| TooLong (length max : Z)
| NullField (field : string).

Inductive DecodeError : Type :=
| Truncated (needed : Z)
| VarintOverflow
| InvalidLength (n : Z)
| InvalidUtf8
| UnknownDiscriminant (kind : string) (value : Z)
| CrcMismatch (stored computed : Z)
| AllocationLimit (limit wanted : Z)
| AllocationFailed (bytes limit : Z)
| NoProgress
| TaggedFieldOrder (previous tag : Z).

#[export] Instance EncodeError_eq_dec : EqDecision EncodeError.
Proof. solve_decision. Defined.
#[export] Instance DecodeError_eq_dec : EqDecision DecodeError.
Proof. solve_decision. Defined.

(** What a decode takes from its run time: [size_of::<T>()] by type name, and
    the allocator behind [Vec::try_reserve_exact], which may refuse and may
    hand back more room than asked for, never less. *)
Class Runtime : Type := {
  size_of : string → Z;
  size_of_nonneg : ∀ ty, 0 ≤ size_of ty;
  alloc_exact : Z → Z → option Z;
  alloc_exact_ge : ∀ elem cap cap', alloc_exact elem cap = Some cap' → cap ≤ cap';
}.

(** An allocator that refuses nothing. *)
Definition reliable (R : Runtime) : Prop :=
  ∀ elem cap, is_Some (alloc_exact elem cap).

Record Limits : Type := mkLimits {
  alloc_factor : Z;
  min_alloc_bytes : Z;
  max_alloc_bytes : Z;
}.

Record Budget : Type := mkBudget {
  limit : Z;
  used : Z;
}.

(** [Vec<T>]: its elements and its capacity. *)
Record Vec (T : Type) : Type := mkVec {
  items : list T;
  capacity : Z;
}.
Arguments mkVec {T} items capacity.
Arguments items {T} v.
Arguments capacity {T} v.

Definition DEFAULT_MAX_FRAME : Z := Z.shiftl 64 20.
Definition DEFAULT_ALLOC_FACTOR : Z := 16.
Definition DEFAULT_MIN_ALLOC_BYTES : Z := Z.shiftl 64 10.
Definition DEFAULT_MAX_ALLOC_BYTES : Z := 4 * DEFAULT_MAX_FRAME.

Module Limits.

Definition default : Limits :=
  mkLimits DEFAULT_ALLOC_FACTOR DEFAULT_MIN_ALLOC_BYTES DEFAULT_MAX_ALLOC_BYTES.

Definition UNLIMITED : Limits := mkLimits usize_max usize_max usize_max.

Definition with_alloc_factor (l : Limits) (factor : Z) : Limits :=
  mkLimits factor (min_alloc_bytes l) (max_alloc_bytes l).
Definition with_min_alloc_bytes (l : Limits) (bytes : Z) : Limits :=
  mkLimits (alloc_factor l) bytes (max_alloc_bytes l).
Definition with_max_alloc_bytes (l : Limits) (bytes : Z) : Limits :=
  mkLimits (alloc_factor l) (min_alloc_bytes l) bytes.

Definition alloc_bytes_for (l : Limits) (input_len : Z) : Z :=
  Z.min (Z.max (sat_mul input_len (alloc_factor l)) (min_alloc_bytes l))
    (max_alloc_bytes l).

Definition budget (l : Limits) (input_len : Z) : Budget :=
  mkBudget (alloc_bytes_for l input_len) 0.

End Limits.

Module BudgetOps.
Section ops.
Context {R : Runtime}.

Definition new (max_alloc_bytes : Z) : Budget := mkBudget max_alloc_bytes 0.

Definition set_used (b : Budget) (u : Z) : Budget := mkBudget (limit b) u.

Definition check (b : Budget) (wanted : Z) : result DecodeError unit :=
  if limit b <? wanted then Err (AllocationLimit (limit b) wanted) else Ok tt.

(** The operations that take [&mut self] return the budget they leave
    behind, on the error path too. *)
Definition charge (b : Budget) (bytes : Z) : Budget * result DecodeError unit :=
  let u := sat_add (used b) bytes in
  match check b u with
  | Err e => (b, Err e)
  | Ok _ => (set_used b u, Ok tt)
  end.

Definition release (b : Budget) (bytes : Z) : Budget :=
  set_used b (sat_sub (used b) bytes).

Definition grow (b : Budget) (old_bytes new_bytes : Z) :
    Budget * result DecodeError unit :=
  let peak := sat_add (used b) new_bytes in
  match check b peak with
  | Err e => (b, Err e)
  | Ok _ => (set_used b (sat_sub peak old_bytes), Ok tt)
  end.

Definition settle (b : Budget) (charged actual : Z) :
    Budget * result DecodeError unit :=
  if actual =? charged then (b, Ok tt)
  else
    let u := sat_sub (sat_add (used b) actual) charged in
    match check b u with
    | Err e => (b, Err e)
    | Ok _ => (set_used b u, Ok tt)
    end.

Definition first_capacity (elem : Z) : Z :=
  if elem =? 1 then 8 else if elem <=? 1024 then 4 else 1.

(** [Vec::new()]: no allocation yet; a zero-sized element needs none. *)
Definition vec_new {T} (ty : string) : Vec T :=
  mkVec [] (if size_of ty =? 0 then usize_max else 0).

(** [Vec::try_reserve_exact]. *)
Definition try_reserve_exact {T} (elem : Z) (v : Vec T) (additional : Z) :
    option (Vec T) :=
  if additional <=? capacity v - len (items v) then Some v
  else
    match alloc_exact elem (len (items v) + additional) with
    | Some cap => Some (mkVec (items v) cap)
    | None => None
    end.

Definition grow_for {T} (ty : string) (b : Budget) (v : Vec T) :
    Budget * Vec T * result DecodeError unit :=
  let elem := size_of ty in
  if elem =? 0 then (b, v, Ok tt)
  else
    let old := capacity v in
    let target := if old =? 0 then first_capacity elem else sat_mul old 2 in
    let old_bytes := sat_mul old elem in
    let new_bytes := sat_mul target elem in
    match grow b old_bytes new_bytes with
    | (b1, Err e) => (b1, v, Err e)
    | (b1, Ok _) =>
        match try_reserve_exact elem v (target - len (items v)) with
        | None => (b1, v, Err (AllocationFailed new_bytes (limit b1)))
        | Some v' =>
            let '(b2, r) := settle b1 new_bytes (sat_mul (capacity v') elem) in
            (b2, v', r)
        end
    end.

(** [Vec::push] with spare capacity. *)
Definition vec_push {T} (v : Vec T) (x : T) : Vec T :=
  mkVec (items v ++ [x]) (capacity v).

Definition push {T} (ty : string) (b : Budget) (v : Vec T) (x : T) :
    Budget * Vec T * result DecodeError unit :=
  if len (items v) =? capacity v then
    match grow_for ty b v with
    | (b1, v1, Err e) => (b1, v1, Err e)
    | (b1, v1, Ok _) => (b1, vec_push v1 x, Ok tt)
    end
  else (b, vec_push v x, Ok tt).

Definition progress (before after : Z) : result DecodeError unit :=
  if before <=? after then Err NoProgress else Ok tt.

End ops.
End BudgetOps.
Import BudgetOps.

(** An error a decode reports only because of what it was allowed to, or
    could, allocate. *)
Definition is_alloc_error (e : DecodeError) : Prop :=
  match e with
  | AllocationLimit _ _ | AllocationFailed _ _ => True
  | _ => False
  end.

(** A budget that can refuse nothing: its limit is [usize::MAX], where the
    saturating arithmetic stops. *)
Definition roomy (b : Budget) : Prop := limit b = usize_max.

Lemma unlimited_roomy n : 0 ≤ n → roomy (Limits.budget Limits.UNLIMITED n).
Proof. intros. unfold roomy, Limits.budget, Limits.alloc_bytes_for, sat_mul. cbn. int_lia. Qed.

(** ** Facts *)

Section facts.
Context {R : Runtime}.

Lemma sat_mul_nonneg a b : 0 ≤ a → 0 ≤ b → 0 ≤ sat_mul a b.
Proof. intros. unfold sat_mul. int_unfold. nia. Qed.

Lemma sat_add_le a b : sat_add a b ≤ usize_max.
Proof. unfold sat_add. lia. Qed.

Lemma check_ok b w : check b w = Ok tt ↔ w ≤ limit b.
Proof.
  unfold check. destruct (Z.ltb_spec (limit b) w); split; intros; try done; lia.
Qed.

Lemma check_err b w e : check b w = Err e → is_alloc_error e ∧ limit b < w.
Proof.
  unfold check. destruct (Z.ltb_spec (limit b) w); [|done].
  intros [= <-]. done.
Qed.

Lemma check_roomy b w : roomy b → w ≤ usize_max → check b w = Ok tt.
Proof. intros Hb Hw. apply check_ok. by rewrite Hb. Qed.

(** No operation moves the limit. *)
Lemma grow_limit b o n : limit (grow b o n).1 = limit b.
Proof. unfold grow. by destruct (check b _). Qed.
Lemma settle_limit b c a : limit (settle b c a).1 = limit b.
Proof. unfold settle. destruct (a =? c); [done|]. by destruct (check b _). Qed.

Lemma grow_for_limit {T} ty b (v : Vec T) : limit (grow_for ty b v).1.1 = limit b.
Proof.
  unfold grow_for. destruct (size_of ty =? 0); [done|]. cbv zeta.
  destruct (grow b _ _) as [b1 r] eqn:G.
  assert (limit b1 = limit b) as L1 by (change b1 with (b1, r).1; rewrite <- G; apply grow_limit).
  destruct r as [?|?]; [|done].
  destruct (try_reserve_exact _ _ _) as [v'|]; [|done].
  destruct (settle b1 _ _) as [b2 r2] eqn:S. cbn.
  change b2 with (b2, r2).1. rewrite <- S, settle_limit. done.
Qed.

Lemma push_limit {T} ty b (v : Vec T) x : limit (push ty b v x).1.1 = limit b.
Proof.
  unfold push. destruct (_ =? _); [|done].
  pose proof (grow_for_limit ty b v) as L.
  destruct (grow_for ty b v) as [[b1 v1] [?|?]]; done.
Qed.

(** Growing a vector never loses what it holds. *)
Lemma grow_for_items {T} ty b (v : Vec T) : items (grow_for ty b v).1.2 = items v.
Proof.
  unfold grow_for. destruct (size_of ty =? 0); [done|]. cbv zeta.
  destruct (grow b _ _) as [b1 [?|?]]; [|done].
  unfold try_reserve_exact. destruct (_ <=? _).
  - by destruct (settle _ _ _).
  - destruct (alloc_exact _ _); [|done]. by destruct (settle _ _ _).
Qed.

Lemma grow_err b o n e : (grow b o n).2 = Err e → is_alloc_error e.
Proof.
  unfold grow. destruct (check b _) eqn:C; [done|].
  intros [= <-]. by apply check_err in C as [? _].
Qed.
Lemma settle_err b c a e : (settle b c a).2 = Err e → is_alloc_error e.
Proof.
  unfold settle. destruct (a =? c); [done|].
  destruct (check b _) eqn:C; [done|].
  intros [= <-]. by apply check_err in C as [? _].
Qed.

Lemma grow_for_err {T} ty b (v : Vec T) e :
  (grow_for ty b v).2 = Err e → is_alloc_error e.
Proof.
  unfold grow_for. destruct (size_of ty =? 0); [done|]. cbv zeta.
  match goal with |- context [grow b ?o ?n] =>
    pose proof (grow_err b o n) as Hg; destruct (grow b o n) as [b1 [?|?]] end;
    [|intros [= <-]; by apply Hg].
  destruct (try_reserve_exact _ _ _) as [v'|]; [|by intros [= <-]].
  match goal with |- context [settle b1 ?c ?n] =>
    pose proof (settle_err b1 c n) as Hs; destruct (settle b1 c n) as [b2 r2] end.
  cbn. intros ->. by apply Hs.
Qed.

(** A successful push appends, and the only way to fail is an allocation
    error. *)
Lemma push_spec {T} ty b (v : Vec T) x b' v' r :
  push ty b v x = (b', v', r) →
  match r with
  | Ok _ => items v' = items v ++ [x]
  | Err e => items v' = items v ∧ is_alloc_error e
  end.
Proof.
  unfold push. destruct (_ =? _); [|intros [= <- <- <-]; done].
  pose proof (grow_for_items ty b v) as Hi.
  pose proof (grow_for_err ty b v) as He.
  destruct (grow_for ty b v) as [[b1 v1] [u|e]]; cbn in *; intros [= <- <- <-].
  - unfold vec_push. cbn. by rewrite Hi.
  - split; [done|]. by apply He.
Qed.

Lemma settle_roomy b c a :
  roomy b → 0 ≤ c → (settle b c a).2 = Ok tt.
Proof.
  intros Hb Hc. unfold settle. destruct (a =? c); [done|].
  rewrite check_roomy; [done|done|]. pose proof (sat_add_le (used b) a).
  unfold sat_sub. int_lia.
Qed.

Lemma first_capacity_pos e : 0 < first_capacity e.
Proof. unfold first_capacity. by destruct (e =? 1), (e <=? 1024). Qed.

Lemma grow_for_roomy {T} ty b (v : Vec T) :
  reliable R → roomy b → 0 ≤ capacity v → (grow_for ty b v).2 = Ok tt.
Proof.
  intros Hr Hb Hc. unfold grow_for. destruct (Z.eqb_spec (size_of ty) 0); [done|].
  pose proof (size_of_nonneg ty). cbv zeta.
  set (target := if capacity v =? 0 then _ else _).
  assert (0 ≤ target) as Ht.
  { unfold target, sat_mul. pose proof (first_capacity_pos (size_of ty)).
    destruct (capacity v =? 0); int_lia. }
  assert (0 ≤ sat_mul target (size_of ty)) as Hn by (unfold sat_mul; int_lia).
  unfold grow. rewrite check_roomy by (done || apply sat_add_le).
  destruct (try_reserve_exact _ _ _) as [v'|] eqn:E.
  - pose proof (settle_roomy (set_used b (sat_sub (sat_add (used b)
      (sat_mul target (size_of ty))) (sat_mul (capacity v) (size_of ty))))
      (sat_mul target (size_of ty)) (sat_mul (capacity v') (size_of ty)) Hb Hn) as HS.
    by destruct (settle _ _ _).
  - unfold try_reserve_exact in E. destruct (_ <=? _); [done|].
    destruct (Hr (size_of ty) (len (items v) + (target - len (items v)))) as [c Hs].
    by rewrite Hs in E.
Qed.

(** With a roomy budget and a reliable allocator a push succeeds. *)
Lemma push_roomy {T} ty b (v : Vec T) x :
  reliable R → roomy b → (push ty b v x).2 = Ok tt.
Proof.
  intros Hr Hb. unfold push. destruct (Z.eqb_spec (len (items v)) (capacity v)); [|done].
  pose proof (grow_for_roomy ty b v Hr Hb ltac:(lia)) as E.
  destruct (grow_for ty b v) as [[b1 v1] [[]|e1]]; done.
Qed.

End facts.

(** ** The accounting is exact

    The storage a vector holds, in bytes, and a run of pushes. *)

Definition bytes_held {R : Runtime} {T} (ty : string) (v : Vec T) : Z :=
  capacity v * size_of ty.

Fixpoint push_all {R : Runtime} {T} (ty : string) (b : Budget) (v : Vec T) (xs : list T) :
    Budget * Vec T * result DecodeError unit :=
  match xs with
  | [] => (b, v, Ok tt)
  | x :: xs' =>
      match push ty b v x with
      | (b', v', Ok _) => push_all ty b' v' xs'
      | r => r
      end
  end.

(** What is charged covers what is held, under a limit no allocation could
    saturate past: [isize::MAX], which is as much as one can hold. *)
Definition within (b : Budget) : Prop := 0 ≤ used b ≤ limit b.
Definition isize_max : Z := i64_max.

Lemma isize_usize : 2 * isize_max + 1 = usize_max.
Proof. done. Qed.

Record owns {R : Runtime} {T} (ty : string) (b : Budget) (v : Vec T) : Prop := mkOwns {
  owns_within : within b;
  owns_limit : limit b ≤ isize_max;
  owns_held : 0 ≤ bytes_held ty v ≤ used b;
  owns_len : len (items v) ≤ capacity v;
}.

Section accounting.
Context {R : Runtime}.

Lemma check_cases b w : (check b w = Ok tt ∧ w ≤ limit b) ∨
  (check b w = Err (AllocationLimit (limit b) w) ∧ limit b < w).
Proof. unfold check. destruct (Z.ltb_spec (limit b) w); auto. Qed.

Lemma charge_within b n : 0 ≤ n → within b → within (charge b n).1.
Proof.
  intros Hn Hb. unfold charge, within in *. cbv zeta.
  destruct (check_cases b (sat_add (used b) n)) as [[-> H]|[-> H]]; cbn; [|done].
  split; [|done]. unfold sat_add. int_lia.
Qed.

Lemma release_within b n : 0 ≤ n → within b → within (release b n).
Proof. unfold within, release, sat_sub. cbn. lia. Qed.

Lemma grow_within b o n : 0 ≤ o → 0 ≤ n → within b → within (grow b o n).1.
Proof.
  intros Ho Hn Hb. unfold grow, within in *. cbv zeta.
  destruct (check_cases b (sat_add (used b) n)) as [[-> H]|[-> H]]; cbn; [|done].
  unfold sat_sub. lia.
Qed.

Lemma settle_within b c a : within b → within (settle b c a).1.
Proof.
  intros Hb. unfold settle, within in *. destruct (a =? c); [done|]. cbv zeta.
  destruct (check_cases b (sat_sub (sat_add (used b) a) c)) as [[-> H]|[-> H]]; cbn; [|done].
  unfold sat_sub in *. lia.
Qed.

Lemma target_pos elem c :
  0 ≤ c → 0 < if c =? 0 then first_capacity elem else sat_mul c 2.
Proof.
  intros Hc. pose proof (first_capacity_pos elem). unfold sat_mul.
  destruct (Z.eqb_spec c 0); int_lia.
Qed.

Lemma grow_for_within {T} ty b (v : Vec T) :
  0 ≤ capacity v → within b → within (grow_for ty b v).1.1.
Proof.
  intros Hc Hb. unfold grow_for. destruct (size_of ty =? 0); [done|]. cbv zeta.
  pose proof (size_of_nonneg ty). pose proof (target_pos (size_of ty) (capacity v) Hc).
  match goal with |- context [grow b ?o ?n] =>
    pose proof (grow_within b o n) as Hg; destruct (grow b o n) as [b1 [?|?]] end;
  cbn in Hg.
  2: { apply Hg; [apply sat_mul_nonneg; lia..|done]. }
  destruct (try_reserve_exact _ _ _) as [v'|].
  - match goal with |- context [settle b1 ?c ?n] =>
      pose proof (settle_within b1 c n) as Hs; destruct (settle b1 c n) as [b2 r2] end.
    apply Hs, Hg; [apply sat_mul_nonneg; lia..|done].
  - apply Hg; [apply sat_mul_nonneg; lia..|done].
Qed.

Lemma push_within {T} ty b (v : Vec T) x : within b → within (push ty b v x).1.1.
Proof.
  intros Hb. unfold push. destruct (Z.eqb_spec (len (items v)) (capacity v)); [|done].
  pose proof (grow_for_within ty b v ltac:(lia) Hb) as Hg.
  destruct (grow_for ty b v) as [[b1 v1] [?|?]]; done.
Qed.

Lemma settle_exact b c a :
  within b → limit b ≤ isize_max → 0 ≤ a → 0 ≤ c ≤ used b →
  (settle b c a).2 = Ok tt → used (settle b c a).1 = used b - c + a.
Proof.
  intros Hb Hl Ha Hc. unfold settle, within in *. destruct (Z.eqb_spec a c); [cbn; lia|].
  cbv zeta. destruct (check_cases b (sat_sub (sat_add (used b) a) c)) as [[-> H]|[-> H]];
    cbn; [intros _|done]. unfold sat_sub, sat_add in *. pose proof isize_usize. lia.
Qed.

(** The growth step moves the charge by exactly what the vector gained. *)
Lemma grow_for_exact {T} ty b (v : Vec T) b' v' :
  0 < size_of ty → owns ty b v → len (items v) = capacity v →
  grow_for ty b v = (b', v', Ok tt) →
  owns ty b' v' ∧ len (items v') < capacity v' ∧
  used b' - bytes_held ty v' = used b - bytes_held ty v.
Proof.
  intros Hsz [Hw Hlim Hh Hlen] Hfull. unfold grow_for.
  destruct (Z.eqb_spec (size_of ty) 0); [lia|]. cbv zeta.
  assert (0 ≤ capacity v) as Hc by lia. pose proof (target_pos (size_of ty) _ Hc) as Htp.
  assert (sat_mul (capacity v) (size_of ty) = bytes_held ty v) as ->.
  { unfold sat_mul, bytes_held, within in *. pose proof isize_usize. lia. }
  set (target := if capacity v =? 0 then _ else _) in *.
  unfold grow. cbv zeta.
  destruct (check_cases b (sat_add (used b) (sat_mul target (size_of ty)))) as [[-> Hp]|[-> _]];
    [|done].
  assert (0 ≤ target * size_of ty ∧ used b + target * size_of ty ≤ limit b) as [Ht0 Hpk].
  { unfold sat_add, sat_mul, within in *. pose proof isize_usize. nia. }
  assert (sat_mul target (size_of ty) = target * size_of ty) as Ets.
  { unfold sat_mul, within in *. pose proof isize_usize. lia. }
  assert (sat_add (used b) (target * size_of ty) = used b + target * size_of ty) as Eta.
  { unfold sat_add, within in *. pose proof isize_usize. lia. }
  rewrite Ets, Eta.
  assert (capacity v < target) as Hgt.
  { unfold target, sat_mul in *. destruct (Z.eqb_spec (capacity v) 0); [lia|].
    unfold bytes_held, within in *. pose proof isize_usize. nia. }
  unfold try_reserve_exact.
  destruct (Z.leb_spec (target - len (items v)) (capacity v - len (items v))); [lia|].
  destruct (alloc_exact _ _) as [cap|] eqn:Ea; [|done]. apply alloc_exact_ge in Ea.
  set (b1 := set_used b _).
  assert (used b1 = used b - bytes_held ty v + target * size_of ty) as Hu1.
  { unfold b1, sat_sub. cbn. lia. }
  assert (within b1) as Hw1 by (unfold within in *; rewrite Hu1; cbn; lia).
  assert (limit b1 = limit b) as Hl1 by done. clearbody b1. rewrite <- Hl1 in Hlim.
  pose proof (settle_limit b1 (target * size_of ty) (sat_mul cap (size_of ty))) as Hl2.
  pose proof (settle_within b1 (target * size_of ty) (sat_mul cap (size_of ty)) Hw1) as Hw2.
  pose proof (settle_exact b1 (target * size_of ty) (sat_mul cap (size_of ty)) Hw1 Hlim) as Hs.
  cbn [capacity]. destruct (settle b1 _ _) as [b2 r2]. cbn in Hl2, Hw2, Hs.
  intros [= <- <- ->].
  assert (0 ≤ sat_mul cap (size_of ty)) as Hcap by (apply sat_mul_nonneg; lia).
  specialize (Hs Hcap ltac:(lia) eq_refl).
  assert (sat_mul cap (size_of ty) = cap * size_of ty) as Ecs.
  { unfold sat_mul, within, bytes_held in *.
    pose proof isize_usize. lia. }
  rewrite Ecs in Hs. unfold bytes_held in *. cbn [capacity items].
  split; [|split; [lia|lia]].
  split; cbn [capacity items]; [done|by rewrite Hl2|unfold bytes_held; cbn; lia|lia].
Qed.

Lemma push_exact {T} ty b (v : Vec T) x b' v' :
  0 < size_of ty → owns ty b v → push ty b v x = (b', v', Ok tt) →
  owns ty b' v' ∧ used b' - bytes_held ty v' = used b - bytes_held ty v.
Proof.
  intros Hsz Ho. pose proof Ho as [Hw Hlim Hh Hlen]. unfold push.
  assert (∀ b1 v1, owns ty b1 v1 → len (items v1) < capacity v1 →
    owns ty b1 (vec_push v1 x)) as Hpush.
  { intros b1 v1 [???] Hl. split; [done..|]. cbn. rewrite length_app. cbn. lia. }
  destruct (Z.eqb_spec (len (items v)) (capacity v)) as [Hf|].
  - destruct (grow_for ty b v) as [[b1 v1] [[]|e]] eqn:E; [|done].
    intros [= <- <-]. apply grow_for_exact in E as (Ho' & Hl & Hx); [|done..].
    split; [by apply Hpush|done].
  - intros [= <- <-]. split; [|done]. apply Hpush; [done|lia].
Qed.

Lemma push_all_exact {T} ty xs : ∀ b (v : Vec T) b' v',
  0 < size_of ty → owns ty b v → push_all ty b v xs = (b', v', Ok tt) →
  owns ty b' v' ∧ items v' = items v ++ xs ∧ limit b' = limit b ∧
  used b' - bytes_held ty v' = used b - bytes_held ty v.
Proof.
  induction xs as [|x xs IH]; intros b v b' v' Hsz Ho; cbn.
  - intros [= <- <-]. by rewrite app_nil_r.
  - destruct (push ty b v x) as [[b1 v1] [[]|e]] eqn:E; [|done]. intros H.
    pose proof (push_limit ty b v x) as Hl. rewrite E in Hl. cbn in Hl.
    pose proof (push_spec _ _ _ _ _ _ _ E) as Hi. cbn in Hi.
    apply push_exact in E as [Ho1 Hx]; [|done..].
    apply IH in H as (? & Hi' & ? & ?); [|done..].
    split; [done|]. rewrite Hi', Hi, <- app_assoc. split; [done|]. split; [congruence|lia].
Qed.

(** *** No refusal without cause *)

(** An allocator that hands back exactly what it is asked for. *)
Definition exact_allocator : Prop :=
  ∀ elem cap, alloc_exact elem cap = Some cap.

Lemma grow_for_fits {T} ty b (v : Vec T) n :
  exact_allocator → 0 < size_of ty → owns ty b v → bytes_held ty v = used b →
  len (items v) = capacity v → capacity v < n → 3 * n * size_of ty ≤ limit b →
  first_capacity (size_of ty) * size_of ty ≤ limit b →
  (grow_for ty b v).2 = Ok tt.
Proof.
  intros Hx Hsz [Hw Hlim Hh Hlen] Hu Hf Hn H3 H1. unfold grow_for.
  destruct (Z.eqb_spec (size_of ty) 0); [lia|]. cbv zeta.
  assert (0 ≤ capacity v) as Hc by lia. pose proof (target_pos (size_of ty) _ Hc) as Htp.
  set (target := if capacity v =? 0 then _ else _) in *.
  assert (target * size_of ty + used b ≤ limit b) as Hpk.
  { rewrite <- Hu. unfold target, bytes_held, sat_mul.
    destruct (Z.eqb_spec (capacity v) 0) as [->|]; [lia|].
    unfold bytes_held in *. pose proof isize_usize. nia. }
  assert (capacity v < target) as Hgt.
  { unfold target, sat_mul in *. destruct (Z.eqb_spec (capacity v) 0); [lia|].
    unfold bytes_held, within in *. pose proof isize_usize. nia. }
  assert (0 < target * size_of ty) as Htt by nia.
  assert (sat_mul target (size_of ty) = target * size_of ty) as Ets.
  { unfold sat_mul, within in *. pose proof isize_usize. lia. }
  rewrite Ets. unfold grow. cbv zeta.
  destruct (check_cases b (sat_add (used b) (target * size_of ty))) as [[-> _]|[_ Hp]].
  2: { unfold sat_add, within in *. pose proof isize_usize. lia. }
  unfold try_reserve_exact.
  destruct (Z.leb_spec (target - len (items v)) (capacity v - len (items v))); [lia|].
  rewrite Hx. cbn [capacity].
  replace (len (items v) + (target - len (items v))) with target by lia.
  unfold settle. by rewrite Ets, Z.eqb_refl.
Qed.

Lemma push_all_fits {T} ty n xs : ∀ b (v : Vec T),
  exact_allocator → 0 < size_of ty → owns ty b v → bytes_held ty v = used b →
  len (items v) + len xs ≤ n → 3 * n * size_of ty ≤ limit b →
  first_capacity (size_of ty) * size_of ty ≤ limit b →
  (push_all ty b v xs).2 = Ok tt.
Proof.
  induction xs as [|x xs IH]; intros b v Hx Hsz Ho Hu Hl H3 H1; [done|].
  cbn [push_all]. cbn [length] in Hl.
  assert ((push ty b v x).2 = Ok tt) as Hok.
  { unfold push. destruct (Z.eqb_spec (len (items v)) (capacity v)) as [Hf|]; [|done].
    pose proof (grow_for_fits ty b v n Hx Hsz Ho Hu Hf ltac:(lia) H3 H1) as E.
    by destruct (grow_for ty b v) as [[? ?] [?|?]]. }
  pose proof (push_limit ty b v x) as Hlim.
  destruct (push ty b v x) as [[b1 v1] r] eqn:E. cbn in Hok, Hlim. subst r.
  pose proof (push_spec _ _ _ _ _ _ _ E) as Hi. cbn in Hi.
  apply push_exact in E as [Ho1 Hd]; [|done..].
  apply IH; try done; try (rewrite ?Hi, ?length_app; cbn; lia); by rewrite Hlim.
Qed.

End accounting.

(** ** Properties *)

Section properties.
Context {R : Runtime}.

(** Every public operation keeps a budget within its limit, whatever it
    was asked and whether or not it was refused: what is charged is never
    negative and never above the ceiling. *)
Theorem budget_within_limit {T} (b : Budget) (n : Z) (ty : string) (v : Vec T) (x : T) :
  0 ≤ n → within b →
  within (charge b n).1 ∧ within (release b n) ∧ within (push ty b v x).1.1 ∧
  limit (charge b n).1 = limit b ∧ limit (release b n) = limit b ∧
  limit (push ty b v x).1.1 = limit b.
Proof.
  intros Hn Hb. split; [by apply charge_within|]. split; [by apply release_within|].
  split; [by apply push_within|]. split; [|split; [done|apply push_limit]].
  unfold charge. cbv zeta. by destruct (check b _).
Qed.

(** A collection built by pushes under a fresh budget holds exactly the
    values pushed, and the storage it occupies -- the capacity the allocator
    actually gave -- is exactly what the budget was charged, so it never
    exceeds the limit. *)
Theorem pushes_charge_what_they_hold {T} (ty : string) (max : Z) (xs : list T) b v :
  0 < size_of ty → 0 ≤ max ≤ isize_max →
  push_all ty (new max) (vec_new ty) xs = (b, v, Ok tt) →
  items v = xs ∧ len xs ≤ capacity v ∧ used b = capacity v * size_of ty ∧
  capacity v * size_of ty ≤ max.
Proof.
  intros Hsz Hm H.
  assert (vec_new (T := T) ty = mkVec [] 0) as E.
  { unfold vec_new. by destruct (Z.eqb_spec (size_of ty) 0); [lia|]. }
  rewrite E in H. apply push_all_exact in H as ([Hw _ _ Hl] & Hi & Hlim & Hu); [|done|].
  - cbn in Hi, Hlim. unfold within, bytes_held in *. rewrite Hi in Hl. cbn in Hu. rewrite Hlim in Hw.
    split; [done|]. lia.
  - split; unfold within, bytes_held; cbn; lia.
Qed.

(** The budget refuses nothing that fits: under an allocator that gives
    what it is asked for, [n] elements are always collected when three times
    their size (the old and the new block of the last doubling) and the first
    step are within the limit. *)
Theorem pushes_that_fit_succeed {T} (ty : string) (max : Z) (xs : list T) :
  exact_allocator → 0 < size_of ty → max ≤ isize_max →
  3 * len xs * size_of ty ≤ max → first_capacity (size_of ty) * size_of ty ≤ max →
  ∃ b v, push_all ty (new max) (vec_new ty) xs = (b, v, Ok tt) ∧ items v = xs.
Proof.
  intros Hx Hsz Hm H3 H1.
  assert (vec_new (T := T) ty = mkVec [] 0) as E.
  { unfold vec_new. by destruct (Z.eqb_spec (size_of ty) 0); [lia|]. }
  assert (owns ty (new max) (mkVec (@nil T) 0)) as Ho.
  { split; unfold within, bytes_held; cbn; lia. }
  rewrite E. pose proof (push_all_fits ty (len xs) xs _ _ Hx Hsz Ho eq_refl
    ltac:(cbn; lia) H3 H1) as Hok.
  destruct (push_all _ _ _ _) as [[b v] r] eqn:P. cbn in Hok. subst r.
  exists b, v. split; [done|]. by apply push_all_exact in P as (_ & -> & _).
Qed.

(** The budget of an input is its size times the factor clamped between
    the floor and the ceiling: it never exceeds the ceiling, it is at least
    the smaller of the two bounds, and it grows with the input. *)
Theorem alloc_bytes_for_clamps (l : Limits) (n m : Z) :
  0 ≤ alloc_factor l → 0 ≤ n ≤ m →
  Limits.alloc_bytes_for l n ≤ max_alloc_bytes l ∧
  Z.min (min_alloc_bytes l) (max_alloc_bytes l) ≤ Limits.alloc_bytes_for l n ∧
  Limits.alloc_bytes_for l n ≤ Limits.alloc_bytes_for l m ∧
  (min_alloc_bytes l ≤ n * alloc_factor l ≤ max_alloc_bytes l →
   n * alloc_factor l ≤ usize_max →
   Limits.alloc_bytes_for l n = n * alloc_factor l).
Proof.
  intros Hf Hn. unfold Limits.alloc_bytes_for, sat_mul.
  assert (n * alloc_factor l ≤ m * alloc_factor l) by nia. lia.
Qed.

End properties.

(** *** Witnesses *)

(** A run time with 8-byte elements and an exact, unfailing allocator. *)
Definition plain_runtime : Runtime :=
  {| size_of := λ _, 8;
     size_of_nonneg := λ _, ltac:(discriminate);
     alloc_exact := λ _ cap, Some cap;
     alloc_exact_ge := λ _ cap cap' E,
       ltac:(injection E as <-; apply Z.le_refl) |}.

#[local] Existing Instance plain_runtime.

Lemma plain_reliable : reliable plain_runtime.
Proof. intros elem cap. by eexists. Qed.

Lemma budget_within_limit_witness :
  within (@charge (mkBudget 100 40) 70).1 ∧
  within (@push plain_runtime Z "i64" (mkBudget 100 40) (mkVec [] 0) 5).1.1.
Proof.
  assert (within (mkBudget 100 40)) as Hw by (split; cbn; lia).
  pose proof (@budget_within_limit plain_runtime Z (mkBudget 100 40) 70 "i64"
    (mkVec [] 0) 5 ltac:(lia) Hw) as (H1 & _ & H2 & _).
  split; [exact H1|exact H2].
Defined.

Lemma pushes_charge_what_they_hold_witness :
  ∃ b v, @push_all plain_runtime Z "i64" (new 200) (vec_new "i64") [1; 2; 3; 4; 5] =
           (b, v, Ok tt) ∧ used b = 64 ∧ capacity v = 8.
Proof.
  eexists _, _. split; [vm_compute; reflexivity|].
  pose proof (@pushes_charge_what_they_hold plain_runtime Z "i64" 200 [1; 2; 3; 4; 5]
    (mkBudget 200 64) (mkVec [1; 2; 3; 4; 5] 8) ltac:(vm_compute; reflexivity)
    ltac:(vm_compute; split; discriminate) ltac:(vm_compute; reflexivity))
    as (_ & _ & H & _).
  split; [exact H|reflexivity].
Defined.

Lemma pushes_that_fit_succeed_witness :
  ∃ b v, @push_all plain_runtime Z "i64" (new 120) (vec_new "i64") [1; 2; 3; 4; 5] =
           (b, v, Ok tt) ∧ items v = [1; 2; 3; 4; 5].
Proof.
  apply (@pushes_that_fit_succeed plain_runtime Z "i64" 120 [1; 2; 3; 4; 5]).
  - intros elem cap. reflexivity.
  - vm_compute. reflexivity.
  - vm_compute. discriminate.
  - vm_compute. discriminate.
  - vm_compute. discriminate.
Defined.

Lemma alloc_bytes_for_clamps_witness :
  Limits.alloc_bytes_for Limits.default 10000 = 160000 ∧
  Limits.alloc_bytes_for Limits.default 10 ≤ Limits.alloc_bytes_for Limits.default 10000.
Proof.
  split; [reflexivity|].
  apply (alloc_bytes_for_clamps Limits.default 10 10000); vm_compute;
    repeat split; discriminate.
Defined.
