(* ===== verification/Codec.v ===== *)
(** * Encoders, decoders, and what it is for the two to agree

    An encoder appends to a buffer ([&mut impl BufMut]) and leaves whatever it
    wrote there even when it fails; a decoder consumes the head of one
    ([&mut impl Buf]); a budgeted decoder spends a [Budget] besides.
    [encodes], [gets], [reads] and [pairs] are the relations every round-trip
    proof of the development is assembled from. *)
From S2P Require Import Prelude Budget.
Import BudgetOps.

Create HintDb appends.

Abbreviation buffer := (list byte).

(** ** Encoders *)

Definition enc : Type := buffer → result EncodeError unit * buffer.

Definition enc_ret : enc := λ buf, (Ok tt, buf).
Definition enc_fail (e : EncodeError) : enc := λ buf, (Err e, buf).
Definition put_slice (bs : list byte) : enc := λ buf, (Ok tt, buf ++ bs).
Definition enc_seq (w1 w2 : enc) : enc := λ buf,
  match w1 buf with
  | (Ok _, buf') => w2 buf'
  | (Err e, buf') => (Err e, buf')
  end.
Notation "w1 ;; w2" := (enc_seq w1 w2)
  (at level 100, w2 at level 200, right associativity) : odradek_scope.

(** [for item in items { f(item)?; }] *)
Fixpoint enc_each {T} (f : T → enc) (l : list T) : enc :=
  match l with
  | [] => enc_ret
  | x :: l' => f x ;; enc_each f l'
  end.

(** The bytes an encoder produces on an empty buffer. *)
Definition enc_bytes (w : enc) : result EncodeError (list byte) :=
  match w [] with
  | (Ok _, bs) => Ok bs
  | (Err e, _) => Err e
  end.

(** *** [BytesMut], beyond appending *)

(** [buf[at..at + bs.len()].copy_from_slice(bs)], within range. *)
Definition patch (at_ : Z) (bs buf : buffer) : buffer :=
  take (Z.to_nat at_) buf ++ bs ++ drop (Z.to_nat at_ + length bs) buf.

(** [BytesMut::truncate]. *)
Definition truncate (n : Z) (buf : buffer) : buffer := take (Z.to_nat n) buf.

Lemma patch_prefix a old new rest :
  length old = length new → patch (len a) new (a ++ old ++ rest) = a ++ new ++ rest.
Proof.
  intros Hl. unfold patch. rewrite Nat2Z.id.
  rewrite take_app_exact by done. do 2 f_equal.
  rewrite <- Hl, app_assoc. apply drop_app_exact. by rewrite length_app.
Qed.

Lemma patch_app at_ new a l :
  len a ≤ at_ → patch at_ new (a ++ l) = a ++ patch (at_ - len a) new l.
Proof.
  intros H. unfold patch. rewrite take_app_ge, drop_app_ge, <- app_assoc by lia.
  by replace (Z.to_nat (at_ - len a)) with (Z.to_nat at_ - length a)%nat by lia;
    replace (Z.to_nat at_ + length new - length a)%nat
      with (Z.to_nat at_ - length a + length new)%nat by lia.
Qed.

(** ** Decoders *)

Definition dec (A : Type) : Type := buffer → result DecodeError (A * buffer).

Definition dec_ret {A} (x : A) : dec A := λ buf, Ok (x, buf).
Definition dec_fail {A} (e : DecodeError) : dec A := λ _, Err e.
Definition dec_bind {A B} (d : dec A) (k : A → dec B) : dec B := λ buf,
  let? (x, buf') := d buf in k x buf'.
Notation "'let!' x ':=' d 'in' k" := (dec_bind d (λ x, k))
  (at level 10, x pattern, d at level 100, k at level 200) : odradek_scope.

(** A computation that does not look at the buffer. *)
Definition dec_of {A} (r : result DecodeError A) : dec A := λ buf,
  let? x := r in Ok (x, buf).

Definition bdec (A : Type) : Type :=
  buffer → Budget → result DecodeError (A * buffer * Budget).

Definition bdec_ret {A} (x : A) : bdec A := λ buf b, Ok (x, buf, b).
Definition bdec_fail {A} (e : DecodeError) : bdec A := λ _ _, Err e.
Definition bdec_bind {A B} (d : bdec A) (k : A → bdec B) : bdec B := λ buf b,
  let? (x, buf', b') := d buf b in k x buf' b'.
Notation "'let*' x ':=' d 'in' k" := (bdec_bind d (λ x, k))
  (at level 10, x pattern, d at level 100, k at level 200) : odradek_scope.

Definition lift {A} (d : dec A) : bdec A := λ buf b,
  let? (x, buf') := d buf in Ok (x, buf', b).

(** [Buf::remaining]. *)
Definition remaining : bdec Z := λ buf b, Ok (len buf, buf, b).

Section budgeted.
Context {R : Runtime}.

(** [budget.push(&mut items, x)?] *)
Definition bpush {T} (ty : string) (v : Vec T) (x : T) : bdec (Vec T) := λ buf b,
  match push ty b v x with
  | (b', v', Ok _) => Ok (v', buf, b')
  | (_, _, Err e) => Err e
  end.

(** [budget.progress(mark, buf.remaining())?] *)
Definition bprogress (mark : Z) : bdec unit := λ buf b,
  let? _ := progress mark (len buf) in Ok (tt, buf, b).

Definition bloop {S} (n : Z) (body : S → bdec S) (s : S) : bdec S := λ buf b,
  iter_Z n (λ '(s, buf, b), body s buf b) (s, buf, b).

(** The two shapes of array loop in the decoders: elements whose decoder is
    known to consume input, and structs, whose progress is checked. *)
Definition get_items {T} (ty : string) (item : bdec T) (n : Z) : bdec (list T) :=
  let* v := bloop n (λ v, let* x := item in bpush ty v x) (vec_new ty) in
  bdec_ret (items v).

Definition get_structs {T} (ty : string) (item : bdec T) (n : Z) : bdec (list T) :=
  let* v := bloop n (λ v,
      let* mark := remaining in
      let* x := item in
      let* _ := bprogress mark in
      bpush ty v x) (vec_new ty) in
  bdec_ret (items v).

(** Run a budgeted decoder under a policy: [decode_with_limits]. *)
Definition with_limits {A} (d : bdec A) (l : Limits) : dec A := λ buf,
  let? (x, buf', _) := d buf (Limits.budget l (len buf)) in Ok (x, buf').
Definition with_default_limits {A} (d : bdec A) : dec A :=
  with_limits d Limits.default.

End budgeted.

(** ** Agreement *)

Definition encodes (w : enc) (bs : list byte) : Prop :=
  ∀ buf, w buf = (Ok tt, buf ++ bs).

Definition gets {A} (d : dec A) (bs : list byte) (x : A) : Prop :=
  ∀ rest, d (bs ++ rest) = Ok (x, rest).

(** [reads d bs x]: in front of any input and under any budget, [d] consumes
    exactly [bs] and yields [x], unless the budget or the allocator refuses
    it -- which a roomy budget over a reliable allocator never does. *)
Definition reads {R : Runtime} {A} (d : bdec A) (bs : list byte) (x : A) : Prop :=
  ∀ rest b,
    (∃ b', d (bs ++ rest) b = Ok (x, rest, b') ∧ limit b' = limit b) ∨
    (∃ e, d (bs ++ rest) b = Err e ∧ is_alloc_error e ∧ ¬ (reliable R ∧ roomy b)).

Definition pairs {R : Runtime} {A} (w : enc) (d : bdec A) (x : A) : Prop :=
  ∃ bs, encodes w bs ∧ reads d bs x.

(** The same, for an encoding that is not empty. *)
Definition pairs1 {R : Runtime} {A} (w : enc) (d : bdec A) (x : A) : Prop :=
  ∃ bs, bs ≠ [] ∧ encodes w bs ∧ reads d bs x.

Lemma encodes_ret : encodes enc_ret [].
Proof. intros buf. by rewrite app_nil_r. Qed.
Lemma encodes_slice bs : encodes (put_slice bs) bs.
Proof. done. Qed.
Lemma encodes_seq w1 w2 bs1 bs2 :
  encodes w1 bs1 → encodes w2 bs2 → encodes (w1 ;; w2) (bs1 ++ bs2).
Proof. intros H1 H2 buf. unfold enc_seq. by rewrite H1, H2, app_assoc. Qed.
Lemma encodes_each {T} (f : T → enc) (g : T → list byte) l :
  (∀ x, x ∈ l → encodes (f x) (g x)) → encodes (enc_each f l) (concat (g <$> l)).
Proof.
  induction l as [|x l IH]; intros Hf; simpl; [apply encodes_ret|].
  apply encodes_seq; [apply Hf; set_solver|]. apply IH. set_solver.
Qed.
Lemma encodes_bytes w bs : encodes w bs → enc_bytes w = Ok bs.
Proof. intros H. unfold enc_bytes. by rewrite H. Qed.
Lemma encodes_inj w bs1 bs2 : encodes w bs1 → encodes w bs2 → bs1 = bs2.
Proof. intros H1 H2. specialize (H1 []). rewrite H2 in H1. by injection H1. Qed.

Lemma gets_bind {A B} (d : dec A) (k : A → dec B) bs1 bs2 x y :
  gets d bs1 x → gets (k x) bs2 y → gets (let! x := d in k x) (bs1 ++ bs2) y.
Proof.
  intros H1 H2 rest. unfold dec_bind. rewrite <- app_assoc, H1. simpl. apply H2.
Qed.

(** What every encoder of the crate does, on its error paths too: append. *)
Definition appends (w : enc) : Prop := ∀ buf, ∃ bs, (w buf).2 = buf ++ bs.

Lemma encodes_appends w bs : encodes w bs → appends w.
Proof. intros H buf. exists bs. by rewrite H. Qed.
Lemma appends_ret : appends enc_ret.
Proof. intros buf. exists []. by rewrite app_nil_r. Qed.
Lemma appends_fail e : appends (enc_fail e).
Proof. intros buf. exists []. by rewrite app_nil_r. Qed.
Lemma appends_slice bs : appends (put_slice bs).
Proof. intros buf. by exists bs. Qed.
Lemma appends_seq w1 w2 : appends w1 → appends w2 → appends (w1 ;; w2).
Proof.
  intros H1 H2 buf. unfold enc_seq. destruct (H1 buf) as [bs1 E1].
  destruct (w1 buf) as [[u|e] buf1]; cbn [snd] in *; subst; [|by exists bs1].
  destruct (H2 (buf ++ bs1)) as [bs2 ->]. exists (bs1 ++ bs2). by rewrite app_assoc.
Qed.
Lemma appends_each {T} (f : T → enc) l : (∀ x, appends (f x)) → appends (enc_each f l).
Proof.
  intros H. induction l as [|x l IH]; [apply appends_ret|]. by apply appends_seq.
Qed.

#[export] Hint Resolve appends_ret appends_fail appends_slice appends_seq appends_each
  : appends.

Section agreement.
Context {R : Runtime}.

Lemma reads_ret {A} (x : A) : reads (bdec_ret x) [] x.
Proof. intros rest b. left. by exists b. Qed.

Lemma reads_lift {A} (d : dec A) bs x : gets d bs x → reads (lift d) bs x.
Proof. intros H rest b. left. exists b. unfold lift. by rewrite H. Qed.

Lemma reads_bind {A B} (d : bdec A) (k : A → bdec B) bs1 bs2 x y :
  reads d bs1 x → reads (k x) bs2 y → reads (let* x := d in k x) (bs1 ++ bs2) y.
Proof.
  intros H1 H2 rest b. rewrite <- app_assoc. unfold bdec_bind.
  destruct (H1 (bs2 ++ rest) b) as [(b' & -> & Hl)|(e & -> & He & Hn)]; simpl.
  - destruct (H2 rest b') as [(b'' & -> & Hl')|(e & -> & He & Hn)].
    + left. exists b''. by rewrite <- Hl.
    + right. exists e. unfold roomy in *. rewrite Hl in Hn. done.
  - right. eauto.
Qed.

Lemma reads_bind_ret {A B} (d : bdec A) (f : A → B) bs x y :
  y = f x → reads d bs x → reads (let* x := d in bdec_ret (f x)) bs y.
Proof.
  intros -> H. rewrite <- (app_nil_r bs). eapply reads_bind; [done|]. apply reads_ret.
Qed.

(** *** Reading up to a predicate

    [reads_sat d bs P] is [reads] for a decoder whose result carries something
    the bytes do not determine, such as the capacity of a [Vec]. *)
Definition reads_sat {A} (d : bdec A) (bs : list byte) (P : A → Prop) : Prop :=
  ∀ rest b,
    (∃ x b', d (bs ++ rest) b = Ok (x, rest, b') ∧ P x ∧ limit b' = limit b) ∨
    (∃ e, d (bs ++ rest) b = Err e ∧ is_alloc_error e ∧ ¬ (reliable R ∧ roomy b)).

Lemma sat_of_reads {A} (d : bdec A) bs x : reads d bs x → reads_sat d bs (λ y, y = x).
Proof. intros H rest b. destruct (H rest b) as [(b' & ? & ?)|?]; [|by right]. left. eauto. Qed.

Lemma reads_sat_bind {A B} (d : bdec A) (k : A → bdec B) bs1 bs2 (P : A → Prop) Q :
  reads_sat d bs1 P → (∀ x, P x → reads_sat (k x) bs2 Q) →
  reads_sat (let* x := d in k x) (bs1 ++ bs2) Q.
Proof.
  intros H1 H2 rest b. rewrite <- app_assoc. unfold bdec_bind.
  destruct (H1 (bs2 ++ rest) b) as [(x & b' & -> & Hp & Hl)|(e & -> & He & Hn)]; simpl.
  - destruct (H2 x Hp rest b') as [(y & b'' & -> & Hq & Hl')|(e & -> & He & Hn)].
    + left. exists y, b''. by rewrite <- Hl.
    + right. exists e. unfold roomy in *. rewrite Hl in Hn. done.
  - right. eauto.
Qed.

Lemma reads_sat_ret {A} (x : A) (P : A → Prop) : P x → reads_sat (bdec_ret x) [] P.
Proof. intros H rest b. left. by exists x, b. Qed.

Lemma reads_sat_reads_bind {A B} (d : bdec A) (k : A → bdec B) bs1 bs2 (P : A → Prop) y :
  reads_sat d bs1 P → (∀ x, P x → reads (k x) bs2 y) →
  reads (let* x := d in k x) (bs1 ++ bs2) y.
Proof.
  intros H1 H2 rest b.
  destruct (reads_sat_bind d k bs1 bs2 P (λ z, z = y) H1
      (λ x Hx, sat_of_reads _ _ _ (H2 x Hx)) rest b) as [(z & b' & ? & -> & ?)|?]; eauto.
Qed.

Lemma reads_sat_skip {A B} (d : bdec A) (k : A → bdec B) x bs (P : B → Prop) :
  reads d [] x → reads_sat (k x) bs P → reads_sat (let* x := d in k x) bs P.
Proof.
  intros H1 H2. apply (reads_sat_bind _ _ [] _ (λ y, y = x)); [by apply sat_of_reads|].
  by intros ? ->.
Qed.

Lemma reads_of {A} (x : A) : reads (lift (dec_of (Ok x))) [] x.
Proof. intros rest b. left. by exists b. Qed.

Lemma reads_push {T} ty (v : Vec T) x :
  reads_sat (bpush ty v x) [] (λ v', items v' = items v ++ [x]).
Proof.
  intros rest b. unfold bpush. rewrite app_nil_l.
  pose proof (push_limit ty b v x) as Hl.
  pose proof (push_roomy ty b v x) as Hr.
  destruct (push ty b v x) as [[b' v'] [u|e]] eqn:E; apply push_spec in E.
  - left. exists v', b'. done.
  - right. exists e. destruct E as [_ He]. split; [done|]. split; [done|].
    intros [H1 H2]. by specialize (Hr H1 H2).
Qed.

(** A count-driven loop reads the encodings of [l] in order, keeping an
    invariant [I] that ties the prefix read so far to the loop's state. *)
Lemma bloop_reads {S T} (I : list T → S → Prop) (body : S → bdec S)
    (item : T → list byte) (l : list T) (s0 : S) :
  I [] s0 →
  (∀ k x k' s, l = k ++ x :: k' → I k s → reads_sat (body s) (item x) (I (k ++ [x]))) →
  reads_sat (bloop (len l) body s0) (concat (item <$> l)) (I l).
Proof.
  intros H0 Hb rest b. unfold bloop. rewrite iter_Z_nat, Nat2Z.id.
  enough (∀ k' k s b, l = k ++ k' → I k s →
    (∃ s' b', iter_nat (length k') (λ '(s, buf, b), body s buf b)
      (s, concat (item <$> k') ++ rest, b) = Ok (s', rest, b') ∧ I l s' ∧ limit b' = limit b) ∨
    (∃ e, iter_nat (length k') (λ '(s, buf, b), body s buf b)
      (s, concat (item <$> k') ++ rest, b) = Err e ∧ is_alloc_error e ∧
      ¬ (reliable R ∧ roomy b))) as H.
  { by apply (H l []). }
  clear b H0 s0. induction k' as [|x k' IH]; intros k s b Hl Hi; csimpl.
  - rewrite app_nil_r in Hl. subst. left. by exists s, b.
  - rewrite <- app_assoc.
    destruct (Hb k x k' s Hl Hi (concat (item <$> k') ++ rest) b)
      as [(s' & b' & -> & Hi' & Hlim)|(e & -> & He & Hn)]; simpl; [|right; eauto].
    destruct (IH (k ++ [x]) s' b' ltac:(by rewrite <- app_assoc) Hi')
      as [(s'' & b'' & -> & Hi'' & Hlim')|(e & -> & He & Hn)].
    + left. exists s'', b''. split; [done|]. split; [done|congruence].
    + right. exists e. unfold roomy in *. rewrite Hlim in Hn. done.
Qed.

Lemma reads_items {T} ty (d : bdec T) (item : T → list byte) l :
  (∀ x, x ∈ l → reads d (item x) x) →
  reads (get_items ty d (len l)) (concat (item <$> l)) l.
Proof.
  intros Hd. unfold get_items. rewrite <- (app_nil_r (concat _)).
  apply (reads_sat_reads_bind _ _ _ _ (λ v, l = items v));
    [|intros v ->; apply reads_ret].
  apply (bloop_reads (λ k v, k = items v)); [done|].
  intros k x k' v -> ->. rewrite <- (app_nil_r (item x)).
  eapply reads_sat_bind; [apply sat_of_reads, Hd; set_solver|].
  intros ? ->. intros rest b. destruct (reads_push ty v x rest b) as [(?&?&?&?&?)|?]; eauto 10.
Qed.

Lemma reads_structs {T} ty (d : bdec T) (item : T → list byte) l :
  (∀ x, x ∈ l → item x ≠ [] ∧ reads d (item x) x) →
  reads (get_structs ty d (len l)) (concat (item <$> l)) l.
Proof.
  intros Hd. unfold get_structs. rewrite <- (app_nil_r (concat _)).
  apply (reads_sat_reads_bind _ _ _ _ (λ v, l = items v));
    [|intros v ->; apply reads_ret].
  apply (bloop_reads (λ k v, k = items v)); [done|].
  intros k x k' v -> ->. 
  assert (x ∈ items v ++ x :: k') as Hx by (apply elem_of_app; right; left).
  destruct (Hd x Hx) as [Hne Hr].
  intros rest b. unfold bdec_bind, remaining. simpl.
  destruct (Hr rest b) as [(b' & -> & Hl)|(e & -> & He & Hn)]; simpl; [|right; eauto].
  unfold bprogress, progress. rewrite length_app.
  destruct (Z.leb_spec (Z.of_nat (length (item x) + length rest)) (len rest)) as [Hle|_].
  { destruct (item x); [done|]. simpl in Hle. lia. }
  simpl.
  destruct (reads_push ty v x rest b') as [(v' & b'' & ? & Hi & Hl')|(e & ? & He & Hn)].
  - left. exists v', b''. split; [done|]. split; [done|congruence].
  - right. exists e. unfold roomy in *. rewrite Hl in Hn. done.
Qed.

(** *** Composition of agreeing pairs *)

Lemma pairs_ret {A} (x : A) : pairs enc_ret (bdec_ret x) x.
Proof. exists []. split; [apply encodes_ret|apply reads_ret]. Qed.

Lemma pairs_seq {A B} w1 w2 (d : bdec A) (k : A → bdec B) x y :
  pairs w1 d x → pairs w2 (k x) y → pairs (w1 ;; w2) (let* x := d in k x) y.
Proof.
  intros (bs1 & He1 & Hr1) (bs2 & He2 & Hr2). exists (bs1 ++ bs2).
  split; [by apply encodes_seq|by eapply reads_bind].
Qed.

Lemma pairs_prim {A} w (d : dec A) bs x :
  encodes w bs → gets d bs x → pairs w (lift d) x.
Proof. intros He Hg. exists bs. split; [done|by apply reads_lift]. Qed.

Lemma pairs1_pairs {A} w (d : bdec A) x : pairs1 w d x → pairs w d x.
Proof. intros (bs & _ & He & Hr). by exists bs. Qed.

Lemma pairs1_seq {A B} w1 w2 (d : bdec A) (k : A → bdec B) x y :
  pairs1 w1 d x → pairs w2 (k x) y → pairs1 (w1 ;; w2) (let* x := d in k x) y.
Proof.
  intros (bs1 & Hn & He1 & Hr1) (bs2 & He2 & Hr2). exists (bs1 ++ bs2).
  split; [by destruct bs1|]. split; [by apply encodes_seq|by eapply reads_bind].
Qed.

Lemma pairs_each {T} ty (f : T → enc) (d : bdec T) l :
  (∀ x, x ∈ l → pairs (f x) d x) → pairs (enc_each f l) (get_items ty d (len l)) l.
Proof.
  intros H. set (g x := match enc_bytes (f x) with Ok bs => bs | Err _ => [] end).
  assert (∀ x, x ∈ l → encodes (f x) (g x) ∧ reads d (g x) x) as Hg.
  { intros x Hx. destruct (H x Hx) as (bs & He & Hr). unfold g.
    by rewrite (encodes_bytes _ _ He). }
  exists (concat (g <$> l)). split.
  - apply encodes_each. intros x Hx. by apply Hg.
  - apply reads_items. intros x Hx. by apply Hg.
Qed.

Lemma pairs_each_structs {T} ty (f : T → enc) (d : bdec T) l :
  (∀ x, x ∈ l → pairs1 (f x) d x) → pairs (enc_each f l) (get_structs ty d (len l)) l.
Proof.
  intros H. set (g x := match enc_bytes (f x) with Ok bs => bs | Err _ => [] end).
  assert (∀ x, x ∈ l → encodes (f x) (g x) ∧ g x ≠ [] ∧ reads d (g x) x) as Hg.
  { intros x Hx. destruct (H x Hx) as (bs & Hn & He & Hr). unfold g.
    by rewrite (encodes_bytes _ _ He). }
  exists (concat (g <$> l)). split.
  - apply encodes_each. intros x Hx. by apply Hg.
  - apply reads_structs. intros x Hx. by apply Hg.
Qed.

(** What a [pairs] fact says of the whole entry points: the encoder succeeds,
    the decoder under any policy yields the value and leaves the rest unless
    an allocation was refused, and without a policy it always does. *)
Lemma pairs_entry {A} w (d : bdec A) x :
  pairs w d x →
  ∃ bs, enc_bytes w = Ok bs ∧
    (∀ rest l, with_limits d l (bs ++ rest) = Ok (x, rest) ∨
       ∃ e, with_limits d l (bs ++ rest) = Err e ∧ is_alloc_error e) ∧
    (reliable R → ∀ rest, with_limits d Limits.UNLIMITED (bs ++ rest) = Ok (x, rest)).
Proof.
  intros (bs & He & Hr). exists bs. split; [by apply encodes_bytes|]. split.
  - intros rest l. unfold with_limits.
    destruct (Hr rest (Limits.budget l (len (bs ++ rest)))) as [(b' & -> & _)|(e & -> & He' & _)];
      simpl; eauto.
  - intros Hrel rest. unfold with_limits.
    destruct (Hr rest (Limits.budget Limits.UNLIMITED (len (bs ++ rest))))
      as [(b' & -> & _)|(e & _ & _ & [])]; [done|]. split; [done|]. apply unlimited_roomy. lia.
Qed.

End agreement.
