(* ===== verification/Wire.v ===== *)
(** * Primitive codecs ([odradek-protocol/src/wire.rs])

    Fixed-width integers, unsigned and zigzag varints, classic and compact
    strings and byte strings, array length prefixes, UUIDs and tagged-field
    sections, each as the encoder/decoder pair the source has. *)
From S2P Require Import Prelude Budget Codec.
Import BudgetOps.

(** ** UTF-8

    What [String::from_utf8] accepts (Unicode table 3-7): no overlong form, no
    surrogate, nothing above U+10FFFF. *)
Definition in_range (lo hi : Z) (b : byte) : bool :=
  (lo <=? byte_to_Z b) && (byte_to_Z b <=? hi).
Definition cont (b : byte) : bool := in_range 0x80 0xbf b.

Fixpoint utf8_valid (bs : list byte) : bool :=
  match bs with
  | [] => true
  | b0 :: r0 =>
      if in_range 0 0x7f b0 then utf8_valid r0
      else match r0 with
      | [] => false
      | b1 :: r1 =>
          if in_range 0xc2 0xdf b0 then cont b1 && utf8_valid r1
          else match r1 with
          | [] => false
          | b2 :: r2 =>
              if in_range 0xe0 0xe0 b0 && in_range 0xa0 0xbf b1
                 || in_range 0xe1 0xec b0 && cont b1
                 || in_range 0xed 0xed b0 && in_range 0x80 0x9f b1
                 || in_range 0xee 0xef b0 && cont b1
              then cont b2 && utf8_valid r2
              else match r2 with
              | [] => false
              | b3 :: r3 =>
                  (in_range 0xf0 0xf0 b0 && in_range 0x90 0xbf b1
                   || in_range 0xf1 0xf3 b0 && cont b1
                   || in_range 0xf4 0xf4 b0 && in_range 0x80 0x8f b1)
                  && cont b2 && cont b3 && utf8_valid r3
              end
          end
      end
  end.

(** A [string] that is a Rust [String]. *)
Definition is_str (s : string) : Prop := utf8_valid (str_bytes s) = true.

Definition from_utf8 (bs : list byte) : result DecodeError string :=
  if utf8_valid bs then Ok (bytes_str bs) else Err InvalidUtf8.

(** ** [bytes::Buf] and [bytes::BufMut] on a byte list *)

Definition ensure (needed : Z) : dec unit := λ buf,
  if len buf <? needed then Err (Truncated (needed - len buf)) else Ok (tt, buf).

(** [Buf::copy_to_bytes] / [Bytes::split_to], called with [n] within range. *)
Definition copy_to_bytes (n : Z) : dec (list byte) := λ buf,
  Ok (take (Z.to_nat n) buf, drop (Z.to_nat n) buf).

(** [Buf::get_uN]. *)
Definition buf_get_uint (n : nat) : dec Z := λ buf,
  Ok (be_val (take n buf), drop n buf).
Definition buf_get_int (n : nat) : dec Z := λ buf,
  Ok (sint (8 * Z.of_nat n) (be_val (take n buf)), drop n buf).

(** [BufMut::put_iN] / [put_uN]. *)
Definition put_int (n : nat) (z : Z) : enc := put_slice (be_bytes n z).
Definition put_u8 : Z → enc := put_int 1.
Definition put_i8 : Z → enc := put_int 1.
Definition put_i16 : Z → enc := put_int 2.
Definition put_i32 : Z → enc := put_int 4.
Definition put_u32 : Z → enc := put_int 4.
Definition put_i64 : Z → enc := put_int 8.

Definition len_from (raw : Z) : result DecodeError Z :=
  ok_or (InvalidLength raw) (try_from 0 usize_max raw).

Definition compact_len (raw : Z) : result DecodeError Z :=
  ok_or (InvalidLength (default i64_max (try_from i64_min i64_max raw)))
    (try_from 0 usize_max raw).

(** ** Fixed-width values: the [checked_get!] family *)

Definition get_i8 : dec Z := let! _ := ensure 1 in buf_get_int 1.
Definition get_i16 : dec Z := let! _ := ensure 2 in buf_get_int 2.
Definition get_u16 : dec Z := let! _ := ensure 2 in buf_get_uint 2.
Definition get_i32 : dec Z := let! _ := ensure 4 in buf_get_int 4.
Definition get_u32 : dec Z := let! _ := ensure 4 in buf_get_uint 4.
Definition get_i64 : dec Z := let! _ := ensure 8 in buf_get_int 8.
(** A [FLOAT64] as its IEEE 754 bit pattern. *)
Definition get_f64 : dec Z := let! _ := ensure 8 in buf_get_uint 8.

Definition get_bool : dec bool :=
  let! _ := ensure 1 in
  let! b := buf_get_uint 1 in
  dec_ret (negb (b =? 0)).

(** ** Varints *)

Fixpoint put_unsigned_varint_loop (fuel : nat) (value : Z) : enc :=
  match fuel with
  | O => enc_ret
  | S fuel' =>
      let byte := Z.land value 0x7f in
      let value := Z.shiftr value 7 in
      let byte := if negb (value =? 0) then Z.lor byte 0x80 else byte in
      put_u8 byte ;;
      if value =? 0 then enc_ret else put_unsigned_varint_loop fuel' value
  end.

(** Ten rounds drain any [u64]: see [unsigned_varint_roundtrip]. *)
Definition put_unsigned_varint (value : Z) : enc := put_unsigned_varint_loop 10 value.

Fixpoint get_unsigned_varint_loop (value shift : Z) (buf : buffer) :
    result DecodeError (Z * buffer) :=
  match buf with
  | [] => Err (Truncated 1)
  | b :: buf' =>
      let byte := byte_to_Z b in
      if (shift =? 63) && negb (Z.land byte 0xfe =? 0) then Err VarintOverflow
      else
        let value := Z.lor value (wrap 64 (Z.shiftl (Z.land byte 0x7f) shift)) in
        if Z.land byte 0x80 =? 0 then Ok (value, buf')
        else
          let shift := shift + 7 in
          if 63 <? shift then Err VarintOverflow
          else get_unsigned_varint_loop value shift buf'
  end.

Definition get_unsigned_varint : dec Z := λ buf, get_unsigned_varint_loop 0 0 buf.

Definition zigzag_encode (value : Z) : Z :=
  wrap 64 (Z.lxor (sint 64 (Z.shiftl value 1)) (Z.shiftr value 63)).

Definition zigzag_decode (value : Z) : Z :=
  Z.lxor (sint 64 (Z.shiftr value 1)) (- Z.land value 1).

Definition put_varint (value : Z) : enc := put_unsigned_varint (zigzag_encode value).

Definition get_varint : dec Z :=
  let! v := get_unsigned_varint in dec_ret (zigzag_decode v).

(** [u64::leading_zeros]. *)
Definition leading_zeros (v : Z) : Z := if v =? 0 then 64 else 63 - Z.log2 v.
Definition div_ceil (a b : Z) : Z := (a + b - 1) / b.

Definition unsigned_varint_len (value : Z) : Z :=
  let bits := 64 - leading_zeros value in
  Z.max (div_ceil bits 7) 1.

Definition varint_len (value : Z) : Z := unsigned_varint_len (zigzag_encode value).

(** ** Strings *)

Definition put_string (value : string) : enc :=
  match try_from (-32768) i16_max (str_len value) with
  | None => enc_fail (TooLong (str_len value) i16_max)
  | Some n => put_i16 n ;; put_slice (str_bytes value)
  end.

Definition put_nullable_string (value : option string) : enc :=
  match value with
  | Some s => put_string s
  | None => put_i16 (-1)
  end.

Definition read_utf8 (n : Z) : dec string :=
  let! _ := ensure n in
  let! bytes := copy_to_bytes n in
  dec_of (from_utf8 bytes).

Definition get_nullable_string : dec (option string) :=
  let! _ := ensure 2 in
  let! raw := buf_get_int 2 in
  if raw =? -1 then dec_ret None
  else
    let! n := dec_of (len_from raw) in
    let! s := read_utf8 n in
    dec_ret (Some s).

Definition get_string : dec string :=
  let! s := get_nullable_string in dec_of (ok_or (InvalidLength (-1)) s).

Definition put_compact_string (value : string) : enc :=
  put_unsigned_varint (str_len value + 1) ;; put_slice (str_bytes value).

Definition put_compact_nullable_string (value : option string) : enc :=
  match value with
  | Some s => put_compact_string s
  | None => put_unsigned_varint 0
  end.

Definition get_compact_nullable_string : dec (option string) :=
  let! n := get_unsigned_varint in
  if n =? 0 then dec_ret None
  else
    let! n := dec_of (compact_len (n - 1)) in
    let! s := read_utf8 n in
    dec_ret (Some s).

Definition get_compact_string : dec string :=
  let! s := get_compact_nullable_string in dec_of (ok_or (InvalidLength (-1)) s).

(** ** Bytes *)

Definition put_bytes (value : list byte) : enc :=
  match try_from i32_min i32_max (len value) with
  | None => enc_fail (TooLong (len value) i32_max)
  | Some n => put_i32 n ;; put_slice value
  end.

Definition put_nullable_bytes (value : option (list byte)) : enc :=
  match value with
  | Some b => put_bytes b
  | None => put_i32 (-1)
  end.

Definition get_nullable_bytes : dec (option (list byte)) :=
  let! _ := ensure 4 in
  let! raw := buf_get_int 4 in
  if raw =? -1 then dec_ret None
  else
    let! n := dec_of (len_from raw) in
    let! _ := ensure n in
    let! bs := copy_to_bytes n in
    dec_ret (Some bs).

Definition put_compact_bytes (value : list byte) : enc :=
  put_unsigned_varint (len value + 1) ;; put_slice value.

Definition put_compact_nullable_bytes (value : option (list byte)) : enc :=
  match value with
  | Some b => put_compact_bytes b
  | None => put_unsigned_varint 0
  end.

Definition get_compact_nullable_bytes : dec (option (list byte)) :=
  let! n := get_unsigned_varint in
  if n =? 0 then dec_ret None
  else
    let! n := dec_of (compact_len (n - 1)) in
    let! _ := ensure n in
    let! bs := copy_to_bytes n in
    dec_ret (Some bs).

(** ** Array length prefixes *)

Definition put_array_len (n : option Z) : enc :=
  match n with
  | Some n =>
      match try_from i32_min i32_max n with
      | None => enc_fail (TooLong n i32_max)
      | Some n => put_i32 n
      end
  | None => put_i32 (-1)
  end.

Definition get_array_len : dec (option Z) :=
  let! _ := ensure 4 in
  let! raw := buf_get_int 4 in
  if raw =? -1 then dec_ret None
  else let! n := dec_of (len_from raw) in dec_ret (Some n).

Definition put_compact_array_len (n : option Z) : enc :=
  match n with
  | Some n => put_unsigned_varint (n + 1)
  | None => put_unsigned_varint 0
  end.

Definition get_compact_array_len : dec (option Z) :=
  let! n := get_unsigned_varint in
  if n =? 0 then dec_ret None
  else let! n := dec_of (compact_len (n - 1)) in dec_ret (Some n).

(** ** UUIDs *)

Definition put_uuid (value : list byte) : enc := put_slice value.
Definition get_uuid : dec (list byte) :=
  let! _ := ensure 16 in copy_to_bytes 16.

(** ** Tagged fields *)

Record RawTaggedField : Type := mkRawTaggedField {
  tag : Z;
  data : list byte;
}.

#[export] Instance RawTaggedField_eq_dec : EqDecision RawTaggedField.
Proof. solve_decision. Defined.

Definition put_tagged_fields (fields : list RawTaggedField) : enc :=
  put_unsigned_varint (len fields) ;;
  enc_each (λ field,
    put_unsigned_varint (tag field) ;;
    put_unsigned_varint (len (data field)) ;;
    put_slice (data field)) fields.

Section tagged.
Context {R : Runtime}.

(** One round of the loop: its state is the fields kept and the previous
    tag. *)
Definition tagged_field_step (s : Vec RawTaggedField * option Z) :
    bdec (Vec RawTaggedField * option Z) :=
  let '(fields, previous) := s in
  let* raw := lift get_unsigned_varint in
  let* tag := lift (dec_of (ok_or VarintOverflow (try_from 0 u32_max raw))) in
  let* _ := match previous with
            | Some previous =>
                if tag <=? previous then bdec_fail (TaggedFieldOrder previous tag)
                else bdec_ret tt
            | None => bdec_ret tt
            end in
  let* raw_len := lift get_unsigned_varint in
  let* n := lift (dec_of (len_from (default (-1) (try_from i64_min i64_max raw_len)))) in
  let* _ := lift (ensure n) in
  let* data := lift (copy_to_bytes n) in
  let* fields := bpush "RawTaggedField" fields (mkRawTaggedField tag data) in
  bdec_ret (fields, Some tag).

Definition get_tagged_fields_with_budget : bdec (list RawTaggedField) :=
  let* count := lift get_unsigned_varint in
  let* s := bloop count tagged_field_step (vec_new "RawTaggedField", None) in
  bdec_ret (items s.1).

Definition get_tagged_fields : dec (list RawTaggedField) :=
  with_default_limits get_tagged_fields_with_budget.

End tagged.

(** ** Fixed-width facts *)

Lemma ensure_ok n buf : n ≤ len buf → ensure n buf = Ok (tt, buf).
Proof. intros H. unfold ensure. by rewrite (proj2 (Z.ltb_ge _ _) H). Qed.

Lemma encodes_put_int n z : encodes (put_int n z) (be_bytes n z).
Proof. done. Qed.

Lemma gets_int n z :
  (0 < n)%nat → - 2 ^ (8 * Z.of_nat n - 1) ≤ z < 2 ^ (8 * Z.of_nat n - 1) →
  gets (let! _ := ensure (Z.of_nat n) in buf_get_int n) (be_bytes n z) z.
Proof.
  intros Hn Hz rest. unfold dec_bind.
  rewrite ensure_ok by (rewrite length_app, be_bytes_length; lia). simpl.
  unfold buf_get_int.
  rewrite take_app_exact, drop_app_exact by (by rewrite be_bytes_length).
  rewrite be_val_bytes. change 256 with (2 ^ 8). rewrite <- Z.pow_mul_r by lia.
  rewrite sint_wrap, sint_small by lia. done.
Qed.

Lemma gets_uint n z :
  0 ≤ z < 2 ^ (8 * Z.of_nat n) →
  gets (let! _ := ensure (Z.of_nat n) in buf_get_uint n) (be_bytes n z) z.
Proof.
  intros Hz rest. unfold dec_bind.
  rewrite ensure_ok by (rewrite length_app, be_bytes_length; lia). simpl.
  unfold buf_get_uint.
  rewrite take_app_exact, drop_app_exact by (by rewrite be_bytes_length).
  rewrite be_val_bytes. change 256 with (2 ^ 8). rewrite <- Z.pow_mul_r by lia.
  by rewrite Z.mod_small.
Qed.

Lemma gets_i8 z : is_i8 z → gets get_i8 (be_bytes 1 z) z.
Proof. intros H. apply (gets_int 1); [lia|]. int_lia. Qed.
Lemma gets_i16 z : is_i16 z → gets get_i16 (be_bytes 2 z) z.
Proof. intros H. apply (gets_int 2); [lia|]. int_lia. Qed.
Lemma gets_i32 z : is_i32 z → gets get_i32 (be_bytes 4 z) z.
Proof. intros H. apply (gets_int 4); [lia|]. int_lia. Qed.
Lemma gets_i64 z : is_i64 z → gets get_i64 (be_bytes 8 z) z.
Proof. intros H. apply (gets_int 8); [lia|]. int_lia. Qed.
Lemma gets_u32 z : is_u32 z → gets get_u32 (be_bytes 4 z) z.
Proof. intros H. apply (gets_uint 4). int_lia. Qed.

Lemma gets_copy n bs : n = len bs → gets (copy_to_bytes n) bs bs.
Proof.
  intros -> rest. unfold copy_to_bytes. rewrite Nat2Z.id.
  by rewrite take_app_exact, drop_app_exact.
Qed.

Lemma gets_ensure_copy {A} n bs (k : list byte → dec A) bs' y :
  n = len bs → gets (k bs) bs' y →
  gets (let! _ := ensure n in let! x := copy_to_bytes n in k x) (bs ++ bs') y.
Proof.
  intros -> Hk rest. unfold dec_bind at 1.
  rewrite ensure_ok by (rewrite !length_app; lia). simpl.
  by apply (gets_bind _ _ _ _ bs y (gets_copy _ _ eq_refl)).
Qed.

Lemma gets_ret {A} (x : A) : gets (dec_ret x) [] x.
Proof. done. Qed.

Lemma dec_of_ok {A} (x : A) : dec_of (Ok x) = dec_ret x.
Proof. done. Qed.

(** ** Varint facts *)

(** The wire form of a varint, in arithmetic. *)
Fixpoint varint_bytes (fuel : nat) (v : Z) : list byte :=
  match fuel with
  | O => []
  | S fuel' =>
      if v <? 128 then [byte_of_Z v]
      else byte_of_Z (v mod 128 + 128) :: varint_bytes fuel' (v / 128)
  end.

Lemma land_7f v : Z.land v 0x7f = v mod 128.
Proof. apply (land_low v 7). lia. Qed.

Lemma be_bytes_1 z : be_bytes 1 z = [byte_of_Z z].
Proof. cbn [be_bytes]. by rewrite Z.pow_0_r, Z.div_1_r. Qed.

Lemma encodes_varint_loop fuel v :
  0 ≤ v → encodes (put_unsigned_varint_loop fuel v) (varint_bytes fuel v).
Proof.
  revert v. induction fuel as [|fuel IH]; intros v Hv; [apply encodes_ret|].
  cbn [put_unsigned_varint_loop varint_bytes]. cbv zeta.
  rewrite land_7f, Z.shiftr_div_pow2 by lia. change (2 ^ 7) with 128.
  destruct (Z.ltb_spec v 128).
  - rewrite Z.div_small, Z.mod_small by lia. simpl.
    change [byte_of_Z v] with ([byte_of_Z v] ++ []).
    apply encodes_seq; [|apply encodes_ret]. rewrite <- be_bytes_1. done.
  - assert (1 ≤ v / 128) by (apply Z.div_le_lower_bound; lia).
    destruct (Z.eqb_spec (v / 128) 0); [lia|]. cbn [negb].
    change (Z.lor (v mod 128) 0x80) with (Z.lor (v mod 128) (Z.shiftl 1 7)).
    rewrite lor_shiftl_add by (try apply Z.mod_pos_bound; lia).
    change (?b :: ?l) with ([b] ++ l).
    apply encodes_seq; [|apply IH; lia]. rewrite <- be_bytes_1. done.
Qed.

Lemma byte_msb b : (Z.land (byte_to_Z b) 0x80 =? 0) = (byte_to_Z b <? 128).
Proof. by destruct b. Qed.
Lemma byte_over_1 b : (Z.land (byte_to_Z b) 0xfe =? 0) = (byte_to_Z b <? 2).
Proof. by destruct b. Qed.

Lemma shiftl_no_wrap x s : 0 ≤ s → 0 ≤ x < 2 ^ (64 - s) → s ≤ 64 →
  wrap 64 (Z.shiftl x s) = Z.shiftl x s.
Proof.
  intros Hs Hx Hs'. apply wrap_small. rewrite Z.shiftl_mul_pow2 by done.
  assert (2 ^ 64 = 2 ^ (64 - s) * 2 ^ s) as -> by (rewrite <- Z.pow_add_r by lia; f_equal; lia).
  assert (0 < 2 ^ s) by (apply Z.pow_pos_nonneg; lia). nia.
Qed.

Lemma varint_loop_gets fuel v acc shift rest :
  (0 < fuel)%nat → 0 ≤ v < 2 ^ (7 * Z.of_nat fuel) → 0 ≤ shift ≤ 63 →
  0 ≤ acc < 2 ^ shift → v < 2 ^ (64 - shift) →
  get_unsigned_varint_loop acc shift (varint_bytes fuel v ++ rest) =
    Ok (acc + v * 2 ^ shift, rest).
Proof.
  revert v acc shift.
  induction fuel as [|fuel IH]; intros v acc shift Hf Hv Hs Ha Hvs; [lia|].
  cbn [varint_bytes]. destruct (Z.ltb_spec v 128) as [Hlt|Hge];
    cbn [app get_unsigned_varint_loop]; cbv zeta;
    rewrite byte_over_1, byte_msb, byte_to_Z_of_Z, land_7f.
  - rewrite (Z.mod_small v 256), (Z.mod_small v 128) by lia.
    rewrite shiftl_no_wrap, lor_shiftl_add by lia.
    rewrite (proj2 (Z.ltb_lt v 128) Hlt).
    destruct (Z.eqb_spec shift 63) as [->|]; [|done].
    rewrite (proj2 (Z.ltb_lt v 2) Hvs). done.
  - pose proof (Z.mod_pos_bound v 128 eq_refl).
    rewrite (Z.mod_small (v mod 128 + 128) 256) by lia.
    replace ((v mod 128 + 128) mod 128) with (v mod 128)
      by (symmetry; rewrite <- (Z.mul_1_l 128) at 2; rewrite Z.mod_add, Z.mod_mod by lia; done).
    assert (shift < 57) as Hs7.
    { destruct (Z.lt_ge_cases shift 57) as [|Hc]; [done|].
      assert (2 ^ (64 - shift) ≤ 2 ^ 7) by (apply Z.pow_le_mono_r; lia). lia. }
    destruct (Z.eqb_spec shift 63); [lia|]. cbn [andb].
    destruct (Z.ltb_spec (v mod 128 + 128) 128); [lia|].
    destruct (Z.ltb_spec 63 (shift + 7)); [lia|].
    assert (2 ^ 7 ≤ 2 ^ (64 - shift)) by (apply Z.pow_le_mono_r; lia).
    assert (v mod 128 < 2 ^ (64 - shift)) by lia.
    rewrite shiftl_no_wrap, lor_shiftl_add by lia.
    assert (2 ^ (shift + 7) = 2 ^ shift * 128) as E by (rewrite Z.pow_add_r by lia; done).
    assert (2 ^ (64 - shift) = 2 ^ (64 - (shift + 7)) * 128) as E2.
    { rewrite <- (Z.pow_add_r 2 _ 7) by lia. f_equal. lia. }
    assert (2 ^ (7 * Z.of_nat (S fuel)) = 2 ^ (7 * Z.of_nat fuel) * 128) as E3.
    { rewrite <- (Z.pow_add_r 2 _ 7) by lia. f_equal. lia. }
    pose proof (Z.div_mod v 128 ltac:(lia)).
    assert (0 < 2 ^ shift) by (apply Z.pow_pos_nonneg; lia).
    rewrite IH; [do 2 f_equal; rewrite E; nia| | | | |].
    + destruct fuel; [simpl in E3; lia|lia].
    + split; [apply Z.div_pos; lia|apply Z.div_lt_upper_bound; lia].
    + lia.
    + nia.
    + apply Z.div_lt_upper_bound; lia.
Qed.

Lemma gets_unsigned_varint v :
  is_u64 v → gets get_unsigned_varint (varint_bytes 10 v) v.
Proof.
  intros Hv rest. unfold get_unsigned_varint.
  rewrite (varint_loop_gets 10); try int_lia; cbn; f_equal; f_equal; lia.
Qed.

Lemma encodes_unsigned_varint v :
  0 ≤ v → encodes (put_unsigned_varint v) (varint_bytes 10 v).
Proof. apply encodes_varint_loop. Qed.

Lemma varint_bytes_length fuel v :
  (0 < fuel)%nat → 0 ≤ v < 2 ^ (7 * Z.of_nat fuel) →
  len (varint_bytes fuel v) = unsigned_varint_len v.
Proof.
  revert v. induction fuel as [|fuel IH]; intros v Hf Hv; [lia|]. cbn [varint_bytes].
  unfold unsigned_varint_len, leading_zeros, div_ceil in *.
  destruct (Z.ltb_spec v 128) as [Hlt|Hge].
  - cbn [length]. destruct (Z.eqb_spec v 0) as [->|]; [done|].
    assert (0 ≤ Z.log2 v < 7) by (split; [apply Z.log2_nonneg|apply Z.log2_lt_pow2; lia]).
    replace (64 - (63 - Z.log2 v) + 7 - 1) with (Z.log2 v + 7) by lia.
    assert ((Z.log2 v + 7) / 7 = 1) as -> by
      (symmetry; apply (Z.div_unique _ _ _ (Z.log2 v)); lia). done.
  - assert (2 ^ (7 * Z.of_nat (S fuel)) = 2 ^ (7 * Z.of_nat fuel) * 128) as E3.
    { rewrite <- (Z.pow_add_r 2 _ 7) by lia. f_equal. lia. }
    assert (1 ≤ v / 128) by (apply Z.div_le_lower_bound; lia).
    cbn [length]. rewrite Nat2Z.inj_succ, IH.
    2: { destruct fuel; [simpl in E3; lia|lia]. }
    2: { split; [lia|apply Z.div_lt_upper_bound; lia]. }
    destruct (Z.eqb_spec (v / 128) 0), (Z.eqb_spec v 0); try lia.
    assert (Z.log2 (v / 128) = Z.log2 v - 7) as ->.
    { change 128 with (2 ^ 7). rewrite <- Z.shiftr_div_pow2 by lia.
      rewrite Z.log2_shiftr by lia.
      assert (7 ≤ Z.log2 v); [apply Z.log2_le_pow2; lia|lia]. }
    assert (7 ≤ Z.log2 v) by (apply Z.log2_le_pow2; lia).
    replace (64 - (63 - Z.log2 v) + 7 - 1) with (Z.log2 v + 1 * 7) by lia.
    replace (64 - (63 - (Z.log2 v - 7)) + 7 - 1) with (Z.log2 v) by lia.
    rewrite Z.div_add by lia.
    assert (1 ≤ Z.log2 v / 7) by (apply Z.div_le_lower_bound; lia). lia.
Qed.

Lemma unsigned_varint_len_bounds v : is_u64 v → 1 ≤ unsigned_varint_len v ≤ 10.
Proof.
  intros Hv. unfold unsigned_varint_len, leading_zeros, div_ceil.
  destruct (Z.eqb_spec v 0) as [->|]; [done|].
  assert (0 ≤ Z.log2 v < 64) by
    (split; [apply Z.log2_nonneg|apply Z.log2_lt_pow2; int_lia]).
  split; [lia|]. apply Z.max_lub; [|lia].
  apply (Z.div_le_upper_bound); lia.
Qed.

Lemma varint_bytes_ne v : varint_bytes 10 v ≠ [].
Proof. cbn [varint_bytes]. by destruct (v <? 128). Qed.

(** ** Zigzag facts *)

Lemma zigzag_encode_spec v :
  is_i64 v → zigzag_encode v = if v <? 0 then -2 * v - 1 else 2 * v.
Proof.
  intros Hv. unfold zigzag_encode. rewrite Z.shiftr_div_pow2, Z.shiftl_mul_pow2 by lia.
  unfold sint, wrap. change (2 ^ (64 - 1)) with (2 ^ 63). destruct (Z.ltb_spec v 0).
  - replace (v / 2 ^ 63) with (-1)
      by (apply (Z.div_unique _ _ _ (v + 2 ^ 63)); int_lia).
    rewrite Z.lxor_m1_r. unfold Z.lnot.
    destruct (Z.lt_ge_cases v (- 2 ^ 62)).
    + replace (v * 2 ^ 1 + 2 ^ 63) with (v * 2 + 2 ^ 63 + 2 ^ 64 + (-1) * 2 ^ 64) by lia.
      rewrite Z.mod_add by lia. rewrite (Z.mod_small (v * 2 + 2 ^ 63 + 2 ^ 64)) by int_lia.
      replace (Z.pred _) with (-2 * v - 1 + (-1) * 2 ^ 64) by lia.
      rewrite Z.mod_add, Z.mod_small by int_lia. done.
    + rewrite (Z.mod_small (v * 2 ^ 1 + 2 ^ 63)) by int_lia.
      rewrite Z.mod_small by int_lia. lia.
  - rewrite Z.div_small, Z.lxor_0_r by int_lia.
    destruct (Z.lt_ge_cases v (2 ^ 62)).
    + rewrite (Z.mod_small (v * 2 ^ 1 + _)) by int_lia. rewrite Z.mod_small by int_lia. lia.
    + replace (v * 2 ^ 1 + 2 ^ 63) with (v * 2 - 2 ^ 63 + 1 * 2 ^ 64) by lia.
      rewrite Z.mod_add by lia. rewrite (Z.mod_small (v * 2 - 2 ^ 63)) by int_lia.
      replace (v * 2 - 2 ^ 63 - 2 ^ 63) with (2 * v + (-1) * 2 ^ 64) by lia.
      rewrite Z.mod_add, Z.mod_small by int_lia. done.
Qed.

Lemma zigzag_encode_u64 v : is_i64 v → is_u64 (zigzag_encode v).
Proof. intros Hv. rewrite zigzag_encode_spec by done. destruct (Z.ltb_spec v 0); int_lia. Qed.

Lemma zigzag_decode_spec u :
  is_u64 u → zigzag_decode u = if u mod 2 =? 0 then u / 2 else - (u / 2) - 1.
Proof.
  intros Hu. unfold zigzag_decode. rewrite Z.shiftr_div_pow2 by lia.
  change (2 ^ 1) with 2.
  assert (Z.land u 1 = u mod 2) as -> by (apply (land_low u 1); lia).
  assert (0 ≤ u / 2 < 2 ^ 63).
  { split; [apply Z.div_pos; int_lia|apply Z.div_lt_upper_bound; int_lia]. }
  rewrite sint_small by lia.
  destruct (Z.eqb_spec (u mod 2) 0) as [->|Hn]; [apply Z.lxor_0_r|].
  pose proof (Z.mod_pos_bound u 2 eq_refl).
  replace (u mod 2) with 1 by lia. rewrite Z.lxor_m1_r. unfold Z.lnot. lia.
Qed.

Lemma zigzag_decode_encode v : is_i64 v → zigzag_decode (zigzag_encode v) = v.
Proof.
  intros Hv. rewrite zigzag_decode_spec by by apply zigzag_encode_u64.
  rewrite zigzag_encode_spec by done.
  destruct (Z.ltb_spec v 0).
  - replace (-2 * v - 1) with (1 + (- v - 1) * 2) by lia.
    rewrite Z.mod_add, Z.div_add by lia.
    change (1 mod 2 =? 0) with false. change (1 / 2) with 0. cbv iota. lia.
  - rewrite (Z.mul_comm 2), Z.mod_mul, Z.div_mul by lia. done.
Qed.

Lemma zigzag_decode_i64 u : is_u64 u → is_i64 (zigzag_decode u).
Proof.
  intros Hu. rewrite zigzag_decode_spec by done.
  assert (0 ≤ u / 2 < 2 ^ 63).
  { split; [apply Z.div_pos; int_lia|apply Z.div_lt_upper_bound; int_lia]. }
  destruct (_ =? _); int_lia.
Qed.

Definition svarint_bytes (v : Z) : list byte := varint_bytes 10 (zigzag_encode v).

Lemma encodes_varint v : is_i64 v → encodes (put_varint v) (svarint_bytes v).
Proof. intros Hv. apply encodes_unsigned_varint. by apply zigzag_encode_u64. Qed.

Lemma gets_varint v : is_i64 v → gets get_varint (svarint_bytes v) v.
Proof.
  intros Hv. unfold get_varint. rewrite <- (app_nil_r (svarint_bytes v)).
  eapply gets_bind; [apply gets_unsigned_varint; by apply zigzag_encode_u64|].
  rewrite zigzag_decode_encode by done. apply gets_ret.
Qed.

Lemma svarint_bytes_length v : is_i64 v → len (svarint_bytes v) = varint_len v.
Proof.
  intros Hv. apply varint_bytes_length; [lia|].
  apply zigzag_encode_u64 in Hv. int_lia.
Qed.

(** ** String, byte-string and array-length facts *)

Lemma gets_bind_ret {A B} (d : dec A) (f : A → B) bs x :
  gets d bs x → gets (let! y := d in dec_ret (f y)) bs (f x).
Proof. intros H rest. unfold dec_bind. by rewrite H. Qed.

Lemma gets_ensured_bind {A B} n (d : dec A) (k : A → dec B) bs1 bs2 x y :
  gets (let! _ := ensure n in d) bs1 x → gets (k x) bs2 y →
  gets (let! _ := ensure n in let! x := d in k x) (bs1 ++ bs2) y.
Proof.
  intros H1 H2 rest. specialize (H1 (bs2 ++ rest)). rewrite app_assoc in H1.
  revert H1. unfold dec_bind. destruct (ensure n _) as [[[] buf]|e]; simpl; [|done].
  intros ->. simpl. apply H2.
Qed.

Lemma gets_of {A B} (r : result DecodeError A) (k : A → dec B) x bs y :
  r = Ok x → gets (k x) bs y → gets (let! x := dec_of r in k x) bs y.
Proof. intros -> H rest. apply H. Qed.

Lemma len_from_ok n : is_usize n → len_from n = Ok n.
Proof. intros H. unfold len_from. by rewrite try_from_in. Qed.
Lemma compact_len_ok n : is_usize n → compact_len n = Ok n.
Proof. intros H. unfold compact_len. by rewrite (try_from_in 0). Qed.

Lemma str_len_nonneg s : 0 ≤ str_len s.
Proof. unfold str_len. lia. Qed.

Lemma gets_read_utf8 s : is_str s → gets (read_utf8 (str_len s)) (str_bytes s) s.
Proof.
  intros Hs. unfold read_utf8. rewrite <- (app_nil_r (str_bytes s)).
  apply gets_ensure_copy; [done|]. intros rest. unfold dec_of, from_utf8.
  rewrite Hs. simpl. by rewrite bytes_str_bytes.
Qed.

Lemma encodes_string s :
  str_len s ≤ i16_max → encodes (put_string s) (be_bytes 2 (str_len s) ++ str_bytes s).
Proof.
  intros H. pose proof (str_len_nonneg s). unfold put_string.
  rewrite try_from_in by int_lia. apply encodes_seq; [|done]. apply encodes_put_int.
Qed.

Lemma gets_nullable_string_some s :
  is_str s → str_len s ≤ i16_max →
  gets get_nullable_string (be_bytes 2 (str_len s) ++ str_bytes s) (Some s).
Proof.
  intros Hs H. pose proof (str_len_nonneg s). unfold get_nullable_string.
  apply gets_ensured_bind with (str_len s); [apply gets_i16; int_lia|].
  destruct (Z.eqb_spec (str_len s) (-1)); [lia|].
  eapply gets_of; [apply len_from_ok; int_lia|]. by apply gets_bind_ret, gets_read_utf8.
Qed.

Lemma gets_nullable_string_none : gets get_nullable_string (be_bytes 2 (-1)) None.
Proof.
  unfold get_nullable_string. rewrite <- (app_nil_r (be_bytes 2 (-1))).
  by apply gets_ensured_bind with (-1); [apply gets_i16|].
Qed.

Lemma gets_string s :
  is_str s → str_len s ≤ i16_max →
  gets get_string (be_bytes 2 (str_len s) ++ str_bytes s) s.
Proof.
  intros Hs H. unfold get_string. rewrite <- (app_nil_r (_ ++ _)).
  eapply gets_bind; [by apply gets_nullable_string_some|]. done.
Qed.

Lemma encodes_compact_string s :
  encodes (put_compact_string s) (varint_bytes 10 (str_len s + 1) ++ str_bytes s).
Proof.
  pose proof (str_len_nonneg s).
  apply encodes_seq; [apply encodes_unsigned_varint; lia|done].
Qed.

Lemma gets_compact_nullable_string_some s :
  is_str s → str_len s < u64_max →
  gets get_compact_nullable_string (varint_bytes 10 (str_len s + 1) ++ str_bytes s) (Some s).
Proof.
  intros Hs H. pose proof (str_len_nonneg s). unfold get_compact_nullable_string.
  eapply gets_bind; [apply gets_unsigned_varint; int_lia|].
  destruct (Z.eqb_spec (str_len s + 1) 0); [lia|].
  eapply gets_of; [apply compact_len_ok; int_lia|].
  replace (str_len s + 1 - 1) with (str_len s) by lia.
  by apply gets_bind_ret, gets_read_utf8.
Qed.

Lemma gets_compact_nullable_string_none :
  gets get_compact_nullable_string (varint_bytes 10 0) None.
Proof. by intros rest. Qed.

Lemma gets_compact_string s :
  is_str s → str_len s < u64_max →
  gets get_compact_string (varint_bytes 10 (str_len s + 1) ++ str_bytes s) s.
Proof.
  intros Hs H. unfold get_compact_string. rewrite <- (app_nil_r (_ ++ _)).
  eapply gets_bind; [by apply gets_compact_nullable_string_some|]. done.
Qed.

Lemma encodes_bytes_field bs :
  len bs ≤ i32_max → encodes (put_bytes bs) (be_bytes 4 (len bs) ++ bs).
Proof.
  intros H. unfold put_bytes.
  rewrite try_from_in by int_lia. apply encodes_seq; [|done]. apply encodes_put_int.
Qed.

Lemma gets_nullable_bytes_some bs :
  len bs ≤ i32_max → gets get_nullable_bytes (be_bytes 4 (len bs) ++ bs) (Some bs).
Proof.
  intros H. unfold get_nullable_bytes.
  apply gets_ensured_bind with (len bs); [apply gets_i32; int_lia|].
  destruct (Z.eqb_spec (len bs) (-1)); [lia|].
  eapply gets_of; [apply len_from_ok; int_lia|]. rewrite <- (app_nil_r bs) at 2.
  by apply gets_ensure_copy.
Qed.

Lemma gets_nullable_bytes_none : gets get_nullable_bytes (be_bytes 4 (-1)) None.
Proof.
  unfold get_nullable_bytes. rewrite <- (app_nil_r (be_bytes 4 (-1))).
  by apply gets_ensured_bind with (-1); [apply gets_i32|].
Qed.

Lemma encodes_compact_bytes bs :
  encodes (put_compact_bytes bs) (varint_bytes 10 (len bs + 1) ++ bs).
Proof. apply encodes_seq; [apply encodes_unsigned_varint; lia|done]. Qed.

Lemma gets_compact_nullable_bytes_some bs :
  len bs < u64_max →
  gets get_compact_nullable_bytes (varint_bytes 10 (len bs + 1) ++ bs) (Some bs).
Proof.
  intros H. unfold get_compact_nullable_bytes.
  eapply gets_bind; [apply gets_unsigned_varint; int_lia|].
  destruct (Z.eqb_spec (len bs + 1) 0); [lia|].
  eapply gets_of; [apply compact_len_ok; int_lia|].
  replace (len bs + 1 - 1) with (len bs) by lia. rewrite <- (app_nil_r bs) at 2.
  by apply gets_ensure_copy.
Qed.

Lemma gets_compact_nullable_bytes_none :
  gets get_compact_nullable_bytes (varint_bytes 10 0) None.
Proof. by intros rest. Qed.

Lemma encodes_array_len n :
  0 ≤ n ≤ i32_max → encodes (put_array_len (Some n)) (be_bytes 4 n).
Proof. intros H. unfold put_array_len. by rewrite try_from_in by int_lia. Qed.

Lemma gets_array_len n :
  0 ≤ n ≤ i32_max → gets get_array_len (be_bytes 4 n) (Some n).
Proof.
  intros H. unfold get_array_len. rewrite <- (app_nil_r (be_bytes 4 n)).
  apply gets_ensured_bind with n; [apply gets_i32; int_lia|].
  destruct (Z.eqb_spec n (-1)); [lia|].
  by eapply gets_of; [apply len_from_ok; int_lia|].
Qed.

Lemma gets_array_len_none : gets get_array_len (be_bytes 4 (-1)) None.
Proof. unfold get_array_len. rewrite <- (app_nil_r (be_bytes 4 (-1))).
  by apply gets_ensured_bind with (-1); [apply gets_i32|].
Qed.

Lemma encodes_compact_array_len n :
  0 ≤ n → encodes (put_compact_array_len (Some n)) (varint_bytes 10 (n + 1)).
Proof. intros H. apply encodes_unsigned_varint. lia. Qed.

Lemma gets_compact_array_len n :
  0 ≤ n < u64_max → gets get_compact_array_len (varint_bytes 10 (n + 1)) (Some n).
Proof.
  intros H. unfold get_compact_array_len. rewrite <- (app_nil_r (varint_bytes _ _)).
  eapply gets_bind; [apply gets_unsigned_varint; int_lia|].
  destruct (Z.eqb_spec (n + 1) 0); [lia|].
  eapply gets_of; [apply compact_len_ok; int_lia|].
  by replace (n + 1 - 1) with n by lia.
Qed.

Lemma gets_uuid bs : length bs = 16%nat → gets get_uuid bs bs.
Proof.
  intros H rest. unfold get_uuid, dec_bind. rewrite ensure_ok by (rewrite length_app; lia).
  simpl. apply gets_copy. lia.
Qed.

(** ** Every primitive encoder only appends *)

Lemma appends_put_int n z : appends (put_int n z).
Proof. apply appends_slice. Qed.
Lemma appends_varint_loop fuel v : appends (put_unsigned_varint_loop fuel v).
Proof.
  revert v. induction fuel as [|fuel IH]; intros v; [apply appends_ret|].
  cbn [put_unsigned_varint_loop]. cbv zeta. apply appends_seq; [apply appends_put_int|].
  destruct (_ =? 0); [apply appends_ret|apply IH].
Qed.
Lemma appends_varint v : appends (put_varint v).
Proof. apply appends_varint_loop. Qed.
Lemma appends_string s : appends (put_string s).
Proof.
  unfold put_string. destruct (try_from _ _ _); [|apply appends_fail].
  apply appends_seq; apply appends_slice.
Qed.

#[export] Hint Resolve appends_put_int appends_varint_loop appends_varint appends_string
  : appends.

(** Conversion problems are settled without looking inside these. *)
#[global] Strategy 1000 [varint_len unsigned_varint_len zigzag_encode varint_bytes
  put_unsigned_varint_loop get_unsigned_varint_loop be_bytes be_val byte_of_Z sint].

(** ** What decoders do on arbitrary input *)

(** [d] leaves a suffix of its input. *)
Definition consumes {A} (d : dec A) : Prop :=
  ∀ buf x buf', d buf = Ok (x, buf') → ∃ bs, buf = bs ++ buf'.

Lemma varint_loop_sound buf : ∀ value k v buf',
  (k < 10)%nat → 0 ≤ value < 2 ^ 64 →
  get_unsigned_varint_loop value (7 * Z.of_nat k) buf = Ok (v, buf') →
  0 ≤ v < 2 ^ 64 ∧ ∃ bs, buf = bs ++ buf' ∧ (1 ≤ length bs ≤ 10 - k)%nat.
Proof.
  induction buf as [|b buf IH]; intros value k v buf' Hk Hv; cbn [get_unsigned_varint_loop];
    [done|]. cbv zeta.
  destruct ((_ =? 63) && _); [done|].
  assert (0 ≤ Z.lor value (wrap 64 (Z.shiftl (Z.land (byte_to_Z b) 0x7f)
    (7 * Z.of_nat k))) < 2 ^ 64) as Hv'.
  { pose proof (Z.mod_pos_bound (Z.shiftl (Z.land (byte_to_Z b) 0x7f) (7 * Z.of_nat k))
      (2 ^ 64) eq_refl) as Hw. fold (wrap 64 (Z.shiftl (Z.land (byte_to_Z b) 0x7f)
      (7 * Z.of_nat k))) in Hw.
    split; [apply Z.lor_nonneg; lia|]. apply lor_lt; lia. }
  destruct (Z.land (byte_to_Z b) 0x80 =? 0).
  { intros [= <- <-]. split; [done|]. exists [b]. simpl. split; [done|lia]. }
  destruct (Z.ltb_spec 63 (7 * Z.of_nat k + 7)); [done|].
  replace (7 * Z.of_nat k + 7) with (7 * Z.of_nat (S k)) by lia.
  intros H'. apply IH in H' as [Hv'' (bs & -> & Hb)]; [|lia|done].
  split; [done|]. exists (b :: bs). simpl. split; [done|lia].
Qed.

Lemma get_unsigned_varint_sound buf v buf' :
  get_unsigned_varint buf = Ok (v, buf') →
  is_u64 v ∧ ∃ bs, buf = bs ++ buf' ∧ (1 ≤ length bs ≤ 10)%nat.
Proof.
  intros H. apply (varint_loop_sound _ 0 0) in H as [Hv (bs & ? & ?)]; [|lia|lia].
  split; [int_lia|]. exists bs. split; [done|lia].
Qed.

Lemma be_bytes_sint n v :
  (0 < n)%nat → be_bytes n (sint (8 * Z.of_nat n) v) = be_bytes n v.
Proof.
  intros Hn. rewrite <- (be_bytes_mod n n (sint _ v)) by lia.
  rewrite <- (be_bytes_mod n n v) by lia. f_equal. unfold sint.
  change 256 with (2 ^ 8). rewrite <- Z.pow_mul_r by lia.
  rewrite Zminus_mod_idemp_l. f_equal. lia.
Qed.

Lemma get_int_inv n buf z buf' :
  (0 < n ≤ length buf)%nat → buf_get_int n buf = Ok (z, buf') →
  buf = be_bytes n z ++ buf' ∧ - 2 ^ (8 * Z.of_nat n - 1) ≤ z < 2 ^ (8 * Z.of_nat n - 1).
Proof.
  intros Hn. unfold buf_get_int. intros [= <- <-].
  split; [|apply sint_range; lia]. rewrite be_bytes_sint by lia.
  assert (length (take n buf) = n) as Hl by (rewrite length_take; lia).
  pose proof (be_bytes_val (take n buf)) as E. rewrite Hl in E. rewrite E.
  by rewrite take_drop.
Qed.

Lemma get_uint_inv n buf z buf' :
  (n ≤ length buf)%nat → buf_get_uint n buf = Ok (z, buf') → buf = be_bytes n z ++ buf'.
Proof.
  intros Hn. unfold buf_get_uint. intros [= <- <-].
  assert (length (take n buf) = n) as Hl by (rewrite length_take; lia).
  pose proof (be_bytes_val (take n buf)) as E. rewrite Hl in E. rewrite E.
  by rewrite take_drop.
Qed.

Lemma ensure_inv n buf r : ensure n buf = Ok r → r = (tt, buf) ∧ n ≤ len buf.
Proof. unfold ensure. destruct (Z.ltb_spec (len buf) n); [done|]. by intros [= <-]. Qed.

Lemma copy_inv n buf bs buf' :
  0 ≤ n ≤ len buf → copy_to_bytes n buf = Ok (bs, buf') → buf = bs ++ buf' ∧ len bs = n.
Proof.
  intros Hn. unfold copy_to_bytes. intros [= <- <-]. rewrite take_drop.
  split; [done|]. rewrite length_take. lia.
Qed.

(** ** Tagged fields *)

Definition tags_ascending (fields : list RawTaggedField) : Prop :=
  StronglySorted (λ f g, tag f < tag g) fields.

Definition tagged_ok (f : RawTaggedField) : Prop :=
  is_u32 (tag f) ∧ len (data f) ≤ i64_max.

(** What a loop state of [get_tagged_fields] knows of the fields it keeps. *)
Definition tags_inv (fields : list RawTaggedField) (previous : option Z) : Prop :=
  tags_ascending fields ∧ Forall (λ f, is_u32 (tag f)) fields ∧
  match previous with
  | None => fields = []
  | Some p => Forall (λ f, tag f ≤ p) fields
  end.

Lemma tags_inv_snoc fields previous f :
  tags_inv fields previous → is_u32 (tag f) →
  (∀ p, previous = Some p → p < tag f) →
  tags_inv (fields ++ [f]) (Some (tag f)).
Proof.
  intros (Hs & Hu & Hp) Hf Hlt.
  assert (Forall (λ g, tag g < tag f) fields) as Hall.
  { destruct previous as [p|]; [|by subst]. specialize (Hlt p eq_refl).
    eapply Forall_impl; [done|]. simpl. lia. }
  split; [|split].
  - apply StronglySorted_app. split; [|split; [done|]].
    + intros x1 x2 H1 H2. apply list_elem_of_singleton in H2 as ->.
      by apply (proj1 (Forall_forall _ _) Hall).
    + repeat constructor.
  - apply Forall_app. split; [done|]. by constructor.
  - apply Forall_app. split; [|by constructor].
    eapply Forall_impl; [done|]. simpl. lia.
Qed.

Section tagged_facts.
Context {R : Runtime}.

Lemma bdec_bind_ok {A B} (d : bdec A) (k : A → bdec B) buf b r :
  (let* x := d in k x) buf b = Ok r →
  ∃ x buf' b', d buf b = Ok (x, buf', b') ∧ k x buf' b' = Ok r.
Proof. unfold bdec_bind. destruct (d buf b) as [[[x buf'] b']|]; simpl; [eauto 10|done]. Qed.

Lemma lift_of_ok {A} (r : result DecodeError A) buf b x buf' b' :
  lift (dec_of r) buf b = Ok (x, buf', b') → r = Ok x ∧ buf' = buf ∧ b' = b.
Proof. unfold lift, dec_of. destruct r; simpl; [by intros [= -> -> ->]|done]. Qed.

Lemma bpush_ok {T} ty (v : Vec T) x buf b v' buf' b' :
  bpush ty v x buf b = Ok (v', buf', b') → items v' = items v ++ [x].
Proof.
  unfold bpush. destruct (push ty b v x) as [[b1 v1] [u|e]] eqn:E; [|done].
  apply push_spec in E. by intros [= <- <- <-].
Qed.

Lemma bpush_buffer {T} ty (v : Vec T) x buf b v' buf' b' :
  bpush ty v x buf b = Ok (v', buf', b') → buf' = buf.
Proof. unfold bpush. destruct (push ty b v x) as [[? ?] [?|?]]; [|done]. by intros [= _ <- _]. Qed.

Lemma tagged_field_step_inv s buf b s' buf' b' :
  tags_inv (items s.1) s.2 →
  tagged_field_step s buf b = Ok (s', buf', b') →
  tags_inv (items s'.1) s'.2.
Proof.
  destruct s as [fields previous]. cbn. intros Hi H.
  apply bdec_bind_ok in H as (raw & ? & ? & _ & H).
  apply bdec_bind_ok in H as (tg & ? & ? & Ht & H).
  apply lift_of_ok in Ht as (Ht & _).
  apply bdec_bind_ok in H as ([] & ? & ? & Ho & H).
  do 4 apply bdec_bind_ok in H as (? & ? & ? & _ & H).
  apply bdec_bind_ok in H as (fields' & ? & ? & Hp & H).
  apply bpush_ok in Hp. injection H as <- _ _. cbn. rewrite Hp.
  unfold ok_or in Ht. destruct (try_from 0 u32_max raw) as [t|] eqn:Et; [|done].
  injection Ht as ->. apply try_from_Some in Et as [-> Hr].
  apply (tags_inv_snoc _ previous (mkRawTaggedField _ _)); [done|done|].
  intros p ->. cbn. destruct (Z.leb_spec raw p); [done|lia].
Qed.

Lemma get_tagged_fields_inv buf b fields buf' b' :
  get_tagged_fields_with_budget buf b = Ok (fields, buf', b') →
  tags_ascending fields ∧ Forall (λ f, is_u32 (tag f)) fields.
Proof.
  intros H. apply bdec_bind_ok in H as (count & buf1 & b1 & _ & H).
  apply bdec_bind_ok in H as (s & ? & ? & Hl & H). injection H as <- _ _.
  unfold bloop in Hl. rewrite iter_Z_nat in Hl.
  apply (iter_nat_inv (λ '(s, _, _), tags_inv (items s.1) s.2)) in Hl.
  - destruct Hl as (? & ? & _). done.
  - intros [[s1 ?] ?] [[s2 ?] ?] Hi Hs. by eapply tagged_field_step_inv.
  - repeat constructor.
Qed.

Definition tagged_bytes (f : RawTaggedField) : list byte :=
  varint_bytes 10 (tag f) ++ varint_bytes 10 (len (data f)) ++ data f.

Lemma encodes_tagged_fields fields :
  Forall tagged_ok fields →
  encodes (put_tagged_fields fields)
    (varint_bytes 10 (len fields) ++ concat (tagged_bytes <$> fields)).
Proof.
  intros H. apply encodes_seq; [apply encodes_unsigned_varint; lia|].
  apply encodes_each. intros f Hf. apply (proj1 (Forall_forall _ _) H) in Hf as [Ht _].
  repeat apply encodes_seq; [apply encodes_unsigned_varint; int_lia| |done].
  apply encodes_unsigned_varint; lia.
Qed.

Lemma reads_sat_ensure_copy {A} n bs (k : list byte → bdec A) bs' P :
  n = len bs → reads_sat (k bs) bs' P →
  reads_sat (let* _ := lift (ensure n) in let* x := lift (copy_to_bytes n) in k x)
    (bs ++ bs') P.
Proof.
  intros -> H rest b. destruct (H rest b) as [(x & b' & E & ?)|(e & E & ?)];
    [left; exists x, b'|right; exists e]; (split; [|done]);
    unfold bdec_bind, lift; rewrite ensure_ok by (rewrite !length_app; lia);
    rewrite <- app_assoc; cbn [res_bind]; by rewrite gets_copy.
Qed.

Lemma reads_tagged_step fields previous f :
  tagged_ok f → (∀ p, previous = Some p → p < tag f) →
  reads_sat (tagged_field_step (fields, previous)) (tagged_bytes f)
    (λ s, items s.1 = items fields ++ [f] ∧ s.2 = Some (tag f)).
Proof.
  intros [Ht Hd] Hp. unfold tagged_bytes, tagged_field_step.
  eapply reads_sat_bind; [apply sat_of_reads, reads_lift, gets_unsigned_varint; int_lia|].
  intros ? ->. rewrite try_from_in by int_lia. cbn [ok_or].
  eapply reads_sat_skip; [apply reads_of|].
  apply reads_sat_skip with tt.
  { destruct previous as [p|]; [|apply reads_ret]. specialize (Hp p eq_refl).
    destruct (Z.leb_spec (tag f) p); [lia|apply reads_ret]. }
  eapply reads_sat_bind; [apply sat_of_reads, reads_lift, gets_unsigned_varint; int_lia|].
  intros ? ->. rewrite (try_from_in i64_min) by int_lia. cbn [from_option id].
  rewrite len_from_ok by int_lia. eapply reads_sat_skip; [apply reads_of|].
  rewrite <- (app_nil_r (data f)) at 2. apply reads_sat_ensure_copy; [done|].
  rewrite <- (app_nil_r []).
  eapply reads_sat_bind; [apply reads_push|]. intros v' Hv'. apply reads_sat_ret.
  cbn. rewrite Hv'. by destruct f.
Qed.

Lemma reads_tagged_fields fields :
  Forall tagged_ok fields → tags_ascending fields → len fields ≤ u64_max →
  reads get_tagged_fields_with_budget
    (varint_bytes 10 (len fields) ++ concat (tagged_bytes <$> fields)) fields.
Proof.
  intros Hok Hs Hn. unfold get_tagged_fields_with_budget.
  eapply reads_bind; [apply reads_lift, gets_unsigned_varint; int_lia|].
  rewrite <- (app_nil_r (concat _)).
  apply (reads_sat_reads_bind _ _ _ _ (λ s, items s.1 = fields ∧ s.2 = tag <$> last fields)).
  2:{ intros s [<- _]. apply reads_ret. }
  apply (bloop_reads (λ k s, items s.1 = k ∧ s.2 = tag <$> last k)); [done|].
  intros k f k' [v previous] E [<- Hprev]. cbn in Hprev. subst previous.
  rewrite E in Hs, Hok. apply StronglySorted_app in Hs as (Hs & _ & _).
  intros rest b.
  destruct (reads_tagged_step v (tag <$> last (items v)) f) with (rest := rest) (b := b)
    as [(s & b' & ? & [Hi Hl] & ?)|?]; [| |left|by right].
  - apply Forall_app in Hok as [_ Hok]. by inversion Hok.
  - intros p Hp. destruct (last (items v)) as [g|] eqn:Eg; [|done]. injection Hp as <-.
    apply Hs; [by apply last_Some_elem_of|]. left.
  - exists s, b'. by rewrite last_snoc.
Qed.

End tagged_facts.

(** ** Properties *)

(** An unsigned varint round-trips: every [u64] is written, whatever the
    buffer already holds, as exactly [unsigned_varint_len] bytes, between one
    and ten, and read back in front of any input. *)
Theorem unsigned_varint_roundtrip (v : Z) :
  is_u64 v →
  ∃ bs, (∀ buf, put_unsigned_varint v buf = (Ok tt, buf ++ bs)) ∧
    (∀ rest, get_unsigned_varint (bs ++ rest) = Ok (v, rest)) ∧
    len bs = unsigned_varint_len v ∧ 1 ≤ len bs ≤ 10.
Proof.
  intros Hv. exists (varint_bytes 10 v).
  split; [apply encodes_unsigned_varint; int_lia|].
  split; [by apply gets_unsigned_varint|].
  rewrite varint_bytes_length by int_lia. split; [done|].
  by apply unsigned_varint_len_bounds.
Qed.

(** The zigzag map is a bijection between [i64] and [u64], so a signed
    varint round-trips at every [i64], in [varint_len] bytes. *)
Theorem signed_varint_roundtrip (v : Z) :
  is_i64 v →
  is_u64 (zigzag_encode v) ∧ zigzag_decode (zigzag_encode v) = v ∧
  ∃ bs, (∀ buf, put_varint v buf = (Ok tt, buf ++ bs)) ∧
    (∀ rest, get_varint (bs ++ rest) = Ok (v, rest)) ∧ len bs = varint_len v.
Proof.
  intros Hv. split; [by apply zigzag_encode_u64|]. split; [by apply zigzag_decode_encode|].
  exists (svarint_bytes v). split; [by apply encodes_varint|].
  split; [by apply gets_varint|]. by apply svarint_bytes_length.
Qed.

(** Whatever the input, a varint that decodes is a [u64] read from a
    non-empty prefix of at most ten bytes; otherwise the decoder stops with
    [Truncated] or [VarintOverflow], never with a value out of range. *)
Theorem unsigned_varint_sound (buf : buffer) :
  match get_unsigned_varint buf with
  | Ok (v, rest) => is_u64 v ∧ ∃ bs, buf = bs ++ rest ∧ 1 ≤ len bs ≤ 10
  | Err e => e = Truncated 1 ∨ e = VarintOverflow
  end.
Proof.
  destruct (get_unsigned_varint buf) as [[v rest]|e] eqn:E.
  - apply get_unsigned_varint_sound in E as [? (bs & ? & ?)]. split; [done|].
    exists bs. split; [done|lia].
  - unfold get_unsigned_varint in E. revert E. generalize 0 at 1. generalize 0.
    induction buf as [|b buf IH]; intros s v; cbn [get_unsigned_varint_loop]; cbv zeta.
    + intros [= <-]. by left.
    + destruct (_ && _); [intros [= <-]; by right|].
      destruct (_ =? 0); [done|]. destruct (_ <? _); [intros [= <-]; by right|]. apply IH.
Qed.

(** A string of at most [i16::MAX] bytes round-trips through the classic
    codec and a longer one is refused with the length and the bound, leaving
    the buffer untouched; the compact codec round-trips every string. *)
Theorem string_roundtrip (s : string) :
  is_str s →
  (str_len s ≤ i16_max →
     ∃ bs, (∀ buf, put_nullable_string (Some s) buf = (Ok tt, buf ++ bs)) ∧
       len bs = 2 + str_len s ∧
       ∀ rest, get_nullable_string (bs ++ rest) = Ok (Some s, rest) ∧
               get_string (bs ++ rest) = Ok (s, rest)) ∧
  (i16_max < str_len s → ∀ buf, put_string s buf = (Err (TooLong (str_len s) i16_max), buf)) ∧
  (str_len s < u64_max →
     ∃ bs, (∀ buf, put_compact_nullable_string (Some s) buf = (Ok tt, buf ++ bs)) ∧
       ∀ rest, get_compact_nullable_string (bs ++ rest) = Ok (Some s, rest) ∧
               get_compact_string (bs ++ rest) = Ok (s, rest)).
Proof.
  intros Hs. split; [|split].
  - intros Hl. exists (be_bytes 2 (str_len s) ++ str_bytes s).
    split; [by apply encodes_string|]. rewrite length_app, be_bytes_length.
    split; [unfold str_len; lia|].
    intros rest. split; [by apply gets_nullable_string_some|by apply gets_string].
  - intros Hl buf. unfold put_string, try_from.
    rewrite (proj2 (Z.leb_gt (str_len s) i16_max)) by done. by rewrite andb_false_r.
  - intros Hl. exists (varint_bytes 10 (str_len s + 1) ++ str_bytes s).
    split; [by apply encodes_compact_string|].
    intros rest. split; [by apply gets_compact_nullable_string_some|
      by apply gets_compact_string].
Qed.

(** A tagged-field section with ascending tags round-trips byte for byte:
    the decoder gives back the same raw fields under any policy unless an
    allocation is refused, and always under [UNLIMITED]. *)
Theorem tagged_fields_roundtrip {R : Runtime} (fields : list RawTaggedField) :
  Forall tagged_ok fields → tags_ascending fields → len fields ≤ u64_max →
  ∃ bs, enc_bytes (put_tagged_fields fields) = Ok bs ∧
    (∀ rest l, with_limits get_tagged_fields_with_budget l (bs ++ rest) = Ok (fields, rest) ∨
       ∃ e, with_limits get_tagged_fields_with_budget l (bs ++ rest) = Err e ∧
            is_alloc_error e) ∧
    (reliable R → ∀ rest,
       with_limits get_tagged_fields_with_budget Limits.UNLIMITED (bs ++ rest) =
       Ok (fields, rest)).
Proof.
  intros Hok Hs Hn. apply pairs_entry. eexists.
  split; [by apply encodes_tagged_fields|by apply reads_tagged_fields].
Qed.

(** C40: whatever the input and the budget, the tagged fields a decode accepts
    carry [u32] tags in strictly ascending order, so no tag appears twice. *)
Theorem tagged_fields_ascend {R : Runtime} (buf rest : buffer) (b b' : Budget) fields :
  get_tagged_fields_with_budget buf b = Ok (fields, rest, b') →
  tags_ascending fields ∧ Forall (λ f, is_u32 (tag f)) fields ∧ NoDup (tag <$> fields).
Proof.
  intros H. apply get_tagged_fields_inv in H as [Hs Hu]. split; [done|]. split; [done|].
  clear Hu. induction Hs as [|f l Hs IH Hall]; csimpl; constructor; [|done].
  intros (g & Hg & Hin)%list_elem_of_fmap.
  apply (proj1 (Forall_forall _ _) Hall) in Hin. lia.
Qed.

(** *** Witnesses *)

#[local] Existing Instance plain_runtime.

Lemma unsigned_varint_roundtrip_witness :
  enc_bytes (put_unsigned_varint 300) = Ok [Byte.xac; Byte.x02] ∧
  ∃ bs, (∀ rest, get_unsigned_varint (bs ++ rest) = Ok (300, rest)) ∧ len bs = 2.
Proof.
  split; [vm_compute; reflexivity|].
  destruct (unsigned_varint_roundtrip 300 ltac:(int_lia)) as (bs & _ & H & Hl & _).
  exists bs. split; [exact H|]. rewrite Hl. vm_compute. reflexivity.
Defined.

Lemma signed_varint_roundtrip_witness :
  zigzag_encode (-3) = 5 ∧ zigzag_decode (zigzag_encode (-3)) = -3.
Proof.
  split; [vm_compute; reflexivity|].
  apply (signed_varint_roundtrip (-3) ltac:(int_lia)).
Defined.

Lemma string_roundtrip_witness :
  ∃ bs, len bs = 7 ∧ get_string (bs ++ []) = Ok ("café"%string, []).
Proof.
  destruct (string_roundtrip "café" ltac:(vm_compute; reflexivity)) as (H & _).
  destruct (H ltac:(vm_compute; discriminate)) as (bs & _ & Hl & Hg).
  exists bs. split; [rewrite Hl; vm_compute; reflexivity|apply Hg].
Defined.

Definition sample_tags : list RawTaggedField :=
  [mkRawTaggedField 0 [Byte.x07]; mkRawTaggedField 300 []].

Lemma tagged_fields_roundtrip_witness :
  ∃ bs, enc_bytes (put_tagged_fields sample_tags) = Ok bs ∧
    with_limits get_tagged_fields_with_budget Limits.UNLIMITED (bs ++ []) =
      Ok (sample_tags, []).
Proof.
  destruct (tagged_fields_roundtrip sample_tags) as (bs & He & _ & Hu).
  - repeat constructor; vm_compute; discriminate.
  - repeat constructor.
  - vm_compute. discriminate.
  - exists bs. split; [exact He|]. apply Hu, plain_reliable.
Defined.

Lemma tagged_fields_ascend_witness :
  tags_ascending sample_tags.
Proof.
  eapply (tagged_fields_ascend
    [Byte.x02; Byte.x00; Byte.x01; Byte.x07; Byte.xac; Byte.x02; Byte.x00] []
    (mkBudget 1000 0)).
  vm_compute. reflexivity.
Defined.
