(* ===== verification/Sasl.v ===== *)
(** * SASL without I/O ([odradek-sasl/src/lib.rs, mechanism.rs, prep.rs,
      plain.rs, oauthbearer.rs])

    The mechanisms and what they have in common, and the two whose one message
    is a credential: PLAIN and OAUTHBEARER, both roles of each.  Text is the
    bytes of a [str].  The base64 and stringprep crates are classes with what
    the code relies on of them.

    The theorems: a server accepts one PLAIN token for an account, the one a
    client makes; a bearer message is refused or read back as it was given,
    extensions in order. *)
From S2P Require Import Prelude Text Wire.

(** ** Mechanisms *)

Inductive Mechanism : Type := Plain | ScramSha256 | ScramSha512 | OAuthBearer | AwsMskIam.

#[export] Instance Mechanism_eq_dec : EqDecision Mechanism.
Proof. solve_decision. Defined.

Definition name (m : Mechanism) : string :=
  match m with
  | Plain => "PLAIN"
  | ScramSha256 => "SCRAM-SHA-256"
  | ScramSha512 => "SCRAM-SHA-512"
  | OAuthBearer => "OAUTHBEARER"
  | AwsMskIam => "AWS_MSK_IAM"
  end.

Definition from_name (name : string) : option Mechanism :=
  if String.eqb name "PLAIN" then Some Plain
  else if String.eqb name "SCRAM-SHA-256" then Some ScramSha256
  else if String.eqb name "SCRAM-SHA-512" then Some ScramSha512
  else if String.eqb name "OAUTHBEARER" then Some OAuthBearer
  else if String.eqb name "AWS_MSK_IAM" then Some AwsMskIam
  else None.

Definition sends_password (m : Mechanism) : bool :=
  match m with
  | Plain | OAuthBearer => true
  | AwsMskIam => false
  | ScramSha256 | ScramSha512 => false
  end.

(** ** Errors and bounds *)

Inductive SaslError : Type :=
| Unpreparable
| Malformed (what : string)
| OutOfSequence
| NonceNotExtended
| IterationsTooLow (asked floor : Z)
| IterationsTooHigh (asked ceiling : Z)
| NoServerSignature
| ServerSignatureMismatch
| BadClientProof
| ChannelBindingMismatch
| UnknownUser
| ServerRejected (e : text)
| NotScram
| Entropy.

(** [Display]. *)
Definition display (e : SaslError) : text :=
  match e with
  | Unpreparable => str_bytes "credential cannot be normalized (RFC 4013 saslprep)"
  | Malformed what => str_bytes "malformed SASL message: bad " ++ str_bytes what
  | OutOfSequence => str_bytes "SASL steps taken out of order"
  | NonceNotExtended =>
      str_bytes "server nonce does not extend the client's, so the answer may be a replay"
  | IterationsTooLow asked floor =>
      str_bytes "server asks for " ++ decimal.print asked ++
      str_bytes " iterations, below this client's floor of " ++ decimal.print floor
  | IterationsTooHigh asked ceiling =>
      str_bytes "server asks for " ++ decimal.print asked ++
      str_bytes " iterations, above this client's ceiling of " ++ decimal.print ceiling
  | NoServerSignature => str_bytes "server did not sign the exchange"
  | ServerSignatureMismatch =>
      str_bytes "server signature mismatch: it does not know this password"
  | BadClientProof => str_bytes "client proof does not verify"
  | ChannelBindingMismatch =>
      str_bytes "channel-binding field does not match the header this exchange began with"
  | UnknownUser => str_bytes "no such user"
  | ServerRejected e => str_bytes "server rejected the exchange: " ++ e
  | NotScram => str_bytes "not a SCRAM mechanism"
  | Entropy => str_bytes "could not generate a nonce"
  end.

Record Limits : Type := mkLimits {
  min_iterations : Z;
  max_iterations : Z;
}.

Definition Limits_default : Limits := mkLimits 4096 1000000.

Definition check (l : Limits) (iterations : Z) : result SaslError unit :=
  if iterations <? min_iterations l then Err (IterationsTooLow iterations (min_iterations l))
  else if max_iterations l <? iterations then Err (IterationsTooHigh iterations (max_iterations l))
  else Ok tt.

Lemma within_limits l n : check l n = Ok tt ↔ min_iterations l ≤ n ≤ max_iterations l.
Proof.
  unfold check. destruct (Z.ltb_spec n (min_iterations l)); [split; [done|lia]|].
  destruct (Z.ltb_spec (max_iterations l) n); (split; [done|lia]) || done.
Qed.

(** ** The crates underneath *)

(** [stringprep::saslprep], which prohibits control characters. *)
Class Stringprep : Type := {
  stringprep : text → option text;
  stringprep_no_nul v v' : stringprep v = Some v' → byte_of_Z 0 ∉ v';
}.

Definition is_ascii (b : byte) : Prop := byte_to_Z b < 128.

(** [base64]'s standard alphabet, padded. *)
Class Base64 : Type := {
  b64_encode : list byte → text;
  b64_decode_crate : text → option (list byte);
  b64_decode_encode raw : b64_decode_crate (b64_encode raw) = Some raw;
  b64_no_comma raw : COMMA ∉ b64_encode raw;
  b64_ascii raw : Forall is_ascii (b64_encode raw);
  b64_nil : b64_encode [] = [];
  b64_gs2 : b64_encode (str_bytes "n,,") = str_bytes "biws";
}.

(** [b64::decode]. *)
Definition b64_decode `{Base64} (value : text) : result SaslError (list byte) :=
  ok_or (Malformed "base64") (b64_decode_crate value).

(** ** [saslprep] *)
Section prep.
Context `{Stringprep}.

(** [is_ascii_graphic], or a space. *)
Definition printable_ascii (b : byte) : bool :=
  ((33 <=? byte_to_Z b) && (byte_to_Z b <=? 126)) || (byte_to_Z b =? 32).

Definition saslprep (value : text) : result SaslError text :=
  if forallb printable_ascii value then Ok value
  else ok_or Unpreparable (stringprep value).

Lemma saslprep_ascii v : forallb printable_ascii v = true → saslprep v = Ok v.
Proof. unfold saslprep. by intros ->. Qed.

Lemma saslprep_no_nul v v' : saslprep v = Ok v' → byte_of_Z 0 ∉ v'.
Proof.
  unfold saslprep. destruct (forallb _ v) eqn:E.
  - intros [= <-] Hin. rewrite forallb_forall in E.
    specialize (E _ (proj1 (list_elem_of_In _ _) Hin)). by vm_compute in E.
  - destruct (stringprep v) eqn:Hs; [|done]. intros [= <-]. by eapply stringprep_no_nul.
Qed.

(** ** PLAIN *)

Definition NUL : byte := byte_of_Z 0.

Definition plain_token (username password : text) : result SaslError (list byte) :=
  let? username := saslprep username in
  let? password := saslprep password in
  Ok ([NUL] ++ username ++ [NUL] ++ password).

Definition verify_plain_token (token : list byte) (username password : text) :
    result SaslError bool :=
  let parts := splitn 3 NUL token in
  let? authzid := ok_or (Malformed "plain token") (parts !! 0%nat) in
  match authzid with
  | [] =>
      let? authcid := ok_or (Malformed "plain token") (parts !! 1%nat) in
      let? supplied := ok_or (Malformed "plain token") (parts !! 2%nat) in
      let? expected_user := saslprep username in
      let? expected_pass := saslprep password in
      let user_ok := bool_decide (authcid = expected_user) in
      let pass_ok := bool_decide (supplied = expected_pass) in
      Ok (user_ok && pass_ok)
  | _ => Ok false
  end.

(** The PLAIN server accepts one token for an account: the one the client
    makes from credentials that normalize the same.  It accepts no other, in
    particular none that names an identity to act as. *)
Theorem plain_accepts_one_token (username password : text) (token : list byte) :
  verify_plain_token token username password = Ok true ↔
  plain_token username password = Ok token.
Proof.
  unfold verify_plain_token, plain_token. split.
  - cbn [splitn]. destruct (split_once NUL token) as [[z r]|] eqn:E1.
    2: { destruct token; done. }
    apply split_once_Some in E1 as [-> _]. cbn [lookup list_lookup ok_or res_bind].
    destruct z; [|done].
    destruct (split_once NUL r) as [[u p]|] eqn:E2; [|done].
    apply split_once_Some in E2 as [-> _]. cbn [lookup list_lookup ok_or res_bind].
    destruct (saslprep username) as [u'|]; [|done]. cbn [res_bind].
    destruct (saslprep password) as [p'|]; [|done]. cbn [res_bind].
    intros [= [->%bool_decide_eq_true ->%bool_decide_eq_true]%andb_true_iff]. done.
  - destruct (saslprep username) as [u'|] eqn:Hu; [|done]. cbn [res_bind].
    destruct (saslprep password) as [p'|]; [|done]. cbn [res_bind].
    intros [= <-]. cbn [splitn app split_once]. rewrite bool_decide_eq_true_2 by done.
    rewrite split_once_app by (by eapply saslprep_no_nul).
    cbn [lookup list_lookup ok_or res_bind]. by rewrite !bool_decide_eq_true_2.
Qed.

End prep.

(** UTF-8 parts make UTF-8 text. *)
Lemma utf8_valid_app a b : utf8_valid a = true → utf8_valid (a ++ b) = utf8_valid b.
Proof.
  remember (length a) as n eqn:Hn. revert a Hn. induction n as [n IH] using lt_wf_ind.
  intros a Hn. destruct a as [|b0 r0]; [done|]. cbn [utf8_valid app].
  destruct (in_range 0 0x7f b0); [apply (IH (length r0)); [cbn in Hn; lia|done]|].
  destruct r0 as [|b1 r1]; [done|]. cbn [app].
  destruct (in_range 0xc2 0xdf b0).
  { intros [-> H]%andb_true_iff. apply (IH (length r1)); [cbn in Hn; lia|done|done]. }
  destruct r1 as [|b2 r2]; [done|]. cbn [app].
  match goal with |- (if ?c then _ else _) = _ → _ => destruct c end.
  { intros [-> H]%andb_true_iff. apply (IH (length r2)); [cbn in Hn; lia|done|done]. }
  destruct r2 as [|b3 r3]; [done|]. cbn [app].
  intros [[[-> ->]%andb_true_iff ->]%andb_true_iff H]%andb_true_iff.
  apply (IH (length r3)); [cbn in Hn; lia|done|done].
Qed.

Lemma utf8_ascii l : Forall is_ascii l → utf8_valid l = true.
Proof.
  induction 1 as [|b l Hb _ IH]; [done|]. cbn [utf8_valid].
  assert (in_range 0 0x7f b = true) as ->; [|done].
  unfold in_range. pose proof (byte_to_Z_range b). unfold is_ascii in Hb. lia.
Qed.

(** ** OAUTHBEARER *)

Definition KVSEP : byte := byte_of_Z 1.
Definition EQUALS : byte := byte_of_Z 61.
Definition OAUTH_GS2_HEADER : text := str_bytes "n,,".
Definition AUTH_BEARER : text := str_bytes "auth=Bearer ".

Definition contains (c : byte) (s : text) : bool := existsb (λ b, bool_decide (b = c)) s.

(** The loop that refuses an extension. *)
Fixpoint check_extensions (extensions : list (text * text)) : result SaslError unit :=
  match extensions with
  | [] => Ok tt
  | (key, value) :: rest =>
      if contains KVSEP (key ++ value) then Err (Malformed "extension")
      else if contains EQUALS key then Err (Malformed "extension")
      else check_extensions rest
  end.

(** The loop that writes them. *)
Definition put_extension (kv : text * text) : list byte :=
  kv.1 ++ [EQUALS] ++ kv.2 ++ [KVSEP].

Definition oauthbearer_token (token : text) (extensions : list (text * text)) :
    result SaslError (list byte) :=
  if contains KVSEP token || bool_decide (token = []) then Err (Malformed "bearer token")
  else
    let? _ := check_extensions extensions in
    Ok (OAUTH_GS2_HEADER ++ [KVSEP] ++ AUTH_BEARER ++ token ++ [KVSEP] ++
        flat_map put_extension extensions ++ [KVSEP]).

Definition oauthbearer_failure_ack : list byte := [KVSEP].

Definition starts_with (s p : text) : bool := bool_decide (is_Some (strip_prefix s p)).

(** [str::from_utf8], on a part of the message. *)
Definition utf8_part (what : string) (part : list byte) : result SaslError text :=
  if utf8_valid part then Ok part else Err (Malformed what).

(** The loop over what follows the token. *)
Fixpoint parse_extensions (parts : list (list byte)) : result SaslError (list (text * text)) :=
  match parts with
  | [] => Ok []
  | [] :: rest => parse_extensions rest
  | part :: rest =>
      let? part := utf8_part "extension" part in
      let? kv := ok_or (Malformed "extension") (split_once EQUALS part) in
      let? extensions := parse_extensions rest in
      Ok (kv :: extensions)
  end.

Definition parse_oauthbearer_token (message : list byte) :
    result SaslError (text * list (text * text)) :=
  let parts := split KVSEP message in
  let? gs2 := ok_or (Malformed "gs2 header") (parts !! 0%nat) in
  if negb (starts_with gs2 (str_bytes "n,")) && negb (starts_with gs2 (str_bytes "y,"))
     && negb (starts_with gs2 (str_bytes "p=")) then Err (Malformed "gs2 header")
  else
    let? auth := ok_or (Malformed "auth") (parts !! 1%nat) in
    let? auth := utf8_part "auth" auth in
    let? token := ok_or (Malformed "auth") (strip_prefix auth AUTH_BEARER) in
    match token with
    | [] => Err (Malformed "bearer token")
    | _ =>
        let? extensions := parse_extensions (drop 2 parts) in
        Ok (token, extensions)
    end.

Lemma contains_spec c s : contains c s = true ↔ c ∈ s.
Proof.
  unfold contains. rewrite existsb_exists. split.
  - intros (b & Hb & ->%bool_decide_eq_true). by apply list_elem_of_In.
  - intros H. exists c. rewrite bool_decide_eq_true_2 by done. by rewrite <- list_elem_of_In.
Qed.

Lemma contains_false c s : contains c s = false ↔ c ∉ s.
Proof. rewrite <- contains_spec. by destruct (contains c s). Qed.

(** What a token or an extension must not be to be written. *)
Definition bad_extension (kv : text * text) : Prop := KVSEP ∈ kv.1 ∨ KVSEP ∈ kv.2 ∨ EQUALS ∈ kv.1.

Lemma check_extensions_spec l :
  match check_extensions l with
  | Ok _ => Forall (λ kv, ¬ bad_extension kv) l
  | Err e => e = Malformed "extension" ∧ Exists bad_extension l
  end.
Proof.
  induction l as [|[k v] l IH]; [constructor|]. cbn [check_extensions].
  destruct (contains KVSEP (k ++ v)) eqn:E1.
  { apply contains_spec, elem_of_app in E1. split; [done|]. constructor. unfold bad_extension. tauto. }
  destruct (contains EQUALS k) eqn:E2.
  { apply contains_spec in E2. split; [done|]. constructor. unfold bad_extension. tauto. }
  apply contains_false in E1, E2. rewrite not_elem_of_app in E1.
  destruct (check_extensions l) as [[]|e].
  - constructor; [|done]. unfold bad_extension. cbn. tauto.
  - destruct IH. split; [done|]. by apply Exists_cons_tl.
Qed.

(** The parts of the extensions, then nothing. *)
Lemma split_extensions l :
  Forall (λ kv, ¬ bad_extension kv) l →
  split KVSEP (flat_map put_extension l ++ [KVSEP]) =
    ((λ kv : text * text, kv.1 ++ EQUALS :: kv.2) <$> l) ++ [[]; []].
Proof.
  induction 1 as [|[k v] l Hkv _ IH]; [done|].
  unfold bad_extension in Hkv. cbn [fst snd] in Hkv. cbn [flat_map fmap list_fmap app fst snd].
  unfold put_extension at 1. cbn [fst snd].
  replace ((k ++ [EQUALS] ++ v ++ [KVSEP]) ++ flat_map put_extension l)
    with ((k ++ EQUALS :: v) ++ KVSEP :: flat_map put_extension l)
    by (rewrite <- ?app_assoc; cbn; rewrite <- ?app_assoc; done).
  rewrite <- app_assoc. cbn [app]. rewrite split_app; [by rewrite IH|].
  rewrite not_elem_of_app, not_elem_of_cons. split_and!; [tauto| |tauto]. done.
Qed.

Lemma parse_extensions_written l :
  Forall (λ kv, ¬ bad_extension kv) l → Forall (λ kv : text * text, utf8_valid (kv.1 ++ EQUALS :: kv.2) = true) l →
  parse_extensions (((λ kv : text * text, kv.1 ++ EQUALS :: kv.2) <$> l) ++ [[]; []]) = Ok l.
Proof.
  intros Hl. induction Hl as [|[k v] l Hkv _ IH]; intros Hu; [done|].
  apply Forall_cons in Hu as [Hu1 Hu]. unfold bad_extension in Hkv. cbn [fst snd] in *.
  cbn [fmap list_fmap app fst snd].
  destruct (k ++ EQUALS :: v) as [|b s] eqn:E; [by destruct k|]. cbn [parse_extensions].
  unfold utf8_part. rewrite Hu1. cbn [res_bind]. rewrite <- E, split_once_app by tauto.
  cbn [ok_or res_bind]. by rewrite IH.
Qed.

(** A bearer message carries what it was given.  A server reads back the
    token and every extension, in order, from whatever message the client
    makes; and the client refuses to make one only for a token that is empty or
    holds the separator, or an extension that holds it or whose key holds an
    equals sign. *)
Theorem oauthbearer_round_trip (token : text) (extensions : list (text * text)) :
  utf8_valid token = true →
  Forall (λ kv : text * text, utf8_valid kv.1 = true ∧ utf8_valid kv.2 = true) extensions →
  match oauthbearer_token token extensions with
  | Ok message => parse_oauthbearer_token message = Ok (token, extensions)
  | Err _ => token = [] ∨ KVSEP ∈ token ∨ Exists bad_extension extensions
  end.
Proof.
  intros Ht He. unfold oauthbearer_token.
  destruct (contains KVSEP token) eqn:Hc; [right; left; by apply contains_spec|].
  apply contains_false in Hc. destruct (decide (token = [])) as [->|Hne]; [by left|].
  rewrite bool_decide_eq_false_2 by done. cbn [orb].
  pose proof (check_extensions_spec extensions) as Hx.
  destruct (check_extensions extensions) as [[]|e]; cbn [res_bind]; [|right; right; tauto].
  unfold parse_oauthbearer_token.
  cbn [app]. rewrite split_app by (by rewrite <- contains_spec).
  rewrite (app_assoc AUTH_BEARER), split_app
    by (rewrite not_elem_of_app; split; [by rewrite <- contains_spec|done]).
  rewrite split_extensions by done. cbn [lookup list_lookup ok_or res_bind].
  assert (starts_with OAUTH_GS2_HEADER (str_bytes "n,") = true) as -> by done. cbn [negb andb].
  unfold utf8_part. rewrite utf8_valid_app, Ht by done. cbn [res_bind].
  rewrite strip_prefix_app. cbn [ok_or res_bind]. destruct token; [done|].
  change (drop 2 (?x :: ?y :: ?l)) with l. rewrite parse_extensions_written; [done|done|].
  eapply Forall_impl; [exact He|]. intros [k v] [Hk Hv]. cbn [fst snd] in *.
  by rewrite utf8_valid_app.
Qed.

Lemma from_name_name m : from_name (name m) = Some m.
Proof. by destruct m. Qed.

(** *** Concrete parameters, for the witnesses: RFC 4648, and a normalizer that
    knows no character beyond ASCII *)
Module rfc4648.

Definition alphabet : text :=
  str_bytes "ABCDEFGHIJKLMNOPQRSTUVWXYZabcdefghijklmnopqrstuvwxyz0123456789+/".
Definition char (n : Z) : byte := nth (Z.to_nat n) alphabet (byte_of_Z 61).

Fixpoint index (c : byte) (n : Z) (l : text) : option Z :=
  match l with
  | [] => None
  | b :: l => if bool_decide (b = c) then Some n else index c (n + 1) l
  end.

Fixpoint encode (l : list byte) : text :=
  match l with
  | [] => []
  | [a] => let a := byte_to_Z a in [char (a / 4); char (a mod 4 * 16); EQUALS; EQUALS]
  | [a; b] =>
      let a := byte_to_Z a in let b := byte_to_Z b in
      [char (a / 4); char (a mod 4 * 16 + b / 16); char (b mod 16 * 4); EQUALS]
  | a :: b :: c :: l =>
      let a := byte_to_Z a in let b := byte_to_Z b in let c := byte_to_Z c in
      [char (a / 4); char (a mod 4 * 16 + b / 16); char (b mod 16 * 4 + c / 64); char (c mod 64)]
      ++ encode l
  end.

Fixpoint decode (s : text) : option (list byte) :=
  match s with
  | [] => Some []
  | c0 :: c1 :: c2 :: c3 :: s =>
      match index c0 0 alphabet, index c1 0 alphabet with
      | Some v0, Some v1 =>
          let b0 := byte_of_Z (v0 * 4 + v1 / 16) in
          match index c2 0 alphabet, index c3 0 alphabet with
          | Some v2, Some v3 =>
              rest ← decode s;
              Some (b0 :: byte_of_Z (v1 mod 16 * 16 + v2 / 4) :: byte_of_Z (v2 mod 4 * 64 + v3) :: rest)
          | Some v2, None =>
              if bool_decide (s = []) then Some [b0; byte_of_Z (v1 mod 16 * 16 + v2 / 4)] else None
          | _, _ => if bool_decide (s = []) then Some [b0] else None
          end
      | _, _ => None
      end
  | _ => None
  end.

Lemma index_char n : 0 ≤ n < 64 → index (char n) 0 alphabet = Some n ∧ char n ≠ COMMA ∧ is_ascii (char n).
Proof.
  intros Hn. assert (∀ k, (k < 64)%nat → index (char (Z.of_nat k)) 0 alphabet = Some (Z.of_nat k) ∧
    char (Z.of_nat k) ≠ COMMA ∧ is_ascii (char (Z.of_nat k))) as H.
  { intros k Hk. do 64 (destruct k; [vm_compute; split; [done|split; [discriminate|done]]|]). lia. }
  specialize (H (Z.to_nat n)). rewrite Z2Nat.id in H by lia. apply H. lia.
Qed.

Lemma index_ok n : 0 ≤ n < 64 → index (char n) 0 alphabet = Some n.
Proof. intros Hn. by apply index_char. Qed.

(** The sextets of a group, and that they are in range. *)
Ltac sextets :=
  repeat match goal with
         | b : byte |- _ =>
             lazymatch goal with
             | _ : 0 ≤ byte_to_Z b < 256 |- _ => fail
             | _ => pose proof (byte_to_Z_range b)
             end
         end.

Lemma byte_group a z : byte_to_Z a = z → byte_of_Z z = a.
Proof. intros <-. apply byte_of_Z_to_Z. Qed.

Lemma decode_encode l : decode (encode l) = Some l.
Proof.
  remember (length l) as n eqn:Hn. revert l Hn. induction n as [n IH] using lt_wf_ind.
  intros [|a [|b [|c l]]] Hn; [done| | |]; sextets; cbn [encode decode app].
  - rewrite !index_ok by (Z.to_euclidean_division_equations; lia).
    change (index EQUALS 0 alphabet) with (@None Z).
    change (bool_decide ([] = [])) with true. cbv iota.
    do 2 f_equal. apply byte_group. Z.to_euclidean_division_equations; lia.
  - rewrite !index_ok by (Z.to_euclidean_division_equations; lia).
    change (index EQUALS 0 alphabet) with (@None Z).
    change (bool_decide ([] = [])) with true. cbv iota.
    do 2 f_equal; [|f_equal]; apply byte_group; Z.to_euclidean_division_equations; lia.
  - rewrite !index_ok by (Z.to_euclidean_division_equations; lia).
    rewrite (IH (length l)) by (done || (cbn in Hn; lia)). cbn [mbind option_bind].
    do 2 f_equal; [|f_equal; [|f_equal]]; apply byte_group; Z.to_euclidean_division_equations; lia.
Qed.

Lemma no_comma l : COMMA ∉ encode l.
Proof.
  remember (length l) as n eqn:Hn. revert l Hn. induction n as [n IH] using lt_wf_ind.
  intros [|a [|b [|c l]]] Hn; [apply not_elem_of_nil| | |]; sextets; cbn [encode app];
    rewrite !not_elem_of_cons; split_and!;
    try (apply not_elem_of_nil || by (vm_compute; discriminate));
    try (apply not_eq_sym, index_char; Z.to_euclidean_division_equations; lia).
  apply (IH (length l)); [cbn in Hn; lia|done].
Qed.

Lemma ascii l : Forall is_ascii (encode l).
Proof.
  remember (length l) as n eqn:Hn. revert l Hn. induction n as [n IH] using lt_wf_ind.
  intros [|a [|b [|c l]]] Hn; [constructor| | |]; sextets; cbn [encode app];
    repeat (apply Forall_cons; split);
    try (done || by vm_compute);
    try (apply index_char; Z.to_euclidean_division_equations; lia).
  apply (IH (length l)); [cbn in Hn; lia|done].
Qed.

#[export] Instance base64 : Base64 := {|
  b64_encode := encode; b64_decode_crate := decode;
  b64_decode_encode := decode_encode; b64_no_comma := no_comma; b64_ascii := ascii;
  b64_nil := eq_refl; b64_gs2 := eq_refl |}.

End rfc4648.

(** *** Witnesses *)

#[export] Instance ascii_only : Stringprep := {|
  stringprep := λ _, None;
  stringprep_no_nul := λ v v' H, match H in _ = o return match o with Some w => byte_of_Z 0 ∉ w | None => True end with eq_refl => I end |}.

Lemma plain_accepts_one_token_witness :
  verify_plain_token (H := ascii_only) ([NUL] ++ str_bytes "admin" ++ [NUL] ++ str_bytes "p@ss")
    (str_bytes "admin") (str_bytes "p@ss") = Ok true.
Proof. apply (plain_accepts_one_token (H := ascii_only)). reflexivity. Defined.

Lemma oauthbearer_round_trip_witness :
  parse_oauthbearer_token
    (str_bytes "n,," ++ [KVSEP] ++ str_bytes "auth=Bearer tok" ++ [KVSEP] ++ str_bytes "trace=abc" ++
     [KVSEP; KVSEP]) = Ok (str_bytes "tok", [(str_bytes "trace", str_bytes "abc")]).
Proof.
  exact (oauthbearer_round_trip (str_bytes "tok") [(str_bytes "trace", str_bytes "abc")]
    eq_refl ltac:(repeat constructor)).
Defined.
