(* ===== verification/Scram.v ===== *)
(** * SCRAM ([odradek-sasl/src/scram.rs])

    Both roles of SCRAM-SHA-256 and SCRAM-SHA-512: the client's two messages
    and its check of the server's, and the server's two.  The primitives
    ([pbkdf2], [hmac], [sha2]) are the class [Crypto], of which only the width of
    what they return is used; a nonce's randomness is an argument.

    The theorems: two parties that hold the same password complete the
    exchange, whatever bytes the username and password are made of; a client
    that accepts holds the signature of its own transcript under the password's
    server key; a server that accepts has recovered a key that hashes to the
    one it stores, from a proof over its own challenge. *)
From S2P Require Import Prelude Text Sasl.

(** ** Primitives *)

Inductive Digest : Type := Sha256 | Sha512.

Definition output_size (d : Digest) : nat :=
  match d with Sha256 => 32 | Sha512 => 64 end.

Class Crypto : Type := {
  pbkdf2 : Digest → text → list byte → Z → list byte;
  mac : Digest → list byte → list byte → list byte;
  digest : Digest → list byte → list byte;
  pbkdf2_length d password salt iterations :
    length (pbkdf2 d password salt iterations) = output_size d;
  mac_length d key message : length (mac d key message) = output_size d;
  digest_length d message : length (digest d message) = output_size d;
}.

(** A [char] literal. *)
Definition ch (s : string) : byte := default (byte_of_Z 0) (head (str_bytes s)).

Definition GS2_HEADER : text := str_bytes "n,,".
Definition GS2_HEADER_B64 : text := str_bytes "biws".
Definition NONCE_BYTES : nat := 18.

Definition xor_byte (a b : byte) : byte := byte_of_Z (Z.lxor (byte_to_Z a) (byte_to_Z b)).

(** A [[u8; 64]] with a slice copied to its front. *)
Definition array64 (slice : list byte) : list byte :=
  slice ++ replicate (64 - length slice) (byte_of_Z 0).

(** One [k=v] attribute of a message. *)
Definition attr_part (key : byte) (part : text) : option text :=
  match part with
  | found :: eq :: rest => if bool_decide (eq = EQUALS ∧ found = key) then Some rest else None
  | _ => None
  end.

Definition attr (message : text) (key : byte) : option text :=
  head (omap (attr_part key) (split COMMA message)).

Section scram.
Context `{Stringprep, Base64, Crypto}.

(** [getrandom::fill], or its failure. *)
Definition fresh_nonce (raw : option (list byte)) : result SaslError text :=
  match raw with
  | Some raw => Ok (b64_encode raw)
  | None => Err Entropy
  end.

Definition hmac (d : Digest) (key message : list byte) : list byte := array64 (mac d key message).

(** ** Keys *)

Record Keys : Type := mkKeys {
  client_key : list byte;
  stored_key : list byte;
  server_key : list byte;
  keys_len : nat;
}.

Definition derive_keys (d : Digest) (password : text) (salt : list byte) (iterations : Z) : Keys :=
  let len := output_size d in
  let salted := pbkdf2 d password salt iterations in
  let client_key := hmac d salted (str_bytes "Client Key") in
  let stored := array64 (digest d (take len client_key)) in
  mkKeys client_key stored (hmac d salted (str_bytes "Server Key")) len.

Definition server_signature (k : Keys) (d : Digest) (auth_message : text) : text :=
  let sig := hmac d (take (keys_len k) (server_key k)) auth_message in
  b64_encode (take (keys_len k) sig).

Definition client_proof (k : Keys) (d : Digest) (auth_message : text) : text :=
  let signature := hmac d (take (keys_len k) (stored_key k)) auth_message in
  b64_encode (zip_with xor_byte (take (keys_len k) (client_key k)) (take (keys_len k) signature)).

(** [with_digest!]. *)
Definition with_digest {A} (m : Mechanism) (body : Digest → A) : result SaslError A :=
  match m with
  | ScramSha256 => Ok (body Sha256)
  | ScramSha512 => Ok (body Sha512)
  | _ => Err NotScram
  end.

(** ** What a server stores *)

Record ScramCredential : Type := mkScramCredential {
  cred_mechanism : Mechanism;
  cred_salt : list byte;
  cred_iterations : Z;
  cred_stored_key : list byte;
  cred_server_key : list byte;
  cred_len : nat;
}.

Definition derive (mechanism : Mechanism) (password : text) (salt : list byte) (iterations : Z)
    (limits : Limits) : result SaslError ScramCredential :=
  let? _ := check limits iterations in
  let? password := saslprep password in
  let? keys := with_digest mechanism (λ d, derive_keys d password salt iterations) in
  Ok (mkScramCredential mechanism salt iterations (stored_key keys) (server_key keys) (keys_len keys)).

Definition keys (c : ScramCredential) : list byte * list byte :=
  (take (cred_len c) (cred_stored_key c), take (cred_len c) (cred_server_key c)).

Definition from_stored (mechanism : Mechanism) (salt : list byte) (iterations : Z)
    (stored_key server_key : list byte) : result SaslError ScramCredential :=
  let? len := with_digest mechanism output_size in
  if negb (length stored_key =? len)%nat || negb (length server_key =? len)%nat
  then Err (Malformed "stored key width")
  else Ok (mkScramCredential mechanism salt iterations (array64 stored_key) (array64 server_key) len).

(** ** The client *)

Record Pending : Type := mkPending {
  auth_message : text;
  pending_keys : Keys;
}.

Record ScramClient : Type := mkScramClient {
  mechanism : Mechanism;
  username : text;
  password : text;
  nonce : text;
  limits : Limits;
  client_first_bare : option text;
  pending : option Pending;
}.

Definition new_client (mechanism : Mechanism) (username password : text) (limits : Limits)
    (raw : option (list byte)) : result SaslError ScramClient :=
  let? username := saslprep username in
  let? password := saslprep password in
  let? nonce := fresh_nonce raw in
  Ok (mkScramClient mechanism username password nonce limits None None).

Definition escape (username : text) : text :=
  replace [COMMA] (str_bytes "=2C") (replace [EQUALS] (str_bytes "=3D") username).

Definition client_first (c : ScramClient) : text * ScramClient :=
  let bare := str_bytes "n=" ++ escape (username c) ++ str_bytes ",r=" ++ nonce c in
  (GS2_HEADER ++ bare,
   mkScramClient (mechanism c) (username c) (password c) (nonce c) (limits c) (Some bare) (pending c)).

Definition client_final_inner (c : ScramClient) (server_first : text) :
    result SaslError (text * Pending) :=
  let? client_first_bare := ok_or OutOfSequence (client_first_bare c) in
  let? server_nonce := ok_or (Malformed "nonce") (attr server_first (ch "r")) in
  if negb (starts_with server_nonce (nonce c)) || bool_decide (server_nonce = nonce c)
  then Err NonceNotExtended
  else
    let? salt := ok_or (Malformed "salt") (attr server_first (ch "s")) in
    let? salt := b64_decode salt in
    let? iterations := ok_or (Malformed "iterations") (attr server_first (ch "i")) in
    let? iterations := ok_or (Malformed "iterations") (decimal.parse_unsigned u32_max iterations) in
    let? _ := check (limits c) iterations in
    let without_proof := str_bytes "c=" ++ GS2_HEADER_B64 ++ str_bytes ",r=" ++ server_nonce in
    let auth_message := client_first_bare ++ [COMMA] ++ server_first ++ [COMMA] ++ without_proof in
    let? (proof, keys) := with_digest (mechanism c) (λ d,
      let keys := derive_keys d (password c) salt iterations in
      (client_proof keys d auth_message, keys)) in
    Ok (without_proof ++ str_bytes ",p=" ++ proof, mkPending auth_message keys).

Definition client_final (c : ScramClient) (server_first : text) :
    result SaslError text * ScramClient :=
  match client_final_inner c server_first with
  | Err e => (Err e, c)
  | Ok (message, p) =>
      (Ok message,
       mkScramClient (mechanism c) (username c) (password c) (nonce c) (limits c)
         (client_first_bare c) (Some p))
  end.

Definition verify_server_final (c : ScramClient) (server_final : text) : result SaslError unit :=
  let? pending := ok_or OutOfSequence (pending c) in
  match attr server_final (ch "e") with
  | Some error => Err (ServerRejected error)
  | None =>
      let? signature := ok_or NoServerSignature (attr server_final (ch "v")) in
      let? expected := with_digest (mechanism c) (λ d,
        server_signature (pending_keys pending) d (auth_message pending)) in
      if bool_decide (expected = signature) then Ok tt else Err ServerSignatureMismatch
  end.

(** ** The server *)

Record ServerPending : Type := mkServerPending {
  sp_client_first_bare : text;
  sp_server_first : text;
  expected_binding : text;
}.

Record ScramServer : Type := mkScramServer {
  sv_username : text;
  credential : ScramCredential;
  sv_nonce : text;
  sv_pending : option ServerPending;
}.

Definition new_server (username : text) (credential : ScramCredential) (raw : option (list byte)) :
    result SaslError ScramServer :=
  let? username := saslprep username in
  let? nonce := fresh_nonce raw in
  Ok (mkScramServer username credential nonce None).

Definition unescape (user : text) : text :=
  replace (str_bytes "=3D") [EQUALS] (replace (str_bytes "=2C") [COMMA] user).

(** The GS2 header and the rest: cut after the second comma. *)
Definition gs2_split (client_first : text) : option (text * text) :=
  match split_once COMMA client_first with
  | None => None
  | Some (first, rest) =>
      match split_once COMMA rest with
      | None => None
      | Some (second, bare) => Some (first ++ [COMMA] ++ second ++ [COMMA], bare)
      end
  end.

Definition server_first_inner (s : ScramServer) (client_first : text) :
    result SaslError ServerPending :=
  let? (header, bare) := ok_or (Malformed "gs2 header") (gs2_split client_first) in
  let expected_binding := b64_encode header in
  let? client_nonce := ok_or (Malformed "nonce") (attr bare (ch "r")) in
  let? user := ok_or (Malformed "username") (attr bare (ch "n")) in
  let? user := saslprep (unescape user) in
  if bool_decide (user ≠ sv_username s) then Err UnknownUser
  else
    let server_first :=
      str_bytes "r=" ++ client_nonce ++ sv_nonce s ++
      str_bytes ",s=" ++ b64_encode (cred_salt (credential s)) ++
      str_bytes ",i=" ++ decimal.print (cred_iterations (credential s)) in
    Ok (mkServerPending bare server_first expected_binding).

Definition server_first (s : ScramServer) (client_first : text) :
    result SaslError text * ScramServer :=
  match server_first_inner s client_first with
  | Err e => (Err e, s)
  | Ok p => (Ok (sp_server_first p),
             mkScramServer (sv_username s) (credential s) (sv_nonce s) (Some p))
  end.

Definition server_final (s : ScramServer) (client_final : text) : result SaslError text :=
  let? pending := ok_or OutOfSequence (sv_pending s) in
  let? binding := ok_or (Malformed "channel binding") (attr client_final (ch "c")) in
  if bool_decide (binding ≠ expected_binding pending) then Err ChannelBindingMismatch
  else
    let? proof := ok_or (Malformed "proof") (attr client_final (ch "p")) in
    let? (without_proof, _) := ok_or (Malformed "proof") (rsplit_once (str_bytes ",p=") client_final) in
    let auth_message :=
      sp_client_first_bare pending ++ [COMMA] ++ sp_server_first pending ++ [COMMA] ++ without_proof in
    let? proof := b64_decode proof in
    let credential := credential s in
    let len := cred_len credential in
    if negb (length proof =? len)%nat then Err BadClientProof
    else
      let mechanism := cred_mechanism credential in
      let? verified := with_digest mechanism (λ d,
        let signature := hmac d (take len (cred_stored_key credential)) auth_message in
        let client_key := array64 (zip_with xor_byte (take len proof) (take len signature)) in
        bool_decide (digest d (take len client_key) = take len (cred_stored_key credential))) in
      if negb verified then Err BadClientProof
      else
        let? signature := with_digest mechanism (λ d,
          let sig := hmac d (take len (cred_server_key credential)) auth_message in
          b64_encode (take len sig)) in
        Ok (str_bytes "v=" ++ signature).

End scram.

(** ** Messages read back *)

Lemma attr_field a rest key :
  COMMA ∉ a →
  attr (a ++ COMMA :: rest) key =
    match attr_part key a with Some v => Some v | None => attr rest key end.
Proof.
  intros Ha. unfold attr. rewrite split_app by done. cbn [omap list_omap].
  by destruct (attr_part key a).
Qed.

Lemma attr_last a key : COMMA ∉ a → attr a key = attr_part key a.
Proof. intros Ha. unfold attr. rewrite split_none by done. cbn. by destruct (attr_part key a). Qed.

(** What [client_first] makes of one byte of the username. *)
Definition escaped (b : byte) : text :=
  if bool_decide (b = EQUALS) then str_bytes "=3D"
  else if bool_decide (b = COMMA) then str_bytes "=2C" else [b].

Lemma escape_cons b u : escape (b :: u) = escaped b ++ escape u.
Proof.
  unfold escape, escaped. case_bool_decide as He; [subst b|].
  - rewrite replace_char.
    change (str_bytes "=3D") with [Byte.x3d; Byte.x33; Byte.x44]. cbn [app].
    by rewrite !replace_other by done.
  - rewrite (replace_other EQUALS) by done. case_bool_decide as Hc; [subst b|by rewrite replace_other].
    by rewrite replace_char.
Qed.

Lemma escape_no_comma u : COMMA ∉ escape u.
Proof.
  induction u as [|b u IH]; [apply not_elem_of_nil|]. rewrite escape_cons, not_elem_of_app.
  split; [|done]. unfold escaped. case_bool_decide; [by rewrite <- contains_spec|].
  case_bool_decide; [by rewrite <- contains_spec|]. rewrite list_elem_of_singleton. congruence.
Qed.

(** A username comes back whatever bytes it is made of. *)
Lemma unescape_escape u : unescape (escape u) = u.
Proof.
  unfold unescape.
  assert (replace (str_bytes "=2C") [COMMA] (escape u) =
    flat_map (λ b, if bool_decide (b = EQUALS) then str_bytes "=3D" else [b]) u) as ->.
  { induction u as [|b u IH]; [done|]. rewrite escape_cons. unfold escaped. cbn [flat_map].
    case_bool_decide as He; [|case_bool_decide as Hc].
    - subst b. rewrite <- IH. generalize (escape u) as s. intros s.
      change (str_bytes "=3D") with [Byte.x3d; Byte.x33; Byte.x44].
      change (str_bytes "=2C") with [Byte.x3d; Byte.x32; Byte.x43]. cbn [app].
      unfold replace at 1. cbn [replace_from].
      assert (strip_prefix (Byte.x3d :: Byte.x33 :: Byte.x44 :: s) [Byte.x3d; Byte.x32; Byte.x43]
        = None) as -> by done.
      by rewrite !(strip_prefix_ne _ Byte.x3d) by done.
    - subst b. rewrite <- IH. apply replace_occurrence.
    - rewrite <- IH. cbn [app]. by apply replace_other. }
  induction u as [|b u IH]; [done|]. cbn [flat_map]. case_bool_decide as He.
  - subst b. rewrite <- IH at 2. apply replace_occurrence.
  - cbn [app]. rewrite <- IH at 2. by apply replace_other.
Qed.

(** ** Keys *)

Lemma lxor_byte a b : 0 ≤ a < 256 → 0 ≤ b < 256 → 0 ≤ Z.lxor a b < 256.
Proof.
  intros Ha Hb. assert (0 ≤ Z.lxor a b) as H0 by (apply Z.lxor_nonneg; lia). split; [done|].
  destruct (decide (Z.lxor a b = 0)) as [->|Hne]; [lia|]. change 256 with (2 ^ 8).
  apply Z.log2_lt_pow2; [lia|]. pose proof (Z.log2_lxor a b ltac:(lia) ltac:(lia)).
  assert (∀ c, 0 ≤ c < 256 → Z.log2 c < 8) as Hlog.
  { intros c Hc. destruct (decide (c = 0)) as [->|]; [done|]. apply Z.log2_lt_pow2; lia. }
  pose proof (Hlog a Ha). pose proof (Hlog b Hb). lia.
Qed.

Lemma xor_byte_involutive a b : xor_byte (xor_byte a b) b = a.
Proof.
  unfold xor_byte. pose proof (byte_to_Z_range a). pose proof (byte_to_Z_range b).
  rewrite byte_to_Z_of_Z, Z.mod_small by (by apply lxor_byte).
  by rewrite Z.lxor_assoc, Z.lxor_nilpotent, Z.lxor_0_r, byte_of_Z_to_Z.
Qed.

Lemma zip_xor_involutive l : ∀ k, length l = length k → zip_with xor_byte (zip_with xor_byte l k) k = l.
Proof.
  induction l as [|a l IH]; intros [|b k]; try done. intros [= Hl]. cbn.
  by rewrite xor_byte_involutive, IH.
Qed.

(** RFC 5802's key material, by name. *)
Section exchange.
Context `{Stringprep, Base64, Crypto}.

Definition SaltedPassword (d : Digest) (p : text) (salt : list byte) (i : Z) : list byte :=
  pbkdf2 d p salt i.
Definition ClientKey d p salt i : list byte := mac d (SaltedPassword d p salt i) (str_bytes "Client Key").
Definition StoredKey d p salt i : list byte := digest d (ClientKey d p salt i).
Definition ServerKey d p salt i : list byte := mac d (SaltedPassword d p salt i) (str_bytes "Server Key").

Lemma take_array64 l n : length l = n → take n (array64 l) = l.
Proof. intros <-. unfold array64. by rewrite take_app_length. Qed.

Lemma take_hmac d k m : take (output_size d) (hmac d k m) = mac d k m.
Proof. apply take_array64, mac_length. Qed.

Lemma derived_keys d p salt i :
  let k := derive_keys d p salt i in
  keys_len k = output_size d ∧
  take (output_size d) (client_key k) = ClientKey d p salt i ∧
  take (output_size d) (stored_key k) = StoredKey d p salt i ∧
  take (output_size d) (server_key k) = ServerKey d p salt i.
Proof.
  cbn. rewrite !take_hmac. split_and!; try done. apply take_array64, digest_length.
Qed.

Lemma client_proof_spec d p salt i m :
  client_proof (derive_keys d p salt i) d m =
    b64_encode (zip_with xor_byte (ClientKey d p salt i) (mac d (StoredKey d p salt i) m)).
Proof.
  destruct (derived_keys d p salt i) as (Hl & Hc & Hs & _). unfold client_proof.
  by rewrite Hl, Hc, Hs, take_hmac.
Qed.

Lemma server_signature_spec d p salt i m :
  server_signature (derive_keys d p salt i) d m = b64_encode (mac d (ServerKey d p salt i) m).
Proof.
  destruct (derived_keys d p salt i) as (Hl & _ & _ & Hs). unfold server_signature.
  by rewrite Hl, Hs, take_hmac.
Qed.

(** The digest of a mechanism, if it is SCRAM's. *)
Definition digest_of (m : Mechanism) : option Digest :=
  match m with ScramSha256 => Some Sha256 | ScramSha512 => Some Sha512 | _ => None end.

Lemma with_digest_of {A} m (body : Digest → A) :
  with_digest m body = match digest_of m with Some d => Ok (body d) | None => Err NotScram end.
Proof. by destruct m. Qed.

Lemma digest_of_some {A} m (body : Digest → A) a :
  with_digest m body = Ok a → ∃ d, digest_of m = Some d ∧ a = body d.
Proof. rewrite with_digest_of. destruct (digest_of m) as [d|]; [|done]. intros [= <-]. by exists d. Qed.

Lemma b64_nonempty raw : raw ≠ [] → b64_encode raw ≠ [].
Proof.
  intros Hr He. apply Hr. pose proof (b64_decode_encode raw) as E.
  rewrite He, <- b64_nil, b64_decode_encode in E. by injection E.
Qed.

Lemma starts_with_app p s : starts_with (p ++ s) p = true.
Proof. unfold starts_with. rewrite strip_prefix_app. by apply bool_decide_eq_true_2. Qed.

Lemma print_no_comma z : is_u32 z → COMMA ∉ decimal.print z.
Proof.
  intros Hz Hin. destruct (print_plain z) as [Hp _]; [int_lia|].
  eapply Forall_forall in Hin; [|exact Hp]. by apply (not_plain_byte 44) in Hin; [|lia|lia].
Qed.

(** ** The whole exchange, as [lib.rs] shows it *)

Definition scram_exchange (client : ScramClient) (server : ScramServer) :
    result SaslError (ScramClient * ScramServer) :=
  let '(first, client) := client_first client in
  let '(r, server) := server_first server first in
  let? challenge := r in
  let '(r, client) := client_final client challenge in
  let? final_message := r in
  let? signature := server_final server final_message in
  let? _ := verify_server_final client signature in
  Ok (client, server).

(** The messages, as RFC 5802 writes them. *)
Definition bare_of (u n : text) : text := str_bytes "n=" ++ escape u ++ str_bytes ",r=" ++ n.
Definition challenge_of (n n' : text) (salt : list byte) (i : Z) : text :=
  str_bytes "r=" ++ n ++ n' ++ str_bytes ",s=" ++ b64_encode salt ++ str_bytes ",i=" ++ decimal.print i.
Definition without_proof_of (n : text) : text :=
  str_bytes "c=" ++ GS2_HEADER_B64 ++ str_bytes ",r=" ++ n.
Definition AuthMessage (bare challenge without_proof : text) : text :=
  bare ++ [COMMA] ++ challenge ++ [COMMA] ++ without_proof.

(** The server's answer to a client that means its account. *)
Lemma server_first_answers s u n :
  COMMA ∉ n → saslprep u = Ok (sv_username s) →
  server_first_inner s (GS2_HEADER ++ bare_of u n) = Ok (mkServerPending (bare_of u n)
    (challenge_of n (sv_nonce s) (cred_salt (credential s)) (cred_iterations (credential s)))
    GS2_HEADER_B64).
Proof.
  intros Hn Hu. set (bare := bare_of u n). unfold server_first_inner.
  assert (gs2_split (GS2_HEADER ++ bare) = Some (GS2_HEADER, bare)) as ->.
  { generalize bare. intros m. unfold gs2_split.
    change (GS2_HEADER ++ m) with (str_bytes "n" ++ COMMA :: COMMA :: m).
    rewrite split_once_app by (by rewrite <- contains_spec). cbn [split_once].
    by rewrite bool_decide_eq_true_2. }
  cbn [ok_or res_bind]. change GS2_HEADER with (str_bytes "n,,") at 1. rewrite b64_gs2.
  assert (∀ key, attr bare key =
    match attr_part key (str_bytes "n=" ++ escape u) with
    | Some v => Some v | None => attr_part key (str_bytes "r=" ++ n) end) as Hattr.
  { intros key. unfold bare, bare_of. rewrite (app_assoc (str_bytes "n=")).
    change (str_bytes ",r=" ++ n) with (COMMA :: (str_bytes "r=" ++ n)).
    rewrite attr_field, attr_last; [done|..]; rewrite not_elem_of_app; split; try done;
      try (by rewrite <- contains_spec). apply escape_no_comma. }
  assert (attr bare (ch "r") = Some (n)) as -> by (by rewrite Hattr).
  assert (attr bare (ch "n") = Some (escape u)) as -> by (by rewrite Hattr).
  cbn [ok_or res_bind]. rewrite unescape_escape, Hu. cbn [res_bind].
  by rewrite bool_decide_eq_false_2 by (intros []; done).
Qed.

(** The client's answer to a challenge of that shape. *)
Lemma client_final_answers c d bare server_nonce salt i :
  client_first_bare c = Some bare → digest_of (mechanism c) = Some d →
  COMMA ∉ nonce c → COMMA ∉ server_nonce → server_nonce ≠ [] → is_u32 i → check (limits c) i = Ok tt →
  let challenge := challenge_of (nonce c) server_nonce salt i in
  let without_proof := without_proof_of (nonce c ++ server_nonce) in
  let auth := AuthMessage bare challenge without_proof in
  let keys := derive_keys d (password c) salt i in
  client_final_inner c challenge =
    Ok (without_proof ++ str_bytes ",p=" ++ client_proof keys d auth, mkPending auth keys).
Proof.
  intros Hbare Hd Hn Hs Hne Hi Hlim challenge without_proof auth keys.
  assert (∀ key, attr challenge key =
    match attr_part key (str_bytes "r=" ++ nonce c ++ server_nonce) with
    | Some v => Some v
    | None =>
        match attr_part key (str_bytes "s=" ++ b64_encode salt) with
        | Some v => Some v | None => attr_part key (str_bytes "i=" ++ decimal.print i) end
    end) as Hattr.
  { intros key.
    replace challenge with ((str_bytes "r=" ++ nonce c ++ server_nonce) ++ COMMA ::
      (str_bytes "s=" ++ b64_encode salt) ++ COMMA :: (str_bytes "i=" ++ decimal.print i))
      by (unfold challenge, challenge_of; by rewrite <- !app_assoc).
    rewrite !attr_field, attr_last; [done|..]; rewrite ?not_elem_of_app; split_and?;
      try done; try (by rewrite <- contains_spec); [by apply print_no_comma|apply b64_no_comma]. }
  assert (attr challenge (ch "r") = Some (nonce c ++ server_nonce)) as Hr by (by rewrite Hattr).
  assert (attr challenge (ch "s") = Some (b64_encode salt)) as Hsalt by (by rewrite Hattr).
  assert (attr challenge (ch "i") = Some (decimal.print i)) as Hit by (by rewrite Hattr).
  unfold client_final_inner. rewrite Hbare, Hr. cbn [ok_or res_bind]. rewrite starts_with_app.
  rewrite bool_decide_eq_false_2.
  2: { rewrite <- (app_nil_r (nonce c)) at 2. by intros ?%app_inv_head. }
  cbn [negb orb]. rewrite Hsalt. cbn [ok_or res_bind]. unfold b64_decode.
  rewrite b64_decode_encode. cbn [ok_or res_bind]. rewrite Hit. cbn [ok_or res_bind].
  rewrite parse_unsigned_print by (int_lia || exact Hi). cbn [ok_or res_bind]. rewrite Hlim.
  cbn [res_bind]. rewrite with_digest_of, Hd. done.
Qed.

(** The attributes of a client-final message. *)
Lemma client_final_attrs n proof :
  COMMA ∉ n → COMMA ∉ proof →
  let without_proof := without_proof_of n in
  let message := without_proof ++ str_bytes ",p=" ++ proof in
  attr message (ch "c") = Some GS2_HEADER_B64 ∧ attr message (ch "p") = Some proof ∧
  rsplit_once (str_bytes ",p=") message = Some (without_proof, proof).
Proof.
  intros Hn Hp without_proof message.
  assert (∀ key, attr message key =
    match attr_part key (str_bytes "c=" ++ GS2_HEADER_B64) with
    | Some v => Some v
    | None => match attr_part key (str_bytes "r=" ++ n) with
              | Some v => Some v | None => attr_part key (str_bytes "p=" ++ proof) end
    end) as Hattr.
  { intros key.
    replace message with ((str_bytes "c=" ++ GS2_HEADER_B64) ++ COMMA ::
      (str_bytes "r=" ++ n) ++ COMMA :: (str_bytes "p=" ++ proof))
      by (unfold message, without_proof, without_proof_of; by rewrite <- !app_assoc).
    rewrite !attr_field, attr_last; [done|..]; rewrite ?not_elem_of_app; split_and?;
      try done; by rewrite <- contains_spec. }
  split_and!; [by rewrite Hattr|by rewrite Hattr|].
  apply (rsplit_once_app COMMA (str_bytes "p=")); [by rewrite <- contains_spec|done].
Qed.

(** What a server says to the proof of a client with the same keys. *)
Lemma server_final_answers s d p n i pending :
  sv_pending s = Some pending → expected_binding pending = GS2_HEADER_B64 → COMMA ∉ n →
  digest_of (cred_mechanism (credential s)) = Some d →
  let salt := cred_salt (credential s) in
  cred_len (credential s) = output_size d →
  take (output_size d) (cred_stored_key (credential s)) = StoredKey d p salt i →
  take (output_size d) (cred_server_key (credential s)) = ServerKey d p salt i →
  let without_proof := without_proof_of n in
  let auth := AuthMessage (sp_client_first_bare pending) (sp_server_first pending) without_proof in
  let keys := derive_keys d p salt i in
  server_final s (without_proof ++ str_bytes ",p=" ++ client_proof keys d auth) =
    Ok (str_bytes "v=" ++ server_signature keys d auth).
Proof.
  intros Hp Hb Hn Hd salt Hl Hst Hsv without_proof auth keys.
  set (proof := client_proof keys d auth).
  destruct (client_final_attrs n proof) as (Hc & Hpr & Hr); [done|apply b64_no_comma|].
  unfold server_final. rewrite Hp. cbn [ok_or res_bind]. fold without_proof in Hc, Hpr, Hr.
  rewrite Hc. cbn [ok_or res_bind]. rewrite bool_decide_eq_false_2 by (intros []; done).
  rewrite Hpr. cbn [ok_or res_bind]. rewrite Hr. cbn [ok_or res_bind].
  change (_ ++ [COMMA] ++ _ ++ [COMMA] ++ without_proof) with auth.
  unfold proof, keys. rewrite client_proof_spec. unfold b64_decode. rewrite b64_decode_encode.
  cbn [ok_or res_bind]. rewrite Hl.
  assert (length (ClientKey d p salt i) = output_size d) as Hck by apply mac_length.
  assert (length (mac d (StoredKey d p salt i) auth) = output_size d) as Hmac by apply mac_length.
  assert (length (zip_with xor_byte (ClientKey d p salt i) (mac d (StoredKey d p salt i) auth)) =
    output_size d) as Hz by (rewrite length_zip_with; lia).
  rewrite Hz, Nat.eqb_refl. cbn [negb]. rewrite !with_digest_of, Hd. cbn [res_bind].
  rewrite Hst, take_hmac, (take_ge (zip_with _ _ _)), zip_xor_involutive, take_array64 by lia.
  rewrite bool_decide_eq_true_2 by done. cbn [negb].
  by rewrite Hsv, take_hmac, server_signature_spec.
Qed.

(** The client's check of the signature under its own keys. *)
Lemma verify_signed c d auth k :
  digest_of (mechanism c) = Some d → pending c = Some (mkPending auth k) →
  verify_server_final c (str_bytes "v=" ++ server_signature k d auth) = Ok tt.
Proof.
  intros Hd Hp. unfold verify_server_final. rewrite Hp. cbn [ok_or res_bind pending_keys auth_message].
  rewrite !attr_last by (rewrite not_elem_of_app; split; [by rewrite <- contains_spec|apply b64_no_comma]).
  change (attr_part (ch "e") (str_bytes "v=" ++ ?x)) with (@None text).
  change (attr_part (ch "v") (str_bytes "v=" ++ ?x)) with (Some x).
  cbn [ok_or res_bind]. rewrite with_digest_of, Hd. cbn [res_bind].
  by rewrite bool_decide_eq_true_2.
Qed.

(** What goes over the wire is ASCII: base64, decimal digits and attribute names. *)
Lemma ascii_app a b : Forall is_ascii a → Forall is_ascii b → Forall is_ascii (a ++ b).
Proof. apply Forall_app_2. Qed.

Lemma ascii_literal l : forallb (λ b, byte_to_Z b <? 128) l = true → Forall is_ascii l.
Proof.
  rewrite forallb_forall. intros H'. apply Forall_forall. intros b Hb.
  specialize (H' b (proj1 (list_elem_of_In _ _) Hb)). unfold is_ascii. lia.
Qed.

Lemma ascii_print z : is_u32 z → Forall is_ascii (decimal.print z).
Proof.
  intros Hz. destruct (print_plain z) as [Hp _]; [int_lia|].
  eapply Forall_impl; [exact Hp|]. intros b Hb%plain_bounds. unfold is_ascii. lia.
Qed.

(** The exchange of two parties that hold the same password, message by
    message. *)
Lemma scram_run m user pass salt raw_client raw_server iterations mine theirs cred client server :
  is_u32 iterations → check mine iterations = Ok tt →
  derive m pass salt iterations theirs = Ok cred →
  new_client m user pass mine (Some raw_client) = Ok client →
  new_server user cred (Some raw_server) = Ok server → raw_server ≠ [] →
  (∀ u, saslprep user = Ok u → saslprep u = Ok u) →
  let '(first, client1) := client_first client in
  ∃ challenge server1 message client2 reply,
    server_first server first = (Ok challenge, server1) ∧ Forall is_ascii challenge ∧
    client_final client1 challenge = (Ok message, client2) ∧
    server_final server1 message = Ok reply ∧ Forall is_ascii reply ∧
    verify_server_final client2 reply = Ok tt.
Proof.
  intros Hi Hlim (? & _ & (p & Hp & (k & (d & Hd & ->)%digest_of_some & Hc)%res_bind_ok)%res_bind_ok)%res_bind_ok.
  injection Hc as <-.
  intros (u & Hu & (p' & Hp' & Hc)%res_bind_ok)%res_bind_ok. rewrite Hp in Hp'. injection Hp' as <-.
  cbn [fresh_nonce res_bind] in Hc. injection Hc as <-.
  intros (u' & Hu' & Hs)%res_bind_ok Hne Hidem. rewrite Hu in Hu'. injection Hu' as <-.
  cbn [fresh_nonce res_bind] in Hs. injection Hs as <-.
  set (n := b64_encode raw_client). set (n' := b64_encode raw_server).
  assert (COMMA ∉ n) as Hn by apply b64_no_comma. assert (COMMA ∉ n') as Hn' by apply b64_no_comma.
  cbn [client_first username mechanism password nonce limits pending].
  change (str_bytes "n=" ++ escape u ++ str_bytes ",r=" ++ n) with (bare_of u n).
  unfold server_first. rewrite server_first_answers by (done || by apply Hidem).
  unfold client_final. set (c := mkScramClient m u p n mine (Some (bare_of u n)) None).
  pose proof (client_final_answers c d (bare_of u n) n' salt iterations eq_refl Hd Hn Hn'
    (b64_nonempty _ Hne) Hi Hlim) as Hcf.
  cbn zeta in Hcf. change (nonce c) with n in Hcf. change (password c) with p in Hcf.
  cbn [sp_server_first sv_nonce credential cred_salt cred_iterations].
  set (k := derive_keys d p salt iterations).
  set (sv := mkScramServer u
    (mkScramCredential m salt iterations (stored_key k) (server_key k) (keys_len k)) n'
    (Some (mkServerPending (bare_of u n) (challenge_of n n' salt iterations) GS2_HEADER_B64))).
  destruct (derived_keys d p salt iterations) as (Hlen & _ & Hst & Hsv).
  pose proof (server_final_answers sv d p (n ++ n') iterations _ eq_refl eq_refl) as Hfin.
  rewrite not_elem_of_app in Hfin. specialize (Hfin (conj Hn Hn') Hd Hlen Hst Hsv). cbn zeta in Hfin.
  cbn [sv credential cred_salt sp_client_first_bare sp_server_first] in Hfin.
  exists (challenge_of n n' salt iterations), sv. do 3 eexists. split_and!; [reflexivity| |by rewrite Hcf|exact Hfin| |by apply (verify_signed _ d)].
  - unfold challenge_of. repeat apply ascii_app; try (by apply ascii_literal);
      (apply b64_ascii || by apply ascii_print).
  - apply ascii_app; [by apply ascii_literal|apply b64_ascii].
Qed.

(** C13: A client and a server that hold the same password authenticate each
    other.  Whatever bytes the username and password are made of -- commas and
    equals signs included -- and whatever the salt, the nonces and the hash,
    the exchange runs to its end: the server accepts the client's proof and the
    client the server's signature. *)
Theorem scram_authenticates_both (m : Mechanism) (user pass salt raw_client raw_server : list byte)
    (iterations : Z) (mine theirs : Limits) (cred : ScramCredential)
    (client : ScramClient) (server : ScramServer) :
  is_u32 iterations → check mine iterations = Ok tt →
  derive m pass salt iterations theirs = Ok cred →
  new_client m user pass mine (Some raw_client) = Ok client →
  new_server user cred (Some raw_server) = Ok server → raw_server ≠ [] →
  (∀ u, saslprep user = Ok u → saslprep u = Ok u) →
  ∃ c s, scram_exchange client server = Ok (c, s).
Proof.
  intros Hi Hl Hd Hc Hs Hne Hidem.
  pose proof (scram_run _ _ _ _ _ _ _ _ _ _ _ _ Hi Hl Hd Hc Hs Hne Hidem) as Hrun.
  unfold scram_exchange. destruct (client_first client) as [first client1].
  destruct Hrun as (ch & s1 & msg & c2 & rep & -> & _ & Hcf & Hsf & _ & Hv).
  cbn [res_bind]. rewrite Hcf. cbn [res_bind]. rewrite Hsf. cbn [res_bind]. rewrite Hv.
  by do 2 eexists.
Qed.

End exchange.

(** ** What a client that accepts has seen *)
Section safety.
Context `{Stringprep, Base64, Crypto}.

(** The calls a client can be made to take, in any order and number. *)
Inductive client_call : Type :=
| CallFirst
| CallFinal (server_first : text).

Definition client_step (c : ScramClient) (call : client_call) : ScramClient :=
  match call with
  | CallFirst => (client_first c).2
  | CallFinal server_first => (client_final c server_first).2
  end.

(** [challenge] is one the client may answer: its nonce extended, a salt, and a
    count within the limits. *)
Definition acceptable (c : ScramClient) (challenge n' : text) (salt : list byte) (i : Z) : Prop :=
  ∃ salt64 digits,
    attr challenge (ch "r") = Some (nonce c ++ n') ∧ n' ≠ [] ∧
    attr challenge (ch "s") = Some salt64 ∧ b64_decode salt64 = Ok salt ∧
    attr challenge (ch "i") = Some digits ∧ decimal.parse_unsigned u32_max digits = Some i ∧
    min_iterations (limits c) ≤ i ≤ max_iterations (limits c).

Lemma client_final_acceptable c challenge message p :
  client_final_inner c challenge = Ok (message, p) →
  ∃ d bare n' salt i,
    digest_of (mechanism c) = Some d ∧ client_first_bare c = Some bare ∧
    acceptable c challenge n' salt i ∧
    p = mkPending (AuthMessage bare challenge (without_proof_of (nonce c ++ n')))
          (derive_keys d (password c) salt i).
Proof.
  unfold client_final_inner. destruct (client_first_bare c) as [bare|]; [|done]. cbn [ok_or res_bind].
  destruct (attr challenge (ch "r")) as [r|] eqn:Hr; [|done]. cbn [ok_or res_bind].
  destruct (starts_with r (nonce c)) eqn:Hs; [|done]. cbn [negb orb].
  apply bool_decide_eq_true in Hs as [n' ->%strip_prefix_Some]. case_bool_decide as Hne; [done|].
  destruct (attr challenge (ch "s")) as [s64|] eqn:Hs; [|done]. cbn [ok_or res_bind].
  destruct (b64_decode s64) as [salt|] eqn:Hb; [|done]. cbn [res_bind].
  destruct (attr challenge (ch "i")) as [ds|] eqn:Hi; [|done]. cbn [ok_or res_bind].
  destruct (decimal.parse_unsigned u32_max ds) as [i|] eqn:Hp; [|done]. cbn [ok_or res_bind].
  destruct (check (limits c) i) as [[]|] eqn:Hl; [|done]. cbn [res_bind].
  rewrite with_digest_of. destruct (digest_of (mechanism c)) as [d|] eqn:Hd; [|done].
  cbn [res_bind]. intros [= _ <-]. exists d, bare, n', salt, i. split_and!; [done|done| |done].
  exists s64, ds. split_and!; try done; [|by apply within_limits..].
  intros ->. by rewrite app_nil_r in Hne.
Qed.

(** What every state of a client started as [c0] satisfies after [calls]. *)
Definition client_invariant (c0 : ScramClient) (calls : list client_call) (c : ScramClient) : Prop :=
  mechanism c = mechanism c0 ∧ username c = username c0 ∧ password c = password c0 ∧
  nonce c = nonce c0 ∧ limits c = limits c0 ∧
  (∀ bare, client_first_bare c = Some bare → bare = bare_of (username c0) (nonce c0)) ∧
  ∀ p, pending c = Some p → ∃ d challenge n' salt i,
    digest_of (mechanism c0) = Some d ∧ CallFinal challenge ∈ calls ∧
    acceptable c0 challenge n' salt i ∧
    p = mkPending (AuthMessage (bare_of (username c0) (nonce c0)) challenge
          (without_proof_of (nonce c0 ++ n'))) (derive_keys d (password c0) salt i).

Lemma client_step_invariant c0 calls c call :
  client_invariant c0 calls c → client_invariant c0 (calls ++ [call]) (client_step c call).
Proof.
  intros (Hm & Hu & Hp & Hn & Hl & Hb & Hpend).
  assert (∀ p, pending c = Some p → ∃ d challenge n' salt i,
    digest_of (mechanism c0) = Some d ∧ CallFinal challenge ∈ calls ++ [call] ∧
    acceptable c0 challenge n' salt i ∧
    p = mkPending (AuthMessage (bare_of (username c0) (nonce c0)) challenge
          (without_proof_of (nonce c0 ++ n'))) (derive_keys d (password c0) salt i)) as Hold.
  { intros p (d & m & n' & salt & i & Hd & Hin & Hrest)%Hpend. exists d, m, n', salt, i.
    rewrite elem_of_app. tauto. }
  destruct call as [|challenge]; cbn [client_step client_first snd].
  - split_and!; cbn; try done. intros bare [= <-]. by rewrite Hu, Hn.
  - unfold client_final. destruct (client_final_inner c challenge) as [[message p]|] eqn:E; cbn [snd].
    2: by split_and!.
    apply client_final_acceptable in E as (d & bare & n' & salt & i & Hd & Hbare & Hacc & ->).
    split_and!; cbn; try done. intros p [= <-]. exists d, challenge, n', salt, i.
    rewrite Hm in Hd. split_and!; [done|rewrite elem_of_app, list_elem_of_singleton; by right| |].
    + unfold acceptable in *. by rewrite Hn, Hl in Hacc.
    + by rewrite (Hb bare Hbare), Hn, Hp.
Qed.

(** The signature an accepting client was given. *)
Definition signed_by_password (m : Mechanism) (pass : text) (c0 : ScramClient) (challenge final : text) : Prop :=
  ∃ d p n' salt i,
    digest_of m = Some d ∧ saslprep pass = Ok p ∧ acceptable c0 challenge n' salt i ∧
    attr final (ch "e") = None ∧
    attr final (ch "v") = Some (b64_encode (mac d (ServerKey d p salt i)
      (AuthMessage (bare_of (username c0) (nonce c0)) challenge (without_proof_of (nonce c0 ++ n'))))).

Lemma accepting_client m user pass lim raw c0 calls final :
  new_client m user pass lim raw = Ok c0 →
  verify_server_final (foldl client_step c0 calls) final = Ok tt →
  ∃ challenge, CallFinal challenge ∈ calls ∧ signed_by_password m pass c0 challenge final.
Proof.
  intros Hnew. assert (client_invariant c0 calls (foldl client_step c0 calls)) as Hinv.
  { induction calls as [|call calls IH] using rev_ind; cbn [foldl].
    - apply res_bind_ok in Hnew as (u & _ & (p & _ & (n & _ & [= <-])%res_bind_ok)%res_bind_ok).
      by split_and!; cbn.
    - rewrite foldl_snoc. by apply client_step_invariant. }
  apply res_bind_ok in Hnew as (u & Hu & (p & Hp & (n & _ & [= <-])%res_bind_ok)%res_bind_ok).
  destruct Hinv as (Hm & _ & _ & _ & _ & _ & Hpend). set (c := foldl client_step _ calls) in *.
  unfold verify_server_final. destruct (pending c) as [pd|]; [|done]. cbn [ok_or res_bind].
  destruct (Hpend pd eq_refl) as (d & challenge & n' & salt & i & Hd & Hin & Hacc & ->).
  destruct (attr final (ch "e")) eqn:He; [done|].
  destruct (attr final (ch "v")) as [sig|] eqn:Hv; [|done]. cbn [ok_or res_bind].
  rewrite with_digest_of, Hm, Hd. cbn [res_bind pending_keys auth_message].
  case_bool_decide as Hsig; [|done]. intros _. rewrite server_signature_spec in Hsig. subst sig.
  exists challenge. split; [done|]. by exists d, p, n', salt, i.
Qed.

(** C14: A client that accepts has heard from a holder of its password.  After any
    calls in any order, the check of the server's last message passes only if
    that message carries the signature, under the server key this client's own
    password gives, of the transcript of a challenge it answered -- one whose
    nonce strictly extends the client's and whose iteration count is within the
    client's limits. *)
Theorem client_trusts_only_its_signature (m : Mechanism) (user pass : text) (lim : Limits)
    (raw : option (list byte)) (c0 : ScramClient) (calls : list client_call) (final : text) :
  new_client m user pass lim raw = Ok c0 →
  verify_server_final (foldl client_step c0 calls) final = Ok tt →
  ∃ d p challenge n' salt i,
    digest_of m = Some d ∧ saslprep pass = Ok p ∧
    CallFinal challenge ∈ calls ∧ acceptable c0 challenge n' salt i ∧
    attr final (ch "e") = None ∧
    attr final (ch "v") = Some (b64_encode (mac d (ServerKey d p salt i)
      (AuthMessage (bare_of (username c0) (nonce c0)) challenge (without_proof_of (nonce c0 ++ n'))))).
Proof.
  intros Hnew Hv. destruct (accepting_client _ _ _ _ _ _ _ _ Hnew Hv)
    as (challenge & Hin & d & p & n' & salt & i & Hd & Hp & Hacc & He & Hs).
  by exists d, p, challenge, n', salt, i.
Qed.

(** A server that accepts has recovered the key it stores.  The proof in the
    client's last message, combined with the stored key's signature of a
    transcript that holds this server's own challenge, hashes to the stored key;
    and the client saw the header the exchange began with. *)
Theorem server_accepts_only_stored_key (s : ScramServer) (first challenge message reply : text) (s' : ScramServer) :
  server_first s first = (Ok challenge, s') → server_final s' message = Ok reply →
  ∃ d header bare without_proof rest proof,
    digest_of (cred_mechanism (credential s)) = Some d ∧
    first = header ++ bare ∧ attr message (ch "c") = Some (b64_encode header) ∧
    message = without_proof ++ str_bytes ",p=" ++ rest ∧
    attr message (ch "p") = Some proof ∧
    (∃ user, attr bare (ch "n") = Some user ∧ saslprep (unescape user) = Ok (sv_username s)) ∧
    (∃ n, attr bare (ch "r") = Some n ∧ challenge =
      challenge_of n (sv_nonce s) (cred_salt (credential s)) (cred_iterations (credential s))) ∧
    let '(stored, server) := keys (credential s) in
    let auth := AuthMessage bare challenge without_proof in
    (∃ raw, b64_decode proof = Ok raw ∧ length raw = cred_len (credential s) ∧
      digest d (take (cred_len (credential s)) (array64 (zip_with xor_byte raw
        (take (cred_len (credential s)) (hmac d stored auth))))) = stored) ∧
    reply = str_bytes "v=" ++ b64_encode (take (cred_len (credential s)) (hmac d server auth)).
Proof.
  unfold server_first. destruct (server_first_inner s first) as [pd|] eqn:E; [|done]. intros [= <- <-].
  unfold server_first_inner in E. destruct (gs2_split first) as [[header bare]|] eqn:Hg; [|done].
  cbn [ok_or res_bind] in E. assert (first = header ++ bare) as Hsplit.
  { unfold gs2_split in Hg. destruct (split_once COMMA first) as [[a r]|] eqn:E1; [|done].
    destruct (split_once COMMA r) as [[b b']|] eqn:E2; [|done]. injection Hg as <- <-.
    apply split_once_Some in E1 as [-> _], E2 as [-> _].
    rewrite <- !app_assoc. cbn [app]. by rewrite <- app_assoc. }
  destruct (attr bare (ch "r")) as [n|] eqn:Hn; [|done]. cbn [ok_or res_bind] in E.
  destruct (attr bare (ch "n")) as [user|] eqn:Huser; [|done]. cbn [ok_or res_bind] in E.
  destruct (saslprep (unescape user)) as [u|] eqn:Hu; [|done]. cbn [res_bind] in E.
  case_bool_decide as Heq; [done|]. injection E as <-. subst u.
  unfold server_final. cbn [sv_pending ok_or res_bind credential sp_client_first_bare
    sp_server_first expected_binding].
  destruct (attr message (ch "c")) as [binding|]; [|done]. cbn [ok_or res_bind].
  case_bool_decide as Hb; [done|]. subst binding.
  destruct (attr message (ch "p")) as [proof|]; [|done]. cbn [ok_or res_bind].
  destruct (rsplit_once (str_bytes ",p=") message) as [[wp rest]|] eqn:Hr; [|done]. cbn [ok_or res_bind].
  destruct (b64_decode proof) as [raw|] eqn:Hraw; [|done]. cbn [res_bind].
  destruct (Nat.eqb_spec (length raw) (cred_len (credential s))) as [Hlen|]; [|done]. cbn [negb].
  rewrite !with_digest_of. destruct (digest_of (cred_mechanism (credential s))) as [d|]; [|done].
  cbn [res_bind]. case_bool_decide as Hv; [|done]. cbn [negb]. intros [= <-].
  apply rsplit_once_Some in Hr as ->.
  exists d, header, bare, wp, rest, proof. split_and!; try done; [by exists user|by exists n|].
  split; [|done]. exists raw. split_and!; [done|done|]. by rewrite (take_ge raw) in Hv by lia.
Qed.

End safety.

(** *** Witnesses: primitives that fill a digest from a checksum, and one
    exchange over them *)
Module toy.

Import rfc4648.

Definition checksum (l : list byte) : Z :=
  foldl (λ acc b, (acc * 31 + byte_to_Z b + 7) mod 65521) 1 l.
Definition fill (d : Digest) (l : list byte) : list byte :=
  (λ i, byte_of_Z (checksum l * (i + 3) / 5)) <$> seqZ 0 (Z.of_nat (output_size d)).

Lemma fill_length d l : length (fill d l) = output_size d.
Proof. unfold fill. rewrite length_fmap, length_seqZ. lia. Qed.

#[export] Instance crypto : Crypto := {|
  pbkdf2 := λ d p s i, fill d (p ++ s ++ decimal.print i);
  mac := λ d k m, fill d (k ++ m);
  digest := fill;
  pbkdf2_length := λ d p s i, fill_length d _;
  mac_length := λ d k m, fill_length d _;
  digest_length := fill_length |}.

Definition user : text := str_bytes "us=er,1".
Definition pass : text := str_bytes "pencil".
Definition salt : list byte := str_bytes "salt".
Definition raw_client : list byte := str_bytes "fyko+d2lbbFgONRv9q".
Definition raw_server : list byte := str_bytes "3rfcNHYJY1ZVvWVs7j".

Definition cred : ScramCredential :=
  let k := derive_keys Sha256 pass salt 4096 in
  mkScramCredential ScramSha256 salt 4096 (stored_key k) (server_key k) (keys_len k).
Definition client : ScramClient :=
  mkScramClient ScramSha256 user pass (b64_encode raw_client) Limits_default None None.
Definition server : ScramServer := mkScramServer user cred (b64_encode raw_server) None.

Definition first : text := (client_first client).1.
Definition challenge : text := match (server_first server first).1 with Ok m => m | Err _ => [] end.
Definition message : text :=
  match (client_final (client_first client).2 challenge).1 with Ok m => m | Err _ => [] end.
Definition reply : text :=
  match server_final (server_first server first).2 message with Ok m => m | Err _ => [] end.

End toy.

Import rfc4648 toy.

Lemma scram_authenticates_both_witness : ∃ c s, scram_exchange toy.client toy.server = Ok (c, s).
Proof.
  apply (scram_authenticates_both ScramSha256 toy.user toy.pass toy.salt toy.raw_client toy.raw_server
    4096 Limits_default Limits_default toy.cred toy.client toy.server);
    [vm_compute; split; discriminate|reflexivity|reflexivity|reflexivity|reflexivity|discriminate|].
  intros u E. vm_compute in E. injection E as <-. reflexivity.
Defined.

Lemma client_trusts_only_its_signature_witness :
  ∃ n' salt i, acceptable toy.client toy.challenge n' salt i.
Proof.
  destruct (client_trusts_only_its_signature ScramSha256 toy.user toy.pass Limits_default
    (Some toy.raw_client) toy.client [CallFirst; CallFinal toy.challenge] toy.reply)
    as (d & p & m & n' & salt & i & _ & _ & Hin & Hacc & _);
    [reflexivity|vm_compute; reflexivity|].
  exists n', salt, i. rewrite !elem_of_cons in Hin.
  destruct Hin as [Hin|[Hin|Hin]]; [discriminate Hin|injection Hin as ->; exact Hacc|].
  by apply not_elem_of_nil in Hin.
Defined.

Lemma server_accepts_only_stored_key_witness :
  ∃ proof, attr toy.message (ch "p") = Some proof.
Proof.
  destruct (server_accepts_only_stored_key toy.server toy.first toy.challenge toy.message toy.reply
    (server_first toy.server toy.first).2) as (d & h & b & w & r & proof & _ & _ & _ & _ & Hp & _);
    [vm_compute; reflexivity|vm_compute; reflexivity|].
  by exists proof.
Defined.
