(* ===== verification/MskIam.v ===== *)
(** * AWS_MSK_IAM ([odradek-sasl/src/msk_iam.rs])

    The one message a client of Amazon MSK sends: a Signature Version 4
    signature over a notional request, with the parameters that were signed.
    [serde_json] and the Unicode table of [to_lowercase] are parameters; HMAC
    and SHA-256 are [Crypto]'s.

    The theorems: the date computed by hand is the calendar's, for every day;
    and what is percent-encoded decodes to what it was. *)
From S2P Require Import Prelude Text Sasl Scram.

Definition VERSION : text := str_bytes "2020_10_22".
Definition ACTION : text := str_bytes "kafka-cluster:Connect".
Definition SERVICE : text := str_bytes "kafka-cluster".
Definition ALGORITHM : text := str_bytes "AWS4-HMAC-SHA256".
Definition EXPIRY_SECONDS : Z := 900.

Record AwsCredentials : Type := mkAwsCredentials {
  access_key_id : text;
  secret_access_key : text;
  session_token : option text;
}.

Definition new_credentials (access_key_id secret_access_key : text) : AwsCredentials :=
  mkAwsCredentials access_key_id secret_access_key None.
Definition with_session_token (c : AwsCredentials) (token : text) : AwsCredentials :=
  mkAwsCredentials (access_key_id c) (secret_access_key c) (Some token).

(** ** The calendar *)

(** Days since the epoch to a year, a month and a day; [div_euclid] and
    [rem_euclid] by a positive number are [Z]'s. *)
Definition civil_from_days (z : Z) : Z * Z * Z :=
  let z := z + 719468 in
  let era := z / 146097 in
  let doe := z mod 146097 in
  let yoe := (doe - doe / 1460 + doe / 36524 - doe / 146096) / 365 in
  let y := yoe + era * 400 in
  let doy := doe - (365 * yoe + yoe / 4 - yoe / 100) in
  let mp := (5 * doy + 2) / 153 in
  let d := doy - (153 * mp + 2) / 5 + 1 in
  let m := if mp <? 10 then mp + 3 else mp - 9 in
  ((if m <=? 2 then y + 1 else y), m, d).

(** [{z:0width$}], for a [z] that is not negative. *)
Definition zero_padded (width : nat) (z : Z) : text :=
  let digits := decimal.print z in
  replicate (width - length digits) (byte_of_Z 48) ++ digits.

Definition format_timestamps (timestamp : Z) : text * text :=
  let days := timestamp / 86400 in
  let seconds := timestamp mod 86400 in
  let '(year, month, day) := civil_from_days days in
  let date := zero_padded 4 year ++ zero_padded 2 month ++ zero_padded 2 day in
  (date ++ str_bytes "T" ++ zero_padded 2 (seconds / 3600) ++
   zero_padded 2 (seconds mod 3600 / 60) ++ zero_padded 2 (seconds mod 60) ++ str_bytes "Z",
   date).

(** ** Encodings *)

Definition nibble (upper : bool) (n : Z) : byte :=
  if n <? 10 then byte_of_Z (48 + n) else byte_of_Z ((if upper then 55 else 87) + n).

Definition hex_byte (upper : bool) (b : byte) : text :=
  [nibble upper (byte_to_Z b / 16); nibble upper (byte_to_Z b mod 16)].

Definition hex (bytes : list byte) : text := flat_map (hex_byte false) bytes.

Definition unreserved (b : byte) : bool :=
  let z := byte_to_Z b in
  ((65 <=? z) && (z <=? 90)) || ((97 <=? z) && (z <=? 122)) || ((48 <=? z) && (z <=? 57))
  || (z =? 45) || (z =? 46) || (z =? 95) || (z =? 126).

Definition uri_encode (value : text) : text :=
  flat_map (λ b, if unreserved b then [b] else byte_of_Z 37 :: hex_byte true b) value.

(** [Ord] of a [String], and of a pair of them. *)
Fixpoint text_leb (a b : text) : bool :=
  match a, b with
  | [], _ => true
  | _ :: _, [] => false
  | x :: a, y :: b =>
      (byte_to_Z x <? byte_to_Z y) || ((byte_to_Z x =? byte_to_Z y) && text_leb a b)
  end.

Definition pair_le (a b : text * text) : Prop :=
  (if bool_decide (a.1 = b.1) then text_leb a.2 b.2 else text_leb a.1 b.1) = true.
#[export] Instance pair_le_dec : RelDecision pair_le.
Proof. intros a b. unfold pair_le. apply _. Defined.

(** [join]. *)
Fixpoint join (sep : text) (l : list text) : text :=
  match l with
  | [] => []
  | [x] => x
  | x :: l => x ++ sep ++ join sep l
  end.

Section token.
Context `{Crypto}.
(** [str::to_lowercase], and [serde_json::to_vec] of an object of strings. *)
Context (to_lowercase : text → text).
Context (to_vec : list (text * text) → option (list byte)).

(** ** The signature *)

Definition signing_key (secret datestamp region service : text) : list byte :=
  let k_date := mac Sha256 (str_bytes "AWS4" ++ secret) datestamp in
  let k_region := mac Sha256 k_date region in
  let k_service := mac Sha256 k_region service in
  mac Sha256 k_service (str_bytes "aws4_request").

Definition newline : text := [byte_of_Z 10].

Definition query_params (c : AwsCredentials) (credential amz_date : text) : list (text * text) :=
  [(str_bytes "Action", ACTION);
   (str_bytes "X-Amz-Algorithm", ALGORITHM);
   (str_bytes "X-Amz-Credential", credential);
   (str_bytes "X-Amz-Date", amz_date);
   (str_bytes "X-Amz-Expires", decimal.print EXPIRY_SECONDS);
   (str_bytes "X-Amz-SignedHeaders", str_bytes "host")] ++
  match session_token c with
  | Some token => [(str_bytes "X-Amz-Security-Token", token)]
  | None => []
  end.

Definition query_param (kv : text * text) : text := uri_encode kv.1 ++ str_bytes "=" ++ uri_encode kv.2.

Definition canonical_query (params : list (text * text)) : text :=
  join (str_bytes "&") (query_param <$> merge_sort pair_le params).

Definition payload_fields (c : AwsCredentials) (host user_agent credential amz_date signature : text) :
    list (text * text) :=
  [(str_bytes "version", VERSION);
   (str_bytes "host", host);
   (str_bytes "user-agent", user_agent);
   (str_bytes "action", ACTION);
   (str_bytes "x-amz-algorithm", ALGORITHM);
   (str_bytes "x-amz-credential", credential);
   (str_bytes "x-amz-date", amz_date);
   (str_bytes "x-amz-expires", decimal.print EXPIRY_SECONDS);
   (str_bytes "x-amz-signedheaders", str_bytes "host");
   (str_bytes "x-amz-signature", signature)] ++
  match session_token c with
  | Some token => [(str_bytes "x-amz-security-token", token)]
  | None => []
  end.

Definition msk_iam_token (c : AwsCredentials) (host region : text) (timestamp : Z)
    (user_agent : text) : result SaslError (list byte) :=
  let '(amz_date, datestamp) := format_timestamps timestamp in
  let scope := datestamp ++ str_bytes "/" ++ region ++ str_bytes "/" ++ SERVICE ++
    str_bytes "/aws4_request" in
  let credential := access_key_id c ++ str_bytes "/" ++ scope in
  let canonical_query := canonical_query (query_params c credential amz_date) in
  let empty_hash := hex (digest Sha256 []) in
  let canonical_request :=
    str_bytes "GET" ++ newline ++ str_bytes "/" ++ newline ++ canonical_query ++ newline ++
    str_bytes "host:" ++ to_lowercase host ++ newline ++ newline ++ str_bytes "host" ++ newline ++
    empty_hash in
  let string_to_sign :=
    ALGORITHM ++ newline ++ amz_date ++ newline ++ scope ++ newline ++
    hex (digest Sha256 canonical_request) in
  let signing_key := signing_key (secret_access_key c) datestamp region SERVICE in
  let signature := hex (mac Sha256 signing_key string_to_sign) in
  ok_or (Malformed "msk payload")
    (to_vec (payload_fields c host user_agent credential amz_date signature)).

End token.

(** ** The calendar, day by day *)

Definition leap (y : Z) : bool :=
  (y mod 4 =? 0) && (negb (y mod 100 =? 0) || (y mod 400 =? 0)).

Definition days_in_month (y m : Z) : Z :=
  if m =? 2 then (if leap y then 29 else 28)
  else if (m =? 4) || (m =? 6) || (m =? 9) || (m =? 11) then 30 else 31.

Definition next_day (date : Z * Z * Z) : Z * Z * Z :=
  let '(y, m, d) := date in
  if d <? days_in_month y m then (y, m, d + 1)
  else if m <? 12 then (y, m + 1, 1)
  else (y + 1, 1, 1).

(** The calendar of the computation starts its years in March: year [y] begins
    [year_start y] days into its era, and its day [doy] is in month [m]. *)
Definition year_start (y : Z) : Z := 365 * y + y / 4 - y / 100 + y / 400.

Definition year_of_era (doe : Z) : Z := (doe - doe / 1460 + doe / 36524 - doe / 146096) / 365.

(** Years since the March year's own, month and day of day [doy] of it. *)
Definition month_day (doy : Z) : Z * Z * Z :=
  let mp := (5 * doy + 2) / 153 in
  let m := if mp <? 10 then mp + 3 else mp - 9 in
  (if m <=? 2 then 1 else 0, m, doy - (153 * mp + 2) / 5 + 1).

Definition in_year (y : Z) (date : Z * Z * Z) : Z * Z * Z :=
  let '(o, m, d) := date in (y + o, m, d).

Lemma civil_from_days_unfold z :
  let doe := (z + 719468) mod 146097 in
  civil_from_days z =
    in_year (year_of_era doe + (z + 719468) / 146097 * 400)
      (month_day (doe - (365 * year_of_era doe + year_of_era doe / 4 - year_of_era doe / 100))).
Proof.
  unfold civil_from_days, in_year, month_day, year_of_era. cbv zeta.
  case_match; [done|]. by rewrite Z.add_0_r.
Qed.

(** The year of an era, checked at both ends of each, is right between. *)
Lemma year_of_era_mono a b : 0 ≤ a → a ≤ b → b ≤ 146096 → year_of_era a ≤ year_of_era b.
Proof.
  intros Ha Hab Hb. unfold year_of_era. apply Z.div_le_mono; [lia|].
  Z.to_euclidean_division_equations. lia.
Qed.

Lemma year_ends y : 0 ≤ y < 400 →
  year_of_era (year_start y) = y ∧ year_of_era (year_start (y + 1) - 1) = y.
Proof.
  assert (forallb (λ y, (year_of_era (year_start y) =? y) &&
    (year_of_era (year_start (y + 1) - 1) =? y)) (seqZ 0 400) = true) as H by (vm_compute; done).
  intros Hy. rewrite forallb_forall in H. specialize (H y).
  rewrite <- list_elem_of_In, elem_of_seqZ in H. specialize (H ltac:(lia)). lia.
Qed.

Lemma year_start_mono a b : a ≤ b → year_start a ≤ year_start b.
Proof. intros H. unfold year_start. Z.to_euclidean_division_equations. lia. Qed.

Lemma year_of_era_spec doe : 0 ≤ doe < 146097 →
  0 ≤ year_of_era doe < 400 ∧
  year_start (year_of_era doe) ≤ doe < year_start (year_of_era doe + 1).
Proof.
  intros Hd. assert (0 ≤ year_of_era doe < 400) as Hy.
  { pose proof (year_of_era_mono 0 doe) as H1. pose proof (year_of_era_mono doe 146096) as H2.
    change (year_of_era 0) with 0 in H1. change (year_of_era 146096) with 399 in H2. lia. }
  split; [done|]. set (y := year_of_era doe) in *. split.
  - destruct (Z.lt_ge_cases doe (year_start y)) as [Hlt|]; [|lia].
    destruct (decide (y = 0)) as [E|E]; [rewrite E in Hlt; change (year_start 0) with 0 in Hlt; lia|].
    destruct (year_ends (y - 1)) as [_ H1]; [lia|]. rewrite Z.sub_add in H1.
    pose proof (year_start_mono y 400 ltac:(lia)). change (year_start 400) with 146097 in *.
    pose proof (year_of_era_mono doe (year_start y - 1)) as H2. fold y in H2. lia.
  - destruct (Z.lt_ge_cases doe (year_start (y + 1))) as [|Hge]; [done|].
    destruct (decide (y = 399)) as [E|E]; [rewrite E in Hge; change (year_start (399 + 1)) with 146097 in Hge; lia|].
    destruct (year_ends (y + 1)) as [H1 _]; [lia|].
    pose proof (year_start_mono 0 (y + 1) ltac:(lia)). change (year_start 0) with 0 in *.
    pose proof (year_of_era_mono (year_start (y + 1)) doe) as H2. fold y in H2. lia.
Qed.

Lemma leap_period n y : leap (y + n * 400) = leap y.
Proof.
  unfold leap.
  replace (y + n * 400) with (y + (100 * n) * 4) at 1 by lia.
  replace (y + n * 400) with (y + (4 * n) * 100) at 1 by lia. by rewrite !Z.mod_add by lia.
Qed.

Definition year_length (y : Z) : Z := if leap (y + 1) then 366 else 365.

Lemma year_start_next y : 0 ≤ y < 400 → year_start (y + 1) = year_start y + year_length y.
Proof.
  assert (forallb (λ y, year_start (y + 1) =? year_start y + year_length y) (seqZ 0 400) = true) as H
    by (vm_compute; done).
  intros Hy. rewrite forallb_forall in H. specialize (H y).
  rewrite <- list_elem_of_In, elem_of_seqZ in H. specialize (H ltac:(lia)). lia.
Qed.

(** [next_day], with [l] for whether the February ahead is a leap year's. *)
Definition next_in_year (l : bool) (date : Z * Z * Z) : Z * Z * Z :=
  let '(o, m, d) := date in
  if d <? (if m =? 2 then (if l then 29 else 28) else days_in_month 0 m) then (o, m, d + 1)
  else if m <? 12 then (o, m + 1, 1) else (o + 1, 1, 1).

Lemma next_in_year_spec y doy :
  next_day (in_year y (month_day doy)) = in_year y (next_in_year (leap (y + 1)) (month_day doy)).
Proof.
  unfold month_day. set (m := if _ <? 10 then _ else _). set (d := doy - _ + 1). cbv zeta.
  unfold next_day, in_year, next_in_year, days_in_month.
  destruct (Z.eqb_spec m 2) as [E|E].
  - rewrite E. change (2 <=? 2) with true. cbv iota. repeat case_match; simplify_eq; done.
  - destruct ((m =? 4) || (m =? 6) || (m =? 9) || (m =? 11)); repeat case_match; simplify_eq; try done;
      f_equal; f_equal; lia.
Qed.

(** Every day of a year, leap or not. *)
Lemma month_day_next (l : bool) doy : 0 ≤ doy < (if l then 366 else 365) →
  next_in_year l (month_day doy) =
    if doy + 1 <? (if l : bool then 366 else 365) then month_day (doy + 1) else (1, 3, 1).
Proof.
  assert (forallb (λ l : bool, forallb (λ doy, bool_decide (next_in_year l (month_day doy) =
    if doy + 1 <? (if l then 366 else 365) then month_day (doy + 1) else (1, 3, 1)))
    (seqZ 0 (if l then 366 else 365))) [true; false] = true) as H by (vm_compute; done).
  intros Hd. rewrite forallb_forall in H. specialize (H l ltac:(destruct l; cbn; tauto)).
  rewrite forallb_forall in H. eapply bool_decide_eq_true, H.
  rewrite <- list_elem_of_In, elem_of_seqZ. lia.
Qed.

(** A day is one of its March year, and the date follows. *)
Lemma civil_from_days_at era y doy :
  0 ≤ y < 400 → 0 ≤ doy < year_length y →
  civil_from_days (era * 146097 + year_start y + doy - 719468) =
    in_year (y + era * 400) (month_day doy).
Proof.
  intros Hy Hd. pose proof (year_start_next y Hy) as Hn.
  pose proof (year_start_mono 0 y ltac:(lia)) as H0. pose proof (year_start_mono (y + 1) 400 ltac:(lia)) as H4.
  change (year_start 0) with 0 in H0. change (year_start 400) with 146097 in H4.
  set (doe := year_start y + doy). assert (0 ≤ doe < 146097) as Hdoe by (unfold doe; lia).
  rewrite civil_from_days_unfold.
  replace (era * 146097 + year_start y + doy - 719468 + 719468) with (doe + era * 146097) by (unfold doe; lia).
  rewrite Z.mod_add, Z.div_add, Z.mod_small, Z.div_small, Z.add_0_l by lia. cbv zeta.
  destruct (year_of_era_spec doe Hdoe) as (Hye & Hs). set (y' := year_of_era doe) in *.
  assert (y' = y) as ->.
  { destruct (Z.lt_trichotomy y' y) as [Hlt|[|Hlt]]; [|done|].
    - pose proof (year_start_mono (y' + 1) y ltac:(lia)). unfold doe in *. lia.
    - pose proof (year_start_mono (y + 1) y' ltac:(lia)). unfold doe in *. lia. }
  f_equal. f_equal. unfold doe, year_start. rewrite (Z.div_small y 400) by lia. lia.
Qed.

(** The date computed by hand is the calendar's.  Day 0 is 1 January 1970,
    and every later day, and every earlier one, is the day after the one before
    it, with the months and leap years of the Gregorian calendar. *)
Theorem civil_from_days_is_the_calendar :
  civil_from_days 0 = (1970, 1, 1) ∧
  ∀ z, civil_from_days (z + 1) = next_day (civil_from_days z).
Proof.
  split; [reflexivity|]. intros z.
  set (era := (z + 719468) / 146097). set (doe := (z + 719468) mod 146097).
  assert (z = era * 146097 + doe - 719468) as Hz.
  { pose proof (Z.div_mod (z + 719468) 146097 ltac:(lia)). unfold era, doe. lia. }
  assert (0 ≤ doe < 146097) as Hdoe by (apply Z.mod_pos_bound; lia). clearbody era doe. subst z.
  destruct (year_of_era_spec doe Hdoe) as (Hy & Hs). set (y := year_of_era doe) in *. clearbody y.
  pose proof (year_start_next y Hy) as Hn. set (doy := doe - year_start y).
  assert (0 ≤ doy < year_length y) as Hd by (unfold doy; lia).
  replace (era * 146097 + doe - 719468) with (era * 146097 + year_start y + doy - 719468)
    by (unfold doy; lia).
  rewrite civil_from_days_at, next_in_year_spec by done.
  replace (y + era * 400 + 1) with (y + 1 + era * 400) by lia. rewrite leap_period.
  rewrite month_day_next by exact Hd. fold (year_length y).
  replace (era * 146097 + year_start y + doy - 719468 + 1)
    with (era * 146097 + year_start y + (doy + 1) - 719468) by lia.
  destruct (Z.ltb_spec (doy + 1) (year_length y)) as [Hlt|Hge].
  { by rewrite civil_from_days_at by lia. }
  assert (doy + 1 = year_length y) as -> by lia.
  assert (∀ y, 0 < year_length y) as Hpos by (intros y'; unfold year_length; by case_match).
  destruct (decide (y = 399)) as [->|Hne].
  - replace (era * 146097 + year_start 399 + year_length 399 - 719468)
      with ((era + 1) * 146097 + year_start 0 + 0 - 719468).
    2: { rewrite Z.add_0_r, <- Z.add_assoc, <- year_start_next by lia.
         change (year_start 0) with 0. change (year_start (399 + 1)) with 146097. lia. }
    rewrite civil_from_days_at by (pose proof (Hpos 0); lia).
    unfold in_year. change (month_day 0) with (0, 3, 1). cbv iota. f_equal. f_equal. lia.
  - replace (era * 146097 + year_start y + year_length y - 719468)
      with (era * 146097 + year_start (y + 1) + 0 - 719468) by (rewrite Hn; lia).
    rewrite civil_from_days_at by (pose proof (Hpos (y + 1)); lia).
    unfold in_year. change (month_day 0) with (0, 3, 1). cbv iota. f_equal. f_equal. lia.
Qed.

(** ** Percent-encoding undone *)

Definition nibble_value (b : byte) : Z :=
  let z := byte_to_Z b in if z <? 58 then z - 48 else z - 55.

Fixpoint uri_decode (s : text) : text :=
  match s with
  | b :: rest =>
      if bool_decide (b = byte_of_Z 37) then
        match rest with
        | h :: l :: rest => byte_of_Z (16 * nibble_value h + nibble_value l) :: uri_decode rest
        | _ => []
        end
      else b :: uri_decode rest
  | [] => []
  end.

Lemma nibble_value_nibble n : 0 ≤ n < 16 → nibble_value (nibble true n) = n ∧ unreserved (nibble true n) = true.
Proof.
  assert (forallb (λ n, (nibble_value (nibble true n) =? n) && unreserved (nibble true n)) (seqZ 0 16) = true)
    as H by (vm_compute; done).
  intros Hn. rewrite forallb_forall in H. specialize (H n).
  rewrite <- list_elem_of_In, elem_of_seqZ in H. specialize (H ltac:(lia)).
  apply andb_true_iff in H as [H1 H2]. split; [lia|done].
Qed.

Lemma hex_nibbles b : let n := byte_to_Z b in 0 ≤ n / 16 < 16 ∧ 0 ≤ n mod 16 < 16.
Proof. pose proof (byte_to_Z_range b). cbn. Z.to_euclidean_division_equations. lia. Qed.

Lemma uri_decode_encode v : uri_decode (uri_encode v) = v.
Proof.
  induction v as [|b v IH]; [done|]. unfold uri_encode. cbn [flat_map]. fold (uri_encode v).
  destruct (unreserved b) eqn:Hb; cbn [app uri_decode hex_byte].
  - rewrite bool_decide_eq_false_2; [by rewrite IH|]. intros ->. by vm_compute in Hb.
  - rewrite bool_decide_eq_true_2, IH by done. f_equal. destruct (hex_nibbles b) as [Hh Hl].
    rewrite !(λ n H, proj1 (nibble_value_nibble n H)) by done.
    rewrite <- Z.div_mod by lia. apply byte_of_Z_to_Z.
Qed.

(** The characters a query is built with do not occur in what is encoded. *)
Lemma uri_encode_plain v c : unreserved c = false → c ≠ byte_of_Z 37 → c ∉ uri_encode v.
Proof.
  intros Hc Hp. induction v as [|b v IH]; [apply not_elem_of_nil|]. unfold uri_encode. cbn [flat_map].
  fold (uri_encode v). rewrite not_elem_of_app. split; [|done]. destruct (hex_nibbles b) as [Hh Hl].
  destruct (unreserved b) eqn:Hb; unfold hex_byte; rewrite ?not_elem_of_cons.
  - split; [intros ->; congruence|apply not_elem_of_nil].
  - apply nibble_value_nibble in Hh as [_ Hh], Hl as [_ Hl].
    split_and!; [done|intros ->; congruence|intros ->; congruence|apply not_elem_of_nil].
Qed.

(** What a broker reads of a canonical query. *)
Definition read_param (s : text) : option (text * text) :=
  '(k, v) ← split_once EQUALS s; Some (uri_decode k, uri_decode v).
Definition read_query (s : text) : list (option (text * text)) := read_param <$> split (byte_of_Z 38) s.

Lemma read_param_written kv : read_param (query_param kv) = Some kv.
Proof.
  destruct kv as [k v]. unfold read_param, query_param. cbn [fst snd].
  change (str_bytes "=" ++ ?x) with (EQUALS :: x).
  rewrite split_once_app by (by apply uri_encode_plain). cbn. by rewrite !uri_decode_encode.
Qed.

Lemma read_query_join (l : list (text * text)) : l ≠ [] →
  read_query (join (str_bytes "&") (query_param <$> l)) = Some <$> l.
Proof.
  induction l as [|kv l IH]; [done|]. intros _. unfold read_query. cbn [fmap list_fmap join].
  assert (byte_of_Z 38 ∉ query_param kv) as Hkv.
  { unfold query_param. rewrite !not_elem_of_app. split_and!; [by apply uri_encode_plain| |by apply uri_encode_plain].
    by rewrite <- contains_spec. }
  destruct l as [|kv' l]; cbn [fmap list_fmap].
  - rewrite split_none by done. cbn. by rewrite read_param_written.
  - change (str_bytes "&" ++ ?x) with (byte_of_Z 38 :: x). rewrite split_app by done.
    cbn [fmap list_fmap]. rewrite read_param_written. f_equal. by apply IH.
Qed.

(** The string that is signed says what is signed.  A broker that splits the
    canonical query and undoes its encoding has the request's parameters, the
    session token among them, in the order of their names; so no two requests
    that differ in a parameter have one query. *)
Theorem canonical_query_reads_back (c : AwsCredentials) (credential amz_date : text) :
  let params := query_params c credential amz_date in
  read_query (canonical_query params) = Some <$> merge_sort pair_le params ∧
  ∀ other, other ≠ [] → canonical_query other = canonical_query params → other ≡ₚ params.
Proof.
  cbn zeta. set (params := query_params _ _ _). assert (params ≠ []) as Hne by done.
  assert (∀ l : list (text * text), l ≠ [] →
    read_query (canonical_query l) = Some <$> merge_sort pair_le l) as Hread.
  { intros l Hl. apply read_query_join. intros E. apply Hl, Permutation_nil. rewrite <- E.
    apply merge_sort_Permutation. }
  split; [by apply Hread|]. intros other Ho Heq.
  apply (f_equal read_query) in Heq. rewrite !Hread in Heq by done.
  apply (inj (fmap Some)) in Heq.
  by rewrite <- (merge_sort_Permutation pair_le other), Heq, merge_sort_Permutation.
Qed.
