(* ===== verification/Frame.v ===== *)
(** * The frame envelope ([odradek-protocol/src/frame.rs])

    An [i32] length prefix around every request and response: [frame] writes
    one around whatever a payload encoder appends and rolls back on failure,
    [try_split] takes whole frames off an accumulating buffer. *)
From S2P Require Import Prelude Budget Codec Wire.

Definition DEFAULT_MAX_FRAME : Z := Z.shiftl 64 20.

(** [buf.len() - start - 4] presumes a payload that does not shorten the
    buffer; every encoder of the crate only appends. *)
Definition frame_in_place (start : Z) (payload : enc) : enc := λ buf,
  match (put_i32 0 ;; payload) buf with
  | (Err e, buf1) => (Err e, buf1)
  | (Ok _, buf1) =>
      let n := len buf1 - start - 4 in
      match try_from i32_min i32_max n with
      | None => (Err (TooLong n i32_max), buf1)
      | Some prefix => (Ok tt, patch start (be_bytes 4 prefix) buf1)
      end
  end.

Definition frame (payload : enc) : enc := λ buf,
  let start := len buf in
  match frame_in_place start payload buf with
  | (Ok _, buf') => (Ok tt, buf')
  | (Err error, buf') => (Err error, truncate start buf')
  end.

Definition check_len (prefix : list byte) (max_len : Z) : result DecodeError Z :=
  let n := sint 32 (be_val prefix) in
  if n <? 0 then Err (InvalidLength n)
  else if max_len <? n then Err (InvalidLength n)
  else Ok n.

Definition try_split (buf : buffer) (max_len : Z) :
    result DecodeError (option (list byte) * buffer) :=
  if len buf <? 4 then Ok (None, buf)
  else
    let? n := check_len (take 4 buf) max_len in
    if len buf <? 4 + n then Ok (None, buf)
    else
      let buf := drop 4 buf in
      Ok (Some (take (Z.to_nat n) buf), drop (Z.to_nat n) buf).

Definition peek_correlation_id (payload : list byte) : result DecodeError Z :=
  if len payload <? 4 then Err (Truncated (4 - len payload))
  else Ok (sint 32 (be_val (take 4 payload))).

(** ** Reading a stream of frames

    A reader that appends whatever the socket delivers and takes frames off
    while [try_split] gives any.  Each frame shortens the buffer, so its
    length is fuel enough. *)
Fixpoint drain (fuel : nat) (max_len : Z) (buf : buffer) :
    result DecodeError (list (list byte) * buffer) :=
  match fuel with
  | O => Ok ([], buf)
  | S fuel' =>
      let? (payload, buf') := try_split buf max_len in
      match payload with
      | None => Ok ([], buf')
      | Some p => let? (ps, buf'') := drain fuel' max_len buf' in Ok (p :: ps, buf'')
      end
  end.

Fixpoint read_stream (max_len : Z) (buf : buffer) (chunks : list (list byte)) :
    result DecodeError (list (list byte) * buffer) :=
  match chunks with
  | [] => Ok ([], buf)
  | c :: cs =>
      let? (ps, buf1) := drain (S (length (buf ++ c))) max_len (buf ++ c) in
      let? (qs, buf2) := read_stream max_len buf1 cs in
      Ok (ps ++ qs, buf2)
  end.

(** ** Facts *)

(** The wire form of a frame. *)
Definition framed (payload : list byte) : list byte :=
  be_bytes 4 (len payload) ++ payload.

Lemma encodes_frame w bs :
  encodes w bs → len bs ≤ i32_max → encodes (frame w) (framed bs).
Proof.
  intros Hw Hl buf. unfold frame, frame_in_place, enc_seq, put_i32, put_int, put_slice.
  rewrite Hw, !length_app, be_bytes_length.
  replace (Z.of_nat (length buf + 4 + length bs) - len buf - 4) with (len bs) by lia.
  rewrite try_from_in by int_lia. cbv iota.
  rewrite <- app_assoc, patch_prefix by (by rewrite !be_bytes_length). done.
Qed.

Lemma check_len_ok n max : 0 ≤ n ≤ i32_max → n ≤ max → check_len (be_bytes 4 n) max = Ok n.
Proof.
  intros Hn Hm. unfold check_len. rewrite be_val_bytes.
  change (256 ^ Z.of_nat 4) with (2 ^ 32). rewrite sint_wrap, sint_small by int_lia.
  destruct (Z.ltb_spec n 0); [lia|]. by destruct (Z.ltb_spec max n); [lia|].
Qed.

Lemma framed_length bs : len (framed bs) = 4 + len bs.
Proof. unfold framed. rewrite length_app, be_bytes_length. lia. Qed.

Section stream.
Context (max_len : Z).

Definition fits (bs : list byte) : Prop := len bs ≤ i32_max ∧ len bs ≤ max_len.

Lemma try_split_framed bs rest :
  fits bs → try_split (framed bs ++ rest) max_len = Ok (Some bs, rest).
Proof.
  intros [H1 H2]. unfold try_split. rewrite length_app.
  pose proof (framed_length bs). unfold framed in *. rewrite <- app_assoc.
  destruct (Z.ltb_spec (Z.of_nat (length (be_bytes 4 (len bs) ++ bs) + length rest)) 4); [lia|].
  rewrite take_app_exact, check_len_ok by (rewrite ?be_bytes_length; int_lia). cbn [res_bind].
  destruct (Z.ltb_spec (Z.of_nat (length (be_bytes 4 (len bs) ++ bs) + length rest))
    (4 + len bs)); [lia|].
  rewrite drop_app_exact by (by rewrite be_bytes_length).
  by rewrite take_app_exact, drop_app_exact by lia.
Qed.

Lemma try_split_partial bs p rest :
  fits bs → framed bs = p ++ rest → rest ≠ [] → try_split p max_len = Ok (None, p).
Proof.
  intros [H1 H2] E Hr. unfold try_split.
  pose proof (framed_length bs) as Hf. rewrite E, length_app in Hf.
  assert (0 < length rest)%nat by (destruct rest; [done|simpl; lia]).
  destruct (Z.ltb_spec (len p) 4); [done|].
  assert (take 4 p = be_bytes 4 (len bs)) as ->.
  { replace (take 4 p) with (take 4 (p ++ rest)) by (rewrite take_app_le; [done|lia]).
    rewrite <- E. unfold framed. by rewrite take_app_exact by (by rewrite be_bytes_length). }
  rewrite check_len_ok by int_lia. cbn [res_bind].
  by destruct (Z.ltb_spec (len p) (4 + len bs)); [|lia].
Qed.

(** Draining any prefix of a stream of frames gives the frames that are
    whole and keeps the rest. *)
Lemma drain_stream ps : ∀ fuel buf suffix,
  Forall fits ps → concat (framed <$> ps) = buf ++ suffix → (length buf < fuel)%nat →
  ∃ done todo buf', ps = done ++ todo ∧ drain fuel max_len buf = Ok (done, buf') ∧
    concat (framed <$> todo) = buf' ++ suffix ∧ (suffix = [] → todo = [] ∧ buf' = []).
Proof.
  induction ps as [|p ps IH]; intros fuel buf suffix Hf E Hfuel;
    rewrite ?fmap_cons in E; cbn [concat] in E.
  - symmetry in E. apply app_eq_nil in E as [-> ->]. destruct fuel; [lia|].
    exists [], [], []. done.
  - inversion Hf as [|? ? Hp Hps]; subst.
    destruct (decide (length (framed p) ≤ length buf)%nat) as [Hle|Hgt].
    + assert (∃ buf2, buf = framed p ++ buf2) as [buf2 ->].
      { exists (drop (length (framed p)) buf).
        rewrite <- (take_drop (length (framed p)) buf) at 1. f_equal.
        replace (take _ buf) with (take (length (framed p)) (buf ++ suffix))
          by (by rewrite take_app_le).
        rewrite <- E. by rewrite take_app_exact. }
      rewrite <- app_assoc in E. apply app_inv_head in E.
      rewrite length_app in Hfuel. pose proof (framed_length p).
      destruct fuel as [|fuel]; [lia|].
      destruct (IH fuel buf2 suffix Hps E ltac:(lia)) as (d & t & buf' & -> & Hd & Ht & Hs).
      exists (p :: d), t, buf'. split; [done|]. cbn [drain].
      rewrite try_split_framed by done. cbn [res_bind]. by rewrite Hd.
    + destruct fuel as [|fuel]; [lia|].
      assert (∃ r, framed p = buf ++ r ∧ r ≠ []) as (r & Er & Hr).
      { exists (drop (length buf) (framed p)).
        split; [|intros Hn%(f_equal length); rewrite length_drop in Hn; cbn [length] in Hn; lia].
        rewrite <- (take_drop (length buf) (framed p)) at 1. f_equal.
        replace (take (length buf) (framed p))
          with (take (length buf) (framed p ++ concat (framed <$> ps)))
          by (rewrite take_app_le; [done|lia]).
        rewrite E. by rewrite take_app_exact. }
      exists [], (p :: ps), buf. split; [done|]. cbn [drain].
      rewrite (try_split_partial p _ r) by done. split; [done|]. split; [done|].
      intros ->. apply (f_equal length) in E. rewrite Er, !length_app in E.
      cbn [length] in E. destruct r; [done|]. cbn [length] in E. lia.
Qed.

Lemma read_stream_frames chunks : ∀ ps buf,
  Forall fits ps → concat (framed <$> ps) = buf ++ concat chunks →
  (chunks = [] → ps = [] ∧ buf = []) →
  read_stream max_len buf chunks = Ok (ps, []).
Proof.
  induction chunks as [|c cs IH]; intros ps buf Hf E Hnil.
  { by destruct (Hnil eq_refl) as [-> ->]. }
  cbn [read_stream concat] in *. rewrite app_assoc in E.
  destruct (drain_stream ps (S (length (buf ++ c))) (buf ++ c) (concat cs) Hf E ltac:(lia))
    as (d & t & buf' & -> & -> & Ht & Hs). cbn [res_bind].
  apply Forall_app in Hf as [_ Hf].
  rewrite (IH t buf' Hf Ht); [done|]. intros ->. by apply Hs.
Qed.

End stream.

(** ** Properties *)

(** A frame written around any payload reads back as that payload, with
    whatever follows left in place; and no strict prefix of it is taken for a
    frame: the reader asks for more and keeps the bytes. *)
Theorem frame_roundtrip (payload : enc) (bs : list byte) (max_len : Z) :
  (∀ buf, payload buf = (Ok tt, buf ++ bs)) → len bs ≤ i32_max → len bs ≤ max_len →
  ∃ f, (∀ buf, frame payload buf = (Ok tt, buf ++ f)) ∧ len f = 4 + len bs ∧
    (∀ rest, try_split (f ++ rest) max_len = Ok (Some bs, rest)) ∧
    (∀ p q, f = p ++ q → q ≠ [] → try_split p max_len = Ok (None, p)).
Proof.
  intros Hp H1 H2. exists (framed bs). split; [by apply encodes_frame|].
  split; [apply framed_length|]. split; [intros rest; by apply try_split_framed|].
  intros p q E Hq. by apply (try_split_partial max_len bs p q).
Qed.

(** A frame that fails -- because the payload encoder fails part way, or
    because it wrote more than an [i32] can count -- leaves the send buffer
    exactly as it was. *)
Theorem frame_failure_rolls_back (payload : enc) (buf : buffer) :
  appends payload →
  match frame payload buf with
  | (Ok _, buf') =>
      (payload (buf ++ be_bytes 4 0)).1 = Ok tt ∧ len buf' - len buf - 4 ≤ i32_max
  | (Err e, buf') =>
      buf' = buf ∧
      ((payload (buf ++ be_bytes 4 0)).1 = Err e ∨
       ∃ n, e = TooLong n i32_max ∧ i32_max < n)
  end.
Proof.
  intros Ha. unfold frame, frame_in_place, enc_seq, put_i32, put_int, put_slice.
  destruct (Ha (buf ++ be_bytes 4 0)) as [bs Hbs].
  destruct (payload (buf ++ be_bytes 4 0)) as [[[]|e] buf1]; cbn [snd] in Hbs; subst buf1; cbn [fst].
  - rewrite !length_app, be_bytes_length.
    replace (Z.of_nat (length buf + 4 + length bs) - len buf - 4) with (len bs) by lia.
    unfold try_from.
    destruct (Z.leb_spec i32_min (len bs)); [|int_lia].
    destruct (Z.leb_spec (len bs) i32_max); cbn [andb].
    + rewrite <- app_assoc, patch_prefix by (by rewrite !be_bytes_length). split; [done|].
      rewrite !length_app, be_bytes_length. lia.
    + split; [|right; eauto]. unfold truncate.
      rewrite Nat2Z.id, <- app_assoc, take_app_exact by done. done.
  - split; [|by left]. unfold truncate.
    rewrite Nat2Z.id, <- app_assoc, take_app_exact by done. done.
Qed.

(** Reassembly does not depend on how the transport cuts the stream:
    however the bytes of a sequence of frames are split into reads, the reader
    yields exactly the payloads, in order, and ends with an empty buffer. *)
Theorem reassembly (max_len : Z) (payloads chunks : list (list byte)) :
  Forall (λ p, len p ≤ i32_max ∧ len p ≤ max_len) payloads →
  chunks ≠ [] →
  (let stream := enc_each (λ p, frame (put_slice p)) payloads in
   stream [] = (Ok tt, concat chunks)) →
  read_stream max_len [] chunks = Ok (payloads, []).
Proof.
  intros Hf Hne Hs. apply read_stream_frames; [done| |done].
  assert (encodes (enc_each (λ p, frame (put_slice p)) payloads)
    (concat (framed <$> payloads))) as He.
  { apply encodes_each. intros p Hp. apply (proj1 (Forall_forall _ _) Hf) in Hp as [Hp _].
    apply encodes_frame; [apply encodes_slice|done]. }
  cbv zeta in Hs. rewrite He in Hs. by injection Hs as ->.
Qed.

(** A hostile length prefix is a violation, never clamped: a negative or
    oversized length is refused, and an accepted one is the prefix itself,
    within bounds. *)
Theorem check_len_spec (n max_len : Z) :
  is_i32 n →
  check_len (be_bytes 4 n) max_len =
    if decide (0 ≤ n ≤ max_len) then Ok n else Err (InvalidLength n).
Proof.
  intros Hn. unfold check_len. rewrite be_val_bytes.
  change (256 ^ Z.of_nat 4) with (2 ^ 32). rewrite sint_wrap, sint_small by int_lia.
  destruct (Z.ltb_spec n 0), (Z.ltb_spec max_len n); case_decide; (done || lia).
Qed.

(** *** Witnesses *)

Lemma frame_roundtrip_witness :
  ∃ f, (∀ rest, try_split (f ++ rest) 100 = Ok (Some [Byte.x68; Byte.x69], rest)) ∧
    len f = 6.
Proof.
  destruct (frame_roundtrip (put_slice [Byte.x68; Byte.x69]) [Byte.x68; Byte.x69] 100)
    as (f & _ & Hl & Hs & _).
  - intros buf. reflexivity.
  - vm_compute. discriminate.
  - vm_compute. discriminate.
  - exists f. split; [exact Hs|exact Hl].
Defined.

Lemma frame_failure_rolls_back_witness :
  frame (put_slice [Byte.x01] ;; enc_fail (NullField "boom")) [Byte.x00] =
    (Err (NullField "boom"), [Byte.x00]).
Proof.
  assert (appends (put_slice [Byte.x01] ;; enc_fail (NullField "boom"))) as Ha.
  { intros buf. exists [Byte.x01]. reflexivity. }
  pose proof (frame_failure_rolls_back _ [Byte.x00] Ha) as H.
  vm_compute in H. vm_compute. destruct H as [_ _]. reflexivity.
Defined.

Lemma reassembly_witness :
  read_stream 100 [] [[Byte.x00; Byte.x00; Byte.x00]; [Byte.x01; Byte.x41; Byte.x00];
    [Byte.x00; Byte.x00; Byte.x00]] = Ok ([[Byte.x41]; []], []).
Proof.
  apply reassembly.
  - repeat constructor; vm_compute; discriminate.
  - discriminate.
  - vm_compute. reflexivity.
Defined.

Lemma check_len_spec_witness :
  check_len (be_bytes 4 (-1)) 100 = Err (InvalidLength (-1)).
Proof. rewrite (check_len_spec (-1) 100) by int_lia. reflexivity. Defined.
