(* ===== verification/Crc.v ===== *)
(** * CRC-32C ([crc32c] and its tables in [odradek-protocol/src/records.rs])

    The slicing-by-8 table implementation, and the bitwise definition of the
    checksum it is proved equal to.  The [hardware-crc] feature replaces it by
    a third-party crate and is off by default; it is not modelled. *)
From S2P Require Import Prelude.

(** ** The code *)

(** One turn of the inner [while bit < 8] loop. *)
Definition crc_bit (crc : Z) : Z :=
  if negb (Z.land crc 1 =? 0) then Z.lxor (Z.shiftr crc 1) 0x82f63b78
  else Z.shiftr crc 1.

Definition crc_byte (crc : Z) : Z := Nat.iter 8 crc_bit crc.

Definition crc32c_table0 : list Z := crc_byte <$> seqZ 0 256.

Definition crc32c_next_table (t0 previous : list Z) : list Z :=
  (λ previous,
    Z.lxor (Z.shiftr previous 8) (nth (Z.to_nat (Z.land previous 0xff)) t0 0))
  <$> previous.

Fixpoint crc32c_slices (n : nat) (t0 previous : list Z) : list (list Z) :=
  match n with
  | O => []
  | S n' => let t := crc32c_next_table t0 previous in t :: crc32c_slices n' t0 t
  end.

Definition crc32c_tables : list (list Z) :=
  crc32c_table0 :: crc32c_slices 7 crc32c_table0 crc32c_table0.

Definition CRC32C_TABLES : list (list Z) := crc32c_tables.

(** [CRC32C_TABLES[n][i]] *)
Definition table (n : nat) (i : Z) : Z := nth (Z.to_nat i) (nth n CRC32C_TABLES []) 0.

(** [u32::from_le_bytes]. *)
Definition u32_from_le (b0 b1 b2 b3 : byte) : Z :=
  Z.lor (byte_to_Z b0) (Z.lor (Z.shiftl (byte_to_Z b1) 8)
    (Z.lor (Z.shiftl (byte_to_Z b2) 16) (Z.shiftl (byte_to_Z b3) 24))).

Definition crc_chunk (crc : Z) (b0 b1 b2 b3 b4 b5 b6 b7 : byte) : Z :=
  let low := Z.lxor (u32_from_le b0 b1 b2 b3) crc in
  let high := u32_from_le b4 b5 b6 b7 in
  Z.lxor (table 7 (Z.land low 0xff))
  (Z.lxor (table 6 (Z.land (Z.shiftr low 8) 0xff))
  (Z.lxor (table 5 (Z.land (Z.shiftr low 16) 0xff))
  (Z.lxor (table 4 (Z.shiftr low 24))
  (Z.lxor (table 3 (Z.land high 0xff))
  (Z.lxor (table 2 (Z.land (Z.shiftr high 8) 0xff))
  (Z.lxor (table 1 (Z.land (Z.shiftr high 16) 0xff))
    (table 0 (Z.shiftr high 24)))))))).

(** [chunks_exact(8)] and its [remainder]. *)
Fixpoint crc_wide (crc : Z) (data : list byte) : Z * list byte :=
  match data with
  | b0 :: b1 :: b2 :: b3 :: b4 :: b5 :: b6 :: b7 :: rest =>
      crc_wide (crc_chunk crc b0 b1 b2 b3 b4 b5 b6 b7) rest
  | remainder => (crc, remainder)
  end.

Definition crc_narrow (crc : Z) (b : byte) : Z :=
  Z.lxor (Z.shiftr crc 8) (table 0 (Z.land (Z.lxor crc (byte_to_Z b)) 0xff)).

(** [!crc] on a [u32]. *)
Definition u32_not (z : Z) : Z := Z.lxor z 0xffffffff.

Definition crc32c_portable (data : list byte) : Z :=
  let '(crc, remainder) := crc_wide (u32_not 0) data in
  u32_not (fold_left crc_narrow remainder crc).

Definition crc32c (data : list byte) : Z := crc32c_portable data.

(** ** The definition of the checksum

    A byte at a time, a bit at a time: the reflected polynomial division. *)
Definition crc32c_bitwise (data : list byte) : Z :=
  u32_not (fold_left (λ crc b, crc_byte (Z.lxor crc (byte_to_Z b))) data (u32_not 0)).

(** ** Linearity *)

Lemma crc_bit_lxor x y : crc_bit (Z.lxor x y) = Z.lxor (crc_bit x) (crc_bit y).
Proof.
  unfold crc_bit.
  assert (∀ z, negb (Z.land z 1 =? 0) = Z.odd z) as H.
  { intros z. assert (Z.land z 1 = z mod 2) as -> by (apply (land_low z 1); lia).
    rewrite Zmod_odd. by destruct (Z.odd z). }
  rewrite !H, <- !Z.bit0_odd, Z.lxor_spec, Z.shiftr_lxor.
  destruct (Z.testbit x 0), (Z.testbit y 0); simpl xorb; cbv iota;
    apply Z.bits_inj'; intros i Hi; rewrite !Z.lxor_spec;
    by destruct (Z.testbit (Z.shiftr x 1) i), (Z.testbit (Z.shiftr y 1) i),
      (Z.testbit 0x82f63b78 i).
Qed.

Lemma iter_lxor n x y :
  Nat.iter n crc_bit (Z.lxor x y) = Z.lxor (Nat.iter n crc_bit x) (Nat.iter n crc_bit y).
Proof. induction n as [|n IH]; simpl; [done|]. by rewrite IH, crc_bit_lxor. Qed.

Lemma crc_byte_lxor x y : crc_byte (Z.lxor x y) = Z.lxor (crc_byte x) (crc_byte y).
Proof. apply iter_lxor. Qed.

Lemma crc_bit_even z : crc_bit (Z.shiftl z 1) = z.
Proof.
  unfold crc_bit. rewrite Z.shiftl_mul_pow2 by lia. change (2 ^ 1) with 2.
  assert (Z.land (z * 2) 1 = (z * 2) mod 2) as -> by (apply (land_low (z * 2) 1); lia).
  rewrite Z.mod_mul by lia. cbn. rewrite Z.shiftr_div_pow2 by lia. by apply Z.div_mul.
Qed.

Lemma crc_byte_shifted z : crc_byte (Z.shiftl z 8) = z.
Proof.
  unfold crc_byte. assert (∀ n : nat, Nat.iter n crc_bit (Z.shiftl z (Z.of_nat n)) = z) as H.
  { induction n as [|n IH]; [apply Z.shiftl_0_r|]. rewrite Nat.iter_succ_r.
    rewrite Nat2Z.inj_succ, <- Z.add_1_r, <- Z.shiftl_shiftl by lia.
    by rewrite crc_bit_even. }
  exact (H 8%nat).
Qed.

Definition crc_bytes (n : nat) (z : Z) : Z := Nat.iter n crc_byte z.

Lemma crc_bytes_lxor n x y :
  crc_bytes n (Z.lxor x y) = Z.lxor (crc_bytes n x) (crc_bytes n y).
Proof.
  unfold crc_bytes. induction n as [|n IH]; simpl; [done|]. by rewrite IH, crc_byte_lxor.
Qed.

Lemma crc_bytes_add n m z : crc_bytes n (crc_bytes m z) = crc_bytes (n + m) z.
Proof. unfold crc_bytes. by rewrite Nat.iter_add. Qed.

Lemma crc_bytes_shifted n m z :
  (m ≤ n)%nat → crc_bytes n (Z.shiftl z (8 * Z.of_nat m)) = crc_bytes (n - m) z.
Proof.
  revert n. induction m as [|m IH]; intros n Hn.
  - by rewrite Z.shiftl_0_r, Nat.sub_0_r.
  - destruct n as [|n]; [lia|]. unfold crc_bytes at 1. rewrite Nat.iter_succ_r.
    replace (8 * Z.of_nat (S m)) with (8 * Z.of_nat m + 8) by lia.
    rewrite <- Z.shiftl_shiftl, crc_byte_shifted by lia. apply IH. lia.
Qed.

(** A value as its low byte and the rest. *)
Lemma split_low x : x = Z.lxor (Z.land x 0xff) (Z.shiftl (Z.shiftr x 8) 8).
Proof.
  apply Z.bits_inj'. intros i Hi. change 0xff with (Z.ones 8).
  rewrite Z.lxor_spec, Z.land_spec, Z.shiftl_spec, Z.testbit_ones_nonneg by lia.
  destruct (Z.ltb_spec i 8).
  - rewrite (Z.testbit_neg_r (Z.shiftr x 8)) by lia. by rewrite andb_true_r, xorb_false_r.
  - rewrite Z.shiftr_spec by lia. replace (i - 8 + 8) with i by lia.
    by rewrite andb_false_r.
Qed.

Lemma land_ff_range x : 0 ≤ Z.land x 0xff < 256.
Proof. change 0xff with (2 ^ 8 - 1). rewrite land_low by lia. by apply Z.mod_pos_bound. Qed.

(** ** The tables *)

Lemma table0_nth i : 0 ≤ i < 256 → nth (Z.to_nat i) crc32c_table0 0 = crc_byte i.
Proof.
  intros Hi. apply nth_lookup_Some. unfold crc32c_table0.
  rewrite list_lookup_fmap, lookup_seqZ_lt by lia. simpl. by rewrite Z2Nat.id by lia.
Qed.

Lemma crc_byte_split x :
  Z.lxor (Z.shiftr x 8) (nth (Z.to_nat (Z.land x 0xff)) crc32c_table0 0) = crc_byte x.
Proof.
  rewrite table0_nth by apply land_ff_range.
  rewrite (split_low x) at 3. rewrite crc_byte_lxor, crc_byte_shifted. apply Z.lxor_comm.
Qed.

Lemma next_table_spec t n :
  t = crc_bytes n <$> seqZ 0 256 →
  crc32c_next_table crc32c_table0 t = crc_bytes (S n) <$> seqZ 0 256.
Proof.
  intros ->. unfold crc32c_next_table. rewrite <- list_fmap_compose.
  apply list_fmap_ext. intros i x _. simpl. by rewrite crc_byte_split.
Qed.

Lemma slices_spec m : ∀ n t k,
  t = crc_bytes n <$> seqZ 0 256 → (k < m)%nat →
  nth k (crc32c_slices m crc32c_table0 t) [] = crc_bytes (S (n + k)) <$> seqZ 0 256.
Proof.
  induction m as [|m IH]; intros n t k Ht Hk; [lia|]. cbn [crc32c_slices].
  apply next_table_spec in Ht. destruct k as [|k]; cbn [nth].
  - by rewrite Nat.add_0_r.
  - rewrite (IH (S n)) by (done || lia). by rewrite Nat.add_succ_r.
Qed.

Lemma table_spec n i : (n < 8)%nat → 0 ≤ i < 256 → table n i = crc_bytes (S n) i.
Proof.
  intros Hn Hi. unfold table, CRC32C_TABLES, crc32c_tables.
  destruct n as [|n]; cbn [nth]; [by apply table0_nth|].
  rewrite (slices_spec 7 1) by (done || lia).
  apply nth_lookup_Some. rewrite list_lookup_fmap, lookup_seqZ_lt by lia.
  cbn [fmap option_fmap option_map]. by rewrite Z2Nat.id, Z.add_0_l by lia.
Qed.

(** ** The two loops *)

Definition crc_step (crc : Z) (b : byte) : Z := crc_byte (Z.lxor crc (byte_to_Z b)).

Definition is_word (z : Z) : Prop := 0 ≤ z < 2 ^ 32.

Lemma shiftr_word x k n :
  0 ≤ k ≤ n → 0 ≤ x < 2 ^ n → 0 ≤ Z.shiftr x k < 2 ^ (n - k).
Proof.
  intros Hk Hx. rewrite Z.shiftr_div_pow2 by lia.
  assert (2 ^ n = 2 ^ k * 2 ^ (n - k)) as E by (rewrite <- Z.pow_add_r by lia; f_equal; lia).
  split; [apply Z.div_pos; lia|]. apply Z.div_lt_upper_bound; lia.
Qed.

Lemma crc_bit_word z : is_word z → is_word (crc_bit z).
Proof.
  intros Hz. unfold crc_bit, is_word in *. pose proof (shiftr_word z 1 32 ltac:(lia) Hz) as H.
  change (32 - 1) with 31 in H. assert (2 ^ 31 < 2 ^ 32) by done.
  destruct (negb _); [apply lxor_lt|]; lia.
Qed.

Lemma crc_byte_word z : is_word z → is_word (crc_byte z).
Proof.
  intros Hz. unfold crc_byte. generalize 8%nat. intros n.
  induction n as [|n IH]; [done|]. by apply crc_bit_word.
Qed.

Lemma byte_word b : is_word (byte_to_Z b).
Proof. pose proof (byte_to_Z_range b). unfold is_word. lia. Qed.

Lemma crc_step_word crc b : is_word crc → is_word (crc_step crc b).
Proof.
  intros Hc. apply crc_byte_word. apply lxor_lt; [lia|done|]. apply byte_word.
Qed.

Lemma crc_narrow_spec crc b : crc_narrow crc b = crc_step crc b.
Proof.
  unfold crc_narrow, crc_step. rewrite <- crc_byte_split.
  change (table 0) with (λ i, nth (Z.to_nat i) crc32c_table0 0). cbv beta. f_equal.
  rewrite Z.shiftr_lxor. rewrite (Z.shiftr_div_pow2 (byte_to_Z b)) by lia.
  rewrite Z.div_small by apply byte_to_Z_range. by rewrite Z.lxor_0_r.
Qed.

(** A word, as its four bytes. *)
Lemma split_word x :
  is_word x →
  x = Z.lxor (Z.land x 0xff) (Z.lxor (Z.shiftl (Z.land (Z.shiftr x 8) 0xff) 8)
    (Z.lxor (Z.shiftl (Z.land (Z.shiftr x 16) 0xff) 16) (Z.shiftl (Z.shiftr x 24) 24))).
Proof.
  intros Hx. rewrite (split_low x) at 1. f_equal.
  rewrite (split_low (Z.shiftr x 8)) at 1. rewrite Z.shiftl_lxor. f_equal.
  rewrite Z.shiftr_shiftr, Z.shiftl_shiftl by lia. change (8 + 8) with 16.
  rewrite (split_low (Z.shiftr x 16)) at 1. rewrite Z.shiftl_lxor. f_equal.
Qed.

(** Four table look-ups advance a word by [n] bytes. *)
Lemma word_tables n x :
  (4 ≤ n ≤ 8)%nat → is_word x →
  Z.lxor (table (n - 1) (Z.land x 0xff))
    (Z.lxor (table (n - 2) (Z.land (Z.shiftr x 8) 0xff))
    (Z.lxor (table (n - 3) (Z.land (Z.shiftr x 16) 0xff)) (table (n - 4) (Z.shiftr x 24))))
  = crc_bytes n x.
Proof.
  intros Hn Hx. rewrite (split_word x Hx) at 5. rewrite !crc_bytes_lxor.
  pose proof (shiftr_word x 24 32 ltac:(lia) Hx) as H24. change (2 ^ (32 - 24)) with 256 in H24.
  rewrite (crc_bytes_shifted n 1), (crc_bytes_shifted n 2), (crc_bytes_shifted n 3) by lia.
  rewrite !table_spec by (try apply land_ff_range; lia).
  f_equal; [f_equal; lia|]. f_equal; [f_equal; lia|]. f_equal; f_equal; lia.
Qed.

(** The little-endian word of four bytes is what the byte loop folds in. *)
Lemma steps4 crc b0 b1 b2 b3 :
  fold_left crc_step [b0; b1; b2; b3] crc = crc_bytes 4 (Z.lxor (u32_from_le b0 b1 b2 b3) crc).
Proof.
  unfold u32_from_le. cbn [fold_left]. unfold crc_step, crc_bytes.
  assert (∀ b w k, 0 ≤ byte_to_Z b → 0 ≤ k →
    Z.lor (byte_to_Z b) (Z.shiftl w 8) = Z.lxor (byte_to_Z b) (Z.shiftl w 8)) as Hlor.
  { intros b w k _ _. rewrite Z.lxor_lor; [done|].
    apply Z.bits_inj'. intros i Hi. rewrite Z.land_spec, Z.bits_0, Z.shiftl_spec by done.
    destruct (Z.lt_ge_cases i 8).
    - rewrite (Z.testbit_neg_r w) by lia. apply andb_false_r.
    - rewrite (testbit_high (byte_to_Z b) 8); [done|apply byte_to_Z_range|done]. }
  set (w3 := byte_to_Z b3). set (w2 := Z.lor (byte_to_Z b2) (Z.shiftl w3 8)).
  set (w1 := Z.lor (byte_to_Z b1) (Z.shiftl w2 8)).
  assert (Z.lor (byte_to_Z b0) (Z.lor (Z.shiftl (byte_to_Z b1) 8)
    (Z.lor (Z.shiftl (byte_to_Z b2) 16) (Z.shiftl w3 24))) =
    Z.lor (byte_to_Z b0) (Z.shiftl w1 8)) as ->.
  { unfold w1, w2. rewrite !Z.shiftl_lor, !Z.shiftl_shiftl by lia. done. }
  rewrite (Hlor b0 w1 0) by (pose proof (byte_to_Z_range b0); lia).
  cbn [Nat.iter nat_rect].
  assert (∀ b w crc, Z.lxor (crc_byte (Z.lxor crc (byte_to_Z b))) w =
    crc_byte (Z.lxor (Z.lxor (byte_to_Z b) (Z.shiftl w 8)) crc)) as Hs.
  { intros b w c. rewrite <- (crc_byte_shifted w) at 1. rewrite <- crc_byte_lxor. f_equal.
    rewrite (Z.lxor_comm _ c), Z.lxor_assoc. done. }
  rewrite <- (Hs b0 w1 crc). unfold w1.
  rewrite (Hlor b1 w2 0) by (pose proof (byte_to_Z_range b1); lia).
  rewrite (Z.lxor_comm (crc_byte _) (Z.lxor _ _)), <- (Hs b1 w2).
  unfold w2. rewrite (Hlor b2 w3 0) by (pose proof (byte_to_Z_range b2); lia).
  rewrite (Z.lxor_comm (crc_byte _) (Z.lxor _ _)), <- (Hs b2 w3). done.
Qed.

Lemma u32_from_le_word b0 b1 b2 b3 : is_word (u32_from_le b0 b1 b2 b3).
Proof.
  assert (∀ b k, 0 ≤ k ≤ 24 → 0 ≤ Z.shiftl (byte_to_Z b) k < 2 ^ 32) as H.
  { intros b k Hk. rewrite Z.shiftl_mul_pow2 by lia. pose proof (byte_to_Z_range b).
    assert (2 ^ k ≤ 2 ^ 24) by (apply Z.pow_le_mono_r; lia).
    assert (0 < 2 ^ k) by (apply Z.pow_pos_nonneg; lia). change (2 ^ 32) with (256 * 2 ^ 24). nia. }
  assert (∀ a b, is_word a → is_word b → is_word (Z.lor a b)) as Hl.
  { intros a b Ha Hb. split; [apply Z.lor_nonneg; split; apply Ha || apply Hb|].
    by apply lor_lt. }
  unfold u32_from_le. apply Hl; [apply byte_word|]. repeat apply Hl; apply H; lia.
Qed.

Lemma crc_chunk_spec crc b0 b1 b2 b3 b4 b5 b6 b7 :
  is_word crc →
  crc_chunk crc b0 b1 b2 b3 b4 b5 b6 b7 =
  fold_left crc_step [b0; b1; b2; b3; b4; b5; b6; b7] crc.
Proof.
  intros Hc. change [b0; b1; b2; b3; b4; b5; b6; b7] with ([b0; b1; b2; b3] ++ [b4; b5; b6; b7]).
  rewrite fold_left_app, !steps4. unfold crc_chunk. cbv zeta.
  set (low := Z.lxor (u32_from_le b0 b1 b2 b3) crc). set (high := u32_from_le b4 b5 b6 b7).
  assert (is_word low) as Hlow by (apply lxor_lt; [lia|apply u32_from_le_word|done]).
  assert (is_word high) as Hhigh by apply u32_from_le_word.
  rewrite crc_bytes_lxor.
  rewrite crc_bytes_add. change (4 + 4)%nat with 8%nat.
  rewrite <- (word_tables 8 low), <- (word_tables 4 high) by (assumption || lia). cbn [Nat.sub].
  rewrite (Z.lxor_comm (Z.lxor (table 3 (Z.land high 255)) _)), !Z.lxor_assoc.
  reflexivity.
Qed.

Lemma fold_step_word data crc : is_word crc → is_word (fold_left crc_step data crc).
Proof.
  revert crc. induction data as [|b data IH]; intros crc H; [done|]. apply IH.
  by apply crc_step_word.
Qed.

Lemma crc_wide_spec n : ∀ data crc, (length data ≤ n)%nat → is_word crc →
  let '(crc', rest) := crc_wide crc data in
  fold_left crc_step rest crc' = fold_left crc_step data crc.
Proof.
  induction n as [|n IH]; intros data crc Hn Hc.
  { destruct data; [done|simpl in Hn; lia]. }
  destruct data as [|b0 [|b1 [|b2 [|b3 [|b4 [|b5 [|b6 [|b7 data]]]]]]]]; try reflexivity.
  change (b0 :: b1 :: b2 :: b3 :: b4 :: b5 :: b6 :: b7 :: data)
    with ([b0; b1; b2; b3; b4; b5; b6; b7] ++ data) at 2.
  rewrite fold_left_app, <- crc_chunk_spec by assumption. cbn [crc_wide].
  apply IH; [cbn [length] in Hn; lia|].
  rewrite crc_chunk_spec by assumption. apply fold_step_word, Hc.
Qed.

Lemma crc32c_bitwise_eq data : crc32c data = crc32c_bitwise data.
Proof.
  unfold crc32c, crc32c_portable, crc32c_bitwise.
  pose proof (crc_wide_spec _ data (u32_not 0) (le_n _) ltac:(done)) as H.
  destruct (crc_wide (u32_not 0) data) as [crc rest]. f_equal.
  change (λ crc b, crc_byte (Z.lxor crc (byte_to_Z b))) with crc_step.
  rewrite <- H. clear H. revert crc.
  induction rest as [|b rest IH]; intros crc; [done|]. simpl. by rewrite crc_narrow_spec, IH.
Qed.

Lemma crc32c_u32 data : is_u32 (crc32c data).
Proof.
  rewrite crc32c_bitwise_eq. unfold crc32c_bitwise.
  change (λ crc b, crc_byte (Z.lxor crc (byte_to_Z b))) with crc_step.
  assert (is_word (u32_not (fold_left crc_step data (u32_not 0)))) as H.
  { apply lxor_lt; [lia|by apply fold_step_word|done]. }
  unfold is_word in H. int_lia.
Qed.

(** ** Properties *)

(** C38: the slicing-by-8 checksum is CRC-32C: on every input, whatever its
    length, the eight-table loop and its byte-at-a-time remainder compute the
    bitwise polynomial division, and the result is a [u32]. *)
Theorem crc32c_is_crc32c (data : list byte) :
  crc32c data = crc32c_bitwise data ∧ is_u32 (crc32c data).
Proof. split; [apply crc32c_bitwise_eq|apply crc32c_u32]. Qed.

(** The check value of the CRC catalogues: the nine ASCII digits. *)
Example crc32c_check_value : crc32c (str_bytes "123456789") = 0xe3069283.
Proof. vm_compute. reflexivity. Qed.
