(* ===== verification/Records.v ===== *)
(** * Record batches ([odradek-protocol/src/records.rs])

    The magic-2 record batch carried by Produce and Fetch: records with their
    varint-framed bodies, the batch header with its back-patched length and
    checksum, and record sets with a truncated tail. *)
From S2P Require Import Prelude Budget Codec Wire Crc.
Import BudgetOps.

Definition MAGIC : Z := 2.

Definition BATCH_OVERHEAD : Z := 4 + 1 + 4 + 2 + 4 + 8 + 8 + 8 + 2 + 4 + 4.

Inductive Compression : Type :=
| Compression_None
| Gzip
| Snappy
| Lz4
| Zstd
| Unknown (bits : Z).

#[export] Instance Compression_eq_dec : EqDecision Compression.
Proof. solve_decision. Defined.

Definition from_attributes (attributes : Z) : Compression :=
  let bits := Z.land attributes 0x7 in
  if bits =? 0 then Compression_None
  else if bits =? 1 then Gzip
  else if bits =? 2 then Snappy
  else if bits =? 3 then Lz4
  else if bits =? 4 then Zstd
  else Unknown bits.

Definition attribute_bits (c : Compression) : Z :=
  match c with
  | Compression_None => 0
  | Gzip => 1
  | Snappy => 2
  | Lz4 => 3
  | Zstd => 4
  | Unknown bits => bits
  end.

Record RecordHeader : Type := mkRecordHeader {
  header_key : string;
  header_value : option (list byte);
}.

(** One record; the fields of [struct Record]. *)
Record KRecord : Type := mkKRecord {
  record_attributes : Z;
  timestamp_delta : Z;
  offset_delta : Z;
  key : option (list byte);
  value : option (list byte);
  headers : list RecordHeader;
}.

Inductive Records : Type :=
| Plain (records : list KRecord)
| Compressed (count : Z) (payload : list byte).

Record RecordBatch : Type := mkRecordBatch {
  base_offset : Z;
  partition_leader_epoch : Z;
  attributes : Z;
  last_offset_delta : Z;
  base_timestamp : Z;
  max_timestamp : Z;
  producer_id : Z;
  producer_epoch : Z;
  base_sequence : Z;
  records : Records;
}.

#[export] Instance RecordHeader_eq_dec : EqDecision RecordHeader.
Proof. solve_decision. Defined.
#[export] Instance KRecord_eq_dec : EqDecision KRecord.
Proof. solve_decision. Defined.
#[export] Instance Records_eq_dec : EqDecision Records.
Proof. solve_decision. Defined.
#[export] Instance RecordBatch_eq_dec : EqDecision RecordBatch.
Proof. solve_decision. Defined.

(** ** Attribute bits *)

Definition compression (b : RecordBatch) : Compression := from_attributes (attributes b).
Definition attribute_set (bit : Z) (b : RecordBatch) : bool :=
  negb (Z.land (attributes b) (Z.shiftl 1 bit) =? 0).
Definition is_log_append_time : RecordBatch → bool := attribute_set 3.
Definition is_transactional : RecordBatch → bool := attribute_set 4.
Definition is_control : RecordBatch → bool := attribute_set 5.
Definition has_delete_horizon : RecordBatch → bool := attribute_set 6.

(** ** Records *)

Definition put_varint_bytes (value : option (list byte)) : enc :=
  match value with
  | Some v => put_varint (sint 64 (len v)) ;; put_slice v
  | None => put_varint (-1)
  end.

Definition get_varint_bytes : dec (option (list byte)) :=
  let! length := get_varint in
  if length =? -1 then dec_ret None
  else
    let! length := dec_of (ok_or (InvalidLength length) (try_from 0 usize_max length)) in
    let! _ := ensure length in
    let! v := copy_to_bytes length in
    dec_ret (Some v).

Module KRecordOps.

Definition bytes_len (value : option (list byte)) : Z :=
  match value with
  | Some v => varint_len (sint 64 (len v)) + len v
  | None => varint_len (-1)
  end.

Definition body_len (r : KRecord) (header_count : Z) : Z :=
  1 + varint_len (timestamp_delta r) + varint_len (offset_delta r)
  + bytes_len (key r) + bytes_len (value r) + varint_len header_count
  + foldr (λ h acc, bytes_len (Some (str_bytes (header_key h))) +
                    bytes_len (header_value h) + acc) 0 (headers r).

Definition encode (r : KRecord) : enc :=
  match try_from i64_min i64_max (len (headers r)) with
  | None => enc_fail (TooLong (len (headers r)) i64_max)
  | Some header_count =>
      let body_len := body_len r header_count in
      match try_from i64_min i64_max body_len with
      | None => enc_fail (TooLong body_len i64_max)
      | Some body_len =>
          put_varint body_len ;;
          put_i8 (record_attributes r) ;;
          put_varint (timestamp_delta r) ;;
          put_varint (offset_delta r) ;;
          put_varint_bytes (key r) ;;
          put_varint_bytes (value r) ;;
          put_varint header_count ;;
          enc_each (λ h,
            put_varint_bytes (Some (str_bytes (header_key h))) ;;
            put_varint_bytes (header_value h)) (headers r)
      end
  end.

Section decode.
Context {R : Runtime}.

Definition decode_header : bdec RecordHeader :=
  let* key := lift get_varint_bytes in
  let* key := lift (dec_of (ok_or (InvalidLength (-1)) key)) in
  let* key := lift (dec_of (from_utf8 key)) in
  let* value := lift get_varint_bytes in
  bdec_ret (mkRecordHeader key value).

(** The fields, read from the record's own slice. *)
Definition decode_body : bdec KRecord :=
  let* attributes := lift (buf_get_int 1) in
  let* timestamp_delta := lift get_varint in
  let* offset_delta := lift get_varint in
  let* offset_delta := lift (dec_of (ok_or (InvalidLength offset_delta)
                                   (try_from i32_min i32_max offset_delta))) in
  let* key := lift get_varint_bytes in
  let* value := lift get_varint_bytes in
  let* header_count := lift get_varint in
  if header_count <? 0 then bdec_fail (InvalidLength header_count)
  else
    let* headers := get_structs "RecordHeader" decode_header header_count in
    bdec_ret (mkKRecord attributes timestamp_delta offset_delta key value headers).

Definition decode_with_budget : bdec KRecord := λ buf budget,
  let? (length, buf) := get_varint buf in
  let? length := ok_or (InvalidLength length) (try_from 0 usize_max length) in
  let? (_, buf) := ensure length buf in
  let? (body, buf) := copy_to_bytes length buf in
  match body with
  | [] => Err (Truncated 1)
  | _ =>
      let? (record, body, budget) := decode_body body budget in
      match body with
      | [] => Ok (record, buf, budget)
      | _ => Err (InvalidLength (len body))
      end
  end.

Definition decode_with_limits : Limits → dec KRecord := with_limits decode_with_budget.
Definition decode : dec KRecord := with_default_limits decode_with_budget.

End decode.
End KRecordOps.

(** ** Batches *)

Module RecordBatchOps.

Definition record_count (b : RecordBatch) : result EncodeError Z :=
  match records b with
  | Plain records => ok_or (TooLong (len records) i32_max)
                       (try_from i32_min i32_max (len records))
  | Compressed count _ => Ok count
  end.

Definition encode_in_place (b : RecordBatch) (start : Z) : enc := λ buf,
  match record_count b with
  | Err e => (Err e, buf)
  | Ok record_count =>
      let buf := ((put_i64 (base_offset b) ;;
                   put_i32 0 ;;
                   put_i32 (partition_leader_epoch b) ;;
                   put_i8 MAGIC ;;
                   put_u32 0) buf).2 in
      let body := len buf in
      match
        (put_i16 (attributes b) ;;
         put_i32 (last_offset_delta b) ;;
         put_i64 (base_timestamp b) ;;
         put_i64 (max_timestamp b) ;;
         put_i64 (producer_id b) ;;
         put_i16 (producer_epoch b) ;;
         put_i32 (base_sequence b) ;;
         put_i32 record_count ;;
         match records b with
         | Plain records => enc_each KRecordOps.encode records
         | Compressed _ payload => put_slice payload
         end) buf
      with
      | (Err e, buf) => (Err e, buf)
      | (Ok _, buf) =>
          let batch_length := 4 + 1 + 4 + (len buf - body) in
          match try_from i32_min i32_max batch_length with
          | None => (Err (TooLong batch_length i32_max), buf)
          | Some batch_length =>
              let crc := crc32c (drop (Z.to_nat body) buf) in
              let buf := patch (start + 8) (be_bytes 4 batch_length) buf in
              let buf := patch (body - 4) (be_bytes 4 crc) buf in
              (Ok tt, buf)
          end
      end
  end.

Definition encode_to (b : RecordBatch) : enc := λ buf,
  let start := len buf in
  match encode_in_place b start buf with
  | (Ok _, buf') => (Ok tt, buf')
  | (Err error, buf') => (Err error, truncate start buf')
  end.

Definition encode (b : RecordBatch) : enc := λ buf,
  match encode_to b [] with
  | (Ok _, scratch) => put_slice scratch buf
  | (Err e, _) => (Err e, buf)
  end.

Section decode.
Context {R : Runtime}.

(** The records, from what is left of the crc-covered body. *)
Definition decode_records (attributes count : Z) (body : buffer) (budget : Budget) :
    result DecodeError (Records * Budget) :=
  if decide (from_attributes attributes = Compression_None) then
    let? (records, body, budget) :=
      get_structs "Record" KRecordOps.decode_with_budget count body budget in
    match body with
    | [] => Ok (Plain records, budget)
    | _ => Err (InvalidLength (len body))
    end
  else Ok (Compressed count body, budget).

(** The fields after the checksum; [body] holds at least their 40 bytes. *)
Definition decode_body (base_offset partition_leader_epoch : Z) (body : buffer)
    (budget : Budget) : result DecodeError (RecordBatch * Budget) :=
  let? (attributes, body) := buf_get_int 2 body in
  let? (last_offset_delta, body) := buf_get_int 4 body in
  let? (base_timestamp, body) := buf_get_int 8 body in
  let? (max_timestamp, body) := buf_get_int 8 body in
  let? (producer_id, body) := buf_get_int 8 body in
  let? (producer_epoch, body) := buf_get_int 2 body in
  let? (base_sequence, body) := buf_get_int 4 body in
  let? (count, body) := buf_get_int 4 body in
  if count <? 0 then Err (InvalidLength count)
  else
    let? (records, budget) := decode_records attributes count body budget in
    Ok (mkRecordBatch base_offset partition_leader_epoch attributes last_offset_delta
          base_timestamp max_timestamp producer_id producer_epoch base_sequence records,
        budget).

Definition decode_with_budget : bdec RecordBatch := λ buf budget,
  let? (_, buf) := ensure 12 buf in
  let? (base_offset, buf) := buf_get_int 8 buf in
  let? (raw_length, buf) := buf_get_int 4 buf in
  let? batch_length := ok_or (InvalidLength raw_length) (try_from 0 usize_max raw_length) in
  if batch_length <? BATCH_OVERHEAD then Err (InvalidLength batch_length)
  else
    let? (_, buf) := ensure batch_length buf in
    let? (partition_leader_epoch, buf) := buf_get_int 4 buf in
    let? (magic, buf) := buf_get_int 1 buf in
    if negb (magic =? MAGIC) then Err (UnknownDiscriminant "record batch magic" magic)
    else
      let? (crc, buf) := buf_get_uint 4 buf in
      let? (body, buf) := copy_to_bytes (batch_length - 9) buf in
      let actual := crc32c body in
      if negb (actual =? crc) then Err (CrcMismatch crc actual)
      else
        let? (batch, budget) := decode_body base_offset partition_leader_epoch body budget in
        Ok (batch, buf, budget).

Definition decode_with_limits : Limits → dec RecordBatch := with_limits decode_with_budget.
Definition decode : dec RecordBatch := with_default_limits decode_with_budget.

End decode.
End RecordBatchOps.

(** ** Record sets *)

Section sets.
Context {R : Runtime}.

(** A batch is at least 61 bytes of the input, so its length is fuel enough
    ([decode_set_fuel]). *)
Fixpoint decode_set_loop (fuel : nat) (batches : Vec RecordBatch) : bdec (list RecordBatch) :=
  λ buf budget,
  match fuel with
  | O => Ok (items batches, [], budget)
  | S fuel' =>
      if len buf <? 12 then Ok (items batches, [], budget)
      else
        let raw_length := sint 32 (be_val (take 4 (drop 8 buf))) in
        let? batch_length := ok_or (InvalidLength raw_length)
                               (try_from 0 usize_max raw_length) in
        if len buf <? 12 + batch_length then Ok (items batches, [], budget)
        else
          let? (batch, buf, budget) := RecordBatchOps.decode_with_budget buf budget in
          let? (batches, buf, budget) := bpush "RecordBatch" batches batch buf budget in
          decode_set_loop fuel' batches buf budget
  end.

Definition decode_set_with_budget : bdec (list RecordBatch) := λ buf budget,
  decode_set_loop (S (length buf)) (vec_new "RecordBatch") buf budget.

Definition decode_set_with_limits : Limits → dec (list RecordBatch) :=
  with_limits decode_set_with_budget.
Definition decode_set : dec (list RecordBatch) := with_default_limits decode_set_with_budget.

End sets.

Definition encode_set_to (batches : list RecordBatch) : enc :=
  enc_each RecordBatchOps.encode_to batches.

(** The scratch buffer is cleared before each batch, so it is empty each
    time [encode_to] runs. *)
Definition encode_set (batches : list RecordBatch) : enc :=
  enc_each (λ batch buf,
    match RecordBatchOps.encode_to batch [] with
    | (Ok _, scratch) => put_slice scratch buf
    | (Err e, _) => (Err e, buf)
    end) batches.

(** ** Record facts *)

Definition opt_ok (o : option (list byte)) : Prop :=
  match o with Some v => len v ≤ i64_max | None => True end.

Definition varint_field (o : option (list byte)) : list byte :=
  match o with
  | Some v => svarint_bytes (len v) ++ v
  | None => svarint_bytes (-1)
  end.

Lemma encodes_varint_bytes o : opt_ok o → encodes (put_varint_bytes o) (varint_field o).
Proof.
  destruct o as [v|]; cbn [opt_ok put_varint_bytes varint_field]; intros H; [|apply encodes_varint; int_lia].
  rewrite sint_small by int_lia. apply encodes_seq; [apply encodes_varint; int_lia|done].
Qed.

Lemma gets_varint_bytes o : opt_ok o → gets get_varint_bytes (varint_field o) o.
Proof.
  destruct o as [v|]; cbn [opt_ok varint_field]; intros H; unfold get_varint_bytes.
  - eapply gets_bind; [apply gets_varint; int_lia|].
    destruct (Z.eqb_spec (len v) (-1)); [lia|].
    eapply gets_of; [by rewrite try_from_in by int_lia|].
    rewrite <- (app_nil_r v) at 2. by apply gets_ensure_copy.
  - rewrite <- (app_nil_r (svarint_bytes _)).
    by eapply gets_bind; [apply gets_varint; int_lia|].
Qed.

Lemma bytes_len_spec o : opt_ok o → KRecordOps.bytes_len o = len (varint_field o).
Proof.
  destruct o as [v|]; unfold KRecordOps.bytes_len, varint_field; cbn [opt_ok]; intros H.
  - rewrite sint_small, length_app, Nat2Z.inj_add, svarint_bytes_length by int_lia. done.
  - by rewrite svarint_bytes_length by int_lia.
Qed.

Lemma varint_len_pos v : 1 ≤ varint_len v.
Proof. unfold varint_len, unsigned_varint_len. lia. Qed.

Definition opt_len (o : option (list byte)) : Z :=
  match o with Some v => len v | None => 0 end.

Lemma opt_len_ok o : 0 ≤ opt_len o ∧ (opt_len o ≤ i64_max → opt_ok o).
Proof. destruct o; simpl; [lia|done]. Qed.

Lemma bytes_len_ge o : 1 + opt_len o ≤ KRecordOps.bytes_len o.
Proof.
  destruct o; unfold KRecordOps.bytes_len, opt_len.
  - pose proof (varint_len_pos (sint 64 (len l))). lia.
  - apply varint_len_pos.
Qed.

Definition header_field (h : RecordHeader) : list byte :=
  varint_field (Some (str_bytes (header_key h))) ++ varint_field (header_value h).

Definition headers_len (hs : list RecordHeader) : Z :=
  foldr (λ h acc, KRecordOps.bytes_len (Some (str_bytes (header_key h))) +
                  KRecordOps.bytes_len (header_value h) + acc) 0 hs.

Definition header_ok (h : RecordHeader) : Prop :=
  is_str (header_key h) ∧ str_len (header_key h) ≤ i64_max ∧ opt_ok (header_value h).

(** What of the Rust types and of memory a [Record] value satisfies: fields in
    their integer ranges, header keys UTF-8, and a body length an [i64]
    counts. *)
Record record_ok (r : KRecord) : Prop := mkRecordOk {
  ok_attributes : is_i8 (record_attributes r);
  ok_timestamp : is_i64 (timestamp_delta r);
  ok_offset : is_i32 (offset_delta r);
  ok_keys : Forall (λ h, is_str (header_key h)) (headers r);
  ok_body : KRecordOps.body_len r (len (headers r)) ≤ i64_max;
}.

Definition record_body (r : KRecord) : list byte :=
  be_bytes 1 (record_attributes r) ++ svarint_bytes (timestamp_delta r) ++
  svarint_bytes (offset_delta r) ++ varint_field (key r) ++ varint_field (value r) ++
  svarint_bytes (len (headers r)) ++ concat (header_field <$> headers r).

Definition record_wire (r : KRecord) : list byte :=
  svarint_bytes (len (record_body r)) ++ record_body r.

Lemma headers_len_ge hs :
  2 * len hs ≤ headers_len hs ∧
  ∀ h, h ∈ hs → str_len (header_key h) ≤ headers_len hs ∧
    opt_len (header_value h) ≤ headers_len hs.
Proof.
  induction hs as [|h hs [IH1 IH2]]; cbn [headers_len foldr].
  - split; [done|]. intros h Hh. by apply not_elem_of_nil in Hh.
  - fold (headers_len hs) in *.
    pose proof (bytes_len_ge (Some (str_bytes (header_key h)))).
    pose proof (bytes_len_ge (header_value h)) as Hv.
    destruct (opt_len_ok (header_value h)) as [? _]. cbn [opt_len] in *.
    split; [cbn [length]; lia|]. intros h' [->|Hh']%elem_of_cons.
    + unfold str_len. lia.
    + destruct (IH2 h' Hh'). lia.
Qed.

Lemma record_ok_parts r :
  record_ok r →
  opt_ok (key r) ∧ opt_ok (value r) ∧ Forall header_ok (headers r) ∧ len (headers r) ≤ i64_max.
Proof.
  intros [_ _ _ Hk Hb]. unfold KRecordOps.body_len in Hb. fold (headers_len (headers r)) in Hb.
  pose proof (varint_len_pos (timestamp_delta r)). pose proof (varint_len_pos (offset_delta r)).
  pose proof (varint_len_pos (len (headers r))).
  pose proof (bytes_len_ge (key r)) as Hkey. pose proof (bytes_len_ge (value r)) as Hval.
  destruct (headers_len_ge (headers r)) as [Hn Hh].
  destruct (opt_len_ok (key r)) as [? Hko]. destruct (opt_len_ok (value r)) as [? Hvo].
  split; [apply Hko; lia|]. split; [apply Hvo; lia|]. split; [|lia].
  apply Forall_forall. intros h Hin. destruct (Hh h Hin) as [Hs1 Hs2].
  apply (proj1 (Forall_forall _ _) Hk) in Hin.
  destruct (opt_len_ok (header_value h)) as [? Hho].
  split; [done|]. split; [lia|]. apply Hho. lia.
Qed.

Lemma headers_len_spec hs :
  Forall header_ok hs → headers_len hs = len (concat (header_field <$> hs)).
Proof.
  induction 1 as [|h hs (Hs & Hl & Hv) Hhs IH]; [done|].
  cbn [headers_len foldr]. fold (headers_len hs). rewrite fmap_cons. cbn [concat].
  rewrite length_app, Nat2Z.inj_add, IH.
  assert (len (header_field h) = len (varint_field (Some (str_bytes (header_key h)))) +
    len (varint_field (header_value h))) as -> by (unfold header_field; rewrite length_app; lia).
  by rewrite !bytes_len_spec by done.
Qed.

Lemma body_len_fields r :
  is_i64 (timestamp_delta r) → is_i64 (offset_delta r) → opt_ok (key r) → opt_ok (value r) →
  Forall header_ok (headers r) → len (headers r) ≤ i64_max →
  KRecordOps.body_len r (len (headers r)) = len (record_body r).
Proof.
  intros Ht Ho Hk Hv Hh Hn.
  unfold KRecordOps.body_len, record_body. fold (headers_len (headers r)).
  rewrite !length_app, be_bytes_length, !Nat2Z.inj_add.
  rewrite !svarint_bytes_length by int_lia.
  rewrite !bytes_len_spec, headers_len_spec by done. lia.
Qed.

Lemma body_len_spec r :
  record_ok r → KRecordOps.body_len r (len (headers r)) = len (record_body r).
Proof.
  intros Hr. destruct (record_ok_parts r Hr) as (Hk & Hv & Hh & Hn). destruct Hr.
  apply body_len_fields; done || int_lia.
Qed.

Lemma encodes_header h :
  header_ok h →
  encodes (put_varint_bytes (Some (str_bytes (header_key h))) ;;
           put_varint_bytes (header_value h)) (header_field h).
Proof. intros (Hs & Hl & Hv). by apply encodes_seq; apply encodes_varint_bytes. Qed.

Lemma encodes_record r : record_ok r → encodes (KRecordOps.encode r) (record_wire r).
Proof.
  intros Hr. destruct (record_ok_parts r Hr) as (Hk & Hv & Hh & Hn).
  unfold KRecordOps.encode. rewrite try_from_in by int_lia.
  rewrite body_len_spec by done. pose proof (ok_body r Hr) as Hb.
  rewrite body_len_spec in Hb by done. rewrite try_from_in by int_lia. destruct Hr.
  unfold record_wire. unfold record_body at 3.
  apply encodes_seq; [apply encodes_varint; int_lia|].
  apply encodes_seq; [apply encodes_put_int|].
  apply encodes_seq; [by apply encodes_varint|].
  apply encodes_seq; [apply encodes_varint; int_lia|].
  apply encodes_seq; [by apply encodes_varint_bytes|].
  apply encodes_seq; [by apply encodes_varint_bytes|].
  apply encodes_seq; [apply encodes_varint; int_lia|].
  apply encodes_each. intros h Hin. apply encodes_header.
  by apply (proj1 (Forall_forall _ _) Hh).
Qed.

Section record_facts.
Context {R : Runtime}.

Lemma reads_of_bind {A B} (r : result DecodeError A) (k : A → bdec B) x bs y :
  r = Ok x → reads (k x) bs y → reads (let* x := lift (dec_of r) in k x) bs y.
Proof. intros -> H. apply (reads_bind _ _ [] _ x); [apply reads_of|done]. Qed.

Lemma reads_header h : header_ok h → reads KRecordOps.decode_header (header_field h) h.
Proof.
  intros (Hs & Hl & Hv). unfold KRecordOps.decode_header, header_field.
  eapply reads_bind; [by apply reads_lift, gets_varint_bytes|].
  eapply reads_of_bind; [done|].
  eapply reads_of_bind; [unfold from_utf8; by rewrite Hs|].
  rewrite bytes_str_bytes.
  eapply reads_bind_ret; [|by apply reads_lift, gets_varint_bytes]. by destruct h.
Qed.

Lemma svarint_bytes_ne v : svarint_bytes v ≠ [].
Proof. apply varint_bytes_ne. Qed.

Lemma header_field_ne h : header_field h ≠ [].
Proof.
  unfold header_field, varint_field. intros [[H _]%app_nil _]%app_nil.
  by apply svarint_bytes_ne in H.
Qed.

Lemma gets_raw_i8 z : is_i8 z → gets (buf_get_int 1) (be_bytes 1 z) z.
Proof.
  intros H rest. pose proof (gets_i8 z H rest) as G. unfold get_i8, dec_bind in G.
  by rewrite ensure_ok in G by (rewrite length_app, be_bytes_length; lia).
Qed.

Lemma reads_record_body r :
  record_ok r → reads KRecordOps.decode_body (record_body r) r.
Proof.
  intros Hr. destruct (record_ok_parts r Hr) as (Hk & Hv & Hh & Hn). destruct Hr.
  unfold KRecordOps.decode_body, record_body.
  eapply reads_bind; [by apply reads_lift, gets_raw_i8|].
  eapply reads_bind; [by apply reads_lift, gets_varint|].
  eapply reads_bind; [apply reads_lift, gets_varint; int_lia|].
  eapply reads_of_bind; [by rewrite try_from_in by int_lia|].
  eapply reads_bind; [by apply reads_lift, gets_varint_bytes|].
  eapply reads_bind; [by apply reads_lift, gets_varint_bytes|].
  eapply reads_bind; [apply reads_lift, gets_varint; int_lia|].
  destruct (Z.ltb_spec (len (headers r)) 0); [lia|].
  eapply reads_bind_ret; [|apply reads_structs]; [by destruct r|]. intros h Hin. split; [apply header_field_ne|].
  apply reads_header. by apply (proj1 (Forall_forall _ _) Hh).
Qed.

Lemma record_body_cons r : ∃ b bs, record_body r = b :: bs.
Proof. unfold record_body. rewrite be_bytes_1. eexists _, _. done. Qed.

Lemma reads_record r :
  record_ok r → reads KRecordOps.decode_with_budget (record_wire r) r.
Proof.
  intros Hr rest b. pose proof (ok_body r Hr) as Hb. rewrite body_len_spec in Hb by done.
  unfold KRecordOps.decode_with_budget, record_wire. rewrite <- app_assoc.
  rewrite gets_varint by int_lia. cbn [res_bind].
  rewrite try_from_in by int_lia. cbn [ok_or res_bind].
  rewrite ensure_ok by (rewrite length_app; lia). cbn [res_bind].
  rewrite gets_copy by done. cbn [res_bind].
  destruct (record_body_cons r) as (c & cs & Ec). rewrite Ec, <- Ec.
  pose proof (reads_record_body r Hr [] b) as H. rewrite app_nil_r in H.
  destruct H as [(b' & -> & Hl)|(e & -> & He & Hn)]; cbn [res_bind]; [left|right]; eauto.
Qed.

Lemma record_wire_ne r : record_wire r ≠ [].
Proof. unfold record_wire. intros [H _]%app_nil. by apply svarint_bytes_ne in H. Qed.

End record_facts.

(** ** Batch facts *)

Definition wire_count (rs : Records) : Z :=
  match rs with Plain l => len l | Compressed count _ => count end.

Definition batch_payload (rs : Records) : list byte :=
  match rs with Plain l => concat (record_wire <$> l) | Compressed _ payload => payload end.

(** Everything the checksum covers. *)
Definition batch_body (b : RecordBatch) : list byte :=
  be_bytes 2 (attributes b) ++ be_bytes 4 (last_offset_delta b) ++
  be_bytes 8 (base_timestamp b) ++ be_bytes 8 (max_timestamp b) ++
  be_bytes 8 (producer_id b) ++ be_bytes 2 (producer_epoch b) ++
  be_bytes 4 (base_sequence b) ++ be_bytes 4 (wire_count (records b)) ++
  batch_payload (records b).

Definition batch_wire (b : RecordBatch) : list byte :=
  be_bytes 8 (base_offset b) ++ be_bytes 4 (9 + len (batch_body b)) ++
  be_bytes 4 (partition_leader_epoch b) ++ be_bytes 1 MAGIC ++
  be_bytes 4 (crc32c (batch_body b)) ++ batch_body b.

(** Fields in range, a length an [i32] counts, and the records in the form the
    compression bits announce. *)
Record batch_ok (b : RecordBatch) : Prop := mkBatchOk {
  ok_base_offset : is_i64 (base_offset b);
  ok_epoch : is_i32 (partition_leader_epoch b);
  ok_attrs : is_i16 (attributes b);
  ok_last_offset : is_i32 (last_offset_delta b);
  ok_base_ts : is_i64 (base_timestamp b);
  ok_max_ts : is_i64 (max_timestamp b);
  ok_pid : is_i64 (producer_id b);
  ok_pepoch : is_i16 (producer_epoch b);
  ok_seq : is_i32 (base_sequence b);
  ok_form : match records b with
            | Plain rs => compression b = Compression_None ∧ Forall record_ok rs
            | Compressed count _ => compression b ≠ Compression_None ∧ 0 ≤ count ≤ i32_max
            end;
  ok_length : 9 + len (batch_body b) ≤ i32_max;
}.

Lemma concat_wire_length rs : len rs ≤ len (concat (record_wire <$> rs)).
Proof.
  induction rs as [|r rs IH]; [done|]. rewrite fmap_cons. cbn [concat length].
  rewrite length_app. pose proof (record_wire_ne r).
  destruct (record_wire r); [done|]. cbn [length]. lia.
Qed.

Lemma batch_body_length b : len (batch_body b) = 40 + len (batch_payload (records b)).
Proof. unfold batch_body. rewrite !length_app, !be_bytes_length. lia. Qed.

Lemma wire_count_i32 b : batch_ok b → 0 ≤ wire_count (records b) ≤ i32_max.
Proof.
  intros [????????? Hf Hl]. rewrite batch_body_length in Hl.
  unfold wire_count. destruct (records b) as [rs|]; cbn [batch_payload] in *; [|by destruct Hf].
  pose proof (concat_wire_length rs). lia.
Qed.

Lemma record_count_ok b :
  batch_ok b → RecordBatchOps.record_count b = Ok (wire_count (records b)).
Proof.
  intros Hb. pose proof (wire_count_i32 b Hb) as Hc. unfold RecordBatchOps.record_count.
  destruct (records b); cbn [wire_count] in *; [|done]. by rewrite try_from_in by int_lia.
Qed.

Lemma appends_varint_bytes o : appends (put_varint_bytes o).
Proof.
  destruct o; cbn [put_varint_bytes]; [apply appends_seq|]; auto with appends.
Qed.
#[local] Hint Resolve appends_varint_bytes : appends.

Lemma appends_record r : appends (KRecordOps.encode r).
Proof.
  unfold KRecordOps.encode, put_i8.
  destruct (try_from _ _ _); [|auto with appends].
  destruct (try_from _ _ _); [|auto with appends].
  repeat simple apply appends_seq; auto 10 with appends.
Qed.

Lemma encodes_batch b : batch_ok b → encodes (RecordBatchOps.encode_to b) (batch_wire b).
Proof.
  intros Hb buf. unfold RecordBatchOps.encode_to, RecordBatchOps.encode_in_place.
  rewrite record_count_ok by done. cbv zeta.
  set (head := be_bytes 8 (base_offset b) ++ be_bytes 4 0 ++
    be_bytes 4 (partition_leader_epoch b) ++ be_bytes 1 MAGIC ++ be_bytes 4 0).
  assert (encodes (put_i64 (base_offset b) ;; put_i32 0 ;; put_i32 (partition_leader_epoch b) ;;
    put_i8 MAGIC ;; put_u32 0) head) as Hhead
    by (repeat apply encodes_seq; apply encodes_put_int).
  rewrite !(Hhead buf). cbn [snd].
  assert (∀ buf, (put_i16 (attributes b) ;; put_i32 (last_offset_delta b) ;;
     put_i64 (base_timestamp b) ;; put_i64 (max_timestamp b) ;; put_i64 (producer_id b) ;;
     put_i16 (producer_epoch b) ;; put_i32 (base_sequence b) ;;
     put_i32 (wire_count (records b)) ;;
     match records b with
     | Plain records => enc_each KRecordOps.encode records
     | Compressed _ payload => put_slice payload
     end) buf = (Ok tt, buf ++ batch_body b)) as ->.
  { apply (encodes_seq _ _ (be_bytes 2 _)); [apply encodes_put_int|].
    do 7 (apply encodes_seq; [apply encodes_put_int|]).
    pose proof (ok_form b Hb) as Hf. unfold batch_payload. destruct (records b) as [rs|];
      [|apply encodes_slice].
    apply encodes_each. intros r Hr. apply encodes_record.
    by apply (proj1 (Forall_forall _ _) (proj2 Hf)). }
  pose proof (ok_length b Hb). rewrite (length_app (buf ++ head)).
  replace (4 + 1 + 4 + (Z.of_nat (length (buf ++ head) + length (batch_body b)) - len (buf ++ head)))
    with (9 + len (batch_body b)) by lia.
  rewrite try_from_in by int_lia. cbv iota. rewrite Nat2Z.id, drop_app_exact by done.
  set (pre := buf ++ be_bytes 8 (base_offset b)).
  set (mid := be_bytes 4 (partition_leader_epoch b) ++ be_bytes 1 MAGIC).
  assert (patch (len buf + 8) (be_bytes 4 (9 + len (batch_body b))) ((buf ++ head) ++ batch_body b)
    = (pre ++ be_bytes 4 (9 + len (batch_body b)) ++ mid) ++ be_bytes 4 0 ++ batch_body b) as ->.
  { replace (len buf + 8) with (len pre) by (unfold pre; rewrite length_app, be_bytes_length; lia).
    replace ((buf ++ head) ++ batch_body b)
      with (pre ++ be_bytes 4 0 ++ (mid ++ be_bytes 4 0 ++ batch_body b))
      by (unfold pre, mid, head; by rewrite <- !app_assoc).
    rewrite patch_prefix by (by rewrite !be_bytes_length). by rewrite <- !app_assoc. }
  replace (len (buf ++ head) - 4)
    with (len (pre ++ be_bytes 4 (9 + len (batch_body b)) ++ mid))
    by (unfold pre, mid, head; rewrite !length_app, !be_bytes_length; lia).
  rewrite patch_prefix by (by rewrite !be_bytes_length).
  unfold batch_wire, pre, mid. by rewrite <- !app_assoc.
Qed.

Lemma gets_raw_int n z :
  (0 < n)%nat → - 2 ^ (8 * Z.of_nat n - 1) ≤ z < 2 ^ (8 * Z.of_nat n - 1) →
  gets (buf_get_int n) (be_bytes n z) z.
Proof.
  intros Hn Hz rest. pose proof (gets_int n z Hn Hz rest) as G. unfold dec_bind in G.
  by rewrite ensure_ok in G by (rewrite length_app, be_bytes_length; lia).
Qed.

Lemma raw_i16 z rest : is_i16 z → buf_get_int 2 (be_bytes 2 z ++ rest) = Ok (z, rest).
Proof. intros H. apply (gets_raw_int 2); [lia|]. cbn. int_lia. Qed.
Lemma raw_i32 z rest : is_i32 z → buf_get_int 4 (be_bytes 4 z ++ rest) = Ok (z, rest).
Proof. intros H. apply (gets_raw_int 4); [lia|]. cbn. int_lia. Qed.
Lemma raw_i64 z rest : is_i64 z → buf_get_int 8 (be_bytes 8 z ++ rest) = Ok (z, rest).
Proof. intros H. apply (gets_raw_int 8); [lia|]. cbn. int_lia. Qed.
Lemma raw_u32 z rest : is_u32 z → buf_get_uint 4 (be_bytes 4 z ++ rest) = Ok (z, rest).
Proof.
  intros H. pose proof (gets_u32 z H rest) as G. unfold get_u32, dec_bind in G.
  by rewrite ensure_ok in G by (rewrite length_app, be_bytes_length; lia).
Qed.

Section batch_facts.
Context {R : Runtime}.

(** Reading a value that leaves no bytes, as [reads] says of an exact input. *)
Lemma reads_exact {A} (d : bdec A) bs x b :
  reads d bs x →
  (∃ b', d bs b = Ok (x, [], b') ∧ limit b' = limit b) ∨
  (∃ e, d bs b = Err e ∧ is_alloc_error e ∧ ¬ (reliable R ∧ roomy b)).
Proof. intros H. specialize (H [] b). by rewrite app_nil_r in H. Qed.

Lemma decode_records_wire b bu :
  batch_ok b →
  (∃ bu', RecordBatchOps.decode_records (attributes b) (wire_count (records b))
            (batch_payload (records b)) bu = Ok (records b, bu') ∧ limit bu' = limit bu) ∨
  (∃ e, RecordBatchOps.decode_records (attributes b) (wire_count (records b))
          (batch_payload (records b)) bu = Err e ∧ is_alloc_error e ∧
        ¬ (reliable R ∧ roomy bu)).
Proof.
  intros Hb. pose proof (ok_form b Hb) as Hf. unfold RecordBatchOps.decode_records.
  unfold compression in Hf. destruct (records b) as [rs|count payload].
  - destruct Hf as [Hc Hrs]. rewrite decide_True by done. cbn [wire_count batch_payload].
    destruct (reads_exact (get_structs "Record" KRecordOps.decode_with_budget (len rs))
      (concat (record_wire <$> rs)) rs bu) as [(b' & -> & Hl)|(e & -> & He)].
    + apply reads_structs. intros r Hr. split; [apply record_wire_ne|].
      apply reads_record. by apply (proj1 (Forall_forall _ _) Hrs).
    + left. by exists b'.
    + right. by exists e.
  - destruct Hf as [Hc _]. rewrite decide_False by done. left. by exists bu.
Qed.

Lemma decode_body_wire b bu :
  batch_ok b →
  (∃ bu', RecordBatchOps.decode_body (base_offset b) (partition_leader_epoch b)
            (batch_body b) bu = Ok (b, bu') ∧ limit bu' = limit bu) ∨
  (∃ e, RecordBatchOps.decode_body (base_offset b) (partition_leader_epoch b)
          (batch_body b) bu = Err e ∧ is_alloc_error e ∧ ¬ (reliable R ∧ roomy bu)).
Proof.
  intros Hb. pose proof (wire_count_i32 b Hb) as Hc. pose proof (decode_records_wire b bu Hb) as Hd.
  destruct Hb as [??????????]. unfold RecordBatchOps.decode_body, batch_body.
  rewrite raw_i16 by done. cbn [res_bind]. rewrite raw_i32 by done. cbn [res_bind].
  rewrite raw_i64 by done. cbn [res_bind]. rewrite raw_i64 by done. cbn [res_bind].
  rewrite raw_i64 by done. cbn [res_bind]. rewrite raw_i16 by done. cbn [res_bind].
  rewrite raw_i32 by done. cbn [res_bind]. rewrite raw_i32 by int_lia. cbn [res_bind].
  destruct (Z.ltb_spec (wire_count (records b)) 0); [lia|].
  destruct Hd as [(bu' & -> & Hl)|(e & -> & He)]; cbn [res_bind].
  - left. exists bu'. by destruct b.
  - right. by exists e.
Qed.

Lemma batch_wire_length b : len (batch_wire b) = 21 + len (batch_body b).
Proof. unfold batch_wire. rewrite !length_app, !be_bytes_length. lia. Qed.

Lemma reads_batch b :
  batch_ok b → reads RecordBatchOps.decode_with_budget (batch_wire b) b.
Proof.
  intros Hb rest bu. pose proof (decode_body_wire b bu Hb) as Hd.
  pose proof (batch_wire_length b) as Hlen. pose proof (batch_body_length b) as Hbl.
  pose proof (ok_length b Hb) as Hl. pose proof (ok_epoch b Hb). pose proof (ok_base_offset b Hb).
  pose proof (crc32c_u32 (batch_body b)) as Hcrc.
  unfold RecordBatchOps.decode_with_budget.
  rewrite ensure_ok by (rewrite length_app; lia). cbn [res_bind].
  unfold batch_wire. rewrite <- !app_assoc.
  rewrite raw_i64 by done. cbn [res_bind]. rewrite raw_i32 by int_lia. cbn [res_bind].
  rewrite try_from_in by int_lia. cbn [ok_or res_bind].
  unfold BATCH_OVERHEAD. destruct (Z.ltb_spec (9 + len (batch_body b))
    (4 + 1 + 4 + 2 + 4 + 8 + 8 + 8 + 2 + 4 + 4)); [lia|].
  rewrite ensure_ok by (rewrite !length_app, !be_bytes_length; lia). cbn [res_bind].
  rewrite raw_i32 by done. cbn [res_bind].
  rewrite gets_raw_i8 by done. cbn [res_bind]. rewrite Z.eqb_refl. cbn [negb].
  rewrite raw_u32 by done. cbn [res_bind].
  rewrite gets_copy by lia. cbn [res_bind]. cbv zeta. rewrite Z.eqb_refl. cbn [negb].
  destruct Hd as [(bu' & -> & ?)|(e & -> & He)]; cbn [res_bind].
  - left. by exists bu'.
  - right. by exists e.
Qed.

End batch_facts.

(** ** What an accepted batch must have been *)

(** Peel one [let? (z, buf) := buf_get_int n buf in ...] off a hypothesis. *)
Ltac take_int H n z :=
  let v := fresh z in let buf := fresh "buf" in let E := fresh "E" in
  let R := fresh "R" z in
  apply res_bind_ok in H as ([v buf] & E & H);
  apply (get_int_inv n) in E as [-> R];
  [|rewrite ?length_app, ?be_bytes_length in *; lia];
  rewrite ?length_app, ?be_bytes_length in *.

Section batch_soundness.
Context {R : Runtime}.

Lemma decode_body_inv off ep body bu b bu' :
  40 ≤ len body → RecordBatchOps.decode_body off ep body bu = Ok (b, bu') →
  ∃ count payload,
    base_offset b = off ∧ partition_leader_epoch b = ep ∧
    is_i16 (attributes b) ∧ is_i32 (last_offset_delta b) ∧ is_i64 (base_timestamp b) ∧
    is_i64 (max_timestamp b) ∧ is_i64 (producer_id b) ∧ is_i16 (producer_epoch b) ∧
    is_i32 (base_sequence b) ∧ 0 ≤ count ≤ i32_max ∧
    body = be_bytes 2 (attributes b) ++ be_bytes 4 (last_offset_delta b) ++
      be_bytes 8 (base_timestamp b) ++ be_bytes 8 (max_timestamp b) ++
      be_bytes 8 (producer_id b) ++ be_bytes 2 (producer_epoch b) ++
      be_bytes 4 (base_sequence b) ++ be_bytes 4 count ++ payload ∧
    RecordBatchOps.decode_records (attributes b) count payload bu = Ok (records b, bu').
Proof.
  intros Hl H. unfold RecordBatchOps.decode_body in H.
  take_int H 2%nat a. take_int H 4%nat d. take_int H 8%nat bt. take_int H 8%nat mt.
  take_int H 8%nat pid. take_int H 2%nat pe. take_int H 4%nat sq. take_int H 4%nat count.
  destruct (Z.ltb_spec count 0); [done|].
  apply res_bind_ok in H as ([rs bu1] & Hr & H). injection H as <- <-. cbn.
  eexists count, _. cbn in *. repeat split; try int_lia; try done; int_lia.
Qed.

Lemma decode_batch_inv buf bu b rest bu' :
  RecordBatchOps.decode_with_budget buf bu = Ok (b, rest, bu') →
  ∃ body, is_i64 (base_offset b) ∧ is_i32 (partition_leader_epoch b) ∧
    40 ≤ len body ∧ 9 + len body ≤ i32_max ∧
    buf = be_bytes 8 (base_offset b) ++ be_bytes 4 (9 + len body) ++
      be_bytes 4 (partition_leader_epoch b) ++ be_bytes 1 MAGIC ++
      be_bytes 4 (crc32c body) ++ body ++ rest ∧
    RecordBatchOps.decode_body (base_offset b) (partition_leader_epoch b) body bu = Ok (b, bu').
Proof.
  unfold RecordBatchOps.decode_with_budget. intros H.
  apply res_bind_ok in H as (? & [-> Hl]%ensure_inv & H).
  take_int H 8%nat off. take_int H 4%nat raw.
  apply res_bind_ok in H as (bl & Hbl & H).
  unfold ok_or in Hbl. destruct (try_from 0 usize_max raw) as [x|] eqn:Ex; [|done].
  injection Hbl as ->. apply try_from_Some in Ex as [-> Hraw].
  unfold BATCH_OVERHEAD in H.
  destruct (Z.ltb_spec raw (4 + 1 + 4 + 2 + 4 + 8 + 8 + 8 + 2 + 4 + 4)); [done|].
  apply res_bind_ok in H as (? & [-> Hl2]%ensure_inv & H).
  take_int H 4%nat ep. take_int H 1%nat mg.
  destruct (Z.eqb_spec mg MAGIC) as [->|]; [|done]. cbn [negb] in H.
  apply res_bind_ok in H as ([crc buf4] & E & H).
  apply (get_uint_inv 4) in E as ->; [|lia]. rewrite ?length_app, ?be_bytes_length in *.
  apply res_bind_ok in H as ([body buf5] & [-> Hbody]%copy_inv & H); [|lia].
  cbv zeta in H. destruct (Z.eqb_spec (crc32c body) crc) as [<-|]; [|done]. cbn [negb] in H.
  apply res_bind_ok in H as ([b' bu1] & Hd & H). injection H as <- <- <-.
  pose proof Hd as Hd'. apply decode_body_inv in Hd' as (? & ? & Ho & He & _); [|lia].
  exists body. rewrite Ho, He. replace (9 + len body) with raw by lia.
  cbn in *. repeat split; try int_lia; done.
Qed.

(** A compressed batch is its own wire form. *)
Lemma decode_compressed_wire buf bu b rest bu' count payload :
  RecordBatchOps.decode_with_budget buf bu = Ok (b, rest, bu') →
  records b = Compressed count payload →
  batch_ok b ∧ buf = batch_wire b ++ rest.
Proof.
  intros H Hc. apply decode_batch_inv in H as (body & ? & ? & Hl1 & Hl2 & -> & H).
  apply decode_body_inv in H as
    (count' & payload' & _ & _ & ? & ? & ? & ? & ? & ? & ? & ? & Eb & H); [|done].
  unfold RecordBatchOps.decode_records in H. case_decide as Hcomp.
  { apply res_bind_ok in H as ([[rs []] bu1] & _ & H); [|done].
    injection H as E _. by rewrite Hc in E. }
  injection H as E _. rewrite Hc in E. injection E as -> ->.
  assert (batch_body b = body) as Ebody by (rewrite Eb; unfold batch_body; by rewrite Hc).
  split.
  - split; try done; [by rewrite Hc|by rewrite Ebody].
  - unfold batch_wire. by rewrite Ebody, <- !app_assoc.
Qed.

End batch_soundness.

(** ** Record-set facts *)

Section set_facts.
Context {R : Runtime}.

Lemma decode_batch_shrinks buf bu b rest bu' :
  RecordBatchOps.decode_with_budget buf bu = Ok (b, rest, bu') →
  (length rest + 61 ≤ length buf)%nat.
Proof.
  intros H. apply decode_batch_inv in H as (body & _ & _ & Hl & _ & -> & _).
  rewrite !length_app, !be_bytes_length. lia.
Qed.

(** The loop's result does not depend on the fuel, once it exceeds the
    length of the input. *)
Lemma decode_set_loop_fuel f1 : ∀ f2 v buf bu,
  (length buf < f1)%nat → (length buf < f2)%nat →
  decode_set_loop f1 v buf bu = decode_set_loop f2 v buf bu.
Proof.
  induction f1 as [|f1 IH]; intros f2 v buf bu H1 H2; [lia|].
  destruct f2 as [|f2]; [lia|]. cbn [decode_set_loop].
  destruct (len buf <? 12); [done|]. cbv zeta.
  destruct (ok_or _ _) as [bl|]; [|done]. cbn [res_bind].
  destruct (len buf <? 12 + bl); [done|].
  destruct (RecordBatchOps.decode_with_budget buf bu) as [[[b rest] bu1]|] eqn:E; [|done].
  cbn [res_bind]. apply decode_batch_shrinks in E.
  destruct (bpush _ v b rest bu1) as [[[v' rest'] bu2]|] eqn:Ep; [|done]. cbn [res_bind].
  apply bpush_buffer in Ep as ->. apply IH; lia.
Qed.

(** A trailing piece the broker cut short. *)
Definition cut_short (tail : list byte) : Prop :=
  ∃ b more, batch_ok b ∧ batch_wire b = tail ++ more ∧ more ≠ [].

Lemma raw_length_at b more :
  batch_ok b → sint 32 (be_val (take 4 (drop 8 (batch_wire b ++ more)))) = 9 + len (batch_body b).
Proof.
  intros Hb. unfold batch_wire. rewrite <- !app_assoc.
  rewrite drop_app_exact, take_app_exact by (by rewrite be_bytes_length).
  rewrite be_val_bytes. change (256 ^ Z.of_nat 4) with (2 ^ 32).
  pose proof (ok_length b Hb). by rewrite sint_wrap, sint_small by int_lia.
Qed.

Lemma set_loop_stops fuel v tail bu :
  (0 < fuel)%nat → tail = [] ∨ cut_short tail →
  decode_set_loop fuel v tail bu = Ok (items v, [], bu).
Proof.
  intros Hf Ht. destruct fuel as [|fuel]; [lia|]. cbn [decode_set_loop].
  destruct (Z.ltb_spec (len tail) 12); [done|].
  destruct Ht as [->|(b & more & Hb & E & Hm)]; [cbn in *; lia|].
  pose proof (batch_wire_length b) as Hl. rewrite E, length_app in Hl.
  pose proof (raw_length_at b [] Hb) as Hr. rewrite app_nil_r, E in Hr.
  assert (take 4 (drop 8 (tail ++ more)) = take 4 (drop 8 tail)) as Et.
  { rewrite drop_app_le by lia. rewrite take_app_le; [done|]. rewrite length_drop. lia. }
  rewrite Et in Hr. rewrite Hr. pose proof (ok_length b Hb).
  rewrite try_from_in by int_lia. cbn [ok_or res_bind].
  destruct (Z.ltb_spec (len tail) (12 + (9 + len (batch_body b)))); [done|].
  destruct more; [done|]. cbn [length] in Hl. lia.
Qed.

Lemma reads_set_loop bs : ∀ fuel v tail bu,
  Forall batch_ok bs → tail = [] ∨ cut_short tail → (length bs < fuel)%nat →
  (∃ bu', decode_set_loop fuel v (concat (batch_wire <$> bs) ++ tail) bu =
            Ok (items v ++ bs, [], bu') ∧ limit bu' = limit bu) ∨
  (∃ e, decode_set_loop fuel v (concat (batch_wire <$> bs) ++ tail) bu = Err e ∧
        is_alloc_error e ∧ ¬ (reliable R ∧ roomy bu)).
Proof.
  induction bs as [|b bs IH]; intros fuel v tail bu Hok Ht Hf.
  - left. exists bu. rewrite set_loop_stops by (done || lia). by rewrite app_nil_r.
  - inversion Hok as [|? ? Hb Hbs]; subst. destruct fuel as [|fuel]; [simpl in Hf; lia|].
    rewrite fmap_cons. cbn [concat]. rewrite <- app_assoc. cbn [decode_set_loop].
    set (more := concat (batch_wire <$> bs) ++ tail).
    pose proof (batch_wire_length b) as Hl. pose proof (ok_length b Hb).
    assert (len (batch_wire b ++ more) = len (batch_wire b) + len more) as Hlm
      by (rewrite length_app; lia).
    destruct (Z.ltb_spec (len (batch_wire b ++ more)) 12); [lia|].
    rewrite raw_length_at by done. cbv zeta.
    rewrite try_from_in by int_lia. cbn [ok_or res_bind].
    destruct (Z.ltb_spec (len (batch_wire b ++ more)) (12 + (9 + len (batch_body b)))); [lia|].
    destruct (reads_batch b Hb more bu) as [(bu1 & -> & Hl1)|(e & -> & He & Hn)];
      cbn [res_bind]; [|right; eauto].
    destruct (reads_push "RecordBatch" v b more bu1) as [(v' & bu2 & E & Hi & Hl2)|(e & E & He & Hn)];
      cbn in E; rewrite E; cbn [res_bind].
    + pose proof (IH fuel v' tail bu2 Hbs Ht ltac:(simpl in Hf; lia)) as IH'.
      fold more in IH'. destruct IH'
        as [(bu3 & -> & Hl3)|(e & -> & He & Hn)].
      * left. exists bu3. rewrite Hi, <- app_assoc. split; [done|congruence].
      * right. exists e. unfold roomy in *. rewrite Hl2, Hl1 in Hn. done.
    + right. exists e. unfold roomy in *. rewrite Hl1 in Hn. done.
Qed.

Lemma concat_batches_length bs :
  (length bs ≤ length (concat (batch_wire <$> bs)))%nat.
Proof.
  induction bs as [|b bs IH]; [done|]. rewrite fmap_cons. cbn [concat length].
  rewrite length_app. pose proof (batch_wire_length b). lia.
Qed.

Lemma reads_set bs tail bu :
  Forall batch_ok bs → tail = [] ∨ cut_short tail →
  (∃ bu', decode_set_with_budget (concat (batch_wire <$> bs) ++ tail) bu = Ok (bs, [], bu')) ∨
  (∃ e, decode_set_with_budget (concat (batch_wire <$> bs) ++ tail) bu = Err e ∧
        is_alloc_error e ∧ ¬ (reliable R ∧ roomy bu)).
Proof.
  intros Hok Ht. unfold decode_set_with_budget.
  pose proof (concat_batches_length bs).
  destruct (reads_set_loop bs (S (length (concat (batch_wire <$> bs) ++ tail)))
    (vec_new "RecordBatch") tail bu Hok Ht ltac:(rewrite length_app; lia))
    as [(bu' & -> & _)|(e & -> & He)]; [left; by exists bu'|right; by exists e].
Qed.

End set_facts.

Lemma encodes_set_to bs :
  Forall batch_ok bs → encodes (encode_set_to bs) (concat (batch_wire <$> bs)).
Proof.
  intros H. apply encodes_each. intros b Hb. apply encodes_batch.
  by apply (proj1 (Forall_forall _ _) H).
Qed.

Lemma encodes_set bs :
  Forall batch_ok bs → encodes (encode_set bs) (concat (batch_wire <$> bs)).
Proof.
  intros H. apply encodes_each. intros b Hb buf. apply (proj1 (Forall_forall _ _) H) in Hb.
  by rewrite encodes_batch by done.
Qed.

Lemma appends_batch_fields b count :
  appends (put_i16 (attributes b) ;; put_i32 (last_offset_delta b) ;;
     put_i64 (base_timestamp b) ;; put_i64 (max_timestamp b) ;; put_i64 (producer_id b) ;;
     put_i16 (producer_epoch b) ;; put_i32 (base_sequence b) ;; put_i32 count ;;
     match records b with
     | Plain records => enc_each KRecordOps.encode records
     | Compressed _ payload => put_slice payload
     end).
Proof.
  do 8 (apply appends_seq; [apply appends_put_int|]).
  destruct (records b); [|apply appends_slice].
  apply appends_each. apply appends_record.
Qed.

Lemma appends_in_place b buf :
  ∃ bs, (RecordBatchOps.encode_in_place b (len buf) buf).2 = buf ++ bs.
Proof.
  unfold RecordBatchOps.encode_in_place.
  destruct (RecordBatchOps.record_count b) as [count|]; [|exists []; by rewrite app_nil_r].
  cbv zeta.
  set (head := be_bytes 8 (base_offset b) ++ be_bytes 4 0 ++
    be_bytes 4 (partition_leader_epoch b) ++ be_bytes 1 MAGIC ++ be_bytes 4 0).
  assert (encodes (put_i64 (base_offset b) ;; put_i32 0 ;; put_i32 (partition_leader_epoch b) ;;
    put_i8 MAGIC ;; put_u32 0) head) as Hhead
    by (repeat apply encodes_seq; apply encodes_put_int).
  rewrite !(Hhead buf). cbn [snd].
  destruct (appends_batch_fields b count (buf ++ head)) as [bs Hbs].
  match goal with |- context [match ?m with _ => _ end] => destruct m as [[u|e'] buf1] end;
    cbn [snd] in Hbs; subst buf1; rewrite <- app_assoc; [|by eexists].
  destruct (try_from _ _ _); [|by eexists]. cbn [snd].
  rewrite patch_app by lia. rewrite patch_app; [by eexists|].
  unfold head. rewrite !length_app, !be_bytes_length. lia.
Qed.

(** ** Properties *)

(** A record round-trips, and the length prefix computed up front by
    [body_len] is exactly the number of bytes the fields then take. *)
Theorem record_roundtrip {R : Runtime} (r : KRecord) :
  record_ok r →
  ∃ prefix body,
    (∀ buf, KRecordOps.encode r buf = (Ok tt, buf ++ prefix ++ body)) ∧
    (∀ rest, get_varint (prefix ++ body ++ rest) =
       Ok (KRecordOps.body_len r (len (headers r)), body ++ rest)) ∧
    len body = KRecordOps.body_len r (len (headers r)) ∧
    (∀ rest l, with_limits KRecordOps.decode_with_budget l ((prefix ++ body) ++ rest) = Ok (r, rest) ∨
       ∃ e, with_limits KRecordOps.decode_with_budget l ((prefix ++ body) ++ rest) = Err e ∧
            is_alloc_error e) ∧
    (reliable R → ∀ rest,
       with_limits KRecordOps.decode_with_budget Limits.UNLIMITED ((prefix ++ body) ++ rest) =
       Ok (r, rest)).
Proof.
  intros Hr. pose proof (body_len_spec r Hr) as Hb. pose proof (ok_body r Hr) as Hm.
  exists (svarint_bytes (len (record_body r))), (record_body r).
  fold (record_wire r). split; [by apply encodes_record|]. rewrite Hb in *.
  split; [intros rest; apply gets_varint; int_lia|]. split; [done|].
  destruct (pairs_entry (KRecordOps.encode r) KRecordOps.decode_with_budget r) as (bs & He & H1 & H2).
  { exists (record_wire r). split; [by apply encodes_record|by apply reads_record]. }
  rewrite (encodes_bytes _ _ (encodes_record r Hr)) in He. injection He as <-.
  split; [exact H1|exact H2].
Qed.

(** C10: a record batch round-trips whatever the send buffer already holds: the
    back-patched length and checksum are the ones the decoder verifies. *)
Theorem batch_roundtrip {R : Runtime} (b : RecordBatch) :
  batch_ok b →
  ∃ bs, (∀ buf, RecordBatchOps.encode_to b buf = (Ok tt, buf ++ bs)) ∧
    (∀ buf, RecordBatchOps.encode b buf = (Ok tt, buf ++ bs)) ∧
    (∀ rest l, RecordBatchOps.decode_with_limits l (bs ++ rest) = Ok (b, rest) ∨
       ∃ e, RecordBatchOps.decode_with_limits l (bs ++ rest) = Err e ∧ is_alloc_error e) ∧
    (reliable R → ∀ rest,
       RecordBatchOps.decode_with_limits Limits.UNLIMITED (bs ++ rest) = Ok (b, rest)).
Proof.
  intros Hb. exists (batch_wire b). split; [by apply encodes_batch|]. split.
  { intros buf. unfold RecordBatchOps.encode. by rewrite encodes_batch by done. }
  destruct (pairs_entry (RecordBatchOps.encode_to b) RecordBatchOps.decode_with_budget b)
    as (bs & He & H1 & H2).
  { exists (batch_wire b). split; [by apply encodes_batch|by apply reads_batch]. }
  rewrite (encodes_bytes _ _ (encodes_batch b Hb)) in He. injection He as <-.
  split; [exact H1|exact H2].
Qed.

(** What proxying requires: any compressed batch the decoder accepts, of
    any codec, known or not, re-encodes to exactly the bytes it was read from. *)
Theorem compressed_reencodes_identically {R : Runtime} (buf rest out : buffer) (bu bu' : Budget)
    (b : RecordBatch) (count : Z) (payload : list byte) :
  RecordBatchOps.decode_with_budget buf bu = Ok (b, rest, bu') →
  records b = Compressed count payload →
  ∃ consumed, buf = consumed ++ rest ∧
    RecordBatchOps.encode_to b out = (Ok tt, out ++ consumed).
Proof.
  intros H Hc. destruct (decode_compressed_wire _ _ _ _ _ _ _ H Hc) as [Hb ->].
  exists (batch_wire b). split; [done|]. by apply encodes_batch.
Qed.

(** Every batch accepted, whatever the input, was announced by a length of
    at least the fixed overhead, carries magic 2, and has the CRC-32C of
    everything after the checksum field stored in it; and the decoder consumed
    exactly the announced bytes. *)
Theorem accepted_batch_is_checked {R : Runtime} (buf rest : buffer) (bu bu' : Budget)
    (b : RecordBatch) :
  RecordBatchOps.decode_with_budget buf bu = Ok (b, rest, bu') →
  ∃ covered,
    buf = be_bytes 8 (base_offset b) ++ be_bytes 4 (9 + len covered) ++
      be_bytes 4 (partition_leader_epoch b) ++ be_bytes 1 2 ++
      be_bytes 4 (crc32c_bitwise covered) ++ covered ++ rest ∧
    BATCH_OVERHEAD ≤ 9 + len covered ≤ i32_max.
Proof.
  intros H. apply decode_batch_inv in H as (body & _ & _ & Hl1 & Hl2 & -> & _).
  exists body. rewrite crc32c_bitwise_eq. split; [done|]. unfold BATCH_OVERHEAD. lia.
Qed.

(** A batch whose stored checksum is not that of its body is rejected as
    [CrcMismatch] with both values, whatever the body says. *)
Theorem corrupt_batch_is_rejected {R : Runtime} (off ep crc : Z) (covered rest : list byte)
    (bu : Budget) :
  is_i64 off → is_i32 ep → is_u32 crc → 40 ≤ len covered → 9 + len covered ≤ i32_max →
  crc ≠ crc32c_bitwise covered →
  RecordBatchOps.decode_with_budget
    (be_bytes 8 off ++ be_bytes 4 (9 + len covered) ++ be_bytes 4 ep ++ be_bytes 1 MAGIC ++
     be_bytes 4 crc ++ covered ++ rest) bu =
  Err (CrcMismatch crc (crc32c_bitwise covered)).
Proof.
  intros Ho He Hc Hl1 Hl2 Hne. rewrite <- crc32c_bitwise_eq in *.
  unfold RecordBatchOps.decode_with_budget.
  rewrite ensure_ok by (rewrite !length_app, !be_bytes_length; lia). cbn [res_bind].
  rewrite raw_i64 by done. cbn [res_bind]. rewrite raw_i32 by int_lia. cbn [res_bind].
  rewrite try_from_in by int_lia. cbn [ok_or res_bind]. unfold BATCH_OVERHEAD.
  destruct (Z.ltb_spec (9 + len covered) (4 + 1 + 4 + 2 + 4 + 8 + 8 + 8 + 2 + 4 + 4)); [lia|].
  rewrite ensure_ok by (rewrite !length_app, !be_bytes_length; lia). cbn [res_bind].
  rewrite raw_i32 by done. cbn [res_bind]. rewrite gets_raw_i8 by done. cbn [res_bind].
  rewrite Z.eqb_refl. cbn [negb]. rewrite raw_u32 by done. cbn [res_bind].
  rewrite gets_copy by lia. cbn [res_bind]. cbv zeta.
  by destruct (Z.eqb_spec (crc32c covered) crc).
Qed.

(** Encoding a batch only ever appends to the send buffer, and a batch
    that fails part way leaves it exactly as it was, by either entry point. *)
Theorem failed_batch_leaves_no_bytes (b : RecordBatch) (buf : buffer) :
  match RecordBatchOps.encode_to b buf with
  | (Ok _, buf') => ∃ bs, buf' = buf ++ bs
  | (Err e, buf') => buf' = buf
  end ∧
  match RecordBatchOps.encode b buf with
  | (Ok _, buf') => ∃ bs, buf' = buf ++ bs
  | (Err e, buf') => buf' = buf
  end.
Proof.
  split.
  - unfold RecordBatchOps.encode_to. destruct (appends_in_place b buf) as [bs Hbs].
    destruct (RecordBatchOps.encode_in_place b (len buf) buf) as [[u|e] buf1];
      cbn [snd] in Hbs; subst buf1; [by exists bs|].
    unfold truncate. rewrite Nat2Z.id. by apply take_app_exact.
  - unfold RecordBatchOps.encode. destruct (RecordBatchOps.encode_to b []) as [[u|e] s];
      [by exists s|done].
Qed.

(** A record set cut anywhere inside its last batch decodes to exactly the
    whole batches before the cut, by either way of encoding it; nothing short
    of an allocation refusal is an error. *)
Theorem record_set_with_partial_tail {R : Runtime} (bs : list RecordBatch) (tail : list byte) :
  Forall batch_ok bs → tail = [] ∨ cut_short tail →
  ∃ wire, (∀ buf, encode_set_to bs buf = (Ok tt, buf ++ wire)) ∧
    (∀ buf, encode_set bs buf = (Ok tt, buf ++ wire)) ∧
    (∀ l, decode_set_with_limits l (wire ++ tail) = Ok (bs, []) ∨
       ∃ e, decode_set_with_limits l (wire ++ tail) = Err e ∧ is_alloc_error e) ∧
    (reliable R → decode_set_with_limits Limits.UNLIMITED (wire ++ tail) = Ok (bs, [])).
Proof.
  intros Hok Ht. exists (concat (batch_wire <$> bs)).
  split; [by apply encodes_set_to|]. split; [by apply encodes_set|]. split.
  - intros l. unfold decode_set_with_limits, with_limits.
    destruct (reads_set bs tail (Limits.budget l (len (concat (batch_wire <$> bs) ++ tail))) Hok Ht)
      as [(bu' & ->)|(e & -> & He & _)]; cbn [res_bind]; [by left|right; by exists e].
  - intros Hr. unfold decode_set_with_limits, with_limits.
    destruct (reads_set bs tail (Limits.budget Limits.UNLIMITED
      (len (concat (batch_wire <$> bs) ++ tail))) Hok Ht)
      as [(bu' & ->)|(e & _ & _ & Hn)]; [done|]. destruct Hn. split; [done|]. apply unlimited_roomy. lia.
Qed.

(** C39: the record-set loop terminates on every input: its fuel, the input's
    length, is never what stops it, since each batch takes at least 61 bytes. *)
Theorem decode_set_terminates {R : Runtime} (buf : buffer) (bu : Budget) (extra : nat) :
  decode_set_with_budget buf bu =
  decode_set_loop (S (length buf) + extra) (vec_new "RecordBatch") buf bu.
Proof. apply decode_set_loop_fuel; lia. Qed.

(** The codec number survives both directions: the attribute bits of a
    codec read back as that codec, and reading then writing gives the low
    three bits, whatever the other attribute bits are. *)
Theorem compression_bits_roundtrip (a : Z) (c : Compression) :
  (match c with Unknown bits => 5 ≤ bits ≤ 7 | _ => True end →
   from_attributes (attribute_bits c) = c) ∧
  attribute_bits (from_attributes a) = a mod 8.
Proof.
  split.
  - destruct c as [| | | | |bits]; try done. intros H.
    assert (bits = 5 ∨ bits = 6 ∨ bits = 7) as [->|[->| ->]] by lia; done.
  - unfold from_attributes. assert (Z.land a 0x7 = a mod 8) as -> by (apply (land_low a 3); lia).
    repeat (case_match; [simpl; lia|]). done.
Qed.

(** *** Witnesses *)

#[local] Existing Instance plain_runtime.

Definition sample_record : KRecord :=
  mkKRecord 0 1000 0 (Some [Byte.x6b]) None [mkRecordHeader "h" (Some [Byte.x01; Byte.x02])].

Definition sample_batch : RecordBatch :=
  mkRecordBatch 42 3 0 0 1700000000000 1700000001000 (-1) (-1) (-1) (Plain [sample_record]).

Definition sample_compressed : RecordBatch :=
  mkRecordBatch 7 0 2 1 0 0 12 1 5 (Compressed 2 [Byte.xff; Byte.x00; Byte.x13]).

Lemma sample_record_ok : record_ok sample_record.
Proof. split; try (vm_compute; split; discriminate); [|vm_compute; discriminate].
  apply Forall_singleton. vm_compute. reflexivity. Qed.

Lemma sample_batch_ok : batch_ok sample_batch.
Proof.
  split; try (vm_compute; split; discriminate); [|vm_compute; discriminate].
  cbn. split; [done|]. constructor; [apply sample_record_ok|constructor].
Qed.

Lemma sample_compressed_ok : batch_ok sample_compressed.
Proof.
  split; try (vm_compute; split; discriminate); [|vm_compute; discriminate].
  split; [discriminate|]. vm_compute. split; discriminate.
Qed.

Lemma record_roundtrip_witness :
  KRecordOps.body_len sample_record 1 = 13 ∧
  ∃ bs, ∀ rest, with_limits KRecordOps.decode_with_budget Limits.UNLIMITED (bs ++ rest) =
    Ok (sample_record, rest).
Proof.
  split; [vm_compute; reflexivity|].
  destruct (record_roundtrip sample_record sample_record_ok)
    as (prefix & body & _ & _ & _ & _ & H).
  exists (prefix ++ body). apply H, plain_reliable.
Defined.

Lemma batch_roundtrip_witness :
  ∃ bs, RecordBatchOps.decode_with_limits Limits.UNLIMITED (bs ++ []) = Ok (sample_batch, []).
Proof.
  destruct (batch_roundtrip sample_batch sample_batch_ok) as (bs & _ & _ & _ & H).
  exists bs. apply H, plain_reliable.
Defined.

Definition sample_wire : list byte :=
  match enc_bytes (RecordBatchOps.encode_to sample_compressed) with Ok bs => bs | Err _ => [] end.

Lemma compressed_reencodes_identically_witness :
  ∃ consumed, sample_wire = consumed ++ [] ∧
    RecordBatchOps.encode_to sample_compressed [] = (Ok tt, consumed).
Proof.
  apply (compressed_reencodes_identically sample_wire [] [] (mkBudget 100 0) (mkBudget 100 0)
    sample_compressed 2 [Byte.xff; Byte.x00; Byte.x13]).
  - vm_compute. reflexivity.
  - reflexivity.
Defined.

Lemma accepted_batch_is_checked_witness :
  ∃ covered : list byte, BATCH_OVERHEAD ≤ 9 + len covered ≤ i32_max.
Proof.
  destruct (accepted_batch_is_checked sample_wire [] (mkBudget 100 0) (mkBudget 100 0)
    sample_compressed ltac:(vm_compute; reflexivity)) as (covered & _ & H).
  exists covered. exact H.
Defined.

Lemma corrupt_batch_is_rejected_witness :
  RecordBatchOps.decode_with_budget
    (be_bytes 8 0 ++ be_bytes 4 (9 + len (replicate 40 Byte.x00 : list byte)) ++ be_bytes 4 0 ++
     be_bytes 1 MAGIC ++ be_bytes 4 1 ++ (replicate 40 Byte.x00 : list byte) ++ []) (mkBudget 100 0) =
  Err (CrcMismatch 1 (crc32c_bitwise (replicate 40 Byte.x00))).
Proof.
  apply corrupt_batch_is_rejected; vm_compute; (discriminate || (split; discriminate)).
Defined.

Lemma record_set_with_partial_tail_witness :
  decode_set_with_limits Limits.UNLIMITED
    (match enc_bytes (encode_set [sample_batch; sample_compressed]) with
     | Ok bs => bs | Err _ => [] end ++ take 30 sample_wire) =
  Ok ([sample_batch; sample_compressed], []).
Proof.
  destruct (record_set_with_partial_tail [sample_batch; sample_compressed]
    (take 30 sample_wire)) as (wire & _ & He & _ & H).
  - apply Forall_cons. split; [apply sample_batch_ok|].
    apply Forall_singleton, sample_compressed_ok.
  - right. exists sample_compressed, (drop 30 sample_wire).
    split; [apply sample_compressed_ok|]. split; [vm_compute; reflexivity|].
    vm_compute. discriminate.
  - specialize (H plain_reliable). specialize (He []). unfold enc_bytes. rewrite He. exact H.
Defined.

Lemma compression_bits_roundtrip_witness :
  from_attributes (attribute_bits (Unknown 6)) = Unknown 6.
Proof. apply (compression_bits_roundtrip 0 (Unknown 6)). lia. Defined.
