(* ===== verification/Fields.v ===== *)
(** * Message fields: the vocabulary of the generated codecs

    The files under [odradek-protocol/src/messages/] repeat a dozen field
    shapes: a primitive, a string or byte string in its classic or compact
    form, an array with either length prefix, each perhaps present only at
    some versions.  This file gives each shape its encoder and decoder, what
    makes a value representable in it, and the fact that the two agree. *)
From S2P Require Import Prelude Budget Codec Wire.

(** ** Shapes *)

(** [if c { w }] and [if c { this.field = d; }] over the field's default. *)
Definition put_if (c : bool) (w : enc) : enc := if c then w else enc_ret.
Definition get_if {A} (c : bool) (default : A) (d : bdec A) : bdec A :=
  if c then d else bdec_ret default.

(** [if b { return Err(e); }] *)
Definition enc_guard (b : bool) (e : EncodeError) : enc := if b then enc_fail e else enc_ret.

Definition is_none {A} (o : option A) : bool := match o with None => true | Some _ => false end.

Definition put_bool (b : bool) : enc := put_u8 (if b then 1 else 0).

(** [if is_flexible(version) { compact } else { classic }], per type. *)
Definition put_flex_string (flex : bool) (s : string) : enc :=
  if flex then put_compact_string s else put_string s.
Definition get_flex_string (flex : bool) : bdec string :=
  lift (if flex then get_compact_string else get_string).

Definition put_flex_nullable_string (flex : bool) (s : option string) : enc :=
  if flex then put_compact_nullable_string s else put_nullable_string s.
Definition get_flex_nullable_string (flex : bool) : bdec (option string) :=
  lift (if flex then get_compact_nullable_string else get_nullable_string).

Definition put_flex_bytes (flex : bool) (v : list byte) : enc :=
  if flex then put_compact_bytes v else put_bytes v.
Definition put_flex_nullable_bytes (flex : bool) (v : option (list byte)) : enc :=
  if flex then put_compact_nullable_bytes v else put_nullable_bytes v.
Definition get_flex_nullable_bytes (flex : bool) : bdec (option (list byte)) :=
  lift (if flex then get_compact_nullable_bytes else get_nullable_bytes).
(** [match raw { Some(v) => v, None => return Err(InvalidLength(-1)) }] *)
Definition get_flex_bytes (flex : bool) : bdec (list byte) :=
  let* raw := get_flex_nullable_bytes flex in
  match raw with
  | Some v => bdec_ret v
  | None => bdec_fail (InvalidLength (-1))
  end.

(** A nullable value where [null_ok] says whether this version has nulls:
    [if raw.is_none() && !null_ok { return Err(InvalidLength(-1)); }] *)
Definition get_checked {A} (null_ok : bool) (d : bdec (option A)) : bdec (option A) :=
  let* raw := d in
  if is_none raw && negb null_ok then bdec_fail (InvalidLength (-1)) else bdec_ret raw.

Definition put_flex_array_len (flex : bool) (n : option Z) : enc :=
  if flex then put_compact_array_len n else put_array_len n.
Definition get_flex_array_len (flex : bool) : bdec (option Z) :=
  lift (if flex then get_compact_array_len else get_array_len).

Definition put_flex_array {T} (flex : bool) (f : T → enc) (l : list T) : enc :=
  put_flex_array_len flex (Some (len l)) ;; enc_each f l.

(** A nullable array; [error] is what encoding a null gives where the version
    has none. *)
Definition put_flex_nullable_array {T} (flex null_ok : bool) (field : string)
    (f : T → enc) (l : option (list T)) : enc :=
  match l with
  | Some items => put_flex_array_len flex (Some (len items)) ;; enc_each f items
  | None => enc_guard (negb null_ok) (NullField field) ;; put_flex_array_len flex None
  end.

(** A nullable struct behind its [i8] marker. *)
Definition put_nullable_struct {T} (f : T → enc) (o : option T) : enc :=
  match o with
  | Some v => put_i8 1 ;; f v
  | None => put_i8 (-1)
  end.

Section decoders.
Context {R : Runtime}.

(** Arrays of structs check progress after each element; arrays of strings
    and numbers do not need to. *)
Definition get_flex_structs {T} (flex : bool) (ty : string) (item : bdec T) : bdec (list T) :=
  let* n := get_flex_array_len flex in
  match n with
  | None => bdec_fail (InvalidLength (-1))
  | Some n => get_structs ty item n
  end.

Definition get_flex_items {T} (flex : bool) (ty : string) (item : bdec T) : bdec (list T) :=
  let* n := get_flex_array_len flex in
  match n with
  | None => bdec_fail (InvalidLength (-1))
  | Some n => get_items ty item n
  end.

Definition get_flex_nullable_structs {T} (flex null_ok : bool) (ty : string) (item : bdec T) :
    bdec (option (list T)) :=
  let* n := get_flex_array_len flex in
  match n with
  | None => if negb null_ok then bdec_fail (InvalidLength (-1)) else bdec_ret None
  | Some n => let* items := get_structs ty item n in bdec_ret (Some items)
  end.

Definition get_flex_nullable_items {T} (flex null_ok : bool) (ty : string) (item : bdec T) :
    bdec (option (list T)) :=
  let* n := get_flex_array_len flex in
  match n with
  | None => if negb null_ok then bdec_fail (InvalidLength (-1)) else bdec_ret None
  | Some n => let* items := get_items ty item n in bdec_ret (Some items)
  end.

Definition get_nullable_struct {T} (item : bdec T) : bdec (option T) :=
  let* marker := lift get_i8 in
  if marker <? 0 then bdec_ret None
  else let* v := item in bdec_ret (Some v).

End decoders.

(** ** Representable values *)

(** A field is representable where its version carries it, and holds its
    default where it does not. *)
Definition in_version {A} (c : bool) (P : A → Prop) (default x : A) : Prop :=
  if c then P x else x = default.

Definition any {A} (_ : A) : Prop := True.

Definition str_ok (flex : bool) (s : string) : Prop :=
  is_str s ∧ str_len s ≤ (if flex then i64_max else i16_max).
Definition bytes_ok (flex : bool) (v : list byte) : Prop :=
  len v ≤ (if flex then i64_max else i32_max).
Definition uuid_ok (v : list byte) : Prop := length v = 16%nat.
Definition arr_ok {T} (flex : bool) (P : T → Prop) (l : list T) : Prop :=
  len l ≤ (if flex then i64_max else i32_max) ∧ Forall P l.
Definition opt_valid {A} (null_ok : bool) (P : A → Prop) (o : option A) : Prop :=
  match o with Some x => P x | None => null_ok = true end.
Definition tags_ok (fields : list RawTaggedField) : Prop :=
  Forall tagged_ok fields ∧ tags_ascending fields ∧ len fields ≤ u64_max.

(** ** Agreement, shape by shape *)

Create HintDb fields.

Section agreement.
Context {R : Runtime}.

Lemma pairs1_prim {A} w (d : dec A) bs x :
  bs ≠ [] → encodes w bs → gets d bs x → pairs1 w (lift d) x.
Proof. intros Hn He Hg. exists bs. split; [done|]. split; [done|]. by apply reads_lift. Qed.

Lemma be_bytes_ne n z : (0 < n)%nat → be_bytes n z ≠ [].
Proof. destruct n; [lia|done]. Qed.

Lemma pairs1_i8 z : is_i8 z → pairs1 (put_i8 z) (lift get_i8) z.
Proof. intros H. eapply pairs1_prim; [|apply encodes_put_int|by apply gets_i8]. done. Qed.
Lemma pairs1_i16 z : is_i16 z → pairs1 (put_i16 z) (lift get_i16) z.
Proof. intros H. eapply pairs1_prim; [|apply encodes_put_int|by apply gets_i16]. done. Qed.
Lemma pairs1_i32 z : is_i32 z → pairs1 (put_i32 z) (lift get_i32) z.
Proof. intros H. eapply pairs1_prim; [|apply encodes_put_int|by apply gets_i32]. done. Qed.
Lemma pairs1_i64 z : is_i64 z → pairs1 (put_i64 z) (lift get_i64) z.
Proof. intros H. eapply pairs1_prim; [|apply encodes_put_int|by apply gets_i64]. done. Qed.

Lemma pairs1_bool b : any b → pairs1 (put_bool b) (lift get_bool) b.
Proof.
  intros _. eapply pairs1_prim; [|apply encodes_put_int|].
  - done.
  - intros rest. unfold get_bool, dec_bind.
    rewrite ensure_ok by (rewrite length_app, be_bytes_length; lia). cbn [res_bind].
    unfold buf_get_uint. rewrite take_app_exact, drop_app_exact by (by rewrite be_bytes_length).
    rewrite be_val_bytes. by destruct b.
Qed.

Lemma pairs1_uuid v : uuid_ok v → pairs1 (put_uuid v) (lift get_uuid) v.
Proof.
  intros H. eapply pairs1_prim; [|apply encodes_slice|by apply gets_uuid].
  unfold uuid_ok in H. by destruct v.
Qed.

Lemma varint_app_ne v (bs : list byte) : varint_bytes 10 v ++ bs ≠ [].
Proof. intros [H _]%app_nil. by apply varint_bytes_ne in H. Qed.

Lemma pairs1_flex_string flex s :
  str_ok flex s → pairs1 (put_flex_string flex s) (get_flex_string flex) s.
Proof.
  intros [Hs Hl]. unfold put_flex_string, get_flex_string. destruct flex.
  - eapply pairs1_prim; [apply varint_app_ne|apply encodes_compact_string|].
    apply gets_compact_string; [done|int_lia].
  - eapply pairs1_prim; [|by apply encodes_string|by apply gets_string]. done.
Qed.

Lemma pairs1_flex_nullable_string flex s :
  opt_valid true (str_ok flex) s →
  pairs1 (put_flex_nullable_string flex s) (get_flex_nullable_string flex) s.
Proof.
  intros H. unfold put_flex_nullable_string, get_flex_nullable_string.
  destruct flex, s as [s|]; cbn [opt_valid] in H.
  - destruct H as [Hs Hl]. eapply pairs1_prim; [apply varint_app_ne|apply encodes_compact_string|].
    apply gets_compact_nullable_string_some; [done|int_lia].
  - eapply pairs1_prim; [apply varint_bytes_ne|by apply encodes_unsigned_varint|].
    apply gets_compact_nullable_string_none.
  - destruct H as [Hs Hl].
    eapply pairs1_prim; [|by apply encodes_string|by apply gets_nullable_string_some]. done.
  - eapply pairs1_prim; [|apply encodes_put_int|apply gets_nullable_string_none]. done.
Qed.

Lemma pairs1_nullable_string s :
  opt_valid true (str_ok false) s → pairs1 (put_nullable_string s) (lift get_nullable_string) s.
Proof. apply (pairs1_flex_nullable_string false). Qed.

Lemma pairs1_flex_nullable_bytes flex v :
  opt_valid true (bytes_ok flex) v →
  pairs1 (put_flex_nullable_bytes flex v) (get_flex_nullable_bytes flex) v.
Proof.
  intros H. unfold put_flex_nullable_bytes, get_flex_nullable_bytes.
  destruct flex, v as [v|]; cbn [opt_valid bytes_ok] in H; unfold bytes_ok in H.
  - eapply pairs1_prim; [apply varint_app_ne|apply encodes_compact_bytes|].
    apply gets_compact_nullable_bytes_some. int_lia.
  - eapply pairs1_prim; [apply varint_bytes_ne|by apply encodes_unsigned_varint|].
    apply gets_compact_nullable_bytes_none.
  - eapply pairs1_prim; [|by apply encodes_bytes_field|by apply gets_nullable_bytes_some]. done.
  - eapply pairs1_prim; [|apply encodes_put_int|apply gets_nullable_bytes_none]. done.
Qed.

Lemma pairs1_bind_ret {A B} w (d : bdec A) (k : A → bdec B) x y :
  k x = bdec_ret y → pairs1 w d x → pairs1 w (let* z := d in k z) y.
Proof.
  intros E (bs & Hn & He & Hr). exists bs. split; [done|]. split; [done|].
  rewrite <- (app_nil_r bs). eapply reads_bind; [done|]. rewrite E. apply reads_ret.
Qed.

Lemma pairs1_flex_bytes flex v :
  bytes_ok flex v → pairs1 (put_flex_bytes flex v) (get_flex_bytes flex) v.
Proof.
  intros H. unfold get_flex_bytes. apply pairs1_bind_ret with (Some v); [done|].
  assert (put_flex_bytes flex v = put_flex_nullable_bytes flex (Some v)) as -> by by destruct flex.
  by apply pairs1_flex_nullable_bytes.
Qed.

Lemma null_check {A} null_ok (P : A → Prop) o :
  opt_valid null_ok P o → is_none o && negb null_ok = false.
Proof. destruct o; [done|]. by intros ->. Qed.

Lemma opt_valid_any {A} null_ok (P : A → Prop) o : opt_valid null_ok P o → opt_valid true P o.
Proof. by destruct o. Qed.

(** A string that may be null only where [null_ok] says so. *)
Lemma pairs1_checked_string null_ok e flex s :
  opt_valid null_ok (str_ok flex) s →
  pairs1 (enc_guard (is_none s && negb null_ok) e ;; put_flex_nullable_string flex s)
    (get_checked null_ok (get_flex_nullable_string flex)) s.
Proof.
  intros H. rewrite (null_check _ _ _ H).
  assert (pairs1 (put_flex_nullable_string flex s)
    (get_checked null_ok (get_flex_nullable_string flex)) s) as (bs & Hn & He & Hr).
  { apply pairs1_bind_ret with s; [by rewrite (null_check _ _ _ H)|].
    by eapply pairs1_flex_nullable_string, opt_valid_any. }
  exists bs. split; [done|]. split; [|done].
  change bs with ([] ++ bs). apply encodes_seq; [apply encodes_ret|done].
Qed.

Lemma pairs1_flex_array_len (flex : bool) n :
  0 ≤ n ≤ (if flex then u64_max - 1 else i32_max) →
  pairs1 (put_flex_array_len flex (Some n)) (get_flex_array_len flex) (Some n).
Proof.
  intros H. unfold put_flex_array_len, get_flex_array_len. destruct flex.
  - eapply pairs1_prim; [apply varint_bytes_ne|apply encodes_compact_array_len; lia|].
    apply gets_compact_array_len. int_lia.
  - eapply pairs1_prim; [|by apply encodes_array_len|by apply gets_array_len]. done.
Qed.

Lemma pairs1_flex_array_none flex :
  pairs1 (put_flex_array_len flex None) (get_flex_array_len flex) None.
Proof.
  unfold put_flex_array_len, get_flex_array_len. destruct flex.
  - eapply pairs1_prim; [apply varint_bytes_ne|by apply encodes_unsigned_varint|].
    by intros rest.
  - eapply pairs1_prim; [|apply encodes_put_int|apply gets_array_len_none]. done.
Qed.

Lemma pairs1_flex_structs {T} flex ty (f : T → enc) (d : bdec T) (P : T → Prop) l :
  arr_ok flex P l → (∀ x, P x → pairs1 (f x) d x) →
  pairs1 (put_flex_array flex f l) (get_flex_structs flex ty d) l.
Proof.
  intros [Hl Hp] Hf. eapply pairs1_seq; [apply pairs1_flex_array_len; destruct flex; int_lia|].
  apply pairs_each_structs. intros x Hx. apply Hf. by apply (proj1 (Forall_forall _ _) Hp).
Qed.

Lemma pairs1_flex_items {T} flex ty (f : T → enc) (d : bdec T) (P : T → Prop) l :
  arr_ok flex P l → (∀ x, P x → pairs1 (f x) d x) →
  pairs1 (put_flex_array flex f l) (get_flex_items flex ty d) l.
Proof.
  intros [Hl Hp] Hf. eapply pairs1_seq; [apply pairs1_flex_array_len; destruct flex; int_lia|].
  apply pairs_each. intros x Hx. apply pairs1_pairs, Hf.
  by apply (proj1 (Forall_forall _ _) Hp).
Qed.

Lemma pairs_bind_ret {A B} w (d : bdec A) (f : A → B) x :
  pairs w d x → pairs w (let* z := d in bdec_ret (f z)) (f x).
Proof.
  intros (bs & He & Hr). exists bs. split; [done|]. by eapply reads_bind_ret.
Qed.

Lemma pairs1_guard {A} b e w (d : bdec A) x :
  b = false → pairs1 w d x → pairs1 (enc_guard b e ;; w) d x.
Proof.
  intros -> (bs & Hn & He & Hr). exists bs. split; [done|]. split; [|done].
  change bs with ([] ++ bs). apply encodes_seq; [apply encodes_ret|done].
Qed.

Lemma pairs1_flex_nullable_structs {T} flex null_ok field ty (f : T → enc) (d : bdec T)
    (P : T → Prop) l :
  opt_valid null_ok (arr_ok flex P) l → (∀ x, P x → pairs1 (f x) d x) →
  pairs1 (put_flex_nullable_array flex null_ok field f l)
    (get_flex_nullable_structs flex null_ok ty d) l.
Proof.
  intros H Hf. unfold put_flex_nullable_array, get_flex_nullable_structs.
  destruct l as [l|]; cbn [opt_valid] in H.
  - destruct H as [Hl Hp]. eapply pairs1_seq; [apply pairs1_flex_array_len; destruct flex; int_lia|].
    apply pairs_bind_ret, pairs_each_structs. intros x Hx. apply Hf.
    by apply (proj1 (Forall_forall _ _) Hp).
  - rewrite H. apply pairs1_guard; [done|].
    eapply pairs1_bind_ret; [|apply pairs1_flex_array_none]. done.
Qed.

Lemma pairs1_flex_nullable_items {T} flex null_ok field ty (f : T → enc) (d : bdec T)
    (P : T → Prop) l :
  opt_valid null_ok (arr_ok flex P) l → (∀ x, P x → pairs1 (f x) d x) →
  pairs1 (put_flex_nullable_array flex null_ok field f l)
    (get_flex_nullable_items flex null_ok ty d) l.
Proof.
  intros H Hf. unfold put_flex_nullable_array, get_flex_nullable_items.
  destruct l as [l|]; cbn [opt_valid] in H.
  - destruct H as [Hl Hp]. eapply pairs1_seq; [apply pairs1_flex_array_len; destruct flex; int_lia|].
    apply pairs_bind_ret, pairs_each. intros x Hx. apply pairs1_pairs, Hf.
    by apply (proj1 (Forall_forall _ _) Hp).
  - rewrite H. apply pairs1_guard; [done|].
    eapply pairs1_bind_ret; [|apply pairs1_flex_array_none]. done.
Qed.

Lemma pairs1_nullable_struct {T} (f : T → enc) (d : bdec T) (P : T → Prop) o :
  opt_valid true P o → (∀ x, P x → pairs1 (f x) d x) →
  pairs1 (put_nullable_struct f o) (get_nullable_struct d) o.
Proof.
  intros H Hf. unfold put_nullable_struct, get_nullable_struct.
  destruct o as [x|]; cbn [opt_valid] in H.
  - eapply pairs1_seq; [apply pairs1_i8; int_lia|]. cbn [Z.ltb Z.compare].
    by apply pairs_bind_ret, pairs1_pairs, Hf.
  - eapply pairs1_bind_ret; [|apply pairs1_i8; int_lia]. done.
Qed.

Lemma pairs1_tagged fields :
  tags_ok fields → pairs1 (put_tagged_fields fields) get_tagged_fields_with_budget fields.
Proof.
  intros (Hok & Hs & Hn). eexists. split; [apply varint_app_ne|].
  split; [by apply encodes_tagged_fields|by apply reads_tagged_fields].
Qed.

(** *** Version gates *)

Lemma pairs_if {A} c (P : A → Prop) x0 w (d : bdec A) x :
  in_version c P x0 x → (c = true → P x → pairs1 w d x) → pairs (put_if c w) (get_if c x0 d) x.
Proof.
  unfold put_if, get_if, in_version. destruct c.
  - intros Hp H. apply pairs1_pairs. by apply H.
  - intros -> _. apply pairs_ret.
Qed.

Lemma pairs1_if {A} c (P : A → Prop) x0 w (d : bdec A) x :
  in_version c P x0 x → c = true → (c = true → P x → pairs1 w d x) →
  pairs1 (put_if c w) (get_if c x0 d) x.
Proof. intros Hp -> H. by apply H. Qed.

Lemma pairs_ret_eq {A} (x y : A) : y = x → pairs enc_ret (bdec_ret y) x.
Proof. intros ->. apply pairs_ret. Qed.

(** One field of a struct, with its part of the struct's validity, then the
    rest: the steps [agree] takes. *)
Lemma pairs_field {A B} (V : Prop) w1 w2 (d : bdec A) (k : A → bdec B) x y :
  pairs1 w1 d x → (V → pairs w2 (k x) y) → V → pairs (w1 ;; w2) (let* x := d in k x) y.
Proof. intros H1 H2 HV. eapply pairs_seq; [by apply pairs1_pairs|by apply H2]. Qed.

Lemma pairs_field_if {A B} (V : Prop) c (P : A → Prop) x0 w1 w2 (d : bdec A) (k : A → bdec B) x y :
  in_version c P x0 x → (c = true → P x → pairs1 w1 d x) → (V → pairs w2 (k x) y) →
  V → pairs (put_if c w1 ;; w2) (let* x := get_if c x0 d in k x) y.
Proof. intros Hx H1 H2 HV. eapply pairs_seq; [by eapply pairs_if|by apply H2]. Qed.

Lemma pairs1_field {A B} (V : Prop) w1 w2 (d : bdec A) (k : A → bdec B) x y :
  pairs1 w1 d x → (V → pairs w2 (k x) y) → V → pairs1 (w1 ;; w2) (let* x := d in k x) y.
Proof. intros H1 H2 HV. eapply pairs1_seq; [done|by apply H2]. Qed.

Lemma pairs1_skip {A B} w1 w2 (d : bdec A) (k : A → bdec B) x y :
  pairs w1 d x → pairs1 w2 (k x) y → pairs1 (w1 ;; w2) (let* x := d in k x) y.
Proof.
  intros (bs1 & He1 & Hr1) (bs2 & Hn & He2 & Hr2). exists (bs1 ++ bs2).
  split; [by destruct bs1|]. split; [by apply encodes_seq|by eapply reads_bind].
Qed.

Lemma pairs1_field_if {A B} (V : Prop) c (P : A → Prop) x0 w1 w2 (d : bdec A) (k : A → bdec B) x y :
  in_version c P x0 x → c = true → (c = true → P x → pairs1 w1 d x) → (V → pairs w2 (k x) y) →
  V → pairs1 (put_if c w1 ;; w2) (let* x := get_if c x0 d in k x) y.
Proof. intros Hx Hc H1 H2 HV. eapply pairs1_seq; [by eapply pairs1_if|by apply H2]. Qed.

Lemma pairs1_field_skip {A B} (V : Prop) c (P : A → Prop) x0 w1 w2 (d : bdec A) (k : A → bdec B) x y :
  in_version c P x0 x → (c = true → P x → pairs1 w1 d x) → (V → pairs1 w2 (k x) y) →
  V → pairs1 (put_if c w1 ;; w2) (let* x := get_if c x0 d in k x) y.
Proof. intros Hx H1 H2 HV. eapply pairs1_skip; [by eapply pairs_if|by apply H2]. Qed.

End agreement.

(** ** Automation

    [fields] holds the agreement of every shape; [agree] walks an encoder and
    a decoder field by field with it.  Facts about versions are left to
    [lia], which reads the boolean comparisons. *)

#[export] Hint Resolve pairs1_i8 pairs1_i16 pairs1_i32 pairs1_i64 pairs1_bool pairs1_uuid
  pairs1_flex_string pairs1_flex_nullable_string pairs1_nullable_string
  pairs1_flex_nullable_bytes pairs1_flex_bytes
  pairs1_checked_string pairs1_flex_structs pairs1_flex_items pairs1_flex_nullable_structs
  pairs1_flex_nullable_items pairs1_nullable_struct pairs1_tagged : fields.
#[export] Hint Extern 5 (_ ≤ _) => lia : fields.
#[export] Hint Extern 5 (_ ∨ _) => lia : fields.

Ltac field := solve [intros; eauto 6 with fields nocore].

(** The goal is [validity → pairs encoder decoder x], the validity a
    conjunction with a part per field, in the order of the fields; or the same
    with [pairs1], for a struct that must not be empty. *)
Ltac step H :=
  lazymatch type of H with
  | in_version _ _ _ _ => eapply (pairs_field_if _ _ _ _ _ _ _ _ _ _ H); [field|]
  | _ => eapply pairs_field; [field|]
  end; clear H; cbv beta iota.
Ltac agree :=
  lazymatch goal with
  | |- _ → pairs enc_ret _ _ => intros _; apply pairs_ret_eq
  | |- _ ∧ _ → _ => let H := fresh in let V := fresh in
      intros [H V]; revert V; step H; agree
  | |- _ → _ => let H := fresh in intros H; generalize I; step H; agree
  end.

Ltac step1 H next :=
  lazymatch type of H with
  | in_version ?c _ _ _ =>
      let E := fresh in
      destruct c eqn:E in H |- *;
      [ eapply (pairs1_field_if _ _ _ _ _ _ _ _ _ _ H); [reflexivity|field|];
        clear H; cbv beta iota; agree
      | eapply (pairs1_field_skip _ _ _ _ _ _ _ _ _ _ H); [field|];
        clear H; cbv beta iota; next ]
  | _ => eapply pairs1_field; [field|]; clear H; cbv beta iota; agree
  end.
Ltac agree1 :=
  lazymatch goal with
  | |- _ → pairs1 enc_ret _ _ => exfalso; lia
  | |- _ ∧ _ → _ => let H := fresh in let V := fresh in
      intros [H V]; revert V; step1 H ltac:(idtac; agree1)
  | |- _ → _ => let H := fresh in intros H; generalize I; step1 H ltac:(idtac; agree1)
  end.

Ltac split_valid :=
  repeat match goal with H : _ ∧ _ |- _ => destruct H end.
