(* ===== verification/KnownTags.v ===== *)
(** * Tagged fields a message knows

    Some generated messages materialize tagged fields as [Option] members:
    encoding merges them into the unknown ones and sorts by tag, decoding
    dispatches each raw field on its tag.  The dispatch is built here from one
    handler per known tag, in the order of the source's [if]/[else if] chain. *)
From S2P Require Import Prelude Budget Codec Wire Fields.
Import BudgetOps.

(** ** Encoding *)

(** [if c { if let Some(v) = &self.field { .. tagged.push(..) } }] *)
Definition tag_field {A} (c : bool) (t : Z) (f : A → enc) (o : option A) :
    result EncodeError (list RawTaggedField) :=
  if c then
    match o with
    | Some v => let? tag_data := enc_bytes (f v) in Ok [mkRawTaggedField t tag_data]
    | None => Ok []
    end
  else Ok [].

(** [tagged.sort_by_key(|f| f.tag)]: a stable sort, by insertion. *)
Fixpoint insert_by_tag (f : RawTaggedField) (l : list RawTaggedField) : list RawTaggedField :=
  match l with
  | [] => [f]
  | g :: l' => if tag g <=? tag f then g :: insert_by_tag f l' else f :: l
  end.
Definition sort_by_tag (l : list RawTaggedField) : list RawTaggedField :=
  fold_left (λ acc f, insert_by_tag f acc) l [].

Fixpoint collect (ks : list (result EncodeError (list RawTaggedField))) :
    result EncodeError (list RawTaggedField) :=
  match ks with
  | [] => Ok []
  | k :: ks' => let? r := k in let? rs := collect ks' in Ok (r ++ rs)
  end.

Definition put_known_tags (unknown : list RawTaggedField)
    (known : list (result EncodeError (list RawTaggedField))) : enc := λ buf,
  match collect known with
  | Err e => (Err e, buf)
  | Ok raws => put_tagged_fields (sort_by_tag (unknown ++ raws)) buf
  end.

(** ** Decoding *)

Section dispatch.
Context {R : Runtime}.

(** What a chain of known tags decodes into, and what it does with one raw
    field: nothing when no branch claims it. *)
Record handlers (S : Type) : Type := mkHandlers {
  h_init : S;
  h_tags : list Z;
  h_step : RawTaggedField → S → option (Budget → result DecodeError (S * Budget));
}.
Arguments mkHandlers {S} _ _ _.
Arguments h_init {S} _.
Arguments h_tags {S} _.
Arguments h_step {S} _ _ _.

(** One known field, from its own bytes, which it must use up. *)
Definition tagged_value {A} (d : bdec A) (raw : RawTaggedField) (b : Budget) :
    result DecodeError (A * Budget) :=
  let? (v, rest, b') := d (data raw) b in
  match rest with
  | [] => Ok (v, b')
  | _ => Err (InvalidLength (default i64_max (try_from i64_min i64_max (len rest))))
  end.

Definition no_tags : handlers unit := mkHandlers tt [] (λ _ _, None).

Definition known_list (c : bool) (t : Z) (ts : list Z) : list Z := if c then t :: ts else ts.

(** [if raw.tag == t && c { this.field = Some(d); } else { hs }] *)
Definition known_tag {A S} (c : bool) (t : Z) (d : bdec A) (hs : handlers S) :
    handlers (option A * S) :=
  mkHandlers (None, h_init hs) (known_list c t (h_tags hs))
    (λ raw '(o, s),
      if (tag raw =? t) && c then
        Some (λ b, let? (v, b') := tagged_value d raw b in Ok ((Some v, s), b'))
      else
        match h_step hs raw s with
        | Some k => Some (λ b, let? (s', b') := k b in Ok ((o, s'), b'))
        | None => None
        end).

Fixpoint dispatch {S} (hs : handlers S) (raws : list RawTaggedField) (s : S)
    (unknown : Vec RawTaggedField) (b : Budget) :
    result DecodeError (S * Vec RawTaggedField * Budget) :=
  match raws with
  | [] => Ok (s, unknown, b)
  | raw :: raws' =>
      match h_step hs raw s with
      | Some k => let? (s', b') := k b in dispatch hs raws' s' unknown b'
      | None =>
          match push "RawTaggedField" b unknown raw with
          | (b', unknown', Ok _) => dispatch hs raws' s unknown' b'
          | (_, _, Err e) => Err e
          end
      end
  end.

Definition get_known_tags {S} (hs : handlers S) : bdec (S * list RawTaggedField) :=
  let* raws := get_tagged_fields_with_budget in
  λ buf b,
    let? (s, unknown, b') := dispatch hs raws (h_init hs) (vec_new "RawTaggedField") b in
    Ok ((s, items unknown), buf, b').

(** ** Agreement *)

(** On [raw] the chain moves [s] to [s'], but for an allocation refused. *)
Definition steps_to {S} (hs : handlers S) (raw : RawTaggedField) (s s' : S) : Prop :=
  ∃ k, h_step hs raw s = Some k ∧
    ∀ b, (∃ b', k b = Ok (s', b') ∧ limit b' = limit b) ∨
         (∃ e, k b = Err e ∧ is_alloc_error e ∧ ¬ (reliable R ∧ roomy b)).

(** [serves hs raws s]: whatever their order, the fields [raws] take the chain
    from its initial state to [s]. *)
Record serves {S} (hs : handlers S) (raws : list RawTaggedField) (s : S) : Prop := mkServes {
  srv_tags : Forall (λ r, tag r ∈ h_tags hs) raws;
  srv_other : ∀ raw s0, tag raw ∉ h_tags hs → h_step hs raw s0 = None;
  srv_eff : ∃ eff : RawTaggedField → S → S,
    (∀ r s0, r ∈ raws → steps_to hs r s0 (eff r s0)) ∧
    (∀ l, l ≡ₚ raws → fold_left (λ s0 r, eff r s0) l (h_init hs) = s);
}.

(** The encoder's and the decoder's view of the known fields. *)
Record tags_agree {S} (hs : handlers S) (ks : list (result EncodeError (list RawTaggedField)))
    (s : S) : Prop := mkTagsAgree {
  agree_raws : ∃ raws, collect ks = Ok raws ∧ serves hs raws s ∧
    NoDup (tag <$> raws) ∧ Forall tagged_ok raws;
}.

Lemma tags_agree_nil : tags_agree no_tags [] tt.
Proof.
  split. exists []. split; [done|]. split; [|split; constructor].
  split; [constructor|done|]. exists (λ _ s, s). split.
  - intros r s0 H. by apply not_elem_of_nil in H.
  - intros l Hl. apply Permutation_nil_r in Hl as ->. done.
Qed.

Lemma fold_pair {A S} (eff : RawTaggedField → S → S) t (v : A) l : ∀ (o : option A) s,
  fold_left (λ (p : option A * S) r,
      if tag r =? t then (Some v, p.2) else (p.1, eff r p.2)) l (o, s) =
  (if existsb (λ r, tag r =? t) l then Some v else o,
   fold_left (λ s0 r, eff r s0) (filter (λ r, tag r ≠ t) l) s).
Proof.
  induction l as [|r l IH]; intros o s; [done|]. cbn [fold_left existsb].
  rewrite filter_cons. destruct (Z.eqb_spec (tag r) t) as [E|E]; cbn [orb fst snd].
  - rewrite decide_False by tauto. rewrite IH. by destruct (existsb _ l).
  - rewrite decide_True by done. by rewrite IH.
Qed.

Lemma tagged_value_reads {A} (d : bdec A) t bs v :
  reads d bs v → ∀ b,
  (∃ b', tagged_value d (mkRawTaggedField t bs) b = Ok (v, b') ∧ limit b' = limit b) ∨
  (∃ e, tagged_value d (mkRawTaggedField t bs) b = Err e ∧ is_alloc_error e ∧
        ¬ (reliable R ∧ roomy b)).
Proof.
  intros H b. specialize (H [] b). rewrite app_nil_r in H. unfold tagged_value. cbn [data].
  destruct H as [(b' & -> & Hl)|(e & -> & He)]; cbn [res_bind]; eauto.
Qed.

(** A known field's value: representable, and not larger than a tag's length
    can say. *)
Definition tag_valid {A} (P : A → Prop) (f : A → enc) (o : option A) : Prop :=
  match o with
  | Some v => P v ∧ ∀ bs, enc_bytes (f v) = Ok bs → len bs ≤ i64_max
  | None => True
  end.

Lemma tags_agree_cons {A S} (c : bool) (t : Z) (f : A → enc) (d : bdec A) (P : A → Prop)
    (o : option A) (hs : handlers S) ks s :
  is_u32 t → t ∉ h_tags hs →
  (c = true → ∀ v, P v → pairs (f v) d v) →
  in_version c (tag_valid P f) None o →
  tags_agree hs ks s →
  tags_agree (known_tag c t d hs) (tag_field c t f o :: ks) (o, s).
Proof.
  intros Ht Hfresh Hf Ho [(raws & Hc & [Htags Hother (eff & Hstep & Hfold)] & Hnd & Hok)].
  assert (∀ r s0 o0, tag r ≠ t ∨ c = false → ∀ s1, steps_to hs r s0 s1 →
    steps_to (known_tag c t d hs) r (o0, s0) (o0, s1)) as Hlift.
  { intros r s0 o0 Hr s1 (k & Hk & Hb). eexists. split.
    - cbn. assert ((tag r =? t) && c = false) as ->.
      { destruct Hr as [Hr| ->]; [|apply andb_false_r]. by destruct (Z.eqb_spec (tag r) t). }
      by rewrite Hk.
    - intros b. cbn. destruct (Hb b) as [(b' & -> & Hl)|(e & -> & He)]; cbn [res_bind]; eauto. }
  assert (∀ raw s0, tag raw ∉ h_tags (known_tag c t d hs) →
    h_step (known_tag c t d hs) raw s0 = None) as Hother'.
  { intros raw [o0 s0] Hr. cbn in *. destruct c.
    - apply not_elem_of_cons in Hr as [Hr1 Hr2]. destruct (Z.eqb_spec (tag raw) t); [done|].
      cbn. by rewrite Hother.
    - rewrite andb_false_r. by rewrite Hother. }
  unfold tag_field. destruct c; cbn [in_version] in Ho.
  2: { subst o. split. exists raws. cbn [collect res_bind]. rewrite Hc. split; [done|].
    split; [|done]. split; [done|done|]. exists (λ r p, (p.1, eff r p.2)). split.
    - intros r [o0 s0] Hr. apply Hlift; [by right|]. by apply Hstep.
    - intros l Hl. specialize (Hfold l Hl). cbn. rewrite <- Hfold. clear.
      generalize (h_init hs). induction l as [|r l IH]; intros s0; [done|]. apply IH. }
  assert (∀ r, r ∈ raws → tag r ≠ t) as Hne.
  { intros r Hr <-. by apply (proj1 (Forall_forall _ _) Htags) in Hr. }
  destruct o as [v|].
  2: { split. exists raws. cbn [collect res_bind]. rewrite Hc. split; [done|].
    split; [|done]. split; [|done|].
    { eapply Forall_impl; [exact Htags|]. intros r Hr. apply elem_of_cons. right; exact Hr. }
    exists (λ r p, (p.1, eff r p.2)). split.
    - intros r [o0 s0] Hr. apply Hlift; [left; by apply Hne|]. by apply Hstep.
    - intros l Hl. specialize (Hfold l Hl). cbn. rewrite <- Hfold. clear.
      generalize (h_init hs). induction l as [|r l IH]; intros s0; [done|]. apply IH. }
  destruct Ho as [HP Hlen]. destruct (Hf eq_refl v HP) as (bs & He & Hr).
  rewrite (encodes_bytes _ _ He). cbn [res_bind].
  specialize (Hlen bs (encodes_bytes _ _ He)).
  split. exists (mkRawTaggedField t bs :: raws). cbn [collect res_bind]. rewrite Hc.
  split; [done|]. split; [|split].
  - split; [|done|].
    + constructor; [apply elem_of_cons; by left|]. eapply Forall_impl; [exact Htags|]. intros r Hr'. apply elem_of_cons. by right.
    + exists (λ r p, if tag r =? t then (Some v, p.2) else (p.1, eff r p.2)). split.
      * intros r [o0 s0] [->|Hin]%elem_of_cons; cbn [fst snd].
        -- rewrite Z.eqb_refl. eexists. split; [cbn; by rewrite Z.eqb_refl|].
           intros b. cbn. destruct (tagged_value_reads d t bs v Hr b)
             as [(b' & -> & Hl)|(e & -> & He')]; cbn [res_bind]; eauto.
        -- destruct (Z.eqb_spec (tag r) t) as [E|E]; [by apply Hne in E|].
           apply Hlift; [by left|]. by apply Hstep.
      * intros l Hl. cbn [h_init known_tag]. rewrite fold_pair. f_equal.
        -- assert (existsb (λ r, tag r =? t) l = true) as ->; [|done].
           apply existsb_exists. exists (mkRawTaggedField t bs).
           split; [|apply Z.eqb_refl]. apply list_elem_of_In. rewrite Hl. apply elem_of_cons. by left.
        -- apply Hfold. rewrite Hl. rewrite filter_cons, decide_False by (cbn; tauto).
           assert (filter (λ r, tag r ≠ t) raws = raws) as ->; [|done].
           clear -Hne. induction raws as [|r raws IH]; [done|].
           rewrite filter_cons, decide_True by (apply Hne, elem_of_cons; by left).
           f_equal. apply IH. intros r' Hr'. apply Hne, elem_of_cons. by right.
  - rewrite fmap_cons. constructor; [|done]. intros (r & E & Hin)%list_elem_of_fmap.
    by apply (Hne r Hin).
  - constructor; [|done]. split; [done|]. done.
Qed.

(** *** Sorting *)

Lemma insert_perm f l : insert_by_tag f l ≡ₚ f :: l.
Proof.
  induction l as [|g l IH]; [done|]. cbn [insert_by_tag].
  destruct (_ <=? _); [|done]. rewrite IH. by rewrite Permutation_swap.
Qed.

Lemma sort_perm_acc l : ∀ acc, fold_left (λ acc f, insert_by_tag f acc) l acc ≡ₚ acc ++ l.
Proof.
  induction l as [|f l IH]; intros acc; cbn [fold_left]; [by rewrite app_nil_r|].
  rewrite IH, insert_perm. by rewrite <- Permutation_middle.
Qed.

Lemma sort_perm l : sort_by_tag l ≡ₚ l.
Proof. apply sort_perm_acc. Qed.

Lemma insert_ascending f l :
  tags_ascending l → tag f ∉ tag <$> l → tags_ascending (insert_by_tag f l).
Proof.
  unfold tags_ascending. induction 1 as [|g l Hs IH Hall]; intros Hf; cbn [insert_by_tag].
  - repeat constructor.
  - rewrite fmap_cons in Hf. apply not_elem_of_cons in Hf as [Hf1 Hf2].
    destruct (Z.leb_spec (tag g) (tag f)).
    + constructor; [by apply IH|]. rewrite insert_perm. constructor; [lia|done].
    + constructor; [by constructor|]. constructor; [done|].
      eapply Forall_impl; [exact Hall|]. cbn. lia.
Qed.

Lemma sort_ascending l : NoDup (tag <$> l) → tags_ascending (sort_by_tag l).
Proof.
  unfold sort_by_tag. intros Hl.
  enough (∀ l acc, tags_ascending acc → NoDup (tag <$> acc ++ l) →
    tags_ascending (fold_left (λ acc f, insert_by_tag f acc) l acc)) as H.
  { apply H; [constructor|done]. }
  clear l Hl. induction l as [|f l IH]; intros acc Ha Hd; [done|]. cbn [fold_left].
  assert (NoDup (tag <$> f :: acc ++ l)) as Hd2 by by rewrite Permutation_middle.
  rewrite fmap_cons in Hd2. apply NoDup_cons in Hd2 as [Hf Hd'].
  apply IH.
  - apply insert_ascending; [done|]. intros Hin. apply Hf. rewrite fmap_app, elem_of_app. by left.
  - rewrite insert_perm. cbn [app]. rewrite fmap_cons. by constructor.
Qed.

Lemma ascending_unique l1 l2 :
  tags_ascending l1 → tags_ascending l2 → l1 ≡ₚ l2 → l1 = l2.
Proof.
  intros H1 H2 Hp. unshelve eapply (StronglySorted_unique (λ f g, tag f < tag g)); [|done..].
  intros f g ? ?. lia.
Qed.

Lemma ascending_filter (P : RawTaggedField → Prop) `{∀ x, Decision (P x)} l :
  tags_ascending l → tags_ascending (filter P l).
Proof.
  unfold tags_ascending. induction 1 as [|f l Hs IH Hall]; [constructor|].
  rewrite filter_cons. case_decide; [|done]. constructor; [done|].
  apply Forall_forall. intros g [_ Hg]%list_elem_of_filter.
  by apply (proj1 (Forall_forall _ _) Hall).
Qed.

(** *** The whole section *)

Lemma dispatch_reads {S} (hs : handlers S) raws s
    (eff : RawTaggedField → S → S) l : ∀ s0 v b,
  serves hs raws s →
  (∀ r s0, r ∈ raws → steps_to hs r s0 (eff r s0)) →
  (∀ r, r ∈ l → tag r ∈ h_tags hs → r ∈ raws) →
  (∃ v' b', dispatch hs l s0 v b =
      Ok (fold_left (λ s0 r, eff r s0) (filter (λ r, tag r ∈ h_tags hs) l) s0, v', b') ∧
    items v' = items v ++ filter (λ r, tag r ∉ h_tags hs) l ∧ limit b' = limit b) ∨
  (∃ e, dispatch hs l s0 v b = Err e ∧ is_alloc_error e ∧ ¬ (reliable R ∧ roomy b)).
Proof.
  induction l as [|r l IH]; intros s0 v b Hsrv Heff Hin.
  { left. exists v, b. by rewrite app_nil_r. }
  assert (∀ r, r ∈ l → tag r ∈ h_tags hs → r ∈ raws) as Hin'.
  { intros r' Hr'. apply Hin. apply elem_of_cons. by right. }
  cbn [dispatch]. rewrite !filter_cons. destruct (decide (tag r ∈ h_tags hs)) as [Hk|Hk].
  - rewrite (decide_False (P := tag r ∉ h_tags hs)) by tauto.
    destruct (Heff r s0 (Hin r ltac:(apply elem_of_cons; by left) Hk)) as (k & -> & Hb).
    destruct (Hb b) as [(b' & -> & Hl)|(e & -> & He & Hn)]; cbn [res_bind]; [|right; eauto].
    destruct (IH (eff r s0) v b' Hsrv Heff Hin') as [(v' & b'' & -> & Hi & Hl')|(e & -> & He & Hn)].
    + left. exists v', b''. split; [done|]. split; [done|congruence].
    + right. exists e. unfold roomy in *. rewrite Hl in Hn. done.
  - rewrite decide_True by done. rewrite (srv_other _ _ _ Hsrv) by done.
    destruct (reads_push "RawTaggedField" v r [] b) as [(v' & b' & E & Hi & Hl)|(e & E & He & Hn)];
      unfold bpush in E; destruct (push _ b v r) as [[b1 v1] [u|e1]]; try done.
    + injection E as -> ->.
      destruct (IH s0 v' b' Hsrv Heff Hin') as [(v'' & b'' & -> & Hi' & Hl')|(e & -> & He & Hn)].
      * left. exists v'', b''. rewrite Hi', Hi, <- app_assoc. split; [done|]. split; [done|congruence].
      * right. exists e. unfold roomy in *. rewrite Hl in Hn. done.
    + injection E as ->. right. eauto.
Qed.

(** What is asked of the unknown fields beside known ones: representable,
    ascending, and not claimed by a known tag. *)
Definition unknown_ok (known : list Z) (unknown : list RawTaggedField) : Prop :=
  Forall tagged_ok unknown ∧ tags_ascending unknown ∧
  Forall (λ r, tag r ∉ known) unknown ∧ len unknown + len known ≤ u64_max.

Lemma ascending_nodup l : tags_ascending l → NoDup (tag <$> l).
Proof.
  unfold tags_ascending. induction 1 as [|f l Hs IH Hall]; [constructor|].
  rewrite fmap_cons. constructor; [|done]. intros (g & E & Hg)%list_elem_of_fmap.
  apply (proj1 (Forall_forall _ _) Hall) in Hg. lia.
Qed.

Lemma pairs1_known_tags {S} (hs : handlers S) ks s unknown :
  tags_agree hs ks s → unknown_ok (h_tags hs) unknown →
  pairs1 (put_known_tags unknown ks) (get_known_tags hs) (s, unknown).
Proof.
  intros [(raws & Hc & Hsrv & Hnd & Hok)] (Hu & Hasc & Hun & Hlen).
  pose proof Hsrv as [Htags _ (eff & Heff & Hfold)].
  pose proof (sort_perm (unknown ++ raws)) as Hperm.
  assert (NoDup (tag <$> unknown ++ raws)) as Hnd2.
  { rewrite fmap_app. apply NoDup_app. split; [by apply ascending_nodup|]. split; [|done].
    intros t (f & -> & Hf)%list_elem_of_fmap (g & E & Hg)%list_elem_of_fmap.
    apply (proj1 (Forall_forall _ _) Hun) in Hf. apply (proj1 (Forall_forall _ _) Htags) in Hg.
    by rewrite E in Hf. }
  assert (tags_ascending (sort_by_tag (unknown ++ raws))) as Hs by by apply sort_ascending.
  assert (tags_ok (sort_by_tag (unknown ++ raws))) as Htok.
  { split; [rewrite Hperm; by apply Forall_app|]. split; [done|].
    rewrite Hperm, length_app.
    assert (length raws ≤ length (h_tags hs))%nat as Hl.
    { rewrite <- (length_fmap tag). apply submseteq_length, NoDup_submseteq; [done|].
      intros t (r & -> & Hr)%list_elem_of_fmap. by apply (proj1 (Forall_forall _ _) Htags) in Hr. }
    lia. }
  destruct (pairs1_tagged _ Htok) as (bs & Hne & He & Hr).
  exists bs. split; [done|]. split.
  { intros buf. unfold put_known_tags. rewrite Hc. apply He. }
  unfold get_known_tags. rewrite <- (app_nil_r bs). eapply reads_bind; [exact Hr|].
  intros rest b. cbn [app].
  assert (filter (λ r, tag r ∈ h_tags hs) (sort_by_tag (unknown ++ raws)) ≡ₚ raws) as Hk.
  { rewrite Hperm, filter_app. assert (filter (λ r, tag r ∈ h_tags hs) unknown = []) as ->.
    - by apply filter_none.
    - cbn [app]. by rewrite filter_all. }
  assert (filter (λ r, tag r ∉ h_tags hs) (sort_by_tag (unknown ++ raws)) = unknown) as Hku.
  { apply ascending_unique; [by apply ascending_filter|done|].
    rewrite Hperm, filter_app. assert (filter (λ r, tag r ∉ h_tags hs) raws = []) as ->.
    - apply filter_none. eapply Forall_impl; [exact Htags|]. cbn. tauto.
    - rewrite app_nil_r. by rewrite filter_all. }
  destruct (dispatch_reads hs raws s eff (sort_by_tag (unknown ++ raws)) (h_init hs)
    (vec_new "RawTaggedField") b Hsrv Heff) as [(v' & b' & -> & Hi & Hl)|(e & -> & He' & Hn)].
  { intros r Hin Htr. rewrite Hperm, elem_of_app in Hin. destruct Hin as [Hin|]; [|done].
    by apply (proj1 (Forall_forall _ _) Hun) in Hin. }
  - left. exists b'. cbn [res_bind]. rewrite (Hfold _ Hk), Hi, Hku. done.
  - right. exists e. done.
Qed.

End dispatch.
Arguments h_init {S} _.
Arguments h_tags {S} _.
Arguments h_step {S} _ _ _.

(** A tag is new to a chain of smaller ones. *)
Lemma known_list_fresh c t u ts : t ≠ u → t ∉ ts → t ∉ known_list c u ts.
Proof. unfold known_list. destruct c; [|done]. intros. by apply not_elem_of_cons. Qed.

(** The known tags of a struct, in order, from its part of the validity. *)
Ltac agree_tags :=
  lazymatch goal with
  | |- tags_agree _ (tag_field _ _ _ _ :: _) _ =>
      let H := fresh in
      eapply tags_agree_cons;
        [ split; discriminate
        | cbn [h_tags known_tag no_tags]; repeat (apply known_list_fresh; [discriminate|]);
          apply not_elem_of_nil
        | | eassumption | agree_tags ];
        intros; solve [ apply pairs1_pairs; field | eauto 6 with fields nocore ]
  | |- tags_agree _ [] _ => apply tags_agree_nil
  end.
Ltac known_tags :=
  intros; split_valid; eapply pairs1_known_tags; [agree_tags|assumption].
#[export] Hint Extern 1 (pairs1 (put_known_tags _ _) _ _) => known_tags : fields.

(** Closes the validity of a concrete value, by evaluation. *)
Ltac valid_sample :=
  repeat (hnf;
    lazymatch goal with
    | |- True => exact I
    | |- _ ∧ _ => split
    | |- _ = _ => vm_compute; reflexivity
    | |- Forall _ _ => first [apply Forall_nil_2 | apply Forall_cons_2]
    | |- StronglySorted _ _ => constructor
    | |- _ → False => vm_compute; discriminate
    | |- ∀ bs, enc_bytes _ = Ok bs → _ =>
        let bs := fresh in let H := fresh in
        intros bs H; vm_compute in H; injection H as <-; vm_compute; discriminate
    end).
