(* ===== verification/Settles.v ===== *)
(** * What a decoder lets through

    [Fields.v] and [KnownTags.v] go from a value to bytes and back; this file
    goes the other way, from whatever bytes a peer chose.  [settles w P d] says
    that what [d] accepts is representable, that [w] writes it in no more bytes
    than it arrived in -- fewer when a varint came overlong, never more -- and that
    [d] reads those bytes back for exactly the budget it spent the first time.
    The shapes have a lemma each, the messages are assembled from them by
    [settle]. *)
From S2P Require Import Prelude Budget Codec Wire Fields KnownTags.
Import BudgetOps.

Create HintDb settles.

(** ** The relations *)

(** [takes Q d]: from what it accepts, of at most [isize::MAX] bytes, [d] would
    read the same value for the same budget from bytes [bs], no more than it
    consumed, and [Q] holds of the value and of them. *)
Definition takes {A} (Q : A → list byte → Prop) (d : bdec A) : Prop :=
  ∀ buf b x buf' b', len buf ≤ i64_max → d buf b = Ok (x, buf', b') →
    ∃ n bs, 0 ≤ n ∧ n + len buf' = len buf ∧ len bs ≤ n ∧
      (∀ rest, d (bs ++ rest) b = Ok (x, rest, b')) ∧ Q x bs.

Definition settles {A} (w : A → enc) (P : A → Prop) (d : bdec A) : Prop :=
  takes (λ x bs, P x ∧ encodes (w x) bs) d.

(** For a decoder that spends no budget: a relation between the value and the
    number of bytes it came from. *)
Definition gives {A} (Q : A → Z → Prop) (d : dec A) : Prop :=
  ∀ buf x buf', len buf ≤ i64_max → d buf = Ok (x, buf') →
    ∃ n, 0 ≤ n ∧ n + len buf' = len buf ∧ Q x n.

Definition written (w : enc) (n : Z) : Prop := ∃ bs, encodes w bs ∧ len bs ≤ n.

(** ** Rules *)

Section rules.

Lemma written_int k z n : Z.of_nat k ≤ n → written (put_int k z) n.
Proof. intros. exists (be_bytes k z). split; [apply encodes_put_int|]. by rewrite be_bytes_length. Qed.
Lemma written_slice bs n : len bs ≤ n → written (put_slice bs) n.
Proof. intros. exists bs. split; [apply encodes_slice|done]. Qed.

Lemma takes_mono {A} (Q Q' : A → list byte → Prop) d :
  takes Q d → (∀ x bs, len bs ≤ i64_max → Q x bs → Q' x bs) → takes Q' d.
Proof.
  intros H HQ buf b x buf' b' Hl E. destruct (H _ _ _ _ _ Hl E) as (n & bs & ? & ? & ? & ? & ?).
  exists n, bs. split_and!; try done. apply HQ; [lia|done].
Qed.

Lemma takes_ret {A} (Q : A → list byte → Prop) x : Q x [] → takes Q (bdec_ret x).
Proof. intros H buf b y buf' b' _ [= <- <- <-]. by exists 0, []. Qed.

Lemma takes_fail {A} (Q : A → list byte → Prop) e : takes Q (bdec_fail e).
Proof. by intros ??????. Qed.

Lemma takes_bind {A B} Q1 (Q : B → list byte → Prop) (d : bdec A) (k : A → bdec B) :
  takes Q1 d → (∀ x bs, len bs ≤ i64_max → Q1 x bs → takes (λ y bs', Q y (bs ++ bs')) (k x)) →
  takes Q (let* x := d in k x).
Proof.
  intros H1 H2 buf b y buf2 b2 Hl E.
  apply bdec_bind_ok in E as (x & buf1 & b1 & E1 & E2).
  destruct (H1 _ _ _ _ _ Hl E1) as (n & bs & ? & ? & ? & Hr & Hx).
  destruct (H2 x bs ltac:(lia) Hx buf1 b1 y buf2 b2) as (m & bs' & ? & ? & ? & Hr' & ?); [lia|done|].
  exists (n + m), (bs ++ bs'). rewrite length_app. split_and!; try done; try lia.
  intros rest. unfold bdec_bind. rewrite <- app_assoc, Hr. apply Hr'.
Qed.

Lemma gives_ret {A} (Q : A → Z → Prop) x : Q x 0 → gives Q (dec_ret x).
Proof. intros H buf y buf' _ [= <- <-]. by exists 0. Qed.

Lemma gives_of {A} (Q : A → Z → Prop) r :
  (∀ x, r = Ok x → Q x 0) → gives Q (dec_of r).
Proof.
  intros H buf y buf' _. unfold dec_of. destruct r as [x|]; [|done].
  intros [= <- <-]. exists 0. split; [done|]. split; [done|by apply H].
Qed.

Lemma gives_bind {A B} Q1 (Q : B → Z → Prop) (d : dec A) (k : A → dec B) :
  gives Q1 d → (∀ x n, 0 ≤ n ≤ i64_max → Q1 x n → gives (λ y m, Q y (n + m)) (k x)) →
  gives Q (let! x := d in k x).
Proof.
  intros H1 H2 buf y buf2 Hl E. unfold dec_bind in E.
  destruct (d buf) as [[x buf1]|] eqn:E1; cbn [res_bind] in E; [|done].
  destruct (H1 _ _ _ Hl E1) as (n & ? & ? & Hx).
  destruct (H2 x n ltac:(lia) Hx buf1 y buf2) as (m & ? & ? & ?); [lia|done|].
  exists (n + m). split; [lia|]. split; [lia|done].
Qed.

Lemma gives_mono {A} (Q Q' : A → Z → Prop) d :
  gives Q d → (∀ x n, 0 ≤ n ≤ i64_max → Q x n → Q' x n) → gives Q' d.
Proof.
  intros H HQ buf x buf' Hl E. destruct (H _ _ _ Hl E) as (n & ? & ? & ?).
  exists n. split; [done|]. split; [done|]. apply HQ; [lia|done].
Qed.

(** A decoder that spends no budget settles when it reads back what [w]
    writes: nothing but the bytes decides what it does. *)
Lemma settles_lift {A} (w : A → enc) (P : A → Prop) d :
  gives (λ x n, P x ∧ written (w x) n) d →
  (∀ x, P x → pairs (R := plain_runtime) (w x) (lift d) x) → settles w P (lift d).
Proof.
  intros H Hp buf b x buf' b' Hl E. unfold lift in E.
  apply res_bind_ok in E as ([y buf1] & E & E'). injection E' as <- <- <-.
  destruct (H _ _ _ Hl E) as (n & ? & ? & HP & bs & He & ?). destruct (Hp y HP) as (bs' & He' & Hr).
  pose proof (encodes_inj _ _ _ He' He) as ->. exists n, bs. split_and!; try done.
  intros rest. destruct (Hr rest (Limits.budget Limits.UNLIMITED 0)) as [(b' & Eb & _)|(e & _ & _ & Hn)].
  - unfold lift in *. destruct (d (bs ++ rest)) as [[z buf2]|]; [|done]. injection Eb as -> -> _. done.
  - destruct Hn. split; [apply plain_reliable|by apply unlimited_roomy].
Qed.

End rules.

(** ** Primitives *)

Section primitives.

Lemma ensure_take {A} (Q : A → Z → Prop) n d :
  (∀ buf x buf', len buf ≤ i64_max → n ≤ len buf → d buf = Ok (x, buf') →
    ∃ m, 0 ≤ m ∧ m + len buf' = len buf ∧ Q x m) →
  gives Q (let! _ := ensure n in d).
Proof.
  intros H buf x buf' Hl. unfold dec_bind, ensure.
  destruct (Z.ltb_spec (len buf) n); [done|]. cbn [res_bind]. intros E. by eapply H.
Qed.

Lemma gives_copy {A} (Q : A → Z → Prop) n (k : list byte → dec A) :
  0 ≤ n → (∀ bs, len bs = n → n ≤ i64_max → gives (λ y m, Q y (n + m)) (k bs)) →
  gives Q (let! _ := ensure n in let! bs := copy_to_bytes n in k bs).
Proof.
  intros Hn H. apply ensure_take. intros buf x buf' Hl Hb. unfold dec_bind, copy_to_bytes.
  cbn [res_bind]. intros E.
  assert (len (take (Z.to_nat n) buf) = n) as Ht by (rewrite length_take; lia).
  assert (n + len (drop (Z.to_nat n) buf) = len buf) as Hd by (rewrite length_drop; lia).
  destruct (H _ Ht ltac:(lia) (drop (Z.to_nat n) buf) x buf' ltac:(lia) E) as (m & ? & ? & ?).
  exists (n + m). split; [lia|]. split; [lia|done].
Qed.

Lemma gives_int k :
  (0 < k)%nat → gives (λ z n, n = Z.of_nat k ∧
    - 2 ^ (8 * Z.of_nat k - 1) ≤ z < 2 ^ (8 * Z.of_nat k - 1))
    (let! _ := ensure (Z.of_nat k) in buf_get_int k).
Proof.
  intros Hk. apply ensure_take. intros buf z buf' _ Hb [= <- <-].
  exists (Z.of_nat k). split; [lia|]. split; [rewrite length_drop; lia|].
  split; [done|]. apply sint_range. lia.
Qed.

Lemma gives_uint k :
  gives (λ z n, n = Z.of_nat k ∧ 0 ≤ z < 256 ^ Z.of_nat k)
    (let! _ := ensure (Z.of_nat k) in buf_get_uint k).
Proof.
  apply ensure_take. intros buf z buf' _ Hb [= <- <-].
  exists (Z.of_nat k). split; [lia|]. split; [rewrite length_drop; lia|].
  split; [done|]. pose proof (be_val_range (take k buf)) as Hr.
  rewrite length_take in Hr. by replace (k `min` length buf)%nat with k in Hr by lia.
Qed.

(** [tight bs c]: [bs] spells what [c] spelled, and only an overlong spelling
    tells the two apart. *)
Definition tight (bs c : list byte) : Prop := bs = c ∨ len bs < len c.

Lemma tight_refl bs : tight bs bs.
Proof. by left. Qed.
Lemma tight_le bs c : tight bs c → len bs ≤ len c.
Proof. intros [->|]; lia. Qed.
Lemma tight_app bs1 c1 bs2 c2 : tight bs1 c1 → tight bs2 c2 → tight (bs1 ++ bs2) (c1 ++ c2).
Proof.
  intros [->|H1] [->|H2]; [by left|right..]; rewrite !length_app; lia.
Qed.

(** A varint is its canonical spelling, or longer. *)
Lemma varint_loop_tight buf : ∀ fuel value k v buf',
  (k + fuel = 10)%nat → (0 < fuel)%nat → 0 ≤ value < 2 ^ (7 * Z.of_nat k) →
  get_unsigned_varint_loop value (7 * Z.of_nat k) buf = Ok (v, buf') →
  ∃ c w, buf = c ++ buf' ∧ c ≠ [] ∧ 0 ≤ w ∧ v = value + w * 2 ^ (7 * Z.of_nat k) ∧
    tight (varint_bytes fuel w) c.
Proof.
  induction buf as [|b buf IH]; intros fuel value k v buf' Hk Hf Hv;
    cbn [get_unsigned_varint_loop]; [done|]. cbv zeta.
  destruct fuel as [|fuel]; [lia|]. rewrite byte_over_1, byte_msb, land_7f.
  pose proof (byte_to_Z_range b) as Hb.
  destruct ((7 * Z.of_nat k =? 63) && negb (byte_to_Z b <? 2)) eqn:H63; [done|].
  set (low := byte_to_Z b mod 128).
  pose proof (Z.mod_pos_bound (byte_to_Z b) 128 eq_refl) as Hlow. fold low in Hlow.
  assert (low < 2 ^ (64 - 7 * Z.of_nat k)) as Hfit.
  { destruct (Z.eqb_spec (7 * Z.of_nat k) 63) as [->|].
    - destruct (Z.ltb_spec (byte_to_Z b) 2); [|done].
      subst low. rewrite Z.mod_small by lia. done.
    - assert (2 ^ 7 ≤ 2 ^ (64 - 7 * Z.of_nat k)); [apply Z.pow_le_mono_r; lia|lia]. }
  rewrite shiftl_no_wrap, lor_shiftl_add by lia.
  destruct (Z.ltb_spec (byte_to_Z b) 128).
  { intros [= <- <-]. exists [b], low. split; [done|]. split; [done|]. split; [lia|].
    split; [done|]. left. cbn [varint_bytes]. destruct (Z.ltb_spec low 128); [|lia].
    subst low. by rewrite Z.mod_small, byte_of_Z_to_Z by lia. }
  destruct (Z.ltb_spec 63 (7 * Z.of_nat k + 7)); [done|].
  replace (7 * Z.of_nat k + 7) with (7 * Z.of_nat (S k)) by lia.
  assert (2 ^ (7 * Z.of_nat (S k)) = 2 ^ (7 * Z.of_nat k) * 128) as E2.
  { change 128 with (2 ^ 7). rewrite <- Z.pow_add_r by lia. f_equal. lia. }
  intros E. apply (IH fuel) in E as (c & w & -> & Hc & Hw & -> & Ht); [|lia|lia|nia].
  exists (b :: c), (low + w * 128). split; [done|]. split; [done|]. split; [lia|].
  split; [rewrite E2; lia|]. cbn [varint_bytes].
  destruct (Z.ltb_spec (low + w * 128) 128) as [|Hge].
  { right. destruct c; [done|]. cbn [length]. lia. }
  rewrite Z.mod_add, Z.div_add, (Z.mod_small low), (Z.div_small low), Z.add_0_l by lia.
  assert (byte_of_Z (low + 128) = b) as ->.
  { rewrite <- (byte_of_Z_to_Z b). f_equal. subst low.
    replace (byte_to_Z b) with (byte_to_Z b - 128 + 1 * 128) at 1 by lia.
    rewrite Z.mod_add, Z.mod_small by lia. lia. }
  destruct Ht as [->|Ht]; [by left|right]. cbn [length]. lia.
Qed.

Lemma get_varint_tight buf v buf' :
  get_unsigned_varint buf = Ok (v, buf') →
  ∃ c, buf = c ++ buf' ∧ is_u64 v ∧ tight (varint_bytes 10 v) c.
Proof.
  intros E. pose proof (get_unsigned_varint_sound _ _ _ E) as [Hv _].
  unfold get_unsigned_varint in E.
  apply (varint_loop_tight _ 10 _ 0) in E as (c & w & -> & _ & _ & -> & Ht); [|lia..].
  exists c. replace (0 + w * _) with w in * by lia. done.
Qed.

Lemma gives_varint : gives (λ v n, is_u64 v ∧ len (varint_bytes 10 v) ≤ n) get_unsigned_varint.
Proof.
  intros buf v buf' _ E. apply get_varint_tight in E as (c & -> & Hv & Ht%tight_le).
  exists (len c). rewrite length_app. split; [lia|]. split; [lia|done].
Qed.

Lemma written_varint v n :
  is_u64 v → len (varint_bytes 10 v) ≤ n → written (put_unsigned_varint v) n.
Proof. intros Hv ?. eexists. split; [exact (encodes_unsigned_varint v (proj1 Hv))|done]. Qed.

End primitives.

(** ** Scalars, strings and bytes *)

Section scalars.

Lemma gives_ensured {A B} Q1 (Q : B → Z → Prop) n (d : dec A) (k : A → dec B) :
  gives Q1 (let! _ := ensure n in d) →
  (∀ x m, 0 ≤ m ≤ i64_max → Q1 x m → gives (λ y l, Q y (m + l)) (k x)) →
  gives Q (let! _ := ensure n in let! x := d in k x).
Proof.
  intros H1 H2 buf x buf' Hl E. eapply (gives_bind _ _ _ _ H1 H2); [done|].
  rewrite <- E. unfold dec_bind. by destruct (ensure n buf) as [[[] ?]|].
Qed.

Lemma gives_of_bind {A B} (Q : B → Z → Prop) (r : result DecodeError A) (k : A → dec B) :
  (∀ x, r = Ok x → gives Q (k x)) → gives Q (let! x := dec_of r in k x).
Proof.
  intros H. eapply gives_bind; [apply (gives_of (λ x n, r = Ok x ∧ n = 0)); done|].
  cbn beta. intros x n _ [Hx ->]. by apply H.
Qed.

Lemma gives_fixed k (P : Z → Prop) :
  (0 < k)%nat → (∀ z, - 2 ^ (8 * Z.of_nat k - 1) ≤ z < 2 ^ (8 * Z.of_nat k - 1) → P z) →
  gives (λ z n, P z ∧ written (put_int k z) n)
    (let! _ := ensure (Z.of_nat k) in buf_get_int k).
Proof.
  intros Hk HP. eapply gives_mono; [by apply gives_int|].
  cbn beta. intros z n _ [-> Hz]. split; [by apply HP|by apply written_int].
Qed.

(** What was accepted settles because it is read back: [gives] and [pairs]. *)
Ltac settle_prim tac :=
  apply settles_lift; [tac|intros; apply pairs1_pairs; solve [eauto with fields nocore]].

Lemma settles_i8 : settles put_i8 is_i8 (lift get_i8).
Proof. settle_prim ltac:(apply (gives_fixed 1); [lia|intros z; cbn; int_lia]). Qed.
Lemma settles_i16 : settles put_i16 is_i16 (lift get_i16).
Proof. settle_prim ltac:(apply (gives_fixed 2); [lia|intros z; cbn; int_lia]). Qed.
Lemma settles_i32 : settles put_i32 is_i32 (lift get_i32).
Proof. settle_prim ltac:(apply (gives_fixed 4); [lia|intros z; cbn; int_lia]). Qed.
Lemma settles_i64 : settles put_i64 is_i64 (lift get_i64).
Proof. settle_prim ltac:(apply (gives_fixed 8); [lia|intros z; cbn; int_lia]). Qed.

Lemma settles_bool : settles put_bool any (lift get_bool).
Proof.
  settle_prim idtac. eapply gives_ensured; [apply (gives_uint 1)|].
  cbn beta. intros z n _ [-> _]. apply gives_ret. split; [done|]. by apply written_int.
Qed.

Lemma settles_uuid : settles put_uuid uuid_ok (lift get_uuid).
Proof.
  settle_prim ltac:(apply ensure_take). intros buf x buf' Hl Hb [= <- <-].
  exists 16. split; [done|]. split; [rewrite length_drop; lia|].
  split; [unfold uuid_ok; rewrite length_take; lia|].
  apply written_slice. rewrite length_take. lia.
Qed.

(** What [read_utf8] accepts after a length. *)
Lemma gives_utf8 n :
  0 ≤ n → gives (λ s m, is_str s ∧ str_len s = n ∧ m = n ∧ n ≤ i64_max) (read_utf8 n).
Proof.
  intros Hn. apply gives_copy; [done|]. intros bs Hbs Hmax. apply gives_of.
  unfold from_utf8. intros s. destruct (utf8_valid bs) eqn:Hu; [|done]. intros [= <-].
  unfold is_str, str_len. rewrite str_bytes_str. split; [done|]. split; [done|]. lia.
Qed.

Lemma len_from_inv raw n : len_from raw = Ok n → n = raw ∧ 0 ≤ n.
Proof.
  unfold len_from. destruct (try_from _ _ raw) eqn:E; [|done]. cbn. intros [= <-].
  apply try_from_Some in E as [-> ?]. lia.
Qed.
Lemma compact_len_inv raw n : compact_len raw = Ok n → n = raw ∧ 0 ≤ n.
Proof.
  unfold compact_len. destruct (try_from 0 _ raw) eqn:E; [|done]. cbn. intros [= <-].
  apply try_from_Some in E as [-> ?]. lia.
Qed.

(** The two forms of a nullable length prefix: [None] where it spells null,
    and otherwise a length, whose canonical spelling is no longer. *)
Lemma gives_prefix {B} (Q : B → Z → Prop) k none (some : Z → dec B) :
  (0 < k)%nat → gives (λ y m, Q y (Z.of_nat k + m)) none →
  (∀ n, 0 ≤ n < 2 ^ (8 * Z.of_nat k - 1) → gives (λ y m, Q y (Z.of_nat k + m)) (some n)) →
  gives Q (let! _ := ensure (Z.of_nat k) in let! raw := buf_get_int k in
    if raw =? -1 then none else let! n := dec_of (len_from raw) in some n).
Proof.
  intros Hk Hnone Hsome. eapply gives_ensured; [by apply gives_int|].
  cbn beta. intros raw m _ [-> Hr]. destruct (raw =? -1); [done|].
  apply gives_of_bind. intros x [-> ?]%len_from_inv. apply Hsome. lia.
Qed.

Lemma gives_compact_prefix {B} (Q : B → Z → Prop) none (some : Z → dec B) :
  (∀ l, len (varint_bytes 10 0) ≤ l → gives (λ y m, Q y (l + m)) none) →
  (∀ n l, is_u64 (n + 1) → 0 ≤ n → len (varint_bytes 10 (n + 1)) ≤ l →
    gives (λ y m, Q y (l + m)) (some n)) →
  gives Q (let! n := get_unsigned_varint in
    if n =? 0 then none else let! n := dec_of (compact_len (n - 1)) in some n).
Proof.
  intros Hnone Hsome. eapply gives_bind; [apply gives_varint|].
  cbn beta. intros raw l _ [Hu Hl]. destruct (Z.eqb_spec raw 0) as [->|]; [by apply Hnone|].
  apply gives_of_bind. intros x [-> ?]%compact_len_inv.
  apply Hsome; replace (raw - 1 + 1) with raw by lia; done.
Qed.

(** *** Strings *)

Lemma written_string s n : str_ok false s → 2 + str_len s ≤ n → written (put_string s) n.
Proof.
  intros [_ Hl] Hn. eexists. split; [by apply encodes_string|].
  rewrite length_app, be_bytes_length. unfold str_len in Hn. lia.
Qed.
Lemma written_compact_string s n l :
  len (varint_bytes 10 (str_len s + 1)) ≤ l → l + str_len s ≤ n → written (put_compact_string s) n.
Proof.
  intros Hl Hn. eexists. split; [apply encodes_compact_string|].
  rewrite length_app. unfold str_len in *. lia.
Qed.

Lemma gives_flex_nullable_string flex :
  gives (λ s n, opt_valid true (str_ok flex) s ∧ written (put_flex_nullable_string flex s) n)
    (if flex then get_compact_nullable_string else get_nullable_string).
Proof.
  destruct flex.
  - apply gives_compact_prefix.
    + intros l Hl. apply gives_ret. split; [done|]. apply written_varint; [int_lia|lia].
    + intros n l Hu Hn Hl. eapply gives_bind; [by apply gives_utf8|].
      cbn beta. intros s m _ (Hs & <- & -> & ?). apply gives_ret. split; [done|].
      apply (written_compact_string _ _ l); lia.
  - apply (gives_prefix _ 2); [lia| |].
    + apply gives_ret. split; [done|]. by apply written_int.
    + intros n Hn. eapply gives_bind; [apply gives_utf8; lia|].
      cbn beta. intros s m _ (Hs & <- & -> & ?). apply gives_ret. cbn in Hn.
      assert (str_ok false s) as Hok by (split; [done|int_lia]).
      split; [done|]. apply written_string; [done|lia].
Qed.

Lemma settles_flex_nullable_string flex :
  settles (put_flex_nullable_string flex) (opt_valid true (str_ok flex))
    (get_flex_nullable_string flex).
Proof. settle_prim ltac:(apply gives_flex_nullable_string). Qed.

Lemma settles_nullable_string :
  settles put_nullable_string (opt_valid true (str_ok false)) (lift get_nullable_string).
Proof. apply (settles_flex_nullable_string false). Qed.

Lemma settles_flex_string flex :
  settles (put_flex_string flex) (str_ok flex) (get_flex_string flex).
Proof.
  settle_prim idtac.
  assert (gives (λ s n, str_ok flex s ∧ written (put_flex_string flex s) n)
    (let! s := (if flex then get_compact_nullable_string else get_nullable_string) in
     dec_of (ok_or (InvalidLength (-1)) s))) as H; [|by destruct flex].
  eapply gives_bind; [apply gives_flex_nullable_string|]. cbn beta.
  intros [s|] n _ [Hs Hw]; apply gives_of; intros x [= <-]. rewrite Z.add_0_r.
  split; [done|]. by destruct flex.
Qed.

(** *** Bytes *)

Lemma settles_flex_nullable_bytes flex :
  settles (put_flex_nullable_bytes flex) (opt_valid true (bytes_ok flex))
    (get_flex_nullable_bytes flex).
Proof.
  settle_prim idtac. destruct flex.
  - apply gives_compact_prefix.
    + intros l Hl. apply gives_ret. split; [done|]. apply written_varint; [int_lia|lia].
    + intros n l Hu Hn Hl. apply gives_copy; [done|]. intros bs <- Hmax. apply gives_ret.
      split; [exact Hmax|]. eexists. split; [apply encodes_compact_bytes|].
      rewrite length_app. lia.
  - apply (gives_prefix _ 4); [lia| |].
    + apply gives_ret. split; [done|]. by apply written_int.
    + intros n Hn. apply gives_copy; [lia|]. intros bs <- _. apply gives_ret. cbn in Hn.
      assert (bytes_ok false bs) as Hok by (unfold bytes_ok; int_lia).
      split; [done|]. eexists. split; [by apply encodes_bytes_field|].
      rewrite length_app, be_bytes_length. lia.
Qed.

(** *** Array length prefixes *)

Definition count_ok (flex : bool) (n : option Z) : Prop :=
  match n with Some n => 0 ≤ n ≤ (if flex then u64_max - 1 else i32_max) | None => True end.

Lemma settles_flex_array_len flex :
  settles (put_flex_array_len flex) (count_ok flex) (get_flex_array_len flex).
Proof.
  apply settles_lift; [|intros [n|] Hn; apply pairs1_pairs;
    [by apply pairs1_flex_array_len|apply pairs1_flex_array_none]].
  destruct flex.
  - apply (gives_compact_prefix _ _ (λ n, dec_ret (Some n))).
    + intros l Hl. apply gives_ret. split; [done|]. apply written_varint; [int_lia|lia].
    + intros n l Hu Hn Hl. apply gives_ret. split; [cbn; int_lia|].
      eexists. split; [apply encodes_compact_array_len; lia|lia].
  - apply (gives_prefix _ 4 _ (λ n, dec_ret (Some n))); [lia| |].
    + apply gives_ret. split; [done|]. by apply written_int.
    + intros n Hn. apply gives_ret. cbn in Hn. split; [cbn; int_lia|].
      eexists. split; [apply encodes_array_len; int_lia|]. rewrite be_bytes_length. lia.
Qed.

End scalars.

(** ** Arrays *)

(** The elements read so far and their encodings. *)
Definition each_written {T} (f : T → enc) (l : list T) (bs : list byte) : Prop :=
  ∃ bss, Forall2 (λ x bs, encodes (f x) bs) l bss ∧ bs = concat bss.

Lemma each_written_snoc {T} (f : T → enc) l x bs bs' :
  each_written f l bs → encodes (f x) bs' → each_written f (l ++ [x]) (bs ++ bs').
Proof.
  intros (bss & H1 & ->) H2. exists (bss ++ [bs']). split.
  - apply Forall2_app; [done|]. by constructor.
  - rewrite concat_app. cbn. by rewrite app_nil_r.
Qed.
Lemma each_written_encodes {T} (f : T → enc) l bs : each_written f l bs → encodes (enc_each f l) bs.
Proof.
  intros (bss & H & ->). induction H as [|x bs l bss Hx Hl IH]; cbn; [apply encodes_ret|].
  by apply encodes_seq.
Qed.

Section arrays.
Context {R : Runtime}.

Lemma takes_loop {S} (I : Z → S → list byte → Prop) n (body : S → bdec S) s0 :
  0 ≤ n → I 0 s0 [] →
  (∀ k s c, 0 ≤ k < n → I k s c → takes (λ s' bs, I (k + 1) s' (c ++ bs)) (body s)) →
  takes (I n) (bloop n body s0).
Proof.
  intros Hn H0 Hb buf b s' buf' b' Hl. unfold bloop. rewrite iter_Z_nat.
  enough (∀ j k s c buf b, k + Z.of_nat j = n → 0 ≤ k → I k s c → len buf ≤ i64_max →
    iter_nat j (λ '(s, buf, b), body s buf b) (s, buf, b) = Ok (s', buf', b') →
    ∃ m bs, 0 ≤ m ∧ m + len buf' = len buf ∧ len bs ≤ m ∧
      (∀ rest, iter_nat j (λ '(s, buf, b), body s buf b) (s, bs ++ rest, b) = Ok (s', rest, b')) ∧
      I n s' (c ++ bs)) as H.
  { intros E. destruct (H (Z.to_nat n) 0 s0 [] buf b) as (m & bs & ? & ? & ? & Hr & Hi);
      [lia|lia|done|done|done|]. exists m, bs. split_and!; try done.
    intros rest. rewrite iter_Z_nat. apply Hr. }
  clear H0 Hl s0 buf b. induction j as [|j IH]; intros k s c buf b Hk Hk0 Hi Hl; cbn [iter_nat].
  - intros [= <- <- <-]. exists 0, []. rewrite app_nil_r. replace n with k by lia. by split_and!.
  - intros E. apply res_bind_ok in E as ([[s1 buf1] b1] & E1 & E2).
    destruct (Hb k s c ltac:(lia) Hi _ _ _ _ _ Hl E1) as (l1 & bs1 & ? & ? & ? & Hr1 & Hi1).
    destruct (IH (k + 1) s1 _ buf1 b1 ltac:(lia) ltac:(lia) Hi1 ltac:(lia) E2)
      as (l2 & bs2 & ? & ? & ? & Hr2 & Hi2).
    exists (l1 + l2), (bs1 ++ bs2). rewrite length_app, <- app_assoc in *.
    split_and!; try done; try lia. intros rest. rewrite <- app_assoc, Hr1. apply Hr2.
Qed.

Lemma takes_push {T} ty (v : Vec T) x :
  takes (λ v' bs, bs = [] ∧ items v' = items v ++ [x]) (bpush ty v x).
Proof.
  intros buf b v' buf' b' _ E. pose proof (bpush_ok _ _ _ _ _ _ _ _ E) as Hi.
  unfold bpush in *. destruct (push ty b v x) as [[b1 v1] [u|e]]; [|done].
  injection E as <- <- <-. by exists 0, [].
Qed.

(** What the two loops have in common: each round adds an element. *)
Definition grown {T} (P : T → Prop) (f : T → enc) (k : Z) (v : Vec T) (bs : list byte) : Prop :=
  len (items v) = k ∧ Forall P (items v) ∧ each_written f (items v) bs ∧ k ≤ len bs.

Lemma grown_nil {T} (P : T → Prop) (f : T → enc) ty : grown P f 0 (vec_new ty) [].
Proof. split_and!; try done. by exists []. Qed.

Lemma grown_push {T} (P : T → Prop) (f : T → enc) ty k (v : Vec T) x c bs :
  grown P f k v c → P x → encodes (f x) bs → bs ≠ [] →
  takes (λ v' bs', grown P f (k + 1) v' (c ++ bs ++ bs')) (bpush ty v x).
Proof.
  intros (? & ? & ? & ?) Hx Hw Hne. eapply takes_mono; [apply takes_push|].
  intros v' l _ [-> E]. unfold grown. rewrite E, app_nil_r, !length_app. cbn [length].
  assert (0 < length bs)%nat by (destruct bs; [done|cbn; lia]).
  split; [lia|]. split; [apply Forall_app; split; [done|by constructor]|].
  split; [by apply each_written_snoc|lia].
Qed.

(** An element that is never written in no bytes: on the way back, too, the
    loops make progress. *)
Definition never_empty {T} (f : T → enc) (P : T → Prop) (d : bdec T) : Prop :=
  ∀ x, P x → pairs1 (f x) d x.

Lemma never_empty_ne {T} (f : T → enc) (P : T → Prop) d x bs :
  never_empty f P d → P x → encodes (f x) bs → bs ≠ [].
Proof.
  intros H Hx He. destruct (H x Hx) as (bs' & Hn & He' & _).
  by rewrite (encodes_inj _ _ _ He He').
Qed.

Definition array_read {T} (f : T → enc) (P : T → Prop) (n : Z) (l : list T) (bs : list byte) : Prop :=
  len l = n ∧ n ≤ len bs ∧ Forall P l ∧ encodes (enc_each f l) bs.

Lemma takes_items {T} ty (f : T → enc) P (d : bdec T) n :
  settles f P d → never_empty f P d → 0 ≤ n → takes (array_read f P n) (get_items ty d n).
Proof.
  intros Hd Hne Hn.
  eapply takes_bind; [apply (takes_loop (grown P f)); [done|apply grown_nil|]|].
  - intros k v c _ Hg. eapply takes_bind; [exact Hd|]. cbn beta. intros x bs _ [Hx Hw].
    apply grown_push; [done..|]. by eapply never_empty_ne.
  - cbn beta. intros v bs _ (? & ? & ? & ?). apply takes_ret. rewrite app_nil_r.
    split_and!; try done. by apply each_written_encodes.
Qed.

Lemma takes_structs {T} ty (f : T → enc) P (d : bdec T) n :
  settles f P d → never_empty f P d → 0 ≤ n → takes (array_read f P n) (get_structs ty d n).
Proof.
  intros Hd Hne Hn.
  eapply takes_bind; [apply (takes_loop (grown P f)); [done|apply grown_nil|]|].
  - intros k v c _ Hg buf b v' buf' b' Hl E.
    apply bdec_bind_ok in E as (mark & ? & ? & [= <- <- <-] & E).
    apply bdec_bind_ok in E as (x & buf1 & b1 & E1 & E).
    apply bdec_bind_ok in E as ([] & ? & ? & Ep & E).
    destruct (Hd _ _ _ _ _ Hl E1) as (l1 & bs1 & ? & ? & ? & Hr1 & Hx & Hw).
    unfold bprogress in Ep. apply res_bind_ok in Ep as (? & _ & [= <- <-]).
    pose proof (never_empty_ne _ _ _ _ _ Hne Hx Hw) as Hb1.
    assert (len buf1 ≤ i64_max) as Hl1 by lia.
    destruct (grown_push P f ty k v x c bs1 Hg Hx Hw Hb1 _ _ _ _ _ Hl1 E)
      as (l2 & bs2 & ? & ? & ? & Hr2 & ?).
    exists (l1 + l2), (bs1 ++ bs2). rewrite length_app. split_and!; try done; try lia.
    intros rest. rewrite <- app_assoc. unfold bdec_bind, remaining. cbn [res_bind].
    rewrite Hr1. cbn [res_bind]. unfold bprogress, progress.
    destruct (Z.leb_spec (len (bs1 ++ bs2 ++ rest)) (len (bs2 ++ rest))) as [Hle|_]; [|apply Hr2].
    destruct bs1; [done|]. rewrite length_app in Hle. cbn [length] in Hle. lia.
  - cbn beta. intros v bs _ (? & ? & ? & ?). apply takes_ret. rewrite app_nil_r.
    split_and!; try done. by apply each_written_encodes.
Qed.

Lemma array_read_ok {T} flex (f : T → enc) (P : T → Prop) l n bs :
  count_ok flex (Some n) → array_read f P n l bs → len bs ≤ i64_max → arr_ok flex P l.
Proof.
  intros Hc (<- & ? & ? & _) ?. split; [|done]. unfold count_ok in Hc. destruct flex; int_lia.
Qed.

(** The four array shapes, from what their loop reads. *)
Lemma takes_array {T} flex (f : T → enc) (P : T → Prop) (loop : Z → bdec (list T)) :
  (∀ n, 0 ≤ n → takes (array_read f P n) (loop n)) →
  settles (put_flex_array flex f) (arr_ok flex P)
    (let* n := get_flex_array_len flex in
     match n with None => bdec_fail (InvalidLength (-1)) | Some n => loop n end).
Proof.
  intros H. eapply takes_bind; [apply settles_flex_array_len|]. cbn beta.
  intros [n|] bs _ [Hc Hw]; [|apply takes_fail].
  eapply takes_mono; [apply H; by destruct Hc|]. intros l bs' Hm Ha.
  split; [by eapply array_read_ok|]. destruct Ha as (Hn & _ & _ & He).
  apply encodes_seq; [by rewrite Hn|done].
Qed.

Lemma takes_nullable_array {T} flex null_ok field (f : T → enc) (P : T → Prop)
    (loop : Z → bdec (list T)) :
  (∀ n, 0 ≤ n → takes (array_read f P n) (loop n)) →
  settles (put_flex_nullable_array flex null_ok field f) (opt_valid null_ok (arr_ok flex P))
    (let* n := get_flex_array_len flex in
     match n with
     | None => if negb null_ok then bdec_fail (InvalidLength (-1)) else bdec_ret None
     | Some n => let* items := loop n in bdec_ret (Some items)
     end).
Proof.
  intros H. eapply takes_bind; [apply settles_flex_array_len|]. cbn beta.
  intros [n|] bs _ [Hc Hw].
  - eapply takes_bind; [apply H; by destruct Hc|]. cbn beta. intros l bs' Hm Ha.
    apply takes_ret. rewrite app_nil_r. split; [by eapply array_read_ok|].
    destruct Ha as (Hn & _ & _ & He). apply encodes_seq; [by rewrite Hn|done].
  - destruct null_ok; cbn [negb]; [|apply takes_fail]. apply takes_ret. rewrite app_nil_r.
    split; [done|]. change bs with ([] ++ bs). apply encodes_seq; [apply encodes_ret|done].
Qed.

Lemma settles_flex_structs {T} flex ty (f : T → enc) (d : bdec T) (P : T → Prop) :
  settles f P d → never_empty f P d →
  settles (put_flex_array flex f) (arr_ok flex P) (get_flex_structs flex ty d).
Proof. intros H1 H2. apply takes_array. intros n. by apply takes_structs. Qed.

Lemma settles_flex_items {T} flex ty (f : T → enc) (d : bdec T) (P : T → Prop) :
  settles f P d → never_empty f P d →
  settles (put_flex_array flex f) (arr_ok flex P) (get_flex_items flex ty d).
Proof. intros H1 H2. apply takes_array. intros n. by apply takes_items. Qed.

Lemma settles_flex_nullable_structs {T} flex null_ok field ty (f : T → enc) (d : bdec T)
    (P : T → Prop) :
  settles f P d → never_empty f P d →
  settles (put_flex_nullable_array flex null_ok field f) (opt_valid null_ok (arr_ok flex P))
    (get_flex_nullable_structs flex null_ok ty d).
Proof. intros H1 H2. apply takes_nullable_array. intros n. by apply takes_structs. Qed.

Lemma settles_flex_nullable_items {T} flex null_ok field ty (f : T → enc) (d : bdec T)
    (P : T → Prop) :
  settles f P d → never_empty f P d →
  settles (put_flex_nullable_array flex null_ok field f) (opt_valid null_ok (arr_ok flex P))
    (get_flex_nullable_items flex null_ok ty d).
Proof. intros H1 H2. apply takes_nullable_array. intros n. by apply takes_items. Qed.

(** *** The rest of the shapes *)

(** Any marker that is not negative reads as one, any that is as minus one. *)
Lemma settles_nullable_struct {T} (f : T → enc) (d : bdec T) (P : T → Prop) :
  settles f P d → settles (put_nullable_struct f) (opt_valid true P) (get_nullable_struct d).
Proof.
  intros H buf b o buf' b' Hl E. unfold get_nullable_struct in E.
  apply bdec_bind_ok in E as (z & buf1 & b1 & E1 & E). unfold lift in E1.
  apply res_bind_ok in E1 as ([z' buf2] & E1 & E1'). injection E1' as -> <- <-.
  destruct (gives_int 1 ltac:(lia) _ _ _ Hl E1) as (n & _ & ? & -> & _).
  assert (∀ m rest, is_i8 m → get_nullable_struct d (be_bytes 1 m ++ rest) b =
    (if m <? 0 then bdec_ret None else let* v := d in bdec_ret (Some v)) rest b) as Hm.
  { intros m rest Hm. unfold get_nullable_struct, bdec_bind at 1, lift. by rewrite gets_i8. }
  destruct (z <? 0).
  - injection E as <- <- <-. exists 1, (be_bytes 1 (-1)). split_and!; try done; try lia.
    intros rest. by rewrite Hm by int_lia.
  - apply bdec_bind_ok in E as (x & buf3 & b3 & E3 & E). injection E as <- <- <-.
    assert (len buf2 ≤ i64_max) as Hl2 by lia.
    destruct (H _ _ _ _ _ Hl2 E3) as (n & bs & ? & ? & ? & Hr & Hx & He).
    exists (1 + n), (be_bytes 1 1 ++ bs). rewrite length_app, be_bytes_length.
    split_and!; try done; try lia.
    + intros rest. rewrite <- app_assoc, Hm by int_lia. change (1 <? 0) with false. cbv iota.
      unfold bdec_bind. by rewrite Hr.
    + apply encodes_seq; [apply encodes_put_int|done].
Qed.

Lemma settles_flex_bytes flex :
  settles (put_flex_bytes flex) (bytes_ok flex) (get_flex_bytes flex).
Proof.
  eapply takes_bind; [apply settles_flex_nullable_bytes|]. cbn beta.
  intros [v|] bs _ [Hv Hw]; [|apply takes_fail]. apply takes_ret. rewrite app_nil_r.
  split; [done|]. by destruct flex.
Qed.

Lemma settles_checked_string null_ok field flex :
  settles (λ s, enc_guard (is_none s && negb null_ok) (NullField field) ;;
      put_flex_nullable_string flex s) (opt_valid null_ok (str_ok flex))
    (get_checked null_ok (get_flex_nullable_string flex)).
Proof.
  eapply takes_bind; [apply settles_flex_nullable_string|]. cbn beta. intros s bs _ [Hs Hw].
  destruct (is_none s && negb null_ok) eqn:E; [apply takes_fail|]. apply takes_ret.
  rewrite app_nil_r. split.
  - destruct s; [done|]. cbn in E. by destruct null_ok.
  - change bs with ([] ++ bs). apply encodes_seq; [rewrite E; apply encodes_ret|done].
Qed.

Lemma settles_if {A} c (w : A → enc) P x0 (d : bdec A) :
  (c = true → settles w P d) →
  settles (λ x, put_if c (w x)) (in_version c P x0) (get_if c x0 d).
Proof.
  unfold put_if, get_if, in_version. destruct c; intros H; [by apply H|].
  apply takes_ret. split; [done|apply encodes_ret].
Qed.

End arrays.

(** ** Tagged fields *)

Definition tags_size (fields : list RawTaggedField) : Z :=
  len (concat (tagged_bytes <$> fields)).

Lemma tags_size_app l k : tags_size (l ++ k) = tags_size l + tags_size k.
Proof. unfold tags_size. rewrite fmap_app, concat_app, length_app. lia. Qed.
Lemma tags_size_cons f l : tags_size (f :: l) = len (tagged_bytes f) + tags_size l.
Proof. unfold tags_size. cbn. rewrite length_app. lia. Qed.
Lemma tags_size_perm l k : l ≡ₚ k → tags_size l = tags_size k.
Proof. induction 1; rewrite ?tags_size_cons in *; lia. Qed.

Lemma tags_size_nonneg l : 0 ≤ tags_size l.
Proof. unfold tags_size. lia. Qed.
Lemma tags_size_length l : len l ≤ tags_size l.
Proof.
  induction l as [|f l IH]; [done|]. rewrite tags_size_cons. cbn [length].
  assert (1 ≤ len (tagged_bytes f)); [|lia]. unfold tagged_bytes. rewrite length_app.
  pose proof (varint_bytes_ne (tag f)). destruct (varint_bytes 10 (tag f)); [done|]. cbn [length]. lia.
Qed.
Lemma tags_size_data f l : f ∈ l → len (data f) ≤ tags_size l.
Proof.
  induction 1 as [f l|f g l _ IH]; rewrite tags_size_cons; [|lia].
  pose proof (tags_size_nonneg l). unfold tagged_bytes. rewrite !length_app. lia.
Qed.

Lemma varint_bytes_mono fuel : ∀ a b, 0 ≤ a ≤ b → len (varint_bytes fuel a) ≤ len (varint_bytes fuel b).
Proof.
  induction fuel as [|fuel IH]; intros a b Hab; cbn [varint_bytes]; [done|].
  destruct (Z.ltb_spec a 128), (Z.ltb_spec b 128); cbn [length]; try lia.
  assert (0 ≤ a / 128 ≤ b / 128).
  { split; [apply Z.div_pos; lia|apply Z.div_le_mono; lia]. }
  specialize (IH (a / 128) (b / 128)). lia.
Qed.

Lemma tagged_bytes_mono t bs bs' :
  len bs ≤ len bs' → len (tagged_bytes (mkRawTaggedField t bs)) ≤ len (tagged_bytes (mkRawTaggedField t bs')).
Proof.
  intros H. unfold tagged_bytes. cbn [tag data]. rewrite !length_app.
  pose proof (varint_bytes_mono 10 (len bs) (len bs')). lia.
Qed.

(** What a section of tagged fields costs. *)
Definition section_size (fields : list RawTaggedField) : Z :=
  len (varint_bytes 10 (len fields)) + tags_size fields.

Definition section_bytes (fields : list RawTaggedField) : list byte :=
  varint_bytes 10 (len fields) ++ concat (tagged_bytes <$> fields).

Lemma section_bytes_length fields : len (section_bytes fields) = section_size fields.
Proof. unfold section_bytes, section_size, tags_size. rewrite length_app. lia. Qed.

Section tags.
Context {R : Runtime}.

(** Two vectors a budget cannot tell apart. *)
Definition alike {T U} (v : Vec T) (u : Vec U) : Prop :=
  length (items v) = length (items u) ∧ capacity v = capacity u.

Lemma push_alike {T U} ty b (v : Vec T) (u : Vec U) x y b' v' :
  alike v u → push ty b v x = (b', v', Ok tt) →
  ∃ u', push ty b u y = (b', u', Ok tt) ∧ items u' = items u ++ [y] ∧ alike v' u'.
Proof.
  intros [Hl Hc] E. pose proof (push_spec _ _ _ _ _ _ _ E) as Hi. cbn in Hi.
  enough (∃ u', push ty b u y = (b', u', Ok tt) ∧ capacity v' = capacity u') as (u' & Eu & Hc').
  { exists u'. pose proof (push_spec _ _ _ _ _ _ _ Eu) as Hu. cbn in Hu.
    split; [done|]. split; [done|]. split; [|done]. rewrite Hi, Hu, !length_app. cbn. lia. }
  clear Hi. unfold push, grow_for, try_reserve_exact in *. rewrite <- Hl, <- Hc.
  destruct (len (items v) =? capacity v); [|injection E as <- <-; by eexists].
  destruct (size_of ty =? 0); [injection E as <- <-; by eexists|]. cbv zeta in *.
  destruct (grow b _ _) as [b1 [[]|]]; [|done].
  destruct (_ <=? _).
  - rewrite <- Hc. destruct (settle b1 _ _) as [b2 [[]|]]; [|done]. injection E as <- <-. by eexists.
  - destruct (alloc_exact _ _) as [cap|]; [|done]. cbn [capacity] in *.
    destruct (settle b1 _ _) as [b2 [[]|]]; [|done]. injection E as <- <-. by eexists.
Qed.

Lemma bpush_alike {T U} ty (v : Vec T) (u : Vec U) x y buf b v' buf' b' :
  alike v u → bpush ty v x buf b = Ok (v', buf', b') →
  ∃ u', (∀ rest, bpush ty u y rest b = Ok (u', rest, b')) ∧ items u' = items u ++ [y] ∧ alike v' u'.
Proof.
  unfold bpush. intros Ha E. destruct (push ty b v x) as [[b1 v1] [[]|e]] eqn:Ep; [|done].
  injection E as <- <- <-. destruct (push_alike _ _ _ _ _ y _ _ Ha Ep) as (u' & -> & ? & ?). eauto.
Qed.

(** One round of the loop accepts one field; in its place it would accept any
    field of the same tag, for the same budget. *)
Lemma tagged_step_again v p s' buf b buf' b' :
  len buf ≤ i64_max → tagged_field_step (v, p) buf b = Ok (s', buf', b') →
  ∃ f n, items s'.1 = items v ++ [f] ∧ tagged_ok f ∧ 0 ≤ n ∧ n + len buf' = len buf ∧
    len (tagged_bytes f) ≤ n ∧
    ∀ u f' rest, alike v u → tagged_ok f' → tag f' = tag f → ∃ u',
      tagged_field_step (u, p) (tagged_bytes f' ++ rest) b = Ok ((u', s'.2), rest, b') ∧
      items u' = items u ++ [f'] ∧ alike s'.1 u'.
Proof.
  intros Hl E. unfold tagged_field_step in E.
  apply bdec_bind_ok in E as (raw & buf1 & b1 & E1 & E).
  unfold lift in E1. apply res_bind_ok in E1 as ([raw' m1] & E1 & E1'). injection E1' as -> <- <-.
  destruct (gives_varint _ _ _ Hl E1) as (n1 & ? & ? & Hu1 & Hw1).
  apply bdec_bind_ok in E as (t & ? & ? & (Et & -> & ->)%lift_of_ok & E).
  unfold ok_or in Et. destruct (try_from 0 u32_max raw) eqn:Er; [|done]. injection Et as ->.
  apply try_from_Some in Er as [-> Ht].
  apply bdec_bind_ok in E as ([] & buf2 & b2 & E2 & E).
  assert (buf2 = m1 ∧ b2 = b ∧ ∀ rest, (match p with
      | Some previous => if raw <=? previous then bdec_fail (TaggedFieldOrder previous raw)
                         else bdec_ret tt
      | None => bdec_ret tt end : bdec unit) rest b = Ok (tt, rest, b)) as (-> & -> & Hp).
  { destruct p as [p|]; [destruct (raw <=? p); [done|]|]; by injection E2 as <- <-. }
  apply bdec_bind_ok in E as (raw_len & buf3 & b3 & E3 & E). unfold lift in E3.
  apply res_bind_ok in E3 as ([raw_len' m3] & E3 & E3'). injection E3' as -> <- <-.
  assert (len m1 ≤ i64_max) as Hl1 by lia.
  destruct (gives_varint _ _ _ Hl1 E3) as (n3 & ? & ? & Hu3 & Hw3).
  apply bdec_bind_ok in E as (n & ? & ? & (En & -> & ->)%lift_of_ok & E).
  apply len_from_inv in En as [En Hn].
  assert (n = raw_len) as -> by (destruct (try_from i64_min i64_max raw_len) eqn:Ei; cbn in En;
    [apply try_from_Some in Ei as [-> _]; done|lia]).
  apply bdec_bind_ok in E as ([] & ? & ? & E4 & E). unfold lift in E4.
  apply res_bind_ok in E4 as ([[] ?] & ([= ->] & Hb)%ensure_inv & E4'). injection E4' as <- <-.
  apply bdec_bind_ok in E as (bs & ? & ? & E5 & E). unfold lift in E5.
  apply res_bind_ok in E5 as ([bs' ?] & (-> & Hbs)%copy_inv & E5'); [|lia]. injection E5' as -> <- <-.
  apply bdec_bind_ok in E as (v' & ? & ? & E6 & E). injection E as <- <- <-. cbn [fst snd].
  pose proof (bpush_ok _ _ _ _ _ _ _ _ E6) as Hi.
  pose proof (bpush_buffer _ _ _ _ _ _ _ _ E6) as ->. rewrite length_app in *.
  exists (mkRawTaggedField raw bs), (n1 + n3 + len bs).
  split; [done|]. split; [split; cbn [tag data]; [done|lia]|]. split; [lia|]. split; [lia|].
  split; [unfold tagged_bytes; cbn [tag data]; rewrite !length_app, Hbs; lia|].
  intros u f' rest Ha [Ht' Hd'] Htag. cbn [tag] in Htag.
  destruct (bpush_alike _ _ _ _ f' _ _ _ _ _ Ha E6) as (u' & Hpush & Hi' & Ha').
  exists u'. split; [|done]. unfold tagged_field_step, tagged_bytes. rewrite <- !app_assoc.
  unfold bdec_bind at 1, lift at 1. rewrite gets_unsigned_varint by int_lia. cbn [res_bind].
  rewrite Htag. unfold bdec_bind at 1, lift at 1, dec_of at 1. rewrite try_from_in by int_lia.
  cbn [ok_or res_bind]. unfold bdec_bind at 1. rewrite Hp. cbn [res_bind].
  unfold bdec_bind at 1, lift at 1. rewrite gets_unsigned_varint by int_lia. cbn [res_bind].
  unfold bdec_bind at 1, lift at 1, dec_of at 1. rewrite (try_from_in i64_min) by int_lia.
  change (default (-1) (Some (len (data f')))) with (len (data f')).
  rewrite len_from_ok by int_lia. cbn [res_bind].
  unfold bdec_bind at 1, lift at 1. rewrite ensure_ok by (rewrite length_app; lia). cbn [res_bind].
  unfold bdec_bind at 1, lift at 1. rewrite gets_copy by done. cbn [res_bind].
  destruct f' as [t' d']. cbn [tag data] in *. subst t'. unfold bdec_bind. by rewrite Hpush.
Qed.

(** The loop, and the whole section: the tags and the number of fields are all
    the budget sees. *)
Lemma tagged_loop_again j : ∀ v p s' buf b buf' b',
  len buf ≤ i64_max →
  iter_nat j (λ '(s, buf, b), tagged_field_step s buf b) ((v, p), buf, b) = Ok (s', buf', b') →
  ∃ fs n, items s'.1 = items v ++ fs ∧ length fs = j ∧ Forall tagged_ok fs ∧ 0 ≤ n ∧
    n + len buf' = len buf ∧ tags_size fs ≤ n ∧
    ∀ u fs' rest, alike v u → Forall tagged_ok fs' → tag <$> fs' = tag <$> fs → ∃ u',
      iter_nat j (λ '(s, buf, b), tagged_field_step s buf b)
        ((u, p), concat (tagged_bytes <$> fs') ++ rest, b) = Ok ((u', s'.2), rest, b') ∧
      items u' = items u ++ fs' ∧ alike s'.1 u'.
Proof.
  induction j as [|j IH]; intros v p s' buf b buf' b' Hl; cbn [iter_nat].
  - intros [= <- <- <-]. exists [], 0. rewrite app_nil_r. split_and!; try done.
    intros u fs' rest Ha _ Htags. apply fmap_nil_inv in Htags as ->. exists u. by rewrite app_nil_r.
  - intros E. apply res_bind_ok in E as ([[[v1 p1] buf1] b1] & E1 & E2).
    destruct (tagged_step_again _ _ _ _ _ _ _ Hl E1) as (f & n1 & Hi1 & Hf & ? & ? & Hn1 & Hr1).
    assert (len buf1 ≤ i64_max) as Hl1 by lia.
    destruct (IH _ _ _ _ _ _ _ Hl1 E2) as (fs & n2 & Hi2 & Hj & Hfs & ? & ? & Hn2 & Hr2).
    cbn [fst snd] in *. exists (f :: fs), (n1 + n2). rewrite Hi2, Hi1, <- app_assoc, tags_size_cons.
    cbn [length]. split_and!; try done; try lia; [by constructor|].
    intros u fs' rest Ha Hok Htags. destruct fs' as [|f' fs']; [done|].
    rewrite !fmap_cons in Htags. injection Htags as Ht Htags. apply Forall_cons in Hok as [Hf' Hfs'].
    cbn [concat fmap list_fmap]. rewrite <- app_assoc.
    destruct (Hr1 u f' (concat (tagged_bytes <$> fs') ++ rest) Ha Hf' Ht) as (u1 & -> & Hu1 & Ha1).
    cbn [res_bind]. destruct (Hr2 u1 fs' rest Ha1 Hfs' Htags) as (u2 & -> & Hu2 & Ha2).
    exists u2. split; [done|]. rewrite Hu2, Hu1, <- app_assoc. done.
Qed.

Lemma tagged_fields_again buf b fields buf' b' :
  len buf ≤ i64_max → get_tagged_fields_with_budget buf b = Ok (fields, buf', b') →
  tags_ok fields ∧ ∃ n, 0 ≤ n ∧ n + len buf' = len buf ∧ section_size fields ≤ n ∧
    ∀ fields' rest, Forall tagged_ok fields' → tag <$> fields' = tag <$> fields →
      get_tagged_fields_with_budget (section_bytes fields' ++ rest) b = Ok (fields', rest, b').
Proof.
  intros Hl E. pose proof (get_tagged_fields_inv _ _ _ _ _ E) as [Hs _].
  apply bdec_bind_ok in E as (count & buf1 & b1 & E1 & E). unfold lift in E1.
  apply res_bind_ok in E1 as ([c m1] & E1 & E1'). injection E1' as -> <- <-.
  destruct (gives_varint _ _ _ Hl E1) as (n1 & ? & ? & Hu & Hw).
  apply bdec_bind_ok in E as (s & buf2 & b2 & E2 & E). injection E as <- <- <-.
  unfold bloop in E2. rewrite iter_Z_nat in E2. assert (len m1 ≤ i64_max) as Hl1 by lia.
  destruct (tagged_loop_again _ _ _ _ _ _ _ _ Hl1 E2) as (fs & n2 & Hi & Hj & Hfs & ? & ? & Hn & Hr).
  cbn [vec_new items app] in Hi. rewrite Hi in *.
  assert (len fs = count) as Hc by (destruct Hu; lia).
  split; [split_and!; [done|done|rewrite Hc; by destruct Hu]|].
  exists (n1 + n2). unfold section_size. rewrite Hc. split_and!; try lia.
  intros fields' rest Hok Htags.
  assert (length fields' = length fs) as Hlen.
  { apply (f_equal length) in Htags. by rewrite !length_fmap in Htags. }
  unfold get_tagged_fields_with_budget, section_bytes. rewrite <- app_assoc, Hlen, Hc.
  unfold bdec_bind at 1, lift. rewrite gets_unsigned_varint by done. cbn [res_bind].
  unfold bdec_bind, bloop. rewrite iter_Z_nat.
  destruct (Hr (vec_new "RawTaggedField") fields' rest) as (u' & -> & Hu' & _); [done..|].
  cbn [res_bind fst]. by rewrite Hu'.
Qed.

Lemma encodes_section fields :
  Forall tagged_ok fields → encodes (put_tagged_fields fields) (section_bytes fields).
Proof. apply encodes_tagged_fields. Qed.

Lemma settles_tagged : settles put_tagged_fields tags_ok get_tagged_fields_with_budget.
Proof.
  intros buf b fields buf' b' Hl E.
  destruct (tagged_fields_again _ _ _ _ _ Hl E) as [Hok (n & ? & ? & Hn & Hr)].
  exists n, (section_bytes fields). rewrite section_bytes_length.
  destruct Hok as (Hf & Hok). split_and!; try done.
  - intros rest. by apply Hr.
  - by apply encodes_section.
Qed.

End tags.

(** ** Tagged fields a message knows *)

Section known.
Context {R : Runtime}.

(** [tags_settle n hs ks V]: of at most [n] known tags, what the chain [hs]
    accepts satisfies [V]; the encoder's list [ks] of known fields writes back
    one field per field accepted, under the same tag and in no more bytes; and
    the chain takes that field as it took the first. *)
Record tags_settle {S} (n : nat) (hs : handlers S)
    (ks : S → list (result EncodeError (list RawTaggedField))) (V : S → Prop) : Prop := {
  ts_init : V (h_init hs) ∧ collect (ks (h_init hs)) = Ok [];
  ts_step : ∀ raw s rs k b s' b',
    len (data raw) ≤ i64_max → V s → collect (ks s) = Ok rs → tag raw ∉ tag <$> rs →
    h_step hs raw s = Some k → k b = Ok (s', b') →
    V s' ∧ tag raw ∈ h_tags hs ∧ ∃ rs' raw', collect (ks s') = Ok rs' ∧
      rs' ≡ₚ raw' :: rs ∧ tag raw' = tag raw ∧ len (data raw') ≤ len (data raw) ∧
      ∃ k', h_step hs raw' s = Some k' ∧ k' b = Ok (s', b');
  ts_other : ∀ raw s, h_step hs raw s = None → tag raw ∉ h_tags hs;
  ts_few : len (h_tags hs) ≤ Z.of_nat n;
}.

Lemma tags_settle_nil : tags_settle 0 no_tags (λ _, []) (λ _, True).
Proof. split; [done|by intros ??????? ?????| |done]. intros raw s _. apply not_elem_of_nil. Qed.

Lemma tagged_value_settles {A} (f : A → enc) P (d : bdec A) raw b v b' :
  settles f P d → len (data raw) ≤ i64_max → tagged_value d raw b = Ok (v, b') →
  P v ∧ ∃ bs, encodes (f v) bs ∧ len bs ≤ len (data raw) ∧
    tagged_value d (mkRawTaggedField (tag raw) bs) b = Ok (v, b').
Proof.
  intros Hd Hl E. unfold tagged_value in E. apply res_bind_ok in E as ([[v' rest] b2] & E & E').
  destruct rest; [|done]. injection E' as -> ->.
  destruct (Hd _ _ _ _ _ Hl E) as (m & bs & ? & Hm & Hle & Hr & HP & He). cbn [length] in Hm.
  split; [done|]. exists bs. split_and!; [done|lia|]. unfold tagged_value. cbn [data].
  specialize (Hr []). rewrite app_nil_r in Hr. by rewrite Hr.
Qed.

Lemma tags_settle_cons {A S} n c t (f : A → enc) (d : bdec A) (P : A → Prop) (hs : handlers S) ks V :
  (c = true → settles f P d) → tags_settle n hs ks V →
  tags_settle (Datatypes.S n) (known_tag c t d hs) (λ p, tag_field c t f p.1 :: ks p.2)
    (λ p, in_version c (tag_valid P f) None p.1 ∧ V p.2).
Proof.
  intros Hd [[Hv0 Hc0] Hstep Hother Hfew]. split.
  - cbn. rewrite Hc0. split; [by destruct c|]. by destruct c.
  - intros raw [o s] rs k b [o' s'] b' Hl [Ho HV] Hc Hfresh Hk E. cbn in *.
    apply res_bind_ok in Hc as (r & Hr & Hc). apply res_bind_ok in Hc as (rs0 & Hrs & Hc).
    injection Hc as <-. rewrite fmap_app, not_elem_of_app in Hfresh. destruct Hfresh as [Hf1 Hf2].
    destruct ((tag raw =? t) && c) eqn:Ht.
    + apply andb_true_iff in Ht as [<-%Z.eqb_eq ->]. injection Hk as <-. cbn in *.
      apply res_bind_ok in E as ([v b1] & E & E'). injection E' as <- <- <-.
      destruct (tagged_value_settles _ _ _ _ _ _ _ (Hd eq_refl) Hl E) as (HP & bs & He & Hle & Hr').
      destruct o as [w|]; cbn in Hr.
      { apply res_bind_ok in Hr as (bs0 & _ & Hr). injection Hr as <-.
        destruct Hf1. by apply list_elem_of_singleton. }
      injection Hr as <-. split; [split; [split; [done|]|done]|].
      { intros bs1 H1. rewrite (encodes_bytes _ _ He) in H1. injection H1 as <-. lia. }
      split; [apply elem_of_cons; by left|].
      exists (mkRawTaggedField (tag raw) bs :: rs0), (mkRawTaggedField (tag raw) bs).
      rewrite (encodes_bytes _ _ He), Hrs. split_and!; try done.
      eexists. cbn [tag]. rewrite Z.eqb_refl. split; [done|]. cbn. by rewrite Hr'.
    + destruct (h_step hs raw s) as [k0|] eqn:Hk0; [|done]. injection Hk as <-.
      apply res_bind_ok in E as ([s1 b1] & E & E'). injection E' as <- <- <-.
      destruct (Hstep _ _ _ _ _ _ _ Hl HV Hrs Hf2 Hk0 E)
        as (HV' & Hin & rs' & raw' & Hc' & Hp & Htag & Hle & k' & Hk' & E').
      split; [done|]. split; [destruct c; [apply elem_of_cons; by right|done]|].
      exists (r ++ rs'), raw'. rewrite Hr, Hc', Htag, Ht, Hk'. split_and!; try done.
      * rewrite Hp. by rewrite Permutation_middle.
      * eexists. split; [done|]. cbn. by rewrite E'.
  - intros raw [o s] Hk. cbn in *. destruct ((tag raw =? t) && c) eqn:Ht; [done|].
    destruct (h_step hs raw s) eqn:Hk0; [done|]. apply Hother in Hk0.
    destruct c; [|done]. apply not_elem_of_cons. split; [|done].
    intros E. by rewrite E, Z.eqb_refl in Ht.
  - cbn [known_tag h_tags]. unfold known_list. destruct c; cbn [length]; lia.
Qed.

(** What a dispatch accepts, field by field: [l'] is [l] with the data of the
    known fields as they will be written back, and is dispatched as [l] was. *)
Lemma dispatch_settles {S} n (hs : handlers S) ks V l : ∀ s v b rs s' v' b',
  tags_settle n hs ks V → dispatch hs l s v b = Ok (s', v', b') →
  Forall tagged_ok l → NoDup (tag <$> rs ++ l) → V s → collect (ks s) = Ok rs →
  V s' ∧ ∃ l' rs', collect (ks s') = Ok rs' ∧
    items v' = items v ++ filter (λ r, tag r ∉ h_tags hs) l' ∧
    filter (λ r, tag r ∉ h_tags hs) l' ++ rs' ≡ₚ l' ++ rs ∧
    tag <$> l' = tag <$> l ∧ Forall tagged_ok l' ∧ tags_size l' ≤ tags_size l ∧
    dispatch hs l' s v b = Ok (s', v', b').
Proof.
  induction l as [|raw l IH]; intros s v b rs s' v' b' Hts E Hok Hnd HV Hc.
  { injection E as <- <- <-. split; [done|]. exists [], rs. rewrite app_nil_r. by split_and!. }
  apply Forall_cons in Hok as [[Hu Hraw] Hok].
  assert ((tag raw ∉ tag <$> rs) ∧ NoDup (tag <$> rs ++ l)) as [Hfresh Hnd'].
  { rewrite <- Permutation_middle, fmap_cons, fmap_app in Hnd. apply NoDup_cons in Hnd as [Hn ?].
    rewrite not_elem_of_app in Hn. rewrite fmap_app. by destruct Hn. }
  cbn [dispatch] in E. destruct (h_step hs raw s) as [k|] eqn:Hk.
  - apply res_bind_ok in E as ([s1 b1] & E1 & E).
    destruct (ts_step _ _ _ _ Hts _ _ _ _ _ _ _ Hraw HV Hc Hfresh Hk E1)
      as (HV1 & Hin & rs1 & raw' & Hc1 & Hp1 & Htag & Hle & k' & Hk' & E1').
    destruct (IH s1 v b1 rs1 s' v' b' Hts E Hok) as (HV' & l' & rs' & Hc' & Hi & Hp & Ht & Hok' & Hsz & Er);
      [|done|done|].
    { rewrite Hp1. rewrite <- Permutation_middle, fmap_cons in Hnd.
      by rewrite <- app_comm_cons, fmap_cons, Htag. }
    split; [done|]. exists (raw' :: l'), rs'.
    rewrite filter_cons, decide_False by (rewrite Htag; tauto).
    rewrite !fmap_cons, Ht, Htag, !tags_size_cons. split_and!; try done.
    + rewrite Hp, Hp1. by rewrite <- app_comm_cons, Permutation_middle.
    + constructor; [|done]. split; [by rewrite Htag|lia].
    + destruct raw as [t bs], raw' as [t' bs']. cbn [tag] in Htag. subst t'.
      pose proof (tagged_bytes_mono t bs' bs Hle). lia.
    + cbn [dispatch]. rewrite Hk'. by rewrite E1'.
  - pose proof (ts_other _ _ _ _ Hts _ _ Hk) as Hout.
    destruct (push "RawTaggedField" b v raw) as [[b1 v1] [[]|e]] eqn:Epush; [|done].
    pose proof (push_spec _ _ _ _ _ _ _ Epush) as Hv. cbn in Hv.
    destruct (IH s v1 b1 rs s' v' b' Hts E Hok Hnd' HV Hc)
      as (HV' & l' & rs' & Hc' & Hi & Hp & Ht & Hok' & Hsz & Er).
    split; [done|]. exists (raw :: l'), rs'. rewrite filter_cons, decide_True by done.
    rewrite !fmap_cons, Ht, !tags_size_cons. split_and!; try done.
    + by rewrite Hi, Hv, <- app_assoc.
    + cbn [app]. by rewrite Hp.
    + by constructor.
    + lia.
    + cbn [dispatch]. by rewrite Hk, Epush.
Qed.

Lemma tags_ascending_fmap l : tags_ascending l ↔ StronglySorted Z.lt (tag <$> l).
Proof.
  unfold tags_ascending. induction l as [|f l IH]; [split; constructor|].
  rewrite fmap_cons, !StronglySorted_cons, IH, Forall_fmap. done.
Qed.

Lemma settles_known_tags {S} k (hs : handlers S) ks V :
  tags_settle k hs ks V → Z.of_nat k ≤ i64_max →
  settles (λ p, put_known_tags p.2 (ks p.1)) (λ p, V p.1 ∧ unknown_ok (h_tags hs) p.2)
    (get_known_tags hs).
Proof.
  intros Hts Hk buf b [s unknown] buf' b' Hl E. pose proof (ts_few _ _ _ _ Hts) as Hfew.
  unfold get_known_tags in E. apply bdec_bind_ok in E as (raws & buf1 & b1 & E1 & E).
  destruct (tagged_fields_again _ _ _ _ _ Hl E1) as [(Hok & Hs & _) (n & ? & ? & Hn & Hr)].
  apply res_bind_ok in E as ([[s1 v] b2] & E & E'). injection E' as -> <- <- <-.
  destruct (ts_init _ _ _ _ Hts) as [HV0 Hc0].
  assert (NoDup (tag <$> [] ++ raws)) as Hnd by by apply ascending_nodup.
  destruct (dispatch_settles _ _ _ _ _ _ _ _ _ _ _ _ Hts E Hok Hnd HV0 Hc0)
    as (HV & l' & rs & Hc & Hi & Hp & Ht & Hok' & Hsz & Hd).
  rewrite app_nil_r in Hp. cbn [vec_new items app] in Hi.
  set (new := filter (λ r, tag r ∉ h_tags hs) l') in *.
  assert (len l' = len raws) as Hlen.
  { apply (f_equal length) in Ht. rewrite !length_fmap in Ht. lia. }
  assert (tags_ascending l') as Hs' by (apply tags_ascending_fmap; rewrite Ht; by apply tags_ascending_fmap).
  assert (sort_by_tag (new ++ rs) = l') as Hsort.
  { apply ascending_unique; [|done|by rewrite sort_perm]. apply sort_ascending.
    rewrite Hp. by apply ascending_nodup. }
  exists n, (section_bytes l'). rewrite section_bytes_length. unfold section_size in *.
  rewrite Hlen. split_and!; try done; try lia.
  - intros rest. unfold get_known_tags, bdec_bind. rewrite Hr by done. cbn [res_bind].
    by rewrite Hd.
  - cbn [fst snd]. rewrite Hi. split_and!.
    + apply Forall_forall. intros r [_ Hin]%list_elem_of_filter.
      by apply (proj1 (Forall_forall _ _) Hok').
    + by apply ascending_filter.
    + apply Forall_forall. by intros r [Hin _]%list_elem_of_filter.
    + pose proof (length_filter (λ r, tag r ∉ h_tags hs) l') as Hf. fold new in Hf.
      pose proof (tags_size_length raws). int_lia.
  - cbn [fst snd]. intros buf'. unfold put_known_tags. rewrite Hc, Hi, Hsort. by apply encodes_section.
Qed.

End known.

(** ** Automation

    The hint database [settles] has a lemma per shape; [settle] walks a decoder
    field by field with it, and at the end reads the struct's validity and its
    encoder off what it met, in that order. *)

(** A field's representability, marked to be found in order. *)
Definition kept (P : Prop) : Prop := P.

Lemma settles_field {R : Runtime} {A B} (w : A → enc) (P : A → Prop) (Q : B → list byte → Prop)
    (d : bdec A) (k : A → bdec B) :
  settles w P d →
  (∀ x bs, kept (P x) → encodes (w x) bs → takes (λ y bs', Q y (bs ++ bs')) (k x)) →
  takes Q (let* x := d in k x).
Proof. intros H1 H2. eapply takes_bind; [exact H1|]. cbn beta. intros x n _ [HP Hw]. by apply H2. Qed.

Lemma in_version_impl {A} c (P P' : A → Prop) x0 x :
  in_version c P x0 x → (P x → P' x) → in_version c P' x0 x.
Proof. unfold in_version. destruct c; auto. Qed.

#[export] Hint Resolve settles_i8 settles_i16 settles_i32 settles_i64 settles_bool settles_uuid
  settles_flex_string settles_flex_nullable_string settles_nullable_string
  settles_flex_nullable_bytes settles_flex_bytes settles_checked_string
  settles_flex_structs settles_flex_items settles_flex_nullable_structs
  settles_flex_nullable_items settles_nullable_struct settles_tagged : settles.
#[export] Hint Extern 5 (never_empty _ _ _) => unfold never_empty; field : settles.

Ltac settle_tags :=
  lazymatch goal with
  | |- settles _ _ (get_known_tags ?hs) =>
      eapply settles_known_tags; [repeat first [apply tags_settle_nil|
        eapply tags_settle_cons; [intros ?; eauto 6 with settles nocore|]] |done]
  end.
Ltac settle_one :=
  lazymatch goal with
  | |- settles _ _ (get_if _ _ _) => eapply settles_if; intros ?; settle_one
  | |- settles _ _ (get_known_tags _) => settle_tags
  | |- _ => solve [eauto 6 with settles nocore]
  end.
Ltac settle_kept H :=
  first [ exact H
        | refine (in_version_impl _ _ _ _ _ H _); let V := fresh in
          intros V; split_valid;
          repeat lazymatch goal with |- _ ∧ _ => split end; assumption ].
Ltac settle_valid :=
  repeat match reverse goal with
  | H : kept _ |- _ ∧ _ => split; [settle_kept H|clear H]
  end;
  match reverse goal with H : kept _ |- _ => settle_kept H end.
Ltac settle_written :=
  repeat match reverse goal with
  | H : encodes _ _ |- encodes (_ ;; _) _ => apply (encodes_seq _ _ _ _ H); clear H
  end;
  apply encodes_ret.
Ltac settle_fields :=
  lazymatch goal with
  | |- takes _ (bdec_bind _ _) =>
      eapply settles_field; [settle_one|];
      let x := fresh "x" in let bs := fresh "bs" in let HP := fresh "HP" in let HW := fresh "HW" in
      intros x bs HP HW; settle_fields
  | |- takes _ (match ?x with _ => _ end) => destruct x; settle_fields
  | |- takes _ (bdec_ret _) => apply takes_ret; split; [settle_valid|settle_written]
  end.
Ltac settle := unfold settles; cbv beta; settle_fields.
