(* ===== verification/MessageTrait.v ===== *)
(** * The trait every message implements ([odradek-protocol/src/message.rs])

    What a client, a proxy or a dispatch loop may assume of a message type it
    does not know: its place in the api-key registry, and an encoder and a
    decoder that agree on every representable value at every supported
    version.  The generated files give the instances. *)
From S2P Require Import Prelude Budget Codec Wire Fields KnownTags Settles.

(** [std]'s trait, which the generated files derive or write out. *)
Class Default (M : Type) : Type := default_value : M.

Module Message.

Class Message (M : Type) : Type := mkMessage {
  API_KEY : Z;
  MIN_VERSION : Z;
  MAX_VERSION : Z;
  encode : Z → M → enc;
  decode_with_budget : ∀ {R : Runtime}, Z → bdec M;
  (** [None] for a message with no such field, the trait's default. *)
  throttle_time_ms : M → option Z;
  (** What a value must satisfy to be representable at a version. *)
  valid : Z → M → Prop;
  agrees : ∀ (R : Runtime) version m,
    MIN_VERSION ≤ version ≤ MAX_VERSION → valid version m →
    pairs (encode version m) (decode_with_budget version) m;
  settled : ∀ (R : Runtime) version,
    settles (encode version) (valid version) (decode_with_budget version);
}.

Section derived.
Context {M : Type} `{Message M} {R : Runtime}.

Definition decode_with_limits (version : Z) : Limits → dec M :=
  with_limits (decode_with_budget version).
Definition decode (version : Z) : dec M := with_default_limits (decode_with_budget version).

(** The two entry points of a client that knows the message only by its
    trait: what it encodes, any peer decodes, and nothing else. *)
Lemma roundtrip version m :
  MIN_VERSION ≤ version ≤ MAX_VERSION → valid version m →
  ∃ bs, enc_bytes (encode version m) = Ok bs ∧
    (∀ rest l, decode_with_limits version l (bs ++ rest) = Ok (m, rest) ∨
       ∃ e, decode_with_limits version l (bs ++ rest) = Err e ∧ is_alloc_error e) ∧
    (reliable R → ∀ rest, decode_with_limits version Limits.UNLIMITED (bs ++ rest) = Ok (m, rest)).
Proof. intros Hv Hm. by apply pairs_entry, agrees. Qed.

(** Whatever bytes it came from, a value that was accepted is written back in no
    more of them; the same limits read it again, unless they shrank with the
    input, and any limits do unless they refuse an allocation. *)
Lemma one_pass version l input m rest :
  MIN_VERSION ≤ version ≤ MAX_VERSION → len input ≤ i64_max →
  decode_with_limits version l input = Ok (m, rest) →
  ∃ out, encodes (encode version m) out ∧ len out + len rest ≤ len input ∧
    (∀ l' more, Limits.budget l' (len (out ++ more)) = Limits.budget l (len input) →
       decode_with_limits version l' (out ++ more) = Ok (m, more)) ∧
    (∀ l' more, decode_with_limits version l' (out ++ more) = Ok (m, more) ∨
       ∃ e, decode_with_limits version l' (out ++ more) = Err e ∧ is_alloc_error e) ∧
    (reliable R → ∀ more, decode_with_limits version Limits.UNLIMITED (out ++ more) = Ok (m, more)).
Proof.
  intros Hv Hl E. unfold decode_with_limits, with_limits in E.
  apply res_bind_ok in E as ([[m' rest'] b'] & E & E'). injection E' as -> ->.
  destruct (settled R version _ _ _ _ _ Hl E) as (n & out & ? & ? & ? & Hr & Hval & He).
  destruct (pairs_entry _ _ _ (agrees R version m Hv Hval)) as (bs & Hbs & Hany & Hunl).
  rewrite (encodes_bytes _ _ He) in Hbs. injection Hbs as <-.
  exists out. split; [done|]. split; [lia|]. split; [|split; [intros l' more; apply Hany|done]].
  intros l' more Hb. unfold decode_with_limits, with_limits. by rewrite Hb, Hr.
Qed.

(** Two values never share an encoding. *)
Lemma encode_inj version m1 m2 bs :
  MIN_VERSION ≤ version ≤ MAX_VERSION → valid version m1 → valid version m2 →
  enc_bytes (encode version m1) = Ok bs → enc_bytes (encode version m2) = Ok bs → m1 = m2.
Proof using Type.
  intros Hv H1 H2 E1 E2.
  destruct (pairs_entry _ _ _ (agrees plain_runtime version m1 Hv H1)) as (bs1 & F1 & _ & D1).
  destruct (pairs_entry _ _ _ (agrees plain_runtime version m2 Hv H2)) as (bs2 & F2 & _ & D2).
  assert (bs1 = bs2) as <- by congruence.
  specialize (D1 plain_reliable []). specialize (D2 plain_reliable []). congruence.
Qed.

End derived.
End Message.

Export Message (Message).
