(* ===== verification/MsgConnection.v ===== *)
(** * Header, version and SASL messages

    [request_header.rs], [response_header.rs], [api_versions_request.rs],
    [api_versions_response.rs], [sasl_handshake_request.rs], [sasl_handshake_response.rs],
    [sasl_authenticate_request.rs], [sasl_authenticate_response.rs]
    of [odradek-protocol/src/messages/]: each message a Module named after its
    file, each struct a Module with its record [t], its defaults, its encoder and
    decoder, what makes a value representable at a version ([valid]) and the
    agreement of the two. *)
From S2P Require Import Prelude Budget Codec Wire Fields KnownTags Settles MessageTrait.

(** ** Headers *)

(** ** [request_header.rs] *)

Module request_header.

Definition is_flexible (version : Z) : bool := version >=? 2.

Module RequestHeader.

Record t : Type := mk {
  request_api_key : Z;
  request_api_version : Z;
  correlation_id : Z;
  client_id : option string;
  unknown_tagged_fields : list RawTaggedField;
}.
#[global] Instance t_eq_dec : EqDecision t.
Proof. solve_decision. Defined.

Definition default : t := {|
  request_api_key := 0;
  request_api_version := 0;
  correlation_id := 0;
  client_id := (Some "");
  unknown_tagged_fields := [] |}.

Definition MIN_VERSION : Z := 1.
Definition MAX_VERSION : Z := 2.

Definition encode (version : Z) (x : t) : enc :=
  let flex := is_flexible version in
  put_i16 (request_api_key x) ;;
  put_i16 (request_api_version x) ;;
  put_i32 (correlation_id x) ;;
  put_nullable_string (client_id x) ;;
  put_if flex (put_tagged_fields (unknown_tagged_fields x)) ;;
  enc_ret.

Section decode.
Context {R : Runtime}.

Definition decode_with_budget (version : Z) : bdec t :=
  let flex := is_flexible version in
  let* request_api_key := lift get_i16 in
  let* request_api_version := lift get_i16 in
  let* correlation_id := lift get_i32 in
  let* client_id := lift get_nullable_string in
  let* unknown_tagged_fields := get_if flex [] get_tagged_fields_with_budget in
  bdec_ret (mk request_api_key request_api_version correlation_id client_id unknown_tagged_fields).

Definition decode_with_limits (version : Z) : Limits → dec t :=
  with_limits (decode_with_budget version).
Definition decode (version : Z) : dec t := with_default_limits (decode_with_budget version).

End decode.

Definition valid (version : Z) (x : t) : Prop :=
  let flex := is_flexible version in
  is_i16 (request_api_key x) ∧
  is_i16 (request_api_version x) ∧
  is_i32 (correlation_id x) ∧
  opt_valid true (str_ok false) (client_id x) ∧
  in_version flex tags_ok [] (unknown_tagged_fields x).

Lemma request_header_RequestHeader_agrees {R : Runtime} version x :
  valid version x → pairs (encode version x) (decode_with_budget version) x.
Proof.
  unfold valid, encode, decode_with_budget, is_flexible. cbv zeta. agree. by destruct x.
Qed.
#[global] Hint Resolve request_header_RequestHeader_agrees : fields.

Lemma request_header_RequestHeader_settles {R : Runtime} version :
  settles (encode version) (valid version) (decode_with_budget version).
Proof. unfold valid, encode, decode_with_budget, is_flexible. cbv zeta. settle. Qed.
#[global] Hint Resolve request_header_RequestHeader_settles : settles.

End RequestHeader.

End request_header.

(** ** [response_header.rs] *)

Module response_header.

Definition is_flexible (version : Z) : bool := version >=? 1.

Module ResponseHeader.

Record t : Type := mk {
  correlation_id : Z;
  unknown_tagged_fields : list RawTaggedField;
}.
#[global] Instance t_eq_dec : EqDecision t.
Proof. solve_decision. Defined.

Definition default : t := {|
  correlation_id := 0;
  unknown_tagged_fields := [] |}.

Definition MIN_VERSION : Z := 0.
Definition MAX_VERSION : Z := 1.

Definition encode (version : Z) (x : t) : enc :=
  let flex := is_flexible version in
  put_i32 (correlation_id x) ;;
  put_if flex (put_tagged_fields (unknown_tagged_fields x)) ;;
  enc_ret.

Section decode.
Context {R : Runtime}.

Definition decode_with_budget (version : Z) : bdec t :=
  let flex := is_flexible version in
  let* correlation_id := lift get_i32 in
  let* unknown_tagged_fields := get_if flex [] get_tagged_fields_with_budget in
  bdec_ret (mk correlation_id unknown_tagged_fields).

Definition decode_with_limits (version : Z) : Limits → dec t :=
  with_limits (decode_with_budget version).
Definition decode (version : Z) : dec t := with_default_limits (decode_with_budget version).

End decode.

Definition valid (version : Z) (x : t) : Prop :=
  let flex := is_flexible version in
  is_i32 (correlation_id x) ∧
  in_version flex tags_ok [] (unknown_tagged_fields x).

Lemma response_header_ResponseHeader_agrees {R : Runtime} version x :
  valid version x → pairs (encode version x) (decode_with_budget version) x.
Proof.
  unfold valid, encode, decode_with_budget, is_flexible. cbv zeta. agree. by destruct x.
Qed.
#[global] Hint Resolve response_header_ResponseHeader_agrees : fields.

Lemma response_header_ResponseHeader_settles {R : Runtime} version :
  settles (encode version) (valid version) (decode_with_budget version).
Proof. unfold valid, encode, decode_with_budget, is_flexible. cbv zeta. settle. Qed.
#[global] Hint Resolve response_header_ResponseHeader_settles : settles.

End ResponseHeader.

End response_header.

(** ** Version negotiation *)

(** ** [api_versions_request.rs] *)

Module api_versions_request.

Definition is_flexible (version : Z) : bool := version >=? 3.

Module ApiVersionsRequest.

Record t : Type := mk {
  client_software_name : string;
  client_software_version : string;
  unknown_tagged_fields : list RawTaggedField;
}.
#[global] Instance t_eq_dec : EqDecision t.
Proof. solve_decision. Defined.

Definition default : t := {|
  client_software_name := "";
  client_software_version := "";
  unknown_tagged_fields := [] |}.

Definition API_KEY : Z := 18.
Definition MIN_VERSION : Z := 0.
Definition MAX_VERSION : Z := 4.

Definition encode (version : Z) (x : t) : enc :=
  let flex := is_flexible version in
  put_if (version >=? 3) (put_flex_string flex (client_software_name x)) ;;
  put_if (version >=? 3) (put_flex_string flex (client_software_version x)) ;;
  put_if flex (put_tagged_fields (unknown_tagged_fields x)) ;;
  enc_ret.

Section decode.
Context {R : Runtime}.

Definition decode_with_budget (version : Z) : bdec t :=
  let flex := is_flexible version in
  let* client_software_name := get_if (version >=? 3) "" (get_flex_string flex) in
  let* client_software_version := get_if (version >=? 3) "" (get_flex_string flex) in
  let* unknown_tagged_fields := get_if flex [] get_tagged_fields_with_budget in
  bdec_ret (mk client_software_name client_software_version unknown_tagged_fields).

Definition decode_with_limits (version : Z) : Limits → dec t :=
  with_limits (decode_with_budget version).
Definition decode (version : Z) : dec t := with_default_limits (decode_with_budget version).

End decode.

Definition valid (version : Z) (x : t) : Prop :=
  let flex := is_flexible version in
  in_version (version >=? 3) (str_ok flex) "" (client_software_name x) ∧
  in_version (version >=? 3) (str_ok flex) "" (client_software_version x) ∧
  in_version flex tags_ok [] (unknown_tagged_fields x).

Lemma api_versions_request_ApiVersionsRequest_agrees {R : Runtime} version x :
  valid version x → pairs (encode version x) (decode_with_budget version) x.
Proof.
  unfold valid, encode, decode_with_budget, is_flexible. cbv zeta. agree. by destruct x.
Qed.
#[global] Hint Resolve api_versions_request_ApiVersionsRequest_agrees : fields.

Lemma api_versions_request_ApiVersionsRequest_settles {R : Runtime} version :
  settles (encode version) (valid version) (decode_with_budget version).
Proof. unfold valid, encode, decode_with_budget, is_flexible. cbv zeta. settle. Qed.
#[global] Hint Resolve api_versions_request_ApiVersionsRequest_settles : settles.

End ApiVersionsRequest.

Lemma ApiVersionsRequest_agrees (R : Runtime) version x :
  ApiVersionsRequest.MIN_VERSION ≤ version ≤ ApiVersionsRequest.MAX_VERSION → ApiVersionsRequest.valid version x →
  pairs (ApiVersionsRequest.encode version x) (ApiVersionsRequest.decode_with_budget version) x.
Proof.
  intros _ ?. by apply ApiVersionsRequest.api_versions_request_ApiVersionsRequest_agrees.
Qed.

#[global] Instance ApiVersionsRequest_Message : Message ApiVersionsRequest.t := {|
  Message.API_KEY := ApiVersionsRequest.API_KEY;
  Message.MIN_VERSION := ApiVersionsRequest.MIN_VERSION;
  Message.MAX_VERSION := ApiVersionsRequest.MAX_VERSION;
  Message.encode := ApiVersionsRequest.encode;
  Message.decode_with_budget := @ApiVersionsRequest.decode_with_budget;
  Message.throttle_time_ms := λ _, None;
  Message.valid := ApiVersionsRequest.valid;
  Message.agrees := ApiVersionsRequest_agrees;
  Message.settled := @ApiVersionsRequest.api_versions_request_ApiVersionsRequest_settles |}.
#[global] Instance ApiVersionsRequest_Default : Default ApiVersionsRequest.t := ApiVersionsRequest.default.

End api_versions_request.

(** ** [api_versions_response.rs] *)

Module api_versions_response.

Definition is_flexible (version : Z) : bool := version >=? 3.

Module ApiVersion.

Record t : Type := mk {
  api_key : Z;
  min_version : Z;
  max_version : Z;
  unknown_tagged_fields : list RawTaggedField;
}.
#[global] Instance t_eq_dec : EqDecision t.
Proof. solve_decision. Defined.

Definition default : t := {|
  api_key := 0;
  min_version := 0;
  max_version := 0;
  unknown_tagged_fields := [] |}.

Definition encode (version : Z) (x : t) : enc :=
  let flex := is_flexible version in
  put_i16 (api_key x) ;;
  put_i16 (min_version x) ;;
  put_i16 (max_version x) ;;
  put_if flex (put_tagged_fields (unknown_tagged_fields x)) ;;
  enc_ret.

Section decode.
Context {R : Runtime}.

Definition decode_with_budget (version : Z) : bdec t :=
  let flex := is_flexible version in
  let* api_key := lift get_i16 in
  let* min_version := lift get_i16 in
  let* max_version := lift get_i16 in
  let* unknown_tagged_fields := get_if flex [] get_tagged_fields_with_budget in
  bdec_ret (mk api_key min_version max_version unknown_tagged_fields).

Definition decode_with_limits (version : Z) : Limits → dec t :=
  with_limits (decode_with_budget version).
Definition decode (version : Z) : dec t := with_default_limits (decode_with_budget version).

End decode.

Definition valid (version : Z) (x : t) : Prop :=
  let flex := is_flexible version in
  is_i16 (api_key x) ∧
  is_i16 (min_version x) ∧
  is_i16 (max_version x) ∧
  in_version flex tags_ok [] (unknown_tagged_fields x).

Lemma api_versions_response_ApiVersion_agrees {R : Runtime} version x :
  valid version x → pairs1 (encode version x) (decode_with_budget version) x.
Proof.
  unfold valid, encode, decode_with_budget, is_flexible. cbv zeta. agree1; by destruct x.
Qed.
#[global] Hint Resolve api_versions_response_ApiVersion_agrees : fields.

Lemma api_versions_response_ApiVersion_settles {R : Runtime} version :
  settles (encode version) (valid version) (decode_with_budget version).
Proof. unfold valid, encode, decode_with_budget, is_flexible. cbv zeta. settle. Qed.
#[global] Hint Resolve api_versions_response_ApiVersion_settles : settles.

End ApiVersion.

Module SupportedFeatureKey.

Record t : Type := mk {
  name : string;
  min_version : Z;
  max_version : Z;
  unknown_tagged_fields : list RawTaggedField;
}.
#[global] Instance t_eq_dec : EqDecision t.
Proof. solve_decision. Defined.

Definition default : t := {|
  name := "";
  min_version := 0;
  max_version := 0;
  unknown_tagged_fields := [] |}.

Definition encode (version : Z) (x : t) : enc :=
  let flex := is_flexible version in
  put_if (version >=? 3) (put_flex_string flex (name x)) ;;
  put_if (version >=? 3) (put_i16 (min_version x)) ;;
  put_if (version >=? 3) (put_i16 (max_version x)) ;;
  put_if flex (put_tagged_fields (unknown_tagged_fields x)) ;;
  enc_ret.

Section decode.
Context {R : Runtime}.

Definition decode_with_budget (version : Z) : bdec t :=
  let flex := is_flexible version in
  let* name := get_if (version >=? 3) "" (get_flex_string flex) in
  let* min_version := get_if (version >=? 3) 0 (lift get_i16) in
  let* max_version := get_if (version >=? 3) 0 (lift get_i16) in
  let* unknown_tagged_fields := get_if flex [] get_tagged_fields_with_budget in
  bdec_ret (mk name min_version max_version unknown_tagged_fields).

Definition decode_with_limits (version : Z) : Limits → dec t :=
  with_limits (decode_with_budget version).
Definition decode (version : Z) : dec t := with_default_limits (decode_with_budget version).

End decode.

Definition valid (version : Z) (x : t) : Prop :=
  let flex := is_flexible version in
  in_version (version >=? 3) (str_ok flex) "" (name x) ∧
  in_version (version >=? 3) is_i16 0 (min_version x) ∧
  in_version (version >=? 3) is_i16 0 (max_version x) ∧
  in_version flex tags_ok [] (unknown_tagged_fields x).

Lemma api_versions_response_SupportedFeatureKey_agrees {R : Runtime} version x :
  3 ≤ version →
  valid version x → pairs1 (encode version x) (decode_with_budget version) x.
Proof.
  intros ?. unfold valid, encode, decode_with_budget, is_flexible. cbv zeta. agree1; by destruct x.
Qed.
#[global] Hint Resolve api_versions_response_SupportedFeatureKey_agrees : fields.

Lemma api_versions_response_SupportedFeatureKey_settles {R : Runtime} version :
  settles (encode version) (valid version) (decode_with_budget version).
Proof. unfold valid, encode, decode_with_budget, is_flexible. cbv zeta. settle. Qed.
#[global] Hint Resolve api_versions_response_SupportedFeatureKey_settles : settles.

End SupportedFeatureKey.

Module FinalizedFeatureKey.

Record t : Type := mk {
  name : string;
  max_version_level : Z;
  min_version_level : Z;
  unknown_tagged_fields : list RawTaggedField;
}.
#[global] Instance t_eq_dec : EqDecision t.
Proof. solve_decision. Defined.

Definition default : t := {|
  name := "";
  max_version_level := 0;
  min_version_level := 0;
  unknown_tagged_fields := [] |}.

Definition encode (version : Z) (x : t) : enc :=
  let flex := is_flexible version in
  put_if (version >=? 3) (put_flex_string flex (name x)) ;;
  put_if (version >=? 3) (put_i16 (max_version_level x)) ;;
  put_if (version >=? 3) (put_i16 (min_version_level x)) ;;
  put_if flex (put_tagged_fields (unknown_tagged_fields x)) ;;
  enc_ret.

Section decode.
Context {R : Runtime}.

Definition decode_with_budget (version : Z) : bdec t :=
  let flex := is_flexible version in
  let* name := get_if (version >=? 3) "" (get_flex_string flex) in
  let* max_version_level := get_if (version >=? 3) 0 (lift get_i16) in
  let* min_version_level := get_if (version >=? 3) 0 (lift get_i16) in
  let* unknown_tagged_fields := get_if flex [] get_tagged_fields_with_budget in
  bdec_ret (mk name max_version_level min_version_level unknown_tagged_fields).

Definition decode_with_limits (version : Z) : Limits → dec t :=
  with_limits (decode_with_budget version).
Definition decode (version : Z) : dec t := with_default_limits (decode_with_budget version).

End decode.

Definition valid (version : Z) (x : t) : Prop :=
  let flex := is_flexible version in
  in_version (version >=? 3) (str_ok flex) "" (name x) ∧
  in_version (version >=? 3) is_i16 0 (max_version_level x) ∧
  in_version (version >=? 3) is_i16 0 (min_version_level x) ∧
  in_version flex tags_ok [] (unknown_tagged_fields x).

Lemma api_versions_response_FinalizedFeatureKey_agrees {R : Runtime} version x :
  3 ≤ version →
  valid version x → pairs1 (encode version x) (decode_with_budget version) x.
Proof.
  intros ?. unfold valid, encode, decode_with_budget, is_flexible. cbv zeta. agree1; by destruct x.
Qed.
#[global] Hint Resolve api_versions_response_FinalizedFeatureKey_agrees : fields.

Lemma api_versions_response_FinalizedFeatureKey_settles {R : Runtime} version :
  settles (encode version) (valid version) (decode_with_budget version).
Proof. unfold valid, encode, decode_with_budget, is_flexible. cbv zeta. settle. Qed.
#[global] Hint Resolve api_versions_response_FinalizedFeatureKey_settles : settles.

End FinalizedFeatureKey.

Module ApiVersionsResponse.

Record t : Type := mk {
  error_code : Z;
  api_keys : list ApiVersion.t;
  throttle_time_ms : Z;
  supported_features : option (list SupportedFeatureKey.t);
  finalized_features_epoch : option Z;
  finalized_features : option (list FinalizedFeatureKey.t);
  zk_migration_ready : option bool;
  unknown_tagged_fields : list RawTaggedField;
}.
#[global] Instance t_eq_dec : EqDecision t.
Proof. solve_decision. Defined.

Definition default : t := {|
  error_code := 0;
  api_keys := [];
  throttle_time_ms := 0;
  supported_features := None;
  finalized_features_epoch := None;
  finalized_features := None;
  zk_migration_ready := None;
  unknown_tagged_fields := [] |}.

Definition API_KEY : Z := 18.
Definition MIN_VERSION : Z := 0.
Definition MAX_VERSION : Z := 4.

Definition encode (version : Z) (x : t) : enc :=
  let flex := is_flexible version in
  put_i16 (error_code x) ;;
  put_flex_array flex (ApiVersion.encode version) (api_keys x) ;;
  put_if (version >=? 1) (put_i32 (throttle_time_ms x)) ;;
  put_if flex (put_known_tags (unknown_tagged_fields x)
    [tag_field (version >=? 3) 0 (put_flex_array flex (SupportedFeatureKey.encode version)) (supported_features x);
     tag_field (version >=? 3) 1 put_i64 (finalized_features_epoch x);
     tag_field (version >=? 3) 2 (put_flex_array flex (FinalizedFeatureKey.encode version)) (finalized_features x);
     tag_field (version >=? 3) 3 put_bool (zk_migration_ready x)]) ;;
  enc_ret.

Section decode.
Context {R : Runtime}.

Definition known_tags (version : Z) :=
  let flex := is_flexible version in
  known_tag (version >=? 3) 0 (get_flex_structs flex "SupportedFeatureKey" (SupportedFeatureKey.decode_with_budget version)) (
  known_tag (version >=? 3) 1 (lift get_i64) (
  known_tag (version >=? 3) 2 (get_flex_structs flex "FinalizedFeatureKey" (FinalizedFeatureKey.decode_with_budget version)) (
  known_tag (version >=? 3) 3 (lift get_bool) no_tags))).

Definition decode_with_budget (version : Z) : bdec t :=
  let flex := is_flexible version in
  let* error_code := lift get_i16 in
  let* api_keys := get_flex_structs flex "ApiVersion" (ApiVersion.decode_with_budget version) in
  let* throttle_time_ms := get_if (version >=? 1) 0 (lift get_i32) in
  let* ((supported_features, (finalized_features_epoch, (finalized_features, (zk_migration_ready, tt)))), unknown_tagged_fields) :=
    get_if flex ((None, (None, (None, (None, tt)))), []) (get_known_tags (known_tags version)) in
  bdec_ret (mk error_code api_keys throttle_time_ms supported_features finalized_features_epoch finalized_features zk_migration_ready unknown_tagged_fields).

Definition decode_with_limits (version : Z) : Limits → dec t :=
  with_limits (decode_with_budget version).
Definition decode (version : Z) : dec t := with_default_limits (decode_with_budget version).

End decode.

Definition valid (version : Z) (x : t) : Prop :=
  let flex := is_flexible version in
  is_i16 (error_code x) ∧
  arr_ok flex (ApiVersion.valid version) (api_keys x) ∧
  in_version (version >=? 1) is_i32 0 (throttle_time_ms x) ∧
  in_version flex (λ _,
    in_version (version >=? 3) (tag_valid (arr_ok flex (SupportedFeatureKey.valid version)) (put_flex_array flex (SupportedFeatureKey.encode version))) None (supported_features x) ∧
    in_version (version >=? 3) (tag_valid is_i64 put_i64) None (finalized_features_epoch x) ∧
    in_version (version >=? 3) (tag_valid (arr_ok flex (FinalizedFeatureKey.valid version)) (put_flex_array flex (FinalizedFeatureKey.encode version))) None (finalized_features x) ∧
    in_version (version >=? 3) (tag_valid any put_bool) None (zk_migration_ready x) ∧
    unknown_ok (known_list (version >=? 3) 0 (known_list (version >=? 3) 1 (known_list (version >=? 3) 2 (known_list (version >=? 3) 3 [])))) (unknown_tagged_fields x))
    ((None, (None, (None, (None, tt)))), []) ((supported_features x, (finalized_features_epoch x, (finalized_features x, (zk_migration_ready x, tt)))), unknown_tagged_fields x).

Lemma api_versions_response_ApiVersionsResponse_agrees {R : Runtime} version x :
  valid version x → pairs (encode version x) (decode_with_budget version) x.
Proof.
  unfold valid, encode, decode_with_budget, is_flexible. cbv zeta. agree. by destruct x.
Qed.
#[global] Hint Resolve api_versions_response_ApiVersionsResponse_agrees : fields.

Lemma api_versions_response_ApiVersionsResponse_settles {R : Runtime} version :
  settles (encode version) (valid version) (decode_with_budget version).
Proof. unfold valid, encode, decode_with_budget, is_flexible. cbv zeta. settle. Qed.
#[global] Hint Resolve api_versions_response_ApiVersionsResponse_settles : settles.

End ApiVersionsResponse.

Lemma ApiVersionsResponse_agrees (R : Runtime) version x :
  ApiVersionsResponse.MIN_VERSION ≤ version ≤ ApiVersionsResponse.MAX_VERSION → ApiVersionsResponse.valid version x →
  pairs (ApiVersionsResponse.encode version x) (ApiVersionsResponse.decode_with_budget version) x.
Proof.
  intros _ ?. by apply ApiVersionsResponse.api_versions_response_ApiVersionsResponse_agrees.
Qed.

#[global] Instance ApiVersionsResponse_Message : Message ApiVersionsResponse.t := {|
  Message.API_KEY := ApiVersionsResponse.API_KEY;
  Message.MIN_VERSION := ApiVersionsResponse.MIN_VERSION;
  Message.MAX_VERSION := ApiVersionsResponse.MAX_VERSION;
  Message.encode := ApiVersionsResponse.encode;
  Message.decode_with_budget := @ApiVersionsResponse.decode_with_budget;
  Message.throttle_time_ms := λ x, Some (ApiVersionsResponse.throttle_time_ms x);
  Message.valid := ApiVersionsResponse.valid;
  Message.agrees := ApiVersionsResponse_agrees;
  Message.settled := @ApiVersionsResponse.api_versions_response_ApiVersionsResponse_settles |}.
#[global] Instance ApiVersionsResponse_Default : Default ApiVersionsResponse.t := ApiVersionsResponse.default.

End api_versions_response.

(** ** SASL *)

(** ** [sasl_handshake_request.rs] *)

Module sasl_handshake_request.

Definition is_flexible (version : Z) : bool := false.

Module SaslHandshakeRequest.

Record t : Type := mk {
  mechanism : string;
  unknown_tagged_fields : list RawTaggedField;
}.
#[global] Instance t_eq_dec : EqDecision t.
Proof. solve_decision. Defined.

Definition default : t := {|
  mechanism := "";
  unknown_tagged_fields := [] |}.

Definition API_KEY : Z := 17.
Definition MIN_VERSION : Z := 0.
Definition MAX_VERSION : Z := 1.

Definition encode (version : Z) (x : t) : enc :=
  let flex := is_flexible version in
  put_flex_string flex (mechanism x) ;;
  put_if flex (put_tagged_fields (unknown_tagged_fields x)) ;;
  enc_ret.

Section decode.
Context {R : Runtime}.

Definition decode_with_budget (version : Z) : bdec t :=
  let flex := is_flexible version in
  let* mechanism := get_flex_string flex in
  let* unknown_tagged_fields := get_if flex [] get_tagged_fields_with_budget in
  bdec_ret (mk mechanism unknown_tagged_fields).

Definition decode_with_limits (version : Z) : Limits → dec t :=
  with_limits (decode_with_budget version).
Definition decode (version : Z) : dec t := with_default_limits (decode_with_budget version).

End decode.

Definition valid (version : Z) (x : t) : Prop :=
  let flex := is_flexible version in
  str_ok flex (mechanism x) ∧
  in_version flex tags_ok [] (unknown_tagged_fields x).

Lemma sasl_handshake_request_SaslHandshakeRequest_agrees {R : Runtime} version x :
  valid version x → pairs (encode version x) (decode_with_budget version) x.
Proof.
  unfold valid, encode, decode_with_budget, is_flexible. cbv zeta. agree. by destruct x.
Qed.
#[global] Hint Resolve sasl_handshake_request_SaslHandshakeRequest_agrees : fields.

Lemma sasl_handshake_request_SaslHandshakeRequest_settles {R : Runtime} version :
  settles (encode version) (valid version) (decode_with_budget version).
Proof. unfold valid, encode, decode_with_budget, is_flexible. cbv zeta. settle. Qed.
#[global] Hint Resolve sasl_handshake_request_SaslHandshakeRequest_settles : settles.

End SaslHandshakeRequest.

Lemma SaslHandshakeRequest_agrees (R : Runtime) version x :
  SaslHandshakeRequest.MIN_VERSION ≤ version ≤ SaslHandshakeRequest.MAX_VERSION → SaslHandshakeRequest.valid version x →
  pairs (SaslHandshakeRequest.encode version x) (SaslHandshakeRequest.decode_with_budget version) x.
Proof.
  intros _ ?. by apply SaslHandshakeRequest.sasl_handshake_request_SaslHandshakeRequest_agrees.
Qed.

#[global] Instance SaslHandshakeRequest_Message : Message SaslHandshakeRequest.t := {|
  Message.API_KEY := SaslHandshakeRequest.API_KEY;
  Message.MIN_VERSION := SaslHandshakeRequest.MIN_VERSION;
  Message.MAX_VERSION := SaslHandshakeRequest.MAX_VERSION;
  Message.encode := SaslHandshakeRequest.encode;
  Message.decode_with_budget := @SaslHandshakeRequest.decode_with_budget;
  Message.throttle_time_ms := λ _, None;
  Message.valid := SaslHandshakeRequest.valid;
  Message.agrees := SaslHandshakeRequest_agrees;
  Message.settled := @SaslHandshakeRequest.sasl_handshake_request_SaslHandshakeRequest_settles |}.
#[global] Instance SaslHandshakeRequest_Default : Default SaslHandshakeRequest.t := SaslHandshakeRequest.default.

End sasl_handshake_request.

(** ** [sasl_handshake_response.rs] *)

Module sasl_handshake_response.

Definition is_flexible (version : Z) : bool := false.

Module SaslHandshakeResponse.

Record t : Type := mk {
  error_code : Z;
  mechanisms : list string;
  unknown_tagged_fields : list RawTaggedField;
}.
#[global] Instance t_eq_dec : EqDecision t.
Proof. solve_decision. Defined.

Definition default : t := {|
  error_code := 0;
  mechanisms := [];
  unknown_tagged_fields := [] |}.

Definition API_KEY : Z := 17.
Definition MIN_VERSION : Z := 0.
Definition MAX_VERSION : Z := 1.

Definition encode (version : Z) (x : t) : enc :=
  let flex := is_flexible version in
  put_i16 (error_code x) ;;
  put_flex_array flex (put_flex_string flex) (mechanisms x) ;;
  put_if flex (put_tagged_fields (unknown_tagged_fields x)) ;;
  enc_ret.

Section decode.
Context {R : Runtime}.

Definition decode_with_budget (version : Z) : bdec t :=
  let flex := is_flexible version in
  let* error_code := lift get_i16 in
  let* mechanisms := get_flex_items flex "String" (get_flex_string flex) in
  let* unknown_tagged_fields := get_if flex [] get_tagged_fields_with_budget in
  bdec_ret (mk error_code mechanisms unknown_tagged_fields).

Definition decode_with_limits (version : Z) : Limits → dec t :=
  with_limits (decode_with_budget version).
Definition decode (version : Z) : dec t := with_default_limits (decode_with_budget version).

End decode.

Definition valid (version : Z) (x : t) : Prop :=
  let flex := is_flexible version in
  is_i16 (error_code x) ∧
  arr_ok flex (str_ok flex) (mechanisms x) ∧
  in_version flex tags_ok [] (unknown_tagged_fields x).

Lemma sasl_handshake_response_SaslHandshakeResponse_agrees {R : Runtime} version x :
  valid version x → pairs (encode version x) (decode_with_budget version) x.
Proof.
  unfold valid, encode, decode_with_budget, is_flexible. cbv zeta. agree. by destruct x.
Qed.
#[global] Hint Resolve sasl_handshake_response_SaslHandshakeResponse_agrees : fields.

Lemma sasl_handshake_response_SaslHandshakeResponse_settles {R : Runtime} version :
  settles (encode version) (valid version) (decode_with_budget version).
Proof. unfold valid, encode, decode_with_budget, is_flexible. cbv zeta. settle. Qed.
#[global] Hint Resolve sasl_handshake_response_SaslHandshakeResponse_settles : settles.

End SaslHandshakeResponse.

Lemma SaslHandshakeResponse_agrees (R : Runtime) version x :
  SaslHandshakeResponse.MIN_VERSION ≤ version ≤ SaslHandshakeResponse.MAX_VERSION → SaslHandshakeResponse.valid version x →
  pairs (SaslHandshakeResponse.encode version x) (SaslHandshakeResponse.decode_with_budget version) x.
Proof.
  intros _ ?. by apply SaslHandshakeResponse.sasl_handshake_response_SaslHandshakeResponse_agrees.
Qed.

#[global] Instance SaslHandshakeResponse_Message : Message SaslHandshakeResponse.t := {|
  Message.API_KEY := SaslHandshakeResponse.API_KEY;
  Message.MIN_VERSION := SaslHandshakeResponse.MIN_VERSION;
  Message.MAX_VERSION := SaslHandshakeResponse.MAX_VERSION;
  Message.encode := SaslHandshakeResponse.encode;
  Message.decode_with_budget := @SaslHandshakeResponse.decode_with_budget;
  Message.throttle_time_ms := λ _, None;
  Message.valid := SaslHandshakeResponse.valid;
  Message.agrees := SaslHandshakeResponse_agrees;
  Message.settled := @SaslHandshakeResponse.sasl_handshake_response_SaslHandshakeResponse_settles |}.
#[global] Instance SaslHandshakeResponse_Default : Default SaslHandshakeResponse.t := SaslHandshakeResponse.default.

End sasl_handshake_response.

(** ** [sasl_authenticate_request.rs] *)

Module sasl_authenticate_request.

Definition is_flexible (version : Z) : bool := version >=? 2.

Module SaslAuthenticateRequest.

Record t : Type := mk {
  auth_bytes : list byte;
  unknown_tagged_fields : list RawTaggedField;
}.
#[global] Instance t_eq_dec : EqDecision t.
Proof. solve_decision. Defined.

Definition default : t := {|
  auth_bytes := [];
  unknown_tagged_fields := [] |}.

Definition API_KEY : Z := 36.
Definition MIN_VERSION : Z := 0.
Definition MAX_VERSION : Z := 2.

Definition encode (version : Z) (x : t) : enc :=
  let flex := is_flexible version in
  put_flex_bytes flex (auth_bytes x) ;;
  put_if flex (put_tagged_fields (unknown_tagged_fields x)) ;;
  enc_ret.

Section decode.
Context {R : Runtime}.

Definition decode_with_budget (version : Z) : bdec t :=
  let flex := is_flexible version in
  let* auth_bytes := get_flex_bytes flex in
  let* unknown_tagged_fields := get_if flex [] get_tagged_fields_with_budget in
  bdec_ret (mk auth_bytes unknown_tagged_fields).

Definition decode_with_limits (version : Z) : Limits → dec t :=
  with_limits (decode_with_budget version).
Definition decode (version : Z) : dec t := with_default_limits (decode_with_budget version).

End decode.

Definition valid (version : Z) (x : t) : Prop :=
  let flex := is_flexible version in
  bytes_ok flex (auth_bytes x) ∧
  in_version flex tags_ok [] (unknown_tagged_fields x).

Lemma sasl_authenticate_request_SaslAuthenticateRequest_agrees {R : Runtime} version x :
  valid version x → pairs (encode version x) (decode_with_budget version) x.
Proof.
  unfold valid, encode, decode_with_budget, is_flexible. cbv zeta. agree. by destruct x.
Qed.
#[global] Hint Resolve sasl_authenticate_request_SaslAuthenticateRequest_agrees : fields.

Lemma sasl_authenticate_request_SaslAuthenticateRequest_settles {R : Runtime} version :
  settles (encode version) (valid version) (decode_with_budget version).
Proof. unfold valid, encode, decode_with_budget, is_flexible. cbv zeta. settle. Qed.
#[global] Hint Resolve sasl_authenticate_request_SaslAuthenticateRequest_settles : settles.

End SaslAuthenticateRequest.

Lemma SaslAuthenticateRequest_agrees (R : Runtime) version x :
  SaslAuthenticateRequest.MIN_VERSION ≤ version ≤ SaslAuthenticateRequest.MAX_VERSION → SaslAuthenticateRequest.valid version x →
  pairs (SaslAuthenticateRequest.encode version x) (SaslAuthenticateRequest.decode_with_budget version) x.
Proof.
  intros _ ?. by apply SaslAuthenticateRequest.sasl_authenticate_request_SaslAuthenticateRequest_agrees.
Qed.

#[global] Instance SaslAuthenticateRequest_Message : Message SaslAuthenticateRequest.t := {|
  Message.API_KEY := SaslAuthenticateRequest.API_KEY;
  Message.MIN_VERSION := SaslAuthenticateRequest.MIN_VERSION;
  Message.MAX_VERSION := SaslAuthenticateRequest.MAX_VERSION;
  Message.encode := SaslAuthenticateRequest.encode;
  Message.decode_with_budget := @SaslAuthenticateRequest.decode_with_budget;
  Message.throttle_time_ms := λ _, None;
  Message.valid := SaslAuthenticateRequest.valid;
  Message.agrees := SaslAuthenticateRequest_agrees;
  Message.settled := @SaslAuthenticateRequest.sasl_authenticate_request_SaslAuthenticateRequest_settles |}.
#[global] Instance SaslAuthenticateRequest_Default : Default SaslAuthenticateRequest.t := SaslAuthenticateRequest.default.

End sasl_authenticate_request.

(** ** [sasl_authenticate_response.rs] *)

Module sasl_authenticate_response.

Definition is_flexible (version : Z) : bool := version >=? 2.

Module SaslAuthenticateResponse.

Record t : Type := mk {
  error_code : Z;
  error_message : option string;
  auth_bytes : list byte;
  session_lifetime_ms : Z;
  unknown_tagged_fields : list RawTaggedField;
}.
#[global] Instance t_eq_dec : EqDecision t.
Proof. solve_decision. Defined.

Definition default : t := {|
  error_code := 0;
  error_message := (Some "");
  auth_bytes := [];
  session_lifetime_ms := 0;
  unknown_tagged_fields := [] |}.

Definition API_KEY : Z := 36.
Definition MIN_VERSION : Z := 0.
Definition MAX_VERSION : Z := 2.

Definition encode (version : Z) (x : t) : enc :=
  let flex := is_flexible version in
  put_i16 (error_code x) ;;
  put_flex_nullable_string flex (error_message x) ;;
  put_flex_bytes flex (auth_bytes x) ;;
  put_if (version >=? 1) (put_i64 (session_lifetime_ms x)) ;;
  put_if flex (put_tagged_fields (unknown_tagged_fields x)) ;;
  enc_ret.

Section decode.
Context {R : Runtime}.

Definition decode_with_budget (version : Z) : bdec t :=
  let flex := is_flexible version in
  let* error_code := lift get_i16 in
  let* error_message := get_flex_nullable_string flex in
  let* auth_bytes := get_flex_bytes flex in
  let* session_lifetime_ms := get_if (version >=? 1) 0 (lift get_i64) in
  let* unknown_tagged_fields := get_if flex [] get_tagged_fields_with_budget in
  bdec_ret (mk error_code error_message auth_bytes session_lifetime_ms unknown_tagged_fields).

Definition decode_with_limits (version : Z) : Limits → dec t :=
  with_limits (decode_with_budget version).
Definition decode (version : Z) : dec t := with_default_limits (decode_with_budget version).

End decode.

Definition valid (version : Z) (x : t) : Prop :=
  let flex := is_flexible version in
  is_i16 (error_code x) ∧
  opt_valid true (str_ok flex) (error_message x) ∧
  bytes_ok flex (auth_bytes x) ∧
  in_version (version >=? 1) is_i64 0 (session_lifetime_ms x) ∧
  in_version flex tags_ok [] (unknown_tagged_fields x).

Lemma sasl_authenticate_response_SaslAuthenticateResponse_agrees {R : Runtime} version x :
  valid version x → pairs (encode version x) (decode_with_budget version) x.
Proof.
  unfold valid, encode, decode_with_budget, is_flexible. cbv zeta. agree. by destruct x.
Qed.
#[global] Hint Resolve sasl_authenticate_response_SaslAuthenticateResponse_agrees : fields.

Lemma sasl_authenticate_response_SaslAuthenticateResponse_settles {R : Runtime} version :
  settles (encode version) (valid version) (decode_with_budget version).
Proof. unfold valid, encode, decode_with_budget, is_flexible. cbv zeta. settle. Qed.
#[global] Hint Resolve sasl_authenticate_response_SaslAuthenticateResponse_settles : settles.

End SaslAuthenticateResponse.

Lemma SaslAuthenticateResponse_agrees (R : Runtime) version x :
  SaslAuthenticateResponse.MIN_VERSION ≤ version ≤ SaslAuthenticateResponse.MAX_VERSION → SaslAuthenticateResponse.valid version x →
  pairs (SaslAuthenticateResponse.encode version x) (SaslAuthenticateResponse.decode_with_budget version) x.
Proof.
  intros _ ?. by apply SaslAuthenticateResponse.sasl_authenticate_response_SaslAuthenticateResponse_agrees.
Qed.

#[global] Instance SaslAuthenticateResponse_Message : Message SaslAuthenticateResponse.t := {|
  Message.API_KEY := SaslAuthenticateResponse.API_KEY;
  Message.MIN_VERSION := SaslAuthenticateResponse.MIN_VERSION;
  Message.MAX_VERSION := SaslAuthenticateResponse.MAX_VERSION;
  Message.encode := SaslAuthenticateResponse.encode;
  Message.decode_with_budget := @SaslAuthenticateResponse.decode_with_budget;
  Message.throttle_time_ms := λ _, None;
  Message.valid := SaslAuthenticateResponse.valid;
  Message.agrees := SaslAuthenticateResponse_agrees;
  Message.settled := @SaslAuthenticateResponse.sasl_authenticate_response_SaslAuthenticateResponse_settles |}.
#[global] Instance SaslAuthenticateResponse_Default : Default SaslAuthenticateResponse.t := SaslAuthenticateResponse.default.

End sasl_authenticate_response.
