(* ===== verification/MsgTxn.v ===== *)
(** * Transaction messages

    [init_producer_id_request.rs], [init_producer_id_response.rs], [add_partitions_to_txn_request.rs], [add_partitions_to_txn_response.rs], [add_offsets_to_txn_request.rs], [add_offsets_to_txn_response.rs], [end_txn_request.rs], [end_txn_response.rs], [txn_offset_commit_request.rs], [txn_offset_commit_response.rs]
    of [odradek-protocol/src/messages/]: each message a Module named after its
    file, each struct a Module with its record [t], its defaults, its encoder and
    decoder, what makes a value representable at a version ([valid]) and the
    agreement of the two. *)
From S2P Require Import Prelude Budget Codec Wire Fields KnownTags Settles MessageTrait.

(** ** [init_producer_id_request.rs] *)

Module init_producer_id_request.

Definition is_flexible (version : Z) : bool := version >=? 2.

Module InitProducerIdRequest.

Record t : Type := mk {
  transactional_id : option string;
  transaction_timeout_ms : Z;
  producer_id : Z;
  producer_epoch : Z;
  enable2_pc : bool;
  keep_prepared_txn : bool;
  unknown_tagged_fields : list RawTaggedField;
}.
#[global] Instance t_eq_dec : EqDecision t.
Proof. solve_decision. Defined.

Definition default : t := {|
  transactional_id := (Some "");
  transaction_timeout_ms := 0;
  producer_id := (-1);
  producer_epoch := (-1);
  enable2_pc := false;
  keep_prepared_txn := false;
  unknown_tagged_fields := [] |}.

Definition API_KEY : Z := 22.
Definition MIN_VERSION : Z := 0.
Definition MAX_VERSION : Z := 6.

Definition encode (version : Z) (x : t) : enc :=
  let flex := is_flexible version in
  put_flex_nullable_string flex (transactional_id x) ;;
  put_i32 (transaction_timeout_ms x) ;;
  put_if (version >=? 3) (put_i64 (producer_id x)) ;;
  put_if (version >=? 3) (put_i16 (producer_epoch x)) ;;
  put_if (version >=? 6) (put_bool (enable2_pc x)) ;;
  put_if (version >=? 6) (put_bool (keep_prepared_txn x)) ;;
  put_if flex (put_tagged_fields (unknown_tagged_fields x)) ;;
  enc_ret.

Section decode.
Context {R : Runtime}.

Definition decode_with_budget (version : Z) : bdec t :=
  let flex := is_flexible version in
  let* transactional_id := get_flex_nullable_string flex in
  let* transaction_timeout_ms := lift get_i32 in
  let* producer_id := get_if (version >=? 3) (-1) (lift get_i64) in
  let* producer_epoch := get_if (version >=? 3) (-1) (lift get_i16) in
  let* enable2_pc := get_if (version >=? 6) false (lift get_bool) in
  let* keep_prepared_txn := get_if (version >=? 6) false (lift get_bool) in
  let* unknown_tagged_fields := get_if flex [] get_tagged_fields_with_budget in
  bdec_ret (mk transactional_id transaction_timeout_ms producer_id producer_epoch enable2_pc keep_prepared_txn unknown_tagged_fields).

Definition decode_with_limits (version : Z) : Limits → dec t :=
  with_limits (decode_with_budget version).
Definition decode (version : Z) : dec t := with_default_limits (decode_with_budget version).

End decode.

Definition valid (version : Z) (x : t) : Prop :=
  let flex := is_flexible version in
  opt_valid true (str_ok flex) (transactional_id x) ∧
  is_i32 (transaction_timeout_ms x) ∧
  in_version (version >=? 3) is_i64 (-1) (producer_id x) ∧
  in_version (version >=? 3) is_i16 (-1) (producer_epoch x) ∧
  in_version (version >=? 6) any false (enable2_pc x) ∧
  in_version (version >=? 6) any false (keep_prepared_txn x) ∧
  in_version flex tags_ok [] (unknown_tagged_fields x).

Lemma init_producer_id_request_InitProducerIdRequest_agrees {R : Runtime} version x :
  valid version x → pairs (encode version x) (decode_with_budget version) x.
Proof.
  unfold valid, encode, decode_with_budget, is_flexible. cbv zeta. agree. by destruct x.
Qed.
#[global] Hint Resolve init_producer_id_request_InitProducerIdRequest_agrees : fields.

Lemma init_producer_id_request_InitProducerIdRequest_settles {R : Runtime} version :
  settles (encode version) (valid version) (decode_with_budget version).
Proof. unfold valid, encode, decode_with_budget, is_flexible. cbv zeta. settle. Qed.
#[global] Hint Resolve init_producer_id_request_InitProducerIdRequest_settles : settles.

End InitProducerIdRequest.

Lemma InitProducerIdRequest_agrees (R : Runtime) version x :
  InitProducerIdRequest.MIN_VERSION ≤ version ≤ InitProducerIdRequest.MAX_VERSION → InitProducerIdRequest.valid version x →
  pairs (InitProducerIdRequest.encode version x) (InitProducerIdRequest.decode_with_budget version) x.
Proof.
  intros _ ?. by apply InitProducerIdRequest.init_producer_id_request_InitProducerIdRequest_agrees.
Qed.

#[global] Instance InitProducerIdRequest_Message : Message InitProducerIdRequest.t := {|
  Message.API_KEY := InitProducerIdRequest.API_KEY;
  Message.MIN_VERSION := InitProducerIdRequest.MIN_VERSION;
  Message.MAX_VERSION := InitProducerIdRequest.MAX_VERSION;
  Message.encode := InitProducerIdRequest.encode;
  Message.decode_with_budget := @InitProducerIdRequest.decode_with_budget;
  Message.throttle_time_ms := λ _, None;
  Message.valid := InitProducerIdRequest.valid;
  Message.agrees := InitProducerIdRequest_agrees;
  Message.settled := @InitProducerIdRequest.init_producer_id_request_InitProducerIdRequest_settles |}.
#[global] Instance InitProducerIdRequest_Default : Default InitProducerIdRequest.t := InitProducerIdRequest.default.

End init_producer_id_request.

(** ** [init_producer_id_response.rs] *)

Module init_producer_id_response.

Definition is_flexible (version : Z) : bool := version >=? 2.

Module InitProducerIdResponse.

Record t : Type := mk {
  throttle_time_ms : Z;
  error_code : Z;
  producer_id : Z;
  producer_epoch : Z;
  ongoing_txn_producer_id : Z;
  ongoing_txn_producer_epoch : Z;
  unknown_tagged_fields : list RawTaggedField;
}.
#[global] Instance t_eq_dec : EqDecision t.
Proof. solve_decision. Defined.

Definition default : t := {|
  throttle_time_ms := 0;
  error_code := 0;
  producer_id := (-1);
  producer_epoch := 0;
  ongoing_txn_producer_id := (-1);
  ongoing_txn_producer_epoch := (-1);
  unknown_tagged_fields := [] |}.

Definition API_KEY : Z := 22.
Definition MIN_VERSION : Z := 0.
Definition MAX_VERSION : Z := 6.

Definition encode (version : Z) (x : t) : enc :=
  let flex := is_flexible version in
  put_i32 (throttle_time_ms x) ;;
  put_i16 (error_code x) ;;
  put_i64 (producer_id x) ;;
  put_i16 (producer_epoch x) ;;
  put_if (version >=? 6) (put_i64 (ongoing_txn_producer_id x)) ;;
  put_if (version >=? 6) (put_i16 (ongoing_txn_producer_epoch x)) ;;
  put_if flex (put_tagged_fields (unknown_tagged_fields x)) ;;
  enc_ret.

Section decode.
Context {R : Runtime}.

Definition decode_with_budget (version : Z) : bdec t :=
  let flex := is_flexible version in
  let* throttle_time_ms := lift get_i32 in
  let* error_code := lift get_i16 in
  let* producer_id := lift get_i64 in
  let* producer_epoch := lift get_i16 in
  let* ongoing_txn_producer_id := get_if (version >=? 6) (-1) (lift get_i64) in
  let* ongoing_txn_producer_epoch := get_if (version >=? 6) (-1) (lift get_i16) in
  let* unknown_tagged_fields := get_if flex [] get_tagged_fields_with_budget in
  bdec_ret (mk throttle_time_ms error_code producer_id producer_epoch ongoing_txn_producer_id ongoing_txn_producer_epoch unknown_tagged_fields).

Definition decode_with_limits (version : Z) : Limits → dec t :=
  with_limits (decode_with_budget version).
Definition decode (version : Z) : dec t := with_default_limits (decode_with_budget version).

End decode.

Definition valid (version : Z) (x : t) : Prop :=
  let flex := is_flexible version in
  is_i32 (throttle_time_ms x) ∧
  is_i16 (error_code x) ∧
  is_i64 (producer_id x) ∧
  is_i16 (producer_epoch x) ∧
  in_version (version >=? 6) is_i64 (-1) (ongoing_txn_producer_id x) ∧
  in_version (version >=? 6) is_i16 (-1) (ongoing_txn_producer_epoch x) ∧
  in_version flex tags_ok [] (unknown_tagged_fields x).

Lemma init_producer_id_response_InitProducerIdResponse_agrees {R : Runtime} version x :
  valid version x → pairs (encode version x) (decode_with_budget version) x.
Proof.
  unfold valid, encode, decode_with_budget, is_flexible. cbv zeta. agree. by destruct x.
Qed.
#[global] Hint Resolve init_producer_id_response_InitProducerIdResponse_agrees : fields.

Lemma init_producer_id_response_InitProducerIdResponse_settles {R : Runtime} version :
  settles (encode version) (valid version) (decode_with_budget version).
Proof. unfold valid, encode, decode_with_budget, is_flexible. cbv zeta. settle. Qed.
#[global] Hint Resolve init_producer_id_response_InitProducerIdResponse_settles : settles.

End InitProducerIdResponse.

Lemma InitProducerIdResponse_agrees (R : Runtime) version x :
  InitProducerIdResponse.MIN_VERSION ≤ version ≤ InitProducerIdResponse.MAX_VERSION → InitProducerIdResponse.valid version x →
  pairs (InitProducerIdResponse.encode version x) (InitProducerIdResponse.decode_with_budget version) x.
Proof.
  intros _ ?. by apply InitProducerIdResponse.init_producer_id_response_InitProducerIdResponse_agrees.
Qed.

#[global] Instance InitProducerIdResponse_Message : Message InitProducerIdResponse.t := {|
  Message.API_KEY := InitProducerIdResponse.API_KEY;
  Message.MIN_VERSION := InitProducerIdResponse.MIN_VERSION;
  Message.MAX_VERSION := InitProducerIdResponse.MAX_VERSION;
  Message.encode := InitProducerIdResponse.encode;
  Message.decode_with_budget := @InitProducerIdResponse.decode_with_budget;
  Message.throttle_time_ms := λ x, Some (InitProducerIdResponse.throttle_time_ms x);
  Message.valid := InitProducerIdResponse.valid;
  Message.agrees := InitProducerIdResponse_agrees;
  Message.settled := @InitProducerIdResponse.init_producer_id_response_InitProducerIdResponse_settles |}.
#[global] Instance InitProducerIdResponse_Default : Default InitProducerIdResponse.t := InitProducerIdResponse.default.

End init_producer_id_response.

(** ** [add_partitions_to_txn_request.rs] *)

Module add_partitions_to_txn_request.

Definition is_flexible (version : Z) : bool := version >=? 3.

Module AddPartitionsToTxnTopic.

Record t : Type := mk {
  name : string;
  partitions : list Z;
  unknown_tagged_fields : list RawTaggedField;
}.
#[global] Instance t_eq_dec : EqDecision t.
Proof. solve_decision. Defined.

Definition default : t := {|
  name := "";
  partitions := [];
  unknown_tagged_fields := [] |}.

Definition encode (version : Z) (x : t) : enc :=
  let flex := is_flexible version in
  put_flex_string flex (name x) ;;
  put_flex_array flex put_i32 (partitions x) ;;
  put_if flex (put_tagged_fields (unknown_tagged_fields x)) ;;
  enc_ret.

Section decode.
Context {R : Runtime}.

Definition decode_with_budget (version : Z) : bdec t :=
  let flex := is_flexible version in
  let* name := get_flex_string flex in
  let* partitions := get_flex_items flex "i32" (lift get_i32) in
  let* unknown_tagged_fields := get_if flex [] get_tagged_fields_with_budget in
  bdec_ret (mk name partitions unknown_tagged_fields).

Definition decode_with_limits (version : Z) : Limits → dec t :=
  with_limits (decode_with_budget version).
Definition decode (version : Z) : dec t := with_default_limits (decode_with_budget version).

End decode.

Definition valid (version : Z) (x : t) : Prop :=
  let flex := is_flexible version in
  str_ok flex (name x) ∧
  arr_ok flex is_i32 (partitions x) ∧
  in_version flex tags_ok [] (unknown_tagged_fields x).

Lemma add_partitions_to_txn_request_AddPartitionsToTxnTopic_agrees {R : Runtime} version x :
  valid version x → pairs1 (encode version x) (decode_with_budget version) x.
Proof.
  unfold valid, encode, decode_with_budget, is_flexible. cbv zeta. agree1; by destruct x.
Qed.
#[global] Hint Resolve add_partitions_to_txn_request_AddPartitionsToTxnTopic_agrees : fields.

Lemma add_partitions_to_txn_request_AddPartitionsToTxnTopic_settles {R : Runtime} version :
  settles (encode version) (valid version) (decode_with_budget version).
Proof. unfold valid, encode, decode_with_budget, is_flexible. cbv zeta. settle. Qed.
#[global] Hint Resolve add_partitions_to_txn_request_AddPartitionsToTxnTopic_settles : settles.

End AddPartitionsToTxnTopic.

Module AddPartitionsToTxnTransaction.

Record t : Type := mk {
  transactional_id : string;
  producer_id : Z;
  producer_epoch : Z;
  verify_only : bool;
  topics : list AddPartitionsToTxnTopic.t;
  unknown_tagged_fields : list RawTaggedField;
}.
#[global] Instance t_eq_dec : EqDecision t.
Proof. solve_decision. Defined.

Definition default : t := {|
  transactional_id := "";
  producer_id := 0;
  producer_epoch := 0;
  verify_only := false;
  topics := [];
  unknown_tagged_fields := [] |}.

Definition encode (version : Z) (x : t) : enc :=
  let flex := is_flexible version in
  put_if (version >=? 4) (put_flex_string flex (transactional_id x)) ;;
  put_if (version >=? 4) (put_i64 (producer_id x)) ;;
  put_if (version >=? 4) (put_i16 (producer_epoch x)) ;;
  put_if (version >=? 4) (put_bool (verify_only x)) ;;
  put_if (version >=? 4) (put_flex_array flex (AddPartitionsToTxnTopic.encode version) (topics x)) ;;
  put_if flex (put_tagged_fields (unknown_tagged_fields x)) ;;
  enc_ret.

Section decode.
Context {R : Runtime}.

Definition decode_with_budget (version : Z) : bdec t :=
  let flex := is_flexible version in
  let* transactional_id := get_if (version >=? 4) "" (get_flex_string flex) in
  let* producer_id := get_if (version >=? 4) 0 (lift get_i64) in
  let* producer_epoch := get_if (version >=? 4) 0 (lift get_i16) in
  let* verify_only := get_if (version >=? 4) false (lift get_bool) in
  let* topics := get_if (version >=? 4) [] (get_flex_structs flex "AddPartitionsToTxnTopic" (AddPartitionsToTxnTopic.decode_with_budget version)) in
  let* unknown_tagged_fields := get_if flex [] get_tagged_fields_with_budget in
  bdec_ret (mk transactional_id producer_id producer_epoch verify_only topics unknown_tagged_fields).

Definition decode_with_limits (version : Z) : Limits → dec t :=
  with_limits (decode_with_budget version).
Definition decode (version : Z) : dec t := with_default_limits (decode_with_budget version).

End decode.

Definition valid (version : Z) (x : t) : Prop :=
  let flex := is_flexible version in
  in_version (version >=? 4) (str_ok flex) "" (transactional_id x) ∧
  in_version (version >=? 4) is_i64 0 (producer_id x) ∧
  in_version (version >=? 4) is_i16 0 (producer_epoch x) ∧
  in_version (version >=? 4) any false (verify_only x) ∧
  in_version (version >=? 4) (arr_ok flex (AddPartitionsToTxnTopic.valid version)) [] (topics x) ∧
  in_version flex tags_ok [] (unknown_tagged_fields x).

Lemma add_partitions_to_txn_request_AddPartitionsToTxnTransaction_agrees {R : Runtime} version x :
  3 ≤ version →
  valid version x → pairs1 (encode version x) (decode_with_budget version) x.
Proof.
  intros ?. unfold valid, encode, decode_with_budget, is_flexible. cbv zeta. agree1; by destruct x.
Qed.
#[global] Hint Resolve add_partitions_to_txn_request_AddPartitionsToTxnTransaction_agrees : fields.

Lemma add_partitions_to_txn_request_AddPartitionsToTxnTransaction_settles {R : Runtime} version :
  settles (encode version) (valid version) (decode_with_budget version).
Proof. unfold valid, encode, decode_with_budget, is_flexible. cbv zeta. settle. Qed.
#[global] Hint Resolve add_partitions_to_txn_request_AddPartitionsToTxnTransaction_settles : settles.

End AddPartitionsToTxnTransaction.

Module AddPartitionsToTxnRequest.

Record t : Type := mk {
  transactions : list AddPartitionsToTxnTransaction.t;
  v3_and_below_transactional_id : string;
  v3_and_below_producer_id : Z;
  v3_and_below_producer_epoch : Z;
  v3_and_below_topics : list AddPartitionsToTxnTopic.t;
  unknown_tagged_fields : list RawTaggedField;
}.
#[global] Instance t_eq_dec : EqDecision t.
Proof. solve_decision. Defined.

Definition default : t := {|
  transactions := [];
  v3_and_below_transactional_id := "";
  v3_and_below_producer_id := 0;
  v3_and_below_producer_epoch := 0;
  v3_and_below_topics := [];
  unknown_tagged_fields := [] |}.

Definition API_KEY : Z := 24.
Definition MIN_VERSION : Z := 0.
Definition MAX_VERSION : Z := 5.

Definition encode (version : Z) (x : t) : enc :=
  let flex := is_flexible version in
  put_if (version >=? 4) (put_flex_array flex (AddPartitionsToTxnTransaction.encode version) (transactions x)) ;;
  put_if (version <=? 3) (put_flex_string flex (v3_and_below_transactional_id x)) ;;
  put_if (version <=? 3) (put_i64 (v3_and_below_producer_id x)) ;;
  put_if (version <=? 3) (put_i16 (v3_and_below_producer_epoch x)) ;;
  put_if (version <=? 3) (put_flex_array flex (AddPartitionsToTxnTopic.encode version) (v3_and_below_topics x)) ;;
  put_if flex (put_tagged_fields (unknown_tagged_fields x)) ;;
  enc_ret.

Section decode.
Context {R : Runtime}.

Definition decode_with_budget (version : Z) : bdec t :=
  let flex := is_flexible version in
  let* transactions := get_if (version >=? 4) [] (get_flex_structs flex "AddPartitionsToTxnTransaction" (AddPartitionsToTxnTransaction.decode_with_budget version)) in
  let* v3_and_below_transactional_id := get_if (version <=? 3) "" (get_flex_string flex) in
  let* v3_and_below_producer_id := get_if (version <=? 3) 0 (lift get_i64) in
  let* v3_and_below_producer_epoch := get_if (version <=? 3) 0 (lift get_i16) in
  let* v3_and_below_topics := get_if (version <=? 3) [] (get_flex_structs flex "AddPartitionsToTxnTopic" (AddPartitionsToTxnTopic.decode_with_budget version)) in
  let* unknown_tagged_fields := get_if flex [] get_tagged_fields_with_budget in
  bdec_ret (mk transactions v3_and_below_transactional_id v3_and_below_producer_id v3_and_below_producer_epoch v3_and_below_topics unknown_tagged_fields).

Definition decode_with_limits (version : Z) : Limits → dec t :=
  with_limits (decode_with_budget version).
Definition decode (version : Z) : dec t := with_default_limits (decode_with_budget version).

End decode.

Definition valid (version : Z) (x : t) : Prop :=
  let flex := is_flexible version in
  in_version (version >=? 4) (arr_ok flex (AddPartitionsToTxnTransaction.valid version)) [] (transactions x) ∧
  in_version (version <=? 3) (str_ok flex) "" (v3_and_below_transactional_id x) ∧
  in_version (version <=? 3) is_i64 0 (v3_and_below_producer_id x) ∧
  in_version (version <=? 3) is_i16 0 (v3_and_below_producer_epoch x) ∧
  in_version (version <=? 3) (arr_ok flex (AddPartitionsToTxnTopic.valid version)) [] (v3_and_below_topics x) ∧
  in_version flex tags_ok [] (unknown_tagged_fields x).

Lemma add_partitions_to_txn_request_AddPartitionsToTxnRequest_agrees {R : Runtime} version x :
  valid version x → pairs (encode version x) (decode_with_budget version) x.
Proof.
  unfold valid, encode, decode_with_budget, is_flexible. cbv zeta. agree. by destruct x.
Qed.
#[global] Hint Resolve add_partitions_to_txn_request_AddPartitionsToTxnRequest_agrees : fields.

Lemma add_partitions_to_txn_request_AddPartitionsToTxnRequest_settles {R : Runtime} version :
  settles (encode version) (valid version) (decode_with_budget version).
Proof. unfold valid, encode, decode_with_budget, is_flexible. cbv zeta. settle. Qed.
#[global] Hint Resolve add_partitions_to_txn_request_AddPartitionsToTxnRequest_settles : settles.

End AddPartitionsToTxnRequest.

Lemma AddPartitionsToTxnRequest_agrees (R : Runtime) version x :
  AddPartitionsToTxnRequest.MIN_VERSION ≤ version ≤ AddPartitionsToTxnRequest.MAX_VERSION → AddPartitionsToTxnRequest.valid version x →
  pairs (AddPartitionsToTxnRequest.encode version x) (AddPartitionsToTxnRequest.decode_with_budget version) x.
Proof.
  intros _ ?. by apply AddPartitionsToTxnRequest.add_partitions_to_txn_request_AddPartitionsToTxnRequest_agrees.
Qed.

#[global] Instance AddPartitionsToTxnRequest_Message : Message AddPartitionsToTxnRequest.t := {|
  Message.API_KEY := AddPartitionsToTxnRequest.API_KEY;
  Message.MIN_VERSION := AddPartitionsToTxnRequest.MIN_VERSION;
  Message.MAX_VERSION := AddPartitionsToTxnRequest.MAX_VERSION;
  Message.encode := AddPartitionsToTxnRequest.encode;
  Message.decode_with_budget := @AddPartitionsToTxnRequest.decode_with_budget;
  Message.throttle_time_ms := λ _, None;
  Message.valid := AddPartitionsToTxnRequest.valid;
  Message.agrees := AddPartitionsToTxnRequest_agrees;
  Message.settled := @AddPartitionsToTxnRequest.add_partitions_to_txn_request_AddPartitionsToTxnRequest_settles |}.
#[global] Instance AddPartitionsToTxnRequest_Default : Default AddPartitionsToTxnRequest.t := AddPartitionsToTxnRequest.default.

End add_partitions_to_txn_request.

(** ** [add_partitions_to_txn_response.rs] *)

Module add_partitions_to_txn_response.

Definition is_flexible (version : Z) : bool := version >=? 3.

Module AddPartitionsToTxnPartitionResult.

Record t : Type := mk {
  partition_index : Z;
  partition_error_code : Z;
  unknown_tagged_fields : list RawTaggedField;
}.
#[global] Instance t_eq_dec : EqDecision t.
Proof. solve_decision. Defined.

Definition default : t := {|
  partition_index := 0;
  partition_error_code := 0;
  unknown_tagged_fields := [] |}.

Definition encode (version : Z) (x : t) : enc :=
  let flex := is_flexible version in
  put_i32 (partition_index x) ;;
  put_i16 (partition_error_code x) ;;
  put_if flex (put_tagged_fields (unknown_tagged_fields x)) ;;
  enc_ret.

Section decode.
Context {R : Runtime}.

Definition decode_with_budget (version : Z) : bdec t :=
  let flex := is_flexible version in
  let* partition_index := lift get_i32 in
  let* partition_error_code := lift get_i16 in
  let* unknown_tagged_fields := get_if flex [] get_tagged_fields_with_budget in
  bdec_ret (mk partition_index partition_error_code unknown_tagged_fields).

Definition decode_with_limits (version : Z) : Limits → dec t :=
  with_limits (decode_with_budget version).
Definition decode (version : Z) : dec t := with_default_limits (decode_with_budget version).

End decode.

Definition valid (version : Z) (x : t) : Prop :=
  let flex := is_flexible version in
  is_i32 (partition_index x) ∧
  is_i16 (partition_error_code x) ∧
  in_version flex tags_ok [] (unknown_tagged_fields x).

Lemma add_partitions_to_txn_response_AddPartitionsToTxnPartitionResult_agrees {R : Runtime} version x :
  valid version x → pairs1 (encode version x) (decode_with_budget version) x.
Proof.
  unfold valid, encode, decode_with_budget, is_flexible. cbv zeta. agree1; by destruct x.
Qed.
#[global] Hint Resolve add_partitions_to_txn_response_AddPartitionsToTxnPartitionResult_agrees : fields.

Lemma add_partitions_to_txn_response_AddPartitionsToTxnPartitionResult_settles {R : Runtime} version :
  settles (encode version) (valid version) (decode_with_budget version).
Proof. unfold valid, encode, decode_with_budget, is_flexible. cbv zeta. settle. Qed.
#[global] Hint Resolve add_partitions_to_txn_response_AddPartitionsToTxnPartitionResult_settles : settles.

End AddPartitionsToTxnPartitionResult.

Module AddPartitionsToTxnTopicResult.

Record t : Type := mk {
  name : string;
  results_by_partition : list AddPartitionsToTxnPartitionResult.t;
  unknown_tagged_fields : list RawTaggedField;
}.
#[global] Instance t_eq_dec : EqDecision t.
Proof. solve_decision. Defined.

Definition default : t := {|
  name := "";
  results_by_partition := [];
  unknown_tagged_fields := [] |}.

Definition encode (version : Z) (x : t) : enc :=
  let flex := is_flexible version in
  put_flex_string flex (name x) ;;
  put_flex_array flex (AddPartitionsToTxnPartitionResult.encode version) (results_by_partition x) ;;
  put_if flex (put_tagged_fields (unknown_tagged_fields x)) ;;
  enc_ret.

Section decode.
Context {R : Runtime}.

Definition decode_with_budget (version : Z) : bdec t :=
  let flex := is_flexible version in
  let* name := get_flex_string flex in
  let* results_by_partition := get_flex_structs flex "AddPartitionsToTxnPartitionResult" (AddPartitionsToTxnPartitionResult.decode_with_budget version) in
  let* unknown_tagged_fields := get_if flex [] get_tagged_fields_with_budget in
  bdec_ret (mk name results_by_partition unknown_tagged_fields).

Definition decode_with_limits (version : Z) : Limits → dec t :=
  with_limits (decode_with_budget version).
Definition decode (version : Z) : dec t := with_default_limits (decode_with_budget version).

End decode.

Definition valid (version : Z) (x : t) : Prop :=
  let flex := is_flexible version in
  str_ok flex (name x) ∧
  arr_ok flex (AddPartitionsToTxnPartitionResult.valid version) (results_by_partition x) ∧
  in_version flex tags_ok [] (unknown_tagged_fields x).

Lemma add_partitions_to_txn_response_AddPartitionsToTxnTopicResult_agrees {R : Runtime} version x :
  valid version x → pairs1 (encode version x) (decode_with_budget version) x.
Proof.
  unfold valid, encode, decode_with_budget, is_flexible. cbv zeta. agree1; by destruct x.
Qed.
#[global] Hint Resolve add_partitions_to_txn_response_AddPartitionsToTxnTopicResult_agrees : fields.

Lemma add_partitions_to_txn_response_AddPartitionsToTxnTopicResult_settles {R : Runtime} version :
  settles (encode version) (valid version) (decode_with_budget version).
Proof. unfold valid, encode, decode_with_budget, is_flexible. cbv zeta. settle. Qed.
#[global] Hint Resolve add_partitions_to_txn_response_AddPartitionsToTxnTopicResult_settles : settles.

End AddPartitionsToTxnTopicResult.

Module AddPartitionsToTxnResult.

Record t : Type := mk {
  transactional_id : string;
  topic_results : list AddPartitionsToTxnTopicResult.t;
  unknown_tagged_fields : list RawTaggedField;
}.
#[global] Instance t_eq_dec : EqDecision t.
Proof. solve_decision. Defined.

Definition default : t := {|
  transactional_id := "";
  topic_results := [];
  unknown_tagged_fields := [] |}.

Definition encode (version : Z) (x : t) : enc :=
  let flex := is_flexible version in
  put_if (version >=? 4) (put_flex_string flex (transactional_id x)) ;;
  put_if (version >=? 4) (put_flex_array flex (AddPartitionsToTxnTopicResult.encode version) (topic_results x)) ;;
  put_if flex (put_tagged_fields (unknown_tagged_fields x)) ;;
  enc_ret.

Section decode.
Context {R : Runtime}.

Definition decode_with_budget (version : Z) : bdec t :=
  let flex := is_flexible version in
  let* transactional_id := get_if (version >=? 4) "" (get_flex_string flex) in
  let* topic_results := get_if (version >=? 4) [] (get_flex_structs flex "AddPartitionsToTxnTopicResult" (AddPartitionsToTxnTopicResult.decode_with_budget version)) in
  let* unknown_tagged_fields := get_if flex [] get_tagged_fields_with_budget in
  bdec_ret (mk transactional_id topic_results unknown_tagged_fields).

Definition decode_with_limits (version : Z) : Limits → dec t :=
  with_limits (decode_with_budget version).
Definition decode (version : Z) : dec t := with_default_limits (decode_with_budget version).

End decode.

Definition valid (version : Z) (x : t) : Prop :=
  let flex := is_flexible version in
  in_version (version >=? 4) (str_ok flex) "" (transactional_id x) ∧
  in_version (version >=? 4) (arr_ok flex (AddPartitionsToTxnTopicResult.valid version)) [] (topic_results x) ∧
  in_version flex tags_ok [] (unknown_tagged_fields x).

Lemma add_partitions_to_txn_response_AddPartitionsToTxnResult_agrees {R : Runtime} version x :
  3 ≤ version →
  valid version x → pairs1 (encode version x) (decode_with_budget version) x.
Proof.
  intros ?. unfold valid, encode, decode_with_budget, is_flexible. cbv zeta. agree1; by destruct x.
Qed.
#[global] Hint Resolve add_partitions_to_txn_response_AddPartitionsToTxnResult_agrees : fields.

Lemma add_partitions_to_txn_response_AddPartitionsToTxnResult_settles {R : Runtime} version :
  settles (encode version) (valid version) (decode_with_budget version).
Proof. unfold valid, encode, decode_with_budget, is_flexible. cbv zeta. settle. Qed.
#[global] Hint Resolve add_partitions_to_txn_response_AddPartitionsToTxnResult_settles : settles.

End AddPartitionsToTxnResult.

Module AddPartitionsToTxnResponse.

Record t : Type := mk {
  throttle_time_ms : Z;
  error_code : Z;
  results_by_transaction : list AddPartitionsToTxnResult.t;
  results_by_topic_v3_and_below : list AddPartitionsToTxnTopicResult.t;
  unknown_tagged_fields : list RawTaggedField;
}.
#[global] Instance t_eq_dec : EqDecision t.
Proof. solve_decision. Defined.

Definition default : t := {|
  throttle_time_ms := 0;
  error_code := 0;
  results_by_transaction := [];
  results_by_topic_v3_and_below := [];
  unknown_tagged_fields := [] |}.

Definition API_KEY : Z := 24.
Definition MIN_VERSION : Z := 0.
Definition MAX_VERSION : Z := 5.

Definition encode (version : Z) (x : t) : enc :=
  let flex := is_flexible version in
  put_i32 (throttle_time_ms x) ;;
  put_if (version >=? 4) (put_i16 (error_code x)) ;;
  put_if (version >=? 4) (put_flex_array flex (AddPartitionsToTxnResult.encode version) (results_by_transaction x)) ;;
  put_if (version <=? 3) (put_flex_array flex (AddPartitionsToTxnTopicResult.encode version) (results_by_topic_v3_and_below x)) ;;
  put_if flex (put_tagged_fields (unknown_tagged_fields x)) ;;
  enc_ret.

Section decode.
Context {R : Runtime}.

Definition decode_with_budget (version : Z) : bdec t :=
  let flex := is_flexible version in
  let* throttle_time_ms := lift get_i32 in
  let* error_code := get_if (version >=? 4) 0 (lift get_i16) in
  let* results_by_transaction := get_if (version >=? 4) [] (get_flex_structs flex "AddPartitionsToTxnResult" (AddPartitionsToTxnResult.decode_with_budget version)) in
  let* results_by_topic_v3_and_below := get_if (version <=? 3) [] (get_flex_structs flex "AddPartitionsToTxnTopicResult" (AddPartitionsToTxnTopicResult.decode_with_budget version)) in
  let* unknown_tagged_fields := get_if flex [] get_tagged_fields_with_budget in
  bdec_ret (mk throttle_time_ms error_code results_by_transaction results_by_topic_v3_and_below unknown_tagged_fields).

Definition decode_with_limits (version : Z) : Limits → dec t :=
  with_limits (decode_with_budget version).
Definition decode (version : Z) : dec t := with_default_limits (decode_with_budget version).

End decode.

Definition valid (version : Z) (x : t) : Prop :=
  let flex := is_flexible version in
  is_i32 (throttle_time_ms x) ∧
  in_version (version >=? 4) is_i16 0 (error_code x) ∧
  in_version (version >=? 4) (arr_ok flex (AddPartitionsToTxnResult.valid version)) [] (results_by_transaction x) ∧
  in_version (version <=? 3) (arr_ok flex (AddPartitionsToTxnTopicResult.valid version)) [] (results_by_topic_v3_and_below x) ∧
  in_version flex tags_ok [] (unknown_tagged_fields x).

Lemma add_partitions_to_txn_response_AddPartitionsToTxnResponse_agrees {R : Runtime} version x :
  valid version x → pairs (encode version x) (decode_with_budget version) x.
Proof.
  unfold valid, encode, decode_with_budget, is_flexible. cbv zeta. agree. by destruct x.
Qed.
#[global] Hint Resolve add_partitions_to_txn_response_AddPartitionsToTxnResponse_agrees : fields.

Lemma add_partitions_to_txn_response_AddPartitionsToTxnResponse_settles {R : Runtime} version :
  settles (encode version) (valid version) (decode_with_budget version).
Proof. unfold valid, encode, decode_with_budget, is_flexible. cbv zeta. settle. Qed.
#[global] Hint Resolve add_partitions_to_txn_response_AddPartitionsToTxnResponse_settles : settles.

End AddPartitionsToTxnResponse.

Lemma AddPartitionsToTxnResponse_agrees (R : Runtime) version x :
  AddPartitionsToTxnResponse.MIN_VERSION ≤ version ≤ AddPartitionsToTxnResponse.MAX_VERSION → AddPartitionsToTxnResponse.valid version x →
  pairs (AddPartitionsToTxnResponse.encode version x) (AddPartitionsToTxnResponse.decode_with_budget version) x.
Proof.
  intros _ ?. by apply AddPartitionsToTxnResponse.add_partitions_to_txn_response_AddPartitionsToTxnResponse_agrees.
Qed.

#[global] Instance AddPartitionsToTxnResponse_Message : Message AddPartitionsToTxnResponse.t := {|
  Message.API_KEY := AddPartitionsToTxnResponse.API_KEY;
  Message.MIN_VERSION := AddPartitionsToTxnResponse.MIN_VERSION;
  Message.MAX_VERSION := AddPartitionsToTxnResponse.MAX_VERSION;
  Message.encode := AddPartitionsToTxnResponse.encode;
  Message.decode_with_budget := @AddPartitionsToTxnResponse.decode_with_budget;
  Message.throttle_time_ms := λ x, Some (AddPartitionsToTxnResponse.throttle_time_ms x);
  Message.valid := AddPartitionsToTxnResponse.valid;
  Message.agrees := AddPartitionsToTxnResponse_agrees;
  Message.settled := @AddPartitionsToTxnResponse.add_partitions_to_txn_response_AddPartitionsToTxnResponse_settles |}.
#[global] Instance AddPartitionsToTxnResponse_Default : Default AddPartitionsToTxnResponse.t := AddPartitionsToTxnResponse.default.

End add_partitions_to_txn_response.

(** ** [add_offsets_to_txn_request.rs] *)

Module add_offsets_to_txn_request.

Definition is_flexible (version : Z) : bool := version >=? 3.

Module AddOffsetsToTxnRequest.

Record t : Type := mk {
  transactional_id : string;
  producer_id : Z;
  producer_epoch : Z;
  group_id : string;
  unknown_tagged_fields : list RawTaggedField;
}.
#[global] Instance t_eq_dec : EqDecision t.
Proof. solve_decision. Defined.

Definition default : t := {|
  transactional_id := "";
  producer_id := 0;
  producer_epoch := 0;
  group_id := "";
  unknown_tagged_fields := [] |}.

Definition API_KEY : Z := 25.
Definition MIN_VERSION : Z := 0.
Definition MAX_VERSION : Z := 4.

Definition encode (version : Z) (x : t) : enc :=
  let flex := is_flexible version in
  put_flex_string flex (transactional_id x) ;;
  put_i64 (producer_id x) ;;
  put_i16 (producer_epoch x) ;;
  put_flex_string flex (group_id x) ;;
  put_if flex (put_tagged_fields (unknown_tagged_fields x)) ;;
  enc_ret.

Section decode.
Context {R : Runtime}.

Definition decode_with_budget (version : Z) : bdec t :=
  let flex := is_flexible version in
  let* transactional_id := get_flex_string flex in
  let* producer_id := lift get_i64 in
  let* producer_epoch := lift get_i16 in
  let* group_id := get_flex_string flex in
  let* unknown_tagged_fields := get_if flex [] get_tagged_fields_with_budget in
  bdec_ret (mk transactional_id producer_id producer_epoch group_id unknown_tagged_fields).

Definition decode_with_limits (version : Z) : Limits → dec t :=
  with_limits (decode_with_budget version).
Definition decode (version : Z) : dec t := with_default_limits (decode_with_budget version).

End decode.

Definition valid (version : Z) (x : t) : Prop :=
  let flex := is_flexible version in
  str_ok flex (transactional_id x) ∧
  is_i64 (producer_id x) ∧
  is_i16 (producer_epoch x) ∧
  str_ok flex (group_id x) ∧
  in_version flex tags_ok [] (unknown_tagged_fields x).

Lemma add_offsets_to_txn_request_AddOffsetsToTxnRequest_agrees {R : Runtime} version x :
  valid version x → pairs (encode version x) (decode_with_budget version) x.
Proof.
  unfold valid, encode, decode_with_budget, is_flexible. cbv zeta. agree. by destruct x.
Qed.
#[global] Hint Resolve add_offsets_to_txn_request_AddOffsetsToTxnRequest_agrees : fields.

Lemma add_offsets_to_txn_request_AddOffsetsToTxnRequest_settles {R : Runtime} version :
  settles (encode version) (valid version) (decode_with_budget version).
Proof. unfold valid, encode, decode_with_budget, is_flexible. cbv zeta. settle. Qed.
#[global] Hint Resolve add_offsets_to_txn_request_AddOffsetsToTxnRequest_settles : settles.

End AddOffsetsToTxnRequest.

Lemma AddOffsetsToTxnRequest_agrees (R : Runtime) version x :
  AddOffsetsToTxnRequest.MIN_VERSION ≤ version ≤ AddOffsetsToTxnRequest.MAX_VERSION → AddOffsetsToTxnRequest.valid version x →
  pairs (AddOffsetsToTxnRequest.encode version x) (AddOffsetsToTxnRequest.decode_with_budget version) x.
Proof.
  intros _ ?. by apply AddOffsetsToTxnRequest.add_offsets_to_txn_request_AddOffsetsToTxnRequest_agrees.
Qed.

#[global] Instance AddOffsetsToTxnRequest_Message : Message AddOffsetsToTxnRequest.t := {|
  Message.API_KEY := AddOffsetsToTxnRequest.API_KEY;
  Message.MIN_VERSION := AddOffsetsToTxnRequest.MIN_VERSION;
  Message.MAX_VERSION := AddOffsetsToTxnRequest.MAX_VERSION;
  Message.encode := AddOffsetsToTxnRequest.encode;
  Message.decode_with_budget := @AddOffsetsToTxnRequest.decode_with_budget;
  Message.throttle_time_ms := λ _, None;
  Message.valid := AddOffsetsToTxnRequest.valid;
  Message.agrees := AddOffsetsToTxnRequest_agrees;
  Message.settled := @AddOffsetsToTxnRequest.add_offsets_to_txn_request_AddOffsetsToTxnRequest_settles |}.
#[global] Instance AddOffsetsToTxnRequest_Default : Default AddOffsetsToTxnRequest.t := AddOffsetsToTxnRequest.default.

End add_offsets_to_txn_request.

(** ** [add_offsets_to_txn_response.rs] *)

Module add_offsets_to_txn_response.

Definition is_flexible (version : Z) : bool := version >=? 3.

Module AddOffsetsToTxnResponse.

Record t : Type := mk {
  throttle_time_ms : Z;
  error_code : Z;
  unknown_tagged_fields : list RawTaggedField;
}.
#[global] Instance t_eq_dec : EqDecision t.
Proof. solve_decision. Defined.

Definition default : t := {|
  throttle_time_ms := 0;
  error_code := 0;
  unknown_tagged_fields := [] |}.

Definition API_KEY : Z := 25.
Definition MIN_VERSION : Z := 0.
Definition MAX_VERSION : Z := 4.

Definition encode (version : Z) (x : t) : enc :=
  let flex := is_flexible version in
  put_i32 (throttle_time_ms x) ;;
  put_i16 (error_code x) ;;
  put_if flex (put_tagged_fields (unknown_tagged_fields x)) ;;
  enc_ret.

Section decode.
Context {R : Runtime}.

Definition decode_with_budget (version : Z) : bdec t :=
  let flex := is_flexible version in
  let* throttle_time_ms := lift get_i32 in
  let* error_code := lift get_i16 in
  let* unknown_tagged_fields := get_if flex [] get_tagged_fields_with_budget in
  bdec_ret (mk throttle_time_ms error_code unknown_tagged_fields).

Definition decode_with_limits (version : Z) : Limits → dec t :=
  with_limits (decode_with_budget version).
Definition decode (version : Z) : dec t := with_default_limits (decode_with_budget version).

End decode.

Definition valid (version : Z) (x : t) : Prop :=
  let flex := is_flexible version in
  is_i32 (throttle_time_ms x) ∧
  is_i16 (error_code x) ∧
  in_version flex tags_ok [] (unknown_tagged_fields x).

Lemma add_offsets_to_txn_response_AddOffsetsToTxnResponse_agrees {R : Runtime} version x :
  valid version x → pairs (encode version x) (decode_with_budget version) x.
Proof.
  unfold valid, encode, decode_with_budget, is_flexible. cbv zeta. agree. by destruct x.
Qed.
#[global] Hint Resolve add_offsets_to_txn_response_AddOffsetsToTxnResponse_agrees : fields.

Lemma add_offsets_to_txn_response_AddOffsetsToTxnResponse_settles {R : Runtime} version :
  settles (encode version) (valid version) (decode_with_budget version).
Proof. unfold valid, encode, decode_with_budget, is_flexible. cbv zeta. settle. Qed.
#[global] Hint Resolve add_offsets_to_txn_response_AddOffsetsToTxnResponse_settles : settles.

End AddOffsetsToTxnResponse.

Lemma AddOffsetsToTxnResponse_agrees (R : Runtime) version x :
  AddOffsetsToTxnResponse.MIN_VERSION ≤ version ≤ AddOffsetsToTxnResponse.MAX_VERSION → AddOffsetsToTxnResponse.valid version x →
  pairs (AddOffsetsToTxnResponse.encode version x) (AddOffsetsToTxnResponse.decode_with_budget version) x.
Proof.
  intros _ ?. by apply AddOffsetsToTxnResponse.add_offsets_to_txn_response_AddOffsetsToTxnResponse_agrees.
Qed.

#[global] Instance AddOffsetsToTxnResponse_Message : Message AddOffsetsToTxnResponse.t := {|
  Message.API_KEY := AddOffsetsToTxnResponse.API_KEY;
  Message.MIN_VERSION := AddOffsetsToTxnResponse.MIN_VERSION;
  Message.MAX_VERSION := AddOffsetsToTxnResponse.MAX_VERSION;
  Message.encode := AddOffsetsToTxnResponse.encode;
  Message.decode_with_budget := @AddOffsetsToTxnResponse.decode_with_budget;
  Message.throttle_time_ms := λ x, Some (AddOffsetsToTxnResponse.throttle_time_ms x);
  Message.valid := AddOffsetsToTxnResponse.valid;
  Message.agrees := AddOffsetsToTxnResponse_agrees;
  Message.settled := @AddOffsetsToTxnResponse.add_offsets_to_txn_response_AddOffsetsToTxnResponse_settles |}.
#[global] Instance AddOffsetsToTxnResponse_Default : Default AddOffsetsToTxnResponse.t := AddOffsetsToTxnResponse.default.

End add_offsets_to_txn_response.

(** ** [end_txn_request.rs] *)

Module end_txn_request.

Definition is_flexible (version : Z) : bool := version >=? 3.

Module EndTxnRequest.

Record t : Type := mk {
  transactional_id : string;
  producer_id : Z;
  producer_epoch : Z;
  committed : bool;
  unknown_tagged_fields : list RawTaggedField;
}.
#[global] Instance t_eq_dec : EqDecision t.
Proof. solve_decision. Defined.

Definition default : t := {|
  transactional_id := "";
  producer_id := 0;
  producer_epoch := 0;
  committed := false;
  unknown_tagged_fields := [] |}.

Definition API_KEY : Z := 26.
Definition MIN_VERSION : Z := 0.
Definition MAX_VERSION : Z := 5.

Definition encode (version : Z) (x : t) : enc :=
  let flex := is_flexible version in
  put_flex_string flex (transactional_id x) ;;
  put_i64 (producer_id x) ;;
  put_i16 (producer_epoch x) ;;
  put_bool (committed x) ;;
  put_if flex (put_tagged_fields (unknown_tagged_fields x)) ;;
  enc_ret.

Section decode.
Context {R : Runtime}.

Definition decode_with_budget (version : Z) : bdec t :=
  let flex := is_flexible version in
  let* transactional_id := get_flex_string flex in
  let* producer_id := lift get_i64 in
  let* producer_epoch := lift get_i16 in
  let* committed := lift get_bool in
  let* unknown_tagged_fields := get_if flex [] get_tagged_fields_with_budget in
  bdec_ret (mk transactional_id producer_id producer_epoch committed unknown_tagged_fields).

Definition decode_with_limits (version : Z) : Limits → dec t :=
  with_limits (decode_with_budget version).
Definition decode (version : Z) : dec t := with_default_limits (decode_with_budget version).

End decode.

Definition valid (version : Z) (x : t) : Prop :=
  let flex := is_flexible version in
  str_ok flex (transactional_id x) ∧
  is_i64 (producer_id x) ∧
  is_i16 (producer_epoch x) ∧
  any (committed x) ∧
  in_version flex tags_ok [] (unknown_tagged_fields x).

Lemma end_txn_request_EndTxnRequest_agrees {R : Runtime} version x :
  valid version x → pairs (encode version x) (decode_with_budget version) x.
Proof.
  unfold valid, encode, decode_with_budget, is_flexible. cbv zeta. agree. by destruct x.
Qed.
#[global] Hint Resolve end_txn_request_EndTxnRequest_agrees : fields.

Lemma end_txn_request_EndTxnRequest_settles {R : Runtime} version :
  settles (encode version) (valid version) (decode_with_budget version).
Proof. unfold valid, encode, decode_with_budget, is_flexible. cbv zeta. settle. Qed.
#[global] Hint Resolve end_txn_request_EndTxnRequest_settles : settles.

End EndTxnRequest.

Lemma EndTxnRequest_agrees (R : Runtime) version x :
  EndTxnRequest.MIN_VERSION ≤ version ≤ EndTxnRequest.MAX_VERSION → EndTxnRequest.valid version x →
  pairs (EndTxnRequest.encode version x) (EndTxnRequest.decode_with_budget version) x.
Proof.
  intros _ ?. by apply EndTxnRequest.end_txn_request_EndTxnRequest_agrees.
Qed.

#[global] Instance EndTxnRequest_Message : Message EndTxnRequest.t := {|
  Message.API_KEY := EndTxnRequest.API_KEY;
  Message.MIN_VERSION := EndTxnRequest.MIN_VERSION;
  Message.MAX_VERSION := EndTxnRequest.MAX_VERSION;
  Message.encode := EndTxnRequest.encode;
  Message.decode_with_budget := @EndTxnRequest.decode_with_budget;
  Message.throttle_time_ms := λ _, None;
  Message.valid := EndTxnRequest.valid;
  Message.agrees := EndTxnRequest_agrees;
  Message.settled := @EndTxnRequest.end_txn_request_EndTxnRequest_settles |}.
#[global] Instance EndTxnRequest_Default : Default EndTxnRequest.t := EndTxnRequest.default.

End end_txn_request.

(** ** [end_txn_response.rs] *)

Module end_txn_response.

Definition is_flexible (version : Z) : bool := version >=? 3.

Module EndTxnResponse.

Record t : Type := mk {
  throttle_time_ms : Z;
  error_code : Z;
  producer_id : Z;
  producer_epoch : Z;
  unknown_tagged_fields : list RawTaggedField;
}.
#[global] Instance t_eq_dec : EqDecision t.
Proof. solve_decision. Defined.

Definition default : t := {|
  throttle_time_ms := 0;
  error_code := 0;
  producer_id := (-1);
  producer_epoch := (-1);
  unknown_tagged_fields := [] |}.

Definition API_KEY : Z := 26.
Definition MIN_VERSION : Z := 0.
Definition MAX_VERSION : Z := 5.

Definition encode (version : Z) (x : t) : enc :=
  let flex := is_flexible version in
  put_i32 (throttle_time_ms x) ;;
  put_i16 (error_code x) ;;
  put_if (version >=? 5) (put_i64 (producer_id x)) ;;
  put_if (version >=? 5) (put_i16 (producer_epoch x)) ;;
  put_if flex (put_tagged_fields (unknown_tagged_fields x)) ;;
  enc_ret.

Section decode.
Context {R : Runtime}.

Definition decode_with_budget (version : Z) : bdec t :=
  let flex := is_flexible version in
  let* throttle_time_ms := lift get_i32 in
  let* error_code := lift get_i16 in
  let* producer_id := get_if (version >=? 5) (-1) (lift get_i64) in
  let* producer_epoch := get_if (version >=? 5) (-1) (lift get_i16) in
  let* unknown_tagged_fields := get_if flex [] get_tagged_fields_with_budget in
  bdec_ret (mk throttle_time_ms error_code producer_id producer_epoch unknown_tagged_fields).

Definition decode_with_limits (version : Z) : Limits → dec t :=
  with_limits (decode_with_budget version).
Definition decode (version : Z) : dec t := with_default_limits (decode_with_budget version).

End decode.

Definition valid (version : Z) (x : t) : Prop :=
  let flex := is_flexible version in
  is_i32 (throttle_time_ms x) ∧
  is_i16 (error_code x) ∧
  in_version (version >=? 5) is_i64 (-1) (producer_id x) ∧
  in_version (version >=? 5) is_i16 (-1) (producer_epoch x) ∧
  in_version flex tags_ok [] (unknown_tagged_fields x).

Lemma end_txn_response_EndTxnResponse_agrees {R : Runtime} version x :
  valid version x → pairs (encode version x) (decode_with_budget version) x.
Proof.
  unfold valid, encode, decode_with_budget, is_flexible. cbv zeta. agree. by destruct x.
Qed.
#[global] Hint Resolve end_txn_response_EndTxnResponse_agrees : fields.

Lemma end_txn_response_EndTxnResponse_settles {R : Runtime} version :
  settles (encode version) (valid version) (decode_with_budget version).
Proof. unfold valid, encode, decode_with_budget, is_flexible. cbv zeta. settle. Qed.
#[global] Hint Resolve end_txn_response_EndTxnResponse_settles : settles.

End EndTxnResponse.

Lemma EndTxnResponse_agrees (R : Runtime) version x :
  EndTxnResponse.MIN_VERSION ≤ version ≤ EndTxnResponse.MAX_VERSION → EndTxnResponse.valid version x →
  pairs (EndTxnResponse.encode version x) (EndTxnResponse.decode_with_budget version) x.
Proof.
  intros _ ?. by apply EndTxnResponse.end_txn_response_EndTxnResponse_agrees.
Qed.

#[global] Instance EndTxnResponse_Message : Message EndTxnResponse.t := {|
  Message.API_KEY := EndTxnResponse.API_KEY;
  Message.MIN_VERSION := EndTxnResponse.MIN_VERSION;
  Message.MAX_VERSION := EndTxnResponse.MAX_VERSION;
  Message.encode := EndTxnResponse.encode;
  Message.decode_with_budget := @EndTxnResponse.decode_with_budget;
  Message.throttle_time_ms := λ x, Some (EndTxnResponse.throttle_time_ms x);
  Message.valid := EndTxnResponse.valid;
  Message.agrees := EndTxnResponse_agrees;
  Message.settled := @EndTxnResponse.end_txn_response_EndTxnResponse_settles |}.
#[global] Instance EndTxnResponse_Default : Default EndTxnResponse.t := EndTxnResponse.default.

End end_txn_response.

(** ** [txn_offset_commit_request.rs] *)

Module txn_offset_commit_request.

Definition is_flexible (version : Z) : bool := version >=? 3.

Module TxnOffsetCommitRequestPartition.

Record t : Type := mk {
  partition_index : Z;
  committed_offset : Z;
  committed_leader_epoch : Z;
  committed_metadata : option string;
  unknown_tagged_fields : list RawTaggedField;
}.
#[global] Instance t_eq_dec : EqDecision t.
Proof. solve_decision. Defined.

Definition default : t := {|
  partition_index := 0;
  committed_offset := 0;
  committed_leader_epoch := (-1);
  committed_metadata := (Some "");
  unknown_tagged_fields := [] |}.

Definition encode (version : Z) (x : t) : enc :=
  let flex := is_flexible version in
  put_i32 (partition_index x) ;;
  put_i64 (committed_offset x) ;;
  put_if (version >=? 2) (put_i32 (committed_leader_epoch x)) ;;
  put_flex_nullable_string flex (committed_metadata x) ;;
  put_if flex (put_tagged_fields (unknown_tagged_fields x)) ;;
  enc_ret.

Section decode.
Context {R : Runtime}.

Definition decode_with_budget (version : Z) : bdec t :=
  let flex := is_flexible version in
  let* partition_index := lift get_i32 in
  let* committed_offset := lift get_i64 in
  let* committed_leader_epoch := get_if (version >=? 2) (-1) (lift get_i32) in
  let* committed_metadata := get_flex_nullable_string flex in
  let* unknown_tagged_fields := get_if flex [] get_tagged_fields_with_budget in
  bdec_ret (mk partition_index committed_offset committed_leader_epoch committed_metadata unknown_tagged_fields).

Definition decode_with_limits (version : Z) : Limits → dec t :=
  with_limits (decode_with_budget version).
Definition decode (version : Z) : dec t := with_default_limits (decode_with_budget version).

End decode.

Definition valid (version : Z) (x : t) : Prop :=
  let flex := is_flexible version in
  is_i32 (partition_index x) ∧
  is_i64 (committed_offset x) ∧
  in_version (version >=? 2) is_i32 (-1) (committed_leader_epoch x) ∧
  opt_valid true (str_ok flex) (committed_metadata x) ∧
  in_version flex tags_ok [] (unknown_tagged_fields x).

Lemma txn_offset_commit_request_TxnOffsetCommitRequestPartition_agrees {R : Runtime} version x :
  valid version x → pairs1 (encode version x) (decode_with_budget version) x.
Proof.
  unfold valid, encode, decode_with_budget, is_flexible. cbv zeta. agree1; by destruct x.
Qed.
#[global] Hint Resolve txn_offset_commit_request_TxnOffsetCommitRequestPartition_agrees : fields.

Lemma txn_offset_commit_request_TxnOffsetCommitRequestPartition_settles {R : Runtime} version :
  settles (encode version) (valid version) (decode_with_budget version).
Proof. unfold valid, encode, decode_with_budget, is_flexible. cbv zeta. settle. Qed.
#[global] Hint Resolve txn_offset_commit_request_TxnOffsetCommitRequestPartition_settles : settles.

End TxnOffsetCommitRequestPartition.

Module TxnOffsetCommitRequestTopic.

Record t : Type := mk {
  name : string;
  partitions : list TxnOffsetCommitRequestPartition.t;
  unknown_tagged_fields : list RawTaggedField;
}.
#[global] Instance t_eq_dec : EqDecision t.
Proof. solve_decision. Defined.

Definition default : t := {|
  name := "";
  partitions := [];
  unknown_tagged_fields := [] |}.

Definition encode (version : Z) (x : t) : enc :=
  let flex := is_flexible version in
  put_flex_string flex (name x) ;;
  put_flex_array flex (TxnOffsetCommitRequestPartition.encode version) (partitions x) ;;
  put_if flex (put_tagged_fields (unknown_tagged_fields x)) ;;
  enc_ret.

Section decode.
Context {R : Runtime}.

Definition decode_with_budget (version : Z) : bdec t :=
  let flex := is_flexible version in
  let* name := get_flex_string flex in
  let* partitions := get_flex_structs flex "TxnOffsetCommitRequestPartition" (TxnOffsetCommitRequestPartition.decode_with_budget version) in
  let* unknown_tagged_fields := get_if flex [] get_tagged_fields_with_budget in
  bdec_ret (mk name partitions unknown_tagged_fields).

Definition decode_with_limits (version : Z) : Limits → dec t :=
  with_limits (decode_with_budget version).
Definition decode (version : Z) : dec t := with_default_limits (decode_with_budget version).

End decode.

Definition valid (version : Z) (x : t) : Prop :=
  let flex := is_flexible version in
  str_ok flex (name x) ∧
  arr_ok flex (TxnOffsetCommitRequestPartition.valid version) (partitions x) ∧
  in_version flex tags_ok [] (unknown_tagged_fields x).

Lemma txn_offset_commit_request_TxnOffsetCommitRequestTopic_agrees {R : Runtime} version x :
  valid version x → pairs1 (encode version x) (decode_with_budget version) x.
Proof.
  unfold valid, encode, decode_with_budget, is_flexible. cbv zeta. agree1; by destruct x.
Qed.
#[global] Hint Resolve txn_offset_commit_request_TxnOffsetCommitRequestTopic_agrees : fields.

Lemma txn_offset_commit_request_TxnOffsetCommitRequestTopic_settles {R : Runtime} version :
  settles (encode version) (valid version) (decode_with_budget version).
Proof. unfold valid, encode, decode_with_budget, is_flexible. cbv zeta. settle. Qed.
#[global] Hint Resolve txn_offset_commit_request_TxnOffsetCommitRequestTopic_settles : settles.

End TxnOffsetCommitRequestTopic.

Module TxnOffsetCommitRequest.

Record t : Type := mk {
  transactional_id : string;
  group_id : string;
  producer_id : Z;
  producer_epoch : Z;
  generation_id : Z;
  member_id : string;
  group_instance_id : option string;
  topics : list TxnOffsetCommitRequestTopic.t;
  unknown_tagged_fields : list RawTaggedField;
}.
#[global] Instance t_eq_dec : EqDecision t.
Proof. solve_decision. Defined.

Definition default : t := {|
  transactional_id := "";
  group_id := "";
  producer_id := 0;
  producer_epoch := 0;
  generation_id := (-1);
  member_id := "";
  group_instance_id := None;
  topics := [];
  unknown_tagged_fields := [] |}.

Definition API_KEY : Z := 28.
Definition MIN_VERSION : Z := 0.
Definition MAX_VERSION : Z := 5.

Definition encode (version : Z) (x : t) : enc :=
  let flex := is_flexible version in
  put_flex_string flex (transactional_id x) ;;
  put_flex_string flex (group_id x) ;;
  put_i64 (producer_id x) ;;
  put_i16 (producer_epoch x) ;;
  put_if (version >=? 3) (put_i32 (generation_id x)) ;;
  put_if (version >=? 3) (put_flex_string flex (member_id x)) ;;
  put_if (version >=? 3) (put_flex_nullable_string flex (group_instance_id x)) ;;
  put_flex_array flex (TxnOffsetCommitRequestTopic.encode version) (topics x) ;;
  put_if flex (put_tagged_fields (unknown_tagged_fields x)) ;;
  enc_ret.

Section decode.
Context {R : Runtime}.

Definition decode_with_budget (version : Z) : bdec t :=
  let flex := is_flexible version in
  let* transactional_id := get_flex_string flex in
  let* group_id := get_flex_string flex in
  let* producer_id := lift get_i64 in
  let* producer_epoch := lift get_i16 in
  let* generation_id := get_if (version >=? 3) (-1) (lift get_i32) in
  let* member_id := get_if (version >=? 3) "" (get_flex_string flex) in
  let* group_instance_id := get_if (version >=? 3) None (get_flex_nullable_string flex) in
  let* topics := get_flex_structs flex "TxnOffsetCommitRequestTopic" (TxnOffsetCommitRequestTopic.decode_with_budget version) in
  let* unknown_tagged_fields := get_if flex [] get_tagged_fields_with_budget in
  bdec_ret (mk transactional_id group_id producer_id producer_epoch generation_id member_id group_instance_id topics unknown_tagged_fields).

Definition decode_with_limits (version : Z) : Limits → dec t :=
  with_limits (decode_with_budget version).
Definition decode (version : Z) : dec t := with_default_limits (decode_with_budget version).

End decode.

Definition valid (version : Z) (x : t) : Prop :=
  let flex := is_flexible version in
  str_ok flex (transactional_id x) ∧
  str_ok flex (group_id x) ∧
  is_i64 (producer_id x) ∧
  is_i16 (producer_epoch x) ∧
  in_version (version >=? 3) is_i32 (-1) (generation_id x) ∧
  in_version (version >=? 3) (str_ok flex) "" (member_id x) ∧
  in_version (version >=? 3) (opt_valid true (str_ok flex)) None (group_instance_id x) ∧
  arr_ok flex (TxnOffsetCommitRequestTopic.valid version) (topics x) ∧
  in_version flex tags_ok [] (unknown_tagged_fields x).

Lemma txn_offset_commit_request_TxnOffsetCommitRequest_agrees {R : Runtime} version x :
  valid version x → pairs (encode version x) (decode_with_budget version) x.
Proof.
  unfold valid, encode, decode_with_budget, is_flexible. cbv zeta. agree. by destruct x.
Qed.
#[global] Hint Resolve txn_offset_commit_request_TxnOffsetCommitRequest_agrees : fields.

Lemma txn_offset_commit_request_TxnOffsetCommitRequest_settles {R : Runtime} version :
  settles (encode version) (valid version) (decode_with_budget version).
Proof. unfold valid, encode, decode_with_budget, is_flexible. cbv zeta. settle. Qed.
#[global] Hint Resolve txn_offset_commit_request_TxnOffsetCommitRequest_settles : settles.

End TxnOffsetCommitRequest.

Lemma TxnOffsetCommitRequest_agrees (R : Runtime) version x :
  TxnOffsetCommitRequest.MIN_VERSION ≤ version ≤ TxnOffsetCommitRequest.MAX_VERSION → TxnOffsetCommitRequest.valid version x →
  pairs (TxnOffsetCommitRequest.encode version x) (TxnOffsetCommitRequest.decode_with_budget version) x.
Proof.
  intros _ ?. by apply TxnOffsetCommitRequest.txn_offset_commit_request_TxnOffsetCommitRequest_agrees.
Qed.

#[global] Instance TxnOffsetCommitRequest_Message : Message TxnOffsetCommitRequest.t := {|
  Message.API_KEY := TxnOffsetCommitRequest.API_KEY;
  Message.MIN_VERSION := TxnOffsetCommitRequest.MIN_VERSION;
  Message.MAX_VERSION := TxnOffsetCommitRequest.MAX_VERSION;
  Message.encode := TxnOffsetCommitRequest.encode;
  Message.decode_with_budget := @TxnOffsetCommitRequest.decode_with_budget;
  Message.throttle_time_ms := λ _, None;
  Message.valid := TxnOffsetCommitRequest.valid;
  Message.agrees := TxnOffsetCommitRequest_agrees;
  Message.settled := @TxnOffsetCommitRequest.txn_offset_commit_request_TxnOffsetCommitRequest_settles |}.
#[global] Instance TxnOffsetCommitRequest_Default : Default TxnOffsetCommitRequest.t := TxnOffsetCommitRequest.default.

End txn_offset_commit_request.

(** ** [txn_offset_commit_response.rs] *)

Module txn_offset_commit_response.

Definition is_flexible (version : Z) : bool := version >=? 3.

Module TxnOffsetCommitResponsePartition.

Record t : Type := mk {
  partition_index : Z;
  error_code : Z;
  unknown_tagged_fields : list RawTaggedField;
}.
#[global] Instance t_eq_dec : EqDecision t.
Proof. solve_decision. Defined.

Definition default : t := {|
  partition_index := 0;
  error_code := 0;
  unknown_tagged_fields := [] |}.

Definition encode (version : Z) (x : t) : enc :=
  let flex := is_flexible version in
  put_i32 (partition_index x) ;;
  put_i16 (error_code x) ;;
  put_if flex (put_tagged_fields (unknown_tagged_fields x)) ;;
  enc_ret.

Section decode.
Context {R : Runtime}.

Definition decode_with_budget (version : Z) : bdec t :=
  let flex := is_flexible version in
  let* partition_index := lift get_i32 in
  let* error_code := lift get_i16 in
  let* unknown_tagged_fields := get_if flex [] get_tagged_fields_with_budget in
  bdec_ret (mk partition_index error_code unknown_tagged_fields).

Definition decode_with_limits (version : Z) : Limits → dec t :=
  with_limits (decode_with_budget version).
Definition decode (version : Z) : dec t := with_default_limits (decode_with_budget version).

End decode.

Definition valid (version : Z) (x : t) : Prop :=
  let flex := is_flexible version in
  is_i32 (partition_index x) ∧
  is_i16 (error_code x) ∧
  in_version flex tags_ok [] (unknown_tagged_fields x).

Lemma txn_offset_commit_response_TxnOffsetCommitResponsePartition_agrees {R : Runtime} version x :
  valid version x → pairs1 (encode version x) (decode_with_budget version) x.
Proof.
  unfold valid, encode, decode_with_budget, is_flexible. cbv zeta. agree1; by destruct x.
Qed.
#[global] Hint Resolve txn_offset_commit_response_TxnOffsetCommitResponsePartition_agrees : fields.

Lemma txn_offset_commit_response_TxnOffsetCommitResponsePartition_settles {R : Runtime} version :
  settles (encode version) (valid version) (decode_with_budget version).
Proof. unfold valid, encode, decode_with_budget, is_flexible. cbv zeta. settle. Qed.
#[global] Hint Resolve txn_offset_commit_response_TxnOffsetCommitResponsePartition_settles : settles.

End TxnOffsetCommitResponsePartition.

Module TxnOffsetCommitResponseTopic.

Record t : Type := mk {
  name : string;
  partitions : list TxnOffsetCommitResponsePartition.t;
  unknown_tagged_fields : list RawTaggedField;
}.
#[global] Instance t_eq_dec : EqDecision t.
Proof. solve_decision. Defined.

Definition default : t := {|
  name := "";
  partitions := [];
  unknown_tagged_fields := [] |}.

Definition encode (version : Z) (x : t) : enc :=
  let flex := is_flexible version in
  put_flex_string flex (name x) ;;
  put_flex_array flex (TxnOffsetCommitResponsePartition.encode version) (partitions x) ;;
  put_if flex (put_tagged_fields (unknown_tagged_fields x)) ;;
  enc_ret.

Section decode.
Context {R : Runtime}.

Definition decode_with_budget (version : Z) : bdec t :=
  let flex := is_flexible version in
  let* name := get_flex_string flex in
  let* partitions := get_flex_structs flex "TxnOffsetCommitResponsePartition" (TxnOffsetCommitResponsePartition.decode_with_budget version) in
  let* unknown_tagged_fields := get_if flex [] get_tagged_fields_with_budget in
  bdec_ret (mk name partitions unknown_tagged_fields).

Definition decode_with_limits (version : Z) : Limits → dec t :=
  with_limits (decode_with_budget version).
Definition decode (version : Z) : dec t := with_default_limits (decode_with_budget version).

End decode.

Definition valid (version : Z) (x : t) : Prop :=
  let flex := is_flexible version in
  str_ok flex (name x) ∧
  arr_ok flex (TxnOffsetCommitResponsePartition.valid version) (partitions x) ∧
  in_version flex tags_ok [] (unknown_tagged_fields x).

Lemma txn_offset_commit_response_TxnOffsetCommitResponseTopic_agrees {R : Runtime} version x :
  valid version x → pairs1 (encode version x) (decode_with_budget version) x.
Proof.
  unfold valid, encode, decode_with_budget, is_flexible. cbv zeta. agree1; by destruct x.
Qed.
#[global] Hint Resolve txn_offset_commit_response_TxnOffsetCommitResponseTopic_agrees : fields.

Lemma txn_offset_commit_response_TxnOffsetCommitResponseTopic_settles {R : Runtime} version :
  settles (encode version) (valid version) (decode_with_budget version).
Proof. unfold valid, encode, decode_with_budget, is_flexible. cbv zeta. settle. Qed.
#[global] Hint Resolve txn_offset_commit_response_TxnOffsetCommitResponseTopic_settles : settles.

End TxnOffsetCommitResponseTopic.

Module TxnOffsetCommitResponse.

Record t : Type := mk {
  throttle_time_ms : Z;
  topics : list TxnOffsetCommitResponseTopic.t;
  unknown_tagged_fields : list RawTaggedField;
}.
#[global] Instance t_eq_dec : EqDecision t.
Proof. solve_decision. Defined.

Definition default : t := {|
  throttle_time_ms := 0;
  topics := [];
  unknown_tagged_fields := [] |}.

Definition API_KEY : Z := 28.
Definition MIN_VERSION : Z := 0.
Definition MAX_VERSION : Z := 5.

Definition encode (version : Z) (x : t) : enc :=
  let flex := is_flexible version in
  put_i32 (throttle_time_ms x) ;;
  put_flex_array flex (TxnOffsetCommitResponseTopic.encode version) (topics x) ;;
  put_if flex (put_tagged_fields (unknown_tagged_fields x)) ;;
  enc_ret.

Section decode.
Context {R : Runtime}.

Definition decode_with_budget (version : Z) : bdec t :=
  let flex := is_flexible version in
  let* throttle_time_ms := lift get_i32 in
  let* topics := get_flex_structs flex "TxnOffsetCommitResponseTopic" (TxnOffsetCommitResponseTopic.decode_with_budget version) in
  let* unknown_tagged_fields := get_if flex [] get_tagged_fields_with_budget in
  bdec_ret (mk throttle_time_ms topics unknown_tagged_fields).

Definition decode_with_limits (version : Z) : Limits → dec t :=
  with_limits (decode_with_budget version).
Definition decode (version : Z) : dec t := with_default_limits (decode_with_budget version).

End decode.

Definition valid (version : Z) (x : t) : Prop :=
  let flex := is_flexible version in
  is_i32 (throttle_time_ms x) ∧
  arr_ok flex (TxnOffsetCommitResponseTopic.valid version) (topics x) ∧
  in_version flex tags_ok [] (unknown_tagged_fields x).

Lemma txn_offset_commit_response_TxnOffsetCommitResponse_agrees {R : Runtime} version x :
  valid version x → pairs (encode version x) (decode_with_budget version) x.
Proof.
  unfold valid, encode, decode_with_budget, is_flexible. cbv zeta. agree. by destruct x.
Qed.
#[global] Hint Resolve txn_offset_commit_response_TxnOffsetCommitResponse_agrees : fields.

Lemma txn_offset_commit_response_TxnOffsetCommitResponse_settles {R : Runtime} version :
  settles (encode version) (valid version) (decode_with_budget version).
Proof. unfold valid, encode, decode_with_budget, is_flexible. cbv zeta. settle. Qed.
#[global] Hint Resolve txn_offset_commit_response_TxnOffsetCommitResponse_settles : settles.

End TxnOffsetCommitResponse.

Lemma TxnOffsetCommitResponse_agrees (R : Runtime) version x :
  TxnOffsetCommitResponse.MIN_VERSION ≤ version ≤ TxnOffsetCommitResponse.MAX_VERSION → TxnOffsetCommitResponse.valid version x →
  pairs (TxnOffsetCommitResponse.encode version x) (TxnOffsetCommitResponse.decode_with_budget version) x.
Proof.
  intros _ ?. by apply TxnOffsetCommitResponse.txn_offset_commit_response_TxnOffsetCommitResponse_agrees.
Qed.

#[global] Instance TxnOffsetCommitResponse_Message : Message TxnOffsetCommitResponse.t := {|
  Message.API_KEY := TxnOffsetCommitResponse.API_KEY;
  Message.MIN_VERSION := TxnOffsetCommitResponse.MIN_VERSION;
  Message.MAX_VERSION := TxnOffsetCommitResponse.MAX_VERSION;
  Message.encode := TxnOffsetCommitResponse.encode;
  Message.decode_with_budget := @TxnOffsetCommitResponse.decode_with_budget;
  Message.throttle_time_ms := λ x, Some (TxnOffsetCommitResponse.throttle_time_ms x);
  Message.valid := TxnOffsetCommitResponse.valid;
  Message.agrees := TxnOffsetCommitResponse_agrees;
  Message.settled := @TxnOffsetCommitResponse.txn_offset_commit_response_TxnOffsetCommitResponse_settles |}.
#[global] Instance TxnOffsetCommitResponse_Default : Default TxnOffsetCommitResponse.t := TxnOffsetCommitResponse.default.

End txn_offset_commit_response.
