(* ===== verification/MsgGroup.v ===== *)
(** * Group membership messages and consumer protocol payloads

    [find_coordinator_request.rs], [find_coordinator_response.rs], [join_group_request.rs], [join_group_response.rs], [sync_group_request.rs], [sync_group_response.rs], [heartbeat_request.rs], [heartbeat_response.rs], [leave_group_request.rs], [leave_group_response.rs],
    [consumer_protocol_subscription.rs], [consumer_protocol_assignment.rs]
    of [odradek-protocol/src/messages/]: each message a Module named after its
    file, each struct a Module with its record [t], its defaults, its encoder and
    decoder, what makes a value representable at a version ([valid]) and the
    agreement of the two. *)
From S2P Require Import Prelude Budget Codec Wire Fields KnownTags Settles MessageTrait.

(** ** [find_coordinator_request.rs] *)

Module find_coordinator_request.

Definition is_flexible (version : Z) : bool := version >=? 3.

Module FindCoordinatorRequest.

Record t : Type := mk {
  key : string;
  key_type : Z;
  coordinator_keys : list string;
  unknown_tagged_fields : list RawTaggedField;
}.
#[global] Instance t_eq_dec : EqDecision t.
Proof. solve_decision. Defined.

Definition default : t := {|
  key := "";
  key_type := 0;
  coordinator_keys := [];
  unknown_tagged_fields := [] |}.

Definition API_KEY : Z := 10.
Definition MIN_VERSION : Z := 0.
Definition MAX_VERSION : Z := 6.

Definition encode (version : Z) (x : t) : enc :=
  let flex := is_flexible version in
  put_if (version <=? 3) (put_flex_string flex (key x)) ;;
  put_if (version >=? 1) (put_i8 (key_type x)) ;;
  put_if (version >=? 4) (put_flex_array flex (put_flex_string flex) (coordinator_keys x)) ;;
  put_if flex (put_tagged_fields (unknown_tagged_fields x)) ;;
  enc_ret.

Section decode.
Context {R : Runtime}.

Definition decode_with_budget (version : Z) : bdec t :=
  let flex := is_flexible version in
  let* key := get_if (version <=? 3) "" (get_flex_string flex) in
  let* key_type := get_if (version >=? 1) 0 (lift get_i8) in
  let* coordinator_keys := get_if (version >=? 4) [] (get_flex_items flex "String" (get_flex_string flex)) in
  let* unknown_tagged_fields := get_if flex [] get_tagged_fields_with_budget in
  bdec_ret (mk key key_type coordinator_keys unknown_tagged_fields).

Definition decode_with_limits (version : Z) : Limits → dec t :=
  with_limits (decode_with_budget version).
Definition decode (version : Z) : dec t := with_default_limits (decode_with_budget version).

End decode.

Definition valid (version : Z) (x : t) : Prop :=
  let flex := is_flexible version in
  in_version (version <=? 3) (str_ok flex) "" (key x) ∧
  in_version (version >=? 1) is_i8 0 (key_type x) ∧
  in_version (version >=? 4) (arr_ok flex (str_ok flex)) [] (coordinator_keys x) ∧
  in_version flex tags_ok [] (unknown_tagged_fields x).

Lemma find_coordinator_request_FindCoordinatorRequest_agrees {R : Runtime} version x :
  valid version x → pairs (encode version x) (decode_with_budget version) x.
Proof.
  unfold valid, encode, decode_with_budget, is_flexible. cbv zeta. agree. by destruct x.
Qed.
#[global] Hint Resolve find_coordinator_request_FindCoordinatorRequest_agrees : fields.

Lemma find_coordinator_request_FindCoordinatorRequest_settles {R : Runtime} version :
  settles (encode version) (valid version) (decode_with_budget version).
Proof. unfold valid, encode, decode_with_budget, is_flexible. cbv zeta. settle. Qed.
#[global] Hint Resolve find_coordinator_request_FindCoordinatorRequest_settles : settles.

End FindCoordinatorRequest.

Lemma FindCoordinatorRequest_agrees (R : Runtime) version x :
  FindCoordinatorRequest.MIN_VERSION ≤ version ≤ FindCoordinatorRequest.MAX_VERSION → FindCoordinatorRequest.valid version x →
  pairs (FindCoordinatorRequest.encode version x) (FindCoordinatorRequest.decode_with_budget version) x.
Proof.
  intros _ ?. by apply FindCoordinatorRequest.find_coordinator_request_FindCoordinatorRequest_agrees.
Qed.

#[global] Instance FindCoordinatorRequest_Message : Message FindCoordinatorRequest.t := {|
  Message.API_KEY := FindCoordinatorRequest.API_KEY;
  Message.MIN_VERSION := FindCoordinatorRequest.MIN_VERSION;
  Message.MAX_VERSION := FindCoordinatorRequest.MAX_VERSION;
  Message.encode := FindCoordinatorRequest.encode;
  Message.decode_with_budget := @FindCoordinatorRequest.decode_with_budget;
  Message.throttle_time_ms := λ _, None;
  Message.valid := FindCoordinatorRequest.valid;
  Message.agrees := FindCoordinatorRequest_agrees;
  Message.settled := @FindCoordinatorRequest.find_coordinator_request_FindCoordinatorRequest_settles |}.
#[global] Instance FindCoordinatorRequest_Default : Default FindCoordinatorRequest.t := FindCoordinatorRequest.default.

End find_coordinator_request.

(** ** [find_coordinator_response.rs] *)

Module find_coordinator_response.

Definition is_flexible (version : Z) : bool := version >=? 3.

Module Coordinator.

Record t : Type := mk {
  key : string;
  node_id : Z;
  host : string;
  port : Z;
  error_code : Z;
  error_message : option string;
  unknown_tagged_fields : list RawTaggedField;
}.
#[global] Instance t_eq_dec : EqDecision t.
Proof. solve_decision. Defined.

Definition default : t := {|
  key := "";
  node_id := 0;
  host := "";
  port := 0;
  error_code := 0;
  error_message := (Some "");
  unknown_tagged_fields := [] |}.

Definition encode (version : Z) (x : t) : enc :=
  let flex := is_flexible version in
  put_if (version >=? 4) (put_flex_string flex (key x)) ;;
  put_if (version >=? 4) (put_i32 (node_id x)) ;;
  put_if (version >=? 4) (put_flex_string flex (host x)) ;;
  put_if (version >=? 4) (put_i32 (port x)) ;;
  put_if (version >=? 4) (put_i16 (error_code x)) ;;
  put_if (version >=? 4) (put_flex_nullable_string flex (error_message x)) ;;
  put_if flex (put_tagged_fields (unknown_tagged_fields x)) ;;
  enc_ret.

Section decode.
Context {R : Runtime}.

Definition decode_with_budget (version : Z) : bdec t :=
  let flex := is_flexible version in
  let* key := get_if (version >=? 4) "" (get_flex_string flex) in
  let* node_id := get_if (version >=? 4) 0 (lift get_i32) in
  let* host := get_if (version >=? 4) "" (get_flex_string flex) in
  let* port := get_if (version >=? 4) 0 (lift get_i32) in
  let* error_code := get_if (version >=? 4) 0 (lift get_i16) in
  let* error_message := get_if (version >=? 4) (Some "") (get_flex_nullable_string flex) in
  let* unknown_tagged_fields := get_if flex [] get_tagged_fields_with_budget in
  bdec_ret (mk key node_id host port error_code error_message unknown_tagged_fields).

Definition decode_with_limits (version : Z) : Limits → dec t :=
  with_limits (decode_with_budget version).
Definition decode (version : Z) : dec t := with_default_limits (decode_with_budget version).

End decode.

Definition valid (version : Z) (x : t) : Prop :=
  let flex := is_flexible version in
  in_version (version >=? 4) (str_ok flex) "" (key x) ∧
  in_version (version >=? 4) is_i32 0 (node_id x) ∧
  in_version (version >=? 4) (str_ok flex) "" (host x) ∧
  in_version (version >=? 4) is_i32 0 (port x) ∧
  in_version (version >=? 4) is_i16 0 (error_code x) ∧
  in_version (version >=? 4) (opt_valid true (str_ok flex)) (Some "") (error_message x) ∧
  in_version flex tags_ok [] (unknown_tagged_fields x).

Lemma find_coordinator_response_Coordinator_agrees {R : Runtime} version x :
  3 ≤ version →
  valid version x → pairs1 (encode version x) (decode_with_budget version) x.
Proof.
  intros ?. unfold valid, encode, decode_with_budget, is_flexible. cbv zeta. agree1; by destruct x.
Qed.
#[global] Hint Resolve find_coordinator_response_Coordinator_agrees : fields.

Lemma find_coordinator_response_Coordinator_settles {R : Runtime} version :
  settles (encode version) (valid version) (decode_with_budget version).
Proof. unfold valid, encode, decode_with_budget, is_flexible. cbv zeta. settle. Qed.
#[global] Hint Resolve find_coordinator_response_Coordinator_settles : settles.

End Coordinator.

Module FindCoordinatorResponse.

Record t : Type := mk {
  throttle_time_ms : Z;
  error_code : Z;
  error_message : option string;
  node_id : Z;
  host : string;
  port : Z;
  coordinators : list Coordinator.t;
  unknown_tagged_fields : list RawTaggedField;
}.
#[global] Instance t_eq_dec : EqDecision t.
Proof. solve_decision. Defined.

Definition default : t := {|
  throttle_time_ms := 0;
  error_code := 0;
  error_message := (Some "");
  node_id := 0;
  host := "";
  port := 0;
  coordinators := [];
  unknown_tagged_fields := [] |}.

Definition API_KEY : Z := 10.
Definition MIN_VERSION : Z := 0.
Definition MAX_VERSION : Z := 6.

Definition encode (version : Z) (x : t) : enc :=
  let flex := is_flexible version in
  put_if (version >=? 1) (put_i32 (throttle_time_ms x)) ;;
  put_if (version <=? 3) (put_i16 (error_code x)) ;;
  put_if ((1 <=? version) && (version <=? 3)) (put_flex_nullable_string flex (error_message x)) ;;
  put_if (version <=? 3) (put_i32 (node_id x)) ;;
  put_if (version <=? 3) (put_flex_string flex (host x)) ;;
  put_if (version <=? 3) (put_i32 (port x)) ;;
  put_if (version >=? 4) (put_flex_array flex (Coordinator.encode version) (coordinators x)) ;;
  put_if flex (put_tagged_fields (unknown_tagged_fields x)) ;;
  enc_ret.

Section decode.
Context {R : Runtime}.

Definition decode_with_budget (version : Z) : bdec t :=
  let flex := is_flexible version in
  let* throttle_time_ms := get_if (version >=? 1) 0 (lift get_i32) in
  let* error_code := get_if (version <=? 3) 0 (lift get_i16) in
  let* error_message := get_if ((1 <=? version) && (version <=? 3)) (Some "") (get_flex_nullable_string flex) in
  let* node_id := get_if (version <=? 3) 0 (lift get_i32) in
  let* host := get_if (version <=? 3) "" (get_flex_string flex) in
  let* port := get_if (version <=? 3) 0 (lift get_i32) in
  let* coordinators := get_if (version >=? 4) [] (get_flex_structs flex "Coordinator" (Coordinator.decode_with_budget version)) in
  let* unknown_tagged_fields := get_if flex [] get_tagged_fields_with_budget in
  bdec_ret (mk throttle_time_ms error_code error_message node_id host port coordinators unknown_tagged_fields).

Definition decode_with_limits (version : Z) : Limits → dec t :=
  with_limits (decode_with_budget version).
Definition decode (version : Z) : dec t := with_default_limits (decode_with_budget version).

End decode.

Definition valid (version : Z) (x : t) : Prop :=
  let flex := is_flexible version in
  in_version (version >=? 1) is_i32 0 (throttle_time_ms x) ∧
  in_version (version <=? 3) is_i16 0 (error_code x) ∧
  in_version ((1 <=? version) && (version <=? 3)) (opt_valid true (str_ok flex)) (Some "") (error_message x) ∧
  in_version (version <=? 3) is_i32 0 (node_id x) ∧
  in_version (version <=? 3) (str_ok flex) "" (host x) ∧
  in_version (version <=? 3) is_i32 0 (port x) ∧
  in_version (version >=? 4) (arr_ok flex (Coordinator.valid version)) [] (coordinators x) ∧
  in_version flex tags_ok [] (unknown_tagged_fields x).

Lemma find_coordinator_response_FindCoordinatorResponse_agrees {R : Runtime} version x :
  valid version x → pairs (encode version x) (decode_with_budget version) x.
Proof.
  unfold valid, encode, decode_with_budget, is_flexible. cbv zeta. agree. by destruct x.
Qed.
#[global] Hint Resolve find_coordinator_response_FindCoordinatorResponse_agrees : fields.

Lemma find_coordinator_response_FindCoordinatorResponse_settles {R : Runtime} version :
  settles (encode version) (valid version) (decode_with_budget version).
Proof. unfold valid, encode, decode_with_budget, is_flexible. cbv zeta. settle. Qed.
#[global] Hint Resolve find_coordinator_response_FindCoordinatorResponse_settles : settles.

End FindCoordinatorResponse.

Lemma FindCoordinatorResponse_agrees (R : Runtime) version x :
  FindCoordinatorResponse.MIN_VERSION ≤ version ≤ FindCoordinatorResponse.MAX_VERSION → FindCoordinatorResponse.valid version x →
  pairs (FindCoordinatorResponse.encode version x) (FindCoordinatorResponse.decode_with_budget version) x.
Proof.
  intros _ ?. by apply FindCoordinatorResponse.find_coordinator_response_FindCoordinatorResponse_agrees.
Qed.

#[global] Instance FindCoordinatorResponse_Message : Message FindCoordinatorResponse.t := {|
  Message.API_KEY := FindCoordinatorResponse.API_KEY;
  Message.MIN_VERSION := FindCoordinatorResponse.MIN_VERSION;
  Message.MAX_VERSION := FindCoordinatorResponse.MAX_VERSION;
  Message.encode := FindCoordinatorResponse.encode;
  Message.decode_with_budget := @FindCoordinatorResponse.decode_with_budget;
  Message.throttle_time_ms := λ x, Some (FindCoordinatorResponse.throttle_time_ms x);
  Message.valid := FindCoordinatorResponse.valid;
  Message.agrees := FindCoordinatorResponse_agrees;
  Message.settled := @FindCoordinatorResponse.find_coordinator_response_FindCoordinatorResponse_settles |}.
#[global] Instance FindCoordinatorResponse_Default : Default FindCoordinatorResponse.t := FindCoordinatorResponse.default.

End find_coordinator_response.

(** ** [join_group_request.rs] *)

Module join_group_request.

Definition is_flexible (version : Z) : bool := version >=? 6.

Module JoinGroupRequestProtocol.

Record t : Type := mk {
  name : string;
  metadata : list byte;
  unknown_tagged_fields : list RawTaggedField;
}.
#[global] Instance t_eq_dec : EqDecision t.
Proof. solve_decision. Defined.

Definition default : t := {|
  name := "";
  metadata := [];
  unknown_tagged_fields := [] |}.

Definition encode (version : Z) (x : t) : enc :=
  let flex := is_flexible version in
  put_flex_string flex (name x) ;;
  put_flex_bytes flex (metadata x) ;;
  put_if flex (put_tagged_fields (unknown_tagged_fields x)) ;;
  enc_ret.

Section decode.
Context {R : Runtime}.

Definition decode_with_budget (version : Z) : bdec t :=
  let flex := is_flexible version in
  let* name := get_flex_string flex in
  let* metadata := get_flex_bytes flex in
  let* unknown_tagged_fields := get_if flex [] get_tagged_fields_with_budget in
  bdec_ret (mk name metadata unknown_tagged_fields).

Definition decode_with_limits (version : Z) : Limits → dec t :=
  with_limits (decode_with_budget version).
Definition decode (version : Z) : dec t := with_default_limits (decode_with_budget version).

End decode.

Definition valid (version : Z) (x : t) : Prop :=
  let flex := is_flexible version in
  str_ok flex (name x) ∧
  bytes_ok flex (metadata x) ∧
  in_version flex tags_ok [] (unknown_tagged_fields x).

Lemma join_group_request_JoinGroupRequestProtocol_agrees {R : Runtime} version x :
  valid version x → pairs1 (encode version x) (decode_with_budget version) x.
Proof.
  unfold valid, encode, decode_with_budget, is_flexible. cbv zeta. agree1; by destruct x.
Qed.
#[global] Hint Resolve join_group_request_JoinGroupRequestProtocol_agrees : fields.

Lemma join_group_request_JoinGroupRequestProtocol_settles {R : Runtime} version :
  settles (encode version) (valid version) (decode_with_budget version).
Proof. unfold valid, encode, decode_with_budget, is_flexible. cbv zeta. settle. Qed.
#[global] Hint Resolve join_group_request_JoinGroupRequestProtocol_settles : settles.

End JoinGroupRequestProtocol.

Module JoinGroupRequest.

Record t : Type := mk {
  group_id : string;
  session_timeout_ms : Z;
  rebalance_timeout_ms : Z;
  member_id : string;
  group_instance_id : option string;
  protocol_type : string;
  protocols : list JoinGroupRequestProtocol.t;
  reason : option string;
  unknown_tagged_fields : list RawTaggedField;
}.
#[global] Instance t_eq_dec : EqDecision t.
Proof. solve_decision. Defined.

Definition default : t := {|
  group_id := "";
  session_timeout_ms := 0;
  rebalance_timeout_ms := (-1);
  member_id := "";
  group_instance_id := None;
  protocol_type := "";
  protocols := [];
  reason := None;
  unknown_tagged_fields := [] |}.

Definition API_KEY : Z := 11.
Definition MIN_VERSION : Z := 0.
Definition MAX_VERSION : Z := 9.

Definition encode (version : Z) (x : t) : enc :=
  let flex := is_flexible version in
  put_flex_string flex (group_id x) ;;
  put_i32 (session_timeout_ms x) ;;
  put_if (version >=? 1) (put_i32 (rebalance_timeout_ms x)) ;;
  put_flex_string flex (member_id x) ;;
  put_if (version >=? 5) (put_flex_nullable_string flex (group_instance_id x)) ;;
  put_flex_string flex (protocol_type x) ;;
  put_flex_array flex (JoinGroupRequestProtocol.encode version) (protocols x) ;;
  put_if (version >=? 8) (put_flex_nullable_string flex (reason x)) ;;
  put_if flex (put_tagged_fields (unknown_tagged_fields x)) ;;
  enc_ret.

Section decode.
Context {R : Runtime}.

Definition decode_with_budget (version : Z) : bdec t :=
  let flex := is_flexible version in
  let* group_id := get_flex_string flex in
  let* session_timeout_ms := lift get_i32 in
  let* rebalance_timeout_ms := get_if (version >=? 1) (-1) (lift get_i32) in
  let* member_id := get_flex_string flex in
  let* group_instance_id := get_if (version >=? 5) None (get_flex_nullable_string flex) in
  let* protocol_type := get_flex_string flex in
  let* protocols := get_flex_structs flex "JoinGroupRequestProtocol" (JoinGroupRequestProtocol.decode_with_budget version) in
  let* reason := get_if (version >=? 8) None (get_flex_nullable_string flex) in
  let* unknown_tagged_fields := get_if flex [] get_tagged_fields_with_budget in
  bdec_ret (mk group_id session_timeout_ms rebalance_timeout_ms member_id group_instance_id protocol_type protocols reason unknown_tagged_fields).

Definition decode_with_limits (version : Z) : Limits → dec t :=
  with_limits (decode_with_budget version).
Definition decode (version : Z) : dec t := with_default_limits (decode_with_budget version).

End decode.

Definition valid (version : Z) (x : t) : Prop :=
  let flex := is_flexible version in
  str_ok flex (group_id x) ∧
  is_i32 (session_timeout_ms x) ∧
  in_version (version >=? 1) is_i32 (-1) (rebalance_timeout_ms x) ∧
  str_ok flex (member_id x) ∧
  in_version (version >=? 5) (opt_valid true (str_ok flex)) None (group_instance_id x) ∧
  str_ok flex (protocol_type x) ∧
  arr_ok flex (JoinGroupRequestProtocol.valid version) (protocols x) ∧
  in_version (version >=? 8) (opt_valid true (str_ok flex)) None (reason x) ∧
  in_version flex tags_ok [] (unknown_tagged_fields x).

Lemma join_group_request_JoinGroupRequest_agrees {R : Runtime} version x :
  valid version x → pairs (encode version x) (decode_with_budget version) x.
Proof.
  unfold valid, encode, decode_with_budget, is_flexible. cbv zeta. agree. by destruct x.
Qed.
#[global] Hint Resolve join_group_request_JoinGroupRequest_agrees : fields.

Lemma join_group_request_JoinGroupRequest_settles {R : Runtime} version :
  settles (encode version) (valid version) (decode_with_budget version).
Proof. unfold valid, encode, decode_with_budget, is_flexible. cbv zeta. settle. Qed.
#[global] Hint Resolve join_group_request_JoinGroupRequest_settles : settles.

End JoinGroupRequest.

Lemma JoinGroupRequest_agrees (R : Runtime) version x :
  JoinGroupRequest.MIN_VERSION ≤ version ≤ JoinGroupRequest.MAX_VERSION → JoinGroupRequest.valid version x →
  pairs (JoinGroupRequest.encode version x) (JoinGroupRequest.decode_with_budget version) x.
Proof.
  intros _ ?. by apply JoinGroupRequest.join_group_request_JoinGroupRequest_agrees.
Qed.

#[global] Instance JoinGroupRequest_Message : Message JoinGroupRequest.t := {|
  Message.API_KEY := JoinGroupRequest.API_KEY;
  Message.MIN_VERSION := JoinGroupRequest.MIN_VERSION;
  Message.MAX_VERSION := JoinGroupRequest.MAX_VERSION;
  Message.encode := JoinGroupRequest.encode;
  Message.decode_with_budget := @JoinGroupRequest.decode_with_budget;
  Message.throttle_time_ms := λ _, None;
  Message.valid := JoinGroupRequest.valid;
  Message.agrees := JoinGroupRequest_agrees;
  Message.settled := @JoinGroupRequest.join_group_request_JoinGroupRequest_settles |}.
#[global] Instance JoinGroupRequest_Default : Default JoinGroupRequest.t := JoinGroupRequest.default.

End join_group_request.

(** ** [join_group_response.rs] *)

Module join_group_response.

Definition is_flexible (version : Z) : bool := version >=? 6.

Module JoinGroupResponseMember.

Record t : Type := mk {
  member_id : string;
  group_instance_id : option string;
  metadata : list byte;
  unknown_tagged_fields : list RawTaggedField;
}.
#[global] Instance t_eq_dec : EqDecision t.
Proof. solve_decision. Defined.

Definition default : t := {|
  member_id := "";
  group_instance_id := None;
  metadata := [];
  unknown_tagged_fields := [] |}.

Definition encode (version : Z) (x : t) : enc :=
  let flex := is_flexible version in
  put_flex_string flex (member_id x) ;;
  put_if (version >=? 5) (put_flex_nullable_string flex (group_instance_id x)) ;;
  put_flex_bytes flex (metadata x) ;;
  put_if flex (put_tagged_fields (unknown_tagged_fields x)) ;;
  enc_ret.

Section decode.
Context {R : Runtime}.

Definition decode_with_budget (version : Z) : bdec t :=
  let flex := is_flexible version in
  let* member_id := get_flex_string flex in
  let* group_instance_id := get_if (version >=? 5) None (get_flex_nullable_string flex) in
  let* metadata := get_flex_bytes flex in
  let* unknown_tagged_fields := get_if flex [] get_tagged_fields_with_budget in
  bdec_ret (mk member_id group_instance_id metadata unknown_tagged_fields).

Definition decode_with_limits (version : Z) : Limits → dec t :=
  with_limits (decode_with_budget version).
Definition decode (version : Z) : dec t := with_default_limits (decode_with_budget version).

End decode.

Definition valid (version : Z) (x : t) : Prop :=
  let flex := is_flexible version in
  str_ok flex (member_id x) ∧
  in_version (version >=? 5) (opt_valid true (str_ok flex)) None (group_instance_id x) ∧
  bytes_ok flex (metadata x) ∧
  in_version flex tags_ok [] (unknown_tagged_fields x).

Lemma join_group_response_JoinGroupResponseMember_agrees {R : Runtime} version x :
  valid version x → pairs1 (encode version x) (decode_with_budget version) x.
Proof.
  unfold valid, encode, decode_with_budget, is_flexible. cbv zeta. agree1; by destruct x.
Qed.
#[global] Hint Resolve join_group_response_JoinGroupResponseMember_agrees : fields.

Lemma join_group_response_JoinGroupResponseMember_settles {R : Runtime} version :
  settles (encode version) (valid version) (decode_with_budget version).
Proof. unfold valid, encode, decode_with_budget, is_flexible. cbv zeta. settle. Qed.
#[global] Hint Resolve join_group_response_JoinGroupResponseMember_settles : settles.

End JoinGroupResponseMember.

Module JoinGroupResponse.

Record t : Type := mk {
  throttle_time_ms : Z;
  error_code : Z;
  generation_id : Z;
  protocol_type : option string;
  protocol_name : option string;
  leader : string;
  skip_assignment : bool;
  member_id : string;
  members : list JoinGroupResponseMember.t;
  unknown_tagged_fields : list RawTaggedField;
}.
#[global] Instance t_eq_dec : EqDecision t.
Proof. solve_decision. Defined.

Definition default : t := {|
  throttle_time_ms := 0;
  error_code := 0;
  generation_id := (-1);
  protocol_type := None;
  protocol_name := (Some "");
  leader := "";
  skip_assignment := false;
  member_id := "";
  members := [];
  unknown_tagged_fields := [] |}.

Definition API_KEY : Z := 11.
Definition MIN_VERSION : Z := 0.
Definition MAX_VERSION : Z := 9.

Definition encode (version : Z) (x : t) : enc :=
  let flex := is_flexible version in
  put_if (version >=? 2) (put_i32 (throttle_time_ms x)) ;;
  put_i16 (error_code x) ;;
  put_i32 (generation_id x) ;;
  put_if (version >=? 7) (put_flex_nullable_string flex (protocol_type x)) ;;
  (enc_guard (is_none (protocol_name x) && negb (version >=? 7)) (NullField "ProtocolName") ;; put_flex_nullable_string flex (protocol_name x)) ;;
  put_flex_string flex (leader x) ;;
  put_if (version >=? 9) (put_bool (skip_assignment x)) ;;
  put_flex_string flex (member_id x) ;;
  put_flex_array flex (JoinGroupResponseMember.encode version) (members x) ;;
  put_if flex (put_tagged_fields (unknown_tagged_fields x)) ;;
  enc_ret.

Section decode.
Context {R : Runtime}.

Definition decode_with_budget (version : Z) : bdec t :=
  let flex := is_flexible version in
  let* throttle_time_ms := get_if (version >=? 2) 0 (lift get_i32) in
  let* error_code := lift get_i16 in
  let* generation_id := lift get_i32 in
  let* protocol_type := get_if (version >=? 7) None (get_flex_nullable_string flex) in
  let* protocol_name := get_checked (version >=? 7) (get_flex_nullable_string flex) in
  let* leader := get_flex_string flex in
  let* skip_assignment := get_if (version >=? 9) false (lift get_bool) in
  let* member_id := get_flex_string flex in
  let* members := get_flex_structs flex "JoinGroupResponseMember" (JoinGroupResponseMember.decode_with_budget version) in
  let* unknown_tagged_fields := get_if flex [] get_tagged_fields_with_budget in
  bdec_ret (mk throttle_time_ms error_code generation_id protocol_type protocol_name leader skip_assignment member_id members unknown_tagged_fields).

Definition decode_with_limits (version : Z) : Limits → dec t :=
  with_limits (decode_with_budget version).
Definition decode (version : Z) : dec t := with_default_limits (decode_with_budget version).

End decode.

Definition valid (version : Z) (x : t) : Prop :=
  let flex := is_flexible version in
  in_version (version >=? 2) is_i32 0 (throttle_time_ms x) ∧
  is_i16 (error_code x) ∧
  is_i32 (generation_id x) ∧
  in_version (version >=? 7) (opt_valid true (str_ok flex)) None (protocol_type x) ∧
  opt_valid (version >=? 7) (str_ok flex) (protocol_name x) ∧
  str_ok flex (leader x) ∧
  in_version (version >=? 9) any false (skip_assignment x) ∧
  str_ok flex (member_id x) ∧
  arr_ok flex (JoinGroupResponseMember.valid version) (members x) ∧
  in_version flex tags_ok [] (unknown_tagged_fields x).

Lemma join_group_response_JoinGroupResponse_agrees {R : Runtime} version x :
  valid version x → pairs (encode version x) (decode_with_budget version) x.
Proof.
  unfold valid, encode, decode_with_budget, is_flexible. cbv zeta. agree. by destruct x.
Qed.
#[global] Hint Resolve join_group_response_JoinGroupResponse_agrees : fields.

Lemma join_group_response_JoinGroupResponse_settles {R : Runtime} version :
  settles (encode version) (valid version) (decode_with_budget version).
Proof. unfold valid, encode, decode_with_budget, is_flexible. cbv zeta. settle. Qed.
#[global] Hint Resolve join_group_response_JoinGroupResponse_settles : settles.

End JoinGroupResponse.

Lemma JoinGroupResponse_agrees (R : Runtime) version x :
  JoinGroupResponse.MIN_VERSION ≤ version ≤ JoinGroupResponse.MAX_VERSION → JoinGroupResponse.valid version x →
  pairs (JoinGroupResponse.encode version x) (JoinGroupResponse.decode_with_budget version) x.
Proof.
  intros _ ?. by apply JoinGroupResponse.join_group_response_JoinGroupResponse_agrees.
Qed.

#[global] Instance JoinGroupResponse_Message : Message JoinGroupResponse.t := {|
  Message.API_KEY := JoinGroupResponse.API_KEY;
  Message.MIN_VERSION := JoinGroupResponse.MIN_VERSION;
  Message.MAX_VERSION := JoinGroupResponse.MAX_VERSION;
  Message.encode := JoinGroupResponse.encode;
  Message.decode_with_budget := @JoinGroupResponse.decode_with_budget;
  Message.throttle_time_ms := λ x, Some (JoinGroupResponse.throttle_time_ms x);
  Message.valid := JoinGroupResponse.valid;
  Message.agrees := JoinGroupResponse_agrees;
  Message.settled := @JoinGroupResponse.join_group_response_JoinGroupResponse_settles |}.
#[global] Instance JoinGroupResponse_Default : Default JoinGroupResponse.t := JoinGroupResponse.default.

End join_group_response.

(** ** [sync_group_request.rs] *)

Module sync_group_request.

Definition is_flexible (version : Z) : bool := version >=? 4.

Module SyncGroupRequestAssignment.

Record t : Type := mk {
  member_id : string;
  assignment : list byte;
  unknown_tagged_fields : list RawTaggedField;
}.
#[global] Instance t_eq_dec : EqDecision t.
Proof. solve_decision. Defined.

Definition default : t := {|
  member_id := "";
  assignment := [];
  unknown_tagged_fields := [] |}.

Definition encode (version : Z) (x : t) : enc :=
  let flex := is_flexible version in
  put_flex_string flex (member_id x) ;;
  put_flex_bytes flex (assignment x) ;;
  put_if flex (put_tagged_fields (unknown_tagged_fields x)) ;;
  enc_ret.

Section decode.
Context {R : Runtime}.

Definition decode_with_budget (version : Z) : bdec t :=
  let flex := is_flexible version in
  let* member_id := get_flex_string flex in
  let* assignment := get_flex_bytes flex in
  let* unknown_tagged_fields := get_if flex [] get_tagged_fields_with_budget in
  bdec_ret (mk member_id assignment unknown_tagged_fields).

Definition decode_with_limits (version : Z) : Limits → dec t :=
  with_limits (decode_with_budget version).
Definition decode (version : Z) : dec t := with_default_limits (decode_with_budget version).

End decode.

Definition valid (version : Z) (x : t) : Prop :=
  let flex := is_flexible version in
  str_ok flex (member_id x) ∧
  bytes_ok flex (assignment x) ∧
  in_version flex tags_ok [] (unknown_tagged_fields x).

Lemma sync_group_request_SyncGroupRequestAssignment_agrees {R : Runtime} version x :
  valid version x → pairs1 (encode version x) (decode_with_budget version) x.
Proof.
  unfold valid, encode, decode_with_budget, is_flexible. cbv zeta. agree1; by destruct x.
Qed.
#[global] Hint Resolve sync_group_request_SyncGroupRequestAssignment_agrees : fields.

Lemma sync_group_request_SyncGroupRequestAssignment_settles {R : Runtime} version :
  settles (encode version) (valid version) (decode_with_budget version).
Proof. unfold valid, encode, decode_with_budget, is_flexible. cbv zeta. settle. Qed.
#[global] Hint Resolve sync_group_request_SyncGroupRequestAssignment_settles : settles.

End SyncGroupRequestAssignment.

Module SyncGroupRequest.

Record t : Type := mk {
  group_id : string;
  generation_id : Z;
  member_id : string;
  group_instance_id : option string;
  protocol_type : option string;
  protocol_name : option string;
  assignments : list SyncGroupRequestAssignment.t;
  unknown_tagged_fields : list RawTaggedField;
}.
#[global] Instance t_eq_dec : EqDecision t.
Proof. solve_decision. Defined.

Definition default : t := {|
  group_id := "";
  generation_id := 0;
  member_id := "";
  group_instance_id := None;
  protocol_type := None;
  protocol_name := None;
  assignments := [];
  unknown_tagged_fields := [] |}.

Definition API_KEY : Z := 14.
Definition MIN_VERSION : Z := 0.
Definition MAX_VERSION : Z := 5.

Definition encode (version : Z) (x : t) : enc :=
  let flex := is_flexible version in
  put_flex_string flex (group_id x) ;;
  put_i32 (generation_id x) ;;
  put_flex_string flex (member_id x) ;;
  put_if (version >=? 3) (put_flex_nullable_string flex (group_instance_id x)) ;;
  put_if (version >=? 5) (put_flex_nullable_string flex (protocol_type x)) ;;
  put_if (version >=? 5) (put_flex_nullable_string flex (protocol_name x)) ;;
  put_flex_array flex (SyncGroupRequestAssignment.encode version) (assignments x) ;;
  put_if flex (put_tagged_fields (unknown_tagged_fields x)) ;;
  enc_ret.

Section decode.
Context {R : Runtime}.

Definition decode_with_budget (version : Z) : bdec t :=
  let flex := is_flexible version in
  let* group_id := get_flex_string flex in
  let* generation_id := lift get_i32 in
  let* member_id := get_flex_string flex in
  let* group_instance_id := get_if (version >=? 3) None (get_flex_nullable_string flex) in
  let* protocol_type := get_if (version >=? 5) None (get_flex_nullable_string flex) in
  let* protocol_name := get_if (version >=? 5) None (get_flex_nullable_string flex) in
  let* assignments := get_flex_structs flex "SyncGroupRequestAssignment" (SyncGroupRequestAssignment.decode_with_budget version) in
  let* unknown_tagged_fields := get_if flex [] get_tagged_fields_with_budget in
  bdec_ret (mk group_id generation_id member_id group_instance_id protocol_type protocol_name assignments unknown_tagged_fields).

Definition decode_with_limits (version : Z) : Limits → dec t :=
  with_limits (decode_with_budget version).
Definition decode (version : Z) : dec t := with_default_limits (decode_with_budget version).

End decode.

Definition valid (version : Z) (x : t) : Prop :=
  let flex := is_flexible version in
  str_ok flex (group_id x) ∧
  is_i32 (generation_id x) ∧
  str_ok flex (member_id x) ∧
  in_version (version >=? 3) (opt_valid true (str_ok flex)) None (group_instance_id x) ∧
  in_version (version >=? 5) (opt_valid true (str_ok flex)) None (protocol_type x) ∧
  in_version (version >=? 5) (opt_valid true (str_ok flex)) None (protocol_name x) ∧
  arr_ok flex (SyncGroupRequestAssignment.valid version) (assignments x) ∧
  in_version flex tags_ok [] (unknown_tagged_fields x).

Lemma sync_group_request_SyncGroupRequest_agrees {R : Runtime} version x :
  valid version x → pairs (encode version x) (decode_with_budget version) x.
Proof.
  unfold valid, encode, decode_with_budget, is_flexible. cbv zeta. agree. by destruct x.
Qed.
#[global] Hint Resolve sync_group_request_SyncGroupRequest_agrees : fields.

Lemma sync_group_request_SyncGroupRequest_settles {R : Runtime} version :
  settles (encode version) (valid version) (decode_with_budget version).
Proof. unfold valid, encode, decode_with_budget, is_flexible. cbv zeta. settle. Qed.
#[global] Hint Resolve sync_group_request_SyncGroupRequest_settles : settles.

End SyncGroupRequest.

Lemma SyncGroupRequest_agrees (R : Runtime) version x :
  SyncGroupRequest.MIN_VERSION ≤ version ≤ SyncGroupRequest.MAX_VERSION → SyncGroupRequest.valid version x →
  pairs (SyncGroupRequest.encode version x) (SyncGroupRequest.decode_with_budget version) x.
Proof.
  intros _ ?. by apply SyncGroupRequest.sync_group_request_SyncGroupRequest_agrees.
Qed.

#[global] Instance SyncGroupRequest_Message : Message SyncGroupRequest.t := {|
  Message.API_KEY := SyncGroupRequest.API_KEY;
  Message.MIN_VERSION := SyncGroupRequest.MIN_VERSION;
  Message.MAX_VERSION := SyncGroupRequest.MAX_VERSION;
  Message.encode := SyncGroupRequest.encode;
  Message.decode_with_budget := @SyncGroupRequest.decode_with_budget;
  Message.throttle_time_ms := λ _, None;
  Message.valid := SyncGroupRequest.valid;
  Message.agrees := SyncGroupRequest_agrees;
  Message.settled := @SyncGroupRequest.sync_group_request_SyncGroupRequest_settles |}.
#[global] Instance SyncGroupRequest_Default : Default SyncGroupRequest.t := SyncGroupRequest.default.

End sync_group_request.

(** ** [sync_group_response.rs] *)

Module sync_group_response.

Definition is_flexible (version : Z) : bool := version >=? 4.

Module SyncGroupResponse.

Record t : Type := mk {
  throttle_time_ms : Z;
  error_code : Z;
  protocol_type : option string;
  protocol_name : option string;
  assignment : list byte;
  unknown_tagged_fields : list RawTaggedField;
}.
#[global] Instance t_eq_dec : EqDecision t.
Proof. solve_decision. Defined.

Definition default : t := {|
  throttle_time_ms := 0;
  error_code := 0;
  protocol_type := None;
  protocol_name := None;
  assignment := [];
  unknown_tagged_fields := [] |}.

Definition API_KEY : Z := 14.
Definition MIN_VERSION : Z := 0.
Definition MAX_VERSION : Z := 5.

Definition encode (version : Z) (x : t) : enc :=
  let flex := is_flexible version in
  put_if (version >=? 1) (put_i32 (throttle_time_ms x)) ;;
  put_i16 (error_code x) ;;
  put_if (version >=? 5) (put_flex_nullable_string flex (protocol_type x)) ;;
  put_if (version >=? 5) (put_flex_nullable_string flex (protocol_name x)) ;;
  put_flex_bytes flex (assignment x) ;;
  put_if flex (put_tagged_fields (unknown_tagged_fields x)) ;;
  enc_ret.

Section decode.
Context {R : Runtime}.

Definition decode_with_budget (version : Z) : bdec t :=
  let flex := is_flexible version in
  let* throttle_time_ms := get_if (version >=? 1) 0 (lift get_i32) in
  let* error_code := lift get_i16 in
  let* protocol_type := get_if (version >=? 5) None (get_flex_nullable_string flex) in
  let* protocol_name := get_if (version >=? 5) None (get_flex_nullable_string flex) in
  let* assignment := get_flex_bytes flex in
  let* unknown_tagged_fields := get_if flex [] get_tagged_fields_with_budget in
  bdec_ret (mk throttle_time_ms error_code protocol_type protocol_name assignment unknown_tagged_fields).

Definition decode_with_limits (version : Z) : Limits → dec t :=
  with_limits (decode_with_budget version).
Definition decode (version : Z) : dec t := with_default_limits (decode_with_budget version).

End decode.

Definition valid (version : Z) (x : t) : Prop :=
  let flex := is_flexible version in
  in_version (version >=? 1) is_i32 0 (throttle_time_ms x) ∧
  is_i16 (error_code x) ∧
  in_version (version >=? 5) (opt_valid true (str_ok flex)) None (protocol_type x) ∧
  in_version (version >=? 5) (opt_valid true (str_ok flex)) None (protocol_name x) ∧
  bytes_ok flex (assignment x) ∧
  in_version flex tags_ok [] (unknown_tagged_fields x).

Lemma sync_group_response_SyncGroupResponse_agrees {R : Runtime} version x :
  valid version x → pairs (encode version x) (decode_with_budget version) x.
Proof.
  unfold valid, encode, decode_with_budget, is_flexible. cbv zeta. agree. by destruct x.
Qed.
#[global] Hint Resolve sync_group_response_SyncGroupResponse_agrees : fields.

Lemma sync_group_response_SyncGroupResponse_settles {R : Runtime} version :
  settles (encode version) (valid version) (decode_with_budget version).
Proof. unfold valid, encode, decode_with_budget, is_flexible. cbv zeta. settle. Qed.
#[global] Hint Resolve sync_group_response_SyncGroupResponse_settles : settles.

End SyncGroupResponse.

Lemma SyncGroupResponse_agrees (R : Runtime) version x :
  SyncGroupResponse.MIN_VERSION ≤ version ≤ SyncGroupResponse.MAX_VERSION → SyncGroupResponse.valid version x →
  pairs (SyncGroupResponse.encode version x) (SyncGroupResponse.decode_with_budget version) x.
Proof.
  intros _ ?. by apply SyncGroupResponse.sync_group_response_SyncGroupResponse_agrees.
Qed.

#[global] Instance SyncGroupResponse_Message : Message SyncGroupResponse.t := {|
  Message.API_KEY := SyncGroupResponse.API_KEY;
  Message.MIN_VERSION := SyncGroupResponse.MIN_VERSION;
  Message.MAX_VERSION := SyncGroupResponse.MAX_VERSION;
  Message.encode := SyncGroupResponse.encode;
  Message.decode_with_budget := @SyncGroupResponse.decode_with_budget;
  Message.throttle_time_ms := λ x, Some (SyncGroupResponse.throttle_time_ms x);
  Message.valid := SyncGroupResponse.valid;
  Message.agrees := SyncGroupResponse_agrees;
  Message.settled := @SyncGroupResponse.sync_group_response_SyncGroupResponse_settles |}.
#[global] Instance SyncGroupResponse_Default : Default SyncGroupResponse.t := SyncGroupResponse.default.

End sync_group_response.

(** ** [heartbeat_request.rs] *)

Module heartbeat_request.

Definition is_flexible (version : Z) : bool := version >=? 4.

Module HeartbeatRequest.

Record t : Type := mk {
  group_id : string;
  generation_id : Z;
  member_id : string;
  group_instance_id : option string;
  unknown_tagged_fields : list RawTaggedField;
}.
#[global] Instance t_eq_dec : EqDecision t.
Proof. solve_decision. Defined.

Definition default : t := {|
  group_id := "";
  generation_id := 0;
  member_id := "";
  group_instance_id := None;
  unknown_tagged_fields := [] |}.

Definition API_KEY : Z := 12.
Definition MIN_VERSION : Z := 0.
Definition MAX_VERSION : Z := 4.

Definition encode (version : Z) (x : t) : enc :=
  let flex := is_flexible version in
  put_flex_string flex (group_id x) ;;
  put_i32 (generation_id x) ;;
  put_flex_string flex (member_id x) ;;
  put_if (version >=? 3) (put_flex_nullable_string flex (group_instance_id x)) ;;
  put_if flex (put_tagged_fields (unknown_tagged_fields x)) ;;
  enc_ret.

Section decode.
Context {R : Runtime}.

Definition decode_with_budget (version : Z) : bdec t :=
  let flex := is_flexible version in
  let* group_id := get_flex_string flex in
  let* generation_id := lift get_i32 in
  let* member_id := get_flex_string flex in
  let* group_instance_id := get_if (version >=? 3) None (get_flex_nullable_string flex) in
  let* unknown_tagged_fields := get_if flex [] get_tagged_fields_with_budget in
  bdec_ret (mk group_id generation_id member_id group_instance_id unknown_tagged_fields).

Definition decode_with_limits (version : Z) : Limits → dec t :=
  with_limits (decode_with_budget version).
Definition decode (version : Z) : dec t := with_default_limits (decode_with_budget version).

End decode.

Definition valid (version : Z) (x : t) : Prop :=
  let flex := is_flexible version in
  str_ok flex (group_id x) ∧
  is_i32 (generation_id x) ∧
  str_ok flex (member_id x) ∧
  in_version (version >=? 3) (opt_valid true (str_ok flex)) None (group_instance_id x) ∧
  in_version flex tags_ok [] (unknown_tagged_fields x).

Lemma heartbeat_request_HeartbeatRequest_agrees {R : Runtime} version x :
  valid version x → pairs (encode version x) (decode_with_budget version) x.
Proof.
  unfold valid, encode, decode_with_budget, is_flexible. cbv zeta. agree. by destruct x.
Qed.
#[global] Hint Resolve heartbeat_request_HeartbeatRequest_agrees : fields.

Lemma heartbeat_request_HeartbeatRequest_settles {R : Runtime} version :
  settles (encode version) (valid version) (decode_with_budget version).
Proof. unfold valid, encode, decode_with_budget, is_flexible. cbv zeta. settle. Qed.
#[global] Hint Resolve heartbeat_request_HeartbeatRequest_settles : settles.

End HeartbeatRequest.

Lemma HeartbeatRequest_agrees (R : Runtime) version x :
  HeartbeatRequest.MIN_VERSION ≤ version ≤ HeartbeatRequest.MAX_VERSION → HeartbeatRequest.valid version x →
  pairs (HeartbeatRequest.encode version x) (HeartbeatRequest.decode_with_budget version) x.
Proof.
  intros _ ?. by apply HeartbeatRequest.heartbeat_request_HeartbeatRequest_agrees.
Qed.

#[global] Instance HeartbeatRequest_Message : Message HeartbeatRequest.t := {|
  Message.API_KEY := HeartbeatRequest.API_KEY;
  Message.MIN_VERSION := HeartbeatRequest.MIN_VERSION;
  Message.MAX_VERSION := HeartbeatRequest.MAX_VERSION;
  Message.encode := HeartbeatRequest.encode;
  Message.decode_with_budget := @HeartbeatRequest.decode_with_budget;
  Message.throttle_time_ms := λ _, None;
  Message.valid := HeartbeatRequest.valid;
  Message.agrees := HeartbeatRequest_agrees;
  Message.settled := @HeartbeatRequest.heartbeat_request_HeartbeatRequest_settles |}.
#[global] Instance HeartbeatRequest_Default : Default HeartbeatRequest.t := HeartbeatRequest.default.

End heartbeat_request.

(** ** [heartbeat_response.rs] *)

Module heartbeat_response.

Definition is_flexible (version : Z) : bool := version >=? 4.

Module HeartbeatResponse.

Record t : Type := mk {
  throttle_time_ms : Z;
  error_code : Z;
  unknown_tagged_fields : list RawTaggedField;
}.
#[global] Instance t_eq_dec : EqDecision t.
Proof. solve_decision. Defined.

Definition default : t := {|
  throttle_time_ms := 0;
  error_code := 0;
  unknown_tagged_fields := [] |}.

Definition API_KEY : Z := 12.
Definition MIN_VERSION : Z := 0.
Definition MAX_VERSION : Z := 4.

Definition encode (version : Z) (x : t) : enc :=
  let flex := is_flexible version in
  put_if (version >=? 1) (put_i32 (throttle_time_ms x)) ;;
  put_i16 (error_code x) ;;
  put_if flex (put_tagged_fields (unknown_tagged_fields x)) ;;
  enc_ret.

Section decode.
Context {R : Runtime}.

Definition decode_with_budget (version : Z) : bdec t :=
  let flex := is_flexible version in
  let* throttle_time_ms := get_if (version >=? 1) 0 (lift get_i32) in
  let* error_code := lift get_i16 in
  let* unknown_tagged_fields := get_if flex [] get_tagged_fields_with_budget in
  bdec_ret (mk throttle_time_ms error_code unknown_tagged_fields).

Definition decode_with_limits (version : Z) : Limits → dec t :=
  with_limits (decode_with_budget version).
Definition decode (version : Z) : dec t := with_default_limits (decode_with_budget version).

End decode.

Definition valid (version : Z) (x : t) : Prop :=
  let flex := is_flexible version in
  in_version (version >=? 1) is_i32 0 (throttle_time_ms x) ∧
  is_i16 (error_code x) ∧
  in_version flex tags_ok [] (unknown_tagged_fields x).

Lemma heartbeat_response_HeartbeatResponse_agrees {R : Runtime} version x :
  valid version x → pairs (encode version x) (decode_with_budget version) x.
Proof.
  unfold valid, encode, decode_with_budget, is_flexible. cbv zeta. agree. by destruct x.
Qed.
#[global] Hint Resolve heartbeat_response_HeartbeatResponse_agrees : fields.

Lemma heartbeat_response_HeartbeatResponse_settles {R : Runtime} version :
  settles (encode version) (valid version) (decode_with_budget version).
Proof. unfold valid, encode, decode_with_budget, is_flexible. cbv zeta. settle. Qed.
#[global] Hint Resolve heartbeat_response_HeartbeatResponse_settles : settles.

End HeartbeatResponse.

Lemma HeartbeatResponse_agrees (R : Runtime) version x :
  HeartbeatResponse.MIN_VERSION ≤ version ≤ HeartbeatResponse.MAX_VERSION → HeartbeatResponse.valid version x →
  pairs (HeartbeatResponse.encode version x) (HeartbeatResponse.decode_with_budget version) x.
Proof.
  intros _ ?. by apply HeartbeatResponse.heartbeat_response_HeartbeatResponse_agrees.
Qed.

#[global] Instance HeartbeatResponse_Message : Message HeartbeatResponse.t := {|
  Message.API_KEY := HeartbeatResponse.API_KEY;
  Message.MIN_VERSION := HeartbeatResponse.MIN_VERSION;
  Message.MAX_VERSION := HeartbeatResponse.MAX_VERSION;
  Message.encode := HeartbeatResponse.encode;
  Message.decode_with_budget := @HeartbeatResponse.decode_with_budget;
  Message.throttle_time_ms := λ x, Some (HeartbeatResponse.throttle_time_ms x);
  Message.valid := HeartbeatResponse.valid;
  Message.agrees := HeartbeatResponse_agrees;
  Message.settled := @HeartbeatResponse.heartbeat_response_HeartbeatResponse_settles |}.
#[global] Instance HeartbeatResponse_Default : Default HeartbeatResponse.t := HeartbeatResponse.default.

End heartbeat_response.

(** ** [leave_group_request.rs] *)

Module leave_group_request.

Definition is_flexible (version : Z) : bool := version >=? 4.

Module MemberIdentity.

Record t : Type := mk {
  member_id : string;
  group_instance_id : option string;
  reason : option string;
  unknown_tagged_fields : list RawTaggedField;
}.
#[global] Instance t_eq_dec : EqDecision t.
Proof. solve_decision. Defined.

Definition default : t := {|
  member_id := "";
  group_instance_id := None;
  reason := None;
  unknown_tagged_fields := [] |}.

Definition encode (version : Z) (x : t) : enc :=
  let flex := is_flexible version in
  put_if (version >=? 3) (put_flex_string flex (member_id x)) ;;
  put_if (version >=? 3) (put_flex_nullable_string flex (group_instance_id x)) ;;
  put_if (version >=? 5) (put_flex_nullable_string flex (reason x)) ;;
  put_if flex (put_tagged_fields (unknown_tagged_fields x)) ;;
  enc_ret.

Section decode.
Context {R : Runtime}.

Definition decode_with_budget (version : Z) : bdec t :=
  let flex := is_flexible version in
  let* member_id := get_if (version >=? 3) "" (get_flex_string flex) in
  let* group_instance_id := get_if (version >=? 3) None (get_flex_nullable_string flex) in
  let* reason := get_if (version >=? 5) None (get_flex_nullable_string flex) in
  let* unknown_tagged_fields := get_if flex [] get_tagged_fields_with_budget in
  bdec_ret (mk member_id group_instance_id reason unknown_tagged_fields).

Definition decode_with_limits (version : Z) : Limits → dec t :=
  with_limits (decode_with_budget version).
Definition decode (version : Z) : dec t := with_default_limits (decode_with_budget version).

End decode.

Definition valid (version : Z) (x : t) : Prop :=
  let flex := is_flexible version in
  in_version (version >=? 3) (str_ok flex) "" (member_id x) ∧
  in_version (version >=? 3) (opt_valid true (str_ok flex)) None (group_instance_id x) ∧
  in_version (version >=? 5) (opt_valid true (str_ok flex)) None (reason x) ∧
  in_version flex tags_ok [] (unknown_tagged_fields x).

Lemma leave_group_request_MemberIdentity_agrees {R : Runtime} version x :
  3 ≤ version →
  valid version x → pairs1 (encode version x) (decode_with_budget version) x.
Proof.
  intros ?. unfold valid, encode, decode_with_budget, is_flexible. cbv zeta. agree1; by destruct x.
Qed.
#[global] Hint Resolve leave_group_request_MemberIdentity_agrees : fields.

Lemma leave_group_request_MemberIdentity_settles {R : Runtime} version :
  settles (encode version) (valid version) (decode_with_budget version).
Proof. unfold valid, encode, decode_with_budget, is_flexible. cbv zeta. settle. Qed.
#[global] Hint Resolve leave_group_request_MemberIdentity_settles : settles.

End MemberIdentity.

Module LeaveGroupRequest.

Record t : Type := mk {
  group_id : string;
  member_id : string;
  members : list MemberIdentity.t;
  unknown_tagged_fields : list RawTaggedField;
}.
#[global] Instance t_eq_dec : EqDecision t.
Proof. solve_decision. Defined.

Definition default : t := {|
  group_id := "";
  member_id := "";
  members := [];
  unknown_tagged_fields := [] |}.

Definition API_KEY : Z := 13.
Definition MIN_VERSION : Z := 0.
Definition MAX_VERSION : Z := 5.

Definition encode (version : Z) (x : t) : enc :=
  let flex := is_flexible version in
  put_flex_string flex (group_id x) ;;
  put_if (version <=? 2) (put_flex_string flex (member_id x)) ;;
  put_if (version >=? 3) (put_flex_array flex (MemberIdentity.encode version) (members x)) ;;
  put_if flex (put_tagged_fields (unknown_tagged_fields x)) ;;
  enc_ret.

Section decode.
Context {R : Runtime}.

Definition decode_with_budget (version : Z) : bdec t :=
  let flex := is_flexible version in
  let* group_id := get_flex_string flex in
  let* member_id := get_if (version <=? 2) "" (get_flex_string flex) in
  let* members := get_if (version >=? 3) [] (get_flex_structs flex "MemberIdentity" (MemberIdentity.decode_with_budget version)) in
  let* unknown_tagged_fields := get_if flex [] get_tagged_fields_with_budget in
  bdec_ret (mk group_id member_id members unknown_tagged_fields).

Definition decode_with_limits (version : Z) : Limits → dec t :=
  with_limits (decode_with_budget version).
Definition decode (version : Z) : dec t := with_default_limits (decode_with_budget version).

End decode.

Definition valid (version : Z) (x : t) : Prop :=
  let flex := is_flexible version in
  str_ok flex (group_id x) ∧
  in_version (version <=? 2) (str_ok flex) "" (member_id x) ∧
  in_version (version >=? 3) (arr_ok flex (MemberIdentity.valid version)) [] (members x) ∧
  in_version flex tags_ok [] (unknown_tagged_fields x).

Lemma leave_group_request_LeaveGroupRequest_agrees {R : Runtime} version x :
  valid version x → pairs (encode version x) (decode_with_budget version) x.
Proof.
  unfold valid, encode, decode_with_budget, is_flexible. cbv zeta. agree. by destruct x.
Qed.
#[global] Hint Resolve leave_group_request_LeaveGroupRequest_agrees : fields.

Lemma leave_group_request_LeaveGroupRequest_settles {R : Runtime} version :
  settles (encode version) (valid version) (decode_with_budget version).
Proof. unfold valid, encode, decode_with_budget, is_flexible. cbv zeta. settle. Qed.
#[global] Hint Resolve leave_group_request_LeaveGroupRequest_settles : settles.

End LeaveGroupRequest.

Lemma LeaveGroupRequest_agrees (R : Runtime) version x :
  LeaveGroupRequest.MIN_VERSION ≤ version ≤ LeaveGroupRequest.MAX_VERSION → LeaveGroupRequest.valid version x →
  pairs (LeaveGroupRequest.encode version x) (LeaveGroupRequest.decode_with_budget version) x.
Proof.
  intros _ ?. by apply LeaveGroupRequest.leave_group_request_LeaveGroupRequest_agrees.
Qed.

#[global] Instance LeaveGroupRequest_Message : Message LeaveGroupRequest.t := {|
  Message.API_KEY := LeaveGroupRequest.API_KEY;
  Message.MIN_VERSION := LeaveGroupRequest.MIN_VERSION;
  Message.MAX_VERSION := LeaveGroupRequest.MAX_VERSION;
  Message.encode := LeaveGroupRequest.encode;
  Message.decode_with_budget := @LeaveGroupRequest.decode_with_budget;
  Message.throttle_time_ms := λ _, None;
  Message.valid := LeaveGroupRequest.valid;
  Message.agrees := LeaveGroupRequest_agrees;
  Message.settled := @LeaveGroupRequest.leave_group_request_LeaveGroupRequest_settles |}.
#[global] Instance LeaveGroupRequest_Default : Default LeaveGroupRequest.t := LeaveGroupRequest.default.

End leave_group_request.

(** ** [leave_group_response.rs] *)

Module leave_group_response.

Definition is_flexible (version : Z) : bool := version >=? 4.

Module MemberResponse.

Record t : Type := mk {
  member_id : string;
  group_instance_id : option string;
  error_code : Z;
  unknown_tagged_fields : list RawTaggedField;
}.
#[global] Instance t_eq_dec : EqDecision t.
Proof. solve_decision. Defined.

Definition default : t := {|
  member_id := "";
  group_instance_id := (Some "");
  error_code := 0;
  unknown_tagged_fields := [] |}.

Definition encode (version : Z) (x : t) : enc :=
  let flex := is_flexible version in
  put_if (version >=? 3) (put_flex_string flex (member_id x)) ;;
  put_if (version >=? 3) (put_flex_nullable_string flex (group_instance_id x)) ;;
  put_if (version >=? 3) (put_i16 (error_code x)) ;;
  put_if flex (put_tagged_fields (unknown_tagged_fields x)) ;;
  enc_ret.

Section decode.
Context {R : Runtime}.

Definition decode_with_budget (version : Z) : bdec t :=
  let flex := is_flexible version in
  let* member_id := get_if (version >=? 3) "" (get_flex_string flex) in
  let* group_instance_id := get_if (version >=? 3) (Some "") (get_flex_nullable_string flex) in
  let* error_code := get_if (version >=? 3) 0 (lift get_i16) in
  let* unknown_tagged_fields := get_if flex [] get_tagged_fields_with_budget in
  bdec_ret (mk member_id group_instance_id error_code unknown_tagged_fields).

Definition decode_with_limits (version : Z) : Limits → dec t :=
  with_limits (decode_with_budget version).
Definition decode (version : Z) : dec t := with_default_limits (decode_with_budget version).

End decode.

Definition valid (version : Z) (x : t) : Prop :=
  let flex := is_flexible version in
  in_version (version >=? 3) (str_ok flex) "" (member_id x) ∧
  in_version (version >=? 3) (opt_valid true (str_ok flex)) (Some "") (group_instance_id x) ∧
  in_version (version >=? 3) is_i16 0 (error_code x) ∧
  in_version flex tags_ok [] (unknown_tagged_fields x).

Lemma leave_group_response_MemberResponse_agrees {R : Runtime} version x :
  3 ≤ version →
  valid version x → pairs1 (encode version x) (decode_with_budget version) x.
Proof.
  intros ?. unfold valid, encode, decode_with_budget, is_flexible. cbv zeta. agree1; by destruct x.
Qed.
#[global] Hint Resolve leave_group_response_MemberResponse_agrees : fields.

Lemma leave_group_response_MemberResponse_settles {R : Runtime} version :
  settles (encode version) (valid version) (decode_with_budget version).
Proof. unfold valid, encode, decode_with_budget, is_flexible. cbv zeta. settle. Qed.
#[global] Hint Resolve leave_group_response_MemberResponse_settles : settles.

End MemberResponse.

Module LeaveGroupResponse.

Record t : Type := mk {
  throttle_time_ms : Z;
  error_code : Z;
  members : list MemberResponse.t;
  unknown_tagged_fields : list RawTaggedField;
}.
#[global] Instance t_eq_dec : EqDecision t.
Proof. solve_decision. Defined.

Definition default : t := {|
  throttle_time_ms := 0;
  error_code := 0;
  members := [];
  unknown_tagged_fields := [] |}.

Definition API_KEY : Z := 13.
Definition MIN_VERSION : Z := 0.
Definition MAX_VERSION : Z := 5.

Definition encode (version : Z) (x : t) : enc :=
  let flex := is_flexible version in
  put_if (version >=? 1) (put_i32 (throttle_time_ms x)) ;;
  put_i16 (error_code x) ;;
  put_if (version >=? 3) (put_flex_array flex (MemberResponse.encode version) (members x)) ;;
  put_if flex (put_tagged_fields (unknown_tagged_fields x)) ;;
  enc_ret.

Section decode.
Context {R : Runtime}.

Definition decode_with_budget (version : Z) : bdec t :=
  let flex := is_flexible version in
  let* throttle_time_ms := get_if (version >=? 1) 0 (lift get_i32) in
  let* error_code := lift get_i16 in
  let* members := get_if (version >=? 3) [] (get_flex_structs flex "MemberResponse" (MemberResponse.decode_with_budget version)) in
  let* unknown_tagged_fields := get_if flex [] get_tagged_fields_with_budget in
  bdec_ret (mk throttle_time_ms error_code members unknown_tagged_fields).

Definition decode_with_limits (version : Z) : Limits → dec t :=
  with_limits (decode_with_budget version).
Definition decode (version : Z) : dec t := with_default_limits (decode_with_budget version).

End decode.

Definition valid (version : Z) (x : t) : Prop :=
  let flex := is_flexible version in
  in_version (version >=? 1) is_i32 0 (throttle_time_ms x) ∧
  is_i16 (error_code x) ∧
  in_version (version >=? 3) (arr_ok flex (MemberResponse.valid version)) [] (members x) ∧
  in_version flex tags_ok [] (unknown_tagged_fields x).

Lemma leave_group_response_LeaveGroupResponse_agrees {R : Runtime} version x :
  valid version x → pairs (encode version x) (decode_with_budget version) x.
Proof.
  unfold valid, encode, decode_with_budget, is_flexible. cbv zeta. agree. by destruct x.
Qed.
#[global] Hint Resolve leave_group_response_LeaveGroupResponse_agrees : fields.

Lemma leave_group_response_LeaveGroupResponse_settles {R : Runtime} version :
  settles (encode version) (valid version) (decode_with_budget version).
Proof. unfold valid, encode, decode_with_budget, is_flexible. cbv zeta. settle. Qed.
#[global] Hint Resolve leave_group_response_LeaveGroupResponse_settles : settles.

End LeaveGroupResponse.

Lemma LeaveGroupResponse_agrees (R : Runtime) version x :
  LeaveGroupResponse.MIN_VERSION ≤ version ≤ LeaveGroupResponse.MAX_VERSION → LeaveGroupResponse.valid version x →
  pairs (LeaveGroupResponse.encode version x) (LeaveGroupResponse.decode_with_budget version) x.
Proof.
  intros _ ?. by apply LeaveGroupResponse.leave_group_response_LeaveGroupResponse_agrees.
Qed.

#[global] Instance LeaveGroupResponse_Message : Message LeaveGroupResponse.t := {|
  Message.API_KEY := LeaveGroupResponse.API_KEY;
  Message.MIN_VERSION := LeaveGroupResponse.MIN_VERSION;
  Message.MAX_VERSION := LeaveGroupResponse.MAX_VERSION;
  Message.encode := LeaveGroupResponse.encode;
  Message.decode_with_budget := @LeaveGroupResponse.decode_with_budget;
  Message.throttle_time_ms := λ x, Some (LeaveGroupResponse.throttle_time_ms x);
  Message.valid := LeaveGroupResponse.valid;
  Message.agrees := LeaveGroupResponse_agrees;
  Message.settled := @LeaveGroupResponse.leave_group_response_LeaveGroupResponse_settles |}.
#[global] Instance LeaveGroupResponse_Default : Default LeaveGroupResponse.t := LeaveGroupResponse.default.

End leave_group_response.

(** ** Consumer protocol payloads *)

(** ** [consumer_protocol_subscription.rs] *)

Module consumer_protocol_subscription.

Definition is_flexible (version : Z) : bool := false.

Module TopicPartition.

Record t : Type := mk {
  topic : string;
  partitions : list Z;
  unknown_tagged_fields : list RawTaggedField;
}.
#[global] Instance t_eq_dec : EqDecision t.
Proof. solve_decision. Defined.

Definition default : t := {|
  topic := "";
  partitions := [];
  unknown_tagged_fields := [] |}.

Definition encode (version : Z) (x : t) : enc :=
  let flex := is_flexible version in
  put_if (version >=? 1) (put_flex_string flex (topic x)) ;;
  put_if (version >=? 1) (put_flex_array flex put_i32 (partitions x)) ;;
  put_if flex (put_tagged_fields (unknown_tagged_fields x)) ;;
  enc_ret.

Section decode.
Context {R : Runtime}.

Definition decode_with_budget (version : Z) : bdec t :=
  let flex := is_flexible version in
  let* topic := get_if (version >=? 1) "" (get_flex_string flex) in
  let* partitions := get_if (version >=? 1) [] (get_flex_items flex "i32" (lift get_i32)) in
  let* unknown_tagged_fields := get_if flex [] get_tagged_fields_with_budget in
  bdec_ret (mk topic partitions unknown_tagged_fields).

Definition decode_with_limits (version : Z) : Limits → dec t :=
  with_limits (decode_with_budget version).
Definition decode (version : Z) : dec t := with_default_limits (decode_with_budget version).

End decode.

Definition valid (version : Z) (x : t) : Prop :=
  let flex := is_flexible version in
  in_version (version >=? 1) (str_ok flex) "" (topic x) ∧
  in_version (version >=? 1) (arr_ok flex is_i32) [] (partitions x) ∧
  in_version flex tags_ok [] (unknown_tagged_fields x).

Lemma consumer_protocol_subscription_TopicPartition_agrees {R : Runtime} version x :
  1 ≤ version →
  valid version x → pairs1 (encode version x) (decode_with_budget version) x.
Proof.
  intros ?. unfold valid, encode, decode_with_budget, is_flexible. cbv zeta. agree1; by destruct x.
Qed.
#[global] Hint Resolve consumer_protocol_subscription_TopicPartition_agrees : fields.

Lemma consumer_protocol_subscription_TopicPartition_settles {R : Runtime} version :
  settles (encode version) (valid version) (decode_with_budget version).
Proof. unfold valid, encode, decode_with_budget, is_flexible. cbv zeta. settle. Qed.
#[global] Hint Resolve consumer_protocol_subscription_TopicPartition_settles : settles.

End TopicPartition.

Module ConsumerProtocolSubscription.

Record t : Type := mk {
  topics : list string;
  user_data : option (list byte);
  owned_partitions : list TopicPartition.t;
  generation_id : Z;
  rack_id : option string;
  unknown_tagged_fields : list RawTaggedField;
}.
#[global] Instance t_eq_dec : EqDecision t.
Proof. solve_decision. Defined.

Definition default : t := {|
  topics := [];
  user_data := None;
  owned_partitions := [];
  generation_id := (-1);
  rack_id := None;
  unknown_tagged_fields := [] |}.

Definition MIN_VERSION : Z := 0.
Definition MAX_VERSION : Z := 3.

Definition encode (version : Z) (x : t) : enc :=
  let flex := is_flexible version in
  put_flex_array flex (put_flex_string flex) (topics x) ;;
  put_flex_nullable_bytes flex (user_data x) ;;
  put_if (version >=? 1) (put_flex_array flex (TopicPartition.encode version) (owned_partitions x)) ;;
  put_if (version >=? 2) (put_i32 (generation_id x)) ;;
  put_if (version >=? 3) (put_flex_nullable_string flex (rack_id x)) ;;
  put_if flex (put_tagged_fields (unknown_tagged_fields x)) ;;
  enc_ret.

Section decode.
Context {R : Runtime}.

Definition decode_with_budget (version : Z) : bdec t :=
  let flex := is_flexible version in
  let* topics := get_flex_items flex "String" (get_flex_string flex) in
  let* user_data := get_flex_nullable_bytes flex in
  let* owned_partitions := get_if (version >=? 1) [] (get_flex_structs flex "TopicPartition" (TopicPartition.decode_with_budget version)) in
  let* generation_id := get_if (version >=? 2) (-1) (lift get_i32) in
  let* rack_id := get_if (version >=? 3) None (get_flex_nullable_string flex) in
  let* unknown_tagged_fields := get_if flex [] get_tagged_fields_with_budget in
  bdec_ret (mk topics user_data owned_partitions generation_id rack_id unknown_tagged_fields).

Definition decode_with_limits (version : Z) : Limits → dec t :=
  with_limits (decode_with_budget version).
Definition decode (version : Z) : dec t := with_default_limits (decode_with_budget version).

End decode.

Definition valid (version : Z) (x : t) : Prop :=
  let flex := is_flexible version in
  arr_ok flex (str_ok flex) (topics x) ∧
  opt_valid true (bytes_ok flex) (user_data x) ∧
  in_version (version >=? 1) (arr_ok flex (TopicPartition.valid version)) [] (owned_partitions x) ∧
  in_version (version >=? 2) is_i32 (-1) (generation_id x) ∧
  in_version (version >=? 3) (opt_valid true (str_ok flex)) None (rack_id x) ∧
  in_version flex tags_ok [] (unknown_tagged_fields x).

Lemma consumer_protocol_subscription_ConsumerProtocolSubscription_agrees {R : Runtime} version x :
  valid version x → pairs (encode version x) (decode_with_budget version) x.
Proof.
  unfold valid, encode, decode_with_budget, is_flexible. cbv zeta. agree. by destruct x.
Qed.
#[global] Hint Resolve consumer_protocol_subscription_ConsumerProtocolSubscription_agrees : fields.

Lemma consumer_protocol_subscription_ConsumerProtocolSubscription_settles {R : Runtime} version :
  settles (encode version) (valid version) (decode_with_budget version).
Proof. unfold valid, encode, decode_with_budget, is_flexible. cbv zeta. settle. Qed.
#[global] Hint Resolve consumer_protocol_subscription_ConsumerProtocolSubscription_settles : settles.

End ConsumerProtocolSubscription.

End consumer_protocol_subscription.

(** ** [consumer_protocol_assignment.rs] *)

Module consumer_protocol_assignment.

Definition is_flexible (version : Z) : bool := false.

Module TopicPartition.

Record t : Type := mk {
  topic : string;
  partitions : list Z;
  unknown_tagged_fields : list RawTaggedField;
}.
#[global] Instance t_eq_dec : EqDecision t.
Proof. solve_decision. Defined.

Definition default : t := {|
  topic := "";
  partitions := [];
  unknown_tagged_fields := [] |}.

Definition encode (version : Z) (x : t) : enc :=
  let flex := is_flexible version in
  put_flex_string flex (topic x) ;;
  put_flex_array flex put_i32 (partitions x) ;;
  put_if flex (put_tagged_fields (unknown_tagged_fields x)) ;;
  enc_ret.

Section decode.
Context {R : Runtime}.

Definition decode_with_budget (version : Z) : bdec t :=
  let flex := is_flexible version in
  let* topic := get_flex_string flex in
  let* partitions := get_flex_items flex "i32" (lift get_i32) in
  let* unknown_tagged_fields := get_if flex [] get_tagged_fields_with_budget in
  bdec_ret (mk topic partitions unknown_tagged_fields).

Definition decode_with_limits (version : Z) : Limits → dec t :=
  with_limits (decode_with_budget version).
Definition decode (version : Z) : dec t := with_default_limits (decode_with_budget version).

End decode.

Definition valid (version : Z) (x : t) : Prop :=
  let flex := is_flexible version in
  str_ok flex (topic x) ∧
  arr_ok flex is_i32 (partitions x) ∧
  in_version flex tags_ok [] (unknown_tagged_fields x).

Lemma consumer_protocol_assignment_TopicPartition_agrees {R : Runtime} version x :
  valid version x → pairs1 (encode version x) (decode_with_budget version) x.
Proof.
  unfold valid, encode, decode_with_budget, is_flexible. cbv zeta. agree1; by destruct x.
Qed.
#[global] Hint Resolve consumer_protocol_assignment_TopicPartition_agrees : fields.

Lemma consumer_protocol_assignment_TopicPartition_settles {R : Runtime} version :
  settles (encode version) (valid version) (decode_with_budget version).
Proof. unfold valid, encode, decode_with_budget, is_flexible. cbv zeta. settle. Qed.
#[global] Hint Resolve consumer_protocol_assignment_TopicPartition_settles : settles.

End TopicPartition.

Module ConsumerProtocolAssignment.

Record t : Type := mk {
  assigned_partitions : list TopicPartition.t;
  user_data : option (list byte);
  unknown_tagged_fields : list RawTaggedField;
}.
#[global] Instance t_eq_dec : EqDecision t.
Proof. solve_decision. Defined.

Definition default : t := {|
  assigned_partitions := [];
  user_data := None;
  unknown_tagged_fields := [] |}.

Definition MIN_VERSION : Z := 0.
Definition MAX_VERSION : Z := 3.

Definition encode (version : Z) (x : t) : enc :=
  let flex := is_flexible version in
  put_flex_array flex (TopicPartition.encode version) (assigned_partitions x) ;;
  put_flex_nullable_bytes flex (user_data x) ;;
  put_if flex (put_tagged_fields (unknown_tagged_fields x)) ;;
  enc_ret.

Section decode.
Context {R : Runtime}.

Definition decode_with_budget (version : Z) : bdec t :=
  let flex := is_flexible version in
  let* assigned_partitions := get_flex_structs flex "TopicPartition" (TopicPartition.decode_with_budget version) in
  let* user_data := get_flex_nullable_bytes flex in
  let* unknown_tagged_fields := get_if flex [] get_tagged_fields_with_budget in
  bdec_ret (mk assigned_partitions user_data unknown_tagged_fields).

Definition decode_with_limits (version : Z) : Limits → dec t :=
  with_limits (decode_with_budget version).
Definition decode (version : Z) : dec t := with_default_limits (decode_with_budget version).

End decode.

Definition valid (version : Z) (x : t) : Prop :=
  let flex := is_flexible version in
  arr_ok flex (TopicPartition.valid version) (assigned_partitions x) ∧
  opt_valid true (bytes_ok flex) (user_data x) ∧
  in_version flex tags_ok [] (unknown_tagged_fields x).

Lemma consumer_protocol_assignment_ConsumerProtocolAssignment_agrees {R : Runtime} version x :
  valid version x → pairs (encode version x) (decode_with_budget version) x.
Proof.
  unfold valid, encode, decode_with_budget, is_flexible. cbv zeta. agree. by destruct x.
Qed.
#[global] Hint Resolve consumer_protocol_assignment_ConsumerProtocolAssignment_agrees : fields.

Lemma consumer_protocol_assignment_ConsumerProtocolAssignment_settles {R : Runtime} version :
  settles (encode version) (valid version) (decode_with_budget version).
Proof. unfold valid, encode, decode_with_budget, is_flexible. cbv zeta. settle. Qed.
#[global] Hint Resolve consumer_protocol_assignment_ConsumerProtocolAssignment_settles : settles.

End ConsumerProtocolAssignment.

End consumer_protocol_assignment.
