(* ===== verification/MsgGroupAdmin.v ===== *)
(** * Group administration messages, and the KIP-848 heartbeat

    [describe_groups_request.rs], [describe_groups_response.rs], [list_groups_request.rs], [list_groups_response.rs], [consumer_group_heartbeat_request.rs], [consumer_group_heartbeat_response.rs]
    of [odradek-protocol/src/messages/]: each message a Module named after its
    file, each struct a Module with its record [t], its defaults, its encoder and
    decoder, what makes a value representable at a version ([valid]) and the
    agreement of the two. *)
From S2P Require Import Prelude Budget Codec Wire Fields KnownTags Settles MessageTrait.

(** ** [describe_groups_request.rs] *)

Module describe_groups_request.

Definition is_flexible (version : Z) : bool := version >=? 5.

Module DescribeGroupsRequest.

Record t : Type := mk {
  groups : list string;
  include_authorized_operations : bool;
  unknown_tagged_fields : list RawTaggedField;
}.
#[global] Instance t_eq_dec : EqDecision t.
Proof. solve_decision. Defined.

Definition default : t := {|
  groups := [];
  include_authorized_operations := false;
  unknown_tagged_fields := [] |}.

Definition API_KEY : Z := 15.
Definition MIN_VERSION : Z := 0.
Definition MAX_VERSION : Z := 6.

Definition encode (version : Z) (x : t) : enc :=
  let flex := is_flexible version in
  put_flex_array flex (put_flex_string flex) (groups x) ;;
  put_if (version >=? 3) (put_bool (include_authorized_operations x)) ;;
  put_if flex (put_tagged_fields (unknown_tagged_fields x)) ;;
  enc_ret.

Section decode.
Context {R : Runtime}.

Definition decode_with_budget (version : Z) : bdec t :=
  let flex := is_flexible version in
  let* groups := get_flex_items flex "String" (get_flex_string flex) in
  let* include_authorized_operations := get_if (version >=? 3) false (lift get_bool) in
  let* unknown_tagged_fields := get_if flex [] get_tagged_fields_with_budget in
  bdec_ret (mk groups include_authorized_operations unknown_tagged_fields).

Definition decode_with_limits (version : Z) : Limits → dec t :=
  with_limits (decode_with_budget version).
Definition decode (version : Z) : dec t := with_default_limits (decode_with_budget version).

End decode.

Definition valid (version : Z) (x : t) : Prop :=
  let flex := is_flexible version in
  arr_ok flex (str_ok flex) (groups x) ∧
  in_version (version >=? 3) any false (include_authorized_operations x) ∧
  in_version flex tags_ok [] (unknown_tagged_fields x).

Lemma describe_groups_request_DescribeGroupsRequest_agrees {R : Runtime} version x :
  valid version x → pairs (encode version x) (decode_with_budget version) x.
Proof.
  unfold valid, encode, decode_with_budget, is_flexible. cbv zeta. agree. by destruct x.
Qed.
#[global] Hint Resolve describe_groups_request_DescribeGroupsRequest_agrees : fields.

Lemma describe_groups_request_DescribeGroupsRequest_settles {R : Runtime} version :
  settles (encode version) (valid version) (decode_with_budget version).
Proof. unfold valid, encode, decode_with_budget, is_flexible. cbv zeta. settle. Qed.
#[global] Hint Resolve describe_groups_request_DescribeGroupsRequest_settles : settles.

End DescribeGroupsRequest.

Lemma DescribeGroupsRequest_agrees (R : Runtime) version x :
  DescribeGroupsRequest.MIN_VERSION ≤ version ≤ DescribeGroupsRequest.MAX_VERSION → DescribeGroupsRequest.valid version x →
  pairs (DescribeGroupsRequest.encode version x) (DescribeGroupsRequest.decode_with_budget version) x.
Proof.
  intros _ ?. by apply DescribeGroupsRequest.describe_groups_request_DescribeGroupsRequest_agrees.
Qed.

#[global] Instance DescribeGroupsRequest_Message : Message DescribeGroupsRequest.t := {|
  Message.API_KEY := DescribeGroupsRequest.API_KEY;
  Message.MIN_VERSION := DescribeGroupsRequest.MIN_VERSION;
  Message.MAX_VERSION := DescribeGroupsRequest.MAX_VERSION;
  Message.encode := DescribeGroupsRequest.encode;
  Message.decode_with_budget := @DescribeGroupsRequest.decode_with_budget;
  Message.throttle_time_ms := λ _, None;
  Message.valid := DescribeGroupsRequest.valid;
  Message.agrees := DescribeGroupsRequest_agrees;
  Message.settled := @DescribeGroupsRequest.describe_groups_request_DescribeGroupsRequest_settles |}.
#[global] Instance DescribeGroupsRequest_Default : Default DescribeGroupsRequest.t := DescribeGroupsRequest.default.

End describe_groups_request.

(** ** [describe_groups_response.rs] *)

Module describe_groups_response.

Definition is_flexible (version : Z) : bool := version >=? 5.

Module DescribedGroupMember.

Record t : Type := mk {
  member_id : string;
  group_instance_id : option string;
  client_id : string;
  client_host : string;
  member_metadata : list byte;
  member_assignment : list byte;
  unknown_tagged_fields : list RawTaggedField;
}.
#[global] Instance t_eq_dec : EqDecision t.
Proof. solve_decision. Defined.

Definition default : t := {|
  member_id := "";
  group_instance_id := None;
  client_id := "";
  client_host := "";
  member_metadata := [];
  member_assignment := [];
  unknown_tagged_fields := [] |}.

Definition encode (version : Z) (x : t) : enc :=
  let flex := is_flexible version in
  put_flex_string flex (member_id x) ;;
  put_if (version >=? 4) (put_flex_nullable_string flex (group_instance_id x)) ;;
  put_flex_string flex (client_id x) ;;
  put_flex_string flex (client_host x) ;;
  put_flex_bytes flex (member_metadata x) ;;
  put_flex_bytes flex (member_assignment x) ;;
  put_if flex (put_tagged_fields (unknown_tagged_fields x)) ;;
  enc_ret.

Section decode.
Context {R : Runtime}.

Definition decode_with_budget (version : Z) : bdec t :=
  let flex := is_flexible version in
  let* member_id := get_flex_string flex in
  let* group_instance_id := get_if (version >=? 4) None (get_flex_nullable_string flex) in
  let* client_id := get_flex_string flex in
  let* client_host := get_flex_string flex in
  let* member_metadata := get_flex_bytes flex in
  let* member_assignment := get_flex_bytes flex in
  let* unknown_tagged_fields := get_if flex [] get_tagged_fields_with_budget in
  bdec_ret (mk member_id group_instance_id client_id client_host member_metadata member_assignment unknown_tagged_fields).

Definition decode_with_limits (version : Z) : Limits → dec t :=
  with_limits (decode_with_budget version).
Definition decode (version : Z) : dec t := with_default_limits (decode_with_budget version).

End decode.

Definition valid (version : Z) (x : t) : Prop :=
  let flex := is_flexible version in
  str_ok flex (member_id x) ∧
  in_version (version >=? 4) (opt_valid true (str_ok flex)) None (group_instance_id x) ∧
  str_ok flex (client_id x) ∧
  str_ok flex (client_host x) ∧
  bytes_ok flex (member_metadata x) ∧
  bytes_ok flex (member_assignment x) ∧
  in_version flex tags_ok [] (unknown_tagged_fields x).

Lemma describe_groups_response_DescribedGroupMember_agrees {R : Runtime} version x :
  valid version x → pairs1 (encode version x) (decode_with_budget version) x.
Proof.
  unfold valid, encode, decode_with_budget, is_flexible. cbv zeta. agree1; by destruct x.
Qed.
#[global] Hint Resolve describe_groups_response_DescribedGroupMember_agrees : fields.

Lemma describe_groups_response_DescribedGroupMember_settles {R : Runtime} version :
  settles (encode version) (valid version) (decode_with_budget version).
Proof. unfold valid, encode, decode_with_budget, is_flexible. cbv zeta. settle. Qed.
#[global] Hint Resolve describe_groups_response_DescribedGroupMember_settles : settles.

End DescribedGroupMember.

Module DescribedGroup.

Record t : Type := mk {
  error_code : Z;
  error_message : option string;
  group_id : string;
  group_state : string;
  protocol_type : string;
  protocol_data : string;
  members : list DescribedGroupMember.t;
  authorized_operations : Z;
  unknown_tagged_fields : list RawTaggedField;
}.
#[global] Instance t_eq_dec : EqDecision t.
Proof. solve_decision. Defined.

Definition default : t := {|
  error_code := 0;
  error_message := None;
  group_id := "";
  group_state := "";
  protocol_type := "";
  protocol_data := "";
  members := [];
  authorized_operations := (-2147483648);
  unknown_tagged_fields := [] |}.

Definition encode (version : Z) (x : t) : enc :=
  let flex := is_flexible version in
  put_i16 (error_code x) ;;
  put_if (version >=? 6) (put_flex_nullable_string flex (error_message x)) ;;
  put_flex_string flex (group_id x) ;;
  put_flex_string flex (group_state x) ;;
  put_flex_string flex (protocol_type x) ;;
  put_flex_string flex (protocol_data x) ;;
  put_flex_array flex (DescribedGroupMember.encode version) (members x) ;;
  put_if (version >=? 3) (put_i32 (authorized_operations x)) ;;
  put_if flex (put_tagged_fields (unknown_tagged_fields x)) ;;
  enc_ret.

Section decode.
Context {R : Runtime}.

Definition decode_with_budget (version : Z) : bdec t :=
  let flex := is_flexible version in
  let* error_code := lift get_i16 in
  let* error_message := get_if (version >=? 6) None (get_flex_nullable_string flex) in
  let* group_id := get_flex_string flex in
  let* group_state := get_flex_string flex in
  let* protocol_type := get_flex_string flex in
  let* protocol_data := get_flex_string flex in
  let* members := get_flex_structs flex "DescribedGroupMember" (DescribedGroupMember.decode_with_budget version) in
  let* authorized_operations := get_if (version >=? 3) (-2147483648) (lift get_i32) in
  let* unknown_tagged_fields := get_if flex [] get_tagged_fields_with_budget in
  bdec_ret (mk error_code error_message group_id group_state protocol_type protocol_data members authorized_operations unknown_tagged_fields).

Definition decode_with_limits (version : Z) : Limits → dec t :=
  with_limits (decode_with_budget version).
Definition decode (version : Z) : dec t := with_default_limits (decode_with_budget version).

End decode.

Definition valid (version : Z) (x : t) : Prop :=
  let flex := is_flexible version in
  is_i16 (error_code x) ∧
  in_version (version >=? 6) (opt_valid true (str_ok flex)) None (error_message x) ∧
  str_ok flex (group_id x) ∧
  str_ok flex (group_state x) ∧
  str_ok flex (protocol_type x) ∧
  str_ok flex (protocol_data x) ∧
  arr_ok flex (DescribedGroupMember.valid version) (members x) ∧
  in_version (version >=? 3) is_i32 (-2147483648) (authorized_operations x) ∧
  in_version flex tags_ok [] (unknown_tagged_fields x).

Lemma describe_groups_response_DescribedGroup_agrees {R : Runtime} version x :
  valid version x → pairs1 (encode version x) (decode_with_budget version) x.
Proof.
  unfold valid, encode, decode_with_budget, is_flexible. cbv zeta. agree1; by destruct x.
Qed.
#[global] Hint Resolve describe_groups_response_DescribedGroup_agrees : fields.

Lemma describe_groups_response_DescribedGroup_settles {R : Runtime} version :
  settles (encode version) (valid version) (decode_with_budget version).
Proof. unfold valid, encode, decode_with_budget, is_flexible. cbv zeta. settle. Qed.
#[global] Hint Resolve describe_groups_response_DescribedGroup_settles : settles.

End DescribedGroup.

Module DescribeGroupsResponse.

Record t : Type := mk {
  throttle_time_ms : Z;
  groups : list DescribedGroup.t;
  unknown_tagged_fields : list RawTaggedField;
}.
#[global] Instance t_eq_dec : EqDecision t.
Proof. solve_decision. Defined.

Definition default : t := {|
  throttle_time_ms := 0;
  groups := [];
  unknown_tagged_fields := [] |}.

Definition API_KEY : Z := 15.
Definition MIN_VERSION : Z := 0.
Definition MAX_VERSION : Z := 6.

Definition encode (version : Z) (x : t) : enc :=
  let flex := is_flexible version in
  put_if (version >=? 1) (put_i32 (throttle_time_ms x)) ;;
  put_flex_array flex (DescribedGroup.encode version) (groups x) ;;
  put_if flex (put_tagged_fields (unknown_tagged_fields x)) ;;
  enc_ret.

Section decode.
Context {R : Runtime}.

Definition decode_with_budget (version : Z) : bdec t :=
  let flex := is_flexible version in
  let* throttle_time_ms := get_if (version >=? 1) 0 (lift get_i32) in
  let* groups := get_flex_structs flex "DescribedGroup" (DescribedGroup.decode_with_budget version) in
  let* unknown_tagged_fields := get_if flex [] get_tagged_fields_with_budget in
  bdec_ret (mk throttle_time_ms groups unknown_tagged_fields).

Definition decode_with_limits (version : Z) : Limits → dec t :=
  with_limits (decode_with_budget version).
Definition decode (version : Z) : dec t := with_default_limits (decode_with_budget version).

End decode.

Definition valid (version : Z) (x : t) : Prop :=
  let flex := is_flexible version in
  in_version (version >=? 1) is_i32 0 (throttle_time_ms x) ∧
  arr_ok flex (DescribedGroup.valid version) (groups x) ∧
  in_version flex tags_ok [] (unknown_tagged_fields x).

Lemma describe_groups_response_DescribeGroupsResponse_agrees {R : Runtime} version x :
  valid version x → pairs (encode version x) (decode_with_budget version) x.
Proof.
  unfold valid, encode, decode_with_budget, is_flexible. cbv zeta. agree. by destruct x.
Qed.
#[global] Hint Resolve describe_groups_response_DescribeGroupsResponse_agrees : fields.

Lemma describe_groups_response_DescribeGroupsResponse_settles {R : Runtime} version :
  settles (encode version) (valid version) (decode_with_budget version).
Proof. unfold valid, encode, decode_with_budget, is_flexible. cbv zeta. settle. Qed.
#[global] Hint Resolve describe_groups_response_DescribeGroupsResponse_settles : settles.

End DescribeGroupsResponse.

Lemma DescribeGroupsResponse_agrees (R : Runtime) version x :
  DescribeGroupsResponse.MIN_VERSION ≤ version ≤ DescribeGroupsResponse.MAX_VERSION → DescribeGroupsResponse.valid version x →
  pairs (DescribeGroupsResponse.encode version x) (DescribeGroupsResponse.decode_with_budget version) x.
Proof.
  intros _ ?. by apply DescribeGroupsResponse.describe_groups_response_DescribeGroupsResponse_agrees.
Qed.

#[global] Instance DescribeGroupsResponse_Message : Message DescribeGroupsResponse.t := {|
  Message.API_KEY := DescribeGroupsResponse.API_KEY;
  Message.MIN_VERSION := DescribeGroupsResponse.MIN_VERSION;
  Message.MAX_VERSION := DescribeGroupsResponse.MAX_VERSION;
  Message.encode := DescribeGroupsResponse.encode;
  Message.decode_with_budget := @DescribeGroupsResponse.decode_with_budget;
  Message.throttle_time_ms := λ x, Some (DescribeGroupsResponse.throttle_time_ms x);
  Message.valid := DescribeGroupsResponse.valid;
  Message.agrees := DescribeGroupsResponse_agrees;
  Message.settled := @DescribeGroupsResponse.describe_groups_response_DescribeGroupsResponse_settles |}.
#[global] Instance DescribeGroupsResponse_Default : Default DescribeGroupsResponse.t := DescribeGroupsResponse.default.

End describe_groups_response.

(** ** [list_groups_request.rs] *)

Module list_groups_request.

Definition is_flexible (version : Z) : bool := version >=? 3.

Module ListGroupsRequest.

Record t : Type := mk {
  states_filter : list string;
  types_filter : list string;
  unknown_tagged_fields : list RawTaggedField;
}.
#[global] Instance t_eq_dec : EqDecision t.
Proof. solve_decision. Defined.

Definition default : t := {|
  states_filter := [];
  types_filter := [];
  unknown_tagged_fields := [] |}.

Definition API_KEY : Z := 16.
Definition MIN_VERSION : Z := 0.
Definition MAX_VERSION : Z := 5.

Definition encode (version : Z) (x : t) : enc :=
  let flex := is_flexible version in
  put_if (version >=? 4) (put_flex_array flex (put_flex_string flex) (states_filter x)) ;;
  put_if (version >=? 5) (put_flex_array flex (put_flex_string flex) (types_filter x)) ;;
  put_if flex (put_tagged_fields (unknown_tagged_fields x)) ;;
  enc_ret.

Section decode.
Context {R : Runtime}.

Definition decode_with_budget (version : Z) : bdec t :=
  let flex := is_flexible version in
  let* states_filter := get_if (version >=? 4) [] (get_flex_items flex "String" (get_flex_string flex)) in
  let* types_filter := get_if (version >=? 5) [] (get_flex_items flex "String" (get_flex_string flex)) in
  let* unknown_tagged_fields := get_if flex [] get_tagged_fields_with_budget in
  bdec_ret (mk states_filter types_filter unknown_tagged_fields).

Definition decode_with_limits (version : Z) : Limits → dec t :=
  with_limits (decode_with_budget version).
Definition decode (version : Z) : dec t := with_default_limits (decode_with_budget version).

End decode.

Definition valid (version : Z) (x : t) : Prop :=
  let flex := is_flexible version in
  in_version (version >=? 4) (arr_ok flex (str_ok flex)) [] (states_filter x) ∧
  in_version (version >=? 5) (arr_ok flex (str_ok flex)) [] (types_filter x) ∧
  in_version flex tags_ok [] (unknown_tagged_fields x).

Lemma list_groups_request_ListGroupsRequest_agrees {R : Runtime} version x :
  valid version x → pairs (encode version x) (decode_with_budget version) x.
Proof.
  unfold valid, encode, decode_with_budget, is_flexible. cbv zeta. agree. by destruct x.
Qed.
#[global] Hint Resolve list_groups_request_ListGroupsRequest_agrees : fields.

Lemma list_groups_request_ListGroupsRequest_settles {R : Runtime} version :
  settles (encode version) (valid version) (decode_with_budget version).
Proof. unfold valid, encode, decode_with_budget, is_flexible. cbv zeta. settle. Qed.
#[global] Hint Resolve list_groups_request_ListGroupsRequest_settles : settles.

End ListGroupsRequest.

Lemma ListGroupsRequest_agrees (R : Runtime) version x :
  ListGroupsRequest.MIN_VERSION ≤ version ≤ ListGroupsRequest.MAX_VERSION → ListGroupsRequest.valid version x →
  pairs (ListGroupsRequest.encode version x) (ListGroupsRequest.decode_with_budget version) x.
Proof.
  intros _ ?. by apply ListGroupsRequest.list_groups_request_ListGroupsRequest_agrees.
Qed.

#[global] Instance ListGroupsRequest_Message : Message ListGroupsRequest.t := {|
  Message.API_KEY := ListGroupsRequest.API_KEY;
  Message.MIN_VERSION := ListGroupsRequest.MIN_VERSION;
  Message.MAX_VERSION := ListGroupsRequest.MAX_VERSION;
  Message.encode := ListGroupsRequest.encode;
  Message.decode_with_budget := @ListGroupsRequest.decode_with_budget;
  Message.throttle_time_ms := λ _, None;
  Message.valid := ListGroupsRequest.valid;
  Message.agrees := ListGroupsRequest_agrees;
  Message.settled := @ListGroupsRequest.list_groups_request_ListGroupsRequest_settles |}.
#[global] Instance ListGroupsRequest_Default : Default ListGroupsRequest.t := ListGroupsRequest.default.

End list_groups_request.

(** ** [list_groups_response.rs] *)

Module list_groups_response.

Definition is_flexible (version : Z) : bool := version >=? 3.

Module ListedGroup.

Record t : Type := mk {
  group_id : string;
  protocol_type : string;
  group_state : string;
  group_type : string;
  unknown_tagged_fields : list RawTaggedField;
}.
#[global] Instance t_eq_dec : EqDecision t.
Proof. solve_decision. Defined.

Definition default : t := {|
  group_id := "";
  protocol_type := "";
  group_state := "";
  group_type := "";
  unknown_tagged_fields := [] |}.

Definition encode (version : Z) (x : t) : enc :=
  let flex := is_flexible version in
  put_flex_string flex (group_id x) ;;
  put_flex_string flex (protocol_type x) ;;
  put_if (version >=? 4) (put_flex_string flex (group_state x)) ;;
  put_if (version >=? 5) (put_flex_string flex (group_type x)) ;;
  put_if flex (put_tagged_fields (unknown_tagged_fields x)) ;;
  enc_ret.

Section decode.
Context {R : Runtime}.

Definition decode_with_budget (version : Z) : bdec t :=
  let flex := is_flexible version in
  let* group_id := get_flex_string flex in
  let* protocol_type := get_flex_string flex in
  let* group_state := get_if (version >=? 4) "" (get_flex_string flex) in
  let* group_type := get_if (version >=? 5) "" (get_flex_string flex) in
  let* unknown_tagged_fields := get_if flex [] get_tagged_fields_with_budget in
  bdec_ret (mk group_id protocol_type group_state group_type unknown_tagged_fields).

Definition decode_with_limits (version : Z) : Limits → dec t :=
  with_limits (decode_with_budget version).
Definition decode (version : Z) : dec t := with_default_limits (decode_with_budget version).

End decode.

Definition valid (version : Z) (x : t) : Prop :=
  let flex := is_flexible version in
  str_ok flex (group_id x) ∧
  str_ok flex (protocol_type x) ∧
  in_version (version >=? 4) (str_ok flex) "" (group_state x) ∧
  in_version (version >=? 5) (str_ok flex) "" (group_type x) ∧
  in_version flex tags_ok [] (unknown_tagged_fields x).

Lemma list_groups_response_ListedGroup_agrees {R : Runtime} version x :
  valid version x → pairs1 (encode version x) (decode_with_budget version) x.
Proof.
  unfold valid, encode, decode_with_budget, is_flexible. cbv zeta. agree1; by destruct x.
Qed.
#[global] Hint Resolve list_groups_response_ListedGroup_agrees : fields.

Lemma list_groups_response_ListedGroup_settles {R : Runtime} version :
  settles (encode version) (valid version) (decode_with_budget version).
Proof. unfold valid, encode, decode_with_budget, is_flexible. cbv zeta. settle. Qed.
#[global] Hint Resolve list_groups_response_ListedGroup_settles : settles.

End ListedGroup.

Module ListGroupsResponse.

Record t : Type := mk {
  throttle_time_ms : Z;
  error_code : Z;
  groups : list ListedGroup.t;
  unknown_tagged_fields : list RawTaggedField;
}.
#[global] Instance t_eq_dec : EqDecision t.
Proof. solve_decision. Defined.

Definition default : t := {|
  throttle_time_ms := 0;
  error_code := 0;
  groups := [];
  unknown_tagged_fields := [] |}.

Definition API_KEY : Z := 16.
Definition MIN_VERSION : Z := 0.
Definition MAX_VERSION : Z := 5.

Definition encode (version : Z) (x : t) : enc :=
  let flex := is_flexible version in
  put_if (version >=? 1) (put_i32 (throttle_time_ms x)) ;;
  put_i16 (error_code x) ;;
  put_flex_array flex (ListedGroup.encode version) (groups x) ;;
  put_if flex (put_tagged_fields (unknown_tagged_fields x)) ;;
  enc_ret.

Section decode.
Context {R : Runtime}.

Definition decode_with_budget (version : Z) : bdec t :=
  let flex := is_flexible version in
  let* throttle_time_ms := get_if (version >=? 1) 0 (lift get_i32) in
  let* error_code := lift get_i16 in
  let* groups := get_flex_structs flex "ListedGroup" (ListedGroup.decode_with_budget version) in
  let* unknown_tagged_fields := get_if flex [] get_tagged_fields_with_budget in
  bdec_ret (mk throttle_time_ms error_code groups unknown_tagged_fields).

Definition decode_with_limits (version : Z) : Limits → dec t :=
  with_limits (decode_with_budget version).
Definition decode (version : Z) : dec t := with_default_limits (decode_with_budget version).

End decode.

Definition valid (version : Z) (x : t) : Prop :=
  let flex := is_flexible version in
  in_version (version >=? 1) is_i32 0 (throttle_time_ms x) ∧
  is_i16 (error_code x) ∧
  arr_ok flex (ListedGroup.valid version) (groups x) ∧
  in_version flex tags_ok [] (unknown_tagged_fields x).

Lemma list_groups_response_ListGroupsResponse_agrees {R : Runtime} version x :
  valid version x → pairs (encode version x) (decode_with_budget version) x.
Proof.
  unfold valid, encode, decode_with_budget, is_flexible. cbv zeta. agree. by destruct x.
Qed.
#[global] Hint Resolve list_groups_response_ListGroupsResponse_agrees : fields.

Lemma list_groups_response_ListGroupsResponse_settles {R : Runtime} version :
  settles (encode version) (valid version) (decode_with_budget version).
Proof. unfold valid, encode, decode_with_budget, is_flexible. cbv zeta. settle. Qed.
#[global] Hint Resolve list_groups_response_ListGroupsResponse_settles : settles.

End ListGroupsResponse.

Lemma ListGroupsResponse_agrees (R : Runtime) version x :
  ListGroupsResponse.MIN_VERSION ≤ version ≤ ListGroupsResponse.MAX_VERSION → ListGroupsResponse.valid version x →
  pairs (ListGroupsResponse.encode version x) (ListGroupsResponse.decode_with_budget version) x.
Proof.
  intros _ ?. by apply ListGroupsResponse.list_groups_response_ListGroupsResponse_agrees.
Qed.

#[global] Instance ListGroupsResponse_Message : Message ListGroupsResponse.t := {|
  Message.API_KEY := ListGroupsResponse.API_KEY;
  Message.MIN_VERSION := ListGroupsResponse.MIN_VERSION;
  Message.MAX_VERSION := ListGroupsResponse.MAX_VERSION;
  Message.encode := ListGroupsResponse.encode;
  Message.decode_with_budget := @ListGroupsResponse.decode_with_budget;
  Message.throttle_time_ms := λ x, Some (ListGroupsResponse.throttle_time_ms x);
  Message.valid := ListGroupsResponse.valid;
  Message.agrees := ListGroupsResponse_agrees;
  Message.settled := @ListGroupsResponse.list_groups_response_ListGroupsResponse_settles |}.
#[global] Instance ListGroupsResponse_Default : Default ListGroupsResponse.t := ListGroupsResponse.default.

End list_groups_response.

(** ** [consumer_group_heartbeat_request.rs] *)

Module consumer_group_heartbeat_request.

Definition is_flexible (version : Z) : bool := true.

Module TopicPartitions.

Record t : Type := mk {
  topic_id : list byte;
  partitions : list Z;
  unknown_tagged_fields : list RawTaggedField;
}.
#[global] Instance t_eq_dec : EqDecision t.
Proof. solve_decision. Defined.

Definition default : t := {|
  topic_id := (replicate 16 Byte.x00);
  partitions := [];
  unknown_tagged_fields := [] |}.

Definition encode (version : Z) (x : t) : enc :=
  let flex := is_flexible version in
  put_uuid (topic_id x) ;;
  put_flex_array flex put_i32 (partitions x) ;;
  put_if flex (put_tagged_fields (unknown_tagged_fields x)) ;;
  enc_ret.

Section decode.
Context {R : Runtime}.

Definition decode_with_budget (version : Z) : bdec t :=
  let flex := is_flexible version in
  let* topic_id := lift get_uuid in
  let* partitions := get_flex_items flex "i32" (lift get_i32) in
  let* unknown_tagged_fields := get_if flex [] get_tagged_fields_with_budget in
  bdec_ret (mk topic_id partitions unknown_tagged_fields).

Definition decode_with_limits (version : Z) : Limits → dec t :=
  with_limits (decode_with_budget version).
Definition decode (version : Z) : dec t := with_default_limits (decode_with_budget version).

End decode.

Definition valid (version : Z) (x : t) : Prop :=
  let flex := is_flexible version in
  uuid_ok (topic_id x) ∧
  arr_ok flex is_i32 (partitions x) ∧
  in_version flex tags_ok [] (unknown_tagged_fields x).

Lemma consumer_group_heartbeat_request_TopicPartitions_agrees {R : Runtime} version x :
  valid version x → pairs1 (encode version x) (decode_with_budget version) x.
Proof.
  unfold valid, encode, decode_with_budget, is_flexible. cbv zeta. agree1; by destruct x.
Qed.
#[global] Hint Resolve consumer_group_heartbeat_request_TopicPartitions_agrees : fields.

Lemma consumer_group_heartbeat_request_TopicPartitions_settles {R : Runtime} version :
  settles (encode version) (valid version) (decode_with_budget version).
Proof. unfold valid, encode, decode_with_budget, is_flexible. cbv zeta. settle. Qed.
#[global] Hint Resolve consumer_group_heartbeat_request_TopicPartitions_settles : settles.

End TopicPartitions.

Module ConsumerGroupHeartbeatRequest.

Record t : Type := mk {
  group_id : string;
  member_id : string;
  member_epoch : Z;
  instance_id : option string;
  rack_id : option string;
  rebalance_timeout_ms : Z;
  subscribed_topic_names : option (list string);
  subscribed_topic_regex : option string;
  server_assignor : option string;
  topic_partitions : option (list TopicPartitions.t);
  unknown_tagged_fields : list RawTaggedField;
}.
#[global] Instance t_eq_dec : EqDecision t.
Proof. solve_decision. Defined.

Definition default : t := {|
  group_id := "";
  member_id := "";
  member_epoch := 0;
  instance_id := None;
  rack_id := None;
  rebalance_timeout_ms := (-1);
  subscribed_topic_names := None;
  subscribed_topic_regex := None;
  server_assignor := None;
  topic_partitions := None;
  unknown_tagged_fields := [] |}.

Definition API_KEY : Z := 68.
Definition MIN_VERSION : Z := 0.
Definition MAX_VERSION : Z := 1.

Definition encode (version : Z) (x : t) : enc :=
  let flex := is_flexible version in
  put_flex_string flex (group_id x) ;;
  put_flex_string flex (member_id x) ;;
  put_i32 (member_epoch x) ;;
  put_flex_nullable_string flex (instance_id x) ;;
  put_flex_nullable_string flex (rack_id x) ;;
  put_i32 (rebalance_timeout_ms x) ;;
  put_flex_nullable_array flex true "" (put_flex_string flex) (subscribed_topic_names x) ;;
  put_if (version >=? 1) (put_flex_nullable_string flex (subscribed_topic_regex x)) ;;
  put_flex_nullable_string flex (server_assignor x) ;;
  put_flex_nullable_array flex true "" (TopicPartitions.encode version) (topic_partitions x) ;;
  put_if flex (put_tagged_fields (unknown_tagged_fields x)) ;;
  enc_ret.

Section decode.
Context {R : Runtime}.

Definition decode_with_budget (version : Z) : bdec t :=
  let flex := is_flexible version in
  let* group_id := get_flex_string flex in
  let* member_id := get_flex_string flex in
  let* member_epoch := lift get_i32 in
  let* instance_id := get_flex_nullable_string flex in
  let* rack_id := get_flex_nullable_string flex in
  let* rebalance_timeout_ms := lift get_i32 in
  let* subscribed_topic_names := get_flex_nullable_items flex true "String" (get_flex_string flex) in
  let* subscribed_topic_regex := get_if (version >=? 1) None (get_flex_nullable_string flex) in
  let* server_assignor := get_flex_nullable_string flex in
  let* topic_partitions := get_flex_nullable_structs flex true "TopicPartitions" (TopicPartitions.decode_with_budget version) in
  let* unknown_tagged_fields := get_if flex [] get_tagged_fields_with_budget in
  bdec_ret (mk group_id member_id member_epoch instance_id rack_id rebalance_timeout_ms subscribed_topic_names subscribed_topic_regex server_assignor topic_partitions unknown_tagged_fields).

Definition decode_with_limits (version : Z) : Limits → dec t :=
  with_limits (decode_with_budget version).
Definition decode (version : Z) : dec t := with_default_limits (decode_with_budget version).

End decode.

Definition valid (version : Z) (x : t) : Prop :=
  let flex := is_flexible version in
  str_ok flex (group_id x) ∧
  str_ok flex (member_id x) ∧
  is_i32 (member_epoch x) ∧
  opt_valid true (str_ok flex) (instance_id x) ∧
  opt_valid true (str_ok flex) (rack_id x) ∧
  is_i32 (rebalance_timeout_ms x) ∧
  opt_valid true (arr_ok flex (str_ok flex)) (subscribed_topic_names x) ∧
  in_version (version >=? 1) (opt_valid true (str_ok flex)) None (subscribed_topic_regex x) ∧
  opt_valid true (str_ok flex) (server_assignor x) ∧
  opt_valid true (arr_ok flex (TopicPartitions.valid version)) (topic_partitions x) ∧
  in_version flex tags_ok [] (unknown_tagged_fields x).

Lemma consumer_group_heartbeat_request_ConsumerGroupHeartbeatRequest_agrees {R : Runtime} version x :
  valid version x → pairs (encode version x) (decode_with_budget version) x.
Proof.
  unfold valid, encode, decode_with_budget, is_flexible. cbv zeta. agree. by destruct x.
Qed.
#[global] Hint Resolve consumer_group_heartbeat_request_ConsumerGroupHeartbeatRequest_agrees : fields.

Lemma consumer_group_heartbeat_request_ConsumerGroupHeartbeatRequest_settles {R : Runtime} version :
  settles (encode version) (valid version) (decode_with_budget version).
Proof. unfold valid, encode, decode_with_budget, is_flexible. cbv zeta. settle. Qed.
#[global] Hint Resolve consumer_group_heartbeat_request_ConsumerGroupHeartbeatRequest_settles : settles.

End ConsumerGroupHeartbeatRequest.

Lemma ConsumerGroupHeartbeatRequest_agrees (R : Runtime) version x :
  ConsumerGroupHeartbeatRequest.MIN_VERSION ≤ version ≤ ConsumerGroupHeartbeatRequest.MAX_VERSION → ConsumerGroupHeartbeatRequest.valid version x →
  pairs (ConsumerGroupHeartbeatRequest.encode version x) (ConsumerGroupHeartbeatRequest.decode_with_budget version) x.
Proof.
  intros _ ?. by apply ConsumerGroupHeartbeatRequest.consumer_group_heartbeat_request_ConsumerGroupHeartbeatRequest_agrees.
Qed.

#[global] Instance ConsumerGroupHeartbeatRequest_Message : Message ConsumerGroupHeartbeatRequest.t := {|
  Message.API_KEY := ConsumerGroupHeartbeatRequest.API_KEY;
  Message.MIN_VERSION := ConsumerGroupHeartbeatRequest.MIN_VERSION;
  Message.MAX_VERSION := ConsumerGroupHeartbeatRequest.MAX_VERSION;
  Message.encode := ConsumerGroupHeartbeatRequest.encode;
  Message.decode_with_budget := @ConsumerGroupHeartbeatRequest.decode_with_budget;
  Message.throttle_time_ms := λ _, None;
  Message.valid := ConsumerGroupHeartbeatRequest.valid;
  Message.agrees := ConsumerGroupHeartbeatRequest_agrees;
  Message.settled := @ConsumerGroupHeartbeatRequest.consumer_group_heartbeat_request_ConsumerGroupHeartbeatRequest_settles |}.
#[global] Instance ConsumerGroupHeartbeatRequest_Default : Default ConsumerGroupHeartbeatRequest.t := ConsumerGroupHeartbeatRequest.default.

End consumer_group_heartbeat_request.

(** ** [consumer_group_heartbeat_response.rs] *)

Module consumer_group_heartbeat_response.

Definition is_flexible (version : Z) : bool := true.

Module TopicPartitions.

Record t : Type := mk {
  topic_id : list byte;
  partitions : list Z;
  unknown_tagged_fields : list RawTaggedField;
}.
#[global] Instance t_eq_dec : EqDecision t.
Proof. solve_decision. Defined.

Definition default : t := {|
  topic_id := (replicate 16 Byte.x00);
  partitions := [];
  unknown_tagged_fields := [] |}.

Definition encode (version : Z) (x : t) : enc :=
  let flex := is_flexible version in
  put_uuid (topic_id x) ;;
  put_flex_array flex put_i32 (partitions x) ;;
  put_if flex (put_tagged_fields (unknown_tagged_fields x)) ;;
  enc_ret.

Section decode.
Context {R : Runtime}.

Definition decode_with_budget (version : Z) : bdec t :=
  let flex := is_flexible version in
  let* topic_id := lift get_uuid in
  let* partitions := get_flex_items flex "i32" (lift get_i32) in
  let* unknown_tagged_fields := get_if flex [] get_tagged_fields_with_budget in
  bdec_ret (mk topic_id partitions unknown_tagged_fields).

Definition decode_with_limits (version : Z) : Limits → dec t :=
  with_limits (decode_with_budget version).
Definition decode (version : Z) : dec t := with_default_limits (decode_with_budget version).

End decode.

Definition valid (version : Z) (x : t) : Prop :=
  let flex := is_flexible version in
  uuid_ok (topic_id x) ∧
  arr_ok flex is_i32 (partitions x) ∧
  in_version flex tags_ok [] (unknown_tagged_fields x).

Lemma consumer_group_heartbeat_response_TopicPartitions_agrees {R : Runtime} version x :
  valid version x → pairs1 (encode version x) (decode_with_budget version) x.
Proof.
  unfold valid, encode, decode_with_budget, is_flexible. cbv zeta. agree1; by destruct x.
Qed.
#[global] Hint Resolve consumer_group_heartbeat_response_TopicPartitions_agrees : fields.

Lemma consumer_group_heartbeat_response_TopicPartitions_settles {R : Runtime} version :
  settles (encode version) (valid version) (decode_with_budget version).
Proof. unfold valid, encode, decode_with_budget, is_flexible. cbv zeta. settle. Qed.
#[global] Hint Resolve consumer_group_heartbeat_response_TopicPartitions_settles : settles.

End TopicPartitions.

Module Assignment.

Record t : Type := mk {
  topic_partitions : list TopicPartitions.t;
  unknown_tagged_fields : list RawTaggedField;
}.
#[global] Instance t_eq_dec : EqDecision t.
Proof. solve_decision. Defined.

Definition default : t := {|
  topic_partitions := [];
  unknown_tagged_fields := [] |}.

Definition encode (version : Z) (x : t) : enc :=
  let flex := is_flexible version in
  put_flex_array flex (TopicPartitions.encode version) (topic_partitions x) ;;
  put_if flex (put_tagged_fields (unknown_tagged_fields x)) ;;
  enc_ret.

Section decode.
Context {R : Runtime}.

Definition decode_with_budget (version : Z) : bdec t :=
  let flex := is_flexible version in
  let* topic_partitions := get_flex_structs flex "TopicPartitions" (TopicPartitions.decode_with_budget version) in
  let* unknown_tagged_fields := get_if flex [] get_tagged_fields_with_budget in
  bdec_ret (mk topic_partitions unknown_tagged_fields).

Definition decode_with_limits (version : Z) : Limits → dec t :=
  with_limits (decode_with_budget version).
Definition decode (version : Z) : dec t := with_default_limits (decode_with_budget version).

End decode.

Definition valid (version : Z) (x : t) : Prop :=
  let flex := is_flexible version in
  arr_ok flex (TopicPartitions.valid version) (topic_partitions x) ∧
  in_version flex tags_ok [] (unknown_tagged_fields x).

Lemma consumer_group_heartbeat_response_Assignment_agrees {R : Runtime} version x :
  valid version x → pairs1 (encode version x) (decode_with_budget version) x.
Proof.
  unfold valid, encode, decode_with_budget, is_flexible. cbv zeta. agree1; by destruct x.
Qed.
#[global] Hint Resolve consumer_group_heartbeat_response_Assignment_agrees : fields.

Lemma consumer_group_heartbeat_response_Assignment_settles {R : Runtime} version :
  settles (encode version) (valid version) (decode_with_budget version).
Proof. unfold valid, encode, decode_with_budget, is_flexible. cbv zeta. settle. Qed.
#[global] Hint Resolve consumer_group_heartbeat_response_Assignment_settles : settles.

End Assignment.

Module ConsumerGroupHeartbeatResponse.

Record t : Type := mk {
  throttle_time_ms : Z;
  error_code : Z;
  error_message : option string;
  member_id : option string;
  member_epoch : Z;
  heartbeat_interval_ms : Z;
  assignment : option Assignment.t;
  unknown_tagged_fields : list RawTaggedField;
}.
#[global] Instance t_eq_dec : EqDecision t.
Proof. solve_decision. Defined.

Definition default : t := {|
  throttle_time_ms := 0;
  error_code := 0;
  error_message := None;
  member_id := None;
  member_epoch := 0;
  heartbeat_interval_ms := 0;
  assignment := None;
  unknown_tagged_fields := [] |}.

Definition API_KEY : Z := 68.
Definition MIN_VERSION : Z := 0.
Definition MAX_VERSION : Z := 1.

Definition encode (version : Z) (x : t) : enc :=
  let flex := is_flexible version in
  put_i32 (throttle_time_ms x) ;;
  put_i16 (error_code x) ;;
  put_flex_nullable_string flex (error_message x) ;;
  put_flex_nullable_string flex (member_id x) ;;
  put_i32 (member_epoch x) ;;
  put_i32 (heartbeat_interval_ms x) ;;
  put_nullable_struct (Assignment.encode version) (assignment x) ;;
  put_if flex (put_tagged_fields (unknown_tagged_fields x)) ;;
  enc_ret.

Section decode.
Context {R : Runtime}.

Definition decode_with_budget (version : Z) : bdec t :=
  let flex := is_flexible version in
  let* throttle_time_ms := lift get_i32 in
  let* error_code := lift get_i16 in
  let* error_message := get_flex_nullable_string flex in
  let* member_id := get_flex_nullable_string flex in
  let* member_epoch := lift get_i32 in
  let* heartbeat_interval_ms := lift get_i32 in
  let* assignment := get_nullable_struct (Assignment.decode_with_budget version) in
  let* unknown_tagged_fields := get_if flex [] get_tagged_fields_with_budget in
  bdec_ret (mk throttle_time_ms error_code error_message member_id member_epoch heartbeat_interval_ms assignment unknown_tagged_fields).

Definition decode_with_limits (version : Z) : Limits → dec t :=
  with_limits (decode_with_budget version).
Definition decode (version : Z) : dec t := with_default_limits (decode_with_budget version).

End decode.

Definition valid (version : Z) (x : t) : Prop :=
  let flex := is_flexible version in
  is_i32 (throttle_time_ms x) ∧
  is_i16 (error_code x) ∧
  opt_valid true (str_ok flex) (error_message x) ∧
  opt_valid true (str_ok flex) (member_id x) ∧
  is_i32 (member_epoch x) ∧
  is_i32 (heartbeat_interval_ms x) ∧
  opt_valid true (Assignment.valid version) (assignment x) ∧
  in_version flex tags_ok [] (unknown_tagged_fields x).

Lemma consumer_group_heartbeat_response_ConsumerGroupHeartbeatResponse_agrees {R : Runtime} version x :
  valid version x → pairs (encode version x) (decode_with_budget version) x.
Proof.
  unfold valid, encode, decode_with_budget, is_flexible. cbv zeta. agree. by destruct x.
Qed.
#[global] Hint Resolve consumer_group_heartbeat_response_ConsumerGroupHeartbeatResponse_agrees : fields.

Lemma consumer_group_heartbeat_response_ConsumerGroupHeartbeatResponse_settles {R : Runtime} version :
  settles (encode version) (valid version) (decode_with_budget version).
Proof. unfold valid, encode, decode_with_budget, is_flexible. cbv zeta. settle. Qed.
#[global] Hint Resolve consumer_group_heartbeat_response_ConsumerGroupHeartbeatResponse_settles : settles.

End ConsumerGroupHeartbeatResponse.

Lemma ConsumerGroupHeartbeatResponse_agrees (R : Runtime) version x :
  ConsumerGroupHeartbeatResponse.MIN_VERSION ≤ version ≤ ConsumerGroupHeartbeatResponse.MAX_VERSION → ConsumerGroupHeartbeatResponse.valid version x →
  pairs (ConsumerGroupHeartbeatResponse.encode version x) (ConsumerGroupHeartbeatResponse.decode_with_budget version) x.
Proof.
  intros _ ?. by apply ConsumerGroupHeartbeatResponse.consumer_group_heartbeat_response_ConsumerGroupHeartbeatResponse_agrees.
Qed.

#[global] Instance ConsumerGroupHeartbeatResponse_Message : Message ConsumerGroupHeartbeatResponse.t := {|
  Message.API_KEY := ConsumerGroupHeartbeatResponse.API_KEY;
  Message.MIN_VERSION := ConsumerGroupHeartbeatResponse.MIN_VERSION;
  Message.MAX_VERSION := ConsumerGroupHeartbeatResponse.MAX_VERSION;
  Message.encode := ConsumerGroupHeartbeatResponse.encode;
  Message.decode_with_budget := @ConsumerGroupHeartbeatResponse.decode_with_budget;
  Message.throttle_time_ms := λ x, Some (ConsumerGroupHeartbeatResponse.throttle_time_ms x);
  Message.valid := ConsumerGroupHeartbeatResponse.valid;
  Message.agrees := ConsumerGroupHeartbeatResponse_agrees;
  Message.settled := @ConsumerGroupHeartbeatResponse.consumer_group_heartbeat_response_ConsumerGroupHeartbeatResponse_settles |}.
#[global] Instance ConsumerGroupHeartbeatResponse_Default : Default ConsumerGroupHeartbeatResponse.t := ConsumerGroupHeartbeatResponse.default.

End consumer_group_heartbeat_response.
