(* ===== verification/MsgOffset.v ===== *)
(** * Offset messages

    [offset_commit_request.rs], [offset_commit_response.rs], [offset_fetch_request.rs], [offset_fetch_response.rs], [list_offsets_request.rs], [list_offsets_response.rs]
    of [odradek-protocol/src/messages/]: each message a Module named after its
    file, each struct a Module with its record [t], its defaults, its encoder and
    decoder, what makes a value representable at a version ([valid]) and the
    agreement of the two. *)
From S2P Require Import Prelude Budget Codec Wire Fields KnownTags Settles MessageTrait.

(** ** [offset_commit_request.rs] *)

Module offset_commit_request.

Definition is_flexible (version : Z) : bool := version >=? 8.

Module OffsetCommitRequestPartition.

Record t : Type := mk {
  partition_index : Z;
  committed_offset : Z;
  committed_leader_epoch : Z;
  committed_metadata : option string;
  unknown_tagged_fields : list RawTaggedField;
}.
#[global] Instance t_eq_dec : EqDecision t.
Proof. solve_decision. Defined.

Definition default : t := {|
  partition_index := 0;
  committed_offset := 0;
  committed_leader_epoch := (-1);
  committed_metadata := (Some "");
  unknown_tagged_fields := [] |}.

Definition encode (version : Z) (x : t) : enc :=
  let flex := is_flexible version in
  put_i32 (partition_index x) ;;
  put_i64 (committed_offset x) ;;
  put_if (version >=? 6) (put_i32 (committed_leader_epoch x)) ;;
  put_flex_nullable_string flex (committed_metadata x) ;;
  put_if flex (put_tagged_fields (unknown_tagged_fields x)) ;;
  enc_ret.

Section decode.
Context {R : Runtime}.

Definition decode_with_budget (version : Z) : bdec t :=
  let flex := is_flexible version in
  let* partition_index := lift get_i32 in
  let* committed_offset := lift get_i64 in
  let* committed_leader_epoch := get_if (version >=? 6) (-1) (lift get_i32) in
  let* committed_metadata := get_flex_nullable_string flex in
  let* unknown_tagged_fields := get_if flex [] get_tagged_fields_with_budget in
  bdec_ret (mk partition_index committed_offset committed_leader_epoch committed_metadata unknown_tagged_fields).

Definition decode_with_limits (version : Z) : Limits → dec t :=
  with_limits (decode_with_budget version).
Definition decode (version : Z) : dec t := with_default_limits (decode_with_budget version).

End decode.

Definition valid (version : Z) (x : t) : Prop :=
  let flex := is_flexible version in
  is_i32 (partition_index x) ∧
  is_i64 (committed_offset x) ∧
  in_version (version >=? 6) is_i32 (-1) (committed_leader_epoch x) ∧
  opt_valid true (str_ok flex) (committed_metadata x) ∧
  in_version flex tags_ok [] (unknown_tagged_fields x).

Lemma offset_commit_request_OffsetCommitRequestPartition_agrees {R : Runtime} version x :
  valid version x → pairs1 (encode version x) (decode_with_budget version) x.
Proof.
  unfold valid, encode, decode_with_budget, is_flexible. cbv zeta. agree1; by destruct x.
Qed.
#[global] Hint Resolve offset_commit_request_OffsetCommitRequestPartition_agrees : fields.

Lemma offset_commit_request_OffsetCommitRequestPartition_settles {R : Runtime} version :
  settles (encode version) (valid version) (decode_with_budget version).
Proof. unfold valid, encode, decode_with_budget, is_flexible. cbv zeta. settle. Qed.
#[global] Hint Resolve offset_commit_request_OffsetCommitRequestPartition_settles : settles.

End OffsetCommitRequestPartition.

Module OffsetCommitRequestTopic.

Record t : Type := mk {
  name : string;
  topic_id : list byte;
  partitions : list OffsetCommitRequestPartition.t;
  unknown_tagged_fields : list RawTaggedField;
}.
#[global] Instance t_eq_dec : EqDecision t.
Proof. solve_decision. Defined.

Definition default : t := {|
  name := "";
  topic_id := (replicate 16 Byte.x00);
  partitions := [];
  unknown_tagged_fields := [] |}.

Definition encode (version : Z) (x : t) : enc :=
  let flex := is_flexible version in
  put_if (version <=? 9) (put_flex_string flex (name x)) ;;
  put_if (version >=? 10) (put_uuid (topic_id x)) ;;
  put_flex_array flex (OffsetCommitRequestPartition.encode version) (partitions x) ;;
  put_if flex (put_tagged_fields (unknown_tagged_fields x)) ;;
  enc_ret.

Section decode.
Context {R : Runtime}.

Definition decode_with_budget (version : Z) : bdec t :=
  let flex := is_flexible version in
  let* name := get_if (version <=? 9) "" (get_flex_string flex) in
  let* topic_id := get_if (version >=? 10) (replicate 16 Byte.x00) (lift get_uuid) in
  let* partitions := get_flex_structs flex "OffsetCommitRequestPartition" (OffsetCommitRequestPartition.decode_with_budget version) in
  let* unknown_tagged_fields := get_if flex [] get_tagged_fields_with_budget in
  bdec_ret (mk name topic_id partitions unknown_tagged_fields).

Definition decode_with_limits (version : Z) : Limits → dec t :=
  with_limits (decode_with_budget version).
Definition decode (version : Z) : dec t := with_default_limits (decode_with_budget version).

End decode.

Definition valid (version : Z) (x : t) : Prop :=
  let flex := is_flexible version in
  in_version (version <=? 9) (str_ok flex) "" (name x) ∧
  in_version (version >=? 10) uuid_ok (replicate 16 Byte.x00) (topic_id x) ∧
  arr_ok flex (OffsetCommitRequestPartition.valid version) (partitions x) ∧
  in_version flex tags_ok [] (unknown_tagged_fields x).

Lemma offset_commit_request_OffsetCommitRequestTopic_agrees {R : Runtime} version x :
  valid version x → pairs1 (encode version x) (decode_with_budget version) x.
Proof.
  unfold valid, encode, decode_with_budget, is_flexible. cbv zeta. agree1; by destruct x.
Qed.
#[global] Hint Resolve offset_commit_request_OffsetCommitRequestTopic_agrees : fields.

Lemma offset_commit_request_OffsetCommitRequestTopic_settles {R : Runtime} version :
  settles (encode version) (valid version) (decode_with_budget version).
Proof. unfold valid, encode, decode_with_budget, is_flexible. cbv zeta. settle. Qed.
#[global] Hint Resolve offset_commit_request_OffsetCommitRequestTopic_settles : settles.

End OffsetCommitRequestTopic.

Module OffsetCommitRequest.

Record t : Type := mk {
  group_id : string;
  generation_id_or_member_epoch : Z;
  member_id : string;
  group_instance_id : option string;
  retention_time_ms : Z;
  topics : list OffsetCommitRequestTopic.t;
  unknown_tagged_fields : list RawTaggedField;
}.
#[global] Instance t_eq_dec : EqDecision t.
Proof. solve_decision. Defined.

Definition default : t := {|
  group_id := "";
  generation_id_or_member_epoch := (-1);
  member_id := "";
  group_instance_id := None;
  retention_time_ms := (-1);
  topics := [];
  unknown_tagged_fields := [] |}.

Definition API_KEY : Z := 8.
Definition MIN_VERSION : Z := 2.
Definition MAX_VERSION : Z := 10.

Definition encode (version : Z) (x : t) : enc :=
  let flex := is_flexible version in
  put_flex_string flex (group_id x) ;;
  put_i32 (generation_id_or_member_epoch x) ;;
  put_flex_string flex (member_id x) ;;
  put_if (version >=? 7) (put_flex_nullable_string flex (group_instance_id x)) ;;
  put_if (version <=? 4) (put_i64 (retention_time_ms x)) ;;
  put_flex_array flex (OffsetCommitRequestTopic.encode version) (topics x) ;;
  put_if flex (put_tagged_fields (unknown_tagged_fields x)) ;;
  enc_ret.

Section decode.
Context {R : Runtime}.

Definition decode_with_budget (version : Z) : bdec t :=
  let flex := is_flexible version in
  let* group_id := get_flex_string flex in
  let* generation_id_or_member_epoch := lift get_i32 in
  let* member_id := get_flex_string flex in
  let* group_instance_id := get_if (version >=? 7) None (get_flex_nullable_string flex) in
  let* retention_time_ms := get_if (version <=? 4) (-1) (lift get_i64) in
  let* topics := get_flex_structs flex "OffsetCommitRequestTopic" (OffsetCommitRequestTopic.decode_with_budget version) in
  let* unknown_tagged_fields := get_if flex [] get_tagged_fields_with_budget in
  bdec_ret (mk group_id generation_id_or_member_epoch member_id group_instance_id retention_time_ms topics unknown_tagged_fields).

Definition decode_with_limits (version : Z) : Limits → dec t :=
  with_limits (decode_with_budget version).
Definition decode (version : Z) : dec t := with_default_limits (decode_with_budget version).

End decode.

Definition valid (version : Z) (x : t) : Prop :=
  let flex := is_flexible version in
  str_ok flex (group_id x) ∧
  is_i32 (generation_id_or_member_epoch x) ∧
  str_ok flex (member_id x) ∧
  in_version (version >=? 7) (opt_valid true (str_ok flex)) None (group_instance_id x) ∧
  in_version (version <=? 4) is_i64 (-1) (retention_time_ms x) ∧
  arr_ok flex (OffsetCommitRequestTopic.valid version) (topics x) ∧
  in_version flex tags_ok [] (unknown_tagged_fields x).

Lemma offset_commit_request_OffsetCommitRequest_agrees {R : Runtime} version x :
  valid version x → pairs (encode version x) (decode_with_budget version) x.
Proof.
  unfold valid, encode, decode_with_budget, is_flexible. cbv zeta. agree. by destruct x.
Qed.
#[global] Hint Resolve offset_commit_request_OffsetCommitRequest_agrees : fields.

Lemma offset_commit_request_OffsetCommitRequest_settles {R : Runtime} version :
  settles (encode version) (valid version) (decode_with_budget version).
Proof. unfold valid, encode, decode_with_budget, is_flexible. cbv zeta. settle. Qed.
#[global] Hint Resolve offset_commit_request_OffsetCommitRequest_settles : settles.

End OffsetCommitRequest.

Lemma OffsetCommitRequest_agrees (R : Runtime) version x :
  OffsetCommitRequest.MIN_VERSION ≤ version ≤ OffsetCommitRequest.MAX_VERSION → OffsetCommitRequest.valid version x →
  pairs (OffsetCommitRequest.encode version x) (OffsetCommitRequest.decode_with_budget version) x.
Proof.
  intros _ ?. by apply OffsetCommitRequest.offset_commit_request_OffsetCommitRequest_agrees.
Qed.

#[global] Instance OffsetCommitRequest_Message : Message OffsetCommitRequest.t := {|
  Message.API_KEY := OffsetCommitRequest.API_KEY;
  Message.MIN_VERSION := OffsetCommitRequest.MIN_VERSION;
  Message.MAX_VERSION := OffsetCommitRequest.MAX_VERSION;
  Message.encode := OffsetCommitRequest.encode;
  Message.decode_with_budget := @OffsetCommitRequest.decode_with_budget;
  Message.throttle_time_ms := λ _, None;
  Message.valid := OffsetCommitRequest.valid;
  Message.agrees := OffsetCommitRequest_agrees;
  Message.settled := @OffsetCommitRequest.offset_commit_request_OffsetCommitRequest_settles |}.
#[global] Instance OffsetCommitRequest_Default : Default OffsetCommitRequest.t := OffsetCommitRequest.default.

End offset_commit_request.

(** ** [offset_commit_response.rs] *)

Module offset_commit_response.

Definition is_flexible (version : Z) : bool := version >=? 8.

Module OffsetCommitResponsePartition.

Record t : Type := mk {
  partition_index : Z;
  error_code : Z;
  unknown_tagged_fields : list RawTaggedField;
}.
#[global] Instance t_eq_dec : EqDecision t.
Proof. solve_decision. Defined.

Definition default : t := {|
  partition_index := 0;
  error_code := 0;
  unknown_tagged_fields := [] |}.

Definition encode (version : Z) (x : t) : enc :=
  let flex := is_flexible version in
  put_i32 (partition_index x) ;;
  put_i16 (error_code x) ;;
  put_if flex (put_tagged_fields (unknown_tagged_fields x)) ;;
  enc_ret.

Section decode.
Context {R : Runtime}.

Definition decode_with_budget (version : Z) : bdec t :=
  let flex := is_flexible version in
  let* partition_index := lift get_i32 in
  let* error_code := lift get_i16 in
  let* unknown_tagged_fields := get_if flex [] get_tagged_fields_with_budget in
  bdec_ret (mk partition_index error_code unknown_tagged_fields).

Definition decode_with_limits (version : Z) : Limits → dec t :=
  with_limits (decode_with_budget version).
Definition decode (version : Z) : dec t := with_default_limits (decode_with_budget version).

End decode.

Definition valid (version : Z) (x : t) : Prop :=
  let flex := is_flexible version in
  is_i32 (partition_index x) ∧
  is_i16 (error_code x) ∧
  in_version flex tags_ok [] (unknown_tagged_fields x).

Lemma offset_commit_response_OffsetCommitResponsePartition_agrees {R : Runtime} version x :
  valid version x → pairs1 (encode version x) (decode_with_budget version) x.
Proof.
  unfold valid, encode, decode_with_budget, is_flexible. cbv zeta. agree1; by destruct x.
Qed.
#[global] Hint Resolve offset_commit_response_OffsetCommitResponsePartition_agrees : fields.

Lemma offset_commit_response_OffsetCommitResponsePartition_settles {R : Runtime} version :
  settles (encode version) (valid version) (decode_with_budget version).
Proof. unfold valid, encode, decode_with_budget, is_flexible. cbv zeta. settle. Qed.
#[global] Hint Resolve offset_commit_response_OffsetCommitResponsePartition_settles : settles.

End OffsetCommitResponsePartition.

Module OffsetCommitResponseTopic.

Record t : Type := mk {
  name : string;
  topic_id : list byte;
  partitions : list OffsetCommitResponsePartition.t;
  unknown_tagged_fields : list RawTaggedField;
}.
#[global] Instance t_eq_dec : EqDecision t.
Proof. solve_decision. Defined.

Definition default : t := {|
  name := "";
  topic_id := (replicate 16 Byte.x00);
  partitions := [];
  unknown_tagged_fields := [] |}.

Definition encode (version : Z) (x : t) : enc :=
  let flex := is_flexible version in
  put_if (version <=? 9) (put_flex_string flex (name x)) ;;
  put_if (version >=? 10) (put_uuid (topic_id x)) ;;
  put_flex_array flex (OffsetCommitResponsePartition.encode version) (partitions x) ;;
  put_if flex (put_tagged_fields (unknown_tagged_fields x)) ;;
  enc_ret.

Section decode.
Context {R : Runtime}.

Definition decode_with_budget (version : Z) : bdec t :=
  let flex := is_flexible version in
  let* name := get_if (version <=? 9) "" (get_flex_string flex) in
  let* topic_id := get_if (version >=? 10) (replicate 16 Byte.x00) (lift get_uuid) in
  let* partitions := get_flex_structs flex "OffsetCommitResponsePartition" (OffsetCommitResponsePartition.decode_with_budget version) in
  let* unknown_tagged_fields := get_if flex [] get_tagged_fields_with_budget in
  bdec_ret (mk name topic_id partitions unknown_tagged_fields).

Definition decode_with_limits (version : Z) : Limits → dec t :=
  with_limits (decode_with_budget version).
Definition decode (version : Z) : dec t := with_default_limits (decode_with_budget version).

End decode.

Definition valid (version : Z) (x : t) : Prop :=
  let flex := is_flexible version in
  in_version (version <=? 9) (str_ok flex) "" (name x) ∧
  in_version (version >=? 10) uuid_ok (replicate 16 Byte.x00) (topic_id x) ∧
  arr_ok flex (OffsetCommitResponsePartition.valid version) (partitions x) ∧
  in_version flex tags_ok [] (unknown_tagged_fields x).

Lemma offset_commit_response_OffsetCommitResponseTopic_agrees {R : Runtime} version x :
  valid version x → pairs1 (encode version x) (decode_with_budget version) x.
Proof.
  unfold valid, encode, decode_with_budget, is_flexible. cbv zeta. agree1; by destruct x.
Qed.
#[global] Hint Resolve offset_commit_response_OffsetCommitResponseTopic_agrees : fields.

Lemma offset_commit_response_OffsetCommitResponseTopic_settles {R : Runtime} version :
  settles (encode version) (valid version) (decode_with_budget version).
Proof. unfold valid, encode, decode_with_budget, is_flexible. cbv zeta. settle. Qed.
#[global] Hint Resolve offset_commit_response_OffsetCommitResponseTopic_settles : settles.

End OffsetCommitResponseTopic.

Module OffsetCommitResponse.

Record t : Type := mk {
  throttle_time_ms : Z;
  topics : list OffsetCommitResponseTopic.t;
  unknown_tagged_fields : list RawTaggedField;
}.
#[global] Instance t_eq_dec : EqDecision t.
Proof. solve_decision. Defined.

Definition default : t := {|
  throttle_time_ms := 0;
  topics := [];
  unknown_tagged_fields := [] |}.

Definition API_KEY : Z := 8.
Definition MIN_VERSION : Z := 2.
Definition MAX_VERSION : Z := 10.

Definition encode (version : Z) (x : t) : enc :=
  let flex := is_flexible version in
  put_if (version >=? 3) (put_i32 (throttle_time_ms x)) ;;
  put_flex_array flex (OffsetCommitResponseTopic.encode version) (topics x) ;;
  put_if flex (put_tagged_fields (unknown_tagged_fields x)) ;;
  enc_ret.

Section decode.
Context {R : Runtime}.

Definition decode_with_budget (version : Z) : bdec t :=
  let flex := is_flexible version in
  let* throttle_time_ms := get_if (version >=? 3) 0 (lift get_i32) in
  let* topics := get_flex_structs flex "OffsetCommitResponseTopic" (OffsetCommitResponseTopic.decode_with_budget version) in
  let* unknown_tagged_fields := get_if flex [] get_tagged_fields_with_budget in
  bdec_ret (mk throttle_time_ms topics unknown_tagged_fields).

Definition decode_with_limits (version : Z) : Limits → dec t :=
  with_limits (decode_with_budget version).
Definition decode (version : Z) : dec t := with_default_limits (decode_with_budget version).

End decode.

Definition valid (version : Z) (x : t) : Prop :=
  let flex := is_flexible version in
  in_version (version >=? 3) is_i32 0 (throttle_time_ms x) ∧
  arr_ok flex (OffsetCommitResponseTopic.valid version) (topics x) ∧
  in_version flex tags_ok [] (unknown_tagged_fields x).

Lemma offset_commit_response_OffsetCommitResponse_agrees {R : Runtime} version x :
  valid version x → pairs (encode version x) (decode_with_budget version) x.
Proof.
  unfold valid, encode, decode_with_budget, is_flexible. cbv zeta. agree. by destruct x.
Qed.
#[global] Hint Resolve offset_commit_response_OffsetCommitResponse_agrees : fields.

Lemma offset_commit_response_OffsetCommitResponse_settles {R : Runtime} version :
  settles (encode version) (valid version) (decode_with_budget version).
Proof. unfold valid, encode, decode_with_budget, is_flexible. cbv zeta. settle. Qed.
#[global] Hint Resolve offset_commit_response_OffsetCommitResponse_settles : settles.

End OffsetCommitResponse.

Lemma OffsetCommitResponse_agrees (R : Runtime) version x :
  OffsetCommitResponse.MIN_VERSION ≤ version ≤ OffsetCommitResponse.MAX_VERSION → OffsetCommitResponse.valid version x →
  pairs (OffsetCommitResponse.encode version x) (OffsetCommitResponse.decode_with_budget version) x.
Proof.
  intros _ ?. by apply OffsetCommitResponse.offset_commit_response_OffsetCommitResponse_agrees.
Qed.

#[global] Instance OffsetCommitResponse_Message : Message OffsetCommitResponse.t := {|
  Message.API_KEY := OffsetCommitResponse.API_KEY;
  Message.MIN_VERSION := OffsetCommitResponse.MIN_VERSION;
  Message.MAX_VERSION := OffsetCommitResponse.MAX_VERSION;
  Message.encode := OffsetCommitResponse.encode;
  Message.decode_with_budget := @OffsetCommitResponse.decode_with_budget;
  Message.throttle_time_ms := λ x, Some (OffsetCommitResponse.throttle_time_ms x);
  Message.valid := OffsetCommitResponse.valid;
  Message.agrees := OffsetCommitResponse_agrees;
  Message.settled := @OffsetCommitResponse.offset_commit_response_OffsetCommitResponse_settles |}.
#[global] Instance OffsetCommitResponse_Default : Default OffsetCommitResponse.t := OffsetCommitResponse.default.

End offset_commit_response.

(** ** [offset_fetch_request.rs] *)

Module offset_fetch_request.

Definition is_flexible (version : Z) : bool := version >=? 6.

Module OffsetFetchRequestTopic.

Record t : Type := mk {
  name : string;
  partition_indexes : list Z;
  unknown_tagged_fields : list RawTaggedField;
}.
#[global] Instance t_eq_dec : EqDecision t.
Proof. solve_decision. Defined.

Definition default : t := {|
  name := "";
  partition_indexes := [];
  unknown_tagged_fields := [] |}.

Definition encode (version : Z) (x : t) : enc :=
  let flex := is_flexible version in
  put_if (version <=? 7) (put_flex_string flex (name x)) ;;
  put_if (version <=? 7) (put_flex_array flex put_i32 (partition_indexes x)) ;;
  put_if flex (put_tagged_fields (unknown_tagged_fields x)) ;;
  enc_ret.

Section decode.
Context {R : Runtime}.

Definition decode_with_budget (version : Z) : bdec t :=
  let flex := is_flexible version in
  let* name := get_if (version <=? 7) "" (get_flex_string flex) in
  let* partition_indexes := get_if (version <=? 7) [] (get_flex_items flex "i32" (lift get_i32)) in
  let* unknown_tagged_fields := get_if flex [] get_tagged_fields_with_budget in
  bdec_ret (mk name partition_indexes unknown_tagged_fields).

Definition decode_with_limits (version : Z) : Limits → dec t :=
  with_limits (decode_with_budget version).
Definition decode (version : Z) : dec t := with_default_limits (decode_with_budget version).

End decode.

Definition valid (version : Z) (x : t) : Prop :=
  let flex := is_flexible version in
  in_version (version <=? 7) (str_ok flex) "" (name x) ∧
  in_version (version <=? 7) (arr_ok flex is_i32) [] (partition_indexes x) ∧
  in_version flex tags_ok [] (unknown_tagged_fields x).

Lemma offset_fetch_request_OffsetFetchRequestTopic_agrees {R : Runtime} version x :
  version ≤ 7 ∨ 6 ≤ version →
  valid version x → pairs1 (encode version x) (decode_with_budget version) x.
Proof.
  intros ?. unfold valid, encode, decode_with_budget, is_flexible. cbv zeta. agree1; by destruct x.
Qed.
#[global] Hint Resolve offset_fetch_request_OffsetFetchRequestTopic_agrees : fields.

Lemma offset_fetch_request_OffsetFetchRequestTopic_settles {R : Runtime} version :
  settles (encode version) (valid version) (decode_with_budget version).
Proof. unfold valid, encode, decode_with_budget, is_flexible. cbv zeta. settle. Qed.
#[global] Hint Resolve offset_fetch_request_OffsetFetchRequestTopic_settles : settles.

End OffsetFetchRequestTopic.

Module OffsetFetchRequestTopics.

Record t : Type := mk {
  name : string;
  topic_id : list byte;
  partition_indexes : list Z;
  unknown_tagged_fields : list RawTaggedField;
}.
#[global] Instance t_eq_dec : EqDecision t.
Proof. solve_decision. Defined.

Definition default : t := {|
  name := "";
  topic_id := (replicate 16 Byte.x00);
  partition_indexes := [];
  unknown_tagged_fields := [] |}.

Definition encode (version : Z) (x : t) : enc :=
  let flex := is_flexible version in
  put_if ((8 <=? version) && (version <=? 9)) (put_flex_string flex (name x)) ;;
  put_if (version >=? 10) (put_uuid (topic_id x)) ;;
  put_if (version >=? 8) (put_flex_array flex put_i32 (partition_indexes x)) ;;
  put_if flex (put_tagged_fields (unknown_tagged_fields x)) ;;
  enc_ret.

Section decode.
Context {R : Runtime}.

Definition decode_with_budget (version : Z) : bdec t :=
  let flex := is_flexible version in
  let* name := get_if ((8 <=? version) && (version <=? 9)) "" (get_flex_string flex) in
  let* topic_id := get_if (version >=? 10) (replicate 16 Byte.x00) (lift get_uuid) in
  let* partition_indexes := get_if (version >=? 8) [] (get_flex_items flex "i32" (lift get_i32)) in
  let* unknown_tagged_fields := get_if flex [] get_tagged_fields_with_budget in
  bdec_ret (mk name topic_id partition_indexes unknown_tagged_fields).

Definition decode_with_limits (version : Z) : Limits → dec t :=
  with_limits (decode_with_budget version).
Definition decode (version : Z) : dec t := with_default_limits (decode_with_budget version).

End decode.

Definition valid (version : Z) (x : t) : Prop :=
  let flex := is_flexible version in
  in_version ((8 <=? version) && (version <=? 9)) (str_ok flex) "" (name x) ∧
  in_version (version >=? 10) uuid_ok (replicate 16 Byte.x00) (topic_id x) ∧
  in_version (version >=? 8) (arr_ok flex is_i32) [] (partition_indexes x) ∧
  in_version flex tags_ok [] (unknown_tagged_fields x).

Lemma offset_fetch_request_OffsetFetchRequestTopics_agrees {R : Runtime} version x :
  6 ≤ version →
  valid version x → pairs1 (encode version x) (decode_with_budget version) x.
Proof.
  intros ?. unfold valid, encode, decode_with_budget, is_flexible. cbv zeta. agree1; by destruct x.
Qed.
#[global] Hint Resolve offset_fetch_request_OffsetFetchRequestTopics_agrees : fields.

Lemma offset_fetch_request_OffsetFetchRequestTopics_settles {R : Runtime} version :
  settles (encode version) (valid version) (decode_with_budget version).
Proof. unfold valid, encode, decode_with_budget, is_flexible. cbv zeta. settle. Qed.
#[global] Hint Resolve offset_fetch_request_OffsetFetchRequestTopics_settles : settles.

End OffsetFetchRequestTopics.

Module OffsetFetchRequestGroup.

Record t : Type := mk {
  group_id : string;
  member_id : option string;
  member_epoch : Z;
  topics : option (list OffsetFetchRequestTopics.t);
  unknown_tagged_fields : list RawTaggedField;
}.
#[global] Instance t_eq_dec : EqDecision t.
Proof. solve_decision. Defined.

Definition default : t := {|
  group_id := "";
  member_id := None;
  member_epoch := (-1);
  topics := (Some []);
  unknown_tagged_fields := [] |}.

Definition encode (version : Z) (x : t) : enc :=
  let flex := is_flexible version in
  put_if (version >=? 8) (put_flex_string flex (group_id x)) ;;
  put_if (version >=? 9) (put_flex_nullable_string flex (member_id x)) ;;
  put_if (version >=? 9) (put_i32 (member_epoch x)) ;;
  put_if (version >=? 8) (put_flex_nullable_array flex true "" (OffsetFetchRequestTopics.encode version) (topics x)) ;;
  put_if flex (put_tagged_fields (unknown_tagged_fields x)) ;;
  enc_ret.

Section decode.
Context {R : Runtime}.

Definition decode_with_budget (version : Z) : bdec t :=
  let flex := is_flexible version in
  let* group_id := get_if (version >=? 8) "" (get_flex_string flex) in
  let* member_id := get_if (version >=? 9) None (get_flex_nullable_string flex) in
  let* member_epoch := get_if (version >=? 9) (-1) (lift get_i32) in
  let* topics := get_if (version >=? 8) (Some []) (get_flex_nullable_structs flex true "OffsetFetchRequestTopics" (OffsetFetchRequestTopics.decode_with_budget version)) in
  let* unknown_tagged_fields := get_if flex [] get_tagged_fields_with_budget in
  bdec_ret (mk group_id member_id member_epoch topics unknown_tagged_fields).

Definition decode_with_limits (version : Z) : Limits → dec t :=
  with_limits (decode_with_budget version).
Definition decode (version : Z) : dec t := with_default_limits (decode_with_budget version).

End decode.

Definition valid (version : Z) (x : t) : Prop :=
  let flex := is_flexible version in
  in_version (version >=? 8) (str_ok flex) "" (group_id x) ∧
  in_version (version >=? 9) (opt_valid true (str_ok flex)) None (member_id x) ∧
  in_version (version >=? 9) is_i32 (-1) (member_epoch x) ∧
  in_version (version >=? 8) (opt_valid true (arr_ok flex (OffsetFetchRequestTopics.valid version))) (Some []) (topics x) ∧
  in_version flex tags_ok [] (unknown_tagged_fields x).

Lemma offset_fetch_request_OffsetFetchRequestGroup_agrees {R : Runtime} version x :
  6 ≤ version →
  valid version x → pairs1 (encode version x) (decode_with_budget version) x.
Proof.
  intros ?. unfold valid, encode, decode_with_budget, is_flexible. cbv zeta. agree1; by destruct x.
Qed.
#[global] Hint Resolve offset_fetch_request_OffsetFetchRequestGroup_agrees : fields.

Lemma offset_fetch_request_OffsetFetchRequestGroup_settles {R : Runtime} version :
  settles (encode version) (valid version) (decode_with_budget version).
Proof. unfold valid, encode, decode_with_budget, is_flexible. cbv zeta. settle. Qed.
#[global] Hint Resolve offset_fetch_request_OffsetFetchRequestGroup_settles : settles.

End OffsetFetchRequestGroup.

Module OffsetFetchRequest.

Record t : Type := mk {
  group_id : string;
  topics : option (list OffsetFetchRequestTopic.t);
  groups : list OffsetFetchRequestGroup.t;
  require_stable : bool;
  unknown_tagged_fields : list RawTaggedField;
}.
#[global] Instance t_eq_dec : EqDecision t.
Proof. solve_decision. Defined.

Definition default : t := {|
  group_id := "";
  topics := (Some []);
  groups := [];
  require_stable := false;
  unknown_tagged_fields := [] |}.

Definition API_KEY : Z := 9.
Definition MIN_VERSION : Z := 1.
Definition MAX_VERSION : Z := 10.

Definition encode (version : Z) (x : t) : enc :=
  let flex := is_flexible version in
  put_if (version <=? 7) (put_flex_string flex (group_id x)) ;;
  put_if (version <=? 7) (put_flex_nullable_array flex (version >=? 2) "Topics" (OffsetFetchRequestTopic.encode version) (topics x)) ;;
  put_if (version >=? 8) (put_flex_array flex (OffsetFetchRequestGroup.encode version) (groups x)) ;;
  put_if (version >=? 7) (put_bool (require_stable x)) ;;
  put_if flex (put_tagged_fields (unknown_tagged_fields x)) ;;
  enc_ret.

Section decode.
Context {R : Runtime}.

Definition decode_with_budget (version : Z) : bdec t :=
  let flex := is_flexible version in
  let* group_id := get_if (version <=? 7) "" (get_flex_string flex) in
  let* topics := get_if (version <=? 7) (Some []) (get_flex_nullable_structs flex (version >=? 2) "OffsetFetchRequestTopic" (OffsetFetchRequestTopic.decode_with_budget version)) in
  let* groups := get_if (version >=? 8) [] (get_flex_structs flex "OffsetFetchRequestGroup" (OffsetFetchRequestGroup.decode_with_budget version)) in
  let* require_stable := get_if (version >=? 7) false (lift get_bool) in
  let* unknown_tagged_fields := get_if flex [] get_tagged_fields_with_budget in
  bdec_ret (mk group_id topics groups require_stable unknown_tagged_fields).

Definition decode_with_limits (version : Z) : Limits → dec t :=
  with_limits (decode_with_budget version).
Definition decode (version : Z) : dec t := with_default_limits (decode_with_budget version).

End decode.

Definition valid (version : Z) (x : t) : Prop :=
  let flex := is_flexible version in
  in_version (version <=? 7) (str_ok flex) "" (group_id x) ∧
  in_version (version <=? 7) (opt_valid (version >=? 2) (arr_ok flex (OffsetFetchRequestTopic.valid version))) (Some []) (topics x) ∧
  in_version (version >=? 8) (arr_ok flex (OffsetFetchRequestGroup.valid version)) [] (groups x) ∧
  in_version (version >=? 7) any false (require_stable x) ∧
  in_version flex tags_ok [] (unknown_tagged_fields x).

Lemma offset_fetch_request_OffsetFetchRequest_agrees {R : Runtime} version x :
  valid version x → pairs (encode version x) (decode_with_budget version) x.
Proof.
  unfold valid, encode, decode_with_budget, is_flexible. cbv zeta. agree. by destruct x.
Qed.
#[global] Hint Resolve offset_fetch_request_OffsetFetchRequest_agrees : fields.

Lemma offset_fetch_request_OffsetFetchRequest_settles {R : Runtime} version :
  settles (encode version) (valid version) (decode_with_budget version).
Proof. unfold valid, encode, decode_with_budget, is_flexible. cbv zeta. settle. Qed.
#[global] Hint Resolve offset_fetch_request_OffsetFetchRequest_settles : settles.

End OffsetFetchRequest.

Lemma OffsetFetchRequest_agrees (R : Runtime) version x :
  OffsetFetchRequest.MIN_VERSION ≤ version ≤ OffsetFetchRequest.MAX_VERSION → OffsetFetchRequest.valid version x →
  pairs (OffsetFetchRequest.encode version x) (OffsetFetchRequest.decode_with_budget version) x.
Proof.
  intros _ ?. by apply OffsetFetchRequest.offset_fetch_request_OffsetFetchRequest_agrees.
Qed.

#[global] Instance OffsetFetchRequest_Message : Message OffsetFetchRequest.t := {|
  Message.API_KEY := OffsetFetchRequest.API_KEY;
  Message.MIN_VERSION := OffsetFetchRequest.MIN_VERSION;
  Message.MAX_VERSION := OffsetFetchRequest.MAX_VERSION;
  Message.encode := OffsetFetchRequest.encode;
  Message.decode_with_budget := @OffsetFetchRequest.decode_with_budget;
  Message.throttle_time_ms := λ _, None;
  Message.valid := OffsetFetchRequest.valid;
  Message.agrees := OffsetFetchRequest_agrees;
  Message.settled := @OffsetFetchRequest.offset_fetch_request_OffsetFetchRequest_settles |}.
#[global] Instance OffsetFetchRequest_Default : Default OffsetFetchRequest.t := OffsetFetchRequest.default.

End offset_fetch_request.

(** ** [offset_fetch_response.rs] *)

Module offset_fetch_response.

Definition is_flexible (version : Z) : bool := version >=? 6.

Module OffsetFetchResponsePartition.

Record t : Type := mk {
  partition_index : Z;
  committed_offset : Z;
  committed_leader_epoch : Z;
  metadata : option string;
  error_code : Z;
  unknown_tagged_fields : list RawTaggedField;
}.
#[global] Instance t_eq_dec : EqDecision t.
Proof. solve_decision. Defined.

Definition default : t := {|
  partition_index := 0;
  committed_offset := 0;
  committed_leader_epoch := (-1);
  metadata := (Some "");
  error_code := 0;
  unknown_tagged_fields := [] |}.

Definition encode (version : Z) (x : t) : enc :=
  let flex := is_flexible version in
  put_if (version <=? 7) (put_i32 (partition_index x)) ;;
  put_if (version <=? 7) (put_i64 (committed_offset x)) ;;
  put_if ((5 <=? version) && (version <=? 7)) (put_i32 (committed_leader_epoch x)) ;;
  put_if (version <=? 7) (put_flex_nullable_string flex (metadata x)) ;;
  put_if (version <=? 7) (put_i16 (error_code x)) ;;
  put_if flex (put_tagged_fields (unknown_tagged_fields x)) ;;
  enc_ret.

Section decode.
Context {R : Runtime}.

Definition decode_with_budget (version : Z) : bdec t :=
  let flex := is_flexible version in
  let* partition_index := get_if (version <=? 7) 0 (lift get_i32) in
  let* committed_offset := get_if (version <=? 7) 0 (lift get_i64) in
  let* committed_leader_epoch := get_if ((5 <=? version) && (version <=? 7)) (-1) (lift get_i32) in
  let* metadata := get_if (version <=? 7) (Some "") (get_flex_nullable_string flex) in
  let* error_code := get_if (version <=? 7) 0 (lift get_i16) in
  let* unknown_tagged_fields := get_if flex [] get_tagged_fields_with_budget in
  bdec_ret (mk partition_index committed_offset committed_leader_epoch metadata error_code unknown_tagged_fields).

Definition decode_with_limits (version : Z) : Limits → dec t :=
  with_limits (decode_with_budget version).
Definition decode (version : Z) : dec t := with_default_limits (decode_with_budget version).

End decode.

Definition valid (version : Z) (x : t) : Prop :=
  let flex := is_flexible version in
  in_version (version <=? 7) is_i32 0 (partition_index x) ∧
  in_version (version <=? 7) is_i64 0 (committed_offset x) ∧
  in_version ((5 <=? version) && (version <=? 7)) is_i32 (-1) (committed_leader_epoch x) ∧
  in_version (version <=? 7) (opt_valid true (str_ok flex)) (Some "") (metadata x) ∧
  in_version (version <=? 7) is_i16 0 (error_code x) ∧
  in_version flex tags_ok [] (unknown_tagged_fields x).

Lemma offset_fetch_response_OffsetFetchResponsePartition_agrees {R : Runtime} version x :
  version ≤ 7 ∨ 5 ≤ version ≤ 7 ∨ 6 ≤ version →
  valid version x → pairs1 (encode version x) (decode_with_budget version) x.
Proof.
  intros ?. unfold valid, encode, decode_with_budget, is_flexible. cbv zeta. agree1; by destruct x.
Qed.
#[global] Hint Resolve offset_fetch_response_OffsetFetchResponsePartition_agrees : fields.

Lemma offset_fetch_response_OffsetFetchResponsePartition_settles {R : Runtime} version :
  settles (encode version) (valid version) (decode_with_budget version).
Proof. unfold valid, encode, decode_with_budget, is_flexible. cbv zeta. settle. Qed.
#[global] Hint Resolve offset_fetch_response_OffsetFetchResponsePartition_settles : settles.

End OffsetFetchResponsePartition.

Module OffsetFetchResponseTopic.

Record t : Type := mk {
  name : string;
  partitions : list OffsetFetchResponsePartition.t;
  unknown_tagged_fields : list RawTaggedField;
}.
#[global] Instance t_eq_dec : EqDecision t.
Proof. solve_decision. Defined.

Definition default : t := {|
  name := "";
  partitions := [];
  unknown_tagged_fields := [] |}.

Definition encode (version : Z) (x : t) : enc :=
  let flex := is_flexible version in
  put_if (version <=? 7) (put_flex_string flex (name x)) ;;
  put_if (version <=? 7) (put_flex_array flex (OffsetFetchResponsePartition.encode version) (partitions x)) ;;
  put_if flex (put_tagged_fields (unknown_tagged_fields x)) ;;
  enc_ret.

Section decode.
Context {R : Runtime}.

Definition decode_with_budget (version : Z) : bdec t :=
  let flex := is_flexible version in
  let* name := get_if (version <=? 7) "" (get_flex_string flex) in
  let* partitions := get_if (version <=? 7) [] (get_flex_structs flex "OffsetFetchResponsePartition" (OffsetFetchResponsePartition.decode_with_budget version)) in
  let* unknown_tagged_fields := get_if flex [] get_tagged_fields_with_budget in
  bdec_ret (mk name partitions unknown_tagged_fields).

Definition decode_with_limits (version : Z) : Limits → dec t :=
  with_limits (decode_with_budget version).
Definition decode (version : Z) : dec t := with_default_limits (decode_with_budget version).

End decode.

Definition valid (version : Z) (x : t) : Prop :=
  let flex := is_flexible version in
  in_version (version <=? 7) (str_ok flex) "" (name x) ∧
  in_version (version <=? 7) (arr_ok flex (OffsetFetchResponsePartition.valid version)) [] (partitions x) ∧
  in_version flex tags_ok [] (unknown_tagged_fields x).

Lemma offset_fetch_response_OffsetFetchResponseTopic_agrees {R : Runtime} version x :
  version ≤ 7 ∨ 6 ≤ version →
  valid version x → pairs1 (encode version x) (decode_with_budget version) x.
Proof.
  intros ?. unfold valid, encode, decode_with_budget, is_flexible. cbv zeta. agree1; by destruct x.
Qed.
#[global] Hint Resolve offset_fetch_response_OffsetFetchResponseTopic_agrees : fields.

Lemma offset_fetch_response_OffsetFetchResponseTopic_settles {R : Runtime} version :
  settles (encode version) (valid version) (decode_with_budget version).
Proof. unfold valid, encode, decode_with_budget, is_flexible. cbv zeta. settle. Qed.
#[global] Hint Resolve offset_fetch_response_OffsetFetchResponseTopic_settles : settles.

End OffsetFetchResponseTopic.

Module OffsetFetchResponsePartitions.

Record t : Type := mk {
  partition_index : Z;
  committed_offset : Z;
  committed_leader_epoch : Z;
  metadata : option string;
  error_code : Z;
  unknown_tagged_fields : list RawTaggedField;
}.
#[global] Instance t_eq_dec : EqDecision t.
Proof. solve_decision. Defined.

Definition default : t := {|
  partition_index := 0;
  committed_offset := 0;
  committed_leader_epoch := (-1);
  metadata := (Some "");
  error_code := 0;
  unknown_tagged_fields := [] |}.

Definition encode (version : Z) (x : t) : enc :=
  let flex := is_flexible version in
  put_if (version >=? 8) (put_i32 (partition_index x)) ;;
  put_if (version >=? 8) (put_i64 (committed_offset x)) ;;
  put_if (version >=? 8) (put_i32 (committed_leader_epoch x)) ;;
  put_if (version >=? 8) (put_flex_nullable_string flex (metadata x)) ;;
  put_if (version >=? 8) (put_i16 (error_code x)) ;;
  put_if flex (put_tagged_fields (unknown_tagged_fields x)) ;;
  enc_ret.

Section decode.
Context {R : Runtime}.

Definition decode_with_budget (version : Z) : bdec t :=
  let flex := is_flexible version in
  let* partition_index := get_if (version >=? 8) 0 (lift get_i32) in
  let* committed_offset := get_if (version >=? 8) 0 (lift get_i64) in
  let* committed_leader_epoch := get_if (version >=? 8) (-1) (lift get_i32) in
  let* metadata := get_if (version >=? 8) (Some "") (get_flex_nullable_string flex) in
  let* error_code := get_if (version >=? 8) 0 (lift get_i16) in
  let* unknown_tagged_fields := get_if flex [] get_tagged_fields_with_budget in
  bdec_ret (mk partition_index committed_offset committed_leader_epoch metadata error_code unknown_tagged_fields).

Definition decode_with_limits (version : Z) : Limits → dec t :=
  with_limits (decode_with_budget version).
Definition decode (version : Z) : dec t := with_default_limits (decode_with_budget version).

End decode.

Definition valid (version : Z) (x : t) : Prop :=
  let flex := is_flexible version in
  in_version (version >=? 8) is_i32 0 (partition_index x) ∧
  in_version (version >=? 8) is_i64 0 (committed_offset x) ∧
  in_version (version >=? 8) is_i32 (-1) (committed_leader_epoch x) ∧
  in_version (version >=? 8) (opt_valid true (str_ok flex)) (Some "") (metadata x) ∧
  in_version (version >=? 8) is_i16 0 (error_code x) ∧
  in_version flex tags_ok [] (unknown_tagged_fields x).

Lemma offset_fetch_response_OffsetFetchResponsePartitions_agrees {R : Runtime} version x :
  6 ≤ version →
  valid version x → pairs1 (encode version x) (decode_with_budget version) x.
Proof.
  intros ?. unfold valid, encode, decode_with_budget, is_flexible. cbv zeta. agree1; by destruct x.
Qed.
#[global] Hint Resolve offset_fetch_response_OffsetFetchResponsePartitions_agrees : fields.

Lemma offset_fetch_response_OffsetFetchResponsePartitions_settles {R : Runtime} version :
  settles (encode version) (valid version) (decode_with_budget version).
Proof. unfold valid, encode, decode_with_budget, is_flexible. cbv zeta. settle. Qed.
#[global] Hint Resolve offset_fetch_response_OffsetFetchResponsePartitions_settles : settles.

End OffsetFetchResponsePartitions.

Module OffsetFetchResponseTopics.

Record t : Type := mk {
  name : string;
  topic_id : list byte;
  partitions : list OffsetFetchResponsePartitions.t;
  unknown_tagged_fields : list RawTaggedField;
}.
#[global] Instance t_eq_dec : EqDecision t.
Proof. solve_decision. Defined.

Definition default : t := {|
  name := "";
  topic_id := (replicate 16 Byte.x00);
  partitions := [];
  unknown_tagged_fields := [] |}.

Definition encode (version : Z) (x : t) : enc :=
  let flex := is_flexible version in
  put_if ((8 <=? version) && (version <=? 9)) (put_flex_string flex (name x)) ;;
  put_if (version >=? 10) (put_uuid (topic_id x)) ;;
  put_if (version >=? 8) (put_flex_array flex (OffsetFetchResponsePartitions.encode version) (partitions x)) ;;
  put_if flex (put_tagged_fields (unknown_tagged_fields x)) ;;
  enc_ret.

Section decode.
Context {R : Runtime}.

Definition decode_with_budget (version : Z) : bdec t :=
  let flex := is_flexible version in
  let* name := get_if ((8 <=? version) && (version <=? 9)) "" (get_flex_string flex) in
  let* topic_id := get_if (version >=? 10) (replicate 16 Byte.x00) (lift get_uuid) in
  let* partitions := get_if (version >=? 8) [] (get_flex_structs flex "OffsetFetchResponsePartitions" (OffsetFetchResponsePartitions.decode_with_budget version)) in
  let* unknown_tagged_fields := get_if flex [] get_tagged_fields_with_budget in
  bdec_ret (mk name topic_id partitions unknown_tagged_fields).

Definition decode_with_limits (version : Z) : Limits → dec t :=
  with_limits (decode_with_budget version).
Definition decode (version : Z) : dec t := with_default_limits (decode_with_budget version).

End decode.

Definition valid (version : Z) (x : t) : Prop :=
  let flex := is_flexible version in
  in_version ((8 <=? version) && (version <=? 9)) (str_ok flex) "" (name x) ∧
  in_version (version >=? 10) uuid_ok (replicate 16 Byte.x00) (topic_id x) ∧
  in_version (version >=? 8) (arr_ok flex (OffsetFetchResponsePartitions.valid version)) [] (partitions x) ∧
  in_version flex tags_ok [] (unknown_tagged_fields x).

Lemma offset_fetch_response_OffsetFetchResponseTopics_agrees {R : Runtime} version x :
  6 ≤ version →
  valid version x → pairs1 (encode version x) (decode_with_budget version) x.
Proof.
  intros ?. unfold valid, encode, decode_with_budget, is_flexible. cbv zeta. agree1; by destruct x.
Qed.
#[global] Hint Resolve offset_fetch_response_OffsetFetchResponseTopics_agrees : fields.

Lemma offset_fetch_response_OffsetFetchResponseTopics_settles {R : Runtime} version :
  settles (encode version) (valid version) (decode_with_budget version).
Proof. unfold valid, encode, decode_with_budget, is_flexible. cbv zeta. settle. Qed.
#[global] Hint Resolve offset_fetch_response_OffsetFetchResponseTopics_settles : settles.

End OffsetFetchResponseTopics.

Module OffsetFetchResponseGroup.

Record t : Type := mk {
  group_id : string;
  topics : list OffsetFetchResponseTopics.t;
  error_code : Z;
  unknown_tagged_fields : list RawTaggedField;
}.
#[global] Instance t_eq_dec : EqDecision t.
Proof. solve_decision. Defined.

Definition default : t := {|
  group_id := "";
  topics := [];
  error_code := 0;
  unknown_tagged_fields := [] |}.

Definition encode (version : Z) (x : t) : enc :=
  let flex := is_flexible version in
  put_if (version >=? 8) (put_flex_string flex (group_id x)) ;;
  put_if (version >=? 8) (put_flex_array flex (OffsetFetchResponseTopics.encode version) (topics x)) ;;
  put_if (version >=? 8) (put_i16 (error_code x)) ;;
  put_if flex (put_tagged_fields (unknown_tagged_fields x)) ;;
  enc_ret.

Section decode.
Context {R : Runtime}.

Definition decode_with_budget (version : Z) : bdec t :=
  let flex := is_flexible version in
  let* group_id := get_if (version >=? 8) "" (get_flex_string flex) in
  let* topics := get_if (version >=? 8) [] (get_flex_structs flex "OffsetFetchResponseTopics" (OffsetFetchResponseTopics.decode_with_budget version)) in
  let* error_code := get_if (version >=? 8) 0 (lift get_i16) in
  let* unknown_tagged_fields := get_if flex [] get_tagged_fields_with_budget in
  bdec_ret (mk group_id topics error_code unknown_tagged_fields).

Definition decode_with_limits (version : Z) : Limits → dec t :=
  with_limits (decode_with_budget version).
Definition decode (version : Z) : dec t := with_default_limits (decode_with_budget version).

End decode.

Definition valid (version : Z) (x : t) : Prop :=
  let flex := is_flexible version in
  in_version (version >=? 8) (str_ok flex) "" (group_id x) ∧
  in_version (version >=? 8) (arr_ok flex (OffsetFetchResponseTopics.valid version)) [] (topics x) ∧
  in_version (version >=? 8) is_i16 0 (error_code x) ∧
  in_version flex tags_ok [] (unknown_tagged_fields x).

Lemma offset_fetch_response_OffsetFetchResponseGroup_agrees {R : Runtime} version x :
  6 ≤ version →
  valid version x → pairs1 (encode version x) (decode_with_budget version) x.
Proof.
  intros ?. unfold valid, encode, decode_with_budget, is_flexible. cbv zeta. agree1; by destruct x.
Qed.
#[global] Hint Resolve offset_fetch_response_OffsetFetchResponseGroup_agrees : fields.

Lemma offset_fetch_response_OffsetFetchResponseGroup_settles {R : Runtime} version :
  settles (encode version) (valid version) (decode_with_budget version).
Proof. unfold valid, encode, decode_with_budget, is_flexible. cbv zeta. settle. Qed.
#[global] Hint Resolve offset_fetch_response_OffsetFetchResponseGroup_settles : settles.

End OffsetFetchResponseGroup.

Module OffsetFetchResponse.

Record t : Type := mk {
  throttle_time_ms : Z;
  topics : list OffsetFetchResponseTopic.t;
  error_code : Z;
  groups : list OffsetFetchResponseGroup.t;
  unknown_tagged_fields : list RawTaggedField;
}.
#[global] Instance t_eq_dec : EqDecision t.
Proof. solve_decision. Defined.

Definition default : t := {|
  throttle_time_ms := 0;
  topics := [];
  error_code := 0;
  groups := [];
  unknown_tagged_fields := [] |}.

Definition API_KEY : Z := 9.
Definition MIN_VERSION : Z := 1.
Definition MAX_VERSION : Z := 10.

Definition encode (version : Z) (x : t) : enc :=
  let flex := is_flexible version in
  put_if (version >=? 3) (put_i32 (throttle_time_ms x)) ;;
  put_if (version <=? 7) (put_flex_array flex (OffsetFetchResponseTopic.encode version) (topics x)) ;;
  put_if ((2 <=? version) && (version <=? 7)) (put_i16 (error_code x)) ;;
  put_if (version >=? 8) (put_flex_array flex (OffsetFetchResponseGroup.encode version) (groups x)) ;;
  put_if flex (put_tagged_fields (unknown_tagged_fields x)) ;;
  enc_ret.

Section decode.
Context {R : Runtime}.

Definition decode_with_budget (version : Z) : bdec t :=
  let flex := is_flexible version in
  let* throttle_time_ms := get_if (version >=? 3) 0 (lift get_i32) in
  let* topics := get_if (version <=? 7) [] (get_flex_structs flex "OffsetFetchResponseTopic" (OffsetFetchResponseTopic.decode_with_budget version)) in
  let* error_code := get_if ((2 <=? version) && (version <=? 7)) 0 (lift get_i16) in
  let* groups := get_if (version >=? 8) [] (get_flex_structs flex "OffsetFetchResponseGroup" (OffsetFetchResponseGroup.decode_with_budget version)) in
  let* unknown_tagged_fields := get_if flex [] get_tagged_fields_with_budget in
  bdec_ret (mk throttle_time_ms topics error_code groups unknown_tagged_fields).

Definition decode_with_limits (version : Z) : Limits → dec t :=
  with_limits (decode_with_budget version).
Definition decode (version : Z) : dec t := with_default_limits (decode_with_budget version).

End decode.

Definition valid (version : Z) (x : t) : Prop :=
  let flex := is_flexible version in
  in_version (version >=? 3) is_i32 0 (throttle_time_ms x) ∧
  in_version (version <=? 7) (arr_ok flex (OffsetFetchResponseTopic.valid version)) [] (topics x) ∧
  in_version ((2 <=? version) && (version <=? 7)) is_i16 0 (error_code x) ∧
  in_version (version >=? 8) (arr_ok flex (OffsetFetchResponseGroup.valid version)) [] (groups x) ∧
  in_version flex tags_ok [] (unknown_tagged_fields x).

Lemma offset_fetch_response_OffsetFetchResponse_agrees {R : Runtime} version x :
  valid version x → pairs (encode version x) (decode_with_budget version) x.
Proof.
  unfold valid, encode, decode_with_budget, is_flexible. cbv zeta. agree. by destruct x.
Qed.
#[global] Hint Resolve offset_fetch_response_OffsetFetchResponse_agrees : fields.

Lemma offset_fetch_response_OffsetFetchResponse_settles {R : Runtime} version :
  settles (encode version) (valid version) (decode_with_budget version).
Proof. unfold valid, encode, decode_with_budget, is_flexible. cbv zeta. settle. Qed.
#[global] Hint Resolve offset_fetch_response_OffsetFetchResponse_settles : settles.

End OffsetFetchResponse.

Lemma OffsetFetchResponse_agrees (R : Runtime) version x :
  OffsetFetchResponse.MIN_VERSION ≤ version ≤ OffsetFetchResponse.MAX_VERSION → OffsetFetchResponse.valid version x →
  pairs (OffsetFetchResponse.encode version x) (OffsetFetchResponse.decode_with_budget version) x.
Proof.
  intros _ ?. by apply OffsetFetchResponse.offset_fetch_response_OffsetFetchResponse_agrees.
Qed.

#[global] Instance OffsetFetchResponse_Message : Message OffsetFetchResponse.t := {|
  Message.API_KEY := OffsetFetchResponse.API_KEY;
  Message.MIN_VERSION := OffsetFetchResponse.MIN_VERSION;
  Message.MAX_VERSION := OffsetFetchResponse.MAX_VERSION;
  Message.encode := OffsetFetchResponse.encode;
  Message.decode_with_budget := @OffsetFetchResponse.decode_with_budget;
  Message.throttle_time_ms := λ x, Some (OffsetFetchResponse.throttle_time_ms x);
  Message.valid := OffsetFetchResponse.valid;
  Message.agrees := OffsetFetchResponse_agrees;
  Message.settled := @OffsetFetchResponse.offset_fetch_response_OffsetFetchResponse_settles |}.
#[global] Instance OffsetFetchResponse_Default : Default OffsetFetchResponse.t := OffsetFetchResponse.default.

End offset_fetch_response.

(** ** [list_offsets_request.rs] *)

Module list_offsets_request.

Definition is_flexible (version : Z) : bool := version >=? 6.

Module ListOffsetsPartition.

Record t : Type := mk {
  partition_index : Z;
  current_leader_epoch : Z;
  timestamp : Z;
  unknown_tagged_fields : list RawTaggedField;
}.
#[global] Instance t_eq_dec : EqDecision t.
Proof. solve_decision. Defined.

Definition default : t := {|
  partition_index := 0;
  current_leader_epoch := (-1);
  timestamp := 0;
  unknown_tagged_fields := [] |}.

Definition encode (version : Z) (x : t) : enc :=
  let flex := is_flexible version in
  put_i32 (partition_index x) ;;
  put_if (version >=? 4) (put_i32 (current_leader_epoch x)) ;;
  put_i64 (timestamp x) ;;
  put_if flex (put_tagged_fields (unknown_tagged_fields x)) ;;
  enc_ret.

Section decode.
Context {R : Runtime}.

Definition decode_with_budget (version : Z) : bdec t :=
  let flex := is_flexible version in
  let* partition_index := lift get_i32 in
  let* current_leader_epoch := get_if (version >=? 4) (-1) (lift get_i32) in
  let* timestamp := lift get_i64 in
  let* unknown_tagged_fields := get_if flex [] get_tagged_fields_with_budget in
  bdec_ret (mk partition_index current_leader_epoch timestamp unknown_tagged_fields).

Definition decode_with_limits (version : Z) : Limits → dec t :=
  with_limits (decode_with_budget version).
Definition decode (version : Z) : dec t := with_default_limits (decode_with_budget version).

End decode.

Definition valid (version : Z) (x : t) : Prop :=
  let flex := is_flexible version in
  is_i32 (partition_index x) ∧
  in_version (version >=? 4) is_i32 (-1) (current_leader_epoch x) ∧
  is_i64 (timestamp x) ∧
  in_version flex tags_ok [] (unknown_tagged_fields x).

Lemma list_offsets_request_ListOffsetsPartition_agrees {R : Runtime} version x :
  valid version x → pairs1 (encode version x) (decode_with_budget version) x.
Proof.
  unfold valid, encode, decode_with_budget, is_flexible. cbv zeta. agree1; by destruct x.
Qed.
#[global] Hint Resolve list_offsets_request_ListOffsetsPartition_agrees : fields.

Lemma list_offsets_request_ListOffsetsPartition_settles {R : Runtime} version :
  settles (encode version) (valid version) (decode_with_budget version).
Proof. unfold valid, encode, decode_with_budget, is_flexible. cbv zeta. settle. Qed.
#[global] Hint Resolve list_offsets_request_ListOffsetsPartition_settles : settles.

End ListOffsetsPartition.

Module ListOffsetsTopic.

Record t : Type := mk {
  name : string;
  partitions : list ListOffsetsPartition.t;
  unknown_tagged_fields : list RawTaggedField;
}.
#[global] Instance t_eq_dec : EqDecision t.
Proof. solve_decision. Defined.

Definition default : t := {|
  name := "";
  partitions := [];
  unknown_tagged_fields := [] |}.

Definition encode (version : Z) (x : t) : enc :=
  let flex := is_flexible version in
  put_flex_string flex (name x) ;;
  put_flex_array flex (ListOffsetsPartition.encode version) (partitions x) ;;
  put_if flex (put_tagged_fields (unknown_tagged_fields x)) ;;
  enc_ret.

Section decode.
Context {R : Runtime}.

Definition decode_with_budget (version : Z) : bdec t :=
  let flex := is_flexible version in
  let* name := get_flex_string flex in
  let* partitions := get_flex_structs flex "ListOffsetsPartition" (ListOffsetsPartition.decode_with_budget version) in
  let* unknown_tagged_fields := get_if flex [] get_tagged_fields_with_budget in
  bdec_ret (mk name partitions unknown_tagged_fields).

Definition decode_with_limits (version : Z) : Limits → dec t :=
  with_limits (decode_with_budget version).
Definition decode (version : Z) : dec t := with_default_limits (decode_with_budget version).

End decode.

Definition valid (version : Z) (x : t) : Prop :=
  let flex := is_flexible version in
  str_ok flex (name x) ∧
  arr_ok flex (ListOffsetsPartition.valid version) (partitions x) ∧
  in_version flex tags_ok [] (unknown_tagged_fields x).

Lemma list_offsets_request_ListOffsetsTopic_agrees {R : Runtime} version x :
  valid version x → pairs1 (encode version x) (decode_with_budget version) x.
Proof.
  unfold valid, encode, decode_with_budget, is_flexible. cbv zeta. agree1; by destruct x.
Qed.
#[global] Hint Resolve list_offsets_request_ListOffsetsTopic_agrees : fields.

Lemma list_offsets_request_ListOffsetsTopic_settles {R : Runtime} version :
  settles (encode version) (valid version) (decode_with_budget version).
Proof. unfold valid, encode, decode_with_budget, is_flexible. cbv zeta. settle. Qed.
#[global] Hint Resolve list_offsets_request_ListOffsetsTopic_settles : settles.

End ListOffsetsTopic.

Module ListOffsetsRequest.

Record t : Type := mk {
  replica_id : Z;
  isolation_level : Z;
  topics : list ListOffsetsTopic.t;
  timeout_ms : Z;
  unknown_tagged_fields : list RawTaggedField;
}.
#[global] Instance t_eq_dec : EqDecision t.
Proof. solve_decision. Defined.

Definition default : t := {|
  replica_id := 0;
  isolation_level := 0;
  topics := [];
  timeout_ms := 0;
  unknown_tagged_fields := [] |}.

Definition API_KEY : Z := 2.
Definition MIN_VERSION : Z := 1.
Definition MAX_VERSION : Z := 10.

Definition encode (version : Z) (x : t) : enc :=
  let flex := is_flexible version in
  put_i32 (replica_id x) ;;
  put_if (version >=? 2) (put_i8 (isolation_level x)) ;;
  put_flex_array flex (ListOffsetsTopic.encode version) (topics x) ;;
  put_if (version >=? 10) (put_i32 (timeout_ms x)) ;;
  put_if flex (put_tagged_fields (unknown_tagged_fields x)) ;;
  enc_ret.

Section decode.
Context {R : Runtime}.

Definition decode_with_budget (version : Z) : bdec t :=
  let flex := is_flexible version in
  let* replica_id := lift get_i32 in
  let* isolation_level := get_if (version >=? 2) 0 (lift get_i8) in
  let* topics := get_flex_structs flex "ListOffsetsTopic" (ListOffsetsTopic.decode_with_budget version) in
  let* timeout_ms := get_if (version >=? 10) 0 (lift get_i32) in
  let* unknown_tagged_fields := get_if flex [] get_tagged_fields_with_budget in
  bdec_ret (mk replica_id isolation_level topics timeout_ms unknown_tagged_fields).

Definition decode_with_limits (version : Z) : Limits → dec t :=
  with_limits (decode_with_budget version).
Definition decode (version : Z) : dec t := with_default_limits (decode_with_budget version).

End decode.

Definition valid (version : Z) (x : t) : Prop :=
  let flex := is_flexible version in
  is_i32 (replica_id x) ∧
  in_version (version >=? 2) is_i8 0 (isolation_level x) ∧
  arr_ok flex (ListOffsetsTopic.valid version) (topics x) ∧
  in_version (version >=? 10) is_i32 0 (timeout_ms x) ∧
  in_version flex tags_ok [] (unknown_tagged_fields x).

Lemma list_offsets_request_ListOffsetsRequest_agrees {R : Runtime} version x :
  valid version x → pairs (encode version x) (decode_with_budget version) x.
Proof.
  unfold valid, encode, decode_with_budget, is_flexible. cbv zeta. agree. by destruct x.
Qed.
#[global] Hint Resolve list_offsets_request_ListOffsetsRequest_agrees : fields.

Lemma list_offsets_request_ListOffsetsRequest_settles {R : Runtime} version :
  settles (encode version) (valid version) (decode_with_budget version).
Proof. unfold valid, encode, decode_with_budget, is_flexible. cbv zeta. settle. Qed.
#[global] Hint Resolve list_offsets_request_ListOffsetsRequest_settles : settles.

End ListOffsetsRequest.

Lemma ListOffsetsRequest_agrees (R : Runtime) version x :
  ListOffsetsRequest.MIN_VERSION ≤ version ≤ ListOffsetsRequest.MAX_VERSION → ListOffsetsRequest.valid version x →
  pairs (ListOffsetsRequest.encode version x) (ListOffsetsRequest.decode_with_budget version) x.
Proof.
  intros _ ?. by apply ListOffsetsRequest.list_offsets_request_ListOffsetsRequest_agrees.
Qed.

#[global] Instance ListOffsetsRequest_Message : Message ListOffsetsRequest.t := {|
  Message.API_KEY := ListOffsetsRequest.API_KEY;
  Message.MIN_VERSION := ListOffsetsRequest.MIN_VERSION;
  Message.MAX_VERSION := ListOffsetsRequest.MAX_VERSION;
  Message.encode := ListOffsetsRequest.encode;
  Message.decode_with_budget := @ListOffsetsRequest.decode_with_budget;
  Message.throttle_time_ms := λ _, None;
  Message.valid := ListOffsetsRequest.valid;
  Message.agrees := ListOffsetsRequest_agrees;
  Message.settled := @ListOffsetsRequest.list_offsets_request_ListOffsetsRequest_settles |}.
#[global] Instance ListOffsetsRequest_Default : Default ListOffsetsRequest.t := ListOffsetsRequest.default.

End list_offsets_request.

(** ** [list_offsets_response.rs] *)

Module list_offsets_response.

Definition is_flexible (version : Z) : bool := version >=? 6.

Module ListOffsetsPartitionResponse.

Record t : Type := mk {
  partition_index : Z;
  error_code : Z;
  timestamp : Z;
  offset : Z;
  leader_epoch : Z;
  unknown_tagged_fields : list RawTaggedField;
}.
#[global] Instance t_eq_dec : EqDecision t.
Proof. solve_decision. Defined.

Definition default : t := {|
  partition_index := 0;
  error_code := 0;
  timestamp := (-1);
  offset := (-1);
  leader_epoch := (-1);
  unknown_tagged_fields := [] |}.

Definition encode (version : Z) (x : t) : enc :=
  let flex := is_flexible version in
  put_i32 (partition_index x) ;;
  put_i16 (error_code x) ;;
  put_i64 (timestamp x) ;;
  put_i64 (offset x) ;;
  put_if (version >=? 4) (put_i32 (leader_epoch x)) ;;
  put_if flex (put_tagged_fields (unknown_tagged_fields x)) ;;
  enc_ret.

Section decode.
Context {R : Runtime}.

Definition decode_with_budget (version : Z) : bdec t :=
  let flex := is_flexible version in
  let* partition_index := lift get_i32 in
  let* error_code := lift get_i16 in
  let* timestamp := lift get_i64 in
  let* offset := lift get_i64 in
  let* leader_epoch := get_if (version >=? 4) (-1) (lift get_i32) in
  let* unknown_tagged_fields := get_if flex [] get_tagged_fields_with_budget in
  bdec_ret (mk partition_index error_code timestamp offset leader_epoch unknown_tagged_fields).

Definition decode_with_limits (version : Z) : Limits → dec t :=
  with_limits (decode_with_budget version).
Definition decode (version : Z) : dec t := with_default_limits (decode_with_budget version).

End decode.

Definition valid (version : Z) (x : t) : Prop :=
  let flex := is_flexible version in
  is_i32 (partition_index x) ∧
  is_i16 (error_code x) ∧
  is_i64 (timestamp x) ∧
  is_i64 (offset x) ∧
  in_version (version >=? 4) is_i32 (-1) (leader_epoch x) ∧
  in_version flex tags_ok [] (unknown_tagged_fields x).

Lemma list_offsets_response_ListOffsetsPartitionResponse_agrees {R : Runtime} version x :
  valid version x → pairs1 (encode version x) (decode_with_budget version) x.
Proof.
  unfold valid, encode, decode_with_budget, is_flexible. cbv zeta. agree1; by destruct x.
Qed.
#[global] Hint Resolve list_offsets_response_ListOffsetsPartitionResponse_agrees : fields.

Lemma list_offsets_response_ListOffsetsPartitionResponse_settles {R : Runtime} version :
  settles (encode version) (valid version) (decode_with_budget version).
Proof. unfold valid, encode, decode_with_budget, is_flexible. cbv zeta. settle. Qed.
#[global] Hint Resolve list_offsets_response_ListOffsetsPartitionResponse_settles : settles.

End ListOffsetsPartitionResponse.

Module ListOffsetsTopicResponse.

Record t : Type := mk {
  name : string;
  partitions : list ListOffsetsPartitionResponse.t;
  unknown_tagged_fields : list RawTaggedField;
}.
#[global] Instance t_eq_dec : EqDecision t.
Proof. solve_decision. Defined.

Definition default : t := {|
  name := "";
  partitions := [];
  unknown_tagged_fields := [] |}.

Definition encode (version : Z) (x : t) : enc :=
  let flex := is_flexible version in
  put_flex_string flex (name x) ;;
  put_flex_array flex (ListOffsetsPartitionResponse.encode version) (partitions x) ;;
  put_if flex (put_tagged_fields (unknown_tagged_fields x)) ;;
  enc_ret.

Section decode.
Context {R : Runtime}.

Definition decode_with_budget (version : Z) : bdec t :=
  let flex := is_flexible version in
  let* name := get_flex_string flex in
  let* partitions := get_flex_structs flex "ListOffsetsPartitionResponse" (ListOffsetsPartitionResponse.decode_with_budget version) in
  let* unknown_tagged_fields := get_if flex [] get_tagged_fields_with_budget in
  bdec_ret (mk name partitions unknown_tagged_fields).

Definition decode_with_limits (version : Z) : Limits → dec t :=
  with_limits (decode_with_budget version).
Definition decode (version : Z) : dec t := with_default_limits (decode_with_budget version).

End decode.

Definition valid (version : Z) (x : t) : Prop :=
  let flex := is_flexible version in
  str_ok flex (name x) ∧
  arr_ok flex (ListOffsetsPartitionResponse.valid version) (partitions x) ∧
  in_version flex tags_ok [] (unknown_tagged_fields x).

Lemma list_offsets_response_ListOffsetsTopicResponse_agrees {R : Runtime} version x :
  valid version x → pairs1 (encode version x) (decode_with_budget version) x.
Proof.
  unfold valid, encode, decode_with_budget, is_flexible. cbv zeta. agree1; by destruct x.
Qed.
#[global] Hint Resolve list_offsets_response_ListOffsetsTopicResponse_agrees : fields.

Lemma list_offsets_response_ListOffsetsTopicResponse_settles {R : Runtime} version :
  settles (encode version) (valid version) (decode_with_budget version).
Proof. unfold valid, encode, decode_with_budget, is_flexible. cbv zeta. settle. Qed.
#[global] Hint Resolve list_offsets_response_ListOffsetsTopicResponse_settles : settles.

End ListOffsetsTopicResponse.

Module ListOffsetsResponse.

Record t : Type := mk {
  throttle_time_ms : Z;
  topics : list ListOffsetsTopicResponse.t;
  unknown_tagged_fields : list RawTaggedField;
}.
#[global] Instance t_eq_dec : EqDecision t.
Proof. solve_decision. Defined.

Definition default : t := {|
  throttle_time_ms := 0;
  topics := [];
  unknown_tagged_fields := [] |}.

Definition API_KEY : Z := 2.
Definition MIN_VERSION : Z := 1.
Definition MAX_VERSION : Z := 10.

Definition encode (version : Z) (x : t) : enc :=
  let flex := is_flexible version in
  put_if (version >=? 2) (put_i32 (throttle_time_ms x)) ;;
  put_flex_array flex (ListOffsetsTopicResponse.encode version) (topics x) ;;
  put_if flex (put_tagged_fields (unknown_tagged_fields x)) ;;
  enc_ret.

Section decode.
Context {R : Runtime}.

Definition decode_with_budget (version : Z) : bdec t :=
  let flex := is_flexible version in
  let* throttle_time_ms := get_if (version >=? 2) 0 (lift get_i32) in
  let* topics := get_flex_structs flex "ListOffsetsTopicResponse" (ListOffsetsTopicResponse.decode_with_budget version) in
  let* unknown_tagged_fields := get_if flex [] get_tagged_fields_with_budget in
  bdec_ret (mk throttle_time_ms topics unknown_tagged_fields).

Definition decode_with_limits (version : Z) : Limits → dec t :=
  with_limits (decode_with_budget version).
Definition decode (version : Z) : dec t := with_default_limits (decode_with_budget version).

End decode.

Definition valid (version : Z) (x : t) : Prop :=
  let flex := is_flexible version in
  in_version (version >=? 2) is_i32 0 (throttle_time_ms x) ∧
  arr_ok flex (ListOffsetsTopicResponse.valid version) (topics x) ∧
  in_version flex tags_ok [] (unknown_tagged_fields x).

Lemma list_offsets_response_ListOffsetsResponse_agrees {R : Runtime} version x :
  valid version x → pairs (encode version x) (decode_with_budget version) x.
Proof.
  unfold valid, encode, decode_with_budget, is_flexible. cbv zeta. agree. by destruct x.
Qed.
#[global] Hint Resolve list_offsets_response_ListOffsetsResponse_agrees : fields.

Lemma list_offsets_response_ListOffsetsResponse_settles {R : Runtime} version :
  settles (encode version) (valid version) (decode_with_budget version).
Proof. unfold valid, encode, decode_with_budget, is_flexible. cbv zeta. settle. Qed.
#[global] Hint Resolve list_offsets_response_ListOffsetsResponse_settles : settles.

End ListOffsetsResponse.

Lemma ListOffsetsResponse_agrees (R : Runtime) version x :
  ListOffsetsResponse.MIN_VERSION ≤ version ≤ ListOffsetsResponse.MAX_VERSION → ListOffsetsResponse.valid version x →
  pairs (ListOffsetsResponse.encode version x) (ListOffsetsResponse.decode_with_budget version) x.
Proof.
  intros _ ?. by apply ListOffsetsResponse.list_offsets_response_ListOffsetsResponse_agrees.
Qed.

#[global] Instance ListOffsetsResponse_Message : Message ListOffsetsResponse.t := {|
  Message.API_KEY := ListOffsetsResponse.API_KEY;
  Message.MIN_VERSION := ListOffsetsResponse.MIN_VERSION;
  Message.MAX_VERSION := ListOffsetsResponse.MAX_VERSION;
  Message.encode := ListOffsetsResponse.encode;
  Message.decode_with_budget := @ListOffsetsResponse.decode_with_budget;
  Message.throttle_time_ms := λ x, Some (ListOffsetsResponse.throttle_time_ms x);
  Message.valid := ListOffsetsResponse.valid;
  Message.agrees := ListOffsetsResponse_agrees;
  Message.settled := @ListOffsetsResponse.list_offsets_response_ListOffsetsResponse_settles |}.
#[global] Instance ListOffsetsResponse_Default : Default ListOffsetsResponse.t := ListOffsetsResponse.default.

End list_offsets_response.
