(* ===== verification/MsgMetadata.v ===== *)
(** * Metadata messages

    [metadata_request.rs], [metadata_response.rs]
    of [odradek-protocol/src/messages/]: each message a Module named after its
    file, each struct a Module with its record [t], its defaults, its encoder and
    decoder, what makes a value representable at a version ([valid]) and the
    agreement of the two. *)
From S2P Require Import Prelude Budget Codec Wire Fields KnownTags Settles MessageTrait.

(** ** [metadata_request.rs] *)

Module metadata_request.

Definition is_flexible (version : Z) : bool := version >=? 9.

Module MetadataRequestTopic.

Record t : Type := mk {
  topic_id : list byte;
  name : option string;
  unknown_tagged_fields : list RawTaggedField;
}.
#[global] Instance t_eq_dec : EqDecision t.
Proof. solve_decision. Defined.

Definition default : t := {|
  topic_id := (replicate 16 Byte.x00);
  name := (Some "");
  unknown_tagged_fields := [] |}.

Definition encode (version : Z) (x : t) : enc :=
  let flex := is_flexible version in
  put_if (version >=? 10) (put_uuid (topic_id x)) ;;
  (enc_guard (is_none (name x) && negb (version >=? 10)) (NullField "Name") ;; put_flex_nullable_string flex (name x)) ;;
  put_if flex (put_tagged_fields (unknown_tagged_fields x)) ;;
  enc_ret.

Section decode.
Context {R : Runtime}.

Definition decode_with_budget (version : Z) : bdec t :=
  let flex := is_flexible version in
  let* topic_id := get_if (version >=? 10) (replicate 16 Byte.x00) (lift get_uuid) in
  let* name := get_checked (version >=? 10) (get_flex_nullable_string flex) in
  let* unknown_tagged_fields := get_if flex [] get_tagged_fields_with_budget in
  bdec_ret (mk topic_id name unknown_tagged_fields).

Definition decode_with_limits (version : Z) : Limits → dec t :=
  with_limits (decode_with_budget version).
Definition decode (version : Z) : dec t := with_default_limits (decode_with_budget version).

End decode.

Definition valid (version : Z) (x : t) : Prop :=
  let flex := is_flexible version in
  in_version (version >=? 10) uuid_ok (replicate 16 Byte.x00) (topic_id x) ∧
  opt_valid (version >=? 10) (str_ok flex) (name x) ∧
  in_version flex tags_ok [] (unknown_tagged_fields x).

Lemma metadata_request_MetadataRequestTopic_agrees {R : Runtime} version x :
  valid version x → pairs1 (encode version x) (decode_with_budget version) x.
Proof.
  unfold valid, encode, decode_with_budget, is_flexible. cbv zeta. agree1; by destruct x.
Qed.
#[global] Hint Resolve metadata_request_MetadataRequestTopic_agrees : fields.

Lemma metadata_request_MetadataRequestTopic_settles {R : Runtime} version :
  settles (encode version) (valid version) (decode_with_budget version).
Proof. unfold valid, encode, decode_with_budget, is_flexible. cbv zeta. settle. Qed.
#[global] Hint Resolve metadata_request_MetadataRequestTopic_settles : settles.

End MetadataRequestTopic.

Module MetadataRequest.

Record t : Type := mk {
  topics : option (list MetadataRequestTopic.t);
  allow_auto_topic_creation : bool;
  include_cluster_authorized_operations : bool;
  include_topic_authorized_operations : bool;
  unknown_tagged_fields : list RawTaggedField;
}.
#[global] Instance t_eq_dec : EqDecision t.
Proof. solve_decision. Defined.

Definition default : t := {|
  topics := (Some []);
  allow_auto_topic_creation := true;
  include_cluster_authorized_operations := false;
  include_topic_authorized_operations := false;
  unknown_tagged_fields := [] |}.

Definition API_KEY : Z := 3.
Definition MIN_VERSION : Z := 0.
Definition MAX_VERSION : Z := 13.

Definition encode (version : Z) (x : t) : enc :=
  let flex := is_flexible version in
  put_flex_nullable_array flex (version >=? 1) "Topics" (MetadataRequestTopic.encode version) (topics x) ;;
  put_if (version >=? 4) (put_bool (allow_auto_topic_creation x)) ;;
  put_if ((8 <=? version) && (version <=? 10)) (put_bool (include_cluster_authorized_operations x)) ;;
  put_if (version >=? 8) (put_bool (include_topic_authorized_operations x)) ;;
  put_if flex (put_tagged_fields (unknown_tagged_fields x)) ;;
  enc_ret.

Section decode.
Context {R : Runtime}.

Definition decode_with_budget (version : Z) : bdec t :=
  let flex := is_flexible version in
  let* topics := get_flex_nullable_structs flex (version >=? 1) "MetadataRequestTopic" (MetadataRequestTopic.decode_with_budget version) in
  let* allow_auto_topic_creation := get_if (version >=? 4) true (lift get_bool) in
  let* include_cluster_authorized_operations := get_if ((8 <=? version) && (version <=? 10)) false (lift get_bool) in
  let* include_topic_authorized_operations := get_if (version >=? 8) false (lift get_bool) in
  let* unknown_tagged_fields := get_if flex [] get_tagged_fields_with_budget in
  bdec_ret (mk topics allow_auto_topic_creation include_cluster_authorized_operations include_topic_authorized_operations unknown_tagged_fields).

Definition decode_with_limits (version : Z) : Limits → dec t :=
  with_limits (decode_with_budget version).
Definition decode (version : Z) : dec t := with_default_limits (decode_with_budget version).

End decode.

Definition valid (version : Z) (x : t) : Prop :=
  let flex := is_flexible version in
  opt_valid (version >=? 1) (arr_ok flex (MetadataRequestTopic.valid version)) (topics x) ∧
  in_version (version >=? 4) any true (allow_auto_topic_creation x) ∧
  in_version ((8 <=? version) && (version <=? 10)) any false (include_cluster_authorized_operations x) ∧
  in_version (version >=? 8) any false (include_topic_authorized_operations x) ∧
  in_version flex tags_ok [] (unknown_tagged_fields x).

Lemma metadata_request_MetadataRequest_agrees {R : Runtime} version x :
  valid version x → pairs (encode version x) (decode_with_budget version) x.
Proof.
  unfold valid, encode, decode_with_budget, is_flexible. cbv zeta. agree. by destruct x.
Qed.
#[global] Hint Resolve metadata_request_MetadataRequest_agrees : fields.

Lemma metadata_request_MetadataRequest_settles {R : Runtime} version :
  settles (encode version) (valid version) (decode_with_budget version).
Proof. unfold valid, encode, decode_with_budget, is_flexible. cbv zeta. settle. Qed.
#[global] Hint Resolve metadata_request_MetadataRequest_settles : settles.

End MetadataRequest.

Lemma MetadataRequest_agrees (R : Runtime) version x :
  MetadataRequest.MIN_VERSION ≤ version ≤ MetadataRequest.MAX_VERSION → MetadataRequest.valid version x →
  pairs (MetadataRequest.encode version x) (MetadataRequest.decode_with_budget version) x.
Proof.
  intros _ ?. by apply MetadataRequest.metadata_request_MetadataRequest_agrees.
Qed.

#[global] Instance MetadataRequest_Message : Message MetadataRequest.t := {|
  Message.API_KEY := MetadataRequest.API_KEY;
  Message.MIN_VERSION := MetadataRequest.MIN_VERSION;
  Message.MAX_VERSION := MetadataRequest.MAX_VERSION;
  Message.encode := MetadataRequest.encode;
  Message.decode_with_budget := @MetadataRequest.decode_with_budget;
  Message.throttle_time_ms := λ _, None;
  Message.valid := MetadataRequest.valid;
  Message.agrees := MetadataRequest_agrees;
  Message.settled := @MetadataRequest.metadata_request_MetadataRequest_settles |}.
#[global] Instance MetadataRequest_Default : Default MetadataRequest.t := MetadataRequest.default.

End metadata_request.

(** ** [metadata_response.rs] *)

Module metadata_response.

Definition is_flexible (version : Z) : bool := version >=? 9.

Module MetadataResponseBroker.

Record t : Type := mk {
  node_id : Z;
  host : string;
  port : Z;
  rack : option string;
  unknown_tagged_fields : list RawTaggedField;
}.
#[global] Instance t_eq_dec : EqDecision t.
Proof. solve_decision. Defined.

Definition default : t := {|
  node_id := 0;
  host := "";
  port := 0;
  rack := None;
  unknown_tagged_fields := [] |}.

Definition encode (version : Z) (x : t) : enc :=
  let flex := is_flexible version in
  put_i32 (node_id x) ;;
  put_flex_string flex (host x) ;;
  put_i32 (port x) ;;
  put_if (version >=? 1) (put_flex_nullable_string flex (rack x)) ;;
  put_if flex (put_tagged_fields (unknown_tagged_fields x)) ;;
  enc_ret.

Section decode.
Context {R : Runtime}.

Definition decode_with_budget (version : Z) : bdec t :=
  let flex := is_flexible version in
  let* node_id := lift get_i32 in
  let* host := get_flex_string flex in
  let* port := lift get_i32 in
  let* rack := get_if (version >=? 1) None (get_flex_nullable_string flex) in
  let* unknown_tagged_fields := get_if flex [] get_tagged_fields_with_budget in
  bdec_ret (mk node_id host port rack unknown_tagged_fields).

Definition decode_with_limits (version : Z) : Limits → dec t :=
  with_limits (decode_with_budget version).
Definition decode (version : Z) : dec t := with_default_limits (decode_with_budget version).

End decode.

Definition valid (version : Z) (x : t) : Prop :=
  let flex := is_flexible version in
  is_i32 (node_id x) ∧
  str_ok flex (host x) ∧
  is_i32 (port x) ∧
  in_version (version >=? 1) (opt_valid true (str_ok flex)) None (rack x) ∧
  in_version flex tags_ok [] (unknown_tagged_fields x).

Lemma metadata_response_MetadataResponseBroker_agrees {R : Runtime} version x :
  valid version x → pairs1 (encode version x) (decode_with_budget version) x.
Proof.
  unfold valid, encode, decode_with_budget, is_flexible. cbv zeta. agree1; by destruct x.
Qed.
#[global] Hint Resolve metadata_response_MetadataResponseBroker_agrees : fields.

Lemma metadata_response_MetadataResponseBroker_settles {R : Runtime} version :
  settles (encode version) (valid version) (decode_with_budget version).
Proof. unfold valid, encode, decode_with_budget, is_flexible. cbv zeta. settle. Qed.
#[global] Hint Resolve metadata_response_MetadataResponseBroker_settles : settles.

End MetadataResponseBroker.

Module MetadataResponsePartition.

Record t : Type := mk {
  error_code : Z;
  partition_index : Z;
  leader_id : Z;
  leader_epoch : Z;
  replica_nodes : list Z;
  isr_nodes : list Z;
  offline_replicas : list Z;
  unknown_tagged_fields : list RawTaggedField;
}.
#[global] Instance t_eq_dec : EqDecision t.
Proof. solve_decision. Defined.

Definition default : t := {|
  error_code := 0;
  partition_index := 0;
  leader_id := 0;
  leader_epoch := (-1);
  replica_nodes := [];
  isr_nodes := [];
  offline_replicas := [];
  unknown_tagged_fields := [] |}.

Definition encode (version : Z) (x : t) : enc :=
  let flex := is_flexible version in
  put_i16 (error_code x) ;;
  put_i32 (partition_index x) ;;
  put_i32 (leader_id x) ;;
  put_if (version >=? 7) (put_i32 (leader_epoch x)) ;;
  put_flex_array flex put_i32 (replica_nodes x) ;;
  put_flex_array flex put_i32 (isr_nodes x) ;;
  put_if (version >=? 5) (put_flex_array flex put_i32 (offline_replicas x)) ;;
  put_if flex (put_tagged_fields (unknown_tagged_fields x)) ;;
  enc_ret.

Section decode.
Context {R : Runtime}.

Definition decode_with_budget (version : Z) : bdec t :=
  let flex := is_flexible version in
  let* error_code := lift get_i16 in
  let* partition_index := lift get_i32 in
  let* leader_id := lift get_i32 in
  let* leader_epoch := get_if (version >=? 7) (-1) (lift get_i32) in
  let* replica_nodes := get_flex_items flex "i32" (lift get_i32) in
  let* isr_nodes := get_flex_items flex "i32" (lift get_i32) in
  let* offline_replicas := get_if (version >=? 5) [] (get_flex_items flex "i32" (lift get_i32)) in
  let* unknown_tagged_fields := get_if flex [] get_tagged_fields_with_budget in
  bdec_ret (mk error_code partition_index leader_id leader_epoch replica_nodes isr_nodes offline_replicas unknown_tagged_fields).

Definition decode_with_limits (version : Z) : Limits → dec t :=
  with_limits (decode_with_budget version).
Definition decode (version : Z) : dec t := with_default_limits (decode_with_budget version).

End decode.

Definition valid (version : Z) (x : t) : Prop :=
  let flex := is_flexible version in
  is_i16 (error_code x) ∧
  is_i32 (partition_index x) ∧
  is_i32 (leader_id x) ∧
  in_version (version >=? 7) is_i32 (-1) (leader_epoch x) ∧
  arr_ok flex is_i32 (replica_nodes x) ∧
  arr_ok flex is_i32 (isr_nodes x) ∧
  in_version (version >=? 5) (arr_ok flex is_i32) [] (offline_replicas x) ∧
  in_version flex tags_ok [] (unknown_tagged_fields x).

Lemma metadata_response_MetadataResponsePartition_agrees {R : Runtime} version x :
  valid version x → pairs1 (encode version x) (decode_with_budget version) x.
Proof.
  unfold valid, encode, decode_with_budget, is_flexible. cbv zeta. agree1; by destruct x.
Qed.
#[global] Hint Resolve metadata_response_MetadataResponsePartition_agrees : fields.

Lemma metadata_response_MetadataResponsePartition_settles {R : Runtime} version :
  settles (encode version) (valid version) (decode_with_budget version).
Proof. unfold valid, encode, decode_with_budget, is_flexible. cbv zeta. settle. Qed.
#[global] Hint Resolve metadata_response_MetadataResponsePartition_settles : settles.

End MetadataResponsePartition.

Module MetadataResponseTopic.

Record t : Type := mk {
  error_code : Z;
  name : option string;
  topic_id : list byte;
  is_internal : bool;
  partitions : list MetadataResponsePartition.t;
  topic_authorized_operations : Z;
  unknown_tagged_fields : list RawTaggedField;
}.
#[global] Instance t_eq_dec : EqDecision t.
Proof. solve_decision. Defined.

Definition default : t := {|
  error_code := 0;
  name := (Some "");
  topic_id := (replicate 16 Byte.x00);
  is_internal := false;
  partitions := [];
  topic_authorized_operations := (-2147483648);
  unknown_tagged_fields := [] |}.

Definition encode (version : Z) (x : t) : enc :=
  let flex := is_flexible version in
  put_i16 (error_code x) ;;
  (enc_guard (is_none (name x) && negb (version >=? 12)) (NullField "Name") ;; put_flex_nullable_string flex (name x)) ;;
  put_if (version >=? 10) (put_uuid (topic_id x)) ;;
  put_if (version >=? 1) (put_bool (is_internal x)) ;;
  put_flex_array flex (MetadataResponsePartition.encode version) (partitions x) ;;
  put_if (version >=? 8) (put_i32 (topic_authorized_operations x)) ;;
  put_if flex (put_tagged_fields (unknown_tagged_fields x)) ;;
  enc_ret.

Section decode.
Context {R : Runtime}.

Definition decode_with_budget (version : Z) : bdec t :=
  let flex := is_flexible version in
  let* error_code := lift get_i16 in
  let* name := get_checked (version >=? 12) (get_flex_nullable_string flex) in
  let* topic_id := get_if (version >=? 10) (replicate 16 Byte.x00) (lift get_uuid) in
  let* is_internal := get_if (version >=? 1) false (lift get_bool) in
  let* partitions := get_flex_structs flex "MetadataResponsePartition" (MetadataResponsePartition.decode_with_budget version) in
  let* topic_authorized_operations := get_if (version >=? 8) (-2147483648) (lift get_i32) in
  let* unknown_tagged_fields := get_if flex [] get_tagged_fields_with_budget in
  bdec_ret (mk error_code name topic_id is_internal partitions topic_authorized_operations unknown_tagged_fields).

Definition decode_with_limits (version : Z) : Limits → dec t :=
  with_limits (decode_with_budget version).
Definition decode (version : Z) : dec t := with_default_limits (decode_with_budget version).

End decode.

Definition valid (version : Z) (x : t) : Prop :=
  let flex := is_flexible version in
  is_i16 (error_code x) ∧
  opt_valid (version >=? 12) (str_ok flex) (name x) ∧
  in_version (version >=? 10) uuid_ok (replicate 16 Byte.x00) (topic_id x) ∧
  in_version (version >=? 1) any false (is_internal x) ∧
  arr_ok flex (MetadataResponsePartition.valid version) (partitions x) ∧
  in_version (version >=? 8) is_i32 (-2147483648) (topic_authorized_operations x) ∧
  in_version flex tags_ok [] (unknown_tagged_fields x).

Lemma metadata_response_MetadataResponseTopic_agrees {R : Runtime} version x :
  valid version x → pairs1 (encode version x) (decode_with_budget version) x.
Proof.
  unfold valid, encode, decode_with_budget, is_flexible. cbv zeta. agree1; by destruct x.
Qed.
#[global] Hint Resolve metadata_response_MetadataResponseTopic_agrees : fields.

Lemma metadata_response_MetadataResponseTopic_settles {R : Runtime} version :
  settles (encode version) (valid version) (decode_with_budget version).
Proof. unfold valid, encode, decode_with_budget, is_flexible. cbv zeta. settle. Qed.
#[global] Hint Resolve metadata_response_MetadataResponseTopic_settles : settles.

End MetadataResponseTopic.

Module MetadataResponse.

Record t : Type := mk {
  throttle_time_ms : Z;
  brokers : list MetadataResponseBroker.t;
  cluster_id : option string;
  controller_id : Z;
  topics : list MetadataResponseTopic.t;
  cluster_authorized_operations : Z;
  error_code : Z;
  unknown_tagged_fields : list RawTaggedField;
}.
#[global] Instance t_eq_dec : EqDecision t.
Proof. solve_decision. Defined.

Definition default : t := {|
  throttle_time_ms := 0;
  brokers := [];
  cluster_id := None;
  controller_id := (-1);
  topics := [];
  cluster_authorized_operations := (-2147483648);
  error_code := 0;
  unknown_tagged_fields := [] |}.

Definition API_KEY : Z := 3.
Definition MIN_VERSION : Z := 0.
Definition MAX_VERSION : Z := 13.

Definition encode (version : Z) (x : t) : enc :=
  let flex := is_flexible version in
  put_if (version >=? 3) (put_i32 (throttle_time_ms x)) ;;
  put_flex_array flex (MetadataResponseBroker.encode version) (brokers x) ;;
  put_if (version >=? 2) (put_flex_nullable_string flex (cluster_id x)) ;;
  put_if (version >=? 1) (put_i32 (controller_id x)) ;;
  put_flex_array flex (MetadataResponseTopic.encode version) (topics x) ;;
  put_if ((8 <=? version) && (version <=? 10)) (put_i32 (cluster_authorized_operations x)) ;;
  put_if (version >=? 13) (put_i16 (error_code x)) ;;
  put_if flex (put_tagged_fields (unknown_tagged_fields x)) ;;
  enc_ret.

Section decode.
Context {R : Runtime}.

Definition decode_with_budget (version : Z) : bdec t :=
  let flex := is_flexible version in
  let* throttle_time_ms := get_if (version >=? 3) 0 (lift get_i32) in
  let* brokers := get_flex_structs flex "MetadataResponseBroker" (MetadataResponseBroker.decode_with_budget version) in
  let* cluster_id := get_if (version >=? 2) None (get_flex_nullable_string flex) in
  let* controller_id := get_if (version >=? 1) (-1) (lift get_i32) in
  let* topics := get_flex_structs flex "MetadataResponseTopic" (MetadataResponseTopic.decode_with_budget version) in
  let* cluster_authorized_operations := get_if ((8 <=? version) && (version <=? 10)) (-2147483648) (lift get_i32) in
  let* error_code := get_if (version >=? 13) 0 (lift get_i16) in
  let* unknown_tagged_fields := get_if flex [] get_tagged_fields_with_budget in
  bdec_ret (mk throttle_time_ms brokers cluster_id controller_id topics cluster_authorized_operations error_code unknown_tagged_fields).

Definition decode_with_limits (version : Z) : Limits → dec t :=
  with_limits (decode_with_budget version).
Definition decode (version : Z) : dec t := with_default_limits (decode_with_budget version).

End decode.

Definition valid (version : Z) (x : t) : Prop :=
  let flex := is_flexible version in
  in_version (version >=? 3) is_i32 0 (throttle_time_ms x) ∧
  arr_ok flex (MetadataResponseBroker.valid version) (brokers x) ∧
  in_version (version >=? 2) (opt_valid true (str_ok flex)) None (cluster_id x) ∧
  in_version (version >=? 1) is_i32 (-1) (controller_id x) ∧
  arr_ok flex (MetadataResponseTopic.valid version) (topics x) ∧
  in_version ((8 <=? version) && (version <=? 10)) is_i32 (-2147483648) (cluster_authorized_operations x) ∧
  in_version (version >=? 13) is_i16 0 (error_code x) ∧
  in_version flex tags_ok [] (unknown_tagged_fields x).

Lemma metadata_response_MetadataResponse_agrees {R : Runtime} version x :
  valid version x → pairs (encode version x) (decode_with_budget version) x.
Proof.
  unfold valid, encode, decode_with_budget, is_flexible. cbv zeta. agree. by destruct x.
Qed.
#[global] Hint Resolve metadata_response_MetadataResponse_agrees : fields.

Lemma metadata_response_MetadataResponse_settles {R : Runtime} version :
  settles (encode version) (valid version) (decode_with_budget version).
Proof. unfold valid, encode, decode_with_budget, is_flexible. cbv zeta. settle. Qed.
#[global] Hint Resolve metadata_response_MetadataResponse_settles : settles.

End MetadataResponse.

Lemma MetadataResponse_agrees (R : Runtime) version x :
  MetadataResponse.MIN_VERSION ≤ version ≤ MetadataResponse.MAX_VERSION → MetadataResponse.valid version x →
  pairs (MetadataResponse.encode version x) (MetadataResponse.decode_with_budget version) x.
Proof.
  intros _ ?. by apply MetadataResponse.metadata_response_MetadataResponse_agrees.
Qed.

#[global] Instance MetadataResponse_Message : Message MetadataResponse.t := {|
  Message.API_KEY := MetadataResponse.API_KEY;
  Message.MIN_VERSION := MetadataResponse.MIN_VERSION;
  Message.MAX_VERSION := MetadataResponse.MAX_VERSION;
  Message.encode := MetadataResponse.encode;
  Message.decode_with_budget := @MetadataResponse.decode_with_budget;
  Message.throttle_time_ms := λ x, Some (MetadataResponse.throttle_time_ms x);
  Message.valid := MetadataResponse.valid;
  Message.agrees := MetadataResponse_agrees;
  Message.settled := @MetadataResponse.metadata_response_MetadataResponse_settles |}.
#[global] Instance MetadataResponse_Default : Default MetadataResponse.t := MetadataResponse.default.

End metadata_response.
