(* ===== verification/MsgAdmin.v ===== *)
(** * Topic and configuration administration messages

    [create_topics_request.rs], [create_topics_response.rs], [delete_topics_request.rs], [delete_topics_response.rs], [describe_configs_request.rs], [describe_configs_response.rs]
    of [odradek-protocol/src/messages/]: each message a Module named after its
    file, each struct a Module with its record [t], its defaults, its encoder and
    decoder, what makes a value representable at a version ([valid]) and the
    agreement of the two. *)
From S2P Require Import Prelude Budget Codec Wire Fields KnownTags Settles MessageTrait.

(** ** [create_topics_request.rs] *)

Module create_topics_request.

Definition is_flexible (version : Z) : bool := version >=? 5.

Module CreatableReplicaAssignment.

Record t : Type := mk {
  partition_index : Z;
  broker_ids : list Z;
  unknown_tagged_fields : list RawTaggedField;
}.
#[global] Instance t_eq_dec : EqDecision t.
Proof. solve_decision. Defined.

Definition default : t := {|
  partition_index := 0;
  broker_ids := [];
  unknown_tagged_fields := [] |}.

Definition encode (version : Z) (x : t) : enc :=
  let flex := is_flexible version in
  put_i32 (partition_index x) ;;
  put_flex_array flex put_i32 (broker_ids x) ;;
  put_if flex (put_tagged_fields (unknown_tagged_fields x)) ;;
  enc_ret.

Section decode.
Context {R : Runtime}.

Definition decode_with_budget (version : Z) : bdec t :=
  let flex := is_flexible version in
  let* partition_index := lift get_i32 in
  let* broker_ids := get_flex_items flex "i32" (lift get_i32) in
  let* unknown_tagged_fields := get_if flex [] get_tagged_fields_with_budget in
  bdec_ret (mk partition_index broker_ids unknown_tagged_fields).

Definition decode_with_limits (version : Z) : Limits → dec t :=
  with_limits (decode_with_budget version).
Definition decode (version : Z) : dec t := with_default_limits (decode_with_budget version).

End decode.

Definition valid (version : Z) (x : t) : Prop :=
  let flex := is_flexible version in
  is_i32 (partition_index x) ∧
  arr_ok flex is_i32 (broker_ids x) ∧
  in_version flex tags_ok [] (unknown_tagged_fields x).

Lemma create_topics_request_CreatableReplicaAssignment_agrees {R : Runtime} version x :
  valid version x → pairs1 (encode version x) (decode_with_budget version) x.
Proof.
  unfold valid, encode, decode_with_budget, is_flexible. cbv zeta. agree1; by destruct x.
Qed.
#[global] Hint Resolve create_topics_request_CreatableReplicaAssignment_agrees : fields.

Lemma create_topics_request_CreatableReplicaAssignment_settles {R : Runtime} version :
  settles (encode version) (valid version) (decode_with_budget version).
Proof. unfold valid, encode, decode_with_budget, is_flexible. cbv zeta. settle. Qed.
#[global] Hint Resolve create_topics_request_CreatableReplicaAssignment_settles : settles.

End CreatableReplicaAssignment.

Module CreatableTopicConfig.

Record t : Type := mk {
  name : string;
  value : option string;
  unknown_tagged_fields : list RawTaggedField;
}.
#[global] Instance t_eq_dec : EqDecision t.
Proof. solve_decision. Defined.

Definition default : t := {|
  name := "";
  value := (Some "");
  unknown_tagged_fields := [] |}.

Definition encode (version : Z) (x : t) : enc :=
  let flex := is_flexible version in
  put_flex_string flex (name x) ;;
  put_flex_nullable_string flex (value x) ;;
  put_if flex (put_tagged_fields (unknown_tagged_fields x)) ;;
  enc_ret.

Section decode.
Context {R : Runtime}.

Definition decode_with_budget (version : Z) : bdec t :=
  let flex := is_flexible version in
  let* name := get_flex_string flex in
  let* value := get_flex_nullable_string flex in
  let* unknown_tagged_fields := get_if flex [] get_tagged_fields_with_budget in
  bdec_ret (mk name value unknown_tagged_fields).

Definition decode_with_limits (version : Z) : Limits → dec t :=
  with_limits (decode_with_budget version).
Definition decode (version : Z) : dec t := with_default_limits (decode_with_budget version).

End decode.

Definition valid (version : Z) (x : t) : Prop :=
  let flex := is_flexible version in
  str_ok flex (name x) ∧
  opt_valid true (str_ok flex) (value x) ∧
  in_version flex tags_ok [] (unknown_tagged_fields x).

Lemma create_topics_request_CreatableTopicConfig_agrees {R : Runtime} version x :
  valid version x → pairs1 (encode version x) (decode_with_budget version) x.
Proof.
  unfold valid, encode, decode_with_budget, is_flexible. cbv zeta. agree1; by destruct x.
Qed.
#[global] Hint Resolve create_topics_request_CreatableTopicConfig_agrees : fields.

Lemma create_topics_request_CreatableTopicConfig_settles {R : Runtime} version :
  settles (encode version) (valid version) (decode_with_budget version).
Proof. unfold valid, encode, decode_with_budget, is_flexible. cbv zeta. settle. Qed.
#[global] Hint Resolve create_topics_request_CreatableTopicConfig_settles : settles.

End CreatableTopicConfig.

Module CreatableTopic.

Record t : Type := mk {
  name : string;
  num_partitions : Z;
  replication_factor : Z;
  assignments : list CreatableReplicaAssignment.t;
  configs : list CreatableTopicConfig.t;
  unknown_tagged_fields : list RawTaggedField;
}.
#[global] Instance t_eq_dec : EqDecision t.
Proof. solve_decision. Defined.

Definition default : t := {|
  name := "";
  num_partitions := 0;
  replication_factor := 0;
  assignments := [];
  configs := [];
  unknown_tagged_fields := [] |}.

Definition encode (version : Z) (x : t) : enc :=
  let flex := is_flexible version in
  put_flex_string flex (name x) ;;
  put_i32 (num_partitions x) ;;
  put_i16 (replication_factor x) ;;
  put_flex_array flex (CreatableReplicaAssignment.encode version) (assignments x) ;;
  put_flex_array flex (CreatableTopicConfig.encode version) (configs x) ;;
  put_if flex (put_tagged_fields (unknown_tagged_fields x)) ;;
  enc_ret.

Section decode.
Context {R : Runtime}.

Definition decode_with_budget (version : Z) : bdec t :=
  let flex := is_flexible version in
  let* name := get_flex_string flex in
  let* num_partitions := lift get_i32 in
  let* replication_factor := lift get_i16 in
  let* assignments := get_flex_structs flex "CreatableReplicaAssignment" (CreatableReplicaAssignment.decode_with_budget version) in
  let* configs := get_flex_structs flex "CreatableTopicConfig" (CreatableTopicConfig.decode_with_budget version) in
  let* unknown_tagged_fields := get_if flex [] get_tagged_fields_with_budget in
  bdec_ret (mk name num_partitions replication_factor assignments configs unknown_tagged_fields).

Definition decode_with_limits (version : Z) : Limits → dec t :=
  with_limits (decode_with_budget version).
Definition decode (version : Z) : dec t := with_default_limits (decode_with_budget version).

End decode.

Definition valid (version : Z) (x : t) : Prop :=
  let flex := is_flexible version in
  str_ok flex (name x) ∧
  is_i32 (num_partitions x) ∧
  is_i16 (replication_factor x) ∧
  arr_ok flex (CreatableReplicaAssignment.valid version) (assignments x) ∧
  arr_ok flex (CreatableTopicConfig.valid version) (configs x) ∧
  in_version flex tags_ok [] (unknown_tagged_fields x).

Lemma create_topics_request_CreatableTopic_agrees {R : Runtime} version x :
  valid version x → pairs1 (encode version x) (decode_with_budget version) x.
Proof.
  unfold valid, encode, decode_with_budget, is_flexible. cbv zeta. agree1; by destruct x.
Qed.
#[global] Hint Resolve create_topics_request_CreatableTopic_agrees : fields.

Lemma create_topics_request_CreatableTopic_settles {R : Runtime} version :
  settles (encode version) (valid version) (decode_with_budget version).
Proof. unfold valid, encode, decode_with_budget, is_flexible. cbv zeta. settle. Qed.
#[global] Hint Resolve create_topics_request_CreatableTopic_settles : settles.

End CreatableTopic.

Module CreateTopicsRequest.

Record t : Type := mk {
  topics : list CreatableTopic.t;
  timeout_ms : Z;
  validate_only : bool;
  unknown_tagged_fields : list RawTaggedField;
}.
#[global] Instance t_eq_dec : EqDecision t.
Proof. solve_decision. Defined.

Definition default : t := {|
  topics := [];
  timeout_ms := 60000;
  validate_only := false;
  unknown_tagged_fields := [] |}.

Definition API_KEY : Z := 19.
Definition MIN_VERSION : Z := 2.
Definition MAX_VERSION : Z := 7.

Definition encode (version : Z) (x : t) : enc :=
  let flex := is_flexible version in
  put_flex_array flex (CreatableTopic.encode version) (topics x) ;;
  put_i32 (timeout_ms x) ;;
  put_bool (validate_only x) ;;
  put_if flex (put_tagged_fields (unknown_tagged_fields x)) ;;
  enc_ret.

Section decode.
Context {R : Runtime}.

Definition decode_with_budget (version : Z) : bdec t :=
  let flex := is_flexible version in
  let* topics := get_flex_structs flex "CreatableTopic" (CreatableTopic.decode_with_budget version) in
  let* timeout_ms := lift get_i32 in
  let* validate_only := lift get_bool in
  let* unknown_tagged_fields := get_if flex [] get_tagged_fields_with_budget in
  bdec_ret (mk topics timeout_ms validate_only unknown_tagged_fields).

Definition decode_with_limits (version : Z) : Limits → dec t :=
  with_limits (decode_with_budget version).
Definition decode (version : Z) : dec t := with_default_limits (decode_with_budget version).

End decode.

Definition valid (version : Z) (x : t) : Prop :=
  let flex := is_flexible version in
  arr_ok flex (CreatableTopic.valid version) (topics x) ∧
  is_i32 (timeout_ms x) ∧
  any (validate_only x) ∧
  in_version flex tags_ok [] (unknown_tagged_fields x).

Lemma create_topics_request_CreateTopicsRequest_agrees {R : Runtime} version x :
  valid version x → pairs (encode version x) (decode_with_budget version) x.
Proof.
  unfold valid, encode, decode_with_budget, is_flexible. cbv zeta. agree. by destruct x.
Qed.
#[global] Hint Resolve create_topics_request_CreateTopicsRequest_agrees : fields.

Lemma create_topics_request_CreateTopicsRequest_settles {R : Runtime} version :
  settles (encode version) (valid version) (decode_with_budget version).
Proof. unfold valid, encode, decode_with_budget, is_flexible. cbv zeta. settle. Qed.
#[global] Hint Resolve create_topics_request_CreateTopicsRequest_settles : settles.

End CreateTopicsRequest.

Lemma CreateTopicsRequest_agrees (R : Runtime) version x :
  CreateTopicsRequest.MIN_VERSION ≤ version ≤ CreateTopicsRequest.MAX_VERSION → CreateTopicsRequest.valid version x →
  pairs (CreateTopicsRequest.encode version x) (CreateTopicsRequest.decode_with_budget version) x.
Proof.
  intros _ ?. by apply CreateTopicsRequest.create_topics_request_CreateTopicsRequest_agrees.
Qed.

#[global] Instance CreateTopicsRequest_Message : Message CreateTopicsRequest.t := {|
  Message.API_KEY := CreateTopicsRequest.API_KEY;
  Message.MIN_VERSION := CreateTopicsRequest.MIN_VERSION;
  Message.MAX_VERSION := CreateTopicsRequest.MAX_VERSION;
  Message.encode := CreateTopicsRequest.encode;
  Message.decode_with_budget := @CreateTopicsRequest.decode_with_budget;
  Message.throttle_time_ms := λ _, None;
  Message.valid := CreateTopicsRequest.valid;
  Message.agrees := CreateTopicsRequest_agrees;
  Message.settled := @CreateTopicsRequest.create_topics_request_CreateTopicsRequest_settles |}.
#[global] Instance CreateTopicsRequest_Default : Default CreateTopicsRequest.t := CreateTopicsRequest.default.

End create_topics_request.

(** ** [create_topics_response.rs] *)

Module create_topics_response.

Definition is_flexible (version : Z) : bool := version >=? 5.

Module CreatableTopicConfigs.

Record t : Type := mk {
  name : string;
  value : option string;
  read_only : bool;
  config_source : Z;
  is_sensitive : bool;
  unknown_tagged_fields : list RawTaggedField;
}.
#[global] Instance t_eq_dec : EqDecision t.
Proof. solve_decision. Defined.

Definition default : t := {|
  name := "";
  value := (Some "");
  read_only := false;
  config_source := (-1);
  is_sensitive := false;
  unknown_tagged_fields := [] |}.

Definition encode (version : Z) (x : t) : enc :=
  let flex := is_flexible version in
  put_if (version >=? 5) (put_flex_string flex (name x)) ;;
  put_if (version >=? 5) (put_flex_nullable_string flex (value x)) ;;
  put_if (version >=? 5) (put_bool (read_only x)) ;;
  put_if (version >=? 5) (put_i8 (config_source x)) ;;
  put_if (version >=? 5) (put_bool (is_sensitive x)) ;;
  put_if flex (put_tagged_fields (unknown_tagged_fields x)) ;;
  enc_ret.

Section decode.
Context {R : Runtime}.

Definition decode_with_budget (version : Z) : bdec t :=
  let flex := is_flexible version in
  let* name := get_if (version >=? 5) "" (get_flex_string flex) in
  let* value := get_if (version >=? 5) (Some "") (get_flex_nullable_string flex) in
  let* read_only := get_if (version >=? 5) false (lift get_bool) in
  let* config_source := get_if (version >=? 5) (-1) (lift get_i8) in
  let* is_sensitive := get_if (version >=? 5) false (lift get_bool) in
  let* unknown_tagged_fields := get_if flex [] get_tagged_fields_with_budget in
  bdec_ret (mk name value read_only config_source is_sensitive unknown_tagged_fields).

Definition decode_with_limits (version : Z) : Limits → dec t :=
  with_limits (decode_with_budget version).
Definition decode (version : Z) : dec t := with_default_limits (decode_with_budget version).

End decode.

Definition valid (version : Z) (x : t) : Prop :=
  let flex := is_flexible version in
  in_version (version >=? 5) (str_ok flex) "" (name x) ∧
  in_version (version >=? 5) (opt_valid true (str_ok flex)) (Some "") (value x) ∧
  in_version (version >=? 5) any false (read_only x) ∧
  in_version (version >=? 5) is_i8 (-1) (config_source x) ∧
  in_version (version >=? 5) any false (is_sensitive x) ∧
  in_version flex tags_ok [] (unknown_tagged_fields x).

Lemma create_topics_response_CreatableTopicConfigs_agrees {R : Runtime} version x :
  5 ≤ version →
  valid version x → pairs1 (encode version x) (decode_with_budget version) x.
Proof.
  intros ?. unfold valid, encode, decode_with_budget, is_flexible. cbv zeta. agree1; by destruct x.
Qed.
#[global] Hint Resolve create_topics_response_CreatableTopicConfigs_agrees : fields.

Lemma create_topics_response_CreatableTopicConfigs_settles {R : Runtime} version :
  settles (encode version) (valid version) (decode_with_budget version).
Proof. unfold valid, encode, decode_with_budget, is_flexible. cbv zeta. settle. Qed.
#[global] Hint Resolve create_topics_response_CreatableTopicConfigs_settles : settles.

End CreatableTopicConfigs.

Module CreatableTopicResult.

Record t : Type := mk {
  name : string;
  topic_id : list byte;
  error_code : Z;
  error_message : option string;
  num_partitions : Z;
  replication_factor : Z;
  configs : option (list CreatableTopicConfigs.t);
  topic_config_error_code : option Z;
  unknown_tagged_fields : list RawTaggedField;
}.
#[global] Instance t_eq_dec : EqDecision t.
Proof. solve_decision. Defined.

Definition default : t := {|
  name := "";
  topic_id := (replicate 16 Byte.x00);
  error_code := 0;
  error_message := (Some "");
  num_partitions := (-1);
  replication_factor := (-1);
  configs := (Some []);
  topic_config_error_code := None;
  unknown_tagged_fields := [] |}.

Definition encode (version : Z) (x : t) : enc :=
  let flex := is_flexible version in
  put_flex_string flex (name x) ;;
  put_if (version >=? 7) (put_uuid (topic_id x)) ;;
  put_i16 (error_code x) ;;
  put_flex_nullable_string flex (error_message x) ;;
  put_if (version >=? 5) (put_i32 (num_partitions x)) ;;
  put_if (version >=? 5) (put_i16 (replication_factor x)) ;;
  put_if (version >=? 5) (put_flex_nullable_array flex true "" (CreatableTopicConfigs.encode version) (configs x)) ;;
  put_if flex (put_known_tags (unknown_tagged_fields x)
    [tag_field (version >=? 5) 0 put_i16 (topic_config_error_code x)]) ;;
  enc_ret.

Section decode.
Context {R : Runtime}.

Definition known_tags (version : Z) :=
  let flex := is_flexible version in
  known_tag (version >=? 5) 0 (lift get_i16) no_tags.

Definition decode_with_budget (version : Z) : bdec t :=
  let flex := is_flexible version in
  let* name := get_flex_string flex in
  let* topic_id := get_if (version >=? 7) (replicate 16 Byte.x00) (lift get_uuid) in
  let* error_code := lift get_i16 in
  let* error_message := get_flex_nullable_string flex in
  let* num_partitions := get_if (version >=? 5) (-1) (lift get_i32) in
  let* replication_factor := get_if (version >=? 5) (-1) (lift get_i16) in
  let* configs := get_if (version >=? 5) (Some []) (get_flex_nullable_structs flex true "CreatableTopicConfigs" (CreatableTopicConfigs.decode_with_budget version)) in
  let* ((topic_config_error_code, tt), unknown_tagged_fields) :=
    get_if flex ((None, tt), []) (get_known_tags (known_tags version)) in
  bdec_ret (mk name topic_id error_code error_message num_partitions replication_factor configs topic_config_error_code unknown_tagged_fields).

Definition decode_with_limits (version : Z) : Limits → dec t :=
  with_limits (decode_with_budget version).
Definition decode (version : Z) : dec t := with_default_limits (decode_with_budget version).

End decode.

Definition valid (version : Z) (x : t) : Prop :=
  let flex := is_flexible version in
  str_ok flex (name x) ∧
  in_version (version >=? 7) uuid_ok (replicate 16 Byte.x00) (topic_id x) ∧
  is_i16 (error_code x) ∧
  opt_valid true (str_ok flex) (error_message x) ∧
  in_version (version >=? 5) is_i32 (-1) (num_partitions x) ∧
  in_version (version >=? 5) is_i16 (-1) (replication_factor x) ∧
  in_version (version >=? 5) (opt_valid true (arr_ok flex (CreatableTopicConfigs.valid version))) (Some []) (configs x) ∧
  in_version flex (λ _,
    in_version (version >=? 5) (tag_valid is_i16 put_i16) None (topic_config_error_code x) ∧
    unknown_ok (known_list (version >=? 5) 0 []) (unknown_tagged_fields x))
    ((None, tt), []) ((topic_config_error_code x, tt), unknown_tagged_fields x).

Lemma create_topics_response_CreatableTopicResult_agrees {R : Runtime} version x :
  valid version x → pairs1 (encode version x) (decode_with_budget version) x.
Proof.
  unfold valid, encode, decode_with_budget, is_flexible. cbv zeta. agree1; by destruct x.
Qed.
#[global] Hint Resolve create_topics_response_CreatableTopicResult_agrees : fields.

Lemma create_topics_response_CreatableTopicResult_settles {R : Runtime} version :
  settles (encode version) (valid version) (decode_with_budget version).
Proof. unfold valid, encode, decode_with_budget, is_flexible. cbv zeta. settle. Qed.
#[global] Hint Resolve create_topics_response_CreatableTopicResult_settles : settles.

End CreatableTopicResult.

Module CreateTopicsResponse.

Record t : Type := mk {
  throttle_time_ms : Z;
  topics : list CreatableTopicResult.t;
  unknown_tagged_fields : list RawTaggedField;
}.
#[global] Instance t_eq_dec : EqDecision t.
Proof. solve_decision. Defined.

Definition default : t := {|
  throttle_time_ms := 0;
  topics := [];
  unknown_tagged_fields := [] |}.

Definition API_KEY : Z := 19.
Definition MIN_VERSION : Z := 2.
Definition MAX_VERSION : Z := 7.

Definition encode (version : Z) (x : t) : enc :=
  let flex := is_flexible version in
  put_i32 (throttle_time_ms x) ;;
  put_flex_array flex (CreatableTopicResult.encode version) (topics x) ;;
  put_if flex (put_tagged_fields (unknown_tagged_fields x)) ;;
  enc_ret.

Section decode.
Context {R : Runtime}.

Definition decode_with_budget (version : Z) : bdec t :=
  let flex := is_flexible version in
  let* throttle_time_ms := lift get_i32 in
  let* topics := get_flex_structs flex "CreatableTopicResult" (CreatableTopicResult.decode_with_budget version) in
  let* unknown_tagged_fields := get_if flex [] get_tagged_fields_with_budget in
  bdec_ret (mk throttle_time_ms topics unknown_tagged_fields).

Definition decode_with_limits (version : Z) : Limits → dec t :=
  with_limits (decode_with_budget version).
Definition decode (version : Z) : dec t := with_default_limits (decode_with_budget version).

End decode.

Definition valid (version : Z) (x : t) : Prop :=
  let flex := is_flexible version in
  is_i32 (throttle_time_ms x) ∧
  arr_ok flex (CreatableTopicResult.valid version) (topics x) ∧
  in_version flex tags_ok [] (unknown_tagged_fields x).

Lemma create_topics_response_CreateTopicsResponse_agrees {R : Runtime} version x :
  valid version x → pairs (encode version x) (decode_with_budget version) x.
Proof.
  unfold valid, encode, decode_with_budget, is_flexible. cbv zeta. agree. by destruct x.
Qed.
#[global] Hint Resolve create_topics_response_CreateTopicsResponse_agrees : fields.

Lemma create_topics_response_CreateTopicsResponse_settles {R : Runtime} version :
  settles (encode version) (valid version) (decode_with_budget version).
Proof. unfold valid, encode, decode_with_budget, is_flexible. cbv zeta. settle. Qed.
#[global] Hint Resolve create_topics_response_CreateTopicsResponse_settles : settles.

End CreateTopicsResponse.

Lemma CreateTopicsResponse_agrees (R : Runtime) version x :
  CreateTopicsResponse.MIN_VERSION ≤ version ≤ CreateTopicsResponse.MAX_VERSION → CreateTopicsResponse.valid version x →
  pairs (CreateTopicsResponse.encode version x) (CreateTopicsResponse.decode_with_budget version) x.
Proof.
  intros _ ?. by apply CreateTopicsResponse.create_topics_response_CreateTopicsResponse_agrees.
Qed.

#[global] Instance CreateTopicsResponse_Message : Message CreateTopicsResponse.t := {|
  Message.API_KEY := CreateTopicsResponse.API_KEY;
  Message.MIN_VERSION := CreateTopicsResponse.MIN_VERSION;
  Message.MAX_VERSION := CreateTopicsResponse.MAX_VERSION;
  Message.encode := CreateTopicsResponse.encode;
  Message.decode_with_budget := @CreateTopicsResponse.decode_with_budget;
  Message.throttle_time_ms := λ x, Some (CreateTopicsResponse.throttle_time_ms x);
  Message.valid := CreateTopicsResponse.valid;
  Message.agrees := CreateTopicsResponse_agrees;
  Message.settled := @CreateTopicsResponse.create_topics_response_CreateTopicsResponse_settles |}.
#[global] Instance CreateTopicsResponse_Default : Default CreateTopicsResponse.t := CreateTopicsResponse.default.

End create_topics_response.

(** ** [delete_topics_request.rs] *)

Module delete_topics_request.

Definition is_flexible (version : Z) : bool := version >=? 4.

Module DeleteTopicState.

Record t : Type := mk {
  name : option string;
  topic_id : list byte;
  unknown_tagged_fields : list RawTaggedField;
}.
#[global] Instance t_eq_dec : EqDecision t.
Proof. solve_decision. Defined.

Definition default : t := {|
  name := None;
  topic_id := (replicate 16 Byte.x00);
  unknown_tagged_fields := [] |}.

Definition encode (version : Z) (x : t) : enc :=
  let flex := is_flexible version in
  put_if (version >=? 6) (put_flex_nullable_string flex (name x)) ;;
  put_if (version >=? 6) (put_uuid (topic_id x)) ;;
  put_if flex (put_tagged_fields (unknown_tagged_fields x)) ;;
  enc_ret.

Section decode.
Context {R : Runtime}.

Definition decode_with_budget (version : Z) : bdec t :=
  let flex := is_flexible version in
  let* name := get_if (version >=? 6) None (get_flex_nullable_string flex) in
  let* topic_id := get_if (version >=? 6) (replicate 16 Byte.x00) (lift get_uuid) in
  let* unknown_tagged_fields := get_if flex [] get_tagged_fields_with_budget in
  bdec_ret (mk name topic_id unknown_tagged_fields).

Definition decode_with_limits (version : Z) : Limits → dec t :=
  with_limits (decode_with_budget version).
Definition decode (version : Z) : dec t := with_default_limits (decode_with_budget version).

End decode.

Definition valid (version : Z) (x : t) : Prop :=
  let flex := is_flexible version in
  in_version (version >=? 6) (opt_valid true (str_ok flex)) None (name x) ∧
  in_version (version >=? 6) uuid_ok (replicate 16 Byte.x00) (topic_id x) ∧
  in_version flex tags_ok [] (unknown_tagged_fields x).

Lemma delete_topics_request_DeleteTopicState_agrees {R : Runtime} version x :
  4 ≤ version →
  valid version x → pairs1 (encode version x) (decode_with_budget version) x.
Proof.
  intros ?. unfold valid, encode, decode_with_budget, is_flexible. cbv zeta. agree1; by destruct x.
Qed.
#[global] Hint Resolve delete_topics_request_DeleteTopicState_agrees : fields.

Lemma delete_topics_request_DeleteTopicState_settles {R : Runtime} version :
  settles (encode version) (valid version) (decode_with_budget version).
Proof. unfold valid, encode, decode_with_budget, is_flexible. cbv zeta. settle. Qed.
#[global] Hint Resolve delete_topics_request_DeleteTopicState_settles : settles.

End DeleteTopicState.

Module DeleteTopicsRequest.

Record t : Type := mk {
  topics : list DeleteTopicState.t;
  topic_names : list string;
  timeout_ms : Z;
  unknown_tagged_fields : list RawTaggedField;
}.
#[global] Instance t_eq_dec : EqDecision t.
Proof. solve_decision. Defined.

Definition default : t := {|
  topics := [];
  topic_names := [];
  timeout_ms := 0;
  unknown_tagged_fields := [] |}.

Definition API_KEY : Z := 20.
Definition MIN_VERSION : Z := 1.
Definition MAX_VERSION : Z := 6.

Definition encode (version : Z) (x : t) : enc :=
  let flex := is_flexible version in
  put_if (version >=? 6) (put_flex_array flex (DeleteTopicState.encode version) (topics x)) ;;
  put_if (version <=? 5) (put_flex_array flex (put_flex_string flex) (topic_names x)) ;;
  put_i32 (timeout_ms x) ;;
  put_if flex (put_tagged_fields (unknown_tagged_fields x)) ;;
  enc_ret.

Section decode.
Context {R : Runtime}.

Definition decode_with_budget (version : Z) : bdec t :=
  let flex := is_flexible version in
  let* topics := get_if (version >=? 6) [] (get_flex_structs flex "DeleteTopicState" (DeleteTopicState.decode_with_budget version)) in
  let* topic_names := get_if (version <=? 5) [] (get_flex_items flex "String" (get_flex_string flex)) in
  let* timeout_ms := lift get_i32 in
  let* unknown_tagged_fields := get_if flex [] get_tagged_fields_with_budget in
  bdec_ret (mk topics topic_names timeout_ms unknown_tagged_fields).

Definition decode_with_limits (version : Z) : Limits → dec t :=
  with_limits (decode_with_budget version).
Definition decode (version : Z) : dec t := with_default_limits (decode_with_budget version).

End decode.

Definition valid (version : Z) (x : t) : Prop :=
  let flex := is_flexible version in
  in_version (version >=? 6) (arr_ok flex (DeleteTopicState.valid version)) [] (topics x) ∧
  in_version (version <=? 5) (arr_ok flex (str_ok flex)) [] (topic_names x) ∧
  is_i32 (timeout_ms x) ∧
  in_version flex tags_ok [] (unknown_tagged_fields x).

Lemma delete_topics_request_DeleteTopicsRequest_agrees {R : Runtime} version x :
  valid version x → pairs (encode version x) (decode_with_budget version) x.
Proof.
  unfold valid, encode, decode_with_budget, is_flexible. cbv zeta. agree. by destruct x.
Qed.
#[global] Hint Resolve delete_topics_request_DeleteTopicsRequest_agrees : fields.

Lemma delete_topics_request_DeleteTopicsRequest_settles {R : Runtime} version :
  settles (encode version) (valid version) (decode_with_budget version).
Proof. unfold valid, encode, decode_with_budget, is_flexible. cbv zeta. settle. Qed.
#[global] Hint Resolve delete_topics_request_DeleteTopicsRequest_settles : settles.

End DeleteTopicsRequest.

Lemma DeleteTopicsRequest_agrees (R : Runtime) version x :
  DeleteTopicsRequest.MIN_VERSION ≤ version ≤ DeleteTopicsRequest.MAX_VERSION → DeleteTopicsRequest.valid version x →
  pairs (DeleteTopicsRequest.encode version x) (DeleteTopicsRequest.decode_with_budget version) x.
Proof.
  intros _ ?. by apply DeleteTopicsRequest.delete_topics_request_DeleteTopicsRequest_agrees.
Qed.

#[global] Instance DeleteTopicsRequest_Message : Message DeleteTopicsRequest.t := {|
  Message.API_KEY := DeleteTopicsRequest.API_KEY;
  Message.MIN_VERSION := DeleteTopicsRequest.MIN_VERSION;
  Message.MAX_VERSION := DeleteTopicsRequest.MAX_VERSION;
  Message.encode := DeleteTopicsRequest.encode;
  Message.decode_with_budget := @DeleteTopicsRequest.decode_with_budget;
  Message.throttle_time_ms := λ _, None;
  Message.valid := DeleteTopicsRequest.valid;
  Message.agrees := DeleteTopicsRequest_agrees;
  Message.settled := @DeleteTopicsRequest.delete_topics_request_DeleteTopicsRequest_settles |}.
#[global] Instance DeleteTopicsRequest_Default : Default DeleteTopicsRequest.t := DeleteTopicsRequest.default.

End delete_topics_request.

(** ** [delete_topics_response.rs] *)

Module delete_topics_response.

Definition is_flexible (version : Z) : bool := version >=? 4.

Module DeletableTopicResult.

Record t : Type := mk {
  name : option string;
  topic_id : list byte;
  error_code : Z;
  error_message : option string;
  unknown_tagged_fields : list RawTaggedField;
}.
#[global] Instance t_eq_dec : EqDecision t.
Proof. solve_decision. Defined.

Definition default : t := {|
  name := (Some "");
  topic_id := (replicate 16 Byte.x00);
  error_code := 0;
  error_message := None;
  unknown_tagged_fields := [] |}.

Definition encode (version : Z) (x : t) : enc :=
  let flex := is_flexible version in
  (enc_guard (is_none (name x) && negb (version >=? 6)) (NullField "Name") ;; put_flex_nullable_string flex (name x)) ;;
  put_if (version >=? 6) (put_uuid (topic_id x)) ;;
  put_i16 (error_code x) ;;
  put_if (version >=? 5) (put_flex_nullable_string flex (error_message x)) ;;
  put_if flex (put_tagged_fields (unknown_tagged_fields x)) ;;
  enc_ret.

Section decode.
Context {R : Runtime}.

Definition decode_with_budget (version : Z) : bdec t :=
  let flex := is_flexible version in
  let* name := get_checked (version >=? 6) (get_flex_nullable_string flex) in
  let* topic_id := get_if (version >=? 6) (replicate 16 Byte.x00) (lift get_uuid) in
  let* error_code := lift get_i16 in
  let* error_message := get_if (version >=? 5) None (get_flex_nullable_string flex) in
  let* unknown_tagged_fields := get_if flex [] get_tagged_fields_with_budget in
  bdec_ret (mk name topic_id error_code error_message unknown_tagged_fields).

Definition decode_with_limits (version : Z) : Limits → dec t :=
  with_limits (decode_with_budget version).
Definition decode (version : Z) : dec t := with_default_limits (decode_with_budget version).

End decode.

Definition valid (version : Z) (x : t) : Prop :=
  let flex := is_flexible version in
  opt_valid (version >=? 6) (str_ok flex) (name x) ∧
  in_version (version >=? 6) uuid_ok (replicate 16 Byte.x00) (topic_id x) ∧
  is_i16 (error_code x) ∧
  in_version (version >=? 5) (opt_valid true (str_ok flex)) None (error_message x) ∧
  in_version flex tags_ok [] (unknown_tagged_fields x).

Lemma delete_topics_response_DeletableTopicResult_agrees {R : Runtime} version x :
  valid version x → pairs1 (encode version x) (decode_with_budget version) x.
Proof.
  unfold valid, encode, decode_with_budget, is_flexible. cbv zeta. agree1; by destruct x.
Qed.
#[global] Hint Resolve delete_topics_response_DeletableTopicResult_agrees : fields.

Lemma delete_topics_response_DeletableTopicResult_settles {R : Runtime} version :
  settles (encode version) (valid version) (decode_with_budget version).
Proof. unfold valid, encode, decode_with_budget, is_flexible. cbv zeta. settle. Qed.
#[global] Hint Resolve delete_topics_response_DeletableTopicResult_settles : settles.

End DeletableTopicResult.

Module DeleteTopicsResponse.

Record t : Type := mk {
  throttle_time_ms : Z;
  responses : list DeletableTopicResult.t;
  unknown_tagged_fields : list RawTaggedField;
}.
#[global] Instance t_eq_dec : EqDecision t.
Proof. solve_decision. Defined.

Definition default : t := {|
  throttle_time_ms := 0;
  responses := [];
  unknown_tagged_fields := [] |}.

Definition API_KEY : Z := 20.
Definition MIN_VERSION : Z := 1.
Definition MAX_VERSION : Z := 6.

Definition encode (version : Z) (x : t) : enc :=
  let flex := is_flexible version in
  put_i32 (throttle_time_ms x) ;;
  put_flex_array flex (DeletableTopicResult.encode version) (responses x) ;;
  put_if flex (put_tagged_fields (unknown_tagged_fields x)) ;;
  enc_ret.

Section decode.
Context {R : Runtime}.

Definition decode_with_budget (version : Z) : bdec t :=
  let flex := is_flexible version in
  let* throttle_time_ms := lift get_i32 in
  let* responses := get_flex_structs flex "DeletableTopicResult" (DeletableTopicResult.decode_with_budget version) in
  let* unknown_tagged_fields := get_if flex [] get_tagged_fields_with_budget in
  bdec_ret (mk throttle_time_ms responses unknown_tagged_fields).

Definition decode_with_limits (version : Z) : Limits → dec t :=
  with_limits (decode_with_budget version).
Definition decode (version : Z) : dec t := with_default_limits (decode_with_budget version).

End decode.

Definition valid (version : Z) (x : t) : Prop :=
  let flex := is_flexible version in
  is_i32 (throttle_time_ms x) ∧
  arr_ok flex (DeletableTopicResult.valid version) (responses x) ∧
  in_version flex tags_ok [] (unknown_tagged_fields x).

Lemma delete_topics_response_DeleteTopicsResponse_agrees {R : Runtime} version x :
  valid version x → pairs (encode version x) (decode_with_budget version) x.
Proof.
  unfold valid, encode, decode_with_budget, is_flexible. cbv zeta. agree. by destruct x.
Qed.
#[global] Hint Resolve delete_topics_response_DeleteTopicsResponse_agrees : fields.

Lemma delete_topics_response_DeleteTopicsResponse_settles {R : Runtime} version :
  settles (encode version) (valid version) (decode_with_budget version).
Proof. unfold valid, encode, decode_with_budget, is_flexible. cbv zeta. settle. Qed.
#[global] Hint Resolve delete_topics_response_DeleteTopicsResponse_settles : settles.

End DeleteTopicsResponse.

Lemma DeleteTopicsResponse_agrees (R : Runtime) version x :
  DeleteTopicsResponse.MIN_VERSION ≤ version ≤ DeleteTopicsResponse.MAX_VERSION → DeleteTopicsResponse.valid version x →
  pairs (DeleteTopicsResponse.encode version x) (DeleteTopicsResponse.decode_with_budget version) x.
Proof.
  intros _ ?. by apply DeleteTopicsResponse.delete_topics_response_DeleteTopicsResponse_agrees.
Qed.

#[global] Instance DeleteTopicsResponse_Message : Message DeleteTopicsResponse.t := {|
  Message.API_KEY := DeleteTopicsResponse.API_KEY;
  Message.MIN_VERSION := DeleteTopicsResponse.MIN_VERSION;
  Message.MAX_VERSION := DeleteTopicsResponse.MAX_VERSION;
  Message.encode := DeleteTopicsResponse.encode;
  Message.decode_with_budget := @DeleteTopicsResponse.decode_with_budget;
  Message.throttle_time_ms := λ x, Some (DeleteTopicsResponse.throttle_time_ms x);
  Message.valid := DeleteTopicsResponse.valid;
  Message.agrees := DeleteTopicsResponse_agrees;
  Message.settled := @DeleteTopicsResponse.delete_topics_response_DeleteTopicsResponse_settles |}.
#[global] Instance DeleteTopicsResponse_Default : Default DeleteTopicsResponse.t := DeleteTopicsResponse.default.

End delete_topics_response.

(** ** [describe_configs_request.rs] *)

Module describe_configs_request.

Definition is_flexible (version : Z) : bool := version >=? 4.

Module DescribeConfigsResource.

Record t : Type := mk {
  resource_type : Z;
  resource_name : string;
  configuration_keys : option (list string);
  unknown_tagged_fields : list RawTaggedField;
}.
#[global] Instance t_eq_dec : EqDecision t.
Proof. solve_decision. Defined.

Definition default : t := {|
  resource_type := 0;
  resource_name := "";
  configuration_keys := (Some []);
  unknown_tagged_fields := [] |}.

Definition encode (version : Z) (x : t) : enc :=
  let flex := is_flexible version in
  put_i8 (resource_type x) ;;
  put_flex_string flex (resource_name x) ;;
  put_flex_nullable_array flex true "" (put_flex_string flex) (configuration_keys x) ;;
  put_if flex (put_tagged_fields (unknown_tagged_fields x)) ;;
  enc_ret.

Section decode.
Context {R : Runtime}.

Definition decode_with_budget (version : Z) : bdec t :=
  let flex := is_flexible version in
  let* resource_type := lift get_i8 in
  let* resource_name := get_flex_string flex in
  let* configuration_keys := get_flex_nullable_items flex true "String" (get_flex_string flex) in
  let* unknown_tagged_fields := get_if flex [] get_tagged_fields_with_budget in
  bdec_ret (mk resource_type resource_name configuration_keys unknown_tagged_fields).

Definition decode_with_limits (version : Z) : Limits → dec t :=
  with_limits (decode_with_budget version).
Definition decode (version : Z) : dec t := with_default_limits (decode_with_budget version).

End decode.

Definition valid (version : Z) (x : t) : Prop :=
  let flex := is_flexible version in
  is_i8 (resource_type x) ∧
  str_ok flex (resource_name x) ∧
  opt_valid true (arr_ok flex (str_ok flex)) (configuration_keys x) ∧
  in_version flex tags_ok [] (unknown_tagged_fields x).

Lemma describe_configs_request_DescribeConfigsResource_agrees {R : Runtime} version x :
  valid version x → pairs1 (encode version x) (decode_with_budget version) x.
Proof.
  unfold valid, encode, decode_with_budget, is_flexible. cbv zeta. agree1; by destruct x.
Qed.
#[global] Hint Resolve describe_configs_request_DescribeConfigsResource_agrees : fields.

Lemma describe_configs_request_DescribeConfigsResource_settles {R : Runtime} version :
  settles (encode version) (valid version) (decode_with_budget version).
Proof. unfold valid, encode, decode_with_budget, is_flexible. cbv zeta. settle. Qed.
#[global] Hint Resolve describe_configs_request_DescribeConfigsResource_settles : settles.

End DescribeConfigsResource.

Module DescribeConfigsRequest.

Record t : Type := mk {
  resources : list DescribeConfigsResource.t;
  include_synonyms : bool;
  include_documentation : bool;
  unknown_tagged_fields : list RawTaggedField;
}.
#[global] Instance t_eq_dec : EqDecision t.
Proof. solve_decision. Defined.

Definition default : t := {|
  resources := [];
  include_synonyms := false;
  include_documentation := false;
  unknown_tagged_fields := [] |}.

Definition API_KEY : Z := 32.
Definition MIN_VERSION : Z := 1.
Definition MAX_VERSION : Z := 4.

Definition encode (version : Z) (x : t) : enc :=
  let flex := is_flexible version in
  put_flex_array flex (DescribeConfigsResource.encode version) (resources x) ;;
  put_bool (include_synonyms x) ;;
  put_if (version >=? 3) (put_bool (include_documentation x)) ;;
  put_if flex (put_tagged_fields (unknown_tagged_fields x)) ;;
  enc_ret.

Section decode.
Context {R : Runtime}.

Definition decode_with_budget (version : Z) : bdec t :=
  let flex := is_flexible version in
  let* resources := get_flex_structs flex "DescribeConfigsResource" (DescribeConfigsResource.decode_with_budget version) in
  let* include_synonyms := lift get_bool in
  let* include_documentation := get_if (version >=? 3) false (lift get_bool) in
  let* unknown_tagged_fields := get_if flex [] get_tagged_fields_with_budget in
  bdec_ret (mk resources include_synonyms include_documentation unknown_tagged_fields).

Definition decode_with_limits (version : Z) : Limits → dec t :=
  with_limits (decode_with_budget version).
Definition decode (version : Z) : dec t := with_default_limits (decode_with_budget version).

End decode.

Definition valid (version : Z) (x : t) : Prop :=
  let flex := is_flexible version in
  arr_ok flex (DescribeConfigsResource.valid version) (resources x) ∧
  any (include_synonyms x) ∧
  in_version (version >=? 3) any false (include_documentation x) ∧
  in_version flex tags_ok [] (unknown_tagged_fields x).

Lemma describe_configs_request_DescribeConfigsRequest_agrees {R : Runtime} version x :
  valid version x → pairs (encode version x) (decode_with_budget version) x.
Proof.
  unfold valid, encode, decode_with_budget, is_flexible. cbv zeta. agree. by destruct x.
Qed.
#[global] Hint Resolve describe_configs_request_DescribeConfigsRequest_agrees : fields.

Lemma describe_configs_request_DescribeConfigsRequest_settles {R : Runtime} version :
  settles (encode version) (valid version) (decode_with_budget version).
Proof. unfold valid, encode, decode_with_budget, is_flexible. cbv zeta. settle. Qed.
#[global] Hint Resolve describe_configs_request_DescribeConfigsRequest_settles : settles.

End DescribeConfigsRequest.

Lemma DescribeConfigsRequest_agrees (R : Runtime) version x :
  DescribeConfigsRequest.MIN_VERSION ≤ version ≤ DescribeConfigsRequest.MAX_VERSION → DescribeConfigsRequest.valid version x →
  pairs (DescribeConfigsRequest.encode version x) (DescribeConfigsRequest.decode_with_budget version) x.
Proof.
  intros _ ?. by apply DescribeConfigsRequest.describe_configs_request_DescribeConfigsRequest_agrees.
Qed.

#[global] Instance DescribeConfigsRequest_Message : Message DescribeConfigsRequest.t := {|
  Message.API_KEY := DescribeConfigsRequest.API_KEY;
  Message.MIN_VERSION := DescribeConfigsRequest.MIN_VERSION;
  Message.MAX_VERSION := DescribeConfigsRequest.MAX_VERSION;
  Message.encode := DescribeConfigsRequest.encode;
  Message.decode_with_budget := @DescribeConfigsRequest.decode_with_budget;
  Message.throttle_time_ms := λ _, None;
  Message.valid := DescribeConfigsRequest.valid;
  Message.agrees := DescribeConfigsRequest_agrees;
  Message.settled := @DescribeConfigsRequest.describe_configs_request_DescribeConfigsRequest_settles |}.
#[global] Instance DescribeConfigsRequest_Default : Default DescribeConfigsRequest.t := DescribeConfigsRequest.default.

End describe_configs_request.

(** ** [describe_configs_response.rs] *)

Module describe_configs_response.

Definition is_flexible (version : Z) : bool := version >=? 4.

Module DescribeConfigsSynonym.

Record t : Type := mk {
  name : string;
  value : option string;
  source : Z;
  unknown_tagged_fields : list RawTaggedField;
}.
#[global] Instance t_eq_dec : EqDecision t.
Proof. solve_decision. Defined.

Definition default : t := {|
  name := "";
  value := (Some "");
  source := 0;
  unknown_tagged_fields := [] |}.

Definition encode (version : Z) (x : t) : enc :=
  let flex := is_flexible version in
  put_flex_string flex (name x) ;;
  put_flex_nullable_string flex (value x) ;;
  put_i8 (source x) ;;
  put_if flex (put_tagged_fields (unknown_tagged_fields x)) ;;
  enc_ret.

Section decode.
Context {R : Runtime}.

Definition decode_with_budget (version : Z) : bdec t :=
  let flex := is_flexible version in
  let* name := get_flex_string flex in
  let* value := get_flex_nullable_string flex in
  let* source := lift get_i8 in
  let* unknown_tagged_fields := get_if flex [] get_tagged_fields_with_budget in
  bdec_ret (mk name value source unknown_tagged_fields).

Definition decode_with_limits (version : Z) : Limits → dec t :=
  with_limits (decode_with_budget version).
Definition decode (version : Z) : dec t := with_default_limits (decode_with_budget version).

End decode.

Definition valid (version : Z) (x : t) : Prop :=
  let flex := is_flexible version in
  str_ok flex (name x) ∧
  opt_valid true (str_ok flex) (value x) ∧
  is_i8 (source x) ∧
  in_version flex tags_ok [] (unknown_tagged_fields x).

Lemma describe_configs_response_DescribeConfigsSynonym_agrees {R : Runtime} version x :
  valid version x → pairs1 (encode version x) (decode_with_budget version) x.
Proof.
  unfold valid, encode, decode_with_budget, is_flexible. cbv zeta. agree1; by destruct x.
Qed.
#[global] Hint Resolve describe_configs_response_DescribeConfigsSynonym_agrees : fields.

Lemma describe_configs_response_DescribeConfigsSynonym_settles {R : Runtime} version :
  settles (encode version) (valid version) (decode_with_budget version).
Proof. unfold valid, encode, decode_with_budget, is_flexible. cbv zeta. settle. Qed.
#[global] Hint Resolve describe_configs_response_DescribeConfigsSynonym_settles : settles.

End DescribeConfigsSynonym.

Module DescribeConfigsResourceResult.

Record t : Type := mk {
  name : string;
  value : option string;
  read_only : bool;
  config_source : Z;
  is_sensitive : bool;
  synonyms : list DescribeConfigsSynonym.t;
  config_type : Z;
  documentation : option string;
  unknown_tagged_fields : list RawTaggedField;
}.
#[global] Instance t_eq_dec : EqDecision t.
Proof. solve_decision. Defined.

Definition default : t := {|
  name := "";
  value := (Some "");
  read_only := false;
  config_source := (-1);
  is_sensitive := false;
  synonyms := [];
  config_type := 0;
  documentation := (Some "");
  unknown_tagged_fields := [] |}.

Definition encode (version : Z) (x : t) : enc :=
  let flex := is_flexible version in
  put_flex_string flex (name x) ;;
  put_flex_nullable_string flex (value x) ;;
  put_bool (read_only x) ;;
  put_i8 (config_source x) ;;
  put_bool (is_sensitive x) ;;
  put_flex_array flex (DescribeConfigsSynonym.encode version) (synonyms x) ;;
  put_if (version >=? 3) (put_i8 (config_type x)) ;;
  put_if (version >=? 3) (put_flex_nullable_string flex (documentation x)) ;;
  put_if flex (put_tagged_fields (unknown_tagged_fields x)) ;;
  enc_ret.

Section decode.
Context {R : Runtime}.

Definition decode_with_budget (version : Z) : bdec t :=
  let flex := is_flexible version in
  let* name := get_flex_string flex in
  let* value := get_flex_nullable_string flex in
  let* read_only := lift get_bool in
  let* config_source := lift get_i8 in
  let* is_sensitive := lift get_bool in
  let* synonyms := get_flex_structs flex "DescribeConfigsSynonym" (DescribeConfigsSynonym.decode_with_budget version) in
  let* config_type := get_if (version >=? 3) 0 (lift get_i8) in
  let* documentation := get_if (version >=? 3) (Some "") (get_flex_nullable_string flex) in
  let* unknown_tagged_fields := get_if flex [] get_tagged_fields_with_budget in
  bdec_ret (mk name value read_only config_source is_sensitive synonyms config_type documentation unknown_tagged_fields).

Definition decode_with_limits (version : Z) : Limits → dec t :=
  with_limits (decode_with_budget version).
Definition decode (version : Z) : dec t := with_default_limits (decode_with_budget version).

End decode.

Definition valid (version : Z) (x : t) : Prop :=
  let flex := is_flexible version in
  str_ok flex (name x) ∧
  opt_valid true (str_ok flex) (value x) ∧
  any (read_only x) ∧
  is_i8 (config_source x) ∧
  any (is_sensitive x) ∧
  arr_ok flex (DescribeConfigsSynonym.valid version) (synonyms x) ∧
  in_version (version >=? 3) is_i8 0 (config_type x) ∧
  in_version (version >=? 3) (opt_valid true (str_ok flex)) (Some "") (documentation x) ∧
  in_version flex tags_ok [] (unknown_tagged_fields x).

Lemma describe_configs_response_DescribeConfigsResourceResult_agrees {R : Runtime} version x :
  valid version x → pairs1 (encode version x) (decode_with_budget version) x.
Proof.
  unfold valid, encode, decode_with_budget, is_flexible. cbv zeta. agree1; by destruct x.
Qed.
#[global] Hint Resolve describe_configs_response_DescribeConfigsResourceResult_agrees : fields.

Lemma describe_configs_response_DescribeConfigsResourceResult_settles {R : Runtime} version :
  settles (encode version) (valid version) (decode_with_budget version).
Proof. unfold valid, encode, decode_with_budget, is_flexible. cbv zeta. settle. Qed.
#[global] Hint Resolve describe_configs_response_DescribeConfigsResourceResult_settles : settles.

End DescribeConfigsResourceResult.

Module DescribeConfigsResult.

Record t : Type := mk {
  error_code : Z;
  error_message : option string;
  resource_type : Z;
  resource_name : string;
  configs : list DescribeConfigsResourceResult.t;
  unknown_tagged_fields : list RawTaggedField;
}.
#[global] Instance t_eq_dec : EqDecision t.
Proof. solve_decision. Defined.

Definition default : t := {|
  error_code := 0;
  error_message := (Some "");
  resource_type := 0;
  resource_name := "";
  configs := [];
  unknown_tagged_fields := [] |}.

Definition encode (version : Z) (x : t) : enc :=
  let flex := is_flexible version in
  put_i16 (error_code x) ;;
  put_flex_nullable_string flex (error_message x) ;;
  put_i8 (resource_type x) ;;
  put_flex_string flex (resource_name x) ;;
  put_flex_array flex (DescribeConfigsResourceResult.encode version) (configs x) ;;
  put_if flex (put_tagged_fields (unknown_tagged_fields x)) ;;
  enc_ret.

Section decode.
Context {R : Runtime}.

Definition decode_with_budget (version : Z) : bdec t :=
  let flex := is_flexible version in
  let* error_code := lift get_i16 in
  let* error_message := get_flex_nullable_string flex in
  let* resource_type := lift get_i8 in
  let* resource_name := get_flex_string flex in
  let* configs := get_flex_structs flex "DescribeConfigsResourceResult" (DescribeConfigsResourceResult.decode_with_budget version) in
  let* unknown_tagged_fields := get_if flex [] get_tagged_fields_with_budget in
  bdec_ret (mk error_code error_message resource_type resource_name configs unknown_tagged_fields).

Definition decode_with_limits (version : Z) : Limits → dec t :=
  with_limits (decode_with_budget version).
Definition decode (version : Z) : dec t := with_default_limits (decode_with_budget version).

End decode.

Definition valid (version : Z) (x : t) : Prop :=
  let flex := is_flexible version in
  is_i16 (error_code x) ∧
  opt_valid true (str_ok flex) (error_message x) ∧
  is_i8 (resource_type x) ∧
  str_ok flex (resource_name x) ∧
  arr_ok flex (DescribeConfigsResourceResult.valid version) (configs x) ∧
  in_version flex tags_ok [] (unknown_tagged_fields x).

Lemma describe_configs_response_DescribeConfigsResult_agrees {R : Runtime} version x :
  valid version x → pairs1 (encode version x) (decode_with_budget version) x.
Proof.
  unfold valid, encode, decode_with_budget, is_flexible. cbv zeta. agree1; by destruct x.
Qed.
#[global] Hint Resolve describe_configs_response_DescribeConfigsResult_agrees : fields.

Lemma describe_configs_response_DescribeConfigsResult_settles {R : Runtime} version :
  settles (encode version) (valid version) (decode_with_budget version).
Proof. unfold valid, encode, decode_with_budget, is_flexible. cbv zeta. settle. Qed.
#[global] Hint Resolve describe_configs_response_DescribeConfigsResult_settles : settles.

End DescribeConfigsResult.

Module DescribeConfigsResponse.

Record t : Type := mk {
  throttle_time_ms : Z;
  results : list DescribeConfigsResult.t;
  unknown_tagged_fields : list RawTaggedField;
}.
#[global] Instance t_eq_dec : EqDecision t.
Proof. solve_decision. Defined.

Definition default : t := {|
  throttle_time_ms := 0;
  results := [];
  unknown_tagged_fields := [] |}.

Definition API_KEY : Z := 32.
Definition MIN_VERSION : Z := 1.
Definition MAX_VERSION : Z := 4.

Definition encode (version : Z) (x : t) : enc :=
  let flex := is_flexible version in
  put_i32 (throttle_time_ms x) ;;
  put_flex_array flex (DescribeConfigsResult.encode version) (results x) ;;
  put_if flex (put_tagged_fields (unknown_tagged_fields x)) ;;
  enc_ret.

Section decode.
Context {R : Runtime}.

Definition decode_with_budget (version : Z) : bdec t :=
  let flex := is_flexible version in
  let* throttle_time_ms := lift get_i32 in
  let* results := get_flex_structs flex "DescribeConfigsResult" (DescribeConfigsResult.decode_with_budget version) in
  let* unknown_tagged_fields := get_if flex [] get_tagged_fields_with_budget in
  bdec_ret (mk throttle_time_ms results unknown_tagged_fields).

Definition decode_with_limits (version : Z) : Limits → dec t :=
  with_limits (decode_with_budget version).
Definition decode (version : Z) : dec t := with_default_limits (decode_with_budget version).

End decode.

Definition valid (version : Z) (x : t) : Prop :=
  let flex := is_flexible version in
  is_i32 (throttle_time_ms x) ∧
  arr_ok flex (DescribeConfigsResult.valid version) (results x) ∧
  in_version flex tags_ok [] (unknown_tagged_fields x).

Lemma describe_configs_response_DescribeConfigsResponse_agrees {R : Runtime} version x :
  valid version x → pairs (encode version x) (decode_with_budget version) x.
Proof.
  unfold valid, encode, decode_with_budget, is_flexible. cbv zeta. agree. by destruct x.
Qed.
#[global] Hint Resolve describe_configs_response_DescribeConfigsResponse_agrees : fields.

Lemma describe_configs_response_DescribeConfigsResponse_settles {R : Runtime} version :
  settles (encode version) (valid version) (decode_with_budget version).
Proof. unfold valid, encode, decode_with_budget, is_flexible. cbv zeta. settle. Qed.
#[global] Hint Resolve describe_configs_response_DescribeConfigsResponse_settles : settles.

End DescribeConfigsResponse.

Lemma DescribeConfigsResponse_agrees (R : Runtime) version x :
  DescribeConfigsResponse.MIN_VERSION ≤ version ≤ DescribeConfigsResponse.MAX_VERSION → DescribeConfigsResponse.valid version x →
  pairs (DescribeConfigsResponse.encode version x) (DescribeConfigsResponse.decode_with_budget version) x.
Proof.
  intros _ ?. by apply DescribeConfigsResponse.describe_configs_response_DescribeConfigsResponse_agrees.
Qed.

#[global] Instance DescribeConfigsResponse_Message : Message DescribeConfigsResponse.t := {|
  Message.API_KEY := DescribeConfigsResponse.API_KEY;
  Message.MIN_VERSION := DescribeConfigsResponse.MIN_VERSION;
  Message.MAX_VERSION := DescribeConfigsResponse.MAX_VERSION;
  Message.encode := DescribeConfigsResponse.encode;
  Message.decode_with_budget := @DescribeConfigsResponse.decode_with_budget;
  Message.throttle_time_ms := λ x, Some (DescribeConfigsResponse.throttle_time_ms x);
  Message.valid := DescribeConfigsResponse.valid;
  Message.agrees := DescribeConfigsResponse_agrees;
  Message.settled := @DescribeConfigsResponse.describe_configs_response_DescribeConfigsResponse_settles |}.
#[global] Instance DescribeConfigsResponse_Default : Default DescribeConfigsResponse.t := DescribeConfigsResponse.default.

End describe_configs_response.
