(* ===== verification/MsgFetch.v ===== *)
(** * Fetch messages

    [fetch_request.rs], [fetch_response.rs]
    of [odradek-protocol/src/messages/]: each message a Module named after its
    file, each struct a Module with its record [t], its defaults, its encoder and
    decoder, what makes a value representable at a version ([valid]) and the
    agreement of the two. *)
From S2P Require Import Prelude Budget Codec Wire Fields KnownTags Settles MessageTrait.

(** ** [fetch_request.rs] *)

Module fetch_request.

Definition is_flexible (version : Z) : bool := version >=? 12.

Module FetchPartition.

Record t : Type := mk {
  partition : Z;
  current_leader_epoch : Z;
  fetch_offset : Z;
  last_fetched_epoch : Z;
  log_start_offset : Z;
  partition_max_bytes : Z;
  replica_directory_id : option (list byte);
  high_watermark : option Z;
  unknown_tagged_fields : list RawTaggedField;
}.
#[global] Instance t_eq_dec : EqDecision t.
Proof. solve_decision. Defined.

Definition default : t := {|
  partition := 0;
  current_leader_epoch := (-1);
  fetch_offset := 0;
  last_fetched_epoch := (-1);
  log_start_offset := (-1);
  partition_max_bytes := 0;
  replica_directory_id := None;
  high_watermark := None;
  unknown_tagged_fields := [] |}.

Definition encode (version : Z) (x : t) : enc :=
  let flex := is_flexible version in
  put_i32 (partition x) ;;
  put_if (version >=? 9) (put_i32 (current_leader_epoch x)) ;;
  put_i64 (fetch_offset x) ;;
  put_if (version >=? 12) (put_i32 (last_fetched_epoch x)) ;;
  put_if (version >=? 5) (put_i64 (log_start_offset x)) ;;
  put_i32 (partition_max_bytes x) ;;
  put_if flex (put_known_tags (unknown_tagged_fields x)
    [tag_field (version >=? 17) 0 put_uuid (replica_directory_id x);
     tag_field (version >=? 18) 1 put_i64 (high_watermark x)]) ;;
  enc_ret.

Section decode.
Context {R : Runtime}.

Definition known_tags (version : Z) :=
  let flex := is_flexible version in
  known_tag (version >=? 17) 0 (lift get_uuid) (
  known_tag (version >=? 18) 1 (lift get_i64) no_tags).

Definition decode_with_budget (version : Z) : bdec t :=
  let flex := is_flexible version in
  let* partition := lift get_i32 in
  let* current_leader_epoch := get_if (version >=? 9) (-1) (lift get_i32) in
  let* fetch_offset := lift get_i64 in
  let* last_fetched_epoch := get_if (version >=? 12) (-1) (lift get_i32) in
  let* log_start_offset := get_if (version >=? 5) (-1) (lift get_i64) in
  let* partition_max_bytes := lift get_i32 in
  let* ((replica_directory_id, (high_watermark, tt)), unknown_tagged_fields) :=
    get_if flex ((None, (None, tt)), []) (get_known_tags (known_tags version)) in
  bdec_ret (mk partition current_leader_epoch fetch_offset last_fetched_epoch log_start_offset partition_max_bytes replica_directory_id high_watermark unknown_tagged_fields).

Definition decode_with_limits (version : Z) : Limits → dec t :=
  with_limits (decode_with_budget version).
Definition decode (version : Z) : dec t := with_default_limits (decode_with_budget version).

End decode.

Definition valid (version : Z) (x : t) : Prop :=
  let flex := is_flexible version in
  is_i32 (partition x) ∧
  in_version (version >=? 9) is_i32 (-1) (current_leader_epoch x) ∧
  is_i64 (fetch_offset x) ∧
  in_version (version >=? 12) is_i32 (-1) (last_fetched_epoch x) ∧
  in_version (version >=? 5) is_i64 (-1) (log_start_offset x) ∧
  is_i32 (partition_max_bytes x) ∧
  in_version flex (λ _,
    in_version (version >=? 17) (tag_valid uuid_ok put_uuid) None (replica_directory_id x) ∧
    in_version (version >=? 18) (tag_valid is_i64 put_i64) None (high_watermark x) ∧
    unknown_ok (known_list (version >=? 17) 0 (known_list (version >=? 18) 1 [])) (unknown_tagged_fields x))
    ((None, (None, tt)), []) ((replica_directory_id x, (high_watermark x, tt)), unknown_tagged_fields x).

Lemma fetch_request_FetchPartition_agrees {R : Runtime} version x :
  valid version x → pairs1 (encode version x) (decode_with_budget version) x.
Proof.
  unfold valid, encode, decode_with_budget, is_flexible. cbv zeta. agree1; by destruct x.
Qed.
#[global] Hint Resolve fetch_request_FetchPartition_agrees : fields.

Lemma fetch_request_FetchPartition_settles {R : Runtime} version :
  settles (encode version) (valid version) (decode_with_budget version).
Proof. unfold valid, encode, decode_with_budget, is_flexible. cbv zeta. settle. Qed.
#[global] Hint Resolve fetch_request_FetchPartition_settles : settles.

End FetchPartition.

Module FetchTopic.

Record t : Type := mk {
  topic : string;
  topic_id : list byte;
  partitions : list FetchPartition.t;
  unknown_tagged_fields : list RawTaggedField;
}.
#[global] Instance t_eq_dec : EqDecision t.
Proof. solve_decision. Defined.

Definition default : t := {|
  topic := "";
  topic_id := (replicate 16 Byte.x00);
  partitions := [];
  unknown_tagged_fields := [] |}.

Definition encode (version : Z) (x : t) : enc :=
  let flex := is_flexible version in
  put_if (version <=? 12) (put_flex_string flex (topic x)) ;;
  put_if (version >=? 13) (put_uuid (topic_id x)) ;;
  put_flex_array flex (FetchPartition.encode version) (partitions x) ;;
  put_if flex (put_tagged_fields (unknown_tagged_fields x)) ;;
  enc_ret.

Section decode.
Context {R : Runtime}.

Definition decode_with_budget (version : Z) : bdec t :=
  let flex := is_flexible version in
  let* topic := get_if (version <=? 12) "" (get_flex_string flex) in
  let* topic_id := get_if (version >=? 13) (replicate 16 Byte.x00) (lift get_uuid) in
  let* partitions := get_flex_structs flex "FetchPartition" (FetchPartition.decode_with_budget version) in
  let* unknown_tagged_fields := get_if flex [] get_tagged_fields_with_budget in
  bdec_ret (mk topic topic_id partitions unknown_tagged_fields).

Definition decode_with_limits (version : Z) : Limits → dec t :=
  with_limits (decode_with_budget version).
Definition decode (version : Z) : dec t := with_default_limits (decode_with_budget version).

End decode.

Definition valid (version : Z) (x : t) : Prop :=
  let flex := is_flexible version in
  in_version (version <=? 12) (str_ok flex) "" (topic x) ∧
  in_version (version >=? 13) uuid_ok (replicate 16 Byte.x00) (topic_id x) ∧
  arr_ok flex (FetchPartition.valid version) (partitions x) ∧
  in_version flex tags_ok [] (unknown_tagged_fields x).

Lemma fetch_request_FetchTopic_agrees {R : Runtime} version x :
  valid version x → pairs1 (encode version x) (decode_with_budget version) x.
Proof.
  unfold valid, encode, decode_with_budget, is_flexible. cbv zeta. agree1; by destruct x.
Qed.
#[global] Hint Resolve fetch_request_FetchTopic_agrees : fields.

Lemma fetch_request_FetchTopic_settles {R : Runtime} version :
  settles (encode version) (valid version) (decode_with_budget version).
Proof. unfold valid, encode, decode_with_budget, is_flexible. cbv zeta. settle. Qed.
#[global] Hint Resolve fetch_request_FetchTopic_settles : settles.

End FetchTopic.

Module ForgottenTopic.

Record t : Type := mk {
  topic : string;
  topic_id : list byte;
  partitions : list Z;
  unknown_tagged_fields : list RawTaggedField;
}.
#[global] Instance t_eq_dec : EqDecision t.
Proof. solve_decision. Defined.

Definition default : t := {|
  topic := "";
  topic_id := (replicate 16 Byte.x00);
  partitions := [];
  unknown_tagged_fields := [] |}.

Definition encode (version : Z) (x : t) : enc :=
  let flex := is_flexible version in
  put_if ((7 <=? version) && (version <=? 12)) (put_flex_string flex (topic x)) ;;
  put_if (version >=? 13) (put_uuid (topic_id x)) ;;
  put_if (version >=? 7) (put_flex_array flex put_i32 (partitions x)) ;;
  put_if flex (put_tagged_fields (unknown_tagged_fields x)) ;;
  enc_ret.

Section decode.
Context {R : Runtime}.

Definition decode_with_budget (version : Z) : bdec t :=
  let flex := is_flexible version in
  let* topic := get_if ((7 <=? version) && (version <=? 12)) "" (get_flex_string flex) in
  let* topic_id := get_if (version >=? 13) (replicate 16 Byte.x00) (lift get_uuid) in
  let* partitions := get_if (version >=? 7) [] (get_flex_items flex "i32" (lift get_i32)) in
  let* unknown_tagged_fields := get_if flex [] get_tagged_fields_with_budget in
  bdec_ret (mk topic topic_id partitions unknown_tagged_fields).

Definition decode_with_limits (version : Z) : Limits → dec t :=
  with_limits (decode_with_budget version).
Definition decode (version : Z) : dec t := with_default_limits (decode_with_budget version).

End decode.

Definition valid (version : Z) (x : t) : Prop :=
  let flex := is_flexible version in
  in_version ((7 <=? version) && (version <=? 12)) (str_ok flex) "" (topic x) ∧
  in_version (version >=? 13) uuid_ok (replicate 16 Byte.x00) (topic_id x) ∧
  in_version (version >=? 7) (arr_ok flex is_i32) [] (partitions x) ∧
  in_version flex tags_ok [] (unknown_tagged_fields x).

Lemma fetch_request_ForgottenTopic_agrees {R : Runtime} version x :
  7 ≤ version →
  valid version x → pairs1 (encode version x) (decode_with_budget version) x.
Proof.
  intros ?. unfold valid, encode, decode_with_budget, is_flexible. cbv zeta. agree1; by destruct x.
Qed.
#[global] Hint Resolve fetch_request_ForgottenTopic_agrees : fields.

Lemma fetch_request_ForgottenTopic_settles {R : Runtime} version :
  settles (encode version) (valid version) (decode_with_budget version).
Proof. unfold valid, encode, decode_with_budget, is_flexible. cbv zeta. settle. Qed.
#[global] Hint Resolve fetch_request_ForgottenTopic_settles : settles.

End ForgottenTopic.

Module ReplicaState.

Record t : Type := mk {
  replica_id : Z;
  replica_epoch : Z;
  unknown_tagged_fields : list RawTaggedField;
}.
#[global] Instance t_eq_dec : EqDecision t.
Proof. solve_decision. Defined.

Definition default : t := {|
  replica_id := (-1);
  replica_epoch := (-1);
  unknown_tagged_fields := [] |}.

Definition encode (version : Z) (x : t) : enc :=
  let flex := is_flexible version in
  put_if (version >=? 15) (put_i32 (replica_id x)) ;;
  put_if (version >=? 15) (put_i64 (replica_epoch x)) ;;
  put_if flex (put_tagged_fields (unknown_tagged_fields x)) ;;
  enc_ret.

Section decode.
Context {R : Runtime}.

Definition decode_with_budget (version : Z) : bdec t :=
  let flex := is_flexible version in
  let* replica_id := get_if (version >=? 15) (-1) (lift get_i32) in
  let* replica_epoch := get_if (version >=? 15) (-1) (lift get_i64) in
  let* unknown_tagged_fields := get_if flex [] get_tagged_fields_with_budget in
  bdec_ret (mk replica_id replica_epoch unknown_tagged_fields).

Definition decode_with_limits (version : Z) : Limits → dec t :=
  with_limits (decode_with_budget version).
Definition decode (version : Z) : dec t := with_default_limits (decode_with_budget version).

End decode.

Definition valid (version : Z) (x : t) : Prop :=
  let flex := is_flexible version in
  in_version (version >=? 15) is_i32 (-1) (replica_id x) ∧
  in_version (version >=? 15) is_i64 (-1) (replica_epoch x) ∧
  in_version flex tags_ok [] (unknown_tagged_fields x).

Lemma fetch_request_ReplicaState_agrees {R : Runtime} version x :
  12 ≤ version →
  valid version x → pairs1 (encode version x) (decode_with_budget version) x.
Proof.
  intros ?. unfold valid, encode, decode_with_budget, is_flexible. cbv zeta. agree1; by destruct x.
Qed.
#[global] Hint Resolve fetch_request_ReplicaState_agrees : fields.

Lemma fetch_request_ReplicaState_settles {R : Runtime} version :
  settles (encode version) (valid version) (decode_with_budget version).
Proof. unfold valid, encode, decode_with_budget, is_flexible. cbv zeta. settle. Qed.
#[global] Hint Resolve fetch_request_ReplicaState_settles : settles.

End ReplicaState.

Module FetchRequest.

Record t : Type := mk {
  replica_id : Z;
  max_wait_ms : Z;
  min_bytes : Z;
  max_bytes : Z;
  isolation_level : Z;
  session_id : Z;
  session_epoch : Z;
  topics : list FetchTopic.t;
  forgotten_topics_data : list ForgottenTopic.t;
  rack_id : string;
  cluster_id : option (option string);
  replica_state : option ReplicaState.t;
  unknown_tagged_fields : list RawTaggedField;
}.
#[global] Instance t_eq_dec : EqDecision t.
Proof. solve_decision. Defined.

Definition default : t := {|
  replica_id := (-1);
  max_wait_ms := 0;
  min_bytes := 0;
  max_bytes := 2147483647;
  isolation_level := 0;
  session_id := 0;
  session_epoch := (-1);
  topics := [];
  forgotten_topics_data := [];
  rack_id := "";
  cluster_id := None;
  replica_state := None;
  unknown_tagged_fields := [] |}.

Definition API_KEY : Z := 1.
Definition MIN_VERSION : Z := 4.
Definition MAX_VERSION : Z := 18.

Definition encode (version : Z) (x : t) : enc :=
  let flex := is_flexible version in
  put_if (version <=? 14) (put_i32 (replica_id x)) ;;
  put_i32 (max_wait_ms x) ;;
  put_i32 (min_bytes x) ;;
  put_i32 (max_bytes x) ;;
  put_i8 (isolation_level x) ;;
  put_if (version >=? 7) (put_i32 (session_id x)) ;;
  put_if (version >=? 7) (put_i32 (session_epoch x)) ;;
  put_flex_array flex (FetchTopic.encode version) (topics x) ;;
  put_if (version >=? 7) (put_flex_array flex (ForgottenTopic.encode version) (forgotten_topics_data x)) ;;
  put_if (version >=? 11) (put_flex_string flex (rack_id x)) ;;
  put_if flex (put_known_tags (unknown_tagged_fields x)
    [tag_field (version >=? 12) 0 (put_flex_nullable_string flex) (cluster_id x);
     tag_field (version >=? 15) 1 (ReplicaState.encode version) (replica_state x)]) ;;
  enc_ret.

Section decode.
Context {R : Runtime}.

Definition known_tags (version : Z) :=
  let flex := is_flexible version in
  known_tag (version >=? 12) 0 (get_flex_nullable_string flex) (
  known_tag (version >=? 15) 1 (ReplicaState.decode_with_budget version) no_tags).

Definition decode_with_budget (version : Z) : bdec t :=
  let flex := is_flexible version in
  let* replica_id := get_if (version <=? 14) (-1) (lift get_i32) in
  let* max_wait_ms := lift get_i32 in
  let* min_bytes := lift get_i32 in
  let* max_bytes := lift get_i32 in
  let* isolation_level := lift get_i8 in
  let* session_id := get_if (version >=? 7) 0 (lift get_i32) in
  let* session_epoch := get_if (version >=? 7) (-1) (lift get_i32) in
  let* topics := get_flex_structs flex "FetchTopic" (FetchTopic.decode_with_budget version) in
  let* forgotten_topics_data := get_if (version >=? 7) [] (get_flex_structs flex "ForgottenTopic" (ForgottenTopic.decode_with_budget version)) in
  let* rack_id := get_if (version >=? 11) "" (get_flex_string flex) in
  let* ((cluster_id, (replica_state, tt)), unknown_tagged_fields) :=
    get_if flex ((None, (None, tt)), []) (get_known_tags (known_tags version)) in
  bdec_ret (mk replica_id max_wait_ms min_bytes max_bytes isolation_level session_id session_epoch topics forgotten_topics_data rack_id cluster_id replica_state unknown_tagged_fields).

Definition decode_with_limits (version : Z) : Limits → dec t :=
  with_limits (decode_with_budget version).
Definition decode (version : Z) : dec t := with_default_limits (decode_with_budget version).

End decode.

Definition valid (version : Z) (x : t) : Prop :=
  let flex := is_flexible version in
  in_version (version <=? 14) is_i32 (-1) (replica_id x) ∧
  is_i32 (max_wait_ms x) ∧
  is_i32 (min_bytes x) ∧
  is_i32 (max_bytes x) ∧
  is_i8 (isolation_level x) ∧
  in_version (version >=? 7) is_i32 0 (session_id x) ∧
  in_version (version >=? 7) is_i32 (-1) (session_epoch x) ∧
  arr_ok flex (FetchTopic.valid version) (topics x) ∧
  in_version (version >=? 7) (arr_ok flex (ForgottenTopic.valid version)) [] (forgotten_topics_data x) ∧
  in_version (version >=? 11) (str_ok flex) "" (rack_id x) ∧
  in_version flex (λ _,
    in_version (version >=? 12) (tag_valid (opt_valid true (str_ok flex)) (put_flex_nullable_string flex)) None (cluster_id x) ∧
    in_version (version >=? 15) (tag_valid (ReplicaState.valid version) (ReplicaState.encode version)) None (replica_state x) ∧
    unknown_ok (known_list (version >=? 12) 0 (known_list (version >=? 15) 1 [])) (unknown_tagged_fields x))
    ((None, (None, tt)), []) ((cluster_id x, (replica_state x, tt)), unknown_tagged_fields x).

Lemma fetch_request_FetchRequest_agrees {R : Runtime} version x :
  valid version x → pairs (encode version x) (decode_with_budget version) x.
Proof.
  unfold valid, encode, decode_with_budget, is_flexible. cbv zeta. agree. by destruct x.
Qed.
#[global] Hint Resolve fetch_request_FetchRequest_agrees : fields.

Lemma fetch_request_FetchRequest_settles {R : Runtime} version :
  settles (encode version) (valid version) (decode_with_budget version).
Proof. unfold valid, encode, decode_with_budget, is_flexible. cbv zeta. settle. Qed.
#[global] Hint Resolve fetch_request_FetchRequest_settles : settles.

End FetchRequest.

Lemma FetchRequest_agrees (R : Runtime) version x :
  FetchRequest.MIN_VERSION ≤ version ≤ FetchRequest.MAX_VERSION → FetchRequest.valid version x →
  pairs (FetchRequest.encode version x) (FetchRequest.decode_with_budget version) x.
Proof.
  intros _ ?. by apply FetchRequest.fetch_request_FetchRequest_agrees.
Qed.

#[global] Instance FetchRequest_Message : Message FetchRequest.t := {|
  Message.API_KEY := FetchRequest.API_KEY;
  Message.MIN_VERSION := FetchRequest.MIN_VERSION;
  Message.MAX_VERSION := FetchRequest.MAX_VERSION;
  Message.encode := FetchRequest.encode;
  Message.decode_with_budget := @FetchRequest.decode_with_budget;
  Message.throttle_time_ms := λ _, None;
  Message.valid := FetchRequest.valid;
  Message.agrees := FetchRequest_agrees;
  Message.settled := @FetchRequest.fetch_request_FetchRequest_settles |}.
#[global] Instance FetchRequest_Default : Default FetchRequest.t := FetchRequest.default.

End fetch_request.

(** ** [fetch_response.rs] *)

Module fetch_response.

Definition is_flexible (version : Z) : bool := version >=? 12.

Module AbortedTransaction.

Record t : Type := mk {
  producer_id : Z;
  first_offset : Z;
  unknown_tagged_fields : list RawTaggedField;
}.
#[global] Instance t_eq_dec : EqDecision t.
Proof. solve_decision. Defined.

Definition default : t := {|
  producer_id := 0;
  first_offset := 0;
  unknown_tagged_fields := [] |}.

Definition encode (version : Z) (x : t) : enc :=
  let flex := is_flexible version in
  put_i64 (producer_id x) ;;
  put_i64 (first_offset x) ;;
  put_if flex (put_tagged_fields (unknown_tagged_fields x)) ;;
  enc_ret.

Section decode.
Context {R : Runtime}.

Definition decode_with_budget (version : Z) : bdec t :=
  let flex := is_flexible version in
  let* producer_id := lift get_i64 in
  let* first_offset := lift get_i64 in
  let* unknown_tagged_fields := get_if flex [] get_tagged_fields_with_budget in
  bdec_ret (mk producer_id first_offset unknown_tagged_fields).

Definition decode_with_limits (version : Z) : Limits → dec t :=
  with_limits (decode_with_budget version).
Definition decode (version : Z) : dec t := with_default_limits (decode_with_budget version).

End decode.

Definition valid (version : Z) (x : t) : Prop :=
  let flex := is_flexible version in
  is_i64 (producer_id x) ∧
  is_i64 (first_offset x) ∧
  in_version flex tags_ok [] (unknown_tagged_fields x).

Lemma fetch_response_AbortedTransaction_agrees {R : Runtime} version x :
  valid version x → pairs1 (encode version x) (decode_with_budget version) x.
Proof.
  unfold valid, encode, decode_with_budget, is_flexible. cbv zeta. agree1; by destruct x.
Qed.
#[global] Hint Resolve fetch_response_AbortedTransaction_agrees : fields.

Lemma fetch_response_AbortedTransaction_settles {R : Runtime} version :
  settles (encode version) (valid version) (decode_with_budget version).
Proof. unfold valid, encode, decode_with_budget, is_flexible. cbv zeta. settle. Qed.
#[global] Hint Resolve fetch_response_AbortedTransaction_settles : settles.

End AbortedTransaction.

Module EpochEndOffset.

Record t : Type := mk {
  epoch : Z;
  end_offset : Z;
  unknown_tagged_fields : list RawTaggedField;
}.
#[global] Instance t_eq_dec : EqDecision t.
Proof. solve_decision. Defined.

Definition default : t := {|
  epoch := (-1);
  end_offset := (-1);
  unknown_tagged_fields := [] |}.

Definition encode (version : Z) (x : t) : enc :=
  let flex := is_flexible version in
  put_if (version >=? 12) (put_i32 (epoch x)) ;;
  put_if (version >=? 12) (put_i64 (end_offset x)) ;;
  put_if flex (put_tagged_fields (unknown_tagged_fields x)) ;;
  enc_ret.

Section decode.
Context {R : Runtime}.

Definition decode_with_budget (version : Z) : bdec t :=
  let flex := is_flexible version in
  let* epoch := get_if (version >=? 12) (-1) (lift get_i32) in
  let* end_offset := get_if (version >=? 12) (-1) (lift get_i64) in
  let* unknown_tagged_fields := get_if flex [] get_tagged_fields_with_budget in
  bdec_ret (mk epoch end_offset unknown_tagged_fields).

Definition decode_with_limits (version : Z) : Limits → dec t :=
  with_limits (decode_with_budget version).
Definition decode (version : Z) : dec t := with_default_limits (decode_with_budget version).

End decode.

Definition valid (version : Z) (x : t) : Prop :=
  let flex := is_flexible version in
  in_version (version >=? 12) is_i32 (-1) (epoch x) ∧
  in_version (version >=? 12) is_i64 (-1) (end_offset x) ∧
  in_version flex tags_ok [] (unknown_tagged_fields x).

Lemma fetch_response_EpochEndOffset_agrees {R : Runtime} version x :
  12 ≤ version →
  valid version x → pairs1 (encode version x) (decode_with_budget version) x.
Proof.
  intros ?. unfold valid, encode, decode_with_budget, is_flexible. cbv zeta. agree1; by destruct x.
Qed.
#[global] Hint Resolve fetch_response_EpochEndOffset_agrees : fields.

Lemma fetch_response_EpochEndOffset_settles {R : Runtime} version :
  settles (encode version) (valid version) (decode_with_budget version).
Proof. unfold valid, encode, decode_with_budget, is_flexible. cbv zeta. settle. Qed.
#[global] Hint Resolve fetch_response_EpochEndOffset_settles : settles.

End EpochEndOffset.

Module LeaderIdAndEpoch.

Record t : Type := mk {
  leader_id : Z;
  leader_epoch : Z;
  unknown_tagged_fields : list RawTaggedField;
}.
#[global] Instance t_eq_dec : EqDecision t.
Proof. solve_decision. Defined.

Definition default : t := {|
  leader_id := (-1);
  leader_epoch := (-1);
  unknown_tagged_fields := [] |}.

Definition encode (version : Z) (x : t) : enc :=
  let flex := is_flexible version in
  put_if (version >=? 12) (put_i32 (leader_id x)) ;;
  put_if (version >=? 12) (put_i32 (leader_epoch x)) ;;
  put_if flex (put_tagged_fields (unknown_tagged_fields x)) ;;
  enc_ret.

Section decode.
Context {R : Runtime}.

Definition decode_with_budget (version : Z) : bdec t :=
  let flex := is_flexible version in
  let* leader_id := get_if (version >=? 12) (-1) (lift get_i32) in
  let* leader_epoch := get_if (version >=? 12) (-1) (lift get_i32) in
  let* unknown_tagged_fields := get_if flex [] get_tagged_fields_with_budget in
  bdec_ret (mk leader_id leader_epoch unknown_tagged_fields).

Definition decode_with_limits (version : Z) : Limits → dec t :=
  with_limits (decode_with_budget version).
Definition decode (version : Z) : dec t := with_default_limits (decode_with_budget version).

End decode.

Definition valid (version : Z) (x : t) : Prop :=
  let flex := is_flexible version in
  in_version (version >=? 12) is_i32 (-1) (leader_id x) ∧
  in_version (version >=? 12) is_i32 (-1) (leader_epoch x) ∧
  in_version flex tags_ok [] (unknown_tagged_fields x).

Lemma fetch_response_LeaderIdAndEpoch_agrees {R : Runtime} version x :
  12 ≤ version →
  valid version x → pairs1 (encode version x) (decode_with_budget version) x.
Proof.
  intros ?. unfold valid, encode, decode_with_budget, is_flexible. cbv zeta. agree1; by destruct x.
Qed.
#[global] Hint Resolve fetch_response_LeaderIdAndEpoch_agrees : fields.

Lemma fetch_response_LeaderIdAndEpoch_settles {R : Runtime} version :
  settles (encode version) (valid version) (decode_with_budget version).
Proof. unfold valid, encode, decode_with_budget, is_flexible. cbv zeta. settle. Qed.
#[global] Hint Resolve fetch_response_LeaderIdAndEpoch_settles : settles.

End LeaderIdAndEpoch.

Module SnapshotId.

Record t : Type := mk {
  end_offset : Z;
  epoch : Z;
  unknown_tagged_fields : list RawTaggedField;
}.
#[global] Instance t_eq_dec : EqDecision t.
Proof. solve_decision. Defined.

Definition default : t := {|
  end_offset := (-1);
  epoch := (-1);
  unknown_tagged_fields := [] |}.

Definition encode (version : Z) (x : t) : enc :=
  let flex := is_flexible version in
  put_i64 (end_offset x) ;;
  put_i32 (epoch x) ;;
  put_if flex (put_tagged_fields (unknown_tagged_fields x)) ;;
  enc_ret.

Section decode.
Context {R : Runtime}.

Definition decode_with_budget (version : Z) : bdec t :=
  let flex := is_flexible version in
  let* end_offset := lift get_i64 in
  let* epoch := lift get_i32 in
  let* unknown_tagged_fields := get_if flex [] get_tagged_fields_with_budget in
  bdec_ret (mk end_offset epoch unknown_tagged_fields).

Definition decode_with_limits (version : Z) : Limits → dec t :=
  with_limits (decode_with_budget version).
Definition decode (version : Z) : dec t := with_default_limits (decode_with_budget version).

End decode.

Definition valid (version : Z) (x : t) : Prop :=
  let flex := is_flexible version in
  is_i64 (end_offset x) ∧
  is_i32 (epoch x) ∧
  in_version flex tags_ok [] (unknown_tagged_fields x).

Lemma fetch_response_SnapshotId_agrees {R : Runtime} version x :
  valid version x → pairs1 (encode version x) (decode_with_budget version) x.
Proof.
  unfold valid, encode, decode_with_budget, is_flexible. cbv zeta. agree1; by destruct x.
Qed.
#[global] Hint Resolve fetch_response_SnapshotId_agrees : fields.

Lemma fetch_response_SnapshotId_settles {R : Runtime} version :
  settles (encode version) (valid version) (decode_with_budget version).
Proof. unfold valid, encode, decode_with_budget, is_flexible. cbv zeta. settle. Qed.
#[global] Hint Resolve fetch_response_SnapshotId_settles : settles.

End SnapshotId.

Module PartitionData.

Record t : Type := mk {
  partition_index : Z;
  error_code : Z;
  high_watermark : Z;
  last_stable_offset : Z;
  log_start_offset : Z;
  aborted_transactions : option (list AbortedTransaction.t);
  preferred_read_replica : Z;
  records : option (list byte);
  diverging_epoch : option EpochEndOffset.t;
  current_leader : option LeaderIdAndEpoch.t;
  snapshot_id : option SnapshotId.t;
  unknown_tagged_fields : list RawTaggedField;
}.
#[global] Instance t_eq_dec : EqDecision t.
Proof. solve_decision. Defined.

Definition default : t := {|
  partition_index := 0;
  error_code := 0;
  high_watermark := 0;
  last_stable_offset := (-1);
  log_start_offset := (-1);
  aborted_transactions := (Some []);
  preferred_read_replica := (-1);
  records := (Some []);
  diverging_epoch := None;
  current_leader := None;
  snapshot_id := None;
  unknown_tagged_fields := [] |}.

Definition encode (version : Z) (x : t) : enc :=
  let flex := is_flexible version in
  put_i32 (partition_index x) ;;
  put_i16 (error_code x) ;;
  put_i64 (high_watermark x) ;;
  put_i64 (last_stable_offset x) ;;
  put_if (version >=? 5) (put_i64 (log_start_offset x)) ;;
  put_flex_nullable_array flex true "" (AbortedTransaction.encode version) (aborted_transactions x) ;;
  put_if (version >=? 11) (put_i32 (preferred_read_replica x)) ;;
  put_flex_nullable_bytes flex (records x) ;;
  put_if flex (put_known_tags (unknown_tagged_fields x)
    [tag_field (version >=? 12) 0 (EpochEndOffset.encode version) (diverging_epoch x);
     tag_field (version >=? 12) 1 (LeaderIdAndEpoch.encode version) (current_leader x);
     tag_field (version >=? 12) 2 (SnapshotId.encode version) (snapshot_id x)]) ;;
  enc_ret.

Section decode.
Context {R : Runtime}.

Definition known_tags (version : Z) :=
  let flex := is_flexible version in
  known_tag (version >=? 12) 0 (EpochEndOffset.decode_with_budget version) (
  known_tag (version >=? 12) 1 (LeaderIdAndEpoch.decode_with_budget version) (
  known_tag (version >=? 12) 2 (SnapshotId.decode_with_budget version) no_tags)).

Definition decode_with_budget (version : Z) : bdec t :=
  let flex := is_flexible version in
  let* partition_index := lift get_i32 in
  let* error_code := lift get_i16 in
  let* high_watermark := lift get_i64 in
  let* last_stable_offset := lift get_i64 in
  let* log_start_offset := get_if (version >=? 5) (-1) (lift get_i64) in
  let* aborted_transactions := get_flex_nullable_structs flex true "AbortedTransaction" (AbortedTransaction.decode_with_budget version) in
  let* preferred_read_replica := get_if (version >=? 11) (-1) (lift get_i32) in
  let* records := get_flex_nullable_bytes flex in
  let* ((diverging_epoch, (current_leader, (snapshot_id, tt))), unknown_tagged_fields) :=
    get_if flex ((None, (None, (None, tt))), []) (get_known_tags (known_tags version)) in
  bdec_ret (mk partition_index error_code high_watermark last_stable_offset log_start_offset aborted_transactions preferred_read_replica records diverging_epoch current_leader snapshot_id unknown_tagged_fields).

Definition decode_with_limits (version : Z) : Limits → dec t :=
  with_limits (decode_with_budget version).
Definition decode (version : Z) : dec t := with_default_limits (decode_with_budget version).

End decode.

Definition valid (version : Z) (x : t) : Prop :=
  let flex := is_flexible version in
  is_i32 (partition_index x) ∧
  is_i16 (error_code x) ∧
  is_i64 (high_watermark x) ∧
  is_i64 (last_stable_offset x) ∧
  in_version (version >=? 5) is_i64 (-1) (log_start_offset x) ∧
  opt_valid true (arr_ok flex (AbortedTransaction.valid version)) (aborted_transactions x) ∧
  in_version (version >=? 11) is_i32 (-1) (preferred_read_replica x) ∧
  opt_valid true (bytes_ok flex) (records x) ∧
  in_version flex (λ _,
    in_version (version >=? 12) (tag_valid (EpochEndOffset.valid version) (EpochEndOffset.encode version)) None (diverging_epoch x) ∧
    in_version (version >=? 12) (tag_valid (LeaderIdAndEpoch.valid version) (LeaderIdAndEpoch.encode version)) None (current_leader x) ∧
    in_version (version >=? 12) (tag_valid (SnapshotId.valid version) (SnapshotId.encode version)) None (snapshot_id x) ∧
    unknown_ok (known_list (version >=? 12) 0 (known_list (version >=? 12) 1 (known_list (version >=? 12) 2 []))) (unknown_tagged_fields x))
    ((None, (None, (None, tt))), []) ((diverging_epoch x, (current_leader x, (snapshot_id x, tt))), unknown_tagged_fields x).

Lemma fetch_response_PartitionData_agrees {R : Runtime} version x :
  valid version x → pairs1 (encode version x) (decode_with_budget version) x.
Proof.
  unfold valid, encode, decode_with_budget, is_flexible. cbv zeta. agree1; by destruct x.
Qed.
#[global] Hint Resolve fetch_response_PartitionData_agrees : fields.

Lemma fetch_response_PartitionData_settles {R : Runtime} version :
  settles (encode version) (valid version) (decode_with_budget version).
Proof. unfold valid, encode, decode_with_budget, is_flexible. cbv zeta. settle. Qed.
#[global] Hint Resolve fetch_response_PartitionData_settles : settles.

End PartitionData.

Module FetchableTopicResponse.

Record t : Type := mk {
  topic : string;
  topic_id : list byte;
  partitions : list PartitionData.t;
  unknown_tagged_fields : list RawTaggedField;
}.
#[global] Instance t_eq_dec : EqDecision t.
Proof. solve_decision. Defined.

Definition default : t := {|
  topic := "";
  topic_id := (replicate 16 Byte.x00);
  partitions := [];
  unknown_tagged_fields := [] |}.

Definition encode (version : Z) (x : t) : enc :=
  let flex := is_flexible version in
  put_if (version <=? 12) (put_flex_string flex (topic x)) ;;
  put_if (version >=? 13) (put_uuid (topic_id x)) ;;
  put_flex_array flex (PartitionData.encode version) (partitions x) ;;
  put_if flex (put_tagged_fields (unknown_tagged_fields x)) ;;
  enc_ret.

Section decode.
Context {R : Runtime}.

Definition decode_with_budget (version : Z) : bdec t :=
  let flex := is_flexible version in
  let* topic := get_if (version <=? 12) "" (get_flex_string flex) in
  let* topic_id := get_if (version >=? 13) (replicate 16 Byte.x00) (lift get_uuid) in
  let* partitions := get_flex_structs flex "PartitionData" (PartitionData.decode_with_budget version) in
  let* unknown_tagged_fields := get_if flex [] get_tagged_fields_with_budget in
  bdec_ret (mk topic topic_id partitions unknown_tagged_fields).

Definition decode_with_limits (version : Z) : Limits → dec t :=
  with_limits (decode_with_budget version).
Definition decode (version : Z) : dec t := with_default_limits (decode_with_budget version).

End decode.

Definition valid (version : Z) (x : t) : Prop :=
  let flex := is_flexible version in
  in_version (version <=? 12) (str_ok flex) "" (topic x) ∧
  in_version (version >=? 13) uuid_ok (replicate 16 Byte.x00) (topic_id x) ∧
  arr_ok flex (PartitionData.valid version) (partitions x) ∧
  in_version flex tags_ok [] (unknown_tagged_fields x).

Lemma fetch_response_FetchableTopicResponse_agrees {R : Runtime} version x :
  valid version x → pairs1 (encode version x) (decode_with_budget version) x.
Proof.
  unfold valid, encode, decode_with_budget, is_flexible. cbv zeta. agree1; by destruct x.
Qed.
#[global] Hint Resolve fetch_response_FetchableTopicResponse_agrees : fields.

Lemma fetch_response_FetchableTopicResponse_settles {R : Runtime} version :
  settles (encode version) (valid version) (decode_with_budget version).
Proof. unfold valid, encode, decode_with_budget, is_flexible. cbv zeta. settle. Qed.
#[global] Hint Resolve fetch_response_FetchableTopicResponse_settles : settles.

End FetchableTopicResponse.

Module NodeEndpoint.

Record t : Type := mk {
  node_id : Z;
  host : string;
  port : Z;
  rack : option string;
  unknown_tagged_fields : list RawTaggedField;
}.
#[global] Instance t_eq_dec : EqDecision t.
Proof. solve_decision. Defined.

Definition default : t := {|
  node_id := 0;
  host := "";
  port := 0;
  rack := None;
  unknown_tagged_fields := [] |}.

Definition encode (version : Z) (x : t) : enc :=
  let flex := is_flexible version in
  put_if (version >=? 16) (put_i32 (node_id x)) ;;
  put_if (version >=? 16) (put_flex_string flex (host x)) ;;
  put_if (version >=? 16) (put_i32 (port x)) ;;
  put_if (version >=? 16) (put_flex_nullable_string flex (rack x)) ;;
  put_if flex (put_tagged_fields (unknown_tagged_fields x)) ;;
  enc_ret.

Section decode.
Context {R : Runtime}.

Definition decode_with_budget (version : Z) : bdec t :=
  let flex := is_flexible version in
  let* node_id := get_if (version >=? 16) 0 (lift get_i32) in
  let* host := get_if (version >=? 16) "" (get_flex_string flex) in
  let* port := get_if (version >=? 16) 0 (lift get_i32) in
  let* rack := get_if (version >=? 16) None (get_flex_nullable_string flex) in
  let* unknown_tagged_fields := get_if flex [] get_tagged_fields_with_budget in
  bdec_ret (mk node_id host port rack unknown_tagged_fields).

Definition decode_with_limits (version : Z) : Limits → dec t :=
  with_limits (decode_with_budget version).
Definition decode (version : Z) : dec t := with_default_limits (decode_with_budget version).

End decode.

Definition valid (version : Z) (x : t) : Prop :=
  let flex := is_flexible version in
  in_version (version >=? 16) is_i32 0 (node_id x) ∧
  in_version (version >=? 16) (str_ok flex) "" (host x) ∧
  in_version (version >=? 16) is_i32 0 (port x) ∧
  in_version (version >=? 16) (opt_valid true (str_ok flex)) None (rack x) ∧
  in_version flex tags_ok [] (unknown_tagged_fields x).

Lemma fetch_response_NodeEndpoint_agrees {R : Runtime} version x :
  12 ≤ version →
  valid version x → pairs1 (encode version x) (decode_with_budget version) x.
Proof.
  intros ?. unfold valid, encode, decode_with_budget, is_flexible. cbv zeta. agree1; by destruct x.
Qed.
#[global] Hint Resolve fetch_response_NodeEndpoint_agrees : fields.

Lemma fetch_response_NodeEndpoint_settles {R : Runtime} version :
  settles (encode version) (valid version) (decode_with_budget version).
Proof. unfold valid, encode, decode_with_budget, is_flexible. cbv zeta. settle. Qed.
#[global] Hint Resolve fetch_response_NodeEndpoint_settles : settles.

End NodeEndpoint.

Module FetchResponse.

Record t : Type := mk {
  throttle_time_ms : Z;
  error_code : Z;
  session_id : Z;
  responses : list FetchableTopicResponse.t;
  node_endpoints : option (list NodeEndpoint.t);
  unknown_tagged_fields : list RawTaggedField;
}.
#[global] Instance t_eq_dec : EqDecision t.
Proof. solve_decision. Defined.

Definition default : t := {|
  throttle_time_ms := 0;
  error_code := 0;
  session_id := 0;
  responses := [];
  node_endpoints := None;
  unknown_tagged_fields := [] |}.

Definition API_KEY : Z := 1.
Definition MIN_VERSION : Z := 4.
Definition MAX_VERSION : Z := 18.

Definition encode (version : Z) (x : t) : enc :=
  let flex := is_flexible version in
  put_i32 (throttle_time_ms x) ;;
  put_if (version >=? 7) (put_i16 (error_code x)) ;;
  put_if (version >=? 7) (put_i32 (session_id x)) ;;
  put_flex_array flex (FetchableTopicResponse.encode version) (responses x) ;;
  put_if flex (put_known_tags (unknown_tagged_fields x)
    [tag_field (version >=? 16) 0 (put_flex_array flex (NodeEndpoint.encode version)) (node_endpoints x)]) ;;
  enc_ret.

Section decode.
Context {R : Runtime}.

Definition known_tags (version : Z) :=
  let flex := is_flexible version in
  known_tag (version >=? 16) 0 (get_flex_structs flex "NodeEndpoint" (NodeEndpoint.decode_with_budget version)) no_tags.

Definition decode_with_budget (version : Z) : bdec t :=
  let flex := is_flexible version in
  let* throttle_time_ms := lift get_i32 in
  let* error_code := get_if (version >=? 7) 0 (lift get_i16) in
  let* session_id := get_if (version >=? 7) 0 (lift get_i32) in
  let* responses := get_flex_structs flex "FetchableTopicResponse" (FetchableTopicResponse.decode_with_budget version) in
  let* ((node_endpoints, tt), unknown_tagged_fields) :=
    get_if flex ((None, tt), []) (get_known_tags (known_tags version)) in
  bdec_ret (mk throttle_time_ms error_code session_id responses node_endpoints unknown_tagged_fields).

Definition decode_with_limits (version : Z) : Limits → dec t :=
  with_limits (decode_with_budget version).
Definition decode (version : Z) : dec t := with_default_limits (decode_with_budget version).

End decode.

Definition valid (version : Z) (x : t) : Prop :=
  let flex := is_flexible version in
  is_i32 (throttle_time_ms x) ∧
  in_version (version >=? 7) is_i16 0 (error_code x) ∧
  in_version (version >=? 7) is_i32 0 (session_id x) ∧
  arr_ok flex (FetchableTopicResponse.valid version) (responses x) ∧
  in_version flex (λ _,
    in_version (version >=? 16) (tag_valid (arr_ok flex (NodeEndpoint.valid version)) (put_flex_array flex (NodeEndpoint.encode version))) None (node_endpoints x) ∧
    unknown_ok (known_list (version >=? 16) 0 []) (unknown_tagged_fields x))
    ((None, tt), []) ((node_endpoints x, tt), unknown_tagged_fields x).

Lemma fetch_response_FetchResponse_agrees {R : Runtime} version x :
  valid version x → pairs (encode version x) (decode_with_budget version) x.
Proof.
  unfold valid, encode, decode_with_budget, is_flexible. cbv zeta. agree. by destruct x.
Qed.
#[global] Hint Resolve fetch_response_FetchResponse_agrees : fields.

Lemma fetch_response_FetchResponse_settles {R : Runtime} version :
  settles (encode version) (valid version) (decode_with_budget version).
Proof. unfold valid, encode, decode_with_budget, is_flexible. cbv zeta. settle. Qed.
#[global] Hint Resolve fetch_response_FetchResponse_settles : settles.

End FetchResponse.

Lemma FetchResponse_agrees (R : Runtime) version x :
  FetchResponse.MIN_VERSION ≤ version ≤ FetchResponse.MAX_VERSION → FetchResponse.valid version x →
  pairs (FetchResponse.encode version x) (FetchResponse.decode_with_budget version) x.
Proof.
  intros _ ?. by apply FetchResponse.fetch_response_FetchResponse_agrees.
Qed.

#[global] Instance FetchResponse_Message : Message FetchResponse.t := {|
  Message.API_KEY := FetchResponse.API_KEY;
  Message.MIN_VERSION := FetchResponse.MIN_VERSION;
  Message.MAX_VERSION := FetchResponse.MAX_VERSION;
  Message.encode := FetchResponse.encode;
  Message.decode_with_budget := @FetchResponse.decode_with_budget;
  Message.throttle_time_ms := λ x, Some (FetchResponse.throttle_time_ms x);
  Message.valid := FetchResponse.valid;
  Message.agrees := FetchResponse_agrees;
  Message.settled := @FetchResponse.fetch_response_FetchResponse_settles |}.
#[global] Instance FetchResponse_Default : Default FetchResponse.t := FetchResponse.default.

End fetch_response.
