(* ===== verification/MsgProduce.v ===== *)
(** * Produce messages

    [produce_request.rs], [produce_response.rs]
    of [odradek-protocol/src/messages/]: each message a Module named after its
    file, each struct a Module with its record [t], its defaults, its encoder and
    decoder, what makes a value representable at a version ([valid]) and the
    agreement of the two. *)
From S2P Require Import Prelude Budget Codec Wire Fields KnownTags Settles MessageTrait.

(** ** [produce_request.rs] *)

Module produce_request.

Definition is_flexible (version : Z) : bool := version >=? 9.

Module PartitionProduceData.

Record t : Type := mk {
  index : Z;
  records : option (list byte);
  unknown_tagged_fields : list RawTaggedField;
}.
#[global] Instance t_eq_dec : EqDecision t.
Proof. solve_decision. Defined.

Definition default : t := {|
  index := 0;
  records := (Some []);
  unknown_tagged_fields := [] |}.

Definition encode (version : Z) (x : t) : enc :=
  let flex := is_flexible version in
  put_i32 (index x) ;;
  put_flex_nullable_bytes flex (records x) ;;
  put_if flex (put_tagged_fields (unknown_tagged_fields x)) ;;
  enc_ret.

Section decode.
Context {R : Runtime}.

Definition decode_with_budget (version : Z) : bdec t :=
  let flex := is_flexible version in
  let* index := lift get_i32 in
  let* records := get_flex_nullable_bytes flex in
  let* unknown_tagged_fields := get_if flex [] get_tagged_fields_with_budget in
  bdec_ret (mk index records unknown_tagged_fields).

Definition decode_with_limits (version : Z) : Limits → dec t :=
  with_limits (decode_with_budget version).
Definition decode (version : Z) : dec t := with_default_limits (decode_with_budget version).

End decode.

Definition valid (version : Z) (x : t) : Prop :=
  let flex := is_flexible version in
  is_i32 (index x) ∧
  opt_valid true (bytes_ok flex) (records x) ∧
  in_version flex tags_ok [] (unknown_tagged_fields x).

Lemma produce_request_PartitionProduceData_agrees {R : Runtime} version x :
  valid version x → pairs1 (encode version x) (decode_with_budget version) x.
Proof.
  unfold valid, encode, decode_with_budget, is_flexible. cbv zeta. agree1; by destruct x.
Qed.
#[global] Hint Resolve produce_request_PartitionProduceData_agrees : fields.

Lemma produce_request_PartitionProduceData_settles {R : Runtime} version :
  settles (encode version) (valid version) (decode_with_budget version).
Proof. unfold valid, encode, decode_with_budget, is_flexible. cbv zeta. settle. Qed.
#[global] Hint Resolve produce_request_PartitionProduceData_settles : settles.

End PartitionProduceData.

Module TopicProduceData.

Record t : Type := mk {
  name : string;
  topic_id : list byte;
  partition_data : list PartitionProduceData.t;
  unknown_tagged_fields : list RawTaggedField;
}.
#[global] Instance t_eq_dec : EqDecision t.
Proof. solve_decision. Defined.

Definition default : t := {|
  name := "";
  topic_id := (replicate 16 Byte.x00);
  partition_data := [];
  unknown_tagged_fields := [] |}.

Definition encode (version : Z) (x : t) : enc :=
  let flex := is_flexible version in
  put_if (version <=? 12) (put_flex_string flex (name x)) ;;
  put_if (version >=? 13) (put_uuid (topic_id x)) ;;
  put_flex_array flex (PartitionProduceData.encode version) (partition_data x) ;;
  put_if flex (put_tagged_fields (unknown_tagged_fields x)) ;;
  enc_ret.

Section decode.
Context {R : Runtime}.

Definition decode_with_budget (version : Z) : bdec t :=
  let flex := is_flexible version in
  let* name := get_if (version <=? 12) "" (get_flex_string flex) in
  let* topic_id := get_if (version >=? 13) (replicate 16 Byte.x00) (lift get_uuid) in
  let* partition_data := get_flex_structs flex "PartitionProduceData" (PartitionProduceData.decode_with_budget version) in
  let* unknown_tagged_fields := get_if flex [] get_tagged_fields_with_budget in
  bdec_ret (mk name topic_id partition_data unknown_tagged_fields).

Definition decode_with_limits (version : Z) : Limits → dec t :=
  with_limits (decode_with_budget version).
Definition decode (version : Z) : dec t := with_default_limits (decode_with_budget version).

End decode.

Definition valid (version : Z) (x : t) : Prop :=
  let flex := is_flexible version in
  in_version (version <=? 12) (str_ok flex) "" (name x) ∧
  in_version (version >=? 13) uuid_ok (replicate 16 Byte.x00) (topic_id x) ∧
  arr_ok flex (PartitionProduceData.valid version) (partition_data x) ∧
  in_version flex tags_ok [] (unknown_tagged_fields x).

Lemma produce_request_TopicProduceData_agrees {R : Runtime} version x :
  valid version x → pairs1 (encode version x) (decode_with_budget version) x.
Proof.
  unfold valid, encode, decode_with_budget, is_flexible. cbv zeta. agree1; by destruct x.
Qed.
#[global] Hint Resolve produce_request_TopicProduceData_agrees : fields.

Lemma produce_request_TopicProduceData_settles {R : Runtime} version :
  settles (encode version) (valid version) (decode_with_budget version).
Proof. unfold valid, encode, decode_with_budget, is_flexible. cbv zeta. settle. Qed.
#[global] Hint Resolve produce_request_TopicProduceData_settles : settles.

End TopicProduceData.

Module ProduceRequest.

Record t : Type := mk {
  transactional_id : option string;
  acks : Z;
  timeout_ms : Z;
  topic_data : list TopicProduceData.t;
  unknown_tagged_fields : list RawTaggedField;
}.
#[global] Instance t_eq_dec : EqDecision t.
Proof. solve_decision. Defined.

Definition default : t := {|
  transactional_id := None;
  acks := 0;
  timeout_ms := 0;
  topic_data := [];
  unknown_tagged_fields := [] |}.

Definition API_KEY : Z := 0.
Definition MIN_VERSION : Z := 3.
Definition MAX_VERSION : Z := 13.

Definition encode (version : Z) (x : t) : enc :=
  let flex := is_flexible version in
  put_flex_nullable_string flex (transactional_id x) ;;
  put_i16 (acks x) ;;
  put_i32 (timeout_ms x) ;;
  put_flex_array flex (TopicProduceData.encode version) (topic_data x) ;;
  put_if flex (put_tagged_fields (unknown_tagged_fields x)) ;;
  enc_ret.

Section decode.
Context {R : Runtime}.

Definition decode_with_budget (version : Z) : bdec t :=
  let flex := is_flexible version in
  let* transactional_id := get_flex_nullable_string flex in
  let* acks := lift get_i16 in
  let* timeout_ms := lift get_i32 in
  let* topic_data := get_flex_structs flex "TopicProduceData" (TopicProduceData.decode_with_budget version) in
  let* unknown_tagged_fields := get_if flex [] get_tagged_fields_with_budget in
  bdec_ret (mk transactional_id acks timeout_ms topic_data unknown_tagged_fields).

Definition decode_with_limits (version : Z) : Limits → dec t :=
  with_limits (decode_with_budget version).
Definition decode (version : Z) : dec t := with_default_limits (decode_with_budget version).

End decode.

Definition valid (version : Z) (x : t) : Prop :=
  let flex := is_flexible version in
  opt_valid true (str_ok flex) (transactional_id x) ∧
  is_i16 (acks x) ∧
  is_i32 (timeout_ms x) ∧
  arr_ok flex (TopicProduceData.valid version) (topic_data x) ∧
  in_version flex tags_ok [] (unknown_tagged_fields x).

Lemma produce_request_ProduceRequest_agrees {R : Runtime} version x :
  valid version x → pairs (encode version x) (decode_with_budget version) x.
Proof.
  unfold valid, encode, decode_with_budget, is_flexible. cbv zeta. agree. by destruct x.
Qed.
#[global] Hint Resolve produce_request_ProduceRequest_agrees : fields.

Lemma produce_request_ProduceRequest_settles {R : Runtime} version :
  settles (encode version) (valid version) (decode_with_budget version).
Proof. unfold valid, encode, decode_with_budget, is_flexible. cbv zeta. settle. Qed.
#[global] Hint Resolve produce_request_ProduceRequest_settles : settles.

End ProduceRequest.

Lemma ProduceRequest_agrees (R : Runtime) version x :
  ProduceRequest.MIN_VERSION ≤ version ≤ ProduceRequest.MAX_VERSION → ProduceRequest.valid version x →
  pairs (ProduceRequest.encode version x) (ProduceRequest.decode_with_budget version) x.
Proof.
  intros _ ?. by apply ProduceRequest.produce_request_ProduceRequest_agrees.
Qed.

#[global] Instance ProduceRequest_Message : Message ProduceRequest.t := {|
  Message.API_KEY := ProduceRequest.API_KEY;
  Message.MIN_VERSION := ProduceRequest.MIN_VERSION;
  Message.MAX_VERSION := ProduceRequest.MAX_VERSION;
  Message.encode := ProduceRequest.encode;
  Message.decode_with_budget := @ProduceRequest.decode_with_budget;
  Message.throttle_time_ms := λ _, None;
  Message.valid := ProduceRequest.valid;
  Message.agrees := ProduceRequest_agrees;
  Message.settled := @ProduceRequest.produce_request_ProduceRequest_settles |}.
#[global] Instance ProduceRequest_Default : Default ProduceRequest.t := ProduceRequest.default.

End produce_request.

(** ** [produce_response.rs] *)

Module produce_response.

Definition is_flexible (version : Z) : bool := version >=? 9.

Module BatchIndexAndErrorMessage.

Record t : Type := mk {
  batch_index : Z;
  batch_index_error_message : option string;
  unknown_tagged_fields : list RawTaggedField;
}.
#[global] Instance t_eq_dec : EqDecision t.
Proof. solve_decision. Defined.

Definition default : t := {|
  batch_index := 0;
  batch_index_error_message := None;
  unknown_tagged_fields := [] |}.

Definition encode (version : Z) (x : t) : enc :=
  let flex := is_flexible version in
  put_if (version >=? 8) (put_i32 (batch_index x)) ;;
  put_if (version >=? 8) (put_flex_nullable_string flex (batch_index_error_message x)) ;;
  put_if flex (put_tagged_fields (unknown_tagged_fields x)) ;;
  enc_ret.

Section decode.
Context {R : Runtime}.

Definition decode_with_budget (version : Z) : bdec t :=
  let flex := is_flexible version in
  let* batch_index := get_if (version >=? 8) 0 (lift get_i32) in
  let* batch_index_error_message := get_if (version >=? 8) None (get_flex_nullable_string flex) in
  let* unknown_tagged_fields := get_if flex [] get_tagged_fields_with_budget in
  bdec_ret (mk batch_index batch_index_error_message unknown_tagged_fields).

Definition decode_with_limits (version : Z) : Limits → dec t :=
  with_limits (decode_with_budget version).
Definition decode (version : Z) : dec t := with_default_limits (decode_with_budget version).

End decode.

Definition valid (version : Z) (x : t) : Prop :=
  let flex := is_flexible version in
  in_version (version >=? 8) is_i32 0 (batch_index x) ∧
  in_version (version >=? 8) (opt_valid true (str_ok flex)) None (batch_index_error_message x) ∧
  in_version flex tags_ok [] (unknown_tagged_fields x).

Lemma produce_response_BatchIndexAndErrorMessage_agrees {R : Runtime} version x :
  8 ≤ version →
  valid version x → pairs1 (encode version x) (decode_with_budget version) x.
Proof.
  intros ?. unfold valid, encode, decode_with_budget, is_flexible. cbv zeta. agree1; by destruct x.
Qed.
#[global] Hint Resolve produce_response_BatchIndexAndErrorMessage_agrees : fields.

Lemma produce_response_BatchIndexAndErrorMessage_settles {R : Runtime} version :
  settles (encode version) (valid version) (decode_with_budget version).
Proof. unfold valid, encode, decode_with_budget, is_flexible. cbv zeta. settle. Qed.
#[global] Hint Resolve produce_response_BatchIndexAndErrorMessage_settles : settles.

End BatchIndexAndErrorMessage.

Module LeaderIdAndEpoch.

Record t : Type := mk {
  leader_id : Z;
  leader_epoch : Z;
  unknown_tagged_fields : list RawTaggedField;
}.
#[global] Instance t_eq_dec : EqDecision t.
Proof. solve_decision. Defined.

Definition default : t := {|
  leader_id := (-1);
  leader_epoch := (-1);
  unknown_tagged_fields := [] |}.

Definition encode (version : Z) (x : t) : enc :=
  let flex := is_flexible version in
  put_if (version >=? 10) (put_i32 (leader_id x)) ;;
  put_if (version >=? 10) (put_i32 (leader_epoch x)) ;;
  put_if flex (put_tagged_fields (unknown_tagged_fields x)) ;;
  enc_ret.

Section decode.
Context {R : Runtime}.

Definition decode_with_budget (version : Z) : bdec t :=
  let flex := is_flexible version in
  let* leader_id := get_if (version >=? 10) (-1) (lift get_i32) in
  let* leader_epoch := get_if (version >=? 10) (-1) (lift get_i32) in
  let* unknown_tagged_fields := get_if flex [] get_tagged_fields_with_budget in
  bdec_ret (mk leader_id leader_epoch unknown_tagged_fields).

Definition decode_with_limits (version : Z) : Limits → dec t :=
  with_limits (decode_with_budget version).
Definition decode (version : Z) : dec t := with_default_limits (decode_with_budget version).

End decode.

Definition valid (version : Z) (x : t) : Prop :=
  let flex := is_flexible version in
  in_version (version >=? 10) is_i32 (-1) (leader_id x) ∧
  in_version (version >=? 10) is_i32 (-1) (leader_epoch x) ∧
  in_version flex tags_ok [] (unknown_tagged_fields x).

Lemma produce_response_LeaderIdAndEpoch_agrees {R : Runtime} version x :
  9 ≤ version →
  valid version x → pairs1 (encode version x) (decode_with_budget version) x.
Proof.
  intros ?. unfold valid, encode, decode_with_budget, is_flexible. cbv zeta. agree1; by destruct x.
Qed.
#[global] Hint Resolve produce_response_LeaderIdAndEpoch_agrees : fields.

Lemma produce_response_LeaderIdAndEpoch_settles {R : Runtime} version :
  settles (encode version) (valid version) (decode_with_budget version).
Proof. unfold valid, encode, decode_with_budget, is_flexible. cbv zeta. settle. Qed.
#[global] Hint Resolve produce_response_LeaderIdAndEpoch_settles : settles.

End LeaderIdAndEpoch.

Module PartitionProduceResponse.

Record t : Type := mk {
  index : Z;
  error_code : Z;
  base_offset : Z;
  log_append_time_ms : Z;
  log_start_offset : Z;
  record_errors : list BatchIndexAndErrorMessage.t;
  error_message : option string;
  current_leader : option LeaderIdAndEpoch.t;
  unknown_tagged_fields : list RawTaggedField;
}.
#[global] Instance t_eq_dec : EqDecision t.
Proof. solve_decision. Defined.

Definition default : t := {|
  index := 0;
  error_code := 0;
  base_offset := 0;
  log_append_time_ms := (-1);
  log_start_offset := (-1);
  record_errors := [];
  error_message := None;
  current_leader := None;
  unknown_tagged_fields := [] |}.

Definition encode (version : Z) (x : t) : enc :=
  let flex := is_flexible version in
  put_i32 (index x) ;;
  put_i16 (error_code x) ;;
  put_i64 (base_offset x) ;;
  put_i64 (log_append_time_ms x) ;;
  put_if (version >=? 5) (put_i64 (log_start_offset x)) ;;
  put_if (version >=? 8) (put_flex_array flex (BatchIndexAndErrorMessage.encode version) (record_errors x)) ;;
  put_if (version >=? 8) (put_flex_nullable_string flex (error_message x)) ;;
  put_if flex (put_known_tags (unknown_tagged_fields x)
    [tag_field (version >=? 10) 0 (LeaderIdAndEpoch.encode version) (current_leader x)]) ;;
  enc_ret.

Section decode.
Context {R : Runtime}.

Definition known_tags (version : Z) :=
  let flex := is_flexible version in
  known_tag (version >=? 10) 0 (LeaderIdAndEpoch.decode_with_budget version) no_tags.

Definition decode_with_budget (version : Z) : bdec t :=
  let flex := is_flexible version in
  let* index := lift get_i32 in
  let* error_code := lift get_i16 in
  let* base_offset := lift get_i64 in
  let* log_append_time_ms := lift get_i64 in
  let* log_start_offset := get_if (version >=? 5) (-1) (lift get_i64) in
  let* record_errors := get_if (version >=? 8) [] (get_flex_structs flex "BatchIndexAndErrorMessage" (BatchIndexAndErrorMessage.decode_with_budget version)) in
  let* error_message := get_if (version >=? 8) None (get_flex_nullable_string flex) in
  let* ((current_leader, tt), unknown_tagged_fields) :=
    get_if flex ((None, tt), []) (get_known_tags (known_tags version)) in
  bdec_ret (mk index error_code base_offset log_append_time_ms log_start_offset record_errors error_message current_leader unknown_tagged_fields).

Definition decode_with_limits (version : Z) : Limits → dec t :=
  with_limits (decode_with_budget version).
Definition decode (version : Z) : dec t := with_default_limits (decode_with_budget version).

End decode.

Definition valid (version : Z) (x : t) : Prop :=
  let flex := is_flexible version in
  is_i32 (index x) ∧
  is_i16 (error_code x) ∧
  is_i64 (base_offset x) ∧
  is_i64 (log_append_time_ms x) ∧
  in_version (version >=? 5) is_i64 (-1) (log_start_offset x) ∧
  in_version (version >=? 8) (arr_ok flex (BatchIndexAndErrorMessage.valid version)) [] (record_errors x) ∧
  in_version (version >=? 8) (opt_valid true (str_ok flex)) None (error_message x) ∧
  in_version flex (λ _,
    in_version (version >=? 10) (tag_valid (LeaderIdAndEpoch.valid version) (LeaderIdAndEpoch.encode version)) None (current_leader x) ∧
    unknown_ok (known_list (version >=? 10) 0 []) (unknown_tagged_fields x))
    ((None, tt), []) ((current_leader x, tt), unknown_tagged_fields x).

Lemma produce_response_PartitionProduceResponse_agrees {R : Runtime} version x :
  valid version x → pairs1 (encode version x) (decode_with_budget version) x.
Proof.
  unfold valid, encode, decode_with_budget, is_flexible. cbv zeta. agree1; by destruct x.
Qed.
#[global] Hint Resolve produce_response_PartitionProduceResponse_agrees : fields.

Lemma produce_response_PartitionProduceResponse_settles {R : Runtime} version :
  settles (encode version) (valid version) (decode_with_budget version).
Proof. unfold valid, encode, decode_with_budget, is_flexible. cbv zeta. settle. Qed.
#[global] Hint Resolve produce_response_PartitionProduceResponse_settles : settles.

End PartitionProduceResponse.

Module TopicProduceResponse.

Record t : Type := mk {
  name : string;
  topic_id : list byte;
  partition_responses : list PartitionProduceResponse.t;
  unknown_tagged_fields : list RawTaggedField;
}.
#[global] Instance t_eq_dec : EqDecision t.
Proof. solve_decision. Defined.

Definition default : t := {|
  name := "";
  topic_id := (replicate 16 Byte.x00);
  partition_responses := [];
  unknown_tagged_fields := [] |}.

Definition encode (version : Z) (x : t) : enc :=
  let flex := is_flexible version in
  put_if (version <=? 12) (put_flex_string flex (name x)) ;;
  put_if (version >=? 13) (put_uuid (topic_id x)) ;;
  put_flex_array flex (PartitionProduceResponse.encode version) (partition_responses x) ;;
  put_if flex (put_tagged_fields (unknown_tagged_fields x)) ;;
  enc_ret.

Section decode.
Context {R : Runtime}.

Definition decode_with_budget (version : Z) : bdec t :=
  let flex := is_flexible version in
  let* name := get_if (version <=? 12) "" (get_flex_string flex) in
  let* topic_id := get_if (version >=? 13) (replicate 16 Byte.x00) (lift get_uuid) in
  let* partition_responses := get_flex_structs flex "PartitionProduceResponse" (PartitionProduceResponse.decode_with_budget version) in
  let* unknown_tagged_fields := get_if flex [] get_tagged_fields_with_budget in
  bdec_ret (mk name topic_id partition_responses unknown_tagged_fields).

Definition decode_with_limits (version : Z) : Limits → dec t :=
  with_limits (decode_with_budget version).
Definition decode (version : Z) : dec t := with_default_limits (decode_with_budget version).

End decode.

Definition valid (version : Z) (x : t) : Prop :=
  let flex := is_flexible version in
  in_version (version <=? 12) (str_ok flex) "" (name x) ∧
  in_version (version >=? 13) uuid_ok (replicate 16 Byte.x00) (topic_id x) ∧
  arr_ok flex (PartitionProduceResponse.valid version) (partition_responses x) ∧
  in_version flex tags_ok [] (unknown_tagged_fields x).

Lemma produce_response_TopicProduceResponse_agrees {R : Runtime} version x :
  valid version x → pairs1 (encode version x) (decode_with_budget version) x.
Proof.
  unfold valid, encode, decode_with_budget, is_flexible. cbv zeta. agree1; by destruct x.
Qed.
#[global] Hint Resolve produce_response_TopicProduceResponse_agrees : fields.

Lemma produce_response_TopicProduceResponse_settles {R : Runtime} version :
  settles (encode version) (valid version) (decode_with_budget version).
Proof. unfold valid, encode, decode_with_budget, is_flexible. cbv zeta. settle. Qed.
#[global] Hint Resolve produce_response_TopicProduceResponse_settles : settles.

End TopicProduceResponse.

Module NodeEndpoint.

Record t : Type := mk {
  node_id : Z;
  host : string;
  port : Z;
  rack : option string;
  unknown_tagged_fields : list RawTaggedField;
}.
#[global] Instance t_eq_dec : EqDecision t.
Proof. solve_decision. Defined.

Definition default : t := {|
  node_id := 0;
  host := "";
  port := 0;
  rack := None;
  unknown_tagged_fields := [] |}.

Definition encode (version : Z) (x : t) : enc :=
  let flex := is_flexible version in
  put_if (version >=? 10) (put_i32 (node_id x)) ;;
  put_if (version >=? 10) (put_flex_string flex (host x)) ;;
  put_if (version >=? 10) (put_i32 (port x)) ;;
  put_if (version >=? 10) (put_flex_nullable_string flex (rack x)) ;;
  put_if flex (put_tagged_fields (unknown_tagged_fields x)) ;;
  enc_ret.

Section decode.
Context {R : Runtime}.

Definition decode_with_budget (version : Z) : bdec t :=
  let flex := is_flexible version in
  let* node_id := get_if (version >=? 10) 0 (lift get_i32) in
  let* host := get_if (version >=? 10) "" (get_flex_string flex) in
  let* port := get_if (version >=? 10) 0 (lift get_i32) in
  let* rack := get_if (version >=? 10) None (get_flex_nullable_string flex) in
  let* unknown_tagged_fields := get_if flex [] get_tagged_fields_with_budget in
  bdec_ret (mk node_id host port rack unknown_tagged_fields).

Definition decode_with_limits (version : Z) : Limits → dec t :=
  with_limits (decode_with_budget version).
Definition decode (version : Z) : dec t := with_default_limits (decode_with_budget version).

End decode.

Definition valid (version : Z) (x : t) : Prop :=
  let flex := is_flexible version in
  in_version (version >=? 10) is_i32 0 (node_id x) ∧
  in_version (version >=? 10) (str_ok flex) "" (host x) ∧
  in_version (version >=? 10) is_i32 0 (port x) ∧
  in_version (version >=? 10) (opt_valid true (str_ok flex)) None (rack x) ∧
  in_version flex tags_ok [] (unknown_tagged_fields x).

Lemma produce_response_NodeEndpoint_agrees {R : Runtime} version x :
  9 ≤ version →
  valid version x → pairs1 (encode version x) (decode_with_budget version) x.
Proof.
  intros ?. unfold valid, encode, decode_with_budget, is_flexible. cbv zeta. agree1; by destruct x.
Qed.
#[global] Hint Resolve produce_response_NodeEndpoint_agrees : fields.

Lemma produce_response_NodeEndpoint_settles {R : Runtime} version :
  settles (encode version) (valid version) (decode_with_budget version).
Proof. unfold valid, encode, decode_with_budget, is_flexible. cbv zeta. settle. Qed.
#[global] Hint Resolve produce_response_NodeEndpoint_settles : settles.

End NodeEndpoint.

Module ProduceResponse.

Record t : Type := mk {
  responses : list TopicProduceResponse.t;
  throttle_time_ms : Z;
  node_endpoints : option (list NodeEndpoint.t);
  unknown_tagged_fields : list RawTaggedField;
}.
#[global] Instance t_eq_dec : EqDecision t.
Proof. solve_decision. Defined.

Definition default : t := {|
  responses := [];
  throttle_time_ms := 0;
  node_endpoints := None;
  unknown_tagged_fields := [] |}.

Definition API_KEY : Z := 0.
Definition MIN_VERSION : Z := 3.
Definition MAX_VERSION : Z := 13.

Definition encode (version : Z) (x : t) : enc :=
  let flex := is_flexible version in
  put_flex_array flex (TopicProduceResponse.encode version) (responses x) ;;
  put_i32 (throttle_time_ms x) ;;
  put_if flex (put_known_tags (unknown_tagged_fields x)
    [tag_field (version >=? 10) 0 (put_flex_array flex (NodeEndpoint.encode version)) (node_endpoints x)]) ;;
  enc_ret.

Section decode.
Context {R : Runtime}.

Definition known_tags (version : Z) :=
  let flex := is_flexible version in
  known_tag (version >=? 10) 0 (get_flex_structs flex "NodeEndpoint" (NodeEndpoint.decode_with_budget version)) no_tags.

Definition decode_with_budget (version : Z) : bdec t :=
  let flex := is_flexible version in
  let* responses := get_flex_structs flex "TopicProduceResponse" (TopicProduceResponse.decode_with_budget version) in
  let* throttle_time_ms := lift get_i32 in
  let* ((node_endpoints, tt), unknown_tagged_fields) :=
    get_if flex ((None, tt), []) (get_known_tags (known_tags version)) in
  bdec_ret (mk responses throttle_time_ms node_endpoints unknown_tagged_fields).

Definition decode_with_limits (version : Z) : Limits → dec t :=
  with_limits (decode_with_budget version).
Definition decode (version : Z) : dec t := with_default_limits (decode_with_budget version).

End decode.

Definition valid (version : Z) (x : t) : Prop :=
  let flex := is_flexible version in
  arr_ok flex (TopicProduceResponse.valid version) (responses x) ∧
  is_i32 (throttle_time_ms x) ∧
  in_version flex (λ _,
    in_version (version >=? 10) (tag_valid (arr_ok flex (NodeEndpoint.valid version)) (put_flex_array flex (NodeEndpoint.encode version))) None (node_endpoints x) ∧
    unknown_ok (known_list (version >=? 10) 0 []) (unknown_tagged_fields x))
    ((None, tt), []) ((node_endpoints x, tt), unknown_tagged_fields x).

Lemma produce_response_ProduceResponse_agrees {R : Runtime} version x :
  valid version x → pairs (encode version x) (decode_with_budget version) x.
Proof.
  unfold valid, encode, decode_with_budget, is_flexible. cbv zeta. agree. by destruct x.
Qed.
#[global] Hint Resolve produce_response_ProduceResponse_agrees : fields.

Lemma produce_response_ProduceResponse_settles {R : Runtime} version :
  settles (encode version) (valid version) (decode_with_budget version).
Proof. unfold valid, encode, decode_with_budget, is_flexible. cbv zeta. settle. Qed.
#[global] Hint Resolve produce_response_ProduceResponse_settles : settles.

End ProduceResponse.

Lemma ProduceResponse_agrees (R : Runtime) version x :
  ProduceResponse.MIN_VERSION ≤ version ≤ ProduceResponse.MAX_VERSION → ProduceResponse.valid version x →
  pairs (ProduceResponse.encode version x) (ProduceResponse.decode_with_budget version) x.
Proof.
  intros _ ?. by apply ProduceResponse.produce_response_ProduceResponse_agrees.
Qed.

#[global] Instance ProduceResponse_Message : Message ProduceResponse.t := {|
  Message.API_KEY := ProduceResponse.API_KEY;
  Message.MIN_VERSION := ProduceResponse.MIN_VERSION;
  Message.MAX_VERSION := ProduceResponse.MAX_VERSION;
  Message.encode := ProduceResponse.encode;
  Message.decode_with_budget := @ProduceResponse.decode_with_budget;
  Message.throttle_time_ms := λ x, Some (ProduceResponse.throttle_time_ms x);
  Message.valid := ProduceResponse.valid;
  Message.agrees := ProduceResponse_agrees;
  Message.settled := @ProduceResponse.produce_response_ProduceResponse_settles |}.
#[global] Instance ProduceResponse_Default : Default ProduceResponse.t := ProduceResponse.default.

End produce_response.
