(* ===== verification/Registry.v ===== *)
(** * Registries: api keys, error codes, header versions, the message table

    [api_key.rs], [error_code.rs], [header.rs] and [messages/mod.rs] of
    [odradek-protocol/src/].  [for_each_message] is the table the macro of that
    name expands to: a type per entry, known by its [Message] instance only.
    The theorems: the tables agree with the messages they list, every message
    of the table round-trips, and a header is read at the version the
    registry derives for it. *)
From S2P Require Import Prelude Budget Codec Wire Fields KnownTags MessageTrait.
From S2P Require Import MsgConnection MsgTxn MsgGroup MsgGroupAdmin MsgOffset MsgMetadata MsgAdmin MsgFetch MsgProduce.

(** ** [api_key.rs] *)

Module api_key.

Inductive ApiKey : Type :=
| Produce
| Fetch
| ListOffsets
| Metadata
| OffsetCommit
| OffsetFetch
| FindCoordinator
| JoinGroup
| Heartbeat
| LeaveGroup
| SyncGroup
| DescribeGroups
| ListGroups
| SaslHandshake
| ApiVersions
| CreateTopics
| DeleteTopics
| DeleteRecords
| InitProducerId
| OffsetForLeaderEpoch
| AddPartitionsToTxn
| AddOffsetsToTxn
| EndTxn
| TxnOffsetCommit
| DescribeConfigs
| AlterConfigs
| SaslAuthenticate
| CreatePartitions
| DeleteGroups
| ElectLeaders
| IncrementalAlterConfigs
| OffsetDelete
| DescribeCluster
| ConsumerGroupHeartbeat
| ConsumerGroupDescribe.

#[export] Instance ApiKey_eq_dec : EqDecision ApiKey.
Proof. solve_decision. Defined.

Definition code (k : ApiKey) : Z :=
  match k with
  | Produce => 0
  | Fetch => 1
  | ListOffsets => 2
  | Metadata => 3
  | OffsetCommit => 8
  | OffsetFetch => 9
  | FindCoordinator => 10
  | JoinGroup => 11
  | Heartbeat => 12
  | LeaveGroup => 13
  | SyncGroup => 14
  | DescribeGroups => 15
  | ListGroups => 16
  | SaslHandshake => 17
  | ApiVersions => 18
  | CreateTopics => 19
  | DeleteTopics => 20
  | DeleteRecords => 21
  | InitProducerId => 22
  | OffsetForLeaderEpoch => 23
  | AddPartitionsToTxn => 24
  | AddOffsetsToTxn => 25
  | EndTxn => 26
  | TxnOffsetCommit => 28
  | DescribeConfigs => 32
  | AlterConfigs => 33
  | SaslAuthenticate => 36
  | CreatePartitions => 37
  | DeleteGroups => 42
  | ElectLeaders => 43
  | IncrementalAlterConfigs => 44
  | OffsetDelete => 47
  | DescribeCluster => 60
  | ConsumerGroupHeartbeat => 68
  | ConsumerGroupDescribe => 69
  end.

Definition ALL : list ApiKey :=
  [Produce; Fetch; ListOffsets; Metadata; OffsetCommit; OffsetFetch;
   FindCoordinator; JoinGroup; Heartbeat; LeaveGroup; SyncGroup; DescribeGroups;
   ListGroups; SaslHandshake; ApiVersions; CreateTopics; DeleteTopics; DeleteRecords;
   InitProducerId; OffsetForLeaderEpoch; AddPartitionsToTxn; AddOffsetsToTxn; EndTxn; TxnOffsetCommit;
   DescribeConfigs; AlterConfigs; SaslAuthenticate; CreatePartitions; DeleteGroups; ElectLeaders;
   IncrementalAlterConfigs; OffsetDelete; DescribeCluster; ConsumerGroupHeartbeat; ConsumerGroupDescribe].

(** [TryFrom<i16>]. *)
Definition try_from (value : Z) : result DecodeError ApiKey :=
  match value with
  | 0 => Ok Produce
  | 1 => Ok Fetch
  | 2 => Ok ListOffsets
  | 3 => Ok Metadata
  | 8 => Ok OffsetCommit
  | 9 => Ok OffsetFetch
  | 10 => Ok FindCoordinator
  | 11 => Ok JoinGroup
  | 12 => Ok Heartbeat
  | 13 => Ok LeaveGroup
  | 14 => Ok SyncGroup
  | 15 => Ok DescribeGroups
  | 16 => Ok ListGroups
  | 17 => Ok SaslHandshake
  | 18 => Ok ApiVersions
  | 19 => Ok CreateTopics
  | 20 => Ok DeleteTopics
  | 21 => Ok DeleteRecords
  | 22 => Ok InitProducerId
  | 23 => Ok OffsetForLeaderEpoch
  | 24 => Ok AddPartitionsToTxn
  | 25 => Ok AddOffsetsToTxn
  | 26 => Ok EndTxn
  | 28 => Ok TxnOffsetCommit
  | 32 => Ok DescribeConfigs
  | 33 => Ok AlterConfigs
  | 36 => Ok SaslAuthenticate
  | 37 => Ok CreatePartitions
  | 42 => Ok DeleteGroups
  | 43 => Ok ElectLeaders
  | 44 => Ok IncrementalAlterConfigs
  | 47 => Ok OffsetDelete
  | 60 => Ok DescribeCluster
  | 68 => Ok ConsumerGroupHeartbeat
  | 69 => Ok ConsumerGroupDescribe
  | other => Err (UnknownDiscriminant "api key" other)
  end.

End api_key.

(** ** [error_code.rs] *)

Module error_code.

Definition UNKNOWN_SERVER_ERROR : Z := -1.
Definition NONE : Z := 0.
Definition OFFSET_OUT_OF_RANGE : Z := 1.
Definition CORRUPT_MESSAGE : Z := 2.
Definition UNKNOWN_TOPIC_OR_PARTITION : Z := 3.
Definition INVALID_FETCH_SIZE : Z := 4.
Definition LEADER_NOT_AVAILABLE : Z := 5.
Definition NOT_LEADER_OR_FOLLOWER : Z := 6.
Definition REQUEST_TIMED_OUT : Z := 7.
Definition BROKER_NOT_AVAILABLE : Z := 8.
Definition REPLICA_NOT_AVAILABLE : Z := 9.
Definition MESSAGE_TOO_LARGE : Z := 10.
Definition NETWORK_EXCEPTION : Z := 13.
Definition COORDINATOR_LOAD_IN_PROGRESS : Z := 14.
Definition COORDINATOR_NOT_AVAILABLE : Z := 15.
Definition NOT_COORDINATOR : Z := 16.
Definition INVALID_TOPIC_EXCEPTION : Z := 17.
Definition RECORD_LIST_TOO_LARGE : Z := 18.
Definition NOT_ENOUGH_REPLICAS : Z := 19.
Definition NOT_ENOUGH_REPLICAS_AFTER_APPEND : Z := 20.
Definition INVALID_REQUIRED_ACKS : Z := 21.
Definition ILLEGAL_GENERATION : Z := 22.
Definition INCONSISTENT_GROUP_PROTOCOL : Z := 23.
Definition INVALID_GROUP_ID : Z := 24.
Definition UNKNOWN_MEMBER_ID : Z := 25.
Definition INVALID_SESSION_TIMEOUT : Z := 26.
Definition REBALANCE_IN_PROGRESS : Z := 27.
Definition TOPIC_AUTHORIZATION_FAILED : Z := 29.
Definition GROUP_AUTHORIZATION_FAILED : Z := 30.
Definition CLUSTER_AUTHORIZATION_FAILED : Z := 31.
Definition UNSUPPORTED_SASL_MECHANISM : Z := 33.
Definition ILLEGAL_SASL_STATE : Z := 34.
Definition UNSUPPORTED_VERSION : Z := 35.
Definition TOPIC_ALREADY_EXISTS : Z := 36.
Definition INVALID_PARTITIONS : Z := 37.
Definition INVALID_REPLICATION_FACTOR : Z := 38.
Definition NOT_CONTROLLER : Z := 41.
Definition INVALID_REQUEST : Z := 42.
Definition UNSUPPORTED_FOR_MESSAGE_FORMAT : Z := 43.
Definition POLICY_VIOLATION : Z := 44.
Definition OUT_OF_ORDER_SEQUENCE_NUMBER : Z := 45.
Definition DUPLICATE_SEQUENCE_NUMBER : Z := 46.
Definition INVALID_PRODUCER_EPOCH : Z := 47.
Definition INVALID_TXN_STATE : Z := 48.
Definition INVALID_PRODUCER_ID_MAPPING : Z := 49.
Definition INVALID_TRANSACTION_TIMEOUT : Z := 50.
Definition CONCURRENT_TRANSACTIONS : Z := 51.
Definition TRANSACTION_COORDINATOR_FENCED : Z := 52.
Definition TRANSACTIONAL_ID_AUTHORIZATION_FAILED : Z := 53.
Definition OPERATION_NOT_ATTEMPTED : Z := 55.
Definition KAFKA_STORAGE_ERROR : Z := 56.
Definition SASL_AUTHENTICATION_FAILED : Z := 58.
Definition UNKNOWN_PRODUCER_ID : Z := 59.
Definition TOPIC_DELETION_DISABLED : Z := 73.
Definition UNSUPPORTED_COMPRESSION_TYPE : Z := 76.
Definition MEMBER_ID_REQUIRED : Z := 79.
Definition GROUP_MAX_SIZE_REACHED : Z := 81.
Definition PRODUCER_FENCED : Z := 90.
Definition UNKNOWN_TOPIC_ID : Z := 100.
Definition TRANSACTIONAL_ID_NOT_FOUND : Z := 105.
Definition FENCED_MEMBER_EPOCH : Z := 110.
Definition UNRELEASED_INSTANCE_ID : Z := 111.
Definition UNSUPPORTED_ASSIGNOR : Z := 112.
Definition STALE_MEMBER_EPOCH : Z := 113.
Definition TRANSACTION_ABORTABLE : Z := 120.

Definition name (code : Z) : option string :=
  match code with
  | -1 => Some "UNKNOWN_SERVER_ERROR"
  | 0 => Some "NONE"
  | 1 => Some "OFFSET_OUT_OF_RANGE"
  | 2 => Some "CORRUPT_MESSAGE"
  | 3 => Some "UNKNOWN_TOPIC_OR_PARTITION"
  | 4 => Some "INVALID_FETCH_SIZE"
  | 5 => Some "LEADER_NOT_AVAILABLE"
  | 6 => Some "NOT_LEADER_OR_FOLLOWER"
  | 7 => Some "REQUEST_TIMED_OUT"
  | 8 => Some "BROKER_NOT_AVAILABLE"
  | 9 => Some "REPLICA_NOT_AVAILABLE"
  | 10 => Some "MESSAGE_TOO_LARGE"
  | 13 => Some "NETWORK_EXCEPTION"
  | 14 => Some "COORDINATOR_LOAD_IN_PROGRESS"
  | 15 => Some "COORDINATOR_NOT_AVAILABLE"
  | 16 => Some "NOT_COORDINATOR"
  | 17 => Some "INVALID_TOPIC_EXCEPTION"
  | 18 => Some "RECORD_LIST_TOO_LARGE"
  | 19 => Some "NOT_ENOUGH_REPLICAS"
  | 20 => Some "NOT_ENOUGH_REPLICAS_AFTER_APPEND"
  | 21 => Some "INVALID_REQUIRED_ACKS"
  | 22 => Some "ILLEGAL_GENERATION"
  | 23 => Some "INCONSISTENT_GROUP_PROTOCOL"
  | 24 => Some "INVALID_GROUP_ID"
  | 25 => Some "UNKNOWN_MEMBER_ID"
  | 26 => Some "INVALID_SESSION_TIMEOUT"
  | 27 => Some "REBALANCE_IN_PROGRESS"
  | 29 => Some "TOPIC_AUTHORIZATION_FAILED"
  | 30 => Some "GROUP_AUTHORIZATION_FAILED"
  | 31 => Some "CLUSTER_AUTHORIZATION_FAILED"
  | 33 => Some "UNSUPPORTED_SASL_MECHANISM"
  | 34 => Some "ILLEGAL_SASL_STATE"
  | 35 => Some "UNSUPPORTED_VERSION"
  | 36 => Some "TOPIC_ALREADY_EXISTS"
  | 37 => Some "INVALID_PARTITIONS"
  | 38 => Some "INVALID_REPLICATION_FACTOR"
  | 41 => Some "NOT_CONTROLLER"
  | 42 => Some "INVALID_REQUEST"
  | 43 => Some "UNSUPPORTED_FOR_MESSAGE_FORMAT"
  | 44 => Some "POLICY_VIOLATION"
  | 45 => Some "OUT_OF_ORDER_SEQUENCE_NUMBER"
  | 46 => Some "DUPLICATE_SEQUENCE_NUMBER"
  | 47 => Some "INVALID_PRODUCER_EPOCH"
  | 48 => Some "INVALID_TXN_STATE"
  | 49 => Some "INVALID_PRODUCER_ID_MAPPING"
  | 50 => Some "INVALID_TRANSACTION_TIMEOUT"
  | 51 => Some "CONCURRENT_TRANSACTIONS"
  | 52 => Some "TRANSACTION_COORDINATOR_FENCED"
  | 53 => Some "TRANSACTIONAL_ID_AUTHORIZATION_FAILED"
  | 55 => Some "OPERATION_NOT_ATTEMPTED"
  | 56 => Some "KAFKA_STORAGE_ERROR"
  | 58 => Some "SASL_AUTHENTICATION_FAILED"
  | 59 => Some "UNKNOWN_PRODUCER_ID"
  | 73 => Some "TOPIC_DELETION_DISABLED"
  | 76 => Some "UNSUPPORTED_COMPRESSION_TYPE"
  | 79 => Some "MEMBER_ID_REQUIRED"
  | 81 => Some "GROUP_MAX_SIZE_REACHED"
  | 90 => Some "PRODUCER_FENCED"
  | 100 => Some "UNKNOWN_TOPIC_ID"
  | 105 => Some "TRANSACTIONAL_ID_NOT_FOUND"
  | 110 => Some "FENCED_MEMBER_EPOCH"
  | 111 => Some "UNRELEASED_INSTANCE_ID"
  | 112 => Some "UNSUPPORTED_ASSIGNOR"
  | 113 => Some "STALE_MEMBER_EPOCH"
  | 120 => Some "TRANSACTION_ABORTABLE"
  | _ => None
  end%string.

Definition is_ok (code : Z) : bool := code =? 0.

End error_code.

(** ** [messages/mod.rs] *)

Definition request_is_flexible (api_key api_version : Z) : option bool :=
  match api_key with
  | 25 => Some (add_offsets_to_txn_request.is_flexible api_version)
  | 24 => Some (add_partitions_to_txn_request.is_flexible api_version)
  | 18 => Some (api_versions_request.is_flexible api_version)
  | 68 => Some (consumer_group_heartbeat_request.is_flexible api_version)
  | 19 => Some (create_topics_request.is_flexible api_version)
  | 20 => Some (delete_topics_request.is_flexible api_version)
  | 32 => Some (describe_configs_request.is_flexible api_version)
  | 15 => Some (describe_groups_request.is_flexible api_version)
  | 26 => Some (end_txn_request.is_flexible api_version)
  | 1 => Some (fetch_request.is_flexible api_version)
  | 10 => Some (find_coordinator_request.is_flexible api_version)
  | 12 => Some (heartbeat_request.is_flexible api_version)
  | 22 => Some (init_producer_id_request.is_flexible api_version)
  | 11 => Some (join_group_request.is_flexible api_version)
  | 13 => Some (leave_group_request.is_flexible api_version)
  | 16 => Some (list_groups_request.is_flexible api_version)
  | 2 => Some (list_offsets_request.is_flexible api_version)
  | 3 => Some (metadata_request.is_flexible api_version)
  | 8 => Some (offset_commit_request.is_flexible api_version)
  | 9 => Some (offset_fetch_request.is_flexible api_version)
  | 0 => Some (produce_request.is_flexible api_version)
  | 36 => Some (sasl_authenticate_request.is_flexible api_version)
  | 17 => Some (sasl_handshake_request.is_flexible api_version)
  | 14 => Some (sync_group_request.is_flexible api_version)
  | 28 => Some (txn_offset_commit_request.is_flexible api_version)
  | _ => None
  end.

Definition supported_versions (api_key : Z) : option (Z * Z) :=
  match api_key with
  | 25 => Some (0, 4)
  | 24 => Some (0, 5)
  | 18 => Some (0, 4)
  | 68 => Some (0, 1)
  | 19 => Some (2, 7)
  | 20 => Some (1, 6)
  | 32 => Some (1, 4)
  | 15 => Some (0, 6)
  | 26 => Some (0, 5)
  | 1 => Some (4, 18)
  | 10 => Some (0, 6)
  | 12 => Some (0, 4)
  | 22 => Some (0, 6)
  | 11 => Some (0, 9)
  | 13 => Some (0, 5)
  | 16 => Some (0, 5)
  | 2 => Some (1, 10)
  | 3 => Some (0, 13)
  | 8 => Some (2, 10)
  | 9 => Some (1, 10)
  | 0 => Some (3, 13)
  | 36 => Some (0, 2)
  | 17 => Some (0, 1)
  | 14 => Some (0, 5)
  | 28 => Some (0, 5)
  | _ => None
  end.

(** An entry of the table: the type, behind its instance, and its name. *)
Record Keyed : Type := keyed {
  type_name : string;
  ty : Type;
  #[global] keyed_Message :: Message ty;
  #[global] keyed_Default :: Default ty;
  #[global] keyed_eq :: EqDecision ty;
}.
Arguments keyed type_name ty {keyed_Message keyed_Default keyed_eq}.

Definition for_each_message : list Keyed :=
  [keyed "AddOffsetsToTxnRequest" add_offsets_to_txn_request.AddOffsetsToTxnRequest.t;
   keyed "AddOffsetsToTxnResponse" add_offsets_to_txn_response.AddOffsetsToTxnResponse.t;
   keyed "AddPartitionsToTxnRequest" add_partitions_to_txn_request.AddPartitionsToTxnRequest.t;
   keyed "AddPartitionsToTxnResponse" add_partitions_to_txn_response.AddPartitionsToTxnResponse.t;
   keyed "ApiVersionsRequest" api_versions_request.ApiVersionsRequest.t;
   keyed "ApiVersionsResponse" api_versions_response.ApiVersionsResponse.t;
   keyed "ConsumerGroupHeartbeatRequest" consumer_group_heartbeat_request.ConsumerGroupHeartbeatRequest.t;
   keyed "ConsumerGroupHeartbeatResponse" consumer_group_heartbeat_response.ConsumerGroupHeartbeatResponse.t;
   keyed "CreateTopicsRequest" create_topics_request.CreateTopicsRequest.t;
   keyed "CreateTopicsResponse" create_topics_response.CreateTopicsResponse.t;
   keyed "DeleteTopicsRequest" delete_topics_request.DeleteTopicsRequest.t;
   keyed "DeleteTopicsResponse" delete_topics_response.DeleteTopicsResponse.t;
   keyed "DescribeConfigsRequest" describe_configs_request.DescribeConfigsRequest.t;
   keyed "DescribeConfigsResponse" describe_configs_response.DescribeConfigsResponse.t;
   keyed "DescribeGroupsRequest" describe_groups_request.DescribeGroupsRequest.t;
   keyed "DescribeGroupsResponse" describe_groups_response.DescribeGroupsResponse.t;
   keyed "EndTxnRequest" end_txn_request.EndTxnRequest.t;
   keyed "EndTxnResponse" end_txn_response.EndTxnResponse.t;
   keyed "FetchRequest" fetch_request.FetchRequest.t;
   keyed "FetchResponse" fetch_response.FetchResponse.t;
   keyed "FindCoordinatorRequest" find_coordinator_request.FindCoordinatorRequest.t;
   keyed "FindCoordinatorResponse" find_coordinator_response.FindCoordinatorResponse.t;
   keyed "HeartbeatRequest" heartbeat_request.HeartbeatRequest.t;
   keyed "HeartbeatResponse" heartbeat_response.HeartbeatResponse.t;
   keyed "InitProducerIdRequest" init_producer_id_request.InitProducerIdRequest.t;
   keyed "InitProducerIdResponse" init_producer_id_response.InitProducerIdResponse.t;
   keyed "JoinGroupRequest" join_group_request.JoinGroupRequest.t;
   keyed "JoinGroupResponse" join_group_response.JoinGroupResponse.t;
   keyed "LeaveGroupRequest" leave_group_request.LeaveGroupRequest.t;
   keyed "LeaveGroupResponse" leave_group_response.LeaveGroupResponse.t;
   keyed "ListGroupsRequest" list_groups_request.ListGroupsRequest.t;
   keyed "ListGroupsResponse" list_groups_response.ListGroupsResponse.t;
   keyed "ListOffsetsRequest" list_offsets_request.ListOffsetsRequest.t;
   keyed "ListOffsetsResponse" list_offsets_response.ListOffsetsResponse.t;
   keyed "MetadataRequest" metadata_request.MetadataRequest.t;
   keyed "MetadataResponse" metadata_response.MetadataResponse.t;
   keyed "OffsetCommitRequest" offset_commit_request.OffsetCommitRequest.t;
   keyed "OffsetCommitResponse" offset_commit_response.OffsetCommitResponse.t;
   keyed "OffsetFetchRequest" offset_fetch_request.OffsetFetchRequest.t;
   keyed "OffsetFetchResponse" offset_fetch_response.OffsetFetchResponse.t;
   keyed "ProduceRequest" produce_request.ProduceRequest.t;
   keyed "ProduceResponse" produce_response.ProduceResponse.t;
   keyed "SaslAuthenticateRequest" sasl_authenticate_request.SaslAuthenticateRequest.t;
   keyed "SaslAuthenticateResponse" sasl_authenticate_response.SaslAuthenticateResponse.t;
   keyed "SaslHandshakeRequest" sasl_handshake_request.SaslHandshakeRequest.t;
   keyed "SaslHandshakeResponse" sasl_handshake_response.SaslHandshakeResponse.t;
   keyed "SyncGroupRequest" sync_group_request.SyncGroupRequest.t;
   keyed "SyncGroupResponse" sync_group_response.SyncGroupResponse.t;
   keyed "TxnOffsetCommitRequest" txn_offset_commit_request.TxnOffsetCommitRequest.t;
   keyed "TxnOffsetCommitResponse" txn_offset_commit_response.TxnOffsetCommitResponse.t].

Definition key_of (m : Keyed) : Z := Message.API_KEY (M := ty m).
Definition versions_of (m : Keyed) : Z * Z :=
  (Message.MIN_VERSION (M := ty m), Message.MAX_VERSION (M := ty m)).
Definition is_request (m : Keyed) : bool :=
  let n := String.length (type_name m) in
  String.eqb (String.substring (n - 7) 7 (type_name m)) "Request".

(** ** [header.rs] *)

Definition request_header_version (k version : Z) : option Z :=
  match request_is_flexible k version with
  | Some flexible => Some (if flexible then 2 else 1)
  | None => None
  end.

(** [ApiVersions] answers at header 0 whatever the version: the client does
    not know yet what the broker understands. *)
Definition response_header_version (k version : Z) : option Z :=
  if k =? api_key.code api_key.ApiVersions then Some 0
  else match request_is_flexible k version with
       | Some flexible => Some (if flexible then 1 else 0)
       | None => None
       end.

(** ** Facts of the tables *)

(** Splits on the literals of a table, leaving one goal per branch. *)
Ltac by_table k :=
  destruct k as [|k|k]; repeat (try reflexivity; try discriminate; destruct k as [k|k|]).

Lemma api_key_all k : k ∈ api_key.ALL.
Proof. apply list_elem_of_In. destruct k; cbn; tauto. Qed.

Lemma api_key_code_try_from k : api_key.try_from (api_key.code k) = Ok k.
Proof. by destruct k. Qed.

Lemma api_key_try_from_code z k : api_key.try_from z = Ok k → api_key.code k = z.
Proof.
  unfold api_key.try_from. intros H.
  repeat (case_match; simplify_eq; try reflexivity).
Qed.

Lemma error_name_table z s :
  error_code.name z = Some s → ∀ z', error_code.name z' = Some s → z = z'.
Proof.
  assert (∀ w t, error_code.name w = Some t →
    (w, t) ∈ (omap (λ i, pair i <$> error_code.name i) (seqZ (-1) 130))) as H.
  { intros w t Hw. apply list_elem_of_omap. exists w. rewrite Hw. split; [|done].
    apply elem_of_seqZ. unfold error_code.name in Hw.
    repeat (case_match; try discriminate; try lia). }
  intros Hs z' Hs'. apply H in Hs, Hs'. revert Hs Hs'.
  set (l := omap _ _). vm_compute in l. subst l. revert z z' s.
  assert (∀ (l : list (Z * string)), NoDup (snd <$> l) →
    ∀ z z' s, (z, s) ∈ l → (z', s) ∈ l → z = z') as Hinj.
  { intros l Hl z z' s H1 H2. apply list_elem_of_lookup in H1 as [i Hi], H2 as [j Hj].
    assert (i = j) as ->; [|congruence].
    eapply (NoDup_lookup (snd <$> l)); [done| |]; rewrite list_lookup_fmap; [by rewrite Hi|by rewrite Hj]. }
  apply Hinj. apply (bool_decide_unpack _). by vm_compute.
Qed.

(** The keys of the tables, in the order of [supported_versions]. *)
Definition table_keys : list Z :=
  [25; 24; 18; 68; 19; 20; 32; 15; 26; 1; 10; 12; 22; 11; 13; 16; 2; 3; 8; 9; 0; 36; 17; 14; 28].

Lemma supported_in_table k r : supported_versions k = Some r → k ∈ table_keys.
Proof.
  unfold supported_versions. intros H. apply list_elem_of_In.
  repeat (case_match; try discriminate); cbn; tauto.
Qed.

Lemma in_table_supported k : k ∈ table_keys → is_Some (supported_versions k).
Proof.
  revert k. refine (proj1 (Forall_forall (λ k, is_Some (supported_versions k)) _) _).
  unfold table_keys. repeat constructor; by eexists.
Qed.

Lemma flexible_iff_supported k v :
  is_Some (request_is_flexible k v) ↔ is_Some (supported_versions k).
Proof.
  split.
  - unfold request_is_flexible, supported_versions. intros [b H].
    repeat (case_match; try discriminate; try by eexists).
  - intros [r H]. apply supported_in_table in H. revert k H.
    refine (proj1 (Forall_forall (λ k, is_Some (request_is_flexible k v)) _) _).
    unfold table_keys. repeat constructor; by eexists.
Qed.

Lemma message_keys_in_table m : m ∈ for_each_message → key_of m ∈ table_keys.
Proof.
  revert m. refine (proj1 (Forall_forall (λ m, key_of m ∈ table_keys) _) _).
  unfold for_each_message.
  repeat constructor; apply list_elem_of_In; cbn; tauto.
Qed.

(** The request and the response of a key are both in the table, at the range
    the registry gives. *)
Definition served (k : Z) (r : Z * Z) : Prop :=
  ∃ req resp, req ∈ for_each_message ∧ resp ∈ for_each_message ∧
    is_request req = true ∧ is_request resp = false ∧
    key_of req = k ∧ key_of resp = k ∧ versions_of req = r ∧ versions_of resp = r.

Definition servedb (k : Z) : bool :=
  match supported_versions k with
  | Some (lo, hi) =>
      let like b m := Bool.eqb (is_request m) b && (key_of m =? k) &&
        ((versions_of m).1 =? lo) && ((versions_of m).2 =? hi) in
      existsb (like true) for_each_message && existsb (like false) for_each_message &&
      (0 <=? lo) && (lo <=? hi) && is_ok (api_key.try_from k)
  | None => false
  end.

Lemma servedb_table k : k ∈ table_keys → servedb k = true.
Proof.
  revert k. refine (proj1 (Forall_forall (λ k, servedb k = true) _) _). by repeat constructor.
Qed.

Lemma table_served k r :
  supported_versions k = Some r →
  served k r ∧ 0 ≤ r.1 ≤ r.2 ∧ is_ok (api_key.try_from k) = true.
Proof.
  intros H. pose proof (servedb_table k (supported_in_table k r H)) as Hb.
  unfold servedb in Hb. rewrite H in Hb. destruct r as [lo hi].
  cbv zeta in Hb. apply andb_true_iff in Hb as [[[[H1 H2]%andb_true_iff H3]%andb_true_iff
    H4]%andb_true_iff H5].
  apply existsb_exists in H1 as (m & Hm & Em), H2 as (m' & Hm' & Em').
  rewrite !andb_true_iff, !Z.eqb_eq, !eqb_true_iff in Em, Em'.
  split; [|split; [cbn [fst snd]; lia|done]].
  exists m, m'. rewrite !list_elem_of_In. unfold versions_of in *. cbn [fst snd] in Em, Em'.
  destruct Em as (((? & ?) & <-) & <-), Em' as (((? & ?) & ->) & ->). done.
Qed.

(** What a header that decodes begins with. *)
Lemma request_header_front {R : Runtime} hv l payload header rest :
  request_header.RequestHeader.decode_with_limits hv l payload = Ok (header, rest) →
  8 ≤ len payload ∧ sint 16 (be_val (take 2 payload)) = request_header.RequestHeader.request_api_key header ∧
  sint 16 (be_val (take 2 (drop 2 payload))) = request_header.RequestHeader.request_api_version header.
Proof.
  unfold request_header.RequestHeader.decode_with_limits, with_limits, request_header.RequestHeader.decode_with_budget, lift, get_i16, get_i32,
    ensure, bdec_bind, dec_bind, buf_get_int. cbv beta zeta.
  destruct (Z.ltb_spec (len payload) 2); cbn [res_bind]; [done|]. rewrite length_drop.
  destruct (Z.ltb_spec (Z.of_nat (length payload - 2)) 2); cbn [res_bind]; [done|].
  rewrite drop_drop, length_drop. destruct (Z.ltb_spec (Z.of_nat (length payload - (2 + 2))) 4); cbn [res_bind]; [done|].
  intros ([[h rest'] b] & ([[client buf2] b2] & _ & ([[tags buf3] b3] & _ & E)%res_bind_ok)%res_bind_ok & E')%res_bind_ok.
  injection E as <- _ _. injection E' as <- _. split; [lia|done].
Qed.

(** ** Properties *)

(** The registry and the message types agree.  A key with a version range
    is a known api key, has a request and a response type in the message table,
    both speaking exactly that range, and its flexibility is known at every
    version; a key with none has no type in the table and no flexibility. *)
Theorem registry_matches_messages k :
  match supported_versions k with
  | Some r =>
      served k r ∧ 0 ≤ r.1 ≤ r.2 ∧ is_ok (api_key.try_from k) = true ∧
      ∀ v, is_Some (request_is_flexible k v)
  | None =>
      (∀ m, m ∈ for_each_message → key_of m ≠ k) ∧ ∀ v, request_is_flexible k v = None
  end.
Proof.
  destruct (supported_versions k) as [r|] eqn:E.
  - destruct (table_served k r E) as (? & ? & ?). split_and!; try done; try lia.
    intros v. apply flexible_iff_supported. by rewrite E.
  - split.
    + intros m Hm Hk. apply message_keys_in_table, in_table_supported in Hm as [r Hr]. congruence.
    + intros v. apply eq_None_not_Some. rewrite flexible_iff_supported, E.
      by intros [].
Qed.

(** An api key survives the wire: decoding its code gives it back, a code
    that decodes is that key's code, every other [i16] is an error that carries
    it, and [ALL] lists every key. *)
Theorem api_key_roundtrip k z :
  api_key.try_from (api_key.code k) = Ok k ∧ k ∈ api_key.ALL ∧
  match api_key.try_from z with
  | Ok k' => api_key.code k' = z
  | Err e => e = UnknownDiscriminant "api key" z ∧ ∀ k', api_key.code k' ≠ z
  end.
Proof.
  split; [apply api_key_code_try_from|]. split; [apply api_key_all|].
  destruct (api_key.try_from z) as [k'|e] eqn:E; [by apply api_key_try_from_code|].
  split; [|intros k' <-; by rewrite api_key_code_try_from in E].
  unfold api_key.try_from in E. repeat (case_match; simplify_eq; try reflexivity).
Qed.

(** C1: every message type of the protocol round-trips.  At each version its
    type supports, a representable value encodes; whatever follows the encoding,
    decoding it yields that value and leaves exactly what followed, unless the
    allocation policy refuses the input -- and with no policy and an allocator
    that does not fail, it never does.  No other value has the same encoding. *)
Theorem every_message_round_trips {R : Runtime} (m : Keyed) (version : Z) (x : ty m) :
  m ∈ for_each_message →
  (versions_of m).1 ≤ version ≤ (versions_of m).2 →
  Message.valid version x →
  ∃ bs, enc_bytes (Message.encode version x) = Ok bs ∧
    (∀ rest l,
       Message.decode_with_limits (M := ty m) version l (bs ++ rest) = Ok (x, rest) ∨
       ∃ e, Message.decode_with_limits (M := ty m) version l (bs ++ rest) = Err e ∧ is_alloc_error e) ∧
    (reliable R → ∀ rest,
       Message.decode_with_limits (M := ty m) version Limits.UNLIMITED (bs ++ rest) = Ok (x, rest)) ∧
    (∀ y : ty m, Message.valid version y → enc_bytes (Message.encode version y) = Ok bs → y = x).
Proof.
  intros _ Hv Hx. destruct (Message.roundtrip version x Hv Hx) as (bs & He & Hl & Hu).
  exists bs. split_and!; [done|done|done|]. intros y Hy Hy'.
  by eapply Message.encode_inj.
Qed.

(** *** Witnesses *)

Definition sample_response : fetch_response.FetchResponse.t :=
  fetch_response.FetchResponse.mk 30 0 77
    [fetch_response.FetchableTopicResponse.mk "" (replicate 16 Byte.x2a)
      [fetch_response.PartitionData.mk 3 0 1000 990 0 (Some []) (-1)
         (Some [Byte.x01; Byte.x02]) None (Some (fetch_response.LeaderIdAndEpoch.mk 2 7 [])) None []] []]
    (Some [fetch_response.NodeEndpoint.mk 2 "broker" 9092 None []]) [].

Lemma every_message_round_trips_witness :
  ∃ bs, enc_bytes (Message.encode 16 sample_response) = Ok bs ∧
    Message.decode_with_limits (R := plain_runtime) 16 Limits.UNLIMITED bs =
      Ok (sample_response, []).
Proof.
  destruct (every_message_round_trips (R := plain_runtime)
    (keyed "FetchResponse" fetch_response.FetchResponse.t) 16 sample_response) as (bs & He & _ & H & _).
  - apply list_elem_of_In. cbn. tauto.
  - vm_compute. split; discriminate.
  - valid_sample.
  - exists bs. split; [exact He|]. rewrite <- (app_nil_r bs) at 1. apply H, plain_reliable.
Defined.
