(* ===== verification/Proxy.v ===== *)
(** * What a proxy sends on ([odradek-protocol/src/records.rs], the re-encoding)

    A proxy decodes a record batch and encodes it again.  [comes Q d] says what
    the decoder [d] accepts in terms of the very bytes it consumed; with it, the
    wire form of an accepted record, batch or record set is the bytes it came
    from, or is shorter -- shorter exactly when a varint in them was overlong.
    The theorems: the guarantee as it holds, and the batch that breaks the
    guarantee as it is stated. *)
From S2P Require Import Prelude Budget Codec Wire Crc Records Fields KnownTags Settles.
Import BudgetOps.

(** ** Decoders and the bytes they consume *)

Definition comes {A} (Q : A → list byte → Prop) (d : bdec A) : Prop :=
  ∀ buf b x buf' b', len buf ≤ i64_max → d buf b = Ok (x, buf', b') →
    ∃ c, buf = c ++ buf' ∧ Q x c.

(** [d] yields values in [P], whose wire form is what they came from, or
    shorter. *)
Definition echoes {A} (f : A → list byte) (P : A → Prop) (d : bdec A) : Prop :=
  comes (λ x c, P x ∧ tight (f x) c) d.

Section rules.

Lemma comes_ret {A} (Q : A → list byte → Prop) x : Q x [] → comes Q (bdec_ret x).
Proof. intros H buf b y buf' b' _ [= <- <- <-]. by exists []. Qed.

Lemma comes_fail {A} (Q : A → list byte → Prop) e : comes Q (bdec_fail e).
Proof. by intros ??????. Qed.

Lemma comes_mono {A} (Q Q' : A → list byte → Prop) d :
  comes Q d → (∀ x c, len c ≤ i64_max → Q x c → Q' x c) → comes Q' d.
Proof.
  intros H HQ buf b x buf' b' Hl E. destruct (H _ _ _ _ _ Hl E) as (c & -> & Hx).
  exists c. rewrite length_app in Hl. split; [done|]. apply HQ; [lia|done].
Qed.

Lemma comes_bind {A B} Q1 (Q : B → list byte → Prop) (d : bdec A) (k : A → bdec B) :
  comes Q1 d → (∀ x c, len c ≤ i64_max → Q1 x c → comes (λ y c', Q y (c ++ c')) (k x)) →
  comes Q (let* x := d in k x).
Proof.
  intros H1 H2 buf b y buf2 b2 Hl E.
  apply bdec_bind_ok in E as (x & buf1 & b1 & E1 & E2).
  destruct (H1 _ _ _ _ _ Hl E1) as (c & -> & Hx). rewrite length_app in Hl.
  assert (len c ≤ i64_max ∧ len buf1 ≤ i64_max) as [Hc Hb] by lia.
  destruct (H2 x c Hc Hx buf1 b1 y buf2 b2 Hb E2) as (c' & -> & Hy).
  exists (c ++ c'). by rewrite app_assoc.
Qed.

(** A step that only looks at what was read. *)
Lemma comes_of {A} (Q : A → list byte → Prop) r :
  (∀ x, r = Ok x → Q x []) → comes Q (lift (dec_of r)).
Proof. intros H buf b x buf' b' _ (Hr & -> & ->)%lift_of_ok. exists []. split; [done|by apply H]. Qed.

Lemma comes_of_bind {A B} (Q : B → list byte → Prop) (r : result DecodeError A) (k : A → bdec B) :
  (∀ x, r = Ok x → comes Q (k x)) → comes Q (let* x := lift (dec_of r) in k x).
Proof.
  intros H. eapply comes_bind; [apply (comes_of (λ x c, r = Ok x ∧ c = [])); done|].
  cbn beta. intros x c _ [Hx ->]. by apply H.
Qed.

(** A field and the rest of what is spelled. *)
Lemma echoes_bind {A B} (f : A → list byte) (P : A → Prop) (Q : B → list byte → Prop) d (k : A → bdec B) :
  echoes f P d →
  (∀ x c, len c ≤ i64_max → P x → tight (f x) c → comes (λ y c', Q y (c ++ c')) (k x)) →
  comes Q (let* x := d in k x).
Proof. intros H1 H2. eapply comes_bind; [exact H1|]. cbn beta. intros x c Hc [HP Ht]. by apply H2. Qed.

Section loops.
Context {R : Runtime}.

Lemma comes_loop {S} (I : Z → S → list byte → Prop) n (body : S → bdec S) s0 :
  0 ≤ n → I 0 s0 [] →
  (∀ k s c, 0 ≤ k < n → I k s c → comes (λ s' c', I (k + 1) s' (c ++ c')) (body s)) →
  comes (I n) (bloop n body s0).
Proof.
  intros Hn H0 Hb buf b s' buf' b' Hl. unfold bloop. rewrite iter_Z_nat.
  enough (∀ j k s c buf b, k + Z.of_nat j = n → 0 ≤ k → I k s c → len buf ≤ i64_max →
    iter_nat j (λ '(s, buf, b), body s buf b) (s, buf, b) = Ok (s', buf', b') →
    ∃ c', buf = c' ++ buf' ∧ I n s' (c ++ c')) as H.
  { intros E. apply (H (Z.to_nat n) 0 s0 [] buf b); [lia|lia|done|done|done]. }
  clear H0 Hl s0 buf b. induction j as [|j IH]; intros k s c buf b Hk Hk0 Hi Hl; cbn [iter_nat].
  - intros [= <- <- <-]. exists []. rewrite app_nil_r. by replace n with k by lia.
  - intros E. apply res_bind_ok in E as ([[s1 buf1] b1] & E1 & E2).
    destruct (Hb k s c ltac:(lia) Hi _ _ _ _ _ Hl E1) as (c1 & -> & Hi1).
    rewrite length_app in Hl.
    destruct (IH (k + 1) s1 _ buf1 b1 ltac:(lia) ltac:(lia) Hi1 ltac:(lia) E2) as (c2 & -> & Hi2).
    exists (c1 ++ c2). by rewrite <- !app_assoc in *.
Qed.

Lemma echoes_structs {T} ty (f : T → list byte) (P : T → Prop) (d : bdec T) n :
  echoes f P d → 0 ≤ n →
  echoes (λ l, concat (f <$> l)) (λ l, len l = n ∧ Forall P l) (get_structs ty d n).
Proof.
  intros Hd Hn. eapply comes_bind.
  - apply (comes_loop (λ k v c, len (items v) = k ∧ Forall P (items v) ∧
      tight (concat (f <$> items v)) c)); [done| |].
    + split; [done|]. split; [constructor|apply tight_refl].
    + intros k v c _ (Hk & HP & Ht) buf b v' buf' b' Hl E.
      apply bdec_bind_ok in E as (mark & ? & ? & [= <- <- <-] & E).
      apply bdec_bind_ok in E as (x & buf1 & b1 & E1 & E).
      apply bdec_bind_ok in E as ([] & ? & ? & Ep & E).
      unfold bprogress in Ep. apply res_bind_ok in Ep as (? & _ & [= <- <-]).
      destruct (Hd _ _ _ _ _ Hl E1) as (cx & -> & Hx & Htx).
      pose proof (bpush_ok _ _ _ _ _ _ _ _ E) as Hi.
      apply bpush_buffer in E as ->. exists cx. split; [done|]. rewrite Hi, length_app. cbn [length].
      split; [lia|]. split; [apply Forall_app; by repeat constructor|].
      rewrite fmap_app, concat_app. apply tight_app; [done|]. cbn. by rewrite app_nil_r.
  - cbn beta. intros v c _ (? & ? & ?). apply comes_ret. rewrite app_nil_r. done.
Qed.

End loops.
End rules.

(** ** Records *)

Lemma zigzag_encode_decode u : is_u64 u → zigzag_encode (zigzag_decode u) = u.
Proof.
  intros Hu. rewrite zigzag_encode_spec by by apply zigzag_decode_i64.
  rewrite zigzag_decode_spec by done. pose proof (Z.div_mod u 2 ltac:(lia)).
  assert (0 ≤ u / 2) by (apply Z.div_pos; [by destruct Hu|lia]).
  pose proof (Z.mod_pos_bound u 2 eq_refl). destruct (Z.eqb_spec (u mod 2) 0).
  - destruct (Z.ltb_spec (u / 2) 0); lia.
  - destruct (Z.ltb_spec (- (u / 2) - 1) 0); lia.
Qed.

Lemma get_svarint_tight buf v buf' :
  get_varint buf = Ok (v, buf') → ∃ c, buf = c ++ buf' ∧ is_i64 v ∧ tight (svarint_bytes v) c.
Proof.
  unfold get_varint, dec_bind. intros ([u buf1] & E & E')%res_bind_ok.
  injection E' as <- <-. apply get_varint_tight in E as (c & -> & Hu & Ht).
  exists c. split; [done|]. split; [by apply zigzag_decode_i64|].
  unfold svarint_bytes. by rewrite zigzag_encode_decode.
Qed.

Lemma echoes_varint : echoes svarint_bytes is_i64 (lift get_varint).
Proof.
  intros buf b x buf' b' _ E. unfold lift in E. apply res_bind_ok in E as ([v buf1] & E & E').
  injection E' as <- <- <-. by apply get_svarint_tight.
Qed.

(** Longer contents have longer lengths. *)
Lemma svarint_mono n m : 0 ≤ n ≤ m → m ≤ i64_max → len (svarint_bytes n) ≤ len (svarint_bytes m).
Proof.
  intros Hn Hm. unfold svarint_bytes. rewrite !zigzag_encode_spec by int_lia.
  destruct (Z.ltb_spec n 0), (Z.ltb_spec m 0); try lia. apply varint_bytes_mono. lia.
Qed.

Lemma echoes_varint_bytes : echoes varint_field opt_ok (lift get_varint_bytes).
Proof.
  intros buf b x buf' b' Hl E. unfold lift in E. apply res_bind_ok in E as ([o buf1] & E & E').
  injection E' as <- <- <-. unfold get_varint_bytes, dec_bind in E.
  apply res_bind_ok in E as ([n buf2] & E1 & E).
  apply get_svarint_tight in E1 as (c & -> & Hn & Ht). rewrite length_app in Hl.
  destruct (Z.eqb_spec n (-1)) as [->|Hneg].
  { injection E as <- <-. by exists c. }
  apply res_bind_ok in E as ([n' buf3] & En & E). unfold dec_of, ok_or in En.
  destruct (try_from 0 usize_max n) as [z|] eqn:Ez; [|done]. apply try_from_Some in Ez as [-> Hr].
  injection En as <- <-. apply res_bind_ok in E as (? & [-> Hlen]%ensure_inv & E).
  apply res_bind_ok in E as ([v buf4] & [-> Hv]%copy_inv & E); [|lia].
  injection E as <- <-. exists (c ++ v). rewrite app_assoc. split; [done|].
  rewrite length_app in Hl. split; [cbn; lia|]. cbn [varint_field]. rewrite Hv.
  apply tight_app; [done|apply tight_refl].
Qed.

Section records.
Context {R : Runtime}.

Lemma echoes_header : echoes header_field header_ok KRecordOps.decode_header.
Proof.
  eapply echoes_bind; [apply echoes_varint_bytes|]. intros o c Hc Ho Ht.
  apply comes_of_bind. intros k Hk. destruct o as [v|]; [|done]. injection Hk as <-.
  apply comes_of_bind. intros s Hs. unfold from_utf8 in Hs.
  destruct (utf8_valid v) eqn:Hu; [|done]. injection Hs as <-.
  eapply echoes_bind; [apply echoes_varint_bytes|]. intros o' c' _ Ho' Ht'.
  apply comes_ret. rewrite app_nil_r. unfold header_ok, header_field, is_str, str_len.
  cbn [header_key header_value]. rewrite str_bytes_str. split; [|by apply tight_app].
  split; [done|]. done.
Qed.

(** A record's fields, from its own slice. *)
Definition fields_ok (r : KRecord) : Prop :=
  is_i8 (record_attributes r) ∧ is_i64 (timestamp_delta r) ∧ is_i32 (offset_delta r) ∧
  opt_ok (key r) ∧ opt_ok (value r) ∧ Forall header_ok (headers r).

Lemma comes_record_body body b r body' b' :
  body ≠ [] → len body ≤ i64_max → KRecordOps.decode_body body b = Ok (r, body', b') →
  ∃ c, body = c ++ body' ∧ fields_ok r ∧ tight (record_body r) c.
Proof.
  intros Hne Hl E. unfold KRecordOps.decode_body in E.
  apply bdec_bind_ok in E as (a & buf1 & b1 & E1 & E).
  unfold lift in E1. apply res_bind_ok in E1 as ([a' buf2] & E1 & E1'). injection E1' as -> <- <-.
  apply (get_int_inv 1) in E1 as [-> Ha]; [|destruct body; [done|cbn; lia]].
  rewrite length_app in Hl.
  match type of E with ?d _ _ = _ =>
    enough (comes (λ r c, fields_ok r ∧ tight (record_body r) (be_bytes 1 a ++ c)) d) as H end.
  { assert (len buf2 ≤ i64_max) as Hl2 by lia.
    destruct (H _ _ _ _ _ Hl2 E) as (c & -> & Hr).
    exists (be_bytes 1 a ++ c). by rewrite app_assoc. }
  clear E Hl Hne. eapply echoes_bind; [apply echoes_varint|]. intros ts c1 _ Hts Ht1.
  eapply echoes_bind; [apply echoes_varint|]. intros od c2 _ _ Ht2.
  apply comes_of_bind. intros od' Hod. unfold ok_or in Hod.
  destruct (try_from i32_min i32_max od) eqn:Eod; [|done]. injection Hod as <-.
  apply try_from_Some in Eod as [-> Hod].
  eapply echoes_bind; [apply echoes_varint_bytes|]. intros k c3 _ Hk Ht3.
  eapply echoes_bind; [apply echoes_varint_bytes|]. intros v c4 _ Hv Ht4.
  eapply echoes_bind; [apply echoes_varint|]. intros n c5 _ _ Ht5.
  destruct (Z.ltb_spec n 0); [apply comes_fail|].
  eapply echoes_bind; [apply echoes_structs; [apply echoes_header|done]|]. intros hs c6 _ [<- Hhs] Ht6.
  apply comes_ret. rewrite app_nil_r. split.
  - unfold fields_ok. cbn. cbn in Ha. split; [int_lia|]. done.
  - unfold record_body. cbn [record_attributes timestamp_delta offset_delta key value headers].
    repeat apply tight_app; done || apply tight_refl.
Qed.

Lemma fields_record_ok r : fields_ok r → len (record_body r) ≤ i64_max → record_ok r.
Proof.
  intros (Ha & Ht & Ho & Hk & Hv & Hh) Hl.
  assert (len (headers r) ≤ i64_max) as Hn.
  { destruct (headers_len_ge (headers r)) as [Hge _]. rewrite headers_len_spec in Hge by done.
    unfold record_body in Hl. rewrite !length_app in Hl. lia. }
  split; [done|done|done| |].
  - eapply Forall_impl; [exact Hh|]. by intros h [? _].
  - rewrite body_len_fields; [done|done|int_lia|done..].
Qed.

Lemma echoes_record : echoes record_wire record_ok KRecordOps.decode_with_budget.
Proof.
  intros buf b r buf' b' Hl E. unfold KRecordOps.decode_with_budget in E.
  apply res_bind_ok in E as ([n buf1] & E1 & E).
  apply get_svarint_tight in E1 as (c & -> & _ & Ht). rewrite length_app in Hl.
  apply res_bind_ok in E as (n' & En & E). unfold ok_or in En.
  destruct (try_from 0 usize_max n) as [z|] eqn:Ez; [|done]. apply try_from_Some in Ez as [-> Hn].
  injection En as <-. apply res_bind_ok in E as (? & [-> Hb]%ensure_inv & E).
  apply res_bind_ok in E as ([body buf2] & [-> Hbody]%copy_inv & E); [|lia].
  rewrite length_app in Hl. destruct body as [|x body]; [done|].
  apply res_bind_ok in E as ([[r' rest] b1] & E & E').
  destruct rest; [|done]. injection E' as <- <- <-.
  apply comes_record_body in E as (c' & Ec & Hf & Htb); [|done|lia].
  rewrite app_nil_r in Ec. rewrite Ec in *. subst n. pose proof (tight_le _ _ Htb).
  exists (c ++ c'). rewrite app_assoc. split; [done|].
  split; [apply fields_record_ok; [done|lia]|]. unfold record_wire.
  destruct Htb as [->|Hlt]; [by apply tight_app; [|left]|right].
  pose proof (svarint_mono (len (record_body r')) (len c') ltac:(lia) ltac:(lia)).
  apply tight_le in Ht. rewrite !length_app. lia.
Qed.

(** *** Batches *)

(** An accepted batch's wire form is the bytes it came from, or is shorter; of
    a compressed batch it is the bytes it came from. *)
Lemma batch_tight buf b batch buf' b' :
  RecordBatchOps.decode_with_budget buf b = Ok (batch, buf', b') →
  batch_ok batch ∧ ∃ c, buf = c ++ buf' ∧ tight (batch_wire batch) c.
Proof.
  intros H. apply decode_batch_inv in H as (body & ? & ? & Hl1 & Hl2 & -> & H).
  apply decode_body_inv in H as
    (count & payload & _ & _ & ? & ? & ? & ? & ? & ? & ? & ? & Eb & H); [|done].
  assert (len (batch_body batch) = 40 + len (batch_payload (records batch)) ∧
    len body = 40 + len payload) as [Lb Lp].
  { split; [apply batch_body_length|]. rewrite Eb, !length_app, !be_bytes_length. lia. }
  enough (count = wire_count (records batch) ∧ tight (batch_payload (records batch)) payload ∧
    match records batch with
    | Plain rs => compression batch = Compression_None ∧ Forall record_ok rs
    | Compressed count _ => compression batch ≠ Compression_None ∧ 0 ≤ count ≤ i32_max
    end) as (-> & Ht & Hform).
  { pose proof (tight_le _ _ Ht). split; [split; try done; lia|].
    exists (be_bytes 8 (base_offset batch) ++ be_bytes 4 (9 + len body) ++
      be_bytes 4 (partition_leader_epoch batch) ++ be_bytes 1 MAGIC ++
      be_bytes 4 (crc32c body) ++ body). split; [by rewrite <- !app_assoc|].
    unfold batch_wire. destruct Ht as [Ht|Ht].
    - left. assert (batch_body batch = body) as ->; [|done]. rewrite Eb. unfold batch_body. by rewrite Ht.
    - right. rewrite !length_app, !be_bytes_length. lia. }
  unfold RecordBatchOps.decode_records in H. case_decide as Hcomp.
  - apply res_bind_ok in H as ([[rs rest] bu1] & Hs & H). destruct rest; [|done].
    injection H as Er <-. rewrite <- Er.
    assert (len payload ≤ i64_max) as Hp by int_lia.
    destruct (echoes_structs _ _ _ _ count echoes_record ltac:(lia) _ _ _ _ _ Hp Hs)
      as (c & -> & [Hn Hrs] & Ht).
    rewrite app_nil_r in *. cbn. done.
  - injection H as Er <-. rewrite <- Er. cbn. split; [done|]. split; [apply tight_refl|done].
Qed.

Lemma compressed_is_wire buf b batch buf' b' c :
  RecordBatchOps.decode_with_budget buf b = Ok (batch, buf', b') →
  buf = c ++ buf' → compression batch ≠ Compression_None → batch_wire batch = c.
Proof.
  intros H Ec Hc. pose proof (batch_tight _ _ _ _ _ H) as [Hok _].
  pose proof (ok_form _ Hok) as Hf. destruct (records batch) as [|count payload] eqn:Er; [by destruct Hf|].
  destruct (decode_compressed_wire _ _ _ _ _ _ _ H Er) as [_ Ew].
  rewrite Ec in Ew. by apply app_inv_tail in Ew.
Qed.

End records.

(** ** Record sets *)

(** [is_partial_batch] of [fuzz.rs]: whether [tail] is too short to hold the
    batch it claims. *)
Definition is_partial_batch (tail : list byte) : bool :=
  if len tail <? 12 then true
  else
    let declared := sint 32 (be_val (take 4 (drop 8 tail))) in
    match try_from 0 usize_max declared with
    | Some declared => len tail <? 12 + declared
    | None => true
    end.

Section sets.
Context {R : Runtime}.

(** The batches read so far, what they were read from and what it would be
    written back as. *)
Definition set_read (bs : list RecordBatch) (c : list byte) : Prop :=
  Forall batch_ok bs ∧ tight (concat (batch_wire <$> bs)) c ∧
  (Forall (λ b, compression b ≠ Compression_None) bs → concat (batch_wire <$> bs) = c).

Lemma set_read_snoc bs b c c' :
  set_read bs c → batch_ok b → tight (batch_wire b) c' →
  (compression b ≠ Compression_None → batch_wire b = c') → set_read (bs ++ [b]) (c ++ c').
Proof.
  intros (Hbs & Ht & Hc) Hb Ht' Hc'. unfold set_read.
  rewrite fmap_app, concat_app, !Forall_app.
  change (concat (batch_wire <$> [b])) with (batch_wire b ++ []). rewrite app_nil_r.
  split; [split; [done|by constructor]|]. split; [by apply tight_app|].
  intros [H1 [H2 _]%Forall_cons]. by rewrite (Hc H1), (Hc' H2).
Qed.

Lemma set_loop_tight fuel : ∀ v c buf b bs rest b',
  (length buf < fuel)%nat → set_read (items v) c →
  decode_set_loop fuel v buf b = Ok (bs, rest, b') →
  rest = [] ∧ ∃ c' tail, buf = c' ++ tail ∧ is_partial_batch tail = true ∧ set_read bs (c ++ c').
Proof.
  induction fuel as [|fuel IH]; intros v c buf b bs rest b' Hf Hv E; [lia|].
  cbn [decode_set_loop] in E. destruct (len buf <? 12) eqn:H12.
  { injection E as <- <- <-. split; [done|]. exists [], buf. rewrite app_nil_r.
    unfold is_partial_batch. by rewrite H12. }
  cbv zeta in E. apply res_bind_ok in E as (n & En & E). unfold ok_or in En.
  destruct (try_from 0 usize_max _) as [z|] eqn:Ez; [|done]. injection En as ->.
  destruct (len buf <? 12 + n) eqn:Hn.
  { injection E as <- <- <-. split; [done|]. exists [], buf. rewrite app_nil_r.
    unfold is_partial_batch. by rewrite H12, Ez, Hn. }
  apply res_bind_ok in E as ([[batch buf1] b1] & E1 & E).
  apply res_bind_ok in E as ([[v' buf2] b2] & E2 & E).
  pose proof (decode_batch_shrinks _ _ _ _ _ E1). pose proof (bpush_ok _ _ _ _ _ _ _ _ E2) as Hi.
  apply bpush_buffer in E2 as ->. pose proof (batch_tight _ _ _ _ _ E1) as (Hb & c1 & Ec & Ht).
  pose proof (compressed_is_wire _ _ _ _ _ _ E1 Ec) as Hc. subst buf.
  destruct (IH v' (c ++ c1) buf1 b2 bs rest b') as [-> (c2 & tail & -> & Hp & Hr)]; [lia| |done|].
  { rewrite Hi. by apply set_read_snoc. }
  split; [done|]. exists (c1 ++ c2), tail. by rewrite <- !app_assoc in *.
Qed.

Lemma set_tight buf b bs rest b' :
  decode_set_with_budget buf b = Ok (bs, rest, b') →
  rest = [] ∧ ∃ c tail, buf = c ++ tail ∧ is_partial_batch tail = true ∧ set_read bs c.
Proof.
  intros E. eapply (set_loop_tight _ _ []) in E; [done|lia|].
  split; [constructor|]. split; [apply tight_refl|done].
Qed.

End sets.

(** ** Properties *)

(** C12: What a proxy can count on: a record set that decodes is written
    back, but for the fragment at its end, as the bytes it came from, or in fewer --
    fewer only when it holds uncompressed batches with a length, delta or count
    spelled in more bytes than it takes.  What is written decodes to the same
    batches, unless an allocation is refused, and what is left of the input is
    no batch anyone could read. *)
Theorem record_sets_come_back {R : Runtime} (buf rest : buffer) (b b' : Budget) bs :
  decode_set_with_budget buf b = Ok (bs, rest, b') →
  ∃ kept tail out, buf = kept ++ tail ∧ rest = [] ∧ is_partial_batch tail = true ∧
    (∀ o, encode_set bs o = (Ok tt, o ++ out)) ∧
    (out = kept ∨ len out < len kept) ∧
    ((∀ batch, batch ∈ bs → compression batch ≠ Compression_None) → out = kept) ∧
    (∀ l, decode_set_with_limits l out = Ok (bs, []) ∨
       ∃ e, decode_set_with_limits l out = Err e ∧ is_alloc_error e) ∧
    (reliable R → decode_set_with_limits Limits.UNLIMITED out = Ok (bs, [])).
Proof.
  intros (-> & c & tail & -> & Hp & Hok & Ht & Hc)%set_tight.
  exists c, tail, (concat (batch_wire <$> bs)).
  split; [done|]. split; [done|]. split; [done|]. split; [by apply encodes_set|]. split; [done|].
  split; [intros H; by apply Hc, Forall_forall|].
  assert (∀ l, decode_set_with_limits l (concat (batch_wire <$> bs)) = Ok (bs, []) ∨
    ∃ e, decode_set_with_limits l (concat (batch_wire <$> bs)) = Err e ∧ is_alloc_error e ∧
      ¬ (reliable R ∧ roomy (Limits.budget l (len (concat (batch_wire <$> bs)))))) as H.
  { intros l. unfold decode_set_with_limits, with_limits.
    destruct (reads_set bs [] (Limits.budget l (len (concat (batch_wire <$> bs)))) Hok (or_introl eq_refl))
      as [(bu' & E)|(e & E & He)]; rewrite app_nil_r in E; rewrite E; cbn [res_bind]; [by left|].
    right. by exists e. }
  split; [intros l; destruct (H l) as [|(e & ? & ? & _)]; [by left|right; by exists e]|].
  intros Hr. destruct (H Limits.UNLIMITED) as [|(e & _ & _ & Hn)]; [done|].
  destruct Hn. split; [done|]. apply unlimited_roomy. lia.
Qed.

(** *** The guarantee as stated does not hold

    A one-record batch, and the same batch with the length of its record in two
    bytes instead of one, the batch length and the checksum to match. *)

Definition proxy_record : KRecord :=
  mkKRecord 0 5 0 (Some [Byte.x6b]) (Some [Byte.x76; Byte.x31]) [].
Definition proxy_batch : RecordBatch :=
  mkRecordBatch 7 3 0 0 1700000000000 1700000000005 42 1 9 (Plain [proxy_record]).

Definition overlong_body : list byte :=
  take 40 (batch_body proxy_batch) ++ [byte_of_Z (18 + 128); Byte.x00] ++
  drop 41 (batch_body proxy_batch).
Definition overlong_wire : list byte :=
  be_bytes 8 7 ++ be_bytes 4 (9 + len overlong_body) ++ be_bytes 4 3 ++ be_bytes 1 MAGIC ++
  be_bytes 4 (crc32c overlong_body) ++ overlong_body.

(** "Record batches re-encode byte-identically" has a
    counterexample: a batch with a valid checksum and a record length spelled in
    two bytes is accepted, and comes back a byte shorter under another checksum. *)
Theorem overlong_batch_is_rewritten :
  decode_set (R := plain_runtime) overlong_wire = Ok ([proxy_batch], []) ∧
  (∀ o, encode_set [proxy_batch] o = (Ok tt, o ++ batch_wire proxy_batch)) ∧
  len (batch_wire proxy_batch) = len overlong_wire - 1 ∧
  take 4 (drop 17 (batch_wire proxy_batch)) ≠ take 4 (drop 17 overlong_wire).
Proof.
  split; [vm_compute; reflexivity|]. split; [|vm_compute; split; [reflexivity|discriminate]].
  assert (batch_ok proxy_batch) as Hok.
  { split; try (vm_compute; split; discriminate); [|vm_compute; discriminate].
    split; [vm_compute; reflexivity|]. apply Forall_cons. split; [|constructor].
    split; try (vm_compute; split; discriminate); [constructor|vm_compute; discriminate]. }
  intros o. rewrite (encodes_set [proxy_batch] ltac:(by constructor)).
  change (concat (batch_wire <$> [proxy_batch])) with (batch_wire proxy_batch ++ []).
  by rewrite app_nil_r.
Qed.

(** *** Witness *)

Lemma record_sets_come_back_witness :
  ∃ kept tail out, overlong_wire ++ take 30 overlong_wire = kept ++ tail ∧
    is_partial_batch tail = true ∧ encode_set [proxy_batch] [] = (Ok tt, out) ∧
    (out = kept ∨ len out < len kept).
Proof.
  destruct (record_sets_come_back (R := plain_runtime) (overlong_wire ++ take 30 overlong_wire) []
    (Limits.budget Limits.default 1000)
    (match decode_set_with_budget (R := plain_runtime) (overlong_wire ++ take 30 overlong_wire)
       (Limits.budget Limits.default 1000) with Ok (_, _, b) => b | Err _ => mkBudget 0 0 end)
    [proxy_batch]) as (kept & tail & out & E & _ & Hp & He & Ho & _).
  - vm_compute. reflexivity.
  - exists kept, tail, out. split; [exact E|]. split; [exact Hp|]. split; [exact (He [])|exact Ho].
Defined.
