(* ===== verification/Fuzz.v ===== *)
(** * The fuzz harness ([odradek-protocol/src/fuzz.rs])

    The crate's own test of its decoders under mutated input: the generator, the
    mutations, the probe that decodes, re-encodes and decodes again, and the
    sweeps over every message, the keyless decoders, the framing and record sets.
    The findings are values here, their rendering as text is not modelled; no
    decoder panics, since every one of the development is a total function, and
    the overflow of a [u32] counter is [None].  The theorems say what the harness
    can only sample: a message that is accepted settles after one pass, for every
    input, and the sweep passes for every seed and every number of iterations, until
    it has counted more inputs than a [u32] holds. *)
From S2P Require Import Prelude Budget Codec Wire Frame Records Fields KnownTags Settles MessageTrait MsgGroupAdmin Registry MsgConnection MsgGroup Proxy.
Import BudgetOps.

Definition DEFAULT_ITERS : Z := 1000.
Definition DEFAULT_SEED : Z := 0x0DEFACED0DD11234.
Definition MAX_FINDINGS : Z := 12.

(** ** The generator *)

(** A draw: what it yields and the [Rng] it leaves, a [u64]. *)
Definition draw (A : Type) : Type := Z → A * Z.
Definition draw_ret {A} (x : A) : draw A := λ rng, (x, rng).
Definition draw_bind {A B} (d : draw A) (k : A → draw B) : draw B := λ rng,
  let (x, rng) := d rng in k x rng.
Notation "'let^' x ':=' d 'in' k" := (draw_bind d (λ x, k))
  (at level 10, x pattern, d at level 100, k at level 200) : odradek_scope.

Definition next_u64 : draw Z := λ rng,
  let rng := wrap 64 (rng + 0x9E3779B97F4A7C15) in
  let z := rng in
  let z := wrap 64 (Z.lxor z (Z.shiftr z 30) * 0xBF58476D1CE4E5B9) in
  let z := wrap 64 (Z.lxor z (Z.shiftr z 27) * 0x94D049BB133111EB) in
  (Z.lxor z (Z.shiftr z 31), rng).

Definition below (n : Z) : draw Z :=
  if n =? 0 then draw_ret 0
  else let^ z := next_u64 in draw_ret (default 0 (try_from 0 usize_max (z mod n))).

Definition INTERESTING : list Z := [0; 1; 2; 3; 4; 8; 0x7F; 0x80; 0x81; 0xFE; 0xFF; 0x0F].

Definition interesting_byte : draw byte :=
  let^ which := below 4 in
  if which =? 0 then
    let^ z := next_u64 in
    draw_ret (byte_of_Z (default 0 (try_from 0 255 (Z.land z 0xFF))))
  else
    let^ i := below (len INTERESTING) in
    draw_ret (byte_of_Z (nth (Z.to_nat i) INTERESTING 0)).

(** [for _ in 0..n { out.push(rng.interesting_byte()) }] *)
Fixpoint interesting_bytes (n : nat) : draw (list byte) :=
  match n with
  | O => draw_ret []
  | S n' =>
      let^ b := interesting_byte in
      let^ bs := interesting_bytes n' in
      draw_ret (b :: bs)
  end.

Definition mutate (seed : list byte) : draw (list byte) :=
  let out := seed in
  let^ shape := below 7 in
  if shape =? 0 then
    match out with
    | [] => draw_ret out
    | _ =>
        let^ at_ := below (len out) in
        let^ bit := below 8 in
        draw_ret (alter (λ b, byte_of_Z (Z.lxor (byte_to_Z b) (wrap 8 (Z.shiftl 1 bit))))
          (Z.to_nat at_) out)
    end
  else if shape =? 1 then
    match out with
    | [] => draw_ret out
    | _ =>
        let^ at_ := below (len out) in
        let^ b := interesting_byte in
        draw_ret (<[Z.to_nat at_ := b]> out)
    end
  else if shape =? 2 then
    let^ keep := below (len out + 1) in
    draw_ret (take (Z.to_nat keep) out)
  else if shape =? 3 then
    let^ n := below 16 in
    let extra := 1 + n in
    let^ more := interesting_bytes (Z.to_nat extra) in
    draw_ret (out ++ more)
  else if shape =? 4 then
    match out with
    | [] => draw_ret out
    | _ =>
        let^ at_ := below (len out) in
        let^ n := below (Z.min 8 (len out - at_)) in
        let n := 1 + n in
        let^ run := interesting_bytes (Z.to_nat n) in
        draw_ret (take (Z.to_nat at_) out ++ run ++ drop (Z.to_nat (at_ + n)) out)
    end
  else if shape =? 5 then
    match out with
    | [] => draw_ret out
    | _ =>
        let^ at_ := below (len out) in
        let^ n := below (Z.min 8 (len out - at_)) in
        let n := 1 + n in
        let piece := take (Z.to_nat n) (drop (Z.to_nat at_) out) in
        draw_ret (take (Z.to_nat at_) out ++ piece ++ drop (Z.to_nat at_) out)
    end
  else
    let^ n := below 96 in
    interesting_bytes (Z.to_nat n).

(** ** Sessions *)

(** What a report says, by the source's message. *)
Inductive Finding : Type :=
| Asymmetry (name : string) (version : Z) (e : EncodeError)
| RefusedAgain (name : string) (version : Z) (output : list byte)
| DifferentValue (name : string) (version : Z) (output : list byte)
| DoesNotSettle (name : string) (version : Z) (once twice : list byte)
| OverCeiling (frame_len : Z)
| ReencodedDifferently (output : list byte)
| DroppedBatch (trailing : Z)
| WillNotReencode (e : EncodeError).

(** [struct Session]; a finding comes with its input. *)
Record Session : Type := mkSession {
  rng : Z;
  seed : Z;
  iters : Z;
  findings : list (Finding * list byte);
  covered : Z;
  seedless : Z;
  non_canonical : Z;
}.

Definition set_rng (r : Z) (s : Session) : Session :=
  mkSession r (seed s) (iters s) (findings s) (covered s) (seedless s) (non_canonical s).

(** [+= 1] on a [u32] counter; [None] is the panic of a build that checks
    overflow, as the one tests run in does. *)
Definition next_u32 (n : Z) : option Z := try_from 0 u32_max (n + 1).

Definition add_covered (s : Session) : option Session :=
  (λ n, mkSession (rng s) (seed s) (iters s) (findings s) n (seedless s) (non_canonical s)) <$> next_u32 (covered s).
Definition add_seedless (s : Session) : option Session :=
  (λ n, mkSession (rng s) (seed s) (iters s) (findings s) (covered s) n (non_canonical s)) <$> next_u32 (seedless s).
Definition add_non_canonical (s : Session) : option Session :=
  (λ n, mkSession (rng s) (seed s) (iters s) (findings s) (covered s) (seedless s) n) <$> next_u32 (non_canonical s).

Definition sampling {A} (d : draw A) (s : Session) : A * Session :=
  let (x, r) := d (rng s) in (x, set_rng r s).

Module Session.

(** [Session::new]; the two arguments are what [env_u64] makes of the
    environment. *)
Definition new (env_seed env_iters : option Z) : Session :=
  let seed := default DEFAULT_SEED env_seed in
  let iters := default DEFAULT_ITERS (env_iters ≫= try_from 0 u32_max) in
  mkSession seed seed iters [] 0 0 0.

Definition full (s : Session) : bool := MAX_FINDINGS <=? len (findings s).

Definition report (what : Finding) (input : list byte) (s : Session) : Session :=
  if negb (full s) then
    mkSession (rng s) (seed s) (iters s) (findings s ++ [(what, input)]) (covered s) (seedless s)
      (non_canonical s)
  else s.

End Session.
Import Session.

(** ** Messages *)

Section sweep.
Context {R : Runtime}.

(** A sweep that returns [None] has panicked: a counter of the session is full. *)
Definition probe {M} `{Message M, EqDecision M} (name : string) (version : Z) (input : list byte)
    (s : Session) : option Session :=
  match Message.decode version input with
  | Err _ => Some s
  | Ok (decoded, buf) =>
      if negb (len buf =? 0) then Some s
      else
        match Message.encode version decoded [] with
        | (Err e, _) => Some (report (Asymmetry name version e) input s)
        | (Ok _, first) =>
            s ← (if decide (first = input) then Some s else add_non_canonical s);
            Some
              match Message.decode version first with
              | Err _ => report (RefusedAgain name version first) input s
              | Ok (second, _) =>
                  if decide (second = decoded) then
                    match Message.encode version second [] with
                    | (Ok _, twice) =>
                        if decide (twice = first) then s
                        else report (DoesNotSettle name version first twice) input s
                    | (Err _, _) => s
                    end
                  else report (DifferentValue name version first) input s
              end
        end
  end.

(** The mutants of one version, until the findings are full. *)
Fixpoint probe_mutants {M} `{Message M, EqDecision M} (name : string) (version : Z)
    (seed_bytes : list byte) (n : nat) (s : Session) : option Session :=
  match n with
  | O => Some s
  | S n' =>
      let (mutant, s) := sampling (mutate seed_bytes) s in
      s ← probe name version mutant s;
      if full s then Some s else probe_mutants name version seed_bytes n' s
  end.

Fixpoint fuzz_versions {M} `{Message M, Default M, EqDecision M} (name : string)
    (versions : list Z) (s : Session) : option Session :=
  match versions with
  | [] => Some s
  | version :: versions' =>
      if full s then Some s
      else
        match Message.encode version (default_value (M := M)) [] with
        | (Err _, _) => s ← add_seedless s; fuzz_versions name versions' s
        | (Ok _, seed_bytes) =>
            s ← add_covered s;
            s ← probe (M := M) name version seed_bytes s;
            s ← probe_mutants (M := M) name version seed_bytes (Z.to_nat (iters s)) s;
            if full s then Some s else fuzz_versions name versions' s
        end
  end.

Definition inclusive (lo hi : Z) : list Z := seqZ lo (hi - lo + 1).

Definition fuzz_message {M} `{Message M, Default M, EqDecision M} (name : string) : Session → option Session :=
  fuzz_versions (M := M) name (inclusive (Message.MIN_VERSION (M := M)) (Message.MAX_VERSION (M := M))).

(** ** Decoders without a trait, and the framing *)

(** Nothing is made of the result, so it is computed and dropped. *)
Fixpoint try_inputs {A} (decode : dec A) (n : nat) (s : Session) : Session :=
  match n with
  | O => s
  | S n' =>
      let (input, s) := sampling (let^ n := below 64 in interesting_bytes (Z.to_nat n)) s in
      let _ := decode input in
      try_inputs decode n' s
  end.

Definition fuzz_versioned {A} (name : string) (min max : Z) (decode : Z → dec A) (s : Session) : option Session :=
  foldl (λ s version, s ← s; try_inputs (decode version) (Z.to_nat (iters s)) <$> add_covered s) (Some s)
    (inclusive min max).

Definition CEILING : Z := 64.

(** One byte at a time; [Some n] is a frame of [n] bytes, over the ceiling. *)
Fixpoint feed (bytes : list byte) (buf : buffer) : option Z :=
  match bytes with
  | [] => None
  | byte :: bytes' =>
      let buf := buf ++ [byte] in
      match try_split buf CEILING with
      | Ok (Some payload, buf') =>
          if CEILING <? len payload then Some (len payload)
          else let _ := peek_correlation_id payload in feed bytes' buf'
      | Ok (None, buf') => feed bytes' buf'
      | Err _ => feed bytes' buf
      end
  end.

(** The prefix, and a body that matches it, stops short or runs over. *)
Definition framed_input : draw (list byte) :=
  let^ which := below 8 in
  let^ declared :=
    match which with
    | 0 => draw_ret 0
    | 1 => draw_ret (-1)
    | 2 => draw_ret i32_min
    | 3 => draw_ret i32_max
    | 4 => draw_ret (default i32_max (try_from i32_min i32_max CEILING))
    | 5 => draw_ret (default i32_max (try_from i32_min i32_max (CEILING + 1)))
    | 6 => let^ n := below (CEILING * 2) in draw_ret (default 0 (try_from i32_min i32_max n))
    | _ => let^ n := below 8 in draw_ret (default 0 (try_from i32_min i32_max n))
    end in
  let^ shape := below 3 in
  let^ body :=
    match shape with
    | 0 => draw_ret (Z.min (default 0 (try_from 0 usize_max declared)) (CEILING * 2))
    | 1 => below (Z.min (default 0 (try_from 0 usize_max declared)) CEILING + 1)
    | _ => below (CEILING * 2)
    end in
  let^ bytes := interesting_bytes (Z.to_nat body) in
  draw_ret (be_bytes 4 declared ++ bytes).

Fixpoint framing_rounds (n : nat) (s : Session) : option Session :=
  match n with
  | O => add_covered s
  | S n' =>
      let (bytes, s) := sampling framed_input s in
      match feed bytes [] with
      | Some n => Some (report (OverCeiling n) bytes s)
      | None => framing_rounds n' s
      end
  end.

Definition fuzz_framing (s : Session) : option Session := framing_rounds (Z.to_nat (iters s)) s.

(** ** The sweep *)

Definition one (s : Session) (m : Keyed) : option Session :=
  if negb (full s) then fuzz_message (M := ty m) (type_name m) s else Some s.

Definition decoders_survive (env_seed env_iters : option Z) : option Session :=
  s ← foldl (λ s m, s ← s; one s m) (Some (new env_seed env_iters)) for_each_message;
  s ← fuzz_versioned "RequestHeader" 0 2 request_header.RequestHeader.decode s;
  s ← fuzz_versioned "ResponseHeader" 0 1 response_header.ResponseHeader.decode s;
  s ← fuzz_versioned "ConsumerProtocolSubscription" 0 3
        consumer_protocol_subscription.ConsumerProtocolSubscription.decode s;
  s ← fuzz_versioned "ConsumerProtocolAssignment" 0 3
        consumer_protocol_assignment.ConsumerProtocolAssignment.decode s;
  fuzz_framing s.

(** The three assertions the test ends in. *)
Definition survived (s : Session) : bool :=
  match findings s with [] => true | _ => false end && (seedless s =? 0) && (300 <? covered s).

(** ** Record sets *)

Definition seed_batch (base_offset : Z) : RecordBatch :=
  mkRecordBatch base_offset 0 0 1 1700000000000 1700000000001 42 7 0
    (Plain [mkKRecord 0 0 0 (Some (str_bytes "fuzz-key")) (Some (str_bytes "fuzz-value")) [];
            mkKRecord 0 0 0 (Some (str_bytes "gone")) None []]).

Definition check_set (input : list byte) (s : Session) : Session :=
  match decode_set input with
  | Err _ => s
  | Ok (batches, _) =>
      match encode_set batches [] with
      | (Ok _, out) =>
          if negb (bool_decide (take (length out) input = out)) then
            report (ReencodedDifferently out) input s
          else if negb (is_partial_batch (drop (length out) input)) then
            report (DroppedBatch (len input - len out)) input s
          else s
      | (Err e, _) => report (WillNotReencode e) input s
      end
  end.

Fixpoint check_mutants (seed_bytes : list byte) (n : nat) (s : Session) : Session :=
  match n with
  | O => s
  | S n' =>
      if full s then s
      else
        let (mutant, s) := sampling (mutate seed_bytes) s in
        check_mutants seed_bytes n' (check_set mutant s)
  end.

(** [None] is a panic: of [expect], or of [session.iters * 64], a [u32] product
    checked in the profile tests are built in. *)
Definition record_sets_survive (env_seed env_iters : option Z) : option Session :=
  let s := new env_seed env_iters in
  match encode_set ((λ i, seed_batch (i * 2)) <$> [0; 1; 2]) [] with
  | (Err _, _) => None
  | (Ok _, seed_bytes) =>
      let s := check_set seed_bytes s in
      match try_from 0 u32_max (iters s * 64) with
      | None => None
      | Some n => Some (check_mutants seed_bytes (Z.to_nat n) s)
      end
  end.

End sweep.

(** ** The probe *)

Section probe_facts.
Context {R : Runtime}.

(** Under the floor of the default limits the length of the input does not
    matter. *)
Lemma small_budget n m :
  0 ≤ n ≤ 4096 → 0 ≤ m ≤ 4096 →
  Limits.budget Limits.default n = Limits.budget Limits.default m.
Proof.
  intros Hn Hm. unfold Limits.budget, Limits.alloc_bytes_for, Limits.default, sat_mul.
  cbn [alloc_factor min_alloc_bytes max_alloc_bytes].
  change DEFAULT_ALLOC_FACTOR with 16. change DEFAULT_MIN_ALLOC_BYTES with 65536.
  f_equal. int_lia.
Qed.

(** What a probe can find: nothing, or, past that floor, that the bytes written
    back are refused because they are fewer. *)
Lemma probe_spec {M} `{Message M, EqDecision M} name version input s :
  Message.MIN_VERSION (M := M) ≤ version ≤ Message.MAX_VERSION (M := M) → len input ≤ i64_max →
  ∃ o, (o = Some s ∨ o = add_non_canonical s) ∧
    (probe (M := M) name version input s = o ∨
     4096 < len input ∧ ∃ out e, probe name version input s = report (RefusedAgain name version out) input <$> o ∧
       len out < len input ∧ Message.decode (M := M) version out = Err e ∧ is_alloc_error e).
Proof.
  intros Hv Hl. unfold probe.
  destruct (Message.decode version input) as [[x rest]|] eqn:E; [|by exists (Some s); auto].
  destruct (Message.one_pass _ _ _ _ _ Hv Hl E) as (out & He & Hlen & Hsame & Hany & _).
  destruct rest; cbn [length]; [|exists (Some s); auto]. cbn [length] in Hlen. change (negb (0 =? 0)) with false. cbv iota.
  rewrite He. cbn [app].
  set (o := if decide (out = input) then Some s else add_non_canonical s).
  exists o. split; [unfold o; destruct (decide _); auto|].
  assert (∀ y s', y = x → (if decide (y = x) then
     match Message.encode version y [] with
     | (Ok _, twice) => if decide (twice = out) then s' else report (DoesNotSettle name version out twice) input s'
     | (Err _, _) => s'
     end else report (DifferentValue name version out) input s') = s') as Hend.
  { intros y s' ->. rewrite decide_True by done. rewrite He. by rewrite decide_True. }
  assert (Message.decode version out = Ok (x, []) → (s' ← o; Some match Message.decode version out with
     | Err _ => report (RefusedAgain name version out) input s'
     | Ok (second, _) => if decide (second = x) then
         match Message.encode version second [] with
         | (Ok _, twice) => if decide (twice = out) then s' else report (DoesNotSettle name version out twice) input s'
         | (Err _, _) => s'
         end else report (DifferentValue name version out) input s'
     end) = o) as Hsettles.
  { intros ->. destruct o as [s'|]; [|done]. cbn. by rewrite Hend. }
  specialize (Hany Limits.default []). specialize (Hsame Limits.default []).
  rewrite app_nil_r in *. change (Message.decode_with_limits (M := M) version Limits.default)
    with (Message.decode (M := M) version) in *.
  destruct Hany as [Hok|(e & Ed & Hal)]; [left; by apply Hsettles|].
  destruct (Z.le_gt_cases (len input) 4096).
  { left. apply Hsettles, Hsame, small_budget; lia. }
  right. split; [lia|]. exists out, e. split; [rewrite Ed; by destruct o|]. split; [|done].
  destruct (Z.eq_dec (len out) (len input)) as [El|]; [|lia].
  rewrite Hsame in Ed by (by rewrite El). done.
Qed.

End probe_facts.

(** ** The mutations *)

(** Every value a draw can yield. *)
Definition yields {A} (d : draw A) (P : A → Prop) : Prop := ∀ r, P (d r).1.

Lemma yields_ret {A} (x : A) (P : A → Prop) : P x → yields (draw_ret x) P.
Proof. by intros ? r. Qed.

Lemma yields_bind {A B} (d : draw A) (k : A → draw B) P Q :
  yields d P → (∀ x, P x → yields (k x) Q) → yields (draw_bind d k) Q.
Proof.
  intros Hd Hk r. unfold draw_bind. specialize (Hd r). destruct (d r) as [x r'].
  apply (Hk x Hd r').
Qed.

Lemma yields_below n : yields (below n) (λ i, 0 ≤ i ∧ (0 < n → i < n)).
Proof.
  unfold below. destruct (Z.eqb_spec n 0) as [->|Hn]; [apply yields_ret; lia|].
  eapply (yields_bind _ _ (λ _, True)); [done|]. intros z _. apply yields_ret.
  unfold try_from. destruct (_ && _) eqn:E; cbn [default].
  - apply andb_true_iff in E as [?%Z.leb_le ?%Z.leb_le]. split; [done|]. intros ?.
    by apply Z.mod_pos_bound.
  - change (default 0 None) with 0. lia.
Qed.

Lemma yields_interesting_bytes n : yields (interesting_bytes n) (λ bs, length bs = n).
Proof.
  induction n as [|n IH]; cbn [interesting_bytes]; [by apply yields_ret|].
  eapply (yields_bind _ _ (λ _, True)); [done|]. intros b _.
  eapply yields_bind; [apply IH|]. cbv beta. intros bs <-. by apply yields_ret.
Qed.

Create HintDb draws.
#[local] Hint Resolve yields_below yields_interesting_bytes : draws.
Ltac drawn := eapply yields_bind; [solve [auto with draws]|]; cbv beta; intros.

(** A mutant is at most sixteen bytes longer than what it was made of, or is
    noise. *)
Lemma yields_mutate bs : yields (mutate bs) (λ out, len out ≤ Z.max (len bs + 16) 95).
Proof.
  unfold mutate. cbv zeta. drawn.
  repeat case_match; repeat first
    [ drawn | apply yields_ret
    | eapply yields_bind; [instantiate (1 := λ _, True); done|]; intros ];
  rewrite ?length_app, ?length_take, ?length_drop, ?length_insert, ?length_alter;
  cbn [length] in *; try lia.
  intros r. pose proof (yields_interesting_bytes (Z.to_nat x0) r) as Hl. cbv beta in Hl.
  rewrite Hl. lia.
Qed.

(** ** The sweep *)

Section sweep_facts.
Context {R : Runtime}.

(** Nothing found, nothing skipped, [k] pairs covered and at most [n] inputs
    counted so far, of a session of [I] iterations. *)
Definition clean (I k n : Z) (s : Session) : Prop :=
  findings s = [] ∧ seedless s = 0 ∧ covered s = k ∧ 0 ≤ non_canonical s ≤ n ∧ iters s = I.

(** Such a session, or the panic of a count that has more to hold than a [u32]. *)
Definition lands (I k n : Z) (o : option Session) : Prop :=
  match o with Some s => clean I k n s | None => u32_max < n end.

Lemma lands_bind I k n k' n' o (f : Session → option Session) :
  lands I k n o → n ≤ n' → (∀ s, clean I k n s → lands I k' n' (f s)) → lands I k' n' (o ≫= f).
Proof. destruct o as [s|]; cbn; [intros Hs _ Hf; by apply Hf|lia]. Qed.

Lemma lands_fmap I k n o (f : Session → Session) :
  lands I k n o → (∀ s, clean I k n s → clean I k n (f s)) → lands I k n (f <$> o).
Proof. destruct o as [s|]; cbn; auto. Qed.

Lemma clean_not_full I k n s : clean I k n s → full s = false.
Proof. intros (E & _). unfold full. by rewrite E. Qed.

Lemma clean_sampling {A} I k n (d : draw A) P s :
  yields d P → clean I k n s → P (sampling d s).1 ∧ clean I k n (sampling d s).2.
Proof.
  intros Hd Hs. unfold sampling. specialize (Hd (rng s)). by destruct (d (rng s)) as [x r].
Qed.

Lemma next_u32_spec n : 0 ≤ n → next_u32 n = if n <? u32_max then Some (n + 1) else None.
Proof.
  intros. unfold next_u32, try_from. destruct (Z.leb_spec 0 (n + 1)); [|lia]. cbn [andb].
  destruct (Z.leb_spec (n + 1) u32_max), (Z.ltb_spec n u32_max); (done || lia).
Qed.

Lemma clean_non_canonical I k n s : clean I k n s → lands I k (n + 1) (add_non_canonical s).
Proof.
  intros (? & ? & ? & ? & ?). unfold add_non_canonical. rewrite next_u32_spec by lia.
  destruct (Z.ltb_spec (non_canonical s) u32_max); cbn; [|lia]. split_and!; cbn; (done || lia).
Qed.
Lemma clean_covered I k n s : 0 ≤ k < u32_max → clean I k n s → lands I (k + 1) n (add_covered s).
Proof.
  intros Hk (? & ? & E & ? & ?). unfold add_covered. rewrite E, next_u32_spec by lia.
  destruct (Z.ltb_spec k u32_max); cbn; [|lia]. split_and!; cbn; (done || lia).
Qed.

Section message.
Context {M} `{Message M, Default M, EqDecision M}.

(** A default that encodes, in few enough bytes for its mutants to stay under the
    floor of the limits. *)
Definition seeded (version : Z) : bool :=
  match Message.encode version (default_value (M := M)) [] with
  | (Ok _, bs) => len bs <=? 4080
  | (Err _, _) => false
  end.

Definition supported (version : Z) : Prop :=
  Message.MIN_VERSION (M := M) ≤ version ≤ Message.MAX_VERSION (M := M).

Lemma probe_clean I k n name version input s :
  supported version → len input ≤ 4096 → clean I k n s →
  lands I k (n + 1) (probe (M := M) name version input s).
Proof.
  intros Hv Hl Hs. destruct (probe_spec (M := M) name version input s Hv ltac:(int_lia))
    as (o & Ho & [->|[? _]]); [|lia].
  destruct Ho as [->| ->]; [|by apply clean_non_canonical].
  destruct Hs as (? & ? & ? & ? & ?). unfold lands, clean. split_and!; (done || lia).
Qed.

Lemma probe_mutants_clean I k name version bs m : ∀ n s,
  supported version → len bs ≤ 4080 → clean I k n s →
  lands I k (n + Z.of_nat m) (probe_mutants (M := M) name version bs m s).
Proof.
  induction m as [|m IH]; intros n s Hv Hl Hs; [by rewrite Z.add_0_r|]. cbn [probe_mutants].
  pose proof (clean_sampling I k n _ _ s (yields_mutate bs) Hs) as [Hlen Hs'].
  destruct (sampling (mutate bs) s) as [mutant s']. cbv beta in *. cbn [fst snd] in *.
  eapply lands_bind; [apply (probe_clean I k n name version mutant s'); [done|lia|done]|lia|].
  intros s'' Hp. rewrite (clean_not_full _ _ _ _ Hp).
  replace (n + Z.of_nat (S m)) with (n + 1 + Z.of_nat m) by lia. by apply IH.
Qed.

Lemma fuzz_versions_clean I name versions : 0 ≤ I → ∀ k n s,
  Forall (λ v, supported v ∧ seeded v = true) versions → 0 ≤ k → k + len versions ≤ u32_max →
  clean I k n s →
  lands I (k + len versions) (n + len versions * (1 + I)) (fuzz_versions (M := M) name versions s).
Proof.
  intros HI. induction versions as [|v vs IH]; intros k n s Hv Hk Hmax Hs; cbn [fuzz_versions length] in *.
  { by rewrite Z.mul_0_l, !Z.add_0_r. }
  apply Forall_cons in Hv as [[Hv Hd] Hvs]. rewrite (clean_not_full _ _ _ _ Hs). unfold seeded in Hd.
  destruct (Message.encode v default_value []) as [[[]|] bs]; [|done]. apply Z.leb_le in Hd.
  eapply lands_bind; [apply (clean_covered I k n s); [lia|exact Hs]|nia|]. clear s Hs. intros s Hs.
  eapply lands_bind; [apply (probe_clean I (k + 1) n name v bs s Hv); [lia|done]|nia|]. clear s Hs. intros s Hs.
  assert (iters s = I) as HIs by apply Hs.
  eapply lands_bind; [apply (probe_mutants_clean I (k + 1) name v bs (Z.to_nat (iters s)) (n + 1) s Hv Hd Hs)|nia|].
  clear Hs. intros s1 Hs. rewrite (clean_not_full _ _ _ _ Hs).
  replace (n + Z.of_nat (S (length vs)) * (1 + I))
    with (n + 1 + Z.of_nat (Z.to_nat (iters s)) + len vs * (1 + I)) by lia.
  replace (k + Z.of_nat (S (length vs))) with (k + 1 + len vs) by lia. apply IH; (done || lia).
Qed.

End message.
Arguments seeded : clear implicits.
Arguments seeded M {_ _} version.

Lemma inclusive_elem lo hi v : v ∈ inclusive lo hi ↔ lo ≤ v ≤ hi.
Proof. unfold inclusive. rewrite elem_of_seqZ. lia. Qed.

Definition one_seeded (m : Keyed) : bool := forallb (seeded (ty m)) (inclusive (versions_of m).1 (versions_of m).2).
Definition pairs_of (ms : list Keyed) : Z :=
  foldr Z.add 0 ((λ m, len (inclusive (versions_of m).1 (versions_of m).2)) <$> ms).

Lemma pairs_of_nonneg ms : 0 ≤ pairs_of ms.
Proof. induction ms as [|m ms IH]; unfold pairs_of in *; cbn [fmap list_fmap foldr] in *; lia. Qed.

Lemma sweep_clean I ms : 0 ≤ I → ∀ k n o,
  forallb one_seeded ms = true → 0 ≤ k → k + pairs_of ms ≤ u32_max → lands I k n o →
  lands I (k + pairs_of ms) (n + pairs_of ms * (1 + I)) (foldl (λ s m, s ← s; one s m) o ms).
Proof.
  intros HI. induction ms as [|m ms IH]; intros k n o Hd Hk Hmax Ho.
  { change (pairs_of []) with 0. by rewrite Z.mul_0_l, !Z.add_0_r. }
  cbn [forallb foldl] in *. apply andb_true_iff in Hd as [Hd Hds].
  set (L := len (inclusive (versions_of m).1 (versions_of m).2)).
  change (pairs_of (m :: ms)) with (L + pairs_of ms) in *. pose proof (pairs_of_nonneg ms).
  assert (0 ≤ L) by (unfold L; lia). assert (0 ≤ L * (1 + I)) by nia.
  assert (∀ x, 0 ≤ x → n ≤ n + x) as Hle by lia.
  replace (n + (L + pairs_of ms) * (1 + I)) with (n + L * (1 + I) + pairs_of ms * (1 + I)) by lia.
  rewrite Z.add_assoc. apply IH; [done|lia..|].
  eapply lands_bind; [exact Ho|by apply Hle|]. intros s Hs. unfold one. rewrite (clean_not_full _ _ _ _ Hs). cbn [negb].
  assert (∀ x p, 0 ≤ p → k + (x + p) ≤ u32_max → k + x ≤ u32_max) as Hroom by lia.
  apply fuzz_versions_clean; [done| |done|eapply Hroom; [|exact Hmax]; done|done]. apply Forall_forall. intros v Hv.
  split; [by apply inclusive_elem in Hv|]. unfold one_seeded in Hd.
  rewrite forallb_forall in Hd. by apply Hd, list_elem_of_In.
Qed.

Lemma try_inputs_clean {A} I k n (decode : dec A) m : ∀ s, clean I k n s → clean I k n (try_inputs decode m s).
Proof.
  induction m as [|m IH]; intros s Hs; [done|]. cbn [try_inputs].
  pose proof (clean_sampling I k n (let^ n := below 64 in interesting_bytes (Z.to_nat n)) (λ _, True) s
    ltac:(done) Hs) as [_ Hs'].
  destruct (sampling _ s) as [input s']. cbv zeta. by apply IH.
Qed.

Lemma fuzz_versioned_clean {A} name lo hi (decode : Z → dec A) I k n s :
  0 ≤ k → k + len (inclusive lo hi) ≤ u32_max → clean I k n s →
  lands I (k + len (inclusive lo hi)) n (fuzz_versioned name lo hi decode s).
Proof.
  unfold fuzz_versioned. generalize (inclusive lo hi). intros vs Hk Hmax Hs.
  assert (lands I k n (Some s)) as Ho by done. revert Hk Hmax Ho. generalize (Some s). clear s Hs. revert k.
  induction vs as [|v vs IH]; intros k o Hk Hmax Ho; cbn [foldl length] in *; [by rewrite Z.add_0_r|].
  replace (k + Z.of_nat (S (length vs))) with (k + 1 + len vs) by lia.
  apply IH; [lia..|]. eapply lands_bind; [exact Ho|lia|]. intros s Hs. cbv beta.
  apply lands_fmap; [by apply clean_covered; [lia|]|]. intros s' Hs'. by apply try_inputs_clean.
Qed.

End sweep_facts.

(** ** The framing *)

Lemma try_split_under bytes max payload rest :
  try_split bytes max = Ok (Some payload, rest) → len payload ≤ max.
Proof.
  unfold try_split. destruct (len bytes <? 4); [done|]. intros (n & En & E)%res_bind_ok.
  unfold check_len in En. destruct (_ <? 0) eqn:H0; [done|]. destruct (max <? _) eqn:Hm; [done|].
  injection En as En. destruct (len bytes <? 4 + n); [done|]. injection E as <- _.
  rewrite length_take. lia.
Qed.

Lemma feed_under bytes : ∀ buf, feed bytes buf = None.
Proof.
  induction bytes as [|b bytes IH]; intros buf; [done|]. cbn [feed].
  destruct (try_split (buf ++ [b]) CEILING) as [[[payload|] buf']|] eqn:E; [|apply IH..].
  apply try_split_under in E. destruct (Z.ltb_spec CEILING (len payload)); [lia|apply IH].
Qed.

Lemma framing_rounds_clean I k n m : ∀ s,
  0 ≤ k < u32_max → clean I k n s → lands I (k + 1) n (framing_rounds m s).
Proof.
  induction m as [|m IH]; intros s Hk Hs; cbn [framing_rounds]; [by apply clean_covered|].
  pose proof (clean_sampling I k n framed_input (λ _, True) s ltac:(done) Hs) as [_ Hs'].
  destruct (sampling framed_input s) as [bytes s']. rewrite feed_under. by apply IH.
Qed.

Lemma new_iters env_seed env_iters : 0 ≤ iters (new env_seed env_iters).
Proof.
  unfold new. cbn [iters]. destruct env_iters as [i|]; cbn; [|done].
  destruct (try_from 0 u32_max i) as [j|] eqn:Ej; cbn; [|done]. apply try_from_Some in Ej. lia.
Qed.

(** Every message has an encodable default at every version it supports. *)
Lemma every_default_encodes : forallb one_seeded for_each_message = true.
Proof. vm_compute. reflexivity. Qed.

Lemma pairs_of_every_message : 300 < pairs_of for_each_message < 1000.
Proof. vm_compute. by split. Qed.

(** ** Record sets *)

Section set_facts.
Context {R : Runtime}.

(** One turn of [decode_set]: it stops over a fragment, or reads a batch. *)
Lemma set_loop_turn fuel v buf b bs rest b' :
  decode_set_loop (S fuel) v buf b = Ok (bs, rest, b') →
  is_partial_batch buf = true ∧ bs = items v ∨
  ∃ batch buf1 b1 v' b2, RecordBatchOps.decode_with_budget buf b = Ok (batch, buf1, b1) ∧
    items v' = items v ++ [batch] ∧ decode_set_loop fuel v' buf1 b2 = Ok (bs, rest, b').
Proof.
  cbn [decode_set_loop]. unfold is_partial_batch. destruct (len buf <? 12).
  { injection 1 as <- _ _. by left. }
  cbv zeta. intros (n & En & E)%res_bind_ok. unfold ok_or in En.
  destruct (try_from 0 usize_max _) as [z|]; [|done]. injection En as ->.
  destruct (len buf <? 12 + n). { injection E as <- _ _. by left. }
  apply res_bind_ok in E as ([[batch buf1] b1] & E1 & E).
  apply res_bind_ok in E as ([[v' buf2] b2] & E2 & E). right.
  pose proof (bpush_ok _ _ _ _ _ _ _ _ E2). apply bpush_buffer in E2 as ->. by eauto 10.
Qed.

Lemma set_loop_extends fuel : ∀ v buf b bs rest b',
  decode_set_loop fuel v buf b = Ok (bs, rest, b') → ∃ more, bs = items v ++ more.
Proof.
  induction fuel as [|fuel IH]; intros v buf b bs rest b' E.
  { injection E as <- _ _. exists []. by rewrite app_nil_r. }
  apply set_loop_turn in E as [[_ ->]|(batch & buf1 & b1 & v' & b2 & _ & Hi & E)].
  { exists []. by rewrite app_nil_r. }
  apply IH in E as (more & ->). exists (batch :: more). by rewrite Hi, <- app_assoc.
Qed.

(** A set that read as exactly these batches, and begins with what they are
    written as, goes on with a fragment. *)
Lemma set_loop_rest bs : ∀ fuel v more b rest b',
  Forall batch_ok bs → (len (concat (batch_wire <$> bs) ++ more) < Z.of_nat fuel) →
  decode_set_loop fuel v (concat (batch_wire <$> bs) ++ more) b = Ok (items v ++ bs, rest, b') →
  is_partial_batch more = true.
Proof.
  induction bs as [|x bs IH]; intros fuel v more b rest b' Hok Hf E; (destruct fuel as [|fuel]; [lia|]);
    apply set_loop_turn in E as [[Hp Hi]|(batch & buf1 & b1 & v' & b2 & E1 & Hi & E)].
  - done.
  - apply set_loop_extends in E as (xs & Ex). apply (f_equal length) in Ex.
    rewrite Hi, !length_app in Ex. cbn [length] in Ex. lia.
  - apply (f_equal length) in Hi. rewrite length_app in Hi. cbn [length] in Hi. lia.
  - apply Forall_cons in Hok as [Hx Hok]. rewrite fmap_cons in *. cbn [concat] in *.
    rewrite <- app_assoc in *. pose proof (batch_wire_length x) as Hl. rewrite length_app in Hf.
    destruct (reads_batch x Hx (concat (batch_wire <$> bs) ++ more) b) as [(b3 & E3 & _)|(e & E3 & _)];
      rewrite E3 in E1; [|done]. injection E1 as <- <- <-.
    apply (IH fuel v' more b2 rest b' Hok); [lia|]. by rewrite Hi, <- app_assoc.
Qed.

(** What one input can add to the findings: that it came back shorter, which takes
    a batch that is not compressed. *)
Lemma check_set_spec input s :
  check_set input s = s ∨
  ∃ bs out, decode_set input = Ok (bs, []) ∧ encode_set bs [] = (Ok tt, out) ∧
    check_set input s = report (ReencodedDifferently out) input s ∧ len out < len input ∧
    ∃ batch, batch ∈ bs ∧ compression batch = Compression_None.
Proof.
  unfold check_set. destruct (decode_set input) as [[bs rest]|] eqn:E; [|by left].
  pose proof E as E'. unfold decode_set, with_default_limits, with_limits in E'.
  apply res_bind_ok in E' as ([[bs' rest'] b'] & E' & Eq). injection Eq as -> ->.
  pose proof E' as (-> & kept & tail & Ei & Hp & Hok & Ht & Hc)%set_tight.
  rewrite (encodes_set _ Hok []). cbn [app]. set (out := concat (batch_wire <$> bs)) in *.
  case_bool_decide as Et; cbn [negb].
  - rewrite <- (take_drop (length out) input), Et in E' at 1. unfold out in E' at 1.
    apply (set_loop_rest bs _ (vec_new "RecordBatch")) in E'; [|done|].
    + rewrite E'. by left.
    + fold out. apply (f_equal length) in Et. rewrite length_take in Et.
      rewrite length_app, length_drop. lia.
  - destruct Ht as [Ht|Hlt]; [by rewrite Ht, Ei, take_app_length in Et|]. right.
    exists bs, out. split; [done|]. split; [by rewrite (encodes_set _ Hok [])|]. split; [done|].
    split; [rewrite Ei, length_app; lia|].
    destruct (decide (Exists (λ b, compression b = Compression_None) bs)) as [Hx|Hx].
    + by apply Exists_exists in Hx.
    + apply not_Exists_Forall in Hx; [|apply _]. rewrite (Hc Hx) in Hlt. lia.
Qed.

End set_facts.

(** ** Properties *)

(** C11: One pass through the codec settles, for every message type, version, limits and
    input: what was decoded encodes, in no more bytes than it took; the bytes
    written decode to the same value and so re-encode unchanged, under a budget
    as large as the one that accepted the input; under any other limits they
    decode to that value unless an allocation is refused; and with no limits and
    an allocator that does not fail they always do. *)
Theorem one_pass_settles {R : Runtime} (m : Keyed) (version : Z) (l : Limits) input (x : ty m) rest :
  m ∈ for_each_message →
  (versions_of m).1 ≤ version ≤ (versions_of m).2 →
  len input ≤ i64_max →
  Message.decode_with_limits version l input = Ok (x, rest) →
  ∃ out, enc_bytes (Message.encode version x) = Ok out ∧ len out + len rest ≤ len input ∧
    (∀ l' more, Limits.budget l' (len (out ++ more)) = Limits.budget l (len input) →
       Message.decode_with_limits version l' (out ++ more) = Ok (x, more)) ∧
    (∀ l' more, Message.decode_with_limits version l' (out ++ more) = Ok (x, more) ∨
       ∃ e, Message.decode_with_limits (M := ty m) version l' (out ++ more) = Err e ∧ is_alloc_error e) ∧
    (reliable R → ∀ more, Message.decode_with_limits version Limits.UNLIMITED (out ++ more) = Ok (x, more)).
Proof.
  intros _ Hv Hl E. destruct (Message.one_pass version l input x rest Hv Hl E) as (out & He & H).
  exists out. split; [by apply encodes_bytes|done].
Qed.

(** C15: The harness passes for every seed, every number of iterations and every run
    time, unless its [u32] count of the inputs that came back spelled otherwise
    overflows, which takes more inputs than a [u32] counts: 348 pairs of a message
    and a version are seeded and covered, and no mutant of any of them decodes to a
    value that does not survive being written back; the keyless decoders and the
    framing add nothing. *)
Theorem decoders_survive_every_seed {R : Runtime} (env_seed env_iters : option Z) :
  match decoders_survive env_seed env_iters with
  | Some s => survived s = true ∧ covered s = pairs_of for_each_message + 14
  | None => u32_max < pairs_of for_each_message * (1 + iters (new env_seed env_iters))
  end.
Proof.
  set (I := iters (new env_seed env_iters)). assert (0 ≤ I) as HI by apply new_iters.
  pose proof pairs_of_every_message as HP. set (P := pairs_of for_each_message) in *.
  assert (lands I (P + 14) (P * (1 + I)) (decoders_survive env_seed env_iters)) as Hl.
  { replace (P + 14) with (0 + P + 3 + 2 + 4 + 4 + 1) by lia. unfold decoders_survive.
    eapply lands_bind; [apply (sweep_clean I for_each_message HI 0 0)|lia|]; [apply every_default_encodes|done| |by repeat split|].
    { int_lia. }
    intros s1 H1.
    do 4 (eapply lands_bind; [eapply fuzz_versioned_clean; [| |eassumption]|lia|intros];
          [unfold inclusive; rewrite ?length_seqZ; int_lia..|]).
    apply framing_rounds_clean; [int_lia|done]. }
  destruct (decoders_survive env_seed env_iters) as [s|]; [|exact Hl].
  destruct Hl as (Hf & Hs & Hc & _). unfold survived. rewrite Hf, Hs, Hc. split; [|done].
  destruct (Z.ltb_spec 300 (P + 14)); [done|lia].
Qed.

(** The record-set harness panics only when the number of iterations overflows,
    and each input it tries adds nothing to the findings but a set that came back
    shorter than it arrived, which takes a batch that is not compressed: no
    complete batch is ever dropped, and a set that decodes always re-encodes. *)
Theorem record_sets_harness {R : Runtime} (env_seed env_iters : option Z) (input : buffer) (s : Session) :
  (record_sets_survive env_seed env_iters = None ↔ u32_max < iters (new env_seed env_iters) * 64) ∧
  (check_set input s = s ∨
   ∃ bs out, decode_set input = Ok (bs, []) ∧ encode_set bs [] = (Ok tt, out) ∧
     check_set input s = report (ReencodedDifferently out) input s ∧ len out < len input ∧
     ∃ batch, batch ∈ bs ∧ compression batch = Compression_None).
Proof.
  split; [|apply check_set_spec]. unfold record_sets_survive. cbv zeta.
  destruct (encode_set _ []) as [[[]|e] seed_bytes] eqn:E; [|vm_compute in E; discriminate].
  set (n := iters (new env_seed env_iters) * 64).
  assert (0 ≤ n) as Hn by (pose proof (new_iters env_seed env_iters); lia).
  assert (iters (check_set seed_bytes (new env_seed env_iters)) * 64 = n) as ->.
  { destruct (check_set_spec seed_bytes (new env_seed env_iters)) as [->|(? & ? & _ & _ & -> & _)]; [done|].
    by unfold report; destruct (negb _). }
  destruct (try_from 0 u32_max n) as [z|] eqn:Ez.
  - apply try_from_Some in Ez as [-> ?]. split; [done|lia].
  - split; [|done]. intros _. unfold try_from in Ez. destruct (Z.leb_spec 0 n); [|lia].
    destruct (Z.leb_spec n u32_max); [done|lia].
Qed.

(** *** A value that settles only once

    A run time with the sizes of a 64-bit target, and a group list whose lengths
    are each spelled in five bytes. *)

Definition string_size (ty : string) : Z := if String.eqb ty "String" then 24 else 8.

Lemma string_size_nonneg ty : 0 ≤ string_size ty.
Proof. unfold string_size. case_match; lia. Qed.

Definition string_runtime : Runtime :=
  {| size_of := string_size;
     size_of_nonneg := string_size_nonneg;
     alloc_exact := @alloc_exact plain_runtime;
     alloc_exact_ge := @alloc_exact_ge plain_runtime |}.

Definition empty_groups : describe_groups_request.DescribeGroupsRequest.t :=
  describe_groups_request.DescribeGroupsRequest.mk (replicate 1025 "") false [].
Definition overlong_groups : list byte :=
  varint_bytes 10 1026 ++
  concat (replicate 1025 [Byte.x81; Byte.x80; Byte.x80; Byte.x80; Byte.x00]) ++ [Byte.x00; Byte.x00].

(** "Re-encoding what was decoded must produce bytes that decode to the same
    value" has a counterexample under the default limits: their budget follows the
    length of the input, so a list spelled at length is accepted and the same
    list written back is refused; and the probe reports it. *)
Theorem settling_can_be_refused :
  Message.decode (R := string_runtime) 5 overlong_groups = Ok (empty_groups, []) ∧
  ∃ out, enc_bytes (Message.encode 5 empty_groups) = Ok out ∧
    Message.decode (M := describe_groups_request.DescribeGroupsRequest.t) (R := string_runtime) 5 out =
      Err (AllocationLimit 65536 73728) ∧
    ∀ s, probe (M := describe_groups_request.DescribeGroupsRequest.t) (R := string_runtime)
           "DescribeGroupsRequest" 5 overlong_groups s =
         report (RefusedAgain "DescribeGroupsRequest" 5 out) overlong_groups <$> add_non_canonical s.
Proof.
  assert (Message.decode (R := string_runtime) 5 overlong_groups = Ok (empty_groups, [])) as E
    by (vm_compute; reflexivity).
  split; [exact E|]. set (first := (Message.encode 5 empty_groups []).2).
  assert (Message.encode 5 empty_groups [] = (Ok tt, first)) as He by (vm_compute; reflexivity).
  assert (Message.decode (M := describe_groups_request.DescribeGroupsRequest.t)
    (R := string_runtime) 5 first = Err (AllocationLimit 65536 73728)) as E' by (vm_compute; reflexivity).
  assert (first ≠ overlong_groups) as Hne.
  { intros H%(f_equal length). vm_compute in H. discriminate. }
  exists first. split; [unfold enc_bytes; by rewrite He|]. split; [exact E'|]. intros s. unfold probe.
  rewrite E. change (negb (Z.of_nat (@length byte []) =? 0)) with false. cbv iota.
  by rewrite He, (decide_False _ _ Hne), E'.
Qed.

(** *** Witness *)

Lemma one_pass_settles_witness :
  ∃ x out, enc_bytes (Message.encode 3 x) = Ok out ∧
    len out ≤ 6 ∧
    Message.decode_with_limits (M := list_groups_request.ListGroupsRequest.t) (R := plain_runtime)
      3 Limits.UNLIMITED out = Ok (x, []).
Proof.
  set (x := list_groups_request.ListGroupsRequest.mk [] [] [mkRawTaggedField 127 [Byte.x0f; Byte.x0f]]).
  destruct (one_pass_settles (R := plain_runtime)
    (keyed "ListGroupsRequest" list_groups_request.ListGroupsRequest.t) 3 Limits.default
    [Byte.x81; Byte.x00; Byte.x7f; Byte.x02; Byte.x0f; Byte.x0f] x []) as (out & He & Hl & _ & _ & Hu).
  - apply list_elem_of_In. cbn. tauto.
  - vm_compute. split; discriminate.
  - vm_compute. discriminate.
  - vm_compute. reflexivity.
  - exists x, out. split; [exact He|]. split; [cbn [length] in Hl; lia|].
    rewrite <- (app_nil_r out). exact (Hu plain_reliable []).
Defined.
