(* ===== verification/PassThrough.v ===== *)
(** * The pass-through proxy ([odradek-protocol/examples/proxy.rs])

    The witness the crate keeps for its own design: a proxy that forwards frames
    without looking at them, but for the two answers that tell a client where to
    connect next, which it decodes, redirects and encodes again.  A connection is
    a [Link], the state both directions share; each direction is one iteration of
    its loop at a time, and the iterations interleave as they like.  What a peer
    sends is its whole byte stream, with how it ends.  The two lines of warnings
    on stderr, the listeners and their tasks are not modelled. *)
From S2P Require Import Prelude Text Budget Codec Wire Frame Fields KnownTags Settles MessageTrait MsgGroup MsgMetadata MsgConnection Registry.
Import BudgetOps.
Import metadata_response find_coordinator_response request_header response_header.

(** ** Addresses and arguments *)

(** The errors of a boxed [dyn Error] this program makes, by where they come
    from. *)
Inductive ProxyError : Type :=
| FromDecode (e : DecodeError)
| FromEncode (e : EncodeError)
| Io
| UnexpectedEof
| NoHeaderVersion (api_key : Z)
| LeftUndecoded (api_key n : Z)
| NotHostPort (addr : string)
| ParsePort (addr : string)
| BadMap (pair : string)
| UnknownArgument (arg : string).

Fixpoint trim_start_matches (c : byte) (s : text) : text :=
  match s with
  | b :: s' => if Byte.eqb b c then trim_start_matches c s' else s
  | [] => []
  end.
Definition trim_end_matches (c : byte) (s : text) : text := rev (trim_start_matches c (rev s)).

Definition split_endpoint (addr : string) : result ProxyError (string * Z) :=
  let? (host, port) := ok_or (NotHostPort addr) (rsplit_once [COLON] (str_bytes addr)) in
  let host := trim_end_matches (byte_of_Z 93) (trim_start_matches (byte_of_Z 91) host) in
  let? port := ok_or (ParsePort addr) (decimal.parse i32_min i32_max port) in
  Ok (bytes_str host, port).

Record Route : Type := mkRoute {
  listen : string;
  upstream : string;
  advertise : string;
}.

(** What the loop over the arguments has so far. *)
Record Args : Type := mkArgs {
  arg_listen : string;
  arg_upstream : string;
  arg_advertise : option string;
  arg_routes : list Route;
}.

Definition next_or_default (args : list string) : string :=
  match args with value :: _ => value | [] => "" end.

(** [--map <listen>=<upstream>]. *)
Definition map_route (pair : string) : result ProxyError Route :=
  let? (listen, upstream) := ok_or (BadMap pair) (split_once (byte_of_Z 61) (str_bytes pair)) in
  Ok (mkRoute (bytes_str listen) (bytes_str upstream) (bytes_str listen)).

Fixpoint parse_args (args : list string) (a : Args) : result ProxyError Args :=
  match args with
  | [] => Ok a
  | arg :: args =>
      if String.eqb arg "--listen" then
        let a := mkArgs (next_or_default args) (arg_upstream a) (arg_advertise a) (arg_routes a) in
        match args with _ :: args => parse_args args a | [] => Ok a end
      else if String.eqb arg "--upstream" then
        let a := mkArgs (arg_listen a) (next_or_default args) (arg_advertise a) (arg_routes a) in
        match args with _ :: args => parse_args args a | [] => Ok a end
      else if String.eqb arg "--advertise" then
        let a := mkArgs (arg_listen a) (arg_upstream a) (head args) (arg_routes a) in
        match args with _ :: args => parse_args args a | [] => Ok a end
      else if String.eqb arg "--map" then
        let? route := map_route (next_or_default args) in
        let a := mkArgs (arg_listen a) (arg_upstream a) (arg_advertise a) (arg_routes a ++ [route]) in
        match args with _ :: args => parse_args args a | [] => Ok a end
      else Err (UnknownArgument arg)
  end.

(** The routes of the command line: those of [--map], or the one of the other
    three. *)
Definition routes_of (args : list string) : result ProxyError (list Route) :=
  let? a := parse_args args (mkArgs "127.0.0.1:19092" "127.0.0.1:9092" None []) in
  Ok (match arg_routes a with
      | [] => [mkRoute (arg_listen a) (arg_upstream a) (default (arg_listen a) (arg_advertise a))]
      | routes => routes
      end).

Definition Endpoints : Type := gmap string (string * Z).

Fixpoint endpoint_table (routes : list Route) (table : Endpoints) : result ProxyError Endpoints :=
  match routes with
  | [] => Ok table
  | route :: routes =>
      let? (host, port) := split_endpoint (advertise route) in
      endpoint_table routes (<[upstream route := (host, port)]> table)
  end.

(** ** Redirecting an answer *)

Definition endpoint (host : string) (port : Z) : string :=
  host +:+ ":" +:+ bytes_str (decimal.print port).

Definition map_endpoint (host : string) (port : Z) (endpoints : Endpoints) (unmapped : list string) :
    string * Z * list string :=
  if String.eqb host "" then (host, port, unmapped)
  else
    match endpoints !! endpoint host port with
    | Some (mapped_host, mapped_port) => (mapped_host, mapped_port, unmapped)
    | None => (host, port, unmapped ++ [endpoint host port])
    end.

Fixpoint map_brokers (brokers : list MetadataResponseBroker.t) (endpoints : Endpoints)
    (unmapped : list string) : list MetadataResponseBroker.t * list string :=
  match brokers with
  | [] => ([], unmapped)
  | MetadataResponseBroker.mk node_id host port rack tags :: brokers =>
      let '(host, port, unmapped) := map_endpoint host port endpoints unmapped in
      let (brokers, unmapped) := map_brokers brokers endpoints unmapped in
      (MetadataResponseBroker.mk node_id host port rack tags :: brokers, unmapped)
  end.

Fixpoint map_coordinators (coordinators : list Coordinator.t) (endpoints : Endpoints)
    (unmapped : list string) : list Coordinator.t * list string :=
  match coordinators with
  | [] => ([], unmapped)
  | Coordinator.mk key node_id host port error_code error_message tags :: coordinators =>
      let '(host, port, unmapped) := map_endpoint host port endpoints unmapped in
      let (coordinators, unmapped) := map_coordinators coordinators endpoints unmapped in
      (Coordinator.mk key node_id host port error_code error_message tags :: coordinators, unmapped)
  end.

Definition set_brokers (brokers : list MetadataResponseBroker.t) (r : MetadataResponse.t) : MetadataResponse.t :=
  MetadataResponse.mk (MetadataResponse.throttle_time_ms r) brokers (MetadataResponse.cluster_id r)
    (MetadataResponse.controller_id r) (MetadataResponse.topics r)
    (MetadataResponse.cluster_authorized_operations r) (MetadataResponse.error_code r)
    (MetadataResponse.unknown_tagged_fields r).

Definition set_endpoints (host : string) (port : Z) (coordinators : list Coordinator.t)
    (r : FindCoordinatorResponse.t) : FindCoordinatorResponse.t :=
  FindCoordinatorResponse.mk (FindCoordinatorResponse.throttle_time_ms r)
    (FindCoordinatorResponse.error_code r) (FindCoordinatorResponse.error_message r)
    (FindCoordinatorResponse.node_id r) host port coordinators
    (FindCoordinatorResponse.unknown_tagged_fields r).

Section proxy.
Context {R : Runtime}.

(** Encoding into a fresh buffer, whose bytes are only taken when it succeeds. *)
Definition frozen (w : enc) : result ProxyError (list byte) :=
  match w [] with
  | (Ok _, out) => Ok out
  | (Err e, _) => Err (FromEncode e)
  end.

(** The bytes, and the endpoints [warn_unmapped] names. *)
Definition rewrite_metadata (payload : list byte) (api_version : Z) (endpoints : Endpoints) :
    result ProxyError (list byte * list string) :=
  let? header_version := ok_or (NoHeaderVersion MetadataResponse.API_KEY)
    (response_header_version MetadataResponse.API_KEY api_version) in
  let? (header, body) := map_err FromDecode (ResponseHeader.decode header_version payload) in
  let? (response, body) := map_err FromDecode (MetadataResponse.decode api_version body) in
  if negb (len body =? 0) then Err (LeftUndecoded MetadataResponse.API_KEY (len body))
  else
    let (brokers, unmapped) := map_brokers (MetadataResponse.brokers response) endpoints [] in
    let response := set_brokers brokers response in
    let? out := frozen (ResponseHeader.encode header_version header ;;
                        MetadataResponse.encode api_version response) in
    Ok (out, unmapped).

Definition rewrite_find_coordinator (payload : list byte) (api_version : Z) (endpoints : Endpoints) :
    result ProxyError (list byte * list string) :=
  let? header_version := ok_or (NoHeaderVersion FindCoordinatorResponse.API_KEY)
    (response_header_version FindCoordinatorResponse.API_KEY api_version) in
  let? (header, body) := map_err FromDecode (ResponseHeader.decode header_version payload) in
  let? (response, body) := map_err FromDecode (FindCoordinatorResponse.decode api_version body) in
  if negb (len body =? 0) then Err (LeftUndecoded FindCoordinatorResponse.API_KEY (len body))
  else
    let '(host, port, unmapped) := map_endpoint (FindCoordinatorResponse.host response)
      (FindCoordinatorResponse.port response) endpoints [] in
    let (coordinators, unmapped) :=
      map_coordinators (FindCoordinatorResponse.coordinators response) endpoints unmapped in
    let response := set_endpoints host port coordinators response in
    let? out := frozen (ResponseHeader.encode header_version header ;;
                        FindCoordinatorResponse.encode api_version response) in
    Ok (out, unmapped).

(** ** The two directions *)

(** What a peer sends in all, and whether its end is a failure rather than a
    close. *)
Record Stream : Type := mkStream { bytes : list byte; broken : bool }.

Definition read_frame (from : Stream) : result ProxyError (option (list byte * Stream)) :=
  if len (bytes from) <? 4 then if broken from then Err Io else Ok None
  else
    let? n := map_err FromDecode (check_len (take 4 (bytes from)) DEFAULT_MAX_FRAME) in
    let rest := drop 4 (bytes from) in
    if len rest <? n then Err (if broken from then Io else UnexpectedEof)
    else Ok (Some (take (Z.to_nat n) rest, mkStream (drop (Z.to_nat n) rest) (broken from))).

(** What is written for a payload. *)
Definition write_frame (payload : list byte) : result ProxyError (list byte) :=
  frozen (frame (put_slice payload)).

(** Correlation ids of the requests whose answers are read, and the api key and
    version of each. *)
Definition Outstanding : Type := gmap Z (Z * Z).

Definition remember (payload : list byte) (outstanding : Outstanding) : Outstanding :=
  if 4 <=? len payload then
    let api_key := sint 16 (be_val (take 2 payload)) in
    let api_version := sint 16 (be_val (take 2 (drop 2 payload))) in
    if (api_key =? MetadataResponse.API_KEY) || (api_key =? FindCoordinatorResponse.API_KEY) then
      match request_header_version api_key api_version with
      | Some hv =>
          match RequestHeader.decode hv payload with
          | Ok (header, _) => <[RequestHeader.correlation_id header := (api_key, api_version)]> outstanding
          | Err _ => outstanding
          end
      | None => outstanding
      end
    else outstanding
  else outstanding.

Definition forwarded (payload : list byte) (asked_at : option (Z * Z)) (endpoints : Endpoints) : list byte :=
  match asked_at with
  | Some (api_key, api_version) =>
      let rewritten :=
        if api_key =? MetadataResponse.API_KEY then rewrite_metadata payload api_version endpoints
        else rewrite_find_coordinator payload api_version endpoints in
      match rewritten with Ok (rewritten, _) => rewritten | Err _ => payload end
  | None => payload
  end.

(** A connection; each direction has ended or goes on, whatever the other did:
    [serve] returns with the first, which only detaches the second. *)
Record Link : Type := mkLink {
  from_client : Stream;
  to_broker : list byte;
  from_broker : Stream;
  to_client : list byte;
  outstanding : Outstanding;
  up : option (result ProxyError unit);
  down : option (result ProxyError unit);
}.

Definition end_up (r : result ProxyError unit) (l : Link) : Link :=
  mkLink (from_client l) (to_broker l) (from_broker l) (to_client l) (outstanding l) (Some r) (down l).
Definition end_down (r : result ProxyError unit) (l : Link) : Link :=
  mkLink (from_client l) (to_broker l) (from_broker l) (to_client l) (outstanding l) (up l) (Some r).

(** [write_all]: all of it, or, when the socket fails, the first bytes. *)
Definition write_all (out : list byte) (fails : option nat) : list byte * result ProxyError unit :=
  match fails with
  | None => (out, Ok tt)
  | Some n => (take n out, Err Io)
  end.

(** One iteration of [pump_requests]; [fails] is what becomes of its write. *)
Definition pump_requests (fails : option nat) (l : Link) : Link :=
  match read_frame (from_client l) with
  | Err e => end_up (Err e) l
  | Ok None => end_up (Ok tt) l
  | Ok (Some (payload, from)) =>
      let l := mkLink from (to_broker l) (from_broker l) (to_client l)
                 (remember payload (outstanding l)) (up l) (down l) in
      match write_frame payload with
      | Err e => end_up (Err e) l
      | Ok out =>
          let (written, r) := write_all out fails in
          let l := mkLink (from_client l) (to_broker l ++ written) (from_broker l) (to_client l)
                     (outstanding l) (up l) (down l) in
          match r with Ok _ => l | Err e => end_up (Err e) l end
      end
  end.

(** One iteration of [pump_responses]. *)
Definition pump_responses (endpoints : Endpoints) (fails : option nat) (l : Link) : Link :=
  match read_frame (from_broker l) with
  | Err e => end_down (Err e) l
  | Ok None => end_down (Ok tt) l
  | Ok (Some (payload, from)) =>
      let l := mkLink (from_client l) (to_broker l) from (to_client l) (outstanding l) (up l) (down l) in
      match peek_correlation_id payload with
      | Err e => end_down (Err (FromDecode e)) l
      | Ok correlation =>
          let asked_at := outstanding l !! correlation in
          let l := mkLink (from_client l) (to_broker l) (from_broker l) (to_client l)
                     (delete correlation (outstanding l)) (up l) (down l) in
          match write_frame (forwarded payload asked_at endpoints) with
          | Err e => end_down (Err e) l
          | Ok out =>
              let (written, r) := write_all out fails in
              let l := mkLink (from_client l) (to_broker l) (from_broker l) (to_client l ++ written)
                         (outstanding l) (up l) (down l) in
              match r with Ok _ => l | Err e => end_down (Err e) l end
          end
      end
  end.

(** [serve], from its two sockets on. *)
Definition serve (client broker : Stream) : Link := mkLink client [] broker [] ∅ None None.

Inductive link_step (endpoints : Endpoints) : Link → Link → Prop :=
| LinkUp l fails : up l = None → link_step endpoints l (pump_requests fails l)
| LinkDown l fails : down l = None → link_step endpoints l (pump_responses endpoints fails l).

End proxy.

(** ** Frames *)

Section facts.
Context {R : Runtime}.

Lemma read_frame_inv from payload from' :
  read_frame from = Ok (Some (payload, from')) →
  bytes from = framed payload ++ bytes from' ∧ len payload ≤ DEFAULT_MAX_FRAME.
Proof.
  unfold read_frame. destruct (Z.ltb_spec (len (bytes from)) 4); [by destruct (broken from)|].
  intros (n & En & E)%res_bind_ok. apply map_err_ok in En. unfold check_len in En.
  destruct (Z.ltb_spec (sint 32 (be_val (take 4 (bytes from)))) 0); [done|].
  destruct (Z.ltb_spec DEFAULT_MAX_FRAME (sint 32 (be_val (take 4 (bytes from))))); [done|].
  injection En as En. rewrite En in *. cbv zeta in E.
  destruct (Z.ltb_spec (len (drop 4 (bytes from))) n); [done|]. injection E as <- <-.
  cbn [bytes]. unfold framed. rewrite length_take. split; [|lia].
  rewrite <- app_assoc, take_drop. rewrite <- (take_drop 4 (bytes from)) at 1. f_equal.
  replace (Z.of_nat (Z.to_nat n `min` length (drop 4 (bytes from)))) with n by lia.
  assert (0 < 4 ≤ length (bytes from))%nat as Hb by lia.
  destruct (get_int_inv 4 (bytes from) _ _ Hb eq_refl) as [Ei _].
  apply (f_equal (take 4)) in Ei. rewrite take_app_exact in Ei by (by rewrite be_bytes_length).
  rewrite Ei at 1. f_equal. exact En.
Qed.

Lemma write_frame_framed payload :
  len payload ≤ i32_max → write_frame payload = Ok (framed payload).
Proof.
  intros Hl. unfold write_frame, frozen.
  by rewrite (encodes_frame _ _ (encodes_slice payload) Hl []).
Qed.

Lemma write_frame_inv payload out : write_frame payload = Ok out → out = framed payload.
Proof.
  destruct (Z.le_gt_cases (len payload) i32_max) as [Hl|Hl].
  { rewrite write_frame_framed by done. by injection 1. }
  unfold write_frame, frozen, frame, frame_in_place, enc_seq, put_i32, put_int, put_slice.
  rewrite !length_app, be_bytes_length. cbn [length].
  unfold try_from.
  destruct (_ && _) eqn:E; [|done]. apply andb_true_iff in E as [_ E%Z.leb_le].
  lia.
Qed.

(** ** Redirecting *)

Definition endpoints_ok (endpoints : Endpoints) : Prop :=
  ∀ e h p, endpoints !! e = Some (h, p) → is_str h ∧ str_len h ≤ i16_max ∧ is_i32 p.

(** Where a client that is told [host] and [port] goes through the proxy. *)
Definition redirect (endpoints : Endpoints) (host : string) (port : Z) : string * Z :=
  (map_endpoint host port endpoints []).1.

Lemma map_endpoint_fst endpoints host port unmapped :
  (map_endpoint host port endpoints unmapped).1 = redirect endpoints host port.
Proof. unfold redirect, map_endpoint. repeat case_match; done. Qed.

Lemma redirect_ok endpoints flex host port :
  endpoints_ok endpoints → str_ok flex host → is_i32 port →
  str_ok flex (redirect endpoints host port).1 ∧ is_i32 (redirect endpoints host port).2.
Proof.
  intros He Hh Hp. unfold redirect, map_endpoint. case_match; [done|].
  destruct (endpoints !! endpoint host port) as [[h p]|] eqn:E; [|done].
  apply He in E as (? & ? & ?). split; [|done]. split; [done|]. cbn [fst].
  change i64_max with (2 ^ 63 - 1). change i16_max with (2 ^ 15 - 1) in *. destruct flex; lia.
Qed.

Definition redirect_broker (endpoints : Endpoints) (b : MetadataResponseBroker.t) : MetadataResponseBroker.t :=
  let (host, port) := redirect endpoints (MetadataResponseBroker.host b) (MetadataResponseBroker.port b) in
  MetadataResponseBroker.mk (MetadataResponseBroker.node_id b) host port (MetadataResponseBroker.rack b)
    (MetadataResponseBroker.unknown_tagged_fields b).

Definition redirect_coordinator (endpoints : Endpoints) (c : Coordinator.t) : Coordinator.t :=
  let (host, port) := redirect endpoints (Coordinator.host c) (Coordinator.port c) in
  Coordinator.mk (Coordinator.key c) (Coordinator.node_id c) host port (Coordinator.error_code c)
    (Coordinator.error_message c) (Coordinator.unknown_tagged_fields c).

Definition redirect_metadata (endpoints : Endpoints) (r : MetadataResponse.t) : MetadataResponse.t :=
  set_brokers (redirect_broker endpoints <$> MetadataResponse.brokers r) r.

Definition redirect_find_coordinator (endpoints : Endpoints) (r : FindCoordinatorResponse.t) :
    FindCoordinatorResponse.t :=
  let (host, port) := redirect endpoints (FindCoordinatorResponse.host r) (FindCoordinatorResponse.port r) in
  set_endpoints host port (redirect_coordinator endpoints <$> FindCoordinatorResponse.coordinators r) r.

Lemma map_brokers_fst brokers : ∀ endpoints unmapped,
  (map_brokers brokers endpoints unmapped).1 = redirect_broker endpoints <$> brokers.
Proof.
  induction brokers as [|[node_id host port rack tags] brokers IH]; intros endpoints unmapped; [done|].
  cbn [map_brokers]. pose proof (map_endpoint_fst endpoints host port unmapped) as E.
  destruct (map_endpoint host port endpoints unmapped) as [[h p] u]. cbn [fst] in E.
  specialize (IH endpoints u). destruct (map_brokers brokers endpoints u) as [bs u']. cbn [fst] in *.
  subst bs. rewrite fmap_cons. f_equal. unfold redirect_broker.
  cbn [MetadataResponseBroker.host MetadataResponseBroker.port]. by rewrite <- E.
Qed.

Lemma map_coordinators_fst coordinators : ∀ endpoints unmapped,
  (map_coordinators coordinators endpoints unmapped).1 = redirect_coordinator endpoints <$> coordinators.
Proof.
  induction coordinators as [|[key node_id host port error message tags] cs IH];
    intros endpoints unmapped; [done|].
  cbn [map_coordinators]. pose proof (map_endpoint_fst endpoints host port unmapped) as E.
  destruct (map_endpoint host port endpoints unmapped) as [[h p] u]. cbn [fst] in E.
  specialize (IH endpoints u). destruct (map_coordinators cs endpoints u) as [bs u']. cbn [fst] in *.
  subst bs. rewrite fmap_cons. f_equal. unfold redirect_coordinator.
  cbn [Coordinator.host Coordinator.port]. by rewrite <- E.
Qed.

Lemma redirect_metadata_valid endpoints version r :
  endpoints_ok endpoints → MetadataResponse.valid version r →
  MetadataResponse.valid version (redirect_metadata endpoints r).
Proof.
  intros He (? & [Hl Hb] & ?). split; [done|]. split; [|done]. cbn [redirect_metadata set_brokers MetadataResponse.brokers].
  split; [by rewrite length_fmap|]. apply Forall_fmap. eapply Forall_impl; [exact Hb|].
  intros b (? & Hh & Hp & ?). destruct (redirect_ok endpoints _ _ _ He Hh Hp).
  cbn. unfold redirect_broker. destruct (redirect _ _ _) as [h p]. done.
Qed.

Lemma redirect_find_coordinator_valid endpoints version r :
  endpoints_ok endpoints → FindCoordinatorResponse.valid version r →
  FindCoordinatorResponse.valid version (redirect_find_coordinator endpoints r).
Proof.
  intros He (Ht & Hc & Hm & Hn & Hh & Hp & Hcs & Htags).
  unfold redirect_find_coordinator, FindCoordinatorResponse.valid in *.
  assert (in_version (version <=? 3) (str_ok (find_coordinator_response.is_flexible version)) ""
      (redirect endpoints (FindCoordinatorResponse.host r) (FindCoordinatorResponse.port r)).1 ∧
    in_version (version <=? 3) is_i32 0
      (redirect endpoints (FindCoordinatorResponse.host r) (FindCoordinatorResponse.port r)).2) as [Hh' Hp'].
  { unfold in_version in *. destruct (version <=? 3); [by apply redirect_ok|]. by rewrite Hh, Hp. }
  destruct (redirect _ _ _) as [h p]. cbn [fst snd] in *. split_and!; try done.
  cbn [set_endpoints FindCoordinatorResponse.coordinators]. unfold in_version in *.
  destruct (version >=? 4) eqn:E4; [|by rewrite Hcs]. destruct Hcs as [Hl Hcs].
  split; [by rewrite length_fmap|]. apply Forall_fmap. eapply Forall_impl; [exact Hcs|].
  intros c Hv. unfold compose, Coordinator.valid in *. cbv zeta in *. rewrite E4 in *. cbv beta iota in Hv.
  destruct Hv as (? & ? & Hch & Hcp & ?). destruct (redirect_ok endpoints _ _ _ He Hch Hcp).
  unfold redirect_coordinator. destruct (redirect _ _ _) as [h' p']. cbn.
  repeat (split; [assumption|]). assumption.
Qed.

End facts.

(** ** What the client reads *)

(** A client with room for the answer reads [header] and [x] from [out]. *)
Definition client_reads {A B} (dh : ∀ R : Runtime, bdec A) (dm : ∀ R : Runtime, bdec B)
    (out : list byte) (header : A) (x : B) : Prop :=
  ∀ R, reliable R → ∃ body, with_limits (dh R) Limits.UNLIMITED out = Ok (header, body) ∧
    with_limits (dm R) Limits.UNLIMITED body = Ok (x, []).

Lemma frozen_pairs {A B} wh wm (dh : ∀ R : Runtime, bdec A) (dm : ∀ R : Runtime, bdec B) header x :
  (∀ R, pairs wh (dh R) header) → (∀ R, pairs wm (dm R) x) →
  ∃ out, frozen (wh ;; wm) = Ok out ∧ client_reads dh dm out header x.
Proof.
  intros Hh Hm. destruct (Hh plain_runtime) as (b1 & E1 & _). destruct (Hm plain_runtime) as (b2 & E2 & _).
  exists (b1 ++ b2). split; [unfold frozen; by rewrite (encodes_seq _ _ _ _ E1 E2 [])|].
  intros R HR. exists b2.
  destruct (pairs_entry _ _ _ (Hh R)) as (b1' & E1' & _ & D1). destruct (pairs_entry _ _ _ (Hm R)) as (b2' & E2' & _ & D2).
  rewrite (encodes_bytes _ _ E1) in E1'. injection E1' as <-.
  rewrite (encodes_bytes _ _ E2) in E2'. injection E2' as <-.
  split; [by apply D1|]. specialize (D2 HR []). by rewrite app_nil_r in D2.
Qed.

Lemma header_peek {R : Runtime} hv l payload header body :
  ResponseHeader.decode_with_limits hv l payload = Ok (header, body) →
  peek_correlation_id payload = Ok (ResponseHeader.correlation_id header).
Proof.
  unfold ResponseHeader.decode_with_limits, with_limits, ResponseHeader.decode_with_budget, lift, get_i32, ensure,
    bdec_bind, dec_bind, buf_get_int, peek_correlation_id. cbv beta zeta.
  destruct (Z.ltb_spec (len payload) 4); cbn [res_bind]; [done|].
  intros ([[h rest] b] & ([[tags buf2] b2] & _ & E)%res_bind_ok & E')%res_bind_ok.
  injection E as <- _ _. by injection E' as <- _.
Qed.

Lemma accepted_valid {R : Runtime} {A} (w : A → enc) P d l buf x rest :
  settles w P d → len buf ≤ i64_max → with_limits d l buf = Ok (x, rest) → P x ∧ len rest ≤ len buf.
Proof.
  intros H Hl. unfold with_limits. intros ([[y rest'] b] & E & E')%res_bind_ok. injection E' as -> ->.
  destruct (H _ _ _ _ _ Hl E) as (n & bs & ? & ? & _ & _ & HP & _). split; [done|lia].
Qed.

Lemma client_peeks {B} hv (dm : ∀ R : Runtime, bdec B) out header x :
  client_reads (λ R, ResponseHeader.decode_with_budget hv) dm out header x →
  peek_correlation_id out = Ok (ResponseHeader.correlation_id header).
Proof.
  intros H. destruct (H plain_runtime plain_reliable) as (body & E & _).
  exact (header_peek (R := plain_runtime) hv _ _ _ _ E).
Qed.

Section rewriting.
Context {R : Runtime} (endpoints : Endpoints).
Hypothesis Hendpoints : endpoints_ok endpoints.

Lemma rewrite_metadata_spec payload v hv header body r :
  response_header_version MetadataResponse.API_KEY v = Some hv → len payload ≤ i64_max →
  ResponseHeader.decode hv payload = Ok (header, body) → MetadataResponse.decode v body = Ok (r, []) →
  ∃ out unmapped, rewrite_metadata payload v endpoints = Ok (out, unmapped) ∧
    client_reads (λ R, ResponseHeader.decode_with_budget hv) (λ R, MetadataResponse.decode_with_budget v)
      out header (redirect_metadata endpoints r).
Proof using Hendpoints.
  intros Hhv Hl Eh Em. unfold rewrite_metadata. rewrite Hhv. cbn [ok_or res_bind]. rewrite Eh. cbn [map_err res_bind].
  rewrite Em. cbn [map_err res_bind length]. change (negb (Z.of_nat 0 =? 0)) with false. cbv iota.
  destruct (accepted_valid _ _ _ _ _ _ _ (ResponseHeader.response_header_ResponseHeader_settles hv) Hl Eh) as [Hv Hb].
  assert (len body ≤ i64_max) as Hl' by lia.
  destruct (accepted_valid _ _ _ _ _ _ _ (MetadataResponse.metadata_response_MetadataResponse_settles v)
    Hl' Em) as [Hr _].
  pose proof (map_brokers_fst (MetadataResponse.brokers r) endpoints []) as Ebs.
  destruct (map_brokers _ _ _) as [bs unmapped]. cbn [fst] in Ebs. subst bs.
  destruct (frozen_pairs _ _ (λ R, ResponseHeader.decode_with_budget hv) (λ R, MetadataResponse.decode_with_budget v)
    header (redirect_metadata endpoints r)
    (λ R, ResponseHeader.response_header_ResponseHeader_agrees hv header Hv)
    (λ R, MetadataResponse.metadata_response_MetadataResponse_agrees v _
       (redirect_metadata_valid endpoints v r Hendpoints Hr))) as (out & Eo & Hread).
  unfold redirect_metadata in Eo. rewrite Eo. by exists out, unmapped.
Qed.

Lemma rewrite_find_coordinator_spec payload v hv header body r :
  response_header_version FindCoordinatorResponse.API_KEY v = Some hv → len payload ≤ i64_max →
  ResponseHeader.decode hv payload = Ok (header, body) → FindCoordinatorResponse.decode v body = Ok (r, []) →
  ∃ out unmapped, rewrite_find_coordinator payload v endpoints = Ok (out, unmapped) ∧
    client_reads (λ R, ResponseHeader.decode_with_budget hv) (λ R, FindCoordinatorResponse.decode_with_budget v)
      out header (redirect_find_coordinator endpoints r).
Proof using Hendpoints.
  intros Hhv Hl Eh Em. unfold rewrite_find_coordinator. rewrite Hhv. cbn [ok_or res_bind]. rewrite Eh. cbn [map_err res_bind].
  rewrite Em. cbn [map_err res_bind length]. change (negb (Z.of_nat 0 =? 0)) with false. cbv iota.
  destruct (accepted_valid _ _ _ _ _ _ _ (ResponseHeader.response_header_ResponseHeader_settles hv) Hl Eh) as [Hv Hb].
  assert (len body ≤ i64_max) as Hl' by lia.
  destruct (accepted_valid _ _ _ _ _ _ _
    (FindCoordinatorResponse.find_coordinator_response_FindCoordinatorResponse_settles v) Hl' Em) as [Hr _].
  destruct (frozen_pairs _ _ (λ R, ResponseHeader.decode_with_budget hv)
    (λ R, FindCoordinatorResponse.decode_with_budget v) header (redirect_find_coordinator endpoints r)
    (λ R, ResponseHeader.response_header_ResponseHeader_agrees hv header Hv)
    (λ R, FindCoordinatorResponse.find_coordinator_response_FindCoordinatorResponse_agrees v _
       (redirect_find_coordinator_valid endpoints v r Hendpoints Hr))) as (out & Eo & Hread).
  unfold redirect_find_coordinator in *.
  pose proof (map_endpoint_fst endpoints (FindCoordinatorResponse.host r) (FindCoordinatorResponse.port r) []) as Ee.
  destruct (map_endpoint _ _ _ _) as [[h p] u]. cbn [fst] in Ee. rewrite <- Ee in *.
  pose proof (map_coordinators_fst (FindCoordinatorResponse.coordinators r) endpoints u) as Ecs.
  destruct (map_coordinators _ _ _) as [cs unmapped]. cbn [fst] in Ecs. subst cs.
  rewrite Eo. by exists out, unmapped.
Qed.

(** What becomes of a frame of the broker: it is forwarded as it is, or it is an
    answer that names brokers and its client reads it with every endpoint
    redirected and nothing else changed. *)
Inductive answers (p : list byte) : list byte → Prop :=
| Untouched : answers p p
| MetadataRedirected v hv header body r q :
    ResponseHeader.decode hv p = Ok (header, body) → MetadataResponse.decode v body = Ok (r, []) →
    client_reads (λ R, ResponseHeader.decode_with_budget hv) (λ R, MetadataResponse.decode_with_budget v)
      q header (redirect_metadata endpoints r) → answers p q
| CoordinatorRedirected v hv header body r q :
    ResponseHeader.decode hv p = Ok (header, body) → FindCoordinatorResponse.decode v body = Ok (r, []) →
    client_reads (λ R, ResponseHeader.decode_with_budget hv) (λ R, FindCoordinatorResponse.decode_with_budget v)
      q header (redirect_find_coordinator endpoints r) → answers p q.

(** Either way under the correlation id it came with. *)
Lemma answers_peek p q : answers p q → peek_correlation_id q = peek_correlation_id p.
Proof using Type.
  intros [|v hv header body r q' Eh Em Hr|v hv header body r q' Eh Em Hr]; [done| |];
    rewrite (client_peeks _ _ _ _ _ Hr); symmetry; exact (header_peek _ _ _ _ _ Eh).
Qed.

Lemma forwarded_answers p asked_at :
  len p ≤ i64_max → answers p (forwarded p asked_at endpoints).
Proof using Hendpoints.
  intros Hl. unfold forwarded. destruct asked_at as [[k v]|]; [|constructor]. cbv zeta.
  destruct (k =? MetadataResponse.API_KEY).
  - destruct (rewrite_metadata p v endpoints) as [[out u]|] eqn:E; [|constructor]. pose proof E as E0.
    unfold rewrite_metadata in E.
    apply res_bind_ok in E as (hv & Ehv & E). unfold ok_or in Ehv.
    destruct (response_header_version _ v) as [hv'|] eqn:Hhv; [|done]. injection Ehv as ->.
    apply res_bind_ok in E as ([header body] & Eh%map_err_ok & E).
    apply res_bind_ok in E as ([r rest] & Em%map_err_ok & E).
    destruct rest; [|done].
    destruct (rewrite_metadata_spec p v hv header body r Hhv Hl Eh Em) as (out' & u' & E' & Hr).
    rewrite E0 in E'. injection E' as <- <-. by eapply MetadataRedirected.
  - destruct (rewrite_find_coordinator p v endpoints) as [[out u]|] eqn:E; [|constructor]. pose proof E as E0.
    unfold rewrite_find_coordinator in E.
    apply res_bind_ok in E as (hv & Ehv & E). unfold ok_or in Ehv.
    destruct (response_header_version _ v) as [hv'|] eqn:Hhv; [|done]. injection Ehv as ->.
    apply res_bind_ok in E as ([header body] & Eh%map_err_ok & E).
    apply res_bind_ok in E as ([r rest] & Em%map_err_ok & E).
    destruct rest; [|done].
    destruct (rewrite_find_coordinator_spec p v hv header body r Hhv Hl Eh Em) as (out' & u' & E' & Hr).
    rewrite E0 in E'. injection E' as <- <-. by eapply CoordinatorRedirected.
Qed.

End rewriting.

(** ** Links *)

Section links.
Context {R : Runtime} (endpoints : Endpoints).
Hypothesis Hendpoints : endpoints_ok endpoints.

(** The broker has been sent what the client wrote, but for a frame whose
    forwarding failed. *)
Definition requests_kept (client : Stream) (l : Link) : Prop :=
  ∃ lost, bytes client = to_broker l ++ lost ++ bytes (from_client l) ∧
    (lost = [] ∨ ∃ e p, up l = Some (Err e) ∧ len lost ≤ len (framed p)).

(** And the client, for each frame of the broker in order, what answers it, but
    for the one whose forwarding failed. *)
Definition responses_kept (broker : Stream) (l : Link) : Prop :=
  ∃ ps qs lost cut, bytes broker = concat (framed <$> ps) ++ lost ++ bytes (from_broker l) ∧
    to_client l = concat (framed <$> qs) ++ cut ∧ Forall2 (answers endpoints) ps qs ∧
    (lost = [] ∧ cut = [] ∨
     ∃ e p q, down l = Some (Err e) ∧ lost = framed p ∧ answers endpoints p q ∧ cut `prefix_of` framed q).

Definition link_inv (client broker : Stream) (l : Link) : Prop :=
  requests_kept client l ∧ responses_kept broker l.

Lemma requests_step client fails l :
  up l = None → requests_kept client l → requests_kept client (pump_requests fails l).
Proof using Type.
  intros Hup (lost & E & Hlost). destruct Hlost as [->|(e & p & He & _)]; [|congruence].
  cbn [app] in E. unfold pump_requests.
  destruct (read_frame (from_client l)) as [[[payload from]|]|e] eqn:Er;
    [|exists []; split; [done|by left]..].
  apply read_frame_inv in Er as [Ef Hl]. cbv zeta.
  rewrite write_frame_framed by (change DEFAULT_MAX_FRAME with 67108864 in Hl; int_lia).
  destruct fails as [n|]; cbn [write_all].
  - exists (drop n (framed payload)). cbn [end_up to_broker from_client up]. split.
    + rewrite <- app_assoc, (app_assoc (take n _)), take_drop, E, Ef. done.
    + right. exists Io, payload. split; [done|]. rewrite length_drop. lia.
  - exists []. cbn. split; [by rewrite E, Ef, <- app_assoc|by left].
Qed.

Lemma responses_step broker fails l :
  down l = None → responses_kept broker l → responses_kept broker (pump_responses endpoints fails l).
Proof using Hendpoints.
  intros Hdown (ps & qs & lost & cut & E & Et & Hf & Hlost).
  destruct Hlost as [[-> ->]|(e & p & q & He & _)]; [|congruence].
  cbn [app] in E. rewrite app_nil_r in Et. unfold pump_responses.
  destruct (read_frame (from_broker l)) as [[[p from]|]|e] eqn:Er;
    [|exists ps, qs, [], []; rewrite app_nil_r; split; [done|split; [done|split; [done|by left]]]..].
  apply read_frame_inv in Er as [Ef Hl]. cbv zeta.
  assert (len p ≤ i64_max) as Hp by (change DEFAULT_MAX_FRAME with 67108864 in Hl; int_lia).
  assert (∀ q e l', answers endpoints p q → down l' = Some (Err e) →
    bytes (from_broker l') = bytes from → (∃ c, to_client l' = to_client l ++ c ∧ c `prefix_of` framed q) →
    responses_kept broker l') as Hend.
  { intros q e l' Hq Hd Hb (c & Ec & Hc). exists ps, qs, (framed p), c.
    split; [by rewrite E, Ef, Hb|]. split; [by rewrite Ec, Et|]. split; [done|]. right. by exists e, p, q. }
  assert (∀ e l', down l' = Some (Err e) → bytes (from_broker l') = bytes from → to_client l' = to_client l →
    responses_kept broker l') as Hstop.
  { intros e l' Hd Hb Hc. apply (Hend p e l'); [constructor|done|done|]. exists [].
    rewrite app_nil_r. split; [done|apply prefix_nil]. }
  destruct (peek_correlation_id p) as [id|e]; [|by eapply Hstop]. cbn [outstanding].
  pose proof (forwarded_answers endpoints Hendpoints p (outstanding l !! id) Hp) as Hq.
  set (q := forwarded p (outstanding l !! id) endpoints) in *.
  destruct (write_frame q) as [out|e] eqn:Ew; [|by eapply Hstop].
  apply write_frame_inv in Ew as ->. destruct fails as [n|]; cbn [write_all].
  - apply (Hend q Io); [done|done|done|]. exists (take n (framed q)). split; [done|apply prefix_take].
  - exists (ps ++ [p]), (qs ++ [q]), [], []. cbn. rewrite !fmap_app, !concat_app, app_nil_r. cbn.
    rewrite !app_nil_r, <- app_assoc, Et. split; [by rewrite E, Ef|]. split; [done|].
    split; [apply Forall2_app; [done|by constructor]|by left].
Qed.

Lemma link_keeps client broker l :
  rtc (link_step endpoints) (serve client broker) l → link_inv client broker l.
Proof using Hendpoints.
  intros Hr. assert (link_inv client broker (serve client broker)) as H0.
  { split; [exists []; split; [done|by left]|]. exists [], [], [], []. split_and!; auto. }
  revert l Hr. apply (rtc_ind_r (link_inv client broker) (serve client broker)); [done|].
  intros l l' _ Hs [Hup Hdown]. destruct Hs as [l fails Hn|l fails Hn].
  - split; [by apply requests_step|]. destruct Hdown as (ps & qs & lost & cut & E & Et & H).
    exists ps, qs, lost, cut. unfold pump_requests.
    destruct (read_frame _) as [[[p from]|]|e]; [|done..]. cbv zeta.
    destruct (write_frame p); [|done]. by destruct fails.
  - split; [|by apply responses_step]. destruct Hup as (lost & E & H).
    exists lost. unfold pump_responses.
    destruct (read_frame _) as [[[p from]|]|e]; [|done..]. cbv zeta.
    destruct (peek_correlation_id p); [|done]. destruct (write_frame _); [|done]. by destruct fails.
Qed.

End links.

(** ** What is remembered *)

Lemma question_remembered {R : Runtime} hv payload header rest outstanding :
  RequestHeader.decode hv payload = Ok (header, rest) →
  RequestHeader.request_api_key header = MetadataResponse.API_KEY ∨
  RequestHeader.request_api_key header = FindCoordinatorResponse.API_KEY →
  request_header_version (RequestHeader.request_api_key header) (RequestHeader.request_api_version header) = Some hv →
  remember payload outstanding !! RequestHeader.correlation_id header =
    Some (RequestHeader.request_api_key header, RequestHeader.request_api_version header).
Proof.
  intros E Hk Hhv. destruct (request_header_front _ _ _ _ _ E) as (Hl & Ek & Ev).
  unfold remember. destruct (Z.leb_spec 4 (len payload)); [|lia]. cbv zeta.
  rewrite Ek, Ev.
  assert ((RequestHeader.request_api_key header =? MetadataResponse.API_KEY) ||
    (RequestHeader.request_api_key header =? FindCoordinatorResponse.API_KEY) = true) as ->.
  { destruct Hk as [->| ->]; [done|]. by rewrite orb_true_r. }
  rewrite Hhv, E. apply lookup_insert_eq.
Qed.

(** Nothing else is: the table grows by questions that name brokers, and an answer
    takes its own out. *)
Lemma others_forgotten {R : Runtime} payload outstanding :
  sint 16 (be_val (take 2 payload)) ∉ [MetadataResponse.API_KEY; FindCoordinatorResponse.API_KEY] →
  remember payload outstanding = outstanding.
Proof.
  intros Hk. unfold remember. destruct (4 <=? len payload); [|done]. cbv zeta.
  destruct (Z.eqb_spec (sint 16 (be_val (take 2 payload))) MetadataResponse.API_KEY) as [E|_].
  { destruct Hk. rewrite E. by left. }
  destruct (Z.eqb_spec (sint 16 (be_val (take 2 payload))) FindCoordinatorResponse.API_KEY) as [E|_]; [|done].
  destruct Hk. rewrite E. right. by left.
Qed.

(** ** Properties *)

(** C25: Whatever a client and a broker send, however the two directions interleave and
    whichever write fails, a connection through the proxy gives the broker the
    client's bytes as they are and the client, for each frame of the broker in
    order, one frame under the same correlation id: that frame, or the answer of
    a Metadata or FindCoordinator request that the client reads with every
    endpoint redirected and nothing else changed, unknown tagged fields included.
    Only the frame whose write failed can be missing, at the end. *)
Theorem proxy_is_transparent {R : Runtime} (endpoints : Endpoints) (client broker : Stream) (l : Link) :
  endpoints_ok endpoints → rtc (link_step endpoints) (serve client broker) l →
  requests_kept client l ∧ responses_kept endpoints broker l ∧
  (up l = None → bytes client = to_broker l ++ bytes (from_client l)) ∧
  (down l = None → ∃ ps qs, bytes broker = concat (framed <$> ps) ++ bytes (from_broker l) ∧
     to_client l = concat (framed <$> qs) ∧
     Forall2 (λ p q, answers endpoints p q ∧ peek_correlation_id q = peek_correlation_id p) ps qs).
Proof.
  intros He [Hup Hdown]%link_keeps; [|done]. split; [done|]. split; [done|]. split.
  - intros Hn. destruct Hup as (lost & E & [->|(e & p & Hp & _)]); [done|congruence].
  - intros Hn. destruct Hdown as (ps & qs & lost & cut & E & Et & Hf & [[-> ->]|(e & p & q & Hp & _)]);
      [|congruence].
    exists ps, qs. split; [done|]. rewrite app_nil_r in Et. split; [done|].
    eapply Forall2_impl; [exact Hf|]. intros p q Hq. split; [done|]. by eapply answers_peek.
Qed.

(** A client that asks for metadata is sent to the listeners: the request is
    remembered, and whatever other answers came in between, the response under its
    correlation id is read by the client with each broker at the listener that
    fronts it, or where it was if none does. *)
Theorem metadata_names_the_listeners {R : Runtime} (endpoints : Endpoints) (outstanding : Outstanding)
    (ask answer body : list byte) hv (question : RequestHeader.t) rest hv' (header : ResponseHeader.t)
    (response : MetadataResponse.t) :
  endpoints_ok endpoints → len answer ≤ i64_max →
  RequestHeader.request_api_key question = MetadataResponse.API_KEY →
  request_header_version MetadataResponse.API_KEY (RequestHeader.request_api_version question) = Some hv →
  RequestHeader.decode hv ask = Ok (question, rest) →
  response_header_version MetadataResponse.API_KEY (RequestHeader.request_api_version question) = Some hv' →
  ResponseHeader.decode hv' answer = Ok (header, body) →
  ResponseHeader.correlation_id header = RequestHeader.correlation_id question →
  MetadataResponse.decode (RequestHeader.request_api_version question) body = Ok (response, []) →
  client_reads (λ R, ResponseHeader.decode_with_budget hv')
    (λ R, MetadataResponse.decode_with_budget (RequestHeader.request_api_version question))
    (forwarded answer (remember ask outstanding !! ResponseHeader.correlation_id header) endpoints)
    header (redirect_metadata endpoints response) ∧
  (∀ b, b ∈ MetadataResponse.brokers response → MetadataResponseBroker.host b ≠ "" →
     let e := endpoint (MetadataResponseBroker.host b) (MetadataResponseBroker.port b) in
     (MetadataResponseBroker.host (redirect_broker endpoints b), MetadataResponseBroker.port (redirect_broker endpoints b)) =
       default (MetadataResponseBroker.host b, MetadataResponseBroker.port b) (endpoints !! e)).
Proof.
  intros He Hl Hk Hhv Eq Hhv' Eh Hid Em. split.
  - rewrite Hid, (question_remembered hv ask question rest outstanding Eq (or_introl Hk)) by (by rewrite Hk).
    unfold forwarded. rewrite Hk. change (MetadataResponse.API_KEY =? MetadataResponse.API_KEY) with true.
    cbv iota zeta.
    destruct (rewrite_metadata_spec endpoints He answer _ hv' header body response Hhv' Hl Eh Em)
      as (out & u & -> & Hr). exact Hr.
  - intros b _ Hb e. unfold redirect_broker, redirect, map_endpoint.
    destruct (String.eqb_spec (MetadataResponseBroker.host b) "") as [E|_]; [done|].
    destruct (endpoints !! endpoint _ _) as [[h p]|] eqn:E; cbn; unfold e; by rewrite E.
Qed.

(** A frame of fewer than four bytes, which a broker sends where an authentication
    token is empty, is not forwarded and ends the direction with an error. *)
Theorem short_answers_end_the_link {R : Runtime} (endpoints : Endpoints) (l : Link) (payload : list byte) rest :
  bytes (from_broker l) = framed payload ++ rest → len payload < 4 →
  ∀ fails, down (pump_responses endpoints fails l) = Some (Err (FromDecode (Truncated (4 - len payload)))) ∧
    to_client (pump_responses endpoints fails l) = to_client l.
Proof.
  intros E Hl fails. unfold pump_responses.
  assert (read_frame (from_broker l) = Ok (Some (payload, mkStream rest (broken (from_broker l))))) as ->.
  { pose proof (framed_length payload). unfold read_frame. rewrite E, length_app.
    destruct (Z.ltb_spec (Z.of_nat (length (framed payload) + length rest)) 4); [lia|].
    unfold framed. rewrite <- app_assoc, take_app_exact, drop_app_exact by (by rewrite be_bytes_length).
    rewrite check_len_ok by (change DEFAULT_MAX_FRAME with 67108864; int_lia). cbn [map_err res_bind].
    cbv zeta. rewrite length_app.
    destruct (Z.ltb_spec (Z.of_nat (length payload + length rest)) (len payload)); [lia|].
    by rewrite take_app_exact, drop_app_exact by lia. }
  cbv zeta. unfold peek_correlation_id. destruct (Z.ltb_spec (len payload) 4); [|lia]. by split.
Qed.

(** A listener given in brackets, as an IPv6 literal has to be for [split_endpoint]
    to take the brackets off, is looked up under a key no broker's own address
    ever has. *)
Lemma bracketed_upstream_is_not_found :
  (let? routes := routes_of ["--map"; "[::1]:19092=[::1]:9092"] in endpoint_table routes ∅) =
    Ok {["[::1]:9092" := ("::1", 19092)]} ∧
  redirect {["[::1]:9092" := ("::1", 19092)]} "::1" 9092 = ("::1", 9092).
Proof. split; vm_compute; reflexivity. Qed.

(** *** Witnesses *)

Definition sample_endpoints : Endpoints := {["b1:9092" := ("127.0.0.1", 19092)]}.

Lemma sample_endpoints_ok : endpoints_ok sample_endpoints.
Proof.
  intros e h p E. unfold sample_endpoints in E. apply lookup_singleton_Some in E as [<- [= <- <-]].
  split; [reflexivity|].
  split; [vm_compute; discriminate|split; vm_compute; discriminate].
Qed.

Definition sample_question : RequestHeader.t := RequestHeader.mk 3 1 5 (Some "c") [].
Definition sample_ask : list byte := (RequestHeader.encode 1 sample_question []).2 ++ be_bytes 4 (-1).
Definition sample_metadata : MetadataResponse.t :=
  MetadataResponse.mk 0 [MetadataResponseBroker.mk 1 "b1" 9092 None [];
                         MetadataResponseBroker.mk 2 "b2" 9092 None []] None 1 [] (-2147483648) 0 [].
Definition sample_answer : list byte :=
  ((ResponseHeader.encode 0 (ResponseHeader.mk 5 []) ;; MetadataResponse.encode 1 sample_metadata) []).2.

Lemma proxy_is_transparent_witness :
  ∃ l ps qs, rtc (link_step (R := plain_runtime) sample_endpoints)
         (serve (mkStream (framed sample_ask) false) (mkStream (framed sample_answer) false)) l ∧
    to_broker l = framed sample_ask ∧ framed sample_answer = concat (framed <$> ps) ∧
    to_client l = concat (framed <$> qs) ∧ to_client l ≠ framed sample_answer ∧
    Forall2 (λ p q, answers (R := plain_runtime) sample_endpoints p q ∧
      peek_correlation_id q = peek_correlation_id p) ps qs.
Proof.
  set (l0 := serve (mkStream (framed sample_ask) false) (mkStream (framed sample_answer) false)).
  set (l := pump_responses (R := plain_runtime) sample_endpoints None (pump_requests (R := plain_runtime) None l0)).
  assert (rtc (link_step (R := plain_runtime) sample_endpoints) l0 l) as Hr.
  { eapply rtc_l; [apply (LinkUp _ l0 None); reflexivity|].
    eapply rtc_l; [apply (LinkDown _ _ None); vm_compute; reflexivity|]. apply rtc_refl. }
  destruct (proxy_is_transparent (R := plain_runtime) sample_endpoints _ _ _ sample_endpoints_ok Hr)
    as (_ & _ & Hup & Hdown).
  assert (down l = None) as Hd by (vm_compute; reflexivity).
  destruct (Hdown Hd) as (ps & qs & E & Et & Hf).
  exists l, ps, qs. split; [exact Hr|]. split; [vm_compute; reflexivity|].
  split; [|split; [exact Et|split; [|exact Hf]]].
  - assert (bytes (from_broker l) = []) as En by (vm_compute; reflexivity).
    rewrite En, app_nil_r in E. exact E.
  - intros H. apply (f_equal length) in H. vm_compute in H. discriminate.
Defined.

Lemma metadata_names_the_listeners_witness :
  client_reads (λ R, ResponseHeader.decode_with_budget 0) (λ R, MetadataResponse.decode_with_budget 1)
    (forwarded (R := plain_runtime) sample_answer (Some (3, 1)) sample_endpoints) (ResponseHeader.mk 5 [])
    (set_brokers [MetadataResponseBroker.mk 1 "127.0.0.1" 19092 None [];
                  MetadataResponseBroker.mk 2 "b2" 9092 None []] sample_metadata).
Proof.
  destruct (metadata_names_the_listeners (R := plain_runtime) sample_endpoints ∅ sample_ask sample_answer
    (drop 4 sample_answer) 1 sample_question (be_bytes 4 (-1)) 0 (ResponseHeader.mk 5 []) sample_metadata
    sample_endpoints_ok) as [H _].
  - vm_compute. discriminate.
  - reflexivity.
  - reflexivity.
  - vm_compute. reflexivity.
  - reflexivity.
  - vm_compute. reflexivity.
  - reflexivity.
  - vm_compute. reflexivity.
  - exact H.
Defined.

Lemma short_answers_end_the_link_witness :
  down (pump_responses (R := plain_runtime) ∅ None (serve (mkStream [] false) (mkStream (be_bytes 4 0) false))) =
    Some (Err (FromDecode (Truncated 4))).
Proof.
  apply (short_answers_end_the_link (R := plain_runtime) ∅
    (serve (mkStream [] false) (mkStream (be_bytes 4 0) false)) [] []).
  - reflexivity.
  - reflexivity.
Defined.
