(* ===== verification/ConsumerProtocol.v ===== *)
(** * The classic consumer protocol's envelopes
      ([odradek-protocol/src/consumer_protocol.rs])

    The subscription and assignment bytes the members of a classic group
    exchange through a broker that does not read them: a version prefix, then
    the schema body.  [option] is the outcome of a function that panics where
    it says [expect].  The theorems: what a member encodes every member
    decodes; an envelope of any version, newer ones and negative ones
    included, decodes at the version the prefix is clamped to, whatever bytes
    follow its body; and nothing else does but for the empty assignment. *)
From S2P Require Import Prelude Budget Codec Wire Fields KnownTags MsgGroup.

Import consumer_protocol_subscription consumer_protocol_assignment.
Module Subscription := ConsumerProtocolSubscription.
Module Assignment := ConsumerProtocolAssignment.

(** [Result::expect] on an encoding into a fresh buffer. *)
Definition expect_encoded (w : enc) : option (list byte) :=
  match enc_bytes w with
  | Ok bs => Some bs
  | Err _ => None
  end.

Definition encode_subscription (topics : list string) : option (list byte) :=
  let body := Subscription.mk topics (Subscription.user_data Subscription.default)
    (Subscription.owned_partitions Subscription.default)
    (Subscription.generation_id Subscription.default)
    (Subscription.rack_id Subscription.default)
    (Subscription.unknown_tagged_fields Subscription.default) in
  expect_encoded (put_i16 0 ;; Subscription.encode 0 body).

Definition encode_assignment (partitions : list (string * list Z)) : option (list byte) :=
  let body := Assignment.mk
    ((λ '(topic, parts), TopicPartition.mk topic parts
        (TopicPartition.unknown_tagged_fields TopicPartition.default)) <$> partitions)
    (Assignment.user_data Assignment.default)
    (Assignment.unknown_tagged_fields Assignment.default) in
  expect_encoded (put_i16 0 ;; Assignment.encode 0 body).

Section decode.
Context {R : Runtime}.

(** The prefix both decoders read: too short is an error, and a version we do
    not know is read as the nearest one we do. *)
Definition envelope_version (max : Z) (data : list byte) : result DecodeError (Z * buffer) :=
  if len data <? 2 then Err (Truncated (2 - len data))
  else let? (version, buf) := buf_get_int 2 data in
       Ok (Z.max (Z.min version max) 0, buf).

Definition decode_subscription (data : list byte) : result DecodeError (list string) :=
  let? (version, buf) := envelope_version Subscription.MAX_VERSION data in
  let? (sub, _) := Subscription.decode version buf in
  Ok (Subscription.topics sub).

Definition decode_assignment (data : list byte) :
    result DecodeError (list (string * list Z)) :=
  match data with
  | [] => Ok []
  | _ =>
      let? (version, buf) := envelope_version Assignment.MAX_VERSION data in
      let? (assignment, _) := Assignment.decode version buf in
      Ok ((λ tp, (TopicPartition.topic tp, TopicPartition.partitions tp)) <$>
            Assignment.assigned_partitions assignment)
  end.

(** ** Envelopes *)

(** An envelope: its prefix, its body as its sender encodes it at the version
    both ends know, and whatever a newer sender appended. *)
Definition envelope (version : Z) (body future : list byte) : list byte :=
  be_bytes 2 version ++ (body ++ future).

Definition clamped (max version : Z) : Z := Z.max (Z.min version max) 0.

Lemma envelope_version_ok max version rest :
  is_i16 version →
  envelope_version max (be_bytes 2 version ++ rest) = Ok (clamped max version, rest).
Proof.
  intros H. unfold envelope_version.
  assert ((len (be_bytes 2 version ++ rest) <? 2) = false) as ->.
  { apply Z.ltb_ge. rewrite length_app, be_bytes_length. lia. }
  unfold buf_get_int. rewrite take_app_exact, drop_app_exact by (by rewrite be_bytes_length).
  cbn [res_bind]. rewrite be_val_bytes. unfold clamped.
  change (256 ^ Z.of_nat 2) with (2 ^ 16).
  change (8 * Z.of_nat 2) with 16. rewrite sint_wrap by lia.
  by rewrite sint_small by int_lia.
Qed.

(** What a decoder says of an input the sender of [x] could have sent: [x], or
    that the allocation policy refuses it. *)
Definition yields {A} (r : result DecodeError A) (x : A) : Prop :=
  r = Ok x ∨ ∃ e, r = Err e ∧ is_alloc_error e.

Lemma subscription_reads version future s :
  is_i16 version →
  Subscription.valid (clamped Subscription.MAX_VERSION version) s →
  ∃ body, enc_bytes (Subscription.encode (clamped Subscription.MAX_VERSION version) s) = Ok body ∧
    yields (decode_subscription (envelope version body future)) (Subscription.topics s).
Proof.
  intros Hv Hs.
  destruct (pairs_entry _ _ _ (Subscription.consumer_protocol_subscription_ConsumerProtocolSubscription_agrees _ _ Hs)) as (body & He & Hd & _).
  exists body. split; [done|]. unfold decode_subscription, envelope.
  rewrite envelope_version_ok by done. cbn [res_bind].
  destruct (Hd future Limits.default) as [Hok|(e & Herr & Ha)].
  - left. unfold Subscription.decode, with_default_limits. by rewrite Hok.
  - right. exists e. unfold Subscription.decode, with_default_limits. by rewrite Herr.
Qed.

Lemma assignment_reads version future s :
  is_i16 version →
  Assignment.valid (clamped Assignment.MAX_VERSION version) s →
  ∃ body, enc_bytes (Assignment.encode (clamped Assignment.MAX_VERSION version) s) = Ok body ∧
    yields (decode_assignment (envelope version body future))
      ((λ tp, (TopicPartition.topic tp, TopicPartition.partitions tp)) <$>
         Assignment.assigned_partitions s).
Proof.
  intros Hv Hs.
  destruct (pairs_entry _ _ _ (Assignment.consumer_protocol_assignment_ConsumerProtocolAssignment_agrees _ _ Hs)) as (body & He & Hd & _).
  exists body. split; [done|].
  assert (∀ d, d ≠ [] → decode_assignment d =
    let? (version, buf) := envelope_version Assignment.MAX_VERSION d in
    let? (assignment, _) := Assignment.decode version buf in
    Ok ((λ tp, (TopicPartition.topic tp, TopicPartition.partitions tp)) <$>
            Assignment.assigned_partitions assignment)) as -> by (by intros [|? ?]); [|done].
  unfold envelope. rewrite envelope_version_ok by done. cbn [res_bind].
  destruct (Hd future Limits.default) as [Hok|(e & Herr & Ha)].
  - left. unfold Assignment.decode, with_default_limits. by rewrite Hok.
  - right. exists e. unfold Assignment.decode, with_default_limits. by rewrite Herr.
Qed.

Lemma subscription_valid_v0 topics :
  arr_ok false (str_ok false) topics →
  Subscription.valid 0 (Subscription.mk topics None [] (-1) None []).
Proof. intros H. split; [exact H|]. by repeat split. Qed.

Lemma assignment_valid_v0 (parts : list (string * list Z)) :
  arr_ok false (λ p, str_ok false p.1 ∧ arr_ok false is_i32 p.2) parts →
  Assignment.valid 0
    (Assignment.mk ((λ '(topic, ps), TopicPartition.mk topic ps []) <$> parts) None []).
Proof.
  intros [Hl Hp]. split; [|by repeat split]. split; [cbn [Assignment.assigned_partitions]; by rewrite length_fmap|].
  cbn [Assignment.assigned_partitions]. apply Forall_fmap. eapply Forall_impl; [exact Hp|]. intros [t ps] [H1 H2].
  split; [exact H1|]. by split.
Qed.

(** What a member encodes, a member decodes, also with bytes appended. *)
Lemma subscription_round_trip (topics : list string) :
  arr_ok false (str_ok false) topics →
  ∃ bs, encode_subscription topics = Some bs ∧
    ∀ future, yields (decode_subscription (bs ++ future)) topics.
Proof.
  intros Ht. apply subscription_valid_v0 in Ht.
  destruct (Subscription.consumer_protocol_subscription_ConsumerProtocolSubscription_agrees _ _ Ht) as (body & He & _). exists (be_bytes 2 0 ++ body). split.
  + unfold encode_subscription, expect_encoded.
    by erewrite encodes_bytes by (by apply encodes_seq).
  + intros future. rewrite <- app_assoc.
    destruct (subscription_reads 0 future _ ltac:(int_lia) Ht) as (body' & He' & Hy).
    change (clamped _ 0) with 0 in He'. rewrite (encodes_bytes _ _ He) in He'. by injection He' as <-.
Qed.

Lemma assignment_round_trip (parts : list (string * list Z)) :
  arr_ok false (λ p, str_ok false p.1 ∧ arr_ok false is_i32 p.2) parts →
  ∃ bs, encode_assignment parts = Some bs ∧
    ∀ future, yields (decode_assignment (bs ++ future)) parts.
Proof.
  intros Hp. apply assignment_valid_v0 in Hp.
  destruct (Assignment.consumer_protocol_assignment_ConsumerProtocolAssignment_agrees _ _ Hp) as (body & He & _). exists (be_bytes 2 0 ++ body). split.
  + unfold encode_assignment, expect_encoded.
    by erewrite encodes_bytes by (by apply encodes_seq).
  + intros future. rewrite <- app_assoc.
    destruct (assignment_reads 0 future _ ltac:(int_lia) Hp) as (body' & He' & Hy).
    change (clamped _ 0) with 0 in He'. rewrite (encodes_bytes _ _ He) in He'.
    injection He' as <-. revert Hy. cbn [Assignment.assigned_partitions].
    rewrite <- list_fmap_compose. erewrite list_fmap_ext, list_fmap_id; [done|].
    by intros _ [? ?] _.
Qed.

(** ** Properties *)

(** Members understand each other.  A subscription whose topic names fit the
    wire encodes without a panic and decodes to the same topics, and so does an
    assignment to the same topics and partitions, also with bytes appended. *)
Theorem members_understand_each_other (topics : list string)
    (parts : list (string * list Z)) :
  arr_ok false (str_ok false) topics →
  arr_ok false (λ p, str_ok false p.1 ∧ arr_ok false is_i32 p.2) parts →
  (∃ bs, encode_subscription topics = Some bs ∧
     ∀ future, yields (decode_subscription (bs ++ future)) topics) ∧
  (∃ bs, encode_assignment parts = Some bs ∧
     ∀ future, yields (decode_assignment (bs ++ future)) parts).
Proof.
  intros Ht Hp. split; [by apply subscription_round_trip|by apply assignment_round_trip].
Qed.

(** Forward compatibility.  A subscription or an assignment whose sender
    encoded its body at the version nearest to its prefix that we know --
    newer versions are supersets -- decodes to what it carries, whatever fields
    the sender appended; an input too short for a prefix is an error, except
    that no bytes at all are the empty assignment. *)
Theorem envelopes_of_any_version_decode (version : Z) (future : list byte) s a :
  is_i16 version →
  Subscription.valid (clamped Subscription.MAX_VERSION version) s →
  Assignment.valid (clamped Assignment.MAX_VERSION version) a →
  (∃ body, enc_bytes (Subscription.encode (clamped Subscription.MAX_VERSION version) s) = Ok body ∧
     yields (decode_subscription (envelope version body future)) (Subscription.topics s)) ∧
  (∃ body, enc_bytes (Assignment.encode (clamped Assignment.MAX_VERSION version) a) = Ok body ∧
     yields (decode_assignment (envelope version body future))
       ((λ tp, (TopicPartition.topic tp, TopicPartition.partitions tp)) <$>
          Assignment.assigned_partitions a)) ∧
  decode_assignment [] = Ok [] ∧ decode_subscription [] = Err (Truncated 2) ∧
  ∀ b, decode_assignment [b] = Err (Truncated 1) ∧ decode_subscription [b] = Err (Truncated 1).
Proof.
  intros Hv Hs Ha. split_and!; [by apply subscription_reads|by apply assignment_reads|done..].
Qed.

End decode.

(** *** Witnesses *)

Lemma members_understand_each_other_witness :
  ∃ bs, encode_assignment [("alpha", [0; 2])] = Some bs ∧
    yields (decode_assignment (R := plain_runtime) bs) [("alpha", [0; 2])].
Proof.
  destruct (members_understand_each_other (R := plain_runtime) ["alpha"; "beta"] [("alpha", [0; 2])])
    as [_ (bs & He & Hd)].
  - valid_sample.
  - valid_sample.
  - exists bs. split; [exact He|]. rewrite <- (app_nil_r bs). apply Hd.
Defined.

(** The newer member of the crate's own test: a prefix past our snapshot. *)
Lemma envelopes_of_any_version_decode_witness :
  ∃ body, yields
    (decode_subscription (R := plain_runtime) (envelope 12 body (str_bytes "future-fields"))) ["t"].
Proof.
  destruct (envelopes_of_any_version_decode (R := plain_runtime) 12 (str_bytes "future-fields")
    (Subscription.mk ["t"] None [] (-1) None []) Assignment.default) as [(body & _ & H) _].
  - vm_compute. split; discriminate.
  - valid_sample.
  - valid_sample.
  - exists body. exact H.
Defined.
