(* ===== verification/ClientError.v ===== *)
(** * Client errors and retrying ([odradek-client/src/error.rs], [retry.rs])

    The error type of the client, its session-level category and whether a
    retry could clear it; payloads that only reach a message are strings.  Then
    the retry loop, the jittered backoff it sleeps by and the generator the
    jitter draws from.  Time is counted in nanoseconds; what the loop sleeps is
    an output of the model, and what the operating system gives as a seed is
    its input.  The theorems: the loop's verdict is that of its last attempt,
    it never exceeds its attempts, every pause is within the jitter's bounds,
    and the generator never returns to its unseeded state. *)
From Stdlib Require Import ZArith.Zdivisibility.
From S2P Require Import Prelude Budget Registry.

Import error_code.

Inductive ClientError : Type :=
| Io (e : string)
| Encode (e : EncodeError)
| Decode (e : DecodeError)
| UnsupportedApi (api_key : Z)
| NoCommonVersion (api_key : Z)
| ConnectionClosed
| Timeout (what : string)
| ProtocolViolation (what : string)
| Broker (code : Z)
| Bootstrap (what : string)
| UnknownLeader (topic : string) (partition : Z)
| UnsupportedCompression (codec : string)
| TlsError (what : string)
| Sasl (what : string)
| InsecureCredentials (mechanism : string)
| Config (what : string)
| Transaction (what : string).

Inductive ErrorCategory : Type := NotFound | Auth | Unavailable | Other.

#[export] Instance ErrorCategory_eq_dec : EqDecision ErrorCategory.
Proof. solve_decision. Defined.

(** [matches!] of an error code against a list of constants. *)
Definition one_of (code : Z) (codes : list Z) : bool := existsb (Z.eqb code) codes.

Definition category (e : ClientError) : ErrorCategory :=
  match e with
  | Broker code =>
      if one_of code [UNKNOWN_TOPIC_OR_PARTITION; UNKNOWN_TOPIC_ID] then NotFound
      else if one_of code [TOPIC_AUTHORIZATION_FAILED; GROUP_AUTHORIZATION_FAILED;
                           SASL_AUTHENTICATION_FAILED; TRANSACTIONAL_ID_AUTHORIZATION_FAILED;
                           UNSUPPORTED_SASL_MECHANISM] then Auth
      else Other
  | Sasl _ | InsecureCredentials _ => Auth
  | ConnectionClosed | Io _ | Timeout _ | Bootstrap _ | TlsError _ | UnknownLeader _ _ =>
      Unavailable
  | _ => Other
  end.

Definition is_retriable (e : ClientError) : bool :=
  match e with
  | ConnectionClosed | Io _ | Timeout _ => true
  | Broker code =>
      one_of code [NOT_LEADER_OR_FOLLOWER; LEADER_NOT_AVAILABLE; UNKNOWN_TOPIC_OR_PARTITION;
                   UNKNOWN_TOPIC_ID; COORDINATOR_LOAD_IN_PROGRESS; COORDINATOR_NOT_AVAILABLE;
                   NOT_COORDINATOR; NOT_CONTROLLER; REQUEST_TIMED_OUT; KAFKA_STORAGE_ERROR;
                   CONCURRENT_TRANSACTIONS]
  | _ => false
  end.

Lemma one_of_spec code codes : one_of code codes = true ↔ code ∈ codes.
Proof.
  unfold one_of. rewrite existsb_exists, list_elem_of_In. split.
  - intros (x & Hx & ->%Z.eqb_eq). done.
  - intros H. exists code. by rewrite Z.eqb_refl.
Qed.

(** Retrying with the same credentials cannot succeed, and is never tried. *)
Lemma auth_not_retriable e : category e = Auth → is_retriable e = false.
Proof.
  destruct e as [| | | | | | | |code| | | | | | | |]; try done. cbn [category is_retriable].
  case_match; [done|]. case_match; [|done]. intros _.
  apply not_true_iff_false. rewrite one_of_spec. intros Hc.
  match goal with H : one_of _ _ = true |- _ => apply one_of_spec in H; rename H into Ha end.
  revert Ha. rewrite !elem_of_cons in Hc.
  repeat (destruct Hc as [->|Hc]; [by (rewrite <- one_of_spec; vm_compute)|]).
  by apply not_elem_of_nil in Hc.
Qed.

(** ** Retrying *)

Definition sat64_mul (a b : Z) : Z := Z.min (a * b) u64_max.

Module Backoff.

Record t : Type := mk {
  base : Z;
  previous : Z;
}.

Definition GROWTH : Z := 3.
Definition CEILING : Z := 2.

Definition new (base : Z) : t := mk base base.

(** [u64::try_from(d.as_nanos()).unwrap_or(u64::MAX)]. *)
Definition as_nanos (d : Z) : Z := Z.min d u64_max.

(** The additions are [u64]'s, which the bounds below show never overflow. *)
Definition next_delay_from (b : t) (entropy : Z) : Z * t :=
  let base_ns := as_nanos (base b) in
  let low := base_ns / 2 in
  let high := Z.min (sat64_mul (as_nanos (previous b)) GROWTH) (sat64_mul base_ns CEILING) in
  let delay := low + entropy mod (Z.max (high - low) 0 + 1) in
  (delay, mk (base b) delay).

End Backoff.

(** [random_u64]: the state of the calling thread's stream and the seed the
    operating system (or the clock) would give; zero is "not seeded". *)
Definition shl64 (x k : Z) : Z := wrap 64 (Z.shiftl x k).

Definition xorshift (x : Z) : Z :=
  let x := Z.lxor x (shl64 x 13) in
  let x := Z.lxor x (Z.shiftr x 7) in
  Z.lxor x (shl64 x 17).

Definition random_u64 (seed state : Z) : Z * Z :=
  let x := if state =? 0 then Z.lor seed 1 else state in
  let x := xorshift x in
  (wrap 64 (x * 0x2545f4914f6cdd1d), x).

Definition next_delay (seed : Z) (b : Backoff.t) (rng : Z) : Z * Backoff.t * Z :=
  let '(entropy, rng) := random_u64 seed rng in
  let '(delay, b) := Backoff.next_delay_from b entropy in
  (delay, b, rng).

Inductive Attempt (T : Type) : Type :=
| Done (v : T)
| Retry (e : ClientError)
| Fatal (e : ClientError).
Arguments Done {T} v.
Arguments Retry {T} e.
Arguments Fatal {T} e.

Section loop.
Context {C T : Type} (attempt : C → Attempt T * C) (seed : Z).

(** The rounds left, the pauses slept so far. *)
Fixpoint retry_rounds (n : nat) (first : bool) (last : option ClientError) (b : Backoff.t)
    (rng : Z) (slept : list Z) (ctx : C) : result ClientError T * C * list Z :=
  match n with
  | O => (match last with Some e => Err e | None => Err ConnectionClosed end, ctx, slept)
  | S n =>
      let '(b, rng, slept) :=
        if first then (b, rng, slept)
        else let '(d, b, rng) := next_delay seed b rng in (b, rng, slept ++ [d]) in
      match attempt ctx with
      | (Done v, ctx) => (Ok v, ctx, slept)
      | (Retry e, ctx) => retry_rounds n false (Some e) b rng slept ctx
      | (Fatal e, ctx) => (Err e, ctx, slept)
      end
  end.

Definition retry_loop (ctx : C) (max_attempts : nat) (backoff rng : Z) :
    result ClientError T * C * list Z :=
  retry_rounds max_attempts true None (Backoff.new backoff) rng [] ctx.

End loop.

(** The classifications of the call sites: what a retriable error makes them
    forget, in a context they share with the attempts. *)
Definition classify {C T} (forget : C → C) (r : result ClientError T) (ctx : C) : Attempt T * C :=
  match r with
  | Ok v => (Done v, ctx)
  | Err e => if is_retriable e then (Retry e, forget ctx) else (Fatal e, ctx)
  end.

(** ** The jitter *)

Definition spread (base d : Z) : Prop :=
  Backoff.as_nanos base / 2 ≤ d ≤ sat64_mul (Backoff.as_nanos base) 2.

Lemma next_delay_from_spread b entropy :
  0 ≤ Backoff.base b → 0 ≤ entropy →
  (Backoff.previous b = Backoff.base b ∨ spread (Backoff.base b) (Backoff.previous b)) →
  let '(d, b') := Backoff.next_delay_from b entropy in
  spread (Backoff.base b) d ∧ d ≤ u64_max ∧
  Backoff.base b' = Backoff.base b ∧ Backoff.previous b' = d.
Proof.
  intros Hb He Hp. unfold Backoff.next_delay_from. cbv zeta. cbn [Backoff.base Backoff.previous].
  unfold spread in *. set (base := Backoff.base b) in *. set (prev := Backoff.previous b) in *.
  assert (0 ≤ Backoff.as_nanos base ≤ u64_max) as Ha by (unfold Backoff.as_nanos; int_lia).
  set (n := Backoff.as_nanos base) in *.
  set (high := Z.min _ _).
  assert (n / 2 ≤ high ≤ sat64_mul n 2) as Hh.
  { unfold high, sat64_mul, Backoff.GROWTH, Backoff.CEILING.
    assert (n / 2 ≤ n) by (apply Z.div_le_upper_bound; lia).
    assert (n / 2 ≤ Backoff.as_nanos prev) as Hprev.
    { destruct Hp as [->|Hp]; [by unfold n in *|]. unfold Backoff.as_nanos.
      apply Z.min_glb; [lia|]. lia. }
    assert (0 ≤ n / 2) by (apply Z.div_pos; lia). lia. }
  assert (0 ≤ entropy mod (Z.max (high - n / 2) 0 + 1) < Z.max (high - n / 2) 0 + 1)
    by (apply Z.mod_pos_bound; lia).
  unfold sat64_mul in *. split_and!; try done; lia.
Qed.

(** ** The generator *)

Lemma shl64_range x k : 0 ≤ shl64 x k < 2 ^ 64.
Proof. apply Z.mod_pos_bound. lia. Qed.

(** [x ^ (x << k)] is zero only at zero: [x] would be a multiple of the word
    size, since [2 ^ k - 1] is odd. *)
Lemma xor_shl_nonzero x k :
  0 < k → 0 < x < 2 ^ 64 → Z.lxor x (shl64 x k) ≠ 0.
Proof.
  intros Hk Hx H%Z.lxor_eq. unfold shl64, wrap in H. rewrite Z.shiftl_mul_pow2 in H by lia.
  assert ((2 ^ 64 | (2 ^ k - 1) * x)) as Hd.
  { exists (x * 2 ^ k / 2 ^ 64). pose proof (Z.div_mod (x * 2 ^ k) (2 ^ 64)). lia. }
  apply Z.gauss in Hd; [apply Z.divide_pos_le in Hd; lia|].
  apply Z.coprime_pow_l; [lia|]. unfold Z.coprime.
  replace (2 ^ k - 1) with (-1 + 2 ^ (k - 1) * 2); [by rewrite Z.gcd_add_mult_diag_r|].
  replace k with (1 + (k - 1)) at 2 by lia. rewrite Z.pow_add_r by lia. lia.
Qed.

Lemma xor_shr_nonzero x k : 0 < k → 0 < x → Z.lxor x (Z.shiftr x k) ≠ 0.
Proof.
  intros Hk Hx H%Z.lxor_eq. rewrite Z.shiftr_div_pow2 in H by lia.
  assert (x / 2 ^ k < x); [|lia]. apply Z.div_lt; [lia|]. by apply Z.pow_gt_1.
Qed.

Lemma shr_range x k : 0 ≤ k → 0 ≤ x < 2 ^ 64 → 0 ≤ Z.shiftr x k < 2 ^ 64.
Proof.
  intros Hk Hx. rewrite Z.shiftr_div_pow2 by lia. split; [apply Z.div_pos; lia|].
  apply Z.div_lt_upper_bound; nia.
Qed.

Lemma xorshift_nonzero x : 0 < x < 2 ^ 64 → 0 < xorshift x < 2 ^ 64.
Proof.
  intros Hx. unfold xorshift. cbv zeta.
  assert (0 < Z.lxor x (shl64 x 13) < 2 ^ 64) as H1.
  { pose proof (xor_shl_nonzero x 13 ltac:(lia) Hx).
    pose proof (lxor_lt x (shl64 x 13) 64 ltac:(lia) ltac:(lia) (shl64_range _ _)). lia. }
  set (y := Z.lxor x _) in *.
  assert (0 < Z.lxor y (Z.shiftr y 7) < 2 ^ 64) as H2.
  { pose proof (xor_shr_nonzero y 7 ltac:(lia) ltac:(lia)).
    pose proof (lxor_lt y (Z.shiftr y 7) 64 ltac:(lia) ltac:(lia)
      (shr_range y 7 ltac:(lia) ltac:(lia))). lia. }
  set (z := Z.lxor y _) in *.
  pose proof (xor_shl_nonzero z 17 ltac:(lia) H2).
  pose proof (lxor_lt z (shl64 z 17) 64 ltac:(lia) ltac:(lia) (shl64_range _ _)). lia.
Qed.

(** ** The loop *)

Section loop_facts.
Context {C T : Type} (attempt : C → Attempt T * C) (seed : Z).

(** An attempt that also writes its outcome down. *)
Definition logged (c : C * list (Attempt T)) : Attempt T * (C * list (Attempt T)) :=
  let '(o, ctx) := attempt c.1 in (o, (ctx, c.2 ++ [o])).

(** The verdict of a run of at most [n] rounds with outcomes [tr]: every
    outcome but the last is a retry; the last one decides, and if the rounds
    ran out it is the error it asked to retry. *)
Definition verdict (n : nat) (before : option ClientError) (tr : list (Attempt T))
    (r : result ClientError T) : Prop :=
  (∃ rs, tr = Retry <$> rs ∧ length rs = n ∧
     r = Err (default (default ConnectionClosed before) (last rs))) ∨
  (∃ rs o, tr = (Retry <$> rs) ++ [o] ∧ (length rs < n)%nat ∧
     ((∃ v, o = Done v ∧ r = Ok v) ∨ (∃ e, o = Fatal e ∧ r = Err e))).

Lemma verdict_cons n before e tr r :
  verdict n (Some e) tr r → verdict (S n) before (Retry e :: tr) r.
Proof.
  intros [(rs & -> & Hl & Hr)|(rs & o & -> & Hl & Ho)].
  - left. exists (e :: rs). split; [done|]. split; [cbn; lia|]. rewrite Hr.
    rewrite last_cons. by destruct (last rs).
  - right. exists (e :: rs), o. split; [done|]. split; [cbn; lia|done].
Qed.

Lemma retry_rounds_spec n : ∀ first before b rng slept c log r c' log' slept',
  0 ≤ Backoff.base b →
  (Backoff.previous b = Backoff.base b ∨ spread (Backoff.base b) (Backoff.previous b)) →
  retry_rounds logged seed n first before b rng slept (c, log) = (r, (c', log'), slept') →
  ∃ tr ds, log' = log ++ tr ∧ slept' = slept ++ ds ∧
    length ds = (length tr - if first then 1 else 0)%nat ∧
    Forall (spread (Backoff.base b)) ds ∧ verdict n before tr r.
Proof.
  induction n as [|n IH]; intros first before b rng slept c log r c' log' slept' Hb Hp H;
    cbn [retry_rounds] in H.
  { injection H as <- <- <- <-. exists [], []. rewrite !app_nil_r. split_and!; try done.
    left. exists []. by destruct before. }
  set (pause := if first then (b, rng, slept) else _) in H.
  assert (∃ b' rng' ds, pause = (b', rng', slept ++ ds) ∧
    length ds = (if first then 0 else 1)%nat ∧ Forall (spread (Backoff.base b)) ds ∧
    Backoff.base b' = Backoff.base b ∧
    (Backoff.previous b' = Backoff.base b' ∨ spread (Backoff.base b') (Backoff.previous b')))
    as (b' & rng' & ds & Epause & Hlen & Hds & Hb' & Hp').
  { unfold pause. destruct first.
    - exists b, rng, []. split_and!; [by rewrite app_nil_r|done|by constructor|done|done].
    - unfold next_delay. destruct (random_u64 seed rng) as [entropy rng'] eqn:E.
      assert (0 ≤ entropy).
      { unfold random_u64 in E. injection E as <- _. apply Z.mod_pos_bound. lia. }
      pose proof (next_delay_from_spread b entropy Hb ltac:(done) Hp) as Hd.
      destruct (Backoff.next_delay_from b entropy) as [d b'].
      destruct Hd as (Hd & _ & Hbase & Hprev). exists b', rng', [d].
      split_and!; [done|done|by apply Forall_singleton|done|]. right. by rewrite Hbase, Hprev. }
  rewrite Epause in H. clear pause Epause. unfold logged at 1 in H. cbn [fst snd] in H.
  destruct (attempt c) as [o ctx]. destruct o as [v|e|e].
  - injection H as <- <- <- <-. exists [Done v], ds. split_and!; try done.
    + by destruct first.
    + right. exists [], (Done v). split_and!; [done|cbn; lia|]. left. by exists v.
  - eapply IH in H as (tr & ds' & -> & -> & Hl & Hs & Hv); [|by rewrite Hb'|done].
    exists (Retry e :: tr), (ds ++ ds'). rewrite <- !app_assoc. split_and!; try done.
    + rewrite length_app, Hlen, Hl. cbn. destruct first; lia.
    + apply Forall_app. split; [done|]. by rewrite <- Hb'.
    + by apply verdict_cons.
  - injection H as <- <- <- <-. exists [Fatal e], ds. split_and!; try done.
    + by destruct first.
    + right. exists [], (Fatal e). split_and!; [done|cbn; lia|]. right. by exists e.
Qed.

(** ** Properties *)

(** The retry loop.  It runs its attempt at most [max_attempts] times and
    stops at the first that is not a retry; its result is that attempt's value
    or fatal error, or the last retried error when the rounds run out, or
    "connection closed" when there were none.  It pauses exactly between
    attempts, each time for at least half the configured backoff and at most
    twice it. *)
Theorem retry_loop_verdict (ctx : C) (max_attempts : nat) (backoff rng : Z) :
  0 ≤ backoff →
  let '(r, (_, outcomes), slept) := retry_loop logged seed (ctx, []) max_attempts backoff rng in
  verdict max_attempts None outcomes r ∧ (length outcomes ≤ max_attempts)%nat ∧
  length slept = (length outcomes - 1)%nat ∧ Forall (spread backoff) slept.
Proof.
  intros Hb. unfold retry_loop.
  destruct (retry_rounds _ _ _ _ _ _ _ _ _) as [[r [c log]] slept] eqn:E.
  eapply retry_rounds_spec in E as (tr & ds & -> & -> & Hl & Hs & Hv); [|done|by left].
  cbn [app]. split_and!; try done.
  destruct Hv as [(rs & -> & Hn & _)|(rs & o & -> & Hn & _)];
    rewrite ?length_app, length_fmap; cbn; lia.
Qed.

End loop_facts.

(** Once a thread's stream is seeded it stays seeded: from any state and
    any seed the next state is a nonzero word, so the operating system is asked
    at most once per thread. *)
Theorem random_stays_seeded (seed state : Z) :
  0 ≤ seed < 2 ^ 64 → 0 ≤ state < 2 ^ 64 →
  let '(draw, state') := random_u64 seed state in
  0 < state' < 2 ^ 64 ∧ 0 ≤ draw < 2 ^ 64 ∧
  ∀ seed', random_u64 seed' state' = random_u64 seed state'.
Proof.
  intros Hs Hx. unfold random_u64.
  assert (0 < xorshift (if state =? 0 then Z.lor seed 1 else state) < 2 ^ 64) as Hn.
  { apply xorshift_nonzero. destruct (Z.eqb_spec state 0); [|lia].
    pose proof (lor_lt seed 1 64 ltac:(lia) ltac:(lia) ltac:(lia)).
    assert (Z.lor seed 1 ≠ 0) by (rewrite Z.lor_eq_0_iff; lia).
    assert (0 ≤ Z.lor seed 1) by (apply Z.lor_nonneg; lia). lia. }
  split; [done|]. split; [apply Z.mod_pos_bound; lia|]. intros seed'.
  by destruct (Z.eqb_spec (xorshift (if state =? 0 then Z.lor seed 1 else state)) 0); [lia|].
Qed.

(** *** Witnesses *)

(** A broker that answers the third time. *)
Definition third_time (n : nat) : Attempt nat * nat :=
  if (n <? 2)%nat then (Retry (Broker 6), S n) else (Done n, n).

Lemma retry_loop_verdict_witness :
  (let '(r, (_, outcomes), slept) := retry_loop (logged third_time) 42 (0%nat, []) 5 100 0 in
   verdict (T := nat) 5 None outcomes r ∧ (length outcomes ≤ 5)%nat ∧
   length slept = (length outcomes - 1)%nat ∧ Forall (spread 100) slept) ∧
  (retry_loop (logged third_time) 42 (0%nat, []) 5 100 0).1.1 = Ok 2%nat.
Proof. split; [exact (retry_loop_verdict third_time 42 0%nat 5 100 0 ltac:(lia))|reflexivity]. Defined.

Lemma random_stays_seeded_witness : 0 < (random_u64 7 0).2 < 2 ^ 64.
Proof. exact (proj1 (random_stays_seeded 7 0 ltac:(lia) ltac:(lia))). Defined.
