(* ===== verification/Negotiate.v ===== *)
(** * Version negotiation ([odradek-client/src/negotiate.rs])

    The ranges a broker advertises, the version picked from them, and the
    exchange that learns them.  The connection is an argument: [request] sends
    a body at a version of an api and returns the response body, threading a
    world.  The theorems: [pick] is the newest common version and fails only
    when there is none; against a broker that serves any range meeting ours,
    and refuses what is above it the way the protocol says, negotiation
    returns the ranges that broker advertises. *)
From S2P Require Import Prelude Budget Codec Wire Fields KnownTags MessageTrait MsgConnection Registry ClientError.
Import api_versions_request api_versions_response.

Definition ApiVersionRanges : Type := gmap Z (Z * Z).

(** [collect] into a [HashMap]: a later entry of a key replaces an earlier. *)
Definition from_response (resp : ApiVersionsResponse.t) : ApiVersionRanges :=
  fold_left (λ m v, <[ApiVersion.api_key v := (ApiVersion.min_version v, ApiVersion.max_version v)]> m)
    (ApiVersionsResponse.api_keys resp) ∅.

Definition range (ranges : ApiVersionRanges) (api_key : Z) : option (Z * Z) := ranges !! api_key.

Definition pick (ranges : ApiVersionRanges) (api_key : Z) (ours : Z * Z) : result ClientError Z :=
  let? (their_min, their_max) := ok_or (NoCommonVersion api_key) (range ranges api_key) in
  let version := Z.min ours.2 their_max in
  if version >=? Z.max ours.1 their_min then Ok version else Err (NoCommonVersion api_key).

Section negotiate.
Context {R : Runtime} {W : Type}.
(** [Connection::request], and the version the crate is built as. *)
Context (request : W → Z → Z → list byte → result ClientError (list byte) * W).
Context (pkg_version : string).

Definition api_versions_at (req : ApiVersionsRequest.t) (version : Z) (w : W) :
    result ClientError ApiVersionsResponse.t * W :=
  match enc_bytes (ApiVersionsRequest.encode version req) with
  | Err e => (Err (Encode e), w)
  | Ok body =>
      let '(r, w) := request w ApiVersionsRequest.API_KEY version body in
      match r with
      | Err e => (Err e, w)
      | Ok full =>
          (match ApiVersionsResponse.decode version full with
           | Ok (resp, []) => Ok resp
           | _ =>
               match ApiVersionsResponse.decode 0 full with
               | Ok (resp, _) => Ok resp
               | Err e => Err (Decode e)
               end
           end, w)
      end
  end.

Definition negotiate_request : ApiVersionsRequest.t :=
  ApiVersionsRequest.mk "odradek" pkg_version
    (ApiVersionsRequest.unknown_tagged_fields ApiVersionsRequest.default).

Definition negotiate (w : W) : result ClientError ApiVersionRanges * W :=
  let '(r, w) := api_versions_at negotiate_request ApiVersionsRequest.MAX_VERSION w in
  match r with
  | Err e => (Err e, w)
  | Ok resp =>
      let code := ApiVersionsResponse.error_code resp in
      if error_code.is_ok code then (Ok (from_response resp), w)
      else if negb (code =? error_code.UNSUPPORTED_VERSION) then (Err (Broker code), w)
      else
        match pick (from_response resp) ApiVersionsRequest.API_KEY
                (ApiVersionsRequest.MIN_VERSION, ApiVersionsRequest.MAX_VERSION) with
        | Err e => (Err e, w)
        | Ok version =>
            let '(r, w) := api_versions_at negotiate_request version w in
            match r with
            | Err e => (Err e, w)
            | Ok resp =>
                let code := ApiVersionsResponse.error_code resp in
                if negb (error_code.is_ok code) then (Err (Broker code), w)
                else (Ok (from_response resp), w)
            end
        end
  end.

(** ** The fallback *)

(** The leading bytes of a version-0 body: its array length is four bytes. *)
Lemma version0_body resp bs :
  ApiVersionsResponse.valid 0 resp → enc_bytes (ApiVersionsResponse.encode 0 resp) = Ok bs →
  ∃ rest, bs = be_bytes 2 (ApiVersionsResponse.error_code resp) ++
    be_bytes 4 (len (ApiVersionsResponse.api_keys resp)) ++ rest.
Proof.
  intros (Hc & [Hn Hl] & _) He.
  destruct (pairs_each_structs "ApiVersion" (ApiVersion.encode 0)
    (ApiVersion.decode_with_budget 0) (ApiVersionsResponse.api_keys resp)) as (items & Hi & _).
  { intros v Hv. apply ApiVersion.api_versions_response_ApiVersion_agrees. by apply (proj1 (Forall_forall _ _) Hl). }
  assert (encodes (ApiVersionsResponse.encode 0 resp)
    (be_bytes 2 (ApiVersionsResponse.error_code resp) ++
     (be_bytes 4 (len (ApiVersionsResponse.api_keys resp)) ++ items) ++ [] ++ [] ++ [])) as Hb.
  { apply encodes_seq; [apply encodes_put_int|].
    apply encodes_seq; [apply encodes_seq; [|exact Hi]|].
    - apply encodes_array_len. split; [lia|exact Hn].
    - repeat apply encodes_seq; apply encodes_ret. }
  rewrite (encodes_bytes _ _ Hb) in He. injection He as <-.
  exists items. by rewrite ?app_nil_r, ?app_assoc.
Qed.

(** A version-0 body is never a flexible one: the high byte of its array
    length reads as a null compact array. *)
Lemma version0_body_is_not_flexible resp bs version :
  3 ≤ version → ApiVersionsResponse.valid 0 resp →
  enc_bytes (ApiVersionsResponse.encode 0 resp) = Ok bs →
  len (ApiVersionsResponse.api_keys resp) < 2 ^ 24 →
  ApiVersionsResponse.decode version bs = Err (InvalidLength (-1)).
Proof.
  intros Hv Hval He Hn. destruct (version0_body _ _ Hval He) as [rest ->].
  set (n := len _) in *. assert (be_bytes 4 n = Byte.x00 :: be_bytes 3 n) as ->.
  { cbn [be_bytes]. f_equal. rewrite Z.div_small by (unfold n; lia). reflexivity. }
  unfold ApiVersionsResponse.decode, with_default_limits, with_limits,
    ApiVersionsResponse.decode_with_budget.
  assert (is_flexible version = true) as -> by (unfold is_flexible; lia).
  unfold bdec_bind at 1, lift at 1. destruct Hval as (Hc & _).
  by rewrite (gets_i16 _ Hc).
Qed.

(** ** What a broker answers

    A broker that serves [lo..hi] of the version exchange answers a version in
    its range with [served], encoded at that version, and any other with
    [refusal], encoded at version 0. *)
Definition answers (lo hi : Z) (served refusal : ApiVersionsResponse.t)
    (w : W) (k version : Z) (body : list byte) : result ClientError (list byte) * W :=
  let r := if (lo <=? version) && (version <=? hi)
           then enc_bytes (ApiVersionsResponse.encode version served)
           else enc_bytes (ApiVersionsResponse.encode 0 refusal) in
  (map_err Encode r, w).

(** The allocation policy does not refuse a response at a version. *)
Definition not_refused (version : Z) (resp : ApiVersionsResponse.t) : Prop :=
  ∀ bs e, enc_bytes (ApiVersionsResponse.encode version resp) = Ok bs →
    ApiVersionsResponse.decode version bs = Err e → ¬ is_alloc_error e.

Lemma decode_served version resp :
  ApiVersionsResponse.valid version resp → not_refused version resp →
  ∃ bs, enc_bytes (ApiVersionsResponse.encode version resp) = Ok bs ∧
    ApiVersionsResponse.decode version bs = Ok (resp, []).
Proof.
  intros Hv Hr.
  destruct (pairs_entry _ _ _ (ApiVersionsResponse.api_versions_response_ApiVersionsResponse_agrees _ _ Hv)) as (bs & He & Hd & _).
  exists bs. split; [done|]. specialize (Hr bs). specialize (Hd [] Limits.default).
  rewrite app_nil_r in Hd. destruct Hd as [Hd|(e & Hd & Ha)]; [exact Hd|].
  by destruct (Hr e He Hd).
Qed.

Lemma request_encodes version :
  str_ok false pkg_version →
  ∃ bs, enc_bytes (ApiVersionsRequest.encode version negotiate_request) = Ok bs.
Proof.
  intros Hs. destruct (decide (3 ≤ version)) as [Hv|Hv].
  - assert (ApiVersionsRequest.valid version negotiate_request) as H.
    { unfold ApiVersionsRequest.valid, api_versions_request.is_flexible.
      assert ((version >=? 3) = true) as -> by lia. cbn [in_version].
      destruct Hs as [H1 H2]. split_and!; try (split; [|cbn]; (done || int_lia)).
      by repeat constructor. }
    destruct (ApiVersionsRequest.api_versions_request_ApiVersionsRequest_agrees (R := R) _ _ H) as (bs & He & _).
    exists bs. by apply encodes_bytes.
  - exists []. unfold ApiVersionsRequest.encode, api_versions_request.is_flexible.
    assert ((version >=? 3) = false) as -> by lia. reflexivity.
Qed.

(** Asking a broker that serves the version asked for. *)
Lemma served_at lo hi served refusal version w :
  str_ok false pkg_version → lo ≤ version ≤ hi →
  ApiVersionsResponse.valid version served → not_refused version served →
  (∀ w' k v body, request w' k v body = answers lo hi served refusal w' k v body) →
  api_versions_at negotiate_request version w = (Ok served, w).
Proof.
  intros Hs Hv Hval Hr Hreq. unfold api_versions_at.
  destruct (request_encodes version Hs) as [body ->]. rewrite Hreq. unfold answers.
  assert (((lo <=? version) && (version <=? hi)) = true) as -> by lia.
  destruct (decode_served _ _ Hval Hr) as (bs & -> & Hd). cbn [map_err]. by rewrite Hd.
Qed.

(** Asking a broker for a version outside its range. *)
Lemma refused_at lo hi served refusal w :
  str_ok false pkg_version → ¬ (lo ≤ ApiVersionsRequest.MAX_VERSION ≤ hi) →
  ApiVersionsResponse.valid 0 refusal → not_refused 0 refusal →
  len (ApiVersionsResponse.api_keys refusal) < 2 ^ 24 →
  (∀ w' k v body, request w' k v body = answers lo hi served refusal w' k v body) →
  api_versions_at negotiate_request ApiVersionsRequest.MAX_VERSION w = (Ok refusal, w).
Proof.
  intros Hs Hh Hval Hr Hn Hreq. unfold api_versions_at.
  destruct (request_encodes ApiVersionsRequest.MAX_VERSION Hs) as [body ->]. rewrite Hreq.
  unfold answers.
  assert (((lo <=? ApiVersionsRequest.MAX_VERSION) && (ApiVersionsRequest.MAX_VERSION <=? hi)) =
    false) as -> by lia.
  destruct (decode_served _ _ Hval Hr) as (bs & He & Hd). rewrite He. cbn [map_err].
  rewrite (version0_body_is_not_flexible refusal bs) by (done || vm_compute; discriminate).
  by rewrite Hd.
Qed.

(** ** Properties *)

(** [pick] is right.  The version it picks lies in both ranges and no newer
    version does; it fails only when the broker advertises no such api or no
    version lies in both, and says which api. *)
Theorem pick_is_newest_common (ranges : ApiVersionRanges) (api_key : Z) (ours : Z * Z) :
  let common v := ∃ theirs, ranges !! api_key = Some theirs ∧
    ours.1 ≤ v ≤ ours.2 ∧ theirs.1 ≤ v ≤ theirs.2 in
  match pick ranges api_key ours with
  | Ok v => common v ∧ ∀ v', common v' → v' ≤ v
  | Err e => e = NoCommonVersion api_key ∧ ∀ v', ¬ common v'
  end.
Proof.
  intros common. unfold pick, range, common.
  destruct (ranges !! api_key) as [[lo hi]|]; cbn [ok_or res_bind].
  - destruct (Z.geb_spec (Z.min ours.2 hi) (Z.max ours.1 lo)).
    + split; [exists (lo, hi); cbn; split; [done|lia]|].
      intros v' (theirs & [= <-] & H1 & H2). cbn in H2. lia.
    + split; [done|]. intros v' (theirs & [= <-] & H1 & H2). cbn in H2. lia.
  - split; [done|]. by intros v' (theirs & ? & _).
Qed.

(** Negotiation succeeds.  Against a broker that serves any range of the
    exchange meeting ours, and refuses a version above it with the range it does
    serve, encoded at version 0, the client ends with the ranges that broker
    advertises -- in one exchange if the broker knows our newest version and in
    two if not; with a broker whose range is wholly above ours it fails with "no
    common version". *)
Theorem negotiation_learns_the_ranges lo hi served refusal w :
  str_ok false pkg_version →
  ApiVersionsRequest.MIN_VERSION ≤ lo ≤ hi →
  ApiVersionsResponse.error_code served = error_code.NONE →
  ApiVersionsResponse.error_code refusal = error_code.UNSUPPORTED_VERSION →
  range (from_response refusal) ApiVersionsRequest.API_KEY = Some (lo, hi) →
  let version := Z.min hi ApiVersionsRequest.MAX_VERSION in
  (lo ≤ version → ApiVersionsResponse.valid version served ∧ not_refused version served) →
  ApiVersionsResponse.valid 0 refusal → not_refused 0 refusal →
  len (ApiVersionsResponse.api_keys refusal) < 2 ^ 24 →
  (∀ w' k v body, request w' k v body = answers lo hi served refusal w' k v body) →
  negotiate w =
    (if lo <=? ApiVersionsRequest.MAX_VERSION then Ok (from_response served)
     else Err (NoCommonVersion ApiVersionsRequest.API_KEY), w).
Proof.
  intros Hs Hlo Hok Herr Hrange version Hserved Hval Hr Hn Hreq. unfold negotiate.
  destruct (decide (lo ≤ ApiVersionsRequest.MAX_VERSION ≤ hi)) as [Hin|Hout].
  - assert (version = ApiVersionsRequest.MAX_VERSION) as E by (unfold version; lia).
    rewrite E in *. destruct Hserved as [Hsv Hsr]; [lia|].
    rewrite (served_at lo hi served refusal) by (done || lia). rewrite Hok.
    assert ((lo <=? ApiVersionsRequest.MAX_VERSION) = true) as -> by lia. done.
  - rewrite (refused_at lo hi served refusal) by done. rewrite Herr.
    change (error_code.is_ok error_code.UNSUPPORTED_VERSION) with false. cbn iota.
    change (negb (error_code.UNSUPPORTED_VERSION =? error_code.UNSUPPORTED_VERSION)) with false.
    cbn iota. unfold pick. rewrite Hrange. cbn [ok_or res_bind fst snd].
    destruct (Z.leb_spec lo ApiVersionsRequest.MAX_VERSION).
    + assert ((Z.min ApiVersionsRequest.MAX_VERSION hi >=? Z.max ApiVersionsRequest.MIN_VERSION lo)
        = true) as -> by lia.
      assert (Z.min ApiVersionsRequest.MAX_VERSION hi = version) as -> by (unfold version; lia).
      destruct Hserved as [Hsv Hsr]; [unfold version; lia|].
      rewrite (served_at lo hi served refusal version w) by (done || (unfold version; lia)). by rewrite Hok.
    + assert ((Z.min ApiVersionsRequest.MAX_VERSION hi >=? Z.max ApiVersionsRequest.MIN_VERSION lo)
        = false) as -> by lia. done.
Qed.

End negotiate.

(** *** Witnesses *)

(** A broker that stops at version 2 of the exchange. *)
Definition old_refusal : ApiVersionsResponse.t :=
  ApiVersionsResponse.mk 35 [ApiVersion.mk 18 0 2 []] 0 None None None None [].
Definition old_served : ApiVersionsResponse.t :=
  ApiVersionsResponse.mk 0 [ApiVersion.mk 18 0 2 []; ApiVersion.mk 1 0 11 []] 5 None None None None [].

Ltac not_refused :=
  intros bs e H; vm_compute in H; injection H as <-;
  intros D; vm_compute in D; discriminate D.

Lemma negotiation_learns_the_ranges_witness :
  negotiate (R := plain_runtime) (answers 0 2 old_served old_refusal) "0.1.0" tt =
    (Ok (from_response old_served), tt).
Proof.
  exact (negotiation_learns_the_ranges (R := plain_runtime) (answers 0 2 old_served old_refusal)
    "0.1.0" 0 2 old_served old_refusal tt
    ltac:(valid_sample) ltac:(vm_compute; split; discriminate) eq_refl eq_refl eq_refl
    ltac:(intros _; split; [valid_sample|not_refused]) ltac:(valid_sample) ltac:(not_refused)
    ltac:(vm_compute; reflexivity) ltac:(reflexivity)).
Defined.
