(* ===== verification/Conn.v ===== *)
(** * A broker connection ([odradek-client/src/conn.rs])

    One socket, shared by every caller: requests are framed, numbered and
    registered under their correlation id before they are written; one reader
    matches responses to the table and answers the callers; guards clean up
    after the callers that give up.

    [Connection] is the state the callers and the reader share, with one
    definition per operation on it; [System] adds the calls that are between
    the check of [closed] and their registration, and the reader's life, and
    [step] interleaves the operations as the runtime may.  A [oneshot] channel
    is the number of the caller that holds its receiver, and what a step sends
    is its output. *)
From S2P Require Import Prelude Budget Codec Wire Frame Fields KnownTags MessageTrait MsgConnection MsgFetch Registry ClientError.

Import request_header response_header.

Record Pending : Type := mkPending {
  response_header_version : Z;
  reply : nat;
}.

Record Connection : Type := mkConnection {
  in_flight : gmap Z Pending;
  closed : bool;
  next_correlation : Z;
  client_id : string;
  throttled_until_ms : Z;
}.

Definition set_in_flight (c : Connection) (m : gmap Z Pending) : Connection :=
  mkConnection m (closed c) (next_correlation c) (client_id c) (throttled_until_ms c).
Definition set_closed (c : Connection) : Connection :=
  mkConnection (in_flight c) true (next_correlation c) (client_id c) (throttled_until_ms c).
Definition set_next (c : Connection) (n : Z) : Connection :=
  mkConnection (in_flight c) (closed c) n (client_id c) (throttled_until_ms c).
Definition set_throttled (c : Connection) (t : Z) : Connection :=
  mkConnection (in_flight c) (closed c) (next_correlation c) (client_id c) t.

(** The connection [connect] makes. *)
Definition new_connection (client_id : string) : Connection :=
  mkConnection ∅ false 1 client_id 0.

Inductive output : Type :=
| Sent (caller : nat) (correlation_id : Z) (frame : list byte)
| Reply (caller : nat) (r : result ClientError (list byte)).

(** ** [Shared] *)

Definition fail_all (c : Connection) : Connection * list output :=
  (set_in_flight (set_closed c) ∅,
   (λ kp : Z * Pending, Reply (reply kp.2) (Err ConnectionClosed)) <$> map_to_list (in_flight c)).

(** ** Requests *)

(** The frame of a request: its header at the version the registry derives,
    then the body its caller encoded. *)
Definition request_frame (client : string) (api_key api_version correlation_id header_version : Z)
    (body : list byte) : result EncodeError (list byte) :=
  let header := RequestHeader.mk api_key api_version correlation_id (Some client)
    (RequestHeader.unknown_tagged_fields RequestHeader.default) in
  enc_bytes (frame (RequestHeader.encode header_version header ;; put_slice body)).

(** [request_unbounded] from its check of [closed] up to the write. *)
Definition register (c : Connection) (caller : nat) (api_key api_version : Z) (body : list byte) :
    result ClientError (Z * list byte) * Connection :=
  match request_header_version api_key api_version with
  | None => (Err (UnsupportedApi api_key), c)
  | Some header_version =>
      match Registry.response_header_version api_key api_version with
      | None => (Err (UnsupportedApi api_key), c)
      | Some resp_header_version =>
          let correlation_id := next_correlation c in
          let c := set_next c (sint 32 (correlation_id + 1)) in
          match request_frame (client_id c) api_key api_version correlation_id header_version body with
          | Err e => (Err (Encode e), c)
          | Ok framed =>
              (Ok (correlation_id, framed),
               set_in_flight c
                 (<[correlation_id := mkPending resp_header_version caller]> (in_flight c)))
          end
      end
  end.

(** [InFlightGuard::drop] and [WriteGuard::drop], armed. *)
Definition in_flight_guard (c : Connection) (correlation_id : Z) : Connection :=
  set_in_flight c (delete correlation_id (in_flight c)).
Definition write_guard : Connection → Connection * list output := fail_all.

(** ** Responses *)

(** [read_response], given the body of the frame. *)
Definition read_response {R : Runtime} (c : Connection) (frame : list byte) :
    result ClientError unit * Connection * list output :=
  match peek_correlation_id frame with
  | Err e => (Err (ProtocolViolation "short response header"), c, [])
  | Ok correlation_id =>
      match in_flight c !! correlation_id with
      | None => (Err (ProtocolViolation "response with unknown correlation id"), c, [])
      | Some pending =>
          let c := set_in_flight c (delete correlation_id (in_flight c)) in
          let r := match ResponseHeader.decode (response_header_version pending) frame with
                   | Ok (_, rest) => Ok rest
                   | Err e => Err (Decode e)
                   end in
          (Ok tt, c, [Reply (reply pending) r])
      end
  end.

(** ** Quota pauses *)

Definition note_throttle (c : Connection) (now ms : Z) : Connection :=
  if ms <=? 0 then c
  else set_throttled c (Z.max (throttled_until_ms c) (now + ms)).

Definition throttle_remaining (c : Connection) (now : Z) : option Z :=
  let until := throttled_until_ms c in
  if until =? 0 then None else if now <? until then Some (until - now) else None.

(** ** Bodies *)

Definition decode_body {R : Runtime} {M} `{Message M} (c : Connection) (now version : Z)
    (body : list byte) : result ClientError M * Connection :=
  match Message.decode version body with
  | Err e => (Err (Decode e), c)
  | Ok (message, rest) =>
      let c := match Message.throttle_time_ms message with
               | Some ms => note_throttle c now ms
               | None => c
               end in
      match rest with
      | [] => (Ok message, c)
      | _ => (Err (ProtocolViolation "undecoded byte(s)"), c)
      end
  end.

Definition FRAME_CHUNK : Z := 64 * 1024.

(** [read_frame_body]: [arrived] is all the peer will send before the stream
    ends; the result comes with the most bytes the buffer ever held. *)
Fixpoint read_frame_body (fuel : nat) (n : Z) (frame arrived : list byte) :
    result ClientError (list byte * list byte) * Z :=
  match fuel with
  | O => (Ok (frame, arrived), len frame)
  | S fuel =>
      if len frame <? n then
        let chunk := Z.min (n - len frame) FRAME_CHUNK in
        if len arrived <? chunk then (Err (Io "unexpected end of file"), len frame + chunk)
        else
          let '(r, high) := read_frame_body fuel n (frame ++ take (Z.to_nat chunk) arrived)
            (drop (Z.to_nat chunk) arrived) in
          (r, Z.max (len frame + chunk) high)
      else (Ok (frame, arrived), len frame)
  end.

(** ** Interleavings *)

Record System : Type := mkSystem {
  conn : Connection;
  (** Callers past the check of [closed], not registered yet. *)
  begun : gmap nat (Z * Z * list byte);
  reading : bool;
}.

Inductive event : Type :=
| Begins (caller : nat) (api_key api_version : Z) (body : list byte)
| Registers (caller : nat)
| WriteFails (correlation_id : Z)
| Dropped (correlation_id : Z) (mid_write : bool)
| TimesOut (correlation_id : Z) (mid_write : bool)
| Arrives (frame : list byte)
| ReadFails.

(** The guards of a call's future, dropped innermost first. *)
Definition drop_call (c : Connection) (correlation_id : Z) (mid_write : bool) :
    Connection * list output :=
  let '(c, outs) := if mid_write then write_guard c else (c, []) in
  (in_flight_guard c correlation_id, outs).

Definition step {R : Runtime} (s : System) (e : event) : System * list output :=
  match e with
  | Begins caller k v body =>
      if closed (conn s) then (s, [Reply caller (Err ConnectionClosed)])
      else (mkSystem (conn s) (<[caller := (k, v, body)]> (begun s)) (reading s), [])
  | Registers caller =>
      match begun s !! caller with
      | None => (s, [])
      | Some (k, v, body) =>
          let '(r, c) := register (conn s) caller k v body in
          (mkSystem c (delete caller (begun s)) (reading s),
           match r with
           | Ok (cid, framed) => [Sent caller cid framed]
           | Err e => [Reply caller (Err e)]
           end)
      end
  | WriteFails cid => (mkSystem (in_flight_guard (conn s) cid) (begun s) (reading s), [])
  | Dropped cid mid =>
      let '(c, outs) := drop_call (conn s) cid mid in (mkSystem c (begun s) (reading s), outs)
  | TimesOut cid mid =>
      let '(c, outs) := drop_call (conn s) cid mid in
      let '(c, outs') := fail_all c in (mkSystem c (begun s) (reading s), outs ++ outs')
  | Arrives frame =>
      if reading s then
        let '(r, c, outs) := read_response (conn s) frame in
        match r with
        | Ok _ => (mkSystem c (begun s) true, outs)
        | Err _ => let '(c, outs') := fail_all c in (mkSystem c (begun s) false, outs ++ outs')
        end
      else (s, [])
  | ReadFails =>
      if reading s then
        let '(c, outs) := fail_all (conn s) in (mkSystem c (begun s) false, outs)
      else (s, [])
  end.

Fixpoint run {R : Runtime} (s : System) (es : list event) : System * list output :=
  match es with
  | [] => (s, [])
  | e :: es => let '(s, outs) := step s e in let '(s, outs') := run s es in (s, outs ++ outs')
  end.

Definition initial (client_id : string) : System := mkSystem (new_connection client_id) ∅ true.

(** ** Frame bodies *)


Lemma read_frame_body_spec n : ∀ fuel frame arrived,
  len frame ≤ n → n - len frame < Z.of_nat fuel →
  let '(r, high) := read_frame_body fuel n frame arrived in
  len frame ≤ high ∧ high ≤ len frame + len arrived + FRAME_CHUNK ∧
  if n - len frame <=? len arrived
  then r = Ok (frame ++ take (Z.to_nat (n - len frame)) arrived,
               drop (Z.to_nat (n - len frame)) arrived)
  else r = Err (Io "unexpected end of file").
Proof.
  induction fuel as [|fuel IH]; intros frame arrived Hle Hfuel; [lia|]. cbn [read_frame_body].
  assert (0 < FRAME_CHUNK) by done.
  destruct (Z.ltb_spec (len frame) n) as [Hlt|Hge].
  2: { assert (n - len frame = 0) as -> by lia. destruct (Z.leb_spec 0 (len arrived)); [|lia].
       change (Z.to_nat 0) with 0%nat. rewrite take_0, drop_0, app_nil_r.
       split; [lia|]. split; [lia|done]. }
  cbv zeta. set (chunk := Z.min (n - len frame) FRAME_CHUNK).
  destruct (Z.ltb_spec (len arrived) chunk) as [Hs|Hs].
  { split; [unfold chunk; lia|]. split; [unfold chunk; lia|].
    destruct (Z.leb_spec (n - len frame) (len arrived)); [unfold chunk in *; lia|done]. }
  set (k := Z.to_nat chunk). assert (Z.of_nat k = chunk) as Hk by (unfold k, chunk; lia).
  assert (len (frame ++ take k arrived) = len frame + chunk) as Hl.
  { rewrite length_app, length_take. lia. }
  specialize (IH (frame ++ take k arrived) (drop k arrived)
    ltac:(rewrite Hl; unfold chunk; lia) ltac:(rewrite Hl; unfold chunk; lia)).
  destruct (read_frame_body fuel n _ _) as [r high]. rewrite Hl, length_drop in IH.
  destruct IH as (H1 & H2 & H3). split; [lia|]. split; [lia|].
  destruct (Z.leb_spec (n - (len frame + chunk)) (Z.of_nat (length arrived - k))),
    (Z.leb_spec (n - len frame) (len arrived)); try lia; [|exact H3]. rewrite H3.
  rewrite drop_drop, <- app_assoc.
  replace (Z.to_nat (n - len frame)) with (k + Z.to_nat (n - (len frame + chunk)))%nat
    by (unfold chunk in *; lia).
  by rewrite take_take_drop.
Qed.

(** ** Routing *)

(** What the outputs say of callers. *)
Definition replied (outs : list output) : list nat :=
  omap (λ o, match o with Reply caller _ => Some caller | Sent _ _ _ => None end) outs.
Definition sent (outs : list output) : list (nat * Z) :=
  omap (λ o, match o with Sent caller cid _ => Some (caller, cid) | Reply _ _ => None end) outs.
Definition callers (es : list event) : list nat :=
  omap (λ e, match e with Begins caller _ _ _ => Some caller | _ => None end) es.

(** A reply with a body has an arrived frame behind it, which carries the
    correlation id the caller's request was sent under. *)
Definition justified {R : Runtime} (es : list event) (outs : list output) (caller : nat)
    (r : result ClientError (list byte)) : Prop :=
  match r with
  | Err _ => True
  | Ok body => ∃ cid payload header v,
      (caller, cid) ∈ sent outs ∧ Arrives payload ∈ es ∧ peek_correlation_id payload = Ok cid ∧
      ResponseHeader.decode v payload = Ok (header, body)
  end.

(** The table, the calls begun and what was sent so far. *)
Record routed {R : Runtime} (es : list event) (table : gmap Z Pending)
    (begun : gmap nat (Z * Z * list byte)) (outs : list output) : Prop := mkRouted {
  rt_sent : ∀ cid p, table !! cid = Some p → (reply p, cid) ∈ sent outs ∧ reply p ∉ replied outs;
  rt_once : ∀ cid cid' p p', table !! cid = Some p → table !! cid' = Some p' →
    reply p = reply p' → cid = cid';
  rt_begun : ∀ caller, is_Some (begun !! caller) →
    (caller ∈ callers es) ∧ (caller ∉ replied outs) ∧ (caller ∉ (sent outs).*1);
  rt_callers : ∀ caller, caller ∈ replied outs ∨ caller ∈ (sent outs).*1 → caller ∈ callers es;
  rt_replied : NoDup (replied outs);
  rt_sent_once : NoDup (sent outs).*1;
  rt_justified : ∀ caller r, Reply caller r ∈ outs → justified es outs caller r;
}.

Section routing.
Context {R : Runtime}.

Lemma replied_app o1 o2 : replied (o1 ++ o2) = replied o1 ++ replied o2.
Proof. apply omap_app. Qed.
Lemma sent_app o1 o2 : sent (o1 ++ o2) = sent o1 ++ sent o2.
Proof. apply omap_app. Qed.
Lemma callers_app e1 e2 : callers (e1 ++ e2) = callers e1 ++ callers e2.
Proof. apply omap_app. Qed.

Lemma replied_elem caller outs : caller ∈ replied outs ↔ ∃ r, Reply caller r ∈ outs.
Proof.
  unfold replied. rewrite list_elem_of_omap. split.
  - intros ([|c r] & Ho & [= ->]). by exists r.
  - intros [r Hr]. by exists (Reply caller r).
Qed.

Lemma justified_mono es es' outs outs' caller r :
  justified es outs caller r → justified (es ++ es') (outs ++ outs') caller r.
Proof.
  destruct r as [body|e]; [|done]. intros (cid & payload & h & v & H1 & H2 & H3 & H4).
  exists cid, payload, h, v. rewrite sent_app. split_and!; try done; apply elem_of_app; by left.
Qed.

(** Entries only removed; an event observed. *)
Lemma routed_sub es table table' begun outs :
  routed es table begun outs → table' ⊆ table → routed es table' begun outs.
Proof. intros [H1 H2 H3 H4 H5 H6 H7] Hsub. split; eauto using lookup_weaken. Qed.

Lemma routed_event es e table begun outs :
  routed es table begun outs → routed (es ++ [e]) table begun outs.
Proof.
  intros [H1 H2 H3 H4 H5 H6 H7].
  assert (∀ c, c ∈ callers es → c ∈ callers (es ++ [e])) as Hmono.
  { intros c ?. rewrite callers_app. apply elem_of_app. by left. }
  split; eauto.
  - intros c Hc. destruct (H3 c Hc) as (? & ? & ?). auto.
  - intros caller r Hr. rewrite <- (app_nil_r outs). by apply justified_mono, H7.
Qed.

(** Answering a batch of the table's entries: they leave it, each with a reply
    that is an error or has a frame behind it. *)
Lemma routed_answer es table table' begun outs (batch : list (Z * Pending))
    (answer : Z * Pending → result ClientError (list byte)) :
  routed es table begun outs → table' ⊆ table → NoDup batch.*1 →
  (∀ cid p, (cid, p) ∈ batch → table !! cid = Some p ∧ table' !! cid = None) →
  (∀ cid p, (cid, p) ∈ batch → justified es outs (reply p) (answer (cid, p))) →
  routed es table' begun (outs ++ ((λ kp, Reply (reply kp.2) (answer kp)) <$> batch)).
Proof.
  intros [H1 H2 H3 H4 H5 H6 H7] Hsub Hnd Hb Hj.
  set (new := _ <$> batch).
  assert (sent new = []) as Es.
  { unfold new. clear. induction batch as [|b l IH]; [done|]. by rewrite fmap_cons. }
  assert (replied new = (λ kp, reply kp.2) <$> batch) as Er.
  { unfold new. clear. induction batch as [|b l IH]; [done|]. rewrite !fmap_cons. cbn. by f_equal. }
  assert (∀ caller, caller ∈ replied new → ∃ cid p, (cid, p) ∈ batch ∧ reply p = caller) as Hin.
  { rewrite Er. intros caller ([cid p] & -> & Hp)%list_elem_of_fmap. by exists cid, p. }
  assert (NoDup (replied new)) as Hnr.
  { rewrite Er. clear -Hnd Hb H2. induction batch as [|[cid p] l IH]; [constructor|].
    rewrite fmap_cons in *. apply NoDup_cons in Hnd as [Hc Hnd]. constructor.
    - intros ([cid' p'] & E & Hp')%list_elem_of_fmap. cbn in E. apply Hc.
      assert (cid = cid') as ->.
      { apply (H2 _ _ p p'); [|by apply Hb; apply elem_of_cons; right|done].
        by apply Hb, elem_of_cons; left. }
      apply list_elem_of_fmap. by exists (cid', p').
    - apply IH; [done|]. intros c q Hq. apply Hb, elem_of_cons. by right. }
  split; rewrite ?sent_app, ?replied_app, ?Es, ?app_nil_r.
  - intros cid p Hp. destruct (H1 cid p) as [Hs Hr]; [by eapply lookup_weaken|].
    split; [done|]. intros [?|(cid' & p' & Hp' & E)%Hin]%elem_of_app; [done|].
    destruct (Hb _ _ Hp') as [Ht Ht']. assert (cid = cid') as ->; [|by rewrite Hp in Ht'].
    apply (H2 _ _ p p'); [by eapply lookup_weaken|done|done].
  - intros cid cid' p p' Hp Hp'. apply H2; by eapply lookup_weaken.
  - intros caller Hc. destruct (H3 caller Hc) as (? & Hr & Hs). split_and!; [done| |done].
    intros [?|(cid & p & Hp & <-)%Hin]%elem_of_app; [done|]. apply Hs.
    apply list_elem_of_fmap. exists (reply p, cid). split; [done|]. by apply H1, Hb.
  - intros caller [[?|(cid & p & Hp & <-)%Hin]%elem_of_app|?]; apply H4; [by left| |by right].
    right. apply list_elem_of_fmap. exists (reply p, cid). split; [done|]. by apply H1, Hb.
  - apply NoDup_app. split_and!; [done| |done]. intros caller Hr (cid & p & Hp & <-)%Hin.
    by destruct (H1 cid p) as [_ Hn]; [by apply Hb|].
  - done.
  - intros caller r [Hr|Hr]%elem_of_app.
    + rewrite <- (app_nil_r es). by apply justified_mono, H7.
    + rewrite <- (app_nil_r es). apply justified_mono.
      apply list_elem_of_fmap in Hr as ([cid p] & [= -> ->] & Hp). by apply Hj.
Qed.

Lemma routed_fail_all es c begun outs c' outs' :
  routed es (in_flight c) begun outs → fail_all c = (c', outs') →
  routed es (in_flight c') begun (outs ++ outs') ∧ in_flight c' = ∅ ∧ closed c' = true.
Proof.
  intros H [= <- <-]. split; [|done].
  apply (routed_answer es (in_flight c) ∅ begun outs _ (λ _, Err ConnectionClosed)); try done.
  - apply map_empty_subseteq.
  - apply NoDup_fst_map_to_list.
  - intros cid p Hp%elem_of_map_to_list. by rewrite lookup_empty.
Qed.

(** A call that begins: its caller is new. *)
Lemma routed_begins es table begun outs caller x :
  routed es table begun outs → caller ∈ callers es →
  caller ∉ replied outs → caller ∉ (sent outs).*1 →
  routed es table (<[caller := x]> begun) outs.
Proof.
  intros [H1 H2 H3 H4 H5 H6 H7] Hc Hr Hs. split; try done.
  intros c Hc'. destruct (decide (c = caller)) as [->|Hne]; [done|].
  rewrite lookup_insert_ne in Hc' by done. by apply H3.
Qed.

Lemma routed_error es table begun outs caller e :
  routed es table begun outs → caller ∈ callers es → caller ∉ replied outs →
  (∀ cid p, table !! cid = Some p → reply p ≠ caller) → (begun !! caller) = None →
  routed es table begun (outs ++ [Reply caller (Err e)]).
Proof.
  intros [H1 H2 H3 H4 H5 H6 H7] Hc Hr Ht Hb.
  split; rewrite ?sent_app, ?replied_app, ?app_nil_r; try done.
  - intros cid p Hp. destruct (H1 cid p Hp) as [Hs Hn]. split; [done|].
    intros [?|E%list_elem_of_singleton]%elem_of_app; [done|]. by eapply Ht.
  - intros c Hs. destruct (H3 c Hs) as (? & ? & ?). split_and!; try done.
    intros [?|E%list_elem_of_singleton]%elem_of_app; [done|]. subst c. rewrite Hb in Hs.
    by destruct Hs.
  - intros c [[?| ->%list_elem_of_singleton]%elem_of_app|?]; [by apply H4; left|done|by apply H4; right].
  - apply NoDup_app. split_and!; [done| |apply NoDup_singleton].
    intros c Hin ->%list_elem_of_singleton. done.
  - intros c r [Hin|Hin%list_elem_of_singleton]%elem_of_app.
    + rewrite <- (app_nil_r es). by apply justified_mono, H7.
    + by injection Hin as -> ->.
Qed.

Lemma routed_registers es table begun outs caller cid v framed :
  routed es table begun outs → is_Some (begun !! caller) →
  routed es (<[cid := mkPending v caller]> table) (delete caller begun)
    (outs ++ [Sent caller cid framed]).
Proof.
  intros [H1 H2 H3 H4 H5 H6 H7] Hs. destruct (H3 caller Hs) as (Hc & Hr & Hn).
  assert (∀ cid' p, table !! cid' = Some p → reply p ≠ caller) as Hfresh.
  { intros cid' p Hp E. apply Hn. apply list_elem_of_fmap. exists (reply p, cid').
    split; [done|]. by apply H1. }
  split; rewrite ?sent_app, ?replied_app, ?app_nil_r, ?fmap_app; try done.
  - intros cid' p Hp. apply lookup_insert_Some in Hp as [[<- <-]|[Hne Hp]].
    + split; [|done]. apply elem_of_app. right. by apply elem_of_cons; left.
    + destruct (H1 cid' p Hp). split; [|done]. apply elem_of_app. by left.
  - intros c1 c2 p1 p2 Hp1 Hp2 E.
    apply lookup_insert_Some in Hp1 as [[<- <-]|[Hne1 Hp1]],
      Hp2 as [[<- <-]|[Hne2 Hp2]]; try done.
    + by destruct (Hfresh c2 p2).
    + by destruct (Hfresh c1 p1).
    + by apply (H2 c1 c2 p1 p2).
  - intros c Hc'. destruct (decide (c = caller)) as [->|Hne].
    { rewrite lookup_delete_eq in Hc'. by destruct Hc'. }
    rewrite lookup_delete_ne in Hc' by done. destruct (H3 c Hc') as (? & ? & ?).
    split_and!; try done. intros [?|E%list_elem_of_singleton]%elem_of_app; done.
  - intros c [?|[?|E%list_elem_of_singleton]%elem_of_app]; [by apply H4; left|by apply H4; right|].
    by cbn in E; subst c.
  - apply NoDup_app. split_and!; [done| |apply NoDup_singleton].
    intros c Hin E%list_elem_of_singleton. cbn in E. by subst c.
  - intros c r [Hin|Hin%list_elem_of_singleton]%elem_of_app; [|done].
    rewrite <- (app_nil_r es). by apply justified_mono, H7.
Qed.

(** The numbers given out: after [n] calls registered, the next is the [n]-th
    from one, wrapping, and those sent are distinct ones before it. *)
Definition correlation (k : Z) : Z := sint 32 (1 + k).

Definition numbered (n : Z) (c : Connection) (outs : list output) : Prop :=
  next_correlation c = correlation n ∧
  ∃ ks, (sent outs).*2 = correlation <$> ks ∧ NoDup ks ∧ Forall (λ k, 0 ≤ k < n) ks.

Lemma correlation_next n : sint 32 (correlation n + 1) = correlation (n + 1).
Proof.
  unfold correlation, sint. change (2 ^ (32 - 1)) with 2147483648. change (2 ^ 32) with 4294967296.
  replace ((1 + n + 2147483648) mod 4294967296 - 2147483648 + 1 + 2147483648)
    with (1 + (1 + n + 2147483648) mod 4294967296) by lia.
  rewrite Z.add_mod_idemp_r by lia. do 2 f_equal. lia.
Qed.

Lemma correlation_inj i j :
  0 ≤ i < 2 ^ 32 → 0 ≤ j < 2 ^ 32 → correlation i = correlation j → i = j.
Proof.
  unfold correlation, sint. change (2 ^ (32 - 1)) with 2147483648. change (2 ^ 32) with 4294967296.
  intros Hi Hj E.
  assert ((1 + i + 2147483648) mod 4294967296 = (1 + j + 2147483648) mod 4294967296) by lia.
  Z.div_mod_to_equations. lia.
Qed.

Lemma numbered_unique n c outs : n ≤ 2 ^ 32 → numbered n c outs → NoDup (sent outs).*2.
Proof.
  intros Hn (_ & ks & -> & Hnd & Hf). clear outs.
  induction Hnd as [|k ks Hk Hnd IH]; [constructor|]. rewrite fmap_cons.
  apply Forall_cons in Hf as [Hk' Hf]. constructor; [|by apply IH].
  intros (k' & E & Hin)%list_elem_of_fmap. apply (proj1 (Forall_forall _ _) Hf) in Hin as Hk''.
  apply correlation_inj in E as ->; [done|lia..].
Qed.

Lemma numbered_outs n c outs c' new :
  numbered n c outs → next_correlation c' = next_correlation c → sent new = [] →
  numbered n c' (outs ++ new).
Proof. intros [H1 H2] E1 E2. unfold numbered. by rewrite sent_app, E1, E2, app_nil_r. Qed.

(** *** The operations *)

Lemma drop_call_routed es c begun outs cid mid c' new :
  routed es (in_flight c) begun outs → drop_call c cid mid = (c', new) →
  routed es (in_flight c') begun (outs ++ new).
Proof.
  intros Hr H. unfold drop_call, write_guard in H. destruct mid.
  - destruct (fail_all c) as [c1 o1] eqn:E. injection H as <- <-.
    destruct (routed_fail_all _ _ _ _ _ _ Hr E) as (Hr' & He & _).
    cbn. by rewrite He, delete_empty, <- He.
  - injection H as <- <-. rewrite app_nil_r. eapply routed_sub; [done|]. apply delete_subseteq.
Qed.

Lemma read_response_routed es c begun outs frame r c' new :
  routed (es ++ [Arrives frame]) (in_flight c) begun outs →
  read_response c frame = (r, c', new) →
  routed (es ++ [Arrives frame]) (in_flight c') begun (outs ++ new).
Proof.
  intros Hr H. unfold read_response in H.
  destruct (peek_correlation_id frame) as [cid|] eqn:Ep.
  2: { injection H as <- <- <-. by rewrite app_nil_r. }
  destruct (in_flight c !! cid) as [p|] eqn:El.
  2: { injection H as <- <- <-. by rewrite app_nil_r. }
  injection H as <- <- <-. cbn [in_flight set_in_flight].
  set (answer := match ResponseHeader.decode _ frame with Ok _ => _ | Err _ => _ end).
  apply (routed_answer _ (in_flight c) _ _ _ [(cid, p)] (λ _, answer)); [done|apply delete_subseteq| | |].
  - apply NoDup_singleton.
  - intros cid' p' [= -> ->]%list_elem_of_singleton. by rewrite lookup_delete_eq.
  - intros cid' p' [= -> ->]%list_elem_of_singleton. unfold answer.
    destruct (ResponseHeader.decode _ frame) as [[h rest]|e] eqn:Ed; [|done].
    exists cid, frame, h, (response_header_version p). split_and!; try done.
    + by apply (rt_sent _ _ _ _ Hr).
    + apply elem_of_app. right. by apply elem_of_cons; left.
Qed.

Lemma register_routed es s outs caller k v body r c :
  routed es (in_flight (conn s)) (begun s) outs →
  begun s !! caller = Some (k, v, body) → register (conn s) caller k v body = (r, c) →
  routed es (in_flight c) (delete caller (begun s))
    (outs ++ match r with
             | Ok (cid, framed) => [Sent caller cid framed]
             | Err e => [Reply caller (Err e)]
             end).
Proof.
  intros Hr E H. assert (is_Some (begun s !! caller)) as Hs by (by rewrite E).
  assert (∀ err, routed es (in_flight (conn s)) (delete caller (begun s))
    (outs ++ [Reply caller (Err err)])) as Herr.
  { intros err. destruct (rt_begun _ _ _ _ Hr caller Hs) as (Hin & Hnr & Hn).
    apply routed_error; try done.
    - destruct Hr as [H1 H2 H3 H4 H5 H6 H7]. split; try done. intros c' Hc'. apply H3.
      apply lookup_delete_is_Some in Hc'. tauto.
    - intros cid p Hp Ep. apply Hn. apply list_elem_of_fmap. exists (reply p, cid).
      split; [done|]. by apply (rt_sent _ _ _ _ Hr).
    - by rewrite lookup_delete_eq. }
  unfold register in H.
  destruct (request_header_version k v); [|injection H as <- <-; by apply Herr].
  destruct (Registry.response_header_version k v); [|injection H as <- <-; by apply Herr].
  destruct (request_frame _ _ _ _ _ _); injection H as <- <-; [|by apply Herr].
  by apply routed_registers.
Qed.

Lemma begins_routed es s outs caller k v body s' new :
  routed es (in_flight (conn s)) (begun s) outs → caller ∉ callers es →
  step s (Begins caller k v body) = (s', new) →
  routed (es ++ [Begins caller k v body]) (in_flight (conn s')) (begun s') (outs ++ new).
Proof.
  intros Hr Hc H. pose proof (routed_event _ (Begins caller k v body) _ _ _ Hr) as Hr'.
  assert (caller ∈ callers (es ++ [Begins caller k v body])) as Hin.
  { rewrite callers_app. apply elem_of_app. right. by apply elem_of_cons; left. }
  assert (caller ∉ replied outs) as Hn1 by (intros ?; apply Hc, (rt_callers _ _ _ _ Hr); by left).
  assert (caller ∉ (sent outs).*1) as Hn2 by (intros ?; apply Hc, (rt_callers _ _ _ _ Hr); by right).
  cbn [step] in H. destruct (closed (conn s)); injection H as <- <-; cbn [conn begun].
  - apply routed_error; try done.
    + intros cid p Hp E. apply Hc. rewrite <- E. apply (rt_callers _ _ _ _ Hr). right.
      apply list_elem_of_fmap. exists (reply p, cid). split; [done|].
      by apply (rt_sent _ _ _ _ Hr).
    + apply eq_None_not_Some. intros Hs. by apply Hc, (rt_begun _ _ _ _ Hr).
  - rewrite app_nil_r. by apply routed_begins.
Qed.

(** One step of the system. *)
Lemma step_routed es e s outs s' new :
  routed es (in_flight (conn s)) (begun s) outs → NoDup (callers (es ++ [e])) →
  step s e = (s', new) →
  routed (es ++ [e]) (in_flight (conn s')) (begun s') (outs ++ new).
Proof.
  intros Hr Hnew H. rewrite callers_app in Hnew. apply NoDup_app in Hnew as (_ & Hnew & _).
  pose proof (routed_event _ e _ _ _ Hr) as Hr'.
  destruct e as [caller k v body|caller|cid|cid mid|cid mid|frame|].
  - apply begins_routed with s; [done| |done]. intros Hc. by apply (Hnew _ Hc), elem_of_cons; left.
  - cbn [step] in H. destruct (begun s !! caller) as [[[k v] body]|] eqn:E.
    + destruct (register _ _ _ _ _) as [r c] eqn:Er. injection H as <- <-.
      by eapply register_routed.
    + injection H as <- <-. by rewrite app_nil_r.
  - injection H as <- <-. rewrite app_nil_r. eapply routed_sub; [done|]. apply delete_subseteq.
  - cbn [step] in H. destruct (drop_call _ _ _) as [c o] eqn:Ed. injection H as <- <-.
    by eapply drop_call_routed.
  - cbn [step] in H. destruct (drop_call _ _ _) as [c o] eqn:Ed.
    destruct (fail_all c) as [c' o'] eqn:Ef. injection H as <- <-. rewrite app_assoc.
    eapply routed_fail_all; [|exact Ef]. by eapply drop_call_routed.
  - cbn [step] in H. destruct (reading s).
    2: { injection H as <- <-. by rewrite app_nil_r. }
    destruct (read_response _ _) as [[r c] o] eqn:Er.
    pose proof (read_response_routed _ _ _ _ _ _ _ _ Hr' Er) as Hr2.
    destruct r; [by injection H as <- <-|].
    destruct (fail_all c) as [c' o'] eqn:Ef. injection H as <- <-. rewrite app_assoc.
    by eapply routed_fail_all.
  - cbn [step] in H. destruct (reading s).
    + destruct (fail_all (conn s)) as [c o] eqn:Ef. injection H as <- <-. by eapply routed_fail_all.
    + injection H as <- <-. by rewrite app_nil_r.
Qed.

(** *** Numbering *)

(** Every operation but a registration leaves the numbering alone. *)
Definition quiet (c c' : Connection) (outs : list output) : Prop :=
  next_correlation c' = next_correlation c ∧ sent outs = [].

Lemma quiet_trans c1 c2 c3 o1 o2 : quiet c1 c2 o1 → quiet c2 c3 o2 → quiet c1 c3 (o1 ++ o2).
Proof. intros [E1 S1] [E2 S2]. split; [congruence|]. by rewrite sent_app, S1, S2. Qed.

Lemma fail_all_quiet c c' outs : fail_all c = (c', outs) → quiet c c' outs.
Proof.
  intros [= <- <-]. split; [done|].
  induction (map_to_list (in_flight c)) as [|kp l IH]; [done|]. by rewrite fmap_cons.
Qed.

Lemma drop_call_quiet c cid mid c' outs : drop_call c cid mid = (c', outs) → quiet c c' outs.
Proof.
  unfold drop_call, write_guard. destruct mid; [|by intros [= <- <-]].
  destruct (fail_all c) as [c1 o1] eqn:E. intros [= <- <-].
  destruct (fail_all_quiet _ _ _ E). by split.
Qed.

Lemma read_response_quiet c frame r c' outs :
  read_response c frame = (r, c', outs) → quiet c c' outs.
Proof.
  unfold read_response. destruct (peek_correlation_id frame) as [cid|]; [|by intros [= <- <- <-]].
  destruct (in_flight c !! cid); [|by intros [= <- <- <-]]. cbv zeta. intros H.
  by inversion H.
Qed.

Lemma register_numbered n c caller k v body outs r c' :
  numbered n c outs → 0 ≤ n → register c caller k v body = (r, c') →
  ∃ n', n ≤ n' ≤ n + 1 ∧ numbered n' c'
    (outs ++ match r with
             | Ok (cid, framed) => [Sent caller cid framed]
             | Err e => [Reply caller (Err e)]
             end).
Proof.
  intros Hn H0 H. assert (∃ n', n ≤ n' ≤ n + 1 ∧ ∀ e, numbered n' c (outs ++ [Reply caller (Err e)]))
    as (n0 & Hn0 & Hsame).
  { exists n. split; [lia|]. intros e. by eapply numbered_outs. }
  unfold register in H.
  destruct (request_header_version k v); [|injection H as <- <-; by eauto].
  destruct (Registry.response_header_version k v); [|injection H as <- <-; by eauto].
  destruct Hn as (E & ks & Es & Hnd & Hf).
  assert (Forall (λ k, 0 ≤ k < n + 1) ks) as Hf'.
  { eapply Forall_impl; [exact Hf|]. intros k' Hk'. cbv beta in *. lia. }
  exists (n + 1). split; [lia|].
  destruct (request_frame _ _ _ _ _ _); injection H as <- <-; unfold numbered;
    rewrite sent_app; cbn [set_next set_in_flight next_correlation];
    rewrite E, correlation_next; (split; [done|]).
  - exists (ks ++ [n]). rewrite fmap_app, Es, fmap_app. split_and!; [done| |].
    + apply NoDup_app. split_and!; [done| |apply NoDup_singleton].
      intros k' Hk ->%list_elem_of_singleton. apply (proj1 (Forall_forall _ _) Hf) in Hk. lia.
    + apply Forall_app. split; [done|]. apply Forall_singleton. lia.
  - exists ks. by rewrite app_nil_r.
Qed.

Lemma step_numbered n e s outs s' new :
  numbered n (conn s) outs → 0 ≤ n → step s e = (s', new) →
  ∃ n', n ≤ n' ≤ n + 1 ∧ numbered n' (conn s') (outs ++ new).
Proof.
  intros Hn H0 H.
  assert (quiet (conn s) (conn s') new →
    ∃ n', n ≤ n' ≤ n + 1 ∧ numbered n' (conn s') (outs ++ new)) as Hsame.
  { intros [E1 E2]. exists n. split; [lia|]. by eapply numbered_outs. }
  destruct e as [caller k v body|caller|cid|cid mid|cid mid|frame|]; cbn [step] in H.
  - by destruct (closed (conn s)); injection H as <- <-; apply Hsame.
  - destruct (begun s !! caller) as [[[k v] body]|]; [|by injection H as <- <-; apply Hsame].
    destruct (register _ _ _ _ _) as [r c] eqn:Er. injection H as <- <-.
    by eapply register_numbered.
  - injection H as <- <-. by apply Hsame.
  - destruct (drop_call _ _ _) as [c o] eqn:E. injection H as <- <-.
    by eapply Hsame, drop_call_quiet.
  - destruct (drop_call _ _ _) as [c o] eqn:E. destruct (fail_all c) as [c' o'] eqn:E'.
    injection H as <- <-. eapply Hsame, quiet_trans; [by eapply drop_call_quiet|].
    by eapply fail_all_quiet.
  - destruct (reading s); [|by injection H as <- <-; apply Hsame].
    destruct (read_response _ _) as [[r c] o] eqn:Er. apply read_response_quiet in Er.
    destruct r; [by injection H as <- <-; apply Hsame|].
    destruct (fail_all c) as [c' o'] eqn:E'. injection H as <- <-.
    eapply Hsame, quiet_trans; [done|]. by eapply fail_all_quiet.
  - destruct (reading s); [|by injection H as <- <-; apply Hsame].
    destruct (fail_all _) as [c' o'] eqn:E'. injection H as <- <-. by eapply Hsame, fail_all_quiet.
Qed.

Lemma run_routed : ∀ es' es s outs s' new n,
  routed es (in_flight (conn s)) (begun s) outs → NoDup (callers (es ++ es')) →
  numbered n (conn s) outs → 0 ≤ n →
  run s es' = (s', new) →
  routed (es ++ es') (in_flight (conn s')) (begun s') (outs ++ new) ∧
  ∃ n', n' ≤ n + len es' ∧ numbered n' (conn s') (outs ++ new).
Proof.
  induction es' as [|e es' IH]; intros es s outs s' new n Hr Hnd Hn H0 H; cbn [run] in H.
  - injection H as <- <-. rewrite !app_nil_r. split; [done|]. exists n. split; [cbn [length]; lia|done].
  - destruct (step s e) as [s1 o1] eqn:E1. destruct (run s1 es') as [s2 o2] eqn:E2.
    injection H as <- <-. rewrite (cons_middle e es es'), app_assoc in Hnd |- *.
    rewrite app_assoc.
    destruct (step_numbered _ _ _ _ _ _ Hn H0 E1) as (n1 & Hle & Hn1).
    destruct (IH (es ++ [e]) s1 (outs ++ o1) s2 o2 n1) as (H1 & n2 & Hn2 & H2); try done; [|lia|].
    + eapply step_routed; [done| |done]. rewrite callers_app in Hnd. by apply NoDup_app in Hnd as (Hnd & _).
    + split; [done|]. exists n2. split; [cbn [length]; lia|done].
Qed.

Lemma initial_routed client : routed [] (in_flight (conn (initial client))) (begun (initial client)) [].
Proof.
  unfold initial, new_connection. cbn [conn in_flight begun]. split.
  - intros cid p H. by rewrite lookup_empty in H.
  - intros cid cid' p p' H. by rewrite lookup_empty in H.
  - intros caller [x H]. by rewrite lookup_empty in H.
  - intros caller [H|H]; by apply not_elem_of_nil in H.
  - constructor.
  - constructor.
  - intros caller r H. by apply not_elem_of_nil in H.
Qed.

Lemma initial_numbered client : numbered 0 (conn (initial client)) [].
Proof. split; [done|]. exists []. repeat constructor. Qed.

(** ** Properties *)

(** C7: no response is misrouted.  However calls, failures, timeouts,
    cancellations and arriving frames interleave on a connection, every caller is
    answered at most once; and a caller that gets a body gets the body of a
    frame that arrived, whose correlation id is the one that caller's request was
    sent under.  Among the first [2 ^ 32] steps no two requests share one. *)
Theorem responses_reach_their_callers (client : string) (es : list event) (s : System)
    (outs : list output) :
  NoDup (callers es) → run (initial client) es = (s, outs) →
  NoDup (replied outs) ∧
  (∀ caller r, Reply caller r ∈ outs → justified es outs caller r) ∧
  NoDup (sent outs).*1 ∧
  (len es ≤ 2 ^ 32 → NoDup (sent outs).*2).
Proof.
  intros Hnd H.
  destruct (run_routed es [] (initial client) [] s outs 0) as (Hr & n & Hn & Hnum); try done.
  - apply initial_routed.
  - apply initial_numbered.
  - cbn [app] in *. split_and!; [apply Hr|apply Hr|apply Hr|]. intros Hl.
    eapply numbered_unique; [|done]. lia.
Qed.

Lemma fail_all_answers c c' outs cid p :
  fail_all c = (c', outs) → in_flight c !! cid = Some p →
  Reply (reply p) (Err ConnectionClosed) ∈ outs.
Proof.
  intros [= <- <-] Hp. apply list_elem_of_fmap. exists (cid, p). split; [done|].
  by apply elem_of_map_to_list.
Qed.

Lemma read_response_err c frame e c' outs :
  read_response c frame = (Err e, c', outs) → c' = c ∧ outs = [].
Proof.
  unfold read_response. destruct (peek_correlation_id frame); [|by intros [= _ <- <-]].
  destruct (in_flight c !! _); [|by intros [= _ <- <-]]. cbv zeta. intros H. by inversion H.
Qed.

Lemma read_response_closed c frame r c' outs :
  read_response c frame = (r, c', outs) → closed c' = closed c.
Proof.
  unfold read_response. destruct (peek_correlation_id frame); [|by intros [= _ <- _]].
  destruct (in_flight c !! _); [|by intros [= _ <- _]]. cbv zeta. intros H. by inversion H.
Qed.

Lemma register_closed c caller k v body : closed (register c caller k v body).2 = closed c.
Proof. unfold register. by repeat case_match. Qed.

(** A step that closes the connection, whatever it is: a failed reader, a
    response nobody asked for, a timeout or a write cut short. *)
Lemma closing_step s e s' new :
  step s e = (s', new) → closed (conn s) = false → closed (conn s') = true →
  in_flight (conn s') = ∅ ∧
  ∀ cid p, in_flight (conn s) !! cid = Some p → e ≠ TimesOut cid false →
    Reply (reply p) (Err ConnectionClosed) ∈ new.
Proof.
  intros H Ho Hc. destruct e as [caller k v body|caller|cid|cid mid|cid mid|frame|]; cbn [step] in H.
  - rewrite Ho in H. injection H as <- <-. cbn in Hc. congruence.
  - exfalso. destruct (begun s !! caller) as [[[k v] body]|]; [|injection H as <- <-; congruence].
    pose proof (register_closed (conn s) caller k v body) as E.
    destruct (register _ _ _ _ _) as [r c]. injection H as <- <-. cbn in *. congruence.
  - injection H as <- <-. cbn in Hc. congruence.
  - unfold drop_call, write_guard in H. destruct mid.
    + destruct (fail_all (conn s)) as [c o] eqn:E. injection H as <- <-. split.
      * injection E as <- _. cbn. by rewrite delete_empty.
      * intros. by eapply fail_all_answers.
    + injection H as <- <-. cbn in Hc. congruence.
  - unfold drop_call, write_guard in H. destruct mid.
    + destruct (fail_all (conn s)) as [c o] eqn:E.
      destruct (fail_all (in_flight_guard c cid)) as [c' o'] eqn:E'. injection H as <- <-. split.
      * by injection E' as <- _.
      * intros. apply elem_of_app. left. by eapply fail_all_answers.
    + destruct (fail_all (in_flight_guard (conn s) cid)) as [c' o'] eqn:E'. injection H as <- <-.
      split; [by injection E' as <- _|]. intros cid' p Hp Hne. cbn [app].
      eapply fail_all_answers; [done|]. cbn. rewrite lookup_delete_ne; [done|]. by intros ->.
  - destruct (reading s); [|injection H as <- <-; congruence].
    destruct (read_response _ _) as [[r c] o] eqn:Er. destruct r as [u|err].
    + apply read_response_closed in Er. injection H as <- <-. cbn in Hc. congruence.
    + apply read_response_err in Er as [-> ->]. destruct (fail_all _) as [c' o'] eqn:E'.
      injection H as <- <-. split; [by injection E' as <- _|]. intros. by eapply fail_all_answers.
  - destruct (reading s); [|injection H as <- <-; congruence].
    destruct (fail_all _) as [c' o'] eqn:E'. injection H as <- <-.
    split; [by injection E' as <- _|]. intros. by eapply fail_all_answers.
Qed.

Lemma step_stays_closed s e : closed (conn s) = true → closed (conn (step s e).1) = true.
Proof.
  intros H. destruct e as [caller k v body|caller|cid|cid mid|cid mid|frame|]; cbn [step].
  - by rewrite H.
  - destruct (begun s !! caller) as [[[k v] body]|]; [|done].
    pose proof (register_closed (conn s) caller k v body) as E.
    destruct (register _ _ _ _ _) as [r c]. cbn in *. congruence.
  - done.
  - by destruct mid.
  - by destruct mid.
  - destruct (reading s); [|done]. destruct (read_response _ _) as [[r c] o] eqn:Er.
    apply read_response_closed in Er. destruct r; [cbn; congruence|done].
  - by destruct (reading s).
Qed.

Lemma run_stays_closed es : ∀ s, closed (conn s) = true → closed (conn (run s es).1) = true.
Proof.
  induction es as [|e es IH]; intros s H; [done|]. cbn [run].
  pose proof (step_stays_closed s e H) as H1. destruct (step s e) as [s1 o1].
  specialize (IH s1 H1). by destruct (run s1 es) as [s2 o2].
Qed.

(** A connection fails for everyone and for good.  Whatever step closes it
    -- a lost or violated stream, a response nobody asked for, a timeout, a write
    cut short -- answers every registered caller with "connection closed", but
    for the one whose own timeout it is, and leaves the table empty; no later
    step reopens it, and a call that begins then is refused. *)
Theorem failure_answers_every_waiter (s : System) (e : event) (s' : System) (new : list output)
    (later : list event) :
  step s e = (s', new) → closed (conn s) = false → closed (conn s') = true →
  in_flight (conn s') = ∅ ∧
  (∀ cid p, in_flight (conn s) !! cid = Some p → e ≠ TimesOut cid false →
     Reply (reply p) (Err ConnectionClosed) ∈ new) ∧
  (let s'' := (run s' later).1 in
   closed (conn s'') = true ∧ ∀ caller k v body,
     step s'' (Begins caller k v body) = (s'', [Reply caller (Err ConnectionClosed)])).
Proof.
  intros H Ho Hc. destruct (closing_step _ _ _ _ H Ho Hc) as [H1 H2]. split_and!; [done|done|].
  cbv zeta. pose proof (run_stays_closed later s' Hc) as Hs. split; [done|].
  intros caller k v body. cbn [step]. by rewrite Hs.
Qed.

End routing.

(** ** Exchanges *)

Section exchange.
Context {R : Runtime}.

(** A response header without tagged fields, as a broker writes it. *)
Definition response_header (v cid : Z) : list byte :=
  be_bytes 4 cid ++ (if v =? 1 then [Byte.x00] else []).

Lemma response_header_reads v cid rest :
  is_i32 cid → v = 0 ∨ v = 1 →
  enc_bytes (ResponseHeader.encode v (ResponseHeader.mk cid [])) = Ok (response_header v cid) ∧
  ResponseHeader.decode v (response_header v cid ++ rest) = Ok (ResponseHeader.mk cid [], rest) ∧
  peek_correlation_id (response_header v cid ++ rest) = Ok cid.
Proof.
  intros Hc Hv. unfold response_header. split; [by destruct Hv as [-> | ->]|]. split.
  - unfold ResponseHeader.decode, with_default_limits, with_limits, ResponseHeader.decode_with_budget.
    unfold bdec_bind at 1, lift at 1. rewrite <- app_assoc, (gets_i32 _ Hc).
    by destruct Hv as [-> | ->].
  - unfold peek_correlation_id. rewrite <- app_assoc, !length_app, be_bytes_length.
    destruct (Z.ltb_spec (Z.of_nat (4 + (length (if v =? 1 then [Byte.x00] else []) + length rest))) 4);
      [lia|].
    rewrite take_app_exact by (by rewrite be_bytes_length). rewrite be_val_bytes.
    change (256 ^ Z.of_nat 4) with (2 ^ 32). by rewrite sint_wrap, sint_small by int_lia.
Qed.

Lemma header_versions k version hv rv :
  request_header_version k version = Some hv → Registry.response_header_version k version = Some rv →
  is_i16 k ∧ (rv = 0 ∨ rv = 1).
Proof.
  unfold request_header_version, Registry.response_header_version. intros H1 H2. split.
  - destruct (request_is_flexible k version) eqn:E; [|done].
    destruct (proj1 (flexible_iff_supported k version)) as [r Hr]; [by rewrite E|].
    apply supported_in_table in Hr. clear H1 H2 E. revert k Hr.
    refine (proj1 (Forall_forall is_i16 _) _). unfold table_keys. by repeat constructor.
  - destruct (k =? _); [simplify_eq; auto|].
    destruct (request_is_flexible k version) as [[]|]; simplify_eq; auto.
Qed.

(** A frame that was written holds what its payload encoded. *)
Lemma frame_written w bs out :
  encodes w bs → enc_bytes (frame w) = Ok out → out = framed bs ∧ len bs ≤ i32_max.
Proof.
  intros Hw H. destruct (decide (len bs ≤ i32_max)) as [Hl|Hl].
  - rewrite (encodes_bytes _ _ (encodes_frame _ _ Hw Hl)) in H. by injection H as <-.
  - unfold enc_bytes, frame, frame_in_place, enc_seq, put_i32, put_int, put_slice in H.
    rewrite Hw, !length_app, be_bytes_length in H. cbn [length] in H.
    replace (Z.of_nat (0 + 4 + length bs) - Z.of_nat 0 - 4) with (len bs) in H by lia.
    destruct (try_from i32_min i32_max (len bs)) as [n|] eqn:E; [|done].
    apply try_from_Some in E as [_ E]. int_lia.
Qed.

(** An exchange.  When a request of any type registers, what it writes is
    one frame: a peer that splits it and reads the header at the version the
    registry derives finds the api, the version, the correlation id and the
    client, and the body it decodes is the request.  And when the response of
    any type arrives under that correlation id, behind the header the registry
    derives, the caller is answered with exactly its body, its entry leaves the
    table, and the body decodes whole to the response, unless the allocation
    policy refuses it. *)
Theorem exchange_round_trips {Req Resp} `{Message Req, Message Resp} (c c' : Connection)
    (caller : nat) (k version cid now : Z) (x : Req) (y : Resp) (body framed : list byte) :
  is_i16 version → is_i32 (next_correlation c) → str_ok false (client_id c) →
  Message.MIN_VERSION (M := Req) ≤ version ≤ Message.MAX_VERSION (M := Req) →
  Message.MIN_VERSION (M := Resp) ≤ version ≤ Message.MAX_VERSION (M := Resp) →
  Message.valid version x → Message.valid version y →
  enc_bytes (Message.encode version x) = Ok body →
  register c caller k version body = (Ok (cid, framed), c') →
  ∃ hv rv header reply_body,
    request_header_version k version = Some hv ∧
    Registry.response_header_version k version = Some rv ∧
    try_split framed i32_max = Ok (Some (header ++ body), []) ∧
    (reliable R →
       RequestHeader.decode_with_limits hv Limits.UNLIMITED (header ++ body) =
         Ok (RequestHeader.mk k version cid (Some (client_id c)) [], body) ∧
       Message.decode_with_limits version Limits.UNLIMITED body = Ok (x, [])) ∧
    enc_bytes (Message.encode version y) = Ok reply_body ∧
    read_response c' (response_header rv cid ++ reply_body) =
      (Ok tt, in_flight_guard c' cid, [Reply caller (Ok reply_body)]) ∧
    ((decode_body c' now version reply_body).1 = Ok y ∨
     ∃ e, (decode_body (M := Resp) c' now version reply_body).1 = Err (Decode e) ∧ is_alloc_error e).
Proof.
  intros Hver Hcid Hclient Hvx Hvy Hx Hy Hbody Hreg. unfold register in Hreg.
  destruct (request_header_version k version) as [hv|] eqn:Ehv; [|done].
  destruct (Registry.response_header_version k version) as [rv|] eqn:Erv; [|done].
  destruct (header_versions _ _ _ _ Ehv Erv) as [Hk Hrv].
  destruct (request_frame _ _ _ _ _ _) as [f|] eqn:Ef; [|done]. injection Hreg as <- -> <-.
  cbn [client_id set_next next_correlation] in Ef. set (cid := next_correlation c) in *.
  assert (RequestHeader.valid hv (RequestHeader.mk k version cid (Some (client_id c)) [])) as Hh.
  { unfold RequestHeader.valid. split_and!; try done.
    destruct (request_header.is_flexible hv); [by repeat constructor|done]. }
  destruct (RequestHeader.request_header_RequestHeader_agrees hv _ Hh) as (header & He & Hd).
  destruct (Message.agrees R version y Hvy Hy) as (reply_body & Hye & Hyd).
  destruct (Message.roundtrip version x Hvx Hx) as (body' & Hb' & _ & Hxd).
  rewrite Hbody in Hb'. injection Hb' as <-.
  apply (frame_written _ (header ++ body)) in Ef as [-> Hlen];
    [|apply encodes_seq; [exact He|apply encodes_slice]].
  exists hv, rv, header, reply_body. split_and!; [done|done| | | | |].
  - rewrite <- (app_nil_r (framed _)). by apply try_split_framed.
  - intros Hrel. split.
    + destruct (pairs_entry _ _ _ (ex_intro _ header (conj He Hd))) as (h' & Hh' & _ & Hu).
      rewrite (encodes_bytes _ _ He) in Hh'. injection Hh' as <-. by apply Hu.
    + specialize (Hxd Hrel []). by rewrite app_nil_r in Hxd.
  - by apply encodes_bytes.
  - destruct (response_header_reads rv cid reply_body Hcid Hrv) as (_ & Hdec & Hpeek).
    unfold read_response. rewrite Hpeek. cbn [in_flight set_in_flight].
    rewrite lookup_insert_eq. cbn [response_header_version reply]. by rewrite Hdec.
  - destruct (pairs_entry _ _ _ (ex_intro _ reply_body (conj Hye Hyd))) as (b' & Hb' & Hany & _).
    rewrite (encodes_bytes _ _ Hye) in Hb'. injection Hb' as <-.
    specialize (Hany [] Limits.default). rewrite app_nil_r in Hany.
    unfold decode_body, Message.decode, with_default_limits.
    destruct Hany as [->|(e & -> & Ha)]; [by left|]. right. by exists e.
Qed.

End exchange.

(** A peer's declared length is never allocated on its word: reading a body
    of [n] bytes holds at any moment at most 64 KiB more than what has arrived,
    gives exactly the first [n] bytes and leaves the rest when they all arrive,
    and otherwise fails. *)
Theorem frame_body_is_bounded (n : Z) (arrived : list byte) :
  0 ≤ n →
  let '(r, high) := read_frame_body (S (Z.to_nat n)) n [] arrived in
  high ≤ len arrived + FRAME_CHUNK ∧
  r = (if n <=? len arrived then Ok (take (Z.to_nat n) arrived, drop (Z.to_nat n) arrived)
       else Err (Io "unexpected end of file")).
Proof.
  intros Hn. pose proof (read_frame_body_spec n (S (Z.to_nat n)) [] arrived) as H.
  cbn [length app] in H. specialize (H ltac:(lia) ltac:(lia)).
  destruct (read_frame_body _ _ _ _) as [r high]. destruct H as (_ & H & Hr).
  rewrite Z.sub_0_r in Hr. split; [lia|]. by destruct (n <=? len arrived).
Qed.

(** *** Witnesses *)

(** Two callers, answered out of order; then a stray frame ends the connection. *)
Definition two_calls : list event :=
  [Begins 1 18 0 []; Begins 2 18 0 [Byte.x07]; Registers 1; Registers 2;
   Arrives (be_bytes 4 2 ++ [Byte.x42]); Arrives (be_bytes 4 1 ++ [Byte.x41]); Arrives [Byte.x00]].

Lemma responses_reach_their_callers_witness :
  NoDup (replied (run (R := plain_runtime) (initial "c") two_calls).2) ∧
  Reply 2 (Ok [Byte.x42]) ∈ (run (R := plain_runtime) (initial "c") two_calls).2.
Proof.
  split; [|vm_compute; repeat (first [apply elem_of_cons; left; reflexivity|
    apply elem_of_cons; right])].
  apply (responses_reach_their_callers (R := plain_runtime) "c" two_calls
    (run (R := plain_runtime) (initial "c") two_calls).1
    (run (R := plain_runtime) (initial "c") two_calls).2).
  - refine (bool_decide_unpack _ _). vm_compute. exact I.
  - apply surjective_pairing.
Defined.

Lemma failure_answers_every_waiter_witness :
  Reply 1 (Err ConnectionClosed) ∈
    (step (R := plain_runtime) (run (R := plain_runtime) (initial "c") (take 4 two_calls)).1 ReadFails).2.
Proof.
  destruct (failure_answers_every_waiter (R := plain_runtime)
    (run (R := plain_runtime) (initial "c") (take 4 two_calls)).1 ReadFails
    (step (R := plain_runtime) (run (R := plain_runtime) (initial "c") (take 4 two_calls)).1 ReadFails).1
    (step (R := plain_runtime) (run (R := plain_runtime) (initial "c") (take 4 two_calls)).1 ReadFails).2
    []) as (_ & H & _).
  - apply surjective_pairing.
  - vm_compute. reflexivity.
  - vm_compute. reflexivity.
  - refine (H 1 (mkPending 0 1) _ _); [vm_compute; reflexivity|discriminate].
Defined.

(** A fetch: the sample response under the first correlation id. *)
Definition fetch_call : fetch_request.FetchRequest.t :=
  fetch_request.FetchRequest.mk (-1) 500 1 1048576 0 0 (-1)
    [fetch_request.FetchTopic.mk "" (replicate 16 Byte.x2a)
       [fetch_request.FetchPartition.mk 3 0 990 (-1) (-1) 65536 None None []] []]
    [] "" None None [].

Definition fetch_body : list byte :=
  match enc_bytes (fetch_request.FetchRequest.encode 16 fetch_call) with Ok bs => bs | Err _ => [] end.

Lemma exchange_round_trips_witness :
  ∃ framed c', register (new_connection "odradek") 7 1 16 fetch_body = (Ok (1, framed), c') ∧
  ∃ rv reply_body,
    read_response (R := plain_runtime) c' (response_header rv 1 ++ reply_body) =
      (Ok tt, in_flight_guard c' 1, [Reply 7 (Ok reply_body)]).
Proof.
  destruct (register (new_connection "odradek") 7 1 16 fetch_body) as [[[cid framed]|e] c'] eqn:E.
  2: { vm_compute in E. discriminate E. }
  assert (cid = 1) as -> by (vm_compute in E; injection E; auto).
  exists framed, c'. split; [reflexivity|].
  destruct (exchange_round_trips (R := plain_runtime) (new_connection "odradek") c' 7 1 16 1 0
    fetch_call sample_response fetch_body framed) as (hv & rv & header & reply_body & _ & _ & _ & _ & _ & H & _).
  - vm_compute. split; discriminate.
  - vm_compute. split; discriminate.
  - valid_sample.
  - vm_compute. split; discriminate.
  - vm_compute. split; discriminate.
  - valid_sample.
  - valid_sample.
  - vm_compute. reflexivity.
  - exact E.
  - exists rv, reply_body. exact H.
Defined.

Lemma frame_body_is_bounded_witness :
  let '(r, high) := read_frame_body 3 2 [] [Byte.x01; Byte.x02; Byte.x03] in
  high ≤ 3 + FRAME_CHUNK ∧ r = Ok ([Byte.x01; Byte.x02], [Byte.x03]).
Proof. exact (frame_body_is_bounded 2 [Byte.x01; Byte.x02; Byte.x03] ltac:(lia)). Defined.
