(* ===== verification/Exchange.v ===== *)
(** * Calls to a broker

    What the producer, the consumer and the transaction and group calls share:
    a broker found through the cluster, a version both sides speak, one
    request and its decoded response, and the retry loop around it. *)
From S2P Require Import Prelude Budget Codec MessageTrait Registry ClientError Negotiate.

(** A computation on the world that may fail. *)
Definition io (W A : Type) : Type := W → result ClientError A * W.

Definition io_ret {W A} (a : A) : io W A := λ w, (Ok a, w).
Definition io_fail {W A} (e : ClientError) : io W A := λ w, (Err e, w).
Definition io_of {W A} (r : result ClientError A) : io W A := λ w, (r, w).
Definition io_do {W} (f : W → W) : io W unit := λ w, (Ok tt, f w).
Definition io_bind {W A B} (m : io W A) (k : A → io W B) : io W B := λ w,
  match m w with
  | (Ok a, w) => k a w
  | (Err e, w) => (Err e, w)
  end.

Notation "'let^' x ':=' m 'in' k" := (io_bind m (fun x => k))
  (at level 10, x pattern, m at level 100, k at level 200) : odradek_scope.

(** Calls of an object that has a state of its own beside the world's. *)
Definition lift {S W A} (m : io W A) : io (S * W) A := λ '(s, w), let '(r, w) := m w in (r, (s, w)).
Definition this {S W} : io (S * W) S := λ c, (Ok c.1, c).
Definition update {S W} (f : S → S) : io (S * W) unit := λ '(s, w), (Ok tt, (f s, w)).
Definition on_world {S W} (f : W → W) : S * W → S * W := λ '(s, w), (s, f w).

(** A leased connection: given back when the exchange on it has completed,
    dropped on any error before. *)
Definition with_lease {W A} (keep drop : W → W) (m : io W A) : io W A := λ w,
  match m w with
  | (Ok a, w) => (Ok a, keep w)
  | (Err e, w) => (Err e, drop w)
  end.

Lemma io_bind_ok {W A B} (m : io W A) (k : A → io W B) w b w' :
  io_bind m k w = (Ok b, w') ↔ ∃ a w1, m w = (Ok a, w1) ∧ k a w1 = (Ok b, w').
Proof.
  unfold io_bind. destruct (m w) as [[a|e] w1]; split.
  - intros H. by exists a, w1.
  - by intros (? & ? & [= -> ->] & ?).
  - done.
  - by intros (? & ? & [=] & _).
Qed.

Lemma io_of_ok {W A} (r : result ClientError A) (w : W) a w' :
  io_of r w = (Ok a, w') ↔ r = Ok a ∧ w' = w.
Proof. unfold io_of. split; [by intros [= -> <-]|by intros [-> ->]]. Qed.

(** Connections to brokers: what each speaks, one request on it, and the
    throttle a response carries. *)
Class Brokers (W : Type) : Type := mkBrokers {
  handle : Type;
  handle_ranges : handle → ApiVersionRanges;
  send : handle → Z → Z → list byte → io W (list byte);
  note_throttled : handle → Z → W → W;
}.

(** What the callers take from [cluster.rs]: finding a broker, and what an
    error makes the cluster forget. *)
Class Cluster (W : Type) : Type := mkCluster {
  cluster_brokers :: Brokers W;
  partition_leader : string → Z → io W handle;
  transaction_coordinator : string → io W handle;
  group_coordinator : string → io W handle;
  control_broker : io W handle;
  (** Leased connections, for requests that park: given back clean, or
      dropped. *)
  blocking_partition_leader : string → Z → io W handle;
  blocking_coordinator : string → io W handle;
  release : handle → W → W;
  discard : handle → W → W;
  leader_id : string → Z → W → option Z;
  forget_broker : Z → W → W;
  mark_partition_stale : string → Z → W → W;
  forget_coordinator : string → W → W;
  forget_transaction_coordinator : string → W → W;
  partition_count : string → W → option Z;
  topic_name_by_id : list byte → W → option string;
  refresh_metadata : list string → io W unit;
  now_ms : W → Z;
  entropy : W → Z * Z;
}.

Section exchange.
Context {R : Runtime} {W : Type} `{Brokers W}.

(** [conn::decode_body]. *)
Definition decode_response {M} `{Message M} (b : handle) (version : Z) (body : list byte) : io W M :=
  let^ (message, rest) := io_of (map_err Decode (Message.decode version body)) in
  let^ _ := io_do (match Message.throttle_time_ms message with
                   | Some ms => note_throttled b ms
                   | None => id
                   end) in
  match rest with
  | [] => io_ret message
  | _ => io_fail (ProtocolViolation "undecoded byte(s)")
  end.

(** One request at a version, and the response's body; [on_error] runs when
    the connection fails it. *)
Definition ask {Req} `{Message Req} (on_error : ClientError → W → W) (b : handle) (version : Z)
    (request : Req) : io W (list byte) :=
  let^ body := io_of (map_err Encode (enc_bytes (Message.encode version request))) in
  λ w,
    match send b (Message.API_KEY (M := Req)) version body w with
    | (Err e, w) => (Err e, on_error e w)
    | answered => answered
    end.

(** The newest version both sides speak. *)
Definition pick_version Req `{Message Req} (b : handle) (supported : Z * Z) : io W Z :=
  io_of (pick (handle_ranges b) (Message.API_KEY (M := Req)) supported).

Definition exchange_with {Req Resp} `{Message Req} `{Message Resp} (on_error : ClientError → W → W)
    (b : handle) (supported : Z * Z) (request : Req) : io W Resp :=
  let^ version := pick_version Req b supported in
  let^ resp := ask on_error b version request in
  decode_response b version resp.

Definition exchange {Req Resp} `{Message Req} `{Message Resp} (b : handle) (supported : Z * Z)
    (request : Req) : io W Resp :=
  exchange_with (λ _ w, w) b supported request.

Definition broker_code (code : Z) : result ClientError unit :=
  if error_code.is_ok code then Ok tt else Err (Broker code).

Lemma broker_accepts code u : broker_code code = Ok u → error_code.is_ok code = true.
Proof. unfold broker_code. by destruct (error_code.is_ok code). Qed.

(** ** What a call that returns has done *)

Lemma ask_ok {Req} `{Message Req} on_error b version (request : Req) w resp w' :
  ask on_error b version request w = (Ok resp, w') →
  ∃ body, enc_bytes (Message.encode version request) = Ok body ∧
          send b (Message.API_KEY (M := Req)) version body w = (Ok resp, w').
Proof.
  intros (body & w1 & Hb & Hs)%io_bind_ok. injection Hb as Hb <-.
  destruct (enc_bytes _) as [body'|]; [|done]. injection Hb as ->. exists body. split; [done|].
  by destruct (send _ _ _ _ _) as [[]].
Qed.

Lemma decode_response_ok {M} `{Message M} b version body w (m : M) w' :
  decode_response b version body w = (Ok m, w') → Message.decode version body = Ok (m, []).
Proof.
  intros ([m' rest] & w1 & Hd & H1)%io_bind_ok. injection Hd as Hd <-.
  destruct (Message.decode version body) as [[m1 rest1]|]; [|done]. injection Hd as -> ->.
  apply io_bind_ok in H1 as ([] & w2 & _ & H1). destruct rest; [|done]. by injection H1 as -> _.
Qed.

(** [r] is the decoded response to [request] of some broker at some time. *)
Definition answered {Req Resp} `{Message Req} `{Message Resp} (request : Req) (r : Resp) : Prop :=
  ∃ b version body w resp w',
    enc_bytes (Message.encode version request) = Ok body ∧
    send b (Message.API_KEY (M := Req)) version body w = (Ok resp, w') ∧
    Message.decode version resp = Ok (r, []).

Lemma ask_answered {Req Resp} `{Message Req} `{Message Resp} on_error b version (request : Req)
    (r : Resp) w resp w1 w2 w' :
  ask on_error b version request w = (Ok resp, w1) →
  decode_response b version resp w2 = (Ok r, w') → answered request r.
Proof.
  intros (body & Hb & Hs)%ask_ok Hd%decode_response_ok. by exists b, version, body, w, resp, w1.
Qed.

Lemma exchange_answered {Req Resp} `{Message Req} `{Message Resp} b supported (request : Req)
    (r : Resp) w w' :
  exchange b supported request w = (Ok r, w') → answered request r.
Proof.
  intros (version & w1 & _ & He)%io_bind_ok. apply io_bind_ok in He as (resp & w2 & Ha & Hd).
  by eapply ask_answered.
Qed.

(** A broker that answers a request with a response it can encode is heard,
    unless the allocator refuses what decoding it takes. *)
Lemma exchange_responds {Req Resp} `{Message Req} `{Message Resp} b supported version (request : Req)
    (r : Resp) w w' :
  pick (handle_ranges b) (Message.API_KEY (M := Req)) supported = Ok version →
  Message.MIN_VERSION (M := Req) ≤ version ≤ Message.MAX_VERSION (M := Req) →
  Message.MIN_VERSION (M := Resp) ≤ version ≤ Message.MAX_VERSION (M := Resp) →
  Message.valid version request → Message.valid version r →
  Message.throttle_time_ms r = None →
  (∀ body resp, enc_bytes (Message.encode version request) = Ok body →
     enc_bytes (Message.encode version r) = Ok resp →
     send b (Message.API_KEY (M := Req)) version body w = (Ok resp, w')) →
  exchange b supported request w = (Ok r, w') ∨
  ∃ e, exchange (Resp := Resp) b supported request w = (Err (Decode e), w') ∧ is_alloc_error e.
Proof.
  intros Hp Hv1 Hv2 Hreq Hresp Ht Hs.
  destruct (Message.roundtrip _ _ Hv1 Hreq) as (body & Hb & _).
  destruct (Message.roundtrip _ _ Hv2 Hresp) as (resp & Hr & Hd & _).
  specialize (Hs body resp Hb Hr). specialize (Hd [] Limits.default). rewrite app_nil_r in Hd.
  unfold exchange, exchange_with, pick_version, io_bind, io_of. rewrite Hp. unfold ask, io_bind, io_of.
  rewrite Hb. cbn [map_err]. rewrite Hs. unfold decode_response, io_bind, io_of.
  unfold Message.decode, with_default_limits. unfold Message.decode_with_limits in Hd.
  destruct Hd as [Hd|(e & Hd & Ha)]; rewrite Hd; cbn [map_err].
  - left. rewrite Ht. done.
  - right. by exists e.
Qed.

End exchange.

(** ** Retries *)

(** [retry_loop], its backoff seeded from the thread's stream. *)
Definition retrying {C A} (seeds : C → Z * Z) (max_attempts : nat) (backoff : Z)
    (attempt : C → Attempt A * C) : io C A := λ c,
  let '(seed, rng) := seeds c in
  let '(r, c, _) := retry_loop attempt seed c max_attempts backoff rng in
  (r, c).

(** [retry_loop] with one of the classifications of [retry.rs], which forget
    what a retriable error makes doubtful. *)
Definition with_retries {W A} `{Cluster W} (max_attempts : nat) (backoff : Z) (forget : W → W) (attempt : io W A) :
    io W A :=
  retrying entropy max_attempts backoff (λ w, let '(r, w) := attempt w in classify forget r w).

(** A dead pooled connection is dropped. *)
Definition forget_dead {W} `{Cluster W} (leader : option Z) (e : ClientError) (w : W) : W :=
  match e with
  | ConnectionClosed | Io _ | Timeout _ =>
      match leader with Some id => forget_broker id w | None => w end
  | _ => w
  end.

Lemma lift_ok {S W A} (m : io W A) (s : S) w a c :
  lift m (s, w) = (Ok a, c) → ∃ w', m w = (Ok a, w') ∧ c = (s, w').
Proof. unfold lift. destruct (m w) as [r w']. intros [= -> <-]. by exists w'. Qed.

Lemma with_lease_ok {W A} keep drop (m : io W A) w a w' :
  with_lease keep drop m w = (Ok a, w') → ∃ w1, m w = (Ok a, w1) ∧ w' = keep w1.
Proof. unfold with_lease. destruct (m w) as [[r|] w1]; [|done]. intros [= -> <-]. by exists w1. Qed.

(** A retry loop returns what one of its attempts did, in a state that the
    attempts before it led to. *)
Lemma retrying_done {C A} seeds n backoff (attempt : C → Attempt A * C) (P : C → Prop) c a c' :
  P c → (∀ c1 e c2, P c1 → attempt c1 = (Retry e, c2) → P c2) →
  retrying seeds n backoff attempt c = (Ok a, c') →
  ∃ c1, P c1 ∧ attempt c1 = (Done a, c').
Proof.
  intros Hc Hstep. unfold retrying, retry_loop. destruct (seeds c) as [seed rng].
  generalize (Backoff.new backoff), ([] : list Z), true, (None : option ClientError).
  revert c rng Hc. induction n as [|n IH]; intros c rng Hc b slept first before Hr;
    cbn [retry_rounds] in Hr.
  { by destruct before. }
  destruct (if first then (b, rng, slept) else _) as [[b' rng'] slept'].
  destruct (attempt c) as [o c1] eqn:Ea. destruct o as [v|e|e].
  - exists c. injection Hr as -> ->. by rewrite Ea.
  - eapply IH; [|exact Hr]. by eapply Hstep.
  - done.
Qed.

(** What every attempt keeps, the loop keeps. *)
Lemma retrying_keeps {C A} seeds n backoff (attempt : C → Attempt A * C) (P : C → Prop) c r c' :
  P c → (∀ c1 o c2, P c1 → attempt c1 = (o, c2) → P c2) →
  retrying seeds n backoff attempt c = (r, c') → P c'.
Proof.
  intros Hc Hstep. unfold retrying, retry_loop. destruct (seeds c) as [seed rng].
  generalize (Backoff.new backoff), ([] : list Z), true, (None : option ClientError).
  revert c rng Hc. induction n as [|n IH]; intros c rng Hc b slept first before Hr;
    cbn [retry_rounds] in Hr.
  { by injection Hr as _ <-. }
  destruct (if first then (b, rng, slept) else _) as [[b' rng'] slept'].
  destruct (attempt c) as [o c1] eqn:Ea. assert (P c1) as Hc1 by by eapply Hstep.
  destruct o as [v|e|e]; [by injection Hr as _ <-|by eapply IH|by injection Hr as _ <-].
Qed.

Lemma with_retries_ok {W A} `{Cluster W} n backoff forget (attempt : io W A) w a w' :
  with_retries n backoff forget attempt w = (Ok a, w') → ∃ w1, attempt w1 = (Ok a, w').
Proof.
  intros (w1 & _ & Ha)%(retrying_done _ _ _ _ (λ _, True)); [|done|done].
  exists w1. destruct (attempt w1) as [[v|e] w2]; cbn in Ha; [by injection Ha as -> ->|].
  by destruct (is_retriable e).
Qed.

(** ** What a call leaves alone

    A relation between an object's states that every call of it keeps,
    whatever its outcome. *)

Definition preserves {S W A} (P : S → S → Prop) (m : io (S * W) A) : Prop :=
  ∀ s w r s' w', m (s, w) = (r, (s', w')) → P s s'.

Section preserves.
Context {S W : Type} (P : S → S → Prop) `{!PreOrder P}.

Lemma preserves_ret {A} (r : result ClientError A) : preserves P (@io_of (S * W) A r).
Proof. by intros s w ? s' w' [= _ <- _]. Qed.
Lemma preserves_this : preserves P (@this S W).
Proof. by intros s w ? s' w' [= _ <- _]. Qed.
Lemma preserves_lift {A} (m : io W A) : preserves P (@lift S W A m).
Proof. intros s w r s' w'. unfold lift. destruct (m w). by intros [= _ <- _]. Qed.
Lemma preserves_update (f : S → S) : (∀ s, P s (f s)) → preserves P (@update S W f).
Proof. by intros Hf s w r s' w' [= _ <- _]. Qed.

Lemma preserves_bind {A B} (m : io (S * W) A) (k : A → io (S * W) B) :
  preserves P m → (∀ a, preserves P (k a)) → preserves P (io_bind m k).
Proof.
  intros Hm Hk s w r s' w'. unfold io_bind. destruct (m (s, w)) as [[a|e] [s1 w1]] eqn:E.
  - intros H1. etrans; [by eapply Hm|by eapply Hk].
  - intros [= _ <- _]. by eapply Hm.
Qed.

Lemma preserves_with_lease {A} (keep drop : W → W) (m : io (S * W) A) :
  preserves P m → preserves P (with_lease (on_world keep) (on_world drop) m).
Proof.
  intros Hm s w r s' w'. unfold with_lease. destruct (m (s, w)) as [[a|e] [s1 w1]] eqn:E;
    intros [= _ <- _]; by eapply Hm.
Qed.

End preserves.

(** Walks down a call, bind by bind. *)
Ltac preserving :=
  repeat first
    [ apply preserves_bind; [exact _| |intros ?]
    | apply preserves_with_lease
    | apply preserves_lift, _ | apply preserves_this, _ | apply preserves_ret, _
    | apply preserves_update; by intros ?
    | match goal with |- preserves _ (if ?b then _ else _) => destruct b end ].
