(* ===== verification/Session.v ===== *)
(** * A connection made usable ([odradek-client/src/sasl.rs], and [dial] of
      [cluster.rs])

    What happens between a socket and a broker the client may use: the version
    exchange, then SASL inside SaslHandshake and SaslAuthenticate requests, all
    of it under one deadline.  Sockets, TLS and timers are the class [Network];
    the mechanisms are [Sasl.v]'s and [Scram.v]'s.

    The theorems about it are in [Authentication.v]. *)
From S2P Require Import Prelude Text Budget Codec Wire MessageTrait MsgConnection Registry ClientError Negotiate Exchange Sasl Scram.
Import sasl_handshake_request sasl_handshake_response.
Import sasl_authenticate_request sasl_authenticate_response.

(** Sockets and time: a TCP connection, with TLS when the configuration says
    so; a request's frames on it and the response's body; the clock; and a
    deadline over a computation, which yields what the computation does or
    nothing. *)
Class Network (connection W : Type) : Type := mkNetwork {
  connect : string → io W connection;
  is_encrypted : connection → bool;
  request : connection → Z → Z → list byte → io W (list byte);
  note_throttle : connection → Z → W → W;
  getrandom : W → option (list byte);
  deadline : ∀ {A}, io W A → W → option (result ClientError A) * W;
  deadline_keeps : ∀ A (m : io W A) w,
    deadline m w = (Some (m w).1, (m w).2) ∨ (deadline m w).1 = None;
}.

(** A negotiated connection. *)
Record Broker (connection : Type) : Type := mkBroker {
  conn : connection;
  ranges : ApiVersionRanges;
}.
Arguments mkBroker {connection}.
Arguments conn {connection}.
Arguments ranges {connection}.

#[export] Instance network_brokers {connection W} `{Network connection W} : Brokers W := {|
  handle := Broker connection;
  handle_ranges := ranges;
  send := λ b, request (conn b);
  note_throttled := λ b, note_throttle (conn b) |}.

(** ** Configuration *)

Record SaslConfig : Type := mkSaslConfig {
  sc_mechanism : Mechanism;
  sc_username : string;
  sc_password : string;
  token : option string;
  extensions : list (string * string);
}.

Definition new_sasl (mechanism : Mechanism) (username password : string) : SaslConfig :=
  mkSaslConfig mechanism username password None [].
Definition oauthbearer (token : string) : SaslConfig :=
  mkSaslConfig OAuthBearer "" "" (Some token) [].
Definition with_extension (s : SaslConfig) (key value : string) : SaslConfig :=
  mkSaslConfig (sc_mechanism s) (sc_username s) (sc_password s) (token s)
    (extensions s ++ [(key, value)]).

Definition MIN_SCRAM_ITERATIONS : Z := 4096.
Definition DEFAULT_MAX_SCRAM_ITERATIONS : Z := 1000000.

(** The fields of [ClientConfig] these files read. *)
Record ClientConfig : Type := mkClientConfig {
  bootstrap_servers : list string;
  blocking_idle_max : Z;
  allow_plaintext_credentials : bool;
  sasl : option SaslConfig;
  scram_max_iterations : Z;
}.

Open Scope string_scope.

(** [Display] of an error code. *)
Definition show_code (code : Z) : string :=
  match error_code.name code with
  | Some name => name ++ " (" ++ bytes_str (decimal.print code) ++ ")"
  | None => "unknown error code " ++ bytes_str (decimal.print code)
  end.

Definition show_sasl (e : SaslError) : string := bytes_str (display e).

Definition scram_error (e : SaslError) : ClientError :=
  match e with
  | IterationsTooLow _ _ | IterationsTooHigh _ _ | NonceNotExtended => ProtocolViolation (show_sasl e)
  | _ => ClientError.Sasl (show_sasl e)
  end.

Definition check_auth (resp : SaslAuthenticateResponse.t) : result ClientError unit :=
  let code := SaslAuthenticateResponse.error_code resp in
  if error_code.is_ok code then Ok tt
  else Err (ClientError.Sasl (show_code code ++
    match SaslAuthenticateResponse.error_message resp with Some m => ": " ++ m | None => "" end)).

(** [join(", ")]. *)
Definition comma_separated (l : list string) : string := String.concat ", " l.

Close Scope string_scope.

Section session.
Context {R : Runtime} {connection W : Type} `{Network connection W}.
Context `{Stringprep, Base64, Crypto}.
Context (pkg_version : string) (lossy : list byte → string).

Abbreviation Broker := (Broker connection).

(** One SaslAuthenticate request and response. *)
Definition sasl_round (b : Broker) (token : list byte) : io W SaslAuthenticateResponse.t :=
  exchange (Req := SaslAuthenticateRequest.t) (Resp := SaslAuthenticateResponse.t) b
    (SaslAuthenticateRequest.MIN_VERSION, SaslAuthenticateRequest.MAX_VERSION)
    (SaslAuthenticateRequest.mk token
      (SaslAuthenticateRequest.unknown_tagged_fields SaslAuthenticateRequest.default)).

(** [std::str::from_utf8] of what the server sent. *)
Definition server_text (what : string) (bytes : list byte) : result ClientError text :=
  if utf8_valid bytes then Ok bytes else Err (ClientError.Sasl what).

Definition scram (b : Broker) (s : SaslConfig) (mechanism : Mechanism) (limits : Limits) : io W unit :=
  λ w, (
  let^ client := io_of (map_err (λ e, ClientError.Sasl (show_sasl e))
    (new_client mechanism (str_bytes (sc_username s)) (str_bytes (sc_password s)) limits (getrandom w))) in
  let '(first, client) := client_first client in
  let^ resp := sasl_round b first in
  let^ _ := io_of (check_auth resp) in
  let^ server_first := io_of (server_text "server-first message is not utf-8"
    (SaslAuthenticateResponse.auth_bytes resp)) in
  let '(r, client) := client_final client server_first in
  let^ client_final := io_of (map_err scram_error r) in
  let^ resp := sasl_round b client_final in
  let^ _ := io_of (check_auth resp) in
  let^ server_final := io_of (server_text "server-final message is not utf-8"
    (SaslAuthenticateResponse.auth_bytes resp)) in
  io_of (map_err scram_error (verify_server_final client server_final))) w.

Definition plain_session (b : Broker) (s : SaslConfig) : io W unit :=
  let^ token := io_of (map_err scram_error
    (plain_token (str_bytes (sc_username s)) (str_bytes (sc_password s)))) in
  let^ resp := sasl_round b token in
  io_of (check_auth resp).

Definition oauthbearer_session (b : Broker) (s : SaslConfig) : io W unit :=
  match token s with
  | None =>
      io_fail (Config "OAUTHBEARER needs a token; build the config with SaslConfig::oauthbearer")
  | Some token =>
      let extensions := (λ kv : string * string, (str_bytes kv.1, str_bytes kv.2)) <$> extensions s in
      let^ message := io_of (map_err scram_error (oauthbearer_token (str_bytes token) extensions)) in
      let^ resp := sasl_round b message in
      let^ _ := io_of (check_auth resp) in
      match SaslAuthenticateResponse.auth_bytes resp with
      | [] => io_ret tt
      | reported => λ w,
          let '(_, w) := sasl_round b oauthbearer_failure_ack w in
          (Err (ClientError.Sasl ("broker rejected the bearer token: " +:+ lossy reported)), w)
      end
  end.

(** The handshake: the mechanism is named, and the broker takes it. *)
Definition handshake_round (b : Broker) (s : SaslConfig) : io W SaslHandshakeResponse.t :=
  exchange (Req := SaslHandshakeRequest.t) (Resp := SaslHandshakeResponse.t) b (1, 1)
    (SaslHandshakeRequest.mk (name (sc_mechanism s))
      (SaslHandshakeRequest.unknown_tagged_fields SaslHandshakeRequest.default)).

Definition handshake (b : Broker) (s : SaslConfig) : io W unit :=
  let^ resp := handshake_round b s in
  let code := SaslHandshakeResponse.error_code resp in
  if error_code.is_ok code then io_ret tt
  else io_fail (ClientError.Sasl ("broker rejected mechanism " +:+ name (sc_mechanism s) +:+ " (" +:+
    show_code code +:+ "); it offers: " +:+ comma_separated (SaslHandshakeResponse.mechanisms resp))).

Definition authenticate (b : Broker) (config : ClientConfig) : io W unit :=
  match sasl config with
  | None => io_ret tt
  | Some s =>
      if sends_password (sc_mechanism s) && negb (is_encrypted (conn b))
         && negb (allow_plaintext_credentials config)
      then io_fail (InsecureCredentials (name (sc_mechanism s)))
      else
        let^ _ := handshake b s in
        let limits := mkLimits MIN_SCRAM_ITERATIONS (scram_max_iterations config) in
        match sc_mechanism s with
        | Plain => plain_session b s
        | ScramSha256 => scram b s ScramSha256 limits
        | ScramSha512 => scram b s ScramSha512 limits
        | OAuthBearer => oauthbearer_session b s
        | other => io_fail (ClientError.Sasl ("this client cannot speak " +:+ name other +:+ " yet"))
        end
  end.

(** One connection establishment, bounded by [connect_timeout]. *)
Definition dial (addr : string) (config : ClientConfig) : io W Broker := λ w,
  let '(r, w) := deadline (
    let^ conn := connect addr in
    let^ ranges := negotiate (λ w k v body, request conn k v body w) pkg_version in
    let^ _ := authenticate (mkBroker conn ranges) config in
    io_ret (mkBroker conn ranges)) w in
  (default (Err (Timeout "connect")) r, w).

(** ** What an authenticated session knows *)

(** What the mechanism's own exchange has established. *)
Definition accepted_by_broker (config : ClientConfig) (s : SaslConfig) : Prop :=
  let user := str_bytes (sc_username s) in
  let pass := str_bytes (sc_password s) in
  let answered_ok token resp :=
    answered (SaslAuthenticateRequest.mk token []) resp ∧
    error_code.is_ok (SaslAuthenticateResponse.error_code resp) = true in
  match sc_mechanism s with
  | Plain => ∃ token resp, plain_token user pass = Ok token ∧ answered_ok token resp
  | ScramSha256 | ScramSha512 =>
      ∃ w0 client first challenge message final,
        new_client (sc_mechanism s) user pass
          (mkLimits MIN_SCRAM_ITERATIONS (scram_max_iterations config)) (getrandom w0) = Ok client ∧
        first = (client_first client).1 ∧ answered_ok first challenge ∧ answered_ok message final ∧
        signed_by_password (sc_mechanism s) pass client
          (SaslAuthenticateResponse.auth_bytes challenge) (SaslAuthenticateResponse.auth_bytes final)
  | OAuthBearer =>
      ∃ t token resp, sc_mechanism s = OAuthBearer ∧ Session.token s = Some t ∧
        oauthbearer_token (str_bytes t)
          ((λ kv : string * string, (str_bytes kv.1, str_bytes kv.2)) <$> extensions s) = Ok token ∧
        answered_ok token resp ∧ SaslAuthenticateResponse.auth_bytes resp = []
  | AwsMskIam => False
  end.

Lemma check_auth_ok resp u : check_auth resp = Ok u → error_code.is_ok (SaslAuthenticateResponse.error_code resp) = true.
Proof. unfold check_auth. by destruct (error_code.is_ok _). Qed.

Lemma server_text_ok what bytes t : server_text what bytes = Ok t → t = bytes.
Proof. unfold server_text. destruct (utf8_valid bytes); [|done]. by intros [= ->]. Qed.

(** One accepted round. *)
Lemma accepted_round b token w resp u w1 w2 w3 :
  sasl_round b token w = (Ok resp, w1) → @io_of W unit (check_auth resp) w2 = (Ok u, w3) →
  answered (SaslAuthenticateRequest.mk token []) resp ∧
  error_code.is_ok (SaslAuthenticateResponse.error_code resp) = true.
Proof. intros Ha%exchange_answered [Hc%check_auth_ok _]%io_of_ok. done. Qed.

Lemma scram_ok b config s m w w' :
  scram b s m (mkLimits MIN_SCRAM_ITERATIONS (scram_max_iterations config)) w = (Ok tt, w') →
  m = sc_mechanism s → sc_mechanism s = ScramSha256 ∨ sc_mechanism s = ScramSha512 →
  accepted_by_broker config s.
Proof.
  unfold scram. intros (client & w1 & (Hc%map_err_ok & ->)%io_of_ok & Hr)%io_bind_ok Hm Hs. subst m.
  destruct (client_first client) as [first client1] eqn:Hf.
  apply io_bind_ok in Hr as (challenge & w2 & Hr1 & (u & w3 & Hk1 & Hr)%io_bind_ok).
  pose proof (accepted_round _ _ _ _ _ _ _ _ Hr1 Hk1) as Hround1.
  apply io_bind_ok in Hr as (server_first & w4 & (->%server_text_ok & ->)%io_of_ok & Hr).
  destruct (client_final client1 _) as [r client2] eqn:Hfin.
  apply io_bind_ok in Hr as (message & w5 & (->%map_err_ok & ->)%io_of_ok & Hr).
  apply io_bind_ok in Hr as (final & w6 & Hr2 & (u' & w7 & Hk2 & Hr)%io_bind_ok).
  pose proof (accepted_round _ _ _ _ _ _ _ _ Hr2 Hk2) as Hround2.
  apply io_bind_ok in Hr as (server_final & w8 & (->%server_text_ok & ->)%io_of_ok & (Hv%map_err_ok & _)%io_of_ok).
  assert (foldl client_step client
    [CallFirst; CallFinal (SaslAuthenticateResponse.auth_bytes challenge)] = client2) as Hrun.
  { cbn [foldl client_step]. by rewrite Hf; cbn [snd]; rewrite Hfin. }
  rewrite <- Hrun in Hv.
  destruct (accepting_client _ _ _ _ _ _ _ _ Hc Hv) as (m' & Hin & Hsig).
  assert (m' = SaslAuthenticateResponse.auth_bytes challenge) as ->.
  { rewrite !elem_of_cons in Hin. destruct Hin as [[=]|[[= ->]|Hin]]; [done|by apply not_elem_of_nil in Hin]. }
  unfold accepted_by_broker.
  destruct Hs as [Hs|Hs]; rewrite Hs in *;
    (exists w, client, first, challenge, message, final; by rewrite Hf).
Qed.

End session.
