(* ===== verification/Authentication.v ===== *)
(** * What a SASL session guarantees ([odradek-client/src/sasl.rs])

    A session that authenticates has heard its broker accept, and with SCRAM
    sign; a mechanism that puts the password on the wire sends nothing over a
    connection that cannot protect it.  Then the two roles of [odradek-sasl] put
    together over Kafka's requests: the client's side is [sasl.rs]'s session, the
    broker's a SCRAM server behind SaslHandshake and SaslAuthenticate, and if both
    hold the same password the session authenticates. *)
From S2P Require Import Prelude Text Budget Codec Wire Fields KnownTags MessageTrait MsgConnection Registry ClientError Negotiate Exchange Sasl Scram Session.
Import sasl_handshake_request sasl_handshake_response.
Import sasl_authenticate_request sasl_authenticate_response.

Section session.
Context {R : Runtime} {connection W : Type} `{Network connection W}.
Context `{Stringprep, Base64, Crypto}.
Context (lossy : list byte → string).

(** C35: A session is authenticated only by an exchange that shows it.  If a
    mechanism is configured, the broker has taken its name, and accepted its
    message -- with SCRAM, has signed the transcript under the password's key
    within the configured bounds; with a bearer token, has reported nothing
    against it.  A mechanism that puts the password on the wire got this far
    only over an encrypted connection or with the configuration's leave. *)
Theorem authenticated_session (b : Broker connection) (config : ClientConfig) (s : SaslConfig) (w w' : W) :
  sasl config = Some s → authenticate lossy b config w = (Ok tt, w') →
  (sends_password (sc_mechanism s) = true →
     is_encrypted (conn b) = true ∨ allow_plaintext_credentials config = true) ∧
  (∃ resp, answered (SaslHandshakeRequest.mk (name (sc_mechanism s)) []) resp ∧
     error_code.is_ok (SaslHandshakeResponse.error_code resp) = true) ∧
  accepted_by_broker config s.
Proof.
  intros Hs. unfold authenticate. rewrite Hs.
  destruct (_ && _ && _) eqn:Hgate; [done|]. intros (u & w1 & Hh & Hr)%io_bind_ok.
  split; [|split].
  - intros Hp. rewrite Hp in Hgate. destruct (is_encrypted (conn b)); [by left|].
    destruct (allow_plaintext_credentials config); [by right|discriminate Hgate].
  - apply io_bind_ok in Hh as (resp & w2 & Ha%exchange_answered & Hc).
    exists resp. split; [done|]. cbv zeta in Hc.
    by destruct (error_code.is_ok (SaslHandshakeResponse.error_code resp)).
  - destruct (sc_mechanism s) eqn:Hm.
    + apply io_bind_ok in Hr as (tok & w2 & (Ht%map_err_ok & ->)%io_of_ok & (resp & w3 & Ha & Hc)%io_bind_ok).
      unfold accepted_by_broker. rewrite Hm. exists tok, resp. split; [done|]. by eapply accepted_round.
    + eapply scram_ok; [exact Hr|done|by left].
    + eapply scram_ok; [exact Hr|done|by right].
    + unfold oauthbearer_session in Hr. destruct (token s) as [t|] eqn:Ht; [|done].
      apply io_bind_ok in Hr as (tok & w2 & (Hk%map_err_ok & ->)%io_of_ok & (resp & w3 & Ha & (u' & w4 & Hc & Hend)%io_bind_ok)%io_bind_ok).
      unfold accepted_by_broker. rewrite Hm. exists t, tok, resp. split_and!; try done.
      * by eapply accepted_round.
      * by eapply accepted_round.
      * destruct (SaslAuthenticateResponse.auth_bytes resp); [done|].
        cbv beta in Hend. by destruct (sasl_round b oauthbearer_failure_ack w4).
    + done.
Qed.

(** A password is never put where it can be read.  A mechanism that sends
    its credential does nothing at all on a connection that is not encrypted,
    unless the configuration allows it: no byte goes out, the error names the
    mechanism, and it is an authentication error no retry is made for. *)
Theorem credentials_need_protection (b : Broker connection) (config : ClientConfig) (s : SaslConfig) (w : W) :
  sasl config = Some s → sends_password (sc_mechanism s) = true →
  is_encrypted (conn b) = false → allow_plaintext_credentials config = false →
  ∃ e, authenticate lossy b config w = (Err e, w) ∧ category e = Auth ∧ is_retriable e = false.
Proof.
  intros Hs Hp He Ha. unfold authenticate. rewrite Hs, Hp, He, Ha. by eexists.
Qed.

End session.

Section broker.
Context `{Stringprep, Base64, Crypto}.

Definition accepted (message : text) : SaslAuthenticateResponse.t :=
  SaslAuthenticateResponse.mk 0 None message 0 [].
Definition denied : SaslAuthenticateResponse.t :=
  SaslAuthenticateResponse.mk error_code.SASL_AUTHENTICATION_FAILED None [] 0 [].

(** A broker's answer to one SaslAuthenticate, by its SCRAM server. *)
Definition scram_reply (s : ScramServer) (token : list byte) : SaslAuthenticateResponse.t * ScramServer :=
  match sv_pending s with
  | None =>
      match server_first s token with
      | (Ok m, s) => (accepted m, s)
      | (Err _, s) => (denied, s)
      end
  | Some _ =>
      match server_final s token with
      | Ok m => (accepted m, s)
      | Err _ => (denied, s)
      end
  end.

Definition took_mechanism (m : Mechanism) : SaslHandshakeResponse.t :=
  SaslHandshakeResponse.mk 0 [name m] [].

(** The messages of an exchange. *)
Definition transcript (client : ScramClient) (server : ScramServer) : list text :=
  let '(first, client) := client_first client in
  first :: match server_first server first with
           | (Err _, _) => []
           | (Ok challenge, server) =>
               challenge :: match (client_final client challenge).1 with
                            | Err _ => []
                            | Ok message =>
                                message :: match server_final server message with
                                           | Ok reply => [reply]
                                           | Err _ => []
                                           end
                            end
           end.

Lemma server_first_pending s m c s' : server_first s m = (Ok c, s') → is_Some (sv_pending s').
Proof. unfold server_first. destruct (server_first_inner s m); [|done]. intros [= _ <-]. by eexists. Qed.

End broker.

Section authentication.
Context {R : Runtime} {connection : Type} `{Stringprep, Base64, Crypto}.
Context `{Network connection ScramServer}.
Context (lossy : list byte → string).

(** A connection whose far end is [scram_reply]. *)
Definition scram_broker (c : connection) (m : Mechanism) : Prop :=
  (∀ s version body resp, SaslHandshakeRequest.MIN_VERSION ≤ version ≤ SaslHandshakeRequest.MAX_VERSION →
     enc_bytes (SaslHandshakeRequest.encode version (SaslHandshakeRequest.mk (name m) [])) = Ok body →
     enc_bytes (SaslHandshakeResponse.encode version (took_mechanism m)) = Ok resp →
     request c SaslHandshakeRequest.API_KEY version body s = (Ok resp, s)) ∧
  (∀ s version token body resp, 0 ≤ version ≤ 2 →
     SaslAuthenticateRequest.valid version (SaslAuthenticateRequest.mk token []) →
     enc_bytes (SaslAuthenticateRequest.encode version (SaslAuthenticateRequest.mk token [])) = Ok body →
     enc_bytes (SaslAuthenticateResponse.encode version (scram_reply s token).1) = Ok resp →
     request c SaslAuthenticateRequest.API_KEY version body s = (Ok resp, (scram_reply s token).2)).

Definition done_or_refused {A} (r : result ClientError A) (a : A) : Prop :=
  r = Ok a ∨ ∃ e, r = Err (Decode e) ∧ is_alloc_error e.

Lemma valid_request version token :
  len token ≤ i32_max → SaslAuthenticateRequest.valid version (SaslAuthenticateRequest.mk token []).
Proof.
  intros Hl. unfold SaslAuthenticateRequest.valid. split.
  - unfold bytes_ok. cbn. case_match; int_lia.
  - unfold in_version. case_match; [|done]. split_and!; [constructor|constructor|cbn; int_lia].
Qed.

Lemma valid_accepted version m : len m ≤ i32_max → SaslAuthenticateResponse.valid version (accepted m).
Proof.
  intros Hl. unfold SaslAuthenticateResponse.valid. cbn. split_and!; [int_lia|done| | |].
  - unfold bytes_ok. case_match; int_lia.
  - unfold in_version. case_match; [int_lia|done].
  - unfold in_version. case_match; [|done]. split_and!; [constructor|constructor|cbn; int_lia].
Qed.

(** One round with the broker. *)
Lemma round_with_broker c ranges m version s token message s' :
  scram_broker c m →
  pick ranges SaslAuthenticateRequest.API_KEY
    (SaslAuthenticateRequest.MIN_VERSION, SaslAuthenticateRequest.MAX_VERSION) = Ok version →
  0 ≤ version ≤ 2 → len token ≤ i32_max → len message ≤ i32_max →
  scram_reply s token = (accepted message, s') →
  sasl_round (mkBroker c ranges) token s = (Ok (accepted message), s') ∨
  ∃ e, sasl_round (mkBroker c ranges) token s = (Err (Decode e), s') ∧ is_alloc_error e.
Proof.
  intros [_ Hb] Hp Hv Ht Hm Hr. unfold sasl_round. eapply exchange_responds; [exact Hp|exact Hv|exact Hv| | |done|].
  - by apply valid_request.
  - by apply valid_accepted.
  - intros body resp Hbody Hresp. cbn [send network_brokers conn].
    specialize (Hb s version token body resp Hv (valid_request _ _ Ht)). rewrite Hr in Hb. by apply Hb.
Qed.

Lemma handshake_with_broker c ranges s w :
  sc_mechanism s = ScramSha256 ∨ sc_mechanism s = ScramSha512 →
  pick ranges SaslHandshakeRequest.API_KEY (1, 1) = Ok 1 → scram_broker c (sc_mechanism s) →
  handshake (mkBroker c ranges) s w = (Ok tt, w) ∨
  ∃ e, handshake (mkBroker c ranges) s w = (Err (Decode e), w) ∧ is_alloc_error e.
Proof.
  intros Hm Hp [Hb _].
  assert (handshake_round (mkBroker c ranges) s w = (Ok (took_mechanism (sc_mechanism s)), w) ∨
    ∃ e, handshake_round (mkBroker c ranges) s w = (Err (Decode e), w) ∧ is_alloc_error e) as Hr.
  { unfold handshake_round. eapply exchange_responds; [exact Hp|split; discriminate|split; discriminate| | |done|].
    - destruct Hm as [-> | ->]; valid_sample.
    - destruct Hm as [-> | ->]; valid_sample.
    - intros body resp Hbody Hresp. apply Hb; [split; discriminate|done|done]. }
  unfold handshake, io_bind. destruct Hr as [-> |(e & -> & Ha)]; [by left|right; by exists e].
Qed.

(** C16: A client and a broker with the same password get through.  Over a
    connection whose far end is a SCRAM server for the account, [authenticate]
    succeeds -- handshake, two rounds, and the check of the broker's signature --
    for every username, password, salt and nonce, and every iteration count
    within the client's bounds; nothing but the allocator can stop it. *)
Theorem session_authenticates (c : connection) (ranges : ApiVersionRanges) (config : ClientConfig)
    (s : SaslConfig) (salt raw_client raw_server : list byte) (iterations version : Z) (theirs : Limits)
    (cred : ScramCredential) (client : ScramClient) (server : ScramServer) :
  sasl config = Some s → sc_mechanism s = ScramSha256 ∨ sc_mechanism s = ScramSha512 →
  pick ranges SaslHandshakeRequest.API_KEY (1, 1) = Ok 1 →
  pick ranges SaslAuthenticateRequest.API_KEY
    (SaslAuthenticateRequest.MIN_VERSION, SaslAuthenticateRequest.MAX_VERSION) = Ok version →
  0 ≤ version ≤ 2 →
  scram_broker c (sc_mechanism s) →
  is_u32 iterations → MIN_SCRAM_ITERATIONS ≤ iterations ≤ scram_max_iterations config →
  derive (sc_mechanism s) (str_bytes (sc_password s)) salt iterations theirs = Ok cred →
  new_client (sc_mechanism s) (str_bytes (sc_username s)) (str_bytes (sc_password s))
    (mkLimits MIN_SCRAM_ITERATIONS (scram_max_iterations config)) (Some raw_client) = Ok client →
  new_server (str_bytes (sc_username s)) cred (Some raw_server) = Ok server → raw_server ≠ [] →
  (∀ u, saslprep (str_bytes (sc_username s)) = Ok u → saslprep u = Ok u) →
  getrandom server = Some raw_client →
  Forall (λ m : text, len m ≤ i32_max) (transcript client server) →
  done_or_refused (authenticate lossy (mkBroker c ranges) config server).1 tt.
Proof.
  intros Hs Hm Hp1 Hp2 Hv Hbroker Hi Hlim Hd Hc Hsv Hne Hidem Hrand Hsize.
  assert (sends_password (sc_mechanism s) = false) as Hgate by (destruct Hm as [-> | ->]; done).
  assert (authenticate lossy (mkBroker c ranges) config server =
    (let^ _ := handshake (mkBroker c ranges) s in
     scram (mkBroker c ranges) s (sc_mechanism s)
       (mkLimits MIN_SCRAM_ITERATIONS (scram_max_iterations config))) server) as ->.
  { unfold authenticate. rewrite Hs, Hgate. cbn [andb]. by destruct Hm as [-> | ->]. }
  pose proof (scram_run _ _ _ _ _ _ _ _ _ _ _ _ Hi (proj2 (within_limits (mkLimits _ _) _) Hlim) Hd Hc Hsv Hne Hidem) as Hrun.
  unfold transcript in Hsize. destruct (client_first client) as [first client1] eqn:Hf.
  destruct Hrun as (ch & s1 & msg & c2 & rep & Hsf & Hasc & Hcf & Hfin & Hasr & Hver).
  rewrite Hsf, Hcf in Hsize. cbn [fst] in Hsize. rewrite Hfin in Hsize.
  rewrite !Forall_cons in Hsize. destruct Hsize as (Hl1 & Hl2 & Hl3 & Hl4 & _).
  assert (sv_pending server = None) as Hpend.
  { apply res_bind_ok in Hsv as (? & _ & (? & _ & [= <-])%res_bind_ok). done. }
  destruct (server_first_pending _ _ _ _ Hsf) as [pd Hpd].
  assert (scram_reply server first = (accepted ch, s1)) as Hrep1 by (unfold scram_reply; by rewrite Hpend, Hsf).
  assert (scram_reply s1 msg = (accepted rep, s1)) as Hrep2 by (unfold scram_reply; by rewrite Hpd, Hfin).
  pose proof (handshake_with_broker c ranges s server Hm Hp1 Hbroker) as Hh.
  unfold io_bind at 1. destruct Hh as [-> |(e & -> & Ha)]; [|right; by exists e].
  unfold scram. rewrite Hrand. unfold io_of at 1, io_bind at 1. rewrite Hc. cbn [map_err]. rewrite Hf.
  unfold io_bind at 1.
  destruct (round_with_broker c ranges _ version server first ch s1 Hbroker Hp2 Hv Hl1 Hl2 Hrep1) as [E|(e & E & Ha)];
    rewrite E; [|right; by exists e].
  unfold io_bind at 1, io_of at 1. change (check_auth (accepted ch)) with (@Ok ClientError unit tt). cbv iota.
  unfold io_bind at 1, io_of at 1. unfold server_text at 1. cbn [SaslAuthenticateResponse.auth_bytes accepted].
  rewrite utf8_ascii by done. cbv iota. rewrite Hcf.
  unfold io_bind at 1, io_of at 1. cbn [map_err]. unfold io_bind at 1.
  destruct (round_with_broker c ranges _ version s1 msg rep s1 Hbroker Hp2 Hv Hl3 Hl4 Hrep2) as [E2|(e & E2 & Ha)];
    rewrite E2; [|right; by exists e].
  unfold io_bind at 1, io_of at 1. change (check_auth (accepted rep)) with (@Ok ClientError unit tt). cbv iota.
  unfold io_bind at 1, io_of at 1. unfold server_text. cbn [SaslAuthenticateResponse.auth_bytes accepted].
  rewrite utf8_ascii by done. cbv iota. unfold io_of. rewrite Hver. by left.
Qed.

End authentication.

(** *** Witness: a broker that decodes what it is sent *)
Import rfc4648 toy.

Definition toy_request (k version : Z) (body : list byte) (s : ScramServer) :
    result ClientError (list byte) * ScramServer :=
  if k =? SaslHandshakeRequest.API_KEY
  then (map_err Encode (enc_bytes (SaslHandshakeResponse.encode version (took_mechanism ScramSha256))), s)
  else
    match SaslAuthenticateRequest.decode_with_limits (R := plain_runtime) version Limits.UNLIMITED body with
    | Err e => (Err (Decode e), s)
    | Ok (req, _) =>
        let '(resp, s) := scram_reply s (SaslAuthenticateRequest.auth_bytes req) in
        (map_err Encode (enc_bytes (SaslAuthenticateResponse.encode version resp)), s)
    end.

#[export] Instance toy_network : Network unit ScramServer := {|
  connect := λ _, io_ret tt;
  is_encrypted := λ _, false;
  request := λ _, toy_request;
  note_throttle := λ _ _, id;
  getrandom := λ _, Some toy.raw_client;
  deadline := λ _ m w, (Some (m w).1, (m w).2);
  deadline_keeps := λ _ _ _, or_introl eq_refl |}.

Lemma toy_broker : scram_broker tt ScramSha256.
Proof.
  split.
  - intros s version body resp _ _ Hr. cbn. unfold toy_request. rewrite Hr. done.
  - intros s version token body resp Hv Hval Hb Hr. cbn. unfold toy_request.
    change (SaslAuthenticateRequest.API_KEY =? SaslHandshakeRequest.API_KEY) with false. cbv iota.
    destruct (@Message.roundtrip _ SaslAuthenticateRequest_Message plain_runtime version _ Hv Hval) as (body' & Hb' & _ & Hd).
    assert (body' = body) as -> by (cbn in Hb'; congruence).
    specialize (Hd plain_reliable []). rewrite app_nil_r in Hd.
    unfold Message.decode_with_limits in Hd. unfold SaslAuthenticateRequest.decode_with_limits.
    cbn [Message.decode_with_budget SaslAuthenticateRequest_Message] in Hd. rewrite Hd.
    cbn [SaslAuthenticateRequest.auth_bytes]. destruct (scram_reply s token) as [r s'].
    cbn [fst snd] in *. by rewrite Hr.
Qed.

Definition toy_config : ClientConfig :=
  mkClientConfig [] 0 false (Some (new_sasl ScramSha256 "us=er,1" "pencil")) DEFAULT_MAX_SCRAM_ITERATIONS.
Definition toy_ranges : ApiVersionRanges := {[ 17 := (1, 1); 36 := (0, 2) ]}.

Lemma session_authenticates_witness :
  done_or_refused (authenticate (R := plain_runtime) (connection := unit) (λ _, "")
    (mkBroker tt toy_ranges) toy_config toy.server).1 tt.
Proof.
  pose proof (session_authenticates (R := plain_runtime) (connection := unit) (λ _, "") tt toy_ranges toy_config
    (new_sasl ScramSha256 "us=er,1" "pencil") toy.salt toy.raw_client toy.raw_server 4096 2
    Limits_default toy.cred toy.client toy.server) as Hs.
  specialize (Hs eq_refl (or_introl eq_refl)).
  specialize (Hs ltac:(vm_compute; reflexivity)).
  specialize (Hs ltac:(vm_compute; reflexivity)).
  specialize (Hs ltac:(split; discriminate) toy_broker ltac:(split; discriminate) ltac:(split; discriminate)).
  specialize (Hs ltac:(vm_compute; reflexivity)).
  specialize (Hs ltac:(vm_compute; reflexivity)).
  specialize (Hs ltac:(vm_compute; reflexivity)).
  specialize (Hs ltac:(discriminate)).
  specialize (Hs ltac:(intros u E; vm_compute in E; injection E as <-; vm_compute; reflexivity)).
  specialize (Hs eq_refl).
  specialize (Hs ltac:(apply (bool_decide_eq_true_1 _); vm_compute; reflexivity)).
  exact Hs.
Defined.

(** A broker that accepts whatever it is sent; the connection says whether it is
    encrypted. *)
Definition trusting_request (_ : bool) (k version : Z) (body : list byte) (w : unit) :
    result ClientError (list byte) * unit :=
  (map_err Encode (if k =? SaslHandshakeRequest.API_KEY
     then enc_bytes (SaslHandshakeResponse.encode version (took_mechanism Plain))
     else enc_bytes (SaslAuthenticateResponse.encode version (accepted []))), w).

#[export] Instance trusting_network : Network bool unit := {|
  connect := λ _, io_ret true;
  is_encrypted := id;
  request := trusting_request;
  note_throttle := λ _ _, id;
  getrandom := λ _, None;
  deadline := λ _ m w, (Some (m w).1, (m w).2);
  deadline_keeps := λ _ _ _, or_introl eq_refl |}.

Definition plain_config : ClientConfig :=
  mkClientConfig [] 0 false (Some (new_sasl Plain "admin" "pencil")) DEFAULT_MAX_SCRAM_ITERATIONS.

Lemma authenticated_session_witness :
  accepted_by_broker (R := plain_runtime) (connection := bool) plain_config (new_sasl Plain "admin" "pencil").
Proof.
  apply (authenticated_session (R := plain_runtime) (λ _, "") (mkBroker true toy_ranges) plain_config
    (new_sasl Plain "admin" "pencil") tt tt); [reflexivity|vm_compute; reflexivity].
Defined.

Lemma credentials_need_protection_witness :
  ∃ e, authenticate (R := plain_runtime) (λ _, "") (mkBroker false toy_ranges) plain_config tt = (Err e, tt).
Proof.
  destruct (credentials_need_protection (R := plain_runtime) (λ _, "") (mkBroker false toy_ranges)
    plain_config (new_sasl Plain "admin" "pencil") tt) as (e & He & _);
    [reflexivity|reflexivity|reflexivity|reflexivity|]. by exists e.
Defined.
