(* ===== verification/ClusterImpl.v ===== *)
(** * The cluster ([odradek-client/src/cluster.rs])

    Metadata discovery, the pool of connections and the routing to partition
    leaders and coordinators.  [State] is what every handle shares behind a
    lock; a locked section is one function on it, and a call is those sections
    and the I/O between them.  I/O runs on the whole world [State * N], because
    other tasks run their own sections while it waits: nothing is assumed of what
    they do unless a theorem says so.

    The order a [HashMap] is walked in ([iteration]) and the text of an error
    ([render], derived by a macro) are parameters. *)
From S2P Require Import Prelude Text Budget Codec MessageTrait MsgMetadata MsgGroup MsgAdmin Registry ClientError Negotiate Exchange Sasl Scram Session.
Import metadata_request metadata_response find_coordinator_request find_coordinator_response.
Import create_topics_request create_topics_response.

(** ** Data *)

Record BrokerInfo : Type := mkBrokerInfo {
  node_id : Z;
  host : string;
  port : Z;
}.

(** [BrokerInfo::addr]. *)
Definition addr (b : BrokerInfo) : string :=
  host b +:+ ":" +:+ bytes_str (decimal.print (port b)).

Record PartitionInfo : Type := mkPartitionInfo {
  index : Z;
  leader : Z;
  part_error : Z;
}.

Section data.
Context (connection : Type).

Record BlockingPool : Type := mkBlockingPool {
  idle : list (Broker connection);
  outstanding : Z;
  peak : Z;
}.

Record State : Type := mkState {
  control : option (Broker connection);
  brokers : gmap Z BrokerInfo;
  topics : gmap string (list PartitionInfo);
  topic_ids : gmap (list byte) string;
  conns : gmap Z (Broker connection);
  blocking : gmap Z BlockingPool;
  known_controller : option Z;
  coordinators : gmap string Z;
  txn_coordinators : gmap string Z;
}.
End data.
Arguments mkBlockingPool {connection}.
Arguments idle {connection}.
Arguments outstanding {connection}.
Arguments peak {connection}.
Arguments mkState {connection}.
Arguments control {connection}.
Arguments brokers {connection}.
Arguments topics {connection}.
Arguments topic_ids {connection}.
Arguments conns {connection}.
Arguments blocking {connection}.
Arguments known_controller {connection}.
Arguments coordinators {connection}.
Arguments txn_coordinators {connection}.

(** Which coordinator a FindCoordinator asks about. *)
Inductive CoordinatorKind : Type := Group | Transaction.

Definition key_type (k : CoordinatorKind) : Z :=
  match k with Group => 0 | Transaction => 1 end.

(** ** Locked sections *)
Section state.
Context {connection : Type}.
Abbreviation State := (State connection).
Abbreviation Broker := (Broker connection).

Definition pool_default : BlockingPool connection := mkBlockingPool [] 0 0.
Definition state_default : State := mkState None ∅ ∅ ∅ ∅ ∅ None ∅ ∅.

Definition set_control (c : option Broker) (s : State) : State :=
  mkState c (brokers s) (topics s) (topic_ids s) (conns s) (blocking s) (known_controller s)
    (coordinators s) (txn_coordinators s).
Definition set_brokers (b : gmap Z BrokerInfo) (s : State) : State :=
  mkState (control s) b (topics s) (topic_ids s) (conns s) (blocking s) (known_controller s)
    (coordinators s) (txn_coordinators s).
Definition set_topics (t : gmap string (list PartitionInfo)) (s : State) : State :=
  mkState (control s) (brokers s) t (topic_ids s) (conns s) (blocking s) (known_controller s)
    (coordinators s) (txn_coordinators s).
Definition set_topic_ids (t : gmap (list byte) string) (s : State) : State :=
  mkState (control s) (brokers s) (topics s) t (conns s) (blocking s) (known_controller s)
    (coordinators s) (txn_coordinators s).
Definition set_conns (c : gmap Z Broker) (s : State) : State :=
  mkState (control s) (brokers s) (topics s) (topic_ids s) c (blocking s) (known_controller s)
    (coordinators s) (txn_coordinators s).
Definition set_blocking (b : gmap Z (BlockingPool connection)) (s : State) : State :=
  mkState (control s) (brokers s) (topics s) (topic_ids s) (conns s) b (known_controller s)
    (coordinators s) (txn_coordinators s).
Definition set_controller (c : option Z) (s : State) : State :=
  mkState (control s) (brokers s) (topics s) (topic_ids s) (conns s) (blocking s) c
    (coordinators s) (txn_coordinators s).
Definition set_coordinators (c t : gmap string Z) (s : State) : State :=
  mkState (control s) (brokers s) (topics s) (topic_ids s) (conns s) (blocking s)
    (known_controller s) c t.

(** [CoordinatorKind::cached], [record] and [forget]. *)
Definition cached (k : CoordinatorKind) (s : State) (key : string) : option Z :=
  match k with
  | Group => coordinators s !! key
  | Transaction => txn_coordinators s !! key
  end.

Definition record (k : CoordinatorKind) (key : string) (node : Z) (s : State) : State :=
  match k with
  | Group => set_coordinators (<[key := node]> (coordinators s)) (txn_coordinators s) s
  | Transaction => set_coordinators (coordinators s) (<[key := node]> (txn_coordinators s)) s
  end.

Definition forget (k : CoordinatorKind) (key : string) (s : State) : State :=
  match k with
  | Group => set_coordinators (delete key (coordinators s)) (txn_coordinators s) s
  | Transaction => set_coordinators (coordinators s) (delete key (txn_coordinators s)) s
  end.

(** A slot or an entry filled once: [get_or_insert] and [or_insert]. *)
Definition keep_control (b : Broker) (s : State) : Broker * State :=
  match control s with
  | Some won => (won, s)
  | None => (b, set_control (Some b) s)
  end.

Definition keep_conn (node : Z) (b : Broker) (s : State) : Broker * State :=
  match conns s !! node with
  | Some won => (won, s)
  | None => (b, set_conns (<[node := b]> (conns s)) s)
  end.

Definition forget_control : State → State := set_control None.

Definition leader_id (topic : string) (partition : Z) (s : State) : option Z :=
  match topics s !! topic with
  | None => None
  | Some ps =>
      match List.find (λ p, index p =? partition) ps with
      | None => None
      | Some info => if leader info >=? 0 then Some (leader info) else None
      end
  end.

Definition partitions (topic : string) (s : State) : option (list PartitionInfo) := topics s !! topic.
Definition partition_count (topic : string) (s : State) : option Z :=
  match topics s !! topic with Some ps => Some (len ps) | None => None end.
Definition topic_name_by_id (topic_id : list byte) (s : State) : option string := topic_ids s !! topic_id.
Definition coordinator_id (group : string) (s : State) : option Z := coordinators s !! group.

Definition mark_stale (topic : string) (s : State) : State := set_topics (delete topic (topics s)) s.

(** The first entry of a partition loses its leader; [None] if there is none. *)
Fixpoint clear_leader (partition : Z) (ps : list PartitionInfo) : option (list PartitionInfo) :=
  match ps with
  | [] => None
  | p :: ps =>
      if index p =? partition then Some (mkPartitionInfo (index p) (-1) (part_error p) :: ps)
      else match clear_leader partition ps with Some ps => Some (p :: ps) | None => None end
  end.

Definition mark_partition_stale (topic : string) (partition : Z) (s : State) : State :=
  match topics s !! topic with
  | None => s
  | Some ps =>
      match clear_leader partition ps with
      | Some ps => set_topics (<[topic := ps]> (topics s)) s
      | None => set_topics (delete topic (topics s)) s
      end
  end.

(** [pool.idle.clear()], if the node has a pool. *)
Definition clear_idle (node : Z) (s : State) : State :=
  match blocking s !! node with
  | Some pool => set_blocking (<[node := mkBlockingPool [] (outstanding pool) (peak pool)]> (blocking s)) s
  | None => s
  end.

Definition forget_broker (node : Z) (s : State) : State :=
  clear_idle node (set_conns (delete node (conns s)) s).

Definition forget_coordinator_of (k : CoordinatorKind) (key : string) (s : State) : State :=
  let node := cached k s key in
  let s := forget k key s in
  match node with
  | Some node => clear_idle node (set_conns (delete node (conns s)) s)
  | None => s
  end.
Definition forget_coordinator : string → State → State := forget_coordinator_of Group.
Definition forget_transaction_coordinator : string → State → State := forget_coordinator_of Transaction.

(** *** The blocking pool *)

(** The first section of [blocking_broker]: an idle connection, or leave to
    dial one. *)
Definition pop_idle (node : Z) (s : State) : result ClientError (option Broker) * State :=
  let unknown := UnknownLeader ("<broker " +:+ bytes_str (decimal.print node) +:+ ">") (-1) in
  let none := if bool_decide (is_Some (brokers s !! node)) then Ok None else Err unknown in
  match blocking s !! node with
  | Some pool =>
      match last (idle pool) with
      | Some b =>
          (Ok (Some b), set_blocking (<[node := mkBlockingPool (removelast (idle pool))
                                                  (outstanding pool) (peak pool)]> (blocking s)) s)
      | None => (none, s)
      end
  | None => (none, s)
  end.

(** Its last section: the checkout is counted. *)
Definition check_out (node : Z) (s : State) : State :=
  let pool := default pool_default (blocking s !! node) in
  let outstanding := wrap 64 (outstanding pool + 1) in
  set_blocking (<[node := mkBlockingPool (idle pool) outstanding (Z.max (peak pool) outstanding)]>
                  (blocking s)) s.

(** [BrokerLease::release], up to the lease's drop. *)
Definition give_back (blocking_idle_max node : Z) (b : Broker) (s : State) : State :=
  let pool := default pool_default (blocking s !! node) in
  let idle := if len (idle pool) <? Z.min (peak pool) blocking_idle_max
              then idle pool ++ [b] else idle pool in
  set_blocking (<[node := mkBlockingPool idle (outstanding pool) (peak pool)]> (blocking s)) s.

(** [BrokerLease::drop]. *)
Definition drop_lease (node : Z) (s : State) : State :=
  match blocking s !! node with
  | Some pool =>
      set_blocking (<[node := mkBlockingPool (idle pool) (sat_sub (outstanding pool) 1) (peak pool)]>
                      (blocking s)) s
  | None => s
  end.

Definition release_lease (blocking_idle_max node : Z) (b : Broker) (s : State) : State :=
  drop_lease node (give_back blocking_idle_max node b s).

(** *** What a metadata response changes *)

Definition info_of (b : MetadataResponseBroker.t) : BrokerInfo :=
  mkBrokerInfo (MetadataResponseBroker.node_id b) (MetadataResponseBroker.host b)
    (MetadataResponseBroker.port b).

(** [collect] into a [HashMap]. *)
Definition brokers_of (l : list MetadataResponseBroker.t) : gmap Z BrokerInfo :=
  foldl (λ m b, <[MetadataResponseBroker.node_id b := info_of b]> m) ∅ l.

Definition partition_info (p : MetadataResponsePartition.t) : PartitionInfo :=
  mkPartitionInfo (MetadataResponsePartition.partition_index p) (MetadataResponsePartition.leader_id p)
    (MetadataResponsePartition.error_code p).

(** The loop over the response's topics. *)
Fixpoint refreshed_topics (l : list MetadataResponseTopic.t) :
    result ClientError (list (string * list byte * list PartitionInfo)) :=
  match l with
  | [] => Ok []
  | topic :: l =>
      match MetadataResponseTopic.name topic with
      | None => refreshed_topics l
      | Some name =>
          let code := MetadataResponseTopic.error_code topic in
          if negb (error_code.is_ok code) then Err (ClientError.Broker code)
          else
            let? rest := refreshed_topics l in
            Ok ((name, MetadataResponseTopic.topic_id topic,
                 partition_info <$> MetadataResponseTopic.partitions topic) :: rest)
      end
  end.

Definition ZERO_UUID : list byte := replicate 16 (byte_of_Z 0).

Definition refresh_topic (s : State) (t : string * list byte * list PartitionInfo) : State :=
  let '(name, topic_id, partitions) := t in
  let s := if bool_decide (topic_id = ZERO_UUID) then s
           else set_topic_ids (<[topic_id := name]> (topic_ids s)) s in
  set_topics (<[name := partitions]> (topics s)) s.

Definition apply_metadata (brokers : gmap Z BrokerInfo) (controller_id : Z)
    (refreshed : list (string * list byte * list PartitionInfo)) (s : State) : State :=
  let s := set_brokers brokers s in
  let s := if controller_id >=? 0 then set_controller (Some controller_id) s else s in
  foldl refresh_topic s refreshed.

End state.

Definition METADATA_SUPPORTED : Z * Z := (1, MetadataRequest.MAX_VERSION).
Definition FIND_COORDINATOR_SUPPORTED : Z * Z := (0, 3).
Definition CREATE_TOPICS_SUPPORTED : Z * Z := (2, 7).
Definition CREATE_TOPICS_TIMEOUT_MS : Z := 30000.

Definition is_control_failure (e : ClientError) : bool :=
  match e with
  | ConnectionClosed | Io _ | Timeout _ => true
  | _ => false
  end.

Definition is_control_redirect (e : ClientError) : bool :=
  is_control_failure e
  || match e with ClientError.Broker code => code =? error_code.NOT_CONTROLLER | _ => false end.

(** [match m { Err(e) if again(&e) => retry, other => other }]. *)
Definition recover {W A} (again : ClientError → bool) (m retry : io W A) : io W A := λ w,
  match m w with
  | (Err e, w) => if again e then retry w else (Err e, w)
  | other => other
  end.

(** [match m { Ok(a) => Ok(a), Err(_) => other }]. *)
Definition or_else {W A} (m other : io W A) : io W A := λ w,
  match m w with
  | (Ok a, w) => (Ok a, w)
  | (Err _, w) => other w
  end.

(** One locked section, with what it returns. *)
Definition locked {S N A} (f : S → A * S) : io (S * N) A := λ '(s, n),
  let '(a, s) := f s in (Ok a, (s, n)).
Definition locked_result {S N A} (f : S → result ClientError A * S) : io (S * N) A := λ '(s, n),
  let '(r, s) := f s in (r, (s, n)).

(** [HashSet::insert] as the filter of [retain]: the first of each stays. *)
Fixpoint dedup (seen l : list string) : list string :=
  match l with
  | [] => []
  | a :: l => if bool_decide (a ∈ seen) then dedup seen l else a :: dedup (a :: seen) l
  end.

Definition metadata_request_for (topics : list string) : MetadataRequest.t :=
  MetadataRequest.mk
    (Some ((λ name, MetadataRequestTopic.mk
              (MetadataRequestTopic.topic_id MetadataRequestTopic.default) (Some name)
              (MetadataRequestTopic.unknown_tagged_fields MetadataRequestTopic.default)) <$> topics))
    false
    (MetadataRequest.include_cluster_authorized_operations MetadataRequest.default)
    (MetadataRequest.include_topic_authorized_operations MetadataRequest.default)
    (MetadataRequest.unknown_tagged_fields MetadataRequest.default).

Definition find_coordinator_request_for (kind : CoordinatorKind) (key : string) : FindCoordinatorRequest.t :=
  FindCoordinatorRequest.mk key (key_type kind)
    (FindCoordinatorRequest.coordinator_keys FindCoordinatorRequest.default)
    (FindCoordinatorRequest.unknown_tagged_fields FindCoordinatorRequest.default).

Definition create_topics_request_for (name : string) (partitions replication_factor : Z) :
    CreateTopicsRequest.t :=
  CreateTopicsRequest.mk
    [CreatableTopic.mk name partitions replication_factor
       (CreatableTopic.assignments CreatableTopic.default) (CreatableTopic.configs CreatableTopic.default)
       (CreatableTopic.unknown_tagged_fields CreatableTopic.default)]
    CREATE_TOPICS_TIMEOUT_MS (CreateTopicsRequest.validate_only CreateTopicsRequest.default)
    (CreateTopicsRequest.unknown_tagged_fields CreateTopicsRequest.default).

Definition read_create_topics (name : string) (resp : CreateTopicsResponse.t) : result ClientError unit :=
  let? entry := ok_or (ProtocolViolation ("create topics response omits " +:+ name))
    (List.find (λ t, String.eqb (CreatableTopicResult.name t) name) (CreateTopicsResponse.topics resp)) in
  broker_code (CreatableTopicResult.error_code entry).

(** ** The calls *)
Section cluster.
Context {R : Runtime} {connection N : Type} `{Network connection (State connection * N)}.
Context `{Stringprep, Base64, Crypto}.
Context (pkg_version : string) (lossy : list byte → string) (render : ClientError → string).
Context (iteration : gmap Z BrokerInfo → list BrokerInfo) (config : ClientConfig).

Abbreviation State := (State connection).
Abbreviation Broker := (Broker connection).
Abbreviation W := (State * N)%type.

Definition dial_addr (addr : string) : io W Broker := dial pkg_version lossy addr config.

(** The loop over addresses until one answers. *)
Fixpoint first_reachable (last : string) (addrs : list string) : io W Broker :=
  match addrs with
  | [] => io_fail (Bootstrap last)
  | addr :: addrs => λ w,
      match dial_addr addr w with
      | (Ok b, w) => (Ok b, w)
      | (Err e, w) => first_reachable (addr +:+ ": " +:+ render e) addrs w
      end
  end.

(** [Cluster::connect]: the handle's [initial] connection, and the state made
    with it. *)
Definition connect_cluster : io W Broker :=
  let^ b := first_reachable "no bootstrap servers configured" (bootstrap_servers config) in
  let^ _ := update (λ _, set_control (Some b) state_default) in
  io_ret b.

Definition candidates (s : State) : list string :=
  dedup [] (bootstrap_servers config ++ (addr <$> iteration (brokers s))).

Definition control_broker : io W Broker :=
  let^ s := this in
  match control s with
  | Some b => io_ret b
  | None =>
      let^ b := first_reachable "no control-plane candidates" (candidates s) in
      locked (keep_control b)
  end.

(** Asked of the control connection, and once more of its successor if the
    connection itself failed. *)
Definition with_control {A} (ask : Broker → io W A) : io W A :=
  let^ b := control_broker in
  recover is_control_failure (ask b)
    (let^ _ := update forget_control in
     let^ b := control_broker in
     ask b).

Definition refresh_metadata_via (names : list string) (b : Broker) : io W unit :=
  let^ resp := exchange (Req := MetadataRequest.t) (Resp := MetadataResponse.t) b
    METADATA_SUPPORTED (metadata_request_for names) in
  let brokers := brokers_of (MetadataResponse.brokers resp) in
  let^ refreshed := io_of (refreshed_topics (MetadataResponse.topics resp)) in
  update (apply_metadata brokers (MetadataResponse.controller_id resp) refreshed).

Definition refresh_metadata (names : list string) : io W unit := with_control (refresh_metadata_via names).

Definition broker (node : Z) : io W Broker :=
  let^ s := this in
  match conns s !! node with
  | Some b => io_ret b
  | None =>
      let^ info := io_of (ok_or (UnknownLeader ("<broker " +:+ bytes_str (decimal.print node) +:+ ">") (-1))
        (brokers s !! node)) in
      let^ b := dial_addr (addr info) in
      locked (keep_conn node b)
  end.

Definition controller : io W Broker :=
  let^ s := this in
  match known_controller s with
  | None => control_broker
  | Some id => or_else (broker id) control_broker
  end.

Definition rediscover_controller : io W Broker :=
  let^ _ := update (λ s, forget_control (set_controller None s)) in
  let^ _ := refresh_metadata [] in
  controller.

Definition topic_partitions (topic : string) : io W (list PartitionInfo) :=
  let^ s := this in
  let^ _ := match partitions topic s with Some _ => io_ret tt | None => refresh_metadata [topic] end in
  let^ s := this in
  io_of (ok_or (ClientError.Broker error_code.UNKNOWN_TOPIC_OR_PARTITION) (partitions topic s)).

(** The leader of a partition, metadata refreshed once if it is unknown. *)
Definition known_leader (topic : string) (partition : Z) : io W Z :=
  let^ s := this in
  let^ _ := match leader_id topic partition s with
            | Some _ => io_ret tt
            | None => refresh_metadata [topic]
            end in
  let^ s := this in
  io_of (ok_or (UnknownLeader topic partition) (leader_id topic partition s)).

Definition partition_leader (topic : string) (partition : Z) : io W Broker :=
  let^ leader := known_leader topic partition in
  broker leader.

(** A lease: the connection and the node it counts against. *)
Abbreviation Lease := (Broker * Z)%type.

Definition blocking_broker (node : Z) : io W Lease :=
  let^ popped := locked_result (pop_idle node) in
  let^ b :=
    match popped with
    | Some b => io_ret b
    | None =>
        let^ s := this in
        let^ info := io_of (ok_or (UnknownLeader ("<broker " +:+ bytes_str (decimal.print node) +:+ ">") (-1))
          (brokers s !! node)) in
        dial_addr (addr info)
    end in
  let^ _ := update (check_out node) in
  io_ret (b, node).

Definition blocking_partition_leader (topic : string) (partition : Z) : io W Lease :=
  let^ leader := known_leader topic partition in
  blocking_broker leader.

(** ** Coordinators *)

Definition find_coordinator (kind : CoordinatorKind) (key : string) (b : Broker) : io W Z :=
  let^ resp := exchange (Req := FindCoordinatorRequest.t) (Resp := FindCoordinatorResponse.t) b
    FIND_COORDINATOR_SUPPORTED (find_coordinator_request_for kind key) in
  let^ _ := io_of (broker_code (FindCoordinatorResponse.error_code resp)) in
  let node := FindCoordinatorResponse.node_id resp in
  let info := mkBrokerInfo node (FindCoordinatorResponse.host resp) (FindCoordinatorResponse.port resp) in
  let^ _ := update (λ s, record kind key node (set_brokers (<[node := info]> (brokers s)) s)) in
  io_ret node.

Definition coordinator_of (kind : CoordinatorKind) (key : string) : io W Broker :=
  let^ s := this in
  let^ node := match cached kind s key with
               | Some node => io_ret node
               | None => with_control (find_coordinator kind key)
               end in
  broker node.

Definition coordinator : string → io W Broker := coordinator_of Group.
Definition transaction_coordinator : string → io W Broker := coordinator_of Transaction.

Definition blocking_coordinator (group : string) : io W Lease :=
  let^ _ := coordinator group in
  let^ s := this in
  let^ node := io_of (ok_or (ProtocolViolation "coordinator vanished after discovery")
    (coordinators s !! group)) in
  blocking_broker node.

(** ** Topics *)

Definition create_topic_via (name : string) (partitions replication_factor : Z) (b : Broker) : io W unit :=
  let^ resp := exchange (Req := CreateTopicsRequest.t) (Resp := CreateTopicsResponse.t) b
    CREATE_TOPICS_SUPPORTED (create_topics_request_for name partitions replication_factor) in
  io_of (read_create_topics name resp).

Definition create_topic (name : string) (partitions replication_factor : Z) : io W unit :=
  let^ b := controller in
  recover is_control_redirect (create_topic_via name partitions replication_factor b)
    (let^ b := rediscover_controller in
     create_topic_via name partitions replication_factor b).

End cluster.
