(* ===== verification/ClusterSafety.v ===== *)
(** * What the cluster guarantees

    The blocking pool under every interleaving of its locked sections, the
    routing caches, and the failover of the control connection.  Then where
    connections go: what a call keeps when the I/O inside it does, and the invariant
    that every pooled connection was dialled at an endpoint the cluster's brokers
    named for the node it is held under. *)
From stdpp Require Import relations.
From S2P Require Import Prelude Text Budget Codec Sasl Scram MessageTrait MsgConnection MsgGroup MsgMetadata MsgAdmin Registry ClientError Negotiate Exchange Session ClusterImpl.

Import metadata_request metadata_response.

(** ** The blocking pool

    Leases come and go from many tasks at once, and each locked section is a
    step.  A system is the shared state, the leases that are live, and the most
    that ever were, per node. *)
Section pool.
Context {connection : Type} (blocking_idle_max : Z).

Record Pools : Type := mkPools {
  shared : State connection;
  live : list Z;
  high_water : Z → Z;
}.

Definition leases (node : Z) (l : list Z) : Z := len (filter (λ n, n = node) l).

Definition raise (high : Z → Z) (node n : Z) : Z → Z := λ m, if m =? node then Z.max (high m) n else high m.

Inductive pool_step : Pools → Pools → Prop :=
| StepPop s l h node r s' :
    pop_idle node s = (r, s') → pool_step (mkPools s l h) (mkPools s' l h)
| StepCheckOut s l h node :
    leases node l < usize_max →
    pool_step (mkPools s l h)
      (mkPools (check_out node s) (node :: l) (raise h node (leases node (node :: l))))
| StepGiveBack s l h node b :
    node ∈ l → pool_step (mkPools s l h) (mkPools (give_back blocking_idle_max node b s) l h)
| StepDrop s l l' h node :
    l ≡ₚ node :: l' → pool_step (mkPools s l h) (mkPools (drop_lease node s) l' h)
| StepForgetBroker s l h node :
    pool_step (mkPools s l h) (mkPools (forget_broker node s) l h)
| StepForgetCoordinator s l h kind key :
    pool_step (mkPools s l h) (mkPools (forget_coordinator_of kind key s) l h)
| StepElsewhere s s' l h :
    blocking s' = blocking s → pool_step (mkPools s l h) (mkPools s' l h).

Definition pool_ok (p : BlockingPool connection) (n high : Z) : Prop :=
  outstanding p = n ∧ peak p = high ∧ n ≤ high ∧ high ≤ usize_max ∧
  len (idle p) ≤ Z.max 0 (Z.min high blocking_idle_max).

Definition pools_ok (p : Pools) : Prop := ∀ node,
  match blocking (shared p) !! node with
  | Some pool => pool_ok pool (leases node (live p)) (high_water p node)
  | None => leases node (live p) = 0 ∧ high_water p node = 0
  end.

Lemma leases_cons node n l : leases node (n :: l) = (if n =? node then 1 else 0) + leases node l.
Proof.
  unfold leases. rewrite filter_cons. destruct (Z.eqb_spec n node) as [->|].
  - rewrite decide_True by done. cbn [length]. lia.
  - rewrite decide_False by done. lia.
Qed.

Lemma leases_perm node l l' : l ≡ₚ l' → leases node l = leases node l'.
Proof. intros Hp. unfold leases. by rewrite Hp. Qed.

Lemma leases_nonneg node l : 0 ≤ leases node l.
Proof. unfold leases. lia. Qed.

(** Replacing one node's pool by one that is right. *)
Lemma pools_ok_insert s l h l' h' node pool :
  pools_ok (mkPools s l h) →
  pool_ok pool (leases node l') (h' node) →
  (∀ n, n ≠ node → leases n l' = leases n l ∧ h' n = h n) →
  pools_ok (mkPools (set_blocking (<[node := pool]> (blocking s)) s) l' h').
Proof.
  intros Hok Hp Hother n. cbn. destruct (decide (n = node)) as [->|Hn].
  - by rewrite lookup_insert_eq.
  - rewrite lookup_insert_ne by done. specialize (Hok n). cbn in Hok.
    by destruct (Hother n Hn) as [-> ->].
Qed.

Lemma clear_idle_ok s l h node :
  pools_ok (mkPools s l h) → pools_ok (mkPools (clear_idle node s) l h).
Proof.
  intros Hok. unfold clear_idle. destruct (blocking s !! node) as [p|] eqn:Hp; [|done].
  eapply pools_ok_insert; [done| |done]. specialize (Hok node). cbn in Hok. rewrite Hp in Hok.
  destruct Hok as (H1 & H2 & H3 & H4 & _). split_and!; cbn; try done. lia.
Qed.

Lemma elsewhere_ok s s' l h :
  blocking s' = blocking s → pools_ok (mkPools s l h) → pools_ok (mkPools s' l h).
Proof. intros E Hok node. cbn. rewrite E. apply Hok. Qed.

Lemma length_removelast {A} (l : list A) : len (removelast l) ≤ len l.
Proof. induction l as [|a [|b l] IH]; cbn in *; lia. Qed.

Lemma pool_step_ok p p' : pools_ok p → pool_step p p' → pools_ok p'.
Proof.
  intros Hok Hstep. destruct Hstep as
    [s l h node r s' Hpop|s l h node Hlt|s l h node b Hin|s l l' h node Hperm|s l h node|s l h kind key|s s' l h E].
  - unfold pop_idle in Hpop. destruct (blocking s !! node) as [p|] eqn:Hp; [|by injection Hpop as _ <-].
    destruct (last (idle p)) as [b|]; [|by injection Hpop as _ <-]. injection Hpop as _ <-.
    eapply pools_ok_insert; [done| |done]. specialize (Hok node). cbn in Hok. rewrite Hp in Hok.
    destruct Hok as (H1 & H2 & H3 & H4 & H5). split_and!; cbn; try done.
    pose proof (length_removelast (idle p)). lia.
  - unfold check_out. eapply pools_ok_insert; [done| |].
    + specialize (Hok node). cbn in Hok. pose proof (leases_nonneg node l).
      rewrite leases_cons, Z.eqb_refl. unfold raise. rewrite Z.eqb_refl.
      assert (∀ x, x = leases node l → wrap 64 (x + 1) = leases node l + 1) as Hwrap.
      { intros x ->. rewrite wrap_small by (change (2 ^ 64) with (usize_max + 1); lia). done. }
      destruct (blocking s !! node) as [p|]; cbn [default].
      * destruct Hok as (H1 & H2 & H3 & H4 & H5). unfold pool_ok. cbn. rewrite Hwrap by done.
        split_and!; lia.
      * destruct Hok as (H1 & H2). unfold pool_ok. cbn. rewrite Hwrap by lia. split_and!; lia.
    + intros n Hn. rewrite leases_cons. unfold raise.
      destruct (Z.eqb_spec node n), (Z.eqb_spec n node); try congruence. split; [lia|done].
  - unfold give_back. eapply pools_ok_insert; [done| |done]. specialize (Hok node). cbn in Hok.
    assert (1 ≤ leases node l) as Hone.
    { unfold leases. assert (node ∈ filter (λ n, n = node) l) as Hf by (by apply list_elem_of_filter).
      destruct (filter _ l); [by apply not_elem_of_nil in Hf|cbn; lia]. }
    destruct (blocking s !! node) as [p|]; cbn [default]; [|lia].
    destruct Hok as (H1 & H2 & H3 & H4 & H5). split_and!; cbn; try done.
    destruct (Z.ltb_spec (len (idle p)) (Z.min (peak p) blocking_idle_max)); [|done].
    rewrite length_app. cbn. lia.
  - unfold drop_lease. pose proof (Hok node) as Hnode. cbn in Hnode. rewrite (leases_perm _ _ _ Hperm), leases_cons, Z.eqb_refl in Hnode.
    pose proof (leases_nonneg node l').
    destruct (blocking s !! node) as [p|]; [|lia].
    eapply pools_ok_insert; [done| |].
    + destruct Hnode as (H1 & H2 & H3 & H4 & H5). split_and!; cbn; try done; unfold sat_sub; lia.
    + intros n Hn. rewrite (leases_perm _ _ _ Hperm), leases_cons.
      destruct (Z.eqb_spec node n); [congruence|]. split; [lia|done].
  - unfold forget_broker. apply clear_idle_ok. by eapply elsewhere_ok.
  - unfold forget_coordinator_of. destruct (cached kind s key) as [node|].
    + apply clear_idle_ok. eapply elsewhere_ok; [|exact Hok]. by destruct kind.
    + eapply elsewhere_ok; [|exact Hok]. by destruct kind.
  - by eapply elsewhere_ok.
Qed.

(** C17: The blocking pool keeps its books.  However the checkouts, releases,
    drops, redials and cache updates of any number of tasks interleave, a node's
    pool counts exactly its live leases, its peak is the most there ever were at
    once, and it holds no more idle connections than that peak or the configured
    ceiling, whichever is smaller. *)
Theorem pool_counts_its_leases (s0 : State connection) (p : Pools) :
  blocking s0 = ∅ → rtc pool_step (mkPools s0 [] (λ _, 0)) p →
  ∀ node pool, blocking (shared p) !! node = Some pool →
    outstanding pool = leases node (live p) ∧ peak pool = high_water p node ∧
    outstanding pool ≤ peak pool ∧
    len (idle pool) ≤ Z.max 0 (Z.min (peak pool) blocking_idle_max).
Proof.
  intros H0 Hrun. assert (pools_ok p) as Hok.
  { remember (mkPools s0 [] (λ _, 0)) as p0 eqn:E. assert (pools_ok p0) as Hp0.
    { subst p0. intros node. cbn. by rewrite H0, lookup_empty. }
    clear E. induction Hrun as [|p1 p2 p3 Hstep _ IH]; [done|]. apply IH. by eapply pool_step_ok. }
  intros node pool Hp. specialize (Hok node). rewrite Hp in Hok.
  destruct Hok as (H1 & H2 & H3 & H4 & H5). rewrite H1, H2. by split_and!.
Qed.

End pool.

(** ** Routing

    What a stale mark makes the cluster forget. *)
Section routing.
Context {connection : Type}.

Lemma clear_leader_find p ps ps' :
  clear_leader p ps = Some ps' →
  (∃ info, List.find (λ q, index q =? p) ps' = Some info ∧ leader info = -1) ∧
  ∀ p', p' ≠ p → List.find (λ q, index q =? p') ps' = List.find (λ q, index q =? p') ps.
Proof.
  revert ps'. induction ps as [|q ps IH]; intros ps'; cbn; [done|].
  destruct (Z.eqb_spec (index q) p) as [->|Hq].
  - intros [= <-]. cbn. rewrite Z.eqb_refl. split; [by eexists|]. intros p' Hp.
    cbn. destruct (Z.eqb_spec p p'); [congruence|done].
  - destruct (clear_leader p ps) as [ps1|]; [|done]. intros [= <-]. cbn.
    destruct (Z.eqb_spec (index q) p); [done|]. destruct (IH ps1 eq_refl) as [H1 H2].
    split; [done|]. intros p' Hp. cbn. by rewrite H2.
Qed.

Lemma clear_leader_none p ps :
  clear_leader p ps = None ↔ ∀ q, q ∈ ps → index q ≠ p.
Proof.
  induction ps as [|q ps IH]; cbn; [by split; intros; [by apply not_elem_of_nil in H0|]|].
  destruct (Z.eqb_spec (index q) p) as [E|E].
  - split; [done|]. intros H. by destruct (H q (list_elem_of_here _ _)).
  - destruct (clear_leader p ps) as [ps'|]; split.
    + done.
    + intros H. exfalso. assert (Some ps' = None) as [=]. apply IH. intros q' Hq'. apply H. by right.
    + intros _ q' [->|Hq']%elem_of_cons; [done|]. by apply IH.
    + done.
Qed.

(** A stale partition is forgotten, and only it.  After the mark the
    partition has no leader in the cache, so the next lookup refreshes; every
    other partition routes as before, unless the partition was not in its
    topic's cached list at all, when that list is behind and is dropped whole.
    Connections, coordinators and the other caches are untouched. *)
Theorem mark_partition_stale_is_local (topic : string) (partition : Z) (s : State connection) :
  let s' := mark_partition_stale topic partition s in
  leader_id topic partition s' = None ∧
  (∀ topic' partition', (topic', partition') ≠ (topic, partition) →
     leader_id topic' partition' s' = leader_id topic' partition' s ∨
     (topic' = topic ∧ topics s' !! topic = None ∧
      ∀ ps p, topics s !! topic = Some ps → p ∈ ps → index p ≠ partition)) ∧
  s' = set_topics (topics s') s.
Proof.
  intros s'. unfold s', mark_partition_stale, leader_id.
  destruct (topics s !! topic) as [ps|] eqn:Ht.
  2: { rewrite Ht. split_and!; [done|by left|by destruct s]. }
  destruct (clear_leader partition ps) as [ps'|] eqn:Hc; cbn [topics set_topics].
  - apply clear_leader_find in Hc as [(info & Hf & Hl) Hother]. rewrite lookup_insert_eq, Hf, Hl.
    split_and!; [done| |done]. intros t p Hne. left. destruct (decide (t = topic)) as [->|].
    + rewrite lookup_insert_eq, Ht, Hother; [done|]. intros ->. by apply Hne.
    + by rewrite lookup_insert_ne.
  - rewrite lookup_delete_eq. split_and!; [done| |done]. intros t p Hne.
    destruct (decide (t = topic)) as [->|]; [right|left; by rewrite lookup_delete_ne].
    split_and!; [done|done|]. intros ps1 q [= <-]. by apply clear_leader_none.
Qed.

(** The two coordinator caches are apart, and forgetting in one closes the
    node's connections without touching the other. *)
Lemma forget_coordinator_of_local (kind other : CoordinatorKind) (key key' : string) (s : State connection) :
  (kind, key) ≠ (other, key') →
  cached other (forget_coordinator_of kind key s) key' = cached other s key' ∧
  cached kind (forget_coordinator_of kind key s) key = None.
Proof.
  intros Hne. unfold forget_coordinator_of, clear_idle.
  assert (∀ n, cached other (set_conns n (forget kind key s)) key' = cached other s key' ∧
    cached kind (set_conns n (forget kind key s)) key = None) as H.
  { intros n. destruct kind, other; cbn; rewrite ?lookup_delete_eq, ?lookup_delete_ne by congruence; done. }
  destruct (cached kind s key) as [node|]; [|apply (H (conns (forget kind key s)))].
  case_match; apply H.
Qed.

End routing.

(** ** The calls *)
Section calls.
Context {R : Runtime} {connection N : Type} `{Network connection (State connection * N)}.
Context `{Stringprep, Base64, Crypto}.
Context (pkg_version : string) (lossy : list byte → string) (render : ClientError → string).
Context (iteration : gmap Z BrokerInfo → list BrokerInfo) (config : ClientConfig).

Abbreviation W := (State connection * N)%type.
Abbreviation dial_addr := (dial_addr pkg_version lossy config).
Abbreviation first_reachable := (first_reachable pkg_version lossy render config).
Abbreviation candidates := (candidates iteration config).
Abbreviation control_broker := (control_broker pkg_version lossy render iteration config).

(** The addresses that were tried and failed, one after the other. *)
Inductive all_fail : list string → W → W → Prop :=
| all_fail_nil w : all_fail [] w w
| all_fail_cons a l w e w1 w2 :
    dial_addr a w = (Err e, w1) → all_fail l w1 w2 → all_fail (a :: l) w w2.

Lemma first_reachable_spec addrs : ∀ last w,
  match first_reachable last addrs w with
  | (Ok b, w') => ∃ tried a rest w1, addrs = tried ++ a :: rest ∧ all_fail tried w w1 ∧ dial_addr a w1 = (Ok b, w')
  | (Err e, w') => all_fail addrs w w' ∧ ∃ last', e = Bootstrap last'
  end.
Proof.
  induction addrs as [|a addrs IH]; intros last w; cbn [ClusterImpl.first_reachable].
  - unfold io_fail. split; [constructor|by eexists].
  - destruct (dial_addr a w) as [[b|e] w1] eqn:E.
    + exists [], a, addrs, w. by split_and!; [|constructor|].
    + specialize (IH (a +:+ ": " +:+ render e) w1).
      destruct (first_reachable _ addrs w1) as [[b|e'] w'].
      * destruct IH as (tried & a' & rest & w2 & -> & Hf & Hd). exists (a :: tried), a', rest, w2.
        split_and!; [done|by econstructor|done].
      * destruct IH as [Hf He]. split; [by econstructor|done].
Qed.

Lemma dedup_spec l : ∀ seen, NoDup (dedup seen l) ∧
  ∀ a, a ∈ dedup seen l ↔ a ∈ l ∧ a ∉ seen.
Proof.
  induction l as [|a l IH]; intros seen; cbn [dedup].
  { split; [constructor|]. intros a. rewrite elem_of_nil. tauto. }
  case_bool_decide as Ha.
  - destruct (IH seen) as [Hd Hm]. split; [done|]. intros b. rewrite Hm, elem_of_cons. split; [tauto|].
    intros [[->|]]; tauto.
  - destruct (IH (a :: seen)) as [Hd Hm]. split.
    + constructor; [|done]. rewrite Hm, elem_of_cons. tauto.
    + intros b. rewrite elem_of_cons, Hm, !elem_of_cons. destruct (decide (b = a)) as [->|]; tauto.
Qed.

(** C23: The control plane fails over to anything that answers.  A control
    connection already held is used; otherwise every configured bootstrap server
    and every broker metadata has named is a candidate, once each, and the call
    fails only when each of them has been dialled and none has answered.  When
    one does, the connection handed out is the one the cluster holds: the dialled
    one, or one that a concurrent redial put there first. *)
Theorem control_plane_fails_over (w : W) :
  (∀ m, iteration m ≡ₚ (map_to_list m).*2) →
  let tried := candidates w.1 in
  NoDup tried ∧
  (∀ a, a ∈ tried ↔ a ∈ bootstrap_servers config ∨ ∃ node info, brokers w.1 !! node = Some info ∧ a = addr info) ∧
  match control w.1, control_broker w with
  | Some b, r => r = (Ok b, w)
  | None, (Ok b, w') =>
      control w'.1 = Some b ∧
      ∃ failed a rest w1 w2 b', tried = failed ++ a :: rest ∧ all_fail failed w w1 ∧
        dial_addr a w1 = (Ok b', w2) ∧ (control w2.1 = Some b ∨ control w2.1 = None ∧ b = b')
  | None, (Err e, w') => all_fail tried w w' ∧ ∃ last, e = Bootstrap last
  end.
Proof.
  intros Hit tried. unfold tried, ClusterImpl.candidates.
  destruct (dedup_spec (bootstrap_servers config ++ (addr <$> iteration (brokers w.1))) []) as [Hnd Hin].
  split; [done|]. split.
  { intros a. rewrite Hin, elem_of_app, list_elem_of_fmap. split.
    - intros [[Ha|(info & -> & Hi)] _]; [by left|right]. rewrite Hit in Hi.
      apply list_elem_of_fmap in Hi as ([node info'] & -> & Hi). apply elem_of_map_to_list in Hi. by exists node, info'.
    - intros Ha. split; [|apply not_elem_of_nil]. destruct Ha as [Ha|(node & info & Hl & ->)]; [by left|right].
      exists info. split; [done|]. rewrite Hit. apply list_elem_of_fmap. exists (node, info).
      split; [done|]. by apply elem_of_map_to_list. }
  unfold ClusterImpl.control_broker, io_bind, this.
  destruct (control w.1) as [b|] eqn:Hc; [done|].
  pose proof (first_reachable_spec (candidates w.1) "no control-plane candidates" w) as Hspec.
  destruct (first_reachable _ _ w) as [[b|e] [s2 n2]]; [|done].
  destruct Hspec as (failed & a & rest & w1 & Ht & Hf & Hd).
  unfold locked, keep_control. destruct (control s2) as [won|] eqn:Hwon.
  - split; [done|]. exists failed, a, rest, w1, (s2, n2), b. by split_and!; [..|left].
  - split; [done|]. exists failed, a, rest, w1, (s2, n2), b. by split_and!; [..|right].
Qed.

End calls.

(** *** A refresh *)
Section refresh.
Context {R : Runtime} {connection N : Type} `{Network connection (State connection * N)}.

Abbreviation W := (State connection * N)%type.

(** The topics of a response that carry a name, as the cache keeps them. *)
Definition named_topics (l : list MetadataResponseTopic.t) : list (string * list byte * list PartitionInfo) :=
  omap (λ t, name ← MetadataResponseTopic.name t;
    Some (name, MetadataResponseTopic.topic_id t, partition_info <$> MetadataResponseTopic.partitions t)) l.

Definition named_error (t : MetadataResponseTopic.t) : Prop :=
  is_Some (MetadataResponseTopic.name t) ∧ error_code.is_ok (MetadataResponseTopic.error_code t) = false.

Lemma refreshed_topics_spec l :
  match refreshed_topics l with
  | Ok refreshed => refreshed = named_topics l ∧ Forall (λ t, ¬ named_error t) l
  | Err e => ∃ before t after, l = before ++ t :: after ∧ Forall (λ t, ¬ named_error t) before ∧
      named_error t ∧ e = ClientError.Broker (MetadataResponseTopic.error_code t)
  end.
Proof.
  induction l as [|t l IH]; cbn [refreshed_topics]; [done|]. unfold named_topics. cbn [omap list_omap].
  destruct (MetadataResponseTopic.name t) as [name|] eqn:Hn; cbn [mbind option_bind].
  - destruct (error_code.is_ok (MetadataResponseTopic.error_code t)) eqn:Hc; cbn [negb].
    + assert (¬ named_error t) as Ht by (intros [_ ?]; congruence).
      destruct (refreshed_topics l) as [refreshed|e]; cbn [res_bind].
      * destruct IH as [-> IH]. split; [done|by constructor].
      * destruct IH as (before & t' & after & -> & Hb & ?). exists (t :: before), t', after.
        split_and!; [done|by constructor|tauto|tauto].
    + exists [], t, l. split_and!; [done|constructor|split; [by eexists|done]|done].
  - assert (¬ named_error t) as Ht by (intros [[? ?] _]; congruence).
    destruct (refreshed_topics l) as [refreshed|e].
    + destruct IH as [-> IH]. split; [done|by constructor].
    + destruct IH as (before & t' & after & -> & Hb & ?). exists (t :: before), t', after.
      split_and!; [done|by constructor|tauto|tauto].
Qed.

Lemma refreshed_cache refreshed : ∀ (s : State connection) topic,
  topics (foldl refresh_topic s refreshed) !! topic =
    match last (filter (λ t, t.1.1 = topic) refreshed) with
    | Some t => Some t.2
    | None => topics s !! topic
    end.
Proof.
  induction refreshed as [|[[name id] ps] l IH] using rev_ind; intros s topic; [done|].
  rewrite foldl_snoc, filter_app. unfold refresh_topic. set (s1 := foldl _ s l).
  assert (∀ s2 : State connection, topics s2 = topics s1 →
    topics (set_topics (<[name := ps]> (topics s2)) s2) !! topic =
    match last (filter (λ t : string * list byte * list PartitionInfo, t.1.1 = topic) l ++
                filter (λ t : string * list byte * list PartitionInfo, t.1.1 = topic) [(name, id, ps)]) with
    | Some t => Some t.2 | None => topics s !! topic end) as Hone.
  { intros s2 E. cbn [topics set_topics]. rewrite E, filter_cons, filter_nil. cbn [fst].
    destruct (decide (name = topic)) as [->|].
    - by rewrite lookup_insert_eq, last_snoc.
    - rewrite lookup_insert_ne by done. rewrite app_nil_r. apply IH. }
  case_bool_decide; by apply Hone.
Qed.

(** A refresh takes a response whole or not at all.  If no topic the response
    names carries an error, the brokers become the response's and no others,
    every topic it names gets the partitions it lists -- the last such entry --
    and every other topic keeps what was known; a controller is learnt unless
    the broker knows none; connections, pools and coordinators stay.  If one
    does, the call fails with the first such code and nothing has changed. *)
Theorem refresh_is_whole (names : list string) (b : Broker connection) (w : W) (r : MetadataResponse.t)
    (s : State connection) (n : N) :
  exchange (Req := MetadataRequest.t) (Resp := MetadataResponse.t) b METADATA_SUPPORTED
    (metadata_request_for names) w = (Ok r, (s, n)) →
  match refresh_metadata_via names b w with
  | (Ok _, (s', n')) =>
      n' = n ∧ Forall (λ t, ¬ named_error t) (MetadataResponse.topics r) ∧
      (∀ topic, topics s' !! topic =
         match last (filter (λ t, t.1.1 = topic) (named_topics (MetadataResponse.topics r))) with
         | Some t => Some t.2
         | None => topics s !! topic
         end) ∧
      brokers s' = brokers_of (MetadataResponse.brokers r) ∧
      known_controller s' = (if 0 <=? MetadataResponse.controller_id r
                             then Some (MetadataResponse.controller_id r) else known_controller s) ∧
      control s' = control s ∧ conns s' = conns s ∧ blocking s' = blocking s ∧
      coordinators s' = coordinators s ∧ txn_coordinators s' = txn_coordinators s
  | (Err e, w') =>
      w' = (s, n) ∧ ∃ before t after, MetadataResponse.topics r = before ++ t :: after ∧
        Forall (λ t, ¬ named_error t) before ∧ named_error t ∧
        e = ClientError.Broker (MetadataResponseTopic.error_code t)
  end.
Proof.
  intros He. unfold refresh_metadata_via, io_bind, io_of. rewrite He.
  pose proof (refreshed_topics_spec (MetadataResponse.topics r)) as Ht.
  destruct (refreshed_topics _) as [refreshed|e]; [|done]. destruct Ht as [-> Hok]. unfold update.
  set (l := named_topics (MetadataResponse.topics r)).
  set (s1 := if MetadataResponse.controller_id r >=? 0
             then set_controller (Some (MetadataResponse.controller_id r))
                    (set_brokers (brokers_of (MetadataResponse.brokers r)) s)
             else set_brokers (brokers_of (MetadataResponse.brokers r)) s).
  unfold apply_metadata. fold s1.
  assert (∀ l (t : State connection), let t' := foldl refresh_topic t l in
    brokers t' = brokers t ∧ known_controller t' = known_controller t ∧ control t' = control t ∧
    conns t' = conns t ∧ blocking t' = blocking t ∧
    coordinators t' = coordinators t ∧ txn_coordinators t' = txn_coordinators t) as Hf.
  { induction l0 as [|[[name id] ps] l0 IH]; intros t; [done|]. cbn [foldl].
    specialize (IH (refresh_topic t (name, id, ps))). cbn zeta in *.
    destruct IH as (-> & -> & -> & -> & -> & -> & ->). unfold refresh_topic. by case_bool_decide. }
  destruct (Hf l s1) as (-> & -> & -> & -> & -> & -> & ->).
  split; [done|]. split; [done|]. split.
  { intros topic. rewrite refreshed_cache. unfold s1. by destruct (_ >=? 0). }
  unfold s1. rewrite Z.geb_leb. by destruct (0 <=? MetadataResponse.controller_id r).
Qed.

End refresh.

(** *** Witnesses: one lease taken and given back; a network nobody answers *)

Lemma pool_counts_its_leases_witness :
  len (idle (mkBlockingPool [mkBroker tt ∅] 0 1)) ≤ Z.max 0 (Z.min 1 256).
Proof.
  destruct (pool_counts_its_leases 256 (@state_default unit)
    (mkPools (drop_lease 1 (give_back 256 1 (mkBroker tt ∅) (check_out 1 state_default))) []
      (raise (λ _, 0) 1 1)) eq_refl) with (node := 1) (pool := mkBlockingPool [mkBroker tt (∅ : ApiVersionRanges)] 0 1)
    as (_ & _ & _ & Hl).
  - eapply rtc_l; [apply (StepCheckOut 256 state_default [] (λ _, 0) 1); reflexivity|].
    eapply rtc_l; [apply (StepGiveBack 256 _ [1] _ 1 (mkBroker tt ∅)); left|].
    eapply rtc_l; [apply (StepDrop 256 _ [1] [] _ 1); reflexivity|]. apply rtc_refl.
  - vm_compute. reflexivity.
  - exact Hl.
Defined.

#[export] Instance deaf_network : Network unit (State unit * unit) := {|
  connect := λ _, io_fail (Io "refused");
  is_encrypted := λ _, false;
  request := λ _ _ _ _, io_fail ConnectionClosed;
  note_throttle := λ _ _, id;
  getrandom := λ _, None;
  deadline := λ _ m w, (Some (m w).1, (m w).2);
  deadline_keeps := λ _ _ _, or_introl eq_refl |}.

Definition two_servers : ClientConfig :=
  mkClientConfig ["a:9092"; "b:9092"; "a:9092"] 256 false None DEFAULT_MAX_SCRAM_ITERATIONS.

Import rfc4648 toy.

Lemma control_plane_fails_over_witness :
  NoDup (candidates (λ m, (map_to_list m).*2) two_servers (@state_default unit)).
Proof.
  exact (proj1 (control_plane_fails_over (R := plain_runtime) (N := unit) "0.1.0" (λ _, "") (λ _, "")
    (λ m, (map_to_list m).*2) two_servers (@state_default unit, tt) (λ m, Permutation_refl _))).
Defined.

(** ** Where connections go *)

Import metadata_request metadata_response find_coordinator_request find_coordinator_response.
Import sasl_handshake_request sasl_handshake_response sasl_authenticate_request sasl_authenticate_response.

(** ** Invariants of a world *)
Section keeps.
Context {W : Type} (I : W → Prop).

(** [I] holds after [m] if it held before, whatever [m] returns. *)
Definition keeps {A} (m : io W A) : Prop := ∀ w, I w → I (m w).2.

Lemma keeps_ret {A} (a : A) : keeps (io_ret a).
Proof. by intros w. Qed.
Lemma keeps_fail {A} e : keeps (@io_fail W A e).
Proof. by intros w. Qed.
Lemma keeps_of {A} (r : result ClientError A) : keeps (io_of r).
Proof. by intros w. Qed.
Lemma keeps_bind {A B} (m : io W A) (k : A → io W B) :
  keeps m → (∀ a, keeps (k a)) → keeps (io_bind m k).
Proof.
  intros Hm Hk w Hw. specialize (Hm w Hw). unfold io_bind. destruct (m w) as [[a|e] w']; [by apply Hk|done].
Qed.
Lemma keeps_recover {A} again (m retry : io W A) : keeps m → keeps retry → keeps (recover again m retry).
Proof.
  intros Hm Hr w Hw. specialize (Hm w Hw). unfold recover. destruct (m w) as [[a|e] w']; [done|].
  destruct (again e); [by apply Hr|done].
Qed.
Lemma keeps_or_else {A} (m other : io W A) : keeps m → keeps other → keeps (or_else m other).
Proof.
  intros Hm Hr w Hw. specialize (Hm w Hw). unfold or_else. destruct (m w) as [[a|e] w']; [done|by apply Hr].
Qed.
Lemma keeps_at {A} (m : W → io W A) : (∀ w, keeps (m w)) → keeps (λ w, m w w).
Proof. intros Hm w. by apply Hm. Qed.

End keeps.

Section keeps_state.
Context {S N : Type} (I : S * N → Prop).

Lemma keeps_this : keeps I this.
Proof. by intros w. Qed.
Lemma keeps_update (f : S → S) : (∀ s n, I (s, n) → I (f s, n)) → keeps I (update f).
Proof. intros Hf [s n]. apply Hf. Qed.
Lemma keeps_locked {A} (f : S → A * S) : (∀ s n, I (s, n) → I ((f s).2, n)) → keeps I (locked f).
Proof. intros Hf [s n] Hw. specialize (Hf s n Hw). unfold locked. by destruct (f s). Qed.
Lemma keeps_locked_result {A} (f : S → result ClientError A * S) :
  (∀ s n, I (s, n) → I ((f s).2, n)) → keeps I (locked_result f).
Proof. intros Hf [s n] Hw. specialize (Hf s n Hw). unfold locked_result. by destruct (f s). Qed.

End keeps_state.

(** Walks down a call, bind by bind. *)
Ltac keeping :=
  repeat first
    [ assumption
    | match goal with
      | |- keeps _ (io_bind _ _) => apply keeps_bind; [|intros ?]
      | |- keeps _ (io_ret _) => apply keeps_ret
      | |- keeps _ (io_fail _) => apply keeps_fail
      | |- keeps _ (io_of _) => apply keeps_of
      | |- keeps _ this => apply keeps_this
      | |- keeps _ (recover _ _ _) => apply keeps_recover
      | |- keeps _ (or_else _ _) => apply keeps_or_else
      | |- keeps _ (match ?x with _ => _ end) => destruct x
      end ].

(** ** I/O that keeps an invariant *)
Section quiet.
Context {R : Runtime} {connection W : Type} `{Network connection W}.
Context `{Stringprep, Base64, Crypto}.
Context (pkg_version : string) (lossy : list byte → string) (config : ClientConfig).

(** Whatever the other tasks do while a socket is waited for. *)
Record quiet (I : W → Prop) : Prop := mkQuiet {
  quiet_connect a : keeps I (connect a);
  quiet_request c k v body : keeps I (request c k v body);
  quiet_throttle c ms w : I w → I (note_throttle c ms w);
  quiet_deadline A (m : io W A) : keeps I m → ∀ w, I w → I (deadline m w).2;
}.

Context (I : W → Prop) (Hq : quiet I).

Lemma keeps_decode {M} `{Message M} (b : Broker connection) version body :
  keeps I (decode_response (M := M) b version body).
Proof.
  unfold decode_response. keeping. intros w Hw. unfold io_do. cbn.
  destruct (Message.throttle_time_ms _); [by apply quiet_throttle|done].
Qed.

Lemma keeps_exchange {Req Resp} `{Message Req} `{Message Resp} (b : Broker connection) ours (request : Req) :
  keeps I (exchange (Req := Req) (Resp := Resp) b ours request).
Proof.
  unfold exchange, exchange_with, pick_version. apply keeps_bind; [apply keeps_of|intros version].
  apply keeps_bind; [|intros resp; apply keeps_decode].
  unfold ask. apply keeps_bind; [apply keeps_of|intros body]. intros w Hw.
  pose proof (quiet_request _ Hq (conn b) (Message.API_KEY (M := Req)) version body w Hw) as Hr.
  cbn [send network_brokers] in *. by destruct (Session.request _ _ _ _ _) as [[]].
Qed.

Lemma keeps_api_versions c req version :
  keeps I (api_versions_at (λ w k v body, Session.request c k v body w) req version).
Proof.
  intros w Hw. unfold api_versions_at. destruct (enc_bytes _) as [body|]; [|done].
  pose proof (quiet_request _ Hq c api_versions_request.ApiVersionsRequest.API_KEY version body w Hw) as Hr.
  destruct (Session.request _ _ _ _ _) as [[full|e] w']; done.
Qed.

Lemma keeps_negotiate c : keeps I (negotiate (λ w k v body, Session.request c k v body w) pkg_version).
Proof.
  intros w Hw. unfold negotiate.
  pose proof (keeps_api_versions c (negotiate_request pkg_version)
    api_versions_request.ApiVersionsRequest.MAX_VERSION w Hw) as Hr.
  destruct (api_versions_at _ _ _ _) as [[resp|e] w1]; [|done].
  destruct (error_code.is_ok _); [done|]. destruct (negb _); [done|].
  destruct (pick _ _ _) as [version|]; [|done].
  pose proof (keeps_api_versions c (negotiate_request pkg_version) version w1 Hr) as Hr2.
  destruct (api_versions_at _ _ version w1) as [[resp'|e] w2]; [|done]. by destruct (negb _).
Qed.

Lemma keeps_round (b : Broker connection) token : keeps I (sasl_round b token).
Proof. apply keeps_exchange. Qed.

Lemma keeps_scram (b : Broker connection) s m limits : keeps I (scram b s m limits).
Proof.
  unfold scram. apply (keeps_at I (λ w, _)). intros w. keeping; apply keeps_round.
Qed.

Lemma keeps_authenticate (b : Broker connection) : keeps I (authenticate lossy b config).
Proof.
  unfold authenticate, handshake, handshake_round, plain_session, oauthbearer_session.
  keeping; try apply keeps_exchange; try apply keeps_round; try apply keeps_scram.
  intros w Hw. pose proof (keeps_round b oauthbearer_failure_ack w Hw).
  by destruct (sasl_round _ _ _).
Qed.

Lemma keeps_dial a : keeps I (dial pkg_version lossy a config).
Proof.
  intros w Hw. unfold dial.
  match goal with |- context [deadline ?m w] => pose proof (quiet_deadline _ Hq _ m) as Hd end.
  specialize (Hd ltac:(keeping; [apply Hq|apply keeps_negotiate|apply keeps_authenticate]) w Hw).
  by destruct (deadline _ _).
Qed.

End quiet.

(** ** Calls of the cluster that keep an invariant *)
Section control.
Context {R : Runtime} {connection N : Type} `{Network connection (State connection * N)}.
Context `{Stringprep, Base64, Crypto}.
Context (pkg_version : string) (lossy : list byte → string) (render : ClientError → string).
Context (iteration : gmap Z BrokerInfo → list BrokerInfo) (config : ClientConfig).

Abbreviation W := (State connection * N)%type.

Context (I : W → Prop) (Hquiet : quiet I).
Context (Hcontrol : ∀ s n c, I (s, n) → I (set_control c s, n)).
Context (Hmetadata : ∀ s n names (r : MetadataResponse.t) refreshed,
  answered (W := W) (metadata_request_for names) r →
  refreshed_topics (MetadataResponse.topics r) = Ok refreshed → I (s, n) →
  I (apply_metadata (brokers_of (MetadataResponse.brokers r)) (MetadataResponse.controller_id r) refreshed s, n)).

Lemma keeps_first_reachable addrs : ∀ last,
  keeps I (first_reachable pkg_version lossy render config last addrs).
Proof.
  induction addrs as [|a addrs IH]; intros last w Hw; cbn [first_reachable]; [done|].
  pose proof (keeps_dial pkg_version lossy config _ Hquiet a w Hw) as Hd. unfold dial_addr.
  destruct (dial _ _ _ _ w) as [[b|e] w1]; [done|]. by apply IH.
Qed.

Lemma keeps_control_broker : keeps I (control_broker pkg_version lossy render iteration config).
Proof.
  unfold control_broker. keeping; [apply keeps_first_reachable|]. apply keeps_locked.
  intros s n Hs. unfold keep_control. destruct (control s); [done|]. by apply Hcontrol.
Qed.

Lemma keeps_with_control {A} (ask : Broker connection → io W A) :
  (∀ b, keeps I (ask b)) → keeps I (with_control pkg_version lossy render iteration config ask).
Proof.
  intros Ha. unfold with_control. keeping; try apply Ha; try apply keeps_control_broker.
  apply keeps_update. intros s n. by apply Hcontrol.
Qed.

Lemma keeps_refresh_via names b : keeps I (refresh_metadata_via names b).
Proof.
  intros w Hw. unfold refresh_metadata_via, io_bind.
  pose proof (keeps_exchange _ Hquiet (Req := MetadataRequest.t) (Resp := MetadataResponse.t) b
    METADATA_SUPPORTED (metadata_request_for names) w Hw) as Hk.
  destruct (exchange _ _ _ w) as [[resp|e] [s n]] eqn:He; [|done].
  apply exchange_answered in He. unfold io_of.
  destruct (refreshed_topics _) as [refreshed|] eqn:Hr; [|done]. unfold update. cbn [snd].
  by eapply Hmetadata.
Qed.

Lemma keeps_refresh names :
  keeps I (refresh_metadata pkg_version lossy render iteration config names).
Proof. apply keeps_with_control. apply keeps_refresh_via. Qed.

Lemma keeps_known_leader topic partition :
  keeps I (known_leader pkg_version lossy render iteration config topic partition).
Proof. unfold known_leader. keeping. apply keeps_refresh. Qed.

End control.

(** ** Endpoints *)
Section endpoints.
Context {R : Runtime} {connection N : Type} `{Network connection (State connection * N)}.
Context `{Stringprep, Base64, Crypto}.
Context (pkg_version : string) (lossy : list byte → string) (render : ClientError → string).
Context (iteration : gmap Z BrokerInfo → list BrokerInfo) (config : ClientConfig).

Abbreviation W := (State connection * N)%type.
Abbreviation dial_addr := (dial_addr pkg_version lossy config).

(** Some broker has named [info] for [node]: in a metadata response, or as a
    coordinator. *)
Definition named (node : Z) (info : BrokerInfo) : Prop :=
  (∃ names (r : MetadataResponse.t) b,
     answered (W := W) (metadata_request_for names) r ∧ b ∈ MetadataResponse.brokers r ∧
     node = MetadataResponseBroker.node_id b ∧ info = info_of b) ∨
  (∃ kind key (r : FindCoordinatorResponse.t),
     answered (W := W) (find_coordinator_request_for kind key) r ∧
     node = FindCoordinatorResponse.node_id r ∧
     info = mkBrokerInfo node (FindCoordinatorResponse.host r) (FindCoordinatorResponse.port r)).

(** [b] was dialled at an endpoint named for [node]. *)
Definition connected_to (node : Z) (b : Broker connection) : Prop :=
  ∃ info w w', named node info ∧ dial_addr (addr info) w = (Ok b, w').

Definition endpoints_ok (w : W) : Prop :=
  (∀ node info, brokers w.1 !! node = Some info → named node info) ∧
  (∀ node b, conns w.1 !! node = Some b → connected_to node b) ∧
  (∀ node pool b, blocking w.1 !! node = Some pool → b ∈ idle pool → connected_to node b).

(** Other tasks run the same calls. *)
Context (Hquiet : quiet endpoints_ok).

(** Sections that touch none of the three, and those that only remove. *)
Lemma endpoints_same (s s' : State connection) (n : N) :
  brokers s' = brokers s → conns s' = conns s → blocking s' = blocking s →
  endpoints_ok (s, n) → endpoints_ok (s', n).
Proof. unfold endpoints_ok. cbn. by intros -> -> ->. Qed.

Lemma keeps_dial_addr a : keeps endpoints_ok (dial_addr a).
Proof. by apply keeps_dial. Qed.

Lemma brokers_of_lookup l node info :
  brokers_of l !! node = Some info →
  ∃ b, b ∈ l ∧ node = MetadataResponseBroker.node_id b ∧ info = info_of b.
Proof.
  unfold brokers_of. induction l as [|b l IH] using rev_ind; cbn; [by rewrite lookup_empty|].
  rewrite foldl_snoc. destruct (decide (MetadataResponseBroker.node_id b = node)) as [E|E].
  - rewrite E, lookup_insert_eq. intros [= <-]. exists b. rewrite elem_of_app, list_elem_of_singleton. auto.
  - rewrite lookup_insert_ne by done. intros (b' & Hin & Hb)%IH. exists b'. rewrite elem_of_app. tauto.
Qed.

(** A refresh replaces the brokers and leaves the connections. *)
Lemma apply_metadata_frame b controller refreshed (s : State connection) :
  brokers (apply_metadata b controller refreshed s) = b ∧
  conns (apply_metadata b controller refreshed s) = conns s ∧
  blocking (apply_metadata b controller refreshed s) = blocking s ∧
  control (apply_metadata b controller refreshed s) = control s ∧
  coordinators (apply_metadata b controller refreshed s) = coordinators s ∧
  txn_coordinators (apply_metadata b controller refreshed s) = txn_coordinators s.
Proof.
  unfold apply_metadata.
  assert (∀ l (t : State connection), let t' := foldl refresh_topic t l in
    brokers t' = brokers t ∧ conns t' = conns t ∧ blocking t' = blocking t ∧ control t' = control t ∧
    coordinators t' = coordinators t ∧ txn_coordinators t' = txn_coordinators t) as Hf.
  { induction l as [|[[name id] ps] l IH]; intros t; [done|]. cbn [foldl]. specialize (IH (refresh_topic t (name, id, ps))).
    cbn zeta in *. destruct IH as (-> & -> & -> & -> & -> & ->). unfold refresh_topic.
    by case_bool_decide. }
  specialize (Hf refreshed (let s := set_brokers b s in
    if controller >=? 0 then set_controller (Some controller) s else s)).
  cbn zeta in Hf. destruct Hf as (-> & -> & -> & -> & -> & ->). by destruct (controller >=? 0).
Qed.

Lemma endpoints_control s n c : endpoints_ok (s, n) → endpoints_ok (set_control c s, n).
Proof. by apply endpoints_same. Qed.

Lemma endpoints_metadata s n names (r : MetadataResponse.t) refreshed :
  answered (W := W) (metadata_request_for names) r →
  refreshed_topics (MetadataResponse.topics r) = Ok refreshed → endpoints_ok (s, n) →
  endpoints_ok (apply_metadata (brokers_of (MetadataResponse.brokers r)) (MetadataResponse.controller_id r) refreshed s, n).
Proof.
  intros Ha _ (_ & Hc & Hi). unfold endpoints_ok. cbn [fst].
  destruct (apply_metadata_frame (brokers_of (MetadataResponse.brokers r))
    (MetadataResponse.controller_id r) refreshed s) as (-> & -> & -> & _).
  split; [|done]. intros node info (b & Hin & -> & ->)%brokers_of_lookup. left. by exists names, r, b.
Qed.

Lemma keeps_find_coordinator kind key b : keeps endpoints_ok (find_coordinator kind key b).
Proof.
  intros w Hw. unfold find_coordinator, io_bind.
  pose proof (keeps_exchange _ Hquiet (Req := FindCoordinatorRequest.t) (Resp := FindCoordinatorResponse.t) b
    FIND_COORDINATOR_SUPPORTED (find_coordinator_request_for kind key) w Hw) as Hk.
  destruct (exchange _ _ _ w) as [[resp|e] [s n]] eqn:He; [|done].
  apply exchange_answered in He. unfold io_of. destruct (broker_code _); [|done].
  unfold update, io_ret. cbn [snd]. destruct Hk as (Hb & Hc & Hi). unfold endpoints_ok. cbn [fst].
  split_and!.
  - intros node info. assert (∀ n m, brokers (record kind key n (set_brokers m s)) = m) as -> by (by destruct kind).
    destruct (decide (FindCoordinatorResponse.node_id resp = node)) as [E|E].
    + rewrite E, lookup_insert_eq. intros [= <-]. right. exists kind, key, resp. by rewrite E.
    + rewrite lookup_insert_ne by done. apply Hb.
  - by destruct kind.
  - by destruct kind.
Qed.

Lemma find_coordinator_found kind key b w node w' :
  find_coordinator kind key b w = (Ok node, w') →
  ∃ r : FindCoordinatorResponse.t, answered (W := W) (find_coordinator_request_for kind key) r ∧
    node = FindCoordinatorResponse.node_id r.
Proof.
  intros (resp & w1 & He & Hr)%io_bind_ok. apply exchange_answered in He. exists resp. split; [done|].
  apply io_bind_ok in Hr as (u & w2 & _ & Hr). apply io_bind_ok in Hr as (u' & w3 & _ & Hr).
  by injection Hr as -> _.
Qed.

Lemma with_control_ok {A} (ask : Broker connection → io W A) w a w' :
  with_control pkg_version lossy render iteration config ask w = (Ok a, w') →
  ∃ b w1, ask b w1 = (Ok a, w').
Proof.
  intros (b & w1 & _ & Hr)%io_bind_ok. unfold recover in Hr.
  destruct (ask b w1) as [[a'|e] w2] eqn:Ha; [by exists b, w1; injection Hr as <- <-|].
  destruct (is_control_failure e); [|done].
  apply io_bind_ok in Hr as (u & w3 & _ & Hr). apply io_bind_ok in Hr as (b' & w4 & _ & Hr).
  by exists b', w4.
Qed.

(** A connection handed out by the pool, or dialled and pooled. *)
Lemma broker_connected node w b w' :
  endpoints_ok w → broker pkg_version lossy config node w = (Ok b, w') →
  connected_to node b ∧ endpoints_ok w'.
Proof.
  intros Hw. unfold broker, io_bind, this. destruct w as [s n]. cbn [fst].
  destruct (conns s !! node) as [b0|] eqn:Hc.
  { intros [= <- <-]. split; [|done]. by apply (proj1 (proj2 Hw)). }
  unfold io_of. destruct (brokers s !! node) as [info|] eqn:Hb; cbn [ok_or]; [|done].
  pose proof (keeps_dial_addr (addr info) (s, n) Hw) as Hd.
  destruct (dial_addr (addr info) (s, n)) as [[b1|e] [s1 n1]] eqn:Hdial; [|done].
  assert (connected_to node b1) as Hb1.
  { exists info, (s, n), (s1, n1). split; [by apply (proj1 Hw)|done]. }
  cbn [snd] in Hd. unfold locked, keep_conn. destruct (conns s1 !! node) as [won|] eqn:Hwon; intros [= <- <-].
  - split; [|done]. by apply (proj1 (proj2 Hd)).
  - split; [done|]. destruct Hd as (H1' & H2' & H3'). split_and!; [done| |done].
    intros node' b'. cbn. destruct (decide (node = node')) as [->|].
    + rewrite lookup_insert_eq. by intros [= <-].
    + rewrite lookup_insert_ne by done. apply H2'.
Qed.

(** Where a call learns the leader of a partition: the cache it finds names it, or
    names none and does after one refresh for the topic, which ends in [w']. *)
Definition leader_learnt (topic : string) (partition : Z) (w : W) (node : Z) (w' : W) : Prop :=
  match leader_id topic partition w.1 with
  | Some leader => node = leader ∧ w' = w
  | None => refresh_metadata pkg_version lossy render iteration config [topic] w = (Ok tt, w') ∧
            leader_id topic partition w'.1 = Some node
  end.

Lemma known_leader_learnt topic partition w node w' :
  known_leader pkg_version lossy render iteration config topic partition w = (Ok node, w') →
  leader_learnt topic partition w node w'.
Proof.
  intros (s & w1 & Hs & (u & w2 & Hr & Hl)%io_bind_ok)%io_bind_ok. injection Hs as <- <-.
  apply io_bind_ok in Hl as (s2 & w3 & Hs & (Hl & ->)%io_of_ok). injection Hs as <- <-.
  unfold leader_learnt. destruct (leader_id topic partition w.1) as [leader|] eqn:E.
  - injection Hr as <- <-. rewrite E in Hl. by injection Hl as ->.
  - destruct u. split; [done|]. by destruct (leader_id topic partition w2.1); [injection Hl as ->|].
Qed.

Lemma known_leader_cached topic partition w node w' :
  known_leader pkg_version lossy render iteration config topic partition w = (Ok node, w') →
  leader_id topic partition w'.1 = Some node.
Proof.
  intros Hl%known_leader_learnt. unfold leader_learnt in Hl.
  destruct (leader_id topic partition w.1) eqn:E; [by destruct Hl as [-> ->]|by destruct Hl].
Qed.

Lemma last_elem {A} (l : list A) x : last l = Some x → x ∈ l.
Proof. intros (l' & ->)%last_Some. apply elem_of_app. right. by apply list_elem_of_singleton. Qed.

Lemma removelast_elem {A} (l : list A) x : x ∈ removelast l → x ∈ l.
Proof.
  induction l as [|a [|b l] IH]; [done|by intros ?%elem_of_nil|].
  intros [->|Hx]%elem_of_cons; [left|right; by apply IH].
Qed.

(** Changing one node's pool to one whose idle connections were there. *)
Lemma endpoints_set_pool (s : State connection) (n : N) node pool :
  endpoints_ok (s, n) → (∀ b, b ∈ idle pool → connected_to node b) →
  endpoints_ok (set_blocking (<[node := pool]> (blocking s)) s, n).
Proof.
  intros (Hb & Hc & Hi) Hp. split_and!; [done|done|]. cbn. intros node' pool' b.
  destruct (decide (node = node')) as [->|].
  - rewrite lookup_insert_eq. intros [= <-]. apply Hp.
  - rewrite lookup_insert_ne by done. apply Hi.
Qed.

Lemma blocking_connected node w l w' :
  endpoints_ok w → blocking_broker pkg_version lossy config node w = (Ok l, w') →
  l.2 = node ∧ connected_to node l.1 ∧ endpoints_ok w'.
Proof.
  intros Hw. destruct w as [s n]. unfold blocking_broker.
  intros (popped & [s1 n1] & Hpop & Hr)%io_bind_ok.
  assert (endpoints_ok (s1, n1) ∧ ∀ b, popped = Some b → connected_to node b) as [Hw1 Hpopped].
  { revert Hpop. unfold locked_result, pop_idle.
    destruct (blocking s !! node) as [pool|] eqn:Hp.
    - destruct (last (idle pool)) as [b|] eqn:Hl.
      + intros [= <- <- <-]. split.
        * apply endpoints_set_pool; [done|]. cbn. intros b' Hb'%removelast_elem.
          by apply (proj2 (proj2 Hw) node pool).
        * intros b' [= <-]. apply last_elem in Hl. by apply (proj2 (proj2 Hw) node pool).
      + case_bool_decide; intros [= <- <- <-]; split; done.
    - case_bool_decide; intros [= <- <- <-]; split; done. }
  apply io_bind_ok in Hr as (b & [s2 n2] & Hb & Hr).
  assert (endpoints_ok (s2, n2) ∧ connected_to node b) as [Hw2 Hcb].
  { destruct popped as [b0|].
    - injection Hb as <- <- <-. split; [done|by apply Hpopped].
    - apply io_bind_ok in Hb as (s1' & w1' & Hs & Hb). injection Hs as <- <-.
      apply io_bind_ok in Hb as (info & w1' & (Hinfo & ->)%io_of_ok & Hd). cbn [fst] in Hinfo.
      destruct (brokers s1 !! node) as [info'|] eqn:Hbi; [|done]. injection Hinfo as ->.
      pose proof (keeps_dial_addr (addr info) (s1, n1) Hw1) as Hk. rewrite Hd in Hk. split; [done|].
      exists info, (s1, n1), (s2, n2). split; [by apply (proj1 Hw1)|done]. }
  apply io_bind_ok in Hr as (u & w3 & Hu & Hr). injection Hu as _ <-. injection Hr as <- <-.
  split_and!; [done|done|]. apply endpoints_set_pool; [done|]. cbn.
  destruct (blocking s2 !! node) as [pool|] eqn:Hp; cbn [default]; [|by intros b' ?%elem_of_nil].
  intros b' Hb'. by apply (proj2 (proj2 Hw2) node pool).
Qed.

(** C18: A connection goes where it says.  Whatever other tasks do while sockets
    are waited for, as long as they too are calls of the cluster, a connection
    handed out for a node -- shared or leased, for a leader or a coordinator,
    pooled or new -- was dialled at an endpoint that some broker named for that
    node; for a partition it is the node the cache the call finds names as its leader,
    or, when it names none, the one it names after a refresh for the topic; for a key
    it is the node the cache or FindCoordinator names; and what the cluster goes on
    holding is the same. *)
Theorem connections_go_where_they_say (w : W) :
  endpoints_ok w →
  (∀ node b w', broker pkg_version lossy config node w = (Ok b, w') →
     connected_to node b ∧ endpoints_ok w') ∧
  (∀ node l w', blocking_broker pkg_version lossy config node w = (Ok l, w') →
     l.2 = node ∧ connected_to node l.1 ∧ endpoints_ok w') ∧
  (∀ topic partition b w',
     partition_leader pkg_version lossy render iteration config topic partition w = (Ok b, w') →
     ∃ node w1, leader_learnt topic partition w node w1 ∧
       broker pkg_version lossy config node w1 = (Ok b, w') ∧ connected_to node b ∧ endpoints_ok w') ∧
  (∀ topic partition l w',
     blocking_partition_leader pkg_version lossy render iteration config topic partition w = (Ok l, w') →
     ∃ w1, leader_learnt topic partition w l.2 w1 ∧
       blocking_broker pkg_version lossy config l.2 w1 = (Ok l, w') ∧ connected_to l.2 l.1 ∧ endpoints_ok w') ∧
  (∀ kind key b w',
     coordinator_of pkg_version lossy render iteration config kind key w = (Ok b, w') →
     ∃ node, connected_to node b ∧ endpoints_ok w' ∧
       (cached kind w.1 key = Some node ∨
        ∃ r : FindCoordinatorResponse.t, answered (W := W) (find_coordinator_request_for kind key) r ∧
          node = FindCoordinatorResponse.node_id r)).
Proof.
  intros Hw. split_and!.
  - intros node b w'. by apply broker_connected.
  - intros node l w'. by apply blocking_connected.
  - intros topic partition b w' (node & w1 & Hl & Hb)%io_bind_ok.
    pose proof (keeps_known_leader pkg_version lossy render iteration config _ Hquiet endpoints_control
      endpoints_metadata topic partition w Hw) as Hk. rewrite Hl in Hk.
    apply known_leader_learnt in Hl. exists node, w1. split; [done|]. split; [done|]. by eapply broker_connected.
  - intros topic partition l w' (node & w1 & Hl & Hb)%io_bind_ok.
    pose proof (keeps_known_leader pkg_version lossy render iteration config _ Hquiet endpoints_control
      endpoints_metadata topic partition w Hw) as Hk. rewrite Hl in Hk.
    apply known_leader_learnt in Hl. exists w1.
    pose proof Hb as (E & ? & ?)%blocking_connected; [|done]. rewrite E in *. by split_and!.
  - intros kind key b w' (s & w1 & Hs & Hr)%io_bind_ok. injection Hs as <- <-.
    apply io_bind_ok in Hr as (node & w2 & Hn & Hb).
    assert (endpoints_ok w2 ∧ (cached kind w.1 key = Some node ∨
      ∃ r : FindCoordinatorResponse.t, answered (W := W) (find_coordinator_request_for kind key) r ∧
        node = FindCoordinatorResponse.node_id r)) as [Hw2 Hfrom].
    { destruct (cached kind w.1 key) as [node'|].
      - injection Hn as -> ->. auto.
      - pose proof (keeps_with_control pkg_version lossy render iteration config _ Hquiet endpoints_control
          (find_coordinator kind key) (keeps_find_coordinator kind key) w Hw) as Hk.
        rewrite Hn in Hk. split; [done|right].
        apply with_control_ok in Hn as (b' & w3 & Hn). by eapply find_coordinator_found. }
    destruct (broker_connected node w2 b w' Hw2 Hb) as [Hc Hw']. by exists node.
Qed.

End endpoints.
