(* ===== verification/Event.v ===== *)
(** * Events, positions and filters ([odradek-web-core/src/event.rs])

    The web-shaped record, where a subscription starts and what it selects;
    and what a log is to the theorems about streams: events at strictly
    ascending positions, cut into segments. *)
From S2P Require Import Prelude.

Record Event : Type := mkEvent {
  topic : string;
  partition : Z;
  offset : Z;
  timestamp : Z;
  key : option (list byte);
  value : option (list byte);
  headers : list (string * option (list byte));
}.

Definition at_ (topic : string) (partition offset timestamp : Z) : Event :=
  mkEvent topic partition offset timestamp None None [].

Inductive Position : Type :=
| Earliest
| Latest
| After (offset : Z).

Record Filter : Type := mkFilter {
  key_prefix : option (list byte);
  header : option (string * list byte);
}.

Definition no_filter : Filter := mkFilter None None.

(** [slice::starts_with]. *)
Definition starts_with (l prefix : list byte) : bool :=
  bool_decide (take (length prefix) l = prefix).

Definition matches (f : Filter) (event : Event) : bool :=
  match key_prefix f with
  | Some prefix =>
      match key event with
      | Some k => starts_with k prefix
      | None => false
      end
  | None => true
  end &&
  match header f with
  | Some (name, value) =>
      existsb (λ '(k, v), String.eqb k name && bool_decide (v = Some value)) (headers event)
  | None => true
  end.

(** ** Positions compared

    [Option<i64>] as Rust orders it: [None], the position before the oldest
    record, sorts below every other. *)
Definition pos_leb (a b : option Z) : bool :=
  match a, b with
  | None, _ => true
  | Some _, None => false
  | Some x, Some y => x <=? y
  end.
Definition pos_ltb (a b : option Z) : bool := negb (pos_leb b a).
Definition pos_max (a b : option Z) : option Z := if pos_leb a b then b else a.

Definition pos_le (a b : option Z) : Prop := pos_leb a b = true.
Definition pos_lt (a b : option Z) : Prop := pos_leb b a = false.

Lemma pos_le_refl a : pos_le a a.
Proof. destruct a; unfold pos_le; cbn; [apply Z.leb_refl|done]. Qed.
Lemma pos_le_trans a b c : pos_le a b → pos_le b c → pos_le a c.
Proof. destruct a, b, c; unfold pos_le; cbn; rewrite ?Z.leb_le; try done; lia. Qed.
Lemma pos_le_antisym a b : pos_le a b → pos_le b a → a = b.
Proof.
  destruct a, b; unfold pos_le; cbn; rewrite ?Z.leb_le; try done. intros. f_equal. lia.
Qed.
Lemma pos_not_le a b : ¬ pos_le a b ↔ pos_lt b a.
Proof. unfold pos_le, pos_lt. by rewrite not_true_iff_false. Qed.
Lemma pos_lt_le a b : pos_lt a b → pos_le a b.
Proof.
  destruct a, b; unfold pos_lt, pos_le; cbn; rewrite ?Z.leb_le, ?Z.leb_gt; try done; lia.
Qed.
Lemma pos_le_total a b : pos_le a b ∨ pos_lt b a.
Proof. unfold pos_le, pos_lt. destruct (pos_leb a b); auto. Qed.
Lemma pos_none_le a : pos_le None a.
Proof. done. Qed.
Lemma pos_le_lt_trans a b c : pos_le a b → pos_lt b c → pos_lt a c.
Proof.
  destruct a, b, c; unfold pos_lt, pos_le; cbn; rewrite ?Z.leb_le, ?Z.leb_gt; try done; lia.
Qed.
Lemma pos_lt_le_trans a b c : pos_lt a b → pos_le b c → pos_lt a c.
Proof.
  destruct a, b, c; unfold pos_lt, pos_le; cbn; rewrite ?Z.leb_le, ?Z.leb_gt; try done; lia.
Qed.
Lemma pos_ltb_lt a b : pos_ltb a b = true ↔ pos_lt a b.
Proof. unfold pos_ltb, pos_lt. by rewrite negb_true_iff. Qed.
Lemma pos_ltb_nlt a b : pos_ltb a b = false ↔ pos_le b a.
Proof. unfold pos_ltb, pos_le. by rewrite negb_false_iff. Qed.
Lemma pos_max_l a b : pos_le a (pos_max a b).
Proof. unfold pos_max. destruct (pos_leb a b) eqn:E; [done|apply pos_le_refl]. Qed.
Lemma pos_max_r a b : pos_le b (pos_max a b).
Proof.
  unfold pos_max. destruct (pos_leb a b) eqn:E; [apply pos_le_refl|]. by apply pos_lt_le.
Qed.

(** ** Logs and their segments *)

Definition at_pos (e : Event) : option Z := Some (offset e).

Definition ascending (l : list Event) : Prop :=
  StronglySorted (λ e1 e2, pos_lt (at_pos e1) (at_pos e2)) l.

Definition in_segment (a b : option Z) (e : Event) : bool :=
  pos_ltb a (at_pos e) && pos_leb (at_pos e) b.

(** The events of a log after [a] and up to [b]. *)
Definition segment (log : list Event) (a b : option Z) : list Event :=
  List.filter (in_segment a b) log.

#[global] Arguments pos_leb : simpl never.

(** A later cut of a segment is a filter of it. *)
Lemma segment_filter log a b c d :
  (∀ e, in_segment c d e = true → in_segment a b e = true) →
  segment log c d = List.filter (in_segment c d) (segment log a b).
Proof.
  intros H. unfold segment. induction log as [|e l IH]; [done|]. cbn [List.filter].
  destruct (in_segment a b e) eqn:E; cbn [List.filter]; rewrite IH; [done|].
  destruct (in_segment c d e) eqn:E'; [|done]. apply H in E'. congruence.
Qed.

Lemma in_segment_iff a b e : in_segment a b e = true ↔ pos_lt a (at_pos e) ∧ pos_le (at_pos e) b.
Proof. unfold in_segment. by rewrite andb_true_iff, pos_ltb_lt. Qed.

Lemma filter_app_list {A} (f : A → bool) l1 l2 :
  List.filter f (l1 ++ l2) = List.filter f l1 ++ List.filter f l2.
Proof. induction l1 as [|x l1 IH]; [done|]. cbn. rewrite IH. by destruct (f x). Qed.

Lemma filter_all_true {A} (f : A → bool) l : (∀ x, x ∈ l → f x = true) → List.filter f l = l.
Proof.
  induction l as [|x l IH]; intros H; [done|]. cbn. rewrite (H x) by (by apply elem_of_cons; left).
  f_equal. apply IH. intros y Hy. apply H. by apply elem_of_cons; right.
Qed.

Lemma filter_all_false {A} (f : A → bool) l : (∀ x, x ∈ l → f x = false) → List.filter f l = [].
Proof.
  induction l as [|x l IH]; intros H; [done|]. cbn. rewrite (H x) by (by apply elem_of_cons; left).
  apply IH. intros y Hy. apply H. by apply elem_of_cons; right.
Qed.

Lemma log_ascending_filter f l : ascending l → ascending (List.filter f l).
Proof.
  unfold ascending. induction 1 as [|e l Hs IH Hall]; [constructor|]. cbn.
  destruct (f e); [|done]. constructor; [done|]. apply Forall_forall. intros x Hx.
  apply list_elem_of_In, filter_In in Hx as [Hx _].
  by apply (proj1 (Forall_forall _ _) Hall), list_elem_of_In.
Qed.

Lemma ascending_app l1 l2 :
  ascending (l1 ++ l2) ↔ ascending l1 ∧ ascending l2 ∧
    ∀ x y, x ∈ l1 → y ∈ l2 → pos_lt (at_pos x) (at_pos y).
Proof.
  unfold ascending. induction l1 as [|e l1 IH]; cbn [app].
  - split; [|by intros (_ & ? & _)]. intros H. split_and!; [constructor|done|].
    intros x y Hx. by apply not_elem_of_nil in Hx.
  - split.
    + intros H. apply StronglySorted_inv in H as [H Hall]. apply IH in H as (H1 & H2 & H3).
      apply Forall_app in Hall as [Ha1 Ha2]. split_and!; [by constructor|done|].
      intros x y [->|Hx]%elem_of_cons Hy; [|by apply H3].
      by apply (proj1 (Forall_forall _ _) Ha2).
    + intros (H1 & H2 & H3). apply StronglySorted_inv in H1 as [H1 Hall].
      constructor.
      * apply IH. split_and!; try done. intros x y Hx. apply H3. by apply elem_of_cons; right.
      * apply Forall_app. split; [done|]. apply Forall_forall. intros y Hy. apply H3; [|done].
        by apply elem_of_cons; left.
Qed.

Section segments.
Context (log : list Event) (Hlog : ascending log).

Lemma segment_in a b e : e ∈ segment log a b → pos_lt a (at_pos e) ∧ pos_le (at_pos e) b.
Proof.
  unfold segment. rewrite list_elem_of_In, filter_In. intros [_ H]. by apply in_segment_iff.
Qed.

Lemma segment_elem a b e : e ∈ segment log a b → e ∈ log.
Proof. unfold segment. rewrite !list_elem_of_In, filter_In. tauto. Qed.

Lemma segment_empty a b : pos_le b a → segment log a b = [].
Proof.
  intros H. apply filter_all_false. intros e _. apply not_true_iff_false.
  rewrite in_segment_iff. intros [H1 H2].
  pose proof (pos_le_lt_trans _ _ _ (pos_le_trans _ _ _ H2 H) H1) as Hx.
  unfold pos_lt in Hx. by rewrite (pos_le_refl (at_pos e)) in Hx.
Qed.

Lemma segment_ascending a b : ascending (segment log a b).
Proof. by apply log_ascending_filter. Qed.

Lemma segment_split a b c :
  pos_le a b → pos_le b c → segment log a c = segment log a b ++ segment log b c.
Proof.
  intros Hab Hbc. unfold segment. induction Hlog as [|e l Hs IH Hall]; [done|].
  cbn [List.filter]. specialize (IH Hs).
  destruct (pos_le_total (at_pos e) b) as [Hb|Hb].
  - assert (in_segment b c e = false) as ->.
    { apply not_true_iff_false. rewrite in_segment_iff. intros [H _]. unfold pos_lt, pos_le in *.
      congruence. }
    assert (in_segment a c e = in_segment a b e) as ->.
    { unfold in_segment. f_equal. unfold pos_le in Hb. rewrite Hb.
      exact (pos_le_trans _ _ _ Hb Hbc). }
    by destruct (in_segment a b e); cbn [app]; rewrite IH.
  - assert (List.filter (in_segment a b) (e :: l) = []) as Hnil.
    { apply filter_all_false. intros x Hx. apply not_true_iff_false. rewrite in_segment_iff.
      intros [_ H]. assert (pos_lt b (at_pos x)) as Hlt.
      { apply elem_of_cons in Hx as [->|Hx]; [done|].
        apply (pos_lt_le_trans _ (at_pos e)); [done|]. apply pos_lt_le.
        by apply (proj1 (Forall_forall _ _) Hall). }
      unfold pos_lt, pos_le in *. congruence. }
    cbn [List.filter] in Hnil. destruct (in_segment a b e); [done|]. rewrite Hnil in *.
    assert (in_segment a c e = in_segment b c e) as ->; [|by rewrite IH].
    unfold in_segment. f_equal. unfold pos_ltb. unfold pos_lt in Hb. rewrite Hb.
    by rewrite (pos_le_lt_trans _ _ _ Hab Hb : pos_leb (at_pos e) a = false).
Qed.

(** Cutting a segment at one of its events. *)
Lemma segment_cut a b l1 e l2 :
  segment log a b = l1 ++ e :: l2 →
  segment log a (at_pos e) = l1 ++ [e] ∧ segment log (at_pos e) b = l2 ∧
  pos_lt a (at_pos e) ∧ pos_le (at_pos e) b.
Proof.
  intros E. assert (e ∈ segment log a b) as He.
  { rewrite E. apply elem_of_app. right. by apply elem_of_cons; left. }
  apply segment_in in He as [H1 H2].
  pose proof (segment_ascending a b) as Hasc. rewrite E in Hasc.
  rewrite (cons_middle e l1 l2), app_assoc in E. rewrite (cons_middle e l1 l2), app_assoc in Hasc.
  pose proof (proj1 (ascending_app _ _) Hasc) as (Hasc1 & _ & Hlt).
  apply ascending_app in Hasc1 as (_ & _ & Hlt1).
  assert (∀ x, x ∈ l1 ++ [e] → pos_le (at_pos x) (at_pos e)) as Hle.
  { intros x [Hx| ->%list_elem_of_singleton]%elem_of_app; [|apply pos_le_refl].
    apply pos_lt_le, Hlt1; [done|]. by apply elem_of_cons; left. }
  assert (∀ x, x ∈ l2 → pos_lt (at_pos e) (at_pos x)) as Hgt.
  { intros x Hx. apply Hlt; [|done]. apply elem_of_app. right. by apply elem_of_cons; left. }
  assert (∀ x, x ∈ (l1 ++ [e]) ++ l2 → pos_lt a (at_pos x) ∧ pos_le (at_pos x) b) as Hin.
  { intros x. rewrite <- E. apply segment_in. }
  split_and!; try done.
  - rewrite (segment_filter log a b), E, filter_app_list, filter_all_true, filter_all_false,
      app_nil_r; [done| | |].
    + intros x Hx. apply not_true_iff_false. rewrite in_segment_iff. intros [_ H].
      specialize (Hgt x Hx). unfold pos_lt, pos_le in *. congruence.
    + intros x Hx. apply in_segment_iff. split; [|by apply Hle]. apply Hin.
      apply elem_of_app. by left.
    + intros x. rewrite !in_segment_iff. intros [? ?]. split; [done|]. by eapply pos_le_trans.
  - rewrite (segment_filter log a b), E, filter_app_list, filter_all_false, filter_all_true;
      [done| | |].
    + intros x Hx. apply in_segment_iff. split; [by apply Hgt|]. apply Hin.
      apply elem_of_app. by right.
    + intros x Hx. apply not_true_iff_false. rewrite in_segment_iff. intros [H _].
      specialize (Hle x Hx). unfold pos_lt, pos_le in *. congruence.
    + intros x. rewrite !in_segment_iff. intros [? ?]. split; [|done].
      eapply pos_le_lt_trans; [|done]. by apply pos_lt_le.
Qed.

(** The events a cursor inside a segment has still to see. *)
Lemma segment_skip a b c :
  pos_le a c → pos_le c b →
  segment log c b = List.filter (λ e, pos_ltb c (at_pos e)) (segment log a b).
Proof.
  intros Hac Hcb. rewrite (segment_filter log a b c b).
  - apply List.filter_ext_in. intros e He%list_elem_of_In%segment_in. unfold in_segment.
    destruct He as [_ ->]. apply andb_true_r.
  - intros e. rewrite !in_segment_iff. intros [? ?]. split; [|done]. by eapply pos_le_lt_trans.
Qed.

End segments.

(** ** Selection *)

Definition select (f : Filter) (l : list Event) : list Event := List.filter (matches f) l.

Lemma select_app f l1 l2 : select f (l1 ++ l2) = select f l1 ++ select f l2.
Proof. apply filter_app_list. Qed.
