(* ===== verification/Json.v ===== *)
(** * The JSON view of an event ([odradek-web-core/src/json.rs]) and shared events

    What [EventJson] hands its serializer, as a tree of the maps, sequences and
    scalars it serializes in order; [serde_json], which turns the tree into a
    value or into bytes, is a parameter.  And [SharedEvent] of [event.rs]: handles
    to one event whose rendering is kept once made. *)
From S2P Require Import Prelude Text Wire Event Sasl.

(** ** The calls on the serializer *)

(** [serialize_map(Some(len))] and its entries, [serialize_seq(Some(len))] and
    its elements, [serialize_str], and an integer. *)
Inductive Json : Type :=
| Map (len : Z) (entries : list (string * Json))
| Seq (len : Z) (elements : list Json)
| Str (s : text)
| Int (z : Z).

Inductive Encoded : Type :=
| AsText (s : text)
| AsBase64 (s : text).

Record Field : Type := mkField {
  field_text : string;
  field_base64 : string;
}.

Definition KEY : Field := mkField "key" "key_base64".
Definition VALUE : Field := mkField "value" "value_base64".

(** [Field::name]. *)
Definition field_name (f : Field) (e : Encoded) : string :=
  match e with
  | AsText _ => field_text f
  | AsBase64 _ => field_base64 f
  end.

Definition serialize_encoded (e : Encoded) : Json :=
  match e with
  | AsText s => Str s
  | AsBase64 s => Str s
  end.

Section json.
Context `{Base64}.

(** [Encoded::of]. *)
Definition encoded_of (bytes : list byte) : Encoded :=
  if utf8_valid bytes then AsText bytes else AsBase64 (b64_encode bytes).

(** [serialize_entry(FIELD.name(&encoded), &encoded)], under [if let Some]. *)
Definition serialize_field (f : Field) (bytes : option (list byte)) : list (string * Json) :=
  match bytes with
  | Some bytes =>
      let encoded := encoded_of bytes in
      [(field_name f encoded, serialize_encoded encoded)]
  | None => []
  end.

Definition from_bool (b : bool) : Z := if b then 1 else 0.
Definition has {A} (o : option A) : bool := match o with Some _ => true | None => false end.

(** [Header::serialize]. *)
Definition serialize_header (h : string * option (list byte)) : Json :=
  Map (1 + from_bool (has h.2)) (("name", Str (str_bytes h.1)) :: serialize_field VALUE h.2).

(** [Headers::serialize]. *)
Definition serialize_headers (hs : list (string * option (list byte))) : Json :=
  Seq (len hs) (serialize_header <$> hs).

(** [EventJson::serialize]. *)
Definition event_json (e : Event) : Json :=
  Map (4 + from_bool (has (key e)) + from_bool (has (value e)) +
       from_bool (negb (bool_decide (headers e = []))))
    ([("topic", Str (str_bytes (topic e))); ("partition", Int (partition e));
      ("offset", Int (offset e)); ("timestamp", Int (timestamp e))] ++
     serialize_field KEY (key e) ++ serialize_field VALUE (value e) ++
     (if bool_decide (headers e = []) then [] else [("headers", serialize_headers (headers e))])).

(** ** Reading it back, as a web client does *)

Fixpoint entry (name : string) (l : list (string * Json)) : option Json :=
  match l with
  | [] => None
  | (n, j) :: l => if String.eqb n name then Some j else entry name l
  end.

Definition as_text (j : Json) : option text := match j with Str s => Some s | _ => None end.
Definition as_int (j : Json) : option Z := match j with Int z => Some z | _ => None end.

(** A byte string under one of its two names, or absent. *)
Definition read_field (f : Field) (l : list (string * Json)) : option (option (list byte)) :=
  match entry (field_text f) l, entry (field_base64 f) l with
  | Some j, None => s ← as_text j; Some (Some s)
  | None, Some j => s ← as_text j; bytes ← b64_decode_crate s; Some (Some bytes)
  | None, None => Some None
  | Some _, Some _ => None
  end.

Definition read_header (j : Json) : option (string * option (list byte)) :=
  match j with
  | Map _ l =>
      name ← entry "name" l ≫= as_text;
      value ← read_field VALUE l;
      Some (bytes_str name, value)
  | _ => None
  end.

Definition read_headers (l : list (string * Json)) : option (list (string * option (list byte))) :=
  match entry "headers" l with
  | None => Some []
  | Some (Seq _ hs) => mapM read_header hs
  | Some _ => None
  end.

Definition read_event (j : Json) : option Event :=
  match j with
  | Map _ l =>
      topic ← entry "topic" l ≫= as_text;
      partition ← entry "partition" l ≫= as_int;
      offset ← entry "offset" l ≫= as_int;
      timestamp ← entry "timestamp" l ≫= as_int;
      key ← read_field KEY l;
      value ← read_field VALUE l;
      headers ← read_headers l;
      Some (mkEvent (bytes_str topic) partition offset timestamp key value headers)
  | _ => None
  end.

(** Declared lengths are the lengths, the keys of an object are distinct, and
    every string is UTF-8, as a serializer and a parser may assume. *)
Fixpoint well_formed (j : Json) : bool :=
  match j with
  | Map n l =>
      (n =? len l) && bool_decide (NoDup l.*1) &&
      (fix all (l : list (string * Json)) : bool :=
         match l with [] => true | (_, j) :: l => well_formed j && all l end) l
  | Seq n l =>
      (n =? len l) &&
      (fix all (l : list Json) : bool := match l with [] => true | j :: l => well_formed j && all l end) l
  | Str s => utf8_valid s
  | Int _ => true
  end.

(** ** The round trip *)

Abbreviation unnamed n := (Forall (λ e : string * Json, e.1 ≠ n)).

Lemma entry_skip n l r : unnamed n l → entry n (l ++ r) = entry n r.
Proof.
  induction 1 as [|[n' j] l Hn Hl IH]; [done|]. cbn in *. by destruct (String.eqb_spec n' n).
Qed.
Lemma entry_absent n l : unnamed n l → entry n l = None.
Proof. intros Hl. rewrite <- (app_nil_r l). by rewrite entry_skip. Qed.

(** Two names that differ, and lists of entries none of which has a name. *)
Ltac names := solve [cbn; discriminate | constructor | apply Forall_singleton; cbn; discriminate].

(** A field is under one of its two names. *)
Lemma field_unnamed n f bytes :
  n ≠ field_text f → n ≠ field_base64 f → unnamed n (serialize_field f bytes).
Proof.
  intros Ht Hb. destruct bytes as [bytes|]; [|constructor]. cbn. apply Forall_singleton. cbn.
  by destruct (encoded_of bytes); cbn.
Qed.

Lemma read_field_of (f : Field) (bytes : option (list byte)) (before after : list (string * Json)) :
  field_text f ≠ field_base64 f →
  unnamed (field_text f) before → unnamed (field_base64 f) before →
  unnamed (field_text f) after → unnamed (field_base64 f) after →
  read_field f (before ++ serialize_field f bytes ++ after) = Some bytes.
Proof.
  intros Hne Hb1 Hb2 Ha1 Ha2. unfold read_field. rewrite (entry_skip _ _ _ Hb1), (entry_skip _ _ _ Hb2).
  destruct bytes as [bytes|]; cbn [serialize_field app]; [|by rewrite (entry_absent _ _ Ha1), (entry_absent _ _ Ha2)].
  unfold encoded_of. destruct (utf8_valid bytes); cbn [field_name serialize_encoded entry];
    rewrite String.eqb_refl.
  - destruct (String.eqb_spec (field_text f) (field_base64 f)); [done|]. by rewrite (entry_absent _ _ Ha2).
  - destruct (String.eqb_spec (field_base64 f) (field_text f)); [congruence|].
    rewrite (entry_absent _ _ Ha1). cbn. by rewrite b64_decode_encode.
Qed.

Lemma read_header_of h : read_header (serialize_header h) = Some h.
Proof.
  destruct h as [name v]. unfold serialize_header, read_header. cbn [fst snd].
  pose proof (read_field_of VALUE v [("name", Str (str_bytes name))] []) as Hv.
  rewrite app_nil_r in Hv. cbn [app] in Hv.
  rewrite Hv by names. cbn. by rewrite bytes_str_bytes.
Qed.

Lemma read_headers_of hs : mapM read_header (serialize_header <$> hs) = Some hs.
Proof. apply mapM_Some. induction hs; constructor; [apply read_header_of|done]. Qed.

(** *** Well-formedness *)

Lemma field_well_formed f bytes n j : (n, j) ∈ serialize_field f bytes → well_formed j = true.
Proof.
  destruct bytes as [bytes|]; [|by intros ?%elem_of_nil]. cbn.
  intros [= _ ->]%list_elem_of_singleton. unfold encoded_of.
  destruct (utf8_valid bytes) eqn:E; cbn; [done|]. apply utf8_ascii, b64_ascii.
Qed.

Lemma map_well_formed n l :
  n = len l → NoDup l.*1 → (∀ k j, (k, j) ∈ l → well_formed j = true) → well_formed (Map n l) = true.
Proof.
  intros -> Hnd Hall. cbn [well_formed]. rewrite Z.eqb_refl, bool_decide_true by done. cbn [andb].
  clear Hnd. induction l as [|[k j] l IH]; [done|]. rewrite (Hall k j) by left.
  apply IH. intros k' j' Hin. apply (Hall k'). by right.
Qed.

Lemma seq_well_formed l : Forall (λ j, well_formed j = true) l → well_formed (Seq (len l) l) = true.
Proof.
  intros Hl. cbn [well_formed]. rewrite Z.eqb_refl. cbn [andb]. induction Hl as [|j l Hj _ IH]; [done|].
  by rewrite Hj.
Qed.

Lemma field_len f bytes : len (serialize_field f bytes) = from_bool (has bytes).
Proof. by destruct bytes. Qed.

Lemma field_nodup f bytes l :
  unnamed (field_text f) l → unnamed (field_base64 f) l → NoDup l.*1 →
  NoDup (serialize_field f bytes ++ l).*1.
Proof.
  intros Ht Hb Hl. destruct bytes as [bytes|]; [|done]. cbn. constructor; [|done].
  rewrite list_elem_of_fmap. intros (e & Hn & He).
  destruct (encoded_of bytes); cbn in Hn; [apply (proj1 (Forall_forall _ _) Ht e He)|
    apply (proj1 (Forall_forall _ _) Hb e He)]; by rewrite Hn.
Qed.

Lemma header_well_formed h : is_str h.1 → well_formed (serialize_header h) = true.
Proof.
  intros Hs. unfold serialize_header. apply map_well_formed.
  - cbn [length]. pose proof (field_len VALUE h.2). lia.
  - cbn [fmap list_fmap fst]. pose proof (field_nodup VALUE h.2 []) as Hnd. rewrite app_nil_r in Hnd.
    apply NoDup_cons. split; [|by apply Hnd; constructor].
    rewrite list_elem_of_fmap. intros (e & Hn & He).
    by apply (proj1 (Forall_forall _ _) (field_unnamed "name" VALUE h.2 ltac:(names) ltac:(names)) e He).
  - intros k j [[= -> ->]|Hin]%elem_of_cons; [done|]. by eapply field_well_formed.
Qed.

(** C36: The JSON of an event says exactly what the event is.  A client reads back
    the topic, position and timestamp, the key and value and headers byte for
    byte -- absent and empty told apart, text and binary under names that say
    which -- and the object is one a parser takes: declared lengths are right, no
    key appears twice, and every string is UTF-8. *)
Theorem event_json_reads_back (e : Event) :
  is_str (topic e) → Forall (λ h, is_str h.1) (headers e) →
  read_event (event_json e) = Some e ∧ well_formed (event_json e) = true.
Proof.
  intros Htopic Hheaders.
  set (four := [("topic", Str (str_bytes (topic e))); ("partition", Int (partition e));
    ("offset", Int (offset e)); ("timestamp", Int (timestamp e))]).
  set (hs := if bool_decide (headers e = []) then [] else [("headers", serialize_headers (headers e))]).
  assert (∀ n, n ≠ "headers" → unnamed n hs) as Hhs.
  { intros n Hn. unfold hs. case_bool_decide; [constructor|]. apply Forall_singleton. cbn. congruence. }
  assert (∀ n, n ∉ four.*1 → unnamed n four) as Hfour.
  { intros n Hn. apply Forall_forall. intros x Hx <-. apply Hn. apply list_elem_of_fmap. by exists x. }
  set (l := four ++ serialize_field KEY (key e) ++ serialize_field VALUE (value e) ++ hs).
  assert (∀ n, bool_decide (n ∉ four.*1) = true → unnamed n four) as Hf
    by (intros n ?%bool_decide_eq_true; by apply Hfour).
  assert (event_json e = Map (4 + from_bool (has (key e)) + from_bool (has (value e)) +
    from_bool (negb (bool_decide (headers e = [])))) l) as -> by done.
  split.
  - assert (read_field KEY l = Some (key e)) as Hkey.
    { apply read_field_of; try names; try (by apply Hf); apply Forall_app; split;
        (apply field_unnamed; names) || (apply Hhs; names). }
    assert (read_field VALUE l = Some (value e)) as Hvalue.
    { unfold l. rewrite app_assoc. apply read_field_of; try names; try (apply Hhs; names);
        apply Forall_app; split; (by apply Hf) || (apply field_unnamed; names). }
    assert (read_headers l = Some (headers e)) as Hh.
    { unfold read_headers, l. rewrite !entry_skip by ((by apply Hf) || (apply field_unnamed; names)).
      unfold hs. case_bool_decide as Hnil; [by rewrite Hnil|]. cbn [entry].
      rewrite String.eqb_refl. apply read_headers_of. }
    cbn [read_event]. rewrite Hkey, Hvalue, Hh. cbn. rewrite bytes_str_bytes. by destruct e.
  - apply map_well_formed.
    + unfold l. rewrite !length_app. pose proof (field_len KEY (key e)). pose proof (field_len VALUE (value e)).
      assert (len hs = from_bool (negb (bool_decide (headers e = [])))) by (unfold hs; by case_bool_decide).
      cbn [length four]. lia.
    + assert (NoDup hs.*1) as Hn by (unfold hs; case_bool_decide; [constructor|apply NoDup_singleton]).
      assert (NoDup (serialize_field KEY (key e) ++ serialize_field VALUE (value e) ++ hs).*1) as Hr.
      { apply field_nodup; [| |apply field_nodup; [apply Hhs; names|apply Hhs; names|done]];
          apply Forall_app; split; (apply field_unnamed; names) || (apply Hhs; names). }
      unfold l. rewrite fmap_app. apply NoDup_app. split_and!; [by apply (bool_decide_eq_true_1 _)| |done].
      intros n Hn4 Hin. assert (n ≠ "key" ∧ n ≠ "value" ∧ n ≠ "key_base64" ∧ n ≠ "value_base64" ∧ n ≠ "headers")
        as (? & ? & ? & ? & ?).
      { repeat (apply elem_of_cons in Hn4 as [->|Hn4]; [split_and!; names|]). by apply elem_of_nil in Hn4. }
      assert (unnamed n (serialize_field KEY (key e) ++ serialize_field VALUE (value e) ++ hs)) as Hun.
      { apply Forall_app. split; [by apply field_unnamed|]. apply Forall_app. split; [by apply field_unnamed|by apply Hhs]. }
      apply list_elem_of_fmap in Hin as (x & Hxn & Hx). by apply (proj1 (Forall_forall _ _) Hun x Hx).
    + intros k j. unfold l. rewrite !elem_of_app. intros [Hin|[Hin|[Hin|Hin]]].
      * repeat (apply elem_of_cons in Hin as [[= -> ->]|Hin]; [done|]). by apply elem_of_nil in Hin.
      * by eapply field_well_formed.
      * by eapply field_well_formed.
      * unfold hs in Hin. case_bool_decide; [by apply elem_of_nil in Hin|].
        apply list_elem_of_singleton in Hin as [= _ ->]. unfold serialize_headers.
        rewrite <- (length_fmap serialize_header). apply seq_well_formed, Forall_fmap.
        eapply Forall_impl; [exact Hheaders|]. intros h. apply header_well_formed.
Qed.

End json.

(** ** Shared events

    An [Arc<Shared>] is an address; clones of a handle are the same address.
    [renders] logs which addresses were rendered. *)
Section shared.
Context `{Base64} (to_vec : Json → list byte).

Definition event_json_bytes (e : Event) : list byte := to_vec (event_json e).

Record Shared : Type := mkShared {
  shared_event : Event;
  shared_json : option (list byte);
}.

Record Heap : Type := mkHeap {
  cells : list Shared;
  renders : list nat;
}.

Definition new_shared (e : Event) (h : Heap) : nat * Heap :=
  (length (cells h), mkHeap (cells h ++ [mkShared e None]) (renders h)).

(** [get_or_init] on the cell of a handle. *)
Definition json_bytes (a : nat) (h : Heap) : option (list byte) * Heap :=
  match cells h !! a with
  | None => (None, h)
  | Some cell =>
      match shared_json cell with
      | Some bytes => (Some bytes, h)
      | None =>
          let bytes := event_json_bytes (shared_event cell) in
          (Some bytes, mkHeap (<[a := mkShared (shared_event cell) (Some bytes)]> (cells h)) (renders h ++ [a]))
      end
  end.

(** [SharedEvent::json]: [None] where [expect] would panic. *)
Definition json (a : nat) (h : Heap) : option (list byte) * Heap :=
  let '(bytes, h) := json_bytes a h in
  (bytes ← bytes; if utf8_valid bytes then Some bytes else None, h).

(** [PartialEq]. *)
Definition shared_eq (a b : nat) (h : Heap) : Prop :=
  a = b ∨ shared_event <$> cells h !! a = shared_event <$> cells h !! b.

(** What subscribers do with the events of a partition. *)
Inductive Use : Type :=
| Create (e : Event)
| Render (a : nat).

Definition use (u : Use) (h : Heap) : Heap :=
  match u with
  | Create e => (new_shared e h).2
  | Render a => (json_bytes a h).2
  end.

(** A cell is rendered if it is in the log, and then holds its event's JSON. *)
Definition heap_ok (h : Heap) : Prop :=
  NoDup (renders h) ∧
  ∀ a cell, cells h !! a = Some cell →
    match shared_json cell with
    | Some bytes => a ∈ renders h ∧ bytes = event_json_bytes (shared_event cell)
    | None => a ∉ renders h
    end.

Definition in_bounds (h : Heap) : Prop := ∀ a, a ∈ renders h → is_Some (cells h !! a).

Lemma use_keeps u h : heap_ok h → in_bounds h → heap_ok (use u h) ∧ in_bounds (use u h).
Proof.
  intros [Hnd Hc] Hb. destruct u as [e|a]; cbn.
  - split; [split; [done|]|]; cbn.
    + intros a cell [Hl|[Ha Hl]]%lookup_app_Some; [by apply Hc|].
      apply list_lookup_singleton_Some in Hl as [Ha0 <-]. cbn. intros [x Hx]%Hb.
      apply lookup_lt_Some in Hx. lia.
    + intros a Ha. destruct (Hb a Ha) as [x Hx]. exists x. by apply lookup_app_l_Some.
  - unfold json_bytes. destruct (cells h !! a) as [cell|] eqn:Hl; [|by split].
    destruct (shared_json cell) as [bytes|] eqn:Hj; [by split|]. cbn.
    pose proof (Hc a cell Hl) as Hn. rewrite Hj in Hn. split; [split|]; cbn.
    + apply NoDup_app. split_and!; [done| |apply NoDup_singleton].
      intros x Hx ->%list_elem_of_singleton. done.
    + intros b cell' [(-> & <- & _)|(Hne & Hl')]%list_lookup_insert_Some; cbn.
      { split; [|done]. apply elem_of_app. right. by apply list_elem_of_singleton. }
      specialize (Hc b cell' Hl'). destruct (shared_json cell').
      * split; [|by destruct Hc]. apply elem_of_app. by left; destruct Hc.
      * rewrite elem_of_app, list_elem_of_singleton. intros [?|?]; [done|congruence].
    + intros b Hin. cbn in Hin |- *. assert (is_Some (cells h !! b)) as [x Hx].
      { apply elem_of_app in Hin as [?| ->%list_elem_of_singleton]; [by apply Hb|by eexists]. }
      destruct (decide (a = b)) as [->|].
      * rewrite list_lookup_insert_eq; [by eexists|by eapply lookup_lt_Some].
      * rewrite list_lookup_insert_ne by done. by eexists.
Qed.

(** However many subscribers hold an event and in whatever order they ask, its
    JSON is made at most once, and every one of them is given the JSON of that
    event. *)
Theorem shared_json_is_made_once (us : list Use) :
  let h := foldl (λ h u, use u h) (mkHeap [] []) us in
  NoDup (renders h) ∧
  ∀ a cell, cells h !! a = Some cell → (json_bytes a h).1 = Some (event_json_bytes (shared_event cell)).
Proof.
  cbn. assert (heap_ok (foldl (λ h u, use u h) (mkHeap [] []) us) ∧
    in_bounds (foldl (λ h u, use u h) (mkHeap [] []) us)) as [[Hnd Hc] _].
  { induction us as [|u us IH] using rev_ind.
    - split; [split; [constructor|]|]; [done|]. intros a Ha. cbn in Ha. by apply not_elem_of_nil in Ha.
    - rewrite foldl_snoc. destruct IH. by apply use_keeps. }
  split; [done|]. intros a cell Hl. specialize (Hc a cell Hl). unfold json_bytes. rewrite Hl.
  destruct (shared_json cell); [|done]. by destruct Hc as [_ ->].
Qed.

End shared.

(** *** Witness: a text key, a binary value, and a header without a value *)
Import rfc4648.

Definition sample_event : Event :=
  mkEvent "t" 0 7 1 (Some (str_bytes "plain")) (Some (byte_of_Z <$> [255; 254]))
    [("h", Some []); ("none", None)].

Lemma event_json_reads_back_witness :
  read_event (event_json sample_event) = Some sample_event ∧
  well_formed (event_json sample_event) = true.
Proof.
  apply (event_json_reads_back sample_event); [vm_compute; reflexivity|].
  repeat constructor; vm_compute; reflexivity.
Defined.
