(* ===== verification/Source.v ===== *)
(** * Record sources ([odradek-web-core/src/source.rs, memory.rs])

    Where a pump's events come from.  [RecordSource] is the trait, and
    [keeps_contract] what its documentation promises of an implementation:
    the pump's theorems are proved against the two, and the in-memory log and
    the Kafka adapter discharge them.  The Kafka adapter is itself over the
    interface [PartitionReader] of what it calls of the client's consumer. *)
From stdpp Require Import pretty.
From S2P Require Import Prelude Registry ClientError Records Event.

Module SourceErrorKind.

Inductive t : Type := NotFound | Auth | Unavailable | Other.

#[global] Instance eq_dec : EqDecision t.
Proof. solve_decision. Defined.

Definition as_str (k : t) : string :=
  match k with
  | NotFound => "not_found"
  | Auth => "auth"
  | Unavailable => "unavailable"
  | Other => "other"
  end.

Definition public_message (k : t) : string :=
  match k with
  | NotFound => "topic or partition not found"
  | Auth => "not authorized for this topic"
  | Unavailable => "upstream unavailable"
  | Other => "upstream error"
  end.

End SourceErrorKind.

Record SourceError : Type := mkSourceError {
  kind : SourceErrorKind.t;
  message : string;
}.

Definition not_found : string → SourceError := mkSourceError SourceErrorKind.NotFound.

Definition is_permanent (e : SourceError) : bool :=
  match kind e with
  | SourceErrorKind.NotFound | SourceErrorKind.Auth => true
  | _ => false
  end.

(** [From<ClientError>]: the kind is the client's category; the text is the
    error's own rendering. *)
Definition from_client_error (render : ClientError → string) (e : ClientError) : SourceError :=
  mkSourceError
    match category e with
    | NotFound => SourceErrorKind.NotFound
    | Auth => SourceErrorKind.Auth
    | Unavailable => SourceErrorKind.Unavailable
    | Other => SourceErrorKind.Other
    end
    (render e).

Record SourceBatch : Type := mkSourceBatch {
  events : list Event;
  next_after : option Z;
}.

(** ** The trait *)

(** An implementation's [&mut self] calls, its state passed and returned. *)
Class RecordSource (S : Type) : Type := {
  fetch : string → Z → option Z → S → result SourceError SourceBatch * S;
  live_start : string → Z → S → result SourceError (option Z) * S;
}.

(** Positions a source can be asked to go on from: the last one of all has
    nothing after it. *)
Definition askable (p : option Z) : Prop :=
  match p with Some x => i64_min ≤ x < i64_max | None => True end.

(** What [RecordSource::fetch] and [SourceBatch::next_after] document of an
    answer: what is strictly after [after], oldest first and without a hole,
    up to the position the batch reports. *)
Definition answers (log : list Event) (after : option Z) (b : SourceBatch) : Prop :=
  match next_after b with
  | None => events b = []
  | Some n => pos_le after (Some n) ∧ askable (Some n) ∧ events b = segment log after (Some n)
  end.

(** [S]'s states in [ok] read [log], the records the partition will have come
    to hold: every answer is a piece of it, and the state stays in [ok]. *)
Record keeps_contract {S} `{RecordSource S} (topic : string) (partition : Z)
    (log : list Event) (ok : S → Prop) : Prop := mkContract {
  log_ascending : ascending log;
  log_askable : ∀ e, e ∈ log → askable (at_pos e);
  fetch_keeps : ∀ s after, ok s → askable after →
    ok (fetch topic partition after s).2 ∧
    ∀ b, (fetch topic partition after s).1 = Ok b → answers log after b;
  live_start_keeps : ∀ s, ok s →
    ok (live_start topic partition s).2 ∧
    ∀ p, (live_start topic partition s).1 = Ok p → askable p;
}.

(** ** The in-memory log *)

Record MemoryLog : Type := mkMemoryLog {
  partitions : list (list Event);
  batch_limit : Z;
}.

Definition with_partitions (count : Z) : MemoryLog :=
  mkMemoryLog (replicate (Z.to_nat (Z.max count 1)) []) 3.
Definition new_log : MemoryLog := with_partitions 1.
Definition with_batch_limit (l : MemoryLog) (limit : Z) : MemoryLog :=
  mkMemoryLog (partitions l) (Z.max limit 1).

(** [usize::try_from(partition)] of an [i32]. *)
Definition partition_index (partition : Z) : option nat :=
  Z.to_nat <$> try_from 0 usize_max partition.

Record Append : Type := mkAppend {
  to_topic : string;
  to_partition : Z;
  with_key : option (list byte);
  with_value : list byte;
  with_headers : list (string * option (list byte));
}.

Definition appended (a : Append) (offset : Z) : Event :=
  mkEvent (to_topic a) (to_partition a) offset (1000 + offset) (with_key a) (Some (with_value a))
    (with_headers a).

(** The offset and the log after the append; [None] where indexing panics. *)
Definition append (l : MemoryLog) (a : Append) : option (Z * MemoryLog) :=
  let i := default 0%nat (partition_index (to_partition a)) in
  match partitions l !! i with
  | None => None
  | Some events =>
      let offset := default i64_max (try_from i64_min i64_max (len events)) in
      Some (offset, mkMemoryLog (<[i := events ++ [appended a offset]]> (partitions l))
                      (batch_limit l))
  end.

Definition log_len (l : MemoryLog) (partition : Z) : option Z :=
  (λ events : list Event, len events) <$>
    partitions l !! default 0%nat (partition_index partition).

(** A source over a log whose other handles append too: [others] is what they
    do before each of this handle's acquisitions of the lock. *)
Record MemorySource : Type := mkMemorySource {
  log : MemoryLog;
  others : list (list Append);
}.

Definition append_all (l : MemoryLog) (appends : list Append) : MemoryLog :=
  foldl (λ l a, match append l a with Some (_, l') => l' | None => l end) l appends.

Definition lock (s : MemorySource) : MemorySource :=
  match others s with
  | [] => s
  | appends :: rest => mkMemorySource (append_all (log s) appends) rest
  end.

(** [MemorySource::partition]. *)
Definition source_partition (s : MemorySource) (partition : Z) : result SourceError (list Event) :=
  ok_or (not_found ("no partition " ++ pretty partition)%string)
    (partition_index partition ≫= λ p, partitions (log s) !! p).

Definition with_topic (name : string) (e : Event) : Event :=
  mkEvent name (Event.partition e) (offset e) (timestamp e) (Event.key e) (Event.value e)
    (Event.headers e).

Definition memory_fetch (topic : string) (partition : Z) (after : option Z) (s : MemorySource) :
    result SourceError SourceBatch :=
  let? events := source_partition s partition in
  let length := default i64_max (try_from i64_min i64_max (len events)) in
  let from := match after with Some position => sint 64 (position + 1) | None => 0 end in
  let start := Z.to_nat (Z.max 0 (Z.min from length)) in
  let batch := with_topic topic <$> take (Z.to_nat (batch_limit (log s))) (drop start events) in
  Ok (mkSourceBatch batch (offset <$> last batch)).

Definition memory_live_start (partition : Z) (s : MemorySource) : result SourceError (option Z) :=
  let? events := source_partition s partition in Ok (offset <$> last events).

#[export] Instance memory_source : RecordSource MemorySource := {|
  fetch topic partition after s := let s := lock s in (memory_fetch topic partition after s, s);
  live_start _ partition s := let s := lock s in (memory_live_start partition s, s);
|}.

(** [MemoryFactory]. *)
Record MemoryFactory : Type := mkMemoryFactory {
  factory_log : MemoryLog;
  known_topics : option (list string);
}.

Definition check_topic (f : MemoryFactory) (topic : string) : result SourceError unit :=
  match known_topics f with
  | Some known =>
      if existsb (String.eqb topic) known then Ok tt
      else Err (not_found ("unknown topic " ++ topic)%string)
  | None => Ok tt
  end.

Definition create (f : MemoryFactory) (topic : string) : result SourceError MemorySource :=
  let? _ := check_topic f topic in Ok (mkMemorySource (factory_log f) []).

Definition factory_partitions (f : MemoryFactory) (topic : string) : result SourceError (list Z) :=
  let? _ := check_topic f topic in
  Ok (seqZ 0 (default 1 (try_from i32_min i32_max (len (partitions (factory_log f)))))).

(** ** The Kafka adapter *)

Record ConsumedRecord : Type := mkConsumedRecord {
  record_offset : Z;
  record_timestamp : Z;
  record_key : option (list byte);
  record_value : option (list byte);
  record_headers : list RecordHeader;
}.

Record FetchResult (R : Type) : Type := mkFetchResult {
  fetched : list R;
  next_offset : Z;
  high_watermark : Z;
  last_stable_offset : Z;
}.
Arguments mkFetchResult {R}.
Arguments fetched {R}.
Arguments next_offset {R}.
Arguments high_watermark {R}.
Arguments last_stable_offset {R}.

(** The calls the adapter makes of a consumer. *)
Class PartitionReader (C : Type) : Type := {
  fetch_with : string → Z → Z → (ConsumedRecord → Event) → C →
    result ClientError (FetchResult Event) * C;
  earliest_offset : string → Z → C → result ClientError Z * C;
  latest_offset : string → Z → C → result ClientError Z * C;
}.

Definition to_event (topic : string) (partition : Z) (r : ConsumedRecord) : Event :=
  mkEvent topic partition (record_offset r) (record_timestamp r) (record_key r) (record_value r)
    ((λ h, (header_key h, header_value h)) <$> record_headers r).

Section kafka.
Context {C : Type} `{PartitionReader C} (render : ClientError → string).

Definition kafka_fetch (topic : string) (partition : Z) (after : option Z) (c : C) :
    result SourceError SourceBatch * C :=
  let '(from, c) :=
    match after with
    | Some position => (Ok (sint 64 (position + 1)), c)
    | None => earliest_offset topic partition c
    end in
  match from with
  | Err e => (Err (from_client_error render e), c)
  | Ok from =>
      let '(r, c) := fetch_with topic partition from (to_event topic partition) c in
      match r with
      | Err e => (Err (from_client_error render e), c)
      | Ok r =>
          (Ok (mkSourceBatch (fetched r)
                 (if from <? next_offset r then Some (next_offset r - 1) else None)), c)
      end
  end.

Definition kafka_live_start (topic : string) (partition : Z) (c : C) :
    result SourceError (option Z) * C :=
  let '(r, c) := latest_offset topic partition c in
  match r with
  | Err e => (Err (from_client_error render e), c)
  | Ok watermark => (Ok (if 0 <? watermark then Some (watermark - 1) else None), c)
  end.

Definition kafka_source : RecordSource C :=
  {| fetch := kafka_fetch; live_start := kafka_live_start |}.

End kafka.

(** ** What the in-memory log keeps *)

(** Offsets are indexes. *)
Definition dense (l : list Event) : Prop := ∀ i e, l !! i = Some e → offset e = Z.of_nat i.

(** A list cut at two positions. *)
Lemma segment_middle l1 l2 l3 a b :
  (∀ e, e ∈ l1 → pos_le (at_pos e) a) → (∀ e, e ∈ l2 → in_segment a b e = true) →
  (∀ e, e ∈ l3 → pos_lt b (at_pos e)) → segment (l1 ++ l2 ++ l3) a b = l2.
Proof.
  intros H1 H2 H3. unfold segment. rewrite !filter_app_list, filter_all_false, (filter_all_true _ l2),
    filter_all_false, app_nil_r; [done| |done|].
  - intros e He. apply not_true_iff_false. rewrite in_segment_iff. intros [_ H].
    apply H3 in He. unfold pos_lt, pos_le in *. congruence.
  - intros e He. apply not_true_iff_false. rewrite in_segment_iff. intros [H _].
    apply H1 in He. unfold pos_lt, pos_le in *. congruence.
Qed.

Lemma dense_prefix l k : dense (l ++ k) → dense l.
Proof. intros H i e Hi. apply (H i e). by apply lookup_app_l_Some. Qed.

Lemma dense_snoc l e : dense l → offset e = len l → dense (l ++ [e]).
Proof.
  intros H He i x [Hi|[Hi Hx]]%lookup_app_Some; [by apply H|].
  apply list_lookup_singleton_Some in Hx as [Hi' <-]. lia.
Qed.

Lemma dense_ascending l : dense l → ascending l.
Proof.
  induction l as [|e l IH] using rev_ind; intros H; [constructor|].
  apply ascending_app. split_and!; [by apply IH, (dense_prefix l [e])|by repeat constructor|].
  intros x y Hx ->%list_elem_of_singleton. apply list_elem_of_lookup in Hx as [i Hi].
  assert ((l ++ [e]) !! i = Some x) as Hi' by by apply lookup_app_l_Some.
  pose proof (H _ _ Hi') as Ex. pose proof (H (length l) e) as Ey.
  rewrite lookup_app_r, Nat.sub_diag in Ey by done. specialize (Ey eq_refl).
  apply lookup_lt_Some in Hi. unfold pos_lt, at_pos, pos_leb. apply Z.leb_gt. lia.
Qed.

Lemma dense_with_topic t l : dense l → dense (with_topic t <$> l).
Proof.
  intros H i e. rewrite list_lookup_fmap, fmap_Some. intros (x & Hx & ->). by apply (H i x).
Qed.

(** Where [MemorySource::fetch] starts reading. *)
Definition read_start (after : option Z) (length : Z) : nat :=
  Z.to_nat (Z.max 0 (Z.min match after with Some x => sint 64 (x + 1) | None => 0 end length)).

(** [a] counts the events at or before [after]. *)
Definition counts_upto (l : list Event) (after : option Z) (a : nat) : Prop :=
  ∀ i e, l !! i = Some e → (i < a)%nat ↔ pos_le (at_pos e) after.

(** The segment of a dense log, by index. *)
Lemma dense_segment l after a n :
  dense l → counts_upto l after a → (a ≤ n)%nat →
  segment l after (Some (Z.of_nat n)) = take (n + 1 - a) (drop a l).
Proof.
  intros Hd Ha Hn.
  transitivity (segment (take a l ++ take (n + 1 - a) (drop a l) ++ drop (n + 1 - a) (drop a l))
                  after (Some (Z.of_nat n))); [by rewrite !take_drop|].
  apply segment_middle.
  - intros e [i Hi]%list_elem_of_lookup. apply lookup_take_Some in Hi as [Hi H]. by eapply Ha.
  - intros e [i Hi]%list_elem_of_lookup. apply lookup_take_Some in Hi as [Hi H].
    rewrite lookup_drop in Hi. apply in_segment_iff. rewrite <- pos_not_le, <- (Ha _ _ Hi).
    split; [lia|]. unfold pos_le, at_pos, pos_leb. rewrite (Hd _ _ Hi). apply Z.leb_le. lia.
  - intros e [i Hi]%list_elem_of_lookup. rewrite !lookup_drop in Hi.
    unfold pos_lt, at_pos, pos_leb. rewrite (Hd _ _ Hi). apply Z.leb_gt. lia.
Qed.

Lemma read_start_counts cur after :
  dense cur → askable after → counts_upto cur after (read_start after (len cur)).
Proof.
  intros Hd Ha i e Hi. unfold at_pos. rewrite (Hd _ _ Hi). apply lookup_lt_Some in Hi.
  unfold pos_le, pos_leb, read_start. destruct after as [x|]; [|split; [lia|done]].
  cbn in Ha. rewrite Z.leb_le, sint_small; [lia|done|].
  change (2 ^ (64 - 1)) with 9223372036854775808. int_lia.
Qed.

Lemma read_start_le after l : (read_start after (len l) ≤ @length Event l)%nat.
Proof. unfold read_start. lia. Qed.

(** What is past a whole prefix is past the counted events of it. *)
Lemma counts_upto_app cur more after a :
  dense (cur ++ more) → counts_upto cur after a → (a < length cur)%nat →
  counts_upto (cur ++ more) after a.
Proof.
  intros Hd Ha Hlt i e Hi. destruct (Nat.lt_ge_cases i (length cur)) as [H|H].
  - rewrite lookup_app_l in Hi by done. by apply Ha.
  - split; [lia|]. intros Hle. destruct (lookup_lt_is_Some_2 cur a Hlt) as [x Hx].
    assert (pos_le (at_pos x) after) as Hxa.
    { eapply pos_le_trans; [|done]. unfold pos_le, at_pos, pos_leb. apply Z.leb_le.
      rewrite (Hd _ _ Hi), (dense_prefix _ _ Hd _ _ Hx). lia. }
    apply (Ha _ _ Hx) in Hxa. lia.
Qed.

(** Reading a prefix [cur] of a dense log answers for the whole log. *)
Lemma dense_read cur more after (limit : nat) :
  dense (cur ++ more) → len (cur ++ more) ≤ i64_max → askable after →
  let batch := take limit (drop (read_start after (len cur)) cur) in
  answers (cur ++ more) after (mkSourceBatch batch (offset <$> last batch)).
Proof.
  intros Hd Hlen Hask. set (start := read_start after (len cur)). cbv zeta.
  set (batch := take limit (drop start cur)). unfold answers. cbn [next_after events].
  destruct (last batch) as [e|] eqn:El; cbn [fmap option_fmap option_map];
    [|by apply last_None in El].
  assert (length batch ≤ length cur - start)%nat as Hle
    by (unfold batch; rewrite length_take, length_drop; lia).
  pose proof El as Hb. apply last_Some in Hb as [b' Hb].
  assert (length batch = length b' + 1)%nat as Hn by (rewrite Hb, length_app; cbn; lia).
  assert (cur !! (start + length b')%nat = Some e) as Hnth.
  { rewrite last_lookup, Hn in El. unfold batch in El.
    replace (pred (length b' + 1)) with (length b') in El by lia.
    by apply lookup_take_Some in El as [El _]; rewrite lookup_drop in El. }
  pose proof (dense_prefix _ _ Hd) as Hdc. pose proof (Hdc _ _ Hnth) as Ee.
  pose proof (read_start_counts cur after Hdc Hask) as Hcount. fold start in Hcount.
  rewrite length_app in Hlen. split_and!.
  - apply pos_lt_le, pos_not_le. change (Some (offset e)) with (at_pos e).
    rewrite <- (Hcount _ _ Hnth). lia.
  - cbn. int_lia.
  - rewrite Ee, (dense_segment (cur ++ more) after start); [|done| |lia].
    + rewrite drop_app_le by lia. rewrite take_app_le by (rewrite length_drop; lia).
      replace (start + length b' + 1 - start)%nat with (length batch) by lia.
      unfold batch. rewrite length_take, length_drop.
      destruct (Nat.le_gt_cases limit (length cur - start)); [by rewrite Nat.min_l|].
      rewrite Nat.min_r, !take_ge; [done|rewrite length_drop; lia..|lia].
    + apply counts_upto_app; [done|done|lia].
Qed.

(** ** The log under concurrent appends *)

Lemma append_extends l a n l' p cur :
  append l a = Some (n, l') → partitions l !! p = Some cur →
  ∃ more, partitions l' !! p = Some (cur ++ more) ∧
    (dense cur → len cur ≤ i64_max → dense (cur ++ more)).
Proof.
  unfold append. set (i := default 0%nat _). destruct (partitions l !! i) as [evs|] eqn:Ei; [|done].
  intros [= <- <-] Hp. cbn [partitions]. destruct (decide (i = p)) as [<-|Hne].
  - rewrite Hp in Ei. injection Ei as <-. eexists.
    rewrite list_lookup_insert_eq by (by apply lookup_lt_Some in Hp). split; [done|].
    intros Hd Hlen. apply dense_snoc; [done|]. cbn [appended offset].
    rewrite try_from_in; [done|]. int_lia.
  - exists []. rewrite app_nil_r, list_lookup_insert_ne by done. done.
Qed.

Lemma append_all_extends appends : ∀ l p cur,
  partitions l !! p = Some cur →
  ∃ more, partitions (append_all l appends) !! p = Some (cur ++ more) ∧
    (dense cur → len (cur ++ more) ≤ i64_max → dense (cur ++ more)).
Proof.
  induction appends as [|a appends IH]; intros l p cur Hp.
  { exists []. rewrite app_nil_r. done. }
  change (append_all l (a :: appends))
    with (append_all match append l a with Some (_, l') => l' | None => l end appends).
  destruct (append l a) as [[n l']|] eqn:Ea; [|by apply IH].
  destruct (append_extends _ _ _ _ _ _ Ea Hp) as (more & Hp' & Hd).
  destruct (IH l' p _ Hp') as (more' & Hp'' & Hd'). exists (more ++ more').
  rewrite app_assoc. split; [done|]. intros Hcur Hlen. rewrite length_app in Hlen.
  apply Hd'; [apply Hd; [done|]|]; rewrite ?length_app in *; lia.
Qed.

(** The log every handle of [s] has appended to in the end. *)
Definition final_log (s : MemorySource) : MemoryLog := append_all (log s) (concat (others s)).

Lemma final_log_lock s : final_log (lock s) = final_log s.
Proof.
  unfold lock, final_log. destruct (others s) as [|a rest] eqn:E; [by rewrite E|].
  cbn [log others concat]. unfold append_all. by rewrite foldl_app.
Qed.

Lemma lock_extends s p cur :
  partitions (log s) !! p = Some cur → ∃ more, partitions (log (lock s)) !! p = Some (cur ++ more).
Proof.
  intros Hp. unfold lock. destruct (others s) as [|a rest].
  - exists []. by rewrite app_nil_r.
  - destruct (append_all_extends a _ _ _ Hp) as (more & H & _). by exists more.
Qed.

(** Reading partition [p] of a log that comes to hold [full] there. *)
Definition reads_partition (topic : string) (p : nat) (full : list Event) (s : MemorySource) : Prop :=
  is_Some (partitions (log s) !! p) ∧
  ∃ evs, partitions (final_log s) !! p = Some evs ∧ dense evs ∧ len evs ≤ i64_max ∧
    full = with_topic topic <$> evs.

Lemma reads_partition_lock topic p full s :
  reads_partition topic p full s → reads_partition topic p full (lock s).
Proof.
  intros [[cur Hp] H]. unfold reads_partition. rewrite final_log_lock.
  destruct (lock_extends s p cur Hp) as [more ->]. split; [by eexists|done].
Qed.

Lemma reads_partition_now topic p full s :
  reads_partition topic p full s →
  ∃ cur more, partitions (log s) !! p = Some cur ∧ full = with_topic topic <$> (cur ++ more) ∧
    dense (cur ++ more) ∧ len (cur ++ more) ≤ i64_max.
Proof.
  intros [[cur Hp] (evs & He & Hd & Hlen & ->)].
  destruct (append_all_extends (concat (others s)) _ _ _ Hp) as (more & Hm & _).
  exists cur, more. unfold final_log in He. rewrite Hm in He. by injection He as <-.
Qed.

Lemma dense_askable l e : dense l → len l ≤ i64_max → e ∈ l → askable (at_pos e).
Proof.
  intros Hd Hlen [i Hi]%list_elem_of_lookup. unfold askable, at_pos. rewrite (Hd _ _ Hi).
  apply lookup_lt_Some in Hi. int_lia.
Qed.

Lemma last_fmap_offset topic (l : list Event) :
  offset <$> last (with_topic topic <$> l) = offset <$> last l.
Proof. rewrite fmap_last. by destruct (last l). Qed.

Lemma memory_contract (topic : string) (partition : Z) (p : nat)
    (full : list Event) (s : MemorySource) :
  partition_index partition = Some p → reads_partition topic p full s →
  keeps_contract topic partition full (reads_partition topic p full).
Proof.
  intros Hidx Hs. pose proof (reads_partition_now _ _ _ _ Hs) as (c & m & _ & -> & Hd & Hlen).
  pose proof (dense_with_topic topic _ Hd) as Hd'.
  assert (∀ s, reads_partition topic p (with_topic topic <$> c ++ m) s →
    ∃ cur more, source_partition s partition = Ok cur ∧
      with_topic topic <$> c ++ m = (with_topic topic <$> cur) ++ (with_topic topic <$> more))
    as Hread.
  { intros s' H'. destruct (reads_partition_now _ _ _ _ H') as (cur & more & Hp & -> & _).
    exists cur, more. unfold source_partition. rewrite Hidx. cbn [mbind option_bind].
    rewrite Hp. by rewrite fmap_app. }
  constructor.
  - by apply dense_ascending.
  - intros e. apply dense_askable; [done|]. by rewrite length_fmap.
  - intros s' after Hs' Hask. cbn [fetch memory_source fst snd].
    apply reads_partition_lock in Hs'. split; [done|]. intros b.
    destruct (Hread _ Hs') as (cur & more & Hp & Efull). unfold memory_fetch. rewrite Hp.
    cbn [res_bind]. intros [= <-]. rewrite last_fmap_offset.
    assert (len cur ≤ i64_max) as Hcur.
    { apply (f_equal length) in Efull. rewrite !length_fmap, !length_app, !length_fmap in Efull.
      rewrite length_app in Hlen. lia. }
    rewrite try_from_in by int_lia. cbn [default].
    change (Z.to_nat (Z.max 0 _)) with (read_start after (len cur)).
    rewrite fmap_take, fmap_drop, <- (length_fmap (with_topic topic) cur).
    rewrite Efull in Hd' |- *. rewrite <- last_fmap_offset with (topic := topic),
      fmap_take, fmap_drop. apply dense_read; [done| |done].
    rewrite <- Efull. by rewrite length_fmap.
  - intros s' Hs'. cbn [live_start memory_source fst snd].
    apply reads_partition_lock in Hs'. split; [done|]. intros b.
    destruct (Hread _ Hs') as (cur & more & Hp & Efull). unfold memory_live_start. rewrite Hp.
    cbn [res_bind]. intros [= <-]. rewrite <- (last_fmap_offset topic).
    destruct (last (with_topic topic <$> cur)) as [e|] eqn:El; [|done].
    apply (dense_askable _ e Hd'); [by rewrite length_fmap|]. rewrite Efull. apply elem_of_app.
    left. apply last_Some_elem_of in El. done.
Qed.

(** The in-memory source keeps the record-source contract, whatever the
    other handles of its log append while it is read. *)
Theorem memory_source_keeps_contract (topic : string) (partition : Z) (p : nat)
    (full : list Event) (s : MemorySource) :
  partition_index partition = Some p → reads_partition topic p full s →
  keeps_contract topic partition full (reads_partition topic p full).
Proof. apply memory_contract. Qed.

(** ** What the Kafka adapter keeps *)

Definition records_between (log : list ConsumedRecord) (from until : Z) : list ConsumedRecord :=
  List.filter (λ r, (from <=? record_offset r) && (record_offset r <? until)) log.

(** What the adapter relies on: a fetch from [from] returns the records from
    there up to the offset it says to fetch next. *)
Record keeps_reader_contract {C} `{PartitionReader C} (topic : string) (partition : Z)
    (log : list ConsumedRecord) (ok : C → Prop) : Prop := mkReaderContract {
  reader_ascending : StronglySorted (λ r1 r2, record_offset r1 < record_offset r2) log;
  reader_offsets : ∀ r, r ∈ log → 0 ≤ record_offset r < i64_max;
  fetch_with_keeps : ∀ c from f, ok c → from ≤ i64_max →
    ok (fetch_with topic partition from f c).2 ∧
    ∀ r, (fetch_with topic partition from f c).1 = Ok r →
      from ≤ next_offset r ≤ i64_max ∧ fetched r = f <$> records_between log from (next_offset r);
  earliest_keeps : ∀ c, ok c →
    ok (earliest_offset topic partition c).2 ∧
    ∀ o, (earliest_offset topic partition c).1 = Ok o →
      0 ≤ o ≤ i64_max ∧ ∀ r, r ∈ log → o ≤ record_offset r;
  latest_keeps : ∀ c, ok c →
    ok (latest_offset topic partition c).2 ∧
    ∀ o, (latest_offset topic partition c).1 = Ok o → o ≤ i64_max;
}.

Lemma segment_records topic partition log after from n :
  (∀ r, r ∈ log → pos_lt after (Some (record_offset r)) ↔ from ≤ record_offset r) →
  segment (to_event topic partition <$> log) after (Some (n - 1)) =
  to_event topic partition <$> records_between log from n.
Proof.
  intros H. unfold segment, records_between. induction log as [|r log IH]; [done|].
  cbn [fmap list_fmap List.filter]. rewrite IH by (intros x Hx; apply H; by apply elem_of_cons; right).
  assert (in_segment after (Some (n - 1)) (to_event topic partition r) =
    (from <=? record_offset r) && (record_offset r <? n)) as ->; [|by destruct (_ && _)].
  apply eq_true_iff_eq. rewrite in_segment_iff, andb_true_iff, Z.leb_le, Z.ltb_lt.
  unfold at_pos. cbn [to_event offset]. rewrite H by (by apply elem_of_cons; left).
  unfold pos_le, pos_leb. rewrite Z.leb_le. split; intros [? ?]; (split; [done|lia]).
Qed.

(** Where the adapter starts reading from to go on after [after]. *)
Definition reads_from (log : list ConsumedRecord) (after : option Z) (from : Z) : Prop :=
  i64_min ≤ from ≤ i64_max ∧ match after with Some x => from = x + 1 | None => True end ∧
  ∀ r, r ∈ log → pos_lt after (Some (record_offset r)) ↔ from ≤ record_offset r.

Lemma kafka_batch_answers topic partition log after from (r : FetchResult Event) :
  reads_from log after from → from ≤ next_offset r ≤ i64_max →
  fetched r = to_event topic partition <$> records_between log from (next_offset r) →
  answers (to_event topic partition <$> log) after
    (mkSourceBatch (fetched r)
       (if from <? next_offset r then Some (next_offset r - 1) else None)).
Proof.
  intros ([Hmin _] & Hafter & Hlog) Hnext ->. unfold answers. destruct (Z.ltb_spec from (next_offset r));
    cbn [next_after events].
  - split_and!.
    + destruct after as [x|]; [|done]. unfold pos_le, pos_leb. apply Z.leb_le. lia.
    + cbn. int_lia.
    + symmetry. by apply segment_records.
  - replace (next_offset r) with from by lia. unfold records_between.
    rewrite filter_all_false; [done|]. intros x _. apply andb_false_iff.
    rewrite Z.leb_gt, Z.ltb_ge. lia.
Qed.

Section kafka_contract.
Context {C : Type} `{PartitionReader C} (render : ClientError → string).
Context (topic : string) (partition : Z) (log : list ConsumedRecord) (ok : C → Prop).
Hypothesis Hreader : keeps_reader_contract topic partition log ok.

Lemma kafka_from_keeps (c : C) after :
  ok c → askable after →
  let '(from, c') :=
    match after with
    | Some position => (Ok (sint 64 (position + 1)), c)
    | None => earliest_offset topic partition c
    end in
  ok c' ∧ ∀ f, from = Ok f → reads_from log after f.
Proof.
  intros Hc Hask. destruct after as [x|].
  - split; [done|]. intros f [= <-]. cbn in Hask.
    rewrite sint_small by (change (2 ^ (64 - 1)) with 9223372036854775808; int_lia).
    split_and!; [int_lia|int_lia|done|]. intros r _. unfold pos_lt, pos_leb. rewrite Z.leb_gt. lia.
  - destruct (earliest_keeps _ _ _ _ Hreader c Hc) as [Hok He].
    destruct (earliest_offset topic partition c) as [from c']. split; [done|]. intros f Hf.
    destruct (He f Hf) as [H0 Hle]. split_and!; [int_lia|int_lia|done|]. intros r Hr.
    split; [by intros _; apply Hle|done].
Qed.

(** The Kafka adapter keeps the record-source contract over any consumer
    that fetches what it says: its [+ 1] and [- 1] neither skip nor repeat. *)
Theorem kafka_source_keeps_contract :
  @keeps_contract C (kafka_source render) topic partition (to_event topic partition <$> log) ok.
Proof.
  destruct Hreader as [Hasc Hoff Hfetch Hearly Hlate]. constructor.
  - clear -Hasc. induction Hasc as [|r l _ IH Hall]; [constructor|]. constructor; [done|].
    apply Forall_fmap. eapply Forall_impl; [done|]. intros x Hx.
    unfold compose, pos_lt, pos_leb, at_pos. cbn. by apply Z.leb_gt.
  - intros e (r & -> & Hr)%list_elem_of_fmap. specialize (Hoff r Hr). cbn. int_lia.
  - intros c after Hc Hask. cbn [fetch kafka_source]. unfold kafka_fetch.
    pose proof (kafka_from_keeps c after Hc Hask) as Hfrom.
    destruct match after with Some _ => _ | None => _ end as [[from|e] c'];
      destruct Hfrom as [Hc' Hfrom]; [|done]. specialize (Hfrom from eq_refl).
    destruct (Hfetch c' from (to_event topic partition) Hc' (proj2 (proj1 Hfrom))) as [Hc'' Hr].
    destruct (fetch_with _ _ _ _ _) as [[r|e] c'']; [|done]. split; [done|]. intros b [= <-].
    destruct (Hr r eq_refl) as [Hn Hf]. by apply kafka_batch_answers.
  - intros c Hc. cbn [live_start kafka_source]. unfold kafka_live_start.
    destruct (Hlate c Hc) as [Hc' Hw].
    destruct (latest_offset topic partition c) as [[w|e] c']; [|done]. split; [done|].
    intros p [= <-]. specialize (Hw w eq_refl). destruct (Z.ltb_spec 0 w); [|done]. cbn. int_lia.
Qed.

End kafka_contract.

(** ** Samples *)

Definition sample_append (n : Z) : Append := mkAppend "t" 0 None [byte_of_Z n] [].

(** Two records in the log, a third arriving before the next fetch. *)
Definition sample_source : MemorySource :=
  mkMemorySource (append_all new_log [sample_append 1; sample_append 2]) [[sample_append 3]].

Definition sample_full : list Event :=
  (λ n, appended (sample_append (n + 1)) n) <$> [0; 1; 2].

Lemma sample_full_dense : dense sample_full.
Proof. intros i e Hi. repeat (destruct i as [|i]; [by injection Hi as <-|]). done. Qed.

Lemma sample_source_reads : reads_partition "t" 0 sample_full sample_source.
Proof.
  split; [by eexists|]. exists sample_full.
  split_and!; [done|apply sample_full_dense|cbn; int_lia|done].
Qed.

Lemma memory_source_keeps_contract_witness :
  keeps_contract "t" 0 sample_full (reads_partition "t" 0 sample_full) ∧
  (fetch "t" 0 (Some 0) sample_source).1 =
    Ok (mkSourceBatch (drop 1 sample_full) (Some 2)).
Proof.
  split; [|vm_compute; done].
  apply (memory_source_keeps_contract "t" 0 0 sample_full sample_source); [done|].
  apply sample_source_reads.
Defined.

(** A consumer that answers from a list, with a gap at offset 1, two offsets
    at a time. *)
Definition list_reader (log : list ConsumedRecord) : PartitionReader unit := {|
  fetch_with _ _ from f _ :=
    let until := Z.max from (Z.min 100 (from + 2)) in
    (Ok (mkFetchResult (f <$> records_between log from until) until 3 3), tt);
  earliest_offset _ _ _ := (Ok 0, tt);
  latest_offset _ _ _ := (Ok 3, tt);
|}.

Definition sample_records : list ConsumedRecord :=
  (λ o, mkConsumedRecord o (1000 + o) None None []) <$> [0; 2].

Lemma list_reader_keeps :
  @keeps_reader_contract unit (list_reader sample_records) "t" 0 sample_records (λ _, True).
Proof.
  constructor.
  - by repeat constructor.
  - intros r (o & -> & Ho)%list_elem_of_fmap. cbn.
    rewrite !elem_of_cons in Ho. destruct Ho as [->|[->|Ho]]; [int_lia..|by apply not_elem_of_nil in Ho].
  - intros c from f _ Hf. split; [done|]. intros r [= <-]. split; [cbn [next_offset]; int_lia|done].
  - intros c _. split; [done|]. intros o [= <-]. split; [int_lia|].
    intros r (o & -> & Ho)%list_elem_of_fmap. cbn.
    rewrite !elem_of_cons in Ho. destruct Ho as [->|[->|Ho]]; [lia..|by apply not_elem_of_nil in Ho].
  - intros c _. split; [done|]. intros o [= <-]. int_lia.
Qed.

Lemma kafka_source_keeps_contract_witness :
  @keeps_contract unit (@kafka_source unit (list_reader sample_records) (λ _, EmptyString)) "t" 0
    (to_event "t" 0 <$> sample_records) (λ _, True).
Proof. apply (@kafka_source_keeps_contract unit (list_reader sample_records)), list_reader_keeps. Defined.
