(* ===== verification/Cursor.v ===== *)
(** * Resume tokens and stream parameters
      ([odradek-web-core/src/cursor.rs, params.rs])

    The multi-partition cursor with its text form, and the query grammar the
    web transports share.  A token crosses the network as bytes, so text is a
    [list byte] here; [i32] and [i64] are printed and parsed as Rust's
    [Display] and [FromStr] do.  A [BTreeMap] is a [gmap] walked in key
    order. *)
From S2P Require Import Prelude Text Event.

(** The encodings of the characters [str::trim] strips: Unicode's
    [White_Space]. *)
Definition whitespace : list text :=
  ((λ z, [byte_of_Z z]) <$> [9; 10; 11; 12; 13; 32])
  ++ ((λ z, [byte_of_Z 0xC2; byte_of_Z z]) <$> [0x85; 0xA0])
  ++ [[byte_of_Z 0xE1; byte_of_Z 0x9A; byte_of_Z 0x80]]
  ++ ((λ z, [byte_of_Z 0xE2; byte_of_Z 0x80; byte_of_Z z]) <$>
      [0x80; 0x81; 0x82; 0x83; 0x84; 0x85; 0x86; 0x87; 0x88; 0x89; 0x8A; 0xA8; 0xA9; 0xAF])
  ++ [[byte_of_Z 0xE2; byte_of_Z 0x81; byte_of_Z 0x9F];
      [byte_of_Z 0xE3; byte_of_Z 0x80; byte_of_Z 0x80]].

Fixpoint strip_any (s : text) (ps : list text) : option text :=
  match ps with
  | [] => None
  | p :: ps => match strip_prefix s p with Some r => Some r | None => strip_any s ps end
  end.

Fixpoint trim_start (fuel : nat) (ws : list text) (s : text) : text :=
  match fuel with
  | O => s
  | S fuel => match strip_any s ws with Some r => trim_start fuel ws r | None => s end
  end.

Definition trim (s : text) : text :=
  let s := trim_start (length s) whitespace s in
  rev (trim_start (length s) (@rev byte <$> whitespace) (rev s)).

(** ** The cursor *)

Abbreviation Cursor := (gmap Z Z).

(** A [BTreeMap] in iteration order. *)
Definition key_le (a b : Z * Z) : Prop := a.1 ≤ b.1.
#[export] Instance key_le_dec : RelDecision key_le := λ a b, decide (a.1 ≤ b.1).

Definition entries (c : Cursor) : list (Z * Z) := merge_sort key_le (map_to_list c).

(** What [parse] says is wrong, and with which pair. *)
Inductive CursorError : Type :=
| NotAPair (pair : text)
| BadPartition (pair : text)
| BadOffset (pair : text).

Definition encode_pair (kv : Z * Z) : text :=
  decimal.print kv.1 ++ [COLON] ++ decimal.print kv.2.

(** The loop of [encode], over what was written. *)
Definition encode_step (out : text) (kv : Z * Z) : text :=
  (match out with [] => [] | _ => out ++ [COMMA] end) ++ encode_pair kv.

Definition encode (c : Cursor) : text := foldl encode_step [] (entries c).

Definition parse_pair (raw : text) : result CursorError (Z * Z) :=
  let? (partition, offset) := ok_or (NotAPair raw) (split_once COLON raw) in
  let? partition := ok_or (BadPartition raw) (decimal.parse i32_min i32_max (trim partition)) in
  let? offset := ok_or (BadOffset raw) (decimal.parse i64_min i64_max (trim offset)) in
  Ok (partition, offset).

Fixpoint parse_pairs (c : Cursor) (pairs : list text) : result CursorError Cursor :=
  match pairs with
  | [] => Ok c
  | first :: rest =>
      let? (partition, offset) := parse_pair first in
      parse_pairs (<[partition := offset]> c) rest
  end.

Definition parse (raw : text) : result CursorError Cursor := parse_pairs ∅ (split COMMA raw).

(** ** Parameters *)

Inductive TopicPosition : Type :=
| TopicEarliest
| TopicLatest
| TopicAfter (cursor : Cursor).

Record StreamParams : Type := mkStreamParams {
  from : option text;
  key_prefix : option text;
  header : option text;
}.

Inductive ParamError : Type :=
| ResumeNotAnOffset
| FromMalformed (got : text)
| BadCursor (e : CursorError)
| HeaderMalformed.

Definition EARLIEST : text := str_bytes "earliest".
Definition LATEST : text := str_bytes "latest".

Definition position (p : StreamParams) (resume : option text) : result ParamError Position :=
  match resume with
  | Some raw =>
      let? offset := ok_or ResumeNotAnOffset (decimal.parse i64_min i64_max raw) in
      Ok (After offset)
  | None =>
      match from p with
      | None => Ok Latest
      | Some raw =>
          if bool_decide (raw = LATEST) then Ok Latest
          else if bool_decide (raw = EARLIEST) then Ok Earliest
          else
            let? offset := ok_or (FromMalformed raw) (decimal.parse i64_min i64_max raw) in
            Ok (After offset)
      end
  end.

Definition topic_position (p : StreamParams) (resume : option text) :
    result ParamError TopicPosition :=
  match resume with
  | Some raw => let? c := map_err BadCursor (parse raw) in Ok (TopicAfter c)
  | None =>
      match from p with
      | None => Ok TopicLatest
      | Some raw =>
          if bool_decide (raw = LATEST) then Ok TopicLatest
          else if bool_decide (raw = EARLIEST) then Ok TopicEarliest
          else let? c := map_err BadCursor (parse raw) in Ok (TopicAfter c)
      end
  end.

Definition filter (p : StreamParams) : result ParamError Filter :=
  let? h :=
    match header p with
    | None => Ok None
    | Some raw =>
        let? (name, value) := ok_or HeaderMalformed (split_once COLON raw) in
        Ok (Some (bytes_str name, value))
    end in
  Ok (mkFilter (key_prefix p) h).

(** ** Round trip *)

Definition graphic (b : byte) : Prop := 33 ≤ byte_to_Z b ≤ 126.

Lemma plain_graphic b : plain b → graphic b.
Proof. intros ?%plain_bounds. unfold graphic. lia. Qed.

Lemma not_graphic_byte z : 0 ≤ z < 256 → z < 33 ∨ 126 < z → ¬ graphic (byte_of_Z z).
Proof. intros Hz Ho. unfold graphic. rewrite byte_to_Z_of_Z, Z.mod_small; lia. Qed.

Lemma strip_any_graphic ws s :
  Forall (λ w, ∃ c w', w = c :: w' ∧ ¬ graphic c) ws → Forall graphic s → strip_any s ws = None.
Proof.
  intros Hws Hs. induction Hws as [|w ws (c & w' & -> & Hc) _ IH]; [done|].
  cbn [strip_any]. unfold strip_prefix. rewrite bool_decide_eq_false_2; [done|].
  destruct Hs; [done|]. cbn. by intros [= -> _].
Qed.

Lemma whitespace_not_graphic (ends : text → text) :
  ends = id ∨ ends = @rev byte →
  Forall (λ w, ∃ c w', w = c :: w' ∧ ¬ graphic c) (ends <$> whitespace).
Proof.
  intros H. unfold whitespace. rewrite !fmap_app. destruct H as [->| ->];
  repeat apply Forall_app_2; cbn [fmap list_fmap id rev app];
  repeat (apply Forall_cons_2; [do 2 eexists; split; [reflexivity|apply not_graphic_byte; lia]|]);
  constructor.
Qed.

Lemma trim_start_graphic fuel ws s :
  Forall (λ w, ∃ c w', w = c :: w' ∧ ¬ graphic c) ws → Forall graphic s → trim_start fuel ws s = s.
Proof.
  intros Hws Hs. destruct fuel; [done|]. cbn. by rewrite strip_any_graphic.
Qed.

Lemma trim_graphic s : Forall graphic s → trim s = s.
Proof.
  intros Hs. unfold trim. rewrite (trim_start_graphic _ whitespace); [|clear|done].
  2: { rewrite <- (list_fmap_id whitespace). apply whitespace_not_graphic. by left. }
  rewrite trim_start_graphic; [apply rev_involutive|apply whitespace_not_graphic; by right|].
  by apply List.Forall_rev.
Qed.

Lemma trim_plain s : Forall plain s → trim s = s.
Proof. intros Hs. apply trim_graphic. eapply Forall_impl; [exact Hs|apply plain_graphic]. Qed.

Definition pair_ok (kv : Z * Z) : Prop := is_i32 kv.1 ∧ is_i64 kv.2.

Lemma colon_not_plain : ¬ plain COLON.
Proof. apply not_plain_byte; lia. Qed.

Lemma encode_pair_parse kv : pair_ok kv → parse_pair (encode_pair kv) = Ok kv.
Proof.
  intros [Hp Ho]. destruct kv as [p o]. cbn [fst snd] in *.
  assert (i64_min ≤ p ≤ i64_max) as Hp' by int_lia.
  destruct (print_plain p Hp') as [Hp1 _]. destruct (print_plain o Ho) as [Ho1 _].
  unfold parse_pair, encode_pair. cbn [fst snd app].
  rewrite (split_once_plain COLON); [|apply colon_not_plain|done]. cbn [ok_or res_bind].
  rewrite !trim_plain by done. rewrite parse_print by int_lia. cbn [ok_or res_bind].
  by rewrite parse_print by int_lia.
Qed.

Lemma encode_pair_comma kv : pair_ok kv → (COMMA ∉ encode_pair kv) ∧ encode_pair kv ≠ [].
Proof.
  intros [Hp Ho]. destruct kv as [p o]. cbn [fst snd] in *. unfold encode_pair. cbn [fst snd].
  destruct (print_plain p) as [Hp1 Hp2]; [int_lia|]. destruct (print_plain o Ho) as [Ho1 _].
  assert (∀ s, Forall plain s → COMMA ∉ s) as Hc.
  { intros s Hs Hin. apply (proj1 (Forall_forall _ _) Hs) in Hin. revert Hin.
    apply not_plain_byte; lia. }
  split.
  - rewrite !elem_of_app, list_elem_of_singleton. intros [H|[H|H]]; [by apply (Hc _ Hp1)|by vm_compute in H|by apply (Hc _ Ho1)].
  - intros H. by apply app_nil in H as [? _].
Qed.

(** Everything after the first pair follows a comma. *)
Lemma encode_steps kvs : ∀ out,
  Forall pair_ok kvs → out ≠ [] →
  foldl encode_step out kvs = out ++ concat ((λ kv, COMMA :: encode_pair kv) <$> kvs).
Proof.
  induction kvs as [|kv kvs IH]; intros out Hall Hne; cbn [foldl]; [by rewrite app_nil_r|].
  apply Forall_cons in Hall as [Hkv Hall].
  assert (encode_step out kv = out ++ COMMA :: encode_pair kv) as E.
  { unfold encode_step. destruct out; [done|]. by rewrite <- app_assoc. }
  rewrite E, IH; [|done|by destruct out]. cbn [fmap list_fmap concat]. by rewrite <- app_assoc.
Qed.

Lemma split_pairs kvs : ∀ kv,
  Forall pair_ok (kv :: kvs) →
  split COMMA (encode_pair kv ++ concat ((λ kv, COMMA :: encode_pair kv) <$> kvs)) =
  encode_pair <$> kv :: kvs.
Proof.
  induction kvs as [|kv' kvs IH]; intros kv [Hkv Hall]%Forall_cons;
    destruct (encode_pair_comma kv Hkv) as [Hc _].
  - cbn [fmap list_fmap concat]. rewrite app_nil_r. by apply split_none.
  - cbn [fmap list_fmap concat app]. rewrite split_app by done. f_equal. by apply IH.
Qed.

Lemma parse_encoded kvs : ∀ c,
  Forall pair_ok kvs →
  parse_pairs c (encode_pair <$> kvs) = Ok (foldl (λ c kv, <[kv.1 := kv.2]> c) c kvs).
Proof.
  induction kvs as [|[p o] kvs IH]; intros c; [done|]. intros [Hkv Hall]%Forall_cons.
  cbn [fmap list_fmap parse_pairs foldl]. rewrite encode_pair_parse by done. cbn [res_bind].
  by apply IH.
Qed.

Lemma foldl_insert_list_to_map (kvs : list (Z * Z)) : ∀ c : Cursor,
  NoDup kvs.*1 → (∀ k, k ∈ kvs.*1 → c !! k = None) →
  foldl (λ c kv, <[kv.1 := kv.2]> c) c kvs = list_to_map kvs ∪ c.
Proof.
  induction kvs as [|[k v] kvs IH]; intros c Hnd Hc; cbn [foldl list_to_map foldr].
  - by rewrite (left_id_L ∅ (∪)).
  - cbn in Hnd. apply NoDup_cons in Hnd as [Hk Hnd]. cbn in Hc. rewrite IH; [|done|].
    + cbn [fst snd]. rewrite <- insert_union_r; [|by apply not_elem_of_list_to_map_1].
      by rewrite insert_union_l.
    + intros k' Hk'. cbn. rewrite lookup_insert_ne by congruence. apply Hc. by right.
Qed.

(** A cursor that names at least one partition survives its text. *)
Lemma parse_encode (c : Cursor) :
  c ≠ ∅ → (∀ p o, c !! p = Some o → is_i32 p ∧ is_i64 o) → parse (encode c) = Ok c.
Proof.
  intros Hne Hc.
  assert (entries c ≡ₚ map_to_list c) as Hperm by apply merge_sort_Permutation.
  assert (Forall pair_ok (entries c)) as Hok.
  { rewrite Hperm. apply Forall_forall. intros [p o] Hpo. apply elem_of_map_to_list in Hpo.
    by apply Hc. }
  assert (NoDup (entries c).*1) as Hnd by (rewrite Hperm; apply NoDup_fst_map_to_list).
  unfold parse, encode. destruct (entries c) as [|kv kvs] eqn:E.
  { apply Permutation_nil_l in Hperm. symmetry in Hperm. by apply map_to_list_empty_iff in Hperm. }
  cbn [foldl]. assert (encode_step [] kv = encode_pair kv) as -> by done.
  pose proof Hok as [Hkv Hall]%Forall_cons.
  rewrite encode_steps, split_pairs, parse_encoded by (done || by apply encode_pair_comma).
  rewrite foldl_insert_list_to_map by (done || intros; apply lookup_empty).
  by rewrite (right_id_L ∅ (∪)), (list_to_map_proper _ _ Hnd Hperm), list_to_map_to_list.
Qed.

(** What a server mints, it honours: an event's offset resumes after that
    event, and a cursor that names a partition resumes at that cursor,
    whatever the other parameters say.  The cursor that names none is the one
    [parse] refuses. *)
Theorem resume_tokens_survive (p : StreamParams) :
  (∀ offset, is_i64 offset → position p (Some (decimal.print offset)) = Ok (After offset)) ∧
  (∀ c : Cursor, c ≠ ∅ → (∀ part o, c !! part = Some o → is_i32 part ∧ is_i64 o) →
    topic_position p (Some (encode c)) = Ok (TopicAfter c)) ∧
  topic_position p (Some (encode ∅)) = Err (BadCursor (NotAPair [])).
Proof.
  split_and!; [| |done].
  - intros o Ho. unfold position. by rewrite parse_print by int_lia.
  - intros c Hne Hc. unfold topic_position. by rewrite parse_encode.
Qed.
