(* ===== verification/Pump.v ===== *)
(** * The partition pump ([odradek-web-core/src/pump.rs])

    One task per partition: it owns the source, keeps a ring of recent events
    and feeds every subscriber at its own pace.  [iterate] is one turn of
    [run_pump]'s loop; what the runtime decides (the commands that arrive, a
    timeout) is its argument [Tick], what the source answers comes from
    [RecordSource], and what a subscriber's reader does between two looks at
    its channel is a script the channel carries.  The ghost fields are
    [received] of a channel and [granted], [live_from] and [ended] of a pump:
    nothing reads them. *)
From S2P Require Import Prelude Event Source.

(** ** Configuration *)

Record PumpConfig : Type := mkPumpConfig {
  ring_capacity : Z;
  queue_capacity : Z;
  idle_poll : Z;
  error_backoff : Z;
  max_consecutive_errors : Z;
  idle_shutdown : option Z;
}.

Definition default_config : PumpConfig := mkPumpConfig 1024 256 10 500 20 (Some 30000).

Record StreamError : Type := mkStreamError {
  error_kind : SourceErrorKind.t;
  error_message : string;
}.

Definition stream_error (e : SourceError) : StreamError := mkStreamError (kind e) (message e).

Definition stream_public_message (e : StreamError) : string :=
  SourceErrorKind.public_message (error_kind e).

(** ** A subscriber's channel

    [mpsc::channel(capacity)] with its receiver.  [reader] holds what the
    receiver's owner does before each look the pump takes; [last_words] is
    the error a spawned task waits to send once there is room. *)
Module Channel.

Inductive ReaderStep : Type := Takes | Drops.

Record t : Type := mk {
  capacity : Z;
  queue : list Event;
  received : list Event;
  open : bool;
  reader : list (list ReaderStep);
  last_words : option StreamError;
}.

Definition new (capacity : Z) (reader : list (list ReaderStep)) : t :=
  mk capacity [] [] true reader None.

Definition read_step (c : t) (s : ReaderStep) : t :=
  if open c then
    match s with
    | Takes =>
        match queue c with
        | [] => c
        | e :: q => mk (capacity c) q (received c ++ [e]) true (reader c) (last_words c)
        end
    | Drops => mk (capacity c) (queue c) (received c) false (reader c) (last_words c)
    end
  else c.

(** What the reader has done by the pump's next look. *)
Definition observe (c : t) : t :=
  match reader c with
  | [] => c
  | steps :: rest =>
      foldl read_step (mk (capacity c) (queue c) (received c) (open c) rest (last_words c)) steps
  end.

Inductive TrySend : Type := Sent | Full | Closed.

Definition try_send (c : t) (e : Event) : TrySend * t :=
  let c := observe c in
  if negb (open c) then (Closed, c)
  else if capacity c <=? len (queue c) then (Full, c)
  else (Sent, mk (capacity c) (queue c ++ [e]) (received c) true (reader c) (last_words c)).

(** [Sender::capacity() == 0]. *)
Definition is_full (c : t) : bool * t :=
  let c := observe c in (capacity c <=? len (queue c), c).

Definition is_closed (c : t) : bool * t :=
  let c := observe c in (negb (open c), c).

(** The spawned task's [send(Err(error))]. *)
Definition say (c : t) (e : StreamError) : t :=
  mk (capacity c) (queue c) (received c) (open c) (reader c) (Some e).

(** Everything sent so far, in the order the reader gets it. *)
Definition stream (c : t) : list Event := received c ++ queue c.

End Channel.

(** ** The ring *)
Module Ring.

Record t : Type := mk {
  events : list Event;
  floor : option Z;
  capacity : Z;
}.

Definition new (capacity : Z) : t := mk [] None capacity.

Definition rebase (r : t) (start : option Z) : t := mk (events r) start (capacity r).

(** The [while] of [push]. *)
Fixpoint evict (events : list Event) (floor : option Z) (capacity : Z) :
    list Event * option Z :=
  match events with
  | [] => ([], floor)
  | dropped :: rest =>
      if capacity <? len events then evict rest (Some (offset dropped)) capacity
      else (events, floor)
  end.

Definition push (r : t) (e : Event) : t :=
  let '(events, floor) := evict (events r ++ [e]) (floor r) (capacity r) in
  mk events floor (capacity r).

Definition covers (r : t) (cursor : option Z) : bool := pos_leb (floor r) cursor.

End Ring.

(** [partition_point], of a list its predicate partitions. *)
Fixpoint partition_point {A} (pred : A → bool) (l : list A) : nat :=
  match l with
  | [] => 0
  | x :: l' => if pred x then S (partition_point pred l') else 0
  end%nat.

(** [events[partition_point(|e| Some(e.offset) <= cursor)..]], which is also
    [Ring::after]. *)
Definition events_after (events : list Event) (cursor : option Z) : list Event :=
  drop (partition_point (λ e, pos_leb (Some (offset e)) cursor) events) events.

Definition ring_after (r : Ring.t) (cursor : option Z) : list Event :=
  events_after (Ring.events r) cursor.

Definition cursor_covered_by (cursor ring_floor : option Z) : bool := pos_leb ring_floor cursor.

(** ** Subscribers *)

Inductive Mode : Type := CatchingUp | Live.

#[export] Instance Mode_eq_dec : EqDecision Mode.
Proof. solve_decision. Defined.

Inductive LiveEdge : Type := Unknown | At (position : option Z).

Record SubState : Type := mkSubState {
  id : Z;
  sender : Channel.t;
  filter : Filter;
  mode : Mode;
  cursor : option Z;
  closed : bool;
  catch_up_errors : Z;
}.

Definition with_sender (s : SubState) (c : Channel.t) : SubState :=
  mkSubState (id s) c (filter s) (mode s) (cursor s) (closed s) (catch_up_errors s).
Definition with_mode (s : SubState) (m : Mode) : SubState :=
  mkSubState (id s) (sender s) (filter s) m (cursor s) (closed s) (catch_up_errors s).
Definition with_cursor (s : SubState) (c : option Z) : SubState :=
  mkSubState (id s) (sender s) (filter s) (mode s) c (closed s) (catch_up_errors s).
Definition with_closed (s : SubState) : SubState :=
  mkSubState (id s) (sender s) (filter s) (mode s) (cursor s) true (catch_up_errors s).
Definition with_errors (s : SubState) (n : Z) : SubState :=
  mkSubState (id s) (sender s) (filter s) (mode s) (cursor s) (closed s) n.

Definition push_live (s : SubState) (event : Event) : SubState :=
  if negb (bool_decide (mode s = Live)) || closed s then s
  else if negb (matches (filter s) event) then with_cursor s (Some (offset event))
  else
    let '(r, c) := Channel.try_send (sender s) event in
    let s := with_sender s c in
    match r with
    | Channel.Sent => with_cursor s (Some (offset event))
    | Channel.Full => with_mode s CatchingUp
    | Channel.Closed => with_closed s
    end.

Definition needs_fetch (s : SubState) (ring_floor live_edge : option Z) : bool * SubState :=
  if closed s then (false, s)
  else
    let '(full, c) := Channel.is_full (sender s) in
    let s := with_sender s c in
    if full then (false, s)
    else
      (match mode s with
       | Live => false
       | CatchingUp =>
           pos_ltb (cursor s) live_edge && negb (cursor_covered_by (cursor s) ring_floor)
       end, s).

Record Subscribers : Type := mkSubscribers {
  subs : list SubState;
  next_id : Z;
  rotor : Z;
}.

Definition no_subscribers : Subscribers := mkSubscribers [] 0 0.

Definition set_subs (l : Subscribers) (subs : list SubState) : Subscribers :=
  mkSubscribers subs (next_id l) (rotor l).

Definition add (l : Subscribers) (sender : Channel.t) (filter : Filter) (mode : Mode)
    (cursor : option Z) : Subscribers :=
  mkSubscribers (subs l ++ [mkSubState (next_id l) sender filter mode cursor false 0])
    (next_id l + 1) (rotor l).

(** [retain_live]'s test: [!s.closed && !s.sender.is_closed()]. *)
Definition is_live (s : SubState) : bool * SubState :=
  if closed s then (false, s)
  else let '(gone, c) := Channel.is_closed (sender s) in (negb gone, with_sender s c).

(** The list that is kept, and what is dropped. *)
Definition retain_live (l : Subscribers) : Subscribers * list SubState :=
  let looked := is_live <$> subs l in
  (set_subs l (snd <$> List.filter fst looked),
   snd <$> List.filter (λ x, negb (fst x)) looked).

(** [min_by_key] on [(id < rotor, id)], the first of equals. *)
Definition turn_key (rotor : Z) (s : SubState) : Z * Z := ((if id s <? rotor then 1 else 0), id s).
Definition turn_ltb (a b : Z * Z) : bool :=
  (a.1 <? b.1) || ((a.1 =? b.1) && (a.2 <? b.2)).

Fixpoint min_turn (rotor : Z) (index : nat) (l : list (bool * SubState)) :
    option (nat * SubState) :=
  match l with
  | [] => None
  | (needs, s) :: rest =>
      match needs, min_turn rotor (S index) rest with
      | false, later => later
      | true, None => Some (index, s)
      | true, Some (i, s') =>
          if turn_ltb (turn_key rotor s') (turn_key rotor s) then Some (i, s')
          else Some (index, s)
      end
  end.

Definition next_fetch (l : Subscribers) (ring_floor live_edge : option Z) :
    option nat * Subscribers :=
  let looked := (λ s, needs_fetch s ring_floor live_edge) <$> subs l in
  let list := snd <$> looked in
  match min_turn (rotor l) 0 looked with
  | None => (None, set_subs l list)
  | Some (index, s) => (Some index, mkSubscribers list (next_id l) (id s + 1))
  end.

Definition fail_one (s : SubState) (e : SourceError) : SubState :=
  let s := with_closed s in with_sender s (Channel.say (sender s) (stream_error e)).

Definition fail_subs (l : list SubState) (e : SourceError) : list SubState :=
  (λ s, if closed s then s else with_sender s (Channel.say (sender s) (stream_error e))) <$> l.

(** ** Serving one subscriber *)

Inductive PushOutcome : Type := Delivered | Stalled | Gone.

Fixpoint push_run (s : SubState) (events : list Event) : PushOutcome * SubState :=
  match events with
  | [] => (Delivered, s)
  | event :: rest =>
      if matches (filter s) event then
        let '(r, c) := Channel.try_send (sender s) event in
        let s := with_sender s c in
        match r with
        | Channel.Sent => push_run (with_cursor s (Some (offset event))) rest
        | Channel.Full => (Stalled, s)
        | Channel.Closed => (Gone, s)
        end
      else push_run (with_cursor s (Some (offset event))) rest
  end.

Definition advance_from_ring (s : SubState) (ring : Ring.t) (live_edge : option Z) : SubState :=
  if negb (bool_decide (mode s = CatchingUp)) || closed s then s
  else if pos_leb live_edge (cursor s) then
    if bool_decide (cursor s = live_edge) then with_mode s Live else s
  else if negb (Ring.covers ring (cursor s)) then s
  else
    match push_run s (ring_after ring (cursor s)) with
    | (Delivered, s) => with_mode s Live
    | (Stalled, s) => s
    | (Gone, s) => with_closed s
    end.

(** ** Commands *)

(** [Subscribe] carries the reader of the [Subscription] it is answered with. *)
Inductive Command : Type :=
| Subscribe (position : Position) (filter : Filter) (reader : list (list Channel.ReaderStep))
| Shutdown.

Definition starts (position : Position) : Mode * option Z :=
  match position with
  | Latest => (Live, None)
  | After offset => (CatchingUp, Some offset)
  | Earliest => (CatchingUp, None)
  end.

Definition handle_command (config : PumpConfig) (cmd : Command) (l : Subscribers) : Subscribers :=
  match cmd with
  | Shutdown => l
  | Subscribe position filter reader =>
      let '(mode, cursor) := starts position in
      add l (Channel.new (queue_capacity config) reader) filter mode cursor
  end.

(** ** The loop *)

Section pump.
Context {S : Type} `{RecordSource S}.
Context (topic : string) (partition : Z) (config : PumpConfig).

Definition fetch_catch_up (s : SubState) (source : S) :
    result SourceError unit * SubState * S :=
  match mode s with
  | Live => (Ok tt, s, source)
  | CatchingUp =>
      let position := cursor s in
      let '(r, source) := fetch topic partition position source in
      match r with
      | Ok batch =>
          let s := with_errors s 0 in
          match push_run s (events_after (events batch) position) with
          | (Delivered, s) =>
              (Ok tt, with_cursor s (pos_max (cursor s) (next_after batch)), source)
          | (Stalled, s) => (Ok tt, s, source)
          | (Gone, s) => (Ok tt, with_closed s, source)
          end
      | Err e =>
          if is_permanent e then (Err e, s, source)
          else
            let s := with_errors s (catch_up_errors s + 1) in
            if max_consecutive_errors config <? catch_up_errors s
            then (Ok tt, fail_one s e, source)
            else (Ok tt, s, source)
      end
  end.

(** The task's variables, and what has happened so far: who subscribed when,
    where live began, whose stream is over. *)
Record Pump : Type := mkPump {
  source : S;
  ring : Ring.t;
  subscribers : Subscribers;
  live_edge : LiveEdge;
  consecutive_errors : Z;
  granted : list (Position * LiveEdge);
  live_from : LiveEdge;
  ended : list SubState;
}.

Definition spawn (source : S) : Pump :=
  mkPump source (Ring.new (ring_capacity config)) no_subscribers Unknown 0 [] Unknown [].

Definition set_subscribers (p : Pump) (l : Subscribers) : Pump :=
  mkPump (source p) (ring p) l (live_edge p) (consecutive_errors p) (granted p) (live_from p)
    (ended p).
Definition set_source (p : Pump) (s : S) : Pump :=
  mkPump s (ring p) (subscribers p) (live_edge p) (consecutive_errors p) (granted p) (live_from p)
    (ended p).
Definition set_errors (p : Pump) (n : Z) : Pump :=
  mkPump (source p) (ring p) (subscribers p) (live_edge p) n (granted p) (live_from p) (ended p).
Definition set_ended (p : Pump) (l : list SubState) : Pump :=
  mkPump (source p) (ring p) (subscribers p) (live_edge p) (consecutive_errors p) (granted p)
    (live_from p) (ended p ++ l).

(** How far an iteration gets: on to its next statement, back to the top of
    the loop, or out of the task. *)
Inductive flow : Type :=
| Next (p : Pump)
| Continue (p : Pump)
| Return (p : Pump).

Definition and_then (m : flow) (k : Pump → flow) : flow :=
  match m with
  | Next p => k p
  | Continue p => Continue p
  | Return p => Return p
  end.

(** Leaving the task: every sender is dropped. *)
Definition exit (p : Pump) : flow :=
  Return (set_subscribers (set_ended p (subs (subscribers p))) (set_subs (subscribers p) [])).

(** [fail_subs(subs.take(), &e); return]. *)
Definition fail (p : Pump) (e : SourceError) : flow :=
  exit (set_subscribers p (set_subs (subscribers p) (fail_subs (subs (subscribers p)) e))).

(** A transient error counts against the pump's budget. *)
Definition charge (p : Pump) (e : SourceError) (k : Pump → flow) : flow :=
  let p := set_errors p (consecutive_errors p + 1) in
  if is_permanent e || (max_consecutive_errors config <? consecutive_errors p)
  then fail p e else k p.

Definition drop_dead (p : Pump) : Pump :=
  let '(l, gone) := retain_live (subscribers p) in set_ended (set_subscribers p l) gone.

(** What the runtime gives an iteration: what the wait on the command channel
    ends with, when nobody listens, and what is queued there then. *)
Inductive Wake : Type := TimedOut | Disconnected | Woken (cmd : Command).

Record Tick : Type := mkTick {
  wake : Wake;
  pending : list Command;
}.

Definition grant (p : Pump) (cmd : Command) : Pump :=
  match cmd with
  | Subscribe position _ _ =>
      mkPump (source p) (ring p) (handle_command config cmd (subscribers p)) (live_edge p)
        (consecutive_errors p) (granted p ++ [(position, live_edge p)]) (live_from p) (ended p)
  | Shutdown => p
  end.

Definition await_command (p : Pump) (w : Wake) : flow :=
  match subs (subscribers p) with
  | _ :: _ => Next p
  | [] =>
      match w with
      | TimedOut => match idle_shutdown config with Some _ => exit p | None => Continue p end
      | Disconnected | Woken Shutdown => exit p
      | Woken cmd => Next (grant p cmd)
      end
  end.

Fixpoint drain (p : Pump) (pending : list Command) : flow :=
  match pending with
  | [] => Next p
  | Shutdown :: _ => exit p
  | cmd :: rest => drain (grant p cmd) rest
  end.

Definition establish (p : Pump) : flow :=
  match live_edge p with
  | At _ => Next p
  | Unknown =>
      let '(r, source) := live_start topic partition (source p) in
      let p := set_source p source in
      match r with
      | Ok start =>
          Next (mkPump source (Ring.rebase (ring p) start) (subscribers p) (At start)
                  (consecutive_errors p) (granted p) (At start) (ended p))
      | Err e => charge p e Continue
      end
  end.

(** The live fetch's loop body, for one event. *)
Definition deliver (x : list SubState * Ring.t) (event : Event) :
    list SubState * Ring.t :=
  ((λ s, push_live s event) <$> x.1, Ring.push x.2 event).

Definition live_fetch (p : Pump) : flow :=
  match live_edge p with
  | Unknown => Continue p
  | At position =>
      let '(r, source) := fetch topic partition position (source p) in
      let p := set_source p source in
      match r with
      | Ok batch =>
          let '(l, ring) := foldl deliver (subs (subscribers p), ring p) (events batch) in
          Next (mkPump source ring (set_subs (subscribers p) l)
                  (At (pos_max (next_after batch) position)) 0 (granted p) (live_from p) (ended p))
      | Err e => charge p e Next
      end
  end.

Definition catch_up (p : Pump) : flow :=
  match live_edge p with
  | Unknown => Continue p
  | At edge =>
      let l := set_subs (subscribers p) ((λ s, advance_from_ring s (ring p) edge) <$> subs (subscribers p)) in
      let '(turn, l) := next_fetch l (Ring.floor (ring p)) edge in
      let p := set_subscribers p l in
      match turn ≫= λ i, (λ s, (i, s)) <$> subs l !! i with
      | None => Continue p
      | Some (index, s) =>
          let '(outcome, s, source) := fetch_catch_up s (source p) in
          let p := set_subscribers (set_source p source) (set_subs l (<[index := s]> (subs l))) in
          match outcome with
          | Ok _ => Continue p
          | Err e => fail p e
          end
      end
  end.

Definition iterate (p : Pump) (t : Tick) : flow :=
  and_then (await_command (drop_dead p) (wake t)) (λ p,
  and_then (drain p (pending t)) (λ p,
  and_then (establish p) (λ p,
  and_then (live_fetch p) catch_up))).

(** [run_pump], for as many iterations as there are ticks. *)
Fixpoint run_pump (p : Pump) (ticks : list Tick) : Pump :=
  match ticks with
  | [] => p
  | t :: rest =>
      match iterate p t with
      | Return p => p
      | Next p | Continue p => run_pump p rest
      end
  end.

End pump.

(** ** Channel facts *)

#[export] Instance ReaderStep_eq_dec : EqDecision Channel.ReaderStep.
Proof. solve_decision. Defined.

(** What a reader does changes neither what was sent nor, but for the better,
    the room there is. *)
Record observed (c c' : Channel.t) : Prop := mkObserved {
  same_stream : Channel.stream c' = Channel.stream c;
  same_capacity : Channel.capacity c' = Channel.capacity c;
  same_last_words : Channel.last_words c' = Channel.last_words c;
  queue_shrinks : (length (Channel.queue c') ≤ length (Channel.queue c))%nat;
}.

#[export] Instance observed_preorder : PreOrder observed.
Proof.
  split; [by constructor|]. intros a b c [] []. constructor; [congruence..|lia].
Qed.

Lemma read_step_observed c s : observed c (Channel.read_step c s).
Proof.
  unfold Channel.read_step. destruct (Channel.open c); [|done]. destruct s; [|done].
  destruct (Channel.queue c) as [|e q] eqn:E; [done|].
  constructor; unfold Channel.stream; cbn; rewrite ?E; [by rewrite <- app_assoc|done..|cbn; lia].
Qed.

Lemma observe_observed c : observed c (Channel.observe c).
Proof.
  unfold Channel.observe. destruct (Channel.reader c) as [|steps rest]; [done|].
  set (c' := Channel.mk _ _ _ _ _ _). transitivity c'; [done|]. generalize c'.
  induction steps as [|s steps IH]; intros d; [done|]. cbn [foldl].
  etrans; [apply read_step_observed|apply IH].
Qed.

Lemma is_full_observed c : observed c (Channel.is_full c).2.
Proof. apply observe_observed. Qed.
Lemma is_closed_observed c : observed c (Channel.is_closed c).2.
Proof. apply observe_observed. Qed.

(** A send adds its event at the end of the stream, or nothing. *)
Lemma try_send_sent c e c' :
  Channel.try_send c e = (Channel.Sent, c') →
  Channel.stream c' = Channel.stream c ++ [e] ∧ Channel.last_words c' = Channel.last_words c ∧
  Channel.capacity c' = Channel.capacity c ∧
  len (Channel.queue c') ≤ Channel.capacity c'.
Proof.
  unfold Channel.try_send. destruct (observe_observed c) as [Hs Hc Hl Hq].
  destruct (Channel.open _); cbn [negb]; [|done].
  destruct (Z.leb_spec (Channel.capacity (Channel.observe c)) (len (Channel.queue (Channel.observe c))));
    [done|].
  intros [= <-]. unfold Channel.stream. cbn [Channel.received Channel.queue Channel.last_words Channel.capacity].
  rewrite app_assoc. unfold Channel.stream in Hs. rewrite Hs. split_and!; [done|done|done|].
  rewrite length_app. cbn [length]. lia.
Qed.

Lemma try_send_unsent c e r c' :
  Channel.try_send c e = (r, c') → r ≠ Channel.Sent → observed c c'.
Proof.
  unfold Channel.try_send. pose proof (observe_observed c) as Ho.
  destruct (negb _); [by intros [= <- <-]|]. destruct (_ <=? _); by intros [= <- <-].
Qed.

(** A channel with room refuses nothing for want of it. *)
Lemma try_send_room c e c' :
  len (Channel.queue c) < Channel.capacity c → Channel.try_send c e ≠ (Channel.Full, c').
Proof.
  intros Hroom. unfold Channel.try_send. destruct (observe_observed c) as [Hs Hc Hl Hq].
  destruct (negb _); [done|]. destruct (Z.leb_spec (Channel.capacity (Channel.observe c))
    (len (Channel.queue (Channel.observe c)))); [lia|done].
Qed.

(** ** Ring facts *)

Lemma partition_point_none {A} (pred : A → bool) l :
  (∀ x, x ∈ l → pred x = false) → partition_point pred l = 0%nat.
Proof. destruct l as [|x l]; [done|]. intros H. cbn. by rewrite H by (by apply elem_of_cons; left). Qed.

(** On an ascending list, skipping by binary search is filtering. *)
Lemma events_after_filter l cursor :
  ascending l →
  events_after l cursor = List.filter (λ e, pos_ltb cursor (at_pos e)) l.
Proof.
  unfold events_after, ascending. induction 1 as [|e l Hs IH Hall]; [done|].
  cbn [partition_point List.filter]. unfold pos_ltb at 1. change (Some (offset e)) with (at_pos e).
  destruct (pos_leb (at_pos e) cursor) eqn:E; cbn [negb drop]; [done|].
  f_equal. symmetry. apply filter_all_true. intros x Hx. apply pos_ltb_lt.
  eapply pos_lt_le_trans; [exact E|]. apply pos_lt_le. by apply (proj1 (Forall_forall _ _) Hall).
Qed.

Section ring.
Context (log : list Event) (Hlog : ascending log).

(** The ring holds what the log has between its floor and the live edge. *)
Record ring_ok (edge : LiveEdge) (r : Ring.t) : Prop := mkRingOk {
  ring_window : match edge with
    | Unknown => Ring.events r = [] ∧ Ring.floor r = None
    | At e => pos_le (Ring.floor r) e ∧ Ring.events r = segment log (Ring.floor r) e
    end;
  ring_bounded : len (Ring.events r) ≤ Ring.capacity r;
}.

Lemma evict_window events : ∀ floor capacity edge,
  0 ≤ capacity → pos_le floor edge → events = segment log floor edge →
  let '(events', floor') := Ring.evict events floor capacity in
  pos_le floor' edge ∧ events' = segment log floor' edge ∧ len events' ≤ capacity.
Proof.
  induction events as [|e rest IH]; intros floor capacity edge Hc Hle Hev; [done|].
  cbn [Ring.evict]. destruct (Z.ltb_spec capacity (len (e :: rest))); [|done].
  symmetry in Hev. apply (segment_cut log Hlog _ _ []) in Hev as (_ & H2 & _ & Hle').
  by apply IH.
Qed.

Lemma push_window r floor_edge (e : Event) :
  0 ≤ Ring.capacity r → ring_ok (At floor_edge) r →
  pos_le floor_edge (at_pos e) → segment log floor_edge (at_pos e) = [e] →
  ring_ok (At (at_pos e)) (Ring.push r e).
Proof.
  intros Hc [[Hle Hev] _] Hlt He. unfold Ring.push.
  pose proof (evict_window (Ring.events r ++ [e]) (Ring.floor r) (Ring.capacity r) (at_pos e) Hc) as H.
  destruct (Ring.evict _ _ _) as [events' floor'].
  destruct H as (H1 & H2 & H3); [by eapply pos_le_trans| |by constructor].
  rewrite Hev, <- He. symmetry. by apply segment_split.
Qed.

Lemma ring_ok_widen r a b :
  ring_ok (At a) r → pos_le a b → segment log a b = [] → ring_ok (At b) r.
Proof.
  intros [[H1 H2] H3] Hab Hnil. constructor; [|done]. split; [by eapply pos_le_trans|].
  by rewrite (segment_split log Hlog _ a b), Hnil, app_nil_r.
Qed.

Lemma ring_after_segment r edge cursor :
  ring_ok (At edge) r → Ring.covers r cursor = true → pos_le cursor edge →
  ring_after r cursor = segment log cursor edge.
Proof.
  intros [[H1 H2] _] Hcov Hle. unfold ring_after. rewrite H2.
  rewrite events_after_filter by by apply segment_ascending.
  symmetry. by apply segment_skip.
Qed.

End ring.
