(* ===== verification/PumpStream.v ===== *)
(** * What a pump's subscribers receive

    The invariant that ties every subscriber's stream to the log, one lemma
    per operation of Pump.v, and the theorems: delivery in order with no gap
    and no repeat, the ring as a window of the log, and what is heard of a
    source's errors. *)
From S2P Require Import Prelude Event Source Pump.

(** What a subscriber has been sent. *)
Definition sent (s : SubState) : list Event := Channel.stream (sender s).

(** Where the stream of a subscription begins: [Latest] begins at the live
    edge the pump knew when it subscribed, or else at the first one it
    learns. *)
Definition begins (g : Position * LiveEdge) (live_from : LiveEdge) : LiveEdge :=
  match g with
  | (Earliest, _) => At None
  | (After offset, _) => At (Some offset)
  | (Latest, At edge) => At edge
  | (Latest, Unknown) => live_from
  end.

Section stream.
Context (log : list Event) (Hlog : ascending log) (Hask : ∀ e, e ∈ log → askable (at_pos e)).

(** [s] has been sent what its filter selects between [start] and [hi]. *)
Definition stands_at (s : SubState) (start hi : option Z) : Prop :=
  pos_le start hi ∧ sent s = select (filter s) (segment log start hi).

(** The cursor accounts for what was sent: it is where a subscriber catching
    up stands, and nothing lies between it and where a live one does. *)
Definition accounted (s : SubState) (edge : LiveEdge) (start hi : option Z) : Prop :=
  match mode s with
  | CatchingUp => hi = cursor s
  | Live => edge = At hi ∧
      (cursor s = None ∧ sent s = [] ∨
       cursor s ≠ None ∧ pos_le start (cursor s) ∧ pos_le (cursor s) hi ∧
       segment log (cursor s) hi = [])
  end.

Definition cursor_in_range (c : option Z) : Prop :=
  match c with Some x => is_i64 x | None => True end.

Record serves (edge : LiveEdge) (start : option Z) (s : SubState) : Prop := mkServes {
  has_capacity : 1 ≤ Channel.capacity (sender s);
  cursor_range : cursor_in_range (cursor s);
  in_place : ∃ hi, stands_at s start hi ∧ (closed s = false → accounted s edge start hi);
}.

(** Subscribed to what is not known to have begun. *)
Record waits (s : SubState) : Prop := mkWaits {
  waits_capacity : 1 ≤ Channel.capacity (sender s);
  waits_live : mode s = Live;
  waits_cursor : cursor s = None;
  waits_sent : sent s = [];
}.

Definition sub_ok (edge live_from : LiveEdge) (g : Position * LiveEdge) (s : SubState) : Prop :=
  match begins g live_from with
  | Unknown => waits s
  | At start => serves edge start s
  end.

(** ** One subscriber *)

Lemma serves_observed edge start s c :
  observed (sender s) c → serves edge start s → serves edge start (with_sender s c).
Proof.
  intros [Hs Hc _ _] [H1 H2 (hi & H3 & H4)].
  constructor; [cbn; lia|done|]. exists hi. unfold stands_at, accounted, sent in *.
  cbn [with_sender sender filter mode cursor closed]. by rewrite Hs.
Qed.

Lemma waits_observed s c : observed (sender s) c → waits s → waits (with_sender s c).
Proof.
  intros [Hs Hc _ _] [H1 H2 H3 H4]. constructor; [cbn; lia|done..|].
  unfold sent in *. cbn [with_sender sender]. by rewrite Hs.
Qed.

Lemma sub_ok_observed edge live_from g s c :
  observed (sender s) c → sub_ok edge live_from g s → sub_ok edge live_from g (with_sender s c).
Proof.
  unfold sub_ok. destruct (begins g live_from); [apply waits_observed|apply serves_observed].
Qed.

Lemma serves_widen a b start s :
  serves (At a) start s → pos_le a b → segment log a b = [] → serves (At b) start s.
Proof.
  intros [H1 H2 (hi & [Hle Hsent] & Hacc)] Hab Hnil. constructor; [done..|].
  destruct (mode s) eqn:Em; [exists hi; split; [done|]; intros Hc; specialize (Hacc Hc);
    unfold accounted in *; by rewrite Em in *|].
  destruct (closed s) eqn:Ec; [by exists hi|].
  specialize (Hacc eq_refl). unfold accounted in Hacc. rewrite Em in Hacc.
  destruct Hacc as [[= <-] Hacc]. exists b. split.
  - split; [by eapply pos_le_trans|].
    by rewrite (segment_split log Hlog start a b), Hnil, app_nil_r.
  - intros _. unfold accounted. rewrite Em. split; [done|].
    destruct Hacc as [?|(? & ? & ? & Hseg)]; [by left|right]. split_and!; [done..| |].
    + by eapply pos_le_trans.
    + by rewrite (segment_split log Hlog _ a b), Hseg, Hnil.
Qed.

(** What one more event does to a stream. *)
Lemma stands_at_next s c start hi e :
  stands_at s start hi → pos_le hi (at_pos e) → segment log hi (at_pos e) = [e] →
  Channel.stream c = sent s ++ select (filter s) [e] →
  stands_at (with_cursor (with_sender s c) (at_pos e)) start (at_pos e).
Proof.
  intros [Hle Hsent] Hhi Hseg Hc. split; [by eapply pos_le_trans|].
  unfold sent at 1. cbn [with_cursor with_sender sender filter].
  by rewrite Hc, Hsent, (segment_split log Hlog start hi (at_pos e)), select_app, Hseg.
Qed.

Lemma select_one f e : select f [e] = if matches f e then [e] else [].
Proof. done. Qed.

(** What a sent or declined event leaves accounted for. *)
Lemma serves_next s c start hi e :
  1 ≤ Channel.capacity c → e ∈ log → stands_at s start hi → pos_le hi (at_pos e) →
  segment log hi (at_pos e) = [e] → Channel.stream c = sent s ++ select (filter s) [e] →
  serves (At (at_pos e)) start (with_cursor (with_sender s c) (at_pos e)).
Proof.
  intros Hcap He Hst Hhi Hseg Hc. constructor; [done| |].
  - cbn. apply Hask in He. cbn in He. int_lia.
  - exists (at_pos e). split; [by eapply stands_at_next|]. intros _. unfold accounted.
    cbn [with_cursor with_sender mode cursor sender]. destruct (mode s); [done|].
    split; [done|]. right. split_and!; [done|..|apply pos_le_refl|].
    + destruct Hst as [Hle _]. by eapply pos_le_trans.
    + apply segment_empty, pos_le_refl.
Qed.

Lemma with_sender_same s : with_sender s (sender s) = s.
Proof. by destruct s. Qed.

Lemma push_live_serves edge start s e :
  serves (At edge) start s → e ∈ log → pos_le edge (at_pos e) →
  segment log edge (at_pos e) = [e] → serves (At (at_pos e)) start (push_live s e).
Proof.
  intros Hs He Hle Hseg. unfold push_live.
  pose proof Hs as [Hcap Hcur (hi & Hst & Hacc)].
  destruct (bool_decide_reflect (mode s = Live)) as [Em|Em]; cbn [negb orb].
  2: { constructor; [done..|]. exists hi. split; [done|]. intros Hc. specialize (Hacc Hc).
       unfold accounted in *. by destruct (mode s). }
  destruct (closed s) eqn:Ec.
  { constructor; [done..|]. exists hi. split; [done|]. by rewrite Ec. }
  specialize (Hacc eq_refl). unfold accounted in Hacc. rewrite Em in Hacc.
  destruct Hacc as [[= <-] Hacc].
  destruct (matches (filter s) e) eqn:Ef; cbn [negb].
  2: { rewrite <- (with_sender_same s). apply (serves_next s _ start edge); [done..|].
       by rewrite select_one, Ef, app_nil_r. }
  destruct (Channel.try_send (sender s) e) as [r c] eqn:Et. destruct r.
  - apply try_send_sent in Et as (Hstr & _ & Hc & _).
    apply (serves_next s _ start edge); [lia|done..|]. by rewrite select_one, Ef.
  - destruct Hacc as [[Hc0 Hs0]|(Hc0 & Hstart & Hce & Hnil)].
    { exfalso. refine (try_send_room _ _ _ _ Et). unfold sent, Channel.stream in Hs0.
      apply app_nil in Hs0 as [_ ->]. cbn. lia. }
    pose proof (serves_observed _ _ _ c (try_send_unsent _ _ _ _ Et ltac:(done)) Hs) as Hs'.
    destruct Hs' as [Hcap' Hcur' (hi & Hst' & Hacc')]. constructor; [done..|].
    exists (cursor s). split; [|done]. destruct Hst' as [_ Hsent].
    unfold accounted in Hacc'. cbn [with_sender closed mode] in Hacc'. rewrite Em in Hacc'.
    destruct (Hacc' Ec) as [[= <-] _]. split; [done|].
    unfold sent in *. cbn [with_mode with_sender sender filter] in *.
    by rewrite Hsent, (segment_split log Hlog start (cursor s) edge), Hnil, app_nil_r.
  - pose proof (serves_observed _ _ _ c (try_send_unsent _ _ _ _ Et ltac:(done)) Hs) as Hs'.
    destruct Hs' as [Hcap' Hcur' (hi & Hst' & _)]. constructor; [done..|].
    exists hi. split; [done|]. done.
Qed.

(** ** Catching up *)

Lemma serves_catching edge edge' start s :
  mode s = CatchingUp → serves edge start s → serves edge' start s.
Proof.
  intros Em [H1 H2 (hi & H3 & H4)]. constructor; [done..|]. exists hi. split; [done|].
  intros Hc. specialize (H4 Hc). unfold accounted in *. by rewrite Em in *.
Qed.

(** A subscriber in the middle of its catch-up, owed what is up to [b]. *)
Record catching (edge : LiveEdge) (start b : option Z) (s : SubState) : Prop := mkCatching {
  catching_serves : serves edge start s;
  catching_mode : mode s = CatchingUp;
  catching_open : closed s = false;
  catching_below : pos_le (cursor s) b;
}.

Lemma catching_stands edge start b s : catching edge start b s → stands_at s start (cursor s).
Proof.
  intros [[_ _ (hi & Hst & Hacc)] Em Hc _]. specialize (Hacc Hc). unfold accounted in Hacc.
  rewrite Em in Hacc. by subst.
Qed.

Lemma catching_observed edge start b s c :
  observed (sender s) c → catching edge start b s → catching edge start b (with_sender s c).
Proof. intros Ho [H1 H2 H3 H4]. constructor; [by apply serves_observed|done..]. Qed.

Lemma catching_next edge start b s c e :
  catching edge start b s → 1 ≤ Channel.capacity c → e ∈ log →
  segment log (cursor s) (at_pos e) = [e] → pos_le (cursor s) (at_pos e) → pos_le (at_pos e) b →
  Channel.stream c = sent s ++ select (filter s) [e] →
  catching edge start b (with_cursor (with_sender s c) (at_pos e)).
Proof.
  intros Hs Hcap He Hseg Hle Hb Hstr. pose proof (catching_stands _ _ _ _ Hs) as Hst.
  destruct Hs as [_ Em Hc _]. constructor; [|done..].
  apply (serves_catching (At (at_pos e))); [done|]. by eapply serves_next.
Qed.

Lemma push_run_catching edge start b events : ∀ s,
  catching edge start b s → events = segment log (cursor s) b →
  catching edge start b (push_run s events).2 ∧
  ((push_run s events).1 = Delivered → segment log (cursor (push_run s events).2) b = []).
Proof.
  induction events as [|e rest IH]; intros s Hs Hev; [done|].
  symmetry in Hev. pose proof (segment_elem log (cursor s) b e) as He.
  rewrite Hev in He. specialize (He ltac:(by apply elem_of_cons; left)).
  apply (segment_cut log Hlog _ _ []) in Hev as (Hone & Hrest & Hlt & Hle).
  apply pos_lt_le in Hlt. pose proof (has_capacity _ _ _ (catching_serves _ _ _ _ Hs)) as Hcap.
  cbn [push_run]. destruct (matches (filter s) e) eqn:Ef.
  - destruct (Channel.try_send (sender s) e) as [r c] eqn:Et. destruct r; cbn [fst snd].
    + apply try_send_sent in Et as (Hstr & _ & Hc & _). apply IH; [|done].
      apply (catching_next edge start b s c e); try done; [lia|]. by rewrite select_one, Ef.
    + split; [|done]. eapply catching_observed, Hs. by eapply try_send_unsent.
    + split; [|done]. eapply catching_observed, Hs. by eapply try_send_unsent.
  - rewrite <- (with_sender_same s) at 1 2 3. apply IH; [|done].
    apply (catching_next edge start b s _ e); try done. by rewrite select_one, Ef, app_nil_r.
Qed.

(** A subscriber owed nothing up to the live edge is live. *)
Lemma go_live start b s edge :
  catching edge start b s → segment log (cursor s) b = [] → serves (At b) start (with_mode s Live).
Proof.
  intros Hs Hnil. pose proof (catching_stands _ _ _ _ Hs) as [Hle Hsent].
  destruct Hs as [[Hcap Hcur _] Em Hc Hb]. constructor; [done..|]. exists b. split.
  - split; [by eapply pos_le_trans|]. unfold sent in *. cbn [with_mode sender filter].
    by rewrite Hsent, (segment_split log Hlog start (cursor s) b), Hnil, app_nil_r.
  - intros _. unfold accounted. cbn [with_mode mode cursor]. split; [done|].
    destruct (cursor s) as [x|] eqn:Ecur; [by right|left]. split; [done|].
    unfold sent in *. cbn [with_mode sender]. rewrite Hsent. destruct start; [done|].
    by rewrite segment_empty.
Qed.

Lemma serves_closed edge start s : serves edge start s → serves edge start (with_closed s).
Proof.
  intros [H1 H2 (hi & H3 & H4)]. constructor; [done..|]. exists hi. split; done.
Qed.

Lemma advance_serves edge start s ring :
  ring_ok log (At edge) ring → serves (At edge) start s →
  serves (At edge) start (advance_from_ring s ring edge).
Proof.
  intros Hring Hs. unfold advance_from_ring.
  destruct (bool_decide_reflect (mode s = CatchingUp)) as [Em|Em]; cbn [negb orb]; [|done].
  destruct (closed s) eqn:Ec; [done|].
  destruct (pos_leb edge (cursor s)) eqn:Hle.
  - destruct (bool_decide_reflect (cursor s = edge)) as [Ee|_]; [|done].
    eapply (go_live start edge s (At edge)); [constructor; [done..|]|]; rewrite Ee;
      [apply pos_le_refl|apply segment_empty, pos_le_refl].
  - destruct (Ring.covers ring (cursor s)) eqn:Hcov; cbn [negb]; [|done].
    assert (catching (At edge) start edge s) as Hc by (constructor; [done..|by apply pos_lt_le]).
    destruct (push_run_catching (At edge) start edge (ring_after ring (cursor s)) s Hc) as [Hc' Hd].
    { eapply ring_after_segment; [done..|]. by apply pos_lt_le. }
    destruct (push_run s _) as [[] s']; cbn [fst snd] in *.
    + eapply go_live; [done|]. by apply Hd.
    + by apply catching_serves in Hc'.
    + apply catching_serves in Hc'. by apply serves_closed.
Qed.

Lemma serves_errors edge start s n : serves edge start s → serves edge start (with_errors s n).
Proof. by intros [H1 H2 (hi & H3 & H4)]; constructor; [..|exists hi]. Qed.

Lemma serves_say edge start s e :
  serves edge start s → serves edge start (with_sender s (Channel.say (sender s) e)).
Proof. by intros [H1 H2 (hi & H3 & H4)]; constructor; [..|exists hi]. Qed.

(** A batch a source answered moves a subscriber to where it says. *)
Lemma serves_batch edge start s batch :
  serves edge start s → mode s = CatchingUp → closed s = false → answers log (cursor s) batch →
  match push_run s (events_after (events batch) (cursor s)) with
  | (Delivered, s') => serves edge start (with_cursor s' (pos_max (cursor s') (next_after batch)))
  | (Stalled, s') => serves edge start s'
  | (Gone, s') => serves edge start (with_closed s')
  end.
Proof.
  intros Hs Em Ec Hans. unfold answers in Hans.
  destruct (next_after batch) as [n|].
  - destruct Hans as (Hle & Hn & ->).
    rewrite events_after_filter by by apply segment_ascending.
    rewrite <- (segment_skip log (cursor s) (Some n) (cursor s)) by (done || apply pos_le_refl).
    destruct (push_run_catching edge start (Some n) _ s ltac:(by constructor) eq_refl) as [Hc Hd].
    destruct (push_run s _) as [[] s']; cbn [fst snd] in *.
    + specialize (Hd eq_refl). pose proof (catching_stands _ _ _ _ Hc) as [Hst Hsent].
      destruct Hc as [[Hcap Hcur _] Em' Ec' Hb]. unfold pos_max. rewrite Hb.
      constructor; [done|cbn in *; int_lia|]. exists (Some n). split.
      * split; [by eapply pos_le_trans|]. unfold sent in *. cbn [with_cursor sender filter].
        by rewrite Hsent, (segment_split log Hlog start (cursor s') (Some n)), Hd, app_nil_r.
      * intros _. unfold accounted. cbn [with_cursor mode cursor]. by rewrite Em'.
    + by apply catching_serves in Hc.
    + apply catching_serves in Hc. by apply serves_closed.
  - rewrite Hans. cbn. unfold pos_max. destruct (pos_leb (cursor s) None) eqn:E.
    + assert (cursor s = None) as <- by (by destruct (cursor s)). by destruct s.
    + by destruct s.
Qed.

End stream.

(** ** The whole pump *)

Lemma fst_filter_fmap {A B} (f : A → bool * B) l x :
  x ∈ snd <$> List.filter fst (f <$> l) → ∃ a, a ∈ l ∧ x = (f a).2.
Proof.
  intros ([b y] & -> & Hy)%list_elem_of_fmap. apply list_elem_of_In, filter_In in Hy as [Hy _].
  apply list_elem_of_In, list_elem_of_fmap in Hy as (a & Ea & Ha). exists a. by rewrite <- Ea.
Qed.

Lemma snd_filter_fmap {A B} (f : A → bool * B) l x :
  x ∈ snd <$> List.filter (λ x, negb (fst x)) (f <$> l) → ∃ a, a ∈ l ∧ x = (f a).2.
Proof.
  intros ([b y] & -> & Hy)%list_elem_of_fmap. apply list_elem_of_In, filter_In in Hy as [Hy _].
  apply list_elem_of_In, list_elem_of_fmap in Hy as (a & Ea & Ha). exists a. by rewrite <- Ea.
Qed.

Definition command_ok (cmd : Command) : Prop :=
  match cmd with
  | Subscribe (After offset) _ _ => is_i64 offset
  | _ => True
  end.

Definition tick_ok (t : Tick) : Prop :=
  Forall command_ok (pending t) ∧ match wake t with Woken cmd => command_ok cmd | _ => True end.

Section pump.
Context {S : Type} `{RecordSource S} (topic : string) (partition : Z) (config : PumpConfig).
Context (log : list Event) (ok : S → Prop).
Hypothesis Hsource : keeps_contract topic partition log ok.
Hypothesis Hqueue : 1 ≤ queue_capacity config.
Hypothesis Hring : 0 ≤ ring_capacity config.

Let Hlog : ascending log := log_ascending _ _ _ _ Hsource.
Let Hask : ∀ e, e ∈ log → askable (at_pos e) := log_askable _ _ _ _ Hsource.

(** A stream is what its filter selects of the log from where it begins. *)
Definition streams (live_from : LiveEdge) (g : Position * LiveEdge) (s : SubState) : Prop :=
  match begins g live_from with
  | Unknown => sent s = []
  | At start => ∃ hi, stands_at log s start hi
  end.

(** Every subscriber of [l] has its grant, and [P] holds of the two. *)
Definition each_granted (P : Position * LiveEdge → SubState → Prop)
    (granted : list (Position * LiveEdge)) (l : list SubState) : Prop :=
  ∀ s, s ∈ l → 0 ≤ id s ∧ ∃ g, granted !! Z.to_nat (id s) = Some g ∧ P g s.

Record pump_ok (p : @Pump S) : Prop := mkPumpOk {
  source_ok : ok (source p);
  ring_fits : ring_ok log (live_edge p) (ring p);
  ring_cap : Ring.capacity (ring p) = ring_capacity config;
  edge_ok : match live_edge p with
    | Unknown => live_from p = Unknown
    | At edge => askable edge ∧ ∃ start, live_from p = At start ∧ pos_le start edge
    end;
  ids_ok : next_id (subscribers p) = len (granted p);
  subs_ok : each_granted (sub_ok log (live_edge p) (live_from p)) (granted p)
    (subs (subscribers p));
  ended_ok : each_granted (streams (live_from p)) (granted p) (ended p);
}.

Definition flow_ok (m : flow) : Prop :=
  match m with Next p | Continue p | Return p => pump_ok p end.

Lemma and_then_ok m k :
  flow_ok m → (∀ p, pump_ok p → flow_ok (k p)) → flow_ok (and_then m k).
Proof. destruct m; cbn; auto. Qed.

Lemma each_granted_impl P Q gs l :
  (∀ g s, P g s → Q g s) → each_granted P gs l → each_granted Q gs l.
Proof. intros HPQ Hl s Hs. destruct (Hl s Hs) as (? & g & ? & ?). eauto 6. Qed.

Lemma each_granted_fmap (f : SubState → SubState) P Q gs l :
  (∀ s, id (f s) = id s) → (∀ g s, P g s → Q g (f s)) →
  each_granted P gs l → each_granted Q gs (f <$> l).
Proof.
  intros Hid HPQ Hl s (x & -> & Hx)%list_elem_of_fmap. rewrite Hid.
  destruct (Hl x Hx) as (? & g & ? & ?). eauto 6.
Qed.

Lemma each_granted_app P gs l k :
  each_granted P gs l → each_granted P gs k → each_granted P gs (l ++ k).
Proof. intros Hl Hk s [Hs|Hs]%elem_of_app; auto. Qed.

Lemma each_granted_more P gs l g :
  each_granted P gs l → each_granted P (gs ++ [g]) l.
Proof.
  intros Hl s Hs. destruct (Hl s Hs) as (? & g' & Hg & ?). split; [done|].
  exists g'. split; [|done]. by apply lookup_app_l_Some.
Qed.

Lemma sub_ok_streams edge live_from g s : sub_ok log edge live_from g s → streams live_from g s.
Proof.
  unfold sub_ok, streams. destruct (begins g live_from).
  - by intros [].
  - intros [_ _ (hi & ? & _)]. by exists hi.
Qed.

Lemma exit_ok p : pump_ok p → flow_ok (exit p).
Proof.
  intros [H1 H2 H3 H4 H5 H6 H7]. constructor; try done.
  - cbn. intros s Hs. by apply not_elem_of_nil in Hs.
  - cbn. apply each_granted_app; [done|]. eapply each_granted_impl; [|done].
    intros g s. apply sub_ok_streams.
Qed.

Lemma sub_ok_say edge live_from g s e :
  sub_ok log edge live_from g s →
  sub_ok log edge live_from g (with_sender s (Channel.say (sender s) e)).
Proof.
  unfold sub_ok. destruct (begins g live_from); [|by apply serves_say].
  intros []. by constructor.
Qed.

Lemma set_subs_ok p l :
  pump_ok p → each_granted (sub_ok log (live_edge p) (live_from p)) (granted p) l →
  pump_ok (set_subscribers p (set_subs (subscribers p) l)).
Proof. intros []. by constructor. Qed.

Lemma fail_ok p e : pump_ok p → flow_ok (fail p e).
Proof.
  intros Hp. apply exit_ok, set_subs_ok; [done|].
  unfold fail_subs. eapply each_granted_fmap; [| |by apply subs_ok].
  - intros s. by destruct (closed s).
  - intros g s Hs. destruct (closed s); [done|]. by apply sub_ok_say.
Qed.

Lemma charge_ok p e k :
  pump_ok p → (∀ p, pump_ok p → flow_ok (k p)) → flow_ok (charge config p e k).
Proof.
  intros Hp Hk. unfold charge.
  assert (pump_ok (set_errors p (consecutive_errors p + 1))) as Hp' by by destruct Hp; constructor.
  destruct (_ || _); [by apply fail_ok|by apply Hk].
Qed.

Lemma is_live_observed s : ∃ c, observed (sender s) c ∧ (is_live s).2 = with_sender s c.
Proof.
  unfold is_live. destruct (closed s).
  - exists (sender s). split; [done|]. by rewrite with_sender_same.
  - exists (Channel.is_closed (sender s)).2. split; [apply is_closed_observed|].
    by destruct (Channel.is_closed _).
Qed.

Lemma drop_dead_ok p : pump_ok p → pump_ok (drop_dead p).
Proof.
  intros [H1 H2 H3 H4 H5 H6 H7]. constructor; try done; cbn.
  - intros s (x & Hx & ->)%fst_filter_fmap. destruct (H6 x Hx) as (? & g & ? & Hs).
    destruct (is_live_observed x) as (c & Hc & ->). split; [done|]. exists g. split; [done|].
    by apply sub_ok_observed.
  - apply each_granted_app; [done|].
    intros s (x & Hx & ->)%snd_filter_fmap. destruct (H6 x Hx) as (? & g & ? & Hs).
    destruct (is_live_observed x) as (c & Hc & ->). split; [done|]. exists g. split; [done|].
    eapply sub_ok_streams. by apply sub_ok_observed.
Qed.

(** A new subscriber stands where its subscription begins. *)
Lemma new_sub_ok p position f reader :
  pump_ok p → command_ok (Subscribe position f reader) →
  sub_ok log (live_edge p) (live_from p) (position, live_edge p)
    (mkSubState (next_id (subscribers p)) (Channel.new (queue_capacity config) reader) f
       (starts position).1 (starts position).2 false 0).
Proof.
  intros Hp Hcmd. pose proof (edge_ok _ Hp) as He.
  assert (∀ start, pos_le start start ∧ [] = select f (segment log start start)) as Hnil.
  { intros start. split; [apply pos_le_refl|]. by rewrite segment_empty by apply pos_le_refl. }
  unfold sub_ok. destruct position as [| |x]; cbn [begins starts fst snd].
  - constructor; [done..|]. exists None. split; [by apply Hnil|done].
  - destruct (live_edge p) as [|edge] eqn:Ee; [rewrite He|].
    + by constructor.
    + constructor; [done..|]. exists edge. split; [by apply Hnil|].
      intros _. split; [done|]. by left.
  - constructor; [done..|]. exists (Some x). split; [by apply Hnil|done].
Qed.

Lemma grant_ok p cmd : pump_ok p → command_ok cmd → pump_ok (grant config p cmd).
Proof.
  intros Hp Hcmd. destruct cmd as [position f reader|]; [|done]. cbn [grant handle_command].
  pose proof (new_sub_ok p position f reader Hp Hcmd) as Hnew.
  destruct (starts position) as [m c]. destruct Hp as [H1 H2 H3 H4 H5 H6 H7].
  constructor; try done; cbn [live_edge live_from granted subscribers add next_id subs ended].
  - rewrite length_app. cbn. lia.
  - apply each_granted_app; [by apply each_granted_more|].
    intros s ->%list_elem_of_singleton. cbn [id]. rewrite H5 in *. split; [lia|].
    exists (position, live_edge p). by rewrite Nat2Z.id, lookup_app_r, Nat.sub_diag by lia.
  - by apply each_granted_more.
Qed.

Lemma await_ok p w :
  pump_ok p → (∀ cmd, w = Woken cmd → command_ok cmd) → flow_ok (await_command config p w).
Proof.
  intros Hp Hw. unfold await_command. destruct (subs (subscribers p)); [|done].
  destruct w as [| |cmd]; [by destruct (idle_shutdown config); [apply exit_ok|]|by apply exit_ok|].
  destruct cmd; [|by apply exit_ok]. apply grant_ok; [done|]. by apply Hw.
Qed.

Lemma drain_ok pending : ∀ p,
  pump_ok p → Forall command_ok pending → flow_ok (drain config p pending).
Proof.
  induction pending as [|cmd rest IH]; intros p Hp Hall; [done|].
  apply Forall_cons in Hall as [Hcmd Hall]. cbn [drain]. destruct cmd; [|by apply exit_ok].
  apply IH; [|done]. by apply grant_ok.
Qed.

(** Learning where live begins settles where the waiting streams do. *)
Lemma waits_serves s start : waits s → serves log (At start) start s.
Proof.
  intros [H1 H2 H3 H4]. constructor; [done|by rewrite H3|]. exists start. split.
  - split; [apply pos_le_refl|]. by rewrite H4, segment_empty by apply pos_le_refl.
  - intros _. unfold accounted. rewrite H2. auto.
Qed.

Lemma sub_ok_establish g s start :
  sub_ok log Unknown Unknown g s → sub_ok log (At start) (At start) g s.
Proof.
  unfold sub_ok. destruct g as [[| |x] [|e]]; cbn [begins];
    try by apply waits_serves.
  all: intros [H1 H2 (hi & H3 & H4)]; constructor; [done..|]; exists hi; split; [done|];
    intros Hc; specialize (H4 Hc); unfold accounted in *; destruct (mode s); [done|];
    by destruct H4.
Qed.

Lemma streams_establish g s start : streams Unknown g s → streams (At start) g s.
Proof.
  unfold streams. destruct g as [[| |x] [|e]]; cbn [begins]; try done.
  intros Hs. exists start. split; [apply pos_le_refl|].
  by rewrite Hs, segment_empty by apply pos_le_refl.
Qed.

Lemma set_source_ok p s : pump_ok p → ok s → pump_ok (set_source p s).
Proof. intros []. by constructor. Qed.

Lemma establish_ok p : pump_ok p → flow_ok (establish topic partition config p).
Proof.
  intros Hp. unfold establish. destruct (live_edge p) as [|e] eqn:Ee; [|done].
  destruct (live_start_keeps _ _ _ _ Hsource (source p) (source_ok _ Hp)) as [Hs Hr].
  destruct (live_start topic partition (source p)) as [[start|err] s]; cbn [fst snd] in *.
  - destruct Hp as [H1 [H2 H2'] H3 H4 H5 H6 H7]. rewrite Ee in *. rewrite H4 in *.
    destruct H2 as [Hev Hfl]. constructor; try done;
      cbn [live_edge live_from ring granted ended subscribers Ring.rebase].
    + constructor; cbn; [|by rewrite Hev in *; cbn in *]. split; [apply pos_le_refl|].
      by rewrite Hev, segment_empty by apply pos_le_refl.
    + split; [by apply Hr|]. exists start. split; [done|apply pos_le_refl].
    + eapply each_granted_impl; [|done]. intros g x. apply sub_ok_establish.
    + eapply each_granted_impl; [|done]. intros g x. apply streams_establish.
  - apply charge_ok; [by apply set_source_ok|done].
Qed.

Lemma begins_known g start : ∃ st, begins g (At start) = At st.
Proof. destruct g as [[] []]; by eexists. Qed.

Lemma push_live_id s e : id (push_live s e) = id s.
Proof.
  unfold push_live. destruct (_ || _); [done|]. destruct (negb _); [done|].
  by destruct (Channel.try_send _ _) as [[] c].
Qed.

Lemma push_capacity r e : Ring.capacity (Ring.push r e) = Ring.capacity r.
Proof. unfold Ring.push. by destruct (Ring.evict _ _ _). Qed.

Lemma sub_ok_widen a b start g s :
  sub_ok log (At a) (At start) g s → pos_le a b → segment log a b = [] →
  sub_ok log (At b) (At start) g s.
Proof.
  unfold sub_ok. destruct (begins_known g start) as [st ->]. by apply serves_widen.
Qed.

(** Delivering a run of the log takes everything from its start to its end. *)
Lemma deliver_ok start gs b events : ∀ l r a,
  events = segment log a b → pos_le a b →
  each_granted (sub_ok log (At a) (At start)) gs l → ring_ok log (At a) r →
  Ring.capacity r = ring_capacity config →
  let '(l', r') := foldl deliver (l, r) events in
  each_granted (sub_ok log (At b) (At start)) gs l' ∧ ring_ok log (At b) r' ∧
  Ring.capacity r' = ring_capacity config.
Proof.
  induction events as [|e rest IH]; intros l r a Hev Hle Hl Hr Hcap; cbn [foldl].
  - split_and!; [|by eapply ring_ok_widen|done].
    eapply each_granted_impl; [|done]. intros g s Hs. by eapply sub_ok_widen.
  - symmetry in Hev. pose proof (segment_elem log a b e) as He.
    rewrite Hev in He. specialize (He ltac:(by apply elem_of_cons; left)).
    apply (segment_cut log Hlog _ _ []) in Hev as (Hone & Hrest & Hlt & Hle').
    apply pos_lt_le in Hlt. unfold deliver at 2. cbn [fst snd].
    apply (IH _ _ (at_pos e)); [done|done| | |by rewrite push_capacity].
    + eapply each_granted_fmap; [apply (λ s, push_live_id s e)| |done]. intros g s.
      unfold sub_ok. destruct (begins_known g start) as [st ->]. intros Hs.
      by eapply push_live_serves.
    + eapply push_window; [done|lia|done..].
Qed.

Lemma live_fetch_ok p : pump_ok p → flow_ok (live_fetch topic partition config p).
Proof.
  intros Hp. unfold live_fetch. destruct (live_edge p) as [|e] eqn:Ee; [done|].
  pose proof (edge_ok _ Hp) as He. rewrite Ee in He. destruct He as (He & start & Ef & Hle).
  destruct (fetch_keeps _ _ _ _ Hsource (source p) e (source_ok _ Hp) He) as [Hs Hr].
  destruct (fetch topic partition e (source p)) as [[batch|err] s]; cbn [fst snd] in *;
    [|apply charge_ok; [by apply set_source_ok|done]].
  specialize (Hr batch eq_refl). unfold answers in Hr.
  set (edge := pos_max (next_after batch) e).
  assert (events batch = segment log e edge ∧ pos_le e edge ∧ askable edge) as (Hev & Hedge & Hask').
  { unfold edge, pos_max. destruct (next_after batch) as [n|]; cbn [pos_leb].
    - destruct Hr as (Hn & Hn' & ->). destruct (pos_leb (Some n) e) eqn:E; [|done].
      split_and!; [|apply pos_le_refl|done]. rewrite !segment_empty; [done|apply pos_le_refl|done].
    - rewrite Hr. split_and!; [|apply pos_le_refl|done].
      by rewrite segment_empty by apply pos_le_refl. }
  destruct Hp as [H1 H2 H3 H4 H5 H6 H7]. rewrite Ee, Ef in *.
  cbn [set_source subscribers ring].
  pose proof (deliver_ok start (granted p) edge (events batch) _ _ e Hev Hedge H6 H2 H3) as Hd.
  destruct (foldl deliver _ _) as [l' r']. destruct Hd as (Hl & Hr' & Hcap).
  constructor; try done; cbn [live_edge live_from ended ring granted subscribers subs set_subs
    set_source]; rewrite ?Ef; try done.
  split; [done|]. exists start. split; [done|]. by apply (pos_le_trans _ e).
Qed.

(** ** Catch-up *)

Lemma push_run_id events : ∀ s, id (push_run s events).2 = id s.
Proof.
  induction events as [|e rest IH]; intros s; [done|]. cbn [push_run].
  destruct (matches _ _); [|by rewrite IH].
  destruct (Channel.try_send _ _) as [[] c]; [by rewrite IH|done..].
Qed.

Lemma advance_id s r e : id (advance_from_ring s r e) = id s.
Proof.
  unfold advance_from_ring. repeat (case_match; try done).
  all: match goal with E : push_run ?x ?l = _ |- _ =>
    pose proof (push_run_id l x) as Hid; by rewrite E in Hid end.
Qed.

Lemma needs_fetch_observed s floor edge :
  ∃ c, observed (sender s) c ∧ (needs_fetch s floor edge).2 = with_sender s c.
Proof.
  unfold needs_fetch. destruct (closed s).
  - exists (sender s). split; [done|]. by rewrite with_sender_same.
  - exists (Channel.is_full (sender s)).2. split; [apply is_full_observed|].
    destruct (Channel.is_full _) as [[] c]; [done|]. cbn. by destruct (mode s).
Qed.

Lemma min_turn_lookup r l : ∀ n i s,
  min_turn r n l = Some (i, s) → (n ≤ i)%nat ∧ l !! (i - n)%nat = Some (true, s).
Proof.
  induction l as [|[b x] l IH]; intros n i s; [done|]. cbn [min_turn].
  assert (∀ i s, min_turn r (Datatypes.S n) l = Some (i, s) →
    (n ≤ i)%nat ∧ ((b, x) :: l) !! (i - n)%nat = Some (true, s)) as Hlater.
  { intros j y Hj. destruct (IH _ _ _ Hj) as [Hle Hx]. split; [lia|].
    by replace (j - n)%nat with (Datatypes.S (j - Datatypes.S n)) by lia. }
  destruct b; [|apply Hlater].
  destruct (min_turn r (Datatypes.S n) l) as [[j y]|].
  - destruct (turn_ltb _ _); [apply Hlater|]. intros [= <- <-]. by rewrite Nat.sub_diag.
  - intros [= <- <-]. by rewrite Nat.sub_diag.
Qed.

Lemma fetch_catch_up_ok p edge s :
  pump_ok p → live_edge p = At edge → ∀ g, sub_ok log (At edge) (live_from p) g s →
  (mode s = CatchingUp → closed s = false ∧ pos_lt (cursor s) edge) →
  let '(_, s', source') := fetch_catch_up topic partition config s (source p) in
  sub_ok log (At edge) (live_from p) g s' ∧ id s' = id s ∧ ok source'.
Proof.
  intros Hp Ee g Hs Hturn. pose proof (edge_ok _ Hp) as He. rewrite Ee in He.
  destruct He as (He & start & Ef & _). rewrite Ef in *. unfold fetch_catch_up.
  destruct (mode s) eqn:Em; [|by split_and!; [..|apply source_ok]].
  destruct (Hturn eq_refl) as [Hc Hlt]. unfold sub_ok in *.
  destruct (begins_known g start) as [st Eb]. rewrite Eb in *.
  assert (askable (cursor s)) as Hcur.
  { pose proof (cursor_range _ _ _ _ Hs) as Hr. destruct (cursor s) as [x|]; [|done].
    destruct edge as [y|]; [|done]. unfold pos_lt, pos_leb in Hlt. apply Z.leb_gt in Hlt.
    cbn in *. int_lia. }
  destruct (fetch_keeps _ _ _ _ Hsource (source p) (cursor s) (source_ok _ Hp) Hcur) as [Hs' Hr].
  destruct (fetch topic partition (cursor s) (source p)) as [[batch|err] src]; cbn [fst snd] in *.
  - pose proof (serves_batch log Hlog Hask (At edge) st (with_errors s 0) batch
      (serves_errors _ _ _ _ 0 Hs) Em Hc (Hr batch eq_refl)) as Hb.
    pose proof (push_run_id (events_after (events batch) (cursor s)) (with_errors s 0)) as Hid.
    cbn [with_errors cursor] in Hb, Hid.
    by destruct (push_run _ _) as [[] s'].
  - destruct (is_permanent err); [done|]. destruct (_ <? _); [|by split_and!; [apply serves_errors|..]].
    split_and!; [|done..]. apply serves_say, serves_closed. by apply serves_errors.
Qed.

Lemma next_fetch_turn l floor edge i l' :
  next_fetch l floor edge = (Some i, l') →
  ∃ s, subs l' !! i = Some s ∧ closed s = false ∧ mode s = CatchingUp ∧ pos_lt (cursor s) edge.
Proof.
  unfold next_fetch. destruct (min_turn _ _ _) as [[j s]|] eqn:Em; [|done]. intros [= <- <-].
  apply min_turn_lookup in Em as [_ Hj]. rewrite Nat.sub_0_r in Hj. exists s. cbn [subs].
  rewrite list_lookup_fmap, Hj. split; [done|].
  apply list_elem_of_lookup_2, list_elem_of_fmap in Hj as (x & Hx & _).
  unfold needs_fetch in Hx. destruct (closed x) eqn:Ec; [done|].
  destruct (Channel.is_full (sender x)) as [[] c]; [done|]. injection Hx as Hb ->.
  cbn [with_sender mode closed cursor] in *. destruct (mode x); [|done].
  symmetry in Hb. apply andb_true_iff in Hb as [Hb _]. by apply pos_ltb_lt in Hb.
Qed.

Lemma next_fetch_granted l floor edge e lf gs :
  each_granted (sub_ok log e lf) gs (subs l) →
  each_granted (sub_ok log e lf) gs (subs (next_fetch l floor edge).2) ∧
  next_id (next_fetch l floor edge).2 = next_id l.
Proof.
  intros Hl. unfold next_fetch.
  assert (each_granted (sub_ok log e lf) gs
    (snd <$> ((λ s, needs_fetch s floor edge) <$> subs l))) as Hl'.
  { rewrite <- list_fmap_compose. eapply each_granted_fmap; [| |done].
    - intros s. unfold compose. by destruct (needs_fetch_observed s floor edge) as (c & _ & ->).
    - intros g s Hs. unfold compose.
      destruct (needs_fetch_observed s floor edge) as (c & Hc & ->). by apply sub_ok_observed. }
  by destruct (min_turn _ _ _) as [[j s]|].
Qed.

Lemma catch_up_ok p : pump_ok p → flow_ok (catch_up topic partition config p).
Proof.
  intros Hp. unfold catch_up. destruct (live_edge p) as [|edge] eqn:Ee; [done|].
  pose proof (edge_ok _ Hp) as He. rewrite Ee in He. destruct He as (He & start & Ef & Hle).
  set (l := set_subs _ _).
  assert (each_granted (sub_ok log (At edge) (live_from p)) (granted p) (subs l)) as Hl.
  { eapply each_granted_fmap; [intros s; apply advance_id| |by apply subs_ok].
    rewrite Ee, Ef. intros g s. unfold sub_ok. destruct (begins_known g start) as [st ->].
    apply advance_serves; [done..|]. pose proof (ring_fits _ Hp) as Hr. by rewrite Ee in Hr. }
  destruct (next_fetch_granted l (Ring.floor (ring p)) edge _ _ _ Hl) as [Hl' Hid].
  destruct (next_fetch l _ edge) as [turn l'] eqn:Et; cbn [fst snd] in *.
  assert (pump_ok (set_subscribers p l')) as Hp'.
  { destruct Hp as [H1 H2 H3 H4 H5 H6 H7]. constructor; try done; cbn.
    - by rewrite Hid.
    - by rewrite Ee. }
  destruct turn as [i|]; cbn [mbind option_bind]; [|done].
  apply next_fetch_turn in Et as (s & Hi & Hc & Hm & Hlt). rewrite Hi. cbn [fmap option_fmap option_map].
  destruct (Hl' s (list_elem_of_lookup_2 _ _ _ Hi)) as (H0 & g & Hg & Hs).
  pose proof (fetch_catch_up_ok (set_subscribers p l') edge s Hp' Ee g Hs (λ _, conj Hc Hlt)) as Hf.
  cbn [set_subscribers source] in Hf |- *.
  destruct (fetch_catch_up _ _ _ s (source p)) as [[outcome s'] src]. destruct Hf as (Hs' & Hid' & Hsrc).
  assert (pump_ok (set_subscribers (set_source (set_subscribers p l') src)
    (set_subs l' (<[i := s']> (subs l'))))) as Hp''.
  { apply (set_subs_ok (set_source (set_subscribers p l') src)); [by apply set_source_ok|].
    cbn. rewrite Ee. intros x Hx. apply list_elem_of_lookup in Hx as [j Hj].
    apply list_lookup_insert_Some in Hj as [(<- & <- & _)|[_ Hj]].
    - rewrite Hid'. eauto.
    - apply Hl'. by eapply list_elem_of_lookup_2. }
  destruct outcome; [done|]. by apply fail_ok.
Qed.

Lemma iterate_ok p t : pump_ok p → tick_ok t → flow_ok (iterate topic partition config p t).
Proof.
  intros Hp [Hpend Hwake]. unfold iterate. apply and_then_ok.
  { apply await_ok; [by apply drop_dead_ok|]. intros cmd E. by rewrite E in Hwake. }
  intros q Hq. apply and_then_ok; [by apply drain_ok|].
  intros r Hr. apply and_then_ok; [by apply establish_ok|].
  intros u Hu. apply and_then_ok; [by apply live_fetch_ok|]. apply catch_up_ok.
Qed.

Lemma run_pump_ok ticks : ∀ p,
  pump_ok p → Forall tick_ok ticks → pump_ok (run_pump topic partition config p ticks).
Proof.
  induction ticks as [|t rest IH]; intros p Hp Hall; [done|].
  apply Forall_cons in Hall as [Ht Hall]. cbn [run_pump].
  pose proof (iterate_ok p t Hp Ht) as Hf. destruct (iterate _ _ _ p t); [by apply IH..|done].
Qed.

Lemma spawn_ok s : ok s → pump_ok (spawn config s).
Proof.
  intros Hs. constructor; try done; cbn.
  - by intros x ?%not_elem_of_nil.
  - by intros x ?%not_elem_of_nil.
Qed.

Lemma pump_ok_streams p s :
  pump_ok p → s ∈ subs (subscribers p) ++ ended p →
  0 ≤ id s ∧ ∃ g, granted p !! Z.to_nat (id s) = Some g ∧ streams (live_from p) g s.
Proof.
  intros Hp. apply each_granted_app; [|by apply ended_ok].
  eapply each_granted_impl; [|by apply subs_ok]. intros g x. apply sub_ok_streams.
Qed.

(** C2: Whatever the readers, the source's errors and the other writers of its
    log do, what a subscriber has been sent is exactly what its filter selects
    of a stretch of the log that starts where it asked to: in order, with no
    gap and no repeat. *)
Theorem streams_are_stretches_of_the_log (s0 : S) (ticks : list Tick) (s : SubState) :
  ok s0 → Forall tick_ok ticks →
  let p := run_pump topic partition config (spawn config s0) ticks in
  s ∈ subs (subscribers p) ++ ended p →
  ∃ g, granted p !! Z.to_nat (id s) = Some g ∧
    match begins g (live_from p) with
    | Unknown => Channel.received (sender s) ++ Channel.queue (sender s) = []
    | At start => ∃ hi, pos_le start hi ∧
        Channel.received (sender s) ++ Channel.queue (sender s) =
          select (filter s) (segment log start hi)
    end.
Proof.
  intros H0 Hticks p Hs. assert (pump_ok p) as Hp by by apply run_pump_ok; [apply spawn_ok|].
  destruct (pump_ok_streams p s Hp Hs) as (_ & g & Hg & Hstr). by exists g.
Qed.

(** A live subscriber has been sent everything up to the live edge. *)
Theorem live_subscribers_are_at_the_edge (s0 : S) (ticks : list Tick) (s : SubState)
    (edge : option Z) :
  ok s0 → Forall tick_ok ticks →
  let p := run_pump topic partition config (spawn config s0) ticks in
  s ∈ subs (subscribers p) → mode s = Live → closed s = false → live_edge p = At edge →
  ∃ start, pos_le start edge ∧ sent s = select (filter s) (segment log start edge).
Proof.
  intros H0 Hticks p Hs Hm Hc He. assert (pump_ok p) as Hp by by apply run_pump_ok; [apply spawn_ok|].
  destruct (subs_ok _ Hp s Hs) as (_ & g & _ & Hok). pose proof (edge_ok _ Hp) as Hedge.
  rewrite He in *. destruct Hedge as (_ & start & Ef & _). rewrite Ef in Hok. unfold sub_ok in Hok.
  destruct (begins_known g start) as [st Eb]. rewrite Eb in Hok.
  destruct Hok as [_ _ (hi & [Hle Hsent] & Hacc)]. exists st. specialize (Hacc Hc).
  unfold accounted in Hacc. rewrite Hm in Hacc. destruct Hacc as [[= <-] _]. done.
Qed.

(** The replay ring is a bounded window of the log that ends at the live
    edge, whatever the positions' spacing. *)
Theorem ring_is_a_window_of_the_log (s0 : S) (ticks : list Tick) (edge : option Z) :
  ok s0 → Forall tick_ok ticks →
  let p := run_pump topic partition config (spawn config s0) ticks in
  live_edge p = At edge →
  Ring.events (ring p) = segment log (Ring.floor (ring p)) edge ∧
  len (Ring.events (ring p)) ≤ ring_capacity config.
Proof.
  intros H0 Hticks p He. assert (pump_ok p) as Hp by by apply run_pump_ok; [apply spawn_ok|].
  destruct (ring_fits _ Hp) as [Hw Hb]. rewrite He in Hw. destruct Hw as [_ Hw].
  split; [done|]. by rewrite <- (ring_cap _ Hp).
Qed.

End pump.

(** ** Fair catch-up *)

(** How many turns away an id is from the rotor, while no one subscribes. *)
Definition turns_away (rotor next_id i : Z) : Z :=
  if i <? rotor then next_id - rotor + i else i - rotor.

Lemma min_turn_min r l : ∀ n i s x,
  min_turn r n l = Some (i, s) → (true, x) ∈ l →
  turn_ltb (turn_key r x) (turn_key r s) = false.
Proof.
  induction l as [|[b y] l IH]; intros n i s x; [done|]. cbn [min_turn].
  destruct b.
  - destruct (min_turn r (Datatypes.S n) l) as [[j z]|] eqn:Em.
    + destruct (turn_ltb (turn_key r z) (turn_key r y)) eqn:Elt.
      * intros [= <- <-] [[= <-]|Hx]%elem_of_cons; [|by eapply IH].
        unfold turn_ltb in *. apply orb_true_iff in Elt. apply orb_false_iff.
        rewrite andb_false_iff, !Z.ltb_lt, andb_true_iff, Z.ltb_lt, Z.eqb_eq in *.
        rewrite !Z.ltb_ge, Z.eqb_neq. lia.
      * intros [= <- <-] [[= <-]|Hx]%elem_of_cons.
        -- unfold turn_ltb. rewrite !Z.ltb_irrefl. by destruct (_ =? _).
        -- pose proof (IH _ _ _ _ Em Hx) as Hle. revert Elt Hle. unfold turn_ltb.
           rewrite !orb_false_iff, !andb_false_iff, !Z.ltb_ge, !Z.eqb_neq. lia.
    + intros [= <- <-] [[= <-]|Hx]%elem_of_cons.
      * unfold turn_ltb. rewrite !Z.ltb_irrefl. by destruct (_ =? _).
      * exfalso. clear -Em Hx. revert n Em. induction l as [|[[] z] l IH]; intros n Em.
        -- by apply not_elem_of_nil in Hx.
        -- cbn in Em. destruct (min_turn r _ l) as [[]|]; [destruct (turn_ltb _ _)|]; done.
        -- cbn in Em. apply elem_of_cons in Hx as [?|Hx]; [done|]. by eapply IH.
  - intros Hm [?|Hx]%elem_of_cons; [done|]. by eapply IH.
Qed.

(** Catch-up takes turns: a laggard that is passed over is strictly nearer
    its turn afterwards, so with nobody new subscribing it waits at most as
    many turns as there are ids. *)
Theorem catch_up_takes_turns (l l' : Subscribers) (ring_floor edge : option Z) (i : nat)
    (served waiting : SubState) :
  0 ≤ rotor l ≤ next_id l → (∀ s, s ∈ subs l → 0 ≤ id s < next_id l) →
  next_fetch l ring_floor edge = (Some i, l') → subs l' !! i = Some served →
  waiting ∈ subs l → (needs_fetch waiting ring_floor edge).1 = true → id waiting ≠ id served →
  next_id l' = next_id l ∧
  0 ≤ turns_away (rotor l') (next_id l') (id waiting)
    < turns_away (rotor l) (next_id l) (id waiting).
Proof.
  intros Hrotor Hids Hnext Hi Hw Hneeds Hne. unfold next_fetch in Hnext.
  destruct (min_turn _ _ _) as [[j s]|] eqn:Em; [|done]. injection Hnext as <- <-.
  cbn [subs rotor next_id] in *.
  pose proof (min_turn_lookup _ _ _ _ _ Em) as [_ Hj]. rewrite Nat.sub_0_r in Hj.
  rewrite list_lookup_fmap, Hj in Hi. injection Hi as ->.
  apply list_elem_of_lookup_2, list_elem_of_fmap in Hj as (x & Ex & Hx).
  destruct (needs_fetch_observed x ring_floor edge) as (c & _ & Ec). rewrite <- Ex in Ec.
  cbn [snd] in Ec. pose proof (Hids x Hx) as Hs. assert (id served = id x) as Eid by by rewrite Ec.
  destruct (needs_fetch waiting ring_floor edge) as [b w] eqn:Ew. cbn [fst] in Hneeds. subst b.
  destruct (needs_fetch_observed waiting ring_floor edge) as (cw & _ & Ecw). rewrite Ew in Ecw.
  cbn [snd] in Ecw. assert (id w = id waiting) as Eidw by by rewrite Ecw.
  assert (turn_ltb (turn_key (rotor l) w) (turn_key (rotor l) served) = false) as Hmin.
  { eapply min_turn_min; [done|]. rewrite <- Ew. apply list_elem_of_fmap. by exists waiting. }
  specialize (Hids waiting Hw). unfold turn_ltb, turn_key, turns_away in *. cbn [fst snd] in Hmin.
  rewrite Eidw, Eid in *. split; [done|].
  destruct (Z.ltb_spec (id waiting) (rotor l)), (Z.ltb_spec (id x) (rotor l)),
    (Z.ltb_spec (id waiting) (id x)), (Z.ltb_spec (id waiting) (id x + 1));
    cbn in Hmin; (done || lia).
Qed.

(** ** Errors *)

Section errors.
Context {S : Type} `{RecordSource S} (topic : string) (partition : Z) (config : PumpConfig).

Lemma fail_returns p e :
  ∃ p', fail (S := S) p e = Return p' ∧ subs (subscribers p') = [] ∧
    ended p' = ended p ++ fail_subs (subs (subscribers p)) e.
Proof. by eexists. Qed.

Lemma fail_subs_told l e s :
  s ∈ l → closed s = false →
  ∃ s', s' ∈ fail_subs l e ∧ id s' = id s ∧ sent s' = sent s ∧
    Channel.last_words (sender s') = Some (stream_error e).
Proof.
  intros Hs Hc. exists (with_sender s (Channel.say (sender s) (stream_error e))).
  split; [|done]. apply list_elem_of_fmap. exists s. by rewrite Hc.
Qed.

(** A permanent error of the live fetch, or one transient error more than
    the budget, ends the pump, and every open stream ends with that error
    after all it had been sent. *)
Theorem fatal_fetch_tells_everyone (p : @Pump S) (edge : option Z) (e : SourceError) :
  live_edge p = At edge → (fetch topic partition edge (source p)).1 = Err e →
  is_permanent e = true ∨ max_consecutive_errors config ≤ consecutive_errors p →
  ∃ p', live_fetch topic partition config p = Return p' ∧ subs (subscribers p') = [] ∧
    ∀ s, s ∈ subs (subscribers p) → closed s = false →
      ∃ s', s' ∈ ended p' ∧ id s' = id s ∧ sent s' = sent s ∧
        Channel.last_words (sender s') = Some (stream_error e).
Proof.
  intros He Hf Hfatal. unfold live_fetch. rewrite He.
  destruct (fetch topic partition edge (source p)) as [r src]. cbn [fst] in Hf. subst r.
  unfold charge. set (q := set_errors _ _).
  assert (is_permanent e || (max_consecutive_errors config <? consecutive_errors q) = true) as ->.
  { destruct Hfatal as [->|Hle]; [done|]. apply orb_true_iff. right. apply Z.ltb_lt. cbn. lia. }
  destruct (fail_returns q e) as (p' & Hp' & Hnil & Hended). exists p'. split_and!; [done..|].
  intros s Hs Hc. destruct (fail_subs_told (subs (subscribers q)) e s Hs Hc) as (s' & Hs' & Hrest).
  exists s'. split; [|done]. rewrite Hended. apply elem_of_app. by right.
Qed.

(** ** Budgets *)

Definition sub_in_budget (s : SubState) : Prop :=
  closed s = false → 0 ≤ catch_up_errors s ≤ max_consecutive_errors config.

Definition in_budget (p : @Pump S) : Prop :=
  0 ≤ consecutive_errors p ≤ max_consecutive_errors config ∧
  Forall sub_in_budget (subs (subscribers p)).

Definition flow_in_budget (m : flow) : Prop :=
  match m with Next p | Continue p => in_budget p | Return _ => True end.

(** What serves a subscriber without fetching for it keeps its count, and
    never reopens it. *)
Record keeps_count (s s' : SubState) : Prop := mkKeepsCount {
  same_count : catch_up_errors s' = catch_up_errors s;
  stays_closed : closed s = true → closed s' = true;
}.

#[local] Instance keeps_count_preorder : PreOrder keeps_count.
Proof. split; [done|]. intros a b c [] []. constructor; [congruence|auto]. Qed.

Lemma keeps_count_budget s s' : keeps_count s s' → sub_in_budget s → sub_in_budget s'.
Proof.
  intros [Hn Hc] Hs Hopen. rewrite Hn. apply Hs. destruct (closed s); [|done].
  specialize (Hc eq_refl). congruence.
Qed.

Lemma fmap_in_budget (f : SubState → SubState) l :
  (∀ s, keeps_count s (f s)) → Forall sub_in_budget l → Forall sub_in_budget (f <$> l).
Proof.
  intros Hf Hl. apply Forall_fmap. eapply Forall_impl; [done|]. intros s.
  by apply keeps_count_budget.
Qed.

Lemma push_live_count s e : keeps_count s (push_live s e).
Proof. unfold push_live. by repeat case_match; constructor. Qed.

Lemma push_run_count events : ∀ s, keeps_count s (push_run s events).2.
Proof.
  induction events as [|e rest IH]; intros s; [done|]. cbn [push_run].
  destruct (matches _ _); [|by etrans; [|apply IH]].
  by destruct (Channel.try_send _ _) as [[] c]; [etrans; [|apply IH]|..].
Qed.

Lemma advance_count s r e : keeps_count s (advance_from_ring s r e).
Proof.
  unfold advance_from_ring. destruct (_ || _); [done|]. destruct (pos_leb _ _); [by case_match|].
  destruct (negb _); [done|]. pose proof (push_run_count (ring_after r (cursor s)) s) as Hc.
  destruct (push_run _ _) as [[] s']; cbn [snd] in Hc; (etrans; [exact Hc|by constructor]).
Qed.

Lemma needs_fetch_count s floor edge : keeps_count s (needs_fetch s floor edge).2.
Proof. by destruct (needs_fetch_observed s floor edge) as (c & _ & ->). Qed.

Lemma is_live_count s : keeps_count s (is_live s).2.
Proof. by destruct (is_live_observed s) as (c & _ & ->). Qed.

Lemma drop_dead_budget p : in_budget p → in_budget (drop_dead p).
Proof.
  intros [H1 H2]. split; [done|]. cbn. apply Forall_forall.
  intros s (x & Hx & ->)%fst_filter_fmap. eapply keeps_count_budget; [apply is_live_count|].
  by apply (proj1 (Forall_forall _ _) H2).
Qed.

Lemma and_then_budget m k :
  flow_in_budget m → (∀ p, in_budget p → flow_in_budget (k p)) → flow_in_budget (and_then m k).
Proof. destruct m; cbn; auto. Qed.

Hypothesis Hmax : 0 ≤ max_consecutive_errors config.

Lemma grant_budget p cmd : in_budget p → in_budget (grant config p cmd).
Proof.
  intros [H1 H2]. destruct cmd; [|done]. cbn [grant handle_command].
  destruct (starts position). split; [done|]. cbn. apply Forall_app. split; [done|].
  constructor; [|done]. intros _. cbn. lia.
Qed.

Lemma await_budget p w : in_budget p → flow_in_budget (await_command config p w).
Proof.
  intros Hp. unfold await_command. destruct (subs (subscribers p)); [|done].
  destruct w as [| |[]]; [by destruct (idle_shutdown config)|done|by apply grant_budget|done].
Qed.

Lemma drain_budget pending : ∀ p, in_budget p → flow_in_budget (drain config p pending).
Proof.
  induction pending as [|[] rest IH]; intros p Hp; [done| |done]. cbn [drain].
  by apply IH, grant_budget.
Qed.

Lemma charge_budget p e k :
  in_budget p → (∀ p, in_budget p → flow_in_budget (k p)) → flow_in_budget (charge config p e k).
Proof.
  intros [H1 H2] Hk. unfold charge. cbn [set_errors consecutive_errors].
  destruct (is_permanent e); [done|]. cbn [orb].
  destruct (Z.ltb_spec (max_consecutive_errors config) (consecutive_errors p + 1)); [done|].
  apply Hk. split; [cbn; lia|done].
Qed.

Lemma establish_budget p : in_budget p → flow_in_budget (establish topic partition config p).
Proof.
  intros Hp. unfold establish. destruct (live_edge p); [|done].
  destruct (live_start _ _ _) as [[start|e] s]; [done|]. by apply charge_budget.
Qed.

Lemma deliver_budget events : ∀ l r,
  Forall sub_in_budget l → Forall sub_in_budget (foldl deliver (l, r) events).1.
Proof.
  induction events as [|e rest IH]; intros l r Hl; [done|]. cbn [foldl]. apply IH.
  apply fmap_in_budget; [|done]. intros s. apply push_live_count.
Qed.

Lemma live_fetch_budget p : in_budget p → flow_in_budget (live_fetch topic partition config p).
Proof.
  intros Hp. unfold live_fetch. destruct (live_edge p); [done|].
  destruct (fetch _ _ _ _) as [[b|e] s]; [|by apply charge_budget].
  destruct Hp as [H1 H2]. cbn [set_source subscribers ring].
  pose proof (deliver_budget (events b) _ (ring p) H2) as Hd.
  destruct (foldl deliver _ _) as [l r]. split; [cbn; lia|done].
Qed.

Lemma fetch_catch_up_budget s src :
  sub_in_budget s → sub_in_budget (fetch_catch_up topic partition config s src).1.2.
Proof.
  intros Hs. unfold fetch_catch_up. destruct (mode s); [|done].
  destruct (fetch _ _ _ _) as [[b|e] src'].
  - set (s1 := with_errors s 0). assert (sub_in_budget s1) as H1 by (intros _; cbn; lia).
    pose proof (push_run_count (events_after (events b) (cursor s)) s1) as Hc.
    destruct (push_run _ _) as [[] s']; cbn [fst snd] in *;
      (eapply keeps_count_budget; [|exact H1]; etrans; [exact Hc|by constructor]).
  - destruct (is_permanent e); [done|]. cbn [with_errors catch_up_errors].
    destruct (Z.ltb_spec (max_consecutive_errors config) (catch_up_errors s + 1)); [done|].
    intros Hc. cbn in *. specialize (Hs Hc). lia.
Qed.

Lemma catch_up_budget p : in_budget p → flow_in_budget (catch_up topic partition config p).
Proof.
  intros [H1 H2]. unfold catch_up. destruct (live_edge p) as [|edge]; [done|].
  set (l := set_subs _ _).
  assert (Forall sub_in_budget (subs l)) as Hl
    by (apply fmap_in_budget; [intros s; apply advance_count|done]).
  assert (Forall sub_in_budget (subs (next_fetch l (Ring.floor (ring p)) edge).2)) as Hl'.
  { unfold next_fetch. assert (Forall sub_in_budget
      (snd <$> ((λ s, needs_fetch s (Ring.floor (ring p)) edge) <$> subs l))) as Hn
      by (rewrite <- list_fmap_compose; apply fmap_in_budget;
          [intros s; apply needs_fetch_count|done]).
    by destruct (min_turn _ _ _) as [[]|]. }
  destruct (next_fetch l _ edge) as [turn l']. cbn [snd] in Hl'.
  destruct turn as [i|]; cbn [mbind option_bind]; [|by split].
  destruct (subs l' !! i) as [s|] eqn:Ei; cbn [fmap option_fmap option_map]; [|by split].
  pose proof (fetch_catch_up_budget s (source (set_subscribers p l'))) as Hs.
  specialize (Hs (Forall_lookup_1 _ _ _ _ Hl' Ei)).
  destruct (fetch_catch_up _ _ _ _ _) as [[outcome s'] src]. destruct outcome; [|done].
  split; [done|]. by apply Forall_insert.
Qed.

Lemma iterate_budget p t : in_budget p → flow_in_budget (iterate topic partition config p t).
Proof.
  intros Hp. unfold iterate. apply and_then_budget; [by apply await_budget, drop_dead_budget|].
  intros q Hq. apply and_then_budget; [by apply drain_budget|].
  intros r Hr. apply and_then_budget; [by apply establish_budget|].
  intros u Hu. apply and_then_budget; [by apply live_fetch_budget|]. apply catch_up_budget.
Qed.

(** An iteration that goes on leaves every count of consecutive errors
    within the configured budget, the pump's and each open subscriber's. *)
Theorem error_budgets_hold (p p' : @Pump S) (t : Tick) :
  in_budget p → iterate topic partition config p t = Continue p' →
  0 ≤ consecutive_errors p' ≤ max_consecutive_errors config ∧
  ∀ s, s ∈ subs (subscribers p') → closed s = false →
    0 ≤ catch_up_errors s ≤ max_consecutive_errors config.
Proof.
  intros Hp Hi. pose proof (iterate_budget p t Hp) as Hf. rewrite Hi in Hf.
  destruct Hf as [H1 H2]. split; [done|]. intros s Hs. by apply (proj1 (Forall_forall _ _) H2).
Qed.

End errors.

(** ** Samples *)

(** A ring of one event and queues of two. *)
Definition sample_config : PumpConfig := mkPumpConfig 1 2 10 500 20 (Some 30000).

(** Two records, and a third that arrives once the pump knows where live is. *)
Definition tailing_source : MemorySource :=
  mkMemorySource (append_all new_log [sample_append 1; sample_append 2]) [[]; [sample_append 3]].

Lemma tailing_source_reads : reads_partition "t" 0 sample_full tailing_source.
Proof.
  split; [by eexists|]. exists sample_full.
  split_and!; [done|apply sample_full_dense|cbn; int_lia|done].
Qed.

Definition idle : Tick := mkTick TimedOut [].

(** One subscriber from the start that reads between looks, and one from
    after offset 0 that never reads. *)
Definition sample_ticks : list Tick :=
  [mkTick (Woken (Subscribe Earliest no_filter (replicate 12 [Channel.Takes])))
     [Subscribe (After 0) no_filter []]; idle; idle; idle].

Definition sample_run : @Pump MemorySource :=
  run_pump "t" 0 sample_config (spawn sample_config tailing_source) sample_ticks.

Lemma sample_contract : keeps_contract "t" 0 sample_full (reads_partition "t" 0 sample_full).
Proof. apply (memory_contract _ _ 0 _ tailing_source); [done|apply tailing_source_reads]. Qed.

Lemma sample_ticks_ok : Forall tick_ok sample_ticks.
Proof. repeat constructor; done. Qed.

Lemma streams_are_stretches_of_the_log_witness :
  (sent <$> subs (subscribers sample_run)) = [sample_full; drop 1 sample_full] ∧
  ∃ s, s ∈ subs (subscribers sample_run) ++ ended sample_run ∧
    ∃ g, granted sample_run !! Z.to_nat (id s) = Some g.
Proof.
  split; [vm_compute; done|].
  destruct (subs (subscribers sample_run)) as [|s l] eqn:E; [vm_compute in E; done|].
  exists s. split; [by apply elem_of_cons; left|].
  destruct (streams_are_stretches_of_the_log "t" 0 sample_config sample_full
    (reads_partition "t" 0 sample_full) sample_contract ltac:(done) ltac:(done)
    tailing_source sample_ticks s tailing_source_reads sample_ticks_ok) as (g & Hg & _).
  { fold sample_run. rewrite E. by apply elem_of_cons; left. }
  by exists g.
Defined.

Lemma live_subscribers_are_at_the_edge_witness :
  ∃ s, s ∈ subs (subscribers sample_run) ∧ sent s = sample_full ∧
    ∃ start, pos_le start (Some 2) ∧ sent s = select (filter s) (segment sample_full start (Some 2)).
Proof.
  destruct (subs (subscribers sample_run)) as [|s l] eqn:E; [vm_compute in E; done|].
  assert (subs (subscribers sample_run) !! 0%nat = Some s) as Hs by by rewrite E.
  exists s. split; [by apply elem_of_cons; left|].
  assert (mode s = Live ∧ closed s = false ∧ sent s = sample_full) as (Hm & Hc & Hsent)
    by (vm_compute in Hs; injection Hs as <-; split_and!; vm_compute; done).
  split; [done|].
  apply (live_subscribers_are_at_the_edge "t" 0 sample_config sample_full
    (reads_partition "t" 0 sample_full) sample_contract ltac:(done) ltac:(done)
    tailing_source sample_ticks s (Some 2) tailing_source_reads sample_ticks_ok);
    [|done..|vm_compute; done].
  apply (list_elem_of_lookup_2 _ 0). exact Hs.
Defined.

Lemma ring_is_a_window_of_the_log_witness :
  Ring.floor (ring sample_run) = Some 1 ∧
  Ring.events (ring sample_run) = segment sample_full (Ring.floor (ring sample_run)) (Some 2) ∧
  len (Ring.events (ring sample_run)) ≤ 1.
Proof.
  split; [vm_compute; done|].
  apply (ring_is_a_window_of_the_log "t" 0 sample_config sample_full
    (reads_partition "t" 0 sample_full) sample_contract ltac:(done) ltac:(done)
    tailing_source sample_ticks (Some 2) tailing_source_reads sample_ticks_ok).
  vm_compute; done.
Defined.

(** Two laggards behind a ring that starts after offset 5. *)
Definition laggard (i : Z) : SubState :=
  mkSubState i (Channel.new 2 []) no_filter CatchingUp (Some i) false 0.

Definition two_laggards : Subscribers := mkSubscribers [laggard 0; laggard 1] 2 1.

Lemma catch_up_takes_turns_witness :
  (next_fetch two_laggards (Some 5) (Some 9)).1 = Some 1%nat ∧ turns_away 1 2 0 = 1 ∧
  turns_away (rotor (next_fetch two_laggards (Some 5) (Some 9)).2) 2 0 < 1.
Proof.
  split; [done|]. split; [done|].
  destruct (catch_up_takes_turns two_laggards (next_fetch two_laggards (Some 5) (Some 9)).2
    (Some 5) (Some 9) 1 (laggard 1) (laggard 0)) as [_ [_ H]]; [cbn; lia| |done|done| |done|done|exact H].
  - intros s [->|[->|Hs]%elem_of_cons]%elem_of_cons; [cbn; lia..|by apply not_elem_of_nil in Hs].
  - by apply elem_of_cons; left.
Defined.

(** A live pump over a log that has no partition 7. *)
Definition lost_pump : @Pump MemorySource :=
  mkPump tailing_source (Ring.new 1) two_laggards (At None) 0 [] (At None) [].

Lemma fatal_fetch_tells_everyone_witness :
  ∃ p', live_fetch "t" 7 sample_config lost_pump = Return p' ∧ subs (subscribers p') = [] ∧
    ∃ s', s' ∈ ended p' ∧ id s' = 1 ∧
      Channel.last_words (sender s') =
        Some (mkStreamError SourceErrorKind.NotFound "no partition 7").
Proof.
  destruct (fatal_fetch_tells_everyone "t" 7 sample_config lost_pump None
    (not_found "no partition 7")) as (p' & H1 & H2 & H3); [done|vm_compute; done|by left|].
  exists p'. split_and!; [done..|].
  destruct (H3 (laggard 1)) as (s' & Hs' & Hid & _ & Hw); [by right; left|done|].
  by exists s'.
Defined.

Lemma error_budgets_hold_witness :
  ∃ p', iterate "t" 0 sample_config (spawn sample_config tailing_source)
      (mkTick (Woken (Subscribe Latest no_filter [])) []) = Continue p' ∧
    0 ≤ consecutive_errors p' ≤ 20.
Proof.
  destruct (iterate "t" 0 sample_config (spawn sample_config tailing_source)
    (mkTick (Woken (Subscribe Latest no_filter [])) [])) as [p'|p'|p'] eqn:E;
    [vm_compute in E; done| |vm_compute in E; done].
  exists p'. split; [done|].
  apply (error_budgets_hold "t" 0 sample_config ltac:(done) (spawn sample_config tailing_source) p'
    (mkTick (Woken (Subscribe Latest no_filter [])) [])); [|exact E]. split; [cbn; lia|constructor].
Defined.

(** ** What [Latest] can mean

    A pump whose live path is behind its log: a fetch takes one record, the
    log gets two before the first of them, and the only reader leaves. *)
Definition lagging_source : MemorySource :=
  mkMemorySource (with_batch_limit (append_all new_log [sample_append 1]) 1)
    [[]; [sample_append 2; sample_append 3]].

Definition left_alone : @Pump MemorySource :=
  run_pump "t" 0 sample_config (spawn sample_config lagging_source)
    [mkTick (Woken (Subscribe Latest no_filter [[]; [Channel.Drops]])) []].

Definition resubscribed : @Pump MemorySource :=
  run_pump "t" 0 sample_config left_alone [mkTick (Woken (Subscribe Latest no_filter [])) []].

(** A [Latest] subscriber starts at the pump's live edge and not at the
    log's end: it can be sent a record its log held before it subscribed. *)
Theorem latest_can_replay_held_records :
  ∃ held e s,
    partitions (Source.log (source left_alone)) !! 0%nat = Some held ∧ e ∈ held ∧
    granted resubscribed !! 1%nat = Some (Latest, At (Some 1)) ∧
    s ∈ subs (subscribers resubscribed) ∧ id s = 1 ∧ e ∈ sent s.
Proof.
  exists ((λ n, appended (sample_append (n + 1)) n) <$> [0; 1; 2]), (appended (sample_append 3) 2).
  destruct (subs (subscribers resubscribed)) as [|s l] eqn:E; [vm_compute in E; done|].
  exists s. split_and!.
  - vm_compute. done.
  - by right; right; left.
  - vm_compute. done.
  - by apply elem_of_cons; left.
  - vm_compute in E. by injection E as <- _.
  - vm_compute in E. injection E as <- _. by apply elem_of_cons; left.
Qed.
