(* ===== verification/Hub.v ===== *)
(** * The hub ([odradek-web-core/src/hub.rs])

    Pumps on demand, one per partition.  [Hub] and its operations are the
    code's; the tasks they start are the [World]'s: a pump is the number of
    its command channel, and [fates] says which pumps' tasks have returned by
    each next look at one.  A subscribe a pump answers is [asked]; one whose
    task has returned is [PumpClosed].  [Call] is [SharedHub::subscribe] cut
    at its awaits, for any number of callers to interleave. *)
From stdpp Require Import pretty.
From S2P Require Import Prelude Event Source Cursor.

Inductive HubError : Type :=
| SourceFailed (e : SourceError)
| PumpClosed
| ShutDown
| Denied (topic : string)
| AtCapacity.

Module RejectionKind.

Inductive t : Type := BadRequest | Denied | NotFound | ShutDown | AtCapacity | Upstream.

Definition public_message (k : t) : string :=
  match k with
  | BadRequest => "bad request"
  | Denied => "access to this topic is denied"
  | NotFound => "no such topic or partition"
  | ShutDown => "the bridge is shutting down"
  | AtCapacity => "the bridge is at capacity; try again later"
  | Upstream => "upstream error"
  end.

End RejectionKind.

Definition rejection_kind (e : HubError) : RejectionKind.t :=
  match e with
  | Denied _ => RejectionKind.Denied
  | ShutDown => RejectionKind.ShutDown
  | AtCapacity => RejectionKind.AtCapacity
  | SourceFailed source =>
      if bool_decide (kind source = SourceErrorKind.NotFound) then RejectionKind.NotFound
      else RejectionKind.Upstream
  | PumpClosed => RejectionKind.Upstream
  end.

Definition DEFAULT_MAX_PUMPS : Z := 1024.

Inductive Gate : Type :=
| DenyAll
| Any
| Predicate (gate : string → bool).

Abbreviation Key := (string * Z)%type.

Record Hub : Type := mkHub {
  pumps : gmap Key nat;
  topics : gmap string (list Z);
  gate : Gate;
  max_pumps : Z;
  shut_down : bool;
}.

Definition new_hub : Hub := mkHub ∅ ∅ DenyAll DEFAULT_MAX_PUMPS false.
Definition with_topic_gate (h : Hub) (g : string → bool) : Hub :=
  mkHub (pumps h) (topics h) (Predicate g) (max_pumps h) (shut_down h).
Definition allow_all_topics (h : Hub) : Hub :=
  mkHub (pumps h) (topics h) Any (max_pumps h) (shut_down h).
Definition with_max_pumps (h : Hub) (n : Z) : Hub :=
  mkHub (pumps h) (topics h) (gate h) (Z.max n 1) (shut_down h).
Definition set_pumps (h : Hub) (m : gmap Key nat) : Hub :=
  mkHub m (topics h) (gate h) (max_pumps h) (shut_down h).
Definition set_topics (h : Hub) (m : gmap string (list Z)) : Hub :=
  mkHub (pumps h) m (gate h) (max_pumps h) (shut_down h).

(** ** The world of the hub *)

(** The [SourceFactory] trait. *)
Class SourceFactory (F : Type) : Type := {
  create : string → Z → F → result SourceError unit * F;
  partitions_of_topic : string → F → result SourceError (list Z) * F;
}.

#[export] Instance memory_factory : SourceFactory MemoryFactory := {|
  create topic _ f := ((let? _ := Source.create f topic in Ok tt), f);
  partitions_of_topic topic f := (factory_partitions f topic, f);
|}.

Section hub.
Context {F : Type} `{SourceFactory F}.

(** The tasks: which have returned, which were told to, how many there are and
    which partition each was spawned for. *)
Record World : Type := mkWorld {
  factory : F;
  fates : list (list nat);
  dead : gset nat;
  told : gset nat;
  spawned : list Key;
}.

Definition observe (w : World) : World :=
  match fates w with
  | [] => w
  | exits :: rest =>
      mkWorld (factory w) rest (dead w ∪ list_to_set exits) (told w) (spawned w)
  end.

(** [PumpHandle::is_dead]. *)
Definition is_dead (p : nat) (w : World) : bool := bool_decide (p ∈ dead w).

(** [PumpHandle::shutdown]. *)
Definition stop (p : nat) (w : World) : World :=
  mkWorld (factory w) (fates w) (dead w) ({[p]} ∪ told w) (spawned w).

(** [PumpHandle::subscribe]: the pump subscribed at, or [PumpClosed]. *)
Definition ask (p : nat) (w : World) : result HubError nat * World :=
  let w := observe w in (if is_dead p w then Err PumpClosed else Ok p, w).

(** What a call leaves: its result, the hub and the world. *)
Definition outcome (A : Type) : Type := result HubError A * Hub * World.

Definition then_ {A B} (m : outcome A) (k : A → Hub → World → outcome B) : outcome B :=
  match m with
  | (Ok a, h, w) => k a h w
  | (Err e, h, w) => (Err e, h, w)
  end.

(** ** Checks *)

Definition check_topic (h : Hub) (topic : string) : result HubError unit :=
  if shut_down h then Err ShutDown
  else
    match gate h with
    | Any => Ok tt
    | Predicate g => if g topic then Ok tt else Err (Denied topic)
    | DenyAll => Err (Denied topic)
    end.

Definition known_partitions (topic : string) (h : Hub) (w : World) : outcome (list Z) :=
  match check_topic h topic with
  | Err e => (Err e, h, w)
  | Ok _ =>
      match topics h !! topic with
      | Some ps => (Ok ps, h, w)
      | None =>
          let '(r, f) := partitions_of_topic topic (factory w) in
          let w := mkWorld f (fates w) (dead w) (told w) (spawned w) in
          match r with
          | Err e => (Err (SourceFailed e), h, w)
          | Ok ps => (Ok ps, set_topics h (<[topic := ps]> (topics h)), w)
          end
      end
  end.

Definition check_partition (topic : string) (partition : Z) (h : Hub) (w : World) : outcome unit :=
  then_ (known_partitions topic h w) (λ ps h w,
    if existsb (Z.eqb partition) ps then (Ok tt, h, w)
    else
      (Err (SourceFailed (not_found
        ("topic " ++ topic ++ " has no partition " ++ pretty partition)%string)), h, w)).

(** ** The pump map *)

Definition reap_exited_pumps (h : Hub) (w : World) : Z * Hub :=
  let kept := base.filter (λ kp : Key * nat, is_dead kp.2 w = false) (pumps h) in
  (Z.of_nat (size (pumps h)) - Z.of_nat (size kept), set_pumps h kept).

Definition forget_topics (h : Hub) : Hub := set_topics h ∅.

Definition spawn_pump (topic : string) (partition : Z) (h : Hub) (w : World) : outcome nat :=
  let '(r, f) := create topic partition (factory w) in
  match r with
  | Err e => (Err (SourceFailed e), h, mkWorld f (fates w) (dead w) (told w) (spawned w))
  | Ok _ =>
      (Ok (length (spawned w)), h,
       mkWorld f (fates w) (dead w) (told w) (spawned w ++ [(topic, partition)]))
  end.

Definition acquire (topic : string) (partition : Z) (h : Hub) (w : World) : outcome (nat * bool) :=
  match check_topic h topic with
  | Err e => (Err e, h, w)
  | Ok _ =>
      let key := (topic, partition) in
      let w := observe w in
      match pumps h !! key ≫= λ p, if is_dead p w then None else Some p with
      | Some p => (Ok (p, false), h, w)
      | None =>
          then_ (check_partition topic partition h w) (λ _ h w,
          let w := observe w in
          let h := (reap_exited_pumps h w).2 in
          if (max_pumps h <=? Z.of_nat (size (pumps h))) && negb (bool_decide (is_Some (pumps h !! key)))
          then (Err AtCapacity, h, w)
          else
            then_ (spawn_pump topic partition h w) (λ p h w,
              (Ok (p, true), set_pumps h (<[key := p]> (pumps h)), w)))
      end
  end.

Definition respawn (topic : string) (partition : Z) (stale : nat) (h : Hub) (w : World) :
    outcome nat :=
  let key := (topic, partition) in
  match pumps h !! key ≫= λ current, if bool_decide (current = stale) then None else Some current with
  | Some current => (Ok current, h, w)
  | None =>
      match spawn_pump topic partition h w with
      | (Ok p, h, w) => (Ok p, set_pumps h (<[key := p]> (pumps h)), w)
      | (Err e, h, w) => (Err e, set_pumps h (delete key (pumps h)), w)
      end
  end.

Definition forget (topic : string) (partition : Z) (stale : nat) (h : Hub) : Hub :=
  if bool_decide (pumps h !! (topic, partition) = Some stale)
  then set_pumps h (delete (topic, partition) (pumps h))
  else h.

(** ** Subscribing *)

(** [Hub::subscribe]; what it subscribes to is the pump. *)
Definition subscribe (topic : string) (partition : Z) (h : Hub) (w : World) : outcome nat :=
  then_ (acquire topic partition h w) (λ '(p, created) h w,
  match ask p w with
  | (Ok p, w) => (Ok p, h, w)
  | (Err PumpClosed, w) =>
      if created then (Err PumpClosed, forget topic partition p h, stop p w)
      else
        then_ (respawn topic partition p h w) (λ p h w,
        match ask p w with
        | (Ok p, w) => (Ok p, h, w)
        | (Err e, w) => (Err e, forget topic partition p h, w)
        end)
  | (Err e, w) =>
      if created then (Err e, forget topic partition p h, stop p w) else (Err e, h, w)
  end).

Definition running_partitions (topic : string) (ps : list Z) (h : Hub) : list Z :=
  List.filter (λ p, bool_decide (is_Some (pumps h !! (topic, p)))) ps.

Fixpoint release_new (topic : string) (ps before : list Z) (h : Hub) (w : World) : Hub * World :=
  match ps with
  | [] => (h, w)
  | p :: ps =>
      if existsb (Z.eqb p) before then release_new topic ps before h w
      else
        match pumps h !! (topic, p) with
        | Some handle =>
            release_new topic ps before (set_pumps h (delete (topic, p) (pumps h))) (stop handle w)
        | None => release_new topic ps before h w
        end
  end.

(** The loop of [Hub::subscribe_topic]. *)
Fixpoint subscribe_each (topic : string) (ps : list Z) (h : Hub) (w : World) : outcome (list nat) :=
  match ps with
  | [] => (Ok [], h, w)
  | p :: ps =>
      then_ (subscribe topic p h w) (λ s h w,
      then_ (subscribe_each topic ps h w) (λ l h w, (Ok (s :: l), h, w)))
  end.

Definition subscribe_topic (topic : string) (h : Hub) (w : World) : outcome (list Z * list nat) :=
  then_ (known_partitions topic h w) (λ ps h w,
  let before := running_partitions topic ps h in
  match subscribe_each topic ps h w with
  | (Ok l, h, w) => (Ok (ps, l), h, w)
  | (Err e, h, w) => let '(h, w) := release_new topic ps before h w in (Err e, h, w)
  end).

(** The loop of [shutdown] over what [drain] yields. *)
Definition shutdown (h : Hub) (w : World) : Hub * World :=
  (mkHub ∅ ∅ (gate h) (max_pumps h) true,
   foldr (λ kp : Key * nat, stop kp.2) w (map_to_list (pumps h))).

Definition active_partitions (h : Hub) : list Key := (map_to_list (pumps h)).*1.

(** ** The shared front door *)

(** The loop of [SharedHub::subscribe_topic] under its lock. *)
Fixpoint acquire_each (topic : string) (ps : list Z) (h : Hub) (w : World) :
    outcome (list (Z * (nat * bool))) :=
  match ps with
  | [] => (Ok [], h, w)
  | p :: ps =>
      then_ (acquire topic p h w) (λ entry h w,
      then_ (acquire_each topic ps h w) (λ l h w, (Ok ((p, entry) :: l), h, w)))
  end.

Definition acquire_all (topic : string) (ps : list Z) (h : Hub) (w : World) :
    outcome (list (Z * (nat * bool))) :=
  let before := running_partitions topic ps h in
  match acquire_each topic ps h w with
  | (Ok l, h, w) => (Ok l, h, w)
  | (Err e, h, w) => let '(h, w) := release_new topic ps before h w in (Err e, h, w)
  end.

(** A [subscribe] or a [subscribe_topic] between two awaits.  Each partition
    of a topic is asked by a task of its own; [TopicAsking] is one of them,
    with what the caller does about its answer. *)
Inductive Call : Type :=
| Acquiring (topic : string) (partition : Z)
| Asking (topic : string) (partition : Z) (p : nat) (created : bool)
| Respawning (topic : string) (partition : Z) (stale : nat)
| AskingAgain (topic : string) (partition : Z) (p : nat)
| Forgetting (topic : string) (partition : Z) (p : nat) (created : bool) (e : HubError)
| Stopping (p : nat) (e : HubError)
| TopicListing (topic : string)
| TopicAcquiring (topic : string) (ps : list Z)
| TopicAsking (topic : string) (partition : Z) (p : nat) (created : bool)
| Done (r : result HubError nat)
| TopicDone (r : result HubError (list Z)).

(** What a call does up to its next await, with the tasks it starts: whatever
    needs the lock is one step. *)
Definition call_step (c : Call) (h : Hub) (w : World) : Call * list Call * Hub * World :=
  match c with
  | Acquiring topic partition =>
      match acquire topic partition h w with
      | (Ok (p, created), h, w) => (Asking topic partition p created, [], h, w)
      | (Err e, h, w) => (Done (Err e), [], h, w)
      end
  | Asking topic partition p created =>
      match ask p w with
      | (Ok p, w) => (Done (Ok p), [], h, w)
      | (Err e, w) =>
          (if created then Forgetting topic partition p true e
           else match e with PumpClosed => Respawning topic partition p | _ => Done (Err e) end,
           [], h, w)
      end
  | Respawning topic partition stale =>
      match respawn topic partition stale h w with
      | (Ok p, h, w) => (AskingAgain topic partition p, [], h, w)
      | (Err e, h, w) => (Done (Err e), [], h, w)
      end
  | AskingAgain topic partition p =>
      match ask p w with
      | (Ok p, w) => (Done (Ok p), [], h, w)
      | (Err e, w) => (Forgetting topic partition p false e, [], h, w)
      end
  | Forgetting topic partition p created e =>
      (if created then Stopping p e else Done (Err e), [], forget topic partition p h, w)
  | Stopping p e => (Done (Err e), [], h, stop p w)
  | TopicListing topic =>
      match known_partitions topic h w with
      | (Ok ps, h, w) => (TopicAcquiring topic ps, [], h, w)
      | (Err e, h, w) => (TopicDone (Err e), [], h, w)
      end
  | TopicAcquiring topic ps =>
      match acquire_all topic ps h w with
      | (Ok l, h, w) =>
          (TopicDone (Ok ps), (λ '(p, (handle, created)), TopicAsking topic p handle created) <$> l,
           h, w)
      | (Err e, h, w) => (TopicDone (Err e), [], h, w)
      end
  | TopicAsking topic partition p created =>
      match ask p w with
      | (Ok p, w) => (Done (Ok p), [], h, w)
      | (Err e, w) =>
          (if created then Forgetting topic partition p true e
           else match e with PumpClosed => Acquiring topic partition | _ => Done (Err e) end,
           [], h, w)
      end
  | Done _ | TopicDone _ => (c, [], h, w)
  end.

(** A call run with nobody else at the hub. *)
Fixpoint run_call (fuel : nat) (c : Call) (h : Hub) (w : World) : Call * Hub * World :=
  match fuel with
  | O => (c, h, w)
  | S fuel => let '(c, _, h, w) := call_step c h w in run_call fuel c h w
  end.

(** The hub with its callers. *)
Record Shared : Type := mkShared {
  hub : Hub;
  world : World;
  calls : list Call;
}.

Inductive Action : Type :=
| Arrive (c : Call)
| Advance (i : nat)
| Reap
| ForgetTopics
| Shutdown.

Definition act (s : Shared) (a : Action) : Shared :=
  match a with
  | Arrive c => mkShared (hub s) (world s) (calls s ++ [c])
  | Advance i =>
      match calls s !! i with
      | None => s
      | Some c =>
          let '(c, tasks, h, w) := call_step c (hub s) (world s) in
          mkShared h w (<[i := c]> (calls s) ++ tasks)
      end
  | Reap =>
      let w := observe (world s) in mkShared (reap_exited_pumps (hub s) w).2 w (calls s)
  | ForgetTopics => mkShared (forget_topics (hub s)) (world s) (calls s)
  | Shutdown => let '(h, w) := shutdown (hub s) (world s) in mkShared h w (calls s)
  end.

(** What arrives is a call at its start. *)
Definition arrives (a : Action) : Prop :=
  match a with
  | Arrive (Acquiring _ _) | Arrive (TopicListing _) => True
  | Arrive _ => False
  | _ => True
  end.

Definition acts (s : Shared) (l : list Action) : Shared := foldl act s l.

End hub.
