(* ===== verification/HubSafety.v ===== *)
(** * What the hub keeps

    Invariants of the hub's operations, alone and interleaved: every pump that
    runs is the one its partition's entry names, entries exist only for
    partitions that are served, and the ceiling on pumps holds of a hub used
    exclusively. *)
From S2P Require Import Prelude Event Source Cursor Hub.

(** Which topics a gate lets through. *)
Definition allows (g : Gate) (topic : string) : Prop :=
  match g with
  | Any => True
  | Predicate g => g topic = true
  | DenyAll => False
  end.

Lemma check_topic_ok h topic :
  check_topic h topic = Ok tt → allows (gate h) topic ∧ shut_down h = false.
Proof.
  unfold check_topic, allows. destruct (shut_down h); [done|].
  destruct (gate h) as [| |g]; [done..|]. by destruct (g topic).
Qed.

Section hub.
Context {F : Type} `{SourceFactory F}.

(** [is_served] holds of the partitions the source ever lists. *)
Context (is_served : string → Z → Prop).
Hypothesis Hlists : ∀ topic f ps,
  (partitions_of_topic topic f).1 = Ok ps → ∀ p, p ∈ ps → is_served topic p.

Abbreviation World := (@World F).

Record hub_ok (h : Hub) (w : World) : Prop := mkHubOk {
  cache_ok : ∀ topic ps p, topics h !! topic = Some ps → p ∈ ps → is_served topic p;
  spawned_ok : ∀ p key, spawned w !! p = Some key → allows (gate h) key.1 ∧ is_served key.1 key.2;
  entries_ok : ∀ key p, pumps h !! key = Some p → spawned w !! p = Some key;
  no_orphan : ∀ p key, spawned w !! p = Some key →
    p ∈ dead w ∨ p ∈ told w ∨ pumps h !! key = Some p;
}.

(** The world only moves on, and the hub's options stay. *)
Record later (h h' : Hub) (w w' : World) : Prop := mkLater {
  same_gate : gate h' = gate h;
  same_max : max_pumps h' = max_pumps h;
  dead_grows : dead w ⊆ dead w';
  spawned_grows : ∃ more, spawned w' = spawned w ++ more;
}.

Lemma later_refl h w : later h h w w.
Proof. constructor; [done..|]. exists []. by rewrite app_nil_r. Qed.

Lemma later_trans h h' h'' w w' w'' : later h h' w w' → later h' h'' w' w'' → later h h'' w w''.
Proof.
  intros [H1 H2 H3 [m1 H4]] [H5 H6 H7 [m2 H8]]. constructor; [congruence..|set_solver|].
  exists (m1 ++ m2). by rewrite app_assoc, <- H4.
Qed.

Lemma later_spawned h h' w w' p key :
  later h h' w w' → spawned w !! p = Some key → spawned w' !! p = Some key.
Proof. intros [_ _ _ [m ->]] Hp. by apply lookup_app_l_Some. Qed.

Lemma later_hub h h' w : gate h' = gate h → max_pumps h' = max_pumps h → later h h' w w.
Proof. intros. constructor; [done..|]. exists []. by rewrite app_nil_r. Qed.

(** What an operation's outcome keeps, and what its value is known to be. *)
Definition keeps {A} (h : Hub) (w : World) (P : A → Hub → World → Prop) (m : outcome A) : Prop :=
  let '(r, h', w') := m in
  hub_ok h' w' ∧ later h h' w w' ∧ ∀ a, r = Ok a → P a h' w'.

Lemma keeps_then {A B} h w P Q (m : outcome A) (k : A → Hub → World → outcome B) :
  keeps h w P m →
  (∀ a h' w', hub_ok h' w' → later h h' w w' → P a h' w' → keeps h' w' Q (k a h' w')) →
  keeps h w Q (then_ m k).
Proof.
  destruct m as [[[a|e] h'] w']; cbn; intros (Hok & Hl & HP) Hk; [|by split_and!].
  specialize (Hk a h' w' Hok Hl (HP a eq_refl)). destruct (k a h' w') as [[r h''] w''].
  destruct Hk as (H1 & H2 & H3). split_and!; [done| |done]. by eapply later_trans.
Qed.

Lemma observe_keeps h w : hub_ok h w → hub_ok h (observe w) ∧ later h h w (observe w).
Proof.
  intros Hok. unfold observe. destruct (fates w) as [|exits rest]; [by split; [|apply later_refl]|].
  split.
  - destruct Hok as [H1 H2 H3 H4]. constructor; cbn; [done..|].
    intros p key Hp. destruct (H4 p key Hp) as [?|?]; [left; set_solver|by right].
  - constructor; cbn; [done..|set_solver|]. exists []. by rewrite app_nil_r.
Qed.

Lemma stop_keeps p h w : hub_ok h w → hub_ok h (stop p w) ∧ later h h w (stop p w).
Proof.
  intros [H1 H2 H3 H4]. split; [constructor; cbn; [done..|]|].
  - intros q key Hq. destruct (H4 q key Hq) as [?|[?|?]]; [by left|right; left; set_solver|by right; right].
  - constructor; cbn; [done..|]. exists []. by rewrite app_nil_r.
Qed.

Lemma ask_keeps p h w :
  hub_ok h w →
  hub_ok h (ask p w).2 ∧ later h h w (ask p w).2 ∧
  match (ask p w).1 with Ok q => q = p | Err e => e = PumpClosed ∧ p ∈ dead (ask p w).2 end.
Proof.
  intros Hok. unfold ask. destruct (observe_keeps h w Hok) as [H1 H2]. cbn [fst snd].
  split_and!; [done..|]. unfold is_dead. by destruct (bool_decide_reflect (p ∈ dead (observe w))).
Qed.

(** An entry whose pump is dead or told may go. *)
Lemma delete_keeps key h w :
  hub_ok h w → (∀ p, pumps h !! key = Some p → p ∈ dead w ∨ p ∈ told w) →
  hub_ok (set_pumps h (delete key (pumps h))) w.
Proof.
  intros [H1 H2 H3 H4] Hgone. constructor; cbn; [done..| |].
  - intros k p [_ Hp]%lookup_delete_Some. by apply H3.
  - intros p k Hp. destruct (H4 p k Hp) as [?|[?|Hin]]; [by left|by right; left|].
    destruct (decide (k = key)) as [->|Hne].
    + destruct (Hgone p Hin); auto.
    + right; right. by rewrite lookup_delete_ne.
Qed.

Lemma insert_keeps key p h w :
  hub_ok h w → spawned w !! p = Some key →
  (∀ q, pumps h !! key = Some q → q ≠ p → q ∈ dead w ∨ q ∈ told w) →
  hub_ok (set_pumps h (<[key := p]> (pumps h))) w.
Proof.
  intros [H1 H2 H3 H4] Hp Hgone. constructor; cbn; [done..| |].
  - intros k q [[<- <-]|[_ Hq]]%lookup_insert_Some; [done|]. by apply H3.
  - intros q k Hq. destruct (H4 q k Hq) as [?|[?|Hin]]; [by left|by right; left|].
    destruct (decide (k = key)) as [->|Hne].
    + destruct (decide (q = p)) as [->|Hqp]; [right; right; apply lookup_insert_eq|].
      destruct (Hgone q Hin Hqp); auto.
    + right; right. by rewrite lookup_insert_ne.
Qed.

(** ** Operations *)

Lemma known_partitions_keeps topic h w :
  hub_ok h w →
  keeps h w (λ ps h' _, (∀ p, p ∈ ps → is_served topic p) ∧ allows (gate h') topic ∧
    pumps h' = pumps h) (known_partitions topic h w).
Proof.
  intros Hok. unfold known_partitions. destruct (check_topic h topic) as [[]|e] eqn:Ec;
    [|by split_and!; [|apply later_refl|]].
  apply check_topic_ok in Ec as [Hallow _].
  destruct (topics h !! topic) as [ps|] eqn:Et.
  - split_and!; [done|apply later_refl|]. intros a [= <-]. split_and!; [|done..].
    intros p. by apply (cache_ok _ _ Hok topic).
  - pose proof (Hlists topic (factory w)) as Hl.
    destruct (partitions_of_topic topic (factory w)) as [[ps|e] f]; cbn [fst] in Hl.
    + specialize (Hl ps eq_refl). destruct Hok as [H1 H2 H3 H4]. split_and!.
      * constructor; cbn; [|done..]. intros t qs q [[<- <-]|[_ Hq]]%lookup_insert_Some; [apply Hl|].
        by apply H1.
      * constructor; cbn; [done..|]. exists []. by rewrite app_nil_r.
      * by intros a [= <-].
    + destruct Hok as [H1 H2 H3 H4]. split_and!; [by constructor| |done].
      constructor; cbn; [done..|]. exists []. by rewrite app_nil_r.
Qed.

Lemma check_partition_keeps topic partition h w :
  hub_ok h w →
  keeps h w (λ _ h' _, is_served topic partition ∧ allows (gate h') topic ∧ pumps h' = pumps h)
    (check_partition topic partition h w).
Proof.
  intros Hok. unfold check_partition. eapply keeps_then; [by apply known_partitions_keeps|].
  intros ps h' w' Hok' _ (Hps & Hallow & Hsame).
  destruct (existsb (Z.eqb partition) ps) eqn:E; (split_and!; [done|apply later_refl|]); [|done].
  intros a _. split_and!; [|done..]. apply existsb_exists in E as (p & Hp & ->%Z.eqb_eq).
  apply Hps. by apply list_elem_of_In.
Qed.

Lemma reap_keeps h (w : World) :
  hub_ok h w → hub_ok (reap_exited_pumps h w).2 w ∧ later h (reap_exited_pumps h w).2 w w.
Proof.
  intros [H1 H2 H3 H4]. split; [|by apply later_hub]. constructor; cbn; [done..| |].
  - intros key p [Hp _]%map_lookup_filter_Some. by apply H3.
  - intros p key Hp. destruct (H4 p key Hp) as [?|[?|Hin]]; [by left|by right; left|].
    destruct (is_dead p w) eqn:Ed.
    + left. by apply bool_decide_eq_true in Ed.
    + right; right. by apply map_lookup_filter_Some.
Qed.

Lemma reap_absent h (w : World) key :
  (∀ p, pumps h !! key = Some p → p ∈ dead w) → pumps (reap_exited_pumps h w).2 !! key = None.
Proof.
  intros Hd. cbn. apply map_lookup_filter_None. destruct (pumps h !! key) as [p|]; [right|by left].
  intros x [= <-]. cbn. unfold is_dead. rewrite bool_decide_eq_true_2 by by apply Hd. done.
Qed.

Lemma spawn_keeps topic partition h w :
  hub_ok h w → allows (gate h) topic → is_served topic partition →
  let '(r, h', w') := spawn_pump topic partition h w in
  h' = h ∧ later h h w w' ∧ dead w' = dead w ∧ told w' = told w ∧
  match r with
  | Err _ => hub_ok h w'
  | Ok p => spawned w' = spawned w ++ [(topic, partition)] ∧ p = length (spawned w)
  end.
Proof.
  intros Hok Ha Hs. unfold spawn_pump. destruct (create topic partition (factory w)) as [[|e] f].
  - split_and!; try done. constructor; cbn; [done..|]. by eexists.
  - split_and!; try done; [|by destruct Hok; constructor].
    constructor; cbn; [done..|]. exists []. by rewrite app_nil_r.
Qed.

(** A pump just spawned takes its partition's place. *)
Lemma install_keeps topic partition h w w' :
  hub_ok h w → allows (gate h) topic → is_served topic partition → dead w' = dead w →
  told w' = told w → spawned w' = spawned w ++ [(topic, partition)] →
  (∀ q, pumps h !! (topic, partition) = Some q → q ∈ dead w) →
  hub_ok (set_pumps h (<[(topic, partition) := length (spawned w)]> (pumps h))) w'.
Proof.
  intros [H1 H2 H3 H4] Ha Hs Hd Ht Hsp Hgone. constructor; cbn.
  - done.
  - intros p key Hp. rewrite Hsp in Hp. apply lookup_app_Some in Hp as [Hp|[_ Hp]]; [by eapply H2|].
    apply list_lookup_singleton_Some in Hp as [_ <-]. done.
  - rewrite Hsp. intros k q [[<- <-]|[_ Hq]]%lookup_insert_Some.
    + by rewrite lookup_app_r, Nat.sub_diag by lia.
    + apply lookup_app_l_Some. by apply H3.
  - rewrite Hsp, Hd, Ht. intros p key Hp. apply lookup_app_Some in Hp as [Hp|[Hle Hp]].
    + destruct (H4 p key Hp) as [?|[?|Hin]]; [by left|by right; left|].
      destruct (decide (key = (topic, partition))) as [->|Hne]; [left; by apply Hgone|].
      right; right. by rewrite lookup_insert_ne.
    + apply list_lookup_singleton_Some in Hp as [Hp <-]. right; right.
      rewrite lookup_insert_eq. f_equal. lia.
Qed.

Definition spawned_for (topic : string) (partition : Z) (p : nat) (w : World) : Prop :=
  spawned w !! p = Some (topic, partition).

(** The creating branch of [acquire]. *)
Lemma acquire_new_keeps topic partition h w :
  hub_ok h w → (∀ q, pumps h !! (topic, partition) = Some q → q ∈ dead w) →
  keeps h w (λ '(p, _) _ w', spawned_for topic partition p w')
    (then_ (check_partition topic partition h w) (λ _ h w,
     let w := observe w in
     let h := (reap_exited_pumps h w).2 in
     if (max_pumps h <=? Z.of_nat (size (pumps h)))
        && negb (bool_decide (is_Some (pumps h !! (topic, partition))))
     then (Err AtCapacity, h, w)
     else
       then_ (spawn_pump topic partition h w) (λ p h w,
         (Ok (p, true), set_pumps h (<[(topic, partition) := p]> (pumps h)), w)))).
Proof.
  intros Hok Hgone. eapply keeps_then; [by apply check_partition_keeps|].
  intros _ h1 w1 Hok1 Hl1 (Hs & Ha & Hsame). cbv zeta.
  destruct (observe_keeps h1 w1 Hok1) as [Hok2 Hl2]. set (w2 := observe w1) in *.
  destruct (reap_keeps h1 w2 Hok2) as [Hok3 Hl3].
  assert (pumps (reap_exited_pumps h1 w2).2 !! (topic, partition) = None) as Habs.
  { apply reap_absent. intros p Hp. rewrite Hsame in Hp.
    apply (dead_grows _ _ _ _ Hl2), (dead_grows _ _ _ _ Hl1). by apply Hgone. }
  set (h3 := (reap_exited_pumps h1 w2).2) in *.
  pose proof (later_trans _ _ _ _ _ _ Hl2 Hl3) as Hl.
  destruct (_ && _); [by split_and!|].
  pose proof (spawn_keeps topic partition h3 w2 Hok3 Ha Hs) as Hsp.
  destruct (spawn_pump topic partition h3 w2) as [[[p|e] h4] w4];
    destruct Hsp as (-> & Hl4 & Hd & Ht & Hr); cbn [then_ fst snd].
  - destruct Hr as [Hsp ->]. split_and!.
    + apply install_keeps; try done. by rewrite Habs.
    + eapply later_trans; [exact Hl|]. eapply later_trans; [exact Hl4|]. by apply later_hub.
    + intros [p b] [= <- <-]. unfold spawned_for. rewrite Hsp.
      by rewrite lookup_app_r, Nat.sub_diag by lia.
  - split_and!; [done| |done]. by eapply later_trans.
Qed.

Lemma acquire_keeps topic partition h w :
  hub_ok h w →
  keeps h w (λ '(p, _) _ w', spawned_for topic partition p w') (acquire topic partition h w).
Proof.
  intros Hok. unfold acquire. destruct (check_topic h topic) as [[]|e];
    [|by split_and!; [|apply later_refl|]].
  destruct (observe_keeps h w Hok) as [Hok1 Hl1]. set (w1 := observe w) in *.
  assert ((∀ q, pumps h !! (topic, partition) = Some q → q ∈ dead w1) →
    keeps h w (λ '(p, _) _ w', spawned_for topic partition p w')
      (then_ (check_partition topic partition h w1) (λ _ h w,
       let w := observe w in
       let h := (reap_exited_pumps h w).2 in
       if (max_pumps h <=? Z.of_nat (size (pumps h)))
          && negb (bool_decide (is_Some (pumps h !! (topic, partition))))
       then (Err AtCapacity, h, w)
       else
         then_ (spawn_pump topic partition h w) (λ p h w,
           (Ok (p, true), set_pumps h (<[(topic, partition) := p]> (pumps h)), w))))) as Hnew.
  { intros Hgone. pose proof (acquire_new_keeps topic partition h w1 Hok1 Hgone) as Hk.
    destruct (then_ _ _) as [[r h'] w']. destruct Hk as (H1 & H2 & H3).
    split_and!; [done| |done]. by eapply later_trans. }
  destruct (pumps h !! (topic, partition)) as [p|] eqn:Ep; cbn [mbind option_bind].
  - destruct (is_dead p w1) eqn:Ed.
    + apply Hnew. intros q [= <-]. by apply bool_decide_eq_true in Ed.
    + split_and!; [done..|]. intros [q b] [= <- <-]. by apply (entries_ok _ _ Hok1).
  - by apply Hnew.
Qed.

Lemma respawn_keeps topic partition stale h w :
  hub_ok h w → spawned_for topic partition stale w → stale ∈ dead w →
  keeps h w (λ p _ w', spawned_for topic partition p w') (respawn topic partition stale h w).
Proof.
  intros Hok Hsp Hdead. unfold respawn. destruct (spawned_ok _ _ Hok _ _ Hsp) as [Ha Hs].
  cbn [fst snd] in *.
  destruct (pumps h !! (topic, partition) ≫= _) as [p|] eqn:Ep.
  - split_and!; [done|apply later_refl|]. intros a [= <-].
    destruct (pumps h !! (topic, partition)) as [q|] eqn:Eq; [|done]. cbn in Ep.
    destruct (bool_decide (q = stale)); [done|]. injection Ep as <-. by apply (entries_ok _ _ Hok).
  - assert (∀ q, pumps h !! (topic, partition) = Some q → q ∈ dead w) as Hgone.
    { intros q Hq. rewrite Hq in Ep. cbn in Ep.
      destruct (bool_decide_reflect (q = stale)) as [Eq|]; [by rewrite Eq|done]. }
    pose proof (spawn_keeps topic partition h w Hok Ha Hs) as Hspawn.
    destruct (spawn_pump topic partition h w) as [[[p|e] h'] w'];
      destruct Hspawn as (-> & Hl & Hd & Ht & Hr).
    + destruct Hr as [Hr ->]. split_and!.
      * by apply install_keeps.
      * eapply later_trans; [exact Hl|]. by apply later_hub.
      * intros a [= <-]. unfold spawned_for. rewrite Hr.
        by rewrite lookup_app_r, Nat.sub_diag by lia.
    + split_and!; [|eapply later_trans; [exact Hl|by apply later_hub]|done].
      apply delete_keeps; [done|]. rewrite Hd. intros q Hq. left. by apply Hgone.
Qed.

Lemma forget_keeps topic partition p h w :
  hub_ok h w → p ∈ dead w →
  hub_ok (forget topic partition p h) w ∧ later h (forget topic partition p h) w w.
Proof.
  intros Hok Hd. unfold forget. case_bool_decide as E; [|by split; [|apply later_refl]].
  split; [|by apply later_hub]. apply delete_keeps; [done|]. intros q Hq. left. congruence.
Qed.

Lemma release_new_keeps topic ps before : ∀ h w,
  hub_ok h w →
  hub_ok (release_new topic ps before h w).1 (release_new topic ps before h w).2 ∧
  later h (release_new topic ps before h w).1 w (release_new topic ps before h w).2.
Proof.
  induction ps as [|p ps IH]; intros h w Hok; [by split; [|apply later_refl]|].
  cbn [release_new]. destruct (existsb _ _); [by apply IH|].
  destruct (pumps h !! (topic, p)) as [handle|] eqn:Ep; [|by apply IH].
  destruct (stop_keeps handle h w Hok) as [Hok' Hl'].
  destruct (IH (set_pumps h (delete (topic, p) (pumps h))) (stop handle w)) as [H1 H2].
  { apply delete_keeps; [done|]. intros q Hq. right. rewrite Ep in Hq. injection Hq as <-.
    cbn. set_solver. }
  split; [done|]. eapply later_trans; [exact Hl'|]. eapply later_trans; [|exact H2].
  by apply later_hub.
Qed.

Lemma shutdown_keeps h w :
  hub_ok h w → hub_ok (shutdown h w).1 (shutdown h w).2 ∧
    later h (shutdown h w).1 w (shutdown h w).2.
Proof.
  intros [H1 H2 H3 H4]. unfold shutdown. cbn [fst snd].
  assert (∀ l, let w' := foldr (λ kp : Key * nat, stop kp.2) w l in
    dead w' = dead w ∧ spawned w' = spawned w ∧ told w ⊆ told w' ∧
    ∀ kp, kp ∈ l → kp.2 ∈ told w') as Hw.
  { induction l as [|kp l IH]; cbn; [by split_and!; [..|intros ? ?%not_elem_of_nil]|].
    destruct IH as (-> & -> & Hsub & Hin). split_and!; [done..|set_solver|].
    intros x [->|Hx]%elem_of_cons; [set_solver|]. apply elem_of_union_r. by apply Hin. }
  destruct (Hw (map_to_list (pumps h))) as (Hd & Hsp & Ht & Hin). cbv zeta in *.
  set (w' := foldr _ _ _) in *. split.
  - constructor; cbn; [done|by rewrite Hsp|done|]. rewrite Hsp, Hd. intros p key Hp.
    destruct (H4 p key Hp) as [?|[?|Hk]]; [by left|right; left; by apply Ht|right; left].
    apply (Hin (key, p)). by apply elem_of_map_to_list.
  - constructor; cbn; [done..|by rewrite Hd|]. exists []. by rewrite app_nil_r.
Qed.

(** ** Calls *)

(** What a call between two awaits knows. *)
Definition call_ok (c : Call) (w : World) : Prop :=
  match c with
  | Asking topic partition p _ | AskingAgain topic partition p
  | TopicAsking topic partition p _ => spawned_for topic partition p w
  | Respawning topic partition stale => spawned_for topic partition stale w ∧ stale ∈ dead w
  | Forgetting _ _ p _ _ | Stopping p _ => p ∈ dead w
  | _ => True
  end.

Lemma call_ok_later c h h' w w' : later h h' w w' → call_ok c w → call_ok c w'.
Proof.
  intros Hl. pose proof (dead_grows _ _ _ _ Hl) as Hd.
  destruct c; cbn; try done; try (intros ?; by eapply later_spawned).
  - intros [? ?]. split; [by eapply later_spawned|set_solver].
  - set_solver.
  - set_solver.
Qed.

Lemma acquire_each_keeps topic ps : ∀ h w,
  hub_ok h w →
  keeps h w (λ l _ w', ∀ p q b, (p, (q, b)) ∈ l → spawned_for topic p q w')
    (acquire_each topic ps h w).
Proof.
  induction ps as [|p ps IH]; intros h w Hok; cbn [acquire_each].
  - split_and!; [done|apply later_refl|]. intros a [= <-] q r b Hq. by apply not_elem_of_nil in Hq.
  - eapply keeps_then; [by apply acquire_keeps|]. intros [q b] h1 w1 Hok1 Hl1 Hq.
    eapply keeps_then; [by apply IH|]. intros l h2 w2 Hok2 Hl2 Hl.
    split_and!; [done|apply later_refl|]. intros a [= <-] p' q' b' [Heq|Hin]%elem_of_cons.
    + injection Heq as -> -> ->. by eapply later_spawned.
    + by apply (Hl p' q' b').
Qed.

Lemma acquire_all_keeps topic ps h w :
  hub_ok h w →
  keeps h w (λ l _ w', ∀ p q b, (p, (q, b)) ∈ l → spawned_for topic p q w')
    (acquire_all topic ps h w).
Proof.
  intros Hok. unfold acquire_all. pose proof (acquire_each_keeps topic ps h w Hok) as Hk.
  destruct (acquire_each topic ps h w) as [[[l|e] h1] w1]; [done|].
  destruct Hk as (Hok1 & Hl1 & _).
  destruct (release_new_keeps topic ps (running_partitions topic ps h) h1 w1 Hok1) as [H1 H2].
  destruct (release_new _ _ _ _ _) as [h2 w2]. split_and!; [done| |done]. by eapply later_trans.
Qed.

(** One step of a call keeps the hub, and what every call knows. *)
Lemma call_step_keeps c h w :
  hub_ok h w → call_ok c w →
  let '(c', tasks, h', w') := call_step c h w in
  hub_ok h' w' ∧ later h h' w w' ∧ call_ok c' w' ∧ ∀ t, t ∈ tasks → call_ok t w'.
Proof.
  intros Hok Hc.
  assert (∀ t w, t ∈ [] → call_ok t w) as Hnil by (intros t w' Ht; by apply not_elem_of_nil in Ht).
  assert (∀ p h', hub_ok h' w → let '(r, w') := ask p w in
    hub_ok h' w' ∧ later h' h' w w' ∧
    match r with Ok q => q = p | Err e => e = PumpClosed ∧ p ∈ dead w' end) as Hask.
  { intros p h' Hok'. pose proof (ask_keeps p h' w Hok') as Ha. by destruct (ask p w). }
  destruct c as [t p|t p q b|t p q|t p q|t p q b e|q e|t|t ps|t p q b|r|r]; cbn [call_step].
  - pose proof (acquire_keeps t p h w Hok) as Hk.
    destruct (acquire t p h w) as [[[[q b]|e] h'] w']; destruct Hk as (H1 & H2 & H3);
      (split_and!; [done..| |by intros; eapply Hnil]); [by apply (H3 (q, b))|done].
  - specialize (Hask q h Hok). destruct (ask q w) as [[a|e] w']; destruct Hask as (H1 & H2 & H3);
      (split_and!; [done..| |by intros; eapply Hnil]); [done|].
    destruct H3 as [-> Hd]. destruct b; [done|]. cbn in *. split; [|done]. by eapply later_spawned.
  - destruct Hc as [Hsp Hd]. pose proof (respawn_keeps t p q h w Hok Hsp Hd) as Hk.
    destruct (respawn t p q h w) as [[[a|e] h'] w']; destruct Hk as (H1 & H2 & H3);
      (split_and!; [done..| |by intros; eapply Hnil]); [by apply (H3 a)|done].
  - specialize (Hask q h Hok). destruct (ask q w) as [[a|e] w']; destruct Hask as (H1 & H2 & H3);
      (split_and!; [done..| |by intros; eapply Hnil]); [done|]. by destruct H3.
  - destruct (forget_keeps t p q h w Hok Hc) as [H1 H2].
    split_and!; [done..|by destruct b|by intros; eapply Hnil].
  - destruct (stop_keeps q h w Hok) as [H1 H2]. by split_and!; [..|intros; eapply Hnil].
  - pose proof (known_partitions_keeps t h w Hok) as Hk.
    destruct (known_partitions t h w) as [[[ps|e] h'] w']; destruct Hk as (H1 & H2 & _);
      by split_and!; [..|intros; eapply Hnil].
  - pose proof (acquire_all_keeps t ps h w Hok) as Hk.
    destruct (acquire_all t ps h w) as [[[l|e] h'] w']; destruct Hk as (H1 & H2 & H3);
      [|by split_and!; [..|intros; eapply Hnil]].
    split_and!; [done..|]. intros x ([p [q b]] & -> & Hx)%list_elem_of_fmap. cbn.
    by apply (H3 l eq_refl p q b).
  - specialize (Hask q h Hok). destruct (ask q w) as [[a|e] w']; destruct Hask as (H1 & H2 & H3);
      (split_and!; [done..| |by intros; eapply Hnil]); [done|]. destruct H3 as [-> Hd]. by destruct b.
  - split_and!; [done|apply later_refl|done|by intros; eapply Hnil].
  - split_and!; [done|apply later_refl|done|by intros; eapply Hnil].
Qed.

Definition shared_ok (s : Shared) : Prop :=
  hub_ok (hub s) (world s) ∧ ∀ c, c ∈ calls s → call_ok c (world s).

Lemma act_keeps s a : shared_ok s → arrives a → shared_ok (act s a) ∧
  later (hub s) (hub (act s a)) (world s) (world (act s a)).
Proof.
  intros [Hok Hcalls] Ha.
  assert (∀ h w, hub_ok h w → later (hub s) h (world s) w →
    shared_ok (mkShared h w (calls s)) ∧ later (hub s) h (world s) w) as Hsame.
  { intros h w H1 H2. split; [|done]. split; [done|]. intros c Hc. eapply call_ok_later; [done|].
    by apply Hcalls. }
  destruct a as [c|i| | |]; cbn [act].
  - split; [|apply later_refl]. split; [done|]. cbn. intros x [Hx|Hx]%elem_of_app; [by apply Hcalls|].
    apply list_elem_of_singleton in Hx as ->. by destruct c.
  - destruct (calls s !! i) as [c|] eqn:Ei; [|by split; [|apply later_refl]].
    pose proof (call_step_keeps c (hub s) (world s) Hok (Hcalls c (list_elem_of_lookup_2 _ _ _ Ei))) as Hk.
    destruct (call_step c (hub s) (world s)) as [[[c' tasks] h'] w'].
    destruct Hk as (H1 & H2 & H3 & H4). split; [|done]. split; [done|]. cbn.
    intros x [Hx|Hx]%elem_of_app; [|by apply H4]. apply list_elem_of_lookup in Hx as [j Hx].
    apply list_lookup_insert_Some in Hx as [(_ & <- & _)|[_ Hx]]; [done|].
    eapply call_ok_later; [done|]. apply Hcalls. by eapply list_elem_of_lookup_2.
  - destruct (observe_keeps (hub s) (world s) Hok) as [H1 H2].
    destruct (reap_keeps (hub s) (observe (world s)) H1) as [H3 H4].
    apply Hsame; [done|]. by eapply later_trans.
  - apply Hsame; [|by apply later_hub]. destruct Hok as [H1 H2 H3 H4]. constructor; cbn; [|done..].
    intros t ps p. by rewrite lookup_empty.
  - pose proof (shutdown_keeps (hub s) (world s) Hok) as [H1 H2]. by apply Hsame.
Qed.

Lemma acts_keep l : ∀ s, shared_ok s → Forall arrives l → shared_ok (acts s l) ∧
  later (hub s) (hub (acts s l)) (world s) (world (acts s l)).
Proof.
  induction l as [|a l IH]; intros s Hs Hl; [by split; [|apply later_refl]|].
  apply Forall_cons in Hl as [Ha Hl]. destruct (act_keeps s a Hs Ha) as [H1 H2].
  destruct (IH (act s a) H1 Hl) as [H3 H4]. split; [done|]. by eapply later_trans.
Qed.

(** A hub before its first subscribe. *)
Definition fresh (h : Hub) (w : World) : Prop :=
  pumps h = ∅ ∧ topics h = ∅ ∧ spawned w = [].

Lemma fresh_ok h w : fresh h w → hub_ok h w.
Proof.
  intros (Hp & Ht & Hs). constructor; rewrite ?Hp, ?Ht, ?Hs; try done; intros *;
    by rewrite ?lookup_empty, ?lookup_nil.
Qed.

(** C9: However subscribes, topic subscribes, reaping and shutdown interleave,
    and whenever pumps exit: every pump ever started was for a partition the source
    lists, of a topic the gate allows; one that still runs and was not told to stop
    is the one its partition's entry names, so no partition has two; and what an
    entry names is a pump started for that partition, so no pump is held under two. *)
Theorem running_pumps_are_the_hubs (h : Hub) (w : World) (l : list Action) :
  fresh h w → Forall arrives l →
  let s := acts (mkShared h w []) l in
  (∀ p topic partition, spawned (world s) !! p = Some (topic, partition) →
     allows (gate h) topic ∧ is_served topic partition ∧
     (p ∉ dead (world s) → p ∉ told (world s) → pumps (hub s) !! (topic, partition) = Some p)) ∧
  (∀ key p, pumps (hub s) !! key = Some p → spawned (world s) !! p = Some key) ∧
  (∀ key key' p, pumps (hub s) !! key = Some p → pumps (hub s) !! key' = Some p → key = key').
Proof.
  intros Hf Hl s. destruct (acts_keep l (mkShared h w [])) as [[Hok _] Hlater]; [|done|].
  { split; [by apply fresh_ok|]. intros c Hc. by apply not_elem_of_nil in Hc. }
  pose proof (same_gate _ _ _ _ Hlater) as Hg. cbn [hub] in Hg.
  pose proof (entries_ok _ _ Hok) as He. fold s in He, Hok. split_and!.
  - intros p topic partition Hp. destruct (spawned_ok _ _ Hok _ _ Hp) as [Ha Hs]. cbn [fst snd] in *.
    fold s in Hg. rewrite Hg in Ha. split_and!; [done..|]. intros Hd Ht.
    by destruct (no_orphan _ _ Hok _ _ Hp) as [?|[?|?]].
  - exact He.
  - intros key key' p H1%He H2%He. congruence.
Qed.

End hub.

(** ** The ceiling *)

Section ceiling.
Context {F : Type} `{SourceFactory F}.

Definition within (h : Hub) : Prop := Z.of_nat (size (pumps h)) ≤ max_pumps h.

(** No more pumps than the ceiling, and the ceiling stays. *)
Definition bounded (h h' : Hub) : Prop := max_pumps h' = max_pumps h ∧ (within h → within h').

Lemma bounded_refl h : bounded h h.
Proof. done. Qed.
Lemma bounded_trans h h' h'' : bounded h h' → bounded h' h'' → bounded h h''.
Proof. intros [H1 H2] [H3 H4]. split; [congruence|auto]. Qed.

Lemma size_delete_le (m : gmap Key nat) k : (size (delete k m) ≤ size m)%nat.
Proof. apply map_subseteq_size, delete_subseteq. Qed.

Lemma bounded_delete h k : bounded h (set_pumps h (delete k (pumps h))).
Proof.
  split; [done|]. unfold within. cbn. pose proof (size_delete_le (pumps h) k). lia.
Qed.

Lemma bounded_forget t p q h : bounded h (forget t p q h).
Proof. unfold forget. case_bool_decide; [apply bounded_delete|apply bounded_refl]. Qed.

Lemma known_partitions_same t h (w : @World F) :
  pumps (known_partitions t h w).1.2 = pumps h ∧ max_pumps (known_partitions t h w).1.2 = max_pumps h.
Proof.
  unfold known_partitions. destruct (check_topic h t); [|done]. destruct (topics h !! t); [done|].
  by destruct (partitions_of_topic t (factory w)) as [[ps|e] f].
Qed.

Lemma check_partition_same t p h (w : @World F) :
  pumps (check_partition t p h w).1.2 = pumps h ∧ max_pumps (check_partition t p h w).1.2 = max_pumps h.
Proof.
  unfold check_partition. pose proof (known_partitions_same t h w) as Hk.
  destruct (known_partitions t h w) as [[[ps|e] h'] w']; cbn in *; [|done].
  by destruct (existsb _ _).
Qed.

Lemma spawn_same t p h (w : @World F) : (spawn_pump t p h w).1.2 = h.
Proof. unfold spawn_pump. by destruct (create t p (factory w)) as [[|] f]. Qed.

Lemma acquire_bounded t p h (w : @World F) :
  let '(r, h', _) := acquire t p h w in
  bounded h h' ∧ (∀ q, r = Ok (q, false) → pumps h' !! (t, p) = Some q).
Proof.
  unfold acquire. destruct (check_topic h t); [|done].
  destruct (pumps h !! (t, p) ≫= _) as [q|] eqn:Eq.
  { split; [done|]. intros q' [= <-]. destruct (pumps h !! (t, p)) as [x|]; [|done]. cbn in Eq.
    destruct (is_dead x _); [done|]. by injection Eq as <-. }
  pose proof (check_partition_same t p h (observe w)) as [Hp Hm].
  destruct (check_partition t p h (observe w)) as [[[[]|e] h1] w1]; cbn [then_ fst snd] in *;
    [|split; [|done]; split; [done|]; unfold within; by rewrite Hp, Hm].
  set (h2 := (reap_exited_pumps h1 (observe w1)).2).
  assert (bounded h h2) as Hb.
  { split; [done|]. unfold within. cbn [h2 reap_exited_pumps snd set_pumps pumps max_pumps].
    rewrite Hm, <- Hp. intros Hw. etrans; [apply Nat2Z.inj_le, map_size_filter|done]. }
  clearbody h2. destruct (_ && _) eqn:Ec; [done|].
  pose proof (spawn_same t p h2 (observe w1)) as Hs.
  destruct (spawn_pump t p h2 (observe w1)) as [[[q|e] h3] w3]; cbn in Hs; subst h3; cbn [then_]; [|done].
  split; [|done]. split; [by destruct Hb|]. intros Hw. unfold within. cbn [set_pumps pumps max_pumps].
  destruct Hb as [_ Hb]. specialize (Hb Hw). unfold within in Hb.
  rewrite map_size_insert. destruct (pumps h2 !! (t, p)) eqn:Ek; [exact Hb|].
  rewrite bool_decide_eq_false_2 in Ec by by intros [? ?]. rewrite andb_true_r, Z.leb_gt in Ec. lia.
Qed.

(** Respawning into a slot that is held costs none. *)
Lemma respawn_bounded t p q h (w : @World F) :
  is_Some (pumps h !! (t, p)) → bounded h (respawn t p q h w).1.2.
Proof.
  intros [x Hx]. unfold respawn. destruct (pumps h !! (t, p) ≫= _); [done|].
  pose proof (spawn_same t p h w) as Hs.
  destruct (spawn_pump t p h w) as [[[y|e] h'] w']; cbn in *; subst h'; [|apply bounded_delete].
  split; [done|]. unfold within. cbn. by rewrite map_size_insert, Hx.
Qed.

Lemma subscribe_bounded t p h (w : @World F) : bounded h (subscribe t p h w).1.2.
Proof.
  unfold subscribe. pose proof (acquire_bounded t p h w) as Ha.
  destruct (acquire t p h w) as [[[[q b]|e] h1] w1]; destruct Ha as [Hb Hq]; cbn [then_]; [|done].
  destruct (ask q w1) as [[x|e] w2]; [done|].
  assert (bounded h (forget t p q h1)) as Hf by (eapply bounded_trans; [done|apply bounded_forget]).
  destruct b; [by destruct e|]. destruct e; try done.
  pose proof (respawn_bounded t p q h1 w2 (mk_is_Some _ _ (Hq q eq_refl))) as Hr.
  destruct (respawn t p q h1 w2) as [[[y|e] h3] w3]; cbn [then_ fst snd] in *;
    pose proof (bounded_trans _ _ _ Hb Hr) as Hbr; [|done].
  destruct (ask y w3) as [[z|e] w4]; [done|]. eapply bounded_trans; [done|apply bounded_forget].
Qed.

Lemma subscribe_each_bounded t ps : ∀ h (w : @World F), bounded h (subscribe_each t ps h w).1.2.
Proof.
  induction ps as [|p ps IH]; intros h w; [done|]. cbn [subscribe_each].
  pose proof (subscribe_bounded t p h w) as Hs.
  destruct (subscribe t p h w) as [[[s|e] h1] w1]; cbn [then_ fst snd] in *; [|done].
  pose proof (bounded_trans _ _ _ Hs (IH h1 w1)) as Hb.
  by destruct (subscribe_each t ps h1 w1) as [[[l|e] h2] w2].
Qed.

Lemma release_new_bounded t ps before : ∀ h (w : @World F), bounded h (release_new t ps before h w).1.
Proof.
  induction ps as [|p ps IH]; intros h w; [done|]. cbn [release_new].
  destruct (existsb _ _); [apply IH|]. destruct (pumps h !! (t, p)); [|apply IH].
  eapply bounded_trans; [apply bounded_delete|apply IH].
Qed.

(** Used exclusively, a hub never holds more pumps than its ceiling,
    whichever subscribes fail and whenever pumps exit. *)
Theorem exclusive_hub_within_max_pumps (topic : string) (partition : Z) (h : Hub) (w : @World F) :
  Z.of_nat (size (pumps h)) ≤ max_pumps h →
  let after_subscribe := (subscribe topic partition h w).1.2 in
  let after_topic := (subscribe_topic topic h w).1.2 in
  Z.of_nat (size (pumps after_subscribe)) ≤ max_pumps h ∧
  Z.of_nat (size (pumps after_topic)) ≤ max_pumps h.
Proof.
  intros Hw. cbv zeta.
  assert (∀ h', bounded h h' → Z.of_nat (size (pumps h')) ≤ max_pumps h) as Hb
    by (intros h' [Hm Hin]; rewrite <- Hm; by apply Hin).
  split; apply Hb; [apply subscribe_bounded|]. unfold subscribe_topic.
  pose proof (known_partitions_same topic h w) as [Hp Hm].
  destruct (known_partitions topic h w) as [[[ps|e] h1] w1]; cbn [then_ fst snd] in *;
    assert (bounded h h1) as Hb1 by (split; [done|]; unfold within; by rewrite Hp, Hm); [|done].
  pose proof (bounded_trans _ _ _ Hb1 (subscribe_each_bounded topic ps h1 w1)) as Hb2.
  destruct (subscribe_each topic ps h1 w1) as [[[l|e] h2] w2]; cbn [fst snd] in *; [done|].
  pose proof (bounded_trans _ _ _ Hb2
    (release_new_bounded topic ps (running_partitions topic ps h1) h2 w2)) as Hb3.
  by destruct (release_new _ _ _ h2 w2) as [h3 w3].
Qed.

(** A [SharedHub::subscribe] that nothing interleaves with is
    [Hub::subscribe]. *)
Theorem undisturbed_call_is_subscribe (topic : string) (partition : Z) (h : Hub) (w : @World F) :
  run_call 6 (Acquiring topic partition) h w =
    let '(r, h', w') := subscribe topic partition h w in (Done r, h', w').
Proof.
  assert (∀ n r h (w : @World F), run_call n (Done r) h w = (Done r, h, w)) as Hdone
    by (induction n; intros; [done|by cbn]).
  change (run_call 6 (Acquiring topic partition) h w) with
    (let '(c, _, h', w') := call_step (Acquiring topic partition) h w in run_call 5 c h' w').
  unfold subscribe. cbn [call_step].
  destruct (acquire topic partition h w) as [[[[q b]|e] h1] w1]; cbn [then_]; [|apply Hdone].
  change (run_call 5 (Asking topic partition q b) h1 w1) with
    (let '(c, _, h', w') := call_step (Asking topic partition q b) h1 w1 in run_call 4 c h' w').
  cbn [call_step]. destruct (ask q w1) as [[x|e] w2]; [apply Hdone|].
  destruct b; [by destruct e|]. destruct e; try apply Hdone.
  change (run_call 4 (Respawning topic partition q) h1 w2) with
    (let '(c, _, h', w') := call_step (Respawning topic partition q) h1 w2 in run_call 3 c h' w').
  cbn [call_step]. destruct (respawn topic partition q h1 w2) as [[[y|e] h3] w3]; cbn [then_];
    [|apply Hdone].
  change (run_call 3 (AskingAgain topic partition y) h3 w3) with
    (let '(c, _, h', w') := call_step (AskingAgain topic partition y) h3 w3 in run_call 2 c h' w').
  cbn [call_step]. by destruct (ask y w3) as [[z|e] w4]; [apply Hdone|].
Qed.

End ceiling.

(** ** Samples, and what interleaving allows *)

Definition two_partitions : MemoryFactory := mkMemoryFactory (with_partitions 2) None.

Definition one_pump_hub : Hub := with_max_pumps (allow_all_topics new_hub) 1.

Definition fresh_world (fates : list (list nat)) : @World MemoryFactory :=
  mkWorld two_partitions fates ∅ ∅ [].

(** The partitions an in-memory log of two lists. *)
Definition listed (_ : string) (p : Z) : Prop := 0 ≤ p.

Lemma memory_lists topic f ps :
  (partitions_of_topic (F := MemoryFactory) topic f).1 = Ok ps → ∀ p, p ∈ ps → listed topic p.
Proof.
  cbn. unfold factory_partitions. destruct (Source.check_topic f topic); [|done]. cbn.
  intros [= <-] p Hp. apply elem_of_seqZ in Hp. unfold listed. lia.
Qed.

(** A subscriber to partition 0 while its pump lives, a second that finds the
    pump, a third to partition 1 once it has exited; then the second is told. *)
Definition overtaken : list Action :=
  [Arrive (Acquiring "t" 0); Advance 0; Advance 0; Arrive (Acquiring "t" 0); Advance 1;
   Arrive (Acquiring "t" 1); Advance 2; Advance 2; Advance 1; Advance 1; Advance 1].

Definition overtaken_world : @World MemoryFactory := fresh_world [[]; []; []; []; [0%nat]].

Lemma running_pumps_are_the_hubs_witness :
  let s := acts (mkShared one_pump_hub overtaken_world []) overtaken in
  spawned (world s) = [("t", 0); ("t", 1); ("t", 0)] ∧ pumps (hub s) !! ("t", 0) = Some 2%nat.
Proof.
  cbv zeta. split; [vm_compute; done|].
  destruct (running_pumps_are_the_hubs listed memory_lists one_pump_hub overtaken_world overtaken)
    as [Hrun _]; [done|by repeat constructor|].
  apply (Hrun 2%nat "t" 0); [vm_compute; done|..]; by apply (bool_decide_unpack _).
Defined.

Lemma exclusive_hub_within_max_pumps_witness :
  let h := (subscribe "t" 0 one_pump_hub (fresh_world [])).1.2 in
  size (pumps h) = 1%nat ∧ (subscribe "t" 1 h (fresh_world [])).1.1 = Err AtCapacity ∧
  Z.of_nat (size (pumps (subscribe "t" 1 h (fresh_world [])).1.2)) ≤ 1.
Proof.
  cbv zeta. split; [vm_compute; done|]. split; [vm_compute; done|].
  refine (proj1 (exclusive_hub_within_max_pumps "t" 1
    (subscribe "t" 0 one_pump_hub (fresh_world [])).1.2 (fresh_world []) _)). vm_compute. done.
Defined.

(** Shared, a hub can go past its ceiling and start a pump after it was
    shut down: replacing a pump that closed under a subscriber asks neither
    the ceiling nor [shut_down]. *)
Theorem respawn_ignores_ceiling_and_shutdown :
  (let s := acts (mkShared one_pump_hub overtaken_world []) overtaken in
   max_pumps (hub s) = 1 ∧ size (pumps (hub s)) = 2%nat) ∧
  (let s := acts (mkShared one_pump_hub (fresh_world [[]; []; []; []; [0%nat]]) [])
     [Arrive (Acquiring "t" 0); Advance 0; Advance 0; Arrive (Acquiring "t" 0); Advance 1;
      Shutdown; Advance 1; Advance 1; Advance 1] in
   shut_down (hub s) = true ∧ pumps (hub s) !! ("t", 0) = Some 1%nat ∧
   (1%nat ∉ told (world s)) ∧ calls s !! 1%nat = Some (Done (Ok 1%nat))).
Proof.
  cbv zeta. split; [split; vm_compute; done|]. split_and!; [vm_compute; done..| |vm_compute; done].
  by apply (bool_decide_unpack _).
Qed.
