(* ===== verification/Transport.v ===== *)
(** * Topic streams and the web transports
      ([odradek-web-core/src/hub.rs], [odradek-web-sse], [odradek-web-ws])

    A topic stream merges one subscription per partition; the SSE route stamps
    each of its events with the cursor a client echoes back, and the WebSocket
    route sends the same events as frames.  What the HTTP server does with a
    status or a frame is outside. *)
From S2P Require Import Prelude Text Event Source Cursor Pump Hub.

(** A channel item: [Result<SharedEvent, StreamError>]. *)
Abbreviation StreamItem := (result StreamError Event).

(** ** Merging *)

(** [partition_position]. *)
Definition partition_position (position : TopicPosition) (partition : Z) : Position :=
  match position with
  | TopicEarliest => Earliest
  | TopicLatest => Latest
  | TopicAfter cursor =>
      match cursor !! partition with Some seen => After seen | None => Earliest end
  end.

(** The forwarders of [merge]: one takes its subscription's next item and
    sends it to the merged queue; the number is the forwarder's. *)
Record Merge : Type := mkMerge {
  inputs : list (list StreamItem);
  merged : list (nat * StreamItem);
}.

Definition forward (m : Merge) (i : nat) : Merge :=
  match inputs m !! i with
  | Some (item :: rest) => mkMerge (<[i := rest]> (inputs m)) (merged m ++ [(i, item)])
  | _ => m
  end.

Definition merge (subscriptions : list (list StreamItem)) (schedule : list nat) : Merge :=
  foldl forward (mkMerge subscriptions []) schedule.

(** ** Server-sent events *)
Module sse.

Definition status (k : RejectionKind.t) : Z :=
  match k with
  | RejectionKind.BadRequest => 400
  | RejectionKind.Denied => 403
  | RejectionKind.NotFound => 404
  | RejectionKind.ShutDown | RejectionKind.AtCapacity => 503
  | RejectionKind.Upstream => 502
  end.

(** [HeaderValue::to_str]: visible ASCII and tabs. *)
Definition to_str (v : text) : option text :=
  if forallb (λ b, let z := byte_to_Z b in ((32 <=? z) && (z <? 127)) || (z =? 9)) v
  then Some v else None.

(** The resume token a request carries; an unreadable one is a 400. *)
Definition last_event_id (header : option text) : result Z (option text) :=
  match header with
  | None => Ok None
  | Some v => match to_str v with Some s => Ok (Some s) | None => Err 400 end
  end.

Inductive Frame : Type :=
| RecordFrame (id : text) (event : Event)
| ErrorFrame (kind : string) (message : string).

Definition error_frame (e : StreamError) : Frame :=
  ErrorFrame (SourceErrorKind.as_str (error_kind e)) (stream_public_message e).

(** The route of one partition. *)
Definition partition_frame (item : StreamItem) : Frame :=
  match item with
  | Ok event => RecordFrame (decimal.print (offset event)) event
  | Err e => error_frame e
  end.

(** The running cursor's seed, pruned to what the subscription covers. *)
Definition seed (position : TopicPosition) (covered : list Z) : Cursor :=
  base.filter (λ kv : Z * Z, existsb (Z.eqb kv.1) covered = true)
    match position with TopicAfter cursor => cursor | _ => ∅ end.

Definition topic_frame (running : Cursor) (item : StreamItem) : Cursor * Frame :=
  match item with
  | Ok event =>
      let running := <[Event.partition event := offset event]> running in
      (running, RecordFrame (encode running) event)
  | Err e => (running, error_frame e)
  end.

(** The route of a topic. *)
Fixpoint topic_frames (running : Cursor) (items : list StreamItem) : list Frame :=
  match items with
  | [] => []
  | item :: rest =>
      let '(running, frame) := topic_frame running item in frame :: topic_frames running rest
  end.

End sse.

(** ** WebSockets *)
Module ws.

Record OriginPolicy : Type := mkOriginPolicy {
  allowed : option (list text);
  allow_missing : bool;
}.

Definition to_ascii_lowercase (s : text) : text :=
  (λ b, let z := byte_to_Z b in if (65 <=? z) && (z <=? 90) then byte_of_Z (z + 32) else b) <$> s.

Definition deny_cross_origin : OriginPolicy := mkOriginPolicy (Some []) true.
Definition allow (origins : list text) : OriginPolicy :=
  mkOriginPolicy (Some ((λ o, to_ascii_lowercase (trim o)) <$> origins)) true.
Definition any : OriginPolicy := mkOriginPolicy None true.
Definition require_origin (p : OriginPolicy) : OriginPolicy := mkOriginPolicy (allowed p) false.

Definition permits (p : OriginPolicy) (origin : option text) : bool :=
  match origin with
  | None => allow_missing p
  | Some value =>
      match sse.to_str value, allowed p with
      | None, _ => false
      | Some _, None => true
      | Some raw, Some allowed =>
          existsb (λ o, bool_decide (o = to_ascii_lowercase (trim raw))) allowed
      end
  end.

Definition check_origin (p : OriginPolicy) (origin : option text) : result Z unit :=
  if permits p origin then Ok tt else Err 403.

Definition CLOSE_GOING_AWAY : Z := 1001.
Definition CLOSE_POLICY_VIOLATION : Z := 1008.
Definition CLOSE_INTERNAL_ERROR : Z := 1011.

(** The [while] of [close_frame]: back to a character's first byte. *)
Fixpoint char_boundary (reason : text) (end_ : nat) : nat :=
  match end_ with
  | O => O
  | S e =>
      match reason !! end_ with
      | Some b => if (128 <=? byte_to_Z b) && (byte_to_Z b <? 192) then char_boundary reason e else end_
      | None => end_
      end
  end.

Record CloseFrame : Type := mkCloseFrame { code : Z; reason : text }.

Definition close_frame (e : StreamError) : CloseFrame :=
  let code := match error_kind e with
    | SourceErrorKind.Auth => CLOSE_POLICY_VIOLATION
    | _ => CLOSE_INTERNAL_ERROR
    end in
  let reason := str_bytes
    (SourceErrorKind.as_str (error_kind e) ++ ": " ++ stream_public_message e)%string in
  mkCloseFrame code
    (if 123 <? len reason then take (char_boundary reason 123) reason else reason).

Inductive Sent : Type := Text (event : Event) | Close (frame : CloseFrame).

(** What the loop's [select!] wakes with. *)
Inductive Input : Type :=
| Item (item : option StreamItem)
| ClientClosed
| ClientSaid.

(** [stream_events], as far as the inputs go and while sends succeed. *)
Fixpoint stream_events (inputs : list Input) : list Sent :=
  match inputs with
  | [] => []
  | Item (Some (Ok event)) :: rest => Text event :: stream_events rest
  | Item (Some (Err e)) :: _ => [Close (close_frame e)]
  | Item None :: _ => [Close (mkCloseFrame CLOSE_GOING_AWAY (str_bytes "going away"))]
  | ClientClosed :: _ => []
  | ClientSaid :: rest => stream_events rest
  end.

End ws.

(** ** Order within a partition *)

Definition from_input (i : nat) (l : list (nat * StreamItem)) : list StreamItem :=
  (base.filter (λ x, x.1 = i) l).*2.

Lemma from_input_snoc i l j item :
  from_input i (l ++ [(j, item)]) = from_input i l ++ (if decide (j = i) then [item] else []).
Proof.
  unfold from_input. rewrite filter_app, fmap_app. f_equal. rewrite filter_cons. cbn [fst].
  by destruct (decide (j = i)).
Qed.

(** Every item is forwarded or still to come, in its subscription's order. *)
Definition conserved (subscriptions : list (list StreamItem)) (m : Merge) : Prop :=
  length (inputs m) = length subscriptions ∧
  ∀ i, from_input i (merged m) ++ default [] (inputs m !! i) = default [] (subscriptions !! i).

Lemma forward_conserves subs m i : conserved subs m → conserved subs (forward m i).
Proof.
  intros [Hl Hc]. unfold forward. destruct (inputs m !! i) as [[|item rest]|] eqn:Ei; [done| |done].
  split; [by cbn; rewrite length_insert|]. intros j. cbn [merged inputs]. rewrite from_input_snoc.
  rewrite <- (Hc j). destruct (decide (i = j)) as [->|Hne].
  - rewrite list_lookup_insert_eq by (by eapply lookup_lt_Some). rewrite Ei. cbn [default].
    by rewrite <- app_assoc.
  - by rewrite list_lookup_insert_ne, app_nil_r.
Qed.

(** However the forwarders are scheduled, a merged stream carries each
    partition's items in that partition's order, each once, and holds back
    only what has not been forwarded. *)
Theorem merged_streams_keep_partition_order (subscriptions : list (list StreamItem))
    (schedule : list nat) (i : nat) :
  let m := merge subscriptions schedule in
  from_input i (merged m) ++ default [] (inputs m !! i) = default [] (subscriptions !! i).
Proof.
  assert (conserved subscriptions (merge subscriptions schedule)) as [_ H]; [|apply H].
  unfold merge. assert (conserved subscriptions (mkMerge subscriptions [])) as H by done.
  revert H. generalize (mkMerge subscriptions []).
  induction schedule as [|j schedule IH]; intros m Hm; [done|]. cbn [foldl].
  by apply IH, forward_conserves.
Qed.

(** ** What a client resumes from *)

Definition oks (items : list StreamItem) : list Event :=
  omap (λ item, match item with Ok e => Some e | Err _ => None end) items.

(** The events of one partition, and the last of them. *)
Definition in_partition (p : Z) (l : list Event) : list Event :=
  List.filter (λ e, Event.partition e =? p) l.

(** What a cursor holds after a run of events. *)
Definition after_events (running : Cursor) (l : list Event) : Cursor :=
  foldl (λ c e, <[Event.partition e := offset e]> c) running l.

Lemma after_events_lookup l : ∀ running p,
  after_events running l !! p =
    match last (in_partition p l) with Some e => Some (offset e) | None => running !! p end.
Proof.
  induction l as [|e l IH] using rev_ind; intros running p; [done|].
  unfold after_events, in_partition. rewrite foldl_snoc, filter_app_list.
  change (foldl _ running l) with (after_events running l).
  change (List.filter _ l) with (in_partition p l). cbn [List.filter].
  destruct (Z.eqb_spec (Event.partition e) p) as [->|Hne].
  - by rewrite lookup_insert_eq, last_snoc.
  - by rewrite lookup_insert_ne, app_nil_r.
Qed.

Lemma topic_frames_snoc items e : ∀ running,
  last (sse.topic_frames running (items ++ [Ok e])) =
    Some (sse.RecordFrame (encode (after_events running (oks items ++ [e]))) e).
Proof.
  induction items as [|[x|err] items IH]; intros running; [done|..];
    cbn [app sse.topic_frames sse.topic_frame].
  - specialize (IH (<[Event.partition x := offset x]> running)).
    change (oks (Ok x :: items)) with (x :: oks items). cbn [app after_events foldl].
    rewrite last_cons, IH. done.
  - specialize (IH running). rewrite last_cons, IH. done.
Qed.

(** Events as a source numbers them. *)
Definition event_in_range (e : Event) : Prop := is_i32 (Event.partition e) ∧ is_i64 (offset e).

Definition cursor_in_range (c : Cursor) : Prop := ∀ p o, c !! p = Some o → is_i32 p ∧ is_i64 o.

Lemma after_events_in_range l : ∀ running,
  cursor_in_range running → Forall event_in_range l → cursor_in_range (after_events running l).
Proof.
  induction l as [|e l IH]; intros running Hr; [done|]. intros [He Hl]%Forall_cons. cbn.
  apply IH; [|done]. intros p o [[<- <-]|[_ Hp]]%lookup_insert_Some; [by destruct He|by apply Hr].
Qed.

(** Where a reconnect with the last id starts each partition. *)
Lemma reconnect_position (params : StreamParams) running items e :
  cursor_in_range running → Forall event_in_range (oks items ++ [e]) →
  ∃ id c, last (sse.topic_frames running (items ++ [Ok e])) = Some (sse.RecordFrame id e) ∧
    topic_position params (Some id) = Ok (TopicAfter c) ∧
    ∀ p, c !! p = match last (in_partition p (oks items ++ [e])) with
                  | Some seen => Some (offset seen)
                  | None => running !! p
                  end.
Proof.
  intros Hr Hl. do 2 eexists. split; [apply topic_frames_snoc|]. split.
  - unfold topic_position. rewrite parse_encode; [done| |].
    + intros Hnil. apply (f_equal (lookup (Event.partition e))) in Hnil.
      rewrite after_events_lookup, lookup_empty in Hnil. unfold in_partition in Hnil.
      rewrite filter_app_list in Hnil. cbn [List.filter] in Hnil.
      by rewrite Z.eqb_refl, last_snoc in Hnil.
    + by apply after_events_in_range.
  - intros p. apply after_events_lookup.
Qed.

(** Where a stream begins is where its position says. *)
Definition begins_after (position : Position) : option (option Z) :=
  match position with
  | Earliest => Some None
  | After offset => Some (Some offset)
  | Latest => None
  end.

(** Going on after the last event of a selection selects the rest of it. *)
Lemma resume_after_last log f start hi hi' l :
  ascending log → pos_le start hi → pos_le hi hi' →
  l `prefix_of` select f (segment log start hi) →
  let resume := match last l with Some e => at_pos e | None => start end in
  l ++ select f (segment log resume hi') = select f (segment log start hi').
Proof.
  intros Hlog Hle Hle' Hpre. rewrite (segment_split log Hlog start hi hi') by done.
  rewrite select_app. cbv zeta. destruct (last l) as [e|] eqn:El.
  2: { apply last_None in El as ->. by rewrite (segment_split log Hlog start hi hi'), select_app. }
  apply last_Some in El as [l' ->]. destruct Hpre as [k Hk]. rewrite <- app_assoc in Hk.
  (* the segment, cut at the last event seen *)
  assert (∀ s l' k, select f s = l' ++ e :: k →
    ∃ s1 s2, s = s1 ++ e :: s2 ∧ select f s1 = l' ∧ select f s2 = k ∧ matches f e = true) as Hcut.
  { clear. induction s as [|x s IH]; intros l' k Hs; [by destruct l'|]. cbn in Hs.
    destruct (matches f x) eqn:Ex.
    - destruct l' as [|y l']; cbn in Hs; injection Hs as Hxy Hs; subst.
      + by exists [], s.
      + destruct (IH l' k Hs) as (s1 & s2 & -> & H1 & H2 & H3). exists (y :: s1), s2.
        split_and!; [done|unfold select in *; cbn; by rewrite Ex, H1|done..].
    - destruct (IH l' k Hs) as (s1 & s2 & -> & H1 & H2 & H3). exists (x :: s1), s2.
      split_and!; [done|unfold select in *; cbn; by rewrite Ex, H1|done..]. }
  destruct (Hcut _ _ _ Hk) as (s1 & s2 & Hseg & H1 & H2 & H3).
  apply (segment_cut log Hlog) in Hseg as (_ & Hrest & _ & Hehi).
  rewrite (segment_split log Hlog (at_pos e) hi hi'), Hrest, select_app, H2 by done.
  rewrite Hk. by rewrite <- !app_assoc.
Qed.

(** An SSE client of a topic that reconnects with the last id it saw loses
    nothing and sees nothing twice: in every partition whose stream had a
    definite beginning, what it had seen followed by what the new stream
    brings is what one unbroken stream would have brought. *)
Theorem sse_reconnect_loses_nothing (params : StreamParams) (position : TopicPosition)
    (covered : list Z) (items : list StreamItem) (e : Event) (p : Z) (start hi hi' : option Z)
    (log : list Event) (f : Filter) :
  cursor_in_range (sse.seed position covered) → Forall event_in_range (oks items ++ [e]) →
  ascending log → p ∈ covered → pos_le start hi → pos_le hi hi' →
  begins_after (partition_position position p) = Some start →
  in_partition p (oks items ++ [e]) `prefix_of` select f (segment log start hi) →
  ∃ id resumed start',
    last (sse.topic_frames (sse.seed position covered) (items ++ [Ok e])) =
      Some (sse.RecordFrame id e) ∧
    topic_position params (Some id) = Ok resumed ∧
    begins_after (partition_position resumed p) = Some start' ∧
    in_partition p (oks items ++ [e]) ++ select f (segment log start' hi') =
      select f (segment log start hi').
Proof.
  intros Hseed Hrange Hlog Hp Hle Hle' Hbegin Hpre.
  destruct (reconnect_position params _ items e Hseed Hrange) as (id & c & Hlast & Hpos & Hc).
  exists id, (TopicAfter c),
    (match last (in_partition p (oks items ++ [e])) with Some e => at_pos e | None => start end).
  split_and!; [done|done| |by eapply resume_after_last].
  cbn [partition_position]. rewrite Hc.
  destruct (last (in_partition p (oks items ++ [e]))) as [seen|]; [done|].
  unfold sse.seed. destruct position as [| |c0]; cbn in Hbegin.
  - by rewrite map_filter_empty, lookup_empty.
  - done.
  - destruct (base.filter _ c0 !! p) as [o|] eqn:Eo.
    + apply map_lookup_filter_Some in Eo as [Eo _]. by rewrite Eo in Hbegin.
    + apply map_lookup_filter_None in Eo as [Eo|Eo]; [by rewrite Eo in Hbegin|].
      destruct (c0 !! p) as [o|] eqn:Ep; [|done]. exfalso. apply (Eo o eq_refl). cbn.
      apply existsb_exists. exists p. by rewrite Z.eqb_refl, <- list_elem_of_In.
Qed.

(** ** Samples *)

Definition sample_event (p o : Z) : Event := at_ "t" p o 0.
Definition sample_items : list StreamItem := [Ok (sample_event 0 0); Ok (sample_event 1 0)].
Definition sample_log : list Event := [sample_event 1 0; sample_event 1 1].

Lemma sample_log_ascending : ascending sample_log.
Proof. by repeat constructor. Qed.

Lemma sse_reconnect_loses_nothing_witness :
  ∃ id resumed start',
    last (sse.topic_frames (sse.seed TopicEarliest [0; 1]) (sample_items ++ [Ok (sample_event 0 1)])) =
      Some (sse.RecordFrame id (sample_event 0 1)) ∧ id = str_bytes "0:1,1:0" ∧
    topic_position (mkStreamParams None None None) (Some id) = Ok resumed ∧
    begins_after (partition_position resumed 1) = Some start' ∧
    [sample_event 1 0] ++ select no_filter (segment sample_log start' (Some 1)) = sample_log.
Proof.
  destruct (sse_reconnect_loses_nothing (mkStreamParams None None None) TopicEarliest [0; 1]
    sample_items (sample_event 0 1) 1 None (Some 0) (Some 1) sample_log no_filter)
    as (id & resumed & start' & H1 & H2 & H3 & H4).
  - intros p o Hp. unfold sse.seed in Hp. by rewrite map_filter_empty, lookup_empty in Hp.
  - repeat (constructor; [split; split; vm_compute; discriminate|]). constructor.
  - apply sample_log_ascending.
  - by right; left.
  - done.
  - done.
  - done.
  - by exists [].
  - exists id, resumed, start'. split_and!; [done| |done|done|exact H4].
    vm_compute in H1. by injection H1 as <-.
Defined.
