(* ===== verification/Batching.v ===== *)
(** * Batches to produce ([odradek-client/src/producer.rs])

    What goes on the wire for a partition's records and which partition a key
    picks: the pure half of the producer. *)
From S2P Require Import Prelude Budget Codec Wire Records ClientError.

(** ** The partitioner *)

Definition u32 (z : Z) : Z := wrap 32 z.

Definition SEED : Z := 0x9747b28c.
Definition M : Z := 0x5bd1e995.
Definition R_SHIFT : Z := 24.

(** [u32::from_le_bytes] of four bytes. *)
Definition le32 (a b c d : byte) : Z :=
  byte_to_Z a + Z.shiftl (byte_to_Z b) 8 + Z.shiftl (byte_to_Z c) 16 + Z.shiftl (byte_to_Z d) 24.

Definition mix (h k : Z) : Z :=
  let k := u32 (k * M) in
  let k := Z.lxor k (Z.shiftr k R_SHIFT) in
  let k := u32 (k * M) in
  Z.lxor (u32 (h * M)) k.

(** The three [if]s on what is left of the input. *)
Definition mix_tail (h : Z) (tail : list byte) : Z :=
  let h := match tail !! 2%nat with Some c => Z.lxor h (Z.shiftl (byte_to_Z c) 16) | None => h end in
  let h := match tail !! 1%nat with Some b => Z.lxor h (Z.shiftl (byte_to_Z b) 8) | None => h end in
  match tail !! 0%nat with Some a => u32 (Z.lxor h (byte_to_Z a) * M) | None => h end.

Fixpoint mix_chunks (h : Z) (data : list byte) : Z :=
  match data with
  | a :: b :: c :: d :: rest => mix_chunks (mix h (le32 a b c d)) rest
  | tail => mix_tail h tail
  end.

Definition murmur2 (data : list byte) : Z :=
  let h := mix_chunks (Z.lxor SEED (len data)) data in
  let h := Z.lxor h (Z.shiftr h 13) in
  let h := u32 (h * M) in
  sint 32 (Z.lxor h (Z.shiftr h 15)).

Definition partition_for_key (key : list byte) (count : Z) : Z :=
  Z.rem (Z.land (murmur2 key) 0x7fffffff) count.

(** ** Sizes *)

Definition estimate_record_size (r : KRecord) : Z :=
  let opt (o : option (list byte)) := match o with Some v => len v | None => 0 end in
  opt (key r) + opt (value r)
  + foldr (λ h acc, len (str_bytes (header_key h)) + opt (header_value h) + 8 + acc) 0 (headers r)
  + 24.

(** ** Batches *)

Record ProducerIdentity : Type := mkIdentity {
  identity_id : Z;
  identity_epoch : Z;
}.

Record BatchStamp : Type := mkStamp {
  stamp_id : Z;
  stamp_epoch : Z;
  stamp_sequence : Z;
  transactional : bool;
}.

#[export] Instance BatchStamp_eq_dec : EqDecision BatchStamp.
Proof. solve_decision. Defined.

Definition transactional_bit (stamp : option BatchStamp) : Z :=
  match stamp with
  | Some s => if transactional s then Z.shiftl 1 4 else 0
  | None => 0
  end.

Definition set_offset_delta (r : KRecord) (d : Z) : KRecord :=
  mkKRecord (record_attributes r) (timestamp_delta r) d (key r) (value r) (headers r).

(** The renumbering loop. *)
Fixpoint renumber (i : Z) (rs : list KRecord) : result ClientError (list KRecord) :=
  match rs with
  | [] => Ok []
  | r :: rs =>
      match try_from i32_min i32_max i with
      | None => Err (ProtocolViolation "more than i32::MAX records in one batch")
      | Some d => let? rest := renumber (i + 1) rs in Ok (set_offset_delta r d :: rest)
      end
  end.

(** [iter().max()]. *)
Definition max_timestamp_delta (rs : list KRecord) : Z :=
  match rs with
  | [] => 0
  | r :: rs => foldl (λ m r, Z.max m (timestamp_delta r)) (timestamp_delta r) rs
  end.

Section batch.
(** The codecs are the compression crates'. *)
Context (compress : Compression → list byte → result ClientError (list byte)).

Definition batch_records (codec : Compression) (rs : list KRecord) : result ClientError Records :=
  if decide (codec = Compression_None) then Ok (Plain rs)
  else
    let? payload := map_err Encode (enc_bytes (enc_each KRecordOps.encode rs)) in
    let? payload := compress codec payload in
    Ok (Compressed (default i32_max (try_from i32_min i32_max (len rs))) payload).

(** The batch [encode_batch] assembles at [now_ms]. *)
Definition assemble (now_ms : Z) (rs : list KRecord) (codec : Compression)
    (stamp : option BatchStamp) : result ClientError RecordBatch :=
  match rs with
  | [] => Err (ProtocolViolation "cannot produce an empty record set")
  | _ =>
      let? rs := renumber 0 rs in
      let max_delta := max_timestamp_delta rs in
      let last := len rs - 1 in
      let? records := batch_records codec rs in
      Ok (mkRecordBatch 0 0
            (Z.lor (attribute_bits codec) (transactional_bit stamp))
            (default i32_max (try_from i32_min i32_max last))
            now_ms (sint 64 (now_ms + max_delta))
            match stamp with Some s => stamp_id s | None => -1 end
            match stamp with Some s => stamp_epoch s | None => -1 end
            match stamp with Some s => stamp_sequence s | None => -1 end
            records)
  end.

Definition encode_batch (now_ms : Z) (rs : list KRecord) (codec : Compression)
    (stamp : option BatchStamp) : result ClientError (list byte) :=
  let? batch := assemble now_ms rs codec stamp in
  map_err Encode (enc_bytes (RecordBatchOps.encode_to batch)).

End batch.
