(* ===== verification/Offsets.v ===== *)
(** * Committed offsets ([odradek-client/src/offsets.rs])

    OffsetCommit and OffsetFetch through a group's coordinator, for simple
    consumers and group members alike. *)
From S2P Require Import Prelude Budget Codec MessageTrait MsgOffset Registry ClientError Exchange.
Import offset_commit_request offset_commit_response offset_fetch_request offset_fetch_response.

Definition OFFSET_COMMIT_SUPPORTED : Z * Z := (2, 9).
Definition OFFSET_FETCH_SUPPORTED : Z * Z := (1, 7).

Record CommitIdentity : Type := mkCommitIdentity {
  commit_generation : Z;
  commit_member : string;
}.

Definition SIMPLE : CommitIdentity := mkCommitIdentity (-1) "".

Definition commit_request (group : string) (identity : CommitIdentity) (topic : string)
    (partition offset : Z) : OffsetCommitRequest.t :=
  let rp := OffsetCommitRequestPartition.mk partition offset (-1)
    (OffsetCommitRequestPartition.committed_metadata OffsetCommitRequestPartition.default)
    (OffsetCommitRequestPartition.unknown_tagged_fields OffsetCommitRequestPartition.default) in
  let rt := OffsetCommitRequestTopic.mk topic
    (OffsetCommitRequestTopic.topic_id OffsetCommitRequestTopic.default) [rp]
    (OffsetCommitRequestTopic.unknown_tagged_fields OffsetCommitRequestTopic.default) in
  OffsetCommitRequest.mk group (commit_generation identity) (commit_member identity) None (-1) [rt]
    (OffsetCommitRequest.unknown_tagged_fields OffsetCommitRequest.default).

Definition read_commit (topic : string) (partition : Z) (r : OffsetCommitResponse.t) :
    result ClientError unit :=
  let? entry := ok_or (ProtocolViolation "offset commit response omits the partition")
    (List.find (λ t, String.eqb (OffsetCommitResponseTopic.name t) topic)
       (OffsetCommitResponse.topics r)
     ≫= λ t, List.find (λ p, OffsetCommitResponsePartition.partition_index p =? partition)
               (OffsetCommitResponseTopic.partitions t)) in
  broker_code (OffsetCommitResponsePartition.error_code entry).

Definition committed_request (group topic : string) (partition : Z) : OffsetFetchRequest.t :=
  let rt := OffsetFetchRequestTopic.mk topic [partition]
    (OffsetFetchRequestTopic.unknown_tagged_fields OffsetFetchRequestTopic.default) in
  let d := OffsetFetchRequest.default in
  OffsetFetchRequest.mk group (Some [rt]) (OffsetFetchRequest.groups d)
    (OffsetFetchRequest.require_stable d) (OffsetFetchRequest.unknown_tagged_fields d).

(** [None] where nothing was ever committed. *)
Definition read_committed_offset (topic : string) (partition : Z) (r : OffsetFetchResponse.t) :
    result ClientError (option Z) :=
  let? _ := broker_code (OffsetFetchResponse.error_code r) in
  let? entry := ok_or (ProtocolViolation "offset fetch response omits the partition")
    (List.find (λ t, String.eqb (OffsetFetchResponseTopic.name t) topic)
       (OffsetFetchResponse.topics r)
     ≫= λ t, List.find (λ p, OffsetFetchResponsePartition.partition_index p =? partition)
               (OffsetFetchResponseTopic.partitions t)) in
  let? _ := broker_code (OffsetFetchResponsePartition.error_code entry) in
  let offset := OffsetFetchResponsePartition.committed_offset entry in
  Ok (if 0 <=? offset then Some offset else None).

Section calls.
Context {R : Runtime} {W : Type} `{Cluster W}.

Definition commit_once (group : string) (identity : CommitIdentity) (topic : string)
    (partition offset : Z) : io W unit :=
  let^ broker := group_coordinator group in
  let^ resp := exchange (Resp := OffsetCommitResponse.t) broker OFFSET_COMMIT_SUPPORTED
    (commit_request group identity topic partition offset) in
  io_of (read_commit topic partition resp).

Definition committed_once (group topic : string) (partition : Z) : io W (option Z) :=
  let^ broker := group_coordinator group in
  let^ resp := exchange (Resp := OffsetFetchResponse.t) broker OFFSET_FETCH_SUPPORTED
    (committed_request group topic partition) in
  io_of (read_committed_offset topic partition resp).

End calls.
