(* ===== verification/Consumer.v ===== *)
(** * The consumer's fetch path ([odradek-client/src/consumer.rs])

    From a fetch response to records with absolute offsets: the response's
    entry is picked, its batches decoded, aborted and control batches left
    out, and what may be materialized is charged to a budget before it is.
    The calls at the end put it behind the leader's connection and the retry
    loop; the cluster and the codecs are parameters. *)
From S2P Require Import Prelude Budget Codec Wire Records MessageTrait MsgFetch MsgOffset Registry ClientError Exchange Offsets Source.
Import fetch_request fetch_response list_offsets_request list_offsets_response.

Definition EARLIEST : Z := -2.
Definition LATEST : Z := -1.

Definition MIN_RECORD_WIRE_LEN : Z := 7.
(** [frame::DEFAULT_MAX_FRAME]. *)
Definition MAX_FETCH_DECOMPRESSED : Z := 64 * 1024 * 1024.

Inductive IsolationLevel : Type := ReadUncommitted | ReadCommitted.

#[export] Instance IsolationLevel_eq_dec : EqDecision IsolationLevel.
Proof. solve_decision. Defined.

Definition wire (l : IsolationLevel) : Z :=
  match l with ReadUncommitted => 0 | ReadCommitted => 1 end.

Record ConsumerConfig : Type := mkConsumerConfig {
  max_wait_ms : Z;
  min_bytes : Z;
  partition_max_bytes : Z;
  max_attempts : nat;
  retry_backoff : Z;
  max_fetch_records : Z;
  isolation_level : IsolationLevel;
}.

Definition default_config : ConsumerConfig :=
  mkConsumerConfig 500 1 (Z.shiftl 1 20) 20 250 (Z.shiftl 1 20) ReadUncommitted.

(** ** Requests *)

(** [i32::saturating_mul]. *)
Definition sat32_mul (a b : Z) : Z := Z.max i32_min (Z.min (a * b) i32_max).

Definition fetch_request_for (c : ConsumerConfig) (topic : string) (partition offset : Z) :
    FetchRequest.t :=
  let fp := FetchPartition.mk partition (-1) offset (-1) (-1) (partition_max_bytes c)
    (FetchPartition.replica_directory_id FetchPartition.default)
    (FetchPartition.high_watermark FetchPartition.default)
    (FetchPartition.unknown_tagged_fields FetchPartition.default) in
  let ft := FetchTopic.mk topic (FetchTopic.topic_id FetchTopic.default) [fp]
    (FetchTopic.unknown_tagged_fields FetchTopic.default) in
  let d := FetchRequest.default in
  FetchRequest.mk (FetchRequest.replica_id d) (max_wait_ms c) (min_bytes c)
    (sat32_mul (partition_max_bytes c) 4) (wire (isolation_level c)) 0 (-1) [ft]
    (FetchRequest.forgotten_topics_data d) (FetchRequest.rack_id d) (FetchRequest.cluster_id d)
    (FetchRequest.replica_state d) (FetchRequest.unknown_tagged_fields d).

Definition list_offset_request_for (c : ConsumerConfig) (topic : string) (partition timestamp : Z) :
    ListOffsetsRequest.t :=
  let lp := ListOffsetsPartition.mk partition (-1) timestamp
    (ListOffsetsPartition.unknown_tagged_fields ListOffsetsPartition.default) in
  let lt := ListOffsetsTopic.mk topic [lp]
    (ListOffsetsTopic.unknown_tagged_fields ListOffsetsTopic.default) in
  let d := ListOffsetsRequest.default in
  ListOffsetsRequest.mk (-1) (wire (isolation_level c)) [lt] (ListOffsetsRequest.timeout_ms d)
    (ListOffsetsRequest.unknown_tagged_fields d).

(** ** The budget of one response *)

Record FetchBudget : Type := mkFetchBudget {
  records_left : Z;
  decompressed_left : Z;
}.

Definition claim_records (b : FetchBudget) (count : Z) : result ClientError FetchBudget :=
  if records_left b <? count then
    Err (ProtocolViolation "fetch response wants to materialize more than max_fetch_records")
  else Ok (mkFetchBudget (records_left b - count) (decompressed_left b)).

Definition claim_decompressed (b : FetchBudget) (n : Z) : result ClientError FetchBudget :=
  if decompressed_left b <? n then
    Err (ProtocolViolation "fetch response decompresses past this client's limit")
  else Ok (mkFetchBudget (records_left b) (decompressed_left b - n)).

(** ** Which batches are surfaced *)

Definition ABORT_MARKER : Z := 0.

(** [i16::from_be_bytes]. *)
Definition be16 (a b : byte) : Z := sint 16 (be_val [a; b]).

Definition is_abort_marker (b : RecordBatch) : bool :=
  match records b with
  | Compressed _ _ => false
  | Plain rs =>
      match head rs ≫= Records.key with
      | Some (_ :: _ :: k2 :: k3 :: _) => be16 k2 k3 =? ABORT_MARKER
      | _ => false
      end
  end.

Record BatchFilter : Type := mkBatchFilter {
  aborted : list AbortedTransaction.t;
  disowned : gset Z;
  read_committed : bool;
}.

Definition first_offset_le (a b : AbortedTransaction.t) : Prop :=
  AbortedTransaction.first_offset a ≤ AbortedTransaction.first_offset b.
#[export] Instance first_offset_le_dec : RelDecision first_offset_le :=
  λ a b, decide (AbortedTransaction.first_offset a ≤ AbortedTransaction.first_offset b).

Definition new_filter (l : IsolationLevel) (aborted : option (list AbortedTransaction.t)) :
    BatchFilter :=
  let read_committed := bool_decide (l = ReadCommitted) in
  let entries := if read_committed then default [] aborted else [] in
  mkBatchFilter (merge_sort first_offset_le entries) ∅ read_committed.

(** The last offset a batch covers. *)
Definition batch_last (b : RecordBatch) : Z := sint 64 (base_offset b + last_offset_delta b).

(** The [while] of [keeps]. *)
Fixpoint enter_runs (last : Z) (aborted : list AbortedTransaction.t) (disowned : gset Z) :
    list AbortedTransaction.t * gset Z :=
  match aborted with
  | [] => ([], disowned)
  | entry :: rest =>
      if AbortedTransaction.first_offset entry <=? last
      then enter_runs last rest ({[AbortedTransaction.producer_id entry]} ∪ disowned)
      else (aborted, disowned)
  end.

Definition keeps (f : BatchFilter) (b : RecordBatch) : bool * BatchFilter :=
  let f :=
    if read_committed f && (0 <=? producer_id b) then
      let '(aborted, disowned) := enter_runs (batch_last b) (aborted f) (disowned f) in
      mkBatchFilter aborted disowned (read_committed f)
    else f in
  if is_control b then
    (false,
     if read_committed f && is_abort_marker b
     then mkBatchFilter (aborted f) (disowned f ∖ {[producer_id b]}) (read_committed f)
     else f)
  else
    (negb (read_committed f && is_transactional b && bool_decide (producer_id b ∈ disowned f)), f).

(** ** Materializing *)

Definition push_record (b : RecordBatch) (min_offset : Z) (r : KRecord) : list ConsumedRecord :=
  let absolute := sint 64 (base_offset b + offset_delta r) in
  if absolute <? min_offset then []
  else [mkConsumedRecord absolute (sint 64 (base_timestamp b + timestamp_delta r)) (Records.key r)
          (value r) (headers r)].

Section fetch.
Context {R : Runtime}.
Context (decompress : Compression → list byte → result ClientError (list byte)).

(** The [for _ in 0..count] of [decode_compressed]. *)
Fixpoint decode_count (count : nat) (data : buffer) (b : RecordBatch) (min_offset : Z) :
    result ClientError (list ConsumedRecord * buffer) :=
  match count with
  | O => Ok ([], data)
  | S count =>
      let? (r, data) := map_err Decode (KRecordOps.decode data) in
      let? (rest, data) := decode_count count data b min_offset in
      Ok (push_record b min_offset r ++ rest, data)
  end.

Definition decode_compressed (budget : FetchBudget) (b : RecordBatch) (count : Z)
    (payload : list byte) (min_offset : Z) : result ClientError (list ConsumedRecord * FetchBudget) :=
  match try_from 0 usize_max count with
  | None => Err (ProtocolViolation "batch claims a negative record count")
  | Some count =>
      let? data := decompress (compression b) payload in
      let? budget := claim_decompressed budget (len data) in
      let possible := len data / MIN_RECORD_WIRE_LEN in
      if possible <? count then
        Err (ProtocolViolation "batch claims more records than its bytes can hold")
      else
        let? budget := claim_records budget count in
        let? (out, data) := decode_count (Z.to_nat count) data b min_offset in
        match data with
        | [] => Ok (out, budget)
        | _ => Err (ProtocolViolation "bytes left after the batch's compressed records")
        end
  end.

(** The records of a batch that is kept. *)
Definition batch_records (budget : FetchBudget) (b : RecordBatch) (min_offset : Z) :
    result ClientError (list ConsumedRecord * FetchBudget) :=
  match records b with
  | Plain plain =>
      let? budget := claim_records budget (len plain) in
      Ok (concat (push_record b min_offset <$> plain), budget)
  | Compressed count payload => decode_compressed budget b count payload min_offset
  end.

(** The loop over the batches: the records, and the offset to fetch next. *)
Fixpoint take_batches (offset next_offset : Z) (budget : FetchBudget) (f : BatchFilter)
    (bs : list RecordBatch) : result ClientError (list ConsumedRecord * Z) :=
  match bs with
  | [] => Ok ([], next_offset)
  | b :: bs =>
      let next_offset := Z.max next_offset (sint 64 (base_offset b + last_offset_delta b + 1)) in
      let '(kept, f) := keeps f b in
      if kept then
        let? (out, budget) := batch_records budget b offset in
        let? (rest, next_offset) := take_batches offset next_offset budget f bs in
        Ok (out ++ rest, next_offset)
      else take_batches offset next_offset budget f bs
  end.

(** [iter().find(..)] of a topic, then of a partition in it. *)
Definition fetched_partition (topic : string) (partition : Z) (r : FetchResponse.t) :
    option PartitionData.t :=
  List.find (λ t, String.eqb (FetchableTopicResponse.topic t) topic) (FetchResponse.responses r)
  ≫= λ t, List.find (λ p, PartitionData.partition_index p =? partition)
            (FetchableTopicResponse.partitions t).

(** What [fetch_once] makes of the response. *)
Definition read_fetch {A} (c : ConsumerConfig) (map : ConsumedRecord → A) (topic : string)
    (partition offset : Z) (r : FetchResponse.t) : result ClientError (FetchResult A) :=
  if negb (error_code.is_ok (FetchResponse.error_code r)) then
    Err (Broker (FetchResponse.error_code r))
  else
    let? entry := ok_or (ProtocolViolation "fetch response omits the partition")
      (fetched_partition topic partition r) in
    if negb (error_code.is_ok (PartitionData.error_code entry)) then
      Err (Broker (PartitionData.error_code entry))
    else
      let? (batches, _) := map_err Decode
        (decode_set (default [] (PartitionData.records entry))) in
      let budget := mkFetchBudget (max_fetch_records c) MAX_FETCH_DECOMPRESSED in
      let f := new_filter (isolation_level c) (PartitionData.aborted_transactions entry) in
      let? (records, next_offset) := take_batches offset offset budget f batches in
      Ok (mkFetchResult (map <$> records) next_offset (PartitionData.high_watermark entry)
            (PartitionData.last_stable_offset entry)).

(** What [list_offset_once] makes of the response. *)
Definition read_list_offset (topic : string) (partition : Z) (r : ListOffsetsResponse.t) :
    result ClientError Z :=
  let? entry := ok_or (ProtocolViolation "list offsets response omits the partition")
    (List.find (λ t, String.eqb (ListOffsetsTopicResponse.name t) topic)
       (ListOffsetsResponse.topics r)
     ≫= λ t, List.find (λ p, ListOffsetsPartitionResponse.partition_index p =? partition)
               (ListOffsetsTopicResponse.partitions t)) in
  if error_code.is_ok (ListOffsetsPartitionResponse.error_code entry)
  then Ok (ListOffsetsPartitionResponse.offset entry)
  else Err (Broker (ListOffsetsPartitionResponse.error_code entry)).

End fetch.

(** ** Calls *)

Definition FETCH_SUPPORTED : Z * Z := (4, 12).
Definition LIST_OFFSETS_SUPPORTED : Z * Z := (1, ListOffsetsRequest.MAX_VERSION).

Section calls.
Context {R : Runtime} {W : Type} `{Cluster W}.
Context (decompress : Compression → list byte → result ClientError (list byte)).
Context (c : ConsumerConfig).

(** The lease goes back once the response has arrived whole; an error before
    that drops the connection with it. *)
Definition leased (lease : handle) : io W (Z * list byte) → io W (Z * list byte) :=
  with_lease (release lease) (discard lease).

Definition fetch_once {A} (topic : string) (partition offset : Z) (map : ConsumedRecord → A) :
    io W (FetchResult A) :=
  let^ lease := blocking_partition_leader topic partition in
  let^ leader := λ w, (Ok (leader_id topic partition w), w) in
  let^ (version, resp) := leased lease
    (let^ version := pick_version FetchRequest.t lease FETCH_SUPPORTED in
     let^ resp := ask (forget_dead leader) lease version
       (fetch_request_for c topic partition offset) in
     io_ret (version, resp)) in
  let^ resp := decode_response (M := FetchResponse.t) lease version resp in
  io_of (read_fetch decompress c map topic partition offset resp).

Definition list_offset_once (topic : string) (partition timestamp : Z) : io W Z :=
  let^ broker := partition_leader topic partition in
  let^ resp := exchange (Resp := ListOffsetsResponse.t) broker LIST_OFFSETS_SUPPORTED
    (list_offset_request_for c topic partition timestamp) in
  io_of (read_list_offset topic partition resp).

(** The retry loop, forgetting the partition's leader. *)
Definition partition_retries {A} (topic : string) (partition : Z) : io W A → io W A :=
  with_retries (max_attempts c) (retry_backoff c) (mark_partition_stale topic partition).

Definition fetch_with {A} (topic : string) (partition offset : Z) (map : ConsumedRecord → A) :
    io W (FetchResult A) :=
  partition_retries topic partition (fetch_once topic partition offset map).

Definition fetch (topic : string) (partition offset : Z) : io W (FetchResult ConsumedRecord) :=
  fetch_with topic partition offset id.

Definition earliest_offset (topic : string) (partition : Z) : io W Z :=
  partition_retries topic partition (list_offset_once topic partition EARLIEST).
Definition latest_offset (topic : string) (partition : Z) : io W Z :=
  partition_retries topic partition (list_offset_once topic partition LATEST).

Definition group_retries {A} (group : string) : io W A → io W A :=
  with_retries (max_attempts c) (retry_backoff c) (forget_coordinator group).

Definition commit_offset (group topic : string) (partition offset : Z) : io W unit :=
  group_retries group (commit_once group SIMPLE topic partition offset).
Definition committed_offset (group topic : string) (partition : Z) : io W (option Z) :=
  group_retries group (committed_once group topic partition).

(** The consumer, as the web adapter sees it. *)
#[export] Instance consumer_reader : PartitionReader W := {|
  Source.fetch_with topic partition from f := fetch_with topic partition from f;
  Source.earliest_offset := earliest_offset;
  Source.latest_offset := latest_offset;
|}.

End calls.
