(* ===== verification/ReadCommitted.v ===== *)
(** * What a fetch surfaces ([odradek-client/src/consumer.rs])

    The theorems about [Consumer.v]: the bounds of one response, and the
    filter of aborted transactions measured against the partition's log. *)
From S2P Require Import Prelude Budget Codec Wire Records MessageTrait MsgFetch ClientError Source Consumer.
Import fetch_response.

(** The batches a filter lets through, in order. *)
Fixpoint surfaced (f : BatchFilter) (bs : list RecordBatch) : list RecordBatch :=
  match bs with
  | [] => []
  | b :: bs =>
      let '(kept, f) := keeps f b in
      if kept then b :: surfaced f bs else surfaced f bs
  end.

(** ** The loop over the batches *)

Lemma claim_records_ok bu n bu' :
  claim_records bu n = Ok bu' →
  n ≤ records_left bu ∧ records_left bu' = records_left bu - n ∧
  decompressed_left bu' = decompressed_left bu.
Proof.
  unfold claim_records. destruct (Z.ltb_spec (records_left bu) n); [done|].
  intros [= <-]. cbn. lia.
Qed.

Lemma claim_decompressed_ok bu n bu' :
  claim_decompressed bu n = Ok bu' →
  n ≤ decompressed_left bu ∧ records_left bu' = records_left bu ∧
  decompressed_left bu' = decompressed_left bu - n.
Proof.
  unfold claim_decompressed. destruct (Z.ltb_spec (decompressed_left bu) n); [done|].
  intros [= <-]. cbn. lia.
Qed.

Lemma push_record_bounds b offset r :
  len (push_record b offset r) ≤ 1 ∧
  Forall (λ x, offset ≤ record_offset x) (push_record b offset r).
Proof.
  unfold push_record. destruct (Z.ltb_spec (sint 64 (base_offset b + offset_delta r)) offset).
  - by split; [cbn; lia|constructor].
  - split; [cbn; lia|]. repeat constructor. cbn. lia.
Qed.

Section fetch.
Context {R : Runtime}.
Context (decompress : Compression → list byte → result ClientError (list byte)).

Lemma decode_count_bounds count : ∀ data b offset out rest,
  decode_count count data b offset = Ok (out, rest) →
  len out ≤ Z.of_nat count ∧ Forall (λ x, offset ≤ record_offset x) out.
Proof.
  induction count as [|count IH]; intros data b offset out rest H; cbn [decode_count] in H.
  - injection H as <- <-. by split; [cbn; lia|constructor].
  - apply res_bind_ok in H as ([r data'] & _ & H).
    apply res_bind_ok in H as ([out' rest'] & H' & [= <- <-]).
    destruct (IH _ _ _ _ _ H') as [Hl Ho].
    destruct (push_record_bounds b offset r) as [Hp Hq]. split.
    + rewrite length_app. lia.
    + by apply Forall_app.
Qed.

Lemma concat_push_bounds b offset rs :
  len (concat (push_record b offset <$> rs)) ≤ len rs ∧
  Forall (λ x, offset ≤ record_offset x) (concat (push_record b offset <$> rs)).
Proof.
  induction rs as [|r rs [IH IHf]]; [by split; [cbn; lia|constructor]|].
  rewrite fmap_cons. cbn [concat].
  destruct (push_record_bounds b offset r) as [Hp Hq]. split.
  - rewrite length_app. cbn [length]. lia.
  - by apply Forall_app.
Qed.

Lemma batch_records_bounds bu b offset out bu' :
  batch_records decompress bu b offset = Ok (out, bu') →
  0 ≤ records_left bu' ≤ records_left bu ∧ len out ≤ records_left bu - records_left bu' ∧
  Forall (λ x, offset ≤ record_offset x) out.
Proof.
  unfold batch_records. destruct (records b) as [rs|count payload].
  - intros H. apply res_bind_ok in H as (bu1 & H1 & [= <- <-]).
    apply claim_records_ok in H1 as (? & ? & _).
    destruct (concat_push_bounds b offset rs). split_and!; [lia..|done].
  - unfold decode_compressed. destruct (try_from 0 usize_max count) as [count'|] eqn:Hn; [|done].
    apply try_from_Some in Hn as [-> Hn].
    intros H. apply res_bind_ok in H as (data & _ & H).
    apply res_bind_ok in H as (bu1 & H1 & H). apply claim_decompressed_ok in H1 as (_ & ? & _).
    cbv zeta in H. destruct (len data / MIN_RECORD_WIRE_LEN <? count); [done|].
    apply res_bind_ok in H as (bu2 & H2 & H). apply claim_records_ok in H2 as (? & ? & _).
    apply res_bind_ok in H as ([out' rest] & H3 & H).
    apply decode_count_bounds in H3 as [Hl Hf].
    destruct rest; [|done]. injection H as <- <-. split_and!; [lia..|done].
Qed.

(** What the loop returns: the records of the surfaced batches, in order,
    each batch's within what the budget had left. *)
Definition materialized (offset : Z) (b : RecordBatch) (out : list ConsumedRecord) : Prop :=
  ∃ bu bu', batch_records decompress bu b offset = Ok (out, bu').

Lemma take_batches_ok bs : ∀ offset next bu f out n,
  take_batches decompress offset next bu f bs = Ok (out, n) →
  next ≤ n ∧ len out ≤ Z.max 0 (records_left bu) ∧
  Forall (λ x, offset ≤ record_offset x) out ∧
  ∃ outs, Forall2 (materialized offset) (surfaced f bs) outs ∧ out = concat outs.
Proof.
  induction bs as [|b bs IH]; intros offset next bu f out n H; cbn [take_batches] in H.
  - injection H as <- <-. split_and!; [lia|cbn; lia|constructor|]. by exists [].
  - cbn [surfaced]. destruct (keeps f b) as [kept f']. destruct kept.
    + apply res_bind_ok in H as ([o1 bu1] & H1 & H).
      apply res_bind_ok in H as ([o2 n2] & H2 & [= <- <-]).
      pose proof (batch_records_bounds _ _ _ _ _ H1) as (? & ? & Hf1).
      apply IH in H2 as (? & ? & Hf2 & outs & Ho & ->). split_and!.
      * lia.
      * rewrite length_app. lia.
      * by apply Forall_app.
      * exists (o1 :: outs). split; [|done]. constructor; [|done]. by exists bu, bu1.
    + apply IH in H as (? & ? & ? & ?). split_and!; [lia|done..].
Qed.

(** The parts of a response that [read_fetch] accepts. *)
Lemma read_fetch_ok {A} c (map : ConsumedRecord → A) topic partition offset r fr :
  read_fetch decompress c map topic partition offset r = Ok fr →
  ∃ entry bs rest out next,
    fetched_partition topic partition r = Some entry ∧
    decode_set (default [] (PartitionData.records entry)) = Ok (bs, rest) ∧
    take_batches decompress offset offset
      (mkFetchBudget (max_fetch_records c) MAX_FETCH_DECOMPRESSED)
      (new_filter (isolation_level c) (PartitionData.aborted_transactions entry)) bs
      = Ok (out, next) ∧
    fr = mkFetchResult (map <$> out) next (PartitionData.high_watermark entry)
           (PartitionData.last_stable_offset entry).
Proof.
  unfold read_fetch. destruct (negb _); [done|]. intros H.
  apply res_bind_ok in H as (entry & He & H).
  destruct (fetched_partition topic partition r) as [entry'|]; [|done]. injection He as ->.
  destruct (negb _); [done|].
  apply res_bind_ok in H as ([bs rest] & Hb & H).
  destruct (decode_set _) as [[bs' rest']|] eqn:Hd; [|done]. injection Hb as -> ->.
  apply res_bind_ok in H as ([out next] & Ht & [= <-]). by exists entry, bs, rest, out, next.
Qed.

End fetch.

(** ** The log the filter is measured against

    A partition's log as the broker keeps it: transactional batches of a
    producer up to its next control batch are one transaction, which that
    control batch aborts when it is an abort marker. *)

(** The broker's index of aborted transactions: an entry per transaction that
    an abort marker of the log closes, with the offset of its first batch;
    [open] has those under way when the log starts. *)
Fixpoint abort_index (open : gmap Z Z) (log : list RecordBatch) : list (Z * Z) :=
  match log with
  | [] => []
  | b :: log =>
      let p := producer_id b in
      if is_control b then
        match open !! p with
        | Some first =>
            if is_abort_marker b then (p, first) :: abort_index (delete p open) log
            else abort_index (delete p open) log
        | None => abort_index open log
        end
      else if is_transactional b then
        abort_index (match open !! p with Some _ => open | None => <[p := base_offset b]> open end)
          log
      else abort_index open log
  end.

(** Whether the producer's transaction under way is closed by an abort. *)
Fixpoint ends_aborted (p : Z) (log : list RecordBatch) : bool :=
  match log with
  | [] => false
  | b :: log =>
      if is_control b && (producer_id b =? p) then is_abort_marker b else ends_aborted p log
  end.

(** The batches of [seg], which [after] follows in the log, that a
    read-committed reader is owed. *)
Fixpoint committed (seg after : list RecordBatch) : list RecordBatch :=
  match seg with
  | [] => []
  | b :: seg =>
      if is_control b || (is_transactional b && ends_aborted (producer_id b) (seg ++ after))
      then committed seg after
      else b :: committed seg after
  end.

(** A log of batches at ascending offsets from [lo], whose transactions
    belong to producers. *)
Fixpoint log_from (lo : Z) (log : list RecordBatch) : Prop :=
  match log with
  | [] => True
  | b :: log =>
      lo ≤ base_offset b ≤ batch_last b ∧
      (is_control b || is_transactional b = true → 0 ≤ producer_id b) ∧
      log_from (batch_last b + 1) log
  end.

Definition entry_of (e : AbortedTransaction.t) : Z * Z :=
  (AbortedTransaction.producer_id e, AbortedTransaction.first_offset e).

(** The list a broker sends with [seg]: nothing but transactions aborted
    in the segment or after it, and every one that begins within it. *)
Definition honest_aborts (open : gmap Z Z) (seg after : list RecordBatch)
    (aborted : list AbortedTransaction.t) : Prop :=
  (∀ e, e ∈ aborted → entry_of e ∈ abort_index open (seg ++ after)) ∧
  ∀ p first, (p, first) ∈ abort_index open (seg ++ after) →
    (∃ b, b ∈ seg ∧ first ≤ batch_last b) → ∃ e, e ∈ aborted ∧ entry_of e = (p, first).

Lemma log_from_weaken lo lo' log : lo' ≤ lo → log_from lo log → log_from lo' log.
Proof. destruct log as [|b log]; cbn; [done|]. intros ? (? & ? & ?). split_and!; [lia..|done|done]. Qed.

(** The index has the open transactions that end aborted, and otherwise only
    transactions that begin in the log. *)
Lemma abort_index_open log : ∀ open p first,
  open !! p = Some first → ends_aborted p log = true → (p, first) ∈ abort_index open log.
Proof.
  induction log as [|b log IH]; intros open p first Ho He; cbn in *; [done|].
  destruct (is_control b) eqn:Hc; cbn in He.
  - destruct (Z.eqb_spec (producer_id b) p) as [->|Hp].
    + rewrite Ho, He. by apply list_elem_of_here.
    + destruct (open !! producer_id b); [destruct (is_abort_marker b); [apply list_elem_of_further|]|];
        apply IH; rewrite ?lookup_delete_ne; done.
  - destruct (is_transactional b); [|by apply IH].
    apply IH; [|done]. destruct (open !! producer_id b) eqn:Hb; [done|].
    rewrite lookup_insert_ne; congruence.
Qed.

Lemma abort_index_elem log : ∀ lo open p first,
  log_from lo log → (p, first) ∈ abort_index open log →
  (open !! p = Some first ∧ ends_aborted p log = true) ∨ lo ≤ first.
Proof.
  induction log as [|b log IH]; intros lo open p first Hl H; cbn [abort_index] in H;
    [by apply not_elem_of_nil in H|].
  cbn [log_from] in Hl. destruct Hl as (Hlo & _ & Hl). cbn [ends_aborted].
  destruct (is_control b) eqn:Hc; cbn [andb].
  - assert ((p, first) ∈ abort_index (delete (producer_id b) open) log →
      (open !! p = Some first ∧
       (if producer_id b =? p then is_abort_marker b else ends_aborted p log) = true) ∨
      lo ≤ first) as Hd.
    { intros H'. destruct (IH _ _ _ _ Hl H') as [[Ho He]|]; [|lia].
      apply lookup_delete_Some in Ho as [Hne Ho].
      destruct (Z.eqb_spec (producer_id b) p); [done|by left]. }
    destruct (open !! producer_id b) as [f|] eqn:Ho.
    + destruct (is_abort_marker b) eqn:Ha; [|by apply Hd].
      apply elem_of_cons in H as [[= -> ->]|H]; [|by apply Hd].
      left. by rewrite Z.eqb_refl.
    + rewrite <- (delete_id open (producer_id b)) in H by done. by apply Hd.
  - destruct (is_transactional b).
    + destruct (IH _ _ _ _ Hl H) as [[Ho He]|]; [|lia].
      destruct (open !! producer_id b) eqn:Hb; [by left|].
      apply lookup_insert_Some in Ho as [[<- <-]|[? ?]]; [lia|by left].
    + destruct (IH _ _ _ _ Hl H) as [?|]; [by left|lia].
Qed.

(** ** The filter follows the index *)

#[local] Instance first_offset_le_trans : Transitive first_offset_le.
Proof. unfold first_offset_le. intros x y z. lia. Qed.
#[local] Instance first_offset_le_total : Total first_offset_le.
Proof. unfold first_offset_le. intros x y. lia. Qed.

(** What [enter_runs] leaves queued, and whom it disowns. *)
Lemma enter_runs_spec last q : ∀ dis,
  StronglySorted first_offset_le q →
  StronglySorted first_offset_le (enter_runs last q dis).1 ∧
  (∀ e, e ∈ (enter_runs last q dis).1 ↔
        e ∈ q ∧ last < AbortedTransaction.first_offset e) ∧
  (∀ p, p ∈ (enter_runs last q dis).2 ↔
        p ∈ dis ∨ ∃ first, first ≤ last ∧ (p, first) ∈ entry_of <$> q).
Proof.
  induction q as [|e q IH]; intros dis Hs; cbn [enter_runs].
  - cbn. split_and!; [constructor| |]; set_solver.
  - inversion Hs as [|? ? Hs' Hall]; subst.
    destruct (Z.leb_spec (AbortedTransaction.first_offset e) last) as [He|He].
    + destruct (IH ({[AbortedTransaction.producer_id e]} ∪ dis) Hs') as (H1 & H2 & H3).
      split_and!; [done| |].
      * intros x. rewrite H2, elem_of_cons. split; [tauto|].
        intros [[->|] ?]; [lia|done].
      * intros p. rewrite H3, fmap_cons, elem_of_union, elem_of_singleton. split.
        -- intros [[->|Hp]|(f & Hf & Hin)].
           ++ right. exists (AbortedTransaction.first_offset e). split; [done|].
              by apply list_elem_of_here.
           ++ by left.
           ++ right. exists f. split; [done|]. by apply list_elem_of_further.
        -- intros [Hp|(f & Hf & Hin)]; [by left; right|].
           apply elem_of_cons in Hin as [[= -> ->]|Hin]; [by left; left|].
           right. by exists f.
    + assert (∀ x, x ∈ e :: q → last < AbortedTransaction.first_offset x) as Hgt.
      { intros x Hx. apply elem_of_cons in Hx as [->|Hx]; [done|].
        pose proof (proj1 (Forall_forall _ _) Hall x Hx) as Hle. unfold first_offset_le in Hle. lia. }
      cbn [fst snd]. split_and!; [done| |].
      * intros x. split; [by auto|tauto].
      * intros p. split; [by left|]. intros [|(f & Hf & Hin)]; [done|].
        apply list_elem_of_fmap in Hin as (x & Hx & Hin%Hgt). injection Hx as -> ->. lia.
Qed.

(** The filter against the index, where the rest of the log starts at [lo]:
    disowned, or about to be, are the producers whose open transaction ends
    aborted; queued are the transactions that are still to begin. *)
Record tracks (open : gmap Z Z) (lo hi : Z) (log : list RecordBatch) (f : BatchFilter) : Prop :=
  mkTracks {
  tracks_committed : read_committed f = true;
  tracks_sorted : StronglySorted first_offset_le (aborted f);
  tracks_open : ∀ p first, open !! p = Some first → first < lo;
  tracks_disowned : ∀ p,
    (p ∈ disowned f ∨ ∃ first, first < lo ∧ (p, first) ∈ entry_of <$> aborted f) ↔
    (is_Some (open !! p) ∧ ends_aborted p log = true);
  tracks_queue : ∀ p first, lo ≤ first ≤ hi →
    ((p, first) ∈ entry_of <$> aborted f ↔ (p, first) ∈ abort_index open log);
}.

(** The open transactions after a batch. *)
Definition open_after (open : gmap Z Z) (b : RecordBatch) : gmap Z Z :=
  if is_control b then delete (producer_id b) open
  else if is_transactional b then
    match open !! producer_id b with Some _ => open | None => <[producer_id b := base_offset b]> open end
  else open.

Lemma abort_index_step open b log p first :
  (p, first) ∈ abort_index open (b :: log) ↔
  (is_control b = true ∧ is_abort_marker b = true ∧ p = producer_id b ∧ open !! p = Some first) ∨
  (p, first) ∈ abort_index (open_after open b) log.
Proof.
  cbn [abort_index]. unfold open_after. destruct (is_control b).
  - destruct (open !! producer_id b) as [f|] eqn:Ho.
    + destruct (is_abort_marker b); [rewrite elem_of_cons|]; naive_solver.
    + rewrite delete_id by done. naive_solver.
  - destruct (is_transactional b); naive_solver.
Qed.

Lemma open_after_Some open b p first :
  open_after open b !! p = Some first →
  open !! p = Some first ∨
  (is_control b = false ∧ is_transactional b = true ∧ p = producer_id b ∧
   open !! p = None ∧ first = base_offset b).
Proof.
  unfold open_after. destruct (is_control b).
  - intros [_ ?]%lookup_delete_Some. by left.
  - destruct (is_transactional b); [|by left].
    destruct (open !! producer_id b) eqn:Ho; [by left|].
    intros [[<- <-]|[_ ?]]%lookup_insert_Some; [by right|by left].
Qed.

Section step.
Context (open : gmap Z Z) (lo hi : Z) (b : RecordBatch) (log : list RecordBatch) (f : BatchFilter).
Context (Hlog : log_from lo (b :: log)) (Hhi : batch_last b ≤ hi).
Context (Ht : tracks open lo hi (b :: log) f).

Definition starts_at (p : Z) : Prop :=
  is_control b = false ∧ is_transactional b = true ∧ p = producer_id b ∧ open !! p = None.

(** A transaction whose first offset the batch covers begins with it. *)
Lemma first_seen p first :
  lo ≤ first ≤ batch_last b →
  ((p, first) ∈ abort_index open (b :: log) ↔
   starts_at p ∧ first = base_offset b ∧ ends_aborted p log = true).
Proof.
  intros Hf. rewrite abort_index_step. destruct Hlog as (Hlo & _ & Hl). split.
  - intros [(_ & _ & _ & Ho%(tracks_open _ _ _ _ _ Ht))|H]; [lia|].
    destruct (abort_index_elem _ _ _ _ _ Hl H) as [[Ho He]|]; [|lia].
    apply open_after_Some in Ho as [Ho|(? & ? & ? & ? & ?)];
      [apply (tracks_open _ _ _ _ _ Ht) in Ho; lia|done].
  - intros ((Hc & Htr & -> & Ho) & -> & He). right. apply abort_index_open; [|done].
    unfold open_after. by rewrite Hc, Htr, Ho, lookup_insert_eq.
Qed.

(** Who is disowned once the entries the batch reaches are entered. *)
Lemma seen_by p :
  (p ∈ disowned f ∨ ∃ first, first ≤ batch_last b ∧ (p, first) ∈ entry_of <$> aborted f) ↔
  (is_Some (open !! p) ∧ ends_aborted p (b :: log) = true) ∨
  (starts_at p ∧ ends_aborted p log = true).
Proof.
  rewrite <- (tracks_disowned _ _ _ _ _ Ht). destruct Hlog as (Hlo & _ & _). split.
  - intros [Hd|(first & Hf & Hin)]; [by left; left|].
    destruct (decide (first < lo)) as [Hlt|Hge]; [left; right; by exists first|].
    right. apply (tracks_queue _ _ _ _ _ Ht) in Hin; [|lia].
    apply first_seen in Hin as (? & _ & ?); [done|lia].
  - intros [[Hd|(first & Hf & Hin)]|[Hs He]]; [by left|right; exists first; split; [lia|done]|].
    right. exists (base_offset b). split; [lia|].
    apply (tracks_queue _ _ _ _ _ Ht); [lia|]. by apply first_seen; [lia|].
Qed.

(** [keeps] after the entries are entered. *)
Lemma keeps_entered :
  ∃ f1, keeps f b =
    (if is_control b
     then (false, if is_abort_marker b
                  then mkBatchFilter (aborted f1) (disowned f1 ∖ {[producer_id b]}) true else f1)
     else (negb (is_transactional b && bool_decide (producer_id b ∈ disowned f1)), f1)) ∧
    read_committed f1 = true ∧ StronglySorted first_offset_le (aborted f1) ∧
    (∀ p first, batch_last b < first →
       ((p, first) ∈ entry_of <$> aborted f1 ↔ (p, first) ∈ entry_of <$> aborted f)) ∧
    (0 ≤ producer_id b →
       (∀ p, p ∈ disowned f1 ↔ p ∈ disowned f ∨
          ∃ first, first ≤ batch_last b ∧ (p, first) ∈ entry_of <$> aborted f) ∧
       ∀ p first, (p, first) ∈ entry_of <$> aborted f1 → batch_last b < first) ∧
    (producer_id b < 0 → f1 = f).
Proof.
  unfold keeps. rewrite (tracks_committed _ _ _ _ _ Ht). cbn [andb].
  destruct (Z.leb_spec 0 (producer_id b)) as [Hp|Hp].
  - pose proof (enter_runs_spec (batch_last b) (aborted f) (disowned f)
      (tracks_sorted _ _ _ _ _ Ht)) as (H1 & H2 & H3).
    destruct (enter_runs _ _ _) as [q dis]. cbn [fst snd read_committed aborted disowned] in *.
    exists (mkBatchFilter q dis true). cbn [read_committed aborted disowned].
    split_and!; [by destruct (is_control b), (is_abort_marker b)|done|done| | |lia].
    + intros p first Hl. rewrite !list_elem_of_fmap. split.
      * intros (e & ? & ?%H2). exists e. naive_solver.
      * intros (e & He & Hin). exists e. split; [done|]. apply H2. split; [done|].
        by injection He as -> ->.
    + intros _. split; [done|].
      intros p first (e & He & [_ ?]%H2)%list_elem_of_fmap. by injection He as -> ->.
  - exists f. rewrite (tracks_committed _ _ _ _ _ Ht).
    split_and!; [by destruct (is_control b)|done|apply Ht|done|lia|done].
Qed.

Lemma open_after_ends p :
  is_control b = false →
  (is_Some (open_after open b !! p) ∧ ends_aborted p log = true ↔
   (is_Some (open !! p) ∧ ends_aborted p (b :: log) = true) ∨
   (starts_at p ∧ ends_aborted p log = true)).
Proof.
  intros Hc. cbn [ends_aborted]. unfold starts_at. rewrite Hc. cbn [andb]. split.
  - intros [[first Ho] He]. apply open_after_Some in Ho as [Ho|(? & ? & ? & ? & ?)];
      [left; by rewrite Ho|by right].
  - unfold open_after. rewrite Hc. intros [[Ho He]|[(_ & Htr & -> & Ho) He]].
    + split; [|done]. destruct (is_transactional b); [|done].
      destruct (open !! producer_id b) eqn:Hb; [done|].
      rewrite lookup_insert_ne; [done|]. intros <-. rewrite Hb in Ho. by destruct Ho.
    + by rewrite Htr, Ho, lookup_insert_eq.
Qed.

End step.

(** One batch: the verdict, and the filter goes on tracking the index. *)
Lemma tracks_step open lo hi b log f :
  log_from lo (b :: log) → batch_last b ≤ hi → tracks open lo hi (b :: log) f →
  (keeps f b).1 =
    negb (is_control b || (is_transactional b && ends_aborted (producer_id b) log)) ∧
  tracks (open_after open b) (batch_last b + 1) hi log (keeps f b).2.
Proof.
  intros Hlog Hhi Ht.
  pose proof (seen_by _ _ _ _ _ _ Hlog Hhi Ht) as Hseen.
  destruct (keeps_entered _ _ _ _ _ _ Hlog Ht) as (f1 & -> & Hrc & Hs & Hq & Hd & Hsame).
  pose proof Hlog as (Hlo & Hpid & Hl).
  assert (∀ p first, open_after open b !! p = Some first → first < batch_last b + 1) as Hopen.
  { intros p first [Ho%(tracks_open _ _ _ _ _ Ht)|(_ & _ & _ & _ & ->)]%open_after_Some; lia. }
  assert (∀ p first, batch_last b + 1 ≤ first ≤ hi →
    ((p, first) ∈ entry_of <$> aborted f1 ↔ (p, first) ∈ abort_index (open_after open b) log)) as Hidx.
  { intros p first Hf. rewrite Hq by lia.
    rewrite (tracks_queue _ _ _ _ _ Ht) by lia. rewrite abort_index_step. split; [|by right].
    intros [(_ & _ & _ & Ho%(tracks_open _ _ _ _ _ Ht))|]; [lia|done]. }
  destruct (is_control b) eqn:Hc; cbn [orb negb fst snd].
  - destruct (Hd (Hpid eq_refl)) as [Hdis Hgt]. split; [done|].
    assert (∀ first p, first < batch_last b + 1 → (p, first) ∉ entry_of <$> aborted f1) as Hnone.
    { intros first p Hf Hin%Hgt. lia. }
    assert (∀ p, p ∈ disowned f1 ↔ is_Some (open !! p) ∧ ends_aborted p (b :: log) = true) as Hdis'.
    { intros p. rewrite Hdis, Hseen. unfold starts_at. rewrite Hc. naive_solver. }
    cbn [ends_aborted] in Hdis'. rewrite Hc in Hdis'. cbn [andb] in Hdis'.
    assert (∀ p, (p ∈ disowned f1 ∧ (is_abort_marker b = true → p ≠ producer_id b)) ↔
      is_Some (open_after open b !! p) ∧ ends_aborted p log = true) as Hnew.
    { intros p. rewrite Hdis'. unfold open_after. rewrite Hc.
      destruct (Z.eqb_spec (producer_id b) p) as [->|Hne].
      - rewrite lookup_delete_eq. split; [naive_solver|]. intros [[? [=]] _].
      - rewrite lookup_delete_ne by done. naive_solver. }
    destruct (is_abort_marker b).
    + constructor; cbn [read_committed aborted disowned]; try done.
      intros p. rewrite <- Hnew, elem_of_difference, elem_of_singleton. split.
      * intros [[? ?]|(first & Hf & Hin)]; [done|]. by apply Hnone in Hin.
      * intros [? ?]. left. auto.
    + constructor; try done. intros p. rewrite <- Hnew. split.
      * intros [?|(first & Hf & Hin)]; [done|]. by apply Hnone in Hin.
      * intros [? _]. by left.
  - assert (∀ p, (p ∈ disowned f1 ∨
        ∃ first, first < batch_last b + 1 ∧ (p, first) ∈ entry_of <$> aborted f1) ↔
      is_Some (open_after open b !! p) ∧ ends_aborted p log = true) as Hnew.
    { intros p. rewrite (open_after_ends open b log p) by done. rewrite <- Hseen.
      destruct (decide (0 ≤ producer_id b)) as [Hp|Hp].
      - destruct (Hd Hp) as [Hdis Hgt]. rewrite Hdis. split; [|by left].
        intros [?|(first & Hf & Hin%Hgt)]; [done|lia].
      - rewrite Hsame by lia. apply or_iff_compat_l.
        split; intros (first & ? & ?); exists first; (split; [lia|done]). }
    split; [|by constructor].
    destruct (is_transactional b) eqn:Htr; cbn [andb]; [|done]. f_equal.
    destruct (Hd (Hpid eq_refl)) as [Hdis _].
    assert (producer_id b ∈ disowned f1 ↔ ends_aborted (producer_id b) log = true) as Hiff.
    { rewrite Hdis, Hseen. cbn [ends_aborted]. rewrite Hc. cbn [andb]. unfold starts_at.
      destruct (open !! producer_id b) eqn:Ho; naive_solver. }
    destruct (ends_aborted (producer_id b) log);
      [apply bool_decide_eq_true|apply bool_decide_eq_false]; naive_solver.
Qed.

Lemma surfaced_committed after seg : ∀ open lo hi f,
  log_from lo (seg ++ after) → Forall (λ b, batch_last b ≤ hi) seg →
  tracks open lo hi (seg ++ after) f → surfaced f seg = committed seg after.
Proof.
  induction seg as [|b seg IH]; intros open lo hi f Hlog Hhi Ht; [done|].
  inversion Hhi as [|? ? Hb Hhi']; subst. cbn [surfaced committed app] in *.
  destruct (tracks_step _ _ _ _ _ _ Hlog Hb Ht) as [Hk Ht'].
  destruct Hlog as (_ & _ & Hlog). specialize (IH _ _ _ _ Hlog Hhi' Ht').
  destruct (keeps f b) as [kept f']. cbn [fst snd] in *. rewrite Hk, IH.
  by destruct (is_control b || _).
Qed.

Lemma batch_last_max seg :
  seg ≠ [] → ∃ m, m ∈ seg ∧ Forall (λ b, batch_last b ≤ batch_last m) seg.
Proof.
  induction seg as [|b seg IH]; [done|]. intros _. destruct seg as [|b' seg].
  - exists b. split; [by apply list_elem_of_here|]. repeat constructor. done.
  - destruct IH as (m & Hm & Hall); [done|].
    destruct (Z.le_ge_cases (batch_last b) (batch_last m)).
    + exists m. split; [by apply list_elem_of_further|]. by constructor.
    + exists b. split; [by apply list_elem_of_here|]. constructor; [done|].
      apply (Forall_impl _ _ _ Hall). lia.
Qed.

Lemma elem_of_fresh e aborted :
  e ∈ entry_of <$> merge_sort first_offset_le aborted ↔ ∃ x, x ∈ aborted ∧ entry_of x = e.
Proof.
  rewrite (merge_sort_Permutation first_offset_le aborted), list_elem_of_fmap. naive_solver.
Qed.

(** A filter fresh from an honest list surfaces what is committed. *)
Lemma fresh_filter_committed open lo seg after aborted :
  log_from lo (seg ++ after) → (∀ p first, open !! p = Some first → first < lo) →
  honest_aborts open seg after aborted →
  surfaced (new_filter ReadCommitted (Some aborted)) seg = committed seg after.
Proof.
  intros Hlog Hopen [Hsound Hcomplete].
  destruct (decide (seg = [])) as [->|Hne]; [done|].
  destruct (batch_last_max seg Hne) as (m & Hm & Hall).
  assert (lo ≤ batch_last m) as Hlo.
  { destruct seg as [|b seg]; [done|]. destruct Hlog as (? & _).
    inversion Hall as [|? ? Hb _]; subst. lia. }
  apply (surfaced_committed _ _ open lo (batch_last m)); [done|done|].
  assert (∀ p first, (p, first) ∈ entry_of <$> merge_sort first_offset_le aborted →
    (p, first) ∈ abort_index open (seg ++ after)) as Hin.
  { intros p first (e & He%Hsound & <-)%elem_of_fresh. done. }
  assert (∀ p first, (p, first) ∈ abort_index open (seg ++ after) → first ≤ batch_last m →
    (p, first) ∈ entry_of <$> merge_sort first_offset_le aborted) as Hout.
  { intros p first Hi Hf. apply elem_of_fresh. apply Hcomplete; [done|by exists m]. }
  constructor; cbn; [done|by apply (StronglySorted_merge_sort _)|done| |].
  - intros p. split.
    + intros [Hp|(first & Hf & Hi%Hin)]; [set_solver|].
      destruct (abort_index_elem _ _ _ _ _ Hlog Hi) as [[-> ?]|]; [done|lia].
    + intros [[first Ho] He]. right. exists first. split; [by eapply Hopen|].
      apply Hout; [by apply abort_index_open|]. apply Hopen in Ho. lia.
  - intros p first Hf. split; [apply Hin|]. intros Hi. apply Hout; [done|lia].
Qed.

Lemma uncommitted_surfaced f bs :
  read_committed f = false → surfaced f bs = base.filter (λ b, is_control b = false) bs.
Proof.
  intros Hf. induction bs as [|b bs IH]; [done|]. cbn [surfaced]. rewrite filter_cons.
  assert (keeps f b = (negb (is_control b), f)) as ->.
  { unfold keeps. rewrite !Hf. cbn [andb]. rewrite Hf. by destruct (is_control b). }
  destruct (is_control b) eqn:Hc; cbn [negb]; rewrite IH.
  - by rewrite decide_False by done.
  - by rewrite decide_True by done.
Qed.

(** ** Theorems *)

(** C4: a read-committed fetch that returns has the records of exactly the
    batches that belong to no transaction or to a committed one: no record of
    an aborted transaction, whether it began before the fetched stretch or
    ends after it, no control record, and every other one, in log order —
    given the abort list the broker owes for the stretch, in any order. *)
Theorem read_committed_is_exact {R : Runtime}
    (decompress : Compression → list byte → result ClientError (list byte)) {A}
    (c : ConsumerConfig) (map : ConsumedRecord → A) (topic : string) (partition offset : Z)
    (r : FetchResponse.t) (entry : PartitionData.t) (seg after : list RecordBatch)
    (rest : list byte) (aborted : list AbortedTransaction.t) (open : gmap Z Z) (lo : Z)
    (fr : FetchResult A) :
  isolation_level c = ReadCommitted →
  fetched_partition topic partition r = Some entry →
  decode_set (default [] (PartitionData.records entry)) = Ok (seg, rest) →
  PartitionData.aborted_transactions entry = Some aborted →
  log_from lo (seg ++ after) → (∀ p first, open !! p = Some first → first < lo) →
  honest_aborts open seg after aborted →
  read_fetch decompress c map topic partition offset r = Ok fr →
  ∃ outs, Forall2 (materialized decompress offset) (committed seg after) outs ∧
          fetched fr = map <$> concat outs.
Proof.
  intros Hc He Hd Ha Hlog Hopen Hh Hr.
  apply read_fetch_ok in Hr as (entry' & bs & rest' & out & next & He' & Hd' & Ht & ->).
  rewrite He in He'. injection He' as <-. rewrite Hd in Hd'. injection Hd' as <- <-.
  apply take_batches_ok in Ht as (_ & _ & _ & outs & Ho & ->).
  rewrite Hc, Ha, (fresh_filter_committed open lo seg after) in Ho by done. by exists outs.
Qed.

(** A fetch that returns holds at most [max_fetch_records] records, all
    at or past the requested offset, and the offset to fetch next never goes
    back; under read-uncommitted its records are those of every batch that is
    not a control batch. *)
Theorem fetch_is_bounded {R : Runtime}
    (decompress : Compression → list byte → result ClientError (list byte))
    (c : ConsumerConfig) (topic : string) (partition offset : Z)
    (r : FetchResponse.t) (fr : FetchResult ConsumedRecord) :
  read_fetch decompress c id topic partition offset r = Ok fr →
  len (fetched fr) ≤ Z.max 0 (max_fetch_records c) ∧
  Forall (λ x, offset ≤ record_offset x) (fetched fr) ∧
  offset ≤ next_offset fr ∧
  (isolation_level c = ReadUncommitted →
   ∃ entry bs rest outs, fetched_partition topic partition r = Some entry ∧
     decode_set (default [] (PartitionData.records entry)) = Ok (bs, rest) ∧
     Forall2 (materialized decompress offset) (base.filter (λ b, is_control b = false) bs) outs ∧
     fetched fr = concat outs).
Proof.
  intros (entry & bs & rest & out & next & He & Hd & Ht & ->)%read_fetch_ok.
  apply take_batches_ok in Ht as (? & ? & ? & outs & Ho & ->). cbn [fetched next_offset].
  rewrite list_fmap_id. split_and!; [done..|]. intros Hi. exists entry, bs, rest, outs.
  rewrite uncommitted_surfaced in Ho by (by rewrite Hi). done.
Qed.

(** *** Witnesses *)

(** A response that carries one partition of one topic. *)
Definition reply_entry (partition : Z) (aborted : option (list AbortedTransaction.t))
    (records : list byte) : PartitionData.t :=
  let d := PartitionData.default in
  PartitionData.mk partition 0 (PartitionData.high_watermark d) (PartitionData.last_stable_offset d)
    (PartitionData.log_start_offset d) aborted (PartitionData.preferred_read_replica d)
    (Some records) (PartitionData.diverging_epoch d) (PartitionData.current_leader d)
    (PartitionData.snapshot_id d) (PartitionData.unknown_tagged_fields d).

Definition reply (topic : string) (entry : PartitionData.t) : FetchResponse.t :=
  let t := FetchableTopicResponse.default in
  let d := FetchResponse.default in
  FetchResponse.mk (FetchResponse.throttle_time_ms d) 0 (FetchResponse.session_id d)
    [FetchableTopicResponse.mk topic (FetchableTopicResponse.topic_id t) [entry]
       (FetchableTopicResponse.unknown_tagged_fields t)]
    (FetchResponse.node_endpoints d) (FetchResponse.unknown_tagged_fields d).

#[local] Existing Instance plain_runtime.

Definition txn_batch (offset pid attributes : Z) (r : KRecord) : RecordBatch :=
  mkRecordBatch offset 0 attributes 0 1000 1000 pid 0 0 (Plain [r]).
Definition marker_record (kind : byte) : KRecord :=
  mkKRecord 0 0 0 (Some [Byte.x00; Byte.x00; Byte.x00; kind]) (Some []) [].

(** Producer 7's transaction began at 3 and is aborted at 6; producer 8's,
    begun at 5, is committed after the stretch. *)
Definition sample_stretch : list RecordBatch :=
  [txn_batch 4 7 16 sample_record; txn_batch 5 8 16 sample_record;
   txn_batch 6 7 48 (marker_record Byte.x00); txn_batch 7 7 16 sample_record].
Definition sample_after : list RecordBatch :=
  [txn_batch 8 8 48 (marker_record Byte.x01); txn_batch 9 7 48 (marker_record Byte.x01)].

Definition sample_reply : FetchResponse.t :=
  reply "t" (reply_entry 0 (Some [AbortedTransaction.mk 7 3 []])
               (concat (batch_wire <$> sample_stretch))).

Definition no_codec (c : Compression) (data : list byte) : result ClientError (list byte) := Ok data.

Definition committed_reader : ConsumerConfig := mkConsumerConfig 500 1 1000 20 250 100 ReadCommitted.

Lemma read_committed_is_exact_witness :
  committed sample_stretch sample_after =
    [txn_batch 5 8 16 sample_record; txn_batch 7 7 16 sample_record] ∧
  ∃ fr, read_fetch no_codec committed_reader id "t" 0 0 sample_reply = Ok fr ∧
  ∃ outs, Forall2 (materialized no_codec 0) (committed sample_stretch sample_after) outs ∧
          fetched fr = id <$> concat outs.
Proof.
  split; [vm_compute; reflexivity|].
  destruct (read_fetch no_codec committed_reader id "t" 0 0 sample_reply) as [fr|e] eqn:E;
    [|vm_compute in E; discriminate].
  exists fr. split; [reflexivity|].
  refine (read_committed_is_exact no_codec committed_reader id "t" 0 0 sample_reply _
    sample_stretch sample_after [] [AbortedTransaction.mk 7 3 []] {[7 := 3]} 4 fr
    eq_refl eq_refl _ eq_refl _ _ _ E).
  - vm_compute; reflexivity.
  - vm_compute. split_and!; (done || discriminate || (intros; discriminate)).
  - intros p first [<- <-]%lookup_singleton_Some. done.
  - assert (abort_index {[7 := 3]} (sample_stretch ++ sample_after) = [(7, 3)]) as Hi
      by (vm_compute; reflexivity).
    split; rewrite Hi.
    + intros e ->%list_elem_of_singleton. by apply list_elem_of_singleton.
    + intros p first [= -> ->]%list_elem_of_singleton _. eexists.
      split; [by apply list_elem_of_singleton|reflexivity].
Defined.

Lemma fetch_is_bounded_witness :
  ∃ fr, read_fetch no_codec committed_reader id "t" 0 5 sample_reply = Ok fr ∧
  len (fetched fr) ≤ 100 ∧ Forall (λ x, 5 ≤ record_offset x) (fetched fr) ∧ next_offset fr = 8.
Proof.
  destruct (read_fetch no_codec committed_reader id "t" 0 5 sample_reply) as [fr|e] eqn:E;
    [|vm_compute in E; discriminate].
  exists fr. destruct (fetch_is_bounded no_codec committed_reader "t" 0 5 sample_reply fr E)
    as (H1 & H2 & _). split_and!; [reflexivity|exact H1|exact H2|].
  vm_compute in E. injection E as <-. reflexivity.
Defined.
