(* ===== verification/Compression.v ===== *)
(** * Record batch compression ([odradek-client/src/compression.rs])

    Which codec a payload goes through, the size cap on what comes out, and the
    xerial framing of snappy blocks.  The codecs themselves are other crates':
    the class [Codecs] has what the code calls of them and [CodecLaws] what
    their documentation promises. *)
From S2P Require Import Prelude Budget Codec Wire Frame Records ClientError.

(** A [Read]: the bytes it yields, and the error it ends with, if any. *)
Record Reader : Type := mkReader {
  yields : list byte;
  stops : option string;
}.

(** [reader.take(limit).read_to_end(..)]: an error past the limit is never
    met. *)
Definition take_read_to_end (limit : Z) (r : Reader) : result string (list byte) :=
  if limit <=? len (yields r) then Ok (take (Z.to_nat limit) (yields r))
  else match stops r with
       | Some e => Err e
       | None => Ok (yields r)
       end.

(** The features of the crate, and [flate2], [lz4_flex], [snap] and [zstd]. *)
Class Codecs : Type := mkCodecs {
  gzip_enabled : bool;
  lz4_enabled : bool;
  snappy_enabled : bool;
  zstd_enabled : bool;
  GzEncoder : Type;
  gz_write_all : list byte → result string GzEncoder;
  gz_finish : GzEncoder → result string (list byte);
  gz_decoder : list byte → Reader;
  Lz4Encoder : Type;
  lz4_write_all : list byte → result string Lz4Encoder;
  lz4_finish : Lz4Encoder → result string (list byte);
  lz4_decoder : list byte → Reader;
  snap_compress_vec : list byte → result string (list byte);
  snap_decompress_len : list byte → result string Z;
  snap_decompress_vec : list byte → result string (list byte);
  zstd_encode_all : list byte → result string (list byte);
  zstd_decoder : list byte → result string Reader;
}.

(** What was compressed decompresses to itself, and a snappy block says how
    long its contents are. *)
Class CodecLaws `{Codecs} : Prop := mkCodecLaws {
  gz_law data e packed : gz_write_all data = Ok e → gz_finish e = Ok packed →
    gz_decoder packed = mkReader data None;
  lz4_law data e packed : lz4_write_all data = Ok e → lz4_finish e = Ok packed →
    lz4_decoder packed = mkReader data None;
  snap_law data packed : snap_compress_vec data = Ok packed → snap_decompress_vec packed = Ok data;
  snap_len_law packed data : snap_decompress_vec packed = Ok data →
    snap_decompress_len packed = Ok (len data);
  zstd_law data packed : zstd_encode_all data = Ok packed →
    zstd_decoder packed = Ok (mkReader data None);
}.

Definition MAX_DECOMPRESSED : Z := DEFAULT_MAX_FRAME.

Definition XERIAL_HEADER : list byte :=
  byte_of_Z <$> [0x82; 83; 78; 65; 80; 80; 89; 0; 0; 0; 0; 1; 0; 0; 0; 1].

Definition XERIAL_BLOCK : Z := Z.shiftl 32 10.

(** [slice::chunks]: every chunk takes at least one byte, so the length is
    fuel enough. *)
Fixpoint chunks_from (fuel : nat) (n : Z) (l : list byte) : list (list byte) :=
  match fuel, l with
  | _, [] => []
  | O, _ => []
  | S fuel, _ => take (Z.to_nat n) l :: chunks_from fuel n (drop (Z.to_nat n) l)
  end.
Definition chunks (n : Z) (l : list byte) : list (list byte) := chunks_from (length l) n l.

Definition truncated_block : ClientError := ProtocolViolation "truncated xerial block".
Definition past_the_cap : ClientError := ProtocolViolation "decompressed batch exceeds size cap".

Section compression.
Context `{Codecs}.

Definition snappy_err (e : string) : ClientError := ProtocolViolation ("snappy decode: " +:+ e).

(** The loop over the chunks. *)
Fixpoint put_blocks (cs : list (list byte)) : result ClientError (list byte) :=
  match cs with
  | [] => Ok []
  | chunk :: cs =>
      let? block := map_err (λ e, ProtocolViolation ("snappy encode: " +:+ e)) (snap_compress_vec chunk) in
      let? n := ok_or (ProtocolViolation "snappy block too large") (try_from 0 u32_max (len block)) in
      let? rest := put_blocks cs in
      Ok (be_bytes 4 n ++ block ++ rest)
  end.

Definition compress (codec : Compression) (payload : list byte) : result ClientError (list byte) :=
  match codec with
  | Compression_None => Ok payload
  | Gzip =>
      if gzip_enabled then
        let? encoder := map_err Io (gz_write_all payload) in
        map_err Io (gz_finish encoder)
      else Err (UnsupportedCompression "gzip (feature disabled)")
  | Lz4 =>
      if lz4_enabled then
        let? encoder := map_err Io (lz4_write_all payload) in
        map_err (λ e, ProtocolViolation ("lz4 encode: " +:+ e)) (lz4_finish encoder)
      else Err (UnsupportedCompression "lz4 (feature disabled)")
  | Snappy =>
      if snappy_enabled then
        let? blocks := put_blocks (chunks XERIAL_BLOCK payload) in
        Ok (XERIAL_HEADER ++ blocks)
      else Err (UnsupportedCompression "snappy (feature disabled)")
  | Zstd =>
      if zstd_enabled then map_err Io (zstd_encode_all payload)
      else Err (UnsupportedCompression "zstd (feature disabled)")
  | Unknown _ => Err (UnsupportedCompression "unknown codec")
  end.

Definition capped_read_to_end (r : Reader) : result ClientError (list byte) :=
  let? out := map_err Io (take_read_to_end (MAX_DECOMPRESSED + 1) r) in
  if MAX_DECOMPRESSED <? len out then Err past_the_cap else Ok out.

(** The loop over the blocks; each takes at least its four length bytes. *)
Fixpoint read_blocks (fuel : nat) (rest out : list byte) : result ClientError (list byte) :=
  match fuel, rest with
  | _, [] => Ok out
  | O, _ => Ok out
  | S fuel, _ =>
      if len rest <? 4 then Err truncated_block
      else
        let n := be_val (take 4 rest) in
        let tail := drop 4 rest in
        if len tail <? n then Err truncated_block
        else
          let block := take (Z.to_nat n) tail in
          let rest := drop (Z.to_nat n) tail in
          let? uncompressed := map_err snappy_err (snap_decompress_len block) in
          if MAX_DECOMPRESSED <? len out + uncompressed then Err past_the_cap
          else
            let? data := map_err snappy_err (snap_decompress_vec block) in
            read_blocks fuel rest (out ++ data)
  end.

Definition snappy_decompress (payload : list byte) : result ClientError (list byte) :=
  if (len payload <? len XERIAL_HEADER) || bool_decide (take 8 payload ≠ take 8 XERIAL_HEADER) then
    let? uncompressed := map_err snappy_err (snap_decompress_len payload) in
    if MAX_DECOMPRESSED <? uncompressed then Err past_the_cap
    else map_err snappy_err (snap_decompress_vec payload)
  else
    let rest := drop (length XERIAL_HEADER) payload in
    read_blocks (length rest) rest [].

Definition decompress (codec : Compression) (payload : list byte) : result ClientError (list byte) :=
  match codec with
  | Compression_None => Ok payload
  | Gzip =>
      if gzip_enabled then capped_read_to_end (gz_decoder payload)
      else Err (UnsupportedCompression "gzip (feature disabled)")
  | Lz4 =>
      if lz4_enabled then capped_read_to_end (lz4_decoder payload)
      else Err (UnsupportedCompression "lz4 (feature disabled)")
  | Snappy =>
      if snappy_enabled then snappy_decompress payload
      else Err (UnsupportedCompression "snappy (feature disabled)")
  | Zstd =>
      if zstd_enabled then
        let? decoder := map_err Io (zstd_decoder payload) in
        capped_read_to_end decoder
      else Err (UnsupportedCompression "zstd (feature disabled)")
  | Unknown _ => Err (UnsupportedCompression "unknown codec")
  end.

(** ** The loops *)

(** The first comparison of the goal fails. *)
Ltac ltb_false :=
  match goal with |- context [?a <? ?b] => destruct (Z.ltb_spec a b); [exfalso; lia|] end.

Lemma chunks_from_concat n fuel : ∀ l, 0 < n → (length l ≤ fuel)%nat → concat (chunks_from fuel n l) = l.
Proof.
  induction fuel as [|fuel IH]; intros l Hn Hl; destruct l as [|b l]; try done; [cbn in Hl; lia|].
  cbn [chunks_from]. rewrite concat_cons, IH, take_drop; [done|done|].
  rewrite length_drop. cbn [length] in *. lia.
Qed.

Lemma chunks_concat n l : 0 < n → concat (chunks n l) = l.
Proof. intros Hn. by apply chunks_from_concat. Qed.

Lemma put_blocks_cons c cs ws : put_blocks (c :: cs) = Ok ws →
  ∃ block rest, snap_compress_vec c = Ok block ∧ len block ≤ u32_max ∧
    put_blocks cs = Ok rest ∧ ws = be_bytes 4 (len block) ++ block ++ rest.
Proof.
  cbn [put_blocks]. intros E. apply res_bind_ok in E as (block & Hb & E).
  apply res_bind_ok in E as (n & Hn & E). apply res_bind_ok in E as (rest & Hr & [= <-]).
  destruct (snap_compress_vec c) as [block'|]; [|done]. injection Hb as ->.
  destruct (try_from 0 u32_max (len block)) as [n'|] eqn:E; [|done]. injection Hn as ->.
  apply try_from_Some in E as [-> ?]. exists block, rest. split_and!; (done || lia).
Qed.

(** One whole block is taken off. *)
Lemma read_blocks_block `{!CodecLaws} fuel c block rest out :
  snap_compress_vec c = Ok block → len block ≤ u32_max → len out + len c ≤ MAX_DECOMPRESSED →
  read_blocks (S fuel) (be_bytes 4 (len block) ++ block ++ rest) out = read_blocks fuel rest (out ++ c).
Proof.
  intros Hc Hlen Hcap. pose proof (snap_law _ _ Hc) as Hd. pose proof (snap_len_law _ _ Hd) as Hn.
  assert (∃ b bs, be_bytes 4 (len block) = b :: bs) as (b & bs & Hcons) by (cbn; eauto).
  cbn [read_blocks].
  destruct (be_bytes 4 (len block) ++ block ++ rest) as [|x xs] eqn:E; [by rewrite Hcons in E|].
  rewrite <- E. clear x xs E b bs Hcons.
  rewrite !length_app, be_bytes_length.
  ltb_false.
  rewrite take_app_exact, drop_app_exact by (by rewrite be_bytes_length).
  rewrite be_val_bytes. rewrite Z.mod_small by (change (256 ^ Z.of_nat 4) with (u32_max + 1); lia).
  rewrite length_app. ltb_false.
  rewrite take_app_exact, drop_app_exact by lia. rewrite Hn, Hd. cbn [map_err res_bind].
  by ltb_false.
Qed.

Lemma read_blocks_put `{!CodecLaws} cs : ∀ ws fuel out,
  put_blocks cs = Ok ws → len out + len (concat cs) ≤ MAX_DECOMPRESSED → (length ws ≤ fuel)%nat →
  read_blocks fuel ws out = Ok (out ++ concat cs).
Proof.
  induction cs as [|c cs IH]; intros ws fuel out Hws Hcap Hfuel.
  - injection Hws as <-. rewrite app_nil_r. by destruct fuel.
  - apply put_blocks_cons in Hws as (block & rest & Hc & Hlen & Hrest & ->).
    rewrite concat_cons, length_app in *. rewrite !length_app, be_bytes_length in Hfuel.
    destruct fuel as [|fuel]; [lia|]. rewrite (read_blocks_block fuel c) by (done || lia).
    rewrite (IH rest), app_assoc; [done|done| |lia]. rewrite length_app. lia.
Qed.

Lemma read_capped data : len data ≤ MAX_DECOMPRESSED → capped_read_to_end (mkReader data None) = Ok data.
Proof.
  intros Hcap. unfold capped_read_to_end, take_read_to_end. cbn [yields stops].
  destruct (Z.leb_spec (MAX_DECOMPRESSED + 1) (len data)); [lia|]. cbn [map_err res_bind].
  by ltb_false.
Qed.

Lemma snappy_header rest : snappy_decompress (XERIAL_HEADER ++ rest) = read_blocks (length rest) rest [].
Proof.
  unfold snappy_decompress. rewrite drop_app_exact by done.
  destruct (Z.ltb_spec (len (XERIAL_HEADER ++ rest)) (len XERIAL_HEADER)) as [Hl|_];
    [rewrite length_app in Hl; lia|].
  by rewrite bool_decide_false; [|intros Hne; by apply Hne].
Qed.

(** What [compress] makes of at most [MAX_DECOMPRESSED] bytes, [decompress]
    reads back. *)
Lemma compress_decompress `{!CodecLaws} codec data packed :
  len data ≤ MAX_DECOMPRESSED → compress codec data = Ok packed → decompress codec packed = Ok data.
Proof.
  intros Hcap Hc. destruct codec; cbn [compress decompress] in *; [by injection Hc as ->|..|done].
  - destruct gzip_enabled; [|done]. apply res_bind_ok in Hc as (e & He & Hc).
    apply map_err_ok in He, Hc. by rewrite (gz_law _ _ _ He Hc), read_capped.
  - destruct snappy_enabled; [|done]. apply res_bind_ok in Hc as (ws & Hws & Hp).
    assert (packed = XERIAL_HEADER ++ ws) as -> by congruence.
    rewrite snappy_header, (read_blocks_put _ _ _ _ Hws); [|rewrite chunks_concat; done|done].
    by rewrite chunks_concat.
  - destruct lz4_enabled; [|done]. apply res_bind_ok in Hc as (e & He & Hc).
    apply map_err_ok in He, Hc. by rewrite (lz4_law _ _ _ He Hc), read_capped.
  - destruct zstd_enabled; [|done]. apply map_err_ok in Hc.
    rewrite (zstd_law _ _ Hc). cbn [map_err res_bind]. by apply read_capped.
Qed.

(** ** What decompression allows *)

Lemma capped_read_within r out : capped_read_to_end r = Ok out → len out ≤ MAX_DECOMPRESSED.
Proof.
  unfold capped_read_to_end. intros E. apply res_bind_ok in E as (d & _ & E).
  destruct (Z.ltb_spec MAX_DECOMPRESSED (len d)); [done|]. by injection E as <-.
Qed.

Lemma read_blocks_within `{!CodecLaws} fuel : ∀ rest out data,
  read_blocks fuel rest out = Ok data → len out ≤ MAX_DECOMPRESSED → len data ≤ MAX_DECOMPRESSED.
Proof.
  induction fuel as [|fuel IH]; intros rest out data E Hout.
  - cbn in E. destruct rest; by injection E as <-.
  - cbn [read_blocks] in E. destruct rest as [|b rest]; [by injection E as <-|].
    destruct (len (b :: rest) <? 4); [done|]. cbv zeta in E.
    destruct (len (drop 4 (b :: rest)) <? be_val (take 4 (b :: rest))); [done|].
    apply res_bind_ok in E as (n & Hn%map_err_ok & E).
    destruct (Z.ltb_spec MAX_DECOMPRESSED (len out + n)) as [|Hfit]; [done|].
    apply res_bind_ok in E as (d & Hd%map_err_ok & E). apply IH in E; [done|].
    rewrite (snap_len_law _ _ Hd) in Hn. injection Hn as <-. rewrite length_app. lia.
Qed.

(** C37: Decompression is bounded.  What is not compressed comes back as it is; with
    every codec, whatever the payload, what [decompress] returns is no longer than the
    largest frame a connection reads, and a codec this build does not have, or that
    has no number, is an error. *)
Theorem decompression_is_capped `{!CodecLaws} (codec : Compression) (payload data : list byte) :
  decompress codec payload = Ok data →
  match codec with
  | Compression_None => data = payload
  | Gzip => len data ≤ DEFAULT_MAX_FRAME ∧ gzip_enabled = true
  | Snappy => len data ≤ DEFAULT_MAX_FRAME ∧ snappy_enabled = true
  | Lz4 => len data ≤ DEFAULT_MAX_FRAME ∧ lz4_enabled = true
  | Zstd => len data ≤ DEFAULT_MAX_FRAME ∧ zstd_enabled = true
  | Unknown _ => False
  end.
Proof.
  intros E. fold MAX_DECOMPRESSED.
  destruct codec; cbn [decompress] in E; [by injection E as ->|..|done].
  - destruct gzip_enabled; [|done]. by apply capped_read_within in E.
  - destruct snappy_enabled; [|done]. split; [|done]. unfold snappy_decompress in E.
    destruct (_ || _).
    + apply res_bind_ok in E as (n & Hn%map_err_ok & E).
      destruct (Z.ltb_spec MAX_DECOMPRESSED n); [done|]. apply map_err_ok in E.
      rewrite (snap_len_law _ _ E) in Hn. by injection Hn as <-.
    + by apply read_blocks_within in E.
  - destruct lz4_enabled; [|done]. by apply capped_read_within in E.
  - destruct zstd_enabled; [|done]. apply res_bind_ok in E as (r & _ & E).
    by apply capped_read_within in E.
Qed.

(** ** Truncated payloads *)

Lemma read_blocks_cut `{!CodecLaws} cs : ∀ ws fuel out k,
  put_blocks cs = Ok ws → len out + len (concat cs) ≤ MAX_DECOMPRESSED → (k ≤ length ws)%nat →
  (k ≤ fuel)%nat →
  read_blocks fuel (take k ws) out = Err truncated_block ∨
  ∃ whole, read_blocks fuel (take k ws) out = Ok (out ++ concat (take whole cs)).
Proof.
  induction cs as [|c cs IH]; intros ws fuel out k Hws Hcap Hk Hfuel.
  { injection Hws as <-. right. exists 0%nat. rewrite take_nil, app_nil_r. by destruct fuel. }
  destruct k as [|k]; [right; exists 0%nat; rewrite take_0, app_nil_r; by destruct fuel|].
  apply put_blocks_cons in Hws as (block & rest & Hc & Hlen & Hrest & ->).
  rewrite concat_cons, length_app in Hcap. destruct fuel as [|fuel]; [lia|].
  destruct (decide (4 + length block ≤ S k)%nat) as [Hwhole|Hcut].
  - assert (take (S k) (be_bytes 4 (len block) ++ block ++ rest) =
            be_bytes 4 (len block) ++ block ++ take (S k - (4 + length block)) rest) as ->.
    { rewrite !take_app, be_bytes_length.
      rewrite (take_ge (be_bytes 4 _)), (take_ge block) by (rewrite ?be_bytes_length; lia).
      do 3 f_equal. lia. }
    rewrite !length_app, be_bytes_length in Hk.
    rewrite (read_blocks_block fuel c) by (done || lia).
    destruct (IH rest fuel (out ++ c) (S k - (4 + length block))%nat) as [->|[whole ->]];
      [done|rewrite length_app; lia|lia|lia|by left|].
    right. exists (S whole). by rewrite firstn_cons, concat_cons, app_assoc.
  - left. cbn [read_blocks].
    destruct (take (S k) _) as [|x xs] eqn:E; [by cbn in E|]. rewrite <- E. clear x xs E.
    rewrite length_take, !length_app, be_bytes_length.
    match goal with |- context [?a <? 4] => destruct (Z.ltb_spec a 4) end; [done|]. cbv zeta.
    rewrite take_take, Nat.min_l by lia. rewrite (take_app_exact (be_bytes 4 _) _ 4) by (by rewrite be_bytes_length).
    rewrite be_val_bytes, Z.mod_small by (change (256 ^ Z.of_nat 4) with (u32_max + 1); lia).
    rewrite length_drop, length_take, !length_app, be_bytes_length.
    match goal with |- context [?a <? len block] => destruct (Z.ltb_spec a (len block)) end; [done|lia].
Qed.

(** A snappy stream cut short never yields anything but whole blocks.  Cut past
    its header, it is an error, or -- cut exactly between blocks, where the
    framing cannot tell -- the blocks before the cut. *)
Theorem cut_snappy_is_whole_blocks `{!CodecLaws} (data packed : list byte) (k : nat) :
  len data ≤ MAX_DECOMPRESSED → compress Snappy data = Ok packed →
  (length XERIAL_HEADER ≤ k ≤ length packed)%nat →
  decompress Snappy (take k packed) = Err truncated_block ∨
  ∃ whole, decompress Snappy (take k packed) = Ok (concat (take whole (chunks XERIAL_BLOCK data))).
Proof.
  intros Hcap Hc Hk. cbn [compress decompress] in *. destruct snappy_enabled; [|done].
  apply res_bind_ok in Hc as (ws & Hws & Hp). assert (packed = XERIAL_HEADER ++ ws) as -> by congruence.
  rewrite length_app in Hk. rewrite take_app, take_ge, snappy_header by lia.
  apply (read_blocks_cut (chunks XERIAL_BLOCK data) ws _ []); [done|by rewrite chunks_concat|lia|rewrite length_take; lia].
Qed.

End compression.

(** ** Codecs that store *)

(** Every codec present, and each of them the identity. *)
Definition stored_codecs : Codecs :=
  mkCodecs true true true true (list byte) Ok Ok (λ p, mkReader p None)
    (list byte) Ok Ok (λ p, mkReader p None) Ok (λ p, Ok (len p)) Ok Ok (λ p, Ok (mkReader p None)).

Lemma stored_codecs_laws : @CodecLaws stored_codecs.
Proof. constructor; cbn; intros; simplify_eq; congruence. Qed.

Definition xerial_sample : list byte := XERIAL_HEADER ++ be_bytes 4 2 ++ be_bytes 2 515 ++ be_bytes 4 1 ++ be_bytes 1 7.

Lemma decompression_is_capped_witness :
  @decompress stored_codecs Snappy xerial_sample = Ok (be_bytes 2 515 ++ be_bytes 1 7) ∧
  len (be_bytes 2 515 ++ be_bytes 1 7) ≤ DEFAULT_MAX_FRAME ∧ @snappy_enabled stored_codecs = true.
Proof.
  assert (@decompress stored_codecs Snappy xerial_sample = Ok (be_bytes 2 515 ++ be_bytes 1 7)) as E
    by (vm_compute; reflexivity).
  split; [exact E|].
  exact (@decompression_is_capped stored_codecs stored_codecs_laws Snappy xerial_sample _ E).
Defined.

Lemma cut_snappy_is_whole_blocks_witness :
  @decompress stored_codecs Snappy (take 21 (XERIAL_HEADER ++ be_bytes 4 3 ++ be_bytes 3 9)) =
    Err truncated_block ∨
  ∃ whole, @decompress stored_codecs Snappy (take 21 (XERIAL_HEADER ++ be_bytes 4 3 ++ be_bytes 3 9)) =
    Ok (concat (take whole (chunks XERIAL_BLOCK (be_bytes 3 9)))).
Proof.
  apply (@cut_snappy_is_whole_blocks stored_codecs stored_codecs_laws (be_bytes 3 9)
    (XERIAL_HEADER ++ be_bytes 4 3 ++ be_bytes 3 9) 21); [vm_compute; discriminate|vm_compute; reflexivity|].
  vm_compute. lia.
Defined.
