(* ===== verification/Delivery.v ===== *)
(** * From a producer's batch to a consumer's records

    [Batching.v] and [Consumer.v] composed through [Records.v]: what the
    producer encodes, stored by a broker, is what a fetch returns. *)
From S2P Require Import Prelude Budget Codec Wire Records MessageTrait MsgFetch ClientError Source Batching Consumer ReadCommitted Compression.
Import fetch_response.

(** ** What the producer assembles *)

Definition numbered (i : Z) (rs : list KRecord) : list KRecord :=
  imap (λ k r, set_offset_delta r (i + Z.of_nat k)) rs.

Lemma numbered_cons i r rs :
  numbered i (r :: rs) = set_offset_delta r i :: numbered (i + 1) rs.
Proof.
  unfold numbered. cbn [imap]. f_equal; [f_equal; lia|].
  apply imap_ext. intros k x _. cbn. f_equal. lia.
Qed.

Lemma renumber_ok rs : ∀ i rs', renumber i rs = Ok rs' →
  rs' = numbered i rs.
Proof.
  induction rs as [|r rs IH]; intros i rs' H; cbn [renumber] in H; [by injection H as <-|].
  destruct (try_from i32_min i32_max i) as [d|] eqn:Hd; [|done].
  apply try_from_Some in Hd as [-> _]. apply res_bind_ok in H as (rest & Hr & [= <-]).
  by rewrite (IH _ _ Hr), numbered_cons.
Qed.

Lemma numbered_length i rs : length (numbered i rs) = length rs.
Proof. apply length_imap. Qed.

(** A record that is representable at any place of a batch. *)
Definition producible (r : KRecord) : Prop := ∀ d, is_i32 d → record_ok (set_offset_delta r d).

Lemma numbered_producible rs : ∀ i,
  Forall producible rs → 0 ≤ i → i + len rs ≤ i32_max + 1 → Forall record_ok (numbered i rs).
Proof.
  induction rs as [|r rs IH]; intros i Hp Hi Hl; [constructor|].
  inversion Hp as [|? ? Hr Hrs]; subst. rewrite numbered_cons. cbn [length] in Hl.
  constructor; [apply Hr; int_lia|]. apply IH; [done|lia..].
Qed.

(** The fewest bytes a record occupies are the seven of [MIN_RECORD_WIRE_LEN],
    so honest counts are never over what the bytes can hold. *)
Lemma varint_field_pos o : 1 ≤ len (varint_field o).
Proof.
  assert (∀ v, 1 ≤ len (svarint_bytes v)) as Hs.
  { intros v. pose proof (svarint_bytes_ne v). destruct (svarint_bytes v); [done|]. cbn. lia. }
  destruct o; cbn [varint_field]; [rewrite length_app; specialize (Hs (len l)); lia|apply Hs].
Qed.

Lemma record_wire_min r : MIN_RECORD_WIRE_LEN ≤ len (record_wire r).
Proof.
  assert (∀ v, 1 ≤ len (svarint_bytes v)) as Hs.
  { intros v. pose proof (svarint_bytes_ne v). destruct (svarint_bytes v); [done|]. cbn. lia. }
  unfold record_wire, record_body, MIN_RECORD_WIRE_LEN. rewrite !length_app, be_bytes_length.
  pose proof (Hs (timestamp_delta r)). pose proof (Hs (offset_delta r)).
  pose proof (Hs (len (headers r))). pose proof (varint_field_pos (key r)).
  pose proof (varint_field_pos (value r)).
  match goal with |- context [svarint_bytes ?x] => pose proof (Hs x) end. lia.
Qed.

Lemma wire_holds rs : MIN_RECORD_WIRE_LEN * len rs ≤ len (concat (record_wire <$> rs)).
Proof.
  induction rs as [|r rs IH]; [done|]. rewrite fmap_cons. cbn [concat length].
  rewrite length_app. pose proof (record_wire_min r). unfold MIN_RECORD_WIRE_LEN in *. lia.
Qed.

(** ** What the broker stores *)

(** One batch as it was produced and as the partition's leader took it: the
    offset it assigned and its epoch. *)
Record production : Type := mkProduction {
  p_now : Z;
  p_records : list KRecord;
  p_codec : Compression;
  p_stamp : option BatchStamp;
  p_base : Z;
  p_epoch : Z;
}.

(** A leader writes its offset and epoch over the first sixteen bytes, which
    the checksum does not cover. *)
Definition broker_store (base epoch : Z) (wire : list byte) : list byte :=
  be_bytes 8 base ++ take 4 (drop 8 wire) ++ be_bytes 4 epoch ++ drop 16 wire.

Definition stored (base epoch : Z) (b : RecordBatch) : RecordBatch :=
  mkRecordBatch base epoch (attributes b) (last_offset_delta b) (base_timestamp b)
    (max_timestamp b) (producer_id b) (producer_epoch b) (base_sequence b) (records b).

Lemma stored_body base epoch b : batch_body (stored base epoch b) = batch_body b.
Proof. done. Qed.

Lemma stored_wire base epoch b :
  broker_store base epoch (batch_wire b) = batch_wire (stored base epoch b).
Proof.
  unfold broker_store, batch_wire. rewrite stored_body. cbn [base_offset partition_leader_epoch stored].
  set (body := batch_body b).
  rewrite (drop_app_length' (be_bytes 8 _)) by (by rewrite be_bytes_length).
  rewrite (take_app_length' (be_bytes 4 _)) by (by rewrite be_bytes_length).
  by do 3 f_equal.
Qed.

Definition stamp_ok (s : option BatchStamp) : Prop :=
  match s with
  | Some s => is_i64 (stamp_id s) ∧ is_i16 (stamp_epoch s) ∧ is_i32 (stamp_sequence s)
  | None => True
  end.

Definition known_codec (c : Compression) : Prop :=
  match c with Unknown _ => False | _ => True end.

(** The attributes of an assembled batch. *)
Lemma assembled_attributes codec stamp :
  known_codec codec →
  let a := Z.lor (attribute_bits codec) (transactional_bit stamp) in
  is_i16 a ∧ from_attributes a = codec ∧ negb (Z.land a (Z.shiftl 1 5) =? 0) = false ∧
  negb (Z.land a (Z.shiftl 1 4) =? 0) =
    match stamp with Some s => transactional s | None => false end.
Proof.
  intros Hc. destruct codec; [..|done];
    destruct stamp as [[? ? ? []]|]; vm_compute; split_and!; (done || discriminate).
Qed.

Section delivery.
Context {R : Runtime}.
Context (compress decompress : Compression → list byte → result ClientError (list byte)).

Definition assembled (p : production) : result ClientError RecordBatch :=
  assemble compress (p_now p) (p_records p) (p_codec p) (p_stamp p).
Definition encoded (p : production) : result ClientError (list byte) :=
  encode_batch compress (p_now p) (p_records p) (p_codec p) (p_stamp p).

(** Representable records, a stamp and offsets in range, and a batch that the
    codec takes and whose length an [i32] counts. *)
Record production_ok (p : production) : Prop := mkProductionOk {
  po_records : Forall producible (p_records p);
  po_count : len (p_records p) ≤ i32_max;
  po_now : is_i64 (p_now p);
  po_codec : known_codec (p_codec p);
  po_stamp : stamp_ok (p_stamp p);
  po_base : 0 ≤ p_base p;
  po_end : p_base p + len (p_records p) ≤ i64_max;
  po_epoch : is_i32 (p_epoch p);
  po_assembles : ∃ b, assembled p = Ok b ∧ 9 + len (batch_body b) ≤ i32_max;
}.

Lemma assembled_shape p b :
  production_ok p → assembled p = Ok b →
  p_records p ≠ [] ∧
  Batching.batch_records compress (p_codec p) (numbered 0 (p_records p)) = Ok (records b) ∧
  base_offset b = 0 ∧ partition_leader_epoch b = 0 ∧
  attributes b = Z.lor (attribute_bits (p_codec p)) (transactional_bit (p_stamp p)) ∧
  last_offset_delta b = len (p_records p) - 1 ∧ base_timestamp b = p_now p ∧
  is_i64 (max_timestamp b) ∧
  is_i64 (producer_id b) ∧ is_i16 (producer_epoch b) ∧ is_i32 (base_sequence b).
Proof.
  intros Hp Ha. unfold assembled, assemble in Ha. pose proof (po_count p Hp) as Hn.
  pose proof (po_stamp p Hp) as Hs.
  destruct (p_records p) as [|r rs] eqn:Hr; [done|]. rewrite <- Hr in *.
  apply res_bind_ok in Ha as (rs' & ->%renumber_ok & Ha). cbv zeta in Ha.
  apply res_bind_ok in Ha as (recs & Hrecs & [= <-]). cbn.
  rewrite numbered_length. assert (1 ≤ len (p_records p)) by (rewrite Hr; cbn [length]; lia).
  rewrite try_from_in by int_lia. split_and!; try done.
  - by rewrite Hr.
  - pose proof (sint_range 64 (p_now p + max_timestamp_delta (numbered 0 (p_records p)))). int_lia.
  - destruct (p_stamp p); [apply Hs|done].
  - destruct (p_stamp p); [apply Hs|done].
  - destruct (p_stamp p); [apply Hs|done].
Qed.

(** The records of the batch, plain or compressed. *)
Lemma assembled_records p b :
  production_ok p → assembled p = Ok b →
  (p_codec p = Compression_None ∧ records b = Plain (numbered 0 (p_records p))) ∨
  (p_codec p ≠ Compression_None ∧ ∃ payload,
     compress (p_codec p) (concat (record_wire <$> numbered 0 (p_records p))) = Ok payload ∧
     records b = Compressed (len (p_records p)) payload).
Proof.
  intros Hp Ha. destruct (assembled_shape p b Hp Ha) as (_ & Hb & _).
  assert (Forall record_ok (numbered 0 (p_records p))) as Hok.
  { pose proof (po_count p Hp). apply numbered_producible; [apply Hp|lia..]. }
  unfold Batching.batch_records in Hb.
  destruct (decide (p_codec p = Compression_None)) as [Hc|Hc]; [left; by injection Hb as <-|].
  right. split; [done|]. pose proof (po_count p Hp).
  rewrite (encodes_bytes _ (concat (record_wire <$> numbered 0 (p_records p)))) in Hb.
  - cbn [map_err res_bind] in Hb. apply res_bind_ok in Hb as (payload & Hpl & [= <-]).
    exists payload. split; [done|]. rewrite numbered_length, try_from_in by int_lia. done.
  - apply encodes_each. intros r Hr. apply encodes_record.
    by apply (proj1 (Forall_forall _ _) Hok).
Qed.

Lemma stored_ok p b :
  production_ok p → assembled p = Ok b → batch_ok (stored (p_base p) (p_epoch p) b) ∧
  is_control (stored (p_base p) (p_epoch p) b) = false ∧
  compression (stored (p_base p) (p_epoch p) b) = p_codec p.
Proof.
  intros Hp Ha.
  destruct (assembled_shape p b Hp Ha) as (Hne & _ & _ & _ & Hat & Hl & Hn & Hm & Hi & He & Hs).
  destruct (assembled_attributes (p_codec p) (p_stamp p) (po_codec p Hp)) as (H16 & Hc & Hctl & _).
  pose proof (po_count p Hp) as Hcount. pose proof (po_base p Hp). pose proof (po_end p Hp).
  unfold is_control, attribute_set, compression. cbn [attributes stored]. rewrite Hat.
  split; [|split; [exact Hctl|exact Hc]].
  destruct (po_assembles p Hp) as (b' & Hb' & Hlen). rewrite Ha in Hb'. injection Hb' as <-.
  constructor; cbn [stored base_offset partition_leader_epoch attributes last_offset_delta
    base_timestamp max_timestamp producer_id producer_epoch base_sequence records];
    rewrite ?Hat, ?Hl, ?Hn; try done; try apply Hp; try int_lia.
  destruct (assembled_records p b Hp Ha) as [[Hcn ->]|(Hcn & payload & _ & ->)];
    unfold compression; cbn [attributes stored]; rewrite Hat, Hc; (split; [done|]).
  - apply numbered_producible; [apply Hp|lia..].
  - int_lia.
Qed.

(** ** What the consumer makes of it *)

(** The record the consumer is owed for the [k]th record of a production. *)
Definition consumed_record (p : production) (k : nat) (r : KRecord) : ConsumedRecord :=
  mkConsumedRecord (p_base p + Z.of_nat k) (sint 64 (p_now p + timestamp_delta r))
    (Records.key r) (value r) (headers r).
Definition consumed (p : production) : list ConsumedRecord :=
  imap (consumed_record p) (p_records p).

Definition from_offset (offset : Z) (l : list ConsumedRecord) : list ConsumedRecord :=
  base.filter (λ x, offset ≤ record_offset x) l.

Lemma pushed_records b offset i rs f :
  0 ≤ i → 0 ≤ base_offset b → base_offset b + i + len rs - 1 ≤ i64_max →
  (∀ k r, f k r = mkConsumedRecord (base_offset b + i + Z.of_nat k)
     (sint 64 (base_timestamp b + timestamp_delta r)) (Records.key r) (value r) (headers r)) →
  concat (push_record b offset <$> numbered i rs) = from_offset offset (imap f rs).
Proof.
  revert i f. induction rs as [|r rs IH]; intros i f Hi Hb Hn Hf; [done|].
  rewrite numbered_cons, fmap_cons. cbn [concat imap]. cbn [length] in Hn.
  rewrite (IH (i + 1) (f ∘ S)) by
    (try lia; intros k x; unfold compose; rewrite Hf; f_equal; lia).
  unfold from_offset. rewrite filter_cons, Hf. cbn [record_offset].
  unfold push_record. cbn [offset_delta timestamp_delta Records.key value headers set_offset_delta].
  rewrite sint_small by int_lia.
  destruct (Z.ltb_spec (base_offset b + i) offset).
  - by rewrite decide_False by lia.
  - rewrite decide_True by lia. cbn [app]. f_equal. f_equal. lia.
Qed.

Definition decode_refused {A} (m : result ClientError A) : Prop :=
  ∃ e, m = Err (Decode e) ∧ is_alloc_error e.

Lemma decode_count_wire rs : ∀ b offset rest,
  Forall record_ok rs →
  decode_count (length rs) (concat (record_wire <$> rs) ++ rest) b offset =
    Ok (concat (push_record b offset <$> rs), rest) ∨
  decode_refused (decode_count (length rs) (concat (record_wire <$> rs) ++ rest) b offset).
Proof.
  induction rs as [|r rs IH]; intros b offset rest Hok; [by left|].
  inversion Hok as [|? ? Hr Hrs]; subst.
  rewrite !fmap_cons. cbn [concat length decode_count]. rewrite <- app_assoc.
  set (more := concat (record_wire <$> rs) ++ rest).
  unfold KRecordOps.decode, with_default_limits, with_limits.
  destruct (reads_record r Hr more (Limits.budget Limits.default (len (record_wire r ++ more))))
    as [(bu & -> & _)|(e & -> & He & _)]; cbn [res_bind map_err]; [|right; by exists e].
  unfold more. destruct (IH b offset rest Hrs) as [->|(e & -> & He)]; cbn [res_bind]; [by left|].
  right. by exists e.
Qed.

(** Room in the budget for one production. *)
Definition room (bu : FetchBudget) (p : production) : Prop :=
  len (p_records p) ≤ records_left bu ∧
  len (concat (record_wire <$> numbered 0 (p_records p))) ≤ decompressed_left bu.
Definition spent (bu : FetchBudget) (p : production) : FetchBudget :=
  mkFetchBudget (records_left bu - len (p_records p))
    (if decide (p_codec p = Compression_None) then decompressed_left bu
     else decompressed_left bu - len (concat (record_wire <$> numbered 0 (p_records p)))).

(** What was compressed comes back, as long as a fetch has room for it. *)
Definition codecs_agree : Prop :=
  ∀ c data payload, len data ≤ MAX_FETCH_DECOMPRESSED →
    compress c data = Ok payload → decompress c payload = Ok data.

Lemma batch_records_stored p b offset bu :
  codecs_agree → production_ok p → assembled p = Ok b → room bu p →
  decompressed_left bu ≤ MAX_FETCH_DECOMPRESSED →
  let s := stored (p_base p) (p_epoch p) b in
  batch_records decompress bu s offset = Ok (from_offset offset (consumed p), spent bu p) ∨
  decode_refused (batch_records decompress bu s offset).
Proof.
  intros Hagree Hp Ha [Hroom Hbytes] Hleft s.
  destruct (assembled_shape p b Hp Ha) as (_ & _ & _ & _ & _ & _ & Hnow & _).
  destruct (stored_ok p b Hp Ha) as (_ & _ & Hcomp).
  pose proof (po_base p Hp) as Hbase. pose proof (po_end p Hp) as Hend.
  assert (concat (push_record s offset <$> numbered 0 (p_records p)) =
          from_offset offset (consumed p)) as Hpush.
  { apply pushed_records; cbn [base_offset stored s]; [lia..|].
    intros k r. unfold consumed_record. cbn [base_timestamp stored s]. rewrite Hnow. f_equal. lia. }
  unfold batch_records, spent. fold s in Hcomp.
  replace (records s) with (records b) by done.
  destruct (assembled_records p b Hp Ha) as [[Hc ->]|(Hc & payload & Hpl & ->)].
  - left. rewrite decide_True by done. unfold claim_records. rewrite numbered_length.
    destruct (Z.ltb_spec (records_left bu) (len (p_records p))); [lia|]. cbn [res_bind].
    by rewrite Hpush.
  - rewrite decide_False by done. unfold decode_compressed. pose proof (po_count p Hp).
    rewrite try_from_in by int_lia. rewrite Hcomp, (Hagree _ _ _ (Z.le_trans _ _ _ Hbytes Hleft) Hpl). cbn [res_bind].
    unfold claim_decompressed. destruct (Z.ltb_spec (decompressed_left bu)
      (len (concat (record_wire <$> numbered 0 (p_records p))))); [lia|]. cbn [res_bind].
    pose proof (wire_holds (numbered 0 (p_records p))) as Hw. rewrite numbered_length in Hw.
    destruct (Z.ltb_spec (len (concat (record_wire <$> numbered 0 (p_records p))) /
      MIN_RECORD_WIRE_LEN) (len (p_records p))) as [Hlt|_].
    { unfold MIN_RECORD_WIRE_LEN in *.
      pose proof (Z.div_le_lower_bound _ 7 _ ltac:(lia) Hw). lia. }
    unfold claim_records. cbn [records_left decompressed_left].
    destruct (Z.ltb_spec (records_left bu) (len (p_records p))); [lia|]. cbn [res_bind].
    rewrite Nat2Z.id, <- (numbered_length 0 (p_records p)).
    pose proof (decode_count_wire (numbered 0 (p_records p)) s offset []) as Hd.
    rewrite app_nil_r in Hd.
    destruct Hd as [->|(e & -> & He)]; [by apply numbered_producible; [apply Hp|lia..]| |];
      cbn [res_bind]; [|right; by exists e].
    left. by rewrite Hpush, numbered_length.
Qed.

Lemma quiet_filter_keeps f b :
  aborted f = [] → disowned f = ∅ → is_control b = false → keeps f b = (true, f).
Proof.
  intros Ha Hd Hc. unfold keeps. rewrite Hc, Ha. cbn [enter_runs].
  destruct f as [a d rc]; cbn in *; subst. destruct (rc && (0 <=? producer_id b)); cbn;
  by rewrite bool_decide_false, andb_false_r by set_solver.
Qed.

(** Room for a run of productions. *)
Fixpoint room_for (bu : FetchBudget) (ps : list production) : Prop :=
  match ps with
  | [] => True
  | p :: ps => room bu p ∧ room_for (spent bu p) ps
  end.

Lemma spent_left bu p :
  decompressed_left bu ≤ MAX_FETCH_DECOMPRESSED → decompressed_left (spent bu p) ≤ MAX_FETCH_DECOMPRESSED.
Proof. unfold spent. cbn [decompressed_left]. destruct (decide _); lia. Qed.

Definition next_after (p : production) (next : Z) : Z :=
  Z.max next (p_base p + len (p_records p)).

Lemma take_stored f offset ps bs : ∀ bu next,
  codecs_agree → aborted f = [] → disowned f = ∅ → Forall production_ok ps → room_for bu ps →
  decompressed_left bu ≤ MAX_FETCH_DECOMPRESSED →
  Forall2 (λ p b, assembled p = Ok b) ps bs →
  let ss := zip_with (λ p b, stored (p_base p) (p_epoch p) b) ps bs in
  take_batches decompress offset next bu f ss =
    Ok (from_offset offset (concat (consumed <$> ps)), foldl (λ n p, next_after p n) next ps) ∨
  decode_refused (take_batches decompress offset next bu f ss).
Proof.
  revert bs. induction ps as [|p ps IH]; intros bs bu next Hagree Hfa Hfd Hok Hroom Hleft Hbs ss.
  { inversion Hbs; subst. by left. }
  inversion Hbs as [|? b ? bs' Hb Hbs']; subst. inversion Hok as [|? ? Hp Hps]; subst.
  destruct Hroom as [Hr Hroom]. unfold ss. cbn [zip_with take_batches].
  destruct (stored_ok p b Hp Hb) as (_ & Hc & _).
  destruct (assembled_shape p b Hp Hb) as (_ & _ & _ & _ & _ & Hl & _).
  rewrite quiet_filter_keeps by done.
  assert (sint 64 (base_offset (stored (p_base p) (p_epoch p) b) +
    last_offset_delta (stored (p_base p) (p_epoch p) b) + 1) = p_base p + len (p_records p)) as ->.
  { cbn. rewrite Hl. pose proof (po_base p Hp). pose proof (po_end p Hp).
    rewrite sint_small by int_lia. lia. }
  destruct (batch_records_stored p b offset bu Hagree Hp Hb Hr Hleft) as [->|(e & -> & He)];
    cbn [res_bind]; [|right; by exists e].
  destruct (IH bs' (spent bu p) (Z.max next (p_base p + len (p_records p)))
    Hagree Hfa Hfd Hps Hroom (spent_left bu p Hleft) Hbs') as [->|(e & -> & He)]; cbn [res_bind]; [|right; by exists e].
  left. rewrite fmap_cons. cbn [concat foldl]. unfold from_offset. by rewrite filter_app.
Qed.

Lemma stored_sets ps : ∀ bs, 
  Forall production_ok ps → Forall2 (λ p b, assembled p = Ok b) ps bs →
  Forall batch_ok (zip_with (λ p b, stored (p_base p) (p_epoch p) b) ps bs) ∧
  ∃ ws, Forall2 (λ p w, encoded p = Ok w) ps ws ∧
    zip_with (λ p w, broker_store (p_base p) (p_epoch p) w) ps ws =
    batch_wire <$> zip_with (λ p b, stored (p_base p) (p_epoch p) b) ps bs.
Proof.
  induction ps as [|p ps IH]; intros bs Hok Hbs; inversion Hbs as [|? b ? bs' Hb Hbs']; subst.
  { split; [constructor|]. by exists []. }
  inversion Hok as [|? ? Hp Hps]; subst. destruct (IH bs' Hps Hbs') as (Hbok & ws & Hws & Hz).
  destruct (stored_ok p b Hp Hb) as (Hs & _ & _).
  split; [by constructor|]. exists (batch_wire b :: ws). cbn [zip_with]. split.
  - constructor; [|done]. unfold encoded, encode_batch. fold (assembled p). rewrite Hb.
    cbn [res_bind]. rewrite (encodes_bytes _ (batch_wire b)); [done|]. apply encodes_batch.
    destruct (assembled_shape p b Hp Hb) as (_ & _ & Ho & He & _).
    destruct Hs. destruct b; cbn in *; subst. by constructor.
  - by rewrite fmap_cons, stored_wire, Hz.
Qed.

End delivery.

Lemma fetched_reply topic partition aborted set :
  fetched_partition topic partition (reply topic (reply_entry partition aborted set)) =
  Some (reply_entry partition aborted set).
Proof. unfold fetched_partition. cbn. rewrite String.eqb_refl. cbn. by rewrite Z.eqb_refl. Qed.

(** C3: what producers encode is what consumers get. Batches of any known
    codec and stamp encode; stored at the offsets the leader gave them and
    fetched in one response with nothing aborted, they come back as every
    record at or past the requested offset, in order, with key, value and
    headers as produced, at offset base + position, and timestamped as
    produced; the fetch goes on after the last of them. Short of a refusal
    by the allocation policy nothing is an error. *)
Theorem produced_records_are_consumed {R : Runtime} `{Codecs, !CodecLaws}
    (c : ConsumerConfig) (topic : string) (partition offset : Z)
    (aborted : option (list AbortedTransaction.t)) (ps : list production) :
  Forall (production_ok compress) ps →
  room_for (mkFetchBudget (max_fetch_records c) MAX_FETCH_DECOMPRESSED) ps →
  default [] aborted = [] →
  ∃ ws, Forall2 (λ p w, encoded compress p = Ok w) ps ws ∧
    let set := concat (zip_with (λ p w, broker_store (p_base p) (p_epoch p) w) ps ws) in
    let entry := reply_entry partition aborted set in
    read_fetch decompress c id topic partition offset (reply topic entry) =
      Ok (mkFetchResult (from_offset offset (concat (consumed <$> ps)))
            (foldl (λ n p, next_after p n) offset ps)
            (PartitionData.high_watermark entry) (PartitionData.last_stable_offset entry)) ∨
    decode_refused (read_fetch decompress c id topic partition offset (reply topic entry)).
Proof.
  intros Hok Hroom Hab.
  assert (codecs_agree compress decompress) as Hagree by exact compress_decompress.
  assert (∃ bs, Forall2 (λ p b, assembled compress p = Ok b) ps bs) as [bs Hbs].
  { clear Hroom. induction Hok as [|p ps Hp Hps [bs IH]]; [by exists []|].
    destruct (po_assembles _ p Hp) as (b & Hb & _). exists (b :: bs). by constructor. }
  destruct (stored_sets compress ps bs Hok Hbs) as (Hbok & ws & Hws & Hz).
  exists ws. split; [done|]. rewrite Hz. cbv zeta.
  destruct (take_stored compress decompress (new_filter (isolation_level c) aborted) offset ps bs
    (mkFetchBudget (max_fetch_records c) MAX_FETCH_DECOMPRESSED) offset) as [Ht|(e & Ht & He)];
    [done|cbn; by rewrite Hab; destruct (bool_decide _)|done|done|done|done|done| |];
    unfold read_fetch; rewrite fetched_reply; cbn -[decode_set take_batches];
    unfold decode_set, with_default_limits, with_limits;
    match goal with |- context [decode_set_with_budget (concat (batch_wire <$> ?ss)) ?bu] =>
      pose proof (reads_set ss [] bu Hbok (or_introl eq_refl)) as Hset end;
    rewrite app_nil_r in Hset;
    (destruct Hset as [(bu & ->)|(e' & -> & He' & _)]; cbn [res_bind map_err];
      [rewrite Ht; cbn [res_bind]|right; by exists e']).
  - left. by rewrite list_fmap_id.
  - right. by exists e.
Qed.

(** *** Witness *)

#[local] Existing Instances plain_runtime stored_codecs stored_codecs_laws.

Definition sample_productions : list production :=
  [mkProduction 1000 [sample_record; sample_record] Compression_None None 10 3;
   mkProduction 2000 [sample_record] Gzip (Some (mkStamp 7 0 2 true)) 12 4].

Lemma sample_producible : producible sample_record.
Proof.
  intros d Hd. destruct sample_record_ok. constructor; [done|done|done|done|].
  assert (KRecordOps.body_len (set_offset_delta sample_record d) 1 =
    KRecordOps.body_len sample_record 1 - varint_len 0 + varint_len d) as E.
  { unfold KRecordOps.body_len.
    cbn [timestamp_delta offset_delta key value headers set_offset_delta sample_record]. lia. }
  change (len (headers (set_offset_delta sample_record d))) with 1. rewrite E.
  assert (KRecordOps.body_len sample_record 1 - varint_len 0 = 12) as -> by (vm_compute; done).
  unfold varint_len. pose proof (unsigned_varint_len_bounds (zigzag_encode d)
    (zigzag_encode_u64 d ltac:(int_lia))). int_lia.
Qed.

Lemma sample_productions_ok : Forall (production_ok compress) sample_productions.
Proof.
  assert (∀ n, Forall producible (replicate n sample_record)) as Hrs
    by (intros n; apply Forall_replicate, sample_producible).
  apply Forall_cons; split; [|apply Forall_singleton]; (constructor;
    [first [apply (Hrs 2%nat)|apply (Hrs 1%nat)]|..|
     eexists; split; [vm_compute; reflexivity|vm_compute; discriminate]]);
    vm_compute; try split_and!; (done || discriminate || (split; discriminate)).
Qed.

Lemma produced_records_are_consumed_witness :
  ∃ ws, Forall2 (λ p w, encoded compress p = Ok w) sample_productions ws ∧
    let set := concat (zip_with (λ p w, broker_store (p_base p) (p_epoch p) w) sample_productions ws) in
    read_fetch decompress default_config id "t" 0 11 (reply "t" (reply_entry 0 None set)) =
      Ok (mkFetchResult
            [mkConsumedRecord 11 2000 (Some [Byte.x6b]) None (headers sample_record);
             mkConsumedRecord 12 3000 (Some [Byte.x6b]) None (headers sample_record)] 13 0 (-1)) ∨
    decode_refused (read_fetch decompress default_config id "t" 0 11
                      (reply "t" (reply_entry 0 None set))).
Proof.
  refine (produced_records_are_consumed default_config "t" 0 11 None
    sample_productions sample_productions_ok _ eq_refl).
  vm_compute. split_and!; (done || discriminate).
Defined.
