(* ===== verification/ConsumerLog.v ===== *)
(** * A consumer over a partition's log

    [Consumer.v] against what a broker serves: over any cluster whose brokers
    answer from one log, the consumer is a reader of that log's visible
    records, which is what the Kafka adapter of [Source.v] asks of it. *)
From S2P Require Import Prelude Budget Codec Wire Event Records MessageTrait MsgFetch MsgOffset Registry ClientError Negotiate Exchange Source Batching Offsets Consumer ReadCommitted Delivery.
Import fetch_request fetch_response list_offsets_request list_offsets_response.

(** ** What a log holds for a reader *)

(** The batches of [seg] an isolation level shows, [after] following in the
    log. *)
Definition visible (l : IsolationLevel) (seg after : list RecordBatch) : list RecordBatch :=
  match l with
  | ReadUncommitted => base.filter (λ b, is_control b = false) seg
  | ReadCommitted => committed seg after
  end.

Lemma committed_app s1 s2 after :
  committed (s1 ++ s2) after = committed s1 (s2 ++ after) ++ committed s2 after.
Proof.
  induction s1 as [|b s1 IH]; [done|]. cbn [committed app]. rewrite <- app_assoc, IH.
  by destruct (is_control b || _).
Qed.

Lemma visible_app l s1 s2 after :
  visible l (s1 ++ s2) after = visible l s1 (s2 ++ after) ++ visible l s2 after.
Proof. destruct l; [apply filter_app|apply committed_app]. Qed.

Lemma visible_sub l seg after : visible l seg after `sublist_of` seg.
Proof.
  destruct l; cbn [visible].
  - induction seg as [|b seg IH]; [done|]. rewrite filter_cons. case_decide; by constructor.
  - induction seg as [|b seg IH]; [done|]. cbn [committed]. destruct (is_control b || _); by constructor.
Qed.

(** The record at its place in the log. *)
Definition log_record (b : RecordBatch) (r : KRecord) : ConsumedRecord :=
  mkConsumedRecord (base_offset b + offset_delta r) (sint 64 (base_timestamp b + timestamp_delta r))
    (Records.key r) (value r) (headers r).

Section log.
Context {R : Runtime}.
Context (decompress : Compression → list byte → result ClientError (list byte)).
Context (contents : RecordBatch → list KRecord).

Definition batch_log (b : RecordBatch) : list ConsumedRecord := log_record b <$> contents b.
Definition records_of (bs : list RecordBatch) : list ConsumedRecord := concat (batch_log <$> bs).

(** [contents b] are what the batch holds, plain or compressed, in the order
    of their offsets and within those the batch covers. *)
Record batch_holds (b : RecordBatch) : Prop := mkHolds {
  holds_records :
    match records b with
    | Plain rs => rs = contents b
    | Compressed n payload =>
        n = len (contents b) ∧ Forall record_ok (contents b) ∧
        decompress (compression b) payload = Ok (concat (record_wire <$> contents b))
    end;
  holds_ascending : StronglySorted (λ r1 r2, offset_delta r1 < offset_delta r2) (contents b);
  holds_within : Forall (λ r, 0 ≤ offset_delta r ≤ last_offset_delta b) (contents b);
  holds_end : 0 ≤ last_offset_delta b ∧ base_offset b + last_offset_delta b < i64_max;
}.

(** A partition's log: batches one after the other, each with its records. *)
Record log_ok (log : list RecordBatch) : Prop := mkLogOk {
  log_batches : log_from 0 log;
  log_holds : Forall batch_holds log;
}.

(** ** One batch *)

Lemma log_from_elem lo log b : log_from lo log → b ∈ log → lo ≤ base_offset b.
Proof.
  revert lo. induction log as [|x log IH]; intros lo Hl Hb; [by apply not_elem_of_nil in Hb|].
  destruct Hl as (Hx & _ & Hl). apply elem_of_cons in Hb as [->|Hb]; [lia|].
  specialize (IH _ Hl Hb). lia.
Qed.

Lemma last_exact b :
  batch_holds b → 0 ≤ base_offset b →
  batch_last b = base_offset b + last_offset_delta b ∧
  sint 64 (base_offset b + last_offset_delta b + 1) = batch_last b + 1.
Proof.
  intros Hb H0. destruct (holds_end b Hb). unfold batch_last.
  rewrite !sint_small by (change (2 ^ (64 - 1)) with 9223372036854775808; int_lia). done.
Qed.

Lemma batch_log_within b r :
  batch_holds b → 0 ≤ base_offset b → r ∈ batch_log b →
  base_offset b ≤ record_offset r ≤ batch_last b.
Proof.
  intros Hb H0 (x & -> & Hx)%list_elem_of_fmap. destruct (last_exact b Hb H0) as [-> _].
  pose proof (proj1 (Forall_forall _ _) (holds_within b Hb) x Hx) as Hw.
  cbn in Hw |- *. lia.
Qed.

Lemma pushed_log b offset :
  batch_holds b → 0 ≤ base_offset b →
  concat (push_record b offset <$> contents b) = from_offset offset (batch_log b).
Proof.
  intros Hb H0. pose proof (holds_within b Hb) as Hw. destruct (holds_end b Hb) as [_ He].
  unfold batch_log. clear Hb.
  induction Hw as [|r rs Hr _ IH]; [done|]. rewrite !fmap_cons. cbn [concat].
  unfold from_offset. rewrite filter_cons, IH. unfold push_record. cbn [record_offset log_record].
  rewrite (sint_small 64 (base_offset b + offset_delta r)) by (change (2 ^ (64 - 1)) with 9223372036854775808; int_lia).
  destruct (Z.ltb_spec (base_offset b + offset_delta r) offset).
  - by rewrite decide_False by lia.
  - by rewrite decide_True by lia.
Qed.

(** What is materialized of a batch is its records from the offset on. *)
Lemma materialized_log b offset out :
  batch_holds b → 0 ≤ base_offset b → materialized decompress offset b out →
  out = from_offset offset (batch_log b).
Proof.
  intros Hb H0 (bu & bu' & H). rewrite <- (pushed_log b offset Hb H0).
  unfold batch_records in H. pose proof (holds_records b Hb) as Hrs.
  destruct (records b) as [rs|n payload].
  - subst rs. by apply res_bind_ok in H as (? & _ & [= <- _]).
  - destruct Hrs as (-> & Hok & Hd). unfold decode_compressed in H.
    destruct (try_from _ _ _) as [n|] eqn:Hn; [|done]. apply try_from_Some in Hn as [-> _].
    rewrite Hd in H. cbn [res_bind] in H. apply res_bind_ok in H as (bu1 & _ & H).
    cbv zeta in H. destruct (_ <? _); [done|]. apply res_bind_ok in H as (bu2 & _ & H).
    rewrite Nat2Z.id in H.
    pose proof (decode_count_wire (contents b) b offset [] Hok) as Hw. rewrite app_nil_r in Hw.
    destruct Hw as [Hw|(e & Hw & _)]; rewrite Hw in H; cbn [res_bind] in H; [by injection H as <- _|done].
Qed.

Lemma materialized_logs bs offset outs :
  Forall batch_holds bs → Forall (λ b, 0 ≤ base_offset b) bs →
  Forall2 (materialized decompress offset) bs outs →
  concat outs = from_offset offset (records_of bs).
Proof.
  intros Hh Hb H. induction H as [|b out bs outs Hm _ IH]; [done|].
  inversion Hh; inversion Hb; subst. unfold records_of, from_offset.
  rewrite fmap_cons. cbn [concat]. rewrite filter_app. f_equal; [by apply materialized_log|by apply IH].
Qed.

(** The offset a fetch goes on from: past the last batch it was given. *)
Lemma take_batches_next bs : ∀ offset next bu f out n,
  take_batches decompress offset next bu f bs = Ok (out, n) →
  n = foldl (λ n b, Z.max n (sint 64 (base_offset b + last_offset_delta b + 1))) next bs.
Proof.
  induction bs as [|b bs IH]; intros offset next bu f out n H; cbn [take_batches] in H.
  - by injection H as <- <-.
  - cbn [foldl]. destruct (keeps f b) as [[] f'].
    + apply res_bind_ok in H as ([o1 bu1] & _ & H).
      apply res_bind_ok in H as ([o2 n2] & H2 & [= <- <-]). by eapply IH.
    + by eapply IH.
Qed.

(** ** A stretch of the log *)

Lemma log_from_split lo l1 l2 b x :
  log_from lo (l1 ++ l2) → b ∈ l1 → x ∈ l2 → batch_last b < base_offset x.
Proof.
  revert lo. induction l1 as [|y l1 IH]; intros lo Hl Hb Hx; [by apply not_elem_of_nil in Hb|].
  destruct Hl as (_ & _ & Hl). apply elem_of_cons in Hb as [->|Hb]; [|by eapply IH].
  pose proof (log_from_elem _ _ x Hl ltac:(apply elem_of_app; by right)). lia.
Qed.

Lemma records_of_app b1 b2 : records_of (b1 ++ b2) = records_of b1 ++ records_of b2.
Proof. unfold records_of. by rewrite fmap_app, concat_app. Qed.

Lemma records_of_elem bs r : r ∈ records_of bs ↔ ∃ b, b ∈ bs ∧ r ∈ batch_log b.
Proof.
  unfold records_of. rewrite list_elem_of_In, in_concat. split.
  - intros (rs & Hrs & Hr). apply list_elem_of_In, list_elem_of_fmap in Hrs as (b & -> & Hb).
    exists b. split; [done|by apply list_elem_of_In].
  - intros (b & Hb & Hr). exists (batch_log b). rewrite <- !list_elem_of_In. split; [|done].
    by apply list_elem_of_fmap_2.
Qed.

(** A record of the log lies within the batch that holds it. *)
Lemma records_within log bs r :
  log_ok log → (∀ b, b ∈ bs → b ∈ log) → r ∈ records_of bs →
  ∃ b, b ∈ bs ∧ 0 ≤ base_offset b ≤ record_offset r ∧ record_offset r ≤ batch_last b < i64_max.
Proof.
  intros [Hl Hh] Hsub (b & Hb & Hr)%records_of_elem. exists b. split; [done|].
  pose proof (proj1 (Forall_forall _ _) Hh b (Hsub b Hb)) as Hbh.
  pose proof (log_from_elem _ _ b Hl (Hsub b Hb)) as H0.
  pose proof (batch_log_within b r Hbh H0 Hr). destruct (last_exact b Hbh H0) as [E _].
  destruct (holds_end b Hbh). lia.
Qed.

Lemma log_ok_sorted log :
  log_ok log → StronglySorted (λ r1 r2, record_offset r1 < record_offset r2) (records_of log).
Proof.
  intros Hlog. assert (∀ b, b ∈ log → 0 ≤ base_offset b) as H0.
  { intros b. apply log_from_elem, Hlog. }
  destruct Hlog as [Hl Hh]. revert Hl H0. generalize 0 at 1.
  induction Hh as [|b log Hb Hh IH]; intros lo Hl H0; [constructor|].
  change (b :: log) with ([b] ++ log). rewrite records_of_app.
  unfold records_of at 1. cbn [fmap list_fmap concat]. rewrite app_nil_r.
  apply StronglySorted_app_2.
  - intros r1 r2 H1 (x & Hx & H2)%records_of_elem.
    pose proof (log_from_split lo [b] log b x Hl ltac:(by apply list_elem_of_here) Hx).
    pose proof (batch_log_within b r1 Hb (H0 b ltac:(by apply list_elem_of_here)) H1).
    pose proof (batch_log_within x r2 (proj1 (Forall_forall _ _) Hh x Hx)
      (H0 x ltac:(by apply list_elem_of_further)) H2). lia.
  - unfold batch_log. pose proof (holds_ascending b Hb) as Ha. clear -Ha.
    induction Ha as [|r rs _ IHa Hall]; [constructor|]. constructor; [done|].
    apply Forall_fmap. eapply Forall_impl; [exact Hall|]. intros x Hx. cbn in *. lia.
  - destruct Hl as (_ & _ & Hl). apply (IH _ Hl). intros x Hx. apply H0. by apply list_elem_of_further.
Qed.

Lemma log_from_sublist (l1 l2 : list RecordBatch) :
  l1 `sublist_of` l2 → ∀ lo, log_from lo l2 → log_from lo l1.
Proof.
  induction 1 as [|b l1 l2 _ IH|b l1 l2 _ IH]; intros lo Hl; [done|..].
  - destruct Hl as (? & ? & Hl). split; [done|]. split; [done|]. by apply IH.
  - destruct Hl as (? & ? & Hl). apply IH. apply (log_from_weaken (batch_last b + 1) lo); [lia|done].
Qed.

Lemma log_ok_sublist l1 l2 : l1 `sublist_of` l2 → log_ok l2 → log_ok l1.
Proof.
  intros Hs [Hl Hh]. split; [by eapply log_from_sublist|]. apply Forall_forall. intros b Hb.
  apply (proj1 (Forall_forall _ _) Hh). by eapply elem_of_sublist.
Qed.

(** Where the loop over [seg] leaves the next offset. *)
Definition next_past (from : Z) (seg : list RecordBatch) : Z :=
  foldl (λ n b, Z.max n (sint 64 (base_offset b + last_offset_delta b + 1))) from seg.

Lemma next_past_spec seg : ∀ from,
  log_ok seg → from ≤ i64_max →
  from ≤ next_past from seg ≤ i64_max ∧ Forall (λ b, batch_last b < next_past from seg) seg ∧
  (next_past from seg = from ∨ ∃ b, b ∈ seg ∧ next_past from seg = batch_last b + 1).
Proof.
  induction seg as [|b seg IH]; intros from Hok Hf; [cbn; split_and!; [lia..|constructor|by left]|].
  assert (log_ok seg) as Hok' by (eapply log_ok_sublist; [|exact Hok]; by constructor).
  destruct Hok as [Hl Hh]. inversion Hh as [|? ? Hb _]; subst.
  destruct Hl as (H0 & _). destruct (last_exact b Hb ltac:(lia)) as [El En].
  destruct (holds_end b Hb). unfold next_past in *. cbn [foldl]. rewrite En.
  destruct (IH (Z.max from (batch_last b + 1)) Hok' ltac:(lia)) as (Hr & Hall & Hor).
  split_and!; [lia..| |].
  - constructor; [lia|done].
  - destruct Hor as [->|(x & Hx & ->)].
    + destruct (Z.max_spec from (batch_last b + 1)) as [[? ->]|[? ->]]; [right|by left].
      exists b. split; [by apply list_elem_of_here|done].
    + right. exists x. split; [by apply list_elem_of_further|done].
Qed.

Lemma records_between_app l1 l2 from n :
  records_between (l1 ++ l2) from n = records_between l1 from n ++ records_between l2 from n.
Proof. apply List.filter_app. Qed.

Lemma records_between_none l from n :
  (∀ r, r ∈ l → record_offset r < from ∨ n ≤ record_offset r ∨ n ≤ from) →
  records_between l from n = [].
Proof.
  intros H. apply filter_all_false. intros r Hr%H.
  rewrite andb_false_iff, Z.leb_gt, Z.ltb_ge. lia.
Qed.

Lemma records_between_from l from n :
  (∀ r, r ∈ l → record_offset r < n) → records_between l from n = from_offset from l.
Proof.
  induction l as [|r l IH]; intros H; [done|].
  unfold records_between, from_offset in *. cbn [List.filter]. rewrite filter_cons, IH by
    (intros x Hx; apply H; by apply list_elem_of_further).
  specialize (H r ltac:(by apply list_elem_of_here)).
  destruct (Z.ltb_spec (record_offset r) n); [|lia]. rewrite andb_true_r.
  destruct (Z.leb_spec from (record_offset r)).
  - by rewrite decide_True by lia.
  - by rewrite decide_False by lia.
Qed.

(** What is visible of the stretch at or past [from] is what the whole log
    shows between [from] and where the stretch ends. *)
Lemma stretch_between l pre seg post from :
  log_ok (pre ++ seg ++ post) → Forall (λ b, batch_last b < from) pre → from ≤ i64_max →
  from_offset from (records_of (visible l seg post)) =
  records_between (records_of (visible l (pre ++ seg ++ post) [])) from (next_past from seg).
Proof.
  intros Hlog Hpre Hf. rewrite !visible_app, !records_of_app, !records_between_app, !app_nil_r.
  set (n := next_past from seg).
  assert (log_ok seg) as Hseg.
  { eapply log_ok_sublist; [|exact Hlog]. apply sublist_inserts_l, sublist_inserts_r. done. }
  destruct (next_past_spec seg from Hseg Hf) as ([Hn _] & Hall & Hor). fold n in Hn, Hall, Hor.
  assert (∀ s after b, b ∈ visible l s after → b ∈ s) as Hsub.
  { intros s after b Hb. eapply elem_of_sublist; [exact Hb|apply visible_sub]. }
  rewrite (records_between_none (records_of (visible l pre _))).
  2:{ intros r Hr. apply (records_within _ _ _ Hlog) in Hr as (b & Hb & _ & Hr).
      - pose proof (proj1 (Forall_forall _ _) Hpre b (Hsub _ _ _ Hb)) as Hp. cbn in Hp. lia.
      - intros b Hb%Hsub. rewrite elem_of_app. by left. }
  rewrite (records_between_none (records_of (visible l post _))).
  2:{ intros r Hr. apply (records_within _ _ _ Hlog) in Hr as (b & Hb%Hsub & Hr & _).
      - right. destruct Hor as [->|(x & Hx & ->)]; [by right|left].
        rewrite app_assoc in Hlog.
        pose proof (log_from_split _ (pre ++ seg) post x b (log_batches _ Hlog)
          ltac:(apply elem_of_app; by right) Hb). lia.
      - intros b Hb%Hsub. rewrite !elem_of_app. by right; right. }
  cbn [app]. rewrite app_nil_r. symmetry. apply records_between_from.
  intros r Hr. apply (records_within _ _ _ Hlog) in Hr as (b & Hb%Hsub & _ & Hr).
  - pose proof (proj1 (Forall_forall _ _) Hall b Hb) as Hlt. cbn in Hlt. lia.
  - intros b Hb%Hsub. rewrite !elem_of_app. by right; left.
Qed.

(** ** One response *)

(** The transactions under way where the log has come to. *)
Definition open_at (log : list RecordBatch) : gmap Z Z := foldl open_after ∅ log.

Lemma open_at_from pre rest : ∀ lo open,
  log_from lo (pre ++ rest) → (∀ p first, open !! p = Some first → first < lo) →
  ∃ lo', log_from lo' rest ∧ ∀ p first, foldl open_after open pre !! p = Some first → first < lo'.
Proof.
  induction pre as [|b pre IH]; intros lo open Hl Ho; [by exists lo|].
  destruct Hl as (Hb & _ & Hl). apply (IH _ _ Hl). intros p first Hf%open_after_Some.
  destruct Hf as [Hf%Ho|(_ & _ & _ & _ & ->)]; lia.
Qed.

(** An answer of a broker that keeps [log], to a fetch from [from]: batches
    that follow each other in the log, none of those before them reaching
    [from]; with the abort list that goes with them, where one was asked
    for. *)
Definition entry_of_log (l : IsolationLevel) (log : list RecordBatch) (from : Z)
    (entry : PartitionData.t) : Prop :=
  ∀ seg rest, decode_set (default [] (PartitionData.records entry)) = Ok (seg, rest) →
  ∃ pre post, log = pre ++ seg ++ post ∧ Forall (λ b, batch_last b < from) pre ∧
    (l = ReadCommitted →
     honest_aborts (open_at pre) seg post (default [] (PartitionData.aborted_transactions entry))).

Lemma fresh_filter_visible l log pre seg post aborted :
  log_ok log → log = pre ++ seg ++ post →
  (l = ReadCommitted → honest_aborts (open_at pre) seg post (default [] aborted)) →
  surfaced (new_filter l aborted) seg = visible l seg post.
Proof.
  intros [Hl _] -> Hh. destruct l; [by apply uncommitted_surfaced|].
  destruct (open_at_from pre (seg ++ post) 0 ∅ Hl) as (lo & Hlo & Hopen); [done|].
  change (new_filter ReadCommitted aborted) with (new_filter ReadCommitted (Some (default [] aborted))).
  apply (fresh_filter_committed (open_at pre) lo); [done|done|by apply Hh].
Qed.

Lemma read_fetch_log {A} c (map : ConsumedRecord → A) topic partition from r fr log :
  log_ok log → from ≤ i64_max →
  (∀ entry, fetched_partition topic partition r = Some entry →
     entry_of_log (isolation_level c) log from entry) →
  read_fetch decompress c map topic partition from r = Ok fr →
  from ≤ next_offset fr ≤ i64_max ∧
  fetched fr = map <$>
    records_between (records_of (visible (isolation_level c) log [])) from (next_offset fr).
Proof.
  intros Hlog Hf Hentry Hr.
  apply read_fetch_ok in Hr as (entry & bs & rest & out & n & He & Hd & Ht & ->).
  destruct (Hentry entry He bs rest Hd) as (pre & post & Hsplit & Hpre & Hab). subst log.
  pose proof (take_batches_next _ _ _ _ _ _ _ Ht) as ->.
  apply take_batches_ok in Ht as (_ & _ & _ & outs & Ho & ->).
  rewrite (fresh_filter_visible _ _ pre bs post) in Ho by done.
  assert (log_ok bs) as Hbs.
  { eapply log_ok_sublist; [|exact Hlog]. by apply sublist_inserts_l, sublist_inserts_r. }
  cbn [fetched next_offset]. fold (next_past from bs).
  split; [by apply next_past_spec|]. f_equal.
  rewrite <- (stretch_between _ pre bs post from) by done.
  pose proof (log_ok_sublist _ _ (visible_sub (isolation_level c) bs post) Hbs) as Hv.
  eapply materialized_logs; [apply Hv| |exact Ho].
  apply Forall_forall. intros b Hb. by apply (log_from_elem _ _ b (log_batches _ Hv)).
Qed.

End log.

(** ** The calls *)

Section calls.
Context {R : Runtime} {W : Type} `{Cluster W}.
Context (decompress : Compression → list byte → result ClientError (list byte)).
Context (contents : RecordBatch → list KRecord) (c : ConsumerConfig).

(** The brokers of the cluster keep [log] for the partition, and answer from
    it. *)
Record serves_log (topic : string) (partition : Z) (log : list RecordBatch) : Prop := mkServes {
  serves_fetch : ∀ from (r : FetchResponse.t) entry,
    answered (fetch_request_for c topic partition from) r →
    fetched_partition topic partition r = Some entry →
    entry_of_log (isolation_level c) log from entry;
  serves_offset : ∀ timestamp (r : ListOffsetsResponse.t) o,
    answered (list_offset_request_for c topic partition timestamp) r →
    read_list_offset topic partition r = Ok o →
    o ≤ i64_max ∧ (timestamp = EARLIEST → 0 ≤ o ∧ ∀ b, b ∈ log → o ≤ base_offset b);
}.

Lemma fetch_once_ok {A} topic partition from (map : ConsumedRecord → A) w fr w' :
  fetch_once decompress c topic partition from map w = (Ok fr, w') →
  ∃ r : FetchResponse.t, answered (fetch_request_for c topic partition from) r ∧
    read_fetch decompress c map topic partition from r = Ok fr.
Proof.
  intros (lease & w1 & _ & H1)%io_bind_ok. apply io_bind_ok in H1 as (leader & w2 & _ & H1).
  apply io_bind_ok in H1 as ([version resp] & w3 & Hl & H1).
  apply io_bind_ok in H1 as (r & w4 & Hd & H1). injection H1 as H1 _.
  apply with_lease_ok in Hl as (w5 & Hm & _).
  apply io_bind_ok in Hm as (v & w6 & _ & Hm). apply io_bind_ok in Hm as (resp' & w7 & Ha & Hm).
  injection Hm as -> -> _. exists r. split; [by eapply ask_answered|done].
Qed.

Lemma list_offset_once_ok topic partition timestamp w o w' :
  list_offset_once c topic partition timestamp w = (Ok o, w') →
  ∃ r : ListOffsetsResponse.t, answered (list_offset_request_for c topic partition timestamp) r ∧
    read_list_offset topic partition r = Ok o.
Proof.
  intros (b & w1 & _ & H1)%io_bind_ok. apply io_bind_ok in H1 as (r & w2 & He & H1).
  injection H1 as H1 _. exists r. split; [by eapply exchange_answered|done].
Qed.

(** C5: Over brokers that answer from one log, a consumer of either isolation
    level reads exactly that log's visible records: whatever connections fail
    and whatever is retried, a fetch that returns has every visible record
    from the offset asked for up to the next offset it reports, in order and
    nothing else, and its earliest offset is at or before all of them. *)
Theorem consumer_reads_the_log (topic : string) (partition : Z) (log : list RecordBatch) :
  log_ok decompress contents log → serves_log topic partition log →
  @keeps_reader_contract W (consumer_reader decompress c) topic partition
    (records_of contents (visible (isolation_level c) log [])) (λ _, True).
Proof.
  intros Hlog Hs.
  pose proof (log_ok_sublist _ _ _ _ (visible_sub (isolation_level c) log []) Hlog) as Hv.
  constructor.
  - by eapply log_ok_sorted.
  - intros r Hr. eapply records_within in Hr as (b & _ & ? & ?); [|exact Hv|done]. lia.
  - intros w from f _ Hf. split; [done|]. intros fr Hr.
    destruct (Source.fetch_with _ _ _ _ _) as [r w'] eqn:E. cbn in Hr. subst r.
    apply with_retries_ok in E as (w1 & (r & Ha & Hr)%fetch_once_ok).
    eapply read_fetch_log; [exact Hlog|done| |exact Hr]. intros entry. by apply (serves_fetch _ _ _ Hs).
  - intros w _. split; [done|]. intros o Ho.
    destruct (Source.earliest_offset _ _ _) as [r w'] eqn:E. cbn in Ho. subst r.
    apply with_retries_ok in E as (w1 & (r & Ha & Hr)%list_offset_once_ok).
    destruct (serves_offset _ _ _ Hs _ _ _ Ha Hr) as [? Hb]. destruct Hb as [? Hb]; [done|].
    split; [lia|]. intros x Hx. eapply records_within in Hx as (b & Hin & ? & ?); [|exact Hv|done].
    specialize (Hb b ltac:(eapply elem_of_sublist; [exact Hin|apply visible_sub])). lia.
  - intros w _. split; [done|]. intros o Ho.
    destruct (Source.latest_offset _ _ _) as [r w'] eqn:E. cbn in Ho. subst r.
    apply with_retries_ok in E as (w1 & (r & Ha & Hr)%list_offset_once_ok).
    by apply (serves_offset _ _ _ Hs _ _ _ Ha Hr).
Qed.

End calls.

(** *** Witness *)

#[local] Existing Instance plain_runtime.

(** Producer 7 aborts a transaction and begins another, while producer 8
    commits one. *)
Definition served_log : list RecordBatch := sample_stretch ++ sample_after.

Definition plain_contents (b : RecordBatch) : list KRecord :=
  match records b with Plain rs => rs | Compressed _ _ => [] end.

Definition served_reply : FetchResponse.t :=
  reply "t" (reply_entry 0 (Some [AbortedTransaction.mk 7 4 []]) (concat (batch_wire <$> served_log))).

Definition offset_reply : ListOffsetsResponse.t :=
  ListOffsetsResponse.mk 0
    [ListOffsetsTopicResponse.mk "t" [ListOffsetsPartitionResponse.mk 0 0 (-1) 4 (-1) []] []] [].

(** A broker that speaks one version of each call, and sends the whole log to
    every fetch. *)
Definition log_send (api version : Z) : result ClientError (list byte) :=
  if (api =? 1) && (version =? 11) then map_err Encode (enc_bytes (FetchResponse.encode 11 served_reply))
  else if (api =? 2) && (version =? 5) then
    map_err Encode (enc_bytes (ListOffsetsResponse.encode 5 offset_reply))
  else Err ConnectionClosed.

Definition log_cluster : Cluster unit := {|
  cluster_brokers := {|
    handle := unit;
    handle_ranges _ := {[ 1 := (4, 11); 2 := (1, 5) ]};
    send _ api version _ := io_of (log_send api version);
    note_throttled _ _ := id;
  |};
  partition_leader _ _ := io_ret tt;
  transaction_coordinator _ := io_ret tt;
  group_coordinator _ := io_ret tt;
  control_broker := io_ret tt;
  blocking_partition_leader _ _ := io_ret tt;
  blocking_coordinator _ := io_ret tt;
  release _ := id;
  discard _ := id;
  leader_id _ _ _ := None;
  forget_broker _ := id;
  mark_partition_stale _ _ := id;
  forget_coordinator _ := id;
  forget_transaction_coordinator _ := id;
  partition_count _ _ := Some 1;
  topic_name_by_id _ _ := None;
  refresh_metadata _ := io_ret tt;
  now_ms _ := 1000;
  entropy _ := (1, 1);
|}.

Lemma served_log_ok : log_ok no_codec plain_contents served_log.
Proof.
  split; [vm_compute; split_and!; (done || discriminate || (intros; discriminate))|].
  repeat (apply Forall_cons; split; [constructor;
    [vm_compute; reflexivity
    |apply SSorted_cons; [apply SSorted_nil|constructor]
    |apply Forall_cons; split; [split; vm_compute; discriminate|constructor]
    |vm_compute; split; (done || discriminate)]|]). constructor.
Qed.

Lemma log_send_fetch version resp : log_send 1 version = Ok resp → version = 11.
Proof. unfold log_send. cbn. destruct (Z.eqb_spec version 11); done. Qed.

Lemma log_send_offset version resp : log_send 2 version = Ok resp → version = 5.
Proof. unfold log_send. cbn. destruct (Z.eqb_spec version 5); done. Qed.

Lemma log_cluster_serves l : serves_log (H := log_cluster)
  (mkConsumerConfig 500 1 1000 20 250 100 l) "t" 0 served_log.
Proof.
  constructor.
  - intros from r entry (b & version & body & [] & resp & [] & _ & Hs & Hd) He.
    injection Hs as Hs. pose proof (log_send_fetch _ _ Hs) as ->.
    vm_compute in Hs. injection Hs as <-. vm_compute in Hd. injection Hd as <-.
    vm_compute in He. injection He as <-. intros seg rest Hset. exists [], [].
    assert (seg = served_log) as -> by (vm_compute in Hset; by injection Hset as <- _).
    split; [done|]. split; [done|]. intros _.
    assert (abort_index (open_at []) (served_log ++ []) = [(7, 4)]) as Hi by (vm_compute; reflexivity).
    split; rewrite Hi.
    + intros e ->%list_elem_of_singleton. by apply list_elem_of_singleton.
    + intros p first [= -> ->]%list_elem_of_singleton _. eexists.
      split; [by apply list_elem_of_singleton|reflexivity].
  - intros timestamp r o (b & version & body & [] & resp & [] & _ & Hs & Hd) Ho.
    injection Hs as Hs. pose proof (log_send_offset _ _ Hs) as ->.
    vm_compute in Hs. injection Hs as <-. vm_compute in Hd. injection Hd as <-.
    vm_compute in Ho. injection Ho as <-. split; [int_lia|]. intros _. split; [lia|].
    apply Forall_forall. repeat (apply Forall_cons; split; [vm_compute; discriminate|]). constructor.
Qed.

Lemma consumer_reads_the_log_witness :
  @keeps_reader_contract unit (consumer_reader (H := log_cluster) no_codec committed_reader) "t" 0
    (records_of plain_contents (visible ReadCommitted served_log [])) (λ _, True) ∧
  ∃ fr, (fetch (H := log_cluster) no_codec committed_reader "t" 0 6 tt).1 = Ok fr ∧
    record_offset <$> fetched fr = [7] ∧ next_offset fr = 10.
Proof.
  split.
  - apply (consumer_reads_the_log (H := log_cluster) no_codec plain_contents committed_reader);
      [apply served_log_ok|apply log_cluster_serves].
  - eexists. vm_compute. split_and!; reflexivity.
Defined.
