(* ===== verification/Group.v ===== *)
(** * Classic consumer groups ([odradek-client/src/group.rs])

    The range assignor: how the leader of a group splits every topic's partitions
    among the topic's subscribers, and the theorem that it splits them.  Then a
    membership as a state beside the world's: joining in rounds of JoinGroup
    and SyncGroup, the leader's assignment of the whole group, heartbeats,
    fenced commits, leaving.  A panic of [expect] is an error that is not
    retried. *)
From S2P Require Import Prelude Budget Codec MessageTrait MsgGroup Registry ConsumerProtocol ClientError Exchange Offsets.

(** ** The range assignor *)

(** [BTreeMap<String, _>]'s iteration order. *)
Definition key_le {A} (a b : string * A) : Prop := String.le a.1 b.1.
#[export] Instance key_le_dec {A} : RelDecision (@key_le A) :=
  λ a b, decide (String.le a.1 b.1).

Definition into_iter {A} (m : gmap string A) : list (string * A) := merge_sort key_le (map_to_list m).

(** A member's share: topics, each with its partitions. *)
Abbreviation Parts := (list (string * list Z)).

(** The members that subscribe to a topic, sorted. *)
Definition subscribers (topic : string) (subscriptions : list (string * list string)) : list string :=
  merge_sort String.le (fst <$> base.filter (λ s, topic ∈ s.2) subscriptions).

(** The [for] over a topic's members, from the [i]th and partition [next]. *)
Fixpoint split_range (topic : string) (per extra i next : Z) (members : list string)
    (out : gmap string Parts) : gmap string Parts :=
  match members with
  | [] => out
  | member :: members =>
      let take := per + (if default i32_max (try_from i32_min i32_max i) <? extra then 1 else 0) in
      if take =? 0 then split_range topic per extra (i + 1) next members out
      else split_range topic per extra (i + 1) (next + take) members
             (alter (λ parts, parts ++ [(topic, seqZ next take)]) member out)
  end.

Definition assign_topic (subscriptions : list (string * list string))
    (out : gmap string Parts) (t : string * Z) : gmap string Parts :=
  let '(topic, count) := t in
  match subscribers topic subscriptions with
  | [] => out
  | members =>
      let n := default i32_max (try_from i32_min i32_max (len members)) in
      split_range topic (Z.quot count n) (Z.rem count n) 0 0 members out
  end.

Definition range_assign (topic_partitions : list (string * Z))
    (subscriptions : list (string * list string)) : gmap string Parts :=
  foldl (assign_topic subscriptions)
    (list_to_map ((λ s, (s.1, [])) <$> subscriptions)) topic_partitions.

Example range_assignor_splits_like_kafka :
  into_iter (range_assign [("t", 5)] [("member-b", ["t"]); ("member-a", ["t"])]) =
    [("member-a", [("t", [0; 1; 2])]); ("member-b", [("t", [3; 4])])].
Proof. vm_compute. reflexivity. Qed.

Example range_assignor_respects_subscriptions :
  into_iter (range_assign [("x", 2); ("y", 1)] [("m1", ["x"]); ("m2", ["x"; "y"]); ("m3", ["z"])]) =
    [("m1", [("x", [0])]); ("m2", [("x", [1]); ("y", [0])]); ("m3", [])].
Proof. vm_compute. reflexivity. Qed.

Lemma sublist_concat {A} (x : list A) l : x ∈ l → x `sublist_of` concat l.
Proof.
  induction l as [|y l IH]; [by intros ?%not_elem_of_nil|].
  intros [->|H]%elem_of_cons; cbn [concat]; [by apply sublist_inserts_r|].
  by apply sublist_inserts_l, IH.
Qed.

(** ** Who subscribes *)

Section subscriptions.
Context (subscriptions : list (string * list string)).

Lemma elem_of_subscribers topic m :
  m ∈ subscribers topic subscriptions ↔ ∃ topics, (m, topics) ∈ subscriptions ∧ topic ∈ topics.
Proof.
  unfold subscribers. rewrite (merge_sort_Permutation String.le), list_elem_of_fmap. split.
  - intros ([m' topics] & -> & Hin). apply list_elem_of_filter in Hin as [Ht Hin]. by exists topics.
  - intros (topics & Hin & Ht). exists (m, topics). split; [done|]. by apply list_elem_of_filter.
Qed.

Lemma subscribers_nodup topic : NoDup subscriptions.*1 → NoDup (subscribers topic subscriptions).
Proof.
  intros Hn. unfold subscribers. rewrite (merge_sort_Permutation String.le).
  eapply sublist_NoDup; [exact Hn|]. apply fmap_sublist, sublist_filter.
Qed.

Lemma subscribers_members topic m : m ∈ subscribers topic subscriptions → m ∈ subscriptions.*1.
Proof.
  intros (topics & Hin & _)%elem_of_subscribers. apply list_elem_of_fmap. by exists (m, topics).
Qed.

End subscriptions.

(** ** One topic *)

(** The length of the [i]th share, and where the shares from the [i]th on
    lie. *)
Definition share (per extra i : Z) : Z := per + (if i <? extra then 1 else 0).

Fixpoint shares (per extra i next : Z) (k : nat) : list (list Z) :=
  match k with
  | O => []
  | S k => seqZ next (share per extra i) :: shares per extra (i + 1) (next + share per extra i) k
  end.

Lemma shares_length per extra k : ∀ i next, length (shares per extra i next k) = k.
Proof. induction k as [|k IH]; intros i next; cbn; [done|]. by rewrite IH. Qed.

Lemma shares_cover per extra k : ∀ i next,
  0 ≤ per → 0 ≤ i →
  concat (shares per extra i next k) =
    seqZ next (per * Z.of_nat k + Z.max 0 (Z.min extra (i + Z.of_nat k) - i)).
Proof.
  induction k as [|k IH]; intros i next Hp Hi; cbn [shares concat].
  { replace (per * Z.of_nat 0 + _) with 0 by lia. done. }
  rewrite IH by lia. unfold share. destruct (Z.ltb_spec i extra).
  - rewrite <- seqZ_app by lia. f_equal. lia.
  - rewrite <- seqZ_app by lia. f_equal. lia.
Qed.

Lemma shares_even per extra k : ∀ i next, 0 ≤ per →
  Forall (λ s, per ≤ len s ≤ per + 1) (shares per extra i next k).
Proof.
  induction k as [|k IH]; intros i next Hp; cbn [shares]; [constructor|].
  constructor; [|by apply IH]. rewrite length_seqZ. unfold share. destruct (i <? extra); lia.
Qed.

(** The partitions of [topic] that [out] gives a member. *)
Definition parts_of (out : gmap string Parts) (topic m : string) : list Z :=
  concat (snd <$> base.filter (λ e, e.1 = topic) (default [] (out !! m))).

Lemma parts_of_alter_ne out topic m m' f :
  m ≠ m' → parts_of (alter f m out) topic m' = parts_of out topic m'.
Proof. intros H. unfold parts_of. by rewrite lookup_alter_ne. Qed.

Lemma parts_of_push out topic topic' m ps :
  is_Some (out !! m) →
  parts_of (alter (λ parts, parts ++ [(topic, ps)]) m out) topic' m =
    parts_of out topic' m ++ (if decide (topic = topic') then ps else []).
Proof.
  intros [l Hl]. unfold parts_of. rewrite lookup_alter_eq, Hl. cbn [fmap option_fmap option_map from_option id].
  rewrite filter_app, fmap_app, concat_app, filter_cons, filter_nil. cbn [fst].
  destruct (decide (topic = topic')); cbn; by rewrite ?app_nil_r.
Qed.

Section topic.
Context (topic : string) (per extra : Z).

Lemma split_range_dom members : ∀ i next out m,
  is_Some (split_range topic per extra i next members out !! m) ↔ is_Some (out !! m).
Proof.
  induction members as [|x members IH]; intros i next out m; cbn [split_range]; [done|].
  destruct (_ =? 0); rewrite IH; [done|].
  destruct (decide (x = m)) as [->|]; [|by rewrite lookup_alter_ne].
  rewrite lookup_alter_eq. by rewrite fmap_is_Some.
Qed.

Lemma split_range_other members : ∀ i next out topic' m,
  Forall (λ x, is_Some (out !! x)) members → (topic ≠ topic' ∨ m ∉ members) →
  parts_of (split_range topic per extra i next members out) topic' m = parts_of out topic' m.
Proof.
  induction members as [|x members IH]; intros i next out topic' m Hs Hm; cbn [split_range]; [done|].
  inversion Hs as [|? ? Hx Hs']; subst.
  assert (topic ≠ topic' ∨ m ∉ members) as Hm' by (rewrite not_elem_of_cons in Hm; naive_solver).
  destruct (_ =? 0); rewrite IH; try done.
  - destruct (decide (x = m)) as [->|]; [|by rewrite parts_of_alter_ne].
    rewrite parts_of_push by done.
    rewrite not_elem_of_cons in Hm. destruct (decide (topic = topic')); [naive_solver|by rewrite app_nil_r].
  - eapply Forall_impl; [exact Hs'|]. intros y Hy.
    destruct (decide (x = y)) as [->|]; [rewrite lookup_alter_eq; by apply fmap_is_Some|by rewrite lookup_alter_ne].
Qed.

(** Every member is given its share. *)
Lemma split_range_shares members : ∀ i next out,
  NoDup members → Forall (λ x, is_Some (out !! x)) members → 0 ≤ i → i + len members ≤ i32_max →
  (λ m, parts_of (split_range topic per extra i next members out) topic m) <$> members =
  zip_with (++) ((λ m, parts_of out topic m) <$> members) (shares per extra i next (length members)).
Proof.
  induction members as [|x members IH]; intros i next out Hn Hs Hi Hl; [done|].
  apply NoDup_cons in Hn as [Hx Hn]. inversion Hs as [|? ? Hsx Hs']; subst.
  cbn [length] in Hl. cbn [split_range length shares]. rewrite try_from_in by int_lia.
  cbn [from_option id]. fold (share per extra i).
  set (out' := if share per extra i =? 0 then out else
    alter (λ parts, parts ++ [(topic, seqZ next (share per extra i))]) x out).
  assert ((if share per extra i =? 0
    then split_range topic per extra (i + 1) next members out
    else split_range topic per extra (i + 1) (next + share per extra i) members
           (alter (λ parts, parts ++ [(topic, seqZ next (share per extra i))]) x out)) =
    split_range topic per extra (i + 1) (next + share per extra i) members out') as ->.
  { unfold out'. destruct (Z.eqb_spec (share per extra i) 0) as [->|]; [|done]. by rewrite Z.add_0_r. }
  assert (Forall (λ y, is_Some (out' !! y)) members) as Hs''.
  { eapply Forall_impl; [exact Hs'|]. intros y Hy. unfold out'. destruct (_ =? 0); [done|].
    destruct (decide (x = y)) as [->|]; [rewrite lookup_alter_eq; by apply fmap_is_Some|by rewrite lookup_alter_ne]. }
  rewrite !fmap_cons. cbn [zip_with]. f_equal.
  - rewrite split_range_other by (done || by right). unfold out'.
    destruct (Z.eqb_spec (share per extra i) 0) as [->|].
    + by rewrite seqZ_nil, app_nil_r by lia.
    + by rewrite parts_of_push, decide_True by done.
  - rewrite IH by (done || lia). f_equal. apply list_fmap_ext. intros j y Hy. unfold out'.
    destruct (_ =? 0); [done|]. apply parts_of_alter_ne. intros ->.
    apply Hx. by eapply list_elem_of_lookup_2.
Qed.

Lemma split_range_absent members : ∀ i next out m,
  m ∉ members → split_range topic per extra i next members out !! m = out !! m.
Proof.
  induction members as [|x members IH]; intros i next out m Hm; cbn [split_range]; [done|].
  apply not_elem_of_cons in Hm as [Hx Hm].
  destruct (_ =? 0); rewrite IH by done; [done|]. by rewrite lookup_alter_ne.
Qed.

(** A member's entry grows by at most one topic. *)
Lemma split_range_entry members : ∀ i next out m parts',
  NoDup members → split_range topic per extra i next members out !! m = Some parts' →
  ∃ parts, out !! m = Some parts ∧ (parts' = parts ∨ ∃ ps, parts' = parts ++ [(topic, ps)]).
Proof.
  induction members as [|x members IH]; intros i next out m parts' Hn H; cbn [split_range] in H.
  { exists parts'. by split; [|left]. }
  apply NoDup_cons in Hn as [Hx Hn]. destruct (_ =? 0); [by eapply IH|].
  destruct (decide (x = m)) as [->|].
  - rewrite split_range_absent, lookup_alter_eq in H by done.
    apply fmap_Some in H as (parts & Hp & ->). exists parts. split; [done|]. right. by eexists.
  - apply IH in H as (parts & Hp & Hor); [|done]. rewrite lookup_alter_ne in Hp by done. by exists parts.
Qed.

End topic.

(** ** All topics *)

Lemma seed_lookup (subscriptions : list (string * list string)) m :
  (list_to_map ((λ s, (s.1, [])) <$> subscriptions) : gmap string Parts) !! m =
    if decide (m ∈ subscriptions.*1) then Some [] else None.
Proof.
  induction subscriptions as [|[x ts] l IH]; [by rewrite decide_False by apply not_elem_of_nil|].
  rewrite !fmap_cons, list_to_map_cons. cbn [fst]. destruct (decide (x = m)) as [->|Hne].
  - rewrite lookup_insert_eq, decide_True by apply list_elem_of_here. done.
  - rewrite lookup_insert_ne, IH by done. apply decide_ext. rewrite elem_of_cons. naive_solver.
Qed.

Section assign.
Context (subscriptions : list (string * list string)).
Hypothesis Hmembers : NoDup subscriptions.*1.
Hypothesis Hcount : len subscriptions ≤ i32_max.

(** What a topic's subscribers are owed. *)
Definition fair_shares (topic : string) (count : Z) : list (list Z) :=
  let n := len (subscribers topic subscriptions) in
  shares (Z.quot count n) (Z.rem count n) 0 0 (length (subscribers topic subscriptions)).

Definition seeded (out : gmap string Parts) : Prop :=
  ∀ m, is_Some (out !! m) ↔ m ∈ subscriptions.*1.

Lemma subscribers_count topic : len (subscribers topic subscriptions) ≤ i32_max.
Proof.
  assert (length (subscribers topic subscriptions) ≤ length subscriptions)%nat; [|lia].
  unfold subscribers. rewrite (merge_sort_Permutation String.le), length_fmap.
  apply length_filter.
Qed.

Lemma seeded_subscribers out topic :
  seeded out → Forall (λ x, is_Some (out !! x)) (subscribers topic subscriptions).
Proof. intros Hs. apply Forall_forall. intros m Hm%subscribers_members. by apply Hs. Qed.

Lemma assign_topic_seeded out t : seeded out → seeded (assign_topic subscriptions out t).
Proof.
  intros Hs m. destruct t as [topic count]. unfold assign_topic.
  destruct (subscribers topic subscriptions); [apply Hs|]. rewrite split_range_dom. apply Hs.
Qed.

Lemma assign_topic_other out t topic' m :
  seeded out → t.1 ≠ topic' ∨ m ∉ subscribers t.1 subscriptions →
  parts_of (assign_topic subscriptions out t) topic' m = parts_of out topic' m.
Proof.
  intros Hs Hm. destruct t as [topic count]. cbn [fst] in Hm. unfold assign_topic.
  pose proof (seeded_subscribers out topic Hs) as Hs'.
  destruct (subscribers topic subscriptions); [done|]. by apply split_range_other.
Qed.

Lemma assign_topic_shares out topic count :
  seeded out → (∀ m, parts_of out topic m = []) →
  parts_of (assign_topic subscriptions out (topic, count)) topic <$> subscribers topic subscriptions =
    fair_shares topic count.
Proof.
  intros Hs Hnone. unfold assign_topic, fair_shares.
  pose proof (seeded_subscribers out topic Hs) as Hs'.
  pose proof (subscribers_count topic) as Hc. pose proof (subscribers_nodup _ topic Hmembers) as Hn.
  destruct (subscribers topic subscriptions) as [|x xs]; [done|].
  rewrite try_from_in by int_lia. cbn [from_option id].
  set (per := Z.quot count _). set (extra := Z.rem count _). set (members := x :: xs) in *.
  rewrite (split_range_shares topic per extra) by (done || int_lia).
  assert ((λ m, parts_of out topic m) <$> members = replicate (length members) []) as ->.
  { clear -Hnone. induction members as [|m ms IH]; [done|]. rewrite fmap_cons, IH, Hnone. done. }
  generalize (shares_length per extra (length members) 0 0).
  generalize (shares per extra 0 0 (length members)). generalize (length members). clear.
  intros n. induction n as [|n IH]; intros [|s ss]; intros [=]; cbn; [done|]. by rewrite IH.
Qed.

Lemma fair_shares_cover topic count :
  subscribers topic subscriptions ≠ [] → 0 ≤ count →
  concat (fair_shares topic count) = seqZ 0 count ∧
  ∀ s1 s2, s1 ∈ fair_shares topic count → s2 ∈ fair_shares topic count → len s1 ≤ len s2 + 1.
Proof.
  intros Hne H0. unfold fair_shares.
  assert (0 < len (subscribers topic subscriptions)) as Hn.
  { destruct (subscribers topic subscriptions); [done|]. cbn [length]. lia. }
  set (n := len (subscribers topic subscriptions)) in *.
  assert (0 ≤ Z.quot count n) as Hq by (apply Z.quot_pos; lia).
  pose proof (Z.rem_bound_pos count n H0 Hn) as Hr.
  pose proof (Z.quot_rem' count n) as Hqr. split.
  - rewrite shares_cover by lia. f_equal. fold n. lia.
  - pose proof (shares_even (Z.quot count n) (Z.rem count n)
      (length (subscribers topic subscriptions)) 0 0 Hq) as He.
    rewrite Forall_forall in He. intros s1 s2 H1%He H2%He. cbn in *. lia.
Qed.

Lemma range_assign_inv counts :
  NoDup counts.*1 →
  let out := range_assign counts subscriptions in
  seeded out ∧
  (∀ topic m, topic ∉ counts.*1 ∨ m ∉ subscribers topic subscriptions → parts_of out topic m = []) ∧
  ∀ topic count, (topic, count) ∈ counts →
    parts_of out topic <$> subscribers topic subscriptions = fair_shares topic count.
Proof.
  induction counts as [|[t c] counts IH] using rev_ind; intros Hn.
  - cbn [range_assign foldl]. split_and!.
    + intros m. rewrite seed_lookup. case_decide; [done|]. split; [by intros [? ?]|done].
    + intros topic m _. unfold parts_of. rewrite seed_lookup. by case_decide.
    + by intros topic count H%not_elem_of_nil.
  - rewrite fmap_app in Hn. apply NoDup_app in Hn as (Hn & Hnew & _).
    destruct (IH Hn) as (Hs & Hnone & Hall).
    unfold range_assign in *. cbv zeta. rewrite foldl_app. cbn [foldl].
    set (out := foldl _ _ counts) in *.
    assert (∀ m, parts_of out t m = []) as Ht.
    { intros m. apply Hnone. left. intros Hin. apply (Hnew t Hin). by apply list_elem_of_here. }
    split_and!.
    + by apply assign_topic_seeded.
    + intros topic m Hm. destruct (decide (t = topic)) as [->|].
      * rewrite assign_topic_other; [done|done|]. right. destruct Hm as [Hm|]; [|done].
        exfalso. apply Hm. rewrite fmap_app, elem_of_app. right. by apply list_elem_of_here.
      * rewrite assign_topic_other; [|done|by left]. apply Hnone.
        destruct Hm as [Hm|]; [left|by right]. rewrite fmap_app, elem_of_app in Hm. tauto.
    + intros topic count [Hin|[= -> ->]%list_elem_of_singleton]%elem_of_app.
      * rewrite <- (Hall topic count Hin). apply list_fmap_ext. intros i m _.
        apply assign_topic_other; [done|]. left. cbn [fst]. intros <-. apply (Hnew t).
        -- apply list_elem_of_fmap. by exists (t, count).
        -- by apply list_elem_of_here.
      * by apply assign_topic_shares.
Qed.

Lemma range_assign_topics counts m parts :
  range_assign counts subscriptions !! m = Some parts → parts.*1 `sublist_of` counts.*1.
Proof.
  revert m parts. induction counts as [|[t c] counts IH] using rev_ind; intros m parts H.
  { cbn [range_assign foldl] in H. rewrite seed_lookup in H. case_decide; [by injection H as <-|done]. }
  unfold range_assign in H. rewrite foldl_app in H. cbn [foldl] in H.
  fold (range_assign counts subscriptions) in H. rewrite fmap_app.
  assert (range_assign counts subscriptions !! m = Some parts ∨
    ∃ parts0, range_assign counts subscriptions !! m = Some parts0 ∧
      (parts = parts0 ∨ ∃ ps, parts = parts0 ++ [(t, ps)])) as Hstep.
  { unfold assign_topic in H. pose proof (subscribers_nodup _ t Hmembers) as Hn.
    destruct (subscribers t subscriptions); [by left|right]. by eapply split_range_entry. }
  destruct Hstep as [Hs|(parts0 & Hs & [->|(ps & ->)])]; specialize (IH _ _ Hs).
  - by apply sublist_inserts_r.
  - by apply sublist_inserts_r.
  - rewrite fmap_app. by apply sublist_app.
Qed.

(** Every share of an entry is made of the topic's partitions. *)
Lemma range_assign_within counts m parts topic ps :
  NoDup counts.*1 → Forall (λ c, 0 ≤ c.2) counts →
  range_assign counts subscriptions !! m = Some parts → (topic, ps) ∈ parts →
  ∃ count, (topic, count) ∈ counts ∧ len ps ≤ count ∧ Forall (λ p, 0 ≤ p < count) ps.
Proof.
  intros Hc Hpos Hm Hin. destruct (range_assign_inv counts Hc) as (_ & Hnone & Hall).
  pose proof (range_assign_topics counts m parts Hm) as Hsub.
  assert (topic ∈ counts.*1) as ([t count] & -> & Htc)%list_elem_of_fmap.
  { eapply elem_of_sublist; [|exact Hsub]. apply list_elem_of_fmap. by exists (topic, ps). }
  cbn [fst] in *. specialize (Hall t count Htc). exists count. split; [done|].
  pose proof (proj1 (Forall_forall _ _) Hpos _ Htc) as H0. cbn [snd] in H0.
  assert (ps `sublist_of` parts_of (range_assign counts subscriptions) t m) as Hps.
  { unfold parts_of. rewrite Hm. cbn [from_option id]. apply sublist_concat, list_elem_of_fmap.
    exists (t, ps). split; [done|]. by apply list_elem_of_filter. }
  assert (parts_of (range_assign counts subscriptions) t m `sublist_of` seqZ 0 count) as Hseq.
  { destruct (decide (m ∈ subscribers t subscriptions)) as [Hs|Hs].
    - destruct (fair_shares_cover t count) as [<- _]; [|done|].
      + intros E. rewrite E in Hs. by apply not_elem_of_nil in Hs.
      + rewrite <- Hall. by apply sublist_concat, list_elem_of_fmap_2.
    - rewrite Hnone by by right. apply sublist_nil_l. }
  pose proof (transitivity Hps Hseq) as Hall'. split.
  - apply sublist_length in Hall'. rewrite length_seqZ in Hall'. lia.
  - apply Forall_forall. intros p Hp. pose proof (elem_of_sublist _ _ _ Hp Hall') as Hin'.
    apply elem_of_seqZ in Hin'. lia.
Qed.

Lemma range_assign_permuted counts subscriptions' :
  subscriptions' ≡ₚ subscriptions → range_assign counts subscriptions' = range_assign counts subscriptions.
Proof.
  intros Hp.
  assert (∀ topic, subscribers topic subscriptions' = subscribers topic subscriptions) as Hsub.
  { intros topic. unfold subscribers. apply (StronglySorted_unique String.le);
      [apply StronglySorted_merge_sort; apply _..|].
    by rewrite !(merge_sort_Permutation String.le), Hp. }
  unfold range_assign. replace (list_to_map _ : gmap string Parts)
    with (list_to_map ((λ s, (s.1, [])) <$> subscriptions) : gmap string Parts).
  - revert counts. generalize (list_to_map ((λ s, (s.1, [])) <$> subscriptions) : gmap string Parts).
    intros out counts. revert out. induction counts as [|[t c] counts IH]; intros out; [done|].
    cbn [foldl]. rewrite IH. unfold assign_topic. by rewrite Hsub.
  - apply map_eq. intros m. rewrite !seed_lookup. apply decide_ext. by rewrite Hp.
Qed.

End assign.

(** ** Theorem *)

(** C20: The range assignor splits every topic: each member of the group has an
    entry; a topic that anybody subscribes to is handed out whole, its
    partitions from 0 up in contiguous ranges to its subscribers in the order
    of their ids, no partition left out or given twice; nobody else gets any of
    it; shares differ by at most one; and the outcome does not depend on the
    order in which the coordinator lists the members. *)
Theorem range_assign_splits (counts : list (string * Z)) (subscriptions : list (string * list string)) :
  NoDup counts.*1 → Forall (λ c, 0 ≤ c.2) counts →
  NoDup subscriptions.*1 → len subscriptions ≤ i32_max →
  let out := range_assign counts subscriptions in
  (∀ m, is_Some (out !! m) ↔ m ∈ subscriptions.*1) ∧
  (∀ topic m, m ∉ subscribers topic subscriptions → parts_of out topic m = []) ∧
  (∀ topic count, (topic, count) ∈ counts → subscribers topic subscriptions ≠ [] →
     concat (parts_of out topic <$> subscribers topic subscriptions) = seqZ 0 count ∧
     ∀ m1 m2, m1 ∈ subscribers topic subscriptions → m2 ∈ subscribers topic subscriptions →
       len (parts_of out topic m1) ≤ len (parts_of out topic m2) + 1) ∧
  ∀ subscriptions', subscriptions' ≡ₚ subscriptions → range_assign counts subscriptions' = out.
Proof.
  intros Hc Hpos Hs Hl out.
  destruct (range_assign_inv subscriptions Hs Hl counts Hc) as (Hseed & Hnone & Hall).
  split; [exact Hseed|]. split; [by auto|]. split; [|by intros; apply range_assign_permuted].
  intros topic count Hin Hne. specialize (Hall topic count Hin). fold out in Hall.
  pose proof (proj1 (Forall_forall _ _) Hpos _ Hin) as H0. cbn [snd] in H0.
  destruct (fair_shares_cover subscriptions topic count Hne H0) as [Hcov Heven].
  rewrite Hall. split; [done|]. intros m1 m2 H1 H2.
  apply Heven; rewrite <- Hall; by apply list_elem_of_fmap_2.
Qed.

Lemma range_assign_splits_witness :
  let subs := [("m2", ["x"; "y"]); ("m1", ["x"]); ("m3", ["z"])] in
  let out := range_assign [("x", 3); ("y", 1)] subs in
  subscribers "x" subs = ["m1"; "m2"] ∧
  concat (parts_of out "x" <$> subscribers "x" subs) = [0; 1; 2] ∧ parts_of out "x" "m3" = [].
Proof.
  destruct (range_assign_splits [("x", 3); ("y", 1)] [("m2", ["x"; "y"]); ("m1", ["x"]); ("m3", ["z"])])
    as (_ & Hnone & Hall & _).
  - apply (bool_decide_unpack _). vm_compute. exact I.
  - repeat constructor; cbn; lia.
  - apply (bool_decide_unpack _). vm_compute. exact I.
  - cbn. int_lia.
  - intros subs out. split; [vm_compute; reflexivity|]. split.
    + apply (Hall "x" 3); [by apply list_elem_of_here|]. vm_compute. discriminate.
    + apply Hnone. apply (bool_decide_unpack _). vm_compute. exact I.
Defined.

(** ** Membership *)

Import join_group_request join_group_response sync_group_request sync_group_response heartbeat_request heartbeat_response leave_group_request leave_group_response.

Definition JOIN_SUPPORTED : Z * Z := (4, JoinGroupRequest.MAX_VERSION).
Definition SYNC_SUPPORTED : Z * Z := (3, SyncGroupRequest.MAX_VERSION).
Definition HEARTBEAT_SUPPORTED : Z * Z := (0, HeartbeatRequest.MAX_VERSION).
Definition LEAVE_SUPPORTED : Z * Z := (0, LeaveGroupRequest.MAX_VERSION).

Definition PROTOCOL_TYPE : string := "consumer".
Definition ASSIGNOR : string := "range".

Record GroupConfig : Type := mkGroupConfig {
  session_timeout_ms : Z;
  rebalance_timeout_ms : Z;
  max_attempts : nat;
  retry_backoff : Z;
}.

Definition default_config : GroupConfig := mkGroupConfig 30000 60000 20 250.

Inductive HeartbeatStatus : Type := Stable | RebalanceInProgress | Evicted.

#[export] Instance HeartbeatStatus_eq_dec : EqDecision HeartbeatStatus.
Proof. solve_decision. Defined.

(** [struct GroupMember], less the cluster. *)
Record GroupMember : Type := mkGroupMember {
  config : GroupConfig;
  group_id : string;
  topics : list string;
  member_id : string;
  generation_id : Z;
  is_leader : bool;
  assignment : Parts;
}.

Definition set_member_id (id : string) (g : GroupMember) : GroupMember :=
  mkGroupMember (config g) (group_id g) (topics g) id (generation_id g) (is_leader g) (assignment g).
Definition set_assignment (parts : Parts) (g : GroupMember) : GroupMember :=
  mkGroupMember (config g) (group_id g) (topics g) (member_id g) (generation_id g) (is_leader g) parts.

(** The member as [GroupMember::join] makes it, before its first round. *)
Definition new_member (config : GroupConfig) (group_id : string) (topics : list string) : GroupMember :=
  mkGroupMember config group_id topics "" (-1) false [].

(** ** Requests *)

Definition join_request (g : GroupMember) (subscription : list byte) : JoinGroupRequest.t :=
  let protocol := JoinGroupRequestProtocol.mk ASSIGNOR subscription
    (JoinGroupRequestProtocol.unknown_tagged_fields JoinGroupRequestProtocol.default) in
  let d := JoinGroupRequest.default in
  JoinGroupRequest.mk (group_id g) (session_timeout_ms (config g)) (rebalance_timeout_ms (config g))
    (member_id g) None PROTOCOL_TYPE [protocol] (JoinGroupRequest.reason d)
    (JoinGroupRequest.unknown_tagged_fields d).

Definition sync_request (g : GroupMember) (assignments : list SyncGroupRequestAssignment.t) :
    SyncGroupRequest.t :=
  SyncGroupRequest.mk (group_id g) (generation_id g) (member_id g) None (Some PROTOCOL_TYPE)
    (Some ASSIGNOR) assignments
    (SyncGroupRequest.unknown_tagged_fields SyncGroupRequest.default).

Definition heartbeat_request_of (g : GroupMember) : HeartbeatRequest.t :=
  let d := HeartbeatRequest.default in
  HeartbeatRequest.mk (group_id g) (generation_id g) (member_id g)
    (HeartbeatRequest.group_instance_id d) (HeartbeatRequest.unknown_tagged_fields d).

Definition leave_request (g : GroupMember) : LeaveGroupRequest.t :=
  let i := MemberIdentity.default in
  let identity := MemberIdentity.mk (member_id g) (MemberIdentity.group_instance_id i)
    (MemberIdentity.reason i) (MemberIdentity.unknown_tagged_fields i) in
  LeaveGroupRequest.mk (group_id g) (member_id g) [identity]
    (LeaveGroupRequest.unknown_tagged_fields LeaveGroupRequest.default).

(** ** The leader's assignment *)

Definition expect {W A} (o : option A) : io W A :=
  io_of (ok_or (ProtocolViolation "panic") o).

(** [BTreeSet<String>] of what the members subscribe to. *)
Definition all_topics (subscriptions : list (string * list string)) : list string :=
  merge_sort String.le (remove_dups (concat subscriptions.*2)).

Definition encode_entry (e : string * Parts) : option SyncGroupRequestAssignment.t :=
  (λ bytes, SyncGroupRequestAssignment.mk e.1 bytes
     (SyncGroupRequestAssignment.unknown_tagged_fields SyncGroupRequestAssignment.default)) <$>
    encode_assignment e.2.

Section member.
Context {R : Runtime} {W : Type} `{Cluster W}.

(** The subscriptions of a join response, in its order. *)
Fixpoint subscriptions_of (members : list JoinGroupResponseMember.t) :
    result ClientError (list (string * list string)) :=
  match members with
  | [] => Ok []
  | m :: members =>
      let? topics := map_err Decode (decode_subscription (JoinGroupResponseMember.metadata m)) in
      let? rest := subscriptions_of members in
      Ok ((JoinGroupResponseMember.member_id m, topics) :: rest)
  end.

Definition known_count (w : W) (topic : string) : Z :=
  match partition_count topic w with
  | Some count => default i32_max (try_from i32_min i32_max count)
  | None => 0
  end.

Definition leader_assignments (members : list JoinGroupResponseMember.t) :
    io W (list SyncGroupRequestAssignment.t) :=
  let^ subscriptions := io_of (subscriptions_of members) in
  let^ _ := refresh_metadata (all_topics subscriptions) in
  let^ counts := λ w, (Ok ((λ t, (t, known_count w t)) <$> all_topics subscriptions), w) in
  expect (mapM encode_entry (into_iter (range_assign counts subscriptions))).

(** ** Joining *)

(** The calls of a member: its state, and the world's. *)
Abbreviation member_io := (io (GroupMember * W)).

Definition join_once (broker : handle) (join : JoinGroupRequest.t) (version : Z) :
    io W JoinGroupResponse.t :=
  let^ resp := ask (λ _ w, w) broker version join in
  decode_response broker version resp.

(** The first half of a round: JoinGroup, again at once when the coordinator
    mints an id. *)
Definition join_exchange (broker : handle) (subscription : list byte) : member_io JoinGroupResponse.t :=
  let^ version := lift (pick_version JoinGroupRequest.t broker JOIN_SUPPORTED) in
  let^ g := this in
  let join := join_request g subscription in
  let^ resp := lift (join_once broker join version) in
  if JoinGroupResponse.error_code resp =? error_code.MEMBER_ID_REQUIRED then
    let^ _ := update (set_member_id (JoinGroupResponse.member_id resp)) in
    let^ g := this in
    lift (join_once broker (join_request g subscription) version)
  else io_ret resp.

Definition joined (resp : JoinGroupResponse.t) (g : GroupMember) : GroupMember :=
  mkGroupMember (config g) (group_id g) (topics g) (JoinGroupResponse.member_id resp)
    (JoinGroupResponse.generation_id resp)
    (String.eqb (JoinGroupResponse.leader resp) (JoinGroupResponse.member_id resp)) (assignment g).

(** The second half: SyncGroup, with the whole group's assignment when this
    member leads it. *)
Definition sync_exchange (broker : handle) (members : list JoinGroupResponseMember.t) :
    member_io SyncGroupResponse.t :=
  let^ g := this in
  let^ assignments := if is_leader g then lift (leader_assignments members) else io_ret [] in
  lift (exchange broker SYNC_SUPPORTED (sync_request g assignments)).

Definition join_round : member_io unit :=
  let^ g := this in
  let^ subscription := expect (encode_subscription (topics g)) in
  let^ lease := lift (blocking_coordinator (group_id g)) in
  with_lease (on_world (release lease)) (on_world (discard lease))
    (let^ resp := join_exchange lease subscription in
     let^ _ := io_of (broker_code (JoinGroupResponse.error_code resp)) in
     let^ _ := update (joined resp) in
     let^ sync := sync_exchange lease (JoinGroupResponse.members resp) in
     let^ _ := io_of (broker_code (SyncGroupResponse.error_code sync)) in
     let^ parts := io_of (map_err Decode (decode_assignment (SyncGroupResponse.assignment sync))) in
     update (set_assignment parts)).

(** One attempt of [rejoin], and what it makes of its error. *)
Definition rejoin_attempt : GroupMember * W → Attempt unit * (GroupMember * W) := λ c,
  let '(r, (g, w)) := join_round c in
  match r with
  | Ok _ => (Done tt, (g, w))
  | Err e =>
      if is_retriable e then (Retry e, (g, forget_coordinator (group_id g) w))
      else
        match e with
        | Broker code =>
            if (code =? error_code.REBALANCE_IN_PROGRESS) || (code =? error_code.ILLEGAL_GENERATION)
            then (Retry e, (g, w))
            else if code =? error_code.UNKNOWN_MEMBER_ID then (Retry e, (set_member_id "" g, w))
            else (Fatal e, (g, w))
        | _ => (Fatal e, (g, w))
        end
  end.

Definition member_retries {A} (attempt : GroupMember * W → Attempt A * (GroupMember * W)) :
    member_io A := λ c,
  retrying (λ c, entropy c.2) (max_attempts (config c.1)) (retry_backoff (config c.1)) attempt c.

Definition rejoin : member_io unit := member_retries rejoin_attempt.

(** [GroupMember::join]. *)
Definition join (config : GroupConfig) (group_id : string) (topics : list string) : io W GroupMember :=
  λ w,
  let '(r, (g, w)) := rejoin (new_member config group_id topics, w) in
  match r with
  | Ok _ => (Ok g, w)
  | Err e => (Err e, w)
  end.

(** ** Heartbeats *)

Definition heartbeat_attempt : GroupMember * W → Attempt HeartbeatStatus * (GroupMember * W) :=
  λ '(g, w),
  let forget : GroupMember * W → GroupMember * W := on_world (forget_coordinator (group_id g)) in
  let sent :=
    let^ broker := group_coordinator (group_id g) in
    exchange (Resp := HeartbeatResponse.t) broker HEARTBEAT_SUPPORTED (heartbeat_request_of g) in
  match sent w with
  | (Err e, w) => classify forget (Err e) (g, w)
  | (Ok resp, w) =>
      let code := HeartbeatResponse.error_code resp in
      if error_code.is_ok code then (Done Stable, (g, w))
      else if code =? error_code.REBALANCE_IN_PROGRESS then (Done RebalanceInProgress, (g, w))
      else if (code =? error_code.UNKNOWN_MEMBER_ID) || (code =? error_code.ILLEGAL_GENERATION)
      then (Done Evicted, (set_member_id "" g, w))
      else classify forget (Err (Broker code)) (g, w)
  end.

Definition heartbeat : member_io HeartbeatStatus := member_retries heartbeat_attempt.

(** ** Offsets, and leaving *)

Definition member_identity (g : GroupMember) : CommitIdentity :=
  mkCommitIdentity (generation_id g) (member_id g).

Definition coordinator_retries {A} (g : GroupMember) : io W A → io W A :=
  with_retries (max_attempts (config g)) (retry_backoff (config g)) (forget_coordinator (group_id g)).

Definition commit_offset (g : GroupMember) (topic : string) (partition offset : Z) : io W unit :=
  coordinator_retries g (commit_once (group_id g) (member_identity g) topic partition offset).
Definition committed_offset (g : GroupMember) (topic : string) (partition : Z) : io W (option Z) :=
  coordinator_retries g (committed_once (group_id g) topic partition).

Definition leave (g : GroupMember) : io W unit :=
  if String.eqb (member_id g) "" then io_ret tt
  else
    let^ broker := group_coordinator (group_id g) in
    let^ resp := exchange (Resp := LeaveGroupResponse.t) broker LEAVE_SUPPORTED (leave_request g) in
    let code := LeaveGroupResponse.error_code resp in
    if negb (error_code.is_ok code) && negb (code =? error_code.UNKNOWN_MEMBER_ID)
    then io_fail (Broker code)
    else io_ret tt.

End member.
