(* ===== verification/Membership.v ===== *)
(** * What group membership guarantees ([odradek-client/src/group.rs])

    The theorems about [Group.v]: an elected leader's assignment, as it comes
    back to the members over the wire, and what a member that joined holds. *)
From S2P Require Import Prelude Budget Codec Wire Fields KnownTags MessageTrait MsgGroup Registry ClientError ConsumerProtocol Exchange Offsets Group.
Import join_group_request join_group_response sync_group_request sync_group_response heartbeat_request heartbeat_response.

(** ** The leader's assignment *)

Lemma into_iter_Permutation {A} (m : gmap string A) : into_iter m ≡ₚ map_to_list m.
Proof. apply merge_sort_Permutation. Qed.

Lemma all_topics_spec subscriptions :
  NoDup (all_topics subscriptions) ∧
  ∀ t, t ∈ all_topics subscriptions ↔ ∃ s, s ∈ subscriptions ∧ t ∈ s.2.
Proof.
  unfold all_topics. split.
  - rewrite (merge_sort_Permutation String.le). apply NoDup_remove_dups.
  - intros t. rewrite (merge_sort_Permutation String.le), elem_of_remove_dups.
    rewrite list_elem_of_In, in_concat. split.
    + intros (l & Hl & Ht). apply list_elem_of_In, list_elem_of_fmap in Hl as (s & -> & Hs).
      exists s. split; [done|by apply list_elem_of_In].
    + intros (s & Hs & Ht). exists s.2. rewrite <- !list_elem_of_In.
      split; [by apply list_elem_of_fmap_2|done].
Qed.

Section membership.
Context {R : Runtime} {W : Type} `{Cluster W}.

(** What the members subscribed to fits the wire, as what they sent did. *)
Record subscriptions_ok (subscriptions : list (string * list string)) : Prop := mkSubscriptionsOk {
  so_members : NoDup subscriptions.*1;
  so_count : len subscriptions ≤ i32_max;
  so_topics : Forall (λ s, Forall (str_ok false) s.2) subscriptions;
  so_total : len (all_topics subscriptions) ≤ i32_max;
}.

Lemma entry_yields subscriptions counts m parts bs :
  subscriptions_ok subscriptions → counts.*1 = all_topics subscriptions →
  Forall (λ c, 0 ≤ c.2 ≤ i32_max) counts →
  range_assign counts subscriptions !! m = Some parts → encode_assignment parts = Some bs →
  yields (decode_assignment bs) parts.
Proof.
  intros Hok Htopics Hcounts Hm Hbs.
  destruct (all_topics_spec subscriptions) as [Hnd Hin].
  pose proof (range_assign_topics subscriptions (so_members _ Hok) counts m parts Hm) as Hsub.
  assert (arr_ok false (λ p, str_ok false p.1 ∧ arr_ok false is_i32 p.2) parts) as Hv.
  { split.
    - apply sublist_length in Hsub. rewrite Htopics, length_fmap in Hsub.
      pose proof (so_total _ Hok). cbn. lia.
    - apply Forall_forall. intros [t ps] Hp. cbn [fst snd]. split.
      + assert (t ∈ all_topics subscriptions) as (s & Hs & Ht)%Hin.
        { rewrite <- Htopics. eapply elem_of_sublist; [|exact Hsub].
          apply list_elem_of_fmap. by exists (t, ps). }
        pose proof (proj1 (Forall_forall _ _) (so_topics _ Hok) s Hs) as Hf.
        by apply (proj1 (Forall_forall _ _) Hf).
      + destruct (range_assign_within subscriptions (so_members _ Hok) (so_count _ Hok) counts m parts t ps)
          as (c & Hc & Hl & Hps); [by rewrite Htopics| |done|done|].
        { eapply Forall_impl; [exact Hcounts|]. cbn. intros; lia. }
        pose proof (proj1 (Forall_forall _ _) Hcounts _ Hc) as Hc32. cbn [snd] in Hc32.
        split; [cbn; lia|]. eapply Forall_impl; [exact Hps|]. cbn. intros; int_lia. }
  destruct (assignment_round_trip parts Hv) as (bs' & Hbs' & Hy).
  rewrite Hbs in Hbs'. injection Hbs' as ->. rewrite <- (app_nil_r bs'). apply Hy.
Qed.

(** The partition counts the leader works from. *)
Definition counts_in (w : W) (subscriptions : list (string * list string)) : list (string * Z) :=
  (λ t, (t, known_count w t)) <$> all_topics subscriptions.

Lemma counts_in_topics w subscriptions : (counts_in w subscriptions).*1 = all_topics subscriptions.
Proof. unfold counts_in. rewrite <- list_fmap_compose. apply list_fmap_id. Qed.

Lemma counts_in_elem w subscriptions topic :
  topic ∈ all_topics subscriptions → (topic, known_count w topic) ∈ counts_in w subscriptions.
Proof. intros Ht. apply list_elem_of_fmap. by exists topic. Qed.

Lemma counts_in_bounds w subscriptions :
  (∀ topic n w, partition_count topic w = Some n → 0 ≤ n) →
  Forall (λ c, 0 ≤ c.2 ≤ i32_max) (counts_in w subscriptions).
Proof.
  intros Hcount. apply Forall_fmap, Forall_forall. intros t _. cbn. unfold known_count.
  destruct (partition_count t w) as [n|] eqn:Hn; [|int_lia]. apply Hcount in Hn.
  unfold try_from. case_match; cbn; int_lia.
Qed.

Lemma leader_assignments_ok members entries w w' :
  leader_assignments members w = (Ok entries, w') →
  ∃ subscriptions, subscriptions_of members = Ok subscriptions ∧
    Forall2 (λ p e, encode_entry p = Some e)
      (into_iter (range_assign (counts_in w' subscriptions) subscriptions)) entries.
Proof.
  intros (subs & w1 & Hs & H1)%io_bind_ok. injection Hs as Hs <-.
  apply io_bind_ok in H1 as ([] & w2 & _ & H1). apply io_bind_ok in H1 as (counts & w3 & Hc & H1).
  injection Hc as <- <-. unfold expect, io_of in H1.
  destruct (mapM encode_entry _) as [es|] eqn:He in H1; [|done]. injection H1 as -> <-.
  exists subs. split; [done|]. by apply mapM_Some in He.
Qed.

Lemma encode_entry_ok p e :
  encode_entry p = Some e → SyncGroupRequestAssignment.member_id e = p.1 ∧
  encode_assignment p.2 = Some (SyncGroupRequestAssignment.assignment e).
Proof. intros (bs & Hbs & ->)%fmap_Some. done. Qed.

Lemma entries_members (out : gmap string Parts) entries :
  Forall2 (λ p e, encode_entry p = Some e) (into_iter out) entries →
  SyncGroupRequestAssignment.member_id <$> entries = (into_iter out).*1.
Proof.
  induction 1 as [|p e ps es Hp _ IH]; [done|]. rewrite !fmap_cons, IH.
  by destruct (encode_entry_ok _ _ Hp) as [-> _].
Qed.

(** C19: When a leader's assignment goes out, every partition has an owner: the
    SyncGroup entries are one for each member; what a member decodes of its
    entry is its share (or the allocation policy refuses the bytes), of the
    partitions of the topics it subscribed to; and for every topic that is
    subscribed to, the shares of its subscribers, in the order of their ids,
    are all its partitions as the refreshed metadata counts them, each once. *)
Theorem leader_covers_every_partition (members : list JoinGroupResponseMember.t)
    (subscriptions : list (string * list string)) (entries : list SyncGroupRequestAssignment.t) (w w' : W) :
  subscriptions_of members = Ok subscriptions → subscriptions_ok subscriptions →
  (∀ topic n w, partition_count topic w = Some n → 0 ≤ n) →
  leader_assignments members w = (Ok entries, w') →
  ∃ out : gmap string Parts,
    (SyncGroupRequestAssignment.member_id <$> entries) ≡ₚ subscriptions.*1 ∧
    (∀ e, e ∈ entries → ∃ parts, out !! SyncGroupRequestAssignment.member_id e = Some parts ∧
       yields (decode_assignment (SyncGroupRequestAssignment.assignment e)) parts) ∧
    (∀ topic m, m ∉ subscribers topic subscriptions → parts_of out topic m = []) ∧
    ∀ topic, topic ∈ all_topics subscriptions →
      concat (parts_of out topic <$> subscribers topic subscriptions) = seqZ 0 (known_count w' topic).
Proof.
  intros Hsubs Hok Hcount (subs & Hs & He)%leader_assignments_ok.
  rewrite Hsubs in Hs. injection Hs as <-.
  set (out := range_assign (counts_in w' subscriptions) subscriptions) in *. exists out.
  destruct (all_topics_spec subscriptions) as [Hnd Hin].
  pose proof (counts_in_bounds w' subscriptions Hcount) as Hbounds.
  destruct (range_assign_inv subscriptions (so_members _ Hok) (so_count _ Hok) (counts_in w' subscriptions))
    as (Hseed & Hnone & Hall); [by rewrite counts_in_topics|]. fold out in Hseed, Hnone, Hall.
  split_and!.
  - rewrite (entries_members out) by done.
    rewrite into_iter_Permutation. apply NoDup_Permutation; [apply NoDup_fst_map_to_list|apply Hok|].
    intros m. rewrite <- (Hseed m), list_elem_of_fmap. split.
    + intros ([m' p] & -> & Hp%elem_of_map_to_list). by exists p.
    + intros [p Hp]. exists (m, p). split; [done|]. by apply elem_of_map_to_list.
  - intros e Hine. apply list_elem_of_lookup in Hine as [i Hi].
    destruct (Forall2_lookup_r _ _ _ _ _ He Hi) as ([m parts] & Hinp%list_elem_of_lookup_2 & Hp).
    apply encode_entry_ok in Hp as [-> Hbs]. cbn [fst snd] in *. exists parts.
    assert (out !! m = Some parts) as Hm.
    { apply elem_of_map_to_list. by rewrite <- (into_iter_Permutation out). }
    split; [done|]. by eapply (entry_yields subscriptions (counts_in w' subscriptions) m); [|apply counts_in_topics|..].
  - intros topic m Hm. apply Hnone. by right.
  - intros topic Ht. rewrite (Hall topic _ (counts_in_elem w' _ _ Ht)). apply fair_shares_cover.
    + apply Hin in Ht as ([m ts] & Hs & Ht).
      assert (m ∈ subscribers topic subscriptions) as Hm by (apply elem_of_subscribers; by exists ts).
      intros E. rewrite E in Hm. by apply not_elem_of_nil in Hm.
    + rewrite Forall_forall in Hbounds. by apply (Hbounds _ (counts_in_elem w' _ _ Ht)).
Qed.

(** ** What a member holds *)

(** The state of a member that the coordinator let in: the id and generation
    of the JoinGroup response, and the assignment of the SyncGroup response to
    exactly that id and generation. *)
Definition admitted (g : GroupMember) : Prop :=
  ∃ g0 subscription join assignments sync,
    group_id g0 = group_id g ∧ encode_subscription (topics g) = Some subscription ∧
    answered (join_request g0 subscription) join ∧
    error_code.is_ok (JoinGroupResponse.error_code join) = true ∧
    member_id g = JoinGroupResponse.member_id join ∧
    generation_id g = JoinGroupResponse.generation_id join ∧
    is_leader g = String.eqb (JoinGroupResponse.leader join) (member_id g) ∧
    (if is_leader g then ∃ w w', leader_assignments (JoinGroupResponse.members join) w = (Ok assignments, w')
     else assignments = []) ∧
    answered (sync_request g assignments) sync ∧
    error_code.is_ok (SyncGroupResponse.error_code sync) = true ∧
    decode_assignment (SyncGroupResponse.assignment sync) = Ok (assignment g).

Definition same_member (g g' : GroupMember) : Prop :=
  config g' = config g ∧ group_id g' = group_id g ∧ topics g' = topics g.

#[local] Instance same_member_preorder : PreOrder same_member.
Proof. split; [by intros g|]. intros g1 g2 g3 (? & ? & ?) (? & ? & ?). split_and!; congruence. Qed.

Lemma join_round_preserves : preserves same_member join_round.
Proof. unfold join_round, join_exchange, sync_exchange, expect. preserving. Qed.

Lemma broker_code_ok {C} code (c c' : C) u :
  io_of (broker_code code) c = (Ok u, c') → error_code.is_ok code = true ∧ c' = c.
Proof. intros [Hr ->]%io_of_ok. split; [by eapply broker_accepts|done]. Qed.

Lemma join_once_answered broker join version w r w' :
  join_once broker join version w = (Ok r, w') → answered join r.
Proof. intros (resp & w1 & Ha & Hd)%io_bind_ok. by eapply ask_answered. Qed.

Lemma join_exchange_ok broker subscription g w r g' w' :
  join_exchange broker subscription (g, w) = (Ok r, (g', w')) →
  same_member g g' ∧ answered (join_request g' subscription) r.
Proof.
  intros (version & [g1 w1] & (w2 & _ & [= -> ->])%lift_ok & H1)%io_bind_ok.
  apply io_bind_ok in H1 as (g2 & c & [= <- <-] & H1).
  apply io_bind_ok in H1 as (resp & c & (w3 & Hj & ->)%lift_ok & H1).
  destruct (_ =? _).
  - apply io_bind_ok in H1 as ([] & [g3 w4] & [= <- <-] & H1).
    apply io_bind_ok in H1 as (g3 & c & [= <- <-] & H1).
    apply lift_ok in H1 as (w5 & Hj' & [= -> ->]). split; [done|by eapply join_once_answered].
  - injection H1 as -> -> ->. split; [done|by eapply join_once_answered].
Qed.

Lemma sync_exchange_ok broker members g w r c :
  sync_exchange broker members (g, w) = (Ok r, c) →
  ∃ assignments w', c = (g, w') ∧ answered (sync_request g assignments) r ∧
    (if is_leader g then ∃ w1 w2, leader_assignments members w1 = (Ok assignments, w2)
     else assignments = []).
Proof.
  intros (g1 & c1 & [= <- <-] & H1)%io_bind_ok.
  apply io_bind_ok in H1 as (assignments & [g2 w2] & Ha & H1).
  assert (g2 = g ∧ if is_leader g then ∃ w1 w2, leader_assignments members w1 = (Ok assignments, w2)
    else assignments = []) as [-> Has].
  { cbn [fst] in Ha. destruct (is_leader g).
    - apply lift_ok in Ha as (w3 & Hl & [= -> ->]). split; [done|]. by exists w, w3.
    - by injection Ha as <- <- _. }
  apply lift_ok in H1 as (w3 & He & ->). exists assignments, w3.
  split; [done|]. split; [by eapply exchange_answered|done].
Qed.

Lemma join_round_ok g w g' w' :
  join_round (g, w) = (Ok tt, (g', w')) → same_member g g' ∧ admitted g'.
Proof.
  intros (g1 & c & [= <- <-] & H1)%io_bind_ok. cbn [fst] in H1.
  apply io_bind_ok in H1 as (subscription & c & Hsub & H1).
  unfold expect, io_of in Hsub. injection Hsub as Hsub <-.
  destruct (encode_subscription (topics g)) as [s|] eqn:Es; [|done]. injection Hsub as <-.
  apply io_bind_ok in H1 as (lease & c & (w1 & _ & ->)%lift_ok & H1).
  apply with_lease_ok in H1 as ([g2 w2] & H1 & [= -> _]).
  apply io_bind_ok in H1 as (join & [g3 w3] & [(Hc & Hg & Ht) Hj]%join_exchange_ok & H1).
  apply io_bind_ok in H1 as (u & c & [Hok ->]%broker_code_ok & H1).
  apply io_bind_ok in H1 as ([] & c & [= <-] & H1).
  apply io_bind_ok in H1 as (sync & c & (assignments & w4 & -> & Hs & Has)%sync_exchange_ok & H1).
  apply io_bind_ok in H1 as (u' & c & [Hok' ->]%broker_code_ok & H1).
  apply io_bind_ok in H1 as (parts & c & Hp & H1). injection Hp as Hp <-. injection H1 as <- _.
  destruct (decode_assignment _) as [ps|] eqn:Ed; [|done]. injection Hp as ->.
  split; [done|]. exists g3, s, join, assignments, sync.
  cbn [group_id topics member_id generation_id is_leader assignment set_assignment joined] in *.
  rewrite Ht. done.
Qed.

Lemma rejoin_attempt_same g w o g' w' :
  rejoin_attempt (g, w) = (o, (g', w')) → same_member g g'.
Proof.
  unfold rejoin_attempt. destruct (join_round (g, w)) as [r [g1 w1]] eqn:E.
  pose proof (join_round_preserves _ _ _ _ _ E) as Hs.
  destruct r as [u|e]; [by intros [= _ <- _]|]. destruct (is_retriable e); [by intros [= _ <- _]|].
  destruct e; try (by intros [= _ <- _]).
  destruct (_ || _); [by intros [= _ <- _]|]. destruct (_ =? _); by intros [= _ <- _].
Qed.

Lemma rejoin_attempt_done c g' w' :
  rejoin_attempt c = (Done tt, (g', w')) → join_round c = (Ok tt, (g', w')).
Proof.
  unfold rejoin_attempt. destruct (join_round c) as [r [g1 w1]].
  destruct r as [[]|e]; [by intros [= <- <-]|]. destruct (is_retriable e); [done|].
  destruct e; try done. destruct (_ || _); [done|]. by destruct (_ =? _).
Qed.

(** What a heartbeat's answer says of the membership. *)
Definition heard (g : GroupMember) (s : HeartbeatStatus) (g' : GroupMember) : Prop :=
  ∃ resp, answered (heartbeat_request_of g) resp ∧
    let code := HeartbeatResponse.error_code resp in
    match s with
    | Stable => code = 0 ∧ g' = g
    | RebalanceInProgress => code = error_code.REBALANCE_IN_PROGRESS ∧ g' = g
    | Evicted =>
        (code = error_code.UNKNOWN_MEMBER_ID ∨ code = error_code.ILLEGAL_GENERATION) ∧
        g' = set_member_id "" g
    end.

Lemma heartbeat_attempt_done g w s g' w' :
  heartbeat_attempt (g, w) = (Done s, (g', w')) → heard g s g'.
Proof.
  unfold heartbeat_attempt. destruct (io_bind _ _ w) as [[resp|e] w1] eqn:E.
  - apply io_bind_ok in E as (b & w2 & _ & E). apply exchange_answered in E.
    intros Ha. exists resp. split; [done|]. cbv zeta. revert Ha.
    set (code := HeartbeatResponse.error_code resp).
    destruct (error_code.is_ok code) eqn:Hok; [intros [= <- <- _]; split; [by apply Z.eqb_eq in Hok|done]|].
    destruct (Z.eqb_spec code error_code.REBALANCE_IN_PROGRESS); [by intros [= <- <- _]|].
    destruct (Z.eqb_spec code error_code.UNKNOWN_MEMBER_ID),
      (Z.eqb_spec code error_code.ILLEGAL_GENERATION); cbn [orb];
      try (intros [= <- <- _]; split; [tauto|done]).
    unfold classify. by destruct (is_retriable _).
  - unfold classify. by destruct (is_retriable e).
Qed.

Lemma heartbeat_attempt_retry g w e g' w' :
  heartbeat_attempt (g, w) = (Retry e, (g', w')) → g' = g.
Proof.
  unfold heartbeat_attempt, classify, on_world. destruct (io_bind _ _ w) as [[resp|e1] w1].
  - destruct (error_code.is_ok _); [done|]. destruct (_ =? _); [done|]. destruct (_ || _); [done|].
    destruct (is_retriable _); [by intros [= _ <- _]|done].
  - destruct (is_retriable e1); [by intros [= _ <- _]|done].
Qed.

(** A member holds what its coordinator gave it.  A rejoin that returns,
    after whatever rounds failed before, ends with the id and generation of a
    JoinGroup response to this member's subscription and the assignment of the
    SyncGroup response to that very id and generation, sent with the group's
    assignment when it leads it; a heartbeat that says the membership stands
    leaves it as it is, and one that says it was evicted leaves it without an
    id, so that the next rejoin starts afresh; and a commit goes out under the
    id and generation held. *)
Theorem membership_is_the_coordinators (g : GroupMember) (w : W) :
  (∀ g' w', rejoin (g, w) = (Ok tt, (g', w')) → same_member g g' ∧ admitted g') ∧
  (∀ s g' w', heartbeat (g, w) = (Ok s, (g', w')) → heard g s g') ∧
  ∀ topic partition offset w', commit_offset g topic partition offset w = (Ok tt, w') →
    ∃ resp : MsgOffset.offset_commit_response.OffsetCommitResponse.t,
      answered (commit_request (group_id g) (mkCommitIdentity (generation_id g) (member_id g))
        topic partition offset) resp ∧ read_commit topic partition resp = Ok tt.
Proof.
  split_and!.
  - intros g' w' Hr. unfold rejoin, member_retries in Hr. apply (retrying_done _ _ _ _ (λ c, same_member g c.1)) in Hr
      as ([g1 w1] & Hs & Ha); [|done|].
    + apply rejoin_attempt_done, join_round_ok in Ha as [Hs' Ha]. split; [by etrans|done].
    + intros [g1 w1] e [g2 w2] Hs Ha%rejoin_attempt_same. cbn in *. by etrans.
  - intros s g' w' Hr. unfold heartbeat, member_retries in Hr. apply (retrying_done _ _ _ _ (λ c, c.1 = g)) in Hr
      as ([g1 w1] & Hs & Ha); [|done|].
    + cbn in Hs. subst g1. by eapply heartbeat_attempt_done.
    + intros [g1 w1] e [g2 w2] Hs Ha%heartbeat_attempt_retry. cbn in *. congruence.
  - intros topic partition offset w' Hc. apply with_retries_ok in Hc as (w1 & Hc).
    apply io_bind_ok in Hc as (b & w2 & _ & Hc). apply io_bind_ok in Hc as (resp & w3 & He & Hr).
    exists resp. split; [by eapply exchange_answered|]. by injection Hr as Hr _.
Qed.

End membership.

(** *** Witnesses *)

#[local] Existing Instance plain_runtime.

(** A group of two, "b" asking to be let in; its coordinator makes it mint an
    id first, then leader, and answers every sync with three partitions. *)
Definition two_members : list JoinGroupResponseMember.t :=
  let metadata := default [] (encode_subscription ["t"]) in
  [JoinGroupResponseMember.mk "b-1" None metadata []; JoinGroupResponseMember.mk "a-1" None metadata []].

Definition group_send (api version w : Z) : result ClientError (list byte) * Z :=
  let reply e := (map_err Encode (enc_bytes e), w + 1) in
  if api =? 11 then
    let code := if w =? 0 then error_code.MEMBER_ID_REQUIRED else 0 in
    reply (JoinGroupResponse.encode version
      (JoinGroupResponse.mk 0 code 5 (Some "consumer") (Some "range") "b-1" false "b-1" two_members []))
  else if api =? 14 then
    reply (SyncGroupResponse.encode version
      (SyncGroupResponse.mk 0 0 (Some "consumer") (Some "range")
         (default [] (encode_assignment [("t", [2; 3; 4])])) []))
  else reply (HeartbeatResponse.encode version (HeartbeatResponse.mk 0 0 [])).

Definition group_cluster : Cluster Z := {|
  cluster_brokers := {|
    handle := unit;
    handle_ranges _ := {[ 11 := (0, 7); 12 := (0, 4); 14 := (0, 5) ]};
    send _ api version _ := group_send api version;
    note_throttled _ _ := id;
  |};
  partition_leader _ _ := io_ret tt;
  transaction_coordinator _ := io_ret tt;
  group_coordinator _ := io_ret tt;
  control_broker := io_ret tt;
  blocking_partition_leader _ _ := io_ret tt;
  blocking_coordinator _ := io_ret tt;
  release _ := id;
  discard _ := id;
  leader_id _ _ _ := None;
  forget_broker _ := id;
  mark_partition_stale _ _ := id;
  forget_coordinator _ := id;
  forget_transaction_coordinator _ := id;
  partition_count _ _ := Some 5;
  topic_name_by_id _ _ := None;
  refresh_metadata _ := io_ret tt;
  now_ms _ := 1000;
  entropy _ := (1, 1);
|}.

Lemma membership_is_the_coordinators_witness :
  ∃ g w, rejoin (H := group_cluster) (new_member default_config "g" ["t"], 0) = (Ok tt, (g, w)) ∧
    member_id g = "b-1" ∧ generation_id g = 5 ∧ assignment g = [("t", [2; 3; 4])] ∧
    admitted (H := group_cluster) g.
Proof.
  destruct (rejoin (H := group_cluster) (new_member default_config "g" ["t"], 0)) as [[[]|e] [g w]] eqn:E;
    [|exfalso; vm_compute in E; discriminate].
  destruct (membership_is_the_coordinators (H := group_cluster) (new_member default_config "g" ["t"]) 0)
    as [Hr _].
  destruct (Hr g w E) as [_ Ha]. exists g, w. split; [reflexivity|].
  vm_compute in E. injection E as <- <-. split_and!; [reflexivity..|exact Ha].
Defined.

Lemma leader_covers_every_partition_witness :
  ∃ entries w, leader_assignments (H := group_cluster) two_members 0 = (Ok entries, w) ∧
    ∃ out : gmap string Parts,
      concat (parts_of out "t" <$> ["a-1"; "b-1"]) = [0; 1; 2; 3; 4] ∧
      ∀ e, e ∈ entries → ∃ parts, out !! SyncGroupRequestAssignment.member_id e = Some parts ∧
        yields (decode_assignment (SyncGroupRequestAssignment.assignment e)) parts.
Proof.
  destruct (leader_assignments (H := group_cluster) two_members 0) as [[entries|e] w] eqn:E;
    [|exfalso; vm_compute in E; discriminate].
  destruct (leader_covers_every_partition (H := group_cluster) two_members
    [("b-1", ["t"]); ("a-1", ["t"])] entries 0 w) as (out & _ & He & _ & Hall).
  - vm_compute. reflexivity.
  - constructor.
    + apply (bool_decide_unpack _). vm_compute. exact I.
    + cbn. int_lia.
    + repeat constructor; vm_compute; discriminate.
    + vm_compute. discriminate.
  - intros topic n w' [= <-]. lia.
  - exact E.
  - exists entries, w. split; [reflexivity|]. exists out. split; [|exact He].
    apply (Hall "t"). apply (bool_decide_unpack _). vm_compute. exact I.
Defined.
