(* ===== verification/ConsumerGroup.v ===== *)
(** * Next-generation consumer groups ([odradek-client/src/consumer_group.rs])

    A membership whose coordinator computes the assignment: heartbeats that
    describe the member, adopt what the answer hands down under the names the
    metadata has for it, and acknowledge it; fencing, joining, fenced commits,
    leaving.  The random source is a parameter; the pauses of [join] are not
    modelled. *)
From S2P Require Import Prelude Budget Codec MessageTrait MsgGroupAdmin Registry ClientError Exchange Offsets.
Import consumer_group_heartbeat_request consumer_group_heartbeat_response.
Module RequestTopics := consumer_group_heartbeat_request.TopicPartitions.
Module TargetTopics := consumer_group_heartbeat_response.TopicPartitions.
Module Target := consumer_group_heartbeat_response.Assignment.

Definition HEARTBEAT_SUPPORTED : Z * Z :=
  (ConsumerGroupHeartbeatRequest.MIN_VERSION, ConsumerGroupHeartbeatRequest.MAX_VERSION).
Definition LEAVE_EPOCH : Z := -1.

Record ConsumerGroupConfig : Type := mkConsumerGroupConfig {
  rebalance_timeout_ms : Z;
  server_assignor : option string;
  max_attempts : nat;
  retry_backoff : Z;
}.

Definition default_config : ConsumerGroupConfig := mkConsumerGroupConfig 60000 None 20 250.

Inductive GroupEvent : Type := Stable | AssignmentChanged | Rejoined.

#[export] Instance GroupEvent_eq_dec : EqDecision GroupEvent.
Proof. solve_decision. Defined.

(** Partitions by topic id, and by name. *)
Abbreviation Owned := (list (list byte * list Z)).
Abbreviation Named := (list (string * list Z)).

(** [struct ConsumerGroupMember], less the cluster; the interval in
    milliseconds. *)
Record ConsumerGroupMember : Type := mkMember {
  config : ConsumerGroupConfig;
  group_id : string;
  topics : list string;
  member_id : string;
  member_epoch : Z;
  heartbeat_interval : Z;
  owned : Owned;
  assignment : Named;
  ack_pending : bool;
}.

Definition new_member (config : ConsumerGroupConfig) (group_id : string) (topics : list string)
    (member_id : string) : ConsumerGroupMember :=
  mkMember config group_id topics member_id 0 500 [] [] false.

(** ** [Vec::sort] *)

Section lex.
Context {A : Type} (lt : A → A → bool).

Fixpoint lex_le (a b : list A) : bool :=
  match a, b with
  | [], _ => true
  | _ :: _, [] => false
  | x :: a, y :: b => if lt x y then true else if lt y x then false else lex_le a b
  end.

End lex.

Definition parts_le : list Z → list Z → bool := lex_le Z.ltb.
Definition id_le : list byte → list byte → bool := lex_le (λ x y, byte_to_Z x <? byte_to_Z y).

Definition owned_le (a b : list byte * list Z) : Prop :=
  (if id_le a.1 b.1 then if id_le b.1 a.1 then parts_le a.2 b.2 else true else false) = true.
#[export] Instance owned_le_dec : RelDecision owned_le := λ a b, decide (_ = true).

Definition named_le (a b : string * list Z) : Prop :=
  (if String.leb a.1 b.1 then if String.leb b.1 a.1 then parts_le a.2 b.2 else true else false) = true.
#[export] Instance named_le_dec : RelDecision named_le := λ a b, decide (_ = true).

(** The target of a response, in the order it is kept in. *)
Definition target_of (t : Target.t) : Owned :=
  merge_sort owned_le ((λ tp, (TargetTopics.topic_id tp, TargetTopics.partitions tp)) <$>
    Target.topic_partitions t).

(** ** Requests *)

Definition echo (o : list byte * list Z) : RequestTopics.t :=
  RequestTopics.mk o.1 o.2 (RequestTopics.unknown_tagged_fields RequestTopics.default).

(** A full description at epoch 0; else what was adopted and not yet
    acknowledged; else only that the member is alive. *)
Definition heartbeat_request_of (g : ConsumerGroupMember) : ConsumerGroupHeartbeatRequest.t :=
  let d := ConsumerGroupHeartbeatRequest.default in
  let request := ConsumerGroupHeartbeatRequest.mk (group_id g) (member_id g) (member_epoch g)
    (ConsumerGroupHeartbeatRequest.instance_id d) (ConsumerGroupHeartbeatRequest.rack_id d) in
  let unknown := ConsumerGroupHeartbeatRequest.unknown_tagged_fields d in
  if member_epoch g =? 0 then
    request (rebalance_timeout_ms (config g)) (Some (topics g))
      (ConsumerGroupHeartbeatRequest.subscribed_topic_regex d) (server_assignor (config g)) (Some [])
      unknown
  else
    request (ConsumerGroupHeartbeatRequest.rebalance_timeout_ms d)
      (ConsumerGroupHeartbeatRequest.subscribed_topic_names d)
      (ConsumerGroupHeartbeatRequest.subscribed_topic_regex d)
      (ConsumerGroupHeartbeatRequest.server_assignor d)
      (if ack_pending g then Some (echo <$> owned g) else None) unknown.

Definition leave_request (g : ConsumerGroupMember) : ConsumerGroupHeartbeatRequest.t :=
  let d := ConsumerGroupHeartbeatRequest.default in
  ConsumerGroupHeartbeatRequest.mk (group_id g) (member_id g) LEAVE_EPOCH
    (ConsumerGroupHeartbeatRequest.instance_id d) (ConsumerGroupHeartbeatRequest.rack_id d)
    (ConsumerGroupHeartbeatRequest.rebalance_timeout_ms d)
    (ConsumerGroupHeartbeatRequest.subscribed_topic_names d)
    (ConsumerGroupHeartbeatRequest.subscribed_topic_regex d)
    (ConsumerGroupHeartbeatRequest.server_assignor d)
    (ConsumerGroupHeartbeatRequest.topic_partitions d)
    (ConsumerGroupHeartbeatRequest.unknown_tagged_fields d).

(** ** What an answer changes *)

(** Fenced: from epoch 0 again, with the same id. *)
Definition fenced (g : ConsumerGroupMember) : ConsumerGroupMember :=
  mkMember (config g) (group_id g) (topics g) (member_id g) 0 (heartbeat_interval g) [] [] false.

(** What any accepted answer says: the id, the epoch and the cadence; and the
    acknowledgement has been delivered. *)
Definition settled (resp : ConsumerGroupHeartbeatResponse.t) (g : ConsumerGroupMember) :
    ConsumerGroupMember :=
  let id :=
    match ConsumerGroupHeartbeatResponse.member_id resp with
    | Some id => if negb (String.eqb id "") && negb (String.eqb id (member_id g)) then id else member_id g
    | None => member_id g
    end in
  let interval := ConsumerGroupHeartbeatResponse.heartbeat_interval_ms resp in
  mkMember (config g) (group_id g) (topics g) id (ConsumerGroupHeartbeatResponse.member_epoch resp)
    (if 0 <? interval then interval else heartbeat_interval g) (owned g) (assignment g) false.

Definition adopted (o : Owned) (names : Named) (g : ConsumerGroupMember) : ConsumerGroupMember :=
  mkMember (config g) (group_id g) (topics g) (member_id g) (member_epoch g) (heartbeat_interval g)
    o names true.

Section member.
Context {R : Runtime} {W : Type} `{Cluster W}.

Abbreviation member_io := (io (ConsumerGroupMember * W)).

Definition unresolved : ClientError :=
  ProtocolViolation "assigned topic id resolves to no subscribed topic".

(** The name of one topic id: the metadata is refreshed once at most. *)
Definition resolve_one (topics : list string) (refreshed : bool) (topic_id : list byte) :
    io W (string * bool) := λ w,
  match topic_name_by_id topic_id w with
  | Some name => (Ok (name, refreshed), w)
  | None =>
      if refreshed then (Err unresolved, w)
      else
        (let^ _ := refresh_metadata topics in
         λ w, (let? name := ok_or unresolved (topic_name_by_id topic_id w) in Ok (name, true), w)) w
  end.

Fixpoint resolve_each (topics : list string) (refreshed : bool) (o : Owned) : io W Named :=
  match o with
  | [] => io_ret []
  | (topic_id, partitions) :: o =>
      let^ (name, refreshed) := resolve_one topics refreshed topic_id in
      let^ rest := resolve_each topics refreshed o in
      io_ret ((name, partitions) :: rest)
  end.

Definition resolve (topics : list string) (o : Owned) : io W Named :=
  let^ named := resolve_each topics false o in
  io_ret (merge_sort named_le named).

(** The target of an answer, adopted when it differs from what is owned. *)
Definition adopt (resp : ConsumerGroupHeartbeatResponse.t) : member_io bool :=
  match ConsumerGroupHeartbeatResponse.assignment resp with
  | None => io_ret false
  | Some target =>
      let^ g := this in
      if decide (target_of target = owned g) then io_ret false
      else
        let^ named := lift (resolve (topics g) (target_of target)) in
        let^ _ := update (adopted (target_of target) named) in
        io_ret true
  end.

Definition heartbeat_attempt :
    ConsumerGroupMember * W → Attempt GroupEvent * (ConsumerGroupMember * W) := λ '(g, w),
  let rejoining := member_epoch g =? 0 in
  let forget : ConsumerGroupMember * W → ConsumerGroupMember * W :=
    on_world (forget_coordinator (group_id g)) in
  let sent :=
    let^ broker := group_coordinator (group_id g) in
    exchange (Resp := ConsumerGroupHeartbeatResponse.t) broker HEARTBEAT_SUPPORTED
      (heartbeat_request_of g) in
  match sent w with
  | (Err e, w) => classify forget (Err e) (g, w)
  | (Ok resp, w) =>
      let code := ConsumerGroupHeartbeatResponse.error_code resp in
      if (code =? error_code.FENCED_MEMBER_EPOCH) || (code =? error_code.UNKNOWN_MEMBER_ID)
      then (Retry (Broker code), (fenced g, w))
      else if negb (error_code.is_ok code) then classify forget (Err (Broker code)) (g, w)
      else
        match adopt resp (settled resp g, w) with
        | (Err e, c) => (Fatal e, c)
        | (Ok changed, (g, w)) =>
            (Done (if rejoining && (0 <? member_epoch g) then Rejoined
                   else if changed then AssignmentChanged else Stable), (g, w))
        end
  end.

Definition heartbeat : member_io GroupEvent := λ c,
  retrying (λ c, entropy c.2) (max_attempts (config c.1)) (retry_backoff (config c.1))
    heartbeat_attempt c.

(** ** Joining *)

(** The [for] of [join], [rounds] of it left. *)
Fixpoint join_rounds (rounds : nat) (assigned : bool) : member_io unit :=
  match rounds with
  | O => io_ret tt
  | S rounds =>
      let^ _ := heartbeat in
      if assigned then io_ret tt
      else
        let^ g := this in
        let assigned := negb (bool_decide (owned g = [])) || (0 <? member_epoch g) in
        if assigned && ack_pending g then join_rounds rounds assigned
        else if assigned then io_ret tt
        else join_rounds rounds assigned
  end.

(** Lowercase hexadecimal of two digits. *)
Definition hex_digit (n : Z) : byte := byte_of_Z (if n <? 10 then 48 + n else 87 + n).
Definition hex_byte (b : byte) : list byte :=
  [hex_digit (byte_to_Z b / 16); hex_digit (byte_to_Z b mod 16)].

Definition version_bits (i : nat) (b : byte) : byte :=
  if decide (i = 6%nat) then byte_of_Z (Z.lor (Z.land (byte_to_Z b) 15) 64)
  else if decide (i = 8%nat) then byte_of_Z (Z.lor (Z.land (byte_to_Z b) 63) 128)
  else b.

(** [format!] of sixteen bytes, with a hyphen before the ones named. *)
Definition generate_member_id (bytes : list byte) : string :=
  bytes_str (concat (imap (λ i b,
    (if bool_decide (i ∈ [4; 6; 8; 10]%nat) then [byte_of_Z 45] else []) ++ hex_byte b)
    (imap version_bits bytes))).

(** [getrandom::fill] of sixteen bytes. *)
Context (fill : io W (list byte)).

Definition join (config : ConsumerGroupConfig) (group_id : string) (topics : list string) :
    io W ConsumerGroupMember :=
  let^ bytes := fill in
  λ w,
  match join_rounds (max_attempts config) false
          (new_member config group_id topics (generate_member_id bytes), w) with
  | (Ok _, (g, w)) => (Ok g, w)
  | (Err e, (_, w)) => (Err e, w)
  end.

(** ** Offsets, and leaving *)

Definition member_identity (g : ConsumerGroupMember) : CommitIdentity :=
  mkCommitIdentity (member_epoch g) (member_id g).

Definition coordinator_retries {A} (g : ConsumerGroupMember) : io W A → io W A :=
  with_retries (max_attempts (config g)) (retry_backoff (config g)) (forget_coordinator (group_id g)).

Definition commit_offset (g : ConsumerGroupMember) (topic : string) (partition offset : Z) : io W unit :=
  coordinator_retries g (commit_once (group_id g) (member_identity g) topic partition offset).
Definition committed_offset (g : ConsumerGroupMember) (topic : string) (partition : Z) :
    io W (option Z) :=
  coordinator_retries g (committed_once (group_id g) topic partition).

Definition leave (g : ConsumerGroupMember) : io W unit :=
  let^ broker := group_coordinator (group_id g) in
  let^ resp := exchange (Resp := ConsumerGroupHeartbeatResponse.t) broker HEARTBEAT_SUPPORTED
    (leave_request g) in
  let code := ConsumerGroupHeartbeatResponse.error_code resp in
  if negb (error_code.is_ok code) && negb (code =? error_code.UNKNOWN_MEMBER_ID)
  then io_fail (Broker code)
  else io_ret tt.

End member.

Example member_ids_are_uuid_shaped :
  generate_member_id (replicate 16 (byte_of_Z 255)) = "ffffffff-ffff-4fff-bfff-ffffffffffff".
Proof. vm_compute. reflexivity. Qed.
