(* ===== verification/Reconciliation.v ===== *)
(** * What reconciliation guarantees ([odradek-client/src/consumer_group.rs])

    The theorems about [ConsumerGroup.v]: where a member's assignment comes
    from, when it is acknowledged, and how one can be lost. *)
From S2P Require Import Prelude Budget Codec MessageTrait MsgGroupAdmin Registry ClientError Exchange Offsets ConsumerGroup.
Import consumer_group_heartbeat_request consumer_group_heartbeat_response.

Section reconciliation.
Context {R : Runtime} {W : Type} `{Cluster W}.

(** ** Names *)

(** Names some metadata gave these topic ids. *)
Definition named_by (o : list byte * list Z) (n : string * list Z) : Prop :=
  n.2 = o.2 ∧ ∃ w, topic_name_by_id o.1 w = Some n.1.
Definition names (o : Owned) (named : Named) : Prop :=
  ∃ l, named ≡ₚ l ∧ Forall2 named_by o l.

Lemma resolve_one_ok topics refreshed id w name refreshed' w' :
  resolve_one topics refreshed id w = (Ok (name, refreshed'), w') →
  ∃ w1, topic_name_by_id id w1 = Some name.
Proof.
  unfold resolve_one. destruct (topic_name_by_id id w) as [n|] eqn:E; [intros [= -> _ _]; by exists w|].
  destruct refreshed; [done|]. intros ([] & w1 & _ & Hn)%io_bind_ok. injection Hn as Hn _.
  exists w1. destruct (topic_name_by_id id w1); [by injection Hn as -> _|done].
Qed.

Lemma resolve_each_ok o : ∀ topics refreshed w named w',
  resolve_each topics refreshed o w = (Ok named, w') → Forall2 named_by o named.
Proof.
  induction o as [|[id ps] o IH]; intros topics refreshed w named w' Hr; cbn [resolve_each] in Hr.
  - injection Hr as <- _. constructor.
  - apply io_bind_ok in Hr as ([name refreshed'] & w1 & Hn%resolve_one_ok & Hr).
    apply io_bind_ok in Hr as (rest & w2 & Hrest%IH & Hr). injection Hr as <- _.
    constructor; [by split|done].
Qed.

Lemma resolve_ok topics o w named w' : resolve topics o w = (Ok named, w') → names o named.
Proof.
  intros (l & w1 & Hl%resolve_each_ok & Hr)%io_bind_ok. injection Hr as <- _.
  exists l. split; [apply merge_sort_Permutation|done].
Qed.

(** ** One attempt *)

Definition accepted (resp : ConsumerGroupHeartbeatResponse.t) : Prop :=
  error_code.is_ok (ConsumerGroupHeartbeatResponse.error_code resp) = true.

(** How an attempt can leave a member: as it was; fenced; or having settled
    what an accepted answer says, with the answer's target adopted where it
    was a new one and could be resolved. *)
Inductive beat (g : ConsumerGroupMember) : Attempt GroupEvent → ConsumerGroupMember → Prop :=
| beat_unheard o : (∀ event, o ≠ Done event) → beat g o g
| beat_fenced resp :
    answered (heartbeat_request_of g) resp → ¬ accepted resp →
    beat g (Retry (Broker (ConsumerGroupHeartbeatResponse.error_code resp))) (fenced g)
| beat_settled resp event :
    answered (heartbeat_request_of g) resp → accepted resp →
    (∀ target, ConsumerGroupHeartbeatResponse.assignment resp = Some target → target_of target = owned g) →
    event ≠ AssignmentChanged → beat g (Done event) (settled resp g)
| beat_adopted resp target named event :
    answered (heartbeat_request_of g) resp → accepted resp →
    ConsumerGroupHeartbeatResponse.assignment resp = Some target → target_of target ≠ owned g →
    names (target_of target) named → event ≠ Stable →
    beat g (Done event) (adopted (target_of target) named (settled resp g))
| beat_unresolved resp target e :
    answered (heartbeat_request_of g) resp → accepted resp →
    ConsumerGroupHeartbeatResponse.assignment resp = Some target → target_of target ≠ owned g →
    beat g (Fatal e) (settled resp g).

Lemma adopt_spec resp g w r g' w' :
  adopt resp (g, w) = (r, (g', w')) →
  match ConsumerGroupHeartbeatResponse.assignment resp with
  | None => r = Ok false ∧ g' = g
  | Some target =>
      if decide (target_of target = owned g) then r = Ok false ∧ g' = g
      else (∃ named, r = Ok true ∧ names (target_of target) named ∧ g' = adopted (target_of target) named g)
           ∨ (∃ e, r = Err e ∧ g' = g)
  end.
Proof.
  unfold adopt. destruct (ConsumerGroupHeartbeatResponse.assignment resp) as [target|];
    [|by intros [= <- <- _]]. unfold io_bind at 1. cbn [this fst].
  destruct (decide (target_of target = owned g)); [by intros [= <- <- _]|].
  unfold io_bind, lift. destruct (resolve (topics g) (target_of target) w) as [[named|e] w1] eqn:E.
  - intros [= <- <- _]. left. exists named. split; [done|]. split; [by eapply resolve_ok|done].
  - intros [= <- <- _]. right. by exists e.
Qed.

Lemma classify_unheard {A} (forget : ConsumerGroupMember * W → ConsumerGroupMember * W) e c o c' :
  (∀ c, (forget c).1 = c.1) → classify (T := A) forget (Err e) c = (o, c') →
  c'.1 = c.1 ∧ ∀ v, o ≠ Done v.
Proof.
  intros Hf. unfold classify. destruct (is_retriable e); intros [= <- <-]; by rewrite ?Hf.
Qed.

Lemma heartbeat_attempt_beat g w o g' w' :
  heartbeat_attempt (g, w) = (o, (g', w')) → beat g o g'.
Proof.
  unfold heartbeat_attempt. destruct (io_bind _ _ w) as [[resp|e] w1] eqn:E.
  2:{ intros [Hg Ho]%classify_unheard; [|by intros []]. cbn in Hg. subst g'. by constructor. }
  apply io_bind_ok in E as (b & w2 & _ & E). apply exchange_answered in E.
  set (code := ConsumerGroupHeartbeatResponse.error_code resp).
  destruct ((code =? _) || (code =? _)) eqn:Hf.
  { intros [= <- <- _]. apply beat_fenced; [done|]. unfold accepted. fold code. intros Hok%Z.eqb_eq.
    by rewrite Hok in Hf. }
  destruct (error_code.is_ok code) eqn:Hok; cbn [negb].
  2:{ intros [Hg Ho]%classify_unheard; [|by intros []]. cbn in Hg. subst g'. by constructor. }
  destruct (adopt resp (settled resp g, w1)) as [r [g2 w3]] eqn:Ea. apply adopt_spec in Ea.
  change (owned (settled resp g)) with (owned g) in Ea.
  destruct (ConsumerGroupHeartbeatResponse.assignment resp) as [target|] eqn:Et.
  - destruct (decide (target_of target = owned g)) as [Heq|Hne].
    + destruct Ea as [-> ->]. intros [= <- <- _]. apply beat_settled; [done|done| |by destruct (_ && _)].
      intros t Ht. rewrite Et in Ht. by injection Ht as <-.
    + destruct Ea as [(named & -> & Hn & ->)|(e & -> & ->)].
      * intros [= <- <- _]. eapply beat_adopted; [done|done|done|done|done|by destruct (_ && _)].
      * intros [= <- <- _]. by eapply beat_unresolved.
  - destruct Ea as [-> ->]. intros [= <- <- _]. apply beat_settled; [done|done| |by destruct (_ && _)].
    intros t Ht. congruence.
Qed.

(** ** Lives of a member *)

(** The states a member can come to, by attempts of any outcome, whatever the
    world does in between. *)
Inductive lives : ConsumerGroupMember → Prop :=
| lives_new config group_id topics id : lives (new_member config group_id topics id)
| lives_beat g w o g' w' : lives g → heartbeat_attempt (g, w) = (o, (g', w')) → lives g'.

Lemma heartbeat_lives g w r g' w' : lives g → heartbeat (g, w) = (r, (g', w')) → lives g'.
Proof.
  intros Hg Hh. unfold heartbeat in Hh.
  apply (retrying_keeps _ _ _ _ (λ c, lives c.1)) in Hh; [done|done|].
  intros [g1 w1] o [g2 w2] Hg1 Ha. by eapply lives_beat.
Qed.

(** Handed down by the coordinator in an answer it accepted the member with. *)
Definition handed_down (o : Owned) : Prop :=
  ∃ g resp target, answered (heartbeat_request_of g) resp ∧ accepted resp ∧
    ConsumerGroupHeartbeatResponse.assignment resp = Some target ∧ o = target_of target.

Record faithful (g : ConsumerGroupMember) : Prop := mkFaithful {
  faithful_names : names (owned g) (assignment g);
  faithful_owned : owned g = [] ∨ handed_down (owned g);
}.

Lemma beat_faithful g o g' : faithful g → beat g o g' → faithful g'.
Proof.
  intros [Hn Ho] Hb. inversion Hb as [? _|resp _ _|resp event _ _ _ _|resp target named event Ha Hok Ht _ Hr _
    |resp target e _ _ _ _]; subst; try by constructor.
  - constructor; [by exists []|by left].
  - constructor; [exact Hr|]. right. by exists g, resp, target.
Qed.

Lemma lives_faithful g : lives g → faithful g.
Proof.
  induction 1 as [c gid ts id|g w o g' w' _ IH Ha].
  - constructor; [by exists []|by left].
  - eapply beat_faithful; [exact IH|by eapply heartbeat_attempt_beat].
Qed.

(** C21: What a member says it is assigned is what the coordinator gave it.
    Whatever its heartbeats run into -- lost answers, fencing, retries, failed
    metadata -- its assignment is, under names the metadata has for the topic
    ids, exactly the partitions of a target an accepted answer handed down, or
    nothing; and a target it has adopted goes on being acknowledged: until an
    answer is accepted to a heartbeat that echoes it, an attempt leaves the
    member as it was, or fenced, with nothing and about to describe itself
    anew. *)
Theorem assignments_are_handed_down (g : ConsumerGroupMember) :
  lives g →
  names (owned g) (assignment g) ∧ (owned g = [] ∨ handed_down (owned g)) ∧
  (∀ w r g' w', heartbeat (g, w) = (r, (g', w')) → lives g') ∧
  (ack_pending g = true → member_epoch g ≠ 0 →
   ConsumerGroupHeartbeatRequest.topic_partitions (heartbeat_request_of g) = Some (echo <$> owned g) ∧
   ∀ w o g' w', heartbeat_attempt (g, w) = (o, (g', w')) →
     g' = g ∨
     (g' = fenced g ∧ ConsumerGroupHeartbeatRequest.subscribed_topic_names (heartbeat_request_of g') =
        Some (topics g)) ∨
     ∃ resp, answered (heartbeat_request_of g) resp ∧ accepted resp).
Proof.
  intros Hg. destruct (lives_faithful g Hg) as [Hn Ho]. split; [done|]. split; [done|].
  split; [by intros; eapply heartbeat_lives|]. intros Hack Hep. split.
  - unfold heartbeat_request_of. destruct (Z.eqb_spec (member_epoch g) 0); [done|]. by rewrite Hack.
  - intros w o g' w' Ha%heartbeat_attempt_beat. inversion Ha; subst;
      [by left|right; left; by split|right; right; by eexists..].
Qed.

(** ** Losing an assignment *)








End reconciliation.

(** ** A coordinator *)

#[local] Existing Instance plain_runtime.

Definition topic_one : list byte := replicate 16 Byte.x01.

(** One that does as the protocol says: it hands its target down in answer to
    a member's full description, and then only when it changes.  The world is
    0 until the first heartbeat, 1 until the metadata has been asked for and 2
    from then on; where [flaky], the connection fails that first refresh. *)
Definition target_answer (epoch : Z) : ConsumerGroupHeartbeatResponse.t :=
  let target := Target.mk [TargetTopics.mk topic_one [0; 1] []] [] in
  ConsumerGroupHeartbeatResponse.mk 0 0 None None 1 5000
    (if epoch =? 0 then Some target else None) [].

(** One that answers the first heartbeat before it has computed a target. *)
Definition slow_answer (w : Z) : ConsumerGroupHeartbeatResponse.t :=
  let target := Target.mk [TargetTopics.mk topic_one [0; 1] []] [] in
  ConsumerGroupHeartbeatResponse.mk 0 0 None None 1 5000
    (if w =? 0 then None else Some target) [].

Definition coordinator (flaky : bool) (answer : Z → Z → ConsumerGroupHeartbeatResponse.t) : Cluster Z := {|
  cluster_brokers := {|
    handle := unit;
    handle_ranges _ := {[ 68 := (0, 1) ]};
    send _ _ version body w :=
      match Message.decode version body with
      | Ok (req, _) =>
          (map_err Encode (enc_bytes (ConsumerGroupHeartbeatResponse.encode version
             (answer (ConsumerGroupHeartbeatRequest.member_epoch req) w))), Z.max w 1)
      | Err e => (Err ConnectionClosed, w)
      end;
    note_throttled _ _ := id;
  |};
  partition_leader _ _ := io_ret tt;
  transaction_coordinator _ := io_ret tt;
  group_coordinator _ := io_ret tt;
  control_broker := io_ret tt;
  blocking_partition_leader _ _ := io_ret tt;
  blocking_coordinator _ := io_ret tt;
  release _ := id;
  discard _ := id;
  leader_id _ _ _ := None;
  forget_broker _ := id;
  mark_partition_stale _ _ := id;
  forget_coordinator _ := id;
  forget_transaction_coordinator _ := id;
  partition_count _ _ := Some 2;
  topic_name_by_id id w := if w <? 2 then None else Some "t";
  refresh_metadata _ w := (if flaky && (w =? 1) then Err ConnectionClosed else Ok tt, 2);
  now_ms _ := 1000;
  entropy _ := (1, 1);
|}.

Definition joiner : ConsumerGroupMember := new_member default_config "g" ["t"] "m".

(** [join] returns after the first answer with a positive epoch, though the
    next heartbeat would bring the assignment. *)
Theorem join_returns_unassigned :
  ∃ g w g' w',
    join (H := coordinator false (λ _, slow_answer)) (io_ret (replicate 16 Byte.x00)) default_config
      "g" ["t"] 0 = (Ok g, w) ∧
    assignment g = [] ∧
    heartbeat (H := coordinator false (λ _, slow_answer)) (g, w) = (Ok AssignmentChanged, (g', w')) ∧
    assignment g' = [("t", [0; 1])].
Proof.
  eexists _, _, _, _. split; [vm_compute; reflexivity|]. split; [reflexivity|].
  split; [vm_compute; reflexivity|reflexivity].
Qed.

Lemma assignments_are_handed_down_witness :
  ∃ g w, heartbeat (H := coordinator false (λ epoch _, target_answer epoch)) (joiner, 0) = (Ok Rejoined, (g, w)) ∧
    assignment g = [("t", [0; 1])] ∧
    names (H := coordinator false (λ epoch _, target_answer epoch)) (owned g) (assignment g) ∧
    ConsumerGroupHeartbeatRequest.topic_partitions (heartbeat_request_of g) =
      Some [RequestTopics.mk topic_one [0; 1] []].
Proof.
  destruct (heartbeat (H := coordinator false (λ epoch _, target_answer epoch)) (joiner, 0))
    as [[ev|e] [g w]] eqn:E; [|exfalso; vm_compute in E; discriminate].
  assert (lives (H := coordinator false (λ epoch _, target_answer epoch)) g) as Hg.
  { eapply (heartbeat_lives joiner 0); [apply lives_new|exact E]. }
  destruct (assignments_are_handed_down (H := coordinator false (λ epoch _, target_answer epoch)) g Hg)
    as (Hn & _ & _ & Hack).
  vm_compute in E. injection E as <- <- <-. eexists _, _. split; [reflexivity|].
  split; [reflexivity|]. split; [exact Hn|].
  destruct Hack as [Hack _]; [reflexivity|discriminate|exact Hack].
Defined.



