(* ===== verification/Txn.v ===== *)
(** * Transaction calls ([odradek-client/src/txn.rs], [producer.rs])

    The requests that make a set of writes atomic, each an exchange with its
    coordinator under the retry loop. *)
From S2P Require Import Prelude Budget Codec MessageTrait MsgTxn Registry ClientError Exchange Records Batching.

(** ** [ProducerConfig] *)

Record ProducerConfig : Type := mkProducerConfig {
  acks : Z;
  request_timeout_ms : Z;
  max_attempts : nat;
  retry_backoff : Z;
  config_compression : Compression;
  batch_max_bytes : Z;
  idempotent : bool;
  config_transactional_id : option string;
  transaction_timeout_ms : Z;
}.

Definition ACKS_ALL : Z := -1.

Definition default_config : ProducerConfig :=
  mkProducerConfig (-1) 10000 20 250 Compression_None (16 * 1024) true None 60000.

(** [ProducerConfig::transactional]. *)
Definition transactional_config (transactional_id : string) : ProducerConfig :=
  let d := default_config in
  mkProducerConfig ACKS_ALL (request_timeout_ms d) (max_attempts d) (retry_backoff d)
    (config_compression d) (batch_max_bytes d) true (Some transactional_id) (transaction_timeout_ms d).

Definition ADD_PARTITIONS_SUPPORTED : Z * Z := (0, 3).
Definition ADD_OFFSETS_SUPPORTED : Z * Z := (0, 4).
Definition TXN_OFFSET_COMMIT_SUPPORTED : Z * Z := (0, 4).
Definition END_TXN_SUPPORTED : Z * Z := (0, 4).
Definition INIT_PRODUCER_ID_SUPPORTED : Z * Z := (0, 5).

(** ** Grouping by topic *)

(** [by_topic.entry(topic).or_default().push(x)] on a [BTreeMap], as a list
    ascending by topic. *)
Definition string_lt (a b : string) : bool :=
  match String.compare a b with Lt => true | _ => false end.

Fixpoint push_by_topic {A} (topic : string) (x : A) (m : list (string * list A)) :
    list (string * list A) :=
  match m with
  | [] => [(topic, [x])]
  | (t, xs) :: rest =>
      if String.eqb topic t then (t, xs ++ [x]) :: rest
      else if string_lt topic t then (topic, [x]) :: m
      else (t, xs) :: push_by_topic topic x rest
  end.

Definition group_by_topic {A} (l : list (string * A)) : list (string * list A) :=
  foldl (λ m x, push_by_topic x.1 x.2 m) [] l.

(** [Vec::dedup] of a sorted vector. *)
Fixpoint dedup (l : list Z) : list Z :=
  match l with
  | [] => []
  | x :: rest =>
      match rest with
      | y :: _ => if x =? y then dedup rest else x :: dedup rest
      | [] => [x]
      end
  end.

Definition partitions_topic (e : string * list Z) : add_partitions_to_txn_request.AddPartitionsToTxnTopic.t :=
  add_partitions_to_txn_request.AddPartitionsToTxnTopic.mk e.1 (dedup (merge_sort Z.le e.2)) [].

(** One consumed position. *)
Record TransactionalOffset : Type := mkTransactionalOffset {
  to_topic : string;
  to_partition : Z;
  to_offset : Z;
  to_metadata : option string;
}.

Definition offset_partition (o : TransactionalOffset) :
    txn_offset_commit_request.TxnOffsetCommitRequestPartition.t :=
  txn_offset_commit_request.TxnOffsetCommitRequestPartition.mk (to_partition o) (to_offset o) (-1)
    (to_metadata o) [].

Definition offsets_topic (e : string * list TransactionalOffset) :
    txn_offset_commit_request.TxnOffsetCommitRequestTopic.t :=
  txn_offset_commit_request.TxnOffsetCommitRequestTopic.mk e.1 (offset_partition <$> e.2) [].

(** The first refusal among the codes of a response. *)
Fixpoint first_refusal (codes : list Z) : result ClientError unit :=
  match codes with
  | [] => Ok tt
  | code :: codes => let? _ := broker_code code in first_refusal codes
  end.

(** ** The calls *)

(** [struct Txn], less the cluster. *)
Record Txn : Type := mkTxn {
  txn_config : ProducerConfig;
  txn_id : string;
  txn_identity : ProducerIdentity;
}.

Section calls.
Context {R : Runtime} {W : Type} `{Cluster W}.

Definition txn_retries (t : Txn) : io W unit → io W unit :=
  with_retries (max_attempts (txn_config t)) (retry_backoff (txn_config t))
    (forget_transaction_coordinator (txn_id t)).

Definition add_partitions_once (t : Txn)
    (topics : list add_partitions_to_txn_request.AddPartitionsToTxnTopic.t) : io W unit :=
  let^ broker := transaction_coordinator (txn_id t) in
  let d := add_partitions_to_txn_request.AddPartitionsToTxnRequest.default in
  let request := add_partitions_to_txn_request.AddPartitionsToTxnRequest.mk
    (add_partitions_to_txn_request.AddPartitionsToTxnRequest.transactions d) (txn_id t)
    (identity_id (txn_identity t)) (identity_epoch (txn_identity t)) topics
    (add_partitions_to_txn_request.AddPartitionsToTxnRequest.unknown_tagged_fields d) in
  let^ resp := exchange
    (Resp := add_partitions_to_txn_response.AddPartitionsToTxnResponse.t)
    broker ADD_PARTITIONS_SUPPORTED request in
  io_of (first_refusal
    (concat ((λ topic,
       add_partitions_to_txn_response.AddPartitionsToTxnPartitionResult.partition_error_code <$>
       add_partitions_to_txn_response.AddPartitionsToTxnTopicResult.results_by_partition topic) <$>
     add_partitions_to_txn_response.AddPartitionsToTxnResponse.results_by_topic_v3_and_below resp))).

Definition add_partitions (t : Txn) (partitions : list (string * Z)) : io W unit :=
  match partitions with
  | [] => io_ret tt
  | _ => txn_retries t (add_partitions_once t (partitions_topic <$> group_by_topic partitions))
  end.

Definition add_offsets_once (t : Txn) (group_id : string) : io W unit :=
  let^ broker := transaction_coordinator (txn_id t) in
  let request := add_offsets_to_txn_request.AddOffsetsToTxnRequest.mk (txn_id t)
    (identity_id (txn_identity t)) (identity_epoch (txn_identity t)) group_id [] in
  let^ resp := exchange (Resp := add_offsets_to_txn_response.AddOffsetsToTxnResponse.t)
    broker ADD_OFFSETS_SUPPORTED request in
  io_of (broker_code (add_offsets_to_txn_response.AddOffsetsToTxnResponse.error_code resp)).

Definition add_offsets (t : Txn) (group_id : string) : io W unit :=
  txn_retries t (add_offsets_once t group_id).

Definition offset_commit_once (t : Txn) (group_id : string) (generation_id : Z) (member_id : string)
    (topics : list txn_offset_commit_request.TxnOffsetCommitRequestTopic.t) : io W unit :=
  let^ broker := group_coordinator group_id in
  let request := txn_offset_commit_request.TxnOffsetCommitRequest.mk (txn_id t) group_id
    (identity_id (txn_identity t)) (identity_epoch (txn_identity t)) generation_id member_id None
    topics [] in
  let^ resp := exchange (Resp := txn_offset_commit_response.TxnOffsetCommitResponse.t)
    broker TXN_OFFSET_COMMIT_SUPPORTED request in
  io_of (first_refusal
    (concat ((λ topic,
       txn_offset_commit_response.TxnOffsetCommitResponsePartition.error_code <$>
       txn_offset_commit_response.TxnOffsetCommitResponseTopic.partitions topic) <$>
     txn_offset_commit_response.TxnOffsetCommitResponse.topics resp))).

Definition offset_commit (t : Txn) (group_id : string) (generation_id : Z) (member_id : string)
    (offsets : list TransactionalOffset) : io W unit :=
  match offsets with
  | [] => io_ret tt
  | _ =>
      with_retries (max_attempts (txn_config t)) (retry_backoff (txn_config t))
        (forget_coordinator group_id)
        (offset_commit_once t group_id generation_id member_id
           (offsets_topic <$> group_by_topic ((λ o, (to_topic o, o)) <$> offsets)))
  end.

Definition end_txn_once (t : Txn) (committed : bool) : io W unit :=
  let^ broker := transaction_coordinator (txn_id t) in
  let request := end_txn_request.EndTxnRequest.mk (txn_id t) (identity_id (txn_identity t))
    (identity_epoch (txn_identity t)) committed [] in
  let^ resp := exchange (Resp := end_txn_response.EndTxnResponse.t) broker END_TXN_SUPPORTED request in
  io_of (broker_code (end_txn_response.EndTxnResponse.error_code resp)).

Definition end_txn (t : Txn) (committed : bool) : io W unit := txn_retries t (end_txn_once t committed).

(** ** The producer's identity ([init_producer_id]) *)

Definition init_producer_id_once (c : ProducerConfig) : io W ProducerIdentity :=
  let^ broker := match config_transactional_id c with
                 | Some id => transaction_coordinator id
                 | None => control_broker
                 end in
  let d := init_producer_id_request.InitProducerIdRequest.default in
  let request := init_producer_id_request.InitProducerIdRequest.mk (config_transactional_id c)
    (match config_transactional_id c with Some _ => transaction_timeout_ms c | None => -1 end) (-1) (-1)
    (init_producer_id_request.InitProducerIdRequest.enable2_pc d)
    (init_producer_id_request.InitProducerIdRequest.keep_prepared_txn d)
    (init_producer_id_request.InitProducerIdRequest.unknown_tagged_fields d) in
  let^ _ := io_of
    match Negotiate.pick (handle_ranges broker)
            (Message.API_KEY (M := init_producer_id_request.InitProducerIdRequest.t))
            INIT_PRODUCER_ID_SUPPORTED with
    | Ok version => Ok version
    | Err _ => Err (Config "this broker does not support InitProducerId")
    end in
  let^ resp := exchange (Resp := init_producer_id_response.InitProducerIdResponse.t)
    broker INIT_PRODUCER_ID_SUPPORTED request in
  let^ _ := io_of (broker_code (init_producer_id_response.InitProducerIdResponse.error_code resp)) in
  io_ret (mkIdentity (init_producer_id_response.InitProducerIdResponse.producer_id resp)
            (init_producer_id_response.InitProducerIdResponse.producer_epoch resp)).

Definition init_producer_id (c : ProducerConfig) : io W ProducerIdentity :=
  with_retries (max_attempts c) (retry_backoff c) id (init_producer_id_once c).

End calls.
