(* ===== verification/Producer.v ===== *)
(** * The producer ([odradek-client/src/producer.rs])

    Buffers per partition, the sequence numbers that make a retry
    recognizable, and the transaction state machine, over the calls of
    [Txn.v] and the delivery of one batch. *)
From S2P Require Import Prelude Budget Codec MessageTrait MsgProduce Registry ClientError Exchange Records Batching Txn.
Import produce_request produce_response error_code.

Definition PRODUCE_SUPPORTED : Z * Z := (3, 12).

Abbreviation key := (string * Z)%type.

(** One delivered batch. *)
Record Delivery : Type := mkDelivery {
  delivered_topic : string;
  delivered_partition : Z;
  delivered_offset : Z;
  delivered_records : Z;
}.

Record PendingBatch : Type := mkPending {
  pending_records : list KRecord;
  estimated_bytes : Z;
}.

Definition no_batch : PendingBatch := mkPending [] 0.

Inductive TransactionState : Type :=
| Disabled
| Uninitialized
| Ready
| Open
| Abortable
| Fenced.

#[export] Instance TransactionState_eq_dec : EqDecision TransactionState.
Proof. solve_decision. Defined.

Record Producer : Type := mkProducer {
  config : ProducerConfig;
  pending : gmap key PendingBatch;
  next_round_robin : Z;
  identity : option ProducerIdentity;
  sequences : gmap key Z;
  txn_state : TransactionState;
  txn_partitions : gset key;
}.

Definition set_pending (m : gmap key PendingBatch) (p : Producer) : Producer :=
  mkProducer (config p) m (next_round_robin p) (identity p) (sequences p) (txn_state p)
    (txn_partitions p).
Definition set_round_robin (n : Z) (p : Producer) : Producer :=
  mkProducer (config p) (pending p) n (identity p) (sequences p) (txn_state p) (txn_partitions p).
Definition set_identity (i : ProducerIdentity) (p : Producer) : Producer :=
  mkProducer (config p) (pending p) (next_round_robin p) (Some i) (sequences p) (txn_state p)
    (txn_partitions p).
Definition set_sequences (m : gmap key Z) (p : Producer) : Producer :=
  mkProducer (config p) (pending p) (next_round_robin p) (identity p) m (txn_state p)
    (txn_partitions p).
Definition set_txn_state (s : TransactionState) (p : Producer) : Producer :=
  mkProducer (config p) (pending p) (next_round_robin p) (identity p) (sequences p) s
    (txn_partitions p).
Definition set_txn_partitions (s : gset key) (p : Producer) : Producer :=
  mkProducer (config p) (pending p) (next_round_robin p) (identity p) (sequences p) (txn_state p) s.

(** [Producer::with_config]. *)
Definition with_config (c : ProducerConfig) : Producer :=
  mkProducer c ∅ 0 None ∅
    (match config_transactional_id c with Some _ => Uninitialized | None => Disabled end) ∅.

(** ** The rules of the state machine *)

Definition check_idempotent_acks (acks : Z) : result ClientError unit :=
  if acks =? ACKS_ALL then Ok tt else Err (Config "idempotent produce needs acks = -1 (the full ISR)").

Definition after_begin (s : TransactionState) : result ClientError TransactionState :=
  match s with
  | Ready => Ok Open
  | Uninitialized =>
      Err (Transaction "call Producer::init_transactions before beginning a transaction")
  | Disabled =>
      Err (Transaction "this producer has no transactional id; set ProducerConfig::transactional_id")
  | _ => Err (Transaction "a transaction is already underway")
  end.

Definition require_open (s : TransactionState) (verb : string) : result ClientError unit :=
  match s with
  | Open => Ok tt
  | Disabled => Err (Transaction ("cannot " ++ verb ++ " a transaction: no transactional id"))
  | Uninitialized =>
      Err (Transaction ("cannot " ++ verb ++ " a transaction before Producer::init_transactions"))
  | Ready =>
      Err (Transaction ("cannot " ++ verb ++ " a transaction before Producer::begin_transaction"))
  | Abortable =>
      Err (Transaction ("cannot " ++ verb ++ " a transaction that has already failed; abort it"))
  | Fenced => Err (Transaction ("cannot " ++ verb ++ " a transaction: this producer was fenced"))
  end%string.

Definition require_producible (s : TransactionState) : result ClientError unit :=
  match s with
  | Disabled => Ok tt
  | s => require_open s "produce inside"
  end.

Definition is_fencing (e : ClientError) : bool :=
  match e with
  | Broker code =>
      (code =? PRODUCER_FENCED) || (code =? INVALID_PRODUCER_EPOCH)
      || (code =? TRANSACTIONAL_ID_AUTHORIZATION_FAILED)
  | _ => false
  end.

Definition after_failure (s : TransactionState) (e : ClientError) : TransactionState :=
  match s with
  | Disabled => Disabled
  | _ => if is_fencing e then Fenced else match s with Open => Abortable | s => s end
  end.

Definition poison (e : ClientError) (p : Producer) : Producer :=
  set_txn_state (after_failure (txn_state p) e) p.

(** ** Sequences *)

(** [i32::wrapping_add]. *)
Definition wrapping_add (a b : Z) : Z := sint 32 (a + b).

Definition next_stamp (i : ProducerIdentity) (sequences : gmap key Z) (k : key) (records : Z)
    (transactional : bool) : BatchStamp * gmap key Z :=
  let base_sequence := default 0 (sequences !! k) in
  let count := default i32_max (try_from i32_min i32_max records) in
  (mkStamp (identity_id i) (identity_epoch i) base_sequence transactional,
   <[k := wrapping_add base_sequence count]> sequences).

(** Handing a sequence back. *)
Definition rewind (k : key) (stamp : option BatchStamp) (p : Producer) : Producer :=
  match stamp with
  | Some s => set_sequences (<[k := stamp_sequence s]> (sequences p)) p
  | None => p
  end.

(** ** Buffers *)

Definition restore (k : key) (batch : PendingBatch) (p : Producer) : Producer :=
  let slot := default no_batch (pending p !! k) in
  set_pending (<[k := mkPending (pending_records batch ++ pending_records slot)
                        (estimated_bytes slot + estimated_bytes batch)]> (pending p)) p.

Definition buffered (p : Producer) : Z :=
  foldr (λ e n, len (pending_records e.2) + n) 0 (map_to_list (pending p)).

(** The order of [(topic, partition)] keys. *)
Definition key_lt (a b : key) : bool :=
  string_lt a.1 b.1 || (String.eqb a.1 b.1 && (a.2 <? b.2)).
Definition delivery_key (d : Delivery) : key := (delivered_topic d, delivered_partition d).
Definition delivery_le (a b : Delivery) : Prop :=
  key_lt (delivery_key b) (delivery_key a) = false.
#[export] Instance delivery_le_dec : RelDecision delivery_le :=
  λ a b, decide (key_lt (delivery_key b) (delivery_key a) = false).

(** A batch with the stamp it goes out under. *)
Abbreviation stamped := (key * PendingBatch * option BatchStamp)%type.

Section producer.
Context {R : Runtime} {W : Type} `{Cluster W}.
Context (compress : Compression → list byte → result ClientError (list byte)).
(** The order a [HashMap] gives its entries up in, which is its own. *)
Context (drain : gmap key PendingBatch → list (key * PendingBatch)).

(** ** One delivery *)

Definition produce_request_for (c : ProducerConfig) (topic : string) (partition : Z)
    (set : list byte) : ProduceRequest.t :=
  let pd := PartitionProduceData.mk partition (Some set)
    (PartitionProduceData.unknown_tagged_fields PartitionProduceData.default) in
  let td := TopicProduceData.mk topic (TopicProduceData.topic_id TopicProduceData.default) [pd]
    (TopicProduceData.unknown_tagged_fields TopicProduceData.default) in
  ProduceRequest.mk (config_transactional_id c) (acks c) (request_timeout_ms c) [td]
    (ProduceRequest.unknown_tagged_fields ProduceRequest.default).

(** What the response says of the partition. *)
Definition read_produce (topic : string) (partition : Z) (r : ProduceResponse.t) :
    result ClientError Z :=
  let? entry := ok_or (ProtocolViolation "produce response omits the partition")
    (List.find (λ t, String.eqb (TopicProduceResponse.name t) topic) (ProduceResponse.responses r)
     ≫= λ t, List.find (λ p, PartitionProduceResponse.index p =? partition)
               (TopicProduceResponse.partition_responses t)) in
  if error_code.is_ok (PartitionProduceResponse.error_code entry)
  then Ok (PartitionProduceResponse.base_offset entry)
  else Err (Broker (PartitionProduceResponse.error_code entry)).

Definition try_once (c : ProducerConfig) (topic : string) (partition : Z) (set : list byte) : io W Z :=
  let^ broker := partition_leader topic partition in
  let^ leader := λ w, (Ok (leader_id topic partition w), w) in
  let^ resp := exchange_with (Resp := ProduceResponse.t) (forget_dead leader) broker
    PRODUCE_SUPPORTED (produce_request_for c topic partition set) in
  io_of (read_produce topic partition resp).

Definition deliver (c : ProducerConfig) (topic : string) (partition : Z) (rs : list KRecord)
    (stamp : option BatchStamp) : io W Z :=
  let^ set := λ w, (encode_batch compress (now_ms w) rs (config_compression c) stamp, w) in
  with_retries (max_attempts c) (retry_backoff c) (mark_partition_stale topic partition)
    (try_once c topic partition set).

(** ** Operations *)

(** An operation of [&mut Producer]. *)
Definition op (A : Type) : Type := Producer → W → result ClientError A * Producer * W.

Definition transactional_id (p : Producer) : result ClientError string :=
  ok_or (Transaction "this producer has no transactional id; set ProducerConfig::transactional_id")
    (config_transactional_id (config p)).

Definition txn (p : Producer) : result ClientError Txn :=
  let? id := transactional_id p in
  let? i := ok_or (Transaction "this producer has no id yet; call Producer::init_transactions")
              (identity p) in
  Ok (mkTxn (config p) id i).

Definition init_transactions : op unit := λ p w,
  match transactional_id p with
  | Err e => (Err e, p, w)
  | Ok _ =>
      match txn_state p with
      | Uninitialized =>
          match check_idempotent_acks (acks (config p)) with
          | Err e => (Err e, p, w)
          | Ok _ =>
              match init_producer_id (config p) w with
              | (Err e, w) => (Err e, p, w)
              | (Ok i, w) =>
                  (Ok tt,
                   set_txn_state Ready (set_txn_partitions ∅ (set_sequences ∅ (set_identity i p))), w)
              end
          end
      | _ => (Err (Transaction "init_transactions is for a new producer"), p, w)
      end
  end.

Definition begin_transaction : op unit := λ p w,
  match after_begin (txn_state p) with
  | Err e => (Err e, p, w)
  | Ok s => (Ok tt, set_txn_state s p, w)
  end.

Definition claim_partitions (keys : list key) : op unit := λ p w,
  if decide (txn_state p = Disabled) then (Ok tt, p, w)
  else
    match require_producible (txn_state p) with
    | Err e => (Err e, p, w)
    | Ok _ =>
        match base.filter (λ k, k ∉ txn_partitions p) keys with
        | [] => (Ok tt, p, w)
        | fresh =>
            match txn p with
            | Err e => (Err e, p, w)
            | Ok t =>
                match add_partitions t fresh w with
                | (Err e, w) => (Err e, poison e p, w)
                | (Ok _, w) =>
                    (Ok tt, set_txn_partitions (txn_partitions p ∪ list_to_set fresh) p, w)
                end
            end
        end
    end.

Definition batch_stamp (k : key) (records : Z) : op (option BatchStamp) := λ p w,
  if negb (idempotent (config p)) then (Ok None, p, w)
  else
    match check_idempotent_acks (acks (config p)) with
    | Err e => (Err e, p, w)
    | Ok _ =>
        let take i p w :=
          let '(stamp, seqs) := next_stamp i (sequences p) k records
                                  (negb (bool_decide (txn_state p = Disabled))) in
          (Ok (Some stamp), set_sequences seqs p, w) in
        match identity p with
        | Some i => take i p w
        | None =>
            match require_producible (txn_state p) with
            | Err e => (Err e, p, w)
            | Ok _ =>
                match init_producer_id (config p) w with
                | (Err e, w) => (Err e, p, w)
                | (Ok i, w) => take i (set_identity i p) w
                end
            end
        end
    end.

(** [for (key, pending) in ..] of [restore]. *)
Fixpoint restore_all (l : list (key * PendingBatch)) (p : Producer) : Producer :=
  match l with
  | [] => p
  | (k, batch) :: l => restore_all l (restore k batch p)
  end.

(** The stamping loop of [flush]. *)
Fixpoint stamp_all (batches : list (key * PendingBatch)) (done : list stamped) : op (list stamped) :=
  λ p w,
  match batches with
  | [] => (Ok done, p, w)
  | (k, batch) :: batches =>
      match batch_stamp k (len (pending_records batch)) p w with
      | (Ok stamp, p, w) => stamp_all batches (done ++ [(k, batch, stamp)]) p w
      | (Err e, p, w) => (Err e, restore_all (fst <$> done) (restore k batch p), w)
      end
  end.

(** [join_all] of the deliveries: they share only the cluster, so they are
    run in the order they were given, in which their results come back. *)
Fixpoint deliver_all (c : ProducerConfig) (l : list stamped) (w : W) :
    list (stamped * result ClientError Z) * W :=
  match l with
  | [] => ([], w)
  | (k, batch, stamp) :: l =>
      let '(outcome, w) := deliver c k.1 k.2 (pending_records batch) stamp w in
      let '(rest, w) := deliver_all c l w in
      ((k, batch, stamp, outcome) :: rest, w)
  end.

(** The loop over the results. *)
Fixpoint settle_results (results : list (stamped * result ClientError Z)) (deliveries : list Delivery)
    (failure : option (key * ClientError)) (p : Producer) :
    list Delivery * option (key * ClientError) * Producer :=
  match results with
  | [] => (deliveries, failure, p)
  | (k, batch, stamp, Ok base_offset) :: results =>
      settle_results results
        (deliveries ++ [mkDelivery k.1 k.2 base_offset (len (pending_records batch))]) failure p
  | (k, batch, stamp, Err e) :: results =>
      let failure :=
        match failure with
        | Some (worst, _) => if key_lt k worst then Some (k, e) else failure
        | None => Some (k, e)
        end in
      settle_results results deliveries failure (restore k batch (rewind k stamp p))
  end.

Definition flush : op (list Delivery) := λ p w,
  let batches := drain (pending p) in
  let p := set_pending ∅ p in
  match batches with
  | [] => (Ok [], p, w)
  | _ =>
      match claim_partitions (fst <$> batches) p w with
      | (Err e, p, w) => (Err e, restore_all batches p, w)
      | (Ok _, p, w) =>
          match stamp_all batches [] p w with
          | (Err e, p, w) => (Err e, p, w)
          | (Ok stamped, p, w) =>
              let '(results, w) := deliver_all (config p) stamped w in
              match settle_results results [] None p with
              | (_, Some (_, e), p) => (Err e, poison e p, w)
              | (deliveries, None, p) => (Ok (merge_sort delivery_le deliveries), p, w)
              end
          end
      end
  end.

Definition flush_partition (topic : string) (partition : Z) : op Delivery := λ p w,
  let k := (topic, partition) in
  let batch := default no_batch (pending p !! k) in
  let p := set_pending (delete k (pending p)) p in
  let count := len (pending_records batch) in
  match claim_partitions [k] p w with
  | (Err e, p, w) => (Err e, restore k batch p, w)
  | (Ok _, p, w) =>
      match batch_stamp k count p w with
      | (Err e, p, w) => (Err e, restore k batch p, w)
      | (Ok stamp, p, w) =>
          match deliver (config p) topic partition (pending_records batch) stamp w with
          | (Ok base_offset, w) => (Ok (mkDelivery topic partition base_offset count), p, w)
          | (Err e, w) => (Err e, poison e (restore k batch (rewind k stamp p)), w)
          end
      end
  end.

Definition enqueue (topic : string) (partition : Z) (r : KRecord) : op (option Delivery) := λ p w,
  let k := (topic, partition) in
  let slot := default no_batch (pending p !! k) in
  let slot := mkPending (pending_records slot ++ [r]) (estimated_bytes slot + estimate_record_size r) in
  let p := set_pending (<[k := slot]> (pending p)) p in
  if batch_max_bytes (config p) <=? estimated_bytes slot then
    match flush_partition topic partition p w with
    | (Ok d, p, w) => (Ok (Some d), p, w)
    | (Err e, p, w) => (Err e, p, w)
    end
  else (Ok None, p, w).

(** The partition of a record, and the cursor after it. *)
Definition partition_of (p : Producer) (r : KRecord) (count : Z) : Z * Producer :=
  match Records.key r with
  | Some k => (partition_for_key k count, p)
  | None =>
      (next_round_robin p mod count, set_round_robin (wrap 64 (next_round_robin p + 1)) p)
  end.

(** The topic's partition count, learnt when it is not known. *)
Definition known_count (topic : string) : io W Z := λ w,
  let check count :=
    match count with
    | Some count => if 0 <? count then Ok (default i32_max (try_from i32_min i32_max count))
                    else Err (UnknownLeader topic (-1))
    | None => Err (UnknownLeader topic (-1))
    end in
  match partition_count topic w with
  | Some count => (check (Some count), w)
  | None =>
      match refresh_metadata [topic] w with
      | (Err e, w) => (Err e, w)
      | (Ok _, w) => (check (partition_count topic w), w)
      end
  end.

Definition enqueue_keyed (topic : string) (r : KRecord) : op (option Delivery) := λ p w,
  match known_count topic w with
  | (Err e, w) => (Err e, p, w)
  | (Ok count, w) =>
      let '(partition, p) := partition_of p r count in
      enqueue topic partition r p w
  end.

Definition produce (topic : string) (partition : Z) (rs : list KRecord) : op Z := λ p w,
  let k := (topic, partition) in
  match claim_partitions [k] p w with
  | (Err e, p, w) => (Err e, p, w)
  | (Ok _, p, w) =>
      match batch_stamp k (len rs) p w with
      | (Err e, p, w) => (Err e, p, w)
      | (Ok stamp, p, w) =>
          match deliver (config p) topic partition rs stamp w with
          | (Ok base_offset, w) => (Ok base_offset, p, w)
          | (Err e, w) => (Err e, poison e (rewind k stamp p), w)
          end
      end
  end.

Definition end_transaction (committed : bool) : op unit := λ p w,
  match txn p with
  | Err e => (Err e, p, w)
  | Ok t =>
      match end_txn t committed w with
      | (Err e, w) => (Err e, poison e p, w)
      | (Ok _, w) => (Ok tt, set_txn_state Ready (set_txn_partitions ∅ p), w)
      end
  end.

Definition commit_transaction : op unit := λ p w,
  match require_open (txn_state p) "commit" with
  | Err e => (Err e, p, w)
  | Ok _ =>
      match flush p w with
      | (Err e, p, w) => (Err e, poison e p, w)
      | (Ok _, p, w) => end_transaction true p w
      end
  end.

Definition abort_transaction : op unit := λ p w,
  match txn_state p with
  | Open | Abortable => end_transaction false (set_pending ∅ p) w
  | _ => (Err (Transaction "no transaction to abort"), p, w)
  end.

(** [member]'s group, generation and id. *)
Definition send_offsets_to_transaction (group_id : string) (generation_id : Z) (member_id : string)
    (offsets : list TransactionalOffset) : op unit := λ p w,
  match require_open (txn_state p) "send offsets to" with
  | Err e => (Err e, p, w)
  | Ok _ =>
      match txn p with
      | Err e => (Err e, p, w)
      | Ok t =>
          match (let^ _ := add_offsets t group_id in
                 offset_commit t group_id generation_id member_id offsets) w with
          | (Err e, w) => (Err e, poison e p, w)
          | (Ok _, w) => (Ok tt, p, w)
          end
      end
  end.

End producer.
