(* ===== verification/ProducerSafety.v ===== *)
(** * What the producer promises

    The theorems about [Producer.v]: what a flush does to the buffers and the
    sequences, and what a committed transaction contains. *)
From S2P Require Import Prelude Budget Codec MessageTrait Registry ClientError Exchange Records Batching Txn Producer.


(** The sequence the next batch of a partition carries. *)
Definition next_sequence (p : Producer) (k : key) : Z := default 0 (sequences p !! k).

(** A producer whose stamps cannot fail: numbering is off, or it has its
    identity and the acknowledgement level numbering needs. *)
Definition can_stamp (p : Producer) : Prop :=
  idempotent (config p) = false ∨ (acks (config p) = ACKS_ALL ∧ is_Some (identity p)).

(** The stamp a batch for [k] gets. *)
Definition stamp_for (p : Producer) (k : key) : option BatchStamp :=
  if idempotent (config p) then
    match identity p with
    | Some i => Some (mkStamp (identity_id i) (identity_epoch i) (next_sequence p k)
                        (negb (bool_decide (txn_state p = Disabled))))
    | None => None
    end
  else None.

Definition batch_count (batch : PendingBatch) : Z :=
  default i32_max (try_from i32_min i32_max (len (pending_records batch))).

(** The sequence after [batch] was delivered. *)
Definition advanced (p : Producer) (k : key) (batch : PendingBatch) : Z :=
  if idempotent (config p) then wrapping_add (next_sequence p k) (batch_count batch)
  else next_sequence p k.

(** Nothing but the transaction state, its partitions and the world differ. *)
Record same_buffers (p q : Producer) : Prop := mkSameBuffers {
  same_config : config q = config p;
  same_pending : pending q = pending p;
  same_identity : identity q = identity p;
  same_sequences : sequences q = sequences p;
}.

Lemma key_lt_asym a b : key_lt a b = true → key_lt b a = false.
Proof.
  destruct a as [t i], b as [u j]. unfold key_lt, string_lt. cbn [fst snd].
  rewrite (String.compare_antisym u t), (String.eqb_sym u t).
  destruct (String.eqb_spec t u) as [->|Hne].
  - destruct (String.compare u u) eqn:E.
    + cbn. lia.
    + pose proof (String.compare_antisym u u) as Ha. by rewrite E in Ha.
    + pose proof (String.compare_antisym u u) as Ha. by rewrite E in Ha.
  - destruct (String.compare t u); cbn; done.
Qed.

#[local] Instance delivery_le_total : Total delivery_le.
Proof.
  intros x y. unfold delivery_le. destruct (key_lt (delivery_key y) (delivery_key x)) eqn:E;
    [right; by apply key_lt_asym|by left].
Qed.

Lemma batch_eta b : mkPending (pending_records b ++ []) (0 + estimated_bytes b) = b.
Proof. destruct b. cbn. by rewrite app_nil_r. Qed.

Section producer.
Context {R : Runtime} {W : Type} `{Cluster W}.
Context (compress : Compression → list byte → result ClientError (list byte)).
Context (drain : gmap key PendingBatch → list (key * PendingBatch)).

Lemma claim_partitions_keeps keys p w r p' w' :
  claim_partitions keys p w = (r, p', w') →
  same_buffers p p' ∧
  match r with
  | Ok _ => txn_state p' = txn_state p
  | Err e => txn_state p' = txn_state p ∧ txn_state p ≠ Open ∨
             txn_state p' = txn_state p ∧ (∃ e, txn p = Err e) ∨
             txn_state p' = after_failure (txn_state p) e
  end.
Proof.
  unfold claim_partitions. destruct (decide (txn_state p = Disabled)) as [Hd|Hd].
  { intros [= <- <- <-]. by split. }
  destruct (require_producible (txn_state p)) as [u|e] eqn:Hr.
  - destruct (base.filter _ keys) as [|k fresh]; [intros [= <- <- <-]; by split|].
    destruct (txn p) as [t|e] eqn:Ht; [|intros [= <- <- <-]; split; [done|right; left; eauto]].
    destruct (add_partitions t (k :: fresh) w) as [[u'|e] w1]; intros [= <- <- <-]; split; try done.
    by right; right.
  - intros [= <- <- <-]. split; [done|]. left. split; [done|]. intros Ho. by rewrite Ho in Hr.
Qed.

Lemma batch_stamp_ok k n p w :
  can_stamp p →
  ∃ p', batch_stamp k n p w = (Ok (stamp_for p k), p', w) ∧
    config p' = config p ∧ pending p' = pending p ∧ identity p' = identity p ∧
    txn_state p' = txn_state p ∧
    sequences p' = (if idempotent (config p)
      then <[k := wrapping_add (next_sequence p k)
                    (default i32_max (try_from i32_min i32_max n))]> (sequences p)
      else sequences p).
Proof.
  intros Hs. unfold batch_stamp, stamp_for. destruct (idempotent (config p)) eqn:Hi; cbn [negb].
  - destruct Hs as [?|[Ha [i Hid]]]; [congruence|]. unfold check_idempotent_acks.
    rewrite Ha, Z.eqb_refl, Hid. cbn [next_stamp]. by eexists.
  - by exists p.
Qed.

(** The stamping loop, when stamps cannot fail. *)
Lemma stamp_all_ok batches : ∀ done p w,
  can_stamp p → NoDup (fst <$> batches) →
  ∃ p', stamp_all batches done p w =
      (Ok (done ++ ((λ e, (e.1, e.2, stamp_for p e.1)) <$> batches)), p', w) ∧
    config p' = config p ∧ pending p' = pending p ∧ identity p' = identity p ∧
    txn_state p' = txn_state p ∧
    (∀ k batch, (k, batch) ∈ batches → next_sequence p' k = advanced p k batch) ∧
    (∀ k, k ∉ fst <$> batches → next_sequence p' k = next_sequence p k).
Proof.
  induction batches as [|[k batch] batches IH]; intros done p w Hs Hnd; cbn [stamp_all].
  - exists p. rewrite app_nil_r. split_and!; try done. by intros ? ? ?%not_elem_of_nil.
  - rewrite fmap_cons in Hnd. apply NoDup_cons in Hnd as [Hk Hnd]. cbn [fst] in Hk.
    destruct (batch_stamp_ok k (len (pending_records batch)) p w Hs)
      as (p1 & -> & Hc & Hp & Hi & Ht & Hq).
    assert (can_stamp p1) as Hs1 by (unfold can_stamp in *; by rewrite Hc, Hi).
    assert (∀ k', k' ≠ k → next_sequence p1 k' = next_sequence p k') as Hother.
    { intros k' Hne. unfold next_sequence. rewrite Hq.
      destruct (idempotent (config p)); [by rewrite lookup_insert_ne|done]. }
    assert (next_sequence p1 k = advanced p k batch) as Hsame.
    { unfold advanced, next_sequence. rewrite Hq.
      destruct (idempotent (config p)); [by rewrite lookup_insert_eq|done]. }
    destruct (IH (done ++ [(k, batch, stamp_for p k)]) p1 w Hs1 Hnd)
      as (p2 & -> & Hc2 & Hp2 & Hi2 & Ht2 & Hadv & Hrest).
    exists p2. split_and!; try congruence.
    + rewrite <- app_assoc. cbn [app]. rewrite fmap_cons. cbn [fst snd].
      assert (((λ e, (e.1, e.2, stamp_for p1 e.1)) <$> batches) =
              ((λ e, (e.1, e.2, stamp_for p e.1)) <$> batches)) as ->; [|done].
      apply list_fmap_ext. intros i [k' b'] Hl. cbn [fst snd]. f_equal.
      assert (k' ≠ k) as Hne.
      { intros ->. apply Hk. apply list_elem_of_fmap. exists (k, b').
        split; [done|]. by eapply list_elem_of_lookup_2. }
      unfold stamp_for. by rewrite Hc, Hi, Ht, Hother.
    + intros k' b' [[= -> ->]|Hin]%elem_of_cons; [by rewrite Hrest|].
      rewrite (Hadv _ _ Hin). unfold advanced. rewrite Hc, Hother; [done|].
      intros ->. apply Hk. apply list_elem_of_fmap. by exists (k, b').
    + intros k' Hin. rewrite fmap_cons in Hin. cbn [fst] in Hin.
      apply not_elem_of_cons in Hin as [Hne Hin]. rewrite Hrest by done. by apply Hother.
Qed.

Lemma deliver_all_jobs c l : ∀ w, (deliver_all compress c l w).1.*1 = l.
Proof.
  induction l as [|[[k batch] stamp] l IH]; intros w; [done|]. cbn [deliver_all].
  destruct (deliver compress c k.1 k.2 (pending_records batch) stamp w) as [o w1].
  specialize (IH w1). destruct (deliver_all compress c l w1) as [rest w2]. cbn in *. by rewrite IH.
Qed.

Lemma restore_fresh k batch p :
  pending p !! k = None → pending (restore k batch p) = <[k := batch]> (pending p).
Proof. intros Hk. unfold restore. rewrite Hk. cbn. by rewrite batch_eta. Qed.

Lemma restore_all_fresh l : ∀ p,
  NoDup l.*1 → (∀ k, k ∈ l.*1 → pending p !! k = None) →
  pending (restore_all l p) = list_to_map l ∪ pending p ∧
  sequences (restore_all l p) = sequences p.
Proof.
  induction l as [|[k batch] l IH]; intros p Hnd Hp; cbn [restore_all].
  - by rewrite list_to_map_nil, (left_id_L ∅ _).
  - rewrite fmap_cons in Hnd, Hp. apply NoDup_cons in Hnd as [Hk Hnd]. cbn [fst] in *.
    destruct (IH (restore k batch p) Hnd) as [-> ->].
    { intros k' Hk'. rewrite restore_fresh by (apply Hp, list_elem_of_here).
      rewrite lookup_insert_ne by (intros ->; done). by apply Hp, list_elem_of_further. }
    split; [|done]. rewrite restore_fresh by (apply Hp, list_elem_of_here).
    rewrite list_to_map_cons, <- insert_union_r by (by apply not_elem_of_list_to_map).
    by rewrite insert_union_l.
Qed.

Definition outcome : Type := stamped * result ClientError Z.
Definition outcome_key (o : outcome) : key := o.1.1.1.
Definition outcome_batch (o : outcome) : PendingBatch := o.1.1.2.

Definition delivery_of (o : outcome) : option Delivery :=
  match o.2 with
  | Ok base => Some (mkDelivery (outcome_key o).1 (outcome_key o).2 base
                       (len (pending_records (outcome_batch o))))
  | Err _ => None
  end.

Lemma settle_spec (results : list outcome) : ∀ ds failure p,
  NoDup (outcome_key <$> results) →
  (∀ k, k ∈ outcome_key <$> results → pending p !! k = None) →
  let '(ds', failure', p') := settle_results results ds failure p in
  ds' = ds ++ omap delivery_of results ∧
  (failure' = None ↔ failure = None ∧ Forall (λ o, is_ok o.2 = true) results) ∧
  config p' = config p ∧ identity p' = identity p ∧ txn_state p' = txn_state p ∧
  (∀ o, o ∈ results →
     if is_ok o.2
     then pending p' !! outcome_key o = None ∧
          next_sequence p' (outcome_key o) = next_sequence p (outcome_key o)
     else pending p' !! outcome_key o = Some (outcome_batch o) ∧
          next_sequence p' (outcome_key o) =
            match o.1.2 with
            | Some s => stamp_sequence s
            | None => next_sequence p (outcome_key o)
            end) ∧
  ∀ k, k ∉ outcome_key <$> results →
    pending p' !! k = pending p !! k ∧ next_sequence p' k = next_sequence p k.
Proof.
  induction results as [|o results IH]; intros ds failure p Hnd Hp.
  { cbn. rewrite app_nil_r. split_and!; try done; [by split; [|intros [? _]]|by intros ? ?%not_elem_of_nil]. }
  rewrite fmap_cons in Hnd, Hp. apply NoDup_cons in Hnd as [Hk Hnd].
  destruct o as [[[k batch] stamp] [base|e]]; cbn [settle_results]; cbn [outcome_key fst] in *.
  - set (d := mkDelivery _ _ _ _).
    specialize (IH (ds ++ [d]) failure p Hnd (λ k' Hk', Hp _ (list_elem_of_further _ _ _ Hk'))).
    destruct (settle_results results (ds ++ [d]) failure p) as [[ds' failure'] p'].
    destruct IH as (-> & Hf & ? & ? & ? & Hin & Hout). split_and!; try done.
    + by rewrite <- app_assoc.
    + rewrite Hf, Forall_cons. cbn. tauto.
    + intros o [->|Ho]%elem_of_cons; [|by apply Hin]. cbn.
      destruct (Hout k Hk) as [-> ->]. split; [apply Hp, list_elem_of_here|done].
    + intros k' Hk'. rewrite fmap_cons in Hk'. apply not_elem_of_cons in Hk' as [_ Hk'].
      by apply Hout.
  - set (f := match failure with Some _ => _ | None => _ end).
    set (q := restore k batch (rewind k stamp p)).
    assert (pending q = <[k := batch]> (pending p)) as Hq.
    { unfold q. rewrite restore_fresh; [by destruct stamp|].
      destruct stamp; apply Hp, list_elem_of_here. }
    assert (sequences q = match stamp with
      | Some s => <[k := stamp_sequence s]> (sequences p) | None => sequences p end) as Hs
      by (by destruct stamp).
    specialize (IH ds f q Hnd). destruct (settle_results results ds f q) as [[ds' failure'] p'].
    destruct IH as (-> & Hf & Hc & Hi & Ht & Hin & Hout).
    { intros k' Hk'. rewrite Hq, lookup_insert_ne by (intros ->; done).
      by apply Hp, list_elem_of_further. }
    assert (∀ k', k' ≠ k → next_sequence q k' = next_sequence p k') as Hother.
    { intros k' Hne. unfold next_sequence. rewrite Hs.
      destruct stamp; [by rewrite lookup_insert_ne|done]. }
    split_and!; try done.
    + rewrite Hf, Forall_cons. cbn. split; [|by intros [_ [? _]]].
      intros [Hnone _]. unfold f in Hnone. destruct failure as [[worst ?]|]; [|done].
      by destruct (key_lt k worst).
    + rewrite Hc. by destruct stamp.
    + rewrite Hi. by destruct stamp.
    + rewrite Ht. by destruct stamp.
    + intros o [->|Ho]%elem_of_cons.
      * cbn. destruct (Hout k Hk) as [-> ->]. rewrite Hq, lookup_insert_eq. split; [done|].
        unfold next_sequence. rewrite Hs. destruct stamp; [by rewrite lookup_insert_eq|done].
      * specialize (Hin o Ho). assert (outcome_key o ≠ k) as Hne.
        { intros <-. apply Hk. by apply list_elem_of_fmap_2. }
        by rewrite Hother in Hin.
    + intros k' Hk'. rewrite fmap_cons in Hk'. apply not_elem_of_cons in Hk' as [Hne Hk'].
      destruct (Hout k' Hk') as [-> ->]. rewrite Hq, lookup_insert_ne by done.
      split; [done|by apply Hother].
Qed.

(** The sends of a flush, one after the other, each with what it was answered. *)
Inductive sends (c : ProducerConfig) : W → list outcome → W → Prop :=
| sends_none w : sends c w [] w
| sends_one w k batch stamp answer w1 l w2 :
    deliver compress c k.1 k.2 (pending_records batch) stamp w = (answer, w1) →
    sends c w1 l w2 → sends c w ((k, batch, stamp, answer) :: l) w2.

Lemma deliver_all_sends c l : ∀ w, sends c w (deliver_all compress c l w).1 (deliver_all compress c l w).2.
Proof.
  induction l as [|[[k batch] stamp] l IH]; intros w; cbn [deliver_all]; [constructor|].
  destruct (deliver compress c k.1 k.2 (pending_records batch) stamp w) as [o w1] eqn:E.
  specialize (IH w1). destruct (deliver_all compress c l w1) as [rest w2]. by econstructor.
Qed.

(** The failure that is reported is one of them. *)
Lemma settle_failure (results : list outcome) : ∀ ds failure p k e,
  (settle_results results ds failure p).1.2 = Some (k, e) →
  failure = Some (k, e) ∨ ∃ batch stamp, (k, batch, stamp, Err e) ∈ results.
Proof.
  induction results as [|[[[k b] stamp] [base|err]] results IH]; intros ds failure p k' e' E;
    cbn [settle_results] in E; [by left| |]; apply IH in E as [E|(b' & s' & E)];
    try (right; exists b', s'; by apply list_elem_of_further); [by left|].
  assert (Some (k, err) = Some (k', e') → ∃ b' s', (k', b', s', Err e') ∈ (k, b, stamp, Err err) :: results) as Hhere.
  { intros [= <- <-]. eexists _, _. apply list_elem_of_here. }
  destruct failure as [[worst ?]|]; [destruct (key_lt k worst)|]; auto.
Qed.

(** What became of the batches of a flush that got as far as sending. *)
Lemma settled_batches p p1 p2 results (B : list (key * PendingBatch)) ds failure p3 :
  same_buffers (set_pending ∅ p) p1 → txn_state p1 = txn_state p → can_stamp p →
  B ≡ₚ map_to_list (pending p) →
  results.*1 = (λ e, (e.1, e.2, stamp_for p1 e.1)) <$> B →
  config p2 = config p1 → pending p2 = pending p1 →
  (∀ k batch, (k, batch) ∈ B → next_sequence p2 k = advanced p1 k batch) →
  (∀ k, k ∉ fst <$> B → next_sequence p2 k = next_sequence p1 k) →
  settle_results results [] None p2 = (ds, failure, p3) →
  (outcome_key <$> results) ≡ₚ (map_to_list (pending p)).*1 ∧
  (∀ k batch stamp answer, (k, batch, stamp, answer) ∈ results →
     pending p !! k = Some batch ∧ stamp = stamp_for p k ∧
     match answer with
     | Ok _ => pending p3 !! k = None ∧ next_sequence p3 k = advanced p k batch
     | Err _ => pending p3 !! k = Some batch ∧ next_sequence p3 k = next_sequence p k
     end) ∧
  (∀ k, k ∉ outcome_key <$> results →
     pending p3 !! k = pending p !! k ∧ next_sequence p3 k = next_sequence p k) ∧
  ds = omap delivery_of results ∧
  (failure = None ↔ Forall (λ o, is_ok o.2 = true) results).
Proof.
  intros Hsame Htxn Hcan HB Hres Hc2 Hp2 Hadv Hout Hset.
  assert (outcome_key <$> results = B.*1) as Hkeys.
  { transitivity ((λ s : stamped, s.1.1) <$> results.*1); [apply (list_fmap_compose fst (λ s : stamped, s.1.1) results)|].
    rewrite Hres. symmetry.
    apply (list_fmap_compose (λ e : key * PendingBatch, (e.1, e.2, stamp_for p1 e.1))
      (λ s : stamped, s.1.1) B). }
  assert (NoDup (outcome_key <$> results)) as Hnd.
  { rewrite Hkeys, HB. apply NoDup_fst_map_to_list. }
  assert (∀ k, pending p2 !! k = None) as Hempty.
  { intros k. rewrite Hp2, (same_pending _ _ Hsame). apply lookup_empty. }
  pose proof (settle_spec results [] None p2 Hnd (λ k _, Hempty k)) as Hs. rewrite Hset in Hs.
  destruct Hs as (-> & Hf & _ & _ & _ & Hin & Hnot). cbn [app].
  assert (∀ k, next_sequence p1 k = next_sequence p k) as Hseq1.
  { intros k. unfold next_sequence. by rewrite (same_sequences _ _ Hsame). }
  assert (∀ k batch, advanced p1 k batch = advanced p k batch) as Hadv1.
  { intros k batch. unfold advanced. by rewrite Hseq1, (same_config _ _ Hsame). }
  assert (∀ k, stamp_for p1 k = stamp_for p k) as Hstamp.
  { intros k. unfold stamp_for. by rewrite Hseq1, Htxn, (same_config _ _ Hsame), (same_identity _ _ Hsame). }
  split; [by rewrite Hkeys, HB|]. split_and!; [|  |done|rewrite Hf; naive_solver].
  - intros k batch stamp answer Ho. specialize (Hin _ Ho).
    apply (list_elem_of_fmap_2 fst) in Ho. rewrite Hres in Ho.
    apply list_elem_of_fmap in Ho as ([k' b'] & [= -> -> ->] & Hb). rewrite (Hstamp k') in *.
    specialize (Hadv _ _ Hb). rewrite HB, elem_of_map_to_list in Hb. split; [done|]. split; [done|].
    destruct answer as [base|e]; cbn in Hin; destruct Hin as [-> ->]; (split; [done|]); [by rewrite Hadv, Hadv1|].
    rewrite Hadv, Hadv1. unfold stamp_for, advanced. destruct (idempotent (config p)) eqn:Hi; [|done].
    destruct Hcan as [?|[_ [i ->]]]; [congruence|done].
  - intros k Hk. destruct (Hnot k Hk) as [-> ->]. rewrite Hkeys in Hk. rewrite Hempty, Hout, Hseq1 by done.
    split; [|done]. symmetry. apply not_elem_of_dom. intros [batch Hb]%elem_of_dom. apply Hk.
    apply list_elem_of_fmap. exists (k, batch). split; [done|]. by rewrite HB, elem_of_map_to_list.
Qed.

Lemma drained_back (B : list (key * PendingBatch)) p p1 :
  B ≡ₚ map_to_list (pending p) → same_buffers (set_pending ∅ p) p1 →
  pending (restore_all B p1) = pending p ∧
  ∀ k, next_sequence (restore_all B p1) k = next_sequence p k.
Proof.
  intros HB Hsame. destruct (restore_all_fresh B p1) as [Hp Hs].
  - rewrite HB. apply NoDup_fst_map_to_list.
  - intros k _. rewrite (same_pending _ _ Hsame). apply lookup_empty.
  - rewrite Hp, (same_pending _ _ Hsame). cbn [pending set_pending]. split.
    + rewrite (right_id_L ∅ _), <- (list_to_map_to_list (pending p)).
      apply list_to_map_proper; [rewrite HB; apply NoDup_fst_map_to_list|done].
    + intros k. unfold next_sequence. by rewrite Hs, (same_sequences _ _ Hsame).
Qed.

(** C8: A flush loses nothing when stamps cannot fail.  It sends each buffered
    partition once, with its batch and its stamp, or none when a transaction's
    partitions cannot be announced; and the broker's answer decides what becomes of
    the buffer.  Of a batch that was taken the buffer is gone and the sequence has
    moved past it; of one that was not, whatever became of the others, the buffer
    holds exactly what it held and the next batch carries the same sequence again; of
    everything else nothing changes.  It succeeds exactly when all were taken, and
    then reports each once with its offset and record count, sorted by topic and
    partition; the error of one that sent is the answer to one of the batches. *)
Theorem flush_loses_nothing (p p' : Producer) (w w' : W) (r : result ClientError (list Delivery)) :
  (∀ m, drain m ≡ₚ map_to_list m) → can_stamp p →
  flush compress drain p w = (r, p', w') →
  ∃ (results : list outcome) (w0 : W),
    sends (config p) w0 results w' ∧
    (∀ k batch stamp answer, (k, batch, stamp, answer) ∈ results →
       pending p !! k = Some batch ∧ stamp = stamp_for p k ∧
       match answer with
       | Ok _ => pending p' !! k = None ∧ next_sequence p' k = advanced p k batch
       | Err _ => pending p' !! k = Some batch ∧ next_sequence p' k = next_sequence p k
       end) ∧
    (∀ k, k ∉ outcome_key <$> results →
       pending p' !! k = pending p !! k ∧ next_sequence p' k = next_sequence p k) ∧
    match r with
    | Ok ds => (outcome_key <$> results) ≡ₚ (map_to_list (pending p)).*1 ∧
        Forall (λ o, is_ok o.2 = true) results ∧
        Sorted delivery_le ds ∧ ds ≡ₚ omap delivery_of results
    | Err e => pending p ≠ ∅ ∧
        ((∃ p1, claim_partitions (fst <$> drain (pending p)) (set_pending ∅ p) w = (Err e, p1, w')) ∧ results = [] ∨
         (outcome_key <$> results) ≡ₚ (map_to_list (pending p)).*1 ∧
         ∃ k batch stamp, (k, batch, stamp, Err e) ∈ results)
    end.
Proof.
  intros Hdrain Hcan. unfold flush. pose proof (Hdrain (pending p)) as HB.
  set (B := drain (pending p)) in *. destruct B as [|e0 B0] eqn:EB.
  { intros [= <- <- <-]. apply Permutation_nil, map_to_list_empty_iff in HB.
    exists [], w. rewrite HB, map_to_list_empty. split_and!; try done; [constructor|by intros ? ? ? ? ?%not_elem_of_nil]. }
  rewrite <- EB in *. assert (pending p ≠ ∅) as Hne.
  { intros Hd. rewrite Hd, map_to_list_empty in HB.
    apply Permutation_sym, Permutation_nil in HB. congruence. }
  destruct (claim_partitions (fst <$> B) (set_pending ∅ p) w) as [[[u|e] p1] w1] eqn:Hclaim;
    pose proof Hclaim as Hrefused; apply claim_partitions_keeps in Hclaim as [Hsame Htxn].
  2:{ intros [= <- <- <-]. exists [], w1. destruct (drained_back B p p1 HB Hsame) as [Hp Hs].
      rewrite Hp. split_and!; try done; [constructor|by intros ? ? ? ? ?%not_elem_of_nil|left; by eauto]. }
  assert (can_stamp p1) as Hcan1
    by (unfold can_stamp in *; by rewrite (same_config _ _ Hsame), (same_identity _ _ Hsame)).
  assert (NoDup B.*1) as Hnd by (rewrite HB; apply NoDup_fst_map_to_list).
  destruct (stamp_all_ok B [] p1 w1 Hcan1 Hnd) as (p2 & -> & Hc & Hp & _ & _ & Hadv & Hout). cbn [app].
  set (jobs := (λ e, (e.1, e.2, stamp_for p1 e.1)) <$> B).
  pose proof (deliver_all_jobs (config p2) jobs w1) as Hjobs.
  pose proof (deliver_all_sends (config p2) jobs w1) as Hsends.
  destruct (deliver_all _ _ _ _) as [results w2]. cbn [fst snd] in *.
  rewrite Hc, (same_config _ _ Hsame) in Hsends.
  pose proof (settle_failure results [] None p2) as Hworst.
  destruct (settle_results results [] None p2) as [[ds failure] p3] eqn:Hset. cbn [fst snd] in Hworst.
  destruct (settled_batches p p1 p2 results B ds failure p3 Hsame Htxn Hcan HB Hjobs Hc Hp Hadv Hout Hset)
    as (Hkeys & Hin & Hnot & -> & Hall).
  destruct failure as [[worst e]|]; intros [= <- <- <-]; exists results, w1; split_and!; auto.
  - right. split; [done|]. destruct (Hworst worst e eq_refl) as [|(batch & stamp & Hw)]; [done|by eexists _, _, _].
  - by apply Hall.
  - apply (Sorted_merge_sort _).
  - apply merge_sort_Permutation.
Qed.


(** ** Transactions *)

(** The calls a caller makes. *)
Inductive command : Type :=
| CInit
| CBegin
| CCommit
| CAbort
| CSendOffsets (group_id : string) (generation_id : Z) (member_id : string)
    (offsets : list TransactionalOffset)
| CEnqueue (topic : string) (partition : Z) (r : KRecord)
| CEnqueueKeyed (topic : string) (r : KRecord)
| CFlush
| CProduce (topic : string) (partition : Z) (rs : list KRecord).

(** What a call did, as far as a transaction is concerned: a keyed record
    whose topic has no known partitions was refused before it was taken. *)
Inductive verdict : Type := Succeeded | Failed | Refused.

Definition verdict_of {A} (r : result ClientError A) : verdict :=
  match r with Ok _ => Succeeded | Err _ => Failed end.

Definition call (c : command) (p : Producer) (w : W) : verdict * Producer * W :=
  match c with
  | CInit => let '(r, p, w) := init_transactions p w in (verdict_of r, p, w)
  | CBegin => let '(r, p, w) := begin_transaction p w in (verdict_of r, p, w)
  | CCommit => let '(r, p, w) := commit_transaction compress drain p w in (verdict_of r, p, w)
  | CAbort => let '(r, p, w) := abort_transaction p w in (verdict_of r, p, w)
  | CSendOffsets g n m offsets =>
      let '(r, p, w) := send_offsets_to_transaction g n m offsets p w in (verdict_of r, p, w)
  | CEnqueue t i x => let '(r, p, w) := enqueue compress t i x p w in (verdict_of r, p, w)
  | CEnqueueKeyed t x =>
      let '(r, p', w') := enqueue_keyed compress t x p w in
      match known_count t w with
      | (Err _, _) => (Refused, p', w')
      | (Ok _, _) => (verdict_of r, p', w')
      end
  | CFlush => let '(r, p, w) := flush compress drain p w in (verdict_of r, p, w)
  | CProduce t i rs => let '(r, p, w) := produce compress t i rs p w in (verdict_of r, p, w)
  end.

Fixpoint calls (cs : list command) (p : Producer) (w : W) : list (command * verdict) * Producer * W :=
  match cs with
  | [] => ([], p, w)
  | c :: cs =>
      let '(v, p, w) := call c p w in
      let '(log, p, w) := calls cs p w in
      ((c, v) :: log, p, w)
  end.

(** A call after which an open transaction is still whole: a write that did
    not fail, or a call the open transaction made no sense of. *)
Definition keeps_whole (e : command * verdict) : Prop :=
  match e.1 with
  | CInit | CBegin => e.2 = Failed
  | CCommit | CAbort => False
  | _ => e.2 ≠ Failed
  end.

(** What holds of every producer that has been used from the start. *)
Record producer_ok (p : Producer) : Prop := mkProducerOk {
  pk_id : txn_state p ≠ Disabled → is_Some (config_transactional_id (config p));
  pk_ready : match txn_state p with
             | Ready | Open | Abortable => is_Some (identity p) ∧ acks (config p) = ACKS_ALL
             | _ => True
             end;
}.

(** What an operation may do to the rest of the state. *)
Record carries_on (p p' : Producer) : Prop := mkCarriesOn {
  co_config : config p' = config p;
  co_identity : is_Some (identity p) → is_Some (identity p');
  co_state : txn_state p' = txn_state p ∨ ∃ e, txn_state p' = after_failure (txn_state p) e;
}.

Lemma after_failure_ok p p' :
  carries_on p p' → producer_ok p → producer_ok p'.
Proof.
  intros [Hc Hi Hs] [Hid Hready].
  assert (txn_state p' = txn_state p ∨
    txn_state p ≠ Disabled ∧ (txn_state p' = Fenced ∨ txn_state p = Open ∧ txn_state p' = Abortable))
    as Hcase.
  { destruct Hs as [?|[e ->]]; [by left|]. unfold after_failure.
    destruct (txn_state p); destruct (is_fencing e); try (by left); right; (split; [done|]);
      first [by left|by right]. }
  constructor; rewrite Hc.
  - intros Hd. apply Hid. destruct Hcase as [<-|[? _]]; done.
  - destruct Hcase as [->|[_ [->|[Ho ->]]]]; [|done|].
    + destruct (txn_state p); naive_solver.
    + rewrite Ho in Hready. naive_solver.
Qed.

(** An operation that fails in an open transaction closes it to commits. *)
Definition guarded {A} (o : op (W := W) A) : Prop := ∀ p w r p' w',
  producer_ok p → o p w = (r, p', w') →
  carries_on p p' ∧ (txn_state p = Open → ∀ e, r = Err e → txn_state p' ≠ Open).

Lemma open_fails s e : after_failure s e ≠ Open.
Proof. unfold after_failure. by destruct s, (is_fencing e). Qed.

Lemma carries_on_refl p : carries_on p p.
Proof. by constructor; [| |left]. Qed.

Lemma carries_on_trans p q r :
  carries_on p q → txn_state q = txn_state p → carries_on q r → carries_on p r.
Proof.
  intros [? ? _] Ht [? ? Hs]. constructor; [congruence|auto|]. by rewrite <- Ht.
Qed.

(** The same state as far as transactions are concerned. *)
Definition same_txn (p p' : Producer) : Prop :=
  config p' = config p ∧ identity p' = identity p ∧ txn_state p' = txn_state p.

Lemma same_txn_trans p q r : same_txn p q → same_txn q r → same_txn p r.
Proof. intros (? & ? & ?) (? & ? & ?). split_and!; congruence. Qed.

Lemma same_txn_carries p p' : same_txn p p' → carries_on p p'.
Proof. intros (? & Hi & ?). constructor; [done|by rewrite Hi|by left]. Qed.

Lemma poison_carries e p p' : same_txn p p' → carries_on p (poison e p').
Proof.
  intros (? & Hi & Ht). constructor; [done|by cbn; rewrite Hi|]. right. exists e. by rewrite <- Ht.
Qed.

Lemma poison_closes e p : txn_state (poison e p) ≠ Open.
Proof. apply open_fails. Qed.

Lemma poison_ok e p : producer_ok p → producer_ok (poison e p).
Proof. apply after_failure_ok. by apply (poison_carries e p p). Qed.

Lemma restore_all_txn l : ∀ p, same_txn p (restore_all l p).
Proof.
  induction l as [|[k b] l IH]; intros p; [done|]. cbn [restore_all].
  by eapply same_txn_trans; [|apply IH].
Qed.

Lemma rewind_txn k stamp p : same_txn p (rewind k stamp p).
Proof. by destruct stamp. Qed.

Lemma settle_txn results : ∀ ds failure p, same_txn p (settle_results results ds failure p).2.
Proof.
  induction results as [|[[[k b] s] [base|e]] results IH]; intros ds failure p; cbn [settle_results].
  - done.
  - apply IH.
  - set (f := match failure with Some _ => _ | None => _ end).
    eapply same_txn_trans; [apply (rewind_txn k s p)|].
    by eapply same_txn_trans; [|apply (IH ds f (restore k b (rewind k s p)))].
Qed.

Lemma open_txn p : producer_ok p → txn_state p = Open → ∃ t, txn p = Ok t.
Proof.
  intros [Hid Hready] Ho. rewrite Ho in *. destruct Hready as [[i Hi] _]; [done..|].
  destruct Hid as [id Hid]; [done|]. unfold txn, transactional_id. rewrite Hid, Hi. by eexists.
Qed.

Lemma claim_guarded keys : guarded (claim_partitions keys).
Proof.
  intros p w r p' w' Hok Hc. apply claim_partitions_keeps in Hc as [[Hcf _ Hi _] Hr]. split.
  - destruct r as [u|e].
    + apply same_txn_carries. by split_and!.
    + constructor; [done|by rewrite Hi|]. destruct Hr as [[? _]|[[? _]|?]]; [by left|by left|].
      right. by eexists.
  - intros Ho e ->. destruct Hr as [[_ ?]|[[_ [e' He]]|Ha]]; [done| |].
    + destruct (open_txn p Hok Ho) as [t Ht]. congruence.
    + rewrite Ha. apply open_fails.
Qed.

Lemma claim_ok_txn keys p w u p' w' :
  claim_partitions keys p w = (Ok u, p', w') → same_txn p p'.
Proof. intros [[? _ ? _] ?]%claim_partitions_keeps. by split_and!. Qed.

(** Stamping leaves the transaction alone, and cannot fail in one. *)
Lemma batch_stamp_txn k n p w r p' w' :
  producer_ok p → batch_stamp k n p w = (r, p', w') →
  carries_on p p' ∧ txn_state p' = txn_state p ∧ (txn_state p = Open → ∃ s, r = Ok s).
Proof.
  intros [Hid Hready]. unfold batch_stamp. destruct (idempotent (config p)); cbn [negb].
  2:{ intros [= <- <- <-]. split_and!; [apply carries_on_refl|done|eauto]. }
  unfold check_idempotent_acks. destruct (Z.eqb_spec (acks (config p)) ACKS_ALL) as [Ha|Ha].
  2:{ intros [= <- <- <-]. split_and!; [apply carries_on_refl|done|].
      intros Ho. rewrite Ho in Hready. naive_solver. }
  destruct (identity p) as [i|] eqn:Hi.
  { cbn. intros [= <- <- <-]. split_and!; [|done|eauto].
    constructor; [done|done|by left]. }
  assert (txn_state p ≠ Open) as Hno.
  { intros Ho. rewrite Ho in Hready. destruct Hready as [[? ?] _]. congruence. }
  destruct (require_producible (txn_state p)) as [u|e].
  - destruct (init_producer_id (config p) w) as [[i|e] w1]; cbn; intros [= <- <- <-];
      (split_and!; [|done|done]).
    + constructor; [done|by eexists|by left].
    + apply carries_on_refl.
  - intros [= <- <- <-]. split_and!; [apply carries_on_refl|done|done].
Qed.

Lemma stamp_all_txn batches : ∀ done p w r p' w',
  producer_ok p → stamp_all batches done p w = (r, p', w') →
  carries_on p p' ∧ txn_state p' = txn_state p ∧ (txn_state p = Open → ∃ s, r = Ok s).
Proof.
  induction batches as [|[k batch] batches IH]; intros done p w r p' w' Hok; cbn [stamp_all].
  { intros [= <- <- <-]. split_and!; [apply carries_on_refl|done|eauto]. }
  destruct (batch_stamp k (len (pending_records batch)) p w) as [[[s|e] p1] w1] eqn:Hs;
    apply (batch_stamp_txn _ _ _ _ _ _ _ Hok) in Hs as (Hco & Ht & Hopen).
  - intros Hr. apply IH in Hr as (Hco' & Ht' & Hopen'); [|by eapply after_failure_ok].
    split_and!; [by eapply carries_on_trans|congruence|]. intros Ho. apply Hopen'. congruence.
  - intros [= <- <- <-].
    destruct (restore_all_txn done.*1 (restore k batch p1)) as (Hc' & Hi' & Ht').
    split_and!; [|by rewrite Ht'|intros Ho; by destruct (Hopen Ho)].
    eapply carries_on_trans; [exact Hco|exact Ht|]. apply same_txn_carries. by split_and!.
Qed.

(** A write once it is stamped: its end, and its failure. *)
Lemma stamped_end p p1 p2 q :
  same_txn p p1 → carries_on p1 p2 → txn_state p2 = txn_state p1 → same_txn p2 q →
  carries_on p q ∧ txn_state q = txn_state p.
Proof.
  intros H1 H2 Ht H3. split.
  - eapply carries_on_trans; [by apply same_txn_carries|apply H1|].
    eapply carries_on_trans; [done|done|by apply same_txn_carries].
  - destruct H1 as (_ & _ & ?), H3 as (_ & _ & ?). congruence.
Qed.

Lemma stamped_fails e p q :
  carries_on p q → txn_state q = txn_state p →
  carries_on p (poison e q) ∧ (txn_state p = Open → txn_state (poison e q) ≠ Open).
Proof.
  intros Hco Ht. split; [|intros _; apply poison_closes].
  destruct Hco. constructor; [done|done|]. right. exists e. cbn. by rewrite Ht.
Qed.

Lemma produce_guarded t i rs : guarded (produce compress t i rs).
Proof.
  intros p w r p' w' Hok. unfold produce.
  destruct (claim_partitions [(t, i)] p w) as [[[u|e] p1] w1] eqn:Hc.
  2:{ intros [= <- <- <-]. destruct (claim_guarded _ _ _ _ _ _ Hok Hc) as [Hco Hcl].
      split; [done|]. intros Ho e' _. by eapply Hcl. }
  apply claim_ok_txn in Hc as Hs. pose proof (after_failure_ok _ _ (same_txn_carries _ _ Hs) Hok) as Hok1.
  destruct (batch_stamp (t, i) (len rs) p1 w1) as [[[s|e] p2] w2] eqn:Hb;
    apply (batch_stamp_txn _ _ _ _ _ _ _ Hok1) in Hb as (Hco & Ht & Hno);
    pose proof Hs as (_ & _ & Hts).
  - destruct (deliver compress _ _ _ _ _ _) as [[base|e] w3]; intros [= <- <- <-].
    + by destruct (stamped_end p p1 p2 p2 Hs Hco Ht) as [? _]; [done|].
    + destruct (stamped_end p p1 p2 _ Hs Hco Ht (rewind_txn (t, i) s p2)) as [H1 H2].
      destruct (stamped_fails e _ _ H1 H2). split; [done|]. intros. auto.
  - intros [= <- <- <-]. destruct (stamped_end p p1 p2 p2 Hs Hco Ht) as [? _]; [done|].
    split; [done|]. intros Ho. destruct Hno as [? [=]]. congruence.
Qed.

Lemma flush_partition_guarded t i : guarded (flush_partition compress t i).
Proof.
  intros p w r p' w' Hok. unfold flush_partition.
  set (batch := default no_batch (pending p !! (t, i))).
  set (p0 := set_pending (delete (t, i) (pending p)) p).
  assert (same_txn p p0) as H0 by done.
  pose proof (after_failure_ok _ _ (same_txn_carries _ _ H0) Hok) as Hok0.
  destruct (claim_partitions [(t, i)] p0 w) as [[[u|e] p1] w1] eqn:Hc.
  2:{ intros [= <- <- <-]. destruct (claim_guarded _ _ _ _ _ _ Hok0 Hc) as [[? ? ?] Hcl].
      split; [by constructor|]. intros Ho e' _. by eapply Hcl. }
  apply claim_ok_txn in Hc as Hs. pose proof (after_failure_ok _ _ (same_txn_carries _ _ Hs) Hok0) as Hok1.
  assert (same_txn p p1) as Hs1 by (by eapply same_txn_trans).
  destruct (batch_stamp (t, i) (len (pending_records batch)) p1 w1) as [[[s|e] p2] w2] eqn:Hb;
    apply (batch_stamp_txn _ _ _ _ _ _ _ Hok1) in Hb as (Hco & Ht & Hno);
    pose proof Hs1 as (_ & _ & Hts).
  - destruct (deliver compress _ _ _ _ _ _) as [[base|e] w3]; intros [= <- <- <-].
    + by destruct (stamped_end p p1 p2 p2 Hs1 Hco Ht) as [? _]; [done|].
    + destruct (stamped_end p p1 p2 (restore (t, i) batch (rewind (t, i) s p2)) Hs1 Hco Ht) as [H1 H2].
      { by eapply same_txn_trans; [apply rewind_txn|]. }
      destruct (stamped_fails e _ _ H1 H2). split; [done|]. intros. auto.
  - intros [= <- <- <-]. destruct (stamped_end p p1 p2 (restore (t, i) batch p2) Hs1 Hco Ht) as [? _];
      [done|]. split; [done|]. intros Ho. destruct Hno as [? [=]]. congruence.
Qed.

Lemma enqueue_guarded t i x : guarded (enqueue compress t i x).
Proof.
  intros p w r p' w' Hok. unfold enqueue. cbv zeta. set (slot := mkPending _ _).
  set (p0 := set_pending _ p). assert (same_txn p p0) as H0 by done.
  pose proof (after_failure_ok _ _ (same_txn_carries _ _ H0) Hok) as Hok0.
  destruct (batch_max_bytes (config p0) <=? estimated_bytes slot).
  2:{ intros [= <- <- <-]. split; [by apply same_txn_carries|done]. }
  destruct (flush_partition compress t i p0 w) as [[[d|e] p1] w1] eqn:Hf; intros [= <- <- <-];
    apply (flush_partition_guarded t i p0 w _ _ _ Hok0) in Hf as [Hco Hcl].
  - split; [|done]. eapply carries_on_trans; [by apply same_txn_carries|done|done].
  - split; [eapply carries_on_trans; [by apply same_txn_carries|done|done]|].
    intros Ho e' _. by eapply Hcl.
Qed.

Lemma enqueue_keyed_guarded t x w0 n w1 :
  known_count t w0 = (Ok n, w1) → ∀ p r p' w',
  producer_ok p → enqueue_keyed compress t x p w0 = (r, p', w') →
  carries_on p p' ∧ (txn_state p = Open → ∀ e, r = Err e → txn_state p' ≠ Open).
Proof.
  intros Hn p r p' w' Hok. unfold enqueue_keyed. rewrite Hn.
  destruct (partition_of p x n) as [i q] eqn:Hq.
  assert (same_txn p q) as Hs
    by (unfold partition_of in Hq; destruct (Records.key x); injection Hq as _ <-; done).
  intros He. pose proof (after_failure_ok _ _ (same_txn_carries _ _ Hs) Hok) as Hokq.
  apply (enqueue_guarded t i x q w1 _ _ _ Hokq) in He as [Hco Hcl].
  destruct Hs as (? & Hi & Hts). split; [|by rewrite <- Hts].
  eapply carries_on_trans; [by apply same_txn_carries|done|done].
Qed.

(** A flush that returns leaves no buffer and the state as it was. *)
Lemma flush_txn p w r p' w' :
  producer_ok p → flush compress drain p w = (r, p', w') →
  carries_on p p' ∧ (txn_state p = Open → ∀ e, r = Err e → txn_state p' ≠ Open) ∧
  (∀ ds, r = Ok ds → txn_state p' = txn_state p).
Proof.
  intros Hok. unfold flush. set (p0 := set_pending ∅ p). set (B := drain (pending p)).
  assert (same_txn p p0) as H0 by done.
  destruct B as [|e0 B0] eqn:EB; [intros [= <- <- <-]; split_and!; [by apply same_txn_carries|done|done]|].
  rewrite <- EB. pose proof (after_failure_ok _ _ (same_txn_carries _ _ H0) Hok) as Hok0.
  destruct (claim_partitions (fst <$> B) p0 w) as [[[u|e] p1] w1] eqn:Hc.
  2:{ intros [= <- <- <-]. destruct (claim_guarded _ _ _ _ _ _ Hok0 Hc) as [[? Hi ?] Hcl].
      destruct (restore_all_txn B p1) as (Hc' & Hi' & Ht'). split_and!; [| |done].
      - constructor; rewrite ?Hc', ?Hi', ?Ht'; done.
      - intros Ho e' _. rewrite Ht'. by eapply Hcl. }
  apply claim_ok_txn in Hc as Hs. pose proof (after_failure_ok _ _ (same_txn_carries _ _ Hs) Hok0) as Hok1.
  assert (same_txn p p1) as Hs1 by (by eapply same_txn_trans).
  destruct (stamp_all B [] p1 w1) as [[[stamped|e] p2] w2] eqn:Hb;
    apply (stamp_all_txn _ _ _ _ _ _ _ Hok1) in Hb as (Hco & Ht & Hno);
    pose proof Hs1 as (_ & _ & Hts).
  - destruct (deliver_all compress (config p2) stamped w2) as [results w3].
    pose proof (settle_txn results [] None p2) as Hset.
    destruct (settle_results results [] None p2) as [[ds [[k e]|]] p3]; cbn [snd] in Hset;
      destruct (stamped_end p p1 p2 p3 Hs1 Hco Ht Hset) as [H1 H2]; intros [= <- <- <-].
    + destruct (stamped_fails e p p3 H1 H2). split_and!; [done| |done]. intros. auto.
    + split_and!; [done|done|]. intros ? _. done.
  - intros [= <- <- <-]. destruct (stamped_end p p1 p2 p2 Hs1 Hco Ht) as [? _]; [done|].
    split_and!; [done| |done]. intros Ho. destruct Hno as [? [=]]. congruence.
Qed.

Lemma send_offsets_guarded g n m offsets : guarded (send_offsets_to_transaction g n m offsets).
Proof.
  intros p w r p' w' Hok. unfold send_offsets_to_transaction.
  destruct (require_open (txn_state p) "send offsets to") as [u|e] eqn:Hr.
  2:{ intros [= <- <- <-]. split; [apply carries_on_refl|]. intros Ho. by rewrite Ho in Hr. }
  destruct (txn p) as [t|e] eqn:Ht.
  2:{ intros [= <- <- <-]. split; [apply carries_on_refl|]. intros Ho.
      destruct (open_txn p Hok Ho). congruence. }
  destruct (io_bind _ _ _) as [[u'|e] w1]; intros [= <- <- <-].
  - split; [apply carries_on_refl|done].
  - destruct (stamped_fails e p p (carries_on_refl p) eq_refl). split; [done|]. intros. auto.
Qed.

(** *** A flush that succeeds empties the buffers *)

Lemma settle_clean results : ∀ ds f p ds' p',
  settle_results results ds f p = (ds', None, p') → f = None ∧ p' = p.
Proof.
  induction results as [|[[[k b] s] [base|e]] results IH]; intros ds f p ds' p'; cbn [settle_results].
  - by intros [= <- -> <-].
  - apply IH.
  - intros H'. apply IH in H' as [Hf _]. by destruct f as [[worst ?]|]; [destruct (key_lt k worst)|].
Qed.

Lemma batch_stamp_pending k n p w s p' w' :
  batch_stamp k n p w = (Ok s, p', w') → pending p' = pending p.
Proof.
  unfold batch_stamp. destruct (negb _); [by intros [= _ <- _]|].
  destruct (check_idempotent_acks _); [|done]. destruct (identity p); [by intros [= _ <- _]|].
  destruct (require_producible _); [|done].
  destruct (init_producer_id _ _) as [[i|e] w1]; [by intros [= _ <- _]|done].
Qed.

Lemma stamp_all_pending batches : ∀ done p w s p' w',
  stamp_all batches done p w = (Ok s, p', w') → pending p' = pending p.
Proof.
  induction batches as [|[k batch] batches IH]; intros done p w s p' w'; cbn [stamp_all];
    [by intros [= _ <- _]|].
  destruct (batch_stamp _ _ p w) as [[[st|e] p1] w1] eqn:Hb; [|done].
  intros Hs. apply IH in Hs. apply batch_stamp_pending in Hb. congruence.
Qed.

Lemma flush_ok_empties p w ds p' w' :
  flush compress drain p w = (Ok ds, p', w') → pending p' = ∅.
Proof.
  unfold flush. destruct (drain (pending p)) as [|e0 B]; [by intros [= _ <- _]|].
  destruct (claim_partitions _ _ w) as [[[u|e] p1] w1] eqn:Hc; [|done].
  apply claim_partitions_keeps in Hc as [[_ Hp _ _] _].
  destruct (stamp_all _ _ p1 w1) as [[[st|e] p2] w2] eqn:Hs; [|done].
  apply stamp_all_pending in Hs. destruct (deliver_all _ _ _ _) as [results w3].
  destruct (settle_results results [] None p2) as [[ds' [[k e]|]] p3] eqn:Hset; [done|].
  intros [= _ <- _]. apply settle_clean in Hset as [_ ->]. by rewrite Hs, Hp.
Qed.

(** *** The log of calls *)

Definition whole (log : list (command * verdict)) : Prop :=
  ∃ before since, log = before ++ (CBegin, Succeeded) :: since ∧ Forall keeps_whole since.

Definition tracked (log : list (command * verdict)) (p : Producer) : Prop :=
  producer_ok p ∧ (txn_state p = Open → whole log).

Lemma whole_snoc log e : whole log → keeps_whole e → whole (log ++ [e]).
Proof.
  intros (before & since & -> & Hs) He. exists before, (since ++ [e]).
  rewrite <- app_assoc. split; [done|]. apply Forall_app. by split; [|apply Forall_singleton].
Qed.

Lemma carries_on_open p p' : carries_on p p' → txn_state p' = Open → txn_state p = Open.
Proof.
  intros [_ _ [->|[e ->]]]; [done|]. unfold after_failure.
  by destruct (txn_state p), (is_fencing e).
Qed.

(** A call that carries on keeps the log whole if its failures close. *)
Lemma tracked_write log p p' e :
  tracked log p → carries_on p p' →
  (txn_state p = Open → txn_state p' = Open → keeps_whole e) → tracked (log ++ [e]) p'.
Proof.
  intros [Hok Hw] Hco Hk. split; [by eapply after_failure_ok|]. intros Ho'.
  pose proof (carries_on_open _ _ Hco Ho') as Ho. apply whole_snoc; auto.
Qed.

Lemma tracked_guarded {A} log p p' e (r : result ClientError A) :
  tracked log p →
  carries_on p p' ∧ (txn_state p = Open → ∀ x, r = Err x → txn_state p' ≠ Open) →
  (verdict_of r ≠ Failed → keeps_whole e) → tracked (log ++ [e]) p'.
Proof.
  intros Ht [Hco Hcl] Hk. eapply tracked_write; [done..|]. intros Ho Ho'. apply Hk.
  destruct r as [a|x]; [done|]. by destruct (Hcl Ho x).
Qed.

Lemma tracked_closed log p : producer_ok p → txn_state p ≠ Open → tracked log p.
Proof. by split. Qed.

Lemma end_transaction_spec committed p w r p' w' :
  producer_ok p → txn_state p = Open ∨ txn_state p = Abortable →
  end_transaction committed p w = (r, p', w') →
  producer_ok p' ∧ txn_state p' ≠ Open ∧ pending p' = pending p ∧
  ∀ u, r = Ok u → txn_state p' = Ready.
Proof.
  intros Hok Hs. pose proof Hok as [Hid Hready]. unfold end_transaction.
  destruct (txn p) as [t|e] eqn:Ht.
  - destruct (end_txn t committed w) as [[u|e] w1]; intros [= <- <- <-].
    + split_and!; [|done|done|done]. constructor; cbn.
      * intros _. apply Hid. by destruct Hs as [->| ->].
      * by destruct Hs as [Hs|Hs]; rewrite Hs in Hready.
    + split_and!; [by apply poison_ok|apply poison_closes|done|done].
  - exfalso. revert Ht. unfold txn, transactional_id.
    destruct Hid as [id ->]; [by destruct Hs as [->| ->]|].
    destruct Hs as [Hs|Hs]; rewrite Hs in Hready; destruct Hready as [[i ->] _]; done.
Qed.

Lemma commit_spec p w r p' w' :
  producer_ok p → commit_transaction compress drain p w = (r, p', w') →
  producer_ok p' ∧ txn_state p' ≠ Open ∧
  ∀ u, r = Ok u → txn_state p = Open ∧ txn_state p' = Ready ∧ pending p' = ∅.
Proof.
  intros Hok. unfold commit_transaction.
  destruct (require_open (txn_state p) "commit") as [u|e] eqn:Hr.
  2:{ intros [= <- <- <-]. split_and!; [done| |done]. intros Ho. by rewrite Ho in Hr. }
  assert (txn_state p = Open) as Ho by (by destruct (txn_state p)).
  destruct (flush compress drain p w) as [[[ds|e] p1] w1] eqn:Hf;
    pose proof (flush_txn _ _ _ _ _ Hok Hf) as (Hco & Hcl & Hst).
  - apply flush_ok_empties in Hf as Hp. specialize (Hst ds eq_refl). intros He.
    destruct (end_transaction_spec true p1 w1 r p' w') as (? & ? & Hp' & Hready);
      [by eapply after_failure_ok|left; congruence|done|].
    split_and!; [done|done|]. intros u' ->. split_and!; [done|by eapply Hready|congruence].
  - intros [= <- <- <-]. assert (producer_ok p1) as Hok1 by (by eapply after_failure_ok).
    split_and!; [by apply poison_ok|apply poison_closes|done].
Qed.

Lemma tracked_call log c p w v p' w' :
  tracked log p → call c p w = (v, p', w') → tracked (log ++ [(c, v)]) p'.
Proof.
  intros Ht. pose proof Ht as [Hok Hw]. destruct c as [| | | |g n m offsets|t i x|t x| |t i rs];
    cbn [call].
  - destruct (init_transactions p w) as [[r p1] w1] eqn:He. intros [= <- <- <-].
    unfold init_transactions in He.
    assert (∀ e, r = Err e → p1 = p → tracked (log ++ [(CInit, verdict_of r)]) p1) as Hstay.
    { intros e -> ->. eapply tracked_write; [done|apply carries_on_refl|done]. }
    destruct (transactional_id p) as [id|e] eqn:Hid; [|injection He as <- <- <-; by eapply Hstay].
    destruct (txn_state p) eqn:Hs; try (injection He as <- <- <-; by eapply Hstay).
    unfold check_idempotent_acks in He. destruct (Z.eqb_spec (acks (config p)) ACKS_ALL) as [Ha|];
      [|injection He as <- <- <-; by eapply Hstay].
    destruct (init_producer_id (config p) w) as [[j|e] w2]; injection He as <- <- <-;
      [|by eapply Hstay].
    apply tracked_closed; [|done]. constructor; cbn; [|by split].
    intros _. unfold transactional_id in Hid. by destruct (config_transactional_id (config p)).
  - unfold begin_transaction. destruct (after_begin (txn_state p)) as [s|e] eqn:Hb;
      intros [= <- <- <-].
    + assert (txn_state p = Ready ∧ s = Open) as [Hr ->]
        by (destruct (txn_state p); try discriminate Hb; by injection Hb as <-).
      destruct Hok as [Hid Hready]. rewrite Hr in *. split; [constructor; cbn; auto|].
      intros _. exists log, []. by split.
    + eapply tracked_write; [done|apply carries_on_refl|done].
  - destruct (commit_transaction compress drain p w) as [[r p1] w1] eqn:He. intros [= <- <- <-].
    apply commit_spec in He as (? & ? & _); [|done]. by apply tracked_closed.
  - unfold abort_transaction. destruct (txn_state p) eqn:Hs;
      try (intros [= <- <- <-]; apply tracked_closed; congruence).
    all: destruct (end_transaction false (set_pending ∅ p) w) as [[r p1] w1] eqn:He;
      intros [= <- <- <-];
      apply end_transaction_spec in He as (? & ? & _); [by apply tracked_closed| |by auto];
      apply (after_failure_ok p); [by apply same_txn_carries|done].
  - destruct (send_offsets_to_transaction g n m offsets p w) as [[r p1] w1] eqn:He.
    intros [= <- <- <-]. by eapply tracked_guarded; [|apply (send_offsets_guarded _ _ _ _ _ _ _ _ _ Hok He)|].
  - destruct (enqueue compress t i x p w) as [[r p1] w1] eqn:He.
    intros [= <- <- <-]. by eapply tracked_guarded; [|apply (enqueue_guarded _ _ _ _ _ _ _ _ Hok He)|].
  - destruct (enqueue_keyed compress t x p w) as [[r p1] w1] eqn:He.
    destruct (known_count t w) as [[n|e] w2] eqn:Hn; intros [= <- <- <-].
    + by eapply tracked_guarded; [|apply (enqueue_keyed_guarded _ _ _ _ _ Hn _ _ _ _ Hok He)|].
    + unfold enqueue_keyed in He. rewrite Hn in He. injection He as <- <- <-.
      eapply tracked_write; [done|apply carries_on_refl|done].
  - destruct (flush compress drain p w) as [[r p1] w1] eqn:He.
    intros [= <- <- <-]. destruct (flush_txn _ _ _ _ _ Hok He) as (? & ? & _).
    by eapply tracked_guarded.
  - destruct (produce compress t i rs p w) as [[r p1] w1] eqn:He.
    intros [= <- <- <-]. by eapply tracked_guarded; [|apply (produce_guarded _ _ _ _ _ _ _ _ Hok He)|].
Qed.

Lemma tracked_calls cs : ∀ log p w log' p' w',
  tracked log p → calls cs p w = (log', p', w') → tracked (log ++ log') p'.
Proof.
  induction cs as [|c cs IH]; intros log p w log' p' w' Ht; cbn [calls].
  { intros [= <- <- <-]. by rewrite app_nil_r. }
  destruct (call c p w) as [[v p1] w1] eqn:Hc. apply (tracked_call log) in Hc; [|done].
  destruct (calls cs p1 w1) as [[rest p2] w2] eqn:Hcs. intros [= <- <- <-].
  replace (log ++ (c, v) :: rest) with ((log ++ [(c, v)]) ++ rest) by (by rewrite <- app_assoc).
  by eapply IH.
Qed.

(** C6: a commit that succeeds commits a whole transaction. Whatever calls a
    producer served since it was built, the commit's transaction was begun,
    no commit or abort was tried since, and every write since then — buffered,
    flushed, produced or offsets sent — did not fail: after any failed one the
    commit is refused. Nothing is left buffered behind it. *)
Theorem committed_transactions_are_whole (c : ProducerConfig) (cs : list command) (w0 w w' : W)
    (log : list (command * verdict)) (p p' : Producer) :
  calls cs (with_config c) w0 = (log, p, w) →
  commit_transaction compress drain p w = (Ok tt, p', w') →
  (∃ before since, log = before ++ (CBegin, Succeeded) :: since ∧ Forall keeps_whole since) ∧
  txn_state p' = Ready ∧ pending p' = ∅.
Proof.
  intros Hcs Hc.
  assert (tracked [] (with_config c)) as H0.
  { apply tracked_closed; unfold with_config; destruct (config_transactional_id c) eqn:Hid;
      [constructor; cbn; rewrite ?Hid; (done || by eexists)|by constructor|done|done]. }
  destruct (tracked_calls cs [] _ _ _ _ _ H0 Hcs) as [Hok Hw].
  apply commit_spec in Hc as (_ & _ & Hc); [|done].
  destruct (Hc tt eq_refl) as (Ho & ? & ?). split_and!; [|done|done]. by apply Hw.
Qed.

(** The number a batch failed under is the number of what comes next,
    across the end of its transaction too: after a produce that failed, an
    abort and a new begin, the partition's next batch, whatever its records,
    carries the very stamp — id, epoch, sequence — of the one that failed and
    may have been appended. *)
Theorem failed_stamp_is_reused (p p1 p2 p3 : Producer) (t : string) (i : Z) (rs : list KRecord)
    (e : ClientError) (w w1 w2 w3 : W) :
  can_stamp p → txn_state p = Open →
  produce compress t i rs p w = (Err e, p1, w1) →
  abort_transaction p1 w1 = (Ok tt, p2, w2) →
  begin_transaction p2 w2 = (Ok tt, p3, w3) →
  stamp_for p3 (t, i) = stamp_for p (t, i).
Proof.
  intros Hcan Ho Hp Ha Hb.
  assert (config p1 = config p ∧ identity p1 = identity p ∧
    next_sequence p1 (t, i) = next_sequence p (t, i)) as (Hc1 & Hi1 & Hs1).
  { unfold produce in Hp.
    destruct (claim_partitions [(t, i)] p w) as [[[u|e'] q] wq] eqn:Hcl;
      apply claim_partitions_keeps in Hcl as [[Hc _ Hi Hs] _];
      [|injection Hp as _ <- _; unfold next_sequence; by rewrite Hs].
    assert (can_stamp q) as Hq by (unfold can_stamp in *; by rewrite Hc, Hi).
    destruct (batch_stamp_ok (t, i) (len rs) q wq Hq) as (q2 & Hst & Hc2 & _ & Hi2 & _ & Hs2).
    rewrite Hst in Hp. destruct (deliver compress _ _ _ _ _ _) as [[base|e'] w4]; [done|].
    injection Hp as _ <- _. unfold stamp_for, next_sequence. rewrite Hi, Hc in *.
    destruct (idempotent (config p)) eqn:Hid.
    - destruct Hcan as [?|[_ [j Hj]]]; [congruence|]. rewrite Hj in *.
      cbn. rewrite lookup_insert_eq, Hc2, Hi2. unfold next_sequence. by rewrite Hs.
    - cbn. by rewrite Hc2, Hi2, Hs2, Hs. }
  assert (config p2 = config p1 ∧ identity p2 = identity p1 ∧ sequences p2 = sequences p1)
    as (Hc2 & Hi2 & Hs2).
  { unfold abort_transaction, end_transaction in Ha.
    destruct (txn_state p1); try discriminate Ha;
      (destruct (txn _) as [tx|]; [|discriminate Ha]);
      (destruct (end_txn tx false w1) as [[u|e'] w4]; [|discriminate Ha]);
      by injection Ha as <- _. }
  unfold begin_transaction in Hb. destruct (after_begin (txn_state p2)) as [s|] eqn:Hs; [|done].
  injection Hb as <- _. assert (s = Open) as -> by (by destruct (txn_state p2); inversion Hs).
  unfold stamp_for, next_sequence in *. cbn. rewrite Hs2, Hi2, Hc2, Hc1, Hi1, Ho, Hs1. done.
Qed.

End producer.

(** *** Witnesses *)

#[local] Existing Instance plain_runtime.

(** A broker that answers every transactional request, and produces to
    partitions 0 and 1 of "t"; the world counts the requests. *)
Definition toy_send (api version : Z) (body : list byte) (w : Z) :
    result ClientError (list byte) * Z :=
  let reply e := (map_err Encode (enc_bytes e), w + 1) in
  if api =? 22 then
    reply (MsgTxn.init_producer_id_response.InitProducerIdResponse.encode version
      (MsgTxn.init_producer_id_response.InitProducerIdResponse.mk 0 0 7 3 (-1) (-1) []))
  else if api =? 24 then
    reply (MsgTxn.add_partitions_to_txn_response.AddPartitionsToTxnResponse.encode version
      MsgTxn.add_partitions_to_txn_response.AddPartitionsToTxnResponse.default)
  else if api =? 26 then
    reply (MsgTxn.end_txn_response.EndTxnResponse.encode version
      MsgTxn.end_txn_response.EndTxnResponse.default)
  else
    let entry i := MsgProduce.produce_response.PartitionProduceResponse.mk i 0 w (-1) (-1) [] None None [] in
    reply (MsgProduce.produce_response.ProduceResponse.encode version
      (MsgProduce.produce_response.ProduceResponse.mk
        [MsgProduce.produce_response.TopicProduceResponse.mk "t" (replicate 16 Byte.x00)
           [entry 0; entry 1] []] 0 None [])).

Definition toy_cluster (ranges : Negotiate.ApiVersionRanges) : Cluster Z := {|
  cluster_brokers := {|
    handle := unit;
    handle_ranges _ := ranges;
    send _ := toy_send;
    note_throttled _ _ := id;
  |};
  partition_leader _ _ := io_ret tt;
  transaction_coordinator _ := io_ret tt;
  group_coordinator _ := io_ret tt;
  control_broker := io_ret tt;
  blocking_partition_leader _ _ := io_ret tt;
  blocking_coordinator _ := io_ret tt;
  release _ := id;
  discard _ := id;
  leader_id _ _ _ := None;
  forget_broker _ := id;
  mark_partition_stale _ _ := id;
  forget_coordinator _ := id;
  forget_transaction_coordinator _ := id;
  partition_count _ _ := Some 2;
  topic_name_by_id _ _ := None;
  refresh_metadata _ := io_ret tt;
  now_ms _ := 1000;
  entropy _ := (1, 1);
|}.

Definition toy_ranges : Negotiate.ApiVersionRanges :=
  {[ 0 := (3, 9); 22 := (0, 4); 24 := (0, 3); 26 := (0, 3) ]}.
Definition toy : Cluster Z := toy_cluster toy_ranges.

Definition toy_compress (c : Compression) (data : list byte) : result ClientError (list byte) := Ok data.

Definition two_buffers : gmap key PendingBatch :=
  {[ ("t", 0) := mkPending [sample_record] 30; ("t", 5) := mkPending [sample_record; sample_record] 60 ]}.

Definition buffering (i : option ProducerIdentity) : Producer :=
  set_pending two_buffers (mkProducer default_config ∅ 0 i ∅ Disabled ∅).

Lemma flush_loses_nothing_witness :
  ∃ e p' w' results w0,
    flush (H := toy) toy_compress map_to_list (buffering (Some (mkIdentity 7 3))) 0 = (Err e, p', w') ∧
    sends (H := toy) toy_compress default_config w0 results w' ∧
    (results = [] ∨ ∃ k batch stamp, (k, batch, stamp, Err e) ∈ results ∧ two_buffers !! k = Some batch ∧
       pending p' !! k = Some batch).
Proof.
  destruct (flush (H := toy) toy_compress map_to_list (buffering (Some (mkIdentity 7 3))) 0)
    as [[r p'] w'] eqn:E.
  destruct (flush_loses_nothing (H := toy) toy_compress map_to_list
    (buffering (Some (mkIdentity 7 3))) p' 0 w' r) as (results & w0 & Hs & Hin & _ & Hr).
  - reflexivity.
  - right. split; [reflexivity|]. by eexists.
  - exact E.
  - destruct r as [ds|e]; [vm_compute in E; discriminate|].
    exists e, p', w', results, w0. split; [reflexivity|]. split; [exact Hs|].
    destruct Hr as [_ [[_ ->]|(_ & k & batch & stamp & Hk)]]; [by left|].
    right. exists k, batch, stamp. destruct (Hin _ _ _ _ Hk) as (Hp & _ & Hk' & _). by split_and!.
Defined.

Lemma committed_transactions_are_whole_witness :
  ∃ log p w p' w', calls (H := toy) toy_compress map_to_list
      [CInit; CBegin; CProduce "t" 7 [sample_record]; CCommit; CAbort; CBegin;
       CEnqueue "t" 1 sample_record; CFlush]
      (with_config (transactional_config "id")) 0 = (log, p, w) ∧
    commit_transaction (H := toy) toy_compress map_to_list p w = (Ok tt, p', w') ∧
    snd <$> log = [Succeeded; Succeeded; Failed; Failed; Succeeded; Succeeded; Succeeded; Succeeded] ∧
    txn_state p' = Ready.
Proof.
  destruct (calls (H := toy) toy_compress map_to_list _ (with_config (transactional_config "id")) 0)
    as [[log p] w] eqn:E.
  destruct (commit_transaction (H := toy) toy_compress map_to_list p w) as [[r p'] w'] eqn:Ec.
  destruct r as [[]|e]; [|vm_compute in E; injection E as <- <- <-; vm_compute in Ec; discriminate].
  exists log, p, w, p', w'. split_and!; [reflexivity|exact Ec| |].
  - vm_compute in E. injection E as <- <- <-. reflexivity.
  - eapply (committed_transactions_are_whole (H := toy)); [exact E|exact Ec].
Defined.

Definition open_producer : Producer :=
  mkProducer (transactional_config "id") ∅ 0 (Some (mkIdentity 7 3)) {[ ("t", 7) := 4 ]} Open ∅.

Lemma failed_stamp_is_reused_witness :
  ∃ e p1 w1 p2 w2 p3 w3,
    produce (H := toy) toy_compress "t" 7 [sample_record] open_producer 0 = (Err e, p1, w1) ∧
    abort_transaction (H := toy) p1 w1 = (Ok tt, p2, w2) ∧
    begin_transaction p2 w2 = (Ok tt, p3, w3) ∧
    stamp_for p3 ("t", 7) = Some (mkStamp 7 3 4 true).
Proof.
  destruct (produce (H := toy) toy_compress "t" 7 [sample_record] open_producer 0)
    as [[[base|e] p1] w1] eqn:E1; [vm_compute in E1; discriminate|].
  destruct (abort_transaction (H := toy) p1 w1) as [[[[]|e2] p2] w2] eqn:E2;
    [|vm_compute in E1; injection E1 as <- <- <-; vm_compute in E2; discriminate].
  destruct (begin_transaction p2 w2) as [[[[]|e3] p3] w3] eqn:E3;
    [|vm_compute in E1; injection E1 as <- <- <-; vm_compute in E2; injection E2 as <- <-;
      vm_compute in E3; discriminate].
  exists e, p1, w1, p2, w2, p3, w3. split_and!; [reflexivity|exact E2|exact E3|].
  rewrite (failed_stamp_is_reused (H := toy) toy_compress open_producer p1 p2 p3 "t" 7
    [sample_record] e 0 w1 w2 w3); [reflexivity| |reflexivity|exact E1|exact E2|exact E3].
  right. split; [reflexivity|by eexists].
Defined.

(** Without [can_stamp] a flush does lose buffers: when the identity
    cannot be had, the batch at hand goes back and the batches behind it are
    dropped with the loop. Two partitions buffered, one left. *)
Theorem flush_drops_unstamped_buffers :
  let '(r, p', _) := flush (H := toy_cluster ∅) toy_compress map_to_list (buffering None) 0 in
  (∃ e, r = Err e) ∧ dom (pending (buffering None)) = {[ ("t", 0); ("t", 5) ]} ∧
  dom (pending p') = {[ ("t", 0) ]}.
Proof.
  split; [|split].
  - eexists. vm_compute. reflexivity.
  - apply (bool_decide_unpack _). vm_compute. done.
  - apply (bool_decide_unpack _). vm_compute. done.
Qed.
