(* ===== verification/Admin.v ===== *)
(** * Administrative calls ([odradek-client/src/admin.rs])

    Listing groups asks every broker, describing one its coordinator, deleting
    topics the controller, and reading a configuration whoever holds it; each
    over the routing of [ClusterImpl.v]. *)
From S2P Require Import Prelude Text Budget Codec MessageTrait MsgMetadata MsgGroup MsgGroupAdmin MsgAdmin Registry ClientError Negotiate Exchange Sasl Scram Session ClusterImpl ClusterSafety.
Import metadata_request metadata_response.
Import list_groups_request list_groups_response describe_groups_request describe_groups_response.
Import delete_topics_request delete_topics_response describe_configs_request describe_configs_response.

Definition LIST_GROUPS_SUPPORTED : Z * Z := (0, ListGroupsRequest.MAX_VERSION).
Definition DESCRIBE_GROUPS_SUPPORTED : Z * Z := (0, DescribeGroupsRequest.MAX_VERSION).
Definition DELETE_TOPICS_SUPPORTED : Z * Z := (DeleteTopicsRequest.MIN_VERSION, DeleteTopicsRequest.MAX_VERSION).
Definition DESCRIBE_CONFIGS_SUPPORTED : Z * Z :=
  (DescribeConfigsRequest.MIN_VERSION, DescribeConfigsRequest.MAX_VERSION).

Definition RESOURCE_TOPIC : Z := 2.
Definition RESOURCE_BROKER : Z := 4.

Record GroupListing : Type := mkGroupListing {
  gl_group_id : string;
  gl_protocol_type : string;
  gl_state : string;
  gl_coordinator_id : Z;
}.

Record GroupMemberDescription : Type := mkGroupMemberDescription {
  gm_member_id : string;
  gm_client_id : string;
  gm_client_host : string;
  gm_assignment : list byte;
}.

Record GroupDescription : Type := mkGroupDescription {
  gd_group_id : string;
  gd_state : string;
  gd_protocol_type : string;
  gd_protocol : string;
  gd_members : list GroupMemberDescription;
}.

Record ConfigEntry : Type := mkConfigEntry {
  ce_name : string;
  ce_value : option string;
  ce_source : Z;
  ce_read_only : bool;
  ce_is_sensitive : bool;
}.

(** [sort_by(|a, b| key(a).cmp(&key(b)))]: a stable sort, by insertion. *)
Section sort.
Context {A : Type} (key : A → string).

Definition on_key (x y : A) : Prop := String.le (key x) (key y).

Fixpoint insert_on (x : A) (l : list A) : list A :=
  match l with
  | [] => [x]
  | y :: l' => if decide (String.le (key x) (key y)) then x :: l else y :: insert_on x l'
  end.
Definition sort_on (l : list A) : list A := foldr insert_on [] l.

Lemma insert_on_perm x l : insert_on x l ≡ₚ x :: l.
Proof.
  induction l as [|y l IH]; [done|]. cbn [insert_on]. destruct (decide _); [done|].
  rewrite IH. apply Permutation_swap.
Qed.
Lemma sort_on_perm l : sort_on l ≡ₚ l.
Proof. induction l as [|x l IH]; [done|]. cbn. by rewrite insert_on_perm, IH. Qed.

Lemma insert_on_sorted x l : Sorted on_key l → Sorted on_key (insert_on x l).
Proof.
  induction 1 as [|y l Hs IH Hy]; [by repeat constructor|]. cbn [insert_on].
  destruct (decide (String.le (key x) (key y))) as [Hle|Hgt]; [by repeat constructor|].
  assert (on_key y x) as Hyx by (by destruct (total String.le (key x) (key y))).
  constructor; [done|]. destruct l as [|z l]; [by constructor|]. cbn [insert_on].
  inversion Hy; subst. destruct (decide _); by constructor.
Qed.
Lemma sort_on_sorted l : Sorted on_key (sort_on l).
Proof. induction l as [|x l IH]; [constructor|]. by apply insert_on_sorted. Qed.

End sort.

(** ** Requests and what the answers say *)

Definition listing (node : Z) (g : ListedGroup.t) : GroupListing :=
  mkGroupListing (ListedGroup.group_id g) (ListedGroup.protocol_type g) (ListedGroup.group_state g) node.

Definition describe_groups_request_for (ids : list string) : DescribeGroupsRequest.t :=
  DescribeGroupsRequest.mk ids
    (DescribeGroupsRequest.include_authorized_operations DescribeGroupsRequest.default)
    (DescribeGroupsRequest.unknown_tagged_fields DescribeGroupsRequest.default).

Definition member_description (m : DescribedGroupMember.t) : GroupMemberDescription :=
  mkGroupMemberDescription (DescribedGroupMember.member_id m) (DescribedGroupMember.client_id m)
    (DescribedGroupMember.client_host m) (DescribedGroupMember.member_assignment m).

Definition description (g : DescribedGroup.t) : GroupDescription :=
  mkGroupDescription (DescribedGroup.group_id g) (DescribedGroup.group_state g)
    (DescribedGroup.protocol_type g) (DescribedGroup.protocol_data g)
    (member_description <$> DescribedGroup.members g).

Fixpoint read_described (groups : list DescribedGroup.t) : result ClientError (list GroupDescription) :=
  match groups with
  | [] => Ok []
  | g :: groups =>
      let? _ := broker_code (DescribedGroup.error_code g) in
      let? rest := read_described groups in
      Ok (description g :: rest)
  end.

Definition delete_topics_request_for (version : Z) (topics : list string) : DeleteTopicsRequest.t :=
  let state name :=
    DeleteTopicState.mk (Some name) (DeleteTopicState.topic_id DeleteTopicState.default)
      (DeleteTopicState.unknown_tagged_fields DeleteTopicState.default) in
  if version >=? 6 then
    DeleteTopicsRequest.mk (state <$> topics) (DeleteTopicsRequest.topic_names DeleteTopicsRequest.default)
      30000 (DeleteTopicsRequest.unknown_tagged_fields DeleteTopicsRequest.default)
  else
    DeleteTopicsRequest.mk (DeleteTopicsRequest.topics DeleteTopicsRequest.default) topics
      30000 (DeleteTopicsRequest.unknown_tagged_fields DeleteTopicsRequest.default).

(** The loop over the responses: the first code that is an error. *)
Fixpoint read_deleted (results : list DeletableTopicResult.t) : result ClientError unit :=
  match results with
  | [] => Ok tt
  | r :: results => let? _ := broker_code (DeletableTopicResult.error_code r) in read_deleted results
  end.

Definition describe_configs_request_for (resource_type : Z) (resource_name : string) : DescribeConfigsRequest.t :=
  DescribeConfigsRequest.mk
    [DescribeConfigsResource.mk resource_type resource_name None
       (DescribeConfigsResource.unknown_tagged_fields DescribeConfigsResource.default)]
    (DescribeConfigsRequest.include_synonyms DescribeConfigsRequest.default)
    (DescribeConfigsRequest.include_documentation DescribeConfigsRequest.default)
    (DescribeConfigsRequest.unknown_tagged_fields DescribeConfigsRequest.default).

Definition config_entry (c : DescribeConfigsResourceResult.t) : ConfigEntry :=
  mkConfigEntry (DescribeConfigsResourceResult.name c) (DescribeConfigsResourceResult.value c)
    (DescribeConfigsResourceResult.config_source c) (DescribeConfigsResourceResult.read_only c)
    (DescribeConfigsResourceResult.is_sensitive c).

Definition read_configs (resp : DescribeConfigsResponse.t) : result ClientError (list ConfigEntry) :=
  let? first := ok_or (ProtocolViolation "DescribeConfigs answered no resource")
    (head (DescribeConfigsResponse.results resp)) in
  let? _ := broker_code (DescribeConfigsResult.error_code first) in
  Ok (sort_on ce_name (config_entry <$> DescribeConfigsResult.configs first)).

(** ** The calls *)
Section admin.
Context {R : Runtime} {connection N : Type} `{Network connection (State connection * N)}.
Context `{Stringprep, Base64, Crypto}.
Context (pkg_version : string) (lossy : list byte → string) (render : ClientError → string).
Context (iteration : gmap Z BrokerInfo → list BrokerInfo) (config : ClientConfig).

Abbreviation Broker := (Broker connection).
Abbreviation W := (State connection * N)%type.
Abbreviation broker := (broker pkg_version lossy config).
Abbreviation coordinator := (coordinator pkg_version lossy render iteration config).
Abbreviation controller := (controller pkg_version lossy render iteration config).
Abbreviation rediscover_controller := (rediscover_controller pkg_version lossy render iteration config).
Abbreviation control_broker := (control_broker pkg_version lossy render iteration config).
Abbreviation refresh_metadata := (refresh_metadata pkg_version lossy render iteration config).

(** The loop over the brokers. *)
Fixpoint list_each (infos : list BrokerInfo) : io W (list GroupListing) :=
  match infos with
  | [] => io_ret []
  | info :: infos =>
      let^ b := broker (node_id info) in
      let^ resp := exchange (Req := ListGroupsRequest.t) (Resp := ListGroupsResponse.t) b
        LIST_GROUPS_SUPPORTED ListGroupsRequest.default in
      let^ _ := io_of (broker_code (ListGroupsResponse.error_code resp)) in
      let^ rest := list_each infos in
      io_ret ((listing (node_id info) <$> ListGroupsResponse.groups resp) ++ rest)
  end.

Definition list_groups : io W (list GroupListing) :=
  let^ _ := refresh_metadata [] in
  let^ s := this in
  match iteration (brokers s) with
  | [] => io_fail (ProtocolViolation "metadata names no brokers, so no group listing can be complete")
  | infos =>
      let^ listings := list_each infos in
      io_ret (sort_on gl_group_id listings)
  end.

(** A batch: a coordinator's node id, a connection to it, and the groups to
    ask it for. *)
Abbreviation Batch := (Z * Broker * list string)%type.

Fixpoint add_group (node : Z) (b : Broker) (group : string) (batches : list Batch) : list Batch :=
  match batches with
  | [] => [(node, b, [group])]
  | (id, b', ids) :: batches =>
      if id =? node then (id, b', ids ++ [group]) :: batches
      else (id, b', ids) :: add_group node b group batches
  end.

Fixpoint batch_groups (groups : list string) (batches : list Batch) : io W (list Batch) :=
  match groups with
  | [] => io_ret batches
  | group :: groups =>
      let^ b := coordinator group in
      let^ s := this in
      let node := default i32_min (coordinator_id group s) in
      batch_groups groups (add_group node b group batches)
  end.

Fixpoint describe_each (batches : list Batch) : io W (list GroupDescription) :=
  match batches with
  | [] => io_ret []
  | (_, b, ids) :: batches =>
      let^ resp := exchange (Req := DescribeGroupsRequest.t) (Resp := DescribeGroupsResponse.t) b
        DESCRIBE_GROUPS_SUPPORTED (describe_groups_request_for ids) in
      let^ described := io_of (read_described (DescribeGroupsResponse.groups resp)) in
      let^ rest := describe_each batches in
      io_ret (described ++ rest)
  end.

Definition describe_groups (groups : list string) : io W (list GroupDescription) :=
  let^ by_coordinator := batch_groups groups [] in
  describe_each by_coordinator.

Definition delete_topics_via (topics : list string) (b : Broker) : io W unit :=
  let^ version := pick_version DeleteTopicsRequest.t b DELETE_TOPICS_SUPPORTED in
  let^ resp := ask (Req := DeleteTopicsRequest.t) (λ _ w, w) b version (delete_topics_request_for version topics) in
  let^ resp := decode_response (M := DeleteTopicsResponse.t) b version resp in
  let^ _ := io_of (read_deleted (DeleteTopicsResponse.responses resp)) in
  or_else (refresh_metadata topics) (io_ret tt).

Definition delete_topics (topics : list string) : io W unit :=
  let^ b := controller in
  recover is_control_redirect (delete_topics_via topics b)
    (let^ b := rediscover_controller in
     delete_topics_via topics b).

Definition describe_config (b : Broker) (resource_type : Z) (resource_name : string) : io W (list ConfigEntry) :=
  let^ resp := exchange (Req := DescribeConfigsRequest.t) (Resp := DescribeConfigsResponse.t) b
    DESCRIBE_CONFIGS_SUPPORTED (describe_configs_request_for resource_type resource_name) in
  io_of (read_configs resp).

Definition describe_topic_config (topic : string) : io W (list ConfigEntry) :=
  let^ b := control_broker in
  describe_config b RESOURCE_TOPIC topic.

Definition describe_broker_config (node : Z) : io W (list ConfigEntry) :=
  let^ b := broker node in
  describe_config b RESOURCE_BROKER (bytes_str (decimal.print node)).

(** ** Groups *)

(** [r] is the answer of the broker [node], over a connection to it. *)
Definition listed_by (info : BrokerInfo) (r : ListGroupsResponse.t) : Prop :=
  error_code.is_ok (ListGroupsResponse.error_code r) = true ∧
  ∃ b w1 w2 w3, broker (node_id info) w1 = (Ok b, w2) ∧
    exchange (Req := ListGroupsRequest.t) (Resp := ListGroupsResponse.t) b LIST_GROUPS_SUPPORTED
      ListGroupsRequest.default w2 = (Ok r, w3).

Definition listings_of (info : BrokerInfo) (r : ListGroupsResponse.t) : list GroupListing :=
  listing (node_id info) <$> ListGroupsResponse.groups r.

Lemma list_each_ok infos : ∀ w l w', list_each infos w = (Ok l, w') →
  ∃ answers, Forall2 listed_by infos answers ∧ l = concat (zip_with listings_of infos answers).
Proof.
  induction infos as [|info infos IH]; intros w l w' E; cbn [list_each] in E.
  { injection E as <- _. exists []. by split; [constructor|]. }
  apply io_bind_ok in E as (b & w1 & Hb & E). apply io_bind_ok in E as (r & w2 & Hr & E).
  apply io_bind_ok in E as (u & w3 & (Hc & ->)%io_of_ok & E). apply broker_accepts in Hc.
  apply io_bind_ok in E as (rest & w4 & Hrest & E). injection E as <- _.
  apply IH in Hrest as (answers & Hall & ->). exists (r :: answers). split; [|done].
  constructor; [|done]. split; [done|]. by exists b, w, w1, w2.
Qed.

(** A group listing is of the whole cluster.  When it succeeds, every broker of
    the metadata it refreshed has answered, over a connection to that broker and
    without an error, and the listing is all the groups of those answers, each
    with the node that answered, sorted by id; a cluster without brokers, or one
    broker that fails, is an error and never a shorter list. *)
Theorem group_listing_is_complete (w w' : W) (l : list GroupListing) :
  (∀ m, iteration m ≡ₚ (map_to_list m).*2) → list_groups w = (Ok l, w') →
  ∃ w1 infos answers, refresh_metadata [] w = (Ok tt, w1) ∧
    infos ≡ₚ (map_to_list (brokers w1.1)).*2 ∧ infos ≠ [] ∧ Forall2 listed_by infos answers ∧
    l ≡ₚ concat (zip_with listings_of infos answers) ∧ Sorted (on_key gl_group_id) l.
Proof.
  intros Hit E. unfold list_groups in E. apply io_bind_ok in E as ([] & w1 & Hr & E).
  apply io_bind_ok in E as (s & w2 & Hs & E). injection Hs as <- <-.
  pose proof (Hit (brokers w1.1)) as Hp. destruct (iteration (brokers w1.1)) as [|info infos] eqn:Hi; [done|].
  apply io_bind_ok in E as (listings & w3 & Hl & E). injection E as <- _.
  apply list_each_ok in Hl as (answers & Hall & ->).
  exists w1, (info :: infos), answers. split_and!; try done; [apply sort_on_perm|apply sort_on_sorted].
Qed.

(** *** Batches by coordinator *)

Definition batch_node (b : Batch) : Z := b.1.1.

(** A batch asks the coordinator it was resolved for: each of its groups was
    resolved to a node, the batch's, and to a connection, for one of them the
    batch's. *)
Definition resolved (group : string) (node : Z) (b : Broker) : Prop :=
  ∃ w1 w2, coordinator group w1 = (Ok b, w2) ∧ node = default i32_min (coordinator_id group w2.1).
Definition batch_ok (batch : Batch) : Prop :=
  Forall (λ g, ∃ b, resolved g (batch_node batch) b) batch.2 ∧
  ∃ g, g ∈ batch.2 ∧ resolved g (batch_node batch) batch.1.2.

Lemma add_group_spec node b group batches :
  resolved group node b → Forall batch_ok batches → NoDup (batch_node <$> batches) →
  let batches' := add_group node b group batches in
  Forall batch_ok batches' ∧ concat batches'.*2 ≡ₚ group :: concat batches.*2 ∧
  NoDup (batch_node <$> batches') ∧
  ∀ n, n ∈ batch_node <$> batches' ↔ n = node ∨ n ∈ batch_node <$> batches.
Proof.
  intros Hr. induction batches as [|[[id b'] ids] batches IH]; intros Hok Hnd.
  - cbn. split_and!; [|done|apply NoDup_singleton|intros n; rewrite list_elem_of_singleton, elem_of_nil; tauto].
    apply Forall_singleton. split; [apply Forall_singleton; by exists b|]. exists group. by split; [left|].
  - apply Forall_cons in Hok as [[Hids (g & Hg & Hgr)] Hok]. cbn in Hnd. apply NoDup_cons in Hnd as [Hni Hnd].
    cbn [add_group]. destruct (Z.eqb_spec id node) as [->|Hne]; cbn zeta.
    + split_and!; cbn; [|by rewrite <- app_assoc, Permutation_middle|by constructor|intros n; rewrite elem_of_cons; tauto].
      constructor; [|done]. split; cbn in *.
      * apply Forall_app. split; [done|]. apply Forall_singleton. by exists b.
      * exists g. by split; [apply elem_of_app; left|].
    + destruct (IH Hok Hnd) as (Hok' & Hp & Hnd' & Hin). split_and!; cbn.
      * constructor; [|done]. split; [done|]. by exists g.
      * rewrite Hp. by rewrite Permutation_middle.
      * constructor; [|done]. rewrite Hin. cbn. intros [?|?]; done.
      * intros n. rewrite !elem_of_cons, Hin. tauto.
Qed.

Lemma batch_groups_spec groups : ∀ batches w out w',
  batch_groups groups batches w = (Ok out, w') →
  Forall batch_ok batches → NoDup (batch_node <$> batches) →
  Forall batch_ok out ∧ concat out.*2 ≡ₚ groups ++ concat batches.*2 ∧ NoDup (batch_node <$> out).
Proof.
  induction groups as [|g groups IH]; intros batches w out w' E Hok Hnd; cbn [batch_groups] in E.
  { by injection E as <- _. }
  apply io_bind_ok in E as (b & w1 & Hb & E). apply io_bind_ok in E as (s & w2 & Hs & E). injection Hs as <- <-.
  destruct (add_group_spec (default i32_min (coordinator_id g w1.1)) b g batches) as (Hok' & Hp & Hnd' & _);
    [by exists w, w1|done|done|].
  destruct (IH _ _ _ _ E Hok' Hnd') as (H1' & H2' & H3'). split_and!; [done| |done].
  rewrite H2', Hp. by rewrite <- Permutation_middle.
Qed.

Lemma read_described_ok groups : ∀ l, read_described groups = Ok l →
  l = description <$> groups ∧ Forall (λ g, error_code.is_ok (DescribedGroup.error_code g) = true) groups.
Proof.
  induction groups as [|g groups IH]; intros l E; cbn [read_described] in E; [by injection E as <-|].
  apply res_bind_ok in E as (u & Hc%broker_accepts & E). apply res_bind_ok in E as (rest & Hr & [= <-]).
  apply IH in Hr as [-> Hr]. by split; [|constructor].
Qed.

(** The answer to one batch, from the broker it was resolved to. *)
Definition described_by (batch : Batch) (r : DescribeGroupsResponse.t) : Prop :=
  (∃ w1 w2, exchange (Req := DescribeGroupsRequest.t) (Resp := DescribeGroupsResponse.t) batch.1.2
     DESCRIBE_GROUPS_SUPPORTED (describe_groups_request_for batch.2) w1 = (Ok r, w2)) ∧
  Forall (λ g, error_code.is_ok (DescribedGroup.error_code g) = true) (DescribeGroupsResponse.groups r).

Lemma describe_each_ok batches : ∀ w l w', describe_each batches w = (Ok l, w') →
  ∃ answers, Forall2 described_by batches answers ∧
    l = description <$> concat (DescribeGroupsResponse.groups <$> answers).
Proof.
  induction batches as [|[[node b] ids] batches IH]; intros w l w' E; cbn [describe_each] in E.
  { injection E as <- _. exists []. by split; [constructor|]. }
  apply io_bind_ok in E as (r & w1 & Hr & E).
  apply io_bind_ok in E as (d & w2 & (Hd%read_described_ok & ->)%io_of_ok & E).
  apply io_bind_ok in E as (rest & w3 & Hrest & E). injection E as <- _.
  apply IH in Hrest as (answers & Hall & ->). destruct Hd as [-> Hd].
  exists (r :: answers). split; [constructor; [|done]|by rewrite fmap_cons, concat_cons, fmap_app].
  split; [by exists w, w1|done].
Qed.

(** Groups are described by their coordinators, one request to each.  When the
    call succeeds, the groups asked for were split into batches, each for another
    node and holding the groups that resolved to it; each batch went over a
    connection one of them resolved to; and the descriptions are those of the
    answers, none of which carries an error. *)
Theorem groups_are_described_by_coordinators (groups : list string) (w w' : W) (l : list GroupDescription) :
  describe_groups groups w = (Ok l, w') →
  ∃ batches answers, concat batches.*2 ≡ₚ groups ∧ NoDup (batch_node <$> batches) ∧
    Forall batch_ok batches ∧ Forall2 described_by batches answers ∧
    l = description <$> concat (DescribeGroupsResponse.groups <$> answers).
Proof.
  intros (batches & w1 & Hb & Hd)%io_bind_ok.
  apply batch_groups_spec in Hb as (Hok & Hp & Hnd); [|constructor|apply NoDup_nil_2].
  apply describe_each_ok in Hd as (answers & Hall & ->). rewrite app_nil_r in Hp. by exists batches, answers.
Qed.

(** ** Deleting topics *)

Section deleted.
Context (topics : list string) (topic : string) (ps : list PartitionInfo).

(** The partitions the cache has for [topic]. *)
Definition still_cached (w : W) : Prop := ClusterImpl.topics w.1 !! topic = Some ps.

Context (Hquiet : quiet still_cached).
(** Metadata asked of no topic names none; asked of the deleted ones, it
    reports that there is one it does not know. *)
Context (Hnone : ∀ r : MetadataResponse.t,
  answered (W := W) (metadata_request_for []) r → MetadataResponse.topics r = []).
Context (Hgone : ∀ r : MetadataResponse.t,
  answered (W := W) (metadata_request_for topics) r → Exists named_error (MetadataResponse.topics r)).

Lemma cached_control s n c : still_cached (s, n) → still_cached (set_control c s, n).
Proof. done. Qed.

Lemma keeps_refresh_asking names :
  (∀ r : MetadataResponse.t, answered (W := W) (metadata_request_for names) r →
     MetadataResponse.topics r = [] ∨ Exists named_error (MetadataResponse.topics r)) →
  keeps still_cached (refresh_metadata names).
Proof.
  intros Hr. apply keeps_with_control; [done|done|]. intros b w Hw. unfold refresh_metadata_via, io_bind.
  pose proof (keeps_exchange _ Hquiet (Req := MetadataRequest.t) (Resp := MetadataResponse.t) b
    METADATA_SUPPORTED (metadata_request_for names) w Hw) as Hk.
  destruct (exchange _ _ _ w) as [[resp|e] [s n]] eqn:He; [|done]. apply exchange_answered, Hr in He.
  unfold io_of. pose proof (refreshed_topics_spec (MetadataResponse.topics resp)) as Hs.
  destruct (refreshed_topics _) as [refreshed|]; [|done]. destruct Hs as [-> Hok]. destruct He as [->|He].
  - cbn. unfold still_cached, apply_metadata in *. cbn in *. by destruct (_ >=? 0).
  - exfalso. apply Exists_exists in He as (t & Ht & Hte). by apply (proj1 (Forall_forall _ _) Hok t).
Qed.

Lemma keeps_cached_broker node : keeps still_cached (broker node).
Proof.
  unfold ClusterImpl.broker. keeping; [by apply keeps_dial|].
  apply keeps_locked. intros s n Hs. unfold keep_conn. by destruct (conns s !! node).
Qed.

Lemma keeps_cached_controller : keeps still_cached controller.
Proof.
  unfold ClusterImpl.controller. keeping; try apply keeps_cached_broker; by apply keeps_control_broker.
Qed.

Lemma keeps_rediscover : keeps still_cached rediscover_controller.
Proof.
  unfold ClusterImpl.rediscover_controller. keeping; [|apply keeps_refresh_asking|apply keeps_cached_controller].
  - by apply keeps_update.
  - intros r Hr. left. by apply Hnone.
Qed.

Lemma keeps_delete_via b : keeps still_cached (delete_topics_via topics b).
Proof.
  unfold delete_topics_via, pick_version. keeping; [|by apply keeps_decode|].
  - unfold ask. keeping. intros w Hw.
    pose proof (quiet_request _ Hquiet (conn b) (Message.API_KEY (M := DeleteTopicsRequest.t)) a a0 w Hw) as Hr.
    cbn [send network_brokers] in *. by destruct (Session.request _ _ _ _ _) as [[]].
  - apply keeps_refresh_asking. intros r Hr. right. by apply Hgone.
Qed.

(** A deleted topic stays in the cache.  The call ends by refreshing the metadata
    of the topics it deleted; the answer reports them unknown, a refresh takes an
    answer whole or not at all, and its failure is dropped: whatever was cached
    about a deleted topic is still there, and its partitions go on being routed
    to their former leaders. *)
Theorem deleted_topics_stay_cached (w : W) :
  still_cached w → let '(r, w') := delete_topics topics w in
  still_cached w' ∧ partitions topic w'.1 = Some ps.
Proof.
  intros Hw. assert (keeps still_cached (delete_topics topics)) as Hk.
  { unfold delete_topics. keeping; try apply keeps_cached_controller; try apply keeps_delete_via.
    apply keeps_rediscover. }
  specialize (Hk w Hw). destruct (delete_topics topics w) as [r w']. by split.
Qed.

End deleted.

End admin.


(** *** Witnesses: a cluster of one broker, that knows one group and no topic *)
Import rfc4648 toy.

Definition office_metadata (topics : list MetadataResponseTopic.t) : MetadataResponse.t :=
  MetadataResponse.mk 0 [MetadataResponseBroker.mk 1 "h" 9092 None []] None 1 topics (-2147483648) 0 [].
Definition unknown_topic : MetadataResponseTopic.t :=
  MetadataResponseTopic.mk error_code.UNKNOWN_TOPIC_OR_PARTITION (Some "t") ZERO_UUID false [] (-2147483648) [].
Definition office_groups : ListGroupsResponse.t :=
  ListGroupsResponse.mk 0 0 [ListedGroup.mk "h" "consumer" "" "" []; ListedGroup.mk "g" "consumer" "" "" []] [].
Definition office_described : DescribeGroupsResponse.t :=
  DescribeGroupsResponse.mk 0 [DescribedGroup.mk 0 None "g" "Empty" "consumer" "range" [] (-2147483648) []] [].
Definition office_deleted : DeleteTopicsResponse.t :=
  DeleteTopicsResponse.mk 0 [DeletableTopicResult.mk (Some "t") ZERO_UUID 0 None []] [].

(** Metadata asked of no topic is a body of four zero bytes. *)
Definition office_reply (k : Z) (body : list byte) : result EncodeError (list byte) :=
  if k =? 3 then enc_bytes (MetadataResponse.encode 1
    (office_metadata (if bool_decide (body = be_bytes 4 0) then [] else [unknown_topic])))
  else if k =? 16 then enc_bytes (ListGroupsResponse.encode 0 office_groups)
  else if k =? 15 then enc_bytes (DescribeGroupsResponse.encode 0 office_described)
  else enc_bytes (DeleteTopicsResponse.encode 1 office_deleted).

Definition office_version (k : Z) : Z := if (k =? 3) || (k =? 20) then 1 else 0.

Abbreviation office_world := (State unit * unit)%type.

Definition office_request (c : unit) (k version : Z) (body : list byte) (w : office_world) :
    result ClientError (list byte) * office_world :=
  if version =? office_version k then (map_err Encode (office_reply k body), w) else (Err ConnectionClosed, w).

#[export] Instance office_network : Network unit office_world := {|
  connect := λ _, io_ret tt;
  is_encrypted := λ _, false;
  request := office_request;
  note_throttle := λ _ _, id;
  getrandom := λ _, None;
  deadline := λ _ m w, (Some (m w).1, (m w).2);
  deadline_keeps := λ _ _ _, or_introl eq_refl |}.

Definition office_broker : Broker unit :=
  mkBroker tt {[ 3 := (1, 1); 15 := (0, 0); 16 := (0, 0); 20 := (1, 1) ]}.
Definition office_config : ClientConfig := mkClientConfig ["h:9092"] 256 false None DEFAULT_MAX_SCRAM_ITERATIONS.
Definition office_state : State unit :=
  mkState (Some office_broker) {[ 1 := mkBrokerInfo 1 "h" 9092 ]} {[ "t" := [mkPartitionInfo 0 1 0] ]} ∅
    {[ 1 := office_broker ]} ∅ (Some 1) {[ "g" := 1 ]} ∅.
Definition office_iteration (m : gmap Z BrokerInfo) : list BrokerInfo := (map_to_list m).*2.

Lemma office_quiet (I : office_world → Prop) : quiet (W := office_world) I.
Proof.
  split.
  - intros a w Hw. exact Hw.
  - intros c k v body w Hw. cbn. unfold office_request. by destruct (v =? _).
  - done.
  - intros A m Hm w Hw. by apply Hm.
Qed.

Lemma office_answered names (r : MetadataResponse.t) (body : list byte) :
  enc_bytes (MetadataRequest.encode 1 (metadata_request_for names)) = Ok body →
  answered (R := plain_runtime) (W := office_world) (metadata_request_for names) r →
  r = office_metadata (if bool_decide (body = be_bytes 4 0) then [] else [unknown_topic]).
Proof.
  intros Hb (b & version & body' & w & resp & w' & Hb' & Hs & Hd). cbn in Hs. unfold office_request in Hs.
  change (MetadataRequest.API_KEY) with 3 in Hs. change (office_version 3) with 1 in Hs.
  destruct (Z.eqb_spec version 1) as [->|]; [|done].
  assert (Ok body' = Ok (E := EncodeError) body) as [= ->] by (rewrite <- Hb; symmetry; exact Hb').
  clear Hb Hb'. unfold office_reply in Hs.
  change (3 =? 3) with true in Hs. cbn iota in Hs.
  destruct (bool_decide _);
    match type of Hs with (?x, _) = _ => assert (x = Ok resp) as Hr by congruence end;
    vm_compute in Hr; injection Hr as <-; vm_compute in Hd; by injection Hd as <-.
Qed.

Lemma group_listing_is_complete_witness :
  (list_groups (R := plain_runtime) "0" (λ _, "") (λ _, "") office_iteration office_config (office_state, tt)).1 =
    Ok [mkGroupListing "g" "consumer" "" 1; mkGroupListing "h" "consumer" "" 1] ∧
  Sorted (on_key gl_group_id) [mkGroupListing "g" "consumer" "" 1; mkGroupListing "h" "consumer" "" 1].
Proof.
  destruct (list_groups (R := plain_runtime) "0" (λ _, "") (λ _, "") office_iteration office_config (office_state, tt))
    as [r w'] eqn:E.
  assert (r = Ok [mkGroupListing "g" "consumer" "" 1; mkGroupListing "h" "consumer" "" 1]) as Hr.
  { transitivity (list_groups (R := plain_runtime) "0" (λ _, "") (λ _, "") office_iteration office_config (office_state, tt)).1;
      [by rewrite E|vm_compute; reflexivity]. }
  subst r. split; [reflexivity|].
  destruct (group_listing_is_complete (R := plain_runtime) (H := office_network) "0" (λ _, "") (λ _, "")
    office_iteration office_config _ _ _ ltac:(reflexivity) E) as (_ & _ & _ & _ & _ & _ & _ & _ & Hs).
  exact Hs.
Defined.

Lemma groups_are_described_by_coordinators_witness :
  ∃ batches : list (Z * Broker unit * list string), concat batches.*2 ≡ₚ ["g"] ∧ NoDup (batch_node <$> batches).
Proof.
  destruct (describe_groups (R := plain_runtime) "0" (λ _, "") (λ _, "") office_iteration office_config ["g"] (office_state, tt))
    as [r w'] eqn:E.
  assert (r = Ok [mkGroupDescription "g" "Empty" "consumer" "range" []]) as Hr.
  { transitivity (describe_groups (R := plain_runtime) "0" (λ _, "") (λ _, "") office_iteration office_config ["g"] (office_state, tt)).1;
      [by rewrite E|vm_compute; reflexivity]. }
  subst r.
  destruct (groups_are_described_by_coordinators (R := plain_runtime) (H := office_network) "0" (λ _, "") (λ _, "")
    office_iteration office_config _ _ _ _ E) as (batches & _ & Hp & Hn & _).
  exists batches. split; [exact Hp|exact Hn].
Defined.

Lemma deleted_topics_stay_cached_witness :
  let '(r, w') := delete_topics (R := plain_runtime) "0" (λ _, "") (λ _, "") office_iteration office_config
    ["t"] (office_state, tt) in
  r = Ok tt ∧ partitions "t" w'.1 = Some [mkPartitionInfo 0 1 0].
Proof.
  pose proof (deleted_topics_stay_cached (R := plain_runtime) (H := office_network) "0" (λ _, "") (λ _, "")
    office_iteration office_config ["t"] "t" [mkPartitionInfo 0 1 0] (office_quiet _)) as Hd.
  specialize (Hd ltac:(intros r Ha; by rewrite (office_answered [] r _ eq_refl Ha))).
  specialize (Hd ltac:(intros r Ha; rewrite (office_answered ["t"] r _ eq_refl Ha);
    apply Exists_cons_hd; split; [by eexists|reflexivity]) (office_state, tt) eq_refl).
  assert ((delete_topics (R := plain_runtime) "0" (λ _, "") (λ _, "") office_iteration office_config
    ["t"] (office_state, tt)).1 = Ok tt) as Hr by (vm_compute; reflexivity).
  destruct (delete_topics _ _ _ _ _ _ _) as [r w']. split; [exact Hr|exact (proj2 Hd)].
Defined.
