(* ===== verification/ClusterRecovery.v ===== *)
(** * The cluster behind its interface, and what it cannot recover from

    [cluster_calls] is the cluster as the consumer, the producer and the groups
    call it: the instance of [Exchange]'s class that [ClusterImpl] provides, so
    that their theorems hold of it.  A connection the pool holds is handed out
    without a look at whether it still lives; the theorem shows what that does
    to callers that forget a partition's leader, or the controller, but not the
    connection. *)
From S2P Require Import Prelude Text Budget Codec MessageTrait MsgConnection MsgMetadata MsgOffset MsgAdmin Registry ClientError Negotiate Exchange Consumer Sasl Scram Session ClusterImpl ClusterSafety.
Import metadata_request metadata_response create_topics_request create_topics_response.

Section calls.
Context {R : Runtime} {connection N : Type} `{Network connection (State connection * N)}.
Context `{Stringprep, Base64, Crypto}.
Context (pkg_version : string) (lossy : list byte → string) (render : ClientError → string).
Context (iteration : gmap Z BrokerInfo → list BrokerInfo) (config : ClientConfig).
(** The clock, and the thread's random stream. *)
Context (clock : State connection * N → Z) (stream : State connection * N → Z * Z).

Abbreviation W := (State connection * N)%type.
Abbreviation Broker := (Broker connection).

(** What callers hold: a connection, and the node a lease counts against. *)
Definition Handle : Type := Broker * option Z.

Definition on_shared (m : io W Broker) : io W Handle := let^ b := m in io_ret (b, None).
Definition on_lease (m : io W (Broker * Z)) : io W Handle := let^ l := m in io_ret (l.1, Some l.2).

Definition release_handle (h : Handle) : W → W := λ '(s, n),
  match h.2 with
  | Some node => (release_lease (blocking_idle_max config) node h.1 s, n)
  | None => (s, n)
  end.
Definition discard_handle (h : Handle) : W → W := λ '(s, n),
  match h.2 with
  | Some node => (drop_lease node s, n)
  | None => (s, n)
  end.

Definition handle_brokers : Brokers W := {|
  handle := Handle;
  handle_ranges := λ h, ranges h.1;
  send := λ h, request (conn h.1);
  note_throttled := λ h, note_throttle (conn h.1) |}.

Definition cluster_calls : Exchange.Cluster W := {|
  cluster_brokers := handle_brokers;
  Exchange.partition_leader := λ topic p,
    on_shared (partition_leader pkg_version lossy render iteration config topic p);
  Exchange.transaction_coordinator := λ id,
    on_shared (transaction_coordinator pkg_version lossy render iteration config id);
  Exchange.group_coordinator := λ group,
    on_shared (coordinator pkg_version lossy render iteration config group);
  Exchange.control_broker := on_shared (control_broker pkg_version lossy render iteration config);
  Exchange.blocking_partition_leader := λ topic p,
    on_lease (blocking_partition_leader pkg_version lossy render iteration config topic p);
  Exchange.blocking_coordinator := λ group,
    on_lease (blocking_coordinator pkg_version lossy render iteration config group);
  Exchange.release := release_handle;
  Exchange.discard := discard_handle;
  Exchange.leader_id := λ topic p w, leader_id topic p w.1;
  Exchange.forget_broker := λ node w, (forget_broker node w.1, w.2);
  Exchange.mark_partition_stale := λ topic p w, (mark_partition_stale topic p w.1, w.2);
  Exchange.forget_coordinator := λ group w, (forget_coordinator group w.1, w.2);
  Exchange.forget_transaction_coordinator := λ id w, (forget_transaction_coordinator id w.1, w.2);
  Exchange.partition_count := λ topic w, partition_count topic w.1;
  Exchange.topic_name_by_id := λ id w, topic_name_by_id id w.1;
  Exchange.refresh_metadata := refresh_metadata pkg_version lossy render iteration config;
  Exchange.now_ms := clock;
  Exchange.entropy := stream |}.

(** ** A dead connection in the pool *)

Context (node : Z) (dead : connection) (dead_ranges : ApiVersionRanges).

(** A connection its reader has failed answers every request at once. *)
Context (Hdead : ∀ k version body w, request dead k version body w = (Err ConnectionClosed, w)).

Definition pooled_dead (w : W) : Prop := conns w.1 !! node = Some (mkBroker dead dead_ranges).

Lemma broker_dead w : pooled_dead w →
  broker pkg_version lossy config node w = (Ok (mkBroker dead dead_ranges), w).
Proof. intros Hw. unfold broker, io_bind, this. by rewrite Hw. Qed.

Lemma exchange_dead {Req Resp} `{Message Req} `{Message Resp} (B : Brokers W) (h : @handle W B) ours
    (request : Req) w :
  (∀ k version body w, send h k version body w = (Err ConnectionClosed, w)) →
  ∃ e, exchange (Req := Req) (Resp := Resp) h ours request w = (Err e, w).
Proof.
  intros Hs. unfold exchange, exchange_with, pick_version, io_bind at 1, io_of.
  destruct (pick _ _ _) as [version|e]; [|by exists e]. unfold io_bind at 1, ask, io_bind, io_of.
  destruct (map_err Encode _) as [body|e]; [|by exists e]. rewrite Hs. by eexists.
Qed.

(** *** A partition's leader *)

(** Metadata never names another leader for the partition. *)
Definition leads (topic : string) (partition : Z) (ps : list PartitionInfo) : Prop :=
  ∀ info, List.find (λ q, index q =? partition) ps = Some info → leader info >= 0 → leader info = node.

Definition always_leads (topic : string) (partition : Z) : Prop :=
  ∀ names (r : MetadataResponse.t) t,
    answered (W := W) (metadata_request_for names) r → t ∈ MetadataResponse.topics r →
    MetadataResponseTopic.name t = Some topic →
    leads topic partition (partition_info <$> MetadataResponseTopic.partitions t).

Definition stuck (topic : string) (partition : Z) (w : W) : Prop :=
  pooled_dead w ∧ ∀ ps, topics w.1 !! topic = Some ps → leads topic partition ps.

Lemma stuck_same (topic : string) (partition : Z) (s s' : State connection) (n : N) :
  conns s' = conns s → topics s' = topics s → stuck topic partition (s, n) → stuck topic partition (s', n).
Proof. unfold stuck, pooled_dead. cbn. by intros -> ->. Qed.

Lemma refreshed_topics_in l refreshed name id ps :
  refreshed_topics l = Ok refreshed → (name, id, ps) ∈ refreshed →
  ∃ t, t ∈ l ∧ MetadataResponseTopic.name t = Some name ∧
    ps = partition_info <$> MetadataResponseTopic.partitions t.
Proof.
  revert refreshed. induction l as [|t l IH]; intros refreshed; cbn [refreshed_topics].
  { intros [= <-] Hin. by apply not_elem_of_nil in Hin. }
  destruct (MetadataResponseTopic.name t) as [tname|] eqn:Hn.
  2: { intros Hr Hin. destruct (IH _ Hr Hin) as (t' & Ht & ?). exists t'. split; [by right|done]. }
  destruct (negb _); [done|]. intros (rest & Hr & [= <-])%res_bind_ok Hin.
  apply elem_of_cons in Hin as [[= -> -> ->]|Hin].
  - exists t. split; [left|done].
  - destruct (IH _ Hr Hin) as (t' & Ht & ?). exists t'. split; [by right|done].
Qed.

Lemma foldl_refresh_topics refreshed : ∀ (s : State connection) topic ps,
  topics (foldl refresh_topic s refreshed) !! topic = Some ps →
  topics s !! topic = Some ps ∨ ∃ id, (topic, id, ps) ∈ refreshed.
Proof.
  induction refreshed as [|[[name id] qs] l IH] using rev_ind; intros s topic ps; [by left|].
  rewrite foldl_snoc. unfold refresh_topic. set (s1 := foldl _ s l).
  assert (∀ s2 : State connection, topics s2 = topics s1 →
    topics (set_topics (<[name := qs]> (topics s2)) s2) !! topic = Some ps →
    topics s !! topic = Some ps ∨ ∃ id', (topic, id', ps) ∈ l ++ [(name, id, qs)]) as Hone.
  { intros s2 E. cbn. rewrite E. destruct (decide (name = topic)) as [->|].
    - rewrite lookup_insert_eq. intros [= ->]. right. exists id. rewrite elem_of_app, list_elem_of_singleton. auto.
    - rewrite lookup_insert_ne by done. intros [?|[id' Hin]]%IH; [by left|right].
      exists id'. rewrite elem_of_app. auto. }
  case_bool_decide; by apply Hone.
Qed.

Section leader.
Context (topic : string) (partition : Z).
Context (Hleads : always_leads topic partition) (Hquiet : quiet (stuck topic partition)).

Lemma stuck_control s n c : stuck topic partition (s, n) → stuck topic partition (set_control c s, n).
Proof. by apply stuck_same. Qed.

Lemma stuck_metadata s n names (r : MetadataResponse.t) refreshed :
  answered (W := W) (metadata_request_for names) r →
  refreshed_topics (MetadataResponse.topics r) = Ok refreshed → stuck topic partition (s, n) →
  stuck topic partition
    (apply_metadata (brokers_of (MetadataResponse.brokers r)) (MetadataResponse.controller_id r) refreshed s, n).
Proof.
  intros Ha Hr [Hc Hl]. split.
  - unfold pooled_dead. cbn [fst]. by destruct (apply_metadata_frame (brokers_of (MetadataResponse.brokers r))
      (MetadataResponse.controller_id r) refreshed s) as (_ & -> & _).
  - cbn [fst]. unfold apply_metadata. intros ps [Hps|[id Hin]]%foldl_refresh_topics.
    + apply Hl. by destruct (_ >=? 0).
    + destruct (refreshed_topics_in _ _ _ _ _ Hr Hin) as (t & Ht & Hn & ->). by eapply Hleads.
Qed.

Lemma stuck_leader w l : stuck topic partition w → leader_id topic partition w.1 = Some l → l = node.
Proof.
  intros [_ Hl]. unfold leader_id. destruct (topics w.1 !! topic) as [ps|]; [|done].
  destruct (List.find _ ps) as [info|] eqn:Hf; [|done].
  destruct (Z.geb_spec (leader info) 0); [|done]. intros [= <-]. by eapply (Hl ps); [done| |lia].
Qed.

(** What the leader lookup comes to. *)
Lemma partition_leader_dead w :
  stuck topic partition w →
  let '(r, w') := partition_leader pkg_version lossy render iteration config topic partition w in
  stuck topic partition w' ∧ match r with Ok b => b = mkBroker dead dead_ranges | Err _ => True end.
Proof.
  intros Hw. unfold partition_leader, io_bind at 1. 
  pose proof (keeps_known_leader pkg_version lossy render iteration config _ Hquiet stuck_control
    stuck_metadata topic partition w Hw) as Hk.
  destruct (known_leader _ _ _ _ _ _ _ w) as [[l|e] w1] eqn:Hl; [|done].
  apply known_leader_cached in Hl. cbn [snd] in Hk.
  rewrite (stuck_leader w1 l Hk Hl), (broker_dead w1) by apply Hk. done.
Qed.

Lemma list_offset_dead (c : ConsumerConfig) timestamp w :
  stuck topic partition w →
  let '(r, w') := @list_offset_once R W cluster_calls c topic partition timestamp w in
  stuck topic partition w' ∧ is_ok r = false.
Proof.
  intros Hw. unfold list_offset_once. unfold io_bind at 1. cbn [Exchange.partition_leader cluster_calls].
  unfold on_shared, io_bind at 1. pose proof (partition_leader_dead w Hw) as Hl.
  destruct (partition_leader _ _ _ _ _ _ _ w) as [[b|e] w1]; [|by destruct Hl].
  destruct Hl as [Hw1 ->]. cbn [io_ret]. unfold io_bind at 1.
  lazymatch goal with |- context [match ?m w1 with _ => _ end] =>
    assert (∃ e, m w1 = (Err e, w1)) as [e ->]; [|done] end.
  apply exchange_dead. intros k v body w2. apply Hdead.
Qed.

Lemma stuck_marked s (n : N) :
  stuck topic partition (s, n) → stuck topic partition (mark_partition_stale topic partition s, n).
Proof.
  intros [Hc Hl]. unfold mark_partition_stale, stuck, pooled_dead in *. cbn [fst] in *.
  destruct (topics s !! topic) as [ps|] eqn:Ht; [|by split; [|rewrite Ht]].
  destruct (clear_leader partition ps) as [ps'|] eqn:Hps; cbn; split; try done.
  - intros qs. rewrite lookup_insert_eq. intros [= <-] info Hf Hge.
    apply clear_leader_find in Hps as [(info' & Hf' & Hlead) _]. rewrite Hf in Hf'. injection Hf' as <-. lia.
  - intros qs. by rewrite lookup_delete_eq.
Qed.

(** Every attempt of the retry loop meets the same connection. *)
Lemma offset_never_found (c : ConsumerConfig) timestamp w :
  stuck topic partition w →
  is_ok (@partition_retries W cluster_calls c Z topic partition
    (@list_offset_once R W cluster_calls c topic partition timestamp) w).1 = false.
Proof.
  intros Hw. destruct (@partition_retries W cluster_calls c Z topic partition
    (@list_offset_once R W cluster_calls c topic partition timestamp) w) as [[off|e] w'] eqn:E; [|done].
  exfalso. unfold partition_retries, with_retries in E.
  apply (retrying_done _ _ _ _ (stuck topic partition)) in E as (w1 & Hw1 & Ha); [|done|].
  - pose proof (list_offset_dead c timestamp w1 Hw1) as Hd.
    destruct (@list_offset_once R W cluster_calls c topic partition timestamp w1) as [[o|e] w2]; [by destruct Hd|].
    cbn in Ha. by destruct (is_retriable e).
  - intros w1 e w2 Hw1 Ha. pose proof (list_offset_dead c timestamp w1 Hw1) as Hd.
    destruct (@list_offset_once R W cluster_calls c topic partition timestamp w1) as [[o|e'] [s3 n3]]; [by destruct Hd|].
    destruct Hd as [Hs3 _]. cbn in Ha. destruct (is_retriable e'); [|done]. injection Ha as _ <-.
    by apply stuck_marked.
Qed.

(** C24: A dead connection to a partition's leader is never redialled.  Once the
    connection the pool holds for a node answers nothing but
    [ConnectionClosed], and as long as metadata goes on naming that node as the
    partition's leader, [earliest_offset] and [latest_offset] fail however many
    attempts they are configured with: each attempt forgets the leader, learns it
    again, and is handed the same connection. *)
Theorem dead_leader_connection_is_kept (c : ConsumerConfig) (w : W) :
  stuck topic partition w →
  is_ok (@earliest_offset R W cluster_calls c topic partition w).1 = false ∧
  is_ok (@latest_offset R W cluster_calls c topic partition w).1 = false.
Proof. intros Hw. split; by apply offset_never_found. Qed.

End leader.

(** *** The controller *)

Lemma foldl_refresh_controller refreshed : ∀ s : State connection,
  known_controller (foldl refresh_topic s refreshed) = known_controller s.
Proof.
  induction refreshed as [|[[name id] ps] l IH]; intros s; [done|]. cbn [foldl]. rewrite IH.
  unfold refresh_topic. by case_bool_decide.
Qed.

Lemma refresh_learns_controller names w w' :
  0 ≤ node →
  (∀ names (r : MetadataResponse.t), answered (W := W) (metadata_request_for names) r →
     MetadataResponse.controller_id r = node) →
  refresh_metadata pkg_version lossy render iteration config names w = (Ok tt, w') →
  known_controller w'.1 = Some node.
Proof.
  intros Hn Hctl (b & w1 & Hv)%with_control_ok. unfold refresh_metadata_via in Hv.
  apply io_bind_ok in Hv as (resp & w2 & He%exchange_answered & Hr).
  apply io_bind_ok in Hr as (refreshed & w3 & (_ & ->)%io_of_ok & Hu). destruct w2 as [s n].
  injection Hu as <-. cbn [fst]. unfold apply_metadata. rewrite foldl_refresh_controller.
  rewrite (Hctl _ _ He). by destruct (Z.geb_spec node 0); [|lia].
Qed.

Lemma create_via_dead name parts factor w :
  ∃ e, create_topic_via name parts factor (mkBroker dead dead_ranges) w = (Err e, w).
Proof.
  unfold create_topic_via, io_bind.
  lazymatch goal with |- context [match ?m w with _ => _ end] =>
    assert (∃ e, m w = (Err e, w)) as [e ->]; [|by exists e] end.
  apply exchange_dead. intros k v body w2. apply Hdead.
Qed.

(** A dead connection to the controller is never redialled.  While the pool
    holds one for the node that metadata names as the controller,
    [create_topic] fails, and leaves it in the pool: the redirect forgets the
    control connection and the controller's id, learns the same id, and is
    handed the same connection. *)
Theorem dead_controller_connection_is_kept (name : string) (parts factor : Z) (w : W) :
  quiet pooled_dead → 0 ≤ node →
  (∀ names (r : MetadataResponse.t), answered (W := W) (metadata_request_for names) r →
     MetadataResponse.controller_id r = node) →
  pooled_dead w → known_controller w.1 = Some node →
  let '(r, w') := create_topic pkg_version lossy render iteration config name parts factor w in
  is_ok r = false ∧ pooled_dead w'.
Proof.
  intros Hq Hn Hctl Hw Hk. unfold create_topic, io_bind at 1.
  assert (∀ w, pooled_dead w → known_controller w.1 = Some node →
    controller pkg_version lossy render iteration config w = (Ok (mkBroker dead dead_ranges), w)) as Hcontroller.
  { intros w1 Hw1 Hk1. unfold controller, io_bind, this. rewrite Hk1. unfold or_else. by rewrite broker_dead. }
  rewrite Hcontroller by done. unfold recover.
  destruct (create_via_dead name parts factor w) as [e ->]. destruct (is_control_redirect e); [|done].
  unfold io_bind at 1, rediscover_controller, io_bind at 1. destruct w as [s n].
  unfold update at 1. cbv beta iota zeta. unfold io_bind at 1.
  set (w1 := (forget_control (set_controller None s), n)).
  assert (pooled_dead w1) as Hw1 by exact Hw.
  assert (keeps pooled_dead (refresh_metadata pkg_version lossy render iteration config [])) as Hkeep.
  { apply keeps_refresh; [done|done|]. intros s' n' names r refreshed _ _ Hs'. unfold pooled_dead in *. cbn [fst] in *.
    by destruct (apply_metadata_frame (brokers_of (MetadataResponse.brokers r))
      (MetadataResponse.controller_id r) refreshed s') as (_ & -> & _). }
  specialize (Hkeep w1 Hw1).
  destruct (refresh_metadata _ _ _ _ _ [] w1) as [[[]|e2] w2] eqn:Hr; [|done]. cbn [snd] in Hkeep.
  rewrite Hcontroller by (done || by eapply refresh_learns_controller).
  by destruct (create_via_dead name parts factor w2) as [e2 ->].
Qed.

End calls.

(** *** Witnesses: one broker, [true] a live connection to it and [false] a dead
    one *)
Import rfc4648 toy list_offsets_response api_versions_response.

Definition toy_metadata : MetadataResponse.t :=
  MetadataResponse.mk 0 [MetadataResponseBroker.mk 1 "h" 9092 None []] None 1
    [MetadataResponseTopic.mk 0 (Some "t") ZERO_UUID false
       [MetadataResponsePartition.mk 0 0 1 (-1) [] [] [] []] (-2147483648) []]
    (-2147483648) 0 [].
Definition toy_versions : ApiVersionsResponse.t :=
  ApiVersionsResponse.mk 0 [ApiVersion.mk 2 1 1 []; ApiVersion.mk 3 1 1 []] 0 None None None None [].
Definition toy_offsets : ListOffsetsResponse.t :=
  ListOffsetsResponse.mk 0 [ListOffsetsTopicResponse.mk "t" [ListOffsetsPartitionResponse.mk 0 0 0 7 (-1) []] []] [].

Definition toy_reply (k version : Z) : option (result EncodeError (list byte)) :=
  if (k =? 18) && (version =? 4) then Some (enc_bytes (ApiVersionsResponse.encode 4 toy_versions))
  else if (k =? 3) && (version =? 1) then Some (enc_bytes (MetadataResponse.encode 1 toy_metadata))
  else if (k =? 2) && (version =? 1) then Some (enc_bytes (ListOffsetsResponse.encode 1 toy_offsets))
  else None.

Abbreviation toy_world := (State bool * unit)%type.

Definition toy_cluster_request (c : bool) (k version : Z) (body : list byte) (w : toy_world) :
    result ClientError (list byte) * toy_world :=
  match (if c then toy_reply k version else None) with
  | Some r => (map_err Encode r, w)
  | None => (Err ConnectionClosed, w)
  end.

#[export] Instance toy_network : Network bool toy_world := {|
  connect := λ _, io_ret true;
  is_encrypted := λ _, false;
  request := toy_cluster_request;
  note_throttle := λ _ _, id;
  getrandom := λ _, None;
  deadline := λ _ m w, (Some (m w).1, (m w).2);
  deadline_keeps := λ _ _ _, or_introl eq_refl |}.

Definition toy_ranges : ApiVersionRanges := {[ 2 := (1, 1); 3 := (1, 1) ]}.
Definition toy_config : ClientConfig := mkClientConfig ["h:9092"] 256 false None DEFAULT_MAX_SCRAM_ITERATIONS.
Definition toy_state : State bool :=
  mkState (Some (mkBroker true toy_ranges)) {[ 1 := mkBrokerInfo 1 "h" 9092 ]} ∅ ∅
    {[ 1 := mkBroker false toy_ranges ]} ∅ (Some 1) ∅ ∅.
Definition toy_calls : Exchange.Cluster toy_world :=
  cluster_calls (R := plain_runtime) "0.1.0" (λ _, "") (λ _, "") (λ m, (map_to_list m).*2) toy_config
    (λ _, 0) (λ _, (0, 0)).

Lemma toy_quiet (I : toy_world → Prop) : quiet (W := toy_world) I.
Proof.
  split.
  - intros a w Hw. exact Hw.
  - intros c k v body w Hw. cbn. unfold toy_cluster_request. by destruct (if c then _ else None).
  - done.
  - intros A m Hm w Hw. by apply Hm.
Qed.

Lemma toy_answered names (r : MetadataResponse.t) :
  answered (R := plain_runtime) (W := toy_world) (metadata_request_for names) r → r = toy_metadata.
Proof.
  intros (b & version & body & w & resp & w' & _ & Hs & Hd). cbn in Hs. unfold toy_cluster_request in Hs.
  destruct (conn b); [|done]. unfold toy_reply in Hs.
  change (MetadataRequest.API_KEY =? 18) with false in Hs.
  change (MetadataRequest.API_KEY =? 3) with true in Hs.
  change (MetadataRequest.API_KEY =? 2) with false in Hs. cbn [andb] in Hs.
  destruct (Z.eqb_spec version 1) as [->|]; [|done].
  assert (map_err Encode (enc_bytes (MetadataResponse.encode 1 toy_metadata)) = Ok resp) as Hr by congruence.
  vm_compute in Hr. injection Hr as <-. vm_compute in Hd. by injection Hd as <-.
Qed.

Lemma toy_always_leads : always_leads (R := plain_runtime) (connection := bool) (N := unit) 1 "t" 0.
Proof.
  intros names r t Ha%toy_answered Hin _. subst r. apply list_elem_of_singleton in Hin. subst t.
  intros info Hf _. injection Hf as <-. reflexivity.
Qed.

Lemma toy_no_topics ps : topics toy_state !! "t" = Some ps → leads 1 "t" 0 ps.
Proof. by intros Hps. Qed.

Lemma dead_leader_connection_is_kept_witness :
  is_ok (@earliest_offset plain_runtime toy_world toy_calls default_config "t" 0 (toy_state, tt)).1 = false.
Proof.
  pose proof (dead_leader_connection_is_kept (R := plain_runtime) (H := toy_network) "0.1.0"
    (λ _, "") (λ _, "") (λ m, (map_to_list m).*2) toy_config (λ _, 0) (λ _, (0, 0)) 1 false toy_ranges
    ltac:(reflexivity) "t" 0 toy_always_leads (toy_quiet _) default_config (toy_state, tt)) as Hd.
  exact (proj1 (Hd (conj eq_refl toy_no_topics))).
Defined.

Lemma dead_controller_connection_is_kept_witness :
  is_ok (create_topic (R := plain_runtime) "0.1.0" (λ _, "") (λ _, "") (λ m, (map_to_list m).*2) toy_config
    "new" 1 1 (toy_state, tt)).1 = false.
Proof.
  pose proof (dead_controller_connection_is_kept (R := plain_runtime) (H := toy_network) "0.1.0"
    (λ _, "") (λ _, "") (λ m, (map_to_list m).*2) toy_config 1 false toy_ranges
    ltac:(reflexivity) "new" 1 1 (toy_state, tt) (toy_quiet _) ltac:(discriminate)) as Hd.
  specialize (Hd ltac:(intros names r Ha%toy_answered; subst r; reflexivity) eq_refl eq_refl).
  destruct (create_topic _ _ _ _ _ _ _ _ _) as [r w']. exact (proj1 Hd).
Defined.

(** The same call, once the connection is forgotten. *)
Lemma forgetting_the_connection_is_enough :
  (@earliest_offset plain_runtime toy_world toy_calls default_config "t" 0 (forget_broker 1 toy_state, tt)).1 = Ok 7.
Proof. vm_compute. reflexivity. Qed.

Lemma refresh_is_whole_witness :
  let '(r, w') := refresh_metadata_via (R := plain_runtime) (H := toy_network) ["t"] (mkBroker true toy_ranges)
    (@state_default bool, tt) in
  known_controller w'.1 = Some 1 ∧ topics w'.1 !! "t" = Some [mkPartitionInfo 0 1 0].
Proof.
  pose proof (refresh_is_whole (R := plain_runtime) (H := toy_network) ["t"] (mkBroker true toy_ranges)
    (@state_default bool, tt) toy_metadata state_default tt ltac:(vm_compute; reflexivity)) as Hr.
  destruct (refresh_metadata_via _ _ _) as [[u|e] [s n]].
  - destruct Hr as (_ & _ & Ht & _ & Hc & _). split; [exact Hc|rewrite Ht; reflexivity].
  - destruct Hr as (_ & before & t & after & Hl & _ & [_ He] & _). exfalso.
    destruct before as [|t0 before]; [injection Hl as <- _; discriminate He|].
    injection Hl as _ Hl. by destruct before.
Defined.

(** From a control connection alone: the leader is learnt, and dialled. *)
Definition toy_start : State bool := set_control (Some (mkBroker true toy_ranges)) state_default.

Lemma connections_go_where_they_say_witness :
  ∃ node b, (partition_leader (R := plain_runtime) "0.1.0" (λ _, "") (λ _, "") (λ m, (map_to_list m).*2) toy_config
    "t" 0 (toy_start, tt)).1 = Ok b ∧
    connected_to (R := plain_runtime) (N := unit) "0.1.0" (λ _, "") toy_config node b.
Proof.
  assert (endpoints_ok (R := plain_runtime) (N := unit) "0.1.0" (λ _, "") toy_config (toy_start, tt)) as H0.
  { split; [intros node info Hl; discriminate Hl|].
    split; [intros node b Hl|intros node pool b Hl _]; discriminate Hl. }
  destruct (connections_go_where_they_say (R := plain_runtime) (H := toy_network) "0.1.0" (λ _, "") (λ _, "")
    (λ m, (map_to_list m).*2) toy_config (toy_quiet _) _ H0) as (_ & _ & Hb & _).
  assert (∃ b w', partition_leader (R := plain_runtime) "0.1.0" (λ _, "") (λ _, "") (λ m, (map_to_list m).*2) toy_config
    "t" 0 (toy_start, tt) = (Ok b, w')) as (b & w' & Hr) by (do 2 eexists; vm_compute; reflexivity).
  destruct (Hb "t" 0 b w' Hr) as (node & w1 & _ & _ & Hc & _).
  exists node, b. split; [by rewrite Hr|exact Hc].
Defined.
