(* ===== verification/Report.v ===== *)
(** * Reports and baselines ([odradek-acceptance/src/report.rs], [bin/odradek-accept.rs])

    What a run of the acceptance suite comes to: the verdicts, their reduction to
    a baseline, the comparison of a run with a baseline, the exit status of the
    command and its arguments.  JSON is parsed by a library, so [from_json] starts
    from what it made of the file; the rendering for a terminal is not modelled. *)
From S2P Require Import Prelude Text Group.

(** [lib.rs] *)
Inductive Verdict : Type :=
| Pass
| Fail (details : string)
| Skipped (reason : string)
| Error (details : string).
#[global] Instance Verdict_eq_dec : EqDecision Verdict.
Proof. solve_decision. Defined.

Definition FORMAT : Z := 1.

Record CheckOutcome : Type := mkCheckOutcome {
  id : string;
  requirement : string;
  verdict : Verdict;
}.

Record Report : Type := mkReport {
  format : Z;
  suite : string;
  subject : string;
  outcomes : list CheckOutcome;
}.

Inductive BaselineStatus : Type := StatusPass | StatusFail | StatusSkipped | StatusError.
#[global] Instance BaselineStatus_eq_dec : EqDecision BaselineStatus.
Proof. solve_decision. Defined.

Definition status_of (v : Verdict) : BaselineStatus :=
  match v with
  | Pass => StatusPass
  | Fail _ => StatusFail
  | Skipped _ => StatusSkipped
  | Error _ => StatusError
  end.

Record Baseline : Type := mkBaseline {
  baseline_format : Z;
  baseline_suite : string;
  checks : gmap string BaselineStatus;
}.

Inductive BaselineDiff : Type :=
| Regression (id : string) (expected actual : BaselineStatus)
| NotInBaseline (id : string) (actual : BaselineStatus)
| RemovedCheck (id : string) (expected : BaselineStatus)
| Infrastructure (id details : string).

(** What keeps a file from being read: the parser, or [check_format]. *)
Inductive FileError : Type := Malformed (e : string) | Unsupported (format : Z).

Definition check_format (format : Z) : result FileError unit :=
  if format =? FORMAT then Ok tt else Err (Unsupported format).

(** The two [from_json], on what [serde_json::from_str] answers. *)
Definition baseline_from_json (parsed : result string Baseline) : result FileError Baseline :=
  let? baseline := map_err Malformed parsed in
  let? _ := check_format (baseline_format baseline) in
  Ok baseline.
Definition report_from_json (parsed : result string Report) : result FileError Report :=
  let? report := map_err Malformed parsed in
  let? _ := check_format (format report) in
  Ok report.

Module ReportOps.

Definition new (suite subject : string) (outcomes : list CheckOutcome) : Report :=
  mkReport FORMAT suite subject outcomes.

Definition count (pred : Verdict → bool) (r : Report) : Z :=
  len (base.filter (λ o, pred (verdict o) = true) (outcomes r)).
Definition passed : Report → Z := count (λ v, match v with Pass => true | _ => false end).
Definition failed : Report → Z := count (λ v, match v with Fail _ => true | _ => false end).
Definition skipped : Report → Z := count (λ v, match v with Skipped _ => true | _ => false end).
Definition errored : Report → Z := count (λ v, match v with Error _ => true | _ => false end).

Definition is_conformant (r : Report) : bool := failed r =? 0.

Definition verdict_of (name : string) (r : Report) : option Verdict :=
  verdict <$> List.find (λ o, String.eqb (id o) name) (outcomes r).

(** [collect] into a map: the last outcome of an id is kept. *)
Definition to_baseline (r : Report) : Baseline :=
  mkBaseline (format r) (suite r)
    (foldl (λ m o, <[id o := status_of (verdict o)]> m) ∅ (outcomes r)).

Definition diff_outcome (baseline : Baseline) (o : CheckOutcome) : list BaselineDiff :=
  match verdict o with
  | Error details => [Infrastructure (id o) details]
  | _ =>
      let actual := status_of (verdict o) in
      match checks baseline !! id o with
      | None => [NotInBaseline (id o) actual]
      | Some expected => if decide (expected ≠ actual) then [Regression (id o) expected actual] else []
      end
  end.

Definition diff_against (baseline : Baseline) (r : Report) : list BaselineDiff :=
  concat (diff_outcome baseline <$> outcomes r) ++
  concat ((λ e, if existsb (λ o, String.eqb (id o) e.1) (outcomes r) then []
                else [RemovedCheck e.1 e.2]) <$> into_iter (checks baseline)).

End ReportOps.
Import ReportOps.

(** ** The command *)

Inductive ExitCode : Type := SUCCESS | FAILURE | USAGE.

(** [read] is what reading the baseline's file and [Baseline::from_json] give. *)
Definition exit_status (r : Report) (read : option (result FileError Baseline)) : ExitCode :=
  match read with
  | None => if 0 <? errored r then FAILURE else if is_conformant r then SUCCESS else FAILURE
  | Some (Err _) => FAILURE
  | Some (Ok baseline) => match diff_against baseline r with [] => SUCCESS | _ => FAILURE end
  end.

(** [checks/client.rs] *)
Inductive HarnessFault : Type := LeaderMove | RejectSaslToken | UnknownTaggedField | Throttle.
#[global] Instance HarnessFault_eq_dec : EqDecision HarnessFault.
Proof. solve_decision. Defined.

Record Args : Type := mkArgs {
  server : option string;
  sasl_server : option string;
  cluster_control : option string;
  authenticate : option string;
  tls_ca : option string;
  tls_name : option string;
  client_listen : option string;
  list_ : bool;
  fault : option HarnessFault;
  json : bool;
  baseline : option string;
  write_baseline : option string;
}.

Definition no_args : Args :=
  mkArgs None None None None None None None false None false None None.

Definition fault_named (name : string) : option HarnessFault :=
  if String.eqb name "leader-move" then Some LeaderMove
  else if String.eqb name "throttle" then Some Throttle
  else if String.eqb name "unknown-tagged-field" then Some UnknownTaggedField
  else if String.eqb name "reject-sasl-token" then Some RejectSaslToken
  else None.

(** The arm of an option that takes a value; [None] is no option, or one whose value
    is refused. *)
Definition valued (arg value : string) (a : Args) : option Args :=
  let 'mkArgs server sasl control auth ca name listen l f j b w := a in
  if String.eqb arg "--server" then Some (mkArgs (Some value) sasl control auth ca name listen l f j b w)
  else if String.eqb arg "--sasl-server" then Some (mkArgs server (Some value) control auth ca name listen l f j b w)
  else if String.eqb arg "--cluster-control" then Some (mkArgs server sasl (Some value) auth ca name listen l f j b w)
  else if String.eqb arg "--authenticate" then Some (mkArgs server sasl control (Some value) ca name listen l f j b w)
  else if String.eqb arg "--tls-ca" then Some (mkArgs server sasl control auth (Some value) name listen l f j b w)
  else if String.eqb arg "--tls-name" then Some (mkArgs server sasl control auth ca (Some value) listen l f j b w)
  else if String.eqb arg "--client-listen" then Some (mkArgs server sasl control auth ca name (Some value) l f j b w)
  else if String.eqb arg "--fault" then
    match fault_named value with
    | Some fault => Some (mkArgs server sasl control auth ca name listen l (Some fault) j b w)
    | None => None
    end
  else if String.eqb arg "--baseline" then Some (mkArgs server sasl control auth ca name listen l f j (Some value) w)
  else if String.eqb arg "--write-baseline" then Some (mkArgs server sasl control auth ca name listen l f j b (Some value))
  else None.

Fixpoint parse_loop (args : list string) (a : Args) : option Args :=
  match args with
  | [] => Some a
  | arg :: args =>
      let 'mkArgs server sasl control auth ca name listen l f j b w := a in
      if String.eqb arg "--list" then parse_loop args (mkArgs server sasl control auth ca name listen true f j b w)
      else if String.eqb arg "--json" then parse_loop args (mkArgs server sasl control auth ca name listen l f true b w)
      else
        match args with
        | [] => None
        | value :: args => match valued arg value a with Some a => parse_loop args a | None => None end
        end
  end.

(** [Option::is_none]. *)
Definition is_none {A} (o : option A) : bool := match o with None => true | Some _ => false end.

Definition parse_args (args : list string) : option Args :=
  match parse_loop args no_args with
  | None => None
  | Some parsed =>
      if list_ parsed then
        let alone := is_none (server parsed) && is_none (client_listen parsed) && is_none (fault parsed) &&
          is_none (cluster_control parsed) && is_none (authenticate parsed) && is_none (tls_ca parsed) &&
          is_none (tls_name parsed) && negb (json parsed) && is_none (baseline parsed) &&
          is_none (write_baseline parsed) in
        if alone then Some parsed else None
      else if Bool.eqb (negb (is_none (server parsed))) (negb (is_none (client_listen parsed))) then None
      else if negb (is_none (fault parsed)) && is_none (client_listen parsed) then None
      else Some parsed
  end.

(** ** Facts *)

Lemma to_baseline_lookup os : ∀ (m : gmap string BaselineStatus) k,
  foldl (λ m o, <[id o := status_of (verdict o)]> m) m os !! k =
  match List.find (λ o, String.eqb (id o) k) (reverse os) with
  | Some o => Some (status_of (verdict o))
  | None => m !! k
  end.
Proof.
  induction os as [|o os IH] using rev_ind; intros m k; [done|].
  rewrite foldl_app, reverse_snoc. cbn [foldl List.find].
  destruct (String.eqb_spec (id o) k) as [->|Hne]; [by rewrite lookup_insert_eq|].
  by rewrite lookup_insert_ne, IH by done.
Qed.

Lemma find_id os o : NoDup (id <$> os) → o ∈ os → List.find (λ x, String.eqb (id x) (id o)) os = Some o.
Proof.
  induction os as [|x os IH]; [by intros _ ?%not_elem_of_nil|].
  rewrite fmap_cons. intros [Hx Hn]%NoDup_cons [->|Ho]%elem_of_cons; cbn [List.find].
  { by rewrite String.eqb_refl. }
  destruct (String.eqb_spec (id x) (id o)) as [E|_]; [|by apply IH].
  destruct Hx. rewrite E. by apply list_elem_of_fmap_2.
Qed.

Lemma find_id_none os k : k ∉ (id <$> os) → List.find (λ x, String.eqb (id x) k) os = None.
Proof.
  induction os as [|x os IH]; [done|]. rewrite fmap_cons. intros [Hx Hk]%not_elem_of_cons.
  cbn [List.find]. destruct (String.eqb_spec (id x) k) as [E|_]; [congruence|by apply IH].
Qed.

Lemma to_baseline_spec r o :
  NoDup (id <$> outcomes r) → o ∈ outcomes r →
  checks (to_baseline r) !! id o = Some (status_of (verdict o)).
Proof.
  intros Hn Ho. unfold to_baseline. cbn [checks]. rewrite to_baseline_lookup.
  rewrite find_id; [done| |].
  - by rewrite fmap_reverse, reverse_Permutation.
  - by rewrite reverse_Permutation.
Qed.

Lemma ran_spec os k : existsb (λ o, String.eqb (id o) k) os = true ↔ k ∈ (id <$> os).
Proof.
  rewrite existsb_exists. split.
  - intros (o & Hin & <-%String.eqb_eq). by apply list_elem_of_fmap_2, list_elem_of_In.
  - intros (o & -> & Hin)%list_elem_of_fmap. exists o. by rewrite <- list_elem_of_In, String.eqb_refl.
Qed.

Lemma to_baseline_key r k status : checks (to_baseline r) !! k = Some status → k ∈ (id <$> outcomes r).
Proof.
  unfold to_baseline. cbn [checks]. rewrite to_baseline_lookup.
  destruct (List.find _ _) as [o|] eqn:Ef; [|done]. apply find_some in Ef as [Hin <-%String.eqb_eq].
  intros _. apply list_elem_of_fmap_2. rewrite <- list_elem_of_In, reverse_Permutation in Hin. exact Hin.
Qed.

Lemma concat_empty {A} (ls : list (list A)) : concat ls = [] ↔ Forall (λ l, l = []) ls.
Proof. induction ls as [|l ls IH]; [done|]. cbn [concat]. by rewrite Forall_cons, app_nil, IH. Qed.

Lemma elem_of_into_iter {A} (m : gmap string A) k x : (k, x) ∈ into_iter m ↔ m !! k = Some x.
Proof. unfold into_iter. by rewrite merge_sort_Permutation, elem_of_map_to_list. Qed.

Lemma diff_outcome_empty baseline o :
  diff_outcome baseline o = [] ↔
  (∀ details, verdict o ≠ Error details) ∧ checks baseline !! id o = Some (status_of (verdict o)).
Proof.
  unfold diff_outcome.
  assert (match checks baseline !! id o with
    | None => [NotInBaseline (id o) (status_of (verdict o))]
    | Some expected => if decide (expected ≠ status_of (verdict o))
        then [Regression (id o) expected (status_of (verdict o))] else []
    end = [] ↔ checks baseline !! id o = Some (status_of (verdict o))) as H.
  { destruct (checks baseline !! id o) as [s|]; [|done]. case_decide as Hd; [naive_solver|].
    destruct (decide (s = status_of (verdict o))) as [->|]; [done|tauto]. }
  destruct (verdict o) eqn:Ev; cbv zeta; [rewrite H; naive_solver..|]. split; [done|].
  intros [Hn _]. by destruct (Hn details).
Qed.

Lemma diff_empty baseline r :
  diff_against baseline r = [] ↔
  (∀ o, o ∈ outcomes r → (∀ details, verdict o ≠ Error details) ∧
     checks baseline !! id o = Some (status_of (verdict o))) ∧
  (∀ k status, checks baseline !! k = Some status → k ∈ (id <$> outcomes r)).
Proof.
  unfold diff_against. rewrite app_nil, !concat_empty, !Forall_fmap, !Forall_forall.
  apply Morphisms_Prop.and_iff_morphism.
  - split; intros H o Ho; apply diff_outcome_empty, H, Ho.
  - unfold compose. split.
    + intros H k status E. specialize (H (k, status)). cbn [fst snd] in H. apply ran_spec.
      destruct (existsb _ _); [done|]. by apply elem_of_into_iter, H in E.
    + intros H [k status] E%elem_of_into_iter. cbn [fst snd]. by rewrite (proj2 (ran_spec _ _) (H _ _ E)).
Qed.

Lemma errored_none r : errored r = 0 ↔ ∀ o, o ∈ outcomes r → ∀ details, verdict o ≠ Error details.
Proof.
  unfold errored, count. rewrite (Nat2Z.inj_iff _ 0), length_zero_iff_nil. split.
  - intros E o Ho details Hv.
    assert (o ∈ base.filter (λ o, match verdict o with Error _ => true | _ => false end = true) (outcomes r)) as H
      by (apply list_elem_of_filter; by rewrite Hv).
    rewrite E in H. by apply not_elem_of_nil in H.
  - intros H. apply elem_of_nil_inv. intros o [Hv Ho]%list_elem_of_filter.
    destruct (verdict o) eqn:E; try done. by destruct (H o Ho details).
Qed.

(** ** Properties *)

(** A run over distinct checks matches a baseline exactly when every check could run
    and the baseline is the reduction of the run, check by check; then and only then
    the command succeeds against it.  Without one it succeeds exactly when every
    check could run and none failed. *)
Theorem baselines_match_exactly (r : Report) (baseline : Baseline) :
  NoDup (id <$> outcomes r) →
  (exit_status r (Some (Ok baseline)) = SUCCESS ↔
     errored r = 0 ∧ checks baseline = checks (to_baseline r)) ∧
  (exit_status r None = SUCCESS ↔ errored r = 0 ∧ failed r = 0) ∧
  (diff_against (to_baseline r) r = [] ↔ errored r = 0).
Proof.
  intros Hn.
  assert (diff_against baseline r = [] ↔ errored r = 0 ∧ checks baseline = checks (to_baseline r)) as H.
  { rewrite diff_empty, errored_none. split.
    - intros [Ho Hk]. split; [intros o Hin; by apply Ho|]. apply map_eq. intros k.
      destruct (checks baseline !! k) as [status|] eqn:E.
      + pose proof (Hk k status E) as (o & -> & Hin)%list_elem_of_fmap.
        destruct (Ho o Hin) as [_ Eo]. by rewrite (to_baseline_spec r o Hn Hin), <- E.
      + unfold to_baseline. cbn [checks]. rewrite to_baseline_lookup, find_id_none; [done|].
        intros (o & -> & Hin)%list_elem_of_fmap. rewrite reverse_Permutation in Hin.
        destruct (Ho o Hin) as [_ Eo]. congruence.
    - intros [He E]. rewrite E. split.
      + intros o Hin. split; [by apply He|by apply to_baseline_spec].
      + apply to_baseline_key. }
  split; [|split].
  - rewrite <- H. unfold exit_status. by destruct (diff_against baseline r).
  - unfold exit_status, is_conformant. assert (0 ≤ errored r) by (unfold errored, count; lia).
    destruct (Z.ltb_spec 0 (errored r)); [split; [done|lia]|].
    destruct (Z.eqb_spec (failed r) 0); naive_solver lia.
  - pose proof (to_baseline_spec r) as Hs. rewrite diff_empty, errored_none. split; [naive_solver|].
    intros He. split; [intros o Hin; split; [by apply He|by apply Hs]|apply to_baseline_key].
Qed.

(** Arguments that are accepted name exactly one subject, or ask for the list; and a
    fault only goes with a client.  But [--list] need not stand alone: a SASL
    listener beside it is accepted and ignored. *)
Theorem arguments_name_one_subject (args : list string) (a : Args) :
  parse_args args = Some a →
  (list_ a = true ∧ server a = None ∧ client_listen a = None ∧ fault a = None ∧ baseline a = None ∨
   list_ a = false ∧ (is_Some (server a) ∧ client_listen a = None ∧ fault a = None ∨
     server a = None ∧ is_Some (client_listen a))) ∧
  parse_args ["--list"; "--sasl-server"; "localhost:9094"] ≠ None.
Proof.
  intros E. split; [|vm_compute; discriminate]. unfold parse_args in E.
  destruct (parse_loop args no_args) as [p|]; [|done]. destruct (list_ p) eqn:El.
  - destruct (_ && _) eqn:Ea; [|done]. injection E as <-. left. rewrite !andb_true_iff in Ea.
    destruct (server p), (client_listen p), (fault p), (baseline p); cbn in Ea; naive_solver.
  - destruct (server p) eqn:Es, (client_listen p) eqn:Ec; cbn in E; try done.
    + destruct (fault p) eqn:Ef; cbn in E; [done|]. injection E as <-. naive_solver.
    + rewrite andb_false_r in E. injection E as <-. right. naive_solver.
Qed.

(** *** Witnesses *)

Definition sample_run : Report :=
  new "0.1.0" "server localhost:9092"
    [mkCheckOutcome "api-versions/v0-basic" "answers" Pass;
     mkCheckOutcome "produce/acks-zero" "stays silent" (Fail "answered")].

Lemma baselines_match_exactly_witness :
  exit_status sample_run (Some (Ok (mkBaseline 1 "0.0.9"
    {["produce/acks-zero" := StatusFail; "api-versions/v0-basic" := StatusPass]}))) = SUCCESS ∧
  exit_status sample_run None ≠ SUCCESS.
Proof.
  assert (NoDup (id <$> outcomes sample_run)) as Hn by (apply (bool_decide_unpack _); vm_compute; exact I).
  destruct (baselines_match_exactly sample_run (mkBaseline 1 "0.0.9"
    {["produce/acks-zero" := StatusFail; "api-versions/v0-basic" := StatusPass]}) Hn) as (H1 & H2 & _).
  split.
  - apply H1. split; [reflexivity|]. vm_compute. reflexivity.
  - rewrite H2. vm_compute. intros [_ H]. discriminate.
Defined.

Lemma arguments_name_one_subject_witness :
  ∃ a, parse_args ["--client-listen"; "127.0.0.1:19092"; "--fault"; "throttle"; "--json"] = Some a ∧
    is_Some (client_listen a) ∧ server a = None.
Proof.
  eexists. split; [vm_compute; reflexivity|].
  destruct (arguments_name_one_subject ["--client-listen"; "127.0.0.1:19092"; "--fault"; "throttle"; "--json"] _
    ltac:(vm_compute; reflexivity)) as [[(H & _)|(_ & [(_ & H & _)|(Hs & Hc)])] _]; [discriminate H|discriminate H|].
  split; [exact Hc|exact Hs].
Defined.
