(* ===== verification/ClientChecks.v ===== *)
(** * The client harness ([odradek-acceptance/src/checks/client.rs])

    The half of the acceptance suite that plays a small cluster for a client under
    test: what it makes of each frame, how it answers it, and the checks that judge
    the recorded session.  The state behind the harness's mutexes is [ClusterView];
    each answer is one step of it.  The texts of the protocol errors are a
    parameter, times are arguments; the listeners, their tasks and the wait for
    the client to finish are not modelled. *)
From S2P Require Import Prelude Text Budget Codec Wire Frame Fields MessageTrait MsgConnection MsgTxn MsgOffset MsgMetadata MsgFetch MsgProduce Registry Report.
Import BudgetOps.
Import request_header response_header.

Abbreviation ApiVersionsRequest := api_versions_request.ApiVersionsRequest.t.
Abbreviation ProduceRequest := produce_request.ProduceRequest.t.
Abbreviation InitProducerIdRequest := init_producer_id_request.InitProducerIdRequest.t.
Abbreviation SaslHandshakeRequest := sasl_handshake_request.SaslHandshakeRequest.t.
Abbreviation SaslAuthenticateRequest := sasl_authenticate_request.SaslAuthenticateRequest.t.
Abbreviation FetchRequest := fetch_request.FetchRequest.t.
Abbreviation MetadataRequest := metadata_request.MetadataRequest.t.
Abbreviation ListOffsetsRequest := list_offsets_request.ListOffsetsRequest.t.

Definition key (M : Type) `{Message M} : Z := Message.API_KEY (M := M).
Definition advertise (M : Type) `{Message M} : Z * Z * Z :=
  (Message.API_KEY (M := M), Message.MIN_VERSION (M := M), Message.MAX_VERSION (M := M)).

(** Api key, oldest and newest version of each api the harness offers. *)
Definition ADVERTISED : list (Z * Z * Z) :=
  [advertise ApiVersionsRequest; advertise ProduceRequest; advertise InitProducerIdRequest;
   advertise SaslHandshakeRequest; advertise SaslAuthenticateRequest; advertise FetchRequest;
   advertise MetadataRequest; advertise ListOffsetsRequest].
Definition MAX_API_VERSIONS : Z := Message.MAX_VERSION (M := ApiVersionsRequest).
Definition BROKER_COUNT : Z := 3.
Definition ROUTING_TOPIC : string := "odradek-routing".
Definition ROUTING_TOPIC_ID : list byte := str_bytes "odradek-routing!".
Definition THROTTLE_MS : Z := 400.
Definition PRODUCE_THROTTLE_MIN : Z := 1.
Definition FETCH_THROTTLE_MIN : Z := 1.
Definition METADATA_THROTTLE_MIN : Z := 3.
Definition METADATA_FLEXIBLE_MIN : Z := 9.
Definition API_VERSIONS_FLEXIBLE_MIN : Z := 3.
Definition UNKNOWN_TAG : Z := 60000.
Definition SASL_HANDSHAKE_API : Z := 17.
Definition SASL_AUTHENTICATE_API : Z := 36.
Definition OFFERED_MECHANISM : string := "OAUTHBEARER".

Record Observation : Type := mkObservation {
  node_id : Z;
  conn_id : Z;
  index : Z;
  at_ms : Z;
  api_key : Z;
  api_version : Z;
  header : option RequestHeader.t;
  header_error : option string;
  body_error : option string;
  body_exempt : bool;
  routes : list (string * Z);
  sasl_mechanism : option string;
}.

Record FaultEvent : Type := mkFaultEvent { partition : Z; to_node : Z }.

Record Session : Type := mkSession {
  observations : list Observation;
  staged : option HarnessFault;
  events : list FaultEvent;
  sasl_rejections : list (Z * Z);
  throttles : list (Z * Z * Z);
  tagged : list (Z * Z);
}.

(** ** Reading a frame *)

Definition dec_str (z : Z) : string := bytes_str (decimal.print z).

Section harness.
Context {R : Runtime}.
(** [Display] of a [DecodeError], and [{:02x?}] of a topic id. *)
Context (show : DecodeError → string) (debug_id : list byte → string).

(** Map a request's topic reference back to a name. *)
Definition resolve_topic (name : string) (topic_id : list byte) : string :=
  if negb (String.eqb name "") then name
  else if bool_decide (topic_id = ROUTING_TOPIC_ID) then ROUTING_TOPIC
  else "<topic id " +:+ debug_id topic_id +:+ ">".

Definition decode_fully (M : Type) `{Message M} (buf : list byte) (version : Z) : result string M :=
  match Message.decode version buf with
  | Err e => Err ("body: " +:+ show e)
  | Ok (v, rest) =>
      if negb (len rest =? 0) then
        Err ("body leaves " +:+ dec_str (len rest) +:+ " undecoded trailing byte(s)")
      else Ok v
  end.

Definition salvage_header (frame : list byte) : option RequestHeader.t :=
  match RequestHeader.decode 2 frame with
  | Ok (h, _) => Some h
  | Err _ => match RequestHeader.decode 1 frame with Ok (h, _) => Some h | Err _ => None end
  end.

Definition produce_routes (req : ProduceRequest) : list (string * Z) :=
  concat ((λ topic,
    let name := resolve_topic (produce_request.TopicProduceData.name topic)
                  (produce_request.TopicProduceData.topic_id topic) in
    (λ p, (name, produce_request.PartitionProduceData.index p)) <$>
      produce_request.TopicProduceData.partition_data topic)
    <$> produce_request.ProduceRequest.topic_data req).

Definition fetch_routes (req : FetchRequest) : list (string * Z) :=
  concat ((λ topic,
    let name := resolve_topic (fetch_request.FetchTopic.topic topic) (fetch_request.FetchTopic.topic_id topic) in
    (λ p, (name, fetch_request.FetchPartition.partition p)) <$> fetch_request.FetchTopic.partitions topic)
    <$> fetch_request.FetchRequest.topics req).

Definition list_offsets_routes (req : ListOffsetsRequest) : list (string * Z) :=
  concat ((λ topic,
    (λ p, (list_offsets_request.ListOffsetsTopic.name topic,
           list_offsets_request.ListOffsetsPartition.partition_index p))
      <$> list_offsets_request.ListOffsetsTopic.partitions topic)
    <$> list_offsets_request.ListOffsetsRequest.topics req).

(** What the body says: its error, whether it is exempt, its routes and mechanism. *)
Definition body_of (api_key api_version : Z) (buf : list byte) :
    option string * bool * list (string * Z) * option string :=
  if api_key =? key ApiVersionsRequest then
    if MAX_API_VERSIONS <? api_version then (None, true, [], None)
    else match decode_fully ApiVersionsRequest buf api_version with
         | Err e => (Some e, false, [], None) | Ok _ => (None, false, [], None) end
  else if api_key =? key ProduceRequest then
    match decode_fully ProduceRequest buf api_version with
    | Err e => (Some e, false, [], None) | Ok req => (None, false, produce_routes req, None) end
  else if api_key =? key FetchRequest then
    match decode_fully FetchRequest buf api_version with
    | Err e => (Some e, false, [], None) | Ok req => (None, false, fetch_routes req, None) end
  else if api_key =? key MetadataRequest then
    match decode_fully MetadataRequest buf api_version with
    | Err e => (Some e, false, [], None) | Ok _ => (None, false, [], None) end
  else if api_key =? key ListOffsetsRequest then
    match decode_fully ListOffsetsRequest buf api_version with
    | Err e => (Some e, false, [], None) | Ok req => (None, false, list_offsets_routes req, None) end
  else if api_key =? SASL_HANDSHAKE_API then
    match decode_fully SaslHandshakeRequest buf api_version with
    | Err e => (Some e, false, [], None)
    | Ok req => (None, false, [], Some (sasl_handshake_request.SaslHandshakeRequest.mechanism req)) end
  else (None, true, [], None).

Definition parse_request (node_id conn_id index at_ms : Z) (frame : list byte) : Observation :=
  if len frame <? 8 then
    mkObservation node_id conn_id index at_ms (-1) (-1) None
      (Some ("frame of " +:+ dec_str (len frame) +:+ " byte(s) cannot hold a header")) None true [] None
  else
    let api_key := sint 16 (be_val (take 2 frame)) in
    let api_version := sint 16 (be_val (take 2 (drop 2 frame))) in
    let known_probe_version :=
      if api_key =? key ApiVersionsRequest then Z.min api_version MAX_API_VERSIONS else api_version in
    match request_header_version api_key known_probe_version with
    | Some hv =>
        match RequestHeader.decode hv frame with
        | Ok (h, buf) =>
            let '(body_error, body_exempt, routes, mechanism) := body_of api_key api_version buf in
            mkObservation node_id conn_id index at_ms api_key api_version (Some h) None
              body_error body_exempt routes mechanism
        | Err e =>
            mkObservation node_id conn_id index at_ms api_key api_version (salvage_header frame)
              (Some ("header (v" +:+ dec_str hv +:+ "): " +:+ show e)) None true [] None
        end
    | None =>
        mkObservation node_id conn_id index at_ms api_key api_version (salvage_header frame) None None true [] None
    end.

End harness.

(** ** The impersonated cluster *)

Record ClusterView : Type := mkClusterView {
  ports : list Z;
  view_fault : option HarnessFault;
  leaders : list Z;
  view_events : list FaultEvent;
  view_rejections : list (Z * Z);
  view_throttles : list (Z * Z * Z);
  view_tagged : list (Z * Z);
  negotiated : gset Z;
}.

Definition set_leaders (l : list Z) (es : list FaultEvent) (v : ClusterView) : ClusterView :=
  mkClusterView (ports v) (view_fault v) l es (view_rejections v) (view_throttles v) (view_tagged v) (negotiated v).
Definition push_rejection (r : Z * Z) (v : ClusterView) : ClusterView :=
  mkClusterView (ports v) (view_fault v) (leaders v) (view_events v) (view_rejections v ++ [r])
    (view_throttles v) (view_tagged v) (negotiated v).
Definition push_throttle (t : Z * Z * Z) (v : ClusterView) : ClusterView :=
  mkClusterView (ports v) (view_fault v) (leaders v) (view_events v) (view_rejections v)
    (view_throttles v ++ [t]) (view_tagged v) (negotiated v).
Definition push_tagged (t : Z * Z) (v : ClusterView) : ClusterView :=
  mkClusterView (ports v) (view_fault v) (leaders v) (view_events v) (view_rejections v)
    (view_throttles v) (view_tagged v ++ [t]) (negotiated v).
Definition add_negotiated (c : Z) (v : ClusterView) : ClusterView :=
  mkClusterView (ports v) (view_fault v) (leaders v) (view_events v) (view_rejections v)
    (view_throttles v) (view_tagged v) ({[c]} ∪ negotiated v).

(** What [run] starts from. *)
Definition new_view (ports : list Z) (fault : option HarnessFault) : ClusterView :=
  mkClusterView ports fault (seqZ 0 BROKER_COUNT) [] [] [] [] ∅.

(** The slot of a partition, if it has a leader. *)
Definition slot_of (partition : Z) (v : ClusterView) : option nat :=
  match try_from 0 usize_max partition with
  | Some p => if p <? len (leaders v) then Some (Z.to_nat p) else None
  | None => None
  end.

Definition produce_error (partition_ node_id : Z) (v : ClusterView) : Z * ClusterView :=
  match slot_of partition_ v with
  | None => (error_code.UNKNOWN_TOPIC_OR_PARTITION, v)
  | Some slot =>
      if negb (default (-1) (leaders v !! slot) =? node_id) then (error_code.NOT_LEADER_OR_FOLLOWER, v)
      else if bool_decide (view_fault v = Some LeaderMove) then
        let already_moved := existsb (λ e, partition e =? partition_) (view_events v) in
        if negb already_moved then
          let to_node := Z.rem (node_id + 1) BROKER_COUNT in
          (error_code.NOT_LEADER_OR_FOLLOWER,
           set_leaders (<[slot := to_node]> (leaders v)) (view_events v ++ [mkFaultEvent partition_ to_node]) v)
        else (0, v)
      else (0, v)
  end.

Definition fetch_error (partition node_id : Z) (v : ClusterView) : Z :=
  match slot_of partition v with
  | Some slot =>
      if default (-1) (leaders v !! slot) =? node_id then 0 else error_code.NOT_LEADER_OR_FOLLOWER
  | None => error_code.UNKNOWN_TOPIC_OR_PARTITION
  end.

(** Stamp a throttle on a response sent [now], and record it. *)
Definition throttle_for (conn_id index now : Z) (supported : bool) (v : ClusterView) : Z * ClusterView :=
  if negb supported || negb (bool_decide (view_fault v = Some Throttle)) then (0, v)
  else (THROTTLE_MS, push_throttle (conn_id, index, now) v).

Definition from_the_future : RawTaggedField :=
  mkRawTaggedField UNKNOWN_TAG (str_bytes "from a newer broker").

(** The response, and the view it leaves; [tag] is the connection and index of the
    request it may mark. *)
Definition encode_api_versions (error_code version : Z) (tag : option (Z * Z)) (v : ClusterView) :
    list byte * ClusterView :=
  let '(fields, v) :=
    match tag with
    | Some at_ =>
        if bool_decide (view_fault v = Some UnknownTaggedField) && (API_VERSIONS_FLEXIBLE_MIN <=? version) then
          ([from_the_future], push_tagged at_ v)
        else ([], v)
    | None => ([], v)
    end in
  let resp := api_versions_response.ApiVersionsResponse.mk error_code
    ((λ '(k, lo, hi), api_versions_response.ApiVersion.mk k lo hi []) <$> ADVERTISED)
    0 None None None None fields in
  ((Message.encode version resp []).2, v).

Definition clamp (version : Z) (M : Type) `{Message M} : Z :=
  Z.min (Z.max version (Message.MIN_VERSION (M := M))) (Message.MAX_VERSION (M := M)).

(** [resp.encode] into a fresh buffer; [None] ends the answer. *)
Definition encoded (w : enc) : option (list byte) :=
  match w [] with (Ok _, body) => Some body | (Err _, _) => None end.

Definition header_of (api_key version : Z) : Z := default 0 (response_header_version api_key version).

(** [find] the topic's response and push, or append a new one. *)
Fixpoint push_topic {T E} (name_of : T → string) (add : E → T → T) (fresh : E → T) (topic : string) (entry : E)
    (ts : list T) : list T :=
  match ts with
  | [] => [fresh entry]
  | t :: ts =>
      if String.eqb (name_of t) topic then add entry t :: ts
      else t :: push_topic name_of add fresh topic entry ts
  end.

Definition topic_id_of (topic : string) : list byte :=
  if String.eqb topic ROUTING_TOPIC then ROUTING_TOPIC_ID else replicate 16 Byte.x00.

Fixpoint produce_entries (routes : list (string * Z)) (node_id : Z)
    (responses : list produce_response.TopicProduceResponse.t) (v : ClusterView) :
    list produce_response.TopicProduceResponse.t * ClusterView :=
  match routes with
  | [] => (responses, v)
  | (topic, partition) :: routes =>
      let '(error_code, v) :=
        if String.eqb topic ROUTING_TOPIC then produce_error partition node_id v
        else (error_code.UNKNOWN_TOPIC_OR_PARTITION, v) in
      let entry := produce_response.PartitionProduceResponse.mk partition error_code
        (if error_code =? 0 then 0 else -1) (-1) (-1) [] None None [] in
      let responses := push_topic produce_response.TopicProduceResponse.name
        (λ e t, produce_response.TopicProduceResponse.mk (produce_response.TopicProduceResponse.name t)
           (produce_response.TopicProduceResponse.topic_id t)
           (produce_response.TopicProduceResponse.partition_responses t ++ [e])
           (produce_response.TopicProduceResponse.unknown_tagged_fields t))
        (λ e, produce_response.TopicProduceResponse.mk topic (topic_id_of topic) [e] [])
        topic entry responses in
      produce_entries routes node_id responses v
  end.

Fixpoint list_offsets_entries (routes : list (string * Z)) (node_id : Z)
    (topics : list list_offsets_response.ListOffsetsTopicResponse.t) (v : ClusterView) :
    list list_offsets_response.ListOffsetsTopicResponse.t :=
  match routes with
  | [] => topics
  | (topic, partition) :: routes =>
      let error_code := if String.eqb topic ROUTING_TOPIC then fetch_error partition node_id v
                        else error_code.UNKNOWN_TOPIC_OR_PARTITION in
      let entry := list_offsets_response.ListOffsetsPartitionResponse.mk partition error_code (-1) 0 (-1) [] in
      list_offsets_entries routes node_id
        (push_topic list_offsets_response.ListOffsetsTopicResponse.name
          (λ e t, list_offsets_response.ListOffsetsTopicResponse.mk
             (list_offsets_response.ListOffsetsTopicResponse.name t)
             (list_offsets_response.ListOffsetsTopicResponse.partitions t ++ [e])
             (list_offsets_response.ListOffsetsTopicResponse.unknown_tagged_fields t))
          (λ e, list_offsets_response.ListOffsetsTopicResponse.mk topic [e] []) topic entry topics) v
  end.

Fixpoint fetch_entries (routes : list (string * Z)) (node_id : Z)
    (responses : list fetch_response.FetchableTopicResponse.t) (v : ClusterView) :
    list fetch_response.FetchableTopicResponse.t :=
  match routes with
  | [] => responses
  | (topic, partition) :: routes =>
      let error_code := if String.eqb topic ROUTING_TOPIC then fetch_error partition node_id v
                        else error_code.UNKNOWN_TOPIC_OR_PARTITION in
      let entry := fetch_response.PartitionData.mk partition error_code 0 0 0 (Some []) (-1) (Some []) None None None [] in
      fetch_entries routes node_id
        (push_topic fetch_response.FetchableTopicResponse.topic
          (λ e t, fetch_response.FetchableTopicResponse.mk (fetch_response.FetchableTopicResponse.topic t)
             (fetch_response.FetchableTopicResponse.topic_id t)
             (fetch_response.FetchableTopicResponse.partitions t ++ [e])
             (fetch_response.FetchableTopicResponse.unknown_tagged_fields t))
          (λ e, fetch_response.FetchableTopicResponse.mk topic (topic_id_of topic) [e] []) topic entry responses) v
  end.

Definition metadata_answer (throttle : Z) (fields : list RawTaggedField) (v : ClusterView) :
    metadata_response.MetadataResponse.t :=
  let brokers := imap (λ i port, metadata_response.MetadataResponseBroker.mk
    (default 0 (try_from i32_min i32_max (Z.of_nat i))) "127.0.0.1" port None []) (ports v) in
  let partitions := imap (λ i leader, metadata_response.MetadataResponsePartition.mk 0
    (default 0 (try_from i32_min i32_max (Z.of_nat i))) leader (-1) [leader] [leader] [] []) (leaders v) in
  let topic := metadata_response.MetadataResponseTopic.mk 0 (Some ROUTING_TOPIC) ROUTING_TOPIC_ID false
    partitions (-2147483648) [] in
  metadata_response.MetadataResponse.mk throttle brokers (Some "odradek-harness") 0 [topic] (-2147483648) 0 fields.

(** [Answering]'s fields but the header, and the broker that was asked. *)
Record Asked : Type := mkAsked {
  asked_routes : list (string * Z);
  asked_conn : Z;
  asked_index : Z;
  asked_mechanism : option string;
  asked_node : Z;
}.

(** The body and the header version of an answer; [None] is silence. *)
Definition answer_body (api_key api_version now : Z) (q : Asked) (v : ClusterView) :
    option (list byte * Z) * ClusterView :=
  if api_key =? key ApiVersionsRequest then
    if MAX_API_VERSIONS <? api_version then
      let '(body, v) := encode_api_versions error_code.UNSUPPORTED_VERSION 0 None v in (Some (body, 0), v)
    else
      let '(body, v) := encode_api_versions 0 api_version (Some (asked_conn q, asked_index q)) v in
      (Some (body, 0), v)
  else if api_key =? key MetadataRequest then
    let version := clamp api_version MetadataRequest in
    let '(fields, v) :=
      if bool_decide (view_fault v = Some UnknownTaggedField) && (METADATA_FLEXIBLE_MIN <=? version) then
        ([from_the_future], push_tagged (asked_conn q, asked_index q) v)
      else ([], v) in
    let '(throttle, v) := throttle_for (asked_conn q) (asked_index q) now (METADATA_THROTTLE_MIN <=? version) v in
    ((λ body, (body, header_of api_key version)) <$>
       encoded (Message.encode version (metadata_answer throttle fields v)), v)
  else if api_key =? SASL_HANDSHAKE_API then
    let version := clamp api_version SaslHandshakeRequest in
    let '(error_code, v) :=
      if bool_decide (asked_mechanism q = Some OFFERED_MECHANISM) then (0, add_negotiated (asked_conn q) v)
      else (error_code.UNSUPPORTED_SASL_MECHANISM, v) in
    ((λ body, (body, header_of api_key version)) <$>
       encoded (Message.encode version
         (sasl_handshake_response.SaslHandshakeResponse.mk error_code [OFFERED_MECHANISM] [])), v)
  else if api_key =? SASL_AUTHENTICATE_API then
    let version := clamp api_version SaslAuthenticateRequest in
    let '(auth_bytes, v) :=
      if bool_decide (asked_conn q ∈ negotiated v) && bool_decide (view_fault v = Some RejectSaslToken) &&
         negb (existsb (λ r, r.1 =? asked_conn q) (view_rejections v)) then
        (str_bytes "{" ++ [byte_of_Z 34] ++ str_bytes "status" ++ [byte_of_Z 34] ++ str_bytes ":" ++
           [byte_of_Z 34] ++ str_bytes "invalid_token" ++ [byte_of_Z 34] ++ str_bytes "}",
         push_rejection (asked_conn q, asked_index q) v)
      else ([], v) in
    ((λ body, (body, header_of api_key version)) <$>
       encoded (Message.encode version
         (sasl_authenticate_response.SaslAuthenticateResponse.mk 0 (Some "") auth_bytes 0 [])), v)
  else if api_key =? key InitProducerIdRequest then
    let version := clamp api_version InitProducerIdRequest in
    ((λ body, (body, header_of api_key version)) <$>
       encoded (Message.encode version
         (init_producer_id_response.InitProducerIdResponse.mk 0 0 1000 0 (-1) (-1) [])), v)
  else if api_key =? key ProduceRequest then
    let version := clamp api_version ProduceRequest in
    let '(responses, v) := produce_entries (asked_routes q) (asked_node q) [] v in
    let '(throttle, v) := throttle_for (asked_conn q) (asked_index q) now (PRODUCE_THROTTLE_MIN <=? version) v in
    ((λ body, (body, header_of api_key version)) <$>
       encoded (Message.encode version (produce_response.ProduceResponse.mk responses throttle None [])), v)
  else if api_key =? key ListOffsetsRequest then
    let version := clamp api_version ListOffsetsRequest in
    ((λ body, (body, header_of api_key version)) <$>
       encoded (Message.encode version (list_offsets_response.ListOffsetsResponse.mk 0
         (list_offsets_entries (asked_routes q) (asked_node q) [] v) [])), v)
  else if api_key =? key FetchRequest then
    let version := clamp api_version FetchRequest in
    let responses := fetch_entries (asked_routes q) (asked_node q) [] v in
    let '(throttle, v) := throttle_for (asked_conn q) (asked_index q) now (FETCH_THROTTLE_MIN <=? version) v in
    ((λ body, (body, header_of api_key version)) <$>
       encoded (Message.encode version (fetch_response.FetchResponse.mk throttle 0 0 responses None [])), v)
  else (None, v).

(** What goes out for a request, and the view it leaves. *)
Definition respond (h : RequestHeader.t) (now : Z) (q : Asked) (v : ClusterView) : option (list byte) * ClusterView :=
  let '(answer, v) := answer_body (RequestHeader.request_api_key h) (RequestHeader.request_api_version h) now q v in
  match answer with
  | None => (None, v)
  | Some (body, header_version) =>
      (encoded (frame (ResponseHeader.encode header_version (ResponseHeader.mk (RequestHeader.correlation_id h) []) ;;
                       put_slice body)), v)
  end.

(** One turn of [serve_conn]: a frame that arrives is observed and answered. *)
Definition serve_frame {R : Runtime} (show : DecodeError → string) (debug_id : list byte → string)
    (node_id conn_id index at_ms now : Z) (frame : list byte) (v : ClusterView) :
    Observation * option (list byte) * ClusterView :=
  let obs := parse_request show debug_id node_id conn_id index at_ms frame in
  match header obs with
  | None => (obs, None, v)
  | Some h =>
      let '(out, v) := respond h now (mkAsked (routes obs) conn_id index (sasl_mechanism obs) node_id) v in
      (obs, out, v)
  end.

(** [ConnTracker]: connections handed out, and how many live; [close] says whether
    the last has gone. *)
Record ConnTracker : Type := mkConnTracker { next_id : Z; live : Z }.
Definition open_conn (t : ConnTracker) : Z * ConnTracker := (next_id t, mkConnTracker (next_id t + 1) (live t + 1)).
Definition close_conn (t : ConnTracker) : bool * ConnTracker := (live t =? 1, mkConnTracker (next_id t) (live t - 1)).

(** ** The checks *)

Definition SEP : string := "; ".
Definition join (parts : list string) : string := String.concat SEP parts.

Definition describe (o : Observation) : string :=
  "conn #" +:+ dec_str (conn_id o) +:+ " request #" +:+ dec_str (index o) +:+ " to broker " +:+
  dec_str (node_id o) +:+ " (api " +:+ dec_str (api_key o) +:+ " v" +:+ dec_str (api_version o) +:+ ")".

(** How most checks end: with no subject matter, without failures, or with them. *)
Definition judged (nothing : bool) (reason : string) (failures : list string) : Verdict :=
  if nothing then Skipped reason
  else match failures with [] => Pass | _ => Fail (join failures) end.

Definition silent (s : Session) : bool := match observations s with [] => true | _ => false end.

Definition header_well_formed (s : Session) : Verdict :=
  let failures := omap (λ o, (λ e, describe o +:+ ": " +:+ e) <$> header_error o) (observations s) in
  judged (silent s) "client sent no requests" failures.

Definition starts_with_api_versions (s : Session) : Verdict :=
  let failures := (λ o, describe o +:+ ": first request on the connection is not ApiVersions") <$>
    base.filter (λ o, api_key o ≠ key ApiVersionsRequest) (base.filter (λ o, index o = 0) (observations s)) in
  judged (silent s) "client sent no requests" failures.

(** The loop over the observations, with the ids seen on each connection. *)
Fixpoint reused_ids (obs : list Observation) (seen : gset (Z * Z)) : list string :=
  match obs with
  | [] => []
  | o :: obs =>
      match header o with
      | None => reused_ids obs seen
      | Some h =>
          let id := (conn_id o, RequestHeader.correlation_id h) in
          let rest := reused_ids obs ({[id]} ∪ seen) in
          if bool_decide (id ∈ seen) then
            (describe o +:+ " reuses correlation id " +:+ dec_str (RequestHeader.correlation_id h)) :: rest
          else rest
      end
  end.

Definition correlation_ids_unique (s : Session) : Verdict :=
  judged (silent s) "client sent no requests" (reused_ids (observations s) ∅).

Definition is_sasl_api (k : Z) : bool :=
  (k =? SASL_HANDSHAKE_API) || (k =? SASL_AUTHENTICATE_API) || (k =? key ApiVersionsRequest).

Definition after_request (conn index_ : Z) (s : Session) : list Observation :=
  base.filter (λ o, conn_id o = conn ∧ index_ < index o) (observations s).

Fixpoint heeds_each (rejections : list (Z * Z)) (s : Session) : Verdict :=
  match rejections with
  | [] => Pass
  | (conn, index_) :: rejections =>
      match List.find (λ o, negb (is_sasl_api (api_key o))) (after_request conn index_ s) with
      | Some bad =>
          Fail ("token refused on connection " +:+ dec_str conn +:+ ", then api " +:+ dec_str (api_key bad) +:+
            " was sent on it anyway: the client read a success-shaped refusal as success")
      | None => heeds_each rejections s
      end
  end.

Definition no_refusal : string := "no SASL token was refused in this session".

Definition heeds_sasl_rejection (s : Session) : Verdict :=
  match sasl_rejections s with
  | [] => Skipped no_refusal
  | rejections => heeds_each rejections s
  end.

Fixpoint acks_each (rejections : list (Z * Z)) (s : Session) : Verdict :=
  match rejections with
  | [] => Pass
  | (conn, index_) :: rejections =>
      if existsb (λ o, api_key o =? SASL_AUTHENTICATE_API) (after_request conn index_ s) then acks_each rejections s
      else Fail ("token refused on connection " +:+ dec_str conn +:+
        " and the client said nothing more, leaving the exchange open")
  end.

Definition acknowledges_sasl_rejection (s : Session) : Verdict :=
  match sasl_rejections s with
  | [] => Skipped no_refusal
  | rejections => acks_each rejections s
  end.

Definition version_violation (o : Observation) : option string :=
  match List.find (λ e, e.1.1 =? api_key o) ADVERTISED with
  | None => Some (describe o +:+ " uses an api key the harness never advertised")
  | Some (_, lo, hi) =>
      if (api_version o <? lo) || (hi <? api_version o) then
        Some (describe o +:+ " is outside the advertised " +:+ dec_str lo +:+ "-" +:+ dec_str hi)
      else None
  end.

Definition respects_advertised_versions (s : Session) : Verdict :=
  let applicable := base.filter (λ o, api_key o ≠ key ApiVersionsRequest) (observations s) in
  judged (match applicable with [] => true | _ => false end) "only ApiVersions requests observed"
    (omap version_violation applicable).

Definition body_decodes (s : Session) : Verdict :=
  let applicable := base.filter (λ o, body_exempt o = false) (observations s) in
  judged (match applicable with [] => true | _ => false end) "no checkable request bodies observed"
    (omap (λ o, (λ e, describe o +:+ ": " +:+ e) <$> body_error o) applicable).

Definition ever_led (s : Session) (partition_ node : Z) : bool :=
  (node =? partition_) || existsb (λ e, (partition e =? partition_) && (to_node e =? node)) (events s).

(** What an observation addresses of the routing topic. *)
Definition routed (o : Observation) : list Z :=
  (snd <$> base.filter (λ r, r.1 = ROUTING_TOPIC) (routes o)).

Definition routes_to_partition_leader (s : Session) : Verdict :=
  let addressed := concat ((λ o, (λ p, (o, p)) <$> routed o) <$> observations s) in
  judged (match addressed with [] => true | _ => false end) "no produce/fetch for the routing topic observed"
    ((λ a, describe a.1 +:+ " addresses " +:+ ROUTING_TOPIC +:+ "[" +:+ dec_str a.2 +:+ "], which broker " +:+
        dec_str (node_id a.1) +:+ " was never advertised as leading") <$>
     base.filter (λ a, ever_led s a.2 (node_id a.1) = false) addressed).

Definition redelivered (s : Session) (e : FaultEvent) : bool :=
  existsb (λ o, (node_id o =? to_node e) && existsb (λ p, p =? partition e) (routed o)) (observations s).

Definition recovers_from_leader_change (s : Session) : Verdict :=
  let unrecovered := (λ e, "after NOT_LEADER moved " +:+ ROUTING_TOPIC +:+ "[" +:+ dec_str (partition e) +:+
      "]'s leadership to broker " +:+ dec_str (to_node e) +:+ ", no produce/fetch ever reached it there") <$>
    base.filter (λ e, redelivered s e = false) (events s) in
  if negb (bool_decide (staged s = Some LeaderMove)) then Skipped "leader-move fault not armed"
  else judged (match events s with [] => true | _ => false end)
         "the client sent nothing that triggered the leader move" unrecovered.

Definition on_data_path (s : Session) (conn index_ : Z) : bool :=
  existsb (λ o, (conn_id o =? conn) && (index o =? index_) &&
    ((api_key o =? key ProduceRequest) || (api_key o =? key FetchRequest))) (observations s).

(** The middle of a pause that began at [sent_at]. *)
Definition enforced_from (sent_at : Z) : Z := sent_at + THROTTLE_MS / 2.
Definition enforced_until (sent_at : Z) : Z := sent_at + THROTTLE_MS - THROTTLE_MS / 8.

(** [inl] is a violation, [inr] whether something settled the pause. *)
Fixpoint throttled_after (data_path : bool) (sent_at : Z) (after : list Observation) (settled : bool) :
    Observation + bool :=
  match after with
  | [] => inr settled
  | o :: after =>
      if (enforced_from sent_at <=? at_ms o) && (at_ms o <? enforced_until sent_at) then inl o
      else throttled_after data_path sent_at after (settled || data_path && (enforced_until sent_at <=? at_ms o))
  end.

Fixpoint throttle_each (throttles : list (Z * Z * Z)) (s : Session) (settled : bool) : Verdict :=
  match throttles with
  | [] =>
      if settled then Pass
      else Skipped ("no throttled produce or fetch was followed by more traffic on that " +:+
        "connection once the pause elapsed, so nothing distinguishes a client " +:+
        "that waited from one that had already sent everything it had")
  | (conn, index_, sent_at) :: throttles =>
      match throttled_after (on_data_path s conn index_) sent_at (after_request conn index_ s) settled with
      | inl o =>
          Fail ("answered with throttle_time_ms=" +:+ dec_str THROTTLE_MS +:+ " and the client was " +:+
            "still sending " +:+ dec_str (sat_sub (at_ms o) sent_at) +:+
            "ms into the pause (api " +:+ dec_str (api_key o) +:+ " v" +:+ dec_str (api_version o) +:+
            "); requests already in flight are fair, but by now they have drained and the broker " +:+
            "is not reading yet " +:+ bytes_str [Byte.xe2; Byte.x80; Byte.x94] +:+
            " that request waits out the mute instead of the client waiting out the throttle")
      | inr settled => throttle_each throttles s settled
      end
  end.

Definition honours_throttle_time (s : Session) : Verdict :=
  match throttles s with
  | [] => Skipped "no response carried a throttle in this session"
  | throttles => throttle_each throttles s false
  end.

Definition tolerates_unknown_tagged_fields (s : Session) : Verdict :=
  match tagged s with
  | [] => Skipped "no response carried an unknown tagged field in this session"
  | (conn, index_) :: _ =>
      let carried_on := match after_request conn index_ s with [] => false | _ => true end in
      if carried_on then Pass
      else if existsb (λ o, negb (conn_id o =? conn)) (observations s) then Pass
      else Fail ("answered request " +:+ dec_str index_ +:+ " on connection " +:+ dec_str conn +:+ " with tag " +:+
        dec_str UNKNOWN_TAG +:+ ", a field no schema defines, and the client sent nothing further anywhere; " +:+
        "a client that stops at a field from the future stops at every broker newer than itself")
  end.

(** The catalogue, in run order, each with its id. *)
Definition CLIENT_CHECKS : list (string * (Session → Verdict)) :=
  [("client/header-well-formed", header_well_formed);
   ("client/starts-with-api-versions", starts_with_api_versions);
   ("client/correlation-ids-unique", correlation_ids_unique);
   ("client/respects-advertised-versions", respects_advertised_versions);
   ("client/body-decodes", body_decodes);
   ("client/routes-to-partition-leader", routes_to_partition_leader);
   ("client/recovers-from-leader-change", recovers_from_leader_change);
   ("client/tolerates-unknown-tagged-fields", tolerates_unknown_tagged_fields);
   ("client/honours-throttle-time", honours_throttle_time);
   ("client/heeds-sasl-rejection", heeds_sasl_rejection);
   ("client/acknowledges-sasl-rejection", acknowledges_sasl_rejection)].

(** [requirement] is the text of a check, [suite] the version of the crate. *)
Definition evaluate (requirement : string → string) (suite : string) (s : Session) (subject : string) : Report :=
  ReportOps.new suite subject
    ((λ c, mkCheckOutcome c.1 (requirement c.1) (c.2 s)) <$> CLIENT_CHECKS).
