(* ===== verification/ClientConformance.v ===== *)
(** * What the checks say ([odradek-acceptance/src/checks/client.rs])

    Theorems about the client harness and its checks: that the requests the client
    library itself writes pass the checks of form, what a pass of the other checks
    means and where it means less than its requirement says, and how leadership
    moves under the staged fault. *)
From S2P Require Import Prelude Text Budget Codec Wire Frame Fields KnownTags MessageTrait MsgConnection MsgTxn MsgOffset MsgMetadata MsgFetch MsgProduce Registry ClientError Conn Report ClientChecks.
Import BudgetOps.
Import request_header response_header.

(** ** The library's own requests *)

(** The request types of the apis the harness offers. *)
Definition HARNESS : list Keyed :=
  [keyed "ApiVersionsRequest" ApiVersionsRequest; keyed "ProduceRequest" ProduceRequest;
   keyed "InitProducerIdRequest" InitProducerIdRequest; keyed "SaslHandshakeRequest" SaslHandshakeRequest;
   keyed "SaslAuthenticateRequest" SaslAuthenticateRequest; keyed "FetchRequest" FetchRequest;
   keyed "MetadataRequest" MetadataRequest; keyed "ListOffsetsRequest" ListOffsetsRequest].

Section own.
Context {R : Runtime} (show : DecodeError → string) (debug_id : list byte → string).

Lemma decode_fully_ok {M} `{Message M} version body (x : M) :
  Message.decode version body = Ok (x, []) → decode_fully show M body version = Ok x.
Proof. intros E. unfold decode_fully. by rewrite E. Qed.

(** The harness finds nothing wrong with a body that is a request it offers. *)
Lemma own_body m version body (x : ty m) :
  m ∈ HARNESS → version ≤ (versions_of m).2 → Message.decode (M := ty m) version body = Ok (x, []) →
  (body_of show debug_id (key_of m) version body).1.1.1 = None.
Proof.
  intros Hm Hv E. unfold HARNESS in Hm. rewrite !elem_of_cons in Hm. unfold body_of.
  destruct Hm as [->|[->|[->|[->|[->|[->|[->|[->|[]%not_elem_of_nil]]]]]]]]; cbn [ty keyed_Message key_of] in *;
    pose proof (decode_fully_ok version body x E) as E';
    repeat match goal with
    | |- context [if ?a =? ?b then _ else _] =>
        first [change (a =? b) with true | change (a =? b) with false]; cbv iota
    end; try done; try by rewrite E'.
  destruct (MAX_API_VERSIONS <? version); [done|]. by rewrite E'.
Qed.
End own.

(** ** Conversations *)

Section conversation.
Context {R : Runtime} (show : DecodeError → string) (debug_id : list byte → string) (node conn : Z).

(** What the harness observes of a connection of the library: every call registers,
    its frame arrives, and reading it is refused no allocation.  Answers come in
    between as they like: they leave the ids and the name of the client alone. *)
Inductive conversation : Z → Connection → list Observation → Prop :=
| Hangup i c : conversation i c []
| Ask i c caller m version (x : ty m) body cid payload c1 c2 at_ms obs :
    m ∈ HARNESS → is_i16 version → (versions_of m).1 ≤ version ≤ (versions_of m).2 → Message.valid version x →
    enc_bytes (Message.encode version x) = Ok body →
    register c caller (key_of m) version body = (Ok (cid, framed payload), c1) →
    (∀ hv e, request_header_version (key_of m) version = Some hv →
       RequestHeader.decode hv payload = Err e → ¬ is_alloc_error e) →
    (∀ e, Message.decode (M := ty m) version body = Err e → ¬ is_alloc_error e) →
    next_correlation c2 = next_correlation c1 → client_id c2 = client_id c1 →
    conversation (i + 1) c2 obs →
    conversation i c (parse_request show debug_id node conn i at_ms payload :: obs).

(** Of which the harness sees this. *)
Definition well_formed (i cid : Z) (o : Observation) : Prop :=
  (∃ m h, m ∈ HARNESS ∧ api_key o = key_of m ∧ (versions_of m).1 ≤ api_version o ≤ (versions_of m).2 ∧
     header o = Some h ∧ RequestHeader.correlation_id h = cid) ∧
  header_error o = None ∧ body_error o = None ∧ conn_id o = conn ∧ index o = i.

Lemma framed_inj a b : framed a = framed b → a = b.
Proof using Type.
  intros E. apply (f_equal (drop 4)) in E. unfold framed in E.
  by rewrite !drop_app_exact in E by (by rewrite be_bytes_length).
Qed.

Lemma own_request i c caller m version (x : ty m) body cid payload c1 at_ms :
  m ∈ HARNESS → is_i16 version → (versions_of m).1 ≤ version ≤ (versions_of m).2 → Message.valid version x →
  enc_bytes (Message.encode version x) = Ok body → is_i32 (next_correlation c) → str_ok false (client_id c) →
  register c caller (key_of m) version body = (Ok (cid, framed payload), c1) →
  (∀ hv e, request_header_version (key_of m) version = Some hv →
       RequestHeader.decode hv payload = Err e → ¬ is_alloc_error e) →
  (∀ e, Message.decode (M := ty m) version body = Err e → ¬ is_alloc_error e) →
  well_formed i (next_correlation c) (parse_request show debug_id node conn i at_ms payload) ∧
  next_correlation c1 = sint 32 (next_correlation c + 1) ∧ client_id c1 = client_id c.
Proof using Type.
  intros Hm Hi Hv Hx Hb Hid Hc Hreg Hspare_h Hspare_b. unfold register in Hreg.
  destruct (request_header_version (key_of m) version) as [hv|] eqn:Ehv; [|done].
  destruct (Registry.response_header_version (key_of m) version) as [rv|] eqn:Erv; [|done].
  destruct (header_versions _ _ _ _ Ehv Erv) as [Hk _].
  destruct (request_frame _ _ _ _ _ _) as [f|] eqn:Ef; [|done]. injection Hreg as <- -> <-.
  cbn [client_id set_next next_correlation] in Ef.
  set (h := RequestHeader.mk (key_of m) version (next_correlation c) (Some (client_id c)) []).
  assert (RequestHeader.valid hv h) as Hh.
  { unfold RequestHeader.valid. split_and!; try done.
    destruct (request_header.is_flexible hv); [by repeat constructor|done]. }
  destruct (pairs_entry _ _ _ (RequestHeader.request_header_RequestHeader_agrees hv h Hh)) as (hb & Eh & Hread & _).
  assert (encodes (RequestHeader.encode hv h) hb) as He.
  { destruct (RequestHeader.request_header_RequestHeader_agrees (R := R) hv h Hh) as (hb' & He & _).
    rewrite (encodes_bytes _ _ He) in Eh. by injection Eh as <-. }
  apply (frame_written _ (hb ++ body)) in Ef as [Ef _]; [|apply encodes_seq; [exact He|apply encodes_slice]].
  apply framed_inj in Ef as ->.
  destruct (Message.roundtrip version x Hv Hx) as (body' & Hb' & Hread_b & _).
  rewrite Hb in Hb'. injection Hb' as <-.
  assert (RequestHeader.decode hv (hb ++ body) = Ok (h, body)) as Edh.
  { destruct (Hread body Limits.default) as [E|(e & E & Ha)]; [exact E|]. by destruct (Hspare_h hv e eq_refl E). }
  assert (Message.decode version body = Ok (x, [])) as Edb.
  { destruct (Hread_b [] Limits.default) as [E|(e & E & Ha)]; rewrite app_nil_r in E; [exact E|].
    by destruct (Hspare_b e E). }
  split; [|done]. unfold parse_request.
  destruct (request_header_front _ _ _ _ _ Edh) as (Hl & Ekey & Ever).
  destruct (Z.ltb_spec (len (hb ++ body)) 8); [lia|]. cbv zeta. rewrite Ekey, Ever.
  cbn [RequestHeader.request_api_key RequestHeader.request_api_version h].
  assert ((if key_of m =? key ApiVersionsRequest then Z.min version MAX_API_VERSIONS else version) = version) as ->.
  { destruct (Z.eqb_spec (key_of m) (key ApiVersionsRequest)) as [E|]; [|done].
    assert ((versions_of m).2 = MAX_API_VERSIONS); [|lia].
    unfold HARNESS in Hm. rewrite !elem_of_cons in Hm.
    destruct Hm as [->|[->|[->|[->|[->|[->|[->|[->|[]%not_elem_of_nil]]]]]]]]; [reflexivity|discriminate E..]. }
  rewrite Ehv, Edh.
  pose proof (own_body show debug_id m version body x Hm (proj2 Hv) Edb) as Hbody.
  destruct (body_of show debug_id (key_of m) version body) as [[[err exempt] rts] mech]. cbn [fst] in Hbody. subst err.
  split; [|done]. by exists m, h.
Qed.

Lemma sint_shift z a : sint 32 (sint 32 z + a) = sint 32 (z + a).
Proof using Type.
  unfold sint. f_equal.
  replace ((z + 2 ^ (32 - 1)) mod 2 ^ 32 - 2 ^ (32 - 1) + a + 2 ^ (32 - 1))
    with ((z + 2 ^ (32 - 1)) mod 2 ^ 32 + a) by lia.
  rewrite Zplus_mod_idemp_l. f_equal. lia.
Qed.

(** The ids of less than a whole turn of the counter are distinct. *)
Lemma sint_near z a b : 0 ≤ a < 2 ^ 32 → 0 ≤ b < 2 ^ 32 → sint 32 (z + a) = sint 32 (z + b) → a = b.
Proof using Type.
  intros Ha Hb E. unfold sint in E.
  assert ((z + a + 2 ^ (32 - 1)) mod 2 ^ 32 = (z + b + 2 ^ (32 - 1)) mod 2 ^ 32) as E' by lia.
  assert ((a - b) mod 2 ^ 32 = 0) as Hd.
  { replace (a - b) with ((z + a + 2 ^ (32 - 1)) - (z + b + 2 ^ (32 - 1))) by lia.
    rewrite Zminus_mod, E', Z.sub_diag. done. }
  apply Z.mod_divide in Hd as [k Hk]; [|done]. nia.
Qed.

Lemma conversation_observed i c obs :
  conversation i c obs → is_i32 (next_correlation c) → str_ok false (client_id c) →
  ∀ j o, obs !! j = Some o → well_formed (i + Z.of_nat j) (sint 32 (next_correlation c + Z.of_nat j)) o.
Proof using Type.
  induction 1 as [i c|i c caller m version x body cid payload c1 c2 at_ms obs Hm Hi Hv Hx Hb Hreg Hh Hd Hn Hc Hconv IH];
    intros Hid Hclient j o Ho; [done|].
  destruct (own_request i c caller m version x body cid payload c1 at_ms Hm Hi Hv Hx Hb Hid Hclient Hreg Hh Hd)
    as (Hw & Hn1 & Hc1).
  destruct j as [|j]; cbn in Ho.
  - injection Ho as <-. rewrite !Z.add_0_r, sint_small by int_lia. exact Hw.
  - assert (is_i32 (next_correlation c2)) as Hid2.
    { rewrite Hn, Hn1. pose proof (sint_range 32 (next_correlation c + 1)). int_lia. }
    assert (str_ok false (client_id c2)) as Hcl2 by congruence.
    specialize (IH Hid2 Hcl2 j o Ho). rewrite Hn, Hn1, sint_shift in IH.
    replace (i + Z.of_nat (S j)) with (i + 1 + Z.of_nat j) by lia.
    by replace (next_correlation c + Z.of_nat (S j)) with (next_correlation c + 1 + Z.of_nat j) by lia.
Qed.

End conversation.

(** ** What a pass means *)

Definition ids (obs : list Observation) : list (Z * Z) :=
  omap (λ o, (λ h, (conn_id o, RequestHeader.correlation_id h)) <$> header o) obs.

Lemma reused_ids_none obs : ∀ seen,
  reused_ids obs seen = [] ↔ NoDup (ids obs) ∧ ∀ i, i ∈ ids obs → i ∉ seen.
Proof.
  induction obs as [|o obs IH]; intros seen; cbn [reused_ids ids omap list_omap].
  { split; [intros _; split; [constructor|by intros i ?%not_elem_of_nil]|done]. }
  destruct (header o) as [h|]; cbn [fmap option_fmap option_map]; [|apply IH].
  set (i := (conn_id o, RequestHeader.correlation_id h)). rewrite NoDup_cons. fold (ids obs).
  specialize (IH ({[i]} ∪ seen)). case_bool_decide as Hi.
  - split; [done|]. intros [_ Hs]. destruct (Hs i); [by left|done].
  - rewrite IH. split.
    + intros [Hn Hs]. split; [split; [intros H; destruct (Hs i H); set_solver|done]|].
      intros j [->|Hj]%elem_of_cons; [done|]. specialize (Hs j Hj). set_solver.
    + intros [[Hni Hn] Hs]. split; [done|]. intros j Hj.
      assert (j ∉ seen) by (apply Hs; by right). assert (j ≠ i) by congruence. set_solver.
Qed.

Lemma judged_pass nothing reason failures :
  judged nothing reason failures = Pass ↔ nothing = false ∧ failures = [].
Proof. unfold judged. destruct nothing, failures; naive_solver. Qed.

Lemma judged_fail nothing reason failures d :
  judged nothing reason failures = Fail d → failures ≠ [].
Proof. unfold judged. by destruct nothing, failures. Qed.

Lemma silent_false s : silent s = false ↔ observations s ≠ [].
Proof. unfold silent. by destruct (observations s). Qed.

Lemma omap_nil {A B} (f : A → option B) l : omap f l = [] ↔ ∀ x, x ∈ l → f x = None.
Proof.
  induction l as [|x l IH]; cbn [omap list_omap]; [split; [by intros _ y ?%not_elem_of_nil|done]|].
  destruct (f x) eqn:E.
  - split; [done|]. intros H. specialize (H x (list_elem_of_here _ _)). congruence.
  - rewrite IH. split; [intros H y [->|Hy]%elem_of_cons; auto|intros H y Hy; apply H; by right].
Qed.

Lemma advertised_find m :
  m ∈ HARNESS → List.find (λ e, e.1.1 =? key_of m) ADVERTISED = Some (key_of m, (versions_of m).1, (versions_of m).2).
Proof.
  intros Hm. unfold HARNESS in Hm. rewrite !elem_of_cons in Hm.
  by destruct Hm as [->|[->|[->|[->|[->|[->|[->|[->|[]%not_elem_of_nil]]]]]]]].
Qed.

Lemma ids_conversation {R : Runtime} show debug_id node conn i c obs :
  conversation show debug_id node conn i c obs → is_i32 (next_correlation c) → str_ok false (client_id c) →
  ids obs = imap (λ j _, (conn, sint 32 (next_correlation c + Z.of_nat j))) obs.
Proof.
  intros Hconv Hid Hc. pose proof (conversation_observed _ _ _ _ _ _ _ Hconv Hid Hc) as H. clear Hconv.
  generalize dependent i. generalize (next_correlation c) as z. clear Hid Hc.
  intros z i. revert i z.
  induction obs as [|o obs IH]; intros i z H; [done|].
  destruct (H 0%nat o eq_refl) as ((m & h & _ & _ & _ & Eh & Eid) & _ & _ & Ec & _).
  unfold ids. cbn [omap list_omap]. rewrite Eh. cbn [fmap option_fmap option_map]. fold (ids obs).
  rewrite imap_cons, Ec, Eid. f_equal. rewrite (IH (i + 1) (z + 1)).
  - apply imap_ext. intros j y _. unfold compose. do 2 f_equal. lia.
  - intros j y Hy. specialize (H (S j) y Hy).
    replace (i + 1 + Z.of_nat j) with (i + Z.of_nat (S j)) by lia.
    by replace (z + 1 + Z.of_nat j) with (z + Z.of_nat (S j)) by lia.
Qed.

(** ** The staged move of leadership *)

Definition moved (v : ClusterView) (p : Z) : bool := existsb (λ e, partition e =? p) (view_events v).

Record leadership (v : ClusterView) : Prop := {
  armed : view_fault v = Some LeaderMove;
  three : length (leaders v) = 3%nat;
  led : ∀ slot, (slot < 3)%nat → leaders v !! slot =
    Some (if moved v (Z.of_nat slot) then Z.rem (Z.of_nat slot + 1) BROKER_COUNT else Z.of_nat slot);
  once : NoDup (partition <$> view_events v);
}.

Lemma slot_of_three v p : length (leaders v) = 3%nat →
  slot_of p v = if (0 <=? p) && (p <? 3) then Some (Z.to_nat p) else None.
Proof.
  intros E. unfold slot_of, try_from. rewrite E. change (Z.of_nat 3) with 3.
  destruct (Z.leb_spec 0 p); cbn [andb]; [|done].
  destruct (Z.leb_spec p usize_max), (Z.ltb_spec p 3); try done. int_lia.
Qed.

Lemma moved_elem v p : moved v p = true ↔ p ∈ (partition <$> view_events v).
Proof.
  unfold moved. rewrite existsb_exists, list_elem_of_fmap. split.
  - intros (e & He & <-%Z.eqb_eq). exists e. by rewrite list_elem_of_In.
  - intros (e & -> & He). exists e. by rewrite <- list_elem_of_In, Z.eqb_refl.
Qed.

(** One move: a partition not moved yet goes to the next broker. *)
Lemma leadership_moves v p : leadership v → 0 ≤ p < 3 → moved v p = false →
  let v' := set_leaders (<[Z.to_nat p := Z.rem (p + 1) BROKER_COUNT]> (leaders v))
              (view_events v ++ [mkFaultEvent p (Z.rem (p + 1) BROKER_COUNT)]) v in
  leadership v' ∧ ∀ q, moved v' q = moved v q || (p =? q).
Proof.
  intros [Hf H3 Hled Honce] Hp Hm v'.
  assert (∀ q, moved v' q = moved v q || (p =? q)) as Hmoved.
  { intros q. unfold moved, v'. cbn [view_events set_leaders]. rewrite existsb_app. cbn. by rewrite orb_false_r. }
  split; [|done]. constructor; [done|by cbn; rewrite length_insert| |].
  - intros slot Hs. rewrite Hmoved. cbn [leaders set_leaders v'].
    destruct (Z.eqb_spec p (Z.of_nat slot)) as [->|Hne].
    + rewrite Nat2Z.id, list_lookup_insert_eq by lia. by rewrite orb_true_r.
    + rewrite list_lookup_insert_ne by lia. by rewrite orb_false_r, Hled.
  - cbn [view_events set_leaders v']. rewrite fmap_app. apply NoDup_app. split; [done|]. split; [|apply NoDup_singleton].
    intros q Hq [->|[]%not_elem_of_nil]%elem_of_cons. apply moved_elem in Hq. cbn in Hq. congruence.
Qed.

(** The answer to a produce, and the view after it. *)
Lemma produce_error_spec v p n : leadership v →
  leadership (produce_error p n v).2 ∧
  ((produce_error p n v).1 = 0 ↔ 0 ≤ p < 3 ∧ moved v p = true ∧ n = Z.rem (p + 1) BROKER_COUNT) ∧
  (∀ q, moved (produce_error p n v).2 q = true ↔ moved v q = true ∨ 0 ≤ p < 3 ∧ n = p ∧ q = p).
Proof.
  intros Hv. pose proof Hv as [Hf H3 Hled Honce]. unfold produce_error. rewrite (slot_of_three v p H3).
  destruct ((0 <=? p) && (p <? 3)) eqn:Hp.
  2: { cbn. split; [done|]. split; [split; [discriminate|lia]|intros q; split; [auto|intros [?|?]; [done|lia]]]. }
  apply andb_true_iff in Hp as [Hp1%Z.leb_le Hp2%Z.ltb_lt].
  rewrite (Hled (Z.to_nat p)), Z2Nat.id by lia. change (default (-1) (Some ?x)) with x.
  fold (moved v p). rewrite bool_decide_true by done. cbv zeta.
  assert (Z.rem (p + 1) BROKER_COUNT ≠ p) as Hnext by (assert (p = 0 ∨ p = 1 ∨ p = 2) as [->|[->| ->]] by lia; done).
  destruct (moved v p) eqn:Hm; cbn [negb].
  - destruct (Z.eqb_spec (Z.rem (p + 1) BROKER_COUNT) n) as [E|E]; cbn [negb fst snd]; (split; [done|]).
    + split; [split; [intros _; split; [lia|done]|done]|]. intros q. split; [auto|intros [?|(_ & ? & ->)]; [done|congruence]].
    + split; [split; [discriminate|intros (_ & _ & ->); done]|].
      intros q. split; [auto|intros [?|(_ & _ & ->)]; done].
  - destruct (Z.eqb_spec p n) as [<-|E]; cbn [negb fst snd].
    + destruct (leadership_moves v p Hv ltac:(lia) Hm) as [Hv' Hmoved]. split; [done|].
      split; [split; [discriminate|by intros (_ & ? & _)]|]. intros q. rewrite Hmoved, orb_true_iff, Z.eqb_eq. intuition lia.
    + split; [done|]. split; [split; [discriminate|by intros (_ & ? & _)]|].
      intros q. split; [auto|intros [?|(_ & <- & _)]; done].
Qed.

Lemma leadership_kept calls : ∀ v, leadership v →
  leadership (foldl (λ v c, (produce_error c.1 c.2 v).2) v calls).
Proof.
  induction calls as [|[p n] calls IH]; intros v Hv; [done|]. cbn [foldl fst snd].
  by apply IH, produce_error_spec.
Qed.

Lemma leadership_new ports : leadership (new_view ports (Some LeaderMove)).
Proof.
  constructor; [done|done| |constructor]. intros slot Hs.
  by destruct slot as [|[|[|slot]]]; [..|lia].
Qed.

(** ** Properties *)

(** C26: The client of this repository passes the checks of form.  Whatever calls a
    connection of the library makes, to any of the apis the harness offers, at any
    version they share and with any representable request, and whatever answers
    come in between, the harness finds every header and every body well formed,
    every version within what it advertised and no correlation id used twice --
    unless reading a frame is refused an allocation, or a connection makes more
    calls than there are ids. *)
Theorem own_requests_pass {R : Runtime} show debug_id (node conn : Z) (c : Connection) (s : Session) :
  conversation show debug_id node conn 0 c (observations s) →
  is_i32 (next_correlation c) → str_ok false (client_id c) →
  observations s ≠ [] → len (observations s) ≤ 2 ^ 32 →
  header_well_formed s = Pass ∧ correlation_ids_unique s = Pass ∧
  (∀ d, respects_advertised_versions s ≠ Fail d) ∧ (∀ d, body_decodes s ≠ Fail d) ∧
  (api_key <$> head (observations s) = Some (key ApiVersionsRequest) → starts_with_api_versions s = Pass).
Proof.
  intros Hconv Hid Hc Hne Hl.
  pose proof (conversation_observed _ _ _ _ _ _ _ Hconv Hid Hc) as H.
  assert (∀ o, o ∈ observations s → ∃ i cid, well_formed conn i cid o) as Hall.
  { intros o [j Ho]%list_elem_of_lookup. specialize (H j o Ho). eauto. }
  apply silent_false in Hne. split; [|split; [|split; [|split]]].
  - apply judged_pass. split; [done|]. apply omap_nil. intros o Ho.
    destruct (Hall o Ho) as (i & cid & _ & E & _). by rewrite E.
  - apply judged_pass. split; [done|]. apply reused_ids_none. split; [|intros i _; set_solver].
    rewrite (ids_conversation _ _ _ _ _ _ _ Hconv Hid Hc). apply NoDup_alt. intros a b x Ea Eb.
    rewrite list_lookup_imap in Ea, Eb.
    destruct (observations s !! a) eqn:Ha; [|done]. destruct (observations s !! b) eqn:Hb; [|done].
    apply lookup_lt_Some in Ha, Hb. injection Ea as <-. injection Eb as Eb.
    apply sint_near in Eb; lia.
  - intros d E. apply judged_fail in E. destruct E. apply omap_nil. intros o [_ Ho]%list_elem_of_filter.
    destruct (Hall o Ho) as (i & cid & (m & h & Hm & Ek & Hv & _) & _). unfold version_violation.
    rewrite Ek, (advertised_find m Hm).
    destruct (Z.ltb_spec (api_version o) (versions_of m).1); [lia|].
    by destruct (Z.ltb_spec (versions_of m).2 (api_version o)); [lia|].
  - intros d E. apply judged_fail in E. destruct E. apply omap_nil. intros o [_ Ho]%list_elem_of_filter.
    destruct (Hall o Ho) as (i & cid & _ & _ & E & _). by rewrite E.
  - intros Hh. apply judged_pass. split; [done|]. match goal with |- _ <$> ?l = [] => enough (l = []) as -> by done end.
    apply elem_of_nil_inv.
    intros o [Hk [Hi Ho]%list_elem_of_filter]%list_elem_of_filter. destruct Hk.
    apply list_elem_of_lookup in Ho as [j Ho]. destruct (H j o Ho) as (_ & _ & _ & _ & Ej).
    assert (j = 0%nat) as -> by lia. destruct (observations s) as [|o' obs]; [done|].
    injection Ho as ->. cbn in Hh. by injection Hh.
Qed.

(** Under the staged move of leadership each partition of the routing topic moves
    once, to the next broker, on the first produce its first leader gets; whatever
    else is asked of whom, a produce is accepted exactly at that next broker and
    after the move. *)
Theorem leadership_moves_once (ports : list Z) (calls : list (Z * Z)) (p n : Z) :
  let v := foldl (λ v c, (produce_error c.1 c.2 v).2) (new_view ports (Some LeaderMove)) calls in
  NoDup (partition <$> view_events v) ∧
  ((produce_error p n v).1 = 0 ↔ 0 ≤ p < 3 ∧ moved v p = true ∧ n = Z.rem (p + 1) BROKER_COUNT) ∧
  (fetch_error p n v = 0 ↔ 0 ≤ p < 3 ∧ n = (if moved v p then Z.rem (p + 1) BROKER_COUNT else p)) ∧
  (moved (produce_error p n v).2 p = true ↔ moved v p = true ∨ 0 ≤ p < 3 ∧ n = p).
Proof.
  intros v. assert (leadership v) as Hv by apply leadership_kept, leadership_new.
  destruct (produce_error_spec v p n Hv) as (_ & H1 & H2). pose proof Hv as [_ H3 Hled Honce].
  split; [done|]. split; [done|]. split; [|rewrite (H2 p); naive_solver].
  unfold fetch_error. rewrite (slot_of_three v p H3).
  destruct ((0 <=? p) && (p <? 3)) eqn:Hp; [|split; [discriminate|lia]].
  rewrite (Hled (Z.to_nat p)), Z2Nat.id by lia. change (default (-1) (Some ?x)) with x.
  destruct (Z.eqb_spec (if moved v p then Z.rem (p + 1) BROKER_COUNT else p) n); split; try done; [lia|naive_solver].
Qed.

(** *** Passes that mean less than their requirement *)

Definition request_payload (k version cid : Z) (body : enc) : list byte :=
  ((RequestHeader.encode (default 0 (request_header_version k version))
      (RequestHeader.mk k version cid (Some "c") []) ;; body) []).2.

Definition ask_versions (version : Z) : list byte :=
  request_payload 18 version 1 (Message.encode version
    (api_versions_request.ApiVersionsRequest.mk "" "" [] : ApiVersionsRequest)).
Definition ask_fetch (p : Z) : list byte :=
  request_payload 1 4 2 (Message.encode 4
    (fetch_request.FetchRequest.mk (-1) 500 1 1048576 0 0 (-1)
       [fetch_request.FetchTopic.mk ROUTING_TOPIC (replicate 16 Byte.x00)
          [fetch_request.FetchPartition.mk p (-1) 0 (-1) (-1) 65536 None None []] []] [] "" None None []
     : FetchRequest)).
Definition ask_produce (p acks : Z) : list byte :=
  request_payload 0 3 3 (Message.encode 3
    (produce_request.ProduceRequest.mk None acks 1000
       [produce_request.TopicProduceData.mk ROUTING_TOPIC (replicate 16 Byte.x00)
          [produce_request.PartitionProduceData.mk p (Some []) []] []] [] : ProduceRequest)).
Definition ask_producer_id (body : list byte) : list byte := request_payload 22 0 4 (put_slice body).

(** Four sessions of the harness.  A client that goes silent after the answer with
    an unknown tagged field passes, if another connection spoke before it.  A
    client that never delivers again passes the check of recovery, if it asked the
    wrong broker before the move.  A body of InitProducerId that is no request at
    all passes.  And a produce that asks for no answer is answered. *)
Theorem passes_that_mean_less (show : DecodeError → string) (debug_id : list byte → string) :
  let serve := serve_frame (R := plain_runtime) show debug_id in
  (let '(o1, _, v1) := serve 0 0 0 5 5 (ask_versions 0) (new_view [1; 2; 3] (Some UnknownTaggedField)) in
   let '(o2, _, v2) := serve 0 1 0 9 9 (ask_versions 3) v1 in
   view_tagged v2 = [(1, 0)] ∧
   tolerates_unknown_tagged_fields
     (mkSession [o1; o2] (view_fault v2) (view_events v2) (view_rejections v2) (view_throttles v2) (view_tagged v2))
     = Pass) ∧
  (let '(o1, _, v1) := serve 1 0 0 5 5 (ask_fetch 0) (new_view [1; 2; 3] (Some LeaderMove)) in
   let '(o2, _, v2) := serve 0 1 0 9 9 (ask_produce 0 1) v1 in
   view_events v1 = [] ∧ view_events v2 = [mkFaultEvent 0 1] ∧
   recovers_from_leader_change
     (mkSession [o1; o2] (view_fault v2) (view_events v2) (view_rejections v2) (view_throttles v2) (view_tagged v2))
     = Pass) ∧
  (let '(o1, _, v1) := serve 0 0 0 5 5 (ask_versions 0) (new_view [1; 2; 3] None) in
   let '(o2, _, v2) := serve 0 0 1 9 9 (ask_producer_id [Byte.xff]) v1 in
   (∃ e, decode_fully (R := plain_runtime) show InitProducerIdRequest [Byte.xff] 0 = Err e) ∧
   body_decodes
     (mkSession [o1; o2] (view_fault v2) (view_events v2) (view_rejections v2) (view_throttles v2) (view_tagged v2))
     = Pass) ∧
  (∃ out, (serve 0 0 0 5 5 (ask_produce 0 0) (new_view [1; 2; 3] None)).1.2 = Some out).
Proof.
  cbv zeta. split; [vm_compute; by split|]. split; [vm_compute; by split_and!|].
  split; [vm_compute; split; [by eexists|done]|]. eexists. vm_compute. reflexivity.
Qed.

(** *** Witness *)

Definition own_call : Connection → Z → Z → list byte → result ClientError (Z * list byte) * Connection :=
  λ c k version body, register c 7 k version body.
Definition own_body_of : list byte :=
  (Message.encode 3 (api_versions_request.ApiVersionsRequest.mk "odradek" "0.1" [] : ApiVersionsRequest) []).2.
Definition own_payload : list byte :=
  match own_call (new_connection "c") 18 3 own_body_of with (Ok (_, bytes), _) => drop 4 bytes | _ => [] end.

Lemma own_requests_pass_witness :
  ∃ s, length (observations s) = 1%nat ∧ header_well_formed s = Pass ∧ correlation_ids_unique s = Pass ∧
    starts_with_api_versions s = Pass.
Proof.
  set (show := λ _ : DecodeError, ""). set (dbg := λ _ : list byte, "").
  set (o := parse_request (R := plain_runtime) show dbg 0 0 0 5 own_payload).
  assert (conversation (R := plain_runtime) show dbg 0 0 0 (new_connection "c") [o]) as Hconv.
  { apply (Ask _ _ 0 0 0 _ 7 (keyed "ApiVersionsRequest" ApiVersionsRequest) 3
      (api_versions_request.ApiVersionsRequest.mk "odradek" "0.1" []) own_body_of 1 own_payload
      (own_call (new_connection "c") 18 3 own_body_of).2 (own_call (new_connection "c") 18 3 own_body_of).2 5 []).
    - by left.
    - vm_compute. split; discriminate.
    - vm_compute. split; discriminate.
    - valid_sample.
    - vm_compute. reflexivity.
    - vm_compute. reflexivity.
    - intros hv e Ehv E. vm_compute in Ehv. injection Ehv as <-. vm_compute in E. discriminate E.
    - intros e E. vm_compute in E. discriminate E.
    - reflexivity.
    - reflexivity.
    - constructor. }
  exists (mkSession [o] None [] [] [] []).
  destruct (own_requests_pass (R := plain_runtime) show dbg 0 0 (new_connection "c") (mkSession [o] None [] [] [] []))
    as (H1 & H2 & _ & _ & H3).
  - exact Hconv.
  - vm_compute. split; discriminate.
  - split; [reflexivity|vm_compute; discriminate].
  - discriminate.
  - vm_compute. discriminate.
  - split; [reflexivity|]. split; [exact H1|]. split; [exact H2|]. apply H3. vm_compute. reflexivity.
Defined.
