(* ===== verification/Codegen.v ===== *)
(** * The code generator's model of a schema ([xtask/src/main.rs])

    The messages of [odradek-protocol] are generated from Kafka's schemas.  Here is
    what decides at which versions a field is there: version ranges, how they are
    read, and the guard that is written into the code; and how fields are named,
    typed and defaulted.  Reading files, walking the JSON and laying out the text of
    a struct are not modelled: what the generator wrote is in the Msg files. *)
From S2P Require Import Prelude Text Cursor.

(** The errors of parsing an integer or an unknown type. *)
Inductive GenError : Type :=
| BadInteger (s : text)
| UnsupportedType (s : string).

(** ** Version ranges *)

(** [min > max] is the empty range, [max = i16::MAX] an open one. *)
Record VersionRange : Type := mkRange { lo : Z; hi : Z }.
#[global] Instance VersionRange_eq_dec : EqDecision VersionRange.
Proof. solve_decision. Defined.

Definition EMPTY : VersionRange := mkRange 1 0.

Definition strip_suffix (s p : text) : option text := @rev byte <$> strip_prefix (@rev byte s) (@rev byte p).

Definition parse_i16 (s : text) : result GenError Z := ok_or (BadInteger s) (decimal.parse (-32768) i16_max s).

Definition parse_range (s : string) : result GenError VersionRange :=
  let s := trim (str_bytes s) in
  if bool_decide (s = str_bytes "none") then Ok EMPTY
  else
    match strip_suffix s [byte_of_Z 43] with
    | Some min => let? min := parse_i16 min in Ok (mkRange min i16_max)
    | None =>
        match split_once (byte_of_Z 45) s with
        | Some (min, max) =>
            let? min := parse_i16 min in
            let? max := parse_i16 max in
            Ok (mkRange min max)
        | None => let? v := parse_i16 s in Ok (mkRange v v)
        end
    end.

Definition is_empty (r : VersionRange) : bool := hi r <? lo r.

Definition intersect (r other : VersionRange) : VersionRange :=
  mkRange (Z.max (lo r) (lo other)) (Z.min (hi r) (hi other)).

(** The expressions a guard can be, and what they are as Rust. *)
Inductive Guard : Type :=
| Always
| Never
| AtLeast (v : Z)
| AtMost (v : Z)
| Exactly (v : Z)
| Within (a b : Z).

Definition dec_text (z : Z) : string := bytes_str (decimal.print z).

Definition rendered (g : Guard) : string :=
  match g with
  | Always => "true"
  | Never => "false"
  | AtLeast v => "version >= " +:+ dec_text v
  | AtMost v => "version <= " +:+ dec_text v
  | Exactly v => "version == " +:+ dec_text v
  | Within a b => "(" +:+ dec_text a +:+ "..=" +:+ dec_text b +:+ ").contains(&version)"
  end.

Definition holds (g : Guard) (version : Z) : bool :=
  match g with
  | Always => true
  | Never => false
  | AtLeast v => v <=? version
  | AtMost v => version <=? v
  | Exactly v => version =? v
  | Within a b => (a <=? version) && (version <=? b)
  end.

Definition guard (r valid : VersionRange) : Guard :=
  if is_empty r then Never
  else
    let lower := lo valid <? lo r in
    let upper := hi r <? hi valid in
    match lower, upper with
    | false, false => Always
    | true, false => AtLeast (lo r)
    | false, true => AtMost (hi r)
    | true, true => if lo r =? hi r then Exactly (lo r) else Within (lo r) (hi r)
    end.
Definition expr (r valid : VersionRange) : string := rendered (guard r valid).

(** [emit_guarded] and [flex_switch] fold the constant guards away: what is left is no
    code, the body alone, or the body under its condition. *)
Inductive Emitted (A : Type) : Type :=
| Nothing
| Plain (body : A)
| Guarded (g : Guard) (body : A).
#[global] Arguments Nothing {A}.
#[global] Arguments Plain {A} body.
#[global] Arguments Guarded {A} g body.

Definition emit_guarded {A} (g : Guard) (body : A) : Emitted A :=
  match g with Never => Nothing | Always => Plain body | _ => Guarded g body end.

(** What the emitted code runs at a version. *)
Definition runs {A} (e : Emitted A) (version : Z) : option A :=
  match e with
  | Nothing => None
  | Plain body => Some body
  | Guarded g body => if holds g version then Some body else None
  end.

Definition range_doc (r : VersionRange) : string :=
  if hi r =? i16_max then dec_text (lo r) +:+ "+" else dec_text (lo r) +:+ "-" +:+ dec_text (hi r).

(** ** Types and names *)

Inductive FieldType : Type :=
| Bool | Int8 | Int16 | Uint16 | Int32 | Uint32 | Int64 | Float64 | Uuid | String_ | Bytes | Records
| Struct (name : string)
| Array (elem : FieldType).

Definition upper (b : byte) : bool := (65 <=? byte_to_Z b) && (byte_to_Z b <=? 90).
Definition lower (b : byte) : bool := (97 <=? byte_to_Z b) && (byte_to_Z b <=? 122).
Definition decimal_digit (b : byte) : bool := (48 <=? byte_to_Z b) && (byte_to_Z b <=? 57).
Definition to_lower (b : byte) : byte := if upper b then byte_of_Z (byte_to_Z b + 32) else b.

Definition named_type (s : string) : result GenError FieldType :=
  if String.eqb s "bool" then Ok Bool
  else if String.eqb s "int8" then Ok Int8
  else if String.eqb s "int16" then Ok Int16
  else if String.eqb s "uint16" then Ok Uint16
  else if String.eqb s "int32" then Ok Int32
  else if String.eqb s "uint32" then Ok Uint32
  else if String.eqb s "int64" then Ok Int64
  else if String.eqb s "float64" then Ok Float64
  else if String.eqb s "uuid" then Ok Uuid
  else if String.eqb s "string" then Ok String_
  else if String.eqb s "bytes" then Ok Bytes
  else if String.eqb s "records" then Ok Records
  else match str_bytes s with
       | b :: _ => if upper b then Ok (Struct s) else Err (UnsupportedType s)
       | [] => Err (UnsupportedType s)
       end.

(** Each [[]] takes two bytes off, so the length of the name is fuel enough. *)
Fixpoint parse_type (fuel : nat) (s : text) : result GenError FieldType :=
  match fuel with
  | O => Err (UnsupportedType (bytes_str s))
  | S fuel =>
      match strip_prefix s (str_bytes "[]") with
      | Some elem => let? t := parse_type fuel elem in Ok (Array t)
      | None => named_type (bytes_str s)
      end
  end.
Definition field_type (s : string) : result GenError FieldType := parse_type (S (length (str_bytes s))) (str_bytes s).

(** The loop of [snake_case] with the character before. *)
Fixpoint snake_from (prev : option byte) (s : text) : text :=
  match s with
  | [] => []
  | c :: s' =>
      let rest := snake_from (Some c) s' in
      if upper c then
        let prev_lower := match prev with Some p => lower p || decimal_digit p | None => false end in
        let next_lower := match prev with Some p => upper p | None => false end &&
          match s' with n :: _ => lower n | [] => false end in
        if prev_lower || next_lower then byte_of_Z 95 :: to_lower c :: rest else to_lower c :: rest
      else c :: rest
  end.
Definition snake_case (name : string) : string := bytes_str (snake_from None (str_bytes name)).

Definition KEYWORDS : list string :=
  ["as"; "async"; "await"; "box"; "break"; "const"; "continue"; "crate"; "do"; "dyn"; "else";
   "enum"; "extern"; "false"; "final"; "fn"; "for"; "if"; "impl"; "in"; "let"; "loop"; "macro";
   "match"; "mod"; "move"; "mut"; "override"; "priv"; "pub"; "ref"; "return"; "static"; "struct";
   "super"; "trait"; "true"; "try"; "type"; "unsafe"; "use"; "where"; "while"; "yield"].

Definition rust_field_name (name : string) : string :=
  let snake := snake_case name in
  if bool_decide (snake ∈ KEYWORDS) then "r#" +:+ snake else snake.

Fixpoint base_rust_type (t : FieldType) : string :=
  match t with
  | Bool => "bool" | Int8 => "i8" | Int16 => "i16" | Uint16 => "u16" | Int32 => "i32" | Uint32 => "u32"
  | Int64 => "i64" | Float64 => "f64" | Uuid => "[u8; 16]" | String_ => "String"
  | Bytes | Records => "bytes::Bytes"
  | Struct n => n
  | Array inner => "Vec<" +:+ base_rust_type inner +:+ ">"
  end.

Definition rust_type (t : FieldType) (nullable : option VersionRange) : string :=
  match nullable with Some _ => "Option<" +:+ base_rust_type t +:+ ">" | None => base_rust_type t end.

(** ** Facts *)

Example names :
  (snake_case "TransactionalId", snake_case "ZkMigrationReady", snake_case "IsKRaft", rust_field_name "Type",
   expr (mkRange 3 i16_max) (mkRange 0 12), expr (mkRange 1 3) (mkRange 0 6), field_type "[]TopicData") =
  ("transactional_id", "zk_migration_ready", "is_k_raft", "r#type", "version >= 3",
   "(1..=3).contains(&version)", Ok (Array (Struct "TopicData"))).
Proof. vm_compute. reflexivity. Qed.

Lemma str_bytes_app s t : str_bytes (s +:+ t) = str_bytes s ++ str_bytes t.
Proof.
  unfold str_bytes, String.list_byte_of_string. induction s as [|a s IH]; [done|].
  change (String a s +:+ t) with (String a (s +:+ t)). cbn. f_equal. exact IH.
Qed.

Lemma strip_suffix_app l p : strip_suffix (l ++ p) p = Some l.
Proof. unfold strip_suffix. rewrite rev_app_distr, strip_prefix_app. cbn. by rewrite rev_involutive. Qed.

(** Text of digits and dashes is neither [none] nor open at its end. *)
Lemma plain_no_plus s : Forall plain s → strip_suffix s [byte_of_Z 43] = None.
Proof.
  intros Hs. unfold strip_suffix. destruct (strip_prefix _ _) eqn:E; [|done].
  apply strip_prefix_Some in E. apply (f_equal (@rev byte)) in E. rewrite rev_involutive in E. cbn in E.
  subst s. apply Forall_app in Hs as [_ Hs]. apply Forall_inv in Hs.
  exfalso. revert Hs. apply not_plain_byte; lia.
Qed.

(** A number that is not negative is digits only. *)
Lemma print_digits z : 0 ≤ z ≤ i16_max → ∃ d ds, decimal.print z = d :: ds ∧ Forall is_digit (d :: ds).
Proof.
  intros Hz. unfold decimal.print. destruct (Z.ltb_spec z 0) as [|_]; [lia|].
  destruct (digits_spec decimal.DIGITS z) as (_ & H2 & H3); [|unfold decimal.DIGITS; lia|].
  { change (10 ^ Z.of_nat decimal.DIGITS) with 100000000000000000000. int_lia. }
  destruct (decimal.digits _ _) as [|d ds]; [done|]. eauto.
Qed.

Lemma digit_first_not_none d s : is_digit d → d :: s ≠ str_bytes "none".
Proof. intros Hd [= -> _]. unfold is_digit in Hd. cbn in Hd. lia. Qed.

Lemma digits_graphic s : Forall is_digit s → Forall graphic s.
Proof. intros Hs. eapply Forall_impl; [exact Hs|]. intros b Hb. apply plain_graphic. by left. Qed.

Lemma not_digit_byte z s : 0 ≤ z < 256 → z < 48 ∨ 57 < z → Forall is_digit s → byte_of_Z z ∉ s.
Proof.
  intros Hz Ho Hs Hi. rewrite Forall_forall in Hs. specialize (Hs _ Hi). unfold is_digit in Hs.
  rewrite byte_to_Z_of_Z, Z.mod_small in Hs; lia.
Qed.

Lemma parse_i16_print z : 0 ≤ z ≤ i16_max → parse_i16 (decimal.print z) = Ok z.
Proof. intros Hz. unfold parse_i16. by rewrite parse_print by int_lia. Qed.

Lemma parse_open z : 0 ≤ z ≤ i16_max →
  parse_range (bytes_str (decimal.print z ++ [byte_of_Z 43])) = Ok (mkRange z i16_max).
Proof.
  intros Hz. destruct (print_digits z Hz) as (d & ds & E & Hd). unfold parse_range.
  rewrite str_bytes_str, trim_graphic.
  2: { rewrite E. apply Forall_app. split; [by apply digits_graphic|]. apply Forall_singleton. by vm_compute. }
  rewrite bool_decide_eq_false_2.
  2: { rewrite E. cbn [app]. apply digit_first_not_none. by apply Forall_inv in Hd. }
  rewrite strip_suffix_app, parse_i16_print by done. done.
Qed.

Lemma parse_closed a b : 0 ≤ a ≤ i16_max → 0 ≤ b ≤ i16_max →
  parse_range (bytes_str (decimal.print a ++ byte_of_Z 45 :: decimal.print b)) = Ok (mkRange a b).
Proof.
  intros Ha Hb. destruct (print_digits a Ha) as (d & ds & E & Hd).
  destruct (print_digits b Hb) as (e & es & E' & He). unfold parse_range.
  assert (Forall plain (decimal.print a ++ byte_of_Z 45 :: decimal.print b)) as Hp.
  { apply Forall_app. split; [|constructor; [by right|]]; [rewrite E|rewrite E'];
      (eapply Forall_impl; [eassumption|]); by left. }
  rewrite str_bytes_str, trim_plain by done. rewrite bool_decide_eq_false_2.
  2: { rewrite E. cbn [app]. apply digit_first_not_none. by apply Forall_inv in Hd. }
  rewrite plain_no_plus by done. rewrite split_once_app by (rewrite E; apply not_digit_byte; [lia..|done]).
  by rewrite !parse_i16_print by done.
Qed.

(** The guard the generator writes for a field is exact: at every version of the
    message it holds iff the field's range has that version, whatever the range (empty,
    disjoint from the message's, or wider than it); what is emitted under it, with the
    constant guards folded away, runs at exactly those versions; and a range that is
    documented is read back as itself. *)
Theorem guards_are_exact (r valid : VersionRange) :
  (∀ v, lo valid ≤ v ≤ hi valid → holds (guard r valid) v = true ↔ lo r ≤ v ≤ hi r) ∧
  (∀ A (body : A) v, lo valid ≤ v ≤ hi valid →
     runs (emit_guarded (guard r valid) body) v = if (lo r <=? v) && (v <=? hi r) then Some body else None) ∧
  (∀ other v, lo (intersect r other) ≤ v ≤ hi (intersect r other) ↔ lo r ≤ v ≤ hi r ∧ lo other ≤ v ≤ hi other) ∧
  (0 ≤ lo r ≤ i16_max → 0 ≤ hi r ≤ i16_max → parse_range (range_doc r) = Ok r).
Proof.
  assert (∀ v, lo valid ≤ v ≤ hi valid → holds (guard r valid) v = (lo r <=? v) && (v <=? hi r)) as Hg.
  { intros v Hv. unfold guard, is_empty.
    destruct (Z.ltb_spec (hi r) (lo r)); [cbn; lia|].
    destruct (Z.ltb_spec (lo valid) (lo r)), (Z.ltb_spec (hi r) (hi valid)); cbn [holds]; [|lia..].
    destruct (Z.eqb_spec (lo r) (hi r)); cbn [holds]; lia. }
  split_and!.
  - intros v Hv. rewrite Hg by done. lia.
  - intros A body v Hv. rewrite <- (Hg v Hv). by destruct (guard r valid).
  - intros other v. cbn. lia.
  - intros Hl Hh. unfold range_doc. destruct (Z.eqb_spec (hi r) i16_max) as [E|_].
    + rewrite <- (bytes_str_bytes (_ +:+ _)), str_bytes_app. unfold dec_text at 1. rewrite str_bytes_str.
      rewrite parse_open by done. destruct r; cbn in *; congruence.
    + rewrite <- (bytes_str_bytes (_ +:+ _)), !str_bytes_app. unfold dec_text. rewrite !str_bytes_str.
      change (str_bytes "-" ++ ?l) with (byte_of_Z 45 :: l). rewrite parse_closed by done. by destruct r.
Qed.

Lemma guards_are_exact_witness :
  expr (mkRange 1 3) (mkRange 0 6) = "(1..=3).contains(&version)" ∧
  holds (guard (mkRange 1 3) (mkRange 0 6)) 4 = false ∧ guard (mkRange 7 9) (mkRange 0 6) = AtLeast 7 ∧
  parse_range (range_doc (mkRange 1 3)) = Ok (mkRange 1 3).
Proof.
  split_and!; [by vm_compute..|].
  apply (proj2 (proj2 (proj2 (guards_are_exact (mkRange 1 3) (mkRange 0 6))))); cbn; int_lia.
Defined.
