(* ===== verification/Subject.v ===== *)
(** * The reference broker: its cluster ([odradek-acceptance/src/subject.rs])

    The acceptance suite is tried on a small broker of its own: three nodes over one
    state behind a mutex, with faults that make it break one promise at a time.  This
    file has the faults, the state, what places a name on a node, the framing of
    answers, and the handlers that only read the state or change its topics and
    committed offsets; [SubjectLog] has the logs and transactions, [SubjectGroups] the
    groups, [SubjectServe] authentication and connections.

    Each handler is the function of the source: of a frame, the version it names, the
    faults, and the state; it returns the bytes to send ([None] closes the
    connection) and the state it leaves. *)
From S2P Require Import Prelude Text Budget Codec Wire Frame Fields MessageTrait MsgConnection MsgTxn MsgGroup MsgGroupAdmin MsgOffset MsgMetadata MsgAdmin MsgFetch MsgProduce Registry.
Import BudgetOps.
Import request_header response_header.

(** ** Faults *)

Inductive Fault : Type :=
| WrongCorrelationEcho | InvertedVersionRange | OmitApiVersionsKey | WrongErrorOnUnsupportedVersion
| ErrorBodyNotV0 | AdvertiseWrongMaxInError | TrailingGarbage | FetchTrailingGarbage
| FlexibleHeaderOnV3 | MetadataEmptyBrokers | MetadataUnrequestedTopic | MetadataNonFlexibleHeader
| ProduceWrongBaseOffset | FetchCorruptBatch | ProduceTopicIdUnknown | ListOffsetsWrongEarliest
| FindCoordinatorWrongKey | OffsetFetchLosesCommit | OffsetFetchUnsetIsZero
| ScramNonceReplacesClients | ScramWeakIterations | ScramSkipsServerSignature
| BrokersDisagreeOnLeader | ReplicasCollapseToTheLeader | CoordinatorIsWhoeverAsked
| AnyBrokerAcceptsWrites | AnyBrokerServesGroups | LeadershipStaysWithTheStoppedBroker
| OffsetsDieWithTheirCoordinator | MisshapesOneProduceVersion | SaslHandshakeHidesMechanisms
| SaslAuthenticateWithoutHandshake | ConsumerGroupEpochStuck | ConsumerGroupNullSubscriptionRevokes
| ConsumerGroupAssignsNothing | ConsumerGroupIgnoresEpoch | JoinGroupAcceptsEmptyMemberId
| SyncGroupRewritesAssignment | GroupIgnoresGeneration | FetchPastEndSucceeds
| MetadataUnknownTopicOmitted | CreateTopicsDuplicateSucceeds | CreateTopicsValidateOnlyCreates
| FetchCorruptOnOldVersions | FetchWrongTopicId | ProduceAnswersAcksZero | MetadataRemintsTopicId
| ProduceAcceptsFencedEpoch | TxnCommitMarksAborted | TxnOffsetsPublishImmediately
| ProduceRewritesGzipBatches | ProduceRewritesSnappyBatches | ProduceRewritesLz4Batches
| ProduceRewritesZstdBatches | FetchIgnoresMaxWait | MetadataLeaderIsUnknown
| DescribeGroupsHidesMembers | OffsetCommitDropsMetadata | LeaveGroupKeepsTheMember
| CreateTopicsIgnoresReplicationFactor | ListOffsetsTimestampReturnsLogEnd
| DeleteTopicsKeepsTheTopic | ProduceAppendsIdempotentRetries | ProduceAcceptsSequenceGaps
| TxnInitReusesEpoch | TxnIgnoresProducerEpoch | TxnUnannouncedWriteEscapes
| TxnStableOffsetIgnoresOpenTxn | TxnAbortListOmitted.

(** [Fault::ALL], in its order. *)
Definition ALL : list Fault :=
  [WrongCorrelationEcho; InvertedVersionRange; OmitApiVersionsKey; WrongErrorOnUnsupportedVersion;
   ErrorBodyNotV0; AdvertiseWrongMaxInError; TrailingGarbage; FetchTrailingGarbage;
   FlexibleHeaderOnV3; MetadataEmptyBrokers; MetadataUnrequestedTopic; MetadataNonFlexibleHeader;
   ProduceWrongBaseOffset; FetchCorruptBatch; ProduceTopicIdUnknown; FetchWrongTopicId;
   ProduceAnswersAcksZero; MetadataRemintsTopicId; ProduceAcceptsFencedEpoch; TxnCommitMarksAborted;
   TxnOffsetsPublishImmediately; ProduceRewritesGzipBatches; ProduceRewritesSnappyBatches;
   ProduceRewritesLz4Batches; ProduceRewritesZstdBatches; FetchIgnoresMaxWait;
   MetadataLeaderIsUnknown; DescribeGroupsHidesMembers; OffsetCommitDropsMetadata;
   LeaveGroupKeepsTheMember; CreateTopicsIgnoresReplicationFactor;
   ListOffsetsTimestampReturnsLogEnd; DeleteTopicsKeepsTheTopic; ProduceAppendsIdempotentRetries;
   ProduceAcceptsSequenceGaps; TxnInitReusesEpoch; TxnIgnoresProducerEpoch;
   TxnUnannouncedWriteEscapes; TxnStableOffsetIgnoresOpenTxn; TxnAbortListOmitted;
   ListOffsetsWrongEarliest; FindCoordinatorWrongKey; OffsetFetchLosesCommit;
   OffsetFetchUnsetIsZero; FetchCorruptOnOldVersions; FetchPastEndSucceeds;
   MetadataUnknownTopicOmitted; CreateTopicsDuplicateSucceeds; CreateTopicsValidateOnlyCreates;
   JoinGroupAcceptsEmptyMemberId; SyncGroupRewritesAssignment; GroupIgnoresGeneration;
   ConsumerGroupEpochStuck; ConsumerGroupNullSubscriptionRevokes; ConsumerGroupAssignsNothing;
   ConsumerGroupIgnoresEpoch; SaslHandshakeHidesMechanisms; SaslAuthenticateWithoutHandshake;
   ScramNonceReplacesClients; ScramWeakIterations; ScramSkipsServerSignature;
   BrokersDisagreeOnLeader; ReplicasCollapseToTheLeader; CoordinatorIsWhoeverAsked;
   AnyBrokerAcceptsWrites; AnyBrokerServesGroups; LeadershipStaysWithTheStoppedBroker;
   OffsetsDieWithTheirCoordinator; MisshapesOneProduceVersion].

Definition fault_index (f : Fault) : nat :=
  match f with
  | WrongCorrelationEcho => 0 | InvertedVersionRange => 1 | OmitApiVersionsKey => 2
  | WrongErrorOnUnsupportedVersion => 3 | ErrorBodyNotV0 => 4 | AdvertiseWrongMaxInError => 5
  | TrailingGarbage => 6 | FetchTrailingGarbage => 7 | FlexibleHeaderOnV3 => 8
  | MetadataEmptyBrokers => 9 | MetadataUnrequestedTopic => 10 | MetadataNonFlexibleHeader => 11
  | ProduceWrongBaseOffset => 12 | FetchCorruptBatch => 13 | ProduceTopicIdUnknown => 14
  | ListOffsetsWrongEarliest => 40 | FindCoordinatorWrongKey => 41 | OffsetFetchLosesCommit => 42
  | OffsetFetchUnsetIsZero => 43 | ScramNonceReplacesClients => 58 | ScramWeakIterations => 59
  | ScramSkipsServerSignature => 60 | BrokersDisagreeOnLeader => 61
  | ReplicasCollapseToTheLeader => 62 | CoordinatorIsWhoeverAsked => 63
  | AnyBrokerAcceptsWrites => 64 | AnyBrokerServesGroups => 65
  | LeadershipStaysWithTheStoppedBroker => 66 | OffsetsDieWithTheirCoordinator => 67
  | MisshapesOneProduceVersion => 68 | SaslHandshakeHidesMechanisms => 56
  | SaslAuthenticateWithoutHandshake => 57 | ConsumerGroupEpochStuck => 52
  | ConsumerGroupNullSubscriptionRevokes => 53 | ConsumerGroupAssignsNothing => 54
  | ConsumerGroupIgnoresEpoch => 55 | JoinGroupAcceptsEmptyMemberId => 49
  | SyncGroupRewritesAssignment => 50 | GroupIgnoresGeneration => 51 | FetchPastEndSucceeds => 45
  | MetadataUnknownTopicOmitted => 46 | CreateTopicsDuplicateSucceeds => 47
  | CreateTopicsValidateOnlyCreates => 48 | FetchCorruptOnOldVersions => 44
  | FetchWrongTopicId => 15 | ProduceAnswersAcksZero => 16 | MetadataRemintsTopicId => 17
  | ProduceAcceptsFencedEpoch => 18 | TxnCommitMarksAborted => 19
  | TxnOffsetsPublishImmediately => 20 | ProduceRewritesGzipBatches => 21
  | ProduceRewritesSnappyBatches => 22 | ProduceRewritesLz4Batches => 23
  | ProduceRewritesZstdBatches => 24 | FetchIgnoresMaxWait => 25 | MetadataLeaderIsUnknown => 26
  | DescribeGroupsHidesMembers => 27 | OffsetCommitDropsMetadata => 28
  | LeaveGroupKeepsTheMember => 29 | CreateTopicsIgnoresReplicationFactor => 30
  | ListOffsetsTimestampReturnsLogEnd => 31 | DeleteTopicsKeepsTheTopic => 32
  | ProduceAppendsIdempotentRetries => 33 | ProduceAcceptsSequenceGaps => 34
  | TxnInitReusesEpoch => 35 | TxnIgnoresProducerEpoch => 36 | TxnUnannouncedWriteEscapes => 37
  | TxnStableOffsetIgnoresOpenTxn => 38 | TxnAbortListOmitted => 39
  end.

Lemma all_at f : ALL !! fault_index f = Some f.
Proof. by destruct f. Qed.

#[global] Instance Fault_eq_dec : EqDecision Fault.
Proof.
  intros f g. destruct (decide (fault_index f = fault_index g)) as [E|E].
  - left. assert (Some f = Some g) as [= ->]; [|done]. by rewrite <- (all_at f), <- (all_at g), E.
  - right. by intros ->.
Defined.

(** [faults.contains(&f)]. *)
Definition has (f : Fault) (faults : list Fault) : bool := bool_decide (f ∈ faults).

(** ** Constants *)

Abbreviation AddOffsetsToTxnRequest := add_offsets_to_txn_request.AddOffsetsToTxnRequest.t.
Abbreviation AddPartitionsToTxnRequest := add_partitions_to_txn_request.AddPartitionsToTxnRequest.t.
Abbreviation ApiVersionsRequest := api_versions_request.ApiVersionsRequest.t.
Abbreviation ConsumerGroupHeartbeatRequest := consumer_group_heartbeat_request.ConsumerGroupHeartbeatRequest.t.
Abbreviation CreateTopicsRequest := create_topics_request.CreateTopicsRequest.t.
Abbreviation DeleteTopicsRequest := delete_topics_request.DeleteTopicsRequest.t.
Abbreviation DescribeGroupsRequest := describe_groups_request.DescribeGroupsRequest.t.
Abbreviation EndTxnRequest := end_txn_request.EndTxnRequest.t.
Abbreviation FetchRequest := fetch_request.FetchRequest.t.
Abbreviation FindCoordinatorRequest := find_coordinator_request.FindCoordinatorRequest.t.
Abbreviation HeartbeatRequest := heartbeat_request.HeartbeatRequest.t.
Abbreviation InitProducerIdRequest := init_producer_id_request.InitProducerIdRequest.t.
Abbreviation JoinGroupRequest := join_group_request.JoinGroupRequest.t.
Abbreviation LeaveGroupRequest := leave_group_request.LeaveGroupRequest.t.
Abbreviation ListOffsetsRequest := list_offsets_request.ListOffsetsRequest.t.
Abbreviation MetadataRequest := metadata_request.MetadataRequest.t.
Abbreviation OffsetCommitRequest := offset_commit_request.OffsetCommitRequest.t.
Abbreviation OffsetFetchRequest := offset_fetch_request.OffsetFetchRequest.t.
Abbreviation ProduceRequest := produce_request.ProduceRequest.t.
Abbreviation SaslAuthenticateRequest := sasl_authenticate_request.SaslAuthenticateRequest.t.
Abbreviation SaslHandshakeRequest := sasl_handshake_request.SaslHandshakeRequest.t.
Abbreviation SyncGroupRequest := sync_group_request.SyncGroupRequest.t.
Abbreviation TxnOffsetCommitRequest := txn_offset_commit_request.TxnOffsetCommitRequest.t.

Definition key (M : Type) `{Message M} : Z := Message.API_KEY (M := M).

Definition MAX_SUPPORTED_API_VERSIONS : Z := Message.MAX_VERSION (M := ApiVersionsRequest).
Definition BROKER_NODE_ID : Z := 1.
Definition NODES : nat := 3.
Definition EARLIEST_TIMESTAMP : Z := -2.
Definition LATEST_TIMESTAMP : Z := -1.
Definition UNSET_OFFSET : Z := -1.
Definition FIND_COORDINATOR_BATCHED : Z := 4.
Definition OFFSET_FETCH_BATCHED : Z := 8.
Definition LOCALHOST : string := "127.0.0.1".
Definition CLIENT_ID_LABEL : string := "odradek-acceptance".

(** ** State *)

(** The last batch one producer wrote to a partition. *)
Record LastBatch : Type := mkLastBatch {
  base_sequence : Z;
  next_sequence : Z;
  base_offset : Z;
}.

(** [open]: the producers with a transaction open in the partition, and where their
    first record landed; [aborted]: producer and first offset of the aborted ones. *)
Record PartitionLog : Type := mkPartitionLog {
  bytes : list byte;
  next_offset : Z;
  open : gmap Z Z;
  aborted : list (Z * Z);
  last_batch : gmap Z LastBatch;
}.
Definition empty_log : PartitionLog := mkPartitionLog [] 0 ∅ [] ∅.

Definition min_of (l : list Z) : option Z :=
  match l with [] => None | x :: l => Some (foldl Z.min x l) end.

Definition last_stable_offset (log : PartitionLog) : Z :=
  default (next_offset log) (min_of ((map_to_list (open log)).*2)).

(** Where a group is in a topic: group, topic and partition. *)
Abbreviation Place := (string * string * Z)%type.
Abbreviation Committed := (gmap Place (Z * option string)).

Record TxnState : Type := mkTxnState {
  producer_id : Z;
  epoch : Z;
  partitions : gset (string * Z);
  pending_offsets : Committed;
}.

(** A group of the classic protocol; members in the order they joined. *)
Record GroupState : Type := mkGroupState {
  generation_id : Z;
  members : list string;
  protocol_type : string;
  protocol_name : string;
  assignments : gmap string (list byte);
  minted : list string;
}.
Definition empty_group : GroupState := mkGroupState 0 [] "" "" ∅ [].

(** A member of the next-generation protocol; [told] is the assignment it was last
    told. *)
Record Member848 : Type := mkMember848 {
  member_epoch : Z;
  subscribed : list string;
  told : option (list (list byte * list Z));
}.

Record ClusterState : Type := mkClusterState {
  logs : gmap (string * Z) PartitionLog;
  topic_names : gmap (list byte) string;
  committed : Committed;
  groups : gmap string GroupState;
  members_848 : gmap (string * string) Member848;
  txns : gmap string TxnState;
  next_producer_id : Z;
  created : gmap string (list byte);
  ports : list Z;
  state_faults : list Fault;
  down : gset Z;
}.
Definition set_logs v (s : ClusterState) : ClusterState :=
  mkClusterState v (topic_names s) (committed s) (groups s) (members_848 s) (txns s) (next_producer_id s) (created s) (ports s) (state_faults s) (down s).
Definition set_topic_names v (s : ClusterState) : ClusterState :=
  mkClusterState (logs s) v (committed s) (groups s) (members_848 s) (txns s) (next_producer_id s) (created s) (ports s) (state_faults s) (down s).
Definition set_committed v (s : ClusterState) : ClusterState :=
  mkClusterState (logs s) (topic_names s) v (groups s) (members_848 s) (txns s) (next_producer_id s) (created s) (ports s) (state_faults s) (down s).
Definition set_groups v (s : ClusterState) : ClusterState :=
  mkClusterState (logs s) (topic_names s) (committed s) v (members_848 s) (txns s) (next_producer_id s) (created s) (ports s) (state_faults s) (down s).
Definition set_members_848 v (s : ClusterState) : ClusterState :=
  mkClusterState (logs s) (topic_names s) (committed s) (groups s) v (txns s) (next_producer_id s) (created s) (ports s) (state_faults s) (down s).
Definition set_txns v (s : ClusterState) : ClusterState :=
  mkClusterState (logs s) (topic_names s) (committed s) (groups s) (members_848 s) v (next_producer_id s) (created s) (ports s) (state_faults s) (down s).
Definition set_next_producer_id v (s : ClusterState) : ClusterState :=
  mkClusterState (logs s) (topic_names s) (committed s) (groups s) (members_848 s) (txns s) v (created s) (ports s) (state_faults s) (down s).
Definition set_created v (s : ClusterState) : ClusterState :=
  mkClusterState (logs s) (topic_names s) (committed s) (groups s) (members_848 s) (txns s) (next_producer_id s) v (ports s) (state_faults s) (down s).
Definition set_down v (s : ClusterState) : ClusterState :=
  mkClusterState (logs s) (topic_names s) (committed s) (groups s) (members_848 s) (txns s) (next_producer_id s) (created s) (ports s) (state_faults s) v.

(** [spawn]: a fresh cluster whose brokers listen at these ports. *)
Definition spawned (ports : list Z) (faults : list Fault) : ClusterState :=
  mkClusterState ∅ ∅ ∅ ∅ ∅ ∅ 0 ∅ ports faults ∅.

(** ** Placement *)

Definition FNV_OFFSET : Z := 14695981039346656037.
Definition FNV_PRIME : Z := 1099511628211.
Definition fnv (name : text) : Z :=
  foldl (λ acc b, wrap 64 (Z.lxor acc (byte_to_Z b) * FNV_PRIME)) FNV_OFFSET name.

Definition placement_over (name : string) (candidates : list Z) : Z :=
  match candidates with
  | [] => BROKER_NODE_ID
  | _ =>
      let index := Z.to_nat (fnv (str_bytes name) mod len candidates) in
      default BROKER_NODE_ID (candidates !! index)
  end.

(** Every broker, as node id and port. *)
Definition nodes (s : ClusterState) : list (Z * Z) :=
  imap (λ i port, (default BROKER_NODE_ID (try_from i32_min i32_max (Z.of_nat (S i))), port)) (ports s).
Definition node_ids (s : ClusterState) : list Z := (nodes s).*1.
Definition is_down (node : Z) (s : ClusterState) : bool := bool_decide (node ∈ down s).
Definition live (s : ClusterState) : list Z := base.filter (λ node, is_down node s = false) (node_ids s).
Definition placement (name : string) (s : ClusterState) : Z := placement_over name (live s).

Definition port_of (node : Z) (s : ClusterState) : Z :=
  match try_from 0 usize_max (node - 1) with
  | Some i => default 0 (ports s !! Z.to_nat i)
  | None => 0
  end.

(** [mint_topic_id]. *)
Definition ID_BYTES : nat := 16.
Definition rotate_left (x : Z) (k : nat) : Z :=
  wrap 8 (Z.lor (Z.shiftl x (Z.of_nat k)) (Z.shiftr x (8 - Z.of_nat k))).
Fixpoint mint_from (i : nat) (acc : Z) (id : list byte) (name : text) : list byte :=
  match name with
  | [] => id
  | b :: name =>
      let acc := wrap 8 (acc * 31 + byte_to_Z b) in
      let flip c := byte_of_Z (Z.lxor (byte_to_Z c) (rotate_left acc (i mod 7)%nat)) in
      mint_from (S i) acc (alter flip (i mod ID_BYTES)%nat id) name
  end.
Definition mint_topic_id (name : string) : list byte :=
  alter (λ c, byte_of_Z (Z.lor (byte_to_Z c) 1)) 0%nat
    (mint_from 0 158 (replicate ID_BYTES Byte.x00) (str_bytes name)).

(** ** Frames *)

Section subject.
Context {R : Runtime}.

Definition header_of (api_key api_version : Z) : Z := default 0 (response_header_version api_key api_version).

Definition GARBAGE : list byte := [Byte.xde; Byte.xad; Byte.xbe].

Definition frame_response (correlation header_version : Z) (body : enc) (trailing_garbage : bool) :
    option (list byte) :=
  match frame (ResponseHeader.encode header_version (ResponseHeader.mk correlation []) ;; body ;;
               if trailing_garbage then put_slice GARBAGE else enc_ret) [] with
  | (Ok _, out) => Some out
  | (Err _, _) => None
  end.

(** What every handler but that of ApiVersions begins with. *)
Definition decode_request (Req : Type) `{Message Req} (frame : list byte) (api_version : Z) :
    option (RequestHeader.t * Req) :=
  if negb ((Message.MIN_VERSION (M := Req) <=? api_version) && (api_version <=? Message.MAX_VERSION (M := Req))) then
    None
  else
    match request_header_version (key Req) api_version with
    | None => None
    | Some hv =>
        match RequestHeader.decode hv frame with
        | Err _ => None
        | Ok (h, frame) =>
            match Message.decode api_version frame with
            | Err _ => None
            | Ok (request, _) => Some (h, request)
            end
        end
    end.

(** What every such handler ends with. *)
Definition reply (Req : Type) `{Message Req} {Resp : Type} `{Message Resp} (h : RequestHeader.t) (api_version : Z)
    (resp : Resp) : option (list byte) :=
  frame_response (RequestHeader.correlation_id h) (header_of (key Req) api_version)
    (Message.encode api_version resp) false.

(** A handler that answers from the state, and one that changes it. *)
Definition reading (Req : Type) `{Message Req} {Resp : Type} `{Message Resp}
    (answer : Req → Resp) (frame : list byte) (api_version : Z) : option (list byte) :=
  '(h, request) ← decode_request Req frame api_version;
  reply Req h api_version (answer request).

Definition changing (Req : Type) `{Message Req} {Resp : Type} `{Message Resp}
    (answer : Req → ClusterState → Resp * ClusterState) (frame : list byte) (api_version : Z) (s : ClusterState) :
    option (list byte) * ClusterState :=
  match decode_request Req frame api_version with
  | None => (None, s)
  | Some (h, request) =>
      let (resp, s) := answer request s in
      (reply Req h api_version resp, s)
  end.

(** ** ApiVersions *)

Definition advertise (Req : Type) `{Message Req} : api_versions_response.ApiVersion.t :=
  api_versions_response.ApiVersion.mk (Message.API_KEY (M := Req)) (Message.MIN_VERSION (M := Req))
    (Message.MAX_VERSION (M := Req)) [].

Definition advertised_keys : list api_versions_response.ApiVersion.t :=
  [advertise ApiVersionsRequest; advertise ProduceRequest; advertise FetchRequest; advertise MetadataRequest;
   advertise CreateTopicsRequest; advertise ListOffsetsRequest; advertise FindCoordinatorRequest;
   advertise DescribeGroupsRequest; advertise DeleteTopicsRequest; advertise InitProducerIdRequest;
   advertise AddPartitionsToTxnRequest; advertise EndTxnRequest; advertise AddOffsetsToTxnRequest;
   advertise TxnOffsetCommitRequest; advertise OffsetCommitRequest; advertise OffsetFetchRequest;
   advertise JoinGroupRequest; advertise SyncGroupRequest; advertise HeartbeatRequest;
   advertise LeaveGroupRequest; advertise ConsumerGroupHeartbeatRequest; advertise SaslHandshakeRequest;
   advertise SaslAuthenticateRequest].

(** [if let Some(k) = keys.iter_mut().find(..)]: the first entry of an api. *)
Fixpoint update_key (api : Z) (f : api_versions_response.ApiVersion.t → api_versions_response.ApiVersion.t)
    (keys : list api_versions_response.ApiVersion.t) : list api_versions_response.ApiVersion.t :=
  match keys with
  | [] => []
  | k :: keys =>
      if api_versions_response.ApiVersion.api_key k =? api then f k :: keys else k :: update_key api f keys
  end.

Definition with_range (lo hi : Z) (k : api_versions_response.ApiVersion.t) : api_versions_response.ApiVersion.t :=
  api_versions_response.ApiVersion.mk (api_versions_response.ApiVersion.api_key k) lo hi
    (api_versions_response.ApiVersion.unknown_tagged_fields k).

Definition api_versions_exchange (frame : list byte) (api_version : Z) (faults : list Fault) : option (list byte) :=
  let supported := api_version <=? MAX_SUPPORTED_API_VERSIONS in
  hv ← request_header_version (key ApiVersionsRequest) api_version;
  match RequestHeader.decode hv frame with
  | Err _ => None
  | Ok (h, _) =>
      let keys := advertised_keys in
      let keys := if has OmitApiVersionsKey faults
        then base.filter (λ k, api_versions_response.ApiVersion.api_key k ≠ key ApiVersionsRequest) keys else keys in
      let keys := if has InvertedVersionRange faults
        then update_key (key ProduceRequest) (with_range 12 3) keys else keys in
      let '(error_code, encode_at, keys) :=
        if supported then (0, api_version, keys)
        else
          (if has WrongErrorOnUnsupportedVersion faults then 0 else error_code.UNSUPPORTED_VERSION,
           if has ErrorBodyNotV0 faults then 3 else 0,
           if has AdvertiseWrongMaxInError faults
           then update_key (key ApiVersionsRequest) (λ k, with_range (api_versions_response.ApiVersion.min_version k)
             (sint 16 (api_versions_response.ApiVersion.max_version k + 1)) k) keys
           else keys) in
      let resp := api_versions_response.ApiVersionsResponse.mk error_code keys 0 None None None None [] in
      let header_version := if has FlexibleHeaderOnV3 faults && supported && (3 <=? api_version) then 1 else 0 in
      let correlation := RequestHeader.correlation_id h in
      let correlation := if has WrongCorrelationEcho faults then sint 32 (correlation + 1) else correlation in
      frame_response correlation header_version (Message.encode encode_at resp) (has TrailingGarbage faults)
  end.

(** ** Metadata *)

Definition broker_entry (broker : Z * Z) : metadata_response.MetadataResponseBroker.t :=
  metadata_response.MetadataResponseBroker.mk broker.1 LOCALHOST broker.2 None [].

Definition named_topic (error_code : Z) (name : string) (topic_id : list byte)
    (partitions : list metadata_response.MetadataResponsePartition.t) : metadata_response.MetadataResponseTopic.t :=
  metadata_response.MetadataResponseTopic.mk error_code (Some name) topic_id false partitions (-2147483648) [].

Definition ZERO_ID : list byte := replicate ID_BYTES Byte.x00.

Definition leader_of (name : string) (node : Z) (faults : list Fault) (s : ClusterState) : Z :=
  if has BrokersDisagreeOnLeader faults then node
  else if has LeadershipStaysWithTheStoppedBroker faults then placement_over name (node_ids s)
  else placement name s.

Definition topic_metadata (correlation node : Z) (faults : list Fault) (s : ClusterState) (name : string) :
    metadata_response.MetadataResponseTopic.t :=
  match created s !! name with
  | None => named_topic error_code.UNKNOWN_TOPIC_OR_PARTITION name ZERO_ID []
  | Some id =>
      let topic_id := if has MetadataRemintsTopicId faults then take 12 id ++ be_bytes 4 correlation else id in
      let leader := leader_of name node faults s in
      let replicas :=
        if has ReplicasCollapseToTheLeader faults then [leader]
        else leader :: base.filter (λ n, n ≠ leader) (node_ids s) in
      named_topic 0 name topic_id
        [metadata_response.MetadataResponsePartition.mk 0 0
           (if has MetadataLeaderIsUnknown faults then leader + 999 else leader) 0 replicas replicas [] []]
  end.

Definition requested_names (request : MetadataRequest) : list string :=
  omap metadata_request.MetadataRequestTopic.name
    (default [] (metadata_request.MetadataRequest.topics request)).

Definition metadata_answer (correlation node : Z) (faults : list Fault) (request : MetadataRequest) (s : ClusterState) :
    metadata_response.MetadataResponse.t :=
  let brokers := if has MetadataEmptyBrokers faults then [] else broker_entry <$> nodes s in
  let requested := requested_names request in
  let topics :=
    if has MetadataUnrequestedTopic faults && match requested with [] => true | _ => false end then
      [named_topic 0 "phantom" ZERO_ID []]
    else if has MetadataUnknownTopicOmitted faults then []
    else topic_metadata correlation node faults s <$> requested in
  metadata_response.MetadataResponse.mk 0 brokers (Some "odradek-reference") 1 topics (-2147483648) 0 [].

Definition metadata_exchange (frame : list byte) (api_version node : Z) (faults : list Fault) (s : ClusterState) :
    option (list byte) :=
  '(h, request) ← decode_request MetadataRequest frame api_version;
  let resp := metadata_answer (RequestHeader.correlation_id h) node faults request s in
  let header_version :=
    if metadata_request.is_flexible api_version && negb (has MetadataNonFlexibleHeader faults) then 1 else 0 in
  frame_response (RequestHeader.correlation_id h) header_version (Message.encode api_version resp) false.

(** ** Topics *)

Definition create_topic (validate_only : bool) (faults : list Fault)
    (t : create_topics_request.CreatableTopic.t) (s : ClusterState) :
    create_topics_response.CreatableTopicResult.t * ClusterState :=
  let name := create_topics_request.CreatableTopic.name t in
  let topic_id := mint_topic_id name in
  let exists_ := bool_decide (is_Some (created s !! name)) in
  let brokers := default i16_max (try_from (-32768) i16_max (Z.max (len (ports s)) 1)) in
  let overreplicated := (brokers <? create_topics_request.CreatableTopic.replication_factor t) &&
    negb (has CreateTopicsIgnoresReplicationFactor faults) in
  let error_code :=
    if exists_ && negb (has CreateTopicsDuplicateSucceeds faults) then error_code.TOPIC_ALREADY_EXISTS
    else if overreplicated then error_code.INVALID_REPLICATION_FACTOR
    else 0 in
  let result := create_topics_response.CreatableTopicResult.mk name topic_id error_code (Some "")
    (Z.max (create_topics_request.CreatableTopic.num_partitions t) 1)
    (Z.max (create_topics_request.CreatableTopic.replication_factor t) 1) (Some []) None [] in
  if negb exists_ && (error_code =? 0) && negb validate_only then
    (result, set_topic_names (<[topic_id := name]> (topic_names s)) (set_created (<[name := topic_id]> (created s)) s))
  else (result, s).

(** [map] with a closure that changes the state. *)
Fixpoint each {A B S} (f : A → S → B * S) (l : list A) (s : S) : list B * S :=
  match l with
  | [] => ([], s)
  | x :: l =>
      let (y, s) := f x s in
      let (ys, s) := each f l s in
      (y :: ys, s)
  end.

Definition create_topics_answer (faults : list Fault) (request : CreateTopicsRequest) (s : ClusterState) :
    create_topics_response.CreateTopicsResponse.t * ClusterState :=
  let validate_only := create_topics_request.CreateTopicsRequest.validate_only request &&
    negb (has CreateTopicsValidateOnlyCreates faults) in
  let (results, s) :=
    each (create_topic validate_only faults) (create_topics_request.CreateTopicsRequest.topics request) s in
  (create_topics_response.CreateTopicsResponse.mk 0 results [], s).

Definition create_topics_exchange (frame : list byte) (api_version : Z) (faults : list Fault) (s : ClusterState) :
    option (list byte) * ClusterState :=
  changing CreateTopicsRequest (create_topics_answer faults) frame api_version s.

Definition delete_topic (faults : list Fault) (name : string) (s : ClusterState) :
    delete_topics_response.DeletableTopicResult.t * ClusterState :=
  let existed := bool_decide (is_Some (created s !! name)) in
  let s :=
    if existed && negb (has DeleteTopicsKeepsTheTopic faults) then
      let s := match created s !! name with
        | Some id => set_topic_names (delete id (topic_names s)) (set_created (delete name (created s)) s)
        | None => s
        end in
      set_logs (base.filter (λ kv, kv.1.1 ≠ name) (logs s)) s
    else s in
  (delete_topics_response.DeletableTopicResult.mk (Some name) ZERO_ID
     (if existed then 0 else error_code.UNKNOWN_TOPIC_OR_PARTITION) None [], s).

Definition deleted_names (request : DeleteTopicsRequest) : list string :=
  match delete_topics_request.DeleteTopicsRequest.topics request with
  | [] => delete_topics_request.DeleteTopicsRequest.topic_names request
  | topics => omap delete_topics_request.DeleteTopicState.name topics
  end.

Definition delete_topics_answer (faults : list Fault) (request : DeleteTopicsRequest) (s : ClusterState) :
    delete_topics_response.DeleteTopicsResponse.t * ClusterState :=
  let (results, s) := each (delete_topic faults) (deleted_names request) s in
  (delete_topics_response.DeleteTopicsResponse.mk 0 results [], s).

Definition delete_topics_exchange (frame : list byte) (api_version : Z) (faults : list Fault) (s : ClusterState) :
    option (list byte) * ClusterState :=
  changing DeleteTopicsRequest (delete_topics_answer faults) frame api_version s.

(** A topic named by its name, or, where that is empty, by its id. *)
Definition resolve_topic (s : ClusterState) (name : string) (topic_id : list byte) : option string :=
  if String.eqb name "" then topic_names s !! topic_id else Some name.

(** ** Coordinators *)

Definition coordinator_of (name : string) (node : Z) (faults : list Fault) (s : ClusterState) : Z :=
  if has CoordinatorIsWhoeverAsked faults then node else placement name s.

Definition find_coordinator_answer (api_version node : Z) (faults : list Fault) (s : ClusterState)
    (request : FindCoordinatorRequest) : find_coordinator_response.FindCoordinatorResponse.t :=
  if FIND_COORDINATOR_BATCHED <=? api_version then
    find_coordinator_response.FindCoordinatorResponse.mk 0 0 (Some "") 0 "" 0
      ((λ name,
          let owner := coordinator_of name node faults s in
          find_coordinator_response.Coordinator.mk
            (if has FindCoordinatorWrongKey faults then name +:+ "-not-yours" else name)
            owner LOCALHOST (port_of owner s) 0 (Some "") []) <$>
       find_coordinator_request.FindCoordinatorRequest.coordinator_keys request) []
  else
    let owner := coordinator_of (find_coordinator_request.FindCoordinatorRequest.key request) node faults s in
    find_coordinator_response.FindCoordinatorResponse.mk 0 0 (Some "") owner LOCALHOST (port_of owner s) [] [].

Definition find_coordinator_exchange (frame : list byte) (api_version node : Z) (faults : list Fault)
    (s : ClusterState) : option (list byte) :=
  reading FindCoordinatorRequest (find_coordinator_answer api_version node faults s) frame api_version.

(** ** Committed offsets *)

Definition commit_response (name : string) (topic_id : list byte) (code : Z)
    (partitions : list offset_commit_request.OffsetCommitRequestPartition.t) :
    offset_commit_response.OffsetCommitResponseTopic.t :=
  offset_commit_response.OffsetCommitResponseTopic.mk name topic_id
    ((λ p, offset_commit_response.OffsetCommitResponsePartition.mk
        (offset_commit_request.OffsetCommitRequestPartition.partition_index p) code []) <$> partitions) [].

Definition commit_partition (group name : string) (faults : list Fault) (c : Committed)
    (p : offset_commit_request.OffsetCommitRequestPartition.t) : Committed :=
  let metadata := if has OffsetCommitDropsMetadata faults then None
    else offset_commit_request.OffsetCommitRequestPartition.committed_metadata p in
  <[(group, name, offset_commit_request.OffsetCommitRequestPartition.partition_index p) :=
      (offset_commit_request.OffsetCommitRequestPartition.committed_offset p, metadata)]> c.

Definition commit_topic (group : string) (faults : list Fault)
    (t : offset_commit_request.OffsetCommitRequestTopic.t) (s : ClusterState) :
    offset_commit_response.OffsetCommitResponseTopic.t * ClusterState :=
  let name := default "" (resolve_topic s (offset_commit_request.OffsetCommitRequestTopic.name t)
    (offset_commit_request.OffsetCommitRequestTopic.topic_id t)) in
  let ps := offset_commit_request.OffsetCommitRequestTopic.partitions t in
  (commit_response name (offset_commit_request.OffsetCommitRequestTopic.topic_id t) 0 ps,
   set_committed (foldl (commit_partition group name faults) (committed s) ps) s).

Definition offset_commit_answer (node : Z) (faults : list Fault) (request : OffsetCommitRequest) (s : ClusterState) :
    offset_commit_response.OffsetCommitResponse.t * ClusterState :=
  let group := offset_commit_request.OffsetCommitRequest.group_id request in
  let topics := offset_commit_request.OffsetCommitRequest.topics request in
  if negb (placement group s =? node) && negb (has AnyBrokerServesGroups faults) then
    (offset_commit_response.OffsetCommitResponse.mk 0
       ((λ t, commit_response (offset_commit_request.OffsetCommitRequestTopic.name t)
           (offset_commit_request.OffsetCommitRequestTopic.topic_id t) error_code.NOT_COORDINATOR
           (offset_commit_request.OffsetCommitRequestTopic.partitions t)) <$> topics) [], s)
  else
    let (results, s) := each (commit_topic group faults) topics s in
    (offset_commit_response.OffsetCommitResponse.mk 0 results [], s).

Definition offset_commit_exchange (frame : list byte) (api_version node : Z) (faults : list Fault) (s : ClusterState) :
    option (list byte) * ClusterState :=
  changing OffsetCommitRequest (offset_commit_answer node faults) frame api_version s.

Definition committed_offset (faults : list Fault) (s : ClusterState) (group topic : string) (partition : Z) :
    Z * option string :=
  match committed s !! (group, topic, partition) with
  | Some entry => if has OffsetFetchLosesCommit faults then (UNSET_OFFSET, None) else entry
  | None => if has OffsetFetchUnsetIsZero faults then (0, None) else (UNSET_OFFSET, None)
  end.

Definition offset_fetch_answer (api_version : Z) (faults : list Fault) (s : ClusterState) (request : OffsetFetchRequest) :
    offset_fetch_response.OffsetFetchResponse.t :=
  if OFFSET_FETCH_BATCHED <=? api_version then
    offset_fetch_response.OffsetFetchResponse.mk 0 [] 0
      ((λ g,
          let group := offset_fetch_request.OffsetFetchRequestGroup.group_id g in
          offset_fetch_response.OffsetFetchResponseGroup.mk group
            ((λ t,
                let name := offset_fetch_request.OffsetFetchRequestTopics.name t in
                let topic_id := offset_fetch_request.OffsetFetchRequestTopics.topic_id t in
                offset_fetch_response.OffsetFetchResponseTopics.mk name topic_id
                  ((λ index,
                      let (offset, metadata) :=
                        committed_offset faults s group (default "" (resolve_topic s name topic_id)) index in
                      offset_fetch_response.OffsetFetchResponsePartitions.mk index offset (-1) metadata 0 []) <$>
                   offset_fetch_request.OffsetFetchRequestTopics.partition_indexes t) []) <$>
             default [] (offset_fetch_request.OffsetFetchRequestGroup.topics g)) 0 []) <$>
       offset_fetch_request.OffsetFetchRequest.groups request) []
  else
    offset_fetch_response.OffsetFetchResponse.mk 0
      ((λ t,
          let name := offset_fetch_request.OffsetFetchRequestTopic.name t in
          offset_fetch_response.OffsetFetchResponseTopic.mk name
            ((λ index,
                let (offset, metadata) := committed_offset faults s
                  (offset_fetch_request.OffsetFetchRequest.group_id request) name index in
                offset_fetch_response.OffsetFetchResponsePartition.mk index offset (-1) metadata 0 []) <$>
             offset_fetch_request.OffsetFetchRequestTopic.partition_indexes t) []) <$>
       default [] (offset_fetch_request.OffsetFetchRequest.topics request)) 0 [] [].

Definition offset_fetch_exchange (frame : list byte) (api_version : Z) (faults : list Fault) (s : ClusterState) :
    option (list byte) :=
  reading OffsetFetchRequest (offset_fetch_answer api_version faults s) frame api_version.

End subject.
