(* ===== verification/SubjectLog.v ===== *)
(** * The reference broker: logs and transactions ([odradek-acceptance/src/subject.rs])

    What a produce appends and answers, what a fetch and a list-offsets read back, and
    the transactions: claiming an id, announcing partitions, ending, and the offsets
    that wait for the end.  A log keeps the bytes of the sets it was given; its
    offsets are counted beside them. *)
From S2P Require Import Prelude Text Budget Codec Wire Frame Crc Records Fields MessageTrait MsgTxn MsgOffset MsgFetch MsgProduce MsgConnection Registry Subject.
Import request_header response_header.

Abbreviation RecordBatch := Records.RecordBatch.

Definition READ_COMMITTED : Z := 1.

(** Each transactional id's epoch and announced partitions. *)
Abbreviation TxnSnapshot := (gmap string (Z * gset (string * Z))).

Section subject.
Context {R : Runtime}.

(** ** Produce *)

Definition snapshot_of (s : ClusterState) : TxnSnapshot := (λ txn, (epoch txn, partitions txn)) <$> txns s.

Definition state_txn_has_partition (snapshot : TxnSnapshot) (transactional_id : option string) (topic : string)
    (partition : Z) : bool :=
  match transactional_id ≫= λ id, snapshot !! id with
  | Some (_, ps) => bool_decide ((topic, partition) ∈ ps)
  | None => false
  end.

Definition fenced_at_the_leader (snapshot : TxnSnapshot) (transactional_id : option string)
    (batch : option RecordBatch) (faults : list Fault) : option Z :=
  if has ProduceAcceptsFencedEpoch faults then None
  else
    batch ← batch;
    id ← transactional_id;
    '(epoch, _) ← snapshot !! id;
    if Records.producer_epoch batch <? epoch then Some error_code.PRODUCER_FENCED else None.

(** A batch that carries a stamp the broker looks at. *)
Definition stamped (batch : RecordBatch) : bool :=
  (0 <=? Records.producer_id batch) && (0 <=? Records.base_sequence batch).

Definition stamped_verdict (log : PartitionLog) (batch : option RecordBatch) (faults : list Fault) : option Z :=
  if has ProduceAcceptsSequenceGaps faults then None
  else
    batch ← batch;
    if negb (stamped batch) then None
    else
      known ← last_batch log !! Records.producer_id batch;
      if (Records.base_sequence batch =? base_sequence known) || (Records.base_sequence batch =? next_sequence known)
      then None
      else Some error_code.OUT_OF_ORDER_SEQUENCE_NUMBER.

Definition duplicate_of (log : PartitionLog) (batch : option RecordBatch) (faults : list Fault) : option Z :=
  if has ProduceAppendsIdempotentRetries faults then None
  else
    batch ← batch;
    if negb (stamped batch) then None
    else
      known ← last_batch log !! Records.producer_id batch;
      if Records.base_sequence batch =? base_sequence known then Some (base_offset known) else None.

(** [max_timestamp] is the field that is changed. *)
Definition later (b : RecordBatch) : RecordBatch :=
  Records.mkRecordBatch (Records.base_offset b) (Records.partition_leader_epoch b) (Records.attributes b)
    (Records.last_offset_delta b) (Records.base_timestamp b) (sint 64 (Records.max_timestamp b + 1))
    (Records.producer_id b) (Records.producer_epoch b) (Records.base_sequence b) (Records.records b).

Definition rewrite_compressed (batches : list RecordBatch) (faults : list Fault) : option (list byte) :=
  batch ← head batches;
  match Records.records batch with
  | Records.Plain _ => None
  | Records.Compressed _ _ =>
      wanted ← match Z.land (Records.attributes batch) 7 with
               | 1 => Some ProduceRewritesGzipBatches
               | 2 => Some ProduceRewritesSnappyBatches
               | 3 => Some ProduceRewritesLz4Batches
               | 4 => Some ProduceRewritesZstdBatches
               | _ => None
               end;
      if negb (has wanted faults) then None
      else match RecordBatchOps.encode_to (later batch) [] with (Ok _, out) => Some out | (Err _, _) => None end
  end.

(** The offsets a list of batches takes up. *)
Definition span (batches : list RecordBatch) : Z := foldr (λ b n, Records.last_offset_delta b + 1 + n) 0 batches.

(** The transaction a write joins, announced or not. *)
Definition join_txn (faults : list Fault) (snapshot : TxnSnapshot) (transactional_id : option string)
    (name : string) (index : Z) (batches : list RecordBatch) (log : PartitionLog) : gmap Z Z :=
  match transactional_id with
  | None => open log
  | Some _ =>
      let producer_id := match batches with b :: _ => Records.producer_id b | [] => -1 end in
      let announced := state_txn_has_partition snapshot transactional_id name index in
      let escapes := negb announced && has TxnUnannouncedWriteEscapes faults in
      if (0 <=? producer_id) && negb escapes then
        match open log !! producer_id with
        | Some _ => open log
        | None => <[producer_id := next_offset log]> (open log)
        end
      else open log
  end.

Definition append_set (faults : list Fault) (snapshot : TxnSnapshot) (transactional_id : option string)
    (name : string) (index : Z) (set : list byte) (batches : list RecordBatch) (log : PartitionLog) : PartitionLog :=
  let appended := span batches in
  let stored := default set (rewrite_compressed batches faults) in
  mkPartitionLog (bytes log ++ stored) (sint 64 (next_offset log + appended))
    (join_txn faults snapshot transactional_id name index batches log) (aborted log)
    (match batches with
     | batch :: _ =>
         if stamped batch then
           let count := default i32_max (try_from i32_min i32_max appended) in
           <[Records.producer_id batch :=
               mkLastBatch (Records.base_sequence batch) (sint 32 (Records.base_sequence batch + count))
                 (next_offset log)]> (last_batch log)
         else last_batch log
     | [] => last_batch log
     end).

Definition refused (index code : Z) : produce_response.PartitionProduceResponse.t :=
  produce_response.PartitionProduceResponse.mk index code (-1) (-1) (-1) [] None None [].
Definition accepted (index offset : Z) : produce_response.PartitionProduceResponse.t :=
  produce_response.PartitionProduceResponse.mk index 0 offset (-1) 0 [] None None [].

(** One partition of a produce to a topic with a name.  [None] is a set that does not
    decode, which closes the connection. *)
Definition produce_partition (node : Z) (faults : list Fault) (snapshot : TxnSnapshot) (transactional_id : option string)
    (name : string) (index : Z) (set : list byte) (s : ClusterState) :
    option produce_response.PartitionProduceResponse.t * ClusterState :=
  if negb (placement name s =? node) && negb (has AnyBrokerAcceptsWrites faults) then
    (Some (refused index error_code.NOT_LEADER_OR_FOLLOWER), s)
  else
    let log := default empty_log (logs s !! (name, index)) in
    let s := set_logs (<[(name, index) := log]> (logs s)) s in
    match decode_set set with
    | Err _ => (None, s)
    | Ok (batches, _) =>
        match fenced_at_the_leader snapshot transactional_id (head batches) faults with
        | Some code => (Some (refused index code), s)
        | None =>
            match stamped_verdict log (head batches) faults with
            | Some code => (Some (refused index code), s)
            | None =>
                match duplicate_of log (head batches) faults with
                | Some known => (Some (accepted index known), s)
                | None =>
                    let base_offset := if has ProduceWrongBaseOffset faults
                      then sint 64 (next_offset log + 1) else next_offset log in
                    let log := append_set faults snapshot transactional_id name index set batches log in
                    (Some (accepted index base_offset), set_logs (<[(name, index) := log]> (logs s)) s)
                end
            end
        end
    end.

(** A loop whose body may give up. *)
Fixpoint try_each {A B S} (f : A → S → option B * S) (l : list A) (s : S) : option (list B) * S :=
  match l with
  | [] => (Some [], s)
  | x :: l =>
      match f x s with
      | (None, s) => (None, s)
      | (Some y, s) => let (ys, s) := try_each f l s in (cons y <$> ys, s)
      end
  end.

Definition produce_topic (node : Z) (faults : list Fault) (snapshot : TxnSnapshot) (transactional_id : option string)
    (t : produce_request.TopicProduceData.t) (s : ClusterState) :
    option produce_response.TopicProduceResponse.t * ClusterState :=
  let name := produce_request.TopicProduceData.name t in
  let topic_id := produce_request.TopicProduceData.topic_id t in
  let resolved := resolve_topic s name topic_id in
  let refuse_id := String.eqb name "" && has ProduceTopicIdUnknown faults in
  let (entries, s) := try_each (λ p s,
      let index := produce_request.PartitionProduceData.index p in
      match resolved, refuse_id with
      | Some name, false =>
          produce_partition node faults snapshot transactional_id name index
            (default [] (produce_request.PartitionProduceData.records p)) s
      | _, _ => (Some (refused index error_code.UNKNOWN_TOPIC_ID), s)
      end) (produce_request.TopicProduceData.partition_data t) s in
  ((λ entries, produce_response.TopicProduceResponse.mk name topic_id entries []) <$> entries, s).

Definition produce_exchange (frame : list byte) (api_version node : Z) (faults : list Fault) (s : ClusterState) :
    option (list byte) * ClusterState :=
  match decode_request ProduceRequest frame api_version with
  | None => (None, s)
  | Some (h, request) =>
      let transactional_id := produce_request.ProduceRequest.transactional_id request in
      match try_each (produce_topic node faults (snapshot_of s) transactional_id)
              (produce_request.ProduceRequest.topic_data request) s with
      | (None, s) => (None, s)
      | (Some responses, s) =>
          if (produce_request.ProduceRequest.acks request =? 0) && negb (has ProduceAnswersAcksZero faults) then
            (Some [], s)
          else
            let encode_at := if has MisshapesOneProduceVersion faults && (api_version =? 5) then 0 else api_version in
            (frame_response (RequestHeader.correlation_id h) (header_of (key ProduceRequest) api_version)
               (Message.encode encode_at (produce_response.ProduceResponse.mk responses 0 None [])) false, s)
      end
  end.

(** ** Fetch *)

Definition stable_offset (log : PartitionLog) (faults : list Fault) : Z :=
  if has TxnStableOffsetIgnoresOpenTxn faults then next_offset log else last_stable_offset log.

(** The question a fetch asks under its first lock. *)
Definition satisfiable (request : FetchRequest) (s : ClusterState) : bool :=
  (fetch_request.FetchRequest.min_bytes request <=? 0) ||
  existsb (λ t,
    match resolve_topic s (fetch_request.FetchTopic.topic t) (fetch_request.FetchTopic.topic_id t) with
    | None => false
    | Some name =>
        existsb (λ p,
          match logs s !! (name, fetch_request.FetchPartition.partition p) with
          | Some log => fetch_request.FetchPartition.fetch_offset p <? next_offset log
          | None => false
          end) (fetch_request.FetchTopic.partitions t)
    end) (fetch_request.FetchRequest.topics request).

(** How long it then sleeps without the lock. *)
Definition poll_ms (request : FetchRequest) (faults : list Fault) (s : ClusterState) : Z :=
  if negb (satisfiable request s) && (0 <? fetch_request.FetchRequest.max_wait_ms request) &&
     negb (has FetchIgnoresMaxWait faults)
  then fetch_request.FetchRequest.max_wait_ms request else 0.

Definition flip_last (bs : list byte) : list byte :=
  alter (λ b, byte_of_Z (Z.lxor (byte_to_Z b) 1)) (pred (length bs)) bs.

Definition fetch_partition (api_version : Z) (faults : list Fault) (isolation : Z) (by_name : bool) (resolved : option string)
    (s : ClusterState) (p : fetch_request.FetchPartition.t) : fetch_response.PartitionData.t :=
  let index := fetch_request.FetchPartition.partition p in
  match resolved ≫= λ name, logs s !! (name, index) with
  | Some log =>
      if (next_offset log <? fetch_request.FetchPartition.fetch_offset p) && negb (has FetchPastEndSucceeds faults) then
        fetch_response.PartitionData.mk index error_code.OFFSET_OUT_OF_RANGE (next_offset log) (stable_offset log faults)
          0 (Some []) (-1) (Some []) None None None []
      else
        let corrupt := has FetchCorruptBatch faults ||
          (has FetchCorruptOnOldVersions faults && (api_version =? Message.MIN_VERSION (M := FetchRequest))) in
        let bs := if corrupt && negb (len (bytes log) =? 0) then flip_last (bytes log) else bytes log in
        let disowned := if isolation =? READ_COMMITTED
          then (λ a, fetch_response.AbortedTransaction.mk a.1 a.2 []) <$> aborted log else [] in
        fetch_response.PartitionData.mk index 0 (next_offset log) (stable_offset log faults) 0 (Some disowned) (-1)
          (Some bs) None None None []
  | None =>
      fetch_response.PartitionData.mk index
        (if by_name then error_code.UNKNOWN_TOPIC_OR_PARTITION else error_code.UNKNOWN_TOPIC_ID)
        0 (-1) (-1) (Some []) (-1) (Some []) None None None []
  end.

Definition fetch_topic (api_version : Z) (faults : list Fault) (isolation : Z) (s : ClusterState)
    (t : fetch_request.FetchTopic.t) : fetch_response.FetchableTopicResponse.t :=
  let topic := fetch_request.FetchTopic.topic t in
  let topic_id := fetch_request.FetchTopic.topic_id t in
  fetch_response.FetchableTopicResponse.mk topic
    (if has FetchWrongTopicId faults
     then alter (λ c, byte_of_Z (Z.lxor (byte_to_Z c) 128)) 0%nat topic_id else topic_id)
    (fetch_partition api_version faults isolation (negb (String.eqb topic "")) (resolve_topic s topic topic_id) s <$>
     fetch_request.FetchTopic.partitions t) [].

Definition fetch_answer (api_version : Z) (faults : list Fault) (s : ClusterState) (request : FetchRequest) :
    fetch_response.FetchResponse.t :=
  fetch_response.FetchResponse.mk 0 0 0
    (fetch_topic api_version faults (fetch_request.FetchRequest.isolation_level request) s <$>
     fetch_request.FetchRequest.topics request) None [].

(** The answer is built from the state after the poll, [later] where it sleeps. *)
Definition fetch_exchange (frame : list byte) (api_version : Z) (faults : list Fault) (s later : ClusterState) :
    option (list byte) :=
  '(h, request) ← decode_request FetchRequest frame api_version;
  let s := if 0 <? poll_ms request faults s then later else s in
  frame_response (RequestHeader.correlation_id h) (header_of (key FetchRequest) api_version)
    (Message.encode api_version (fetch_answer api_version faults s request)) (has FetchTrailingGarbage faults).

(** ** ListOffsets *)

(** The record search of [timestamp_search], from an offset on; [inr] is where the
    next batch begins. *)
Fixpoint search_records (wanted base offset : Z) (rs : list Records.KRecord) : (Z * Z) + Z :=
  match rs with
  | [] => inr offset
  | r :: rs =>
      let at_ := sint 64 (base + Records.timestamp_delta r) in
      if wanted <=? at_ then inl (at_, offset) else search_records wanted base (offset + 1) rs
  end.

Fixpoint search_batches (wanted offset : Z) (batches : list RecordBatch) : Z * Z :=
  match batches with
  | [] => (-1, -1)
  | b :: batches =>
      match Records.records b with
      | Records.Plain rs =>
          match search_records wanted (Records.base_timestamp b) offset rs with
          | inl found => found
          | inr offset => search_batches wanted offset batches
          end
      | Records.Compressed _ _ => search_batches wanted (sint 64 (offset + (Records.last_offset_delta b + 1))) batches
      end
  end.

Definition timestamp_search (log : PartitionLog) (wanted : Z) : Z * Z :=
  match decode_set (bytes log) with
  | Err _ => (-1, -1)
  | Ok (batches, _) => search_batches wanted 0 batches
  end.

Definition listed (faults : list Fault) (log : option PartitionLog) (timestamp : Z) : Z * Z :=
  let end_ := match log with Some log => next_offset log | None => 0 end in
  if timestamp =? EARLIEST_TIMESTAMP then (-1, if has ListOffsetsWrongEarliest faults then Z.max end_ 1 else 0)
  else if timestamp =? LATEST_TIMESTAMP then (-1, end_)
  else if has ListOffsetsTimestampReturnsLogEnd faults then (-1, end_)
  else match log with Some log => timestamp_search log timestamp | None => (-1, -1) end.

Definition list_offsets_answer (faults : list Fault) (s : ClusterState) (request : ListOffsetsRequest) :
    list_offsets_response.ListOffsetsResponse.t :=
  list_offsets_response.ListOffsetsResponse.mk 0
    ((λ t,
        let name := list_offsets_request.ListOffsetsTopic.name t in
        list_offsets_response.ListOffsetsTopicResponse.mk name
          ((λ p,
              let index := list_offsets_request.ListOffsetsPartition.partition_index p in
              let (timestamp, offset) := listed faults (logs s !! (name, index))
                (list_offsets_request.ListOffsetsPartition.timestamp p) in
              list_offsets_response.ListOffsetsPartitionResponse.mk index 0 timestamp offset (-1) []) <$>
           list_offsets_request.ListOffsetsTopic.partitions t) []) <$>
     list_offsets_request.ListOffsetsRequest.topics request) [].

Definition list_offsets_exchange (frame : list byte) (api_version : Z) (faults : list Fault) (s : ClusterState) :
    option (list byte) :=
  reading ListOffsetsRequest (list_offsets_answer faults s) frame api_version.

(** ** Transactions *)

Definition set_txn (id : string) (txn : TxnState) (s : ClusterState) : ClusterState :=
  set_txns (<[id := txn]> (txns s)) s.

Definition init_producer_id_answer (faults : list Fault) (request : InitProducerIdRequest) (s : ClusterState) :
    init_producer_id_response.InitProducerIdResponse.t * ClusterState :=
  let answer pid e := init_producer_id_response.InitProducerIdResponse.mk 0 0 pid e (-1) (-1) [] in
  let next_id := sint 64 (next_producer_id s + 1) in
  match init_producer_id_request.InitProducerIdRequest.transactional_id request with
  | None => (answer next_id 0, set_next_producer_id next_id s)
  | Some id =>
      let txn := default (mkTxnState next_id (-1) ∅ ∅) (txns s !! id) in
      let s := if producer_id txn =? next_id then set_next_producer_id next_id s else s in
      let e := if has TxnInitReusesEpoch faults then Z.max (epoch txn) 0 else sint 16 (epoch txn + 1) in
      (answer (producer_id txn) e, set_txn id (mkTxnState (producer_id txn) e ∅ (pending_offsets txn)) s)
  end.

Definition init_producer_id_exchange (frame : list byte) (api_version : Z) (faults : list Fault) (s : ClusterState) :
    option (list byte) * ClusterState :=
  changing InitProducerIdRequest (init_producer_id_answer faults) frame api_version s.

Definition txn_epoch_check (s : ClusterState) (transactional_id : string) (e : Z) (faults : list Fault) : Z :=
  match txns s !! transactional_id with
  | None => error_code.INVALID_PRODUCER_ID_MAPPING
  | Some txn => if has TxnIgnoresProducerEpoch faults || (e =? epoch txn) then 0 else error_code.PRODUCER_FENCED
  end.

Definition announce (topics : list add_partitions_to_txn_request.AddPartitionsToTxnTopic.t) (txn : TxnState) : TxnState :=
  mkTxnState (producer_id txn) (epoch txn)
    (foldl (λ ps t, list_to_set
        ((λ p, (add_partitions_to_txn_request.AddPartitionsToTxnTopic.name t, p)) <$>
         add_partitions_to_txn_request.AddPartitionsToTxnTopic.partitions t) ∪ ps) (partitions txn) topics)
    (pending_offsets txn).

Definition add_partitions_answer (faults : list Fault) (request : AddPartitionsToTxnRequest) (s : ClusterState) :
    add_partitions_to_txn_response.AddPartitionsToTxnResponse.t * ClusterState :=
  let id := add_partitions_to_txn_request.AddPartitionsToTxnRequest.v3_and_below_transactional_id request in
  let topics := add_partitions_to_txn_request.AddPartitionsToTxnRequest.v3_and_below_topics request in
  let code := txn_epoch_check s id
    (add_partitions_to_txn_request.AddPartitionsToTxnRequest.v3_and_below_producer_epoch request) faults in
  let s := if code =? 0
    then match txns s !! id with Some txn => set_txn id (announce topics txn) s | None => s end else s in
  (add_partitions_to_txn_response.AddPartitionsToTxnResponse.mk 0 0 []
     ((λ t, add_partitions_to_txn_response.AddPartitionsToTxnTopicResult.mk
         (add_partitions_to_txn_request.AddPartitionsToTxnTopic.name t)
         ((λ p, add_partitions_to_txn_response.AddPartitionsToTxnPartitionResult.mk p code []) <$>
          add_partitions_to_txn_request.AddPartitionsToTxnTopic.partitions t) []) <$> topics) [], s).

Definition add_partitions_to_txn_exchange (frame : list byte) (api_version : Z) (faults : list Fault)
    (s : ClusterState) : option (list byte) * ClusterState :=
  changing AddPartitionsToTxnRequest (add_partitions_answer faults) frame api_version s.

(** The marker of a finished transaction, in a log the producer wrote to. *)
Definition mark_end (pid : Z) (disown : bool) (log : PartitionLog) : PartitionLog :=
  match open log !! pid with
  | None => log
  | Some first_offset =>
      mkPartitionLog (bytes log) (sint 64 (next_offset log + 1)) (delete pid (open log))
        (if disown then aborted log ++ [(pid, first_offset)] else aborted log) (last_batch log)
  end.

Definition end_txn_answer (faults : list Fault) (request : EndTxnRequest) (s : ClusterState) :
    end_txn_response.EndTxnResponse.t * ClusterState :=
  let id := end_txn_request.EndTxnRequest.transactional_id request in
  let commit := end_txn_request.EndTxnRequest.committed request in
  let code := txn_epoch_check s id (end_txn_request.EndTxnRequest.producer_epoch request) faults in
  let s :=
    if code =? 0 then
      match txns s !! id with
      | None => s
      | Some txn =>
          let disown := (has TxnCommitMarksAborted faults || negb commit) && negb (has TxnAbortListOmitted faults) in
          let s := set_logs (mark_end (producer_id txn) disown <$> logs s) s in
          let s := if commit then set_committed (pending_offsets txn ∪ committed s) s else s in
          set_txn id (mkTxnState (producer_id txn) (epoch txn) ∅ ∅) s
      end
    else s in
  (end_txn_response.EndTxnResponse.mk 0 code (-1) (-1) [], s).

Definition end_txn_exchange (frame : list byte) (api_version : Z) (faults : list Fault) (s : ClusterState) :
    option (list byte) * ClusterState :=
  changing EndTxnRequest (end_txn_answer faults) frame api_version s.

Definition add_offsets_answer (faults : list Fault) (s : ClusterState) (request : AddOffsetsToTxnRequest) :
    add_offsets_to_txn_response.AddOffsetsToTxnResponse.t :=
  add_offsets_to_txn_response.AddOffsetsToTxnResponse.mk 0
    (txn_epoch_check s (add_offsets_to_txn_request.AddOffsetsToTxnRequest.transactional_id request)
       (add_offsets_to_txn_request.AddOffsetsToTxnRequest.producer_epoch request) faults) [].

Definition add_offsets_to_txn_exchange (frame : list byte) (api_version : Z) (faults : list Fault)
    (s : ClusterState) : option (list byte) :=
  reading AddOffsetsToTxnRequest (add_offsets_answer faults s) frame api_version.

Definition hold_partition (id group topic : string) (faults : list Fault) (s : ClusterState)
    (p : txn_offset_commit_request.TxnOffsetCommitRequestPartition.t) : ClusterState :=
  let place := (group, topic, txn_offset_commit_request.TxnOffsetCommitRequestPartition.partition_index p) in
  let value := (txn_offset_commit_request.TxnOffsetCommitRequestPartition.committed_offset p,
                txn_offset_commit_request.TxnOffsetCommitRequestPartition.committed_metadata p) in
  if has TxnOffsetsPublishImmediately faults then set_committed (<[place := value]> (committed s)) s
  else match txns s !! id with
       | Some txn => set_txn id (mkTxnState (producer_id txn) (epoch txn) (partitions txn)
                                   (<[place := value]> (pending_offsets txn))) s
       | None => s
       end.

Definition hold_topic (id group : string) (faults : list Fault) (s : ClusterState)
    (t : txn_offset_commit_request.TxnOffsetCommitRequestTopic.t) : ClusterState :=
  foldl (hold_partition id group (txn_offset_commit_request.TxnOffsetCommitRequestTopic.name t) faults) s
    (txn_offset_commit_request.TxnOffsetCommitRequestTopic.partitions t).

Definition txn_offset_commit_answer (faults : list Fault) (request : TxnOffsetCommitRequest) (s : ClusterState) :
    txn_offset_commit_response.TxnOffsetCommitResponse.t * ClusterState :=
  let id := txn_offset_commit_request.TxnOffsetCommitRequest.transactional_id request in
  let topics := txn_offset_commit_request.TxnOffsetCommitRequest.topics request in
  let code := txn_epoch_check s id (txn_offset_commit_request.TxnOffsetCommitRequest.producer_epoch request) faults in
  let s := if code =? 0
    then foldl (hold_topic id (txn_offset_commit_request.TxnOffsetCommitRequest.group_id request) faults) s topics
    else s in
  (txn_offset_commit_response.TxnOffsetCommitResponse.mk 0
     ((λ t, txn_offset_commit_response.TxnOffsetCommitResponseTopic.mk
         (txn_offset_commit_request.TxnOffsetCommitRequestTopic.name t)
         ((λ p, txn_offset_commit_response.TxnOffsetCommitResponsePartition.mk
             (txn_offset_commit_request.TxnOffsetCommitRequestPartition.partition_index p) code []) <$>
          txn_offset_commit_request.TxnOffsetCommitRequestTopic.partitions t) []) <$> topics) [], s).

Definition txn_offset_commit_exchange (frame : list byte) (api_version : Z) (faults : list Fault)
    (s : ClusterState) : option (list byte) * ClusterState :=
  changing TxnOffsetCommitRequest (txn_offset_commit_answer faults) frame api_version s.

End subject.
