(* ===== verification/SubjectGroups.v ===== *)
(** * The reference broker: groups ([odradek-acceptance/src/subject.rs])

    The coordinator's half of both group protocols: joining, syncing, heartbeats and
    leaving of the classic one, the single heartbeat of the next generation, and the
    description of a group. *)
From S2P Require Import Prelude Text Budget Codec Wire Frame Fields MessageTrait MsgGroup MsgGroupAdmin MsgConnection Registry Subject.

Definition JOIN_GROUP_MEMBER_ID_REQUIRED : Z := 4.
Definition JOIN_GROUP_NULLABLE_PROTOCOL : Z := 7.
Definition HEARTBEAT_INTERVAL_MS : Z := 5000.
Definition LEAVE_EPOCH : Z := -1.

Section subject.
Context {R : Runtime}.

Definition set_group (id : string) (g : GroupState) (s : ClusterState) : ClusterState :=
  set_groups (<[id := g]> (groups s)) s.

(** The group of an id, made when it is not there. *)
Definition group_of (id : string) (s : ClusterState) : GroupState := default empty_group (groups s !! id).

(** ** JoinGroup *)

Definition mint (g : GroupState) : string :=
  "odradek-member-" +:+ bytes_str (decimal.print (len (minted g) + 1)).
Definition minting (g : GroupState) : GroupState :=
  mkGroupState (generation_id g) (members g) (protocol_type g) (protocol_name g) (assignments g) (minted g ++ [mint g]).

(** A member that was not there yet makes a new generation. *)
Definition admit_member (member : string) (g : GroupState) : GroupState :=
  if bool_decide (member ∈ members g) then g
  else mkGroupState (sint 32 (generation_id g + 1)) (members g ++ [member]) (protocol_type g) (protocol_name g) ∅ (minted g).

Definition with_protocol (type_ name : string) (g : GroupState) : GroupState :=
  mkGroupState (generation_id g) (members g) type_ name (assignments g) (minted g).

Definition join_group_answer (api_version : Z) (faults : list Fault) (request : JoinGroupRequest) (s : ClusterState) :
    join_group_response.JoinGroupResponse.t * ClusterState :=
  let id := join_group_request.JoinGroupRequest.group_id request in
  let g := group_of id s in
  let asked := join_group_request.JoinGroupRequest.member_id request in
  let protocols := join_group_request.JoinGroupRequest.protocols request in
  let anonymous := String.eqb asked "" in
  if anonymous && (JOIN_GROUP_MEMBER_ID_REQUIRED <=? api_version) && negb (has JoinGroupAcceptsEmptyMemberId faults) then
    (join_group_response.JoinGroupResponse.mk 0 error_code.MEMBER_ID_REQUIRED (-1)
       (Some (join_group_request.JoinGroupRequest.protocol_type request))
       (if api_version <? JOIN_GROUP_NULLABLE_PROTOCOL then Some "" else None) "" false (mint g) [] [],
     set_group id (minting g) s)
  else
    let member := if anonymous then mint g else asked in
    let g := if anonymous then minting g else g in
    let g := admit_member member g in
    let first := head protocols in
    let g := with_protocol (join_group_request.JoinGroupRequest.protocol_type request)
      (match first with Some p => join_group_request.JoinGroupRequestProtocol.name p | None => "" end) g in
    let leader := default "" (head (members g)) in
    let metadata := match first with Some p => join_group_request.JoinGroupRequestProtocol.metadata p | None => [] end in
    let told := if String.eqb member leader
      then (λ m, join_group_response.JoinGroupResponseMember.mk m None metadata []) <$> members g else [] in
    (join_group_response.JoinGroupResponse.mk 0 0 (generation_id g) (Some (protocol_type g)) (Some (protocol_name g))
       leader false member told [],
     set_group id g s).

Definition join_group_exchange (frame : list byte) (api_version : Z) (faults : list Fault) (s : ClusterState) :
    option (list byte) * ClusterState :=
  changing JoinGroupRequest (join_group_answer api_version faults) frame api_version s.

(** ** The fence *)

Definition fence (g : GroupState) (generation : Z) (member : string) (faults : list Fault) : option Z :=
  if negb (bool_decide (member ∈ members g)) then Some error_code.UNKNOWN_MEMBER_ID
  else if has GroupIgnoresGeneration faults then None
  else if negb (generation =? generation_id g) then Some error_code.ILLEGAL_GENERATION
  else None.

(** ** SyncGroup *)

Definition mangled (faults : list Fault) (bs : list byte) : list byte :=
  if has SyncGroupRewritesAssignment faults then
    match bs with
    | [] => str_bytes "x"
    | _ => alter (λ b, byte_of_Z (Z.lxor (byte_to_Z b) 1)) (pred (length bs)) bs
    end
  else bs.

Definition take_assignments (faults : list Fault) (l : list sync_group_request.SyncGroupRequestAssignment.t)
    (g : GroupState) : GroupState :=
  mkGroupState (generation_id g) (members g) (protocol_type g) (protocol_name g)
    (foldl (λ m a, <[sync_group_request.SyncGroupRequestAssignment.member_id a :=
        mangled faults (sync_group_request.SyncGroupRequestAssignment.assignment a)]> m) (assignments g) l)
    (minted g).

Definition sync_group_answer (faults : list Fault) (request : SyncGroupRequest) (s : ClusterState) :
    sync_group_response.SyncGroupResponse.t * ClusterState :=
  let id := sync_group_request.SyncGroupRequest.group_id request in
  let member := sync_group_request.SyncGroupRequest.member_id request in
  let g := group_of id s in
  match fence g (sync_group_request.SyncGroupRequest.generation_id request) member faults with
  | Some code => (sync_group_response.SyncGroupResponse.mk 0 code None None [] [], set_group id g s)
  | None =>
      let g := if bool_decide (head (members g) = Some member)
        then take_assignments faults (sync_group_request.SyncGroupRequest.assignments request) g else g in
      (sync_group_response.SyncGroupResponse.mk 0 0 (Some (protocol_type g)) (Some (protocol_name g))
         (default [] (assignments g !! member)) [], set_group id g s)
  end.

Definition sync_group_exchange (frame : list byte) (api_version : Z) (faults : list Fault) (s : ClusterState) :
    option (list byte) * ClusterState :=
  changing SyncGroupRequest (sync_group_answer faults) frame api_version s.

(** ** Heartbeat and LeaveGroup *)

Definition heartbeat_answer (faults : list Fault) (request : HeartbeatRequest) (s : ClusterState) :
    heartbeat_response.HeartbeatResponse.t * ClusterState :=
  let id := heartbeat_request.HeartbeatRequest.group_id request in
  let g := group_of id s in
  (heartbeat_response.HeartbeatResponse.mk 0
     (default 0 (fence g (heartbeat_request.HeartbeatRequest.generation_id request)
                   (heartbeat_request.HeartbeatRequest.member_id request) faults)) [],
   set_group id g s).

Definition heartbeat_exchange (frame : list byte) (api_version : Z) (faults : list Fault) (s : ClusterState) :
    option (list byte) * ClusterState :=
  changing HeartbeatRequest (heartbeat_answer faults) frame api_version s.

Definition without (leaving : list string) (g : GroupState) : GroupState :=
  mkGroupState (generation_id g) (base.filter (λ m, m ∉ leaving) (members g)) (protocol_type g) (protocol_name g)
    (foldl (λ m id, delete id m) (assignments g) leaving) (minted g).

Definition leaving_of (request : LeaveGroupRequest) : list string :=
  (leave_group_request.MemberIdentity.member_id <$> leave_group_request.LeaveGroupRequest.members request) ++
  (if String.eqb (leave_group_request.LeaveGroupRequest.member_id request) "" then []
   else [leave_group_request.LeaveGroupRequest.member_id request]).

Definition leave_group_answer (faults : list Fault) (request : LeaveGroupRequest) (s : ClusterState) :
    leave_group_response.LeaveGroupResponse.t * ClusterState :=
  let id := leave_group_request.LeaveGroupRequest.group_id request in
  let s :=
    if has LeaveGroupKeepsTheMember faults then s
    else match groups s !! id with Some g => set_group id (without (leaving_of request) g) s | None => s end in
  (leave_group_response.LeaveGroupResponse.mk 0 0 [] [], s).

Definition leave_group_exchange (frame : list byte) (api_version : Z) (faults : list Fault) (s : ClusterState) :
    option (list byte) * ClusterState :=
  changing LeaveGroupRequest (leave_group_answer faults) frame api_version s.

(** ** ConsumerGroupHeartbeat *)

Definition heartbeat_reply (member : string) (code epoch : Z)
    (assignment : option consumer_group_heartbeat_response.Assignment.t) :
    consumer_group_heartbeat_response.ConsumerGroupHeartbeatResponse.t :=
  consumer_group_heartbeat_response.ConsumerGroupHeartbeatResponse.mk 0 code None (Some member) epoch
    HEARTBEAT_INTERVAL_MS assignment [].

(** The partitions of every subscribed topic that exists. *)
Definition assigned_to (faults : list Fault) (s : ClusterState) (topics : list string) : list (list byte * list Z) :=
  if has ConsumerGroupAssignsNothing faults then []
  else omap (λ name, (λ id, (id, [0])) <$> created s !! name) topics.

Definition as_assignment (l : list (list byte * list Z)) : consumer_group_heartbeat_response.Assignment.t :=
  consumer_group_heartbeat_response.Assignment.mk
    ((λ a, consumer_group_heartbeat_response.TopicPartitions.mk a.1 a.2 []) <$> l) [].

Definition set_member (place : string * string) (m : Member848) (s : ClusterState) : ClusterState :=
  set_members_848 (<[place := m]> (members_848 s)) s.

(** Whether a heartbeat at an epoch is refused, given the member on file. *)
Definition member_refusal (faults : list Fault) (asked : Z) (known : option Member848) : option Z :=
  match known with
  | Some m =>
      if negb (asked =? member_epoch m) && negb (has ConsumerGroupIgnoresEpoch faults)
      then Some error_code.FENCED_MEMBER_EPOCH else None
  | None => if negb (asked =? 0) then Some error_code.UNKNOWN_MEMBER_ID else None
  end.

Definition consumer_group_heartbeat_answer (faults : list Fault) (request : ConsumerGroupHeartbeatRequest)
    (s : ClusterState) : consumer_group_heartbeat_response.ConsumerGroupHeartbeatResponse.t * ClusterState :=
  let member_id := consumer_group_heartbeat_request.ConsumerGroupHeartbeatRequest.member_id request in
  let place := (consumer_group_heartbeat_request.ConsumerGroupHeartbeatRequest.group_id request, member_id) in
  let asked := consumer_group_heartbeat_request.ConsumerGroupHeartbeatRequest.member_epoch request in
  if asked =? LEAVE_EPOCH then
    (heartbeat_reply member_id 0 LEAVE_EPOCH None, set_members_848 (delete place (members_848 s)) s)
  else
    match member_refusal faults asked (members_848 s !! place) with
    | Some code => (heartbeat_reply member_id code 0 None, s)
    | None =>
        let m := default (mkMember848 (if has ConsumerGroupEpochStuck faults then 0 else 1) [] None)
          (members_848 s !! place) in
        let topics :=
          match consumer_group_heartbeat_request.ConsumerGroupHeartbeatRequest.subscribed_topic_names request with
          | Some names => names
          | None => if has ConsumerGroupNullSubscriptionRevokes faults then [] else subscribed m
          end in
        let current := assigned_to faults s topics in
        let changed := bool_decide (told m ≠ Some current) in
        (heartbeat_reply member_id 0 (member_epoch m) (if changed then Some (as_assignment current) else None),
         set_member place (mkMember848 (member_epoch m) topics (Some current)) s)
    end.

Definition consumer_group_heartbeat_exchange (frame : list byte) (api_version : Z) (faults : list Fault)
    (s : ClusterState) : option (list byte) * ClusterState :=
  changing ConsumerGroupHeartbeatRequest (consumer_group_heartbeat_answer faults) frame api_version s.

(** ** DescribeGroups *)

Definition described_member (g : GroupState) (member : string) : describe_groups_response.DescribedGroupMember.t :=
  describe_groups_response.DescribedGroupMember.mk member None CLIENT_ID_LABEL "/127.0.0.1" []
    (default [] (assignments g !! member)) [].

Definition described_group (faults : list Fault) (s : ClusterState) (id : string) :
    describe_groups_response.DescribedGroup.t :=
  match groups s !! id with
  | None => describe_groups_response.DescribedGroup.mk 0 None id "Dead" "" "" [] (-2147483648) []
  | Some g =>
      describe_groups_response.DescribedGroup.mk 0 None id "Stable" (protocol_type g) (protocol_name g)
        (if has DescribeGroupsHidesMembers faults then [] else described_member g <$> members g) (-2147483648) []
  end.

Definition describe_groups_answer (faults : list Fault) (s : ClusterState) (request : DescribeGroupsRequest) :
    describe_groups_response.DescribeGroupsResponse.t :=
  describe_groups_response.DescribeGroupsResponse.mk 0
    (described_group faults s <$> describe_groups_request.DescribeGroupsRequest.groups request) [].

Definition describe_groups_exchange (frame : list byte) (api_version : Z) (faults : list Fault) (s : ClusterState) :
    option (list byte) :=
  reading DescribeGroupsRequest (describe_groups_answer faults s) frame api_version.

End subject.
