(* ===== verification/SubjectServe.v ===== *)
(** * The reference broker: connections ([odradek-acceptance/src/subject.rs])

    The one exchange a connection keeps to itself: agreeing on a mechanism, and the
    two rounds of SCRAM for the one account the broker knows, over the server of
    [odradek-sasl].  The faults mangle what goes out.  The nonce of a server is drawn
    from [raw]; decoding a token as text with replacement characters is the
    parameter [lossy].  Then what a connection does with each frame, and how the
    connections of the three nodes, the polls of fetches and the stopping and starting
    of nodes interleave over the one state. *)
From S2P Require Import Prelude Text Budget Codec Wire Sasl Scram Frame Fields MessageTrait MsgConnection MsgTxn MsgGroup MsgGroupAdmin MsgOffset MsgMetadata MsgAdmin MsgFetch MsgProduce Registry Subject SubjectLog SubjectGroups.

(** ** Authentication *)

(** How far along a connection's SASL exchange is. *)
Inductive SaslState : Type :=
| Unstarted
| Negotiated (mechanism : string)
| ScramPending (server : ScramServer)
| Authenticated.

Definition SASL_MECHANISMS : list string := ["SCRAM-SHA-256"; "PLAIN"].
Definition SCRAM_USER : text := str_bytes "conformance".
Definition SCRAM_PASSWORD : text := str_bytes "conformance".
Definition SCRAM_ITERATIONS : Z := 4096.
Definition SCRAM_SALT : list byte := str_bytes "odradek-acceptance-salt".

Section subject.
Context {R : Runtime}.
Context `{Stringprep, Base64, Crypto}.
Context (lossy : list byte → text).

Definition scram_server (faults : list Fault) (raw : option (list byte)) : result SaslError ScramServer :=
  let iterations := if has ScramWeakIterations faults then 1 else SCRAM_ITERATIONS in
  let? credential := derive ScramSha256 SCRAM_PASSWORD SCRAM_SALT iterations (Sasl.mkLimits 1 1000000) in
  new_server SCRAM_USER credential raw.

(** [join] with a comma. *)
Definition joined (parts : list text) : text :=
  match parts with
  | [] => []
  | p :: ps => p ++ concat ((cons COMMA) <$> ps)
  end.

Definition mangle_server_first (server_first : text) (faults : list Fault) : text :=
  if negb (has ScramNonceReplacesClients faults) then server_first
  else joined ((λ part, if starts_with part (str_bytes "r=") then str_bytes "r=odradek-server-nonce" else part) <$>
                 split COMMA server_first).

Definition sasl_handshake_answer (faults : list Fault) (request : SaslHandshakeRequest) (sasl : SaslState) :
    sasl_handshake_response.SaslHandshakeResponse.t * SaslState :=
  let mechanism := sasl_handshake_request.SaslHandshakeRequest.mechanism request in
  let supported := bool_decide (mechanism ∈ SASL_MECHANISMS) in
  (sasl_handshake_response.SaslHandshakeResponse.mk (if supported then 0 else error_code.UNSUPPORTED_SASL_MECHANISM)
     (if has SaslHandshakeHidesMechanisms faults then [] else SASL_MECHANISMS) [],
   if supported then Negotiated mechanism else sasl).

Definition sasl_handshake_exchange (frame : list byte) (api_version : Z) (faults : list Fault) (sasl : SaslState) :
    option (list byte) * SaslState :=
  match decode_request SaslHandshakeRequest frame api_version with
  | None => (None, sasl)
  | Some (h, request) =>
      let (resp, sasl) := sasl_handshake_answer faults request sasl in
      (reply SaslHandshakeRequest h api_version resp, sasl)
  end.

Definition auth_reply (code : Z) (message : option string) (auth_bytes : list byte) :
    sasl_authenticate_response.SaslAuthenticateResponse.t :=
  sasl_authenticate_response.SaslAuthenticateResponse.mk code message auth_bytes 0 [].

Definition auth_failed (e : SaslError) : sasl_authenticate_response.SaslAuthenticateResponse.t :=
  auth_reply error_code.SASL_AUTHENTICATION_FAILED (Some (bytes_str (display e))) [].

(** The first round: a server for the account takes the client's first message. *)
Definition begin_scram (faults : list Fault) (raw : option (list byte)) (token : text) :
    result SaslError (ScramServer * text) :=
  let? server := scram_server faults raw in
  match server_first server token with
  | (Ok first, server) => Ok (server, first)
  | (Err e, _) => Err e
  end.

Definition sasl_authenticate_answer (faults : list Fault) (raw : option (list byte)) (auth_bytes : list byte)
    (sasl : SaslState) : sasl_authenticate_response.SaslAuthenticateResponse.t * SaslState :=
  let token := lossy auth_bytes in
  let anything := (auth_reply 0 (Some "") [], Authenticated) in
  match sasl with
  | Unstarted =>
      if negb (has SaslAuthenticateWithoutHandshake faults)
      then (auth_reply error_code.ILLEGAL_SASL_STATE (Some "no mechanism negotiated") [], sasl)
      else anything
  | Negotiated mechanism =>
      if String.eqb mechanism "SCRAM-SHA-256" then
        match begin_scram faults raw token with
        | Ok (server, first) => (auth_reply 0 (Some "") (mangle_server_first first faults), ScramPending server)
        | Err e => (auth_failed e, sasl)
        end
      else anything
  | ScramPending server =>
      match server_final server token with
      | Ok final => (auth_reply 0 (Some "") (if has ScramSkipsServerSignature faults then [] else final), Authenticated)
      | Err e => (auth_failed e, sasl)
      end
  | Authenticated => anything
  end.

Definition sasl_authenticate_exchange (frame : list byte) (api_version : Z) (faults : list Fault)
    (raw : option (list byte)) (sasl : SaslState) : option (list byte) * SaslState :=
  match decode_request SaslAuthenticateRequest frame api_version with
  | None => (None, sasl)
  | Some (h, request) =>
      let (resp, sasl) := sasl_authenticate_answer faults raw
        (sasl_authenticate_request.SaslAuthenticateRequest.auth_bytes request) sasl in
      (reply SaslAuthenticateRequest h api_version resp, sasl)
  end.

End subject.

(** ** Connections *)

Section subject.
Context {R : Runtime}.
Context `{Stringprep, Base64, Crypto}.
Context (lossy : list byte → text).

(** The answer to a frame of [handle_connection], once its node is known to be up;
    [later] is the state after a fetch's poll, [raw] the randomness of a nonce. *)
Definition dispatch (frame : list byte) (node : Z) (faults : list Fault) (raw : option (list byte))
    (sasl : SaslState) (s later : ClusterState) : option (list byte) * SaslState * ClusterState :=
  let api_key := sint 16 (be_val (take 2 frame)) in
  let api_version := sint 16 (be_val (take 2 (drop 2 frame))) in
  let reads out := (out, sasl, s) in
  let changes r := (r.1, sasl, r.2) in
  let speaks r := (r.1, r.2, s) in
  if api_key =? key ApiVersionsRequest then reads (api_versions_exchange frame api_version faults)
  else if api_key =? key MetadataRequest then reads (metadata_exchange frame api_version node faults s)
  else if api_key =? key CreateTopicsRequest then changes (create_topics_exchange frame api_version faults s)
  else if api_key =? key ProduceRequest then changes (produce_exchange frame api_version node faults s)
  else if api_key =? key FetchRequest then reads (fetch_exchange frame api_version faults s later)
  else if api_key =? key ListOffsetsRequest then reads (list_offsets_exchange frame api_version faults s)
  else if api_key =? key FindCoordinatorRequest then reads (find_coordinator_exchange frame api_version node faults s)
  else if api_key =? key OffsetCommitRequest then changes (offset_commit_exchange frame api_version node faults s)
  else if api_key =? key OffsetFetchRequest then reads (offset_fetch_exchange frame api_version faults s)
  else if api_key =? key JoinGroupRequest then changes (join_group_exchange frame api_version faults s)
  else if api_key =? key SyncGroupRequest then changes (sync_group_exchange frame api_version faults s)
  else if api_key =? key HeartbeatRequest then changes (heartbeat_exchange frame api_version faults s)
  else if api_key =? key LeaveGroupRequest then changes (leave_group_exchange frame api_version faults s)
  else if api_key =? key ConsumerGroupHeartbeatRequest then
    changes (consumer_group_heartbeat_exchange frame api_version faults s)
  else if api_key =? key DescribeGroupsRequest then reads (describe_groups_exchange frame api_version faults s)
  else if api_key =? key DeleteTopicsRequest then changes (delete_topics_exchange frame api_version faults s)
  else if api_key =? key InitProducerIdRequest then changes (init_producer_id_exchange frame api_version faults s)
  else if api_key =? key AddPartitionsToTxnRequest then
    changes (add_partitions_to_txn_exchange frame api_version faults s)
  else if api_key =? key EndTxnRequest then changes (end_txn_exchange frame api_version faults s)
  else if api_key =? key AddOffsetsToTxnRequest then reads (add_offsets_to_txn_exchange frame api_version faults s)
  else if api_key =? key TxnOffsetCommitRequest then changes (txn_offset_commit_exchange frame api_version faults s)
  else if api_key =? key SaslHandshakeRequest then speaks (sasl_handshake_exchange frame api_version faults sasl)
  else if api_key =? key SaslAuthenticateRequest then
    speaks (sasl_authenticate_exchange lossy frame api_version faults raw sasl)
  else (None, sasl, s).

(** One turn of [handle_connection]'s loop on a frame that was read whole. *)
Definition serve_frame (frame : list byte) (node : Z) (faults : list Fault) (raw : option (list byte))
    (sasl : SaslState) (s later : ClusterState) : option (list byte) * SaslState * ClusterState :=
  if len frame <? 4 then (None, sasl, s)
  else if is_down node s then (None, sasl, s)
  else dispatch frame node faults raw sasl s later.

(** ** Control *)

(** [SubjectControl::stop] and [start]. *)
Definition stop (node : Z) (s : ClusterState) : ClusterState :=
  let s := if has OffsetsDieWithTheirCoordinator (state_faults s)
    then set_committed (base.filter (λ kv, placement_over kv.1.1.1 (node_ids s) ≠ node) (committed s)) s else s in
  set_down ({[node]} ∪ down s) s.
Definition start (node : Z) (s : ClusterState) : ClusterState := set_down (down s ∖ {[node]}) s.

(** What can happen to the shared state: a frame on some connection of some node,
    in whatever state its authentication is, or a node that stops or starts.  A
    fetch changes nothing, so where its poll ends does not matter here. *)
Inductive cluster_step (faults : list Fault) (s : ClusterState) : ClusterState → Prop :=
| step_frame frame node raw sasl later out sasl' s' :
    serve_frame frame node faults raw sasl s later = (out, sasl', s') → cluster_step faults s s'
| step_stop node : cluster_step faults s (stop node s)
| step_start node : cluster_step faults s (start node s).

End subject.
