(* ===== verification/SubjectSafety.v ===== *)
(** * The reference broker: what it keeps ([odradek-acceptance/src/subject.rs])

    A broker without faults, whatever frames its connections bring and whatever nodes
    stop and start: the tables that name topics, members and producers agree, a
    producer that lost its id to another can do nothing more with it, a retry is
    written once, clients are sent to nodes that serve them, and offsets that were
    committed come back.  And what it does where its comments say otherwise: repeats
    are told by their sequence alone, offsets pending in a transaction outlive its
    producer, and two topics can get one id. *)
From S2P Require Import Prelude Text Budget Codec Wire Frame Fields MessageTrait MsgConnection MsgTxn MsgGroup MsgGroupAdmin MsgOffset MsgMetadata MsgAdmin MsgFetch MsgProduce Registry Records Sasl Scram Subject SubjectLog SubjectGroups SubjectServe.

(** ** Steps as changes *)

Section steps.
Context {R : Runtime}.
Context `{Stringprep, Base64, Crypto}.
Context (lossy : list byte → text).

(** The changes a broker without faults can make. *)
Inductive change (s : ClusterState) : ClusterState → Prop :=
| ch_none : change s s
| ch_create request : change s (create_topics_answer [] request s).2
| ch_delete request : change s (delete_topics_answer [] request s).2
| ch_produce node id topics : change s (try_each (produce_topic node [] (snapshot_of s) id) topics s).2
| ch_commit node request : change s (offset_commit_answer node [] request s).2
| ch_join version request : change s (join_group_answer version [] request s).2
| ch_sync request : change s (sync_group_answer [] request s).2
| ch_beat request : change s (heartbeat_answer [] request s).2
| ch_leave request : change s (leave_group_answer [] request s).2
| ch_member request : change s (consumer_group_heartbeat_answer [] request s).2
| ch_init request : change s (init_producer_id_answer [] request s).2
| ch_announce request : change s (add_partitions_answer [] request s).2
| ch_end request : change s (end_txn_answer [] request s).2
| ch_hold request : change s (txn_offset_commit_answer [] request s).2
| ch_stop node : change s (stop node s)
| ch_start node : change s (start node s).

Lemma changing_state {Req Resp} `{Message Req, Message Resp} (answer : Req → ClusterState → Resp * ClusterState)
    frame version s :
  (changing Req answer frame version s).2 = s ∨ ∃ request, (changing Req answer frame version s).2 = (answer request s).2.
Proof.
  unfold changing. destruct (decode_request Req frame version) as [[h request]|]; [right|by left].
  exists request. by destruct (answer request s).
Qed.

Lemma changing_change {Req Resp} `{Message Req, Message Resp} (answer : Req → ClusterState → Resp * ClusterState)
    frame version s :
  (∀ request, change s (answer request s).2) → change s (changing Req answer frame version s).2.
Proof. intros Hc. destruct (changing_state answer frame version s) as [->|[request ->]]; [apply ch_none|apply Hc]. Qed.

Lemma produce_change frame version node s : change s (produce_exchange frame version node [] s).2.
Proof.
  unfold produce_exchange. destruct (decode_request ProduceRequest frame version) as [[h request]|]; [|apply ch_none].
  pose proof (ch_produce s node (produce_request.ProduceRequest.transactional_id request)
    (produce_request.ProduceRequest.topic_data request)) as Hc.
  destruct (try_each _ _ s) as [[rs|] s']; [|done]. cbn [snd] in Hc. by destruct (_ =? 0).
Qed.

Lemma step_change s s' : cluster_step lossy [] s s' → change s s'.
Proof.
  destruct 1 as [frame node raw sasl later out sasl' s' E|node|node]; [|constructor..].
  unfold serve_frame in E. destruct (len frame <? 4); [simplify_eq; constructor|].
  destruct (is_down node s); [simplify_eq; constructor|].
  unfold dispatch in E. cbv zeta in E.
  repeat match type of E with
  | (if ?b then _ else _) = _ => destruct b
  end; injection E as <- <- <-; try apply ch_none; try apply produce_change;
    apply changing_change; intros request; constructor.
Qed.

End steps.

(** ** Loops over the state *)

Lemma each_keeps {A B S} (P : S → Prop) (f : A → S → B * S) l : ∀ s,
  (∀ x s, P s → P (f x s).2) → P s → P (each f l s).2.
Proof.
  induction l as [|x l IH]; intros s Hf Hs; [done|]. cbn [each].
  specialize (Hf x s Hs) as Hx. destruct (f x s) as [y s1]. cbn [snd] in Hx.
  specialize (IH s1 Hf Hx). by destruct (each f l s1).
Qed.

Lemma try_each_keeps {A B S} (P : S → Prop) (f : A → S → option B * S) l : ∀ s,
  (∀ x s, P s → P (f x s).2) → P s → P (try_each f l s).2.
Proof.
  induction l as [|x l IH]; intros s Hf Hs; [done|]. cbn [try_each].
  specialize (Hf x s Hs) as Hx. destruct (f x s) as [[y|] s1]; cbn [snd] in Hx; [|done].
  specialize (IH s1 Hf Hx). by destruct (try_each f l s1).
Qed.

Lemma foldl_keeps {A S} (P : S → Prop) (f : S → A → S) l : ∀ s,
  (∀ s x, P s → P (f s x)) → P s → P (foldl f s l).
Proof. induction l as [|x l IH]; intros s Hf Hs; [done|]. cbn [foldl]. apply IH; [done|by apply Hf]. Qed.

Section kept.
Context {R : Runtime}.

(** Only the logs. *)
Definition same_but_logs (s s' : ClusterState) : Prop := s' = set_logs (logs s') s.

Lemma same_but_logs_set v s s1 : same_but_logs s s1 → same_but_logs s (set_logs v s1).
Proof. unfold same_but_logs. intros ->. done. Qed.

Lemma produce_partition_logs node snapshot id name index set s s1 :
  same_but_logs s s1 → same_but_logs s (produce_partition node [] snapshot id name index set s1).2.
Proof.
  intros Hs. unfold produce_partition. destruct (_ && _); [done|]. cbv zeta.
  repeat match goal with |- context [match ?x with _ => _ end] => destruct x end; cbn [snd];
    repeat apply same_but_logs_set; done.
Qed.

Lemma produce_logs node snapshot id topics s :
  same_but_logs s (try_each (produce_topic node [] snapshot id) topics s).2.
Proof.
  apply (try_each_keeps (same_but_logs s)); [|by destruct s].
  intros t s1 Hs. unfold produce_topic. cbv zeta.
  pose proof (try_each_keeps (same_but_logs s) (λ p s2,
      match resolve_topic s1 (produce_request.TopicProduceData.name t) (produce_request.TopicProduceData.topic_id t),
            String.eqb (produce_request.TopicProduceData.name t) "" && has ProduceTopicIdUnknown [] with
      | Some name, false => produce_partition node [] snapshot id name (produce_request.PartitionProduceData.index p)
            (default [] (produce_request.PartitionProduceData.records p)) s2
      | _, _ => (Some (refused (produce_request.PartitionProduceData.index p) error_code.UNKNOWN_TOPIC_ID), s2)
      end) (produce_request.TopicProduceData.partition_data t) s1) as Hk.
  destruct (try_each _ _ s1) as [es s2]. cbn [snd] in *. apply Hk; [|done].
  intros p s3 H3. destruct (resolve_topic _ _ _); [|done]. destruct (_ && _); [done|]. by apply produce_partition_logs.
Qed.

(** ** Transactional ids *)

(** Who holds which id, at which epoch. *)
Definition ids (s : ClusterState) : gmap string (Z * Z) := (λ t, (producer_id t, epoch t)) <$> txns s.

Lemma ids_set_txn id txn txn' s :
  txns s !! id = Some txn → producer_id txn' = producer_id txn → epoch txn' = epoch txn →
  ids (set_txn id txn' s) = ids s.
Proof.
  intros E Ep Ee. unfold ids, set_txn. cbn [txns set_txns]. rewrite fmap_insert, Ep, Ee.
  apply insert_id. by rewrite lookup_fmap, E.
Qed.

Lemma hold_keeps id group topics s :
  ids (foldl (hold_topic id group []) s topics) = ids s ∧
  next_producer_id (foldl (hold_topic id group []) s topics) = next_producer_id s.
Proof.
  revert s. induction topics as [|t topics IH]; intros s; [done|]. cbn [foldl].
  assert (∀ ps s, ids (foldl (hold_partition id group (txn_offset_commit_request.TxnOffsetCommitRequestTopic.name t) []) s ps) = ids s ∧
    next_producer_id (foldl (hold_partition id group (txn_offset_commit_request.TxnOffsetCommitRequestTopic.name t) []) s ps) = next_producer_id s) as Hp.
  { clear. intros ps. induction ps as [|p ps IH]; intros s; [done|]. cbn [foldl].
    destruct (IH (hold_partition id group (txn_offset_commit_request.TxnOffsetCommitRequestTopic.name t) [] s p)) as [-> ->].
    unfold hold_partition. change (has TxnOffsetsPublishImmediately []) with false. cbn iota.
    destruct (txns s !! id) as [txn|] eqn:E; [|done]. split; [|done]. by eapply ids_set_txn. }
  destruct (IH (hold_topic id group [] s t)) as [-> ->]. apply Hp.
Qed.

Lemma change_ids s s' : change s s' →
  (ids s' = ids s ∧ next_producer_id s' = next_producer_id s) ∨
  ∃ request, s' = (init_producer_id_answer [] request s).2.
Proof.
  destruct 1 as [|request|request|node id topics|node request|version request|request|request|request|request
    |request|request|request|request|node|node]; try (by left).
  - left. unfold create_topics_answer.
    assert (∀ b, ids (each (create_topic b []) (create_topics_request.CreateTopicsRequest.topics request) s).2 = ids s ∧
      next_producer_id (each (create_topic b []) (create_topics_request.CreateTopicsRequest.topics request) s).2 =
        next_producer_id s) as Hk.
    { intros b. apply (each_keeps (λ s1, ids s1 = ids s ∧ next_producer_id s1 = next_producer_id s)); [|done].
      intros t s1 Hs. unfold create_topic. cbv zeta. by destruct (_ && _ && _). }
    specialize (Hk (create_topics_request.CreateTopicsRequest.validate_only request && negb (has CreateTopicsValidateOnlyCreates []))).
    by destruct (each _ _ s).
  - left. unfold delete_topics_answer.
    assert (ids (each (delete_topic []) (deleted_names request) s).2 = ids s ∧
      next_producer_id (each (delete_topic []) (deleted_names request) s).2 = next_producer_id s) as Hk.
    { apply (each_keeps (λ s1, ids s1 = ids s ∧ next_producer_id s1 = next_producer_id s)); [|done].
      intros t s1 Hs. unfold delete_topic. cbv zeta. cbn [snd]. destruct (_ && _); [|done]. by destruct (created s1 !! t). }
    by destruct (each _ _ s).
  - left. by rewrite (produce_logs node (snapshot_of s) id topics s).
  - left. unfold offset_commit_answer. cbv zeta. destruct (_ && _); [done|].
    assert (∀ g, ids (each (commit_topic g []) (offset_commit_request.OffsetCommitRequest.topics request) s).2 = ids s ∧
      next_producer_id (each (commit_topic g []) (offset_commit_request.OffsetCommitRequest.topics request) s).2 =
        next_producer_id s) as Hk.
    { intros g. by apply (each_keeps (λ s1, ids s1 = ids s ∧ next_producer_id s1 = next_producer_id s)). }
    specialize (Hk (offset_commit_request.OffsetCommitRequest.group_id request)). by destruct (each _ _ s).
  - left. unfold join_group_answer. cbv zeta. by destruct (_ && _ && _).
  - left. unfold sync_group_answer. cbv zeta. by destruct (fence _ _ _ _).
  - left. unfold leave_group_answer. cbv zeta. cbn [snd]. destruct (has _ _); [done|]. by destruct (groups s !! _).
  - left. unfold consumer_group_heartbeat_answer. cbv zeta. destruct (_ =? _); [done|].
    by destruct (member_refusal _ _ _).
  - right. by exists request.
  - left. unfold add_partitions_answer. cbv zeta. cbn [snd]. destruct (_ =? 0); [|done].
    destruct (txns s !! _) as [txn|] eqn:E; [|done]. split; [|done]. by eapply ids_set_txn.
  - left. unfold end_txn_answer. cbv zeta. cbn [snd]. destruct (_ =? 0); [|done].
    destruct (txns s !! _) as [txn|] eqn:E; [|done].
    destruct (end_txn_request.EndTxnRequest.committed request); (split; [|done]);
      unfold ids, set_txn; cbn [txns set_txns set_logs set_committed]; rewrite fmap_insert; apply insert_id;
      by rewrite lookup_fmap, E.
  - left. unfold txn_offset_commit_answer. cbv zeta. cbn [snd]. destruct (_ =? 0); [|done]. apply hold_keeps.
  - left. unfold stop. by destruct (has _ _).
Qed.

End kept.

(** ** Tables that agree *)

(** An id names a topic that was created with it, which is the id its name gives. *)
Definition names_ok (s : ClusterState) : Prop :=
  (∀ id name, topic_names s !! id = Some name → created s !! name = Some id) ∧
  (∀ name id, created s !! name = Some id → id = mint_topic_id name).

Definition groups_ok (s : ClusterState) : Prop := ∀ id g, groups s !! id = Some g → NoDup (members g).
Definition members_ok (s : ClusterState) : Prop :=
  ∀ place m, members_848 s !! place = Some m → member_epoch m = 1 ∧ is_Some (told m).

(** After [n] steps: producer ids that were handed out, each to one transactional id,
    at an epoch that counts its claims. *)
Definition producers_ok (n : Z) (s : ClusterState) : Prop :=
  0 ≤ next_producer_id s ≤ n ∧
  (∀ id pid e, ids s !! id = Some (pid, e) → 1 ≤ pid ≤ next_producer_id s ∧ 0 ≤ e < n) ∧
  (∀ id id' pid e e', ids s !! id = Some (pid, e) → ids s !! id' = Some (pid, e') → id = id').

(** What a change to other tables leaves alone. *)
Definition tables (s : ClusterState) := (topic_names s, created s, groups s, members_848 s).

Section invariants.
Context {R : Runtime}.

Lemma names_create b t s : names_ok s → names_ok (create_topic b [] t s).2.
Proof.
  intros [H1 H2]. unfold create_topic. cbv zeta.
  destruct (bool_decide_reflect (is_Some (created s !! create_topics_request.CreatableTopic.name t))) as [Hn|Hn]; [done|].
  destruct (_ && _ && _); [|done]. cbn [snd]. set (name := create_topics_request.CreatableTopic.name t) in *.
  apply eq_None_not_Some in Hn. split; cbn [topic_names created set_topic_names set_created].
  - intros id name'. rewrite lookup_insert_Some. intros [[<- <-]|[Hid Hl]]; [by rewrite lookup_insert_eq|].
    rewrite lookup_insert_ne; [by apply H1|]. intros <-. apply H1 in Hl. congruence.
  - intros name' id. rewrite lookup_insert_Some. intros [[<- <-]|[_ Hl]]; [done|by apply H2].
Qed.

Lemma names_delete name s : names_ok s → names_ok (delete_topic [] name s).2.
Proof.
  intros [H1 H2]. unfold delete_topic. cbv zeta. cbn [snd]. destruct (_ && _); [|done].
  destruct (created s !! name) as [id|] eqn:E; [|done].
  split; cbn [topic_names created set_topic_names set_created set_logs].
  - intros id' name'. rewrite lookup_delete_Some. intros [Hid Hl]. apply H1 in Hl.
    rewrite lookup_delete_ne; [done|]. intros <-. congruence.
  - intros name' id'. rewrite lookup_delete_Some. intros [_ Hl]. by apply H2.
Qed.

Lemma groups_set id g s : groups_ok s → NoDup (members g) → groups_ok (set_group id g s).
Proof.
  intros Hs Hg id' g'. unfold set_group. cbn [groups set_groups]. rewrite lookup_insert_Some.
  intros [[_ <-]|[_ Hl]]; [done|by eapply Hs].
Qed.

Lemma group_of_ok id s : groups_ok s → NoDup (members (group_of id s)).
Proof. intros Hs. unfold group_of. destruct (groups s !! id) eqn:E; [by eapply Hs|constructor]. Qed.

Lemma admit_member_ok m g : NoDup (members g) → NoDup (members (admit_member m g)).
Proof.
  intros Hg. unfold admit_member. case_bool_decide as Hm; [done|]. cbn [members].
  apply NoDup_app. split_and!; [done| |by apply NoDup_singleton]. by intros x Hx ->%list_elem_of_singleton.
Qed.

Lemma change_tables s s' : change s s' →
  names_ok s ∧ groups_ok s ∧ members_ok s → names_ok s' ∧ groups_ok s' ∧ members_ok s'.
Proof.
  intros Hc (Hn & Hg & Hm).
  assert (tables s' = tables s → names_ok s' ∧ groups_ok s' ∧ members_ok s') as Hkeep.
  { unfold tables. intros [= E1 E2 E3 E4]. unfold names_ok, groups_ok, members_ok. by rewrite E1, E2, E3, E4. }
  destruct Hc as [|request|request|node id topics|node request|version request|request|request|request|request
    |request|request|request|request|node|node]; try (by apply Hkeep).
  - clear Hkeep. unfold create_topics_answer.
    assert (∀ b, (λ s1, names_ok s1 ∧ groups_ok s1 ∧ members_ok s1)
      (each (create_topic b []) (create_topics_request.CreateTopicsRequest.topics request) s).2) as Hk.
    { intros b. apply each_keeps; [|done]. intros t s1 (Hn1 & Hg1 & Hm1).
      split; [by apply names_create|]. unfold create_topic. cbv zeta. by destruct (_ && _ && _). }
    specialize (Hk (create_topics_request.CreateTopicsRequest.validate_only request && negb (has CreateTopicsValidateOnlyCreates []))).
    by destruct (each _ _ s).
  - clear Hkeep. unfold delete_topics_answer.
    assert ((λ s1, names_ok s1 ∧ groups_ok s1 ∧ members_ok s1) (each (delete_topic []) (deleted_names request) s).2) as Hk.
    { apply each_keeps; [|done]. intros t s1 (Hn1 & Hg1 & Hm1). split; [by apply names_delete|].
      unfold delete_topic. cbv zeta. cbn [snd]. destruct (_ && _); [|done]. by destruct (created s1 !! t). }
    by destruct (each _ _ s).
  - apply Hkeep. by rewrite (produce_logs node (snapshot_of s) id topics s).
  - apply Hkeep. unfold offset_commit_answer. cbv zeta. destruct (_ && _); [done|].
    assert (∀ g, tables (each (commit_topic g []) (offset_commit_request.OffsetCommitRequest.topics request) s).2 = tables s) as Hk.
    { intros g. by apply (each_keeps (λ s1, tables s1 = tables s)). }
    specialize (Hk (offset_commit_request.OffsetCommitRequest.group_id request)). by destruct (each _ _ s).
  - clear Hkeep. split; [|split]; [..|by unfold join_group_answer; cbv zeta; destruct (_ && _ && _)].
    + unfold join_group_answer. cbv zeta. by destruct (_ && _ && _).
    + unfold join_group_answer. cbv zeta. destruct (_ && _ && _); cbn [snd]; apply groups_set; try done.
      * by apply group_of_ok.
      * cbn [with_protocol members]. apply admit_member_ok. destruct (String.eqb _ _); by apply group_of_ok.
  - clear Hkeep. unfold sync_group_answer. cbv zeta. destruct (fence _ _ _ _); cbn [snd]; (split; [done|]).
    + split; [|done]. apply groups_set; [done|by apply group_of_ok].
    + split; [|done]. apply groups_set; [done|]. case_bool_decide; by apply group_of_ok.
  - clear Hkeep. split; [done|]. split; [|done]. apply groups_set; [done|by apply group_of_ok].
  - clear Hkeep. unfold leave_group_answer. cbv zeta. cbn [snd].
    change (has LeaveGroupKeepsTheMember []) with false. cbn iota.
    destruct (groups s !! _) as [g|] eqn:E; [|done]. split; [done|]. split; [|done].
    apply groups_set; [done|]. cbn [without members]. apply NoDup_filter. by eapply Hg.
  - clear Hkeep. unfold consumer_group_heartbeat_answer. cbv zeta. destruct (_ =? _); cbn [snd].
    + split; [done|]. split; [done|]. intros place m. cbn [members_848 set_members_848].
      rewrite lookup_delete_Some. intros [_ Hl]. by eapply Hm.
    + destruct (member_refusal _ _ _); [done|]. cbn [snd]. split; [done|]. split; [done|].
      intros place m. unfold set_member. cbn [members_848 set_members_848]. rewrite lookup_insert_Some.
      intros [[_ <-]|[_ Hl]]; [|by eapply Hm]. cbn [member_epoch told]. split; [|done].
      destruct (members_848 s !! _) as [m|] eqn:E; [|done]. by eapply Hm.
  - apply Hkeep. unfold init_producer_id_answer. cbv zeta.
    destruct (init_producer_id_request.InitProducerIdRequest.transactional_id request); [|done]. by destruct (_ =? _).
  - apply Hkeep. unfold add_partitions_answer. cbv zeta. cbn [snd]. destruct (_ =? 0); [|done].
    by destruct (txns s !! _).
  - apply Hkeep. unfold end_txn_answer. cbv zeta. cbn [snd]. destruct (_ =? 0); [|done].
    destruct (txns s !! _); [|done]. by destruct (end_txn_request.EndTxnRequest.committed request).
  - apply Hkeep. unfold txn_offset_commit_answer. cbv zeta. cbn [snd]. destruct (_ =? 0); [|done].
    apply (foldl_keeps (λ s1, tables s1 = tables s)); [|done]. intros s1 t Hs1. unfold hold_topic.
    apply (foldl_keeps (λ s1, tables s1 = tables s)); [|done]. intros s2 p Hs2. unfold hold_partition.
    change (has TxnOffsetsPublishImmediately []) with false. cbn iota. by destruct (txns s2 !! _).
  - apply Hkeep. unfold stop. by destruct (has _ _).
Qed.

End invariants.

(** ** Producers *)

Section producers.
Context {R : Runtime}.

(** A claim of a transactional id: an id that was handed out keeps its producer and
    moves to the next epoch. *)
Lemma init_ids request s :
  let s' := (init_producer_id_answer [] request s).2 in
  ids s' = ids s ∨
  ∃ id, init_producer_id_request.InitProducerIdRequest.transactional_id request = Some id ∧
    let p := default (sint 64 (next_producer_id s + 1), -1) (ids s !! id) in
    ids s' = <[id := (p.1, sint 16 (p.2 + 1))]> (ids s).
Proof.
  unfold init_producer_id_answer. cbv zeta.
  destruct (init_producer_id_request.InitProducerIdRequest.transactional_id request) as [id|]; [right|by left].
  exists id. split; [done|]. unfold ids. change (has TxnInitReusesEpoch []) with false. cbn iota.
  rewrite lookup_fmap. cbn [snd]. destruct (txns s !! id) as [txn|] eqn:E; cbn [default from_option fmap option_fmap option_map];
    destruct (_ =? _); unfold set_txn; cbn [txns set_txns set_next_producer_id fst snd]; by rewrite fmap_insert.
Qed.

(** What it leaves an id with is what it was, or what the answer says. *)
Lemma init_claims request s r s' id pid e :
  init_producer_id_answer [] request s = (r, s') → ids s' !! id = Some (pid, e) →
  ids s !! id = Some (pid, e) ∨
  init_producer_id_request.InitProducerIdRequest.transactional_id request = Some id ∧
    r = init_producer_id_response.InitProducerIdResponse.mk 0 0 pid e (-1) (-1) [].
Proof.
  unfold init_producer_id_answer. cbv zeta.
  destruct (init_producer_id_request.InitProducerIdRequest.transactional_id request) as [id'|];
    [|intros [= _ <-]; by left].
  change (has TxnInitReusesEpoch []) with false. cbv iota. set (txn := default _ _). intros [= <- <-].
  unfold ids, set_txn. cbn [txns set_txns].
  rewrite fmap_insert, lookup_insert_Some. intros [[-> [= <- <-]]|[_ Hl]]; [by right|left]. by destruct (_ =? _) in Hl.
Qed.

Lemma init_next request s :
  let s' := (init_producer_id_answer [] request s).2 in
  next_producer_id s' = sint 64 (next_producer_id s + 1) ∨
  next_producer_id s' = next_producer_id s ∧
    ∀ id, init_producer_id_request.InitProducerIdRequest.transactional_id request = Some id →
      ∃ pid e, ids s !! id = Some (pid, e).
Proof.
  unfold init_producer_id_answer. cbv zeta.
  destruct (init_producer_id_request.InitProducerIdRequest.transactional_id request) as [id|]; [|by left].
  cbn [snd]. destruct (Z.eqb_spec (producer_id (default (mkTxnState (sint 64 (next_producer_id s + 1)) (-1) ∅ ∅) (txns s !! id)))
    (sint 64 (next_producer_id s + 1))) as [E|E]; [by left|right]. split; [done|].
  intros id' [= <-]. destruct (txns s !! id) as [txn|] eqn:Et; [|done].
  exists (producer_id txn), (epoch txn). unfold ids. by rewrite lookup_fmap, Et.
Qed.

Lemma change_producers n s s' : change s s' → n < 32767 → producers_ok n s → producers_ok (n + 1) s'.
Proof.
  intros Hc Hn (Hnext & Hrange & Hinj). destruct (change_ids s s' Hc) as [[E1 E2]|[request ->]].
  { unfold producers_ok. rewrite E1, E2. split; [lia|]. split; [|done].
    intros id pid e Hl. apply Hrange in Hl. lia. }
  assert (sint 64 (next_producer_id s + 1) = next_producer_id s + 1) as Es by (apply sint_small; int_lia).
  pose proof (init_next request s) as Hnx. rewrite Es in Hnx.
  destruct (init_ids request s) as [E|(id & Er & E)]; cbv zeta in *.
  { unfold producers_ok. rewrite E. split; [lia|]. split; [|done].
    intros id pid e Hl. apply Hrange in Hl. lia. }
  rewrite Es in E. set (s' := (init_producer_id_answer [] request s).2) in *.
  destruct (ids s !! id) as [[pid0 e0]|] eqn:Eid; cbn [default from_option fst snd Datatypes.id] in E.
  - destruct (Hrange _ _ _ Eid) as [Hp0 He0].
    assert (sint 16 (e0 + 1) = e0 + 1) as Ee by (apply sint_small; int_lia).
    unfold producers_ok. rewrite E, Ee. split; [lia|]. split.
    + intros id' pid e. rewrite lookup_insert_Some. intros [[_ [= <- <-]]|[_ Hl%Hrange]]; lia.
    + intros id1 id2 pid e e'. rewrite !lookup_insert_Some.
      intros [[<- E1]|[_ H1]] [[<- E2]|[_ H2]]; simplify_eq; [done|by eapply Hinj..].
  - destruct Hnx as [Hnx|[_ Hnx]]; [|destruct (Hnx _ Er) as (? & ? & ?); congruence].
    change (sint 16 (-1 + 1)) with 0 in E. unfold producers_ok. rewrite E, Hnx. split; [lia|]. split.
    + intros id' pid e. rewrite lookup_insert_Some. intros [[_ [= <- <-]]|[_ Hl%Hrange]]; lia.
    + intros id1 id2 pid e e'. rewrite !lookup_insert_Some.
      intros [[<- E1]|[_ H1]] [[<- E2]|[_ H2]]; simplify_eq;
        [done|apply Hrange in H2; lia|apply Hrange in H1; lia|by eapply Hinj].
Qed.

(** An id that was claimed stays with its producer, at no lower an epoch. *)
Definition later_epochs (s s' : ClusterState) : Prop :=
  ∀ id pid e, ids s !! id = Some (pid, e) → ∃ e', ids s' !! id = Some (pid, e') ∧ e ≤ e'.

Lemma change_epochs n s s' : change s s' → n < 32767 → producers_ok n s → later_epochs s s'.
Proof.
  intros Hc Hn (Hnext & Hrange & _) id pid e Hl. destruct (change_ids s s' Hc) as [[E1 E2]|[request ->]].
  { exists e. rewrite E1. split; [done|lia]. }
  destruct (init_ids request s) as [E|(id' & _ & E)]; cbv zeta in E; rewrite E; [exists e; split; [done|lia]|].
  destruct (decide (id' = id)) as [->|Hne].
  - rewrite lookup_insert_eq, Hl. cbn [default from_option fst snd Datatypes.id]. apply Hrange in Hl.
    exists (sint 16 (e + 1)). split; [done|]. rewrite sint_small by int_lia. lia.
  - exists e. rewrite lookup_insert_ne by done. split; [done|lia].
Qed.

End producers.

(** ** Runs *)

Section runs.
Context {R : Runtime}.
Context `{Stringprep, Base64, Crypto}.
Context (lossy : list byte → text).

Lemma run_producers n m s s' :
  producers_ok n s → nsteps (cluster_step lossy []) m s s' → n + Z.of_nat m ≤ 32767 →
  producers_ok (n + Z.of_nat m) s' ∧ later_epochs s s'.
Proof.
  intros Hs Hrun. revert n Hs. induction Hrun as [s|m s s1 s' Hstep _ IH]; intros n Hs Hm.
  { rewrite Z.add_0_r. split; [done|]. intros id pid e Hl. exists e. split; [done|lia]. }
  pose proof (step_change lossy s s1 Hstep) as Hc.
  assert (n < 32767) as Hn by lia.
  pose proof (change_producers n s s1 Hc Hn Hs) as Hs1. pose proof (change_epochs n s s1 Hc Hn Hs) as He.
  destruct (IH _ Hs1) as [Hs' He']; [lia|]. split.
  - replace (n + Z.of_nat (S m)) with (n + 1 + Z.of_nat m) by lia. done.
  - intros id pid e Hl. destruct (He _ _ _ Hl) as (e1 & Hl1 & H01). destruct (He' _ _ _ Hl1) as (e2 & Hl2 & H12).
    exists e2. split; [done|lia].
Qed.

Lemma spawned_ok ports : producers_ok 0 (spawned ports []).
Proof.
  split; [cbn; lia|]. unfold ids. cbn [txns spawned]. rewrite fmap_empty.
  split; intros *; by rewrite lookup_empty.
Qed.

Lemma run_tables ports s : rtc (cluster_step lossy []) (spawned ports []) s → names_ok s ∧ groups_ok s ∧ members_ok s.
Proof.
  intros Hrun. remember (spawned ports []) as s0 eqn:E.
  assert (names_ok s0 ∧ groups_ok s0 ∧ members_ok s0) as Hs0.
  { subst s0. unfold names_ok, groups_ok, members_ok. split_and!; intros ? ? Hl; cbn in Hl; by rewrite lookup_empty in Hl. }
  clear E. induction Hrun as [|s s1 s' Hstep _ IH]; [done|].
  apply IH. eapply change_tables; [by apply (step_change lossy)|done].
Qed.

(** A claim of [id] that was answered with [pid] at [e], in a run that goes on to [s]. *)
Definition handed_out (ports : list Z) (s : ClusterState) (id : string) (pid e : Z) : Prop :=
  ∃ s0 s1 request,
    rtc (cluster_step lossy []) (spawned ports []) s0 ∧ cluster_step lossy [] s0 s1 ∧ rtc (cluster_step lossy []) s1 s ∧
    init_producer_id_request.InitProducerIdRequest.transactional_id request = Some id ∧
    init_producer_id_answer [] request s0 =
      (init_producer_id_response.InitProducerIdResponse.mk 0 0 pid e (-1) (-1) [], s1).

Lemma run_handed_out ports s id pid e :
  rtc (cluster_step lossy []) (spawned ports []) s → ids s !! id = Some (pid, e) → handed_out ports s id pid e.
Proof.
  intros Hrun. revert id pid e. pattern s. revert Hrun. apply rtc_ind_r.
  { intros id pid e Hl. unfold ids in Hl. cbn [txns spawned] in Hl. by rewrite fmap_empty, lookup_empty in Hl. }
  intros s1 s2 Hrun Hstep IH id pid e Hl.
  assert (ids s1 !! id = Some (pid, e) → handed_out ports s2 id pid e) as Hold.
  { intros (a & b & request & Ha & Hab & Hb & Hid & Hans)%IH. exists a, b, request. split_and!; [done|done| |done..].
    by eapply rtc_r. }
  destruct (change_ids s1 s2 (step_change lossy s1 s2 Hstep)) as [[E _]|[request E]]; [apply Hold; by rewrite <- E|].
  destruct (init_producer_id_answer [] request s1) as [resp s3] eqn:Ei. cbn [snd] in E. subst s3.
  destruct (init_claims request s1 resp s2 id pid e Ei Hl) as [?|[Hr ->]]; [by apply Hold|].
  exists s1, s2, request. split_and!; done || apply rtc_refl.
Qed.

(** C34: Without faults, and whatever frames arrive on connections to whatever nodes
    while nodes stop and start, the broker's tables agree: an id names a topic that
    was created with it, no member is in its group twice, a member of the next
    protocol has been admitted and told its assignment; the producer and the epoch it
    holds for a transactional id are those it answered a claim of that id with; and,
    for the first 32767 steps, no two transactional ids share a producer and no epoch
    has wrapped. *)
Theorem cluster_stays_consistent (ports : list Z) (n : nat) (s : ClusterState) :
  nsteps (cluster_step lossy []) n (spawned ports []) s →
  names_ok s ∧ groups_ok s ∧ members_ok s ∧
  (∀ id pid e, ids s !! id = Some (pid, e) → handed_out ports s id pid e) ∧
  (Z.of_nat n ≤ 32767 → producers_ok (Z.of_nat n) s).
Proof.
  intros Hrun. pose proof (rtc_nsteps_2 _ _ _ Hrun) as Hrtc. destruct (run_tables ports s Hrtc) as (Hn & Hg & Hm).
  split_and!; [done..| |].
  - intros id pid e. by apply run_handed_out.
  - intros Hb. by destruct (run_producers 0 n _ _ (spawned_ok ports) Hrun Hb).
Qed.

(** What a request of a transaction meets at an epoch that is not the current one. *)
Lemma fenced_check s id pid e e' : ids s !! id = Some (pid, e') → e < e' → txn_epoch_check s id e [] = error_code.PRODUCER_FENCED.
Proof.
  intros Hl He. unfold txn_epoch_check. unfold ids in Hl. rewrite lookup_fmap in Hl.
  destruct (txns s !! id) as [txn|]; [|done]. injection Hl as <- <-.
  change (has TxnIgnoresProducerEpoch []) with false. destruct (Z.eqb_spec e (epoch txn)); [lia|done].
Qed.

Lemma fenced_leader s id pid e' batch e : ids s !! id = Some (pid, e') → e < e' → Records.producer_epoch batch = e →
  fenced_at_the_leader (snapshot_of s) (Some id) (Some batch) [] = Some error_code.PRODUCER_FENCED.
Proof.
  intros Hl He Hb. unfold ids in Hl. rewrite lookup_fmap in Hl.
  destruct (txns s !! id) as [txn|] eqn:Et; [|done]. injection Hl as <- <-.
  assert (snapshot_of s !! id = Some (epoch txn, partitions txn)) as Es by (unfold snapshot_of; by rewrite lookup_fmap, Et).
  unfold fenced_at_the_leader. change (has ProduceAcceptsFencedEpoch []) with false. cbn iota.
  cbn [mbind option_bind]. rewrite Es. cbn [mbind option_bind]. rewrite Hb.
  by destruct (Z.ltb_spec e (epoch txn)); [|lia].
Qed.

(** C30: A producer that lost its transactional id stays fenced.  Once the id has been
    claimed at a later epoch, then whatever happens on the cluster afterwards, within
    its first 32767 steps (an epoch is an [i16] that a claim adds one to, and wraps
    after that many), no request under the old epoch does anything: it cannot announce
    partitions, hand in offsets, commit or abort, and no node writes a batch of it. *)
Theorem fenced_producers_stay_fenced (ports : list Z) (n m : nat) (s s' : ClusterState) id pid current e :
  nsteps (cluster_step lossy []) n (spawned ports []) s → ids s !! id = Some (pid, current) → e < current →
  nsteps (cluster_step lossy []) m s s' → Z.of_nat (n + m) ≤ 32767 →
  (∀ request, end_txn_request.EndTxnRequest.transactional_id request = id →
     end_txn_request.EndTxnRequest.producer_epoch request = e →
     end_txn_answer [] request s' = (end_txn_response.EndTxnResponse.mk 0 error_code.PRODUCER_FENCED (-1) (-1) [], s')) ∧
  (∀ request, add_partitions_to_txn_request.AddPartitionsToTxnRequest.v3_and_below_transactional_id request = id →
     add_partitions_to_txn_request.AddPartitionsToTxnRequest.v3_and_below_producer_epoch request = e →
     (add_partitions_answer [] request s').2 = s') ∧
  (∀ request, txn_offset_commit_request.TxnOffsetCommitRequest.transactional_id request = id →
     txn_offset_commit_request.TxnOffsetCommitRequest.producer_epoch request = e →
     (txn_offset_commit_answer [] request s').2 = s') ∧
  (∀ node name index set batch batches rest,
     decode_set set = Ok (batch :: batches, rest) → Records.producer_epoch batch = e →
     let (entry, s'') := produce_partition node [] (snapshot_of s') (Some id) name index set s' in
     (entry = Some (refused index error_code.PRODUCER_FENCED) ∨
        entry = Some (refused index error_code.NOT_LEADER_OR_FOLLOWER)) ∧
     ∀ place, default empty_log (logs s'' !! place) = default empty_log (logs s' !! place)).
Proof.
  intros Hrun Hid He Hrun' Hb.
  destruct (run_producers 0 n _ _ (spawned_ok ports) Hrun) as [Hp _]; [lia|].
  destruct (run_producers _ m s s' Hp Hrun') as [_ Hlater]; [lia|].
  destruct (Hlater _ _ _ Hid) as (e' & Hid' & Hle). assert (e < e') as He' by lia.
  pose proof (fenced_check s' id pid e e' Hid' He') as Hc. split_and!.
  - intros request Ei Ee. unfold end_txn_answer. cbv zeta. by rewrite Ei, Ee, Hc.
  - intros request Ei Ee. unfold add_partitions_answer. cbv zeta. cbn [snd]. by rewrite Ei, Ee, Hc.
  - intros request Ei Ee. unfold txn_offset_commit_answer. cbv zeta. cbn [snd]. by rewrite Ei, Ee, Hc.
  - intros node name index set batch batches rest Ed Eb. unfold produce_partition.
    destruct (_ && _); [by split; [right|]|]. cbv zeta. rewrite Ed. cbn [head].
    rewrite (fenced_leader s' id pid e' batch e Hid' He' Eb). split; [by left|].
    intros place. cbn [logs set_logs]. destruct (decide ((name, index) = place)) as [<-|Hne].
    + by rewrite lookup_insert_eq.
    + by rewrite lookup_insert_ne.
Qed.

End runs.

(** ** Retries *)

Section retries.
Context {R : Runtime}.

(** What is in a log, one that is not there being empty. *)
Definition log_of (s : ClusterState) (place : string * Z) : PartitionLog := default empty_log (logs s !! place).

Lemma log_of_set place log s : log_of (set_logs (<[place := log]> (logs s)) s) place = log.
Proof. unfold log_of. cbn [logs set_logs]. by rewrite lookup_insert_eq. Qed.

Lemma log_of_other place place' log s : place ≠ place' →
  log_of (set_logs (<[place := log]> (logs s)) s) place' = log_of s place'.
Proof. intros Hne. unfold log_of. cbn [logs set_logs]. by rewrite lookup_insert_ne. Qed.

(** Making an entry for a log changes no log. *)
Lemma log_of_touch place s place' :
  log_of (set_logs (<[place := default empty_log (logs s !! place)]> (logs s)) s) place' = log_of s place'.
Proof. destruct (decide (place = place')) as [<-|Hne]; [apply log_of_set|by apply log_of_other]. Qed.

Lemma fenced_code snapshot id batch code :
  fenced_at_the_leader snapshot id batch [] = Some code → code = error_code.PRODUCER_FENCED.
Proof.
  unfold fenced_at_the_leader. change (has ProduceAcceptsFencedEpoch []) with false. cbn iota.
  destruct batch as [batch|], id as [id|]; cbn [mbind option_bind]; try done.
  destruct (snapshot !! id) as [[e ps]|]; cbn [mbind option_bind]; [|done]. destruct (_ <? _); [|done]. by intros [= <-].
Qed.

Lemma verdict_code log batch code :
  stamped_verdict log batch [] = Some code → code = error_code.OUT_OF_ORDER_SEQUENCE_NUMBER.
Proof.
  unfold stamped_verdict. change (has ProduceAcceptsSequenceGaps []) with false. cbn iota.
  destruct batch as [batch|]; cbn [mbind option_bind]; [|done]. destruct (negb _); [done|].
  destruct (last_batch log !! _); cbn [mbind option_bind]; [|done]. destruct (_ || _); [done|]. by intros [= <-].
Qed.

Lemma known_repeat log batch known :
  stamped batch = true → last_batch log !! Records.producer_id batch = Some known →
  Records.base_sequence batch = base_sequence known →
  stamped_verdict log (Some batch) [] = None ∧ duplicate_of log (Some batch) [] = Some (base_offset known).
Proof.
  intros Hst Hk Hq. unfold stamped_verdict, duplicate_of.
  change (has ProduceAcceptsSequenceGaps []) with false. change (has ProduceAppendsIdempotentRetries []) with false.
  cbn iota. cbn [mbind option_bind]. rewrite Hst. cbn [negb]. rewrite Hk. cbn [mbind option_bind].
  by rewrite Hq, Z.eqb_refl.
Qed.

(** The leader answers a batch whose stamp is that of the last one with the offset
    of that one, and writes nothing. *)
Lemma repeat_answered node snapshot id name index set batch batches rest known s :
  placement name s = node → decode_set set = Ok (batch :: batches, rest) → stamped batch = true →
  fenced_at_the_leader snapshot id (Some batch) [] = None →
  last_batch (log_of s (name, index)) !! Records.producer_id batch = Some known →
  Records.base_sequence batch = base_sequence known →
  let (entry, s') := produce_partition node [] snapshot id name index set s in
  entry = Some (accepted index (base_offset known)) ∧ ∀ place, log_of s' place = log_of s place.
Proof.
  intros Hn Ed Hst Hf Hk Hq. unfold produce_partition. rewrite Hn, Z.eqb_refl. cbn [negb andb]. cbv zeta.
  rewrite Ed. cbn [head]. rewrite Hf. unfold log_of in Hk.
  destruct (known_repeat _ _ _ Hst Hk Hq) as [-> ->]. split; [done|]. apply log_of_touch.
Qed.

(** C31: A retry is written once.  When a stamped set was accepted, then sending it
    again, to whichever node leads the partition by then, is answered with the same
    offset and changes no log, for as long as the producer has written nothing else
    there and holds its epoch. *)
Theorem retries_are_written_once node snapshot id name index set batch batches rest entry s s1 :
  produce_partition node [] snapshot id name index set s = (Some entry, s1) →
  produce_response.PartitionProduceResponse.error_code entry = 0 →
  decode_set set = Ok (batch :: batches, rest) → stamped batch = true →
  ∀ s2 snapshot2,
    last_batch (log_of s2 (name, index)) !! Records.producer_id batch =
      last_batch (log_of s1 (name, index)) !! Records.producer_id batch →
    fenced_at_the_leader snapshot2 id (Some batch) [] = None →
    let (entry2, s3) := produce_partition (placement name s2) [] snapshot2 id name index set s2 in
    entry2 = Some entry ∧ ∀ place, log_of s3 place = log_of s2 place.
Proof.
  intros E He Ed Hst s2 snapshot2 Hlast Hf2.
  assert (∃ known, last_batch (log_of s1 (name, index)) !! Records.producer_id batch = Some known ∧
    Records.base_sequence batch = base_sequence known ∧ entry = accepted index (base_offset known)) as (known & Hk & Hq & ->).
  { unfold produce_partition in E. destruct (_ && _); [by injection E as <- <-|]. cbv zeta in E. rewrite Ed in E.
    cbn [head] in E. destruct (fenced_at_the_leader snapshot id (Some batch) []) as [code|] eqn:Ef.
    { apply fenced_code in Ef as ->. by injection E as <- <-. }
    set (log := default empty_log (logs s !! (name, index))) in *.
    destruct (stamped_verdict log (Some batch) []) as [code|] eqn:Ev.
    { apply verdict_code in Ev as ->. by injection E as <- <-. }
    destruct (duplicate_of log (Some batch) []) as [at_|] eqn:Edup.
    - injection E as <- <-. unfold duplicate_of in Edup. change (has ProduceAppendsIdempotentRetries []) with false in Edup.
      cbn iota in Edup. cbn [mbind option_bind] in Edup. rewrite Hst in Edup. cbn [negb] in Edup.
      destruct (last_batch log !! _) as [known|] eqn:Ek; [|done]. cbn [mbind option_bind] in Edup.
      destruct (Z.eqb_spec (Records.base_sequence batch) (base_sequence known)); [|done]. injection Edup as <-.
      exists known. by rewrite log_of_set.
    - injection E as <- <-. unfold log_of. cbn [logs set_logs]. rewrite lookup_insert_eq.
      cbn [default from_option Datatypes.id append_set last_batch]. rewrite Hst.
      eexists. split; [apply lookup_insert_eq|done]. }
  apply repeat_answered with batch batches rest; [done..|by rewrite Hlast|done].
Qed.

(** Repeats are told by their sequence alone.  A batch of the same producer
    at the sequence its last one in the partition began with is answered as that
    one, whatever its epoch and whatever its records: a producer that claims its
    transactional id anew and starts over at sequence 0, as it has to, is told that
    its first batch is at the offset of its predecessor's, and the batch is gone. *)
Theorem new_epoch_loses_its_first_batch node snapshot id name index set batch batches rest known s :
  placement name s = node → decode_set set = Ok (batch :: batches, rest) → stamped batch = true →
  fenced_at_the_leader snapshot id (Some batch) [] = None →
  last_batch (log_of s (name, index)) !! Records.producer_id batch = Some known →
  Records.base_sequence batch = base_sequence known →
  let (entry, s') := produce_partition node [] snapshot id name index set s in
  entry = Some (accepted index (base_offset known)) ∧ bytes (log_of s' (name, index)) = bytes (log_of s (name, index)).
Proof.
  intros Hn Ed Hst Hf Hk Hq.
  pose proof (repeat_answered node snapshot id name index set batch batches rest known s Hn Ed Hst Hf Hk Hq) as Hr.
  destruct (produce_partition _ _ _ _ _ _ _ _) as [entry s']. destruct Hr as [-> Hl]. by rewrite Hl.
Qed.

End retries.

(** ** Routing *)

Section routing.
Context {R : Runtime}.

Lemma nodes_lookup s i : nodes s !! i =
  (λ port, (default BROKER_NODE_ID (try_from i32_min i32_max (Z.of_nat (S i))), port)) <$> ports s !! i.
Proof. unfold nodes. by rewrite list_lookup_imap. Qed.

Lemma node_port s n : len (ports s) ≤ i32_max → n ∈ node_ids s → (n, port_of n s) ∈ nodes s.
Proof.
  intros Hl (p & -> & (i & Hi)%list_elem_of_lookup)%list_elem_of_fmap.
  apply list_elem_of_lookup. exists i. rewrite Hi. rewrite nodes_lookup in Hi.
  destruct (ports s !! i) as [port|] eqn:Ep; [|done]. cbn [fmap option_fmap option_map] in Hi. injection Hi as <-.
  assert (i < length (ports s))%nat as Hlt by (by eapply lookup_lt_Some).
  rewrite try_from_in by int_lia. cbn [fst default from_option Datatypes.id]. do 2 f_equal.
  unfold port_of. rewrite try_from_in by (unfold usize_max; int_lia).
  replace (Z.to_nat (Z.of_nat (S i) - 1)) with i by lia. by rewrite Ep.
Qed.

Lemma placement_live name s : live s ≠ [] → placement name s ∈ live s.
Proof.
  intros Hne. unfold placement, placement_over. destruct (live s) as [|n l] eqn:E; [done|]. rewrite <- E.
  set (h := fnv (str_bytes name)).
  pose proof (Z.mod_pos_bound h (len (live s))) as Hm. assert (0 < len (live s)) as Hpos by (rewrite E; cbn; lia).
  destruct (lookup_lt_is_Some_2 (live s) (Z.to_nat (h mod len (live s)))) as [m Hm']; [lia|].
  rewrite Hm'. by eapply list_elem_of_lookup_2.
Qed.

Lemma leader_serves name s snapshot txn index set :
  (produce_partition (placement name s) [] snapshot txn name index set s).1 ≠
    Some (refused index error_code.NOT_LEADER_OR_FOLLOWER).
Proof.
  unfold produce_partition. rewrite Z.eqb_refl. cbn [negb andb]. cbv zeta.
  destruct (decode_set set) as [[batches rest]|e]; [|done].
  destruct (fenced_at_the_leader _ _ _ _) as [code|] eqn:Ef; [apply fenced_code in Ef as ->; discriminate|].
  destruct (stamped_verdict _ _ _) as [code|] eqn:Ev; [apply verdict_code in Ev as ->; discriminate|].
  destruct (duplicate_of _ _ _); discriminate.
Qed.

Lemma each_results {A B S} (f : A → S → B * S) l y : ∀ s, y ∈ (each f l s).1 → ∃ x s1, y = (f x s1).1.
Proof.
  induction l as [|x l IH]; intros s; cbn [each]; [by intros ?%not_elem_of_nil|].
  destruct (f x s) as [y1 s1] eqn:E1. specialize (IH s1). destruct (each f l s1) as [ys s2]. cbn [fst] in *.
  intros [->|Hy]%elem_of_cons; [|by apply IH]. exists x, s. by rewrite E1.
Qed.

Lemma commit_codes name topic_id code ps p :
  p ∈ offset_commit_response.OffsetCommitResponseTopic.partitions (commit_response name topic_id code ps) →
  offset_commit_response.OffsetCommitResponsePartition.error_code p = code.
Proof. cbn. by intros (x & -> & _)%list_elem_of_fmap. Qed.

(** C32: Clients are sent where they are served.  As long as a node is up, every node
    gives every client the same answer: the leader of a topic that exists and the
    coordinator of a group, at the versions that ask for one key and at those that
    ask for several, are nodes that are up and that the answer lists with their port.  That leader takes a produce and that coordinator a commit; every
    other node refuses them, with the code that makes the client ask again, and
    changes nothing. *)
Theorem clients_are_sent_where_they_are_served (s : ClusterState) (name group : string) id :
  live s ≠ [] → len (ports s) ≤ i32_max → created s !! name = Some id →
  (∀ request correlation node correlation' node',
     metadata_answer correlation node [] request s = metadata_answer correlation' node' [] request s) ∧
  (∀ request correlation node, name ∈ requested_names request →
     ∃ leader, leader ∈ live s ∧
       broker_entry (leader, port_of leader s) ∈
         metadata_response.MetadataResponse.brokers (metadata_answer correlation node [] request s) ∧
       named_topic 0 name id [metadata_response.MetadataResponsePartition.mk 0 0 leader 0
           (leader :: base.filter (λ n, n ≠ leader) (node_ids s)) (leader :: base.filter (λ n, n ≠ leader) (node_ids s)) [] []] ∈
         metadata_response.MetadataResponse.topics (metadata_answer correlation node [] request s) ∧
       ∀ n snapshot txn index set,
         (produce_partition n [] snapshot txn name index set s =
            (Some (refused index error_code.NOT_LEADER_OR_FOLLOWER), s)) ↔ n ≠ leader) ∧
  (∃ coordinator, coordinator ∈ live s ∧
     (∀ version node request, version < FIND_COORDINATOR_BATCHED →
        find_coordinator_request.FindCoordinatorRequest.key request = group →
        find_coordinator_answer version node [] s request =
          find_coordinator_response.FindCoordinatorResponse.mk 0 0 (Some "") coordinator LOCALHOST
            (port_of coordinator s) [] []) ∧
     (∀ version node request, FIND_COORDINATOR_BATCHED ≤ version →
        let answers := find_coordinator_response.FindCoordinatorResponse.coordinators
          (find_coordinator_answer version node [] s request) in
        let answer := find_coordinator_response.Coordinator.mk group coordinator LOCALHOST
          (port_of coordinator s) 0 (Some "") [] in
        (group ∈ find_coordinator_request.FindCoordinatorRequest.coordinator_keys request → answer ∈ answers) ∧
        ∀ a, a ∈ answers → find_coordinator_response.Coordinator.key a = group → a = answer) ∧
     ∀ n request, offset_commit_request.OffsetCommitRequest.group_id request = group →
       ∃ code, (code = 0 ↔ n = coordinator) ∧ (code = 0 ∨ code = error_code.NOT_COORDINATOR) ∧
         (code ≠ 0 → (offset_commit_answer n [] request s).2 = s) ∧
         ∀ t p, t ∈ offset_commit_response.OffsetCommitResponse.topics (offset_commit_answer n [] request s).1 →
           p ∈ offset_commit_response.OffsetCommitResponseTopic.partitions t →
           offset_commit_response.OffsetCommitResponsePartition.error_code p = code).
Proof.
  intros Hlive Hports Hname. split; [done|]. split.
  - intros request correlation node Hr. exists (placement name s).
    pose proof (placement_live name s Hlive) as Hl. split_and!; [done| | |].
    + unfold metadata_answer. cbv zeta. change (has MetadataEmptyBrokers []) with false.
      cbn [metadata_response.MetadataResponse.brokers]. apply list_elem_of_fmap. eexists. split; [reflexivity|].
      apply node_port; [done|]. unfold live in Hl. by apply list_elem_of_filter in Hl as [_ Hl].
    + unfold metadata_answer. cbv zeta. change (has MetadataUnrequestedTopic []) with false.
      change (has MetadataUnknownTopicOmitted []) with false. cbn [andb metadata_response.MetadataResponse.topics].
      apply list_elem_of_fmap. exists name. split; [|done]. unfold topic_metadata. by rewrite Hname.
    + intros n snapshot txn index set. split.
      * intros E ->. apply (leader_serves name s snapshot txn index set). by rewrite E.
      * intros Hne. unfold produce_partition. by rewrite (proj2 (Z.eqb_neq _ _) (not_eq_sym Hne)).
  - exists (placement group s). split; [by apply placement_live|]. split_and!.
    + intros version node request Hv <-. unfold find_coordinator_answer.
      by rewrite (proj2 (Z.leb_gt _ _) Hv).
    + intros version node request Hv. unfold find_coordinator_answer.
      rewrite (proj2 (Z.leb_le _ _) Hv). cbv zeta.
      cbn [find_coordinator_response.FindCoordinatorResponse.coordinators]. split.
      * intros Hk. apply list_elem_of_fmap. by exists group.
      * intros a (name' & -> & _)%list_elem_of_fmap E. change (name' = group) in E. by subst name'.
    + intros n request <-. unfold offset_commit_answer. cbv zeta.
      set (group := offset_commit_request.OffsetCommitRequest.group_id request).
      destruct (Z.eqb_spec (placement group s) n) as [E|Hne]; cbn [negb andb].
      * exists 0. split_and!; [by split|by left|done|]. intros t p.
        pose proof (each_results (commit_topic group []) (offset_commit_request.OffsetCommitRequest.topics request)) as Hr.
        specialize (Hr t s). destruct (each _ _ s) as [ts s']. cbn [fst offset_commit_response.OffsetCommitResponse.topics] in *.
        intros Ht Hp. destruct (Hr Ht) as (x & s1 & ->). exact (commit_codes _ _ _ _ _ Hp).
      * exists error_code.NOT_COORDINATOR. split_and!; [split; [intros C; discriminate C|intros C; by destruct Hne]|by right|done|].
        intros t p. cbn [fst offset_commit_response.OffsetCommitResponse.topics].
        intros (x & -> & _)%list_elem_of_fmap Hp. exact (commit_codes _ _ _ _ _ Hp).
Qed.
End routing.

(** ** Committed offsets *)

Section commits.
Context {R : Runtime}.

Abbreviation index_of := offset_commit_request.OffsetCommitRequestPartition.partition_index.

Lemma commits_lookup group name ps : ∀ c p, NoDup (index_of <$> ps) → p ∈ ps →
  foldl (commit_partition group name []) c ps !! (group, name, index_of p) =
    Some (offset_commit_request.OffsetCommitRequestPartition.committed_offset p,
          offset_commit_request.OffsetCommitRequestPartition.committed_metadata p).
Proof.
  assert (∀ ps c i, i ∉ (index_of <$> ps) → foldl (commit_partition group name []) c ps !! (group, name, i) = c !! (group, name, i)) as Hother.
  { clear. intros ps. induction ps as [|q ps IH]; intros c i Hi; [done|]. cbn [foldl].
    rewrite fmap_cons, not_elem_of_cons in Hi. destruct Hi as [Hq Hi]. rewrite IH by done.
    unfold commit_partition. rewrite lookup_insert_ne; [done|]. intros [= E]. by apply Hq. }
  induction ps as [|q ps IH]; intros c p Hnd Hp; [by apply not_elem_of_nil in Hp|].
  rewrite fmap_cons, NoDup_cons in Hnd. destruct Hnd as [Hq Hnd]. cbn [foldl].
  apply elem_of_cons in Hp as [->|Hp]; [|by apply IH]. rewrite Hother by done.
  unfold commit_partition. apply lookup_insert_eq.
Qed.

(** Nodes come and go. *)
Definition outage (s s' : ClusterState) : Prop := ∃ n, s' = stop n s ∨ s' = start n s.

Lemma outages_keep s s' : rtc outage s s' → state_faults s = [] →
  committed s' = committed s ∧ topic_names s' = topic_names s.
Proof.
  induction 1 as [s|s s1 s' [n Hn] _ IH]; intros Hf; [done|].
  assert (state_faults s1 = [] ∧ committed s1 = committed s ∧ topic_names s1 = topic_names s) as (Hf1 & E1 & E2).
  { destruct Hn as [->| ->]; [|done]. unfold stop. by rewrite Hf. }
  destruct (IH Hf1) as [-> ->]. done.
Qed.

(** C33: Committed offsets outlive their coordinator.  What a group commits with the
    node that coordinates it, under a topic's name or id, is what any node answers
    afterwards, at every version and under either way of naming the topic, with its
    metadata; and nodes that stop and start in between, the coordinator among them,
    take nothing away. *)
Theorem committed_offsets_outlive_their_coordinator (s s' : ClusterState) request t p group name :
  state_faults s = [] →
  offset_commit_request.OffsetCommitRequest.group_id request = group →
  offset_commit_request.OffsetCommitRequest.topics request = [t] →
  resolve_topic s (offset_commit_request.OffsetCommitRequestTopic.name t)
    (offset_commit_request.OffsetCommitRequestTopic.topic_id t) = Some name →
  NoDup (index_of <$> offset_commit_request.OffsetCommitRequestTopic.partitions t) →
  p ∈ offset_commit_request.OffsetCommitRequestTopic.partitions t →
  rtc outage (offset_commit_answer (placement group s) [] request s).2 s' →
  let offset := offset_commit_request.OffsetCommitRequestPartition.committed_offset p in
  let metadata := offset_commit_request.OffsetCommitRequestPartition.committed_metadata p in
  (∀ version ask g u, OFFSET_FETCH_BATCHED ≤ version →
     g ∈ offset_fetch_request.OffsetFetchRequest.groups ask →
     offset_fetch_request.OffsetFetchRequestGroup.group_id g = group →
     u ∈ default [] (offset_fetch_request.OffsetFetchRequestGroup.topics g) →
     resolve_topic s (offset_fetch_request.OffsetFetchRequestTopics.name u)
       (offset_fetch_request.OffsetFetchRequestTopics.topic_id u) = Some name →
     index_of p ∈ offset_fetch_request.OffsetFetchRequestTopics.partition_indexes u →
     ∃ g' u', g' ∈ offset_fetch_response.OffsetFetchResponse.groups (offset_fetch_answer version [] s' ask) ∧
       offset_fetch_response.OffsetFetchResponseGroup.group_id g' = group ∧
       u' ∈ offset_fetch_response.OffsetFetchResponseGroup.topics g' ∧
       offset_fetch_response.OffsetFetchResponseTopics.name u' = offset_fetch_request.OffsetFetchRequestTopics.name u ∧
       offset_fetch_response.OffsetFetchResponsePartitions.mk (index_of p) offset (-1) metadata 0 [] ∈
         offset_fetch_response.OffsetFetchResponseTopics.partitions u') ∧
  (∀ version ask u, version < OFFSET_FETCH_BATCHED →
     offset_fetch_request.OffsetFetchRequest.group_id ask = group →
     u ∈ default [] (offset_fetch_request.OffsetFetchRequest.topics ask) →
     offset_fetch_request.OffsetFetchRequestTopic.name u = name →
     index_of p ∈ offset_fetch_request.OffsetFetchRequestTopic.partition_indexes u →
     ∃ u', u' ∈ offset_fetch_response.OffsetFetchResponse.topics (offset_fetch_answer version [] s' ask) ∧
       offset_fetch_response.OffsetFetchResponseTopic.name u' = name ∧
       offset_fetch_response.OffsetFetchResponsePartition.mk (index_of p) offset (-1) metadata 0 [] ∈
         offset_fetch_response.OffsetFetchResponseTopic.partitions u').
Proof.
  intros Hf Hg Ht Hname Hnd Hp Hout. cbv zeta.
  assert (committed s' !! (group, name, index_of p) =
      Some (offset_commit_request.OffsetCommitRequestPartition.committed_offset p,
            offset_commit_request.OffsetCommitRequestPartition.committed_metadata p) ∧
    topic_names s' = topic_names s) as [Hc Hn].
  { revert Hout. unfold offset_commit_answer. cbv zeta. rewrite Hg, Z.eqb_refl, Ht. cbn [negb andb each].
    unfold commit_topic. rewrite Hname. cbn [default from_option Datatypes.id snd]. intros Hout.
    destruct (outages_keep _ _ Hout) as [-> ->]; [done|]. split; [|done]. by apply commits_lookup. }
  assert (∀ i, i = index_of p → committed_offset [] s' group name i =
    (offset_commit_request.OffsetCommitRequestPartition.committed_offset p,
     offset_commit_request.OffsetCommitRequestPartition.committed_metadata p)) as Hco.
  { intros i ->. unfold committed_offset. by rewrite Hc. }
  split.
  - intros version ask g u Hv Hgs Hgg Hu Hres Hi. unfold offset_fetch_answer.
    rewrite (proj2 (Z.leb_le _ _) Hv). cbn [offset_fetch_response.OffsetFetchResponse.groups].
    eexists _, _. split; [apply list_elem_of_fmap_2, Hgs|]. split; [done|]. split; [apply list_elem_of_fmap_2, Hu|].
    split; [done|]. apply list_elem_of_fmap. exists (index_of p). split; [|done].
    assert (resolve_topic s' (offset_fetch_request.OffsetFetchRequestTopics.name u)
       (offset_fetch_request.OffsetFetchRequestTopics.topic_id u) = Some name) as ->.
    { revert Hres. unfold resolve_topic. by rewrite Hn. }
    cbn [default from_option Datatypes.id]. rewrite Hgg. by rewrite Hco.
  - intros version ask u Hv Hgg Hu Hun Hi. unfold offset_fetch_answer.
    rewrite (proj2 (Z.leb_gt _ _) Hv). cbn [offset_fetch_response.OffsetFetchResponse.topics].
    eexists. split; [apply list_elem_of_fmap_2, Hu|]. split; [done|].
    apply list_elem_of_fmap. exists (index_of p). split; [|done]. rewrite Hgg, Hun. by rewrite Hco.
Qed.

(** ** Transactions that change hands *)

(** Offsets that wait in a transaction outlive its producer.  Claiming the id
    does not end what the predecessor left open, as the comment says it does: the
    offsets it handed in stay pending, its records stay open under the producer id
    they share, and the first commit of the successor publishes both. *)
Theorem takeover_commits_the_predecessors_work (s : ClusterState) id txn claim finish :
  txns s !! id = Some txn → -1 ≤ epoch txn < 32767 →
  init_producer_id_request.InitProducerIdRequest.transactional_id claim = Some id →
  end_txn_request.EndTxnRequest.transactional_id finish = id →
  end_txn_request.EndTxnRequest.producer_epoch finish = epoch txn + 1 →
  end_txn_request.EndTxnRequest.committed finish = true →
  let s1 := (init_producer_id_answer [] claim s).2 in
  let s2 := (end_txn_answer [] finish s1).2 in
  logs s1 = logs s ∧ (end_txn_answer [] finish s1).1 = end_txn_response.EndTxnResponse.mk 0 0 (-1) (-1) [] ∧
  committed s2 = pending_offsets txn ∪ committed s ∧
  ∀ place log first, logs s !! place = Some log → open log !! producer_id txn = Some first →
    ∃ log', logs s2 !! place = Some log' ∧ open log' !! producer_id txn = None ∧ aborted log' = aborted log.
Proof.
  intros Ht He Hc Hi Hfe Hfc. cbv zeta.
  assert (∃ next, (init_producer_id_answer [] claim s).2 =
    set_txn id (mkTxnState (producer_id txn) (epoch txn + 1) ∅ (pending_offsets txn)) (set_next_producer_id next s)) as [next ->].
  { unfold init_producer_id_answer. cbv zeta. rewrite Hc, Ht. cbn [default from_option Datatypes.id snd].
    change (has TxnInitReusesEpoch []) with false. cbn iota. rewrite sint_small by int_lia.
    destruct (_ =? _); [by eexists|]. exists (next_producer_id s). by destruct s. }
  set (s1 := set_txn id _ _).
  assert (txns s1 !! id = Some (mkTxnState (producer_id txn) (epoch txn + 1) ∅ (pending_offsets txn))) as Ht1 by apply lookup_insert_eq.
  assert (txn_epoch_check s1 id (epoch txn + 1) [] = 0) as Hcheck.
  { unfold txn_epoch_check. rewrite Ht1. cbn [epoch]. by rewrite Z.eqb_refl, orb_true_r. }
  split; [done|]. unfold end_txn_answer. cbv zeta. rewrite Hi, Hfe, Hcheck, Ht1, Hfc. cbn [Z.eqb snd fst].
  split; [done|]. split; [done|]. intros place log first Hl Ho.
  cbn [set_txn logs set_txns set_committed set_logs producer_id]. rewrite lookup_fmap. cbn [s1 set_txn logs set_txns set_next_producer_id].
  rewrite Hl. eexists. split; [reflexivity|]. unfold mark_end. rewrite Ho. cbn [open aborted].
  split; [apply lookup_delete_eq|done].
Qed.

(** Two topics can get one id.  The id is a hash of the name, and these names
    collide: once both topics exist the id names the second, what is written to the
    first by its id goes to the second, and deleting the second takes the first's id
    away. *)
Theorem topic_ids_collide :
  mint_topic_id "bb" = mint_topic_id "cC" ∧
  let topic name := create_topics_request.CreatableTopic.mk name 1 1 [] [] [] in
  let s := (create_topics_answer [] (create_topics_request.CreateTopicsRequest.mk [topic "bb"; topic "cC"] 0 false [])
              (spawned [9092] [])).2 in
  let id := mint_topic_id "bb" in
  created s !! "bb" = Some id ∧ resolve_topic s "" id = Some "cC" ∧
  let s' := (delete_topics_answer [] (delete_topics_request.DeleteTopicsRequest.mk [] ["cC"] 0 []) s).2 in
  created s' !! "bb" = Some id ∧ resolve_topic s' "" id = None.
Proof. split; [by vm_compute|]. cbv zeta. split_and!; by vm_compute. Qed.

End commits.

(** From version 4 on the partitions of a transaction are announced in batches, in
    fields that the broker, which advertises those versions, never reads: the answer
    is success about nothing. *)
Lemma batched_announcements_are_not_read transactions s :
  txns s !! "" = None →
  add_partitions_answer [] (add_partitions_to_txn_request.AddPartitionsToTxnRequest.mk transactions "" 0 0 [] []) s =
    (add_partitions_to_txn_response.AddPartitionsToTxnResponse.mk 0 0 [] [] [], s).
Proof.
  intros Ht. unfold add_partitions_answer. cbv zeta.
  cbn [add_partitions_to_txn_request.AddPartitionsToTxnRequest.v3_and_below_transactional_id
       add_partitions_to_txn_request.AddPartitionsToTxnRequest.v3_and_below_topics fmap list_fmap].
  unfold txn_epoch_check. by rewrite Ht.
Qed.

(** ** Witnesses *)

#[local] Existing Instance plain_runtime.
#[local] Existing Instance rfc4648.base64.
#[local] Existing Instance ascii_only.
#[local] Existing Instance toy.crypto.

(** A claim of the id "t", as a client sends it. *)
Definition sample_claim : list byte :=
  (request_header.RequestHeader.encode 1 (request_header.RequestHeader.mk 22 0 5 (Some "c") []) []).2 ++
  (Message.encode 0 (init_producer_id_request.InitProducerIdRequest.mk (Some "t") 60000 (-1) (-1) false false []) []).2.
Definition sample_served (s : ClusterState) : ClusterState :=
  (serve_frame (λ bs, bs) sample_claim 1 [] None Unstarted s s).2.

Lemma sample_step s : cluster_step (λ bs, bs) [] s (sample_served s).
Proof.
  unfold sample_served. destruct (serve_frame (λ bs, bs) sample_claim 1 [] None Unstarted s s) as [[out sasl] s'] eqn:E.
  by eapply step_frame.
Qed.

Definition sample_cluster : ClusterState := spawned [9092] [].

Lemma cluster_stays_consistent_witness :
  ids (sample_served sample_cluster) !! "t" = Some (1, 0) ∧ producers_ok 1 (sample_served sample_cluster).
Proof.
  split; [by vm_compute|].
  destruct (cluster_stays_consistent (λ bs, bs) [9092] 1 (sample_served sample_cluster)) as (_ & _ & _ & _ & Hp).
  - eapply nsteps_l; [apply sample_step|apply nsteps_O].
  - by apply Hp.
Defined.

Lemma fenced_producers_stay_fenced_witness :
  let s := sample_served (sample_served sample_cluster) in
  end_txn_answer [] (end_txn_request.EndTxnRequest.mk "t" 1 0 true []) (stop 1 s) =
    (end_txn_response.EndTxnResponse.mk 0 error_code.PRODUCER_FENCED (-1) (-1) [], stop 1 s).
Proof.
  assert (ids (sample_served (sample_served sample_cluster)) !! "t" = Some (1, 1)) as Hid by (by vm_compute).
  assert (nsteps (cluster_step (λ bs, bs) []) 2 sample_cluster (sample_served (sample_served sample_cluster))) as Hr.
  { eapply nsteps_l; [apply sample_step|]. eapply nsteps_l; [apply sample_step|apply nsteps_O]. }
  assert (nsteps (cluster_step (λ bs, bs) []) 1 (sample_served (sample_served sample_cluster))
    (stop 1 (sample_served (sample_served sample_cluster)))) as Hs.
  { eapply nsteps_l; [apply step_stop|apply nsteps_O]. }
  destruct (fenced_producers_stay_fenced (λ bs, bs) [9092] 2 1 _ _ "t" 1 1 0 Hr Hid eq_refl Hs) as [Hend _]; [lia|].
  exact (Hend (end_txn_request.EndTxnRequest.mk "t" 1 0 true []) eq_refl eq_refl).
Defined.

(** The first batches of a producer and of the one that takes its id over. *)
Definition sample_batch (epoch : Z) (value : list byte) : RecordBatch :=
  mkRecordBatch 0 0 16 0 0 0 1 epoch 0 (Records.Plain [mkKRecord 0 0 0 None (Some value) []]).
Definition sample_set (epoch : Z) (value : list byte) : list byte := (RecordBatchOps.encode_to (sample_batch epoch value) []).2.
Definition sample_written : ClusterState :=
  (produce_partition 1 [] ∅ (Some "t") "topic" 0 (sample_set 0 (str_bytes "first")) sample_cluster).2.

Lemma sample_written_ok :
  produce_partition 1 [] ∅ (Some "t") "topic" 0 (sample_set 0 (str_bytes "first")) sample_cluster =
    (Some (accepted 0 0), sample_written) ∧
  decode_set (sample_set 0 (str_bytes "first")) = Ok ([sample_batch 0 (str_bytes "first")], []) ∧
  decode_set (sample_set 1 (str_bytes "second")) = Ok ([sample_batch 1 (str_bytes "second")], []) ∧
  last_batch (log_of sample_written ("topic", 0)) !! 1 = Some (mkLastBatch 0 1 0) ∧
  bytes (log_of sample_written ("topic", 0)) = sample_set 0 (str_bytes "first").
Proof. split_and!; by vm_compute. Qed.

Lemma retries_are_written_once_witness :
  (produce_partition 1 [] ∅ (Some "t") "topic" 0 (sample_set 0 (str_bytes "first")) sample_written).1 =
    Some (accepted 0 0).
Proof.
  destruct sample_written_ok as (Hw & Hd & _ & _ & _).
  pose proof (retries_are_written_once 1 ∅ (Some "t") "topic" 0 _ _ [] [] (accepted 0 0) sample_cluster sample_written
    Hw eq_refl Hd eq_refl sample_written ∅ eq_refl eq_refl) as Hr.
  change (placement "topic" sample_written) with 1 in Hr.
  destruct (produce_partition 1 [] ∅ (Some "t") "topic" 0 (sample_set 0 (str_bytes "first")) sample_written) as [e s3].
  by destruct Hr as [-> _].
Defined.

Lemma new_epoch_loses_its_first_batch_witness :
  let r := produce_partition 1 [] {["t" := (1, ∅)]} (Some "t") "topic" 0 (sample_set 1 (str_bytes "second")) sample_written in
  r.1 = Some (accepted 0 0) ∧ bytes (log_of r.2 ("topic", 0)) = sample_set 0 (str_bytes "first").
Proof.
  destruct sample_written_ok as (_ & _ & Hd & Hk & Hb). cbv zeta.
  assert (placement "topic" sample_written = 1) as Hp by (by vm_compute).
  pose proof (new_epoch_loses_its_first_batch 1 {["t" := (1, ∅)]} (Some "t") "topic" 0 _ _ [] [] (mkLastBatch 0 1 0)
    sample_written Hp Hd eq_refl eq_refl Hk eq_refl) as Hr.
  destruct (produce_partition 1 [] {["t" := (1, ∅)]} (Some "t") "topic" 0 (sample_set 1 (str_bytes "second")) sample_written) as [e s3].
  destruct Hr as [-> Hlog]. split; [done|]. cbn [snd]. rewrite Hlog. exact Hb.
Defined.

Definition sample_topic : ClusterState := set_created {["topic" := mint_topic_id "topic"]} (spawned [9092; 9093] []).

Lemma clients_are_sent_where_they_are_served_witness :
  live sample_topic = [1; 2] ∧
  ∃ coordinator, coordinator ∈ live sample_topic ∧
    find_coordinator_answer 0 2 [] sample_topic (find_coordinator_request.FindCoordinatorRequest.mk "group" 0 [] []) =
      find_coordinator_response.FindCoordinatorResponse.mk 0 0 (Some "") coordinator LOCALHOST
        (port_of coordinator sample_topic) [] [].
Proof.
  split; [by vm_compute|].
  destruct (clients_are_sent_where_they_are_served sample_topic "topic" "group" (mint_topic_id "topic"))
    as (_ & _ & coordinator & Hl & Hf & _); [by vm_compute|by vm_compute|by vm_compute|].
  exists coordinator. split; [exact Hl|]. by apply Hf.
Defined.

Lemma committed_offsets_outlive_their_coordinator_witness :
  let p := offset_commit_request.OffsetCommitRequestPartition.mk 0 41 (-1) (Some "note") [] in
  let t := offset_commit_request.OffsetCommitRequestTopic.mk "topic" ZERO_ID [p] [] in
  let request := offset_commit_request.OffsetCommitRequest.mk "group" (-1) "" None (-1) [t] [] in
  let owner := placement "group" sample_topic in
  let s := stop owner (offset_commit_answer owner [] request sample_topic).2 in
  placement "group" s ≠ owner ∧
  ∃ u', u' ∈ offset_fetch_response.OffsetFetchResponse.topics (offset_fetch_answer 5 [] s
      (offset_fetch_request.OffsetFetchRequest.mk "group"
         (Some [offset_fetch_request.OffsetFetchRequestTopic.mk "topic" [0] []]) [] false [])) ∧
    offset_fetch_response.OffsetFetchResponsePartition.mk 0 41 (-1) (Some "note") 0 [] ∈
      offset_fetch_response.OffsetFetchResponseTopic.partitions u'.
Proof.
  cbv zeta. split; [vm_compute; discriminate|].
  set (p := offset_commit_request.OffsetCommitRequestPartition.mk 0 41 (-1) (Some "note") []).
  set (t := offset_commit_request.OffsetCommitRequestTopic.mk "topic" ZERO_ID [p] []).
  set (request := offset_commit_request.OffsetCommitRequest.mk "group" (-1) "" None (-1) [t] []).
  set (s1 := (offset_commit_answer (placement "group" sample_topic) [] request sample_topic).2).
  assert (rtc outage s1 (stop (placement "group" sample_topic) s1)) as Hout.
  { apply rtc_once. eexists. by left. }
  destruct (committed_offsets_outlive_their_coordinator sample_topic _ request t p "group" "topic"
    eq_refl eq_refl eq_refl eq_refl (NoDup_singleton _) (list_elem_of_here _ _) Hout) as [_ Hold].
  destruct (Hold 5 (offset_fetch_request.OffsetFetchRequest.mk "group"
         (Some [offset_fetch_request.OffsetFetchRequestTopic.mk "topic" [0] []]) [] false [])
    (offset_fetch_request.OffsetFetchRequestTopic.mk "topic" [0] []) eq_refl eq_refl
    (list_elem_of_here _ _) eq_refl (list_elem_of_here _ _)) as (u' & Hu & _ & He).
  by exists u'.
Defined.

Lemma takeover_commits_the_predecessors_work_witness :
  let txn := mkTxnState 1 0 ∅ {[("group", "topic", 0) := (41, None)]} in
  let s := set_txn "t" txn (set_next_producer_id 1 sample_cluster) in
  let s1 := (init_producer_id_answer [] (init_producer_id_request.InitProducerIdRequest.mk (Some "t") 0 (-1) (-1) false false []) s).2 in
  committed (end_txn_answer [] (end_txn_request.EndTxnRequest.mk "t" 1 1 true []) s1).2 !! ("group", "topic", 0) = Some (41, None).
Proof.
  cbv zeta. set (txn := mkTxnState 1 0 ∅ {[("group", "topic", 0) := (41, None)]}).
  set (s := set_txn "t" txn (set_next_producer_id 1 sample_cluster)).
  destruct (takeover_commits_the_predecessors_work s "t" txn
    (init_producer_id_request.InitProducerIdRequest.mk (Some "t") 0 (-1) (-1) false false [])
    (end_txn_request.EndTxnRequest.mk "t" 1 1 true []) eq_refl ltac:(cbn; lia) eq_refl eq_refl eq_refl eq_refl)
    as (_ & _ & Hc & _).
  rewrite Hc. by vm_compute.
Defined.
