(* ===== verification/Probe.v ===== *)
(** * Probing a server ([odradek-acceptance/src/raw.rs], [checks/server.rs])

    What every check of a server goes through: a raw connection, the one exchange
    whose answer is validated, the discovery of what the subject advertises, and
    the choice of versions.  The subject, the sockets and the clock are the class
    [Subjects], a world threaded through; the texts of derived [Display]s and
    [Debug]s are the class [Renders]. *)
From S2P Require Import Prelude Text Budget Codec Wire Frame Fields MessageTrait MsgConnection Registry Sasl Scram Session Report.
Import request_header response_header.

(** ** Effects *)

(** A computation that can fail: with a [WireError], a [CheckError], or, in a check,
    with the verdict it returns early. *)
Definition io (W E A : Type) : Type := W → result E A * W.
Definition io_ret {W E A} (a : A) : io W E A := λ w, (Ok a, w).
Definition io_fail {W E A} (e : E) : io W E A := λ w, (Err e, w).
Definition io_of {W E A} (r : result E A) : io W E A := λ w, (r, w).
Definition io_bind {W E A B} (m : io W E A) (k : A → io W E B) : io W E B := λ w,
  match m w with
  | (Ok a, w) => k a w
  | (Err e, w) => (Err e, w)
  end.
Definition io_map_err {W E E' A} (f : E → E') (m : io W E A) : io W E' A := λ w,
  let (r, w) := m w in (map_err f r, w).

(** What became of a computation, as a value. *)
Definition io_try {W E E' A} (m : io W E A) : io W E' (result E A) := λ w, let (r, w) := m w in (Ok r, w).

Notation "'let+' x ':=' m 'in' k" := (io_bind m (fun x => k))
  (at level 10, x pattern, m at level 100, k at level 200) : odradek_scope.

(** Sockets and time.  A read gives that many bytes, or fails: with the time-out that
    runs over the reading of a frame, or otherwise.  Every look at the clock is one of
    [SystemTime::now], in nanoseconds since the epoch; [instant] is [Instant::now], in
    nanoseconds too. *)
Class Subjects (W : Type) : Type := mkSubjects {
  socket : Type;
  tcp : string → io W string socket;
  tls : string → io W string socket;
  write_all : socket → list byte → io W string unit;
  read_exact : socket → Z → io W (option string) (list byte);
  sleep : Z → W → W;
  now : W → Z * W;
  instant : W → Z * W;
  getrandom : W → option (list byte);
}.

(** Text that is derived: [Display] of codec errors, [Debug] of a string, of a list of
    strings, of bytes, of numbers, of a duration in milliseconds, of one in
    nanoseconds and of a verdict; and what is wrong with bytes that are not UTF-8. *)
Class Renders : Type := mkRenders {
  show_encode : EncodeError → string;
  show_decode : DecodeError → string;
  debug_str : string → string;
  debug_strs : list string → string;
  debug_bytes : list byte → string;
  debug_ints : list Z → string;
  debug_ms : Z → string;
  debug_ns : Z → string;
  debug_verdict : Verdict → string;
  show_utf8_error : list byte → string;
}.

Definition show_int (z : Z) : string := bytes_str (decimal.print z).

(** ** Raw connections *)

Inductive WireError : Type :=
| Io (e : string)
| EncodeFailed (e : EncodeError)
| Timeout
| BadFrameLength (n : Z).

Definition READ_TIMEOUT_MS : Z := 5000.

Definition show_wire `{Renders} (e : WireError) : string :=
  match e with
  | Io e => "i/o error: " +:+ e
  | EncodeFailed e => "encode error: " +:+ show_encode e
  | Timeout => "timed out after " +:+ debug_ms READ_TIMEOUT_MS +:+ " waiting for a response frame"
  | BadFrameLength n => "frame length " +:+ show_int n +:+ " out of range"
  end.

(** Why an exchange yielded nothing: the suite could not run it, or the subject
    misbehaved. *)
Inductive CheckError : Type :=
| Infra (details : string)
| Violation (details : string).

Definition context (what : string) (e : CheckError) : CheckError :=
  match e with
  | Infra d => Infra (what +:+ ": " +:+ d)
  | Violation d => Violation (what +:+ ": " +:+ d)
  end.

Definition details_of (e : CheckError) : string := match e with Infra d | Violation d => d end.

Definition into_verdict (e : CheckError) : Verdict :=
  match e with Infra d => Error d | Violation d => Fail d end.

Definition of_wire `{Renders} (e : WireError) : CheckError :=
  match e with
  | BadFrameLength _ => Violation (show_wire e)
  | Io _ | Timeout | EncodeFailed _ => Infra (show_wire e)
  end.

(** The login of a run, and the budgets, in milliseconds.  What stops and starts
    brokers is left out. *)
Record ScramLogin : Type := mkScramLogin {
  login_mechanism : string;
  user : string;
  login_password : string;
}.
Record ProbeConfig : Type := mkProbeConfig {
  settle_budget : Z;
  settle_delay : Z;
  credentials : option ScramLogin;
  recovery_budget : Z;
  over_tls : bool;
}.
Definition ProbeConfig_default : ProbeConfig := mkProbeConfig 20000 100 None 60000 false.

Definition attempts (budget delay : Z) : Z :=
  let delay := Z.max delay 1 in
  Z.max (default u32_max (try_from 0 u32_max (budget / delay))) 1.
Definition settle_attempts (c : ProbeConfig) : Z := attempts (settle_budget c) (settle_delay c).
Definition recovery_attempts (c : ProbeConfig) : Z := attempts (recovery_budget c) (settle_delay c).

(** What the subject offers: an error when discovery could not run. *)
Record ServerCtx : Type := mkServerCtx {
  addr : string;
  discovery : result string (list api_versions_response.ApiVersion.t);
  config : ProbeConfig;
  sasl_addr : option string;
}.

Record Call : Type := mkCall {
  call_api_key : Z;
  call_api_version : Z;
  call_request_header_version : Z;
  call_response_header_version : Z;
  call_correlation_id : Z;
  decode_at : Z;
}.

Definition CLIENT_ID : string := "odradek-acceptance".

Section probe.
Context {R : Runtime} {W : Type} `{Subjects W} `{Renders}.
Context `{Stringprep, Base64, Crypto}.
(** The version of the crate. *)
Context (CARGO_PKG_VERSION : string).

(** A connection keeps the address it was opened to. *)
Record RawConnection : Type := mkRawConnection {
  stream : socket;
  peer : string;
}.

Definition send_frame (conn : RawConnection) (payload : list byte) : io W WireError unit :=
  let+ framed := io_of (map_err EncodeFailed (enc_bytes (frame (put_slice payload)))) in
  io_map_err Io (write_all (stream conn) framed).

Definition read_error (e : option string) : WireError :=
  match e with Some e => Io e | None => Timeout end.

Definition read_frame (conn : RawConnection) : io W WireError (list byte) :=
  let+ prefix := io_map_err read_error (read_exact (stream conn) 4) in
  let+ n := io_of (map_err (λ _, BadFrameLength (sint 32 (be_val prefix))) (check_len prefix DEFAULT_MAX_FRAME)) in
  io_map_err read_error (read_exact (stream conn) n).

Definition round_trip (conn : RawConnection) (header : RequestHeader.t) (header_version : Z)
    (body : list byte) : io W WireError (list byte) :=
  let+ payload := io_of (map_err EncodeFailed (enc_bytes (RequestHeader.encode header_version header ;; put_slice body))) in
  let+ _ := send_frame conn payload in
  read_frame conn.

(** [RawConnection::connect] and [connect_tls]. *)
Definition connect (config : ProbeConfig) (addr : string) : io W CheckError RawConnection :=
  if over_tls config then
    let+ s := io_map_err (λ e, Infra ("connect " +:+ addr +:+ " over tls: i/o error: " +:+ e)) (tls addr) in
    io_ret (mkRawConnection s addr)
  else
    let+ s := io_map_err (λ e, Infra ("connect " +:+ addr +:+ ": i/o error: " +:+ e)) (tcp addr) in
    io_ret (mkRawConnection s addr).

(** ** The exchange *)

Definition checked_call (T : Type) `{Message T} (conn : RawConnection) (call : Call) (body : list byte) :
    io W CheckError T :=
  let header := RequestHeader.mk (call_api_key call) (call_api_version call) (call_correlation_id call)
                  (Some CLIENT_ID) [] in
  let+ answer := io_map_err of_wire (round_trip conn header (call_request_header_version call) body) in
  match peek_correlation_id answer with
  | Err _ => io_fail (Violation "response frame shorter than a correlation id")
  | Ok echoed =>
      if negb (echoed =? call_correlation_id call) then
        io_fail (Violation ("sent correlation id " +:+ show_int (call_correlation_id call) +:+
                            ", response carries " +:+ show_int echoed))
      else
        let hv := call_response_header_version call in
        match ResponseHeader.decode hv answer with
        | Err e => io_fail (Violation ("response header (decoded as v" +:+ show_int hv +:+ "): " +:+ show_decode e))
        | Ok (_, answer) =>
            match Message.decode (decode_at call) answer with
            | Err e =>
                io_fail (Violation ("response body (decoded as v" +:+ show_int (decode_at call) +:+ "): " +:+ show_decode e))
            | Ok (resp, answer) =>
                if negb (len answer =? 0) then
                  io_fail (Violation (show_int (len answer) +:+ " byte(s) of trailing garbage after the response body"))
                else io_ret resp
            end
        end
  end.

(** One exchange at a negotiated version; a request header version implies a response
    header version. *)
Definition api_call (T : Type) `{Message T} (conn : RawConnection) (api_key version correlation_id : Z)
    (body : list byte) : io W CheckError T :=
  match request_header_version api_key version with
  | None => io_fail (Infra ("no header version known for api " +:+ show_int api_key +:+ " v" +:+ show_int version))
  | Some hv =>
      checked_call T conn
        (mkCall api_key version hv (default 0 (response_header_version api_key version)) correlation_id version) body
  end.

(** A request is encoded before it is sent; failing at that is not the subject's. *)
Definition encode_body {Req} `{Message Req} (what : string) (version : Z) (request : Req) :
    result CheckError (list byte) :=
  map_err (λ e, Infra (what +:+ show_encode e)) (enc_bytes (Message.encode version request)).

(** ** Discovery *)

Definition exchange (config : ProbeConfig) (addr : string) (api_version header_version correlation_id decode_at : Z) :
    io W CheckError api_versions_response.ApiVersionsResponse.t :=
  let+ conn := connect config addr in
  let request := api_versions_request.ApiVersionsRequest.mk "odradek-acceptance" CARGO_PKG_VERSION [] in
  let+ body := io_of (encode_body "" (Z.min api_version api_versions_request.ApiVersionsRequest.MAX_VERSION) request) in
  checked_call api_versions_response.ApiVersionsResponse.t conn
    (mkCall api_versions_request.ApiVersionsRequest.API_KEY api_version header_version 0 correlation_id decode_at) body.

Definition discover (addr : string) (config : ProbeConfig) (w : W) : ServerCtx * W :=
  let (r, w) := exchange config addr 0 1 9 0 w in
  (mkServerCtx addr
     (match r with
      | Ok resp => Ok (api_versions_response.ApiVersionsResponse.api_keys resp)
      | Err (Violation _) => Ok []
      | Err (Infra details) => Err ("discovery (ApiVersions v0): " +:+ details)
      end) config None, w).

Definition discover_with_sasl (address : string) (sasl : option string) (c : ProbeConfig) (w : W) : ServerCtx * W :=
  let (ctx, w) := discover address c w in
  (mkServerCtx (addr ctx) (discovery ctx) (config ctx) sasl, w).

(** ** Versions *)

Definition advertised_range (keys : list api_versions_response.ApiVersion.t) (api_key : Z) : option (Z * Z) :=
  (λ v, (api_versions_response.ApiVersion.min_version v, api_versions_response.ApiVersion.max_version v)) <$>
    List.find (λ v, api_versions_response.ApiVersion.api_key v =? api_key) keys.

(** What the subject advertises for an api, or the verdict when discovery never ran. *)
Definition range (ctx : ServerCtx) (api_key : Z) : result Verdict (option (Z * Z)) :=
  match discovery ctx with
  | Ok keys => Ok (advertised_range keys api_key)
  | Err details => Err (Error details)
  end.

Definition show_range (lo hi : Z) : string := show_int lo +:+ "-" +:+ show_int hi.

Definition negotiate (api : string) (advertised : option (Z * Z)) (check_min check_max : Z) : result Verdict Z :=
  match advertised with
  | None => Err (Skipped ("server does not advertise the " +:+ api +:+ " api (or discovery failed)"))
  | Some (min, max) =>
      let version := Z.min max check_max in
      if (version <? min) || (version <? check_min) then
        Err (Skipped ("no usable " +:+ api +:+ " version: server speaks " +:+ show_range min max +:+
                      ", check needs " +:+ show_range check_min check_max))
      else Ok version
  end.

(** The versions from the first to the second, lowest first. *)
Definition versions_between (lowest highest : Z) : list Z :=
  (λ i, lowest + Z.of_nat i) <$> seq 0 (Z.to_nat (highest - lowest + 1)).

Definition negotiate_all (api : string) (advertised : option (Z * Z)) (check_min check_max : Z) :
    result Verdict (list Z) :=
  let? highest := negotiate api advertised check_min check_max in
  let min := default 0 (fst <$> advertised) in
  Ok (versions_between (Z.max min check_min) highest).

Definition negotiate_versionless (ctx : ServerCtx) (api_key min max : Z) : result CheckError Z :=
  match (match range ctx api_key with Ok r => r | Err _ => None end) with
  | None =>
      Err (Infra ("credentials were given but the subject does not advertise api " +:+ show_int api_key))
  | Some (advertised_min, advertised_max) =>
      let version := Z.min advertised_max max in
      if (version <? advertised_min) || (version <? min) then
        Err (Infra ("no usable version of api " +:+ show_int api_key +:+ ": subject speaks " +:+
                    show_range advertised_min advertised_max +:+ ", authentication needs " +:+ show_range min max))
      else Ok version
  end.

(** ** Authenticating a connection *)

Definition mechanism_kind (login : ScramLogin) : result CheckError Mechanism :=
  if String.eqb (login_mechanism login) "SCRAM-SHA-256" then Ok ScramSha256
  else if String.eqb (login_mechanism login) "SCRAM-SHA-512" then Ok ScramSha512
  else Err (Infra ("the suite authenticates with SCRAM only, not " +:+ login_mechanism login)).

(** One round of SaslAuthenticate; a token is text, or not usable. *)
Definition scram_exchange (conn : RawConnection) (version : Z) (token : list byte) (correlation_id : Z) :
    io W CheckError text :=
  let+ body := io_of (encode_body "encoding SaslAuthenticate: " version
                        (sasl_authenticate_request.SaslAuthenticateRequest.mk token [])) in
  let+ resp := api_call sasl_authenticate_response.SaslAuthenticateResponse.t conn
                 sasl_authenticate_request.SaslAuthenticateRequest.API_KEY version correlation_id body in
  let code := sasl_authenticate_response.SaslAuthenticateResponse.error_code resp in
  if negb (code =? 0) then
    io_fail (Infra ("SCRAM exchange answered " +:+ show_code code +:+
      from_option (λ m, ": " +:+ m) "" (sasl_authenticate_response.SaslAuthenticateResponse.error_message resp)))
  else
    let bytes := sasl_authenticate_response.SaslAuthenticateResponse.auth_bytes resp in
    if utf8_valid bytes then io_ret bytes else io_fail (Infra ("SCRAM token is not utf-8: " +:+ show_utf8_error bytes)).

Definition scram_result {A} (what : string) (r : result SaslError A) : result CheckError A :=
  map_err (λ e, Infra (what +:+ show_sasl e)) r.

Definition authenticate (ctx : ServerCtx) (conn : RawConnection) (login : ScramLogin) : io W CheckError unit :=
  let+ handshake_version := io_of (negotiate_versionless ctx sasl_handshake_request.SaslHandshakeRequest.API_KEY
    sasl_handshake_request.SaslHandshakeRequest.MIN_VERSION sasl_handshake_request.SaslHandshakeRequest.MAX_VERSION) in
  let+ auth_version := io_of (negotiate_versionless ctx sasl_authenticate_request.SaslAuthenticateRequest.API_KEY
    sasl_authenticate_request.SaslAuthenticateRequest.MIN_VERSION
    sasl_authenticate_request.SaslAuthenticateRequest.MAX_VERSION) in
  let+ body := io_of (encode_body "encoding SaslHandshake: " handshake_version
                        (sasl_handshake_request.SaslHandshakeRequest.mk (login_mechanism login) [])) in
  let+ resp := api_call sasl_handshake_response.SaslHandshakeResponse.t conn
                 sasl_handshake_request.SaslHandshakeRequest.API_KEY handshake_version 1900 body in
  let code := sasl_handshake_response.SaslHandshakeResponse.error_code resp in
  if negb (code =? 0) then
    io_fail (Infra ("the subject refused mechanism " +:+ login_mechanism login +:+ " (" +:+ show_code code +:+
      "); it offers " +:+ debug_strs (sasl_handshake_response.SaslHandshakeResponse.mechanisms resp)))
  else
    let+ mechanism := io_of (mechanism_kind login) in
    let+ client := (λ w, (scram_result "building a SCRAM client: "
        (new_client mechanism (str_bytes (user login)) (str_bytes (login_password login)) Limits_default
           (getrandom w)), w)) in
    let (first, client) := client_first client in
    let+ server_first := scram_exchange conn auth_version first 1901 in
    let (final, client) := client_final client server_first in
    let+ final := io_of (scram_result "server-first is not usable: " final) in
    let+ server_final := scram_exchange conn auth_version final 1902 in
    io_of (scram_result "server signature does not verify: " (verify_server_final client server_final)).

(** A connection ready for ordinary requests. *)
Definition open (ctx : ServerCtx) (address : string) : io W CheckError RawConnection :=
  let+ conn := connect (config ctx) address in
  match credentials (config ctx) with
  | Some login => let+ _ := authenticate ctx conn login in io_ret conn
  | None => io_ret conn
  end.

(** A loop over [0..attempts] that keeps a state, sleeps before every turn but the
    first, and returns from the turn that has an answer. *)
Fixpoint turns {E S A} (delay : Z) (n : nat) (attempt : Z) (turn : Z → S → io W E (S + A)) (s : S) :
    io W E (S + A) :=
  match n with
  | O => io_ret (inl s)
  | Datatypes.S n => λ w,
      let w := if 0 <? attempt then sleep delay w else w in
      (let+ r := turn attempt s in
       match r with
       | inl s => turns delay n (attempt + 1) turn s
       | inr a => io_ret (inr a)
       end) w
  end.
Definition settling {E S A} (ctx : ServerCtx) (turn : Z → S → io W E (S + A)) (s : S) : io W E (S + A) :=
  turns (settle_delay (config ctx)) (Z.to_nat (settle_attempts (config ctx))) 0 turn s.
Definition recovering {E S A} (ctx : ServerCtx) (turn : Z → S → io W E (S + A)) (s : S) : io W E (S + A) :=
  turns (settle_delay (config ctx)) (Z.to_nat (recovery_attempts (config ctx))) 0 turn s.

(** [correlation_base + i32::try_from(attempt).unwrap_or(0)]. *)
Definition correlation_at (base attempt : Z) : Z := sint 32 (base + default 0 (try_from i32_min i32_max attempt)).

End probe.
