(* ===== verification/ServerChecks.v ===== *)
(** * The checks of a server ([odradek-acceptance/src/checks/server.rs])

    Checks of a subject, each a script of requests and of what their answers have to
    say: version discovery, metadata, coordinators, authentication and topics; then
    what a coordinator owes a member of a group that joins, syncs, heartbeats, leaves
    or is described, in both group protocols.  A check ends with a verdict, returned
    early where the source returns. *)
From S2P Require Import Prelude Text Budget Codec Wire Sasl Scram Frame Fields MessageTrait MsgConnection MsgGroup MsgGroupAdmin MsgMetadata MsgAdmin Registry Session Report Probe.

Import api_versions_request api_versions_response metadata_request metadata_response.
Import find_coordinator_request find_coordinator_response.
Import sasl_handshake_request sasl_handshake_response sasl_authenticate_request sasl_authenticate_response.
Import create_topics_request create_topics_response.

Definition EQUALS_SIGN : text := [EQUALS].
Definition UNSUPPORTED_VERSION : Z := error_code.UNSUPPORTED_VERSION.
Definition FIND_COORDINATOR_BATCHED : Z := 4.
Definition SCRAM_USER : text := str_bytes "conformance".
Definition SCRAM_PASSWORD : text := str_bytes "conformance".
Definition SCRAM_MECHANISM : string := "SCRAM-SHA-256".
Definition SCRAM_MIN_ITERATIONS : Z := 4096.
Definition JOIN_GROUP_MEMBER_ID_REQUIRED : Z := 4.
Definition GROUP_PROTOCOL_TYPE : string := "consumer".

(** [at_version]. *)
Definition at_version (version : Z) (v : Verdict) : Verdict :=
  match v with
  | Fail details => Fail ("v" +:+ show_int version +:+ ": " +:+ details)
  | Error details => Error ("v" +:+ show_int version +:+ ": " +:+ details)
  | v => v
  end.

Section checks.
Context {R : Runtime} {W : Type} `{Subjects W} `{Renders}.
Context `{Stringprep, Base64, Crypto}.
(** The version of the crate, the process, the name of the run; what is made of bytes
    that are not UTF-8. *)
Context (CARGO_PKG_VERSION : string) (process_id : Z) (run_id : string) (lossy : list byte → text).

(** A check, or a part of one that may end it. *)
Abbreviation check := (io W Verdict Verdict).

Definition verdict_of {A} (m : io W CheckError A) : io W Verdict A := io_map_err into_verdict m.
Definition done (v : Verdict) : check := io_ret v.
Definition fail {A} (details : string) : io W Verdict A := io_fail (Fail details).
Definition run_check (c : check) (w : W) : Verdict * W :=
  let (r, w) := c w in (match r with Ok v => v | Err v => v end, w).

Definition check_group (tag : string) : string := tag +:+ "-odradek-acceptance-" +:+ run_id.
Definition unique_topic {E} (tag : string) : io W E string := λ w,
  let (nanos, w) := now w in
  (Ok ("odradek-accept-" +:+ tag +:+ "-" +:+ show_int process_id +:+ "-" +:+ show_int nanos), w).
Definition mint_member_id (tag : string) : string :=
  "odradek-acceptance-" +:+ tag +:+ "-" +:+ show_int process_id.

(** The version a check runs at: the range, then the choice. *)
Definition negotiated (ctx : ServerCtx) (api : string) (api_key check_min check_max : Z) : io W Verdict Z :=
  io_of (let? advertised := range ctx api_key in negotiate api advertised check_min check_max).
Definition negotiated_all (ctx : ServerCtx) (api : string) (api_key check_min check_max : Z) :
    io W Verdict (list Z) :=
  io_of (let? advertised := range ctx api_key in negotiate_all api advertised check_min check_max).

Definition plausible (host : string) (port : Z) : bool :=
  negb (String.eqb host "") && (1 <=? port) && (port <=? 65535).

(** ** Version discovery *)

Definition inverted (v : ApiVersion.t) : bool := ApiVersion.max_version v <? ApiVersion.min_version v.

Definition v0_basic (ctx : ServerCtx) : check :=
  let+ resp := verdict_of (exchange CARGO_PKG_VERSION (config ctx) (addr ctx) 0 1 1 0) in
  let code := ApiVersionsResponse.error_code resp in
  let keys := ApiVersionsResponse.api_keys resp in
  if negb (code =? 0) then fail ("error code " +:+ show_code code)
  else
    match List.find inverted keys with
    | Some v =>
        fail ("api key " +:+ show_int (ApiVersion.api_key v) +:+ " advertises min " +:+
              show_int (ApiVersion.min_version v) +:+ " > max " +:+ show_int (ApiVersion.max_version v))
    | None =>
        match advertised_range keys ApiVersionsRequest.API_KEY with
        | Some (min, max) =>
            if min <=? 0 then done Pass
            else fail ("ApiVersions advertised as " +:+ show_range min max +:+ ", but the server just answered v0")
        | None => fail "response does not advertise the ApiVersions api itself"
        end
    end.

Definition correlation_echo (ctx : ServerCtx) : check :=
  let+ _ := verdict_of (exchange CARGO_PKG_VERSION (config ctx) (addr ctx) 0 1 (i32_max - 17) 0) in
  done Pass.

(** What [flexible_v3] and [unsupported_version] need to have been told. *)
Definition flexible_max (ctx : ServerCtx) : result Verdict Z :=
  let? advertised := range ctx ApiVersionsRequest.API_KEY in
  match advertised with
  | None => Err (Skipped "advertised range unknown (v0-basic failed)")
  | Some (_, max) =>
      if max <? 3 then Err (Skipped ("server only advertises ApiVersions up to v" +:+ show_int max)) else Ok max
  end.

Definition flexible_v3 (ctx : ServerCtx) : check :=
  let+ max := io_of (flexible_max ctx) in
  let version := Z.min max ApiVersionsRequest.MAX_VERSION in
  let+ resp := verdict_of (exchange CARGO_PKG_VERSION (config ctx) (addr ctx) version 2 2 version) in
  let code := ApiVersionsResponse.error_code resp in
  if code =? 0 then done Pass else fail ("error code " +:+ show_code code).

Definition unsupported_version (ctx : ServerCtx) : check :=
  let+ max := io_of (flexible_max ctx) in
  let probe := sint 16 (max + 7) in
  let+ resp := verdict_of (exchange CARGO_PKG_VERSION (config ctx) (addr ctx) probe 2 3 0) in
  let code := ApiVersionsResponse.error_code resp in
  if negb (code =? UNSUPPORTED_VERSION) then
    fail ("expected UNSUPPORTED_VERSION (35), got " +:+ show_code code)
  else
    match advertised_range (ApiVersionsResponse.api_keys resp) ApiVersionsRequest.API_KEY with
    | Some (_, range_max) =>
        if range_max =? max then done Pass
        else fail ("error response advertises ApiVersions max v" +:+ show_int range_max +:+
                   ", but the server previously advertised v" +:+ show_int max)
    | None => fail "UNSUPPORTED_VERSION response does not advertise the supported ApiVersions range"
    end.

(** ** Metadata *)

Definition metadata_exchange (ctx : ServerCtx) (address : string) (version correlation_id : Z) :
    io W CheckError MetadataResponse.t :=
  let+ conn := open ctx address in
  let+ body := io_of (encode_body "" version (MetadataRequest.mk (Some []) false false false [])) in
  api_call MetadataResponse.t conn MetadataRequest.API_KEY version correlation_id body.

Definition metadata_shape (resp : MetadataResponse.t) : Verdict :=
  let brokers := MetadataResponse.brokers resp in
  if bool_decide (brokers = []) then Fail "brokers list is empty"
  else if negb (bool_decide (NoDup (MetadataResponseBroker.node_id <$> brokers))) then
    Fail "brokers list repeats a node id"
  else
    match List.find (λ b, negb (plausible (MetadataResponseBroker.host b) (MetadataResponseBroker.port b))) brokers with
    | Some b =>
        Fail ("broker " +:+ show_int (MetadataResponseBroker.node_id b) +:+ " advertises implausible endpoint " +:+
              debug_str (MetadataResponseBroker.host b) +:+ ":" +:+ show_int (MetadataResponseBroker.port b))
    | None =>
        if negb (bool_decide (MetadataResponse.topics resp = [])) then
          Fail ("requested no topics, response names " +:+ show_int (len (MetadataResponse.topics resp)) +:+ " topic(s)")
        else Pass
    end.

Fixpoint metadata_versions (ctx : ServerCtx) (i : Z) (versions : list Z) : check :=
  match versions with
  | [] => done Pass
  | version :: versions =>
      let+ resp := io_map_err (λ e, at_version version (into_verdict e))
                     (metadata_exchange ctx (addr ctx) version (correlation_at 4 i)) in
      match metadata_shape resp with
      | Fail details => fail ("v" +:+ show_int version +:+ ": " +:+ details)
      | _ => metadata_versions ctx (i + 1) versions
      end
  end.

Definition metadata_basic (ctx : ServerCtx) : check :=
  let+ versions := negotiated_all ctx "Metadata" MetadataRequest.API_KEY 1 MetadataRequest.MAX_VERSION in
  metadata_versions ctx 0 versions.

Definition metadata_flexible_header (ctx : ServerCtx) : check :=
  let+ version := negotiated ctx "Metadata" MetadataRequest.API_KEY 9 MetadataRequest.MAX_VERSION in
  let+ _ := verdict_of (metadata_exchange ctx (addr ctx) version 5) in
  done Pass.

(** A Metadata request naming one topic. *)
Definition metadata_of_topic (conn : RawConnection) (version : Z) (topic : string) (correlation : Z) :
    io W CheckError MetadataResponse.t :=
  let requested := MetadataRequestTopic.mk (replicate 16 Byte.x00) (Some topic) [] in
  let+ body := io_of (encode_body "encoding Metadata: " version
                        (MetadataRequest.mk (Some [requested]) false false false [])) in
  api_call MetadataResponse.t conn MetadataRequest.API_KEY version correlation body.

Definition topic_entry (topic : string) (resp : MetadataResponse.t) : option MetadataResponseTopic.t :=
  List.find (λ t, bool_decide (MetadataResponseTopic.name t = Some topic)) (MetadataResponse.topics resp).

Definition metadata_unknown_topic (ctx : ServerCtx) : check :=
  let+ version := negotiated ctx "Metadata" MetadataRequest.API_KEY 1 MetadataRequest.MAX_VERSION in
  let+ topic := unique_topic "nosuch" in
  let+ conn := verdict_of (open ctx (addr ctx)) in
  let+ resp := verdict_of (metadata_of_topic conn version topic 95) in
  match topic_entry topic resp with
  | None =>
      fail ("asked about " +:+ debug_str topic +:+ ", which does not exist; response names " +:+
            show_int (len (MetadataResponse.topics resp)) +:+
            " topic(s) and not that one, so a client cannot tell absent from ignored")
  | Some entry =>
      let code := MetadataResponseTopic.error_code entry in
      if code =? error_code.UNKNOWN_TOPIC_OR_PARTITION then done Pass
      else fail (debug_str topic +:+ " does not exist but is reported with " +:+ show_code code)
  end.

(** ** Coordinators *)

Definition coordinator_error (resp : FindCoordinatorResponse.t) (version : Z) : Z :=
  if FIND_COORDINATOR_BATCHED <=? version then
    from_option Coordinator.error_code 0 (head (FindCoordinatorResponse.coordinators resp))
  else FindCoordinatorResponse.error_code resp.

Definition is_coordinator_settling (code : Z) : bool :=
  (code =? error_code.COORDINATOR_NOT_AVAILABLE) || (code =? error_code.COORDINATOR_LOAD_IN_PROGRESS).

Definition show_endpoint (host : string) (port : Z) : string := host +:+ ":" +:+ show_int port.

Definition coordinator_endpoint (resp : FindCoordinatorResponse.t) (version : Z) : option string :=
  '(host, port) ← (if FIND_COORDINATOR_BATCHED <=? version then
      (λ c, (Coordinator.host c, Coordinator.port c)) <$> head (FindCoordinatorResponse.coordinators resp)
    else Some (FindCoordinatorResponse.host resp, FindCoordinatorResponse.port resp));
  if plausible host port then Some (show_endpoint host port) else None.

Definition find_coordinator_request_of (version : Z) (group : string) : FindCoordinatorRequest.t :=
  if FIND_COORDINATOR_BATCHED <=? version then FindCoordinatorRequest.mk "" 0 [group] []
  else FindCoordinatorRequest.mk group 0 [] [].

(** What the settled answer has to be, in whichever of its two shapes. *)
Definition judge_coordinator (version : Z) (group : string) (resp : FindCoordinatorResponse.t) : check :=
  let judge code key host port : check :=
    if negb (code =? 0) then fail ("no coordinator for group " +:+ debug_str group +:+ ": " +:+ show_code code)
    else if from_option (λ key, negb (String.eqb key group)) false key then
      fail ("asked about group " +:+ debug_str group +:+ ", response answers for " +:+ debug_str (default "" key))
    else if negb (plausible host port) then
      fail ("coordinator endpoint is implausible: " +:+ debug_str host +:+ ":" +:+ show_int port)
    else done Pass in
  if FIND_COORDINATOR_BATCHED <=? version then
    match FindCoordinatorResponse.coordinators resp with
    | [c] => judge (Coordinator.error_code c) (Some (Coordinator.key c)) (Coordinator.host c) (Coordinator.port c)
    | cs => fail ("asked about 1 coordinator key, response carries " +:+ show_int (len cs))
    end
  else
    judge (FindCoordinatorResponse.error_code resp) None (FindCoordinatorResponse.host resp)
      (FindCoordinatorResponse.port resp).

Definition default_coordinator_response : FindCoordinatorResponse.t :=
  FindCoordinatorResponse.mk 0 0 (Some "") 0 "" 0 [] [].

Definition find_coordinator_at (ctx : ServerCtx) (version : Z) (group : string) (correlation_base : Z) : check :=
  let+ conn := verdict_of (open ctx (addr ctx)) in
  let+ body := io_of (map_err (λ e, Error ("encoding FindCoordinator: " +:+ show_encode e))
                        (enc_bytes (Message.encode version (find_coordinator_request_of version group)))) in
  let+ r := settling ctx (λ attempt _,
    let+ resp := verdict_of (api_call FindCoordinatorResponse.t conn FindCoordinatorRequest.API_KEY version
                               (correlation_at correlation_base attempt) body) in
    let last := coordinator_error resp version in
    io_ret (if is_coordinator_settling last then inl (resp, last) else inr (resp, last)))
    (default_coordinator_response, 0) in
  let '(resp, last) := match r with inl x => x | inr x => x end in
  if is_coordinator_settling last then
    fail ("coordinator for " +:+ debug_str group +:+ " still " +:+ show_code last +:+ " after " +:+
          debug_ms (settle_budget (config ctx)))
  else judge_coordinator version group resp.

(** Only what is a failure of a version ends the sweep. *)
Fixpoint find_coordinator_versions (ctx : ServerCtx) (group : string) (i : Z) (versions : list Z) : check :=
  match versions with
  | [] => done Pass
  | version :: versions =>
      let+ v := (λ w, let (v, w) := run_check
                    (find_coordinator_at ctx version group
                       (sint 32 (51 + sint 32 (default 0 (try_from i32_min i32_max i) * 32)))) w in
                  (Ok v, w)) in
      match v with
      | Fail details => fail ("v" +:+ show_int version +:+ ": " +:+ details)
      | _ => find_coordinator_versions ctx group (i + 1) versions
      end
  end.

Definition find_coordinator_group (ctx : ServerCtx) : check :=
  let+ versions := negotiated_all ctx "FindCoordinator" FindCoordinatorRequest.API_KEY
                     FindCoordinatorRequest.MIN_VERSION FindCoordinatorRequest.MAX_VERSION in
  find_coordinator_versions ctx (check_group "find-coordinator") 0 versions.

(** Wait for the coordinator to exist, and say where it is. *)
Definition await_coordinator_at (ctx : ServerCtx) (address group : string) : io W CheckError (option string) :=
  match (let? advertised := range ctx FindCoordinatorRequest.API_KEY in
         negotiate "FindCoordinator" advertised FindCoordinatorRequest.MIN_VERSION FindCoordinatorRequest.MAX_VERSION) with
  | Err _ => io_ret None
  | Ok version =>
      let+ body := io_of (encode_body "encoding FindCoordinator: " version (find_coordinator_request_of version group)) in
      let+ conn := open ctx address in
      let+ r := settling ctx (λ attempt _,
        let+ resp := api_call FindCoordinatorResponse.t conn FindCoordinatorRequest.API_KEY version
                       (correlation_at 80 attempt) body in
        io_ret (if is_coordinator_settling (coordinator_error resp version) then inl tt
                else inr (coordinator_endpoint resp version))) tt in
      io_ret (match r with inl _ => None | inr endpoint => endpoint end)
  end.

Definition coordinator_conn (ctx : ServerCtx) (group : string) : io W CheckError RawConnection :=
  let+ located := await_coordinator_at ctx (addr ctx) group in
  open ctx (default (addr ctx) located).

(** ** Authentication *)

(** One [k=v] attribute of a SCRAM message. *)
Definition attribute_of (key : byte) (part : text) : option text :=
  match part with
  | c :: rest => rest ← strip_prefix rest EQUALS_SIGN; if bool_decide (c = key) then Some rest else None
  | [] => None
  end.
Fixpoint find_map {A B} (f : A → option B) (l : list A) : option B :=
  match l with
  | [] => None
  | a :: l => match f a with Some b => Some b | None => find_map f l end
  end.
Definition scram_attr (message : text) (key : byte) : option text :=
  find_map (attribute_of key) (split COMMA message).

Definition handshake_versions (ctx : ServerCtx) : io W Verdict Z :=
  negotiated ctx "SaslHandshake" SaslHandshakeRequest.API_KEY SaslHandshakeRequest.MIN_VERSION
    SaslHandshakeRequest.MAX_VERSION.
Definition authenticate_versions (ctx : ServerCtx) : io W Verdict Z :=
  negotiated ctx "SaslAuthenticate" SaslAuthenticateRequest.API_KEY SaslAuthenticateRequest.MIN_VERSION
    SaslAuthenticateRequest.MAX_VERSION.

Definition NO_SASL_LISTENER : string := "no SASL listener given (--sasl-server)".
Definition sasl_listener (ctx : ServerCtx) (reason : string) : io W Verdict string :=
  match sasl_addr ctx with Some a => io_ret a | None => io_fail (Skipped reason) end.

(** A handshake, and a token: encoding one can fail, which is no fault of the subject. *)
Definition sasl_handshake (conn : RawConnection) (version : Z) (mechanism : string) (correlation_id : Z) :
    io W Verdict SaslHandshakeResponse.t :=
  let+ body := io_of (map_err (λ e, Error ("encoding SaslHandshake: " +:+ show_encode e))
                        (enc_bytes (Message.encode version (SaslHandshakeRequest.mk mechanism [])))) in
  verdict_of (api_call SaslHandshakeResponse.t conn SaslHandshakeRequest.API_KEY version correlation_id body).
Definition sasl_authenticate (conn : RawConnection) (version : Z) (token : list byte) (correlation_id : Z) :
    io W Verdict SaslAuthenticateResponse.t :=
  let+ body := io_of (map_err (λ e, Error ("encoding SaslAuthenticate: " +:+ show_encode e))
                        (enc_bytes (Message.encode version (SaslAuthenticateRequest.mk token [])))) in
  verdict_of (api_call SaslAuthenticateResponse.t conn SaslAuthenticateRequest.API_KEY version correlation_id body).

Definition scram_handshake (conn : RawConnection) (version : Z) (sasl_addr : string) (correlation_id : Z) :
    io W Verdict unit :=
  let+ resp := sasl_handshake conn version SCRAM_MECHANISM correlation_id in
  let code := SaslHandshakeResponse.error_code resp in
  if negb (code =? 0) then
    io_fail (Skipped (sasl_addr +:+ " does not offer " +:+ SCRAM_MECHANISM +:+ " (" +:+ show_code code +:+ ")"))
  else io_ret tt.

Definition scram_token (conn : RawConnection) (version : Z) (token : list byte) (correlation_id : Z) :
    io W Verdict text :=
  let+ resp := sasl_authenticate conn version token correlation_id in
  let code := SaslAuthenticateResponse.error_code resp in
  if negb (code =? 0) then
    fail ("SCRAM exchange answered " +:+ show_code code +:+
          from_option (λ m, ": " +:+ m) "" (SaslAuthenticateResponse.error_message resp))
  else io_ret (lossy (SaslAuthenticateResponse.auth_bytes resp)).

(** The client's nonce and the server's first message. *)
Definition scram_begin (ctx : ServerCtx) (correlation_base : Z) : io W Verdict (text * text) :=
  let+ sasl_addr := sasl_listener ctx NO_SASL_LISTENER in
  let+ handshake_version := handshake_versions ctx in
  let+ auth_version := authenticate_versions ctx in
  let+ conn := verdict_of (connect (config ctx) sasl_addr) in
  let+ _ := scram_handshake conn handshake_version sasl_addr correlation_base in
  let nonce := str_bytes ("odradekNonce" +:+ show_int process_id +:+ show_int (wrap 32 correlation_base)) in
  let client_first := str_bytes "n,,n=" ++ SCRAM_USER ++ str_bytes ",r=" ++ nonce in
  let+ server_first := scram_token conn auth_version client_first (sint 32 (correlation_base + 1)) in
  io_ret (nonce, server_first).

Definition debug_text (t : text) : string := debug_str (bytes_str t).

Definition scram_nonce_extends_client (ctx : ServerCtx) : check :=
  let+ (nonce, server_first) := scram_begin ctx 210 in
  match scram_attr server_first (ch "r") with
  | None => fail ("server-first carries no nonce: " +:+ debug_text server_first)
  | Some server_nonce =>
      if starts_with server_nonce nonce then done Pass
      else fail ("client sent nonce " +:+ debug_text nonce +:+ "; server answered " +:+ debug_text server_nonce +:+
                 ", which does not extend it, so the client cannot tell this exchange from a replay")
  end.

Definition scram_iteration_floor (ctx : ServerCtx) : check :=
  let+ (_, server_first) := scram_begin ctx 220 in
  if bool_decide (default [] (scram_attr server_first (ch "s")) = []) then
    fail ("server-first states no salt: " +:+ debug_text server_first)
  else
    match (i ← scram_attr server_first (ch "i"); decimal.parse_unsigned u32_max i) with
    | None => fail ("server-first states no iteration count: " +:+ debug_text server_first)
    | Some iterations =>
        if SCRAM_MIN_ITERATIONS <=? iterations then done Pass
        else fail ("server asks for " +:+ show_int iterations +:+ " iterations; RFC 7677 makes " +:+
                   show_int SCRAM_MIN_ITERATIONS +:+ " the floor for " +:+ SCRAM_MECHANISM +:+
                   ", and a client cannot refuse a low one without failing to connect")
    end.

Definition scram_server_proves_itself (ctx : ServerCtx) : check :=
  let+ auth_version := authenticate_versions ctx in
  let+ sasl_addr := sasl_listener ctx NO_SASL_LISTENER in
  let+ handshake_version := handshake_versions ctx in
  let+ client := (λ w, (map_err (λ e, Error ("building a SCRAM client: " +:+ show_sasl e))
      (new_client ScramSha256 SCRAM_USER SCRAM_PASSWORD Limits_default (getrandom w)), w)) in
  let+ conn := verdict_of (connect (config ctx) sasl_addr) in
  let+ _ := scram_handshake conn handshake_version sasl_addr 230 in
  let (first, client) := client_first client in
  let+ server_first := scram_token conn auth_version first 231 in
  let (final, client) := client_final client server_first in
  let+ final := io_of (map_err (λ e, Fail ("server-first is not usable: " +:+ show_sasl e)) final) in
  let+ server_final := scram_token conn auth_version final 232 in
  match verify_server_final client server_final with
  | Ok _ => done Pass
  | Err NoServerSignature =>
      fail ("server-final carries no signature (" +:+ debug_text server_final +:+
            "), so a client has authenticated itself to something it cannot identify")
  | Err e => fail ("server signature does not verify: " +:+ show_sasl e)
  end.

Definition sasl_authenticate_requires_handshake (ctx : ServerCtx) : check :=
  let+ version := authenticate_versions ctx in
  let+ conn := verdict_of (open ctx (addr ctx)) in
  let+ resp := sasl_authenticate conn version (str_bytes "not-a-token") 200 in
  let code := SaslAuthenticateResponse.error_code resp in
  if code =? error_code.ILLEGAL_SASL_STATE then done Pass
  else if code =? 0 then fail "a SASL token was accepted on a connection that negotiated no mechanism"
  else fail ("an out-of-sequence SASL token answered " +:+ show_code code +:+
             "; ILLEGAL_SASL_STATE is what tells a client its sequence is wrong rather than its credentials").

Definition sasl_refusal_names_mechanisms (ctx : ServerCtx) : check :=
  let+ sasl_addr := sasl_listener ctx ("no SASL listener given (--sasl-server); a listener without SASL " +:+
    "answers ILLEGAL_SASL_STATE to every SASL request, so mechanism negotiation cannot be observed there") in
  let+ version := handshake_versions ctx in
  let+ conn := verdict_of (connect (config ctx) sasl_addr) in
  let+ resp := sasl_handshake conn version "ODRADEK-NOSUCH-MECHANISM" 202 in
  let code := SaslHandshakeResponse.error_code resp in
  if code =? error_code.ILLEGAL_SASL_STATE then io_fail (Skipped (sasl_addr +:+ " has no SASL configured after all"))
  else if negb (code =? error_code.UNSUPPORTED_SASL_MECHANISM) then
    fail ("an unknown mechanism answered " +:+ show_code code +:+ ", expected UNSUPPORTED_SASL_MECHANISM")
  else if bool_decide (SaslHandshakeResponse.mechanisms resp = []) then
    fail "mechanism refused without naming a supported one, so a client has nothing to fall back to and must guess"
  else done Pass.

(** ** Topics *)

Definition controller_endpoint (conn : RawConnection) (version correlation : Z) : io W CheckError (option string) :=
  let+ body := io_of (encode_body "encoding Metadata: " version (MetadataRequest.mk (Some []) false false false [])) in
  let+ resp := api_call MetadataResponse.t conn MetadataRequest.API_KEY version correlation body in
  io_ret (b ← List.find (λ b, MetadataResponseBroker.node_id b =? MetadataResponse.controller_id resp)
            (MetadataResponse.brokers resp);
          if plausible (MetadataResponseBroker.host b) (MetadataResponseBroker.port b)
          then Some (show_endpoint (MetadataResponseBroker.host b) (MetadataResponseBroker.port b)) else None).

Definition connect_to_controller (ctx : ServerCtx) (bootstrap : RawConnection) (version correlation : Z) :
    io W CheckError RawConnection :=
  let+ located := controller_endpoint bootstrap version correlation in
  open ctx (default (addr ctx) located).

Definition admin_conn (ctx : ServerCtx) (bootstrap : RawConnection) (correlation : Z) : io W CheckError RawConnection :=
  match (let? advertised := range ctx MetadataRequest.API_KEY in
         negotiate "Metadata" advertised 1 MetadataRequest.MAX_VERSION) with
  | Err _ => open ctx (addr ctx)
  | Ok version => connect_to_controller ctx bootstrap version correlation
  end.

Definition first_topic_code (resp : CreateTopicsResponse.t) : Z :=
  from_option CreatableTopicResult.error_code 0 (head (CreateTopicsResponse.topics resp)).

(** Follow the controller as it moves. *)
Definition create_topics_at_controller (ctx : ServerCtx) (bootstrap : RawConnection) (version : Z) (body : list byte)
    (correlation : Z) : io W CheckError CreateTopicsResponse.t :=
  let+ r := settling ctx (λ _ _,
    let+ controller := admin_conn ctx bootstrap (sint 32 (correlation - 1)) in
    let+ resp := api_call CreateTopicsResponse.t controller CreateTopicsRequest.API_KEY version correlation body in
    let code := first_topic_code resp in
    io_ret (if negb (code =? error_code.NOT_CONTROLLER) then inr resp else inl (Some code))) None in
  match r with
  | inr resp => io_ret resp
  | inl last =>
      io_fail (Violation ("CreateTopics still answers " +:+ show_code (default error_code.NOT_CONTROLLER last) +:+
        " after " +:+ debug_ms (settle_budget (config ctx)) +:+ " of following the controller Metadata names"))
  end.

Definition creatable (name : string) (replication_factor : Z) : CreatableTopic.t :=
  CreatableTopic.mk name 1 replication_factor [] [] [].

Definition create_topic_call (ctx : ServerCtx) (conn : RawConnection) (version : Z) (topic : string)
    (validate_only : bool) (correlation_id : Z) : io W CheckError (Z * list byte) :=
  let+ body := io_of (encode_body "encoding CreateTopics: " version
                        (CreateTopicsRequest.mk [creatable topic 1] 30000 validate_only [])) in
  let+ resp := create_topics_at_controller ctx conn version body correlation_id in
  match head (CreateTopicsResponse.topics resp) with
  | None => io_fail (Violation "CreateTopics response names no topics")
  | Some result => io_ret (CreatableTopicResult.error_code result, CreatableTopicResult.topic_id result)
  end.

Definition create_topics_version (ctx : ServerCtx) : io W Verdict Z :=
  negotiated ctx "CreateTopics" CreateTopicsRequest.API_KEY CreateTopicsRequest.MIN_VERSION
    CreateTopicsRequest.MAX_VERSION.

Definition create_topics_duplicate (ctx : ServerCtx) : check :=
  let+ version := create_topics_version ctx in
  let+ conn := verdict_of (open ctx (addr ctx)) in
  let+ topic := unique_topic "dup" in
  let+ (code, _) := verdict_of (create_topic_call ctx conn version topic false 96) in
  if negb (code =? 0) then fail ("creating a fresh topic failed with " +:+ show_code code)
  else
    let+ (code, _) := verdict_of (create_topic_call ctx conn version topic false 97) in
    if code =? error_code.TOPIC_ALREADY_EXISTS then done Pass
    else if code =? 0 then fail "creating the same topic twice succeeded both times"
    else fail ("recreating an existing topic answered " +:+ show_code code +:+ ", expected TOPIC_ALREADY_EXISTS").

Definition create_topics_validate_only (ctx : ServerCtx) : check :=
  let+ version := create_topics_version ctx in
  let+ conn := verdict_of (open ctx (addr ctx)) in
  let+ topic := unique_topic "validate" in
  let+ (code, _) := verdict_of (create_topic_call ctx conn version topic true 98) in
  if negb (code =? 0) then fail ("a validate_only create of a fresh topic reported " +:+ show_code code)
  else
    let+ (code, _) := verdict_of (create_topic_call ctx conn version topic false 99) in
    if code =? 0 then done Pass
    else if code =? error_code.TOPIC_ALREADY_EXISTS then
      fail "validate_only created the topic: the real create that followed it reported TOPIC_ALREADY_EXISTS"
    else fail ("creating the topic after validating it answered " +:+ show_code code).

Definition create_topics_impossible_replication (ctx : ServerCtx) : check :=
  let+ version := create_topics_version ctx in
  let+ conn := verdict_of (open ctx (addr ctx)) in
  let asked := 32767 in
  let+ topic := unique_topic "overreplicated" in
  let+ body := io_of (map_err (λ e, Error ("encoding CreateTopics: " +:+ show_encode e))
                 (enc_bytes (Message.encode version (CreateTopicsRequest.mk [creatable topic asked] 30000 false [])))) in
  let+ resp := io_map_err (λ e, into_verdict (context "CreateTopics" e))
                 (api_call CreateTopicsResponse.t conn CreateTopicsRequest.API_KEY version 840 body) in
  let code := first_topic_code resp in
  if code =? error_code.INVALID_REPLICATION_FACTOR then done Pass
  else if negb (code =? 0) then done Pass
  else fail ("asked for " +:+ show_int asked +:+ " replicas of " +:+ topic +:+
             " and was told it was created; a caller that asked for a durability level it cannot have should be " +:+
             "refused, not given a weaker one under the same name").

End checks.

(** ** Groups *)

Import join_group_request join_group_response sync_group_request sync_group_response.
Import heartbeat_request heartbeat_response leave_group_request leave_group_response.
Import describe_groups_request describe_groups_response.
Import consumer_group_heartbeat_request consumer_group_heartbeat_response.

Section groups.
Context {R : Runtime} {W : Type} `{Subjects W} `{Renders}.
Context `{Stringprep, Base64, Crypto}.
Context (CARGO_PKG_VERSION : string) (process_id : Z) (run_id : string) (lossy : list byte → text).

Abbreviation check := (io W Verdict Verdict).

(** ** The classic protocol *)

Definition join_group (conn : RawConnection) (version : Z) (group member_id : string) (correlation_id : Z) :
    io W CheckError JoinGroupResponse.t :=
  let protocol := JoinGroupRequestProtocol.mk "range" [Byte.x00; Byte.x01] [] in
  let+ body := io_of (encode_body "encoding JoinGroup: " version
    (JoinGroupRequest.mk group 30000 30000 member_id None GROUP_PROTOCOL_TYPE [protocol] None [])) in
  api_call JoinGroupResponse.t conn JoinGroupRequest.API_KEY version correlation_id body.

(** Join and become the leader: the member's id and the generation. *)
Definition join_as_leader (conn : RawConnection) (version : Z) (group : string) (correlation_base : Z) :
    io W CheckError (string * Z) :=
  let+ first := join_group conn version group "" correlation_base in
  let code := JoinGroupResponse.error_code first in
  let+ (member_id, joined) :=
    (if code =? error_code.MEMBER_ID_REQUIRED then
       let minted := JoinGroupResponse.member_id first in
       let+ second := join_group conn version group minted (sint 32 (correlation_base + 1)) in
       io_ret (minted, second)
     else if code =? 0 then io_ret (JoinGroupResponse.member_id first, first)
     else io_fail (Violation ("joining a fresh group answered " +:+ show_code code))) in
  let code := JoinGroupResponse.error_code joined in
  if negb (code =? 0) then
    io_fail (Violation ("rejoining with the coordinator's own member id answered " +:+ show_code code))
  else if negb (String.eqb (JoinGroupResponse.leader joined) member_id) then
    io_fail (Violation ("sole member " +:+ debug_str member_id +:+ " was not made leader (leader is " +:+
                        debug_str (JoinGroupResponse.leader joined) +:+ ")"))
  else io_ret (member_id, JoinGroupResponse.generation_id joined).

Definition groups_member_id_required (ctx : ServerCtx) : check :=
  let+ version := negotiated ctx "JoinGroup" JoinGroupRequest.API_KEY JOIN_GROUP_MEMBER_ID_REQUIRED
                    JoinGroupRequest.MAX_VERSION in
  let group := check_group run_id "memberid" in
  let+ conn := verdict_of (coordinator_conn ctx group) in
  let+ resp := verdict_of (join_group conn version group "" 120) in
  let code := JoinGroupResponse.error_code resp in
  if negb (code =? error_code.MEMBER_ID_REQUIRED) then
    fail ("JoinGroup v" +:+ show_int version +:+ " with an empty member id answered " +:+ show_code code +:+
          ", expected MEMBER_ID_REQUIRED")
  else if String.eqb (JoinGroupResponse.member_id resp) "" then
    fail "MEMBER_ID_REQUIRED carried no member id, so there is nothing to rejoin with"
  else
    let+ second := verdict_of (join_group conn version group (JoinGroupResponse.member_id resp) 121) in
    let code := JoinGroupResponse.error_code second in
    if code =? 0 then done Pass
    else fail ("rejoining with the id MEMBER_ID_REQUIRED supplied answered " +:+ show_code code).

(** JoinGroup and SyncGroup versions. *)
Definition group_versions (ctx : ServerCtx) : io W Verdict (Z * Z) :=
  let+ join := negotiated ctx "JoinGroup" JoinGroupRequest.API_KEY JoinGroupRequest.MIN_VERSION
                 JoinGroupRequest.MAX_VERSION in
  let+ sync := negotiated ctx "SyncGroup" SyncGroupRequest.API_KEY SyncGroupRequest.MIN_VERSION
                 SyncGroupRequest.MAX_VERSION in
  io_ret (join, sync).

(** A SyncGroup in which the leader supplies itself an assignment. *)
Definition sync_request (group member_id : string) (generation : Z) (payload : list byte) : SyncGroupRequest.t :=
  SyncGroupRequest.mk group generation member_id None (Some GROUP_PROTOCOL_TYPE) (Some "range")
    [SyncGroupRequestAssignment.mk member_id payload []] [].

Definition ASSIGNMENT_PAYLOAD : list byte :=
  [Byte.x00; Byte.x03; Byte.xff; Byte.x7f; Byte.x00; Byte.xde; Byte.xad; Byte.xbe; Byte.xef].

Definition groups_assignment_round_trips (ctx : ServerCtx) : check :=
  let+ (join_version, sync_version) := group_versions ctx in
  let group := check_group run_id "assignment" in
  let+ conn := verdict_of (coordinator_conn ctx group) in
  let+ (member_id, generation) := verdict_of (join_as_leader conn join_version group 130) in
  let payload := ASSIGNMENT_PAYLOAD in
  let+ body := io_of (map_err (λ e, Error ("encoding SyncGroup: " +:+ show_encode e))
                 (enc_bytes (Message.encode sync_version (sync_request group member_id generation payload)))) in
  let+ resp := verdict_of (api_call SyncGroupResponse.t conn SyncGroupRequest.API_KEY sync_version 132 body) in
  let code := SyncGroupResponse.error_code resp in
  if negb (code =? 0) then fail ("SyncGroup as the group's leader answered " +:+ show_code code)
  else if bool_decide (SyncGroupResponse.assignment resp = payload) then done Pass
  else fail ("leader supplied " +:+ show_int (len payload) +:+ " assignment byte(s), member received " +:+
             show_int (len (SyncGroupResponse.assignment resp)) +:+ ": " +:+ debug_bytes payload +:+ " vs " +:+
             debug_bytes (SyncGroupResponse.assignment resp)).

Definition heartbeat_version (ctx : ServerCtx) : io W Verdict Z :=
  negotiated ctx "Heartbeat" HeartbeatRequest.API_KEY HeartbeatRequest.MIN_VERSION HeartbeatRequest.MAX_VERSION.

Definition groups_stale_generation_fenced (ctx : ServerCtx) : check :=
  let+ (join_version, _) := group_versions ctx in
  let+ version := heartbeat_version ctx in
  let group := check_group run_id "fencing" in
  let+ conn := verdict_of (coordinator_conn ctx group) in
  let+ (member_id, generation) := verdict_of (join_as_leader conn join_version group 140) in
  let stale := sint 32 (generation - 1) in
  let+ body := io_of (map_err (λ e, Error ("encoding Heartbeat: " +:+ show_encode e))
                 (enc_bytes (Message.encode version (HeartbeatRequest.mk group stale member_id None [])))) in
  let+ resp := verdict_of (api_call HeartbeatResponse.t conn HeartbeatRequest.API_KEY version 142 body) in
  let code := HeartbeatResponse.error_code resp in
  if code =? error_code.ILLEGAL_GENERATION then done Pass
  else if code =? 0 then
    fail ("heartbeat carrying generation " +:+ show_int stale +:+ " (the group is at " +:+ show_int generation +:+
          ") was accepted, so a member that missed a rebalance keeps its old assignment")
  else fail ("stale heartbeat answered " +:+ show_code code +:+ ", expected ILLEGAL_GENERATION").

Definition heartbeat_code (conn : RawConnection) (version : Z) (group member_id : string)
    (generation correlation : Z) : io W CheckError Z :=
  let+ body := io_of (encode_body "encoding Heartbeat: " version (HeartbeatRequest.mk group generation member_id None [])) in
  let+ resp := api_call HeartbeatResponse.t conn HeartbeatRequest.API_KEY version correlation body in
  io_ret (HeartbeatResponse.error_code resp).

Definition sync_as_leader (conn : RawConnection) (version : Z) (group member_id : string)
    (generation correlation : Z) : io W Verdict unit :=
  let+ body := io_of (map_err (λ e, Error ("encoding SyncGroup: " +:+ show_encode e))
                 (enc_bytes (Message.encode version (sync_request group member_id generation [Byte.x00])))) in
  let+ resp := io_map_err (λ e, into_verdict (context "SyncGroup" e))
                 (api_call SyncGroupResponse.t conn SyncGroupRequest.API_KEY version correlation body) in
  let code := SyncGroupResponse.error_code resp in
  if code =? 0 then io_ret tt
  else fail ("SyncGroup as the group's only member answered " +:+ show_code code).

Definition groups_leave_unregisters_the_member (ctx : ServerCtx) : check :=
  let+ (join_version, sync_version) := group_versions ctx in
  let+ leave_version := negotiated ctx "LeaveGroup" LeaveGroupRequest.API_KEY LeaveGroupRequest.MIN_VERSION
                          LeaveGroupRequest.MAX_VERSION in
  let+ version := heartbeat_version ctx in
  let group := check_group run_id "leaving" in
  let+ conn := verdict_of (coordinator_conn ctx group) in
  let+ (member_id, generation) := verdict_of (join_as_leader conn join_version group 850) in
  let+ _ := sync_as_leader conn sync_version group member_id generation 855 in
  let+ code := io_map_err (λ e, into_verdict (context "Heartbeat (before leaving)" e))
                 (heartbeat_code conn version group member_id generation 860) in
  if negb (code =? 0) then
    fail ("a heartbeat from a synced member answered " +:+ show_code code +:+
          " before it left, so nothing after the leave would prove anything")
  else
    let request := LeaveGroupRequest.mk group member_id [MemberIdentity.mk member_id None None []] [] in
    let+ body := io_of (map_err (λ e, Error ("encoding LeaveGroup: " +:+ show_encode e))
                   (enc_bytes (Message.encode leave_version request))) in
    let+ resp := io_map_err (λ e, into_verdict (context "LeaveGroup" e))
                   (api_call LeaveGroupResponse.t conn LeaveGroupRequest.API_KEY leave_version 870 body) in
    let code := LeaveGroupResponse.error_code resp in
    if negb (code =? 0) then fail ("leaving the group answered " +:+ show_code code)
    else
      let+ code := io_map_err (λ e, into_verdict (context "Heartbeat (after leaving)" e))
                     (heartbeat_code conn version group member_id generation 880) in
      if code =? error_code.UNKNOWN_MEMBER_ID then done Pass
      else if code =? 0 then
        fail ("a heartbeat from " +:+ member_id +:+ " was still accepted after it left; the coordinator believes a " +:+
              "departed member owns its partitions, so nothing reassigns them")
      else fail ("a heartbeat after leaving answered " +:+ show_code code +:+ " rather than UNKNOWN_MEMBER_ID").

Definition describe_groups_reports_members (ctx : ServerCtx) : check :=
  let+ (join_version, sync_version) := group_versions ctx in
  let+ describe_version := negotiated ctx "DescribeGroups" DescribeGroupsRequest.API_KEY
                             DescribeGroupsRequest.MIN_VERSION DescribeGroupsRequest.MAX_VERSION in
  let group := check_group run_id "described" in
  let+ conn := verdict_of (coordinator_conn ctx group) in
  let+ (member_id, generation) := verdict_of (join_as_leader conn join_version group 920) in
  let+ _ := sync_as_leader conn sync_version group member_id generation 930 in
  let+ body := io_of (map_err (λ e, Error ("encoding DescribeGroups: " +:+ show_encode e))
                 (enc_bytes (Message.encode describe_version (DescribeGroupsRequest.mk [group] false [])))) in
  let+ resp := io_map_err (λ e, into_verdict (context "DescribeGroups" e))
                 (api_call DescribeGroupsResponse.t conn DescribeGroupsRequest.API_KEY describe_version 940 body) in
  match List.find (λ g, String.eqb (DescribedGroup.group_id g) group) (DescribeGroupsResponse.groups resp) with
  | None => fail ("DescribeGroups was asked about " +:+ group +:+ " and answered about neither")
  | Some described =>
      let code := DescribedGroup.error_code described in
      if negb (code =? 0) then fail ("describing a live group answered " +:+ show_code code)
      else if negb (existsb (λ m, String.eqb (DescribedGroupMember.member_id m) member_id)
                      (DescribedGroup.members described)) then
        fail (group +:+ " has a synced member " +:+ member_id +:+ ", and DescribeGroups reports " +:+
              show_int (len (DescribedGroup.members described)) +:+ " member(s) (state " +:+
              debug_str (DescribedGroup.group_state described) +:+
              "); a group that reads as empty reads as safe to delete")
      else done Pass
  end.

(** ** The next protocol *)

(** A heartbeat that states a subscription also states that it owns nothing yet. *)
Definition consumer_group_heartbeat (conn : RawConnection) (version : Z) (group member_id : string) (epoch : Z)
    (subscribed : option (list string)) (correlation_id : Z) :
    io W CheckError ConsumerGroupHeartbeatResponse.t :=
  let owned := match subscribed with Some _ => Some [] | None => None end in
  let+ body := io_of (encode_body "encoding ConsumerGroupHeartbeat: " version
    (ConsumerGroupHeartbeatRequest.mk group member_id epoch None None 30000 subscribed None None owned [])) in
  api_call ConsumerGroupHeartbeatResponse.t conn ConsumerGroupHeartbeatRequest.API_KEY version correlation_id body.

Definition unserved_consumer_group (code version : Z) : option Verdict :=
  if code =? UNSUPPORTED_VERSION then
    Some (Skipped ("the subject advertises ConsumerGroupHeartbeat v" +:+ show_int version +:+
      " and then answers UNSUPPORTED_VERSION to it, so the protocol is offered but not served and there is no " +:+
      "member to observe"))
  else None.

Definition consumer_group_version (ctx : ServerCtx) : io W Verdict Z :=
  negotiated ctx "ConsumerGroupHeartbeat" ConsumerGroupHeartbeatRequest.API_KEY
    ConsumerGroupHeartbeatRequest.MIN_VERSION ConsumerGroupHeartbeatRequest.MAX_VERSION.

(** Leaving is epoch -1, and what comes of it is not looked at. *)
Definition leave_consumer_group (conn : RawConnection) (version : Z) (group member_id : string) (correlation_id : Z) :
    io W Verdict (result CheckError ConsumerGroupHeartbeatResponse.t) :=
  io_try (consumer_group_heartbeat conn version group member_id (-1) None correlation_id).

(** A refusal of a member: the api is not served, or that is a failure. *)
Definition refused_member {A} (code version : Z) (details : string) : io W Verdict A :=
  match unserved_consumer_group code version with
  | Some skip => io_fail skip
  | None => fail details
  end.

Definition consumer_group_epoch_advances (ctx : ServerCtx) : check :=
  let+ version := consumer_group_version ctx in
  let group := check_group run_id "epoch" in
  let+ conn := verdict_of (coordinator_conn ctx group) in
  let member_id := mint_member_id process_id "epoch" in
  let+ topic := unique_topic process_id "cgnone" in
  let+ resp := verdict_of (consumer_group_heartbeat conn version group member_id 0 (Some [topic]) 150) in
  let code := ConsumerGroupHeartbeatResponse.error_code resp in
  if negb (code =? 0) then
    refused_member code version ("a member introducing itself at epoch 0 was answered " +:+ show_code code)
  else if ConsumerGroupHeartbeatResponse.member_epoch resp =? 0 then
    fail ("member was admitted at epoch 0, which is the epoch it arrived with: nothing distinguishes joining from " +:+
          "being ignored")
  else if ConsumerGroupHeartbeatResponse.heartbeat_interval_ms resp <=? 0 then
    fail ("heartbeat interval is " +:+ show_int (ConsumerGroupHeartbeatResponse.heartbeat_interval_ms resp) +:+
          "ms, so a member has no pace to keep")
  else if String.eqb (default "" (ConsumerGroupHeartbeatResponse.member_id resp)) "" then
    fail "response carries no member id"
  else
    let+ _ := leave_consumer_group conn version group member_id 151 in
    done Pass.

Definition consumer_group_fenced_epoch (ctx : ServerCtx) : check :=
  let+ version := consumer_group_version ctx in
  let group := check_group run_id "cgfence" in
  let+ conn := verdict_of (coordinator_conn ctx group) in
  let member_id := mint_member_id process_id "fence" in
  let+ topic := unique_topic process_id "cgfence" in
  let+ joined := verdict_of (consumer_group_heartbeat conn version group member_id 0 (Some [topic]) 190) in
  let code := ConsumerGroupHeartbeatResponse.error_code joined in
  if negb (code =? 0) then refused_member code version ("joining answered " +:+ show_code code)
  else
    let ahead := sint 32 (ConsumerGroupHeartbeatResponse.member_epoch joined + 99) in
    let+ fenced := verdict_of (consumer_group_heartbeat conn version group member_id ahead None 191) in
    let code := ConsumerGroupHeartbeatResponse.error_code fenced in
    let+ _ := leave_consumer_group conn version group member_id 192 in
    if (code =? error_code.FENCED_MEMBER_EPOCH) || (code =? error_code.UNKNOWN_MEMBER_ID) then done Pass
    else if code =? 0 then
      fail ("heartbeat claiming epoch " +:+ show_int ahead +:+ " (the group issued " +:+
            show_int (ConsumerGroupHeartbeatResponse.member_epoch joined) +:+ ") was accepted")
    else fail ("a bogus epoch answered " +:+ show_code code +:+ ", expected FENCED_MEMBER_EPOCH").

End groups.
