(* ===== verification/TopicChecks.v ===== *)
(** * The checks of a server: topics and their records ([odradek-acceptance/src/checks/server.rs])

    The flow every check of records starts with -- create a topic at the controller,
    find its leader, produce a known batch -- and the checks of produce and fetch; then
    what is read back: offsets and their times, fetches past the end and fetches that
    wait, what metadata says of a topic, deletion, silence after [acks=0], compressed
    batches, and the checks of the next group protocol that need a topic to assign. *)
From S2P Require Import Prelude Text Budget Codec Wire Sasl Scram MskIam Frame Records Fields MessageTrait MsgConnection MsgGroupAdmin MsgOffset MsgMetadata MsgAdmin MsgFetch MsgProduce Registry Session Compression Report Probe ServerChecks.

Import metadata_request metadata_response create_topics_request create_topics_response.
Import delete_topics_request delete_topics_response list_offsets_request list_offsets_response.
Import produce_request produce_response fetch_request fetch_response.
Import api_versions_request consumer_group_heartbeat_response request_header.

Definition EARLIEST_TIMESTAMP : Z := -2.
Definition LATEST_TIMESTAMP : Z := -1.
Definition UNSET_OFFSET : Z := -1.
Definition PRODUCE_NAME_MAX : Z := 12.
Definition FETCH_NAME_MAX : Z := 12.
Definition PRODUCE_ID_MIN : Z := 13.
Definition FETCH_ID_MIN : Z := 13.
Definition DELETE_TOPICS_BY_STATE : Z := 6.
Definition READ_COMMITTED : Z := 1.
Definition READ_UNCOMMITTED : Z := 0.
Definition ZERO_ID : list byte := replicate 16 Byte.x00.

(** [str::contains]. *)
Definition mentions (needle details : string) : bool :=
  match String.index 0 needle details with Some _ => true | None => false end.

Definition retriable (code : Z) : bool :=
  (code =? error_code.UNKNOWN_TOPIC_OR_PARTITION) || (code =? error_code.LEADER_NOT_AVAILABLE) ||
  (code =? error_code.NOT_LEADER_OR_FOLLOWER) || (code =? error_code.UNKNOWN_TOPIC_ID).

Definition batch_record_count (b : RecordBatch) : Z :=
  match records b with
  | Records.Plain rs => len rs
  | Records.Compressed count _ => count
  end.

(** The first index from which two record sets differ. *)
Fixpoint difference (at_ : Z) (a b : list byte) : option Z :=
  match a, b with
  | x :: a, y :: b => if bool_decide (x = y) then difference (at_ + 1) a b else Some at_
  | _, _ => None
  end.

(** How the produce leg of the flow addresses the topic. *)
Inductive Addressing : Type := Name | TopicId.
#[export] Instance Addressing_eq_dec : EqDecision Addressing.
Proof. solve_decision. Defined.

Record ProducedTopic {W : Type} `{Subjects W} : Type := mkProducedTopic {
  conn_of : RawConnection;
  produced_at : string;
  topic_of : string;
  topic_id_of : list byte;
  sent : list byte;
  assigned_offset : Z;
}.
Arguments ProducedTopic W {_}.

(** Which partition to read, from where, and at what isolation. *)
Record FetchAt : Type := mkFetchAt {
  at_topic : string;
  at_partition : Z;
  at_offset : Z;
  at_isolation : Z;
}.

(** The refusals of a fetch that are matched in the text of the failure. *)
Definition fetch_refusal_names (details : string) (codes : list Z) : bool :=
  existsb (λ code, mentions ("answered " +:+ show_code code) details) codes.
Definition FETCH_SETTLING : list Z :=
  [error_code.NOT_LEADER_OR_FOLLOWER; error_code.UNKNOWN_TOPIC_OR_PARTITION; error_code.LEADER_NOT_AVAILABLE;
   error_code.UNKNOWN_TOPIC_ID; error_code.REPLICA_NOT_AVAILABLE].
Definition mentions_retriable (details : string) : bool := fetch_refusal_names details FETCH_SETTLING.
Definition still_resolving (details : string) : bool :=
  mentions_retriable details || fetch_refusal_names details [error_code.OFFSET_OUT_OF_RANGE].

Definition TRANSIENT : list string :=
  ["UNKNOWN_TOPIC_OR_PARTITION"; "NOT_LEADER_OR_FOLLOWER"; "LEADER_NOT_AVAILABLE"; "UNKNOWN_TOPIC_ID"].

(** ** Requests *)

Definition list_offsets_of (topic : string) (timestamp : Z) : ListOffsetsRequest.t :=
  ListOffsetsRequest.mk (-1) 0 [ListOffsetsTopic.mk topic [ListOffsetsPartition.mk 0 (-1) timestamp []] []] 0 [].

(** A fetch of one partition without a session. *)
Definition fetch_of (name : string) (id : list byte) (partition offset max_wait_ms min_bytes max_bytes isolation : Z) :
    FetchRequest.t :=
  FetchRequest.mk (-1) max_wait_ms min_bytes max_bytes isolation 0 (-1)
    [FetchTopic.mk name id
       [FetchPartition.mk partition (-1) offset (-1) (-1) (Z.shiftl 1 20) None None []] []]
    [] "" None None [].

(** A produce of one record set to one partition. *)
Definition produce_of (transactional_id : option string) (name : string) (id : list byte) (partition acks : Z)
    (set : list byte) : ProduceRequest.t :=
  ProduceRequest.mk transactional_id acks 10000
    [TopicProduceData.mk name id [PartitionProduceData.mk partition (Some set) []] []] [].

(** ** The compressed batch *)

Record KCodec : Type := mkKCodec { codec_name : string; attr : Z }.
Definition GZIP : KCodec := mkKCodec "gzip" 1.
Definition SNAPPY : KCodec := mkKCodec "snappy" 2.
Definition LZ4 : KCodec := mkKCodec "lz4" 3.
Definition ZSTD : KCodec := mkKCodec "zstd" 4.

Definition OUTSIDE_CRC : Z := 12 + 4 + 4.

Section compress.
Context `{Codecs}.

Fixpoint compress_blocks (cs : list (list byte)) : result string (list byte) :=
  match cs with
  | [] => Ok []
  | chunk :: cs =>
      let? block := map_err (λ e, "snappy-compressing a block: " +:+ e) (snap_compress_vec chunk) in
      let? n := ok_or "a snappy block exceeded u32" (try_from 0 u32_max (len block)) in
      let? rest := compress_blocks cs in
      Ok (be_bytes 4 n ++ block ++ rest)
  end.

Definition compress (codec : KCodec) (plain : list byte) : result string (list byte) :=
  if attr codec =? 1 then
    let? encoder := map_err (λ e, "gzipping the record set: " +:+ e) (gz_write_all plain) in
    map_err (λ e, "finishing the gzip stream: " +:+ e) (gz_finish encoder)
  else if attr codec =? 2 then
    let? blocks := compress_blocks (chunks XERIAL_BLOCK plain) in Ok (XERIAL_HEADER ++ blocks)
  else if attr codec =? 3 then
    let? encoder := map_err (λ e, "lz4-compressing the record set: " +:+ e) (lz4_write_all plain) in
    map_err (λ e, "finishing the lz4 frame: " +:+ e) (lz4_finish encoder)
  else if attr codec =? 4 then
    map_err (λ e, "zstd-compressing the record set: " +:+ e) (zstd_encode_all plain)
  else Err ("no compressor for codec attribute " +:+ show_int (attr codec)).

End compress.

Section topics.
Context {R : Runtime} {W : Type} `{Subjects W} `{Renders}.
Context `{Stringprep, Base64, Crypto}.
(** As in [ServerChecks]; and when the process started, in milliseconds. *)
Context (process_id : Z) (run_id : string) (probe_timestamp : Z).

Abbreviation check := (io W Verdict Verdict).

(** ** The flow *)

(** [.map_err(|e| e.context(what).into_verdict())]. *)
Definition named {A} (what : string) (m : io W CheckError A) : io W Verdict A :=
  io_map_err (λ e, into_verdict (context what e)) m.

(** A request of a check, encoded; that it does not encode is no fault of the subject. *)
Definition encoded {Req} `{Message Req} (what : string) (version : Z) (request : Req) : io W Verdict (list byte) :=
  io_of (map_err (λ e, Error (what +:+ show_encode e)) (enc_bytes (Message.encode version request))).

Definition io_sleep {E} (ms : Z) : io W E unit := λ w, (Ok tt, sleep ms w).

(** A loop that does not sleep of itself. *)
Fixpoint rounds {E S A} (n : nat) (turn : S → io W E (S + A)) (s : S) : io W E (S + A) :=
  match n with
  | O => io_ret (inl s)
  | Datatypes.S n =>
      let+ r := turn s in
      match r with
      | inl s => rounds n turn s
      | inr a => io_ret (inr a)
      end
  end.
Definition settle_rounds {E S A} (c : ProbeConfig) (turn : S → io W E (S + A)) (s : S) : io W E (S + A) :=
  rounds (Z.to_nat (settle_attempts c)) turn s.

Definition probe_batch : RecordBatch :=
  mkRecordBatch 0 0 0 1 probe_timestamp (probe_timestamp + 1) (-1) (-1) (-1) (Records.Plain
    [mkKRecord 0 0 0 (Some (str_bytes "probe-key")) (Some (str_bytes "odradek conformance probe"))
       [mkRecordHeader "origin" (Some (str_bytes "odradek-accept"))];
     mkKRecord 0 1 1 (Some (str_bytes "probe-tombstone")) None []]).

Definition batch_bytes (b : RecordBatch) : result EncodeError (list byte) := enc_bytes (RecordBatchOps.encode b).

Definition leader_endpoint (conn : RawConnection) (version : Z) (topic : string) (correlation : Z) :
    io W CheckError (option string) :=
  let+ resp := metadata_of_topic conn version topic correlation in
  io_ret (
    entry ← topic_entry topic resp;
    if negb (MetadataResponseTopic.error_code entry =? 0) then None else
    partition ← List.find (λ p, MetadataResponsePartition.partition_index p =? 0)
                  (MetadataResponseTopic.partitions entry);
    if negb (MetadataResponsePartition.error_code partition =? 0) then None else
    b ← List.find (λ b, MetadataResponseBroker.node_id b =? MetadataResponsePartition.leader_id partition)
          (MetadataResponse.brokers resp);
    if plausible (MetadataResponseBroker.host b) (MetadataResponseBroker.port b)
    then Some (show_endpoint (MetadataResponseBroker.host b) (MetadataResponseBroker.port b)) else None).

Definition connect_to_leader (ctx : ServerCtx) (bootstrap : RawConnection) (version : Z) (topic : string)
    (correlation_base : Z) : io W CheckError RawConnection :=
  let+ r := settling ctx (λ attempt _,
    let+ located := leader_endpoint bootstrap version topic (correlation_at correlation_base attempt) in
    match located with
    | Some address => let+ conn := open ctx address in io_ret (inr conn)
    | None => io_ret (inl tt)
    end) tt in
  match r with
  | inr conn => io_ret conn
  | inl _ => open ctx (addr ctx)
  end.

Definition produce_version_of (ctx : ServerCtx) (addressing : Addressing) : io W Verdict Z :=
  match addressing with
  | Name => negotiated ctx "Produce" ProduceRequest.API_KEY ProduceRequest.MIN_VERSION PRODUCE_NAME_MAX
  | TopicId => negotiated ctx "Produce" ProduceRequest.API_KEY PRODUCE_ID_MIN ProduceRequest.MAX_VERSION
  end.
Definition metadata_version_of (ctx : ServerCtx) : io W Verdict Z :=
  negotiated ctx "Metadata" MetadataRequest.API_KEY 1 MetadataRequest.MAX_VERSION.
Definition fetch_version_of (ctx : ServerCtx) : io W Verdict Z :=
  negotiated ctx "Fetch" FetchRequest.API_KEY FetchRequest.MIN_VERSION FETCH_NAME_MAX.

(** The produce leg: until the topic has settled, at the leader Metadata names then. *)
Definition produce_settled (ctx : ServerCtx) (bootstrap : RawConnection) (metadata_version produce_version : Z)
    (topic : string) (topic_id set body : list byte) : RawConnection → io W Verdict (ProducedTopic W) := λ conn,
  let+ r := settle_rounds (config ctx) (λ '(conn, _),
    let+ resp := named "Produce" (api_call ProduceResponse.t conn ProduceRequest.API_KEY produce_version 11 body) in
    match (t ← head (ProduceResponse.responses resp); head (TopicProduceResponse.partition_responses t)) with
    | None => fail "Produce response names no partitions"
    | Some partition =>
        let code := PartitionProduceResponse.error_code partition in
        if code =? 0 then
          io_ret (inr (mkProducedTopic W _ conn (peer conn) topic topic_id set
                         (PartitionProduceResponse.base_offset partition)))
        else if negb (retriable code) then fail ("Produce failed with " +:+ show_code code)
        else
          let+ _ := io_sleep (settle_delay (config ctx)) in
          let+ conn := named "relocating the partition leader"
                         (connect_to_leader ctx bootstrap metadata_version topic 13) in
          io_ret (inl (conn, code))
    end) (conn, 0) in
  match r with
  | inr produced => io_ret produced
  | inl (_, last_code) =>
      fail ("topic never became producible: still " +:+ show_code last_code +:+ " after " +:+
            show_int (settle_attempts (config ctx)) +:+ " attempts over " +:+ debug_ms (settle_budget (config ctx)))
  end.

Definition produce_flow (ctx : ServerCtx) (tag : string) (addressing : Addressing) : io W Verdict (ProducedTopic W) :=
  let+ create_version := create_topics_version ctx in
  let+ produce_version := produce_version_of ctx addressing in
  let+ metadata_version := metadata_version_of ctx in
  let+ bootstrap := verdict_of (open ctx (addr ctx)) in
  let+ topic := unique_topic process_id tag in
  let+ body := encoded "" create_version (CreateTopicsRequest.mk [creatable topic 1] 30000 false []) in
  let+ resp := named "CreateTopics" (create_topics_at_controller ctx bootstrap create_version body 10) in
  match head (CreateTopicsResponse.topics resp) with
  | None => fail "CreateTopics response names no topics"
  | Some result =>
      let code := CreatableTopicResult.error_code result in
      if negb (code =? 0) then
        fail ("CreateTopics failed with " +:+ show_code code +:+
              from_option (λ m, ": " +:+ m) "" (CreatableTopicResult.error_message result))
      else
        let topic_id := CreatableTopicResult.topic_id result in
        if bool_decide (addressing = TopicId) && bool_decide (topic_id = ZERO_ID) then
          io_fail (Skipped ("CreateTopics v" +:+ show_int create_version +:+ " did not return a topic id (needs v7+)"))
        else
          let+ set := io_of (map_err (λ e, Error (show_encode e)) (batch_bytes probe_batch)) in
          let request := match addressing with
            | Name => produce_of None topic ZERO_ID 0 (-1) set
            | TopicId => produce_of None "" topic_id 0 (-1) set
            end in
          let+ body := encoded "" produce_version request in
          let+ conn := named "locating the partition leader"
                         (connect_to_leader ctx bootstrap metadata_version topic 12) in
          produce_settled ctx bootstrap metadata_version produce_version topic topic_id set body conn
  end.

Definition produce_basic (ctx : ServerCtx) : check :=
  let+ produced := produce_flow ctx "produce" Name in
  if negb (assigned_offset produced =? 0) then
    fail ("first batch in a fresh topic was assigned base offset " +:+ show_int (assigned_offset produced) +:+
          ", expected 0")
  else done Pass.

Definition produce_topic_id (ctx : ServerCtx) : check :=
  let+ _ := produce_flow ctx "produce-id" TopicId in
  done Pass.

(** ** Fetching *)

(** What one answer to a fetch gives: the record set. *)
Definition fetched_set (produced : ProducedTopic W) (addressing : Addressing) (resp : FetchResponse.t) :
    result CheckError (list byte) :=
  let code := FetchResponse.error_code resp in
  if negb (code =? 0) then Err (Violation ("Fetch failed with top-level " +:+ show_code code))
  else
    match head (FetchResponse.responses resp) with
    | None => Err (Violation "Fetch response names no topics")
    | Some topic =>
        if bool_decide (addressing = TopicId) &&
           negb (bool_decide (FetchableTopicResponse.topic_id topic = topic_id_of produced)) then
          Err (Violation ("response echoes topic id " +:+ debug_bytes (FetchableTopicResponse.topic_id topic) +:+
                          ", requested " +:+ debug_bytes (topic_id_of produced)))
        else
          match head (FetchableTopicResponse.partitions topic) with
          | None => Err (Violation "Fetch response names no partitions")
          | Some partition =>
              let code := PartitionData.error_code partition in
              if negb (code =? 0) then Err (Violation ("Fetch failed with " +:+ show_code code))
              else Ok (default [] (PartitionData.records partition))
          end
    end.

Definition run_fetch (produced : ProducedTopic W) (fetch_version : Z) (addressing : Addressing) (c : ProbeConfig) :
    io W CheckError (list byte) :=
  let request := match addressing with
    | Name => fetch_of (topic_of produced) ZERO_ID 0 0 500 1 (Z.shiftl 8 20) 0
    | TopicId => fetch_of "" (topic_id_of produced) 0 0 500 1 (Z.shiftl 8 20) 0
    end in
  let+ body := io_of (encode_body "" fetch_version request) in
  let+ r := settle_rounds c (λ last,
    let+ outcome := io_try (
      let+ resp := io_map_err (context "Fetch")
                     (api_call FetchResponse.t (conn_of produced) FetchRequest.API_KEY fetch_version 12 body) in
      io_of (fetched_set produced addressing resp)) in
    let again last := let+ _ := io_sleep (settle_delay c) in io_ret (inl last) in
    match outcome with
    | Ok [] => again last
    | Ok got => io_ret (inr got)
    | Err (Infra details) => io_fail (Infra details)
    | Err (Violation details) =>
        if negb (existsb (λ t, mentions t details) TRANSIENT) then io_fail (Violation details) else again details
    end) "fetch returned no records" in
  match r with
  | inr got => io_ret got
  | inl last => io_fail (Violation last)
  end.

Definition batch_integrity (sent got : list byte) : Verdict :=
  match decode_set got with
  | Err e => Fail ("fetched record set does not decode: " +:+ show_decode e)
  | Ok (batches, _) =>
      if negb (len batches =? 1) then
        Fail ("fetched " +:+ show_int (len batches) +:+ " batches where exactly the produced one was expected")
      else if negb (len got =? len sent) then
        Fail ("fetched batch is " +:+ show_int (len got) +:+ " byte(s), produced was " +:+ show_int (len sent))
      else
        match difference 16 (drop 16 got) (drop 16 sent) with
        | Some at_ =>
            Fail ("stored batch differs from the produced bytes starting at byte " +:+ show_int at_ +:+
                  " (crc-covered region)")
        | None =>
            let base_offset := sint 64 (be_val (take 8 got)) in
            if negb (base_offset =? 0) then
              Fail ("fetched batch carries base offset " +:+ show_int base_offset +:+ ", expected 0")
            else Pass
        end
  end.

Fixpoint integrity_versions (ctx : ServerCtx) (produced : ProducedTopic W) (versions : list Z) : check :=
  match versions with
  | [] => done Pass
  | version :: versions =>
      let+ got := io_map_err (λ e, at_version version (into_verdict e))
                    (run_fetch produced version Name (config ctx)) in
      match batch_integrity (sent produced) got with
      | Fail details => fail ("v" +:+ show_int version +:+ ": " +:+ details)
      | _ => integrity_versions ctx produced versions
      end
  end.

Definition fetch_batch_integrity (ctx : ServerCtx) : check :=
  let+ versions := negotiated_all ctx "Fetch" FetchRequest.API_KEY FetchRequest.MIN_VERSION FETCH_NAME_MAX in
  let+ produced := produce_flow ctx "fetch" Name in
  integrity_versions ctx produced versions.

Definition fetch_topic_id (ctx : ServerCtx) : check :=
  let+ version := negotiated ctx "Fetch" FetchRequest.API_KEY FETCH_ID_MIN FetchRequest.MAX_VERSION in
  let+ produced := produce_flow ctx "fetch-id" Name in
  if bool_decide (topic_id_of produced = ZERO_ID) then
    io_fail (Skipped "CreateTopics did not return a topic id (needs v7+)")
  else
    let+ got := verdict_of (run_fetch produced version TopicId (config ctx)) in
    done (batch_integrity (sent produced) got).

End topics.

(** ** Reading topics back *)

Import metadata_request metadata_response delete_topics_request delete_topics_response.
Import list_offsets_request list_offsets_response produce_request produce_response fetch_request fetch_response.
Import api_versions_request consumer_group_heartbeat_response request_header.

Section log.
Context {R : Runtime} {W : Type} `{Subjects W} `{Renders}.
Context `{Stringprep, Base64, Crypto, Codecs}.
Context (process_id : Z) (run_id : string) (probe_timestamp : Z).

Abbreviation check := (io W Verdict Verdict).
#[local] Abbreviation produce_flow := (produce_flow process_id probe_timestamp).
#[local] Abbreviation probe_batch := (probe_batch probe_timestamp).

(** ** Offsets *)

Definition list_offsets_call (conn : RawConnection) (version : Z) (topic : string) (timestamp correlation : Z) :
    io W CheckError ListOffsetsResponse.t :=
  let+ body := io_of (encode_body "encoding ListOffsets: " version (list_offsets_of topic timestamp)) in
  api_call ListOffsetsResponse.t conn ListOffsetsRequest.API_KEY version correlation body.

Definition list_offsets_at (conn : RawConnection) (version : Z) (topic : string) (timestamp correlation : Z) :
    io W CheckError Z :=
  let+ resp := list_offsets_call conn version topic timestamp correlation in
  match (t ← List.find (λ t, String.eqb (ListOffsetsTopicResponse.name t) topic) (ListOffsetsResponse.topics resp);
         head (ListOffsetsTopicResponse.partitions t)) with
  | None => io_fail (Violation ("ListOffsets response omits " +:+ topic +:+ "[0]"))
  | Some partition =>
      let code := ListOffsetsPartitionResponse.error_code partition in
      if negb (code =? 0) then
        io_fail (Violation ("ListOffsets for " +:+ topic +:+ "[0] at timestamp " +:+ show_int timestamp +:+
                            " failed: " +:+ show_code code))
      else io_ret (ListOffsetsPartitionResponse.offset partition)
  end.

(** The same, of whatever the answer names first. *)
Definition list_offset_of (conn : RawConnection) (version : Z) (topic : string) (timestamp correlation : Z) :
    io W CheckError Z :=
  let+ resp := list_offsets_call conn version topic timestamp correlation in
  match (t ← head (ListOffsetsResponse.topics resp); head (ListOffsetsTopicResponse.partitions t)) with
  | None => io_fail (Violation "ListOffsets names no partitions")
  | Some entry =>
      let code := ListOffsetsPartitionResponse.error_code entry in
      if negb (code =? 0) then io_fail (Violation ("ListOffsets answered " +:+ show_code code))
      else io_ret (ListOffsetsPartitionResponse.offset entry)
  end.

Fixpoint span_versions (produced : ProducedTopic W) (sent_records i : Z) (versions : list Z) : check :=
  match versions with
  | [] => done Pass
  | version :: versions =>
      let base := sint 32 (41 + sint 32 (default 0 (try_from i32_min i32_max i) * 2)) in
      let at_ {A} (m : io W CheckError A) := io_map_err (λ e, at_version version (into_verdict e)) m in
      let+ earliest := at_ (list_offsets_at (conn_of produced) version (topic_of produced) EARLIEST_TIMESTAMP base) in
      let+ latest := at_ (list_offsets_at (conn_of produced) version (topic_of produced) LATEST_TIMESTAMP (base + 1)) in
      if negb (earliest =? 0) then
        fail ("v" +:+ show_int version +:+ ": log start of a freshly created topic is " +:+ show_int earliest +:+
              ", expected 0")
      else if negb (latest - earliest =? sent_records) then
        fail ("v" +:+ show_int version +:+ ": log spans " +:+ show_int (latest - earliest) +:+ " offset(s) (" +:+
              show_int earliest +:+ ".." +:+ show_int latest +:+ ") after producing " +:+ show_int sent_records +:+
              " record(s)")
      else span_versions produced sent_records (i + 1) versions
  end.

Definition list_offsets_earliest_latest (ctx : ServerCtx) : check :=
  let+ versions := negotiated_all ctx "ListOffsets" ListOffsetsRequest.API_KEY ListOffsetsRequest.MIN_VERSION
                     ListOffsetsRequest.MAX_VERSION in
  let+ produced := produce_flow ctx "listoffsets" Name in
  match decode_set (sent produced) with
  | Err e => io_ret (Error ("suite produced a record set it cannot decode: " +:+ show_decode e))
  | Ok (batches, _) => span_versions produced (foldr Z.add 0 (batch_record_count <$> batches)) 0 versions
  end.

Definition list_offsets_by_timestamp (ctx : ServerCtx) : check :=
  let+ version := negotiated ctx "ListOffsets" ListOffsetsRequest.API_KEY 1 ListOffsetsRequest.MAX_VERSION in
  let+ produced := produce_flow ctx "bytime" Name in
  let batch := probe_batch in
  let first := base_timestamp batch in
  let last := max_timestamp batch in
  let records := batch_record_count batch in
  let+ other := named "ListOffsets (first timestamp)"
                  (list_offset_of (conn_of produced) version (topic_of produced) first 780) in
  if negb (other =? 0) then
    fail ("the batch's first timestamp (" +:+ show_int first +:+ ") answered offset " +:+ show_int other +:+ ", not 0")
  else
    let+ other := named "ListOffsets (future timestamp)"
                    (list_offset_of (conn_of produced) version (topic_of produced) (last + 1) 790) in
    if other =? UNSET_OFFSET then done Pass
    else if other =? records then
      fail ("a timestamp after every record answered the log end (" +:+ show_int other +:+ ") instead of " +:+
            show_int UNSET_OFFSET +:+ "; a consumer seeking forward in time reads that as being caught up")
    else fail ("a timestamp after every record answered offset " +:+ show_int other +:+ " instead of " +:+
               show_int UNSET_OFFSET).

(** ** Fetches *)

Definition first_fetched (resp : FetchResponse.t) : option PartitionData.t :=
  t ← head (FetchResponse.responses resp); head (FetchableTopicResponse.partitions t).

Definition fetch_offset_out_of_range (ctx : ServerCtx) : check :=
  let+ version := fetch_version_of ctx in
  let+ produced := produce_flow ctx "outofrange" Name in
  let beyond := 1000000 in
  let+ body := encoded "encoding Fetch: " version
                 (fetch_of (topic_of produced) ZERO_ID 0 beyond 500 0 (Z.shiftl 1 20) 0) in
  let+ resp := verdict_of (api_call FetchResponse.t (conn_of produced) FetchRequest.API_KEY version 91 body) in
  match first_fetched resp with
  | None => fail ("fetch response omits " +:+ topic_of produced +:+ "[0]")
  | Some partition =>
      let code := PartitionData.error_code partition in
      if code =? error_code.OFFSET_OUT_OF_RANGE then done Pass
      else if code =? 0 then
        fail ("fetch at offset " +:+ show_int beyond +:+ " of a log with high watermark " +:+
              show_int (PartitionData.high_watermark partition) +:+ " answered NONE with " +:+
              show_int (from_option (λ r, len r) 0 (PartitionData.records partition)) +:+
              " record byte(s) — a consumer cannot tell this from being caught up")
      else fail ("fetch at offset " +:+ show_int beyond +:+ " answered " +:+ show_code code +:+
                 ", expected OFFSET_OUT_OF_RANGE")
  end.

Definition fetch_with_wait (conn : RawConnection) (version : Z) (topic : string)
    (offset min_bytes max_wait_ms correlation : Z) : io W CheckError unit :=
  let+ body := io_of (encode_body "encoding Fetch: " version
                 (fetch_of topic ZERO_ID 0 offset max_wait_ms min_bytes (Z.shiftl 1 22) 0)) in
  let+ _ := api_call FetchResponse.t conn FetchRequest.API_KEY version correlation body in
  io_ret tt.

(** How long a computation took, in nanoseconds. *)
Definition timed {E} (m : io W E unit) : io W E Z := λ w,
  let (started, w) := instant w in
  (let+ _ := m in
   λ w, let (ended, w) := instant w in (Ok (ended - started), w)) w.

Definition fetch_long_poll_contract (ctx : ServerCtx) : check :=
  let+ version := fetch_version_of ctx in
  let+ produced := produce_flow ctx "longpoll" Name in
  let end_ := batch_record_count probe_batch in
  let wait_ms := 500 in
  let floor := wait_ms `div` 2 * 1000000 in
  let+ waited := named "Fetch (empty, long poll)"
    (timed (fetch_with_wait (conn_of produced) version (topic_of produced) end_ 1 wait_ms 890)) in
  if waited <? floor then
    fail ("a fetch at the log end asking for 1 byte with max_wait_ms=" +:+ show_int wait_ms +:+ " came back in " +:+
          debug_ns waited +:+ "; a caught-up consumer polling this broker spins instead of waiting")
  else
    let+ waited := named "Fetch (satisfiable, long poll)"
      (timed (fetch_with_wait (conn_of produced) version (topic_of produced) 0 1 wait_ms 900)) in
    if floor <=? waited then
      fail ("a fetch that could be answered from existing records still took " +:+ debug_ns waited +:+
            " with max_wait_ms=" +:+ show_int wait_ms +:+ "; the wait is for data that is not there yet, not for " +:+
            "data that is")
    else done Pass.

(** One fetch of one partition; an error code of it is no data. *)
Definition fetch_partition (conn : RawConnection) (version : Z) (at_ : FetchAt) (correlation : Z) :
    io W CheckError PartitionData.t :=
  let+ body := io_of (encode_body "encoding Fetch: " version
    (fetch_of (at_topic at_) ZERO_ID (at_partition at_) (at_offset at_) 500 0 (Z.shiftl 1 22) (at_isolation at_))) in
  let+ resp := api_call FetchResponse.t conn FetchRequest.API_KEY version correlation body in
  match first_fetched resp with
  | None => io_fail (Violation "Fetch response names no partitions")
  | Some data =>
      let code := PartitionData.error_code data in
      if negb (code =? 0) then
        io_fail (Violation ("Fetch for " +:+ at_topic at_ +:+ "[" +:+ show_int (at_partition at_) +:+ "] at offset " +:+
          show_int (at_offset at_) +:+ " (isolation " +:+ show_int (at_isolation at_) +:+ ") answered " +:+ show_code code))
      else io_ret data
  end.

Definition fetch_partition_settled (ctx : ServerCtx) (conn : RawConnection) (version : Z) (at_ : FetchAt)
    (correlation : Z) : io W CheckError PartitionData.t :=
  let+ r := settling ctx (λ attempt _,
    let+ r := io_try (fetch_partition conn version at_ (correlation_at correlation attempt)) in
    match r with
    | Ok data => io_ret (inr data)
    | Err (Violation details) =>
        if mentions_retriable details || ((at_isolation at_ =? READ_COMMITTED) && still_resolving details)
        then io_ret (inl (Some (Violation details))) else io_fail (Violation details)
    | Err e => io_fail e
    end) None in
  match r with
  | inr data => io_ret data
  | inl last => io_fail (default (Infra "no fetch attempts were made") last)
  end.

(** ** Metadata of a topic *)

Definition metadata_leader_is_a_known_broker (ctx : ServerCtx) : check :=
  let+ version := metadata_version_of ctx in
  let+ produced := produce_flow ctx "leaderref" Name in
  let topic := topic_of produced in
  let+ resp := named "Metadata" (metadata_of_topic (conn_of produced) version topic 910) in
  let known := MetadataResponseBroker.node_id <$> MetadataResponse.brokers resp in
  if bool_decide (known = []) then
    io_fail (Skipped "the response names no brokers at all (metadata/basic reports that)")
  else
    match topic_entry topic resp with
    | None => fail ("Metadata does not name " +:+ topic +:+ ", which was just produced to")
    | Some entry =>
        let code := MetadataResponseTopic.error_code entry in
        if negb (code =? 0) then fail ("Metadata answered " +:+ show_code code +:+ " for a topic that exists")
        else if bool_decide (MetadataResponseTopic.partitions entry = []) then
          fail (topic +:+ " exists but Metadata gives it no partitions")
        else
          match List.find (λ p, (MetadataResponsePartition.error_code p =? 0) &&
                                negb (bool_decide (MetadataResponsePartition.leader_id p ∈ known)))
                  (MetadataResponseTopic.partitions entry) with
          | Some partition =>
              fail (topic +:+ "[" +:+ show_int (MetadataResponsePartition.partition_index partition) +:+
                    "] names leader " +:+ show_int (MetadataResponsePartition.leader_id partition) +:+
                    " and the response's brokers are " +:+ debug_ints known +:+
                    "; a client is given a healthy-looking topic it has nowhere to send to")
          | None => done Pass
          end
    end.

Definition hex16 (id : list byte) : string := bytes_str (hex id).

(** The three times its id is asked. *)
Fixpoint stable_id (conn : RawConnection) (version : Z) (topic : string) (seen : option (list byte)) (attempt : Z)
    (n : nat) : check :=
  match n with
  | O => done Pass
  | S n =>
      let+ resp := named "Metadata" (metadata_of_topic conn version topic (1320 + attempt)) in
      match topic_entry topic resp with
      | None => fail ("Metadata stopped naming " +:+ topic +:+ " between asks")
      | Some entry =>
          let id := MetadataResponseTopic.topic_id entry in
          if bool_decide (id = ZERO_ID) then
            io_fail (Skipped ("Metadata v" +:+ show_int version +:+ " returned no topic id for " +:+ topic))
          else
            match seen with
            | None => stable_id conn version topic (Some id) (attempt + 1) n
            | Some first =>
                if bool_decide (first = id) then stable_id conn version topic seen (attempt + 1) n
                else fail (topic +:+ " was " +:+ hex16 first +:+ " and is now " +:+ hex16 id +:+
                  "; every id-addressed request already in flight fails with UNKNOWN_TOPIC_ID, which reads as the " +:+
                  "topic being gone")
            end
      end
  end.

Definition metadata_topic_id_is_stable (ctx : ServerCtx) : check :=
  let+ version := negotiated ctx "Metadata" MetadataRequest.API_KEY 10 MetadataRequest.MAX_VERSION in
  let+ produced := produce_flow ctx "stableid" Name in
  stable_id (conn_of produced) version (topic_of produced) None 0 3.

(** ** Deletion *)

Definition delete_request (version : Z) (topic : string) : DeleteTopicsRequest.t :=
  if DELETE_TOPICS_BY_STATE <=? version
  then DeleteTopicsRequest.mk [DeleteTopicState.mk (Some topic) ZERO_ID []] [] 30000 []
  else DeleteTopicsRequest.mk [] [topic] 30000 [].

(** The answer of whoever is the controller, followed as it moves. *)
Definition delete_at_controller (ctx : ServerCtx) (conn admin : RawConnection) (metadata_version delete_version : Z)
    (body : list byte) : io W Verdict Z :=
  let+ r := settling ctx (λ attempt '(admin, _),
    let+ admin := (if 0 <? attempt
      then named "relocating the controller" (connect_to_controller ctx conn metadata_version 862)
      else io_ret admin) in
    let+ answer := named "DeleteTopics"
                     (api_call DeleteTopicsResponse.t admin DeleteTopicsRequest.API_KEY delete_version 800 body) in
    let code := from_option DeletableTopicResult.error_code 0 (head (DeleteTopicsResponse.responses answer)) in
    io_ret (if negb (code =? error_code.NOT_CONTROLLER) then inr code else inl (admin, code)))
    (admin, error_code.NOT_CONTROLLER) in
  io_ret (match r with inr code => code | inl (_, code) => code end).

Definition delete_topics_removes_the_topic (ctx : ServerCtx) : check :=
  let+ delete_version := negotiated ctx "DeleteTopics" DeleteTopicsRequest.API_KEY DeleteTopicsRequest.MIN_VERSION
                           DeleteTopicsRequest.MAX_VERSION in
  let+ metadata_version := metadata_version_of ctx in
  let+ produced := produce_flow ctx "delete" Name in
  let topic := topic_of produced in
  let conn := conn_of produced in
  let+ admin := named "locating the controller" (connect_to_controller ctx conn metadata_version 861) in
  let+ body := encoded "encoding DeleteTopics: " delete_version (delete_request delete_version topic) in
  let+ code := delete_at_controller ctx conn admin metadata_version delete_version body in
  if code =? error_code.TOPIC_DELETION_DISABLED then io_fail (Skipped "the subject has topic deletion disabled")
  else if negb (code =? 0) then fail ("deleting " +:+ topic +:+ " answered " +:+ show_code code)
  else
    let+ r := settling ctx (λ attempt _,
      let+ resp := named "Metadata" (metadata_of_topic conn metadata_version topic (correlation_at 810 attempt)) in
      let last := from_option MetadataResponseTopic.error_code error_code.UNKNOWN_TOPIC_OR_PARTITION
                    (topic_entry topic resp) in
      io_ret (if (last =? error_code.UNKNOWN_TOPIC_OR_PARTITION) || (last =? error_code.UNKNOWN_TOPIC_ID)
              then inr tt else inl last)) 0 in
    match r with
    | inr _ => done Pass
    | inl last =>
        fail (topic +:+ " was reported deleted, but Metadata still answers " +:+ show_code last +:+ " for it after " +:+
              debug_ms (settle_budget (config ctx)) +:+ "; the deletion was acknowledged without being done")
    end.

(** ** Silence *)

Definition frame_request (api_key api_version header_version correlation_id : Z) (body : list byte) :
    result string (list byte) :=
  map_err (λ e, "encoding a request header: " +:+ show_encode e)
    (enc_bytes (RequestHeader.encode header_version
       (RequestHeader.mk api_key api_version correlation_id (Some CLIENT_ID) []) ;; put_slice body)).

(** What a wire error makes of the check here: it could not be run. *)
Definition infra_of {A} (what : string) (m : io W WireError A) : io W Verdict A :=
  io_map_err (λ e, Error (what +:+ show_wire e)) m.

Definition produce_acks_zero_is_silent (ctx : ServerCtx) : check :=
  let+ produce_version := produce_version_of ctx Name in
  let+ produced := produce_flow ctx "acks0" Name in
  let conn := conn_of produced in
  let+ body := encoded "encoding Produce: " produce_version
                 (produce_of None (topic_of produced) ZERO_ID 0 0 (sent produced)) in
  match request_header_version ProduceRequest.API_KEY produce_version with
  | None => io_ret (Error ("no header version for Produce v" +:+ show_int produce_version))
  | Some header_version =>
      let silent_correlation := 1300 in
      let+ frame := io_of (map_err Error
        (frame_request ProduceRequest.API_KEY produce_version header_version silent_correlation body)) in
      let+ _ := infra_of "sending the acks=0 produce: " (send_frame conn frame) in
      let probe_correlation := 1301 in
      let+ probe := io_of (map_err Error
        (frame_request ApiVersionsRequest.API_KEY 0
           (default 1 (request_header_version ApiVersionsRequest.API_KEY 0)) probe_correlation [])) in
      let+ _ := infra_of "sending the follow-up ApiVersions: " (send_frame conn probe) in
      let+ answer := infra_of "reading the follow-up answer: " (read_frame conn) in
      if len answer <? 4 then
        fail ("the answer after an acks=0 produce is " +:+ show_int (len answer) +:+ " byte(s)")
      else
        let correlation := sint 32 (be_val (take 4 answer)) in
        if correlation =? probe_correlation then done Pass
        else if correlation =? silent_correlation then
          fail ("answered an acks=0 produce (correlation " +:+ show_int silent_correlation +:+
                "); the client has no id outstanding for it, so it reads that frame as the answer to its next " +:+
                "request and every reply after is matched to the wrong one")
        else
          fail ("after an acks=0 produce and an ApiVersions (correlation " +:+ show_int probe_correlation +:+
                "), the next frame carried correlation " +:+ show_int correlation)
  end.

(** ** Compressed batches *)

Definition compressed_batch (codec : KCodec) : result string (list byte) :=
  match records probe_batch with
  | Records.Compressed _ _ => Err "the probe batch is not plain records"
  | Records.Plain rs =>
      let? plain := map_err (λ e, "encoding a record: " +:+ show_encode e) (enc_bytes (enc_each KRecordOps.encode rs)) in
      let? payload := compress codec plain in
      let b := probe_batch in
      let compressed := mkRecordBatch (base_offset b) (partition_leader_epoch b) (Z.lor (attributes b) (attr codec))
        (last_offset_delta b) (base_timestamp b) (max_timestamp b) (producer_id b) (producer_epoch b) (base_sequence b)
        (Records.Compressed (default 0 (try_from i32_min i32_max (len rs))) payload) in
      map_err (λ e, "encoding the compressed batch: " +:+ show_encode e) (batch_bytes compressed)
  end.

(** The produce of the compressed batch, until the topic has settled. *)
Definition produce_compressed (ctx : ServerCtx) (bootstrap conn : RawConnection) (metadata_version produce_version : Z)
    (topic : string) (codec : KCodec) (set : list byte) : io W Verdict RawConnection :=
  let+ r := settling ctx (λ attempt '(conn, _),
    let+ body := encoded "encoding Produce: " produce_version (produce_of None topic ZERO_ID 0 (-1) set) in
    let+ resp := named "Produce" (api_call ProduceResponse.t conn ProduceRequest.API_KEY produce_version
                                    (correlation_at 960 attempt) body) in
    let last := from_option PartitionProduceResponse.error_code 0
                  (t ← head (ProduceResponse.responses resp); head (TopicProduceResponse.partition_responses t)) in
    if last =? 0 then io_ret (inr conn)
    else if last =? error_code.UNSUPPORTED_COMPRESSION_TYPE then
      io_fail (Skipped ("the subject does not accept " +:+ codec_name codec +:+ "-compressed batches"))
    else if negb (retriable last) then
      fail ("producing a " +:+ codec_name codec +:+ " batch answered " +:+ show_code last)
    else
      let+ conn := named "relocating the partition leader"
                     (connect_to_leader ctx bootstrap metadata_version topic 952) in
      io_ret (inl (conn, last))) (conn, 0) in
  match r with
  | inr conn => io_ret conn
  | inl (_, last) => fail ("a " +:+ codec_name codec +:+ " batch never became producible: still " +:+ show_code last)
  end.

Definition produce_compressed_passthrough (ctx : ServerCtx) (codec : KCodec) : check :=
  let+ create_version := create_topics_version ctx in
  let+ produce_version := produce_version_of ctx Name in
  let+ fetch_version := fetch_version_of ctx in
  let+ metadata_version := metadata_version_of ctx in
  let+ bootstrap := verdict_of (open ctx (addr ctx)) in
  let+ topic := unique_topic process_id (codec_name codec) in
  let+ (code, _) := named "CreateTopics" (create_topic_call ctx bootstrap create_version topic false 950) in
  if negb (code =? 0) then fail ("creating " +:+ topic +:+ " answered " +:+ show_code code)
  else
    let+ conn := named "locating the partition leader"
                   (connect_to_leader ctx bootstrap metadata_version topic 951) in
    let+ set := io_of (map_err Error (compressed_batch codec)) in
    let+ conn := produce_compressed ctx bootstrap conn metadata_version produce_version topic codec set in
    let+ data := named "Fetch"
      (fetch_partition_settled ctx conn fetch_version (mkFetchAt topic 0 0 READ_UNCOMMITTED) 970) in
    let got := default [] (PartitionData.records data) in
    if (len got <? OUTSIDE_CRC) || (len set <? OUTSIDE_CRC) then
      fail ("produced " +:+ show_int (len set) +:+ " byte(s) of " +:+ codec_name codec +:+ " batch and got " +:+
            show_int (len got) +:+ " back")
    else if negb (bool_decide (drop (Z.to_nat OUTSIDE_CRC) got = drop (Z.to_nat OUTSIDE_CRC) set)) then
      fail ("a " +:+ codec_name codec +:+ " batch came back rewritten: " +:+ show_int (len set) +:+
            " byte(s) produced, " +:+ show_int (len got) +:+ " returned, and the crc-covered bytes differ — the " +:+
            "records still decode, they are simply not the ones anybody wrote")
    else done Pass.

(** ** Assignments *)

(** Heartbeats until there is an assignment: it, and the epoch. *)
Definition settle_assignment (ctx : ServerCtx) (conn : RawConnection) (version : Z) (group member_id : string)
    (topics : list string) (correlation_base : Z) : io W Verdict (list TopicPartitions.t * Z) :=
  let+ r := settling ctx (λ attempt '(epoch, subscribed),
    let+ resp := verdict_of (consumer_group_heartbeat conn version group member_id epoch subscribed
                               (correlation_at correlation_base attempt)) in
    let code := ConsumerGroupHeartbeatResponse.error_code resp in
    if negb (code =? 0) then
      refused_member code version ("heartbeat at epoch " +:+ show_int epoch +:+ " answered " +:+ show_code code)
    else
      let epoch := ConsumerGroupHeartbeatResponse.member_epoch resp in
      match from_option Assignment.topic_partitions [] (ConsumerGroupHeartbeatResponse.assignment resp) with
      | [] => io_ret (inl (epoch, None))
      | assigned => io_ret (inr (assigned, epoch))
      end) (0, Some topics) in
  match r with
  | inr a => io_ret a
  | inl _ => fail ("no assignment for a subscribed topic after " +:+ debug_ms (settle_budget (config ctx)))
  end.

Definition NO_TOPIC_ID : string := "assignments are addressed by topic id and CreateTopics returned none".

Definition consumer_group_assigns_subscription (ctx : ServerCtx) : check :=
  let+ version := consumer_group_version ctx in
  let+ produced := produce_flow ctx "cgassign" Name in
  if bool_decide (topic_id_of produced = ZERO_ID) then io_fail (Skipped NO_TOPIC_ID)
  else
    let group := check_group run_id "cgassign" in
    let+ conn := verdict_of (coordinator_conn ctx group) in
    let member_id := mint_member_id process_id "assign" in
    let+ (assigned, _) := settle_assignment ctx conn version group member_id [topic_of produced] 160 in
    let+ _ := leave_consumer_group conn version group member_id 169 in
    match List.find (λ tp, bool_decide (TopicPartitions.topic_id tp = topic_id_of produced)) assigned with
    | Some tp =>
        if bool_decide (0 ∈ TopicPartitions.partitions tp) then done Pass
        else fail ("subscribed to a 1-partition topic; assignment names it with partitions " +:+
                   debug_ints (TopicPartitions.partitions tp))
    | None =>
        fail ("subscribed to " +:+ debug_str (topic_of produced) +:+ " and was assigned " +:+
              show_int (len assigned) +:+ " topic(s), none of them that one")
    end.

Definition consumer_group_omitted_subscription (ctx : ServerCtx) : check :=
  let+ version := consumer_group_version ctx in
  let+ produced := produce_flow ctx "cgsteady" Name in
  if bool_decide (topic_id_of produced = ZERO_ID) then io_fail (Skipped NO_TOPIC_ID)
  else
    let group := check_group run_id "cgsteady" in
    let+ conn := verdict_of (coordinator_conn ctx group) in
    let member_id := mint_member_id process_id "steady" in
    let+ (_, epoch) := settle_assignment ctx conn version group member_id [topic_of produced] 170 in
    let+ quiet := verdict_of (consumer_group_heartbeat conn version group member_id epoch None 180) in
    let code := ConsumerGroupHeartbeatResponse.error_code quiet in
    let+ _ := leave_consumer_group conn version group member_id 181 in
    if negb (code =? 0) then fail ("a heartbeat stating nothing new was answered " +:+ show_code code)
    else
      match ConsumerGroupHeartbeatResponse.assignment quiet with
      | None => done Pass
      | Some a =>
          if existsb (λ tp, bool_decide (TopicPartitions.topic_id tp = topic_id_of produced))
               (Assignment.topic_partitions a) then done Pass
          else if bool_decide (Assignment.topic_partitions a = []) then
            fail ("a heartbeat that omitted subscribed_topic_names was answered with an empty assignment: the absent " +:+
                  "field was read as unsubscribing")
          else
            fail ("a heartbeat that stated nothing new was reassigned to " +:+
                  show_int (len (Assignment.topic_partitions a)) +:+ " other topic(s)")
      end.

End log.
