(* ===== verification/TxnChecks.v ===== *)
(** * The checks of a server: producers and transactions ([odradek-acceptance/src/checks/server.rs])

    Idempotent produce; taking a transactional id over, fencing whoever held it,
    keeping a transaction's records and offsets back until it ends, and telling
    readers which were thrown away.  The coordinator of a transaction, the leader of
    the partition and the coordinator of the group are three connections. *)
From S2P Require Import Prelude Text Budget Codec Wire Frame Records Fields MessageTrait MsgTxn MsgGroup MsgOffset MsgMetadata MsgFetch MsgProduce MsgConnection Registry Sasl Scram Session Report Probe ServerChecks TopicChecks.

Import find_coordinator_request find_coordinator_response init_producer_id_request init_producer_id_response.
Import add_partitions_to_txn_request add_partitions_to_txn_response end_txn_request end_txn_response.
Import list_offsets_request produce_request produce_response fetch_request fetch_response.

Definition ADD_PARTITIONS_CLIENT_MAX : Z := 3.
Definition TXN_INIT_MAX : Z := 5.
Definition END_TXN_MAX : Z := 4.
Definition TRANSACTIONAL_ATTR : Z := Z.shiftl 1 4.

Record TxnVersions : Type := mkTxnVersions {
  init_v : Z;
  add_v : Z;
  end_v : Z;
  produce_v : Z;
  fetch_v : Z;
}.

Record TxnActor : Type := mkTxnActor {
  actor_id : string;
  actor_producer : Z;
  actor_epoch : Z;
}.
Definition actor_of (transactional_id : string) (identity : InitProducerIdResponse.t) : TxnActor :=
  mkTxnActor transactional_id (InitProducerIdResponse.producer_id identity)
    (InitProducerIdResponse.producer_epoch identity).
Definition at_epoch (epoch : Z) (a : TxnActor) : TxnActor := mkTxnActor (actor_id a) (actor_producer a) epoch.

(** What a produce stamps its batch with, and the transaction it belongs to. *)
Record ProduceStamp : Type := mkProduceStamp {
  stamp_producer : Z;
  stamp_epoch : Z;
  stamp_sequence : Z;
  stamp_txn : option string;
}.
Definition transactional (a : TxnActor) (base_sequence : Z) : ProduceStamp :=
  mkProduceStamp (actor_producer a) (actor_epoch a) base_sequence (Some (actor_id a)).
Definition plain_stamp : ProduceStamp := mkProduceStamp (-1) (-1) (-1) None.
Definition idempotent (identity : InitProducerIdResponse.t) (base_sequence : Z) : ProduceStamp :=
  mkProduceStamp (InitProducerIdResponse.producer_id identity) (InitProducerIdResponse.producer_epoch identity)
    base_sequence None.

Record AbortedRun : Type := mkAbortedRun {
  run_topic : string;
  run_first : Z;
  run_producer : Z;
}.

Definition txn_coordinator_settling (code : Z) : bool :=
  is_coordinator_settling code || (code =? error_code.NOT_COORDINATOR).
Definition is_fenced (code : Z) : bool :=
  (code =? error_code.PRODUCER_FENCED) || (code =? error_code.INVALID_PRODUCER_EPOCH).

Section txn.
Context {R : Runtime} {W : Type} `{Subjects W} `{Renders}.
Context `{Stringprep, Base64, Crypto}.
Context (process_id : Z) (run_id : string) (probe_timestamp : Z).

Abbreviation check := (io W Verdict Verdict).
#[local] Abbreviation produce_flow := (produce_flow process_id probe_timestamp).
#[local] Abbreviation probe_batch := (probe_batch probe_timestamp).

Definition init_version (ctx : ServerCtx) : io W Verdict Z :=
  negotiated ctx "InitProducerId" InitProducerIdRequest.API_KEY InitProducerIdRequest.MIN_VERSION TXN_INIT_MAX.

Definition txn_versions (ctx : ServerCtx) : io W Verdict TxnVersions :=
  let+ init := init_version ctx in
  let+ add := negotiated ctx "AddPartitionsToTxn" AddPartitionsToTxnRequest.API_KEY
                AddPartitionsToTxnRequest.MIN_VERSION ADD_PARTITIONS_CLIENT_MAX in
  let+ end_ := negotiated ctx "EndTxn" EndTxnRequest.API_KEY EndTxnRequest.MIN_VERSION END_TXN_MAX in
  let+ produce := produce_version_of ctx Name in
  let+ fetch := fetch_version_of ctx in
  io_ret (mkTxnVersions init add end_ produce fetch).

Definition unique_transactional_id {E} (tag : string) : io W E string :=
  let+ topic := unique_topic process_id tag in
  io_ret ("odradek-txn-" +:+ tag +:+ "-" +:+ topic).

(** ** The coordinator *)

Definition txn_coordinator_request (version : Z) (transactional_id : string) : FindCoordinatorRequest.t :=
  if FIND_COORDINATOR_BATCHED <=? version then FindCoordinatorRequest.mk "" 1 [transactional_id] []
  else FindCoordinatorRequest.mk transactional_id 1 [] [].

Definition await_txn_coordinator (ctx : ServerCtx) (conn : RawConnection) (transactional_id : string)
    (correlation : Z) : io W CheckError (option string) :=
  match (let? advertised := range ctx FindCoordinatorRequest.API_KEY in
         negotiate "FindCoordinator" advertised FindCoordinatorRequest.MIN_VERSION FindCoordinatorRequest.MAX_VERSION) with
  | Err _ => io_ret None
  | Ok version =>
      let+ body := io_of (encode_body "encoding FindCoordinator: " version
                            (txn_coordinator_request version transactional_id)) in
      let+ r := settling ctx (λ attempt _,
        let+ resp := api_call FindCoordinatorResponse.t conn FindCoordinatorRequest.API_KEY version
                       (correlation_at correlation attempt) body in
        io_ret (if is_coordinator_settling (coordinator_error resp version) then inl tt
                else inr (coordinator_endpoint resp version))) tt in
      io_ret (match r with inl _ => None | inr endpoint => endpoint end)
  end.

(** Claim a transactional id: its coordinator's connection, and the identity. *)
Definition init_producer_id (ctx : ServerCtx) (version : Z) (transactional_id : string) (correlation : Z) :
    io W CheckError (RawConnection * InitProducerIdResponse.t) :=
  let+ bootstrap := open ctx (addr ctx) in
  let+ located := await_txn_coordinator ctx bootstrap transactional_id (correlation - 1) in
  let+ conn := open ctx (default (addr ctx) located) in
  let+ body := io_of (encode_body "encoding InitProducerId: " version
                 (InitProducerIdRequest.mk (Some transactional_id) 60000 (-1) (-1) false false [])) in
  let+ r := settling ctx (λ attempt '(conn, _),
    let+ conn := (if 0 <? attempt then
        let+ located := await_txn_coordinator ctx bootstrap transactional_id (correlation - 1) in
        match located with Some address => open ctx address | None => io_ret conn end
      else io_ret conn) in
    let+ resp := api_call InitProducerIdResponse.t conn InitProducerIdRequest.API_KEY version
                   (correlation_at correlation attempt) body in
    let last := InitProducerIdResponse.error_code resp in
    io_ret (if last =? 0 then inr (Ok (conn, resp))
            else if negb (retriable last) && negb (txn_coordinator_settling last) &&
                    negb (last =? error_code.CONCURRENT_TRANSACTIONS) then inr (Err last)
            else inl (conn, last))) (conn, 0) in
  match r with
  | inr (Ok granted) => io_ret granted
  | inr (Err last) | inl (_, last) =>
      io_fail (Violation ("InitProducerId for " +:+ transactional_id +:+ " never succeeded: " +:+ show_code last))
  end.

Definition add_partitions_to_txn (conn : RawConnection) (version : Z) (actor : TxnActor) (topic : string)
    (partition correlation : Z) : io W CheckError Z :=
  let+ body := io_of (encode_body "encoding AddPartitionsToTxn: " version
    (AddPartitionsToTxnRequest.mk [] (actor_id actor) (actor_producer actor) (actor_epoch actor)
       [AddPartitionsToTxnTopic.mk topic [partition] []] [])) in
  let+ resp := api_call AddPartitionsToTxnResponse.t conn AddPartitionsToTxnRequest.API_KEY version correlation body in
  io_ret (from_option AddPartitionsToTxnPartitionResult.partition_error_code 0
            (t ← head (AddPartitionsToTxnResponse.results_by_topic_v3_and_below resp);
             head (AddPartitionsToTxnTopicResult.results_by_partition t))).

Definition end_txn (conn : RawConnection) (version : Z) (actor : TxnActor) (committed : bool) (correlation : Z) :
    io W CheckError Z :=
  let+ body := io_of (encode_body "encoding EndTxn: " version
    (EndTxnRequest.mk (actor_id actor) (actor_producer actor) (actor_epoch actor) committed [])) in
  let+ resp := api_call EndTxnResponse.t conn EndTxnRequest.API_KEY version correlation body in
  io_ret (EndTxnResponse.error_code resp).

(** The answer, and the connection it came from. *)
Definition end_txn_settled (ctx : ServerCtx) (conn : RawConnection) (version : Z) (actor : TxnActor)
    (committed : bool) (correlation : Z) : io W CheckError (Z * RawConnection) :=
  let+ r := settling ctx (λ attempt '(_, conn),
    let+ code := end_txn conn version actor committed (correlation_at correlation attempt) in
    if negb (code =? error_code.NOT_COORDINATOR) then io_ret (inr (code, conn))
    else
      let+ bootstrap := open ctx (addr ctx) in
      let+ located := await_txn_coordinator ctx bootstrap (actor_id actor) (sint 32 (correlation - 1)) in
      match located with
      | Some address => let+ conn := open ctx address in io_ret (inl (code, conn))
      | None => io_ret (inl (code, conn))
      end) (error_code.NOT_COORDINATOR, conn) in
  io_ret (match r with inr x => x | inl x => x end).

(** ** Stamped produces *)

Definition stamped (stamp : ProduceStamp) : RecordBatch :=
  let b := probe_batch in
  mkRecordBatch (base_offset b) (partition_leader_epoch b)
    (match stamp_txn stamp with Some _ => Z.lor (attributes b) TRANSACTIONAL_ATTR | None => attributes b end)
    (last_offset_delta b) (base_timestamp b) (max_timestamp b) (stamp_producer stamp) (stamp_epoch stamp)
    (stamp_sequence stamp) (records b).

Definition produce_stamped (conn : RawConnection) (version : Z) (stamp : ProduceStamp) (topic : string)
    (partition correlation : Z) : io W CheckError (Z * Z) :=
  let+ set := io_of (map_err (λ e, Infra ("encoding transactional batch: " +:+ show_encode e))
                       (batch_bytes (stamped stamp))) in
  let+ body := io_of (encode_body "encoding Produce: " version
                 (produce_of (stamp_txn stamp) topic ZERO_ID partition (-1) set)) in
  let+ resp := api_call ProduceResponse.t conn ProduceRequest.API_KEY version correlation body in
  match (t ← head (ProduceResponse.responses resp); head (TopicProduceResponse.partition_responses t)) with
  | None => io_fail (Violation "Produce response names no partitions")
  | Some entry =>
      io_ret (PartitionProduceResponse.error_code entry, PartitionProduceResponse.base_offset entry)
  end.

(** Announce a partition and write one batch to it: where the transaction starts. *)
Definition open_transaction (ctx : ServerCtx) (txn leader : RawConnection) (versions : TxnVersions) (actor : TxnActor)
    (topic : string) (partition correlation : Z) : io W Verdict Z :=
  let+ code := named "AddPartitionsToTxn" (add_partitions_to_txn txn (add_v versions) actor topic partition correlation) in
  if negb (code =? 0) then fail ("AddPartitionsToTxn answered " +:+ show_code code)
  else
    let+ r := settling ctx (λ attempt _,
      let+ (code, base_offset) := named "Produce (transactional)"
        (produce_stamped leader (produce_v versions) (transactional actor 0) topic partition
           (correlation_at (correlation + 10) attempt)) in
      io_ret (if code =? 0 then inr (Ok base_offset)
              else if negb (retriable code) && negb (code =? error_code.CONCURRENT_TRANSACTIONS) then inr (Err code)
              else inl code)) 0 in
    match r with
    | inr (Ok base_offset) => io_ret base_offset
    | inr (Err last) | inl last =>
        fail ("a transactional produce to an announced partition failed with " +:+ show_code last)
    end.

(** ** Markers *)

Definition marks (producer : Z) (b : RecordBatch) : bool := is_control b && (producer_id b =? producer).

(** Forward over the log until the marker turns up, in eight replies at most: what was
    found, or what to say instead. *)
Fixpoint walk_log (conn : RawConnection) (version : Z) (at_ : FetchAt) (producer correlation : Z) (n : nat) (offset : Z)
    (batches : list RecordBatch) : io W Verdict (string + list RecordBatch) :=
  match n with
  | O => io_ret (inr batches)
  | S n =>
      let+ r := io_try (fetch_partition conn version
                  (mkFetchAt (at_topic at_) (at_partition at_) offset READ_UNCOMMITTED) correlation) in
      match r with
      | Err e =>
          if bool_decide (batches = []) then
            let details := details_of e in
            io_ret (inl (
              if fetch_refusal_names details [error_code.OFFSET_OUT_OF_RANGE] then
                "; read_uncommitted cannot see " +:+ show_int offset +:+ " either (" +:+ details +:+
                "), so the log no longer covers the records and they were removed from under the check rather than " +:+
                "never written"
              else "; what is on the partition could not be determined (" +:+ details +:+ ")"))
          else io_ret (inr batches)
      | Ok data =>
          match decode_set (default [] (PartitionData.records data)) with
          | Err e => io_ret (inl ("; the read_uncommitted record set does not decode (" +:+ show_decode e +:+ ")"))
          | Ok (decoded, _) =>
              match last decoded with
              | None => io_ret (inr batches)
              | Some l =>
                  let next := sint 64 (base_offset l + last_offset_delta l + 1) in
                  if existsb (marks producer) decoded || (next <=? offset) then io_ret (inr (batches ++ decoded))
                  else walk_log conn version at_ producer (correlation + 1) n next (batches ++ decoded)
              end
          end
      end
  end.

Definition marker_evidence (conn : RawConnection) (version : Z) (at_ : FetchAt) (producer correlation : Z) :
    io W Verdict string :=
  let+ r := walk_log conn version at_ producer correlation 8 (at_offset at_) [] in
  io_ret match r with
    | inl s => s
    | inr batches =>
        match List.find (marks producer) batches, batches with
        | Some b, _ =>
            "; read_uncommitted shows the marker for producer " +:+ show_int producer +:+ " on disk at offset " +:+
            show_int (base_offset b) +:+ ", so the batch that ends the transaction was written and the partition is " +:+
            "not accounting for it"
        | None, [] =>
            "; read_uncommitted shows nothing at " +:+ show_int (at_offset at_) +:+
            " either, so the write never became visible"
        | None, b :: _ =>
            "; read_uncommitted shows " +:+ show_int (len batches) +:+ " batch(es) from " +:+ show_int (base_offset b) +:+
            " and no control batch for producer " +:+ show_int producer +:+
            ", so the marker was never written to this partition"
        end
    end.

(** What a read_committed fetch says once the stable offset has moved past an offset,
    or the last it said within the recovery budget. *)
Definition await_stable (ctx : ServerCtx) (conn : RawConnection) (version : Z) (topic : string)
    (first_offset correlation : Z) : io W Verdict (option PartitionData.t) :=
  let+ r := recovering ctx (λ attempt data,
    let+ r := io_try (fetch_partition conn version (mkFetchAt topic 0 first_offset READ_COMMITTED)
                        (correlation_at correlation attempt)) in
    match r with
    | Ok got =>
        io_ret (if first_offset <? PartitionData.last_stable_offset got then inr got else inl (Some got))
    | Err (Violation details) =>
        if still_resolving details then io_ret (inl data)
        else io_fail (into_verdict (context "Fetch (read_committed)" (Violation details)))
    | Err e => io_fail (into_verdict (context "Fetch (read_committed)" e))
    end) None in
  io_ret (match r with inr got => Some got | inl data => data end).

Definition names_producer (producer : Z) (data : PartitionData.t) : bool :=
  existsb (λ entry, AbortedTransaction.producer_id entry =? producer)
    (default [] (PartitionData.aborted_transactions data)).

Definition show_watermarks (data : PartitionData.t) : string :=
  "(stable " +:+ show_int (PartitionData.last_stable_offset data) +:+ ", high watermark " +:+
  show_int (PartitionData.high_watermark data) +:+ ", log start " +:+ show_int (PartitionData.log_start_offset data) +:+ ")".

Definition await_abort_marker (ctx : ServerCtx) (conn : RawConnection) (version : Z) (run : AbortedRun)
    (what : string) (correlation : Z) : io W Verdict unit :=
  let first_offset := run_first run in
  let uncommitted := mkFetchAt (run_topic run) 0 first_offset READ_UNCOMMITTED in
  let budget := debug_ms (recovery_budget (config ctx)) in
  let+ data := await_stable ctx conn version (run_topic run) first_offset correlation in
  match data with
  | None =>
      let+ evidence := marker_evidence conn version uncommitted (run_producer run) (correlation + 880) in
      fail (what +:+ " nothing was readable at " +:+ show_int first_offset +:+ " within " +:+ budget +:+
            ": every read_committed fetch was refused, so the transaction was never resolved" +:+ evidence)
  | Some data =>
      if PartitionData.last_stable_offset data <=? first_offset then
        let+ evidence := marker_evidence conn version uncommitted (run_producer run) (correlation + 900) in
        fail (what +:+ " the stable offset never moved past " +:+ show_int first_offset +:+ " within " +:+ budget +:+ " " +:+
              show_watermarks data +:+
              ", so the partition stays blocked on a transaction that has already finished" +:+ evidence)
      else if negb (names_producer (run_producer run) data) then
        fail (what +:+ " a read_committed fetch over the aborted records named " +:+
              show_int (len (default [] (PartitionData.aborted_transactions data))) +:+
              " aborted transaction(s), none of them producer " +:+ show_int (run_producer run) +:+
              "; a client reading this partition has no way to know those records were thrown away")
      else io_ret tt
  end.

(** ** The checks of transactions *)

Definition txn_init_bumps_the_epoch (ctx : ServerCtx) : check :=
  let+ versions := txn_versions ctx in
  let+ id := unique_transactional_id "epoch" in
  let+ (_, first) := named "InitProducerId (first)" (init_producer_id ctx (init_v versions) id 400) in
  let+ (_, second) := named "InitProducerId (second)" (init_producer_id ctx (init_v versions) id 420) in
  let pid := InitProducerIdResponse.producer_id in
  let epoch := InitProducerIdResponse.producer_epoch in
  if negb (pid second =? pid first) then
    fail ("re-initializing " +:+ id +:+ " changed the producer id (" +:+ show_int (pid first) +:+ " to " +:+
          show_int (pid second) +:+ "); the epoch is what should have moved")
  else if epoch second <=? epoch first then
    fail ("re-initializing " +:+ id +:+ " returned epoch " +:+ show_int (epoch second) +:+ " again (was " +:+
          show_int (epoch first) +:+ "), so the previous producer is not fenced")
  else done Pass.

Definition txn_stale_epoch_is_fenced (ctx : ServerCtx) : check :=
  let+ versions := txn_versions ctx in
  let+ produced := produce_flow ctx "txnfence" Name in
  let+ id := unique_transactional_id "fence" in
  let+ (_, first) := named "InitProducerId (first)" (init_producer_id ctx (init_v versions) id 440) in
  let+ (conn, second) := named "InitProducerId (second)" (init_producer_id ctx (init_v versions) id 460) in
  let epoch := InitProducerIdResponse.producer_epoch in
  if epoch second <=? epoch first then
    io_fail (Skipped ("the epoch never advanced, so there is no stale epoch to refuse (txn/init-bumps-the-epoch " +:+
                      "reports that)"))
  else
    let+ code := named "AddPartitionsToTxn"
      (add_partitions_to_txn conn (add_v versions) (at_epoch (epoch first) (actor_of id second))
         (topic_of produced) 0 480) in
    if is_fenced code then done Pass
    else if code =? 0 then
      fail ("AddPartitionsToTxn at the superseded epoch " +:+ show_int (epoch first) +:+
            " was accepted; the producer holding " +:+ id +:+ " is epoch " +:+ show_int (epoch second))
    else fail ("AddPartitionsToTxn at the superseded epoch " +:+ show_int (epoch first) +:+ " answered " +:+
               show_code code +:+ ", which does not tell the caller it has been fenced").

Definition txn_unannounced_write_stays_in_the_transaction (ctx : ServerCtx) : check :=
  let+ versions := txn_versions ctx in
  let+ produced := produce_flow ctx "txnunannounced" Name in
  let topic := topic_of produced in
  let leader := conn_of produced in
  let+ id := unique_transactional_id "unannounced" in
  let+ (txn, identity) := named "InitProducerId" (init_producer_id ctx (init_v versions) id 500) in
  let actor := actor_of id identity in
  let+ (code, base_offset) := named "Produce"
    (produce_stamped leader (produce_v versions) (transactional actor 0) topic 0 520) in
  if negb (code =? 0) then done Pass
  else
    let+ (code, _) := named "EndTxn" (end_txn_settled ctx txn (end_v versions) actor false 530) in
    if negb (code =? 0) then
      fail ("the unannounced write was accepted at offset " +:+ show_int base_offset +:+
            ", then aborting the transaction answered " +:+ show_code code +:+ "; those records are covered by nothing")
    else
      let+ _ := await_abort_marker ctx leader (fetch_v versions)
                  (mkAbortedRun topic base_offset (InitProducerIdResponse.producer_id identity))
                  "the unannounced write was accepted, but" 540 in
      done Pass.

Definition txn_open_transaction_holds_the_stable_offset (ctx : ServerCtx) : check :=
  let+ versions := txn_versions ctx in
  let+ produced := produce_flow ctx "txnlso" Name in
  let topic := topic_of produced in
  let leader := conn_of produced in
  let+ id := unique_transactional_id "lso" in
  let+ (txn, identity) := named "InitProducerId" (init_producer_id ctx (init_v versions) id 540) in
  let actor := actor_of id identity in
  let+ _ := open_transaction ctx txn leader versions actor topic 0 560 in
  let+ data := named "Fetch (read_committed)"
    (fetch_partition_settled ctx leader (fetch_v versions) (mkFetchAt topic 0 0 READ_COMMITTED) 580) in
  let+ cleanup := io_try (end_txn txn (end_v versions) actor false 599) in
  if PartitionData.high_watermark data <=? PartitionData.last_stable_offset data then
    fail ("with a transaction open, the stable offset (" +:+ show_int (PartitionData.last_stable_offset data) +:+
          ") has caught up to the high watermark (" +:+ show_int (PartitionData.high_watermark data) +:+
          "); uncommitted records are being offered to read_committed consumers")
  else
    let+ _ := named "EndTxn (cleanup)" (io_of cleanup) in
    done Pass.

Definition txn_abort_is_reported_to_readers (ctx : ServerCtx) : check :=
  let+ versions := txn_versions ctx in
  let+ produced := produce_flow ctx "txnabort" Name in
  let topic := topic_of produced in
  let leader := conn_of produced in
  let+ id := unique_transactional_id "abort" in
  let+ (txn, identity) := named "InitProducerId" (init_producer_id ctx (init_v versions) id 600) in
  let actor := actor_of id identity in
  let+ first_offset := open_transaction ctx txn leader versions actor topic 0 620 in
  let+ (code, _) := named "EndTxn" (end_txn_settled ctx txn (end_v versions) actor false 640) in
  if negb (code =? 0) then fail ("aborting the transaction answered " +:+ show_code code)
  else
    let+ _ := await_abort_marker ctx leader (fetch_v versions)
                (mkAbortedRun topic first_offset (InitProducerIdResponse.producer_id identity))
                "the abort was acknowledged, but" 660 in
    done Pass.

Definition txn_commit_is_visible_to_readers (ctx : ServerCtx) : check :=
  let+ versions := txn_versions ctx in
  let+ produced := produce_flow ctx "txncommit" Name in
  let topic := topic_of produced in
  let leader := conn_of produced in
  let+ id := unique_transactional_id "commit" in
  let+ (txn, identity) := named "InitProducerId" (init_producer_id ctx (init_v versions) id 980) in
  let actor := actor_of id identity in
  let producer := InitProducerIdResponse.producer_id identity in
  let+ first_offset := open_transaction ctx txn leader versions actor topic 0 1000 in
  let+ (code, _) := named "EndTxn" (end_txn_settled ctx txn (end_v versions) actor true 1020) in
  if negb (code =? 0) then fail ("committing the transaction answered " +:+ show_code code)
  else
    let uncommitted := mkFetchAt topic 0 first_offset READ_UNCOMMITTED in
    let budget := debug_ms (recovery_budget (config ctx)) in
    let+ data := await_stable ctx leader (fetch_v versions) topic first_offset 1040 in
    match data with
    | None =>
        let+ evidence := marker_evidence leader (fetch_v versions) uncommitted producer 1880 in
        fail ("the commit was acknowledged but nothing was readable at " +:+ show_int first_offset +:+ " within " +:+
              budget +:+ ": every read_committed fetch was refused, so the commit marker never landed" +:+ evidence)
    | Some data =>
        if PartitionData.last_stable_offset data <=? first_offset then
          let+ evidence := marker_evidence leader (fetch_v versions) uncommitted producer 1900 in
          fail ("the commit was acknowledged but the stable offset never moved past " +:+ show_int first_offset +:+
                " within " +:+ budget +:+ " " +:+ show_watermarks data +:+
                "; a read_committed consumer stays blocked on a transaction that finished" +:+ evidence)
        else if names_producer producer data then
          fail ("producer " +:+ show_int producer +:+ " committed and is still named in the aborted list; every client " +:+
                "reading this partition throws those records away on purpose")
        else if bool_decide (default [] (PartitionData.records data) = []) then
          fail ("the transaction committed and the stable offset moved past " +:+ show_int first_offset +:+
                ", but a read_committed fetch from there returns nothing")
        else done Pass
    end.

Definition txn_fenced_producer_cannot_produce (ctx : ServerCtx) : check :=
  let+ versions := txn_versions ctx in
  let+ produced := produce_flow ctx "txnzombie" Name in
  let topic := topic_of produced in
  let leader := conn_of produced in
  let+ id := unique_transactional_id "zombie" in
  let+ (txn, first) := named "InitProducerId (first)" (init_producer_id ctx (init_v versions) id 1200) in
  let zombie := actor_of id first in
  let+ _ := open_transaction ctx txn leader versions zombie topic 0 1220 in
  let+ (txn, second) := named "InitProducerId (second)" (init_producer_id ctx (init_v versions) id 1260) in
  let epoch := InitProducerIdResponse.producer_epoch in
  if epoch second <=? epoch first then
    io_fail (Skipped ("the epoch never advanced, so there is no fenced producer to refuse (txn/init-bumps-the-epoch " +:+
                      "reports that)"))
  else
    let+ outcome := io_try (produce_stamped leader (produce_v versions) (transactional zombie 1) topic 0 1280) in
    let+ _ := io_try (end_txn txn (end_v versions) (actor_of id second) false 1299) in
    let+ (code, offset) := named "Produce (fenced)" (io_of outcome) in
    if is_fenced code then done Pass
    else if negb (code =? 0) then
      fail ("a produce at the superseded epoch " +:+ show_int (epoch first) +:+ " was refused with " +:+ show_code code +:+
            " rather than a fencing code, so a zombie producer is told its stamp is wrong without being told it has " +:+
            "been replaced")
    else
      fail ("a produce at the superseded epoch " +:+ show_int (epoch first) +:+ " was accepted at offset " +:+
            show_int offset +:+ " while epoch " +:+ show_int (epoch second) +:+
            " holds the id; those records sit inside a transaction the live producer is about to commit").

(** ** Idempotent produce *)

Definition init_idempotent_producer_id (ctx : ServerCtx) (conn : RawConnection) (version correlation : Z) :
    io W CheckError InitProducerIdResponse.t :=
  let+ body := io_of (encode_body "encoding InitProducerId: " version
                 (InitProducerIdRequest.mk None (-1) (-1) (-1) false false [])) in
  let+ r := settling ctx (λ attempt _,
    let+ resp := api_call InitProducerIdResponse.t conn InitProducerIdRequest.API_KEY version
                   (correlation_at correlation attempt) body in
    let last := InitProducerIdResponse.error_code resp in
    io_ret (if last =? 0 then inr (Ok resp)
            else if negb (retriable last) && negb (txn_coordinator_settling last) then inr (Err last)
            else inl last)) 0 in
  match r with
  | inr (Ok resp) => io_ret resp
  | inr (Err last) | inl last => io_fail (Violation ("InitProducerId never succeeded: " +:+ show_code last))
  end.

Definition log_span (ctx : ServerCtx) (conn : RawConnection) (topic : string) (correlation : Z) : io W CheckError Z :=
  let+ version := io_of (
    let? advertised := map_err (λ _, Infra "ListOffsets is not advertised") (range ctx ListOffsetsRequest.API_KEY) in
    map_err (λ _, Infra "no common ListOffsets version")
      (negotiate "ListOffsets" advertised ListOffsetsRequest.MIN_VERSION ListOffsetsRequest.MAX_VERSION)) in
  let+ earliest := list_offset_of conn version topic EARLIEST_TIMESTAMP correlation in
  let+ latest := list_offset_of conn version topic LATEST_TIMESTAMP (correlation + 1) in
  io_ret (sint 64 (latest - earliest)).

Definition idempotence_versions (ctx : ServerCtx) : io W Verdict (Z * Z) :=
  let+ init := init_version ctx in
  let+ produce := produce_version_of ctx Name in
  io_ret (init, produce).

Definition produce_idempotent_retry_is_deduped (ctx : ServerCtx) : check :=
  let+ (init_version, produce_version) := idempotence_versions ctx in
  let+ produced := produce_flow ctx "dedupe" Name in
  let topic := topic_of produced in
  let conn := conn_of produced in
  let+ identity := named "InitProducerId" (init_idempotent_producer_id ctx conn init_version 700) in
  let+ before := named "ListOffsets (before)" (log_span ctx conn topic 710) in
  let stamp := idempotent identity 0 in
  let+ (code, first) := named "Produce (first)" (produce_stamped conn produce_version stamp topic 0 720) in
  if negb (code =? 0) then fail ("the first stamped produce answered " +:+ show_code code)
  else
    let+ (code, offset) := named "Produce (retry)" (produce_stamped conn produce_version stamp topic 0 730) in
    let+ after := named "ListOffsets (after)" (log_span ctx conn topic 740) in
    let records := batch_record_count probe_batch in
    let appended := sint 64 (after - before) in
    if negb (appended =? records) then
      fail ("a batch of " +:+ show_int records +:+ " record(s) sent twice under producer " +:+
            show_int (InitProducerIdResponse.producer_id identity) +:+ " sequence 0 grew the log by " +:+
            show_int appended +:+ "; the retry was appended rather than recognized (first at offset " +:+ show_int first +:+
            ", retry answered " +:+ show_code code +:+ ", offset " +:+ show_int offset +:+ ")")
    else done Pass.

Definition produce_sequence_gap_is_refused (ctx : ServerCtx) : check :=
  let+ (init_version, produce_version) := idempotence_versions ctx in
  let+ produced := produce_flow ctx "seqgap" Name in
  let topic := topic_of produced in
  let conn := conn_of produced in
  let+ identity := named "InitProducerId" (init_idempotent_producer_id ctx conn init_version 750) in
  let+ (code, _) := named "Produce (first)" (produce_stamped conn produce_version (idempotent identity 0) topic 0 760) in
  if negb (code =? 0) then fail ("the first stamped produce answered " +:+ show_code code)
  else
    let gap := default 2 (try_from i32_min i32_max (batch_record_count probe_batch)) + 50 in
    let+ (code, offset) := named "Produce (gap)"
                             (produce_stamped conn produce_version (idempotent identity gap) topic 0 770) in
    if code =? error_code.OUT_OF_ORDER_SEQUENCE_NUMBER then done Pass
    else if code =? 0 then
      fail ("a batch stamped with sequence " +:+ show_int gap +:+ " was accepted at offset " +:+ show_int offset +:+
            " after a batch ending well below it; the gap was neither filled nor refused")
    else fail ("a batch stamped with sequence " +:+ show_int gap +:+ " was refused with " +:+ show_code code +:+
               " rather than OUT_OF_ORDER_SEQUENCE_NUMBER, which is the code that tells a producer its stamp has drifted").

End txn.
