(* ===== verification/OffsetChecks.v ===== *)
(** * The checks of a server: committed offsets ([odradek-acceptance/src/checks/server.rs])

    Committing an offset and reading it back, at every version, in the shapes the
    versions have; what was never committed; the metadata beside an offset; and
    offsets inside a transaction. *)
From S2P Require Import Prelude Text Budget Codec Wire Frame Records Fields MessageTrait MsgTxn MsgOffset MsgMetadata MsgConnection Registry Sasl Scram Session Report Probe ServerChecks TopicChecks TxnChecks.

Import metadata_request metadata_response offset_commit_request offset_commit_response.
Import offset_fetch_request offset_fetch_response init_producer_id_response.
Import add_offsets_to_txn_request add_offsets_to_txn_response txn_offset_commit_request txn_offset_commit_response.

Definition OFFSET_FETCH_BATCHED : Z := 8.
Definition OFFSETS_BY_TOPIC_ID : Z := 10.
Definition ADD_OFFSETS_CLIENT_MAX : Z := 4.
Definition TXN_OFFSET_COMMIT_CLIENT_MAX : Z := 4.

(** ** Requests and answers *)

(** A simple commit of partition 0, by id or by name. *)
Definition commit_request (version : Z) (group topic : string) (topic_id : list byte) (offset : Z)
    (metadata : option string) : OffsetCommitRequest.t :=
  let partition := OffsetCommitRequestPartition.mk 0 offset (-1) metadata [] in
  let req_topic := if OFFSETS_BY_TOPIC_ID <=? version
    then OffsetCommitRequestTopic.mk "" topic_id [partition] [] else OffsetCommitRequestTopic.mk topic ZERO_ID [partition] [] in
  OffsetCommitRequest.mk group (-1) "" None (-1) [req_topic] [].

Definition offset_fetch_of (version : Z) (group topic : string) (topic_id : list byte) : OffsetFetchRequest.t :=
  if OFFSET_FETCH_BATCHED <=? version then
    let topics := if OFFSETS_BY_TOPIC_ID <=? version
      then OffsetFetchRequestTopics.mk "" topic_id [0] [] else OffsetFetchRequestTopics.mk topic ZERO_ID [0] [] in
    OffsetFetchRequest.mk "" (Some []) [OffsetFetchRequestGroup.mk group None (-1) (Some [topics]) []] false []
  else OffsetFetchRequest.mk group (Some [OffsetFetchRequestTopic.mk topic [0] []]) [] false [].

(** What an answer says was committed: the code that counts, and the offset. *)
Definition committed_in `{Renders} (version : Z) (group topic : string) (topic_id : list byte)
    (resp : OffsetFetchResponse.t) : result CheckError (Z * Z) :=
  let omits := Violation ("OffsetFetch response omits " +:+ topic +:+ "[0]") in
  if OFFSET_FETCH_BATCHED <=? version then
    match List.find (λ g, String.eqb (OffsetFetchResponseGroup.group_id g) group) (OffsetFetchResponse.groups resp) with
    | None => Err (Violation ("OffsetFetch response omits group " +:+ debug_str group))
    | Some g =>
        match (t ← List.find (λ t, if OFFSETS_BY_TOPIC_ID <=? version
                                 then bool_decide (OffsetFetchResponseTopics.topic_id t = topic_id)
                                 else String.eqb (OffsetFetchResponseTopics.name t) topic)
                     (OffsetFetchResponseGroup.topics g);
               head (OffsetFetchResponseTopics.partitions t)) with
        | None => Err omits
        | Some p =>
            Ok (if negb (OffsetFetchResponseGroup.error_code g =? 0) then OffsetFetchResponseGroup.error_code g
                else OffsetFetchResponsePartitions.error_code p, OffsetFetchResponsePartitions.committed_offset p)
        end
    end
  else
    match (t ← List.find (λ t, String.eqb (OffsetFetchResponseTopic.name t) topic) (OffsetFetchResponse.topics resp);
           head (OffsetFetchResponseTopic.partitions t)) with
    | None => Err omits
    | Some p => Ok (OffsetFetchResponsePartition.error_code p, OffsetFetchResponsePartition.committed_offset p)
    end.

(** The metadata of whatever the answer names first, whatever its code. *)
Definition metadata_in (version : Z) (resp : OffsetFetchResponse.t) : option string :=
  if OFFSET_FETCH_BATCHED <=? version then
    g ← head (OffsetFetchResponse.groups resp); t ← head (OffsetFetchResponseGroup.topics g);
    p ← head (OffsetFetchResponseTopics.partitions t); OffsetFetchResponsePartitions.metadata p
  else
    t ← head (OffsetFetchResponse.topics resp); p ← head (OffsetFetchResponseTopic.partitions t);
    OffsetFetchResponsePartition.metadata p.

Definition METADATA : string := "odradek:é" +:+ bytes_str [byte_of_Z 34] +:+ "state" +:+ bytes_str [byte_of_Z 34] +:+ "/shard-7".

Section offsets.
Context {R : Runtime} {W : Type} `{Subjects W} `{Renders}.
Context `{Stringprep, Base64, Crypto}.
Context (process_id : Z) (run_id : string) (probe_timestamp : Z).

Abbreviation check := (io W Verdict Verdict).
#[local] Abbreviation produce_flow := (produce_flow process_id probe_timestamp).

(** ** The offset calls *)

Definition commit_call (conn : RawConnection) (version : Z) (request : OffsetCommitRequest.t) (correlation : Z) :
    io W CheckError OffsetCommitResponse.t :=
  let+ body := io_of (encode_body "encoding OffsetCommit: " version request) in
  api_call OffsetCommitResponse.t conn OffsetCommitRequest.API_KEY version correlation body.

Definition commit_offset (conn : RawConnection) (version : Z) (group topic : string) (topic_id : list byte)
    (offset correlation : Z) : io W CheckError unit :=
  let+ resp := commit_call conn version (commit_request version group topic topic_id offset (Some "")) correlation in
  match (t ← List.find (λ t, if OFFSETS_BY_TOPIC_ID <=? version
                             then bool_decide (OffsetCommitResponseTopic.topic_id t = topic_id)
                             else String.eqb (OffsetCommitResponseTopic.name t) topic) (OffsetCommitResponse.topics resp);
         head (OffsetCommitResponseTopic.partitions t)) with
  | None => io_fail (Violation ("OffsetCommit response omits " +:+ topic +:+ "[0]"))
  | Some partition =>
      let code := OffsetCommitResponsePartition.error_code partition in
      if negb (code =? 0) then
        io_fail (Violation ("committing " +:+ show_int offset +:+ " for " +:+ topic +:+ "[0] failed: " +:+ show_code code))
      else io_ret tt
  end.

(** Until the broker has heard of the topic, or the budget is spent. *)
Definition await_topic_known (ctx : ServerCtx) (conn : RawConnection) (topic : string) (correlation_base : Z) :
    io W CheckError unit :=
  match (let? advertised := range ctx MetadataRequest.API_KEY in
         negotiate "Metadata" advertised 1 MetadataRequest.MAX_VERSION) with
  | Err _ => io_ret tt
  | Ok version =>
      let+ _ := settling ctx (λ attempt _,
        let+ resp := metadata_of_topic conn version topic (correlation_at correlation_base attempt) in
        let known := from_option (λ t, (MetadataResponseTopic.error_code t =? 0) &&
                                       negb (bool_decide (MetadataResponseTopic.partitions t = []))) false
                       (topic_entry topic resp) in
        io_ret (if known then inr tt else inl tt)) tt in
      io_ret tt
  end.

(** The commit, and the connection that took it. *)
Definition commit_offset_settled (ctx : ServerCtx) (group : string) (produced : ProducedTopic W)
    (offset version correlation : Z) : io W CheckError RawConnection :=
  let+ r := settling ctx (λ _ _,
    let+ conn := coordinator_conn ctx group in
    let+ _ := await_topic_known ctx conn (topic_of produced) correlation in
    let+ r := io_try (commit_offset conn version group (topic_of produced) (topic_id_of produced) offset
                        (correlation + 1)) in
    match r with
    | Ok _ => io_ret (inr conn)
    | Err (Violation details) =>
        if mentions (show_code error_code.NOT_COORDINATOR) details then io_ret (inl (Violation details))
        else io_fail (Violation details)
    | Err e => io_fail e
    end) (Infra "no commit attempts were made") in
  match r with
  | inr conn => io_ret conn
  | inl last => io_fail last
  end.

Definition offset_fetch_call (conn : RawConnection) (version : Z) (group topic : string) (topic_id : list byte)
    (correlation : Z) : io W CheckError OffsetFetchResponse.t :=
  let+ body := io_of (encode_body "encoding OffsetFetch: " version (offset_fetch_of version group topic topic_id)) in
  api_call OffsetFetchResponse.t conn OffsetFetchRequest.API_KEY version correlation body.

Definition fetch_committed (conn : RawConnection) (version : Z) (group topic : string) (topic_id : list byte)
    (correlation : Z) : io W CheckError Z :=
  let+ resp := offset_fetch_call conn version group topic topic_id correlation in
  let+ (code, committed) := io_of (committed_in version group topic topic_id resp) in
  if negb (code =? 0) then
    io_fail (Violation ("reading the committed offset for " +:+ topic +:+ "[0] failed: " +:+ show_code code))
  else io_ret committed.

Definition fetch_committed_metadata (conn : RawConnection) (version : Z) (group topic : string)
    (topic_id : list byte) (correlation : Z) : io W CheckError (option string) :=
  let+ resp := offset_fetch_call conn version group topic topic_id correlation in
  io_ret (metadata_in version resp).

(** ** The checks of offsets *)

Definition skip_without_topic_id (produced : ProducedTopic W) (version : Z) : io W Verdict unit :=
  if (OFFSETS_BY_TOPIC_ID <=? version) && bool_decide (topic_id_of produced = ZERO_ID) then
    io_fail (Skipped ("offsets v" +:+ show_int version +:+
      " addresses topics by id, and CreateTopics returned none for " +:+ topic_of produced))
  else io_ret tt.

Definition offset_commit_version (ctx : ServerCtx) : io W Verdict Z :=
  negotiated ctx "OffsetCommit" OffsetCommitRequest.API_KEY OffsetCommitRequest.MIN_VERSION
    OffsetCommitRequest.MAX_VERSION.
Definition offsets_commit_and_fetch_versions (ctx : ServerCtx) : io W Verdict (Z * list Z) :=
  let+ commit := offset_commit_version ctx in
  let+ fetch := negotiated_all ctx "OffsetFetch" OffsetFetchRequest.API_KEY OffsetFetchRequest.MIN_VERSION
                  OffsetFetchRequest.MAX_VERSION in
  io_ret (commit, fetch).
Definition offsets_versions (ctx : ServerCtx) : io W Verdict (Z * Z) :=
  let+ commit := offset_commit_version ctx in
  let+ fetch := negotiated ctx "OffsetFetch" OffsetFetchRequest.API_KEY OffsetFetchRequest.MIN_VERSION
                  OffsetFetchRequest.MAX_VERSION in
  io_ret (commit, fetch).

Fixpoint roundtrip_versions (conn : RawConnection) (group : string) (produced : ProducedTopic W) (committed i : Z)
    (versions : list Z) : check :=
  match versions with
  | [] => done Pass
  | version :: versions =>
      let again := roundtrip_versions conn group produced committed (i + 1) versions in
      if (OFFSETS_BY_TOPIC_ID <=? version) && bool_decide (topic_id_of produced = ZERO_ID) then again
      else
        let+ got := io_map_err (λ e, at_version version (into_verdict e))
          (fetch_committed conn version group (topic_of produced) (topic_id_of produced) (correlation_at 62 i)) in
        if got =? committed then again
        else fail ("v" +:+ show_int version +:+ ": committed offset " +:+ show_int committed +:+ ", read back " +:+
                   show_int got)
  end.

Definition offsets_commit_fetch_roundtrip (ctx : ServerCtx) : check :=
  let+ (commit_version, fetch_versions) := offsets_commit_and_fetch_versions ctx in
  let+ produced := produce_flow ctx "offsets" Name in
  let+ _ := skip_without_topic_id produced commit_version in
  let group := check_group run_id (topic_of produced) in
  let+ conn := verdict_of (commit_offset_settled ctx group produced 7 commit_version 55) in
  roundtrip_versions conn group produced 7 0 fetch_versions.

Definition offsets_unset_is_sentinel (ctx : ServerCtx) : check :=
  let+ (_, fetch_version) := offsets_versions ctx in
  let+ produced := produce_flow ctx "unset" Name in
  let+ _ := skip_without_topic_id produced fetch_version in
  let group := check_group run_id (topic_of produced) +:+ "-never-committed" in
  let+ conn := verdict_of (coordinator_conn ctx group) in
  let+ _ := verdict_of (await_topic_known ctx conn (topic_of produced) 66) in
  let+ got := verdict_of (fetch_committed conn fetch_version group (topic_of produced) (topic_id_of produced) 71) in
  if got =? UNSET_OFFSET then done Pass
  else fail ("a group that never committed reads as offset " +:+ show_int got +:+ ", expected " +:+ show_int UNSET_OFFSET).

Definition offsets_metadata_round_trips (ctx : ServerCtx) : check :=
  let+ (commit_version, fetch_version) := offsets_versions ctx in
  let+ produced := produce_flow ctx "commitmeta" Name in
  let+ _ := skip_without_topic_id produced commit_version in
  let topic := topic_of produced in
  let topic_id := topic_id_of produced in
  let group := check_group run_id "commitmeta" in
  let+ conn := verdict_of (coordinator_conn ctx group) in
  let+ _ := verdict_of (await_topic_known ctx conn topic 815) in
  let+ body := encoded "encoding OffsetCommit: " commit_version
                 (commit_request commit_version group topic topic_id 11 (Some METADATA)) in
  let+ resp := named "OffsetCommit"
    (api_call OffsetCommitResponse.t conn OffsetCommitRequest.API_KEY commit_version 820 body) in
  let code := from_option OffsetCommitResponsePartition.error_code 0
                (t ← head (OffsetCommitResponse.topics resp); head (OffsetCommitResponseTopic.partitions t)) in
  if negb (code =? 0) then fail ("committing an offset with metadata answered " +:+ show_code code)
  else
    let+ got := named "OffsetFetch" (fetch_committed_metadata conn fetch_version group topic topic_id 830) in
    match got with
    | Some got =>
        if String.eqb got METADATA then done Pass
        else fail ("committed metadata " +:+ debug_str METADATA +:+ " came back as " +:+ debug_str got +:+
                   "; the string is the client's and nothing in the round trip should touch it")
    | None =>
        fail ("committed metadata " +:+ debug_str METADATA +:+
              " came back absent, while the offset beside it came back fine — so nothing about the read looks wrong")
    end.

(** ** Offsets in a transaction *)

Definition add_offsets_to_txn (conn : RawConnection) (version : Z) (actor : TxnActor) (group : string)
    (correlation : Z) : io W CheckError Z :=
  let+ body := io_of (encode_body "encoding AddOffsetsToTxn: " version
    (AddOffsetsToTxnRequest.mk (actor_id actor) (actor_producer actor) (actor_epoch actor) group [])) in
  let+ resp := api_call AddOffsetsToTxnResponse.t conn AddOffsetsToTxnRequest.API_KEY version correlation body in
  io_ret (AddOffsetsToTxnResponse.error_code resp).

Definition txn_offset_commit (conn : RawConnection) (version : Z) (actor : TxnActor) (group topic : string)
    (offset correlation : Z) : io W CheckError Z :=
  let partition := TxnOffsetCommitRequestPartition.mk 0 offset (-1) (Some "") [] in
  let+ body := io_of (encode_body "encoding TxnOffsetCommit: " version
    (TxnOffsetCommitRequest.mk (actor_id actor) group (actor_producer actor) (actor_epoch actor) (-1) "" None
       [TxnOffsetCommitRequestTopic.mk topic [partition] []] [])) in
  let+ resp := api_call TxnOffsetCommitResponse.t conn TxnOffsetCommitRequest.API_KEY version correlation body in
  io_ret (from_option TxnOffsetCommitResponsePartition.error_code 0
            (t ← head (TxnOffsetCommitResponse.topics resp); head (TxnOffsetCommitResponseTopic.partitions t))).

Definition txn_offsets_wait_for_the_commit (ctx : ServerCtx) : check :=
  let+ versions := txn_versions ctx in
  let+ offsets_version := negotiated ctx "AddOffsetsToTxn" AddOffsetsToTxnRequest.API_KEY
                            AddOffsetsToTxnRequest.MIN_VERSION ADD_OFFSETS_CLIENT_MAX in
  let+ commit_version := negotiated ctx "TxnOffsetCommit" TxnOffsetCommitRequest.API_KEY
                           TxnOffsetCommitRequest.MIN_VERSION TXN_OFFSET_COMMIT_CLIENT_MAX in
  let+ (_, fetch_offsets_version) := offsets_versions ctx in
  let+ produced := produce_flow ctx "txnoffsets" Name in
  let topic := topic_of produced in
  let topic_id := topic_id_of produced in
  let+ id := unique_transactional_id process_id "txnoffsets" in
  let group := check_group run_id "txnoffsets" in
  let+ offsets := verdict_of (coordinator_conn ctx group) in
  let+ _ := verdict_of (await_topic_known ctx offsets topic 1055) in
  let+ (conn, identity) := named "InitProducerId" (init_producer_id ctx (init_v versions) id 1060) in
  let actor := actor_of id identity in
  let+ code := named "AddOffsetsToTxn" (add_offsets_to_txn conn offsets_version actor group 1080) in
  if negb (code =? 0) then fail ("AddOffsetsToTxn answered " +:+ show_code code)
  else
    let committed := 31 in
    let+ code := named "TxnOffsetCommit" (txn_offset_commit offsets commit_version actor group topic committed 1100) in
    if negb (code =? 0) then fail ("TxnOffsetCommit answered " +:+ show_code code)
    else
      let+ got := named "OffsetFetch (mid-transaction)"
                    (fetch_committed offsets fetch_offsets_version group topic topic_id 1120) in
      if got =? committed then
        let+ _ := io_try (end_txn conn (end_v versions) actor false 1139) in
        fail ("offset " +:+ show_int committed +:+ " was committed inside an open transaction and is already " +:+
              "readable; the input reads as processed while the output may still be thrown away")
      else
        let+ (code, _) := named "EndTxn" (end_txn_settled ctx conn (end_v versions) actor true 1140) in
        if negb (code =? 0) then fail ("committing the transaction answered " +:+ show_code code)
        else
          let+ r := settling ctx (λ attempt _,
            let+ got := named "OffsetFetch (after commit)"
              (fetch_committed offsets fetch_offsets_version group topic topic_id (correlation_at 1160 attempt)) in
            io_ret (if got =? committed then inr tt else inl tt)) tt in
          match r with
          | inr _ => done Pass
          | inl _ =>
              fail ("the transaction committed and offset " +:+ show_int committed +:+ " never became readable; the " +:+
                    "output exists and the input still reads as unprocessed, so it will be done again")
          end.

End offsets.
