(* ===== verification/ClusterChecks.v ===== *)
(** * The checks of a server: clusters and versions ([odradek-acceptance/src/checks/server.rs])

    What the brokers of a cluster have to agree on, where its replicas go, that a
    broker refuses what another one leads or coordinates; and, with a way to stop a
    broker, that leadership and committed offsets survive it.  Then the sweep: every
    version of every api that is advertised has to be answered in the shape that
    version specifies.  Its requests are built to be refused; what they are answered is
    not looked at, only that it can be read. *)
From S2P Require Import Prelude Text Budget Codec Wire Sasl Scram Frame Records Fields MessageTrait MsgConnection MsgTxn MsgGroup MsgGroupAdmin MsgOffset MsgMetadata MsgAdmin MsgFetch MsgProduce Registry Session Report Probe ServerChecks TopicChecks TxnChecks OffsetChecks.

Import metadata_request metadata_response create_topics_request create_topics_response.
Import find_coordinator_request find_coordinator_response.

(** Taking a broker away, and giving it back; a broker is named by its id and address. *)
Record ClusterControl (W : Type) : Type := mkClusterControl {
  stop_broker : Z → string → io W string unit;
  start_broker : Z → string → io W string unit;
}.
Arguments mkClusterControl {W}.
Arguments stop_broker {W}.
Arguments start_broker {W}.

Record ClusterNode : Type := mkClusterNode {
  cluster_node_id : Z;
  node_addr : string;
}.

(** The brokers of an answer that can be dialled. *)
Definition nodes_of (resp : MetadataResponse.t) : list ClusterNode :=
  (λ b, mkClusterNode (MetadataResponseBroker.node_id b)
          (show_endpoint (MetadataResponseBroker.host b) (MetadataResponseBroker.port b))) <$>
  base.filter (λ b, plausible (MetadataResponseBroker.host b) (MetadataResponseBroker.port b) = true)
    (MetadataResponse.brokers resp).

(** The leader of partition 0, its replicas, and those in sync. *)
Definition led_by (topic : string) (resp : MetadataResponse.t) : option (Z * list Z * list Z) :=
  entry ← topic_entry topic resp;
  if negb (MetadataResponseTopic.error_code entry =? 0) then None else
  p ← List.find (λ p, MetadataResponsePartition.partition_index p =? 0) (MetadataResponseTopic.partitions entry);
  if negb (MetadataResponsePartition.error_code p =? 0) then None else
  Some (MetadataResponsePartition.leader_id p, MetadataResponsePartition.replica_nodes p,
        MetadataResponsePartition.isr_nodes p).

Definition NO_CONTROL : string :=
  "no --cluster-control was given, so the suite has no way to stop a broker and no business assuming one".

Section cluster.
Context {R : Runtime} {W : Type} `{Subjects W} `{Renders}.
Context `{Stringprep, Base64, Crypto}.
Context (process_id : Z) (run_id : string) (probe_timestamp : Z) (control : option (ClusterControl W)).

Abbreviation check := (io W Verdict Verdict).
#[local] Abbreviation produce_flow := (produce_flow process_id probe_timestamp).
#[local] Abbreviation produce_stamped := (produce_stamped probe_timestamp).

Definition cluster_nodes (ctx : ServerCtx) : io W Verdict (list ClusterNode) :=
  let+ version := metadata_version_of ctx in
  let+ conn := verdict_of (open ctx (addr ctx)) in
  let+ body := encoded "encoding Metadata: " version (MetadataRequest.mk (Some []) false false false []) in
  let+ resp := named "Metadata" (api_call MetadataResponse.t conn MetadataRequest.API_KEY version 1400 body) in
  let nodes := nodes_of resp in
  if len nodes <? 2 then
    io_fail (Skipped ("the subject reports " +:+ show_int (len nodes) +:+
      " broker(s); this check is about what brokers must agree on, which a cluster of one cannot be asked"))
  else io_ret nodes.

Definition leadership_at (conn : RawConnection) (version : Z) (topic : string) (correlation : Z) :
    io W CheckError (option (Z * list Z * list Z)) :=
  let+ resp := metadata_of_topic conn version topic correlation in
  io_ret (led_by topic resp).

Definition await_coordinator (ctx : ServerCtx) (group : string) : io W CheckError (option string) :=
  await_coordinator_at ctx (addr ctx) group.

Definition create_replicated_topic (ctx : ServerCtx) (conn : RawConnection) (topic : string)
    (replicas correlation : Z) : io W Verdict unit :=
  let+ version := create_topics_version ctx in
  let+ body := encoded "encoding CreateTopics: " version (CreateTopicsRequest.mk [creatable topic replicas] 30000 false []) in
  let+ resp := named "CreateTopics" (create_topics_at_controller ctx conn version body correlation) in
  let code := first_topic_code resp in
  if negb (code =? 0) then
    io_fail (Skipped ("the subject would not create a " +:+ show_int replicas +:+ "-replica topic: " +:+ show_code code))
  else io_ret tt.

Definition settle_leadership (ctx : ServerCtx) (conn : RawConnection) (version : Z) (topic : string)
    (correlation : Z) : io W Verdict (Z * list Z) :=
  let+ r := settling ctx (λ attempt _,
    let+ found := named "Metadata" (leadership_at conn version topic (correlation_at correlation attempt)) in
    io_ret (match found with
            | Some (leader, replicas, _) => if 0 <=? leader then inr (leader, replicas) else inl tt
            | None => inl tt
            end)) tt in
  match r with
  | inr found => io_ret found
  | inl _ => io_fail (Error (topic +:+ " was created but never given a leader within the settle budget"))
  end.

(** ** Agreement *)

Definition at_node (what : string) (node : ClusterNode) : string := what +:+ show_int (cluster_node_id node).

(** What every node says of who leads, leaving out those that do not know. *)
Fixpoint leaders_named (ctx : ServerCtx) (version : Z) (topic : string) (i : Z) (nodes : list ClusterNode) :
    io W Verdict (list (Z * Z)) :=
  match nodes with
  | [] => io_ret []
  | node :: nodes =>
      let+ conn := named (at_node "connecting to node " node) (open ctx (node_addr node)) in
      let correlation := correlation_at 1410 i in
      let+ _ := verdict_of (await_topic_known ctx conn topic correlation) in
      let+ found := named (at_node "Metadata at node " node) (leadership_at conn version topic (correlation + 100)) in
      let+ answers := leaders_named ctx version topic (i + 1) nodes in
      io_ret (match found with
              | Some (leader, _, _) => (cluster_node_id node, leader) :: answers
              | None => answers
              end)
  end.

Definition cluster_brokers_agree_on_the_leader (ctx : ServerCtx) : check :=
  let+ nodes := cluster_nodes ctx in
  let+ version := metadata_version_of ctx in
  let+ produced := produce_flow ctx "agreeleader" Name in
  let topic := topic_of produced in
  let+ answers := leaders_named ctx version topic 0 nodes in
  match answers with
  | [] | [_] =>
      io_fail (Skipped ("only " +:+ show_int (len answers) +:+ " broker(s) could describe " +:+ topic +:+
        " within the settle budget, so there is no disagreement to detect"))
  | (asked, first) :: _ =>
      match List.find (λ a, negb (a.2 =? first)) answers with
      | Some (node_id, leader) =>
          fail ("brokers disagree about who leads " +:+ topic +:+ "[0]: node " +:+ show_int node_id +:+ " says " +:+
                show_int leader +:+ ", node " +:+ show_int asked +:+ " says " +:+ show_int first +:+
                ". Two clients refreshing metadata against different brokers would write to different leaders")
      | None => done Pass
      end
  end.

(** The same of the group's coordinator. *)
Fixpoint coordinators_named (ctx : ServerCtx) (version : Z) (body : list byte) (i : Z) (nodes : list ClusterNode) :
    io W Verdict (list (Z * string)) :=
  match nodes with
  | [] => io_ret []
  | node :: nodes =>
      let+ conn := named (at_node "connecting to node " node) (open ctx (node_addr node)) in
      let+ resp := named (at_node "FindCoordinator at node " node)
        (api_call FindCoordinatorResponse.t conn FindCoordinatorRequest.API_KEY version (correlation_at 1430 i) body) in
      let+ answers := coordinators_named ctx version body (i + 1) nodes in
      io_ret (if is_coordinator_settling (coordinator_error resp version) then answers
              else match coordinator_endpoint resp version with
                   | Some endpoint => (cluster_node_id node, endpoint) :: answers
                   | None => answers
                   end)
  end.

Definition cluster_brokers_agree_on_the_coordinator (ctx : ServerCtx) : check :=
  let+ nodes := cluster_nodes ctx in
  let+ version := negotiated ctx "FindCoordinator" FindCoordinatorRequest.API_KEY FindCoordinatorRequest.MIN_VERSION
                    FindCoordinatorRequest.MAX_VERSION in
  let group := check_group run_id "agreecoord" in
  let+ _ := verdict_of (await_coordinator ctx group) in
  let+ body := encoded "encoding FindCoordinator: " version (find_coordinator_request_of version group) in
  let+ answers := coordinators_named ctx version body 0 nodes in
  match answers with
  | [] | [_] =>
      io_fail (Skipped ("only " +:+ show_int (len answers) +:+ " broker(s) named a coordinator for " +:+ group +:+
        ", so there is no disagreement to detect"))
  | (asked, first) :: _ =>
      match List.find (λ a, negb (String.eqb a.2 first)) answers with
      | Some (node_id, endpoint) =>
          fail ("brokers disagree about who coordinates " +:+ group +:+ ": node " +:+ show_int node_id +:+ " says " +:+
                endpoint +:+ ", node " +:+ show_int asked +:+ " says " +:+ first +:+
                ". The group's offsets would be split across brokers by which one each member asked")
      | None => done Pass
      end
  end.

(** ** Replicas *)

Definition judge_replicas (topic : string) (wanted : Z) (known : list Z) (leader : Z) (replicas isr : list Z) : Verdict :=
  if negb (bool_decide (NoDup replicas)) then
    Fail (topic +:+ "[0] asked for " +:+ show_int wanted +:+ " replicas and was given " +:+ debug_ints replicas +:+
          " — the same broker more than once, so the copies share a disk")
  else if negb (len replicas =? default 0 (try_from 0 65535 wanted)) then
    Fail (topic +:+ "[0] was created asking for " +:+ show_int wanted +:+ " replicas and is reported on " +:+
          debug_ints replicas +:+ "; the cluster has brokers " +:+ debug_ints known)
  else
    match List.find (λ r, negb (bool_decide (r ∈ known))) replicas with
    | Some stranger =>
        Fail (topic +:+ "[0] names replica " +:+ show_int stranger +:+
              ", which is not one of the brokers the same cluster reports (" +:+ debug_ints known +:+ ")")
    | None =>
        if negb (bool_decide (leader ∈ replicas)) then
          Fail (topic +:+ "[0] is led by " +:+ show_int leader +:+ ", which is not among its replicas " +:+
                debug_ints replicas +:+ "; the leader holds a copy by definition")
        else
          match List.find (λ r, negb (bool_decide (r ∈ replicas))) isr with
          | Some stranger =>
              Fail (topic +:+ "[0] reports " +:+ show_int stranger +:+ " in sync, which is not one of its replicas " +:+
                    debug_ints replicas)
          | None => Pass
          end
    end.

Definition cluster_replicas_span_brokers (ctx : ServerCtx) : check :=
  let+ nodes := cluster_nodes ctx in
  let+ create_version := create_topics_version ctx in
  let+ metadata_version := metadata_version_of ctx in
  let known := cluster_node_id <$> nodes in
  let wanted := default i16_max (try_from (-32768) i16_max (len nodes)) in
  let+ conn := verdict_of (open ctx (addr ctx)) in
  let+ topic := unique_topic process_id "spanned" in
  let+ body := encoded "encoding CreateTopics: " create_version
                 (CreateTopicsRequest.mk [creatable topic wanted] 30000 false []) in
  let+ resp := named "CreateTopics" (create_topics_at_controller ctx conn create_version body 1450) in
  let code := first_topic_code resp in
  if negb (code =? 0) then
    io_fail (Skipped ("the subject would not create a " +:+ show_int wanted +:+ "-replica topic on its " +:+
      show_int (len nodes) +:+ " broker(s): " +:+ show_code code))
  else
    let+ r := settling ctx (λ attempt _,
      let+ found := named "Metadata" (leadership_at conn metadata_version topic (correlation_at 1460 attempt)) in
      io_ret (match found with Some found => inr found | None => inl tt end)) tt in
    match r with
    | inl _ => io_ret (Error (topic +:+ " was created but never described within the settle budget"))
    | inr (leader, replicas, isr) => done (judge_replicas topic wanted known leader replicas isr)
    end.

(** ** The wrong broker *)

Definition cluster_writes_go_to_the_leader (ctx : ServerCtx) : check :=
  let+ nodes := cluster_nodes ctx in
  let+ produce_version := produce_version_of ctx Name in
  let+ metadata_version := metadata_version_of ctx in
  let+ produced := produce_flow ctx "notleader" Name in
  let topic := topic_of produced in
  let+ conn := verdict_of (open ctx (addr ctx)) in
  let+ found := named "Metadata" (leadership_at conn metadata_version topic 1470) in
  match found with
  | None => io_ret (Error (topic +:+ " has no described leader"))
  | Some (leader, _, _) =>
      match List.find (λ n, negb (cluster_node_id n =? leader)) nodes with
      | None =>
          io_fail (Skipped ("every broker the subject reports is node " +:+ show_int leader +:+
            ", so there is no non-leader to send to"))
      | Some other =>
          let+ conn := verdict_of (open ctx (node_addr other)) in
          let+ (code, _) := named "Produce (to a non-leader)"
            (produce_stamped conn produce_version plain_stamp topic 0 1480) in
          if code =? error_code.NOT_LEADER_OR_FOLLOWER then done Pass
          else if code =? 0 then
            fail (at_node "node " other +:+ " accepted a write to " +:+ topic +:+ "[0], which node " +:+
                  show_int leader +:+ " leads; those records are in a log the leader does not have, and the " +:+
                  "producer was told nothing")
          else
            fail (at_node "node " other +:+ " refused a write to " +:+ topic +:+ "[0] with " +:+ show_code code +:+
                  " rather than NOT_LEADER_OR_FOLLOWER, so the producer is not told to re-read metadata and find node " +:+
                  show_int leader)
      end
  end.

(** One attempt: the verdict, or nothing when the coordinator moved onto the broker
    that was asked. *)
Definition commit_elsewhere (ctx : ServerCtx) (nodes : list ClusterNode) (produced : ProducedTopic W)
    (commit_version : Z) (group : string) (correlation : Z) : io W Verdict (unit + Verdict) :=
  let+ located := verdict_of (await_coordinator ctx group) in
  match located with
  | None => io_fail (Skipped ("the subject named no coordinator for " +:+ group))
  | Some coordinator =>
      match List.find (λ n, negb (String.eqb (node_addr n) coordinator)) nodes with
      | None =>
          io_fail (Skipped ("every broker the subject reports is at " +:+ coordinator +:+
            ", so there is no non-coordinator to commit against"))
      | Some other =>
          let+ conn := verdict_of (open ctx (node_addr other)) in
          let+ _ := verdict_of (await_topic_known ctx conn (topic_of produced) correlation) in
          let+ r := io_try (commit_offset conn commit_version group (topic_of produced) (topic_id_of produced) 13
                              (correlation + 1)) in
          match r with
          | Ok _ =>
              let+ moved := verdict_of (await_coordinator_at ctx (node_addr other) group) in
              if bool_decide (moved = Some (node_addr other)) then io_ret (inl tt)
              else
                fail (at_node "node " other +:+ " accepted a commit for " +:+ group +:+ ", which " +:+ coordinator +:+
                      " coordinates and still does; a consumer resuming through the coordinator would never see that " +:+
                      "offset and would reprocess everything after it")
          | Err (Violation details) =>
              if mentions (show_code error_code.NOT_COORDINATOR) details then io_ret (inr Pass)
              else
                fail (at_node "node " other +:+ " refused the commit, but not with NOT_COORDINATOR, so the client is " +:+
                      "not told where to go instead: " +:+ details)
          | Err e => io_fail (into_verdict (context "OffsetCommit (to a non-coordinator)" e))
          end
      end
  end.

Definition cluster_group_offsets_need_the_coordinator (ctx : ServerCtx) : check :=
  let+ nodes := cluster_nodes ctx in
  let+ (commit_version, _) := offsets_versions ctx in
  let+ produced := produce_flow ctx "notcoord" Name in
  let+ _ := skip_without_topic_id produced commit_version in
  let group := check_group run_id "notcoord" in
  let+ r := settling ctx (λ attempt _,
    commit_elsewhere ctx nodes produced commit_version group
      (sint 32 (1490 + sint 32 (default 0 (try_from i32_min i32_max attempt) * 4)))) tt in
  match r with
  | inr v => done v
  | inl _ =>
      io_fail (Skipped ("the coordinator for " +:+ group +:+ " moved onto the broker chosen for not being it, on " +:+
        "every attempt within " +:+ debug_ms (settle_budget (config ctx))))
  end.

(** ** With a broker stopped *)

(** The broker is started again whatever the body comes to; failing at that outranks
    it. *)
Definition while_stopped (node : Z) (address : string) (body : check) : check :=
  match control with
  | None => io_fail (Skipped NO_CONTROL)
  | Some c =>
      let+ _ := io_map_err (λ e, Error ("could not stop node " +:+ show_int node +:+ " at " +:+ address +:+ ": " +:+ e))
                  (stop_broker c node address) in
      let+ verdict := (λ w, let (v, w) := run_check body w in (Ok v, w)) in
      let+ r := io_try (start_broker c node address) in
      io_ret (match r with
        | Ok _ => verdict
        | Err e =>
            Error ("node " +:+ show_int node +:+ " could not be restarted after the check (" +:+ e +:+
              "); the cluster is short a broker and every later check is suspect. The check itself had reached: " +:+
              debug_verdict verdict)
        end)
  end.

Definition controlled : io W Verdict unit :=
  match control with Some _ => io_ret tt | None => io_fail (Skipped NO_CONTROL) end.

(** What leadership has to come to with the leader stopped. *)
Definition leadership_moved (ctx : ServerCtx) (nodes : list ClusterNode) (metadata_version produce_version : Z)
    (topic survivor : string) (leader : Z) (replicas : list Z) : check :=
  let+ conn := named "connecting to a surviving broker" (open ctx survivor) in
  let+ moved := recovering ctx (λ _ _,
    let+ r := io_try (leadership_at conn metadata_version topic 1520) in
    io_ret (match r with
      | Ok (Some (new_leader, _, _)) =>
          if negb (new_leader =? leader) && (0 <=? new_leader) then inr new_leader else inl tt
      | _ => inl tt
      end)) tt in
  match moved with
  | inl _ =>
      fail ("node " +:+ show_int leader +:+ " was stopped and " +:+ topic +:+ "[0] still has no other leader after " +:+
            debug_ms (recovery_budget (config ctx)) +:+ "; its replicas were " +:+ debug_ints replicas +:+
            ", so there was somewhere for leadership to go and it did not")
  | inr new_leader =>
      if negb (bool_decide (new_leader ∈ replicas)) then
        fail (topic +:+ "[0] failed over to node " +:+ show_int new_leader +:+
              ", which was not among the replicas the cluster named while healthy (" +:+ debug_ints replicas +:+
              "); that broker cannot have had the data")
      else
        match List.find (λ n, cluster_node_id n =? new_leader) nodes with
        | None =>
            fail (topic +:+ "[0] failed over to node " +:+ show_int new_leader +:+
                  ", which is not one of the brokers the cluster reports")
        | Some node =>
            let+ leader_conn := named "connecting to the new leader" (open ctx (node_addr node)) in
            let+ accepted := recovering ctx (λ _ last,
              let+ r := io_try (produce_stamped leader_conn produce_version plain_stamp topic 0 1530) in
              io_ret (match r with
                | Ok (code, _) => if code =? 0 then inr tt else inl code
                | Err _ => inl last
                end)) 0 in
            match accepted with
            | inr _ => done Pass
            | inl last =>
                fail (topic +:+ "[0] reports node " +:+ show_int new_leader +:+ " as its leader with node " +:+
                      show_int leader +:+ " stopped, but a write there answers " +:+ show_code last +:+
                      "; the partition has a leader in name only")
            end
        end
  end.

Definition cluster_leadership_moves_when_a_broker_stops (ctx : ServerCtx) : check :=
  let+ nodes := cluster_nodes ctx in
  let+ _ := controlled in
  let+ metadata_version := metadata_version_of ctx in
  let+ produce_version := produce_version_of ctx Name in
  let+ topic := unique_topic process_id "failover" in
  let wanted := default 1 (try_from (-32768) i16_max (len nodes)) in
  let+ bootstrap := verdict_of (open ctx (addr ctx)) in
  let+ _ := create_replicated_topic ctx bootstrap topic wanted 1500 in
  let+ (leader, replicas) := settle_leadership ctx bootstrap metadata_version topic 1510 in
  match List.find (λ n, cluster_node_id n =? leader) nodes with
  | None =>
      fail (topic +:+ "[0] is led by node " +:+ show_int leader +:+
            ", which is not one of the brokers the same cluster reports")
  | Some led =>
      match List.find (λ n, negb (cluster_node_id n =? leader)) nodes with
      | None =>
          io_fail (Skipped ("every broker is node " +:+ show_int leader +:+ ", so stopping it leaves nobody to ask"))
      | Some survivor =>
          while_stopped leader (node_addr led)
            (leadership_moved ctx nodes metadata_version produce_version topic (node_addr survivor) leader replicas)
      end
  end.

(** What the group's offset has to be with its coordinator stopped. *)
Definition offsets_outlive (ctx : ServerCtx) (fetch_version : Z) (group topic : string) (topic_id : list byte)
    (owner_id : Z) (coordinator survivor : string) (committed : Z) : check :=
  let budget := debug_ms (recovery_budget (config ctx)) in
  let+ conn := named "connecting to a surviving broker" (open ctx survivor) in
  let+ relocated := recovering ctx (λ _ _,
    let+ r := io_try (await_coordinator_at ctx survivor group) in
    io_ret (match r with
      | Ok (Some address) => if negb (String.eqb address coordinator) then inr address else inl tt
      | _ => inl tt
      end)) tt in
  match relocated with
  | inl _ =>
      fail ("node " +:+ show_int owner_id +:+ " coordinated " +:+ group +:+ " and was stopped; after " +:+ budget +:+
            " the cluster still names no other coordinator, so the group cannot commit or resume at all")
  | inr address =>
      let+ reconnected := io_try (open ctx address) in
      let conn := match reconnected with Ok c => c | Err _ => conn end in
      let+ r := recovering ctx (λ _ _,
        let+ r := io_try (fetch_committed conn fetch_version group topic topic_id 1550) in
        match r with
        | Ok got => io_ret (if got =? committed then inr tt else inl (Some ("reports " +:+ show_int got)))
        | Err (Violation details) => io_ret (inl (Some details))
        | Err e => io_fail (into_verdict (context "OffsetFetch (after failover)" e))
        end) None in
      match r with
      | inr _ => done Pass
      | inl last =>
          fail (group +:+ " committed offset " +:+ show_int committed +:+ ", node " +:+ show_int owner_id +:+
                " (its coordinator) was stopped, and the new coordinator at " +:+ address +:+ " still " +:+
                default "says nothing about it" last +:+ " after " +:+ budget +:+
                ". A consumer resuming here reprocesses everything since")
      end
  end.

Definition cluster_committed_offsets_outlive_the_coordinator (ctx : ServerCtx) : check :=
  let+ nodes := cluster_nodes ctx in
  let+ _ := controlled in
  let+ (commit_version, fetch_version) := offsets_versions ctx in
  let+ produced := produce_flow ctx "coordloss" Name in
  let+ _ := skip_without_topic_id produced commit_version in
  let group := check_group run_id "coordloss" in
  let+ located := verdict_of (await_coordinator ctx group) in
  match located with
  | None => io_fail (Skipped ("the subject named no coordinator for " +:+ group))
  | Some _ =>
      let committed := 23 in
      let+ conn := named "OffsetCommit" (commit_offset_settled ctx group produced committed commit_version 1540) in
      let coordinator := peer conn in
      match List.find (λ n, String.eqb (node_addr n) coordinator) nodes with
      | None =>
          io_fail (Skipped ("the coordinator for " +:+ group +:+ " is at " +:+ coordinator +:+
            ", which is not one of the brokers Metadata reports, so there is no node to stop"))
      | Some owner =>
          match List.find (λ n, negb (cluster_node_id n =? cluster_node_id owner)) nodes with
          | None =>
              io_fail (Skipped "the coordinator is the only broker, so stopping it leaves nobody to ask")
          | Some survivor =>
              while_stopped (cluster_node_id owner) coordinator
                (offsets_outlive ctx fetch_version group (topic_of produced) (topic_id_of produced)
                   (cluster_node_id owner) coordinator (node_addr survivor) committed)
          end
      end
  end.

End cluster.

(** ** Every advertised version *)

Import join_group_request join_group_response sync_group_request sync_group_response.
Import heartbeat_request heartbeat_response leave_group_request leave_group_response.
Import consumer_group_heartbeat_request consumer_group_heartbeat_response.
Import add_offsets_to_txn_request add_offsets_to_txn_response txn_offset_commit_request txn_offset_commit_response.
Import end_txn_request end_txn_response offset_commit_request offset_commit_response.
Import sasl_handshake_request sasl_handshake_response sasl_authenticate_request sasl_authenticate_response.
Import create_topics_request produce_request fetch_request fetch_response.

Definition PRODUCE_RECORD_BATCH_MIN : Z := 3.
Definition SWEEP_MEMBER : string := "odradek-sweep-member".
Definition SWEEP_TXN : string := "odradek-sweep-txn".
Definition SWEEP_PRODUCER_ID : Z := 987654321.

(** What was swept so far, and what could not be spoken. *)
Record Sweep : Type := mkSweep {
  swept : list string;
  failures : list string;
}.

Definition show_version (version : Z) : string := "v" +:+ show_int version.

Definition span (versions : list Z) : string :=
  match head versions, last versions with
  | Some first, Some last =>
      if negb (first =? last) then show_version first +:+ "-" +:+ show_int last else show_version first
  | Some only, None => show_version only
  | None, _ => "none"
  end.

Section sweep.
Context {R : Runtime} {W : Type} `{Subjects W} `{Renders}.
Context `{Stringprep, Base64, Crypto}.
Context (process_id : Z) (run_id : string) (probe_timestamp : Z).

Abbreviation check := (io W Verdict Verdict).

Definition versions_of (ctx : ServerCtx) (api_key : Z) (api : string) (min max : Z) : result Verdict (list Z) :=
  let? advertised := range ctx api_key in negotiate_all api advertised min max.

(** The failures of the versions of one api. *)
Fixpoint sweep_each (label : Z → string) (attempt : Z → io W Verdict (result CheckError unit)) (versions : list Z) :
    io W Verdict (list string) :=
  match versions with
  | [] => io_ret []
  | version :: versions =>
      let+ r := attempt version in
      let+ rest := sweep_each label attempt versions in
      io_ret (match r with Ok _ => rest | Err e => (label version +:+ ": " +:+ details_of e) :: rest end)
  end.

Definition sweep_api (ctx : ServerCtx) (api_key : Z) (api : string) (min max : Z) (title : string) (label : Z → string)
    (attempt : Z → io W Verdict (result CheckError unit)) (s : Sweep) : io W Verdict Sweep :=
  match versions_of ctx api_key api min max with
  | Err _ => io_ret s
  | Ok versions =>
      let+ failed := sweep_each label attempt versions in
      io_ret (mkSweep (swept s ++ [title +:+ " " +:+ span versions]) (failures s ++ failed))
  end.

Definition plain_label (api : string) (version : Z) : string := api +:+ " " +:+ show_version version.

(** [sweep_sequence]: a connection that cannot be opened is one more failure. *)
Definition sweep_sequence (ctx : ServerCtx) (address : string) (api_key : Z) (api : string) (min max base : Z)
    (exchange : RawConnection → Z → Z → io W CheckError unit) (s : Sweep) : io W Verdict Sweep :=
  sweep_api ctx api_key api min max api (plain_label api)
    (λ version, io_try (let+ conn := open ctx address in exchange conn version (base + version))) s.

(** An exchange of which only the shape matters. *)
Definition shape_of {Req} `{Message Req} (Resp : Type) `{Message Resp} (what : string) (conn : RawConnection)
    (version correlation : Z) (request : Req) : io W CheckError unit :=
  let+ body := io_of (encode_body ("encoding " +:+ what +:+ ": ") version request) in
  let+ _ := api_call Resp conn (Message.API_KEY (M := Req)) version correlation body in
  io_ret tt.

Definition sweep_fetch_by_id (conn : RawConnection) (version : Z) (topic_id : list byte) (correlation : Z) :
    io W CheckError unit :=
  shape_of FetchResponse.t "Fetch" conn version correlation (fetch_of "" topic_id 0 0 500 0 (Z.shiftl 1 22) 0).

Definition sweep_offset_commit (conn : RawConnection) (version : Z) (group topic : string) (topic_id : list byte)
    (correlation : Z) : io W CheckError unit :=
  shape_of OffsetCommitResponse.t "OffsetCommit" conn version correlation
    (commit_request version group topic topic_id 1 (Some "")).

Definition sweep_join_group (group : string) (conn : RawConnection) (version correlation : Z) : io W CheckError unit :=
  shape_of JoinGroupResponse.t "JoinGroup" conn version correlation
    (JoinGroupRequest.mk group 1 1 "" None "consumer"
       [JoinGroupRequestProtocol.mk "range" (replicate 6 Byte.x00) []] None []).

Definition sweep_sync_group (group : string) (conn : RawConnection) (version correlation : Z) : io W CheckError unit :=
  shape_of SyncGroupResponse.t "SyncGroup" conn version correlation
    (SyncGroupRequest.mk group (-1) SWEEP_MEMBER None None None [] []).

Definition sweep_heartbeat (group : string) (conn : RawConnection) (version correlation : Z) : io W CheckError unit :=
  shape_of HeartbeatResponse.t "Heartbeat" conn version correlation
    (HeartbeatRequest.mk group (-1) SWEEP_MEMBER None []).

Definition sweep_leave_group (group : string) (conn : RawConnection) (version correlation : Z) : io W CheckError unit :=
  shape_of LeaveGroupResponse.t "LeaveGroup" conn version correlation
    (LeaveGroupRequest.mk group SWEEP_MEMBER [MemberIdentity.mk SWEEP_MEMBER None None []] []).

Definition sweep_consumer_group_heartbeat (group : string) (conn : RawConnection) (version correlation : Z) :
    io W CheckError unit :=
  shape_of ConsumerGroupHeartbeatResponse.t "ConsumerGroupHeartbeat" conn version correlation
    (ConsumerGroupHeartbeatRequest.mk group SWEEP_MEMBER 99 None None (-1) None None None None []).

Definition sweep_add_offsets_to_txn (group : string) (conn : RawConnection) (version correlation : Z) :
    io W CheckError unit :=
  shape_of AddOffsetsToTxnResponse.t "AddOffsetsToTxn" conn version correlation
    (AddOffsetsToTxnRequest.mk SWEEP_TXN SWEEP_PRODUCER_ID 0 group []).

Definition sweep_end_txn (conn : RawConnection) (version correlation : Z) : io W CheckError unit :=
  shape_of EndTxnResponse.t "EndTxn" conn version correlation
    (EndTxnRequest.mk SWEEP_TXN SWEEP_PRODUCER_ID 0 false []).

Definition sweep_txn_offset_commit (group topic : string) (conn : RawConnection) (version correlation : Z) :
    io W CheckError unit :=
  shape_of TxnOffsetCommitResponse.t "TxnOffsetCommit" conn version correlation
    (TxnOffsetCommitRequest.mk SWEEP_TXN group SWEEP_PRODUCER_ID 0 (-1) "" None
       [TxnOffsetCommitRequestTopic.mk topic [TxnOffsetCommitRequestPartition.mk 0 1 (-1) (Some "") []] []] []).

Definition sweep_sasl_handshake (conn : RawConnection) (version correlation : Z) : io W CheckError unit :=
  shape_of SaslHandshakeResponse.t "SaslHandshake" conn version correlation (SaslHandshakeRequest.mk "ODRADEK-SWEEP" []).

Definition sweep_sasl_authenticate (conn : RawConnection) (version correlation : Z) : io W CheckError unit :=
  shape_of SaslAuthenticateResponse.t "SaslAuthenticate" conn version correlation
    (SaslAuthenticateRequest.mk (str_bytes "odradek-sweep") []).

(** ** The sweep *)

(** Produce by name, Fetch by id, OffsetCommit and CreateTopics: a connection per
    version, which ends the check when it cannot be opened. *)
Definition sweep_records (ctx : ServerCtx) (produced : ProducedTopic W) (s : Sweep) : io W Verdict Sweep :=
  let topic := topic_of produced in
  let topic_id := topic_id_of produced in
  let+ s := sweep_api ctx ProduceRequest.API_KEY "Produce" PRODUCE_RECORD_BATCH_MIN PRODUCE_NAME_MAX "Produce"
    (plain_label "Produce") (λ version,
      let+ conn := verdict_of (open ctx (produced_at produced)) in
      io_try (let+ _ := produce_stamped probe_timestamp conn version plain_stamp topic 0 (1600 + version) in io_ret tt)) s in
  let+ s := (if bool_decide (topic_id = ZERO_ID) then io_ret s else
    sweep_api ctx FetchRequest.API_KEY "Fetch" FETCH_ID_MIN FetchRequest.MAX_VERSION "Fetch-by-id"
      (λ version, plain_label "Fetch" version +:+ " (by id)") (λ version,
        let+ conn := verdict_of (open ctx (produced_at produced)) in
        io_try (sweep_fetch_by_id conn version topic_id (1640 + version))) s) in
  let group := check_group run_id "sweep" in
  let commit_max := if bool_decide (topic_id = ZERO_ID) then OFFSETS_BY_TOPIC_ID - 1 else OffsetCommitRequest.MAX_VERSION in
  let+ s := sweep_api ctx OffsetCommitRequest.API_KEY "OffsetCommit" OffsetCommitRequest.MIN_VERSION commit_max
    "OffsetCommit" (plain_label "OffsetCommit") (λ version,
      let+ conn := named "locating the group coordinator" (coordinator_conn ctx group) in
      io_try (sweep_offset_commit conn version group topic topic_id (1680 + version))) s in
  sweep_api ctx CreateTopicsRequest.API_KEY "CreateTopics" CreateTopicsRequest.MIN_VERSION
    CreateTopicsRequest.MAX_VERSION "CreateTopics" (plain_label "CreateTopics") (λ version,
      let+ conn := verdict_of (open ctx (addr ctx)) in
      let+ name := unique_topic process_id ("sweepct" +:+ show_int version) in
      io_try (let+ _ := create_topic_call ctx conn version name true (1720 + version * 4) in io_ret tt)) s.

Definition sweep_sequences (ctx : ServerCtx) (produced : ProducedTopic W) (s : Sweep) : io W Verdict Sweep :=
  let at_ := produced_at produced in
  let group := check_group run_id "sweepseq" in
  let+ s := sweep_sequence ctx at_ JoinGroupRequest.API_KEY "JoinGroup" JoinGroupRequest.MIN_VERSION
    JoinGroupRequest.MAX_VERSION 1700 (sweep_join_group group) s in
  let+ s := sweep_sequence ctx at_ SyncGroupRequest.API_KEY "SyncGroup" SyncGroupRequest.MIN_VERSION
    SyncGroupRequest.MAX_VERSION 1720 (sweep_sync_group group) s in
  let+ s := sweep_sequence ctx at_ HeartbeatRequest.API_KEY "Heartbeat" HeartbeatRequest.MIN_VERSION
    HeartbeatRequest.MAX_VERSION 1740 (sweep_heartbeat group) s in
  let+ s := sweep_sequence ctx at_ LeaveGroupRequest.API_KEY "LeaveGroup" LeaveGroupRequest.MIN_VERSION
    LeaveGroupRequest.MAX_VERSION 1760 (sweep_leave_group group) s in
  let+ s := sweep_sequence ctx at_ ConsumerGroupHeartbeatRequest.API_KEY "ConsumerGroupHeartbeat"
    ConsumerGroupHeartbeatRequest.MIN_VERSION ConsumerGroupHeartbeatRequest.MAX_VERSION 1780
    (sweep_consumer_group_heartbeat group) s in
  let+ s := sweep_sequence ctx at_ AddOffsetsToTxnRequest.API_KEY "AddOffsetsToTxn" AddOffsetsToTxnRequest.MIN_VERSION
    AddOffsetsToTxnRequest.MAX_VERSION 1800 (sweep_add_offsets_to_txn group) s in
  let+ s := sweep_sequence ctx at_ EndTxnRequest.API_KEY "EndTxn" EndTxnRequest.MIN_VERSION
    EndTxnRequest.MAX_VERSION 1820 sweep_end_txn s in
  let+ s := sweep_sequence ctx at_ TxnOffsetCommitRequest.API_KEY "TxnOffsetCommit" TxnOffsetCommitRequest.MIN_VERSION
    TxnOffsetCommitRequest.MAX_VERSION 1840 (sweep_txn_offset_commit group (topic_of produced)) s in
  let+ s := sweep_sequence ctx (default (addr ctx) (sasl_addr ctx)) SaslHandshakeRequest.API_KEY "SaslHandshake"
    SaslHandshakeRequest.MIN_VERSION SaslHandshakeRequest.MAX_VERSION 1860 sweep_sasl_handshake s in
  sweep_sequence ctx (addr ctx) SaslAuthenticateRequest.API_KEY "SaslAuthenticate"
    SaslAuthenticateRequest.MIN_VERSION SaslAuthenticateRequest.MAX_VERSION 1880 sweep_sasl_authenticate s.

Definition versions_advertised_are_speakable (ctx : ServerCtx) : check :=
  let+ produced := produce_flow process_id probe_timestamp ctx "sweep" Name in
  let+ s := sweep_records ctx produced (mkSweep [] []) in
  let+ s := sweep_sequences ctx produced s in
  if bool_decide (swept s = []) then io_fail (Skipped "the subject advertises none of the apis this sweeps")
  else if bool_decide (failures s = []) then done Pass
  else
    fail (show_int (len (failures s)) +:+ " advertised version(s) could not be spoken. Swept " +:+
          String.concat ", " (swept s) +:+ ". " +:+ String.concat "; " (failures s)).

End sweep.
