(* ===== verification/Catalog.v ===== *)
(** * The catalog of checks ([odradek-acceptance/src/checks/server.rs], [checks/mod.rs])

    Checks are data: a stable id, the requirement, and what verifies it.  A run goes
    through the catalog in its order, over a context that was discovered once, and
    reports on the checks that were selected. *)
From S2P Require Import Prelude Text Budget Codec Wire MessageTrait Sasl Scram Report Compression Probe ServerChecks TopicChecks TxnChecks OffsetChecks ClusterChecks.

Section catalog.
Context {R : Runtime} {W : Type} `{Subjects W} `{Renders}.
Context `{Stringprep, Base64, Crypto, Codecs}.
Context (CARGO_PKG_VERSION : string) (process_id : Z) (run_id : string) (probe_timestamp : Z) (lossy : list byte → text)
  (control : option (ClusterControl W)).

Record Check : Type := mkCheck {
  check_id : string;
  check_requirement : string;
  runner : ServerCtx → io W Verdict Verdict;
}.

(** The server checks, in run order. *)
Definition SERVER_CHECKS : list Check := [
  mkCheck "api-versions/v0-basic"
     ("responds to ApiVersions v0 with error NONE, advertises ApiVersions itself, and every advertised " +:+
      "range has min <= max")
     (λ ctx, v0_basic CARGO_PKG_VERSION ctx);
  mkCheck "api-versions/correlation-echo"
     ("echoes the request correlation id, including unusual values")
     (λ ctx, correlation_echo CARGO_PKG_VERSION ctx);
  mkCheck "api-versions/flexible-v3"
     ("answers a flexible (v3+) ApiVersions request, including the tagged-field sections, with a v0 " +:+
      "response header")
     (λ ctx, flexible_v3 CARGO_PKG_VERSION ctx);
  mkCheck "api-versions/unsupported-version-error"
     ("rejects an ApiVersions request newer than it supports with UNSUPPORTED_VERSION in a v0-encoded " +:+
      "response that advertises the supported range")
     (λ ctx, unsupported_version CARGO_PKG_VERSION ctx);
  mkCheck "metadata/basic"
     ("answers a Metadata request naming no topics with a non-empty brokers list (unique node ids, " +:+
      "valid ports) and no topics the client did not ask about")
     (λ ctx, metadata_basic ctx);
  mkCheck "metadata/flexible-response-header"
     ("answers a flexible (v9+) Metadata request with a v1 response header carrying the tagged-fields " +:+
      "section — the ApiVersions always-v0 quirk does not apply to other apis")
     (λ ctx, metadata_flexible_header ctx);
  mkCheck "produce/basic"
     ("accepts a produce (acks=-1) of one well-formed record batch to a freshly created topic with " +:+
      "error NONE and assigns it base offset 0")
     (λ ctx, produce_basic process_id probe_timestamp ctx);
  mkCheck "fetch/batch-integrity"
     ("a fetch returns the produced record batch byte-identical from the magic byte onward (crc " +:+
      "included) — only base_offset and partition_leader_epoch, which sit outside the crc, may be " +:+
      "rewritten")
     (λ ctx, fetch_batch_integrity process_id probe_timestamp ctx);
  mkCheck "produce/topic-id"
     ("accepts a topic-id-addressed produce (v13+) to a fresh topic, the id learned from CreateTopics, " +:+
      "with error NONE")
     (λ ctx, produce_topic_id process_id probe_timestamp ctx);
  mkCheck "fetch/topic-id"
     ("serves a topic-id-addressed fetch (v13+), echoing the requested topic id and returning the " +:+
      "produced batch intact")
     (λ ctx, fetch_topic_id process_id probe_timestamp ctx);
  mkCheck "list-offsets/earliest-latest"
     ("answers timestamp -2 with the log start and -1 with the log end, so that the span between them " +:+
      "is exactly the records produced")
     (λ ctx, list_offsets_earliest_latest process_id probe_timestamp ctx);
  mkCheck "find-coordinator/group"
     ("names a reachable coordinator for a group key, answering in the shape the negotiated version " +:+
      "defines (v4+ echoes each requested key in `coordinators`)")
     (λ ctx, find_coordinator_group run_id ctx);
  mkCheck "offsets/commit-fetch-roundtrip"
     ("returns from OffsetFetch exactly the offset OffsetCommit was given for that group, topic and " +:+
      "partition")
     (λ ctx, offsets_commit_fetch_roundtrip process_id run_id probe_timestamp ctx);
  mkCheck "offsets/unset-is-sentinel"
     ("reports a partition a group never committed as offset -1 with no error, rather than as 0 or as " +:+
      "a failure")
     (λ ctx, offsets_unset_is_sentinel process_id run_id probe_timestamp ctx);
  mkCheck "fetch/offset-out-of-range"
     ("answers a fetch past the high watermark with OFFSET_OUT_OF_RANGE rather than with an empty " +:+
      "batch set")
     (λ ctx, fetch_offset_out_of_range process_id probe_timestamp ctx);
  mkCheck "metadata/unknown-topic"
     ("names a topic it does not have in the response, carrying UNKNOWN_TOPIC_OR_PARTITION, rather " +:+
      "than omitting it")
     (λ ctx, metadata_unknown_topic process_id ctx);
  mkCheck "create-topics/duplicate"
     ("refuses a second CreateTopics for an existing topic with TOPIC_ALREADY_EXISTS")
     (λ ctx, create_topics_duplicate process_id ctx);
  mkCheck "create-topics/validate-only"
     ("a validate_only request reports what would happen without creating the topic")
     (λ ctx, create_topics_validate_only process_id ctx);
  mkCheck "groups/member-id-required"
     ("refuses a JoinGroup (v4+) that carries no member id, answering MEMBER_ID_REQUIRED with an id to " +:+
      "rejoin with")
     (λ ctx, groups_member_id_required run_id ctx);
  mkCheck "groups/assignment-round-trips"
     ("hands a member the assignment bytes its leader supplied, unexamined and unchanged")
     (λ ctx, groups_assignment_round_trips run_id ctx);
  mkCheck "groups/stale-generation-fenced"
     ("refuses a Heartbeat carrying a generation the group has moved past, with ILLEGAL_GENERATION")
     (λ ctx, groups_stale_generation_fenced run_id ctx);
  mkCheck "consumer-group/epoch-advances"
     ("admits a KIP-848 member that names itself at epoch 0, answering with a non-zero epoch and a " +:+
      "usable heartbeat interval")
     (λ ctx, consumer_group_epoch_advances process_id run_id ctx);
  mkCheck "consumer-group/assigns-subscription"
     ("assigns the partitions of a subscribed topic, addressed by topic id")
     (λ ctx, consumer_group_assigns_subscription process_id run_id probe_timestamp ctx);
  mkCheck "consumer-group/omitted-subscription-is-unchanged"
     ("treats a heartbeat that omits subscribed_topic_names as saying nothing about the subscription, " +:+
      "not as unsubscribing")
     (λ ctx, consumer_group_omitted_subscription process_id run_id probe_timestamp ctx);
  mkCheck "consumer-group/fenced-epoch"
     ("refuses a heartbeat carrying an epoch the member has moved past, with FENCED_MEMBER_EPOCH")
     (λ ctx, consumer_group_fenced_epoch process_id run_id ctx);
  mkCheck "sasl/authenticate-requires-handshake"
     ("refuses a SASL token on a connection that negotiated no mechanism, as a state error rather than " +:+
      "as bad credentials")
     (λ ctx, sasl_authenticate_requires_handshake ctx);
  mkCheck "sasl/refusal-names-mechanisms"
     ("answers an unsupported mechanism with UNSUPPORTED_SASL_MECHANISM and the mechanisms it does " +:+
      "support, so a client has something to fall back to")
     (λ ctx, sasl_refusal_names_mechanisms ctx);
  mkCheck "sasl/scram-nonce-extends-client"
     ("answers a SCRAM client-first with a nonce that begins with the client's own, rather than " +:+
      "replacing it")
     (λ ctx, scram_nonce_extends_client process_id lossy ctx);
  mkCheck "sasl/scram-iteration-floor"
     ("states a salt and an iteration count at or above RFC 7677's floor of 4096 for SCRAM-SHA-256")
     (λ ctx, scram_iteration_floor process_id lossy ctx);
  mkCheck "sasl/scram-server-proves-itself"
     ("completes a SCRAM exchange with a server signature that verifies, proving it holds the " +:+
      "account's key material")
     (λ ctx, scram_server_proves_itself lossy ctx);
  mkCheck "produce/acks-zero-is-silent"
     ("sends no response at all to an acks=0 produce, rather than a frame the client has no " +:+
      "correlation id outstanding for")
     (λ ctx, produce_acks_zero_is_silent process_id probe_timestamp ctx);
  mkCheck "metadata/topic-id-is-stable"
     ("reports the same topic id for a topic that has not gone away, so id-addressed requests keep " +:+
      "working")
     (λ ctx, metadata_topic_id_is_stable process_id probe_timestamp ctx);
  mkCheck "produce/gzip-passthrough"
     ("returns a gzip-compressed batch exactly as it was produced, rather than recompressing it and " +:+
      "rewriting bytes the producer's crc covered")
     (λ ctx, produce_compressed_passthrough process_id probe_timestamp ctx GZIP);
  mkCheck "produce/snappy-passthrough"
     ("returns a snappy-compressed batch exactly as it was produced — in the xerial framing the " +:+
      "protocol inherited from Java, which is not the snappy project's own")
     (λ ctx, produce_compressed_passthrough process_id probe_timestamp ctx SNAPPY);
  mkCheck "produce/lz4-passthrough"
     ("returns an lz4-compressed batch exactly as it was produced, in the lz4 frame format rather than " +:+
      "a raw block")
     (λ ctx, produce_compressed_passthrough process_id probe_timestamp ctx LZ4);
  mkCheck "produce/zstd-passthrough"
     ("returns a zstd-compressed batch exactly as it was produced")
     (λ ctx, produce_compressed_passthrough process_id probe_timestamp ctx ZSTD);
  mkCheck "fetch/long-poll-contract"
     ("waits out max_wait_ms for a fetch it cannot yet satisfy, and answers one it can without " +:+
      "spending the wait")
     (λ ctx, fetch_long_poll_contract process_id probe_timestamp ctx);
  mkCheck "metadata/leader-is-a-known-broker"
     ("names every partition leader in the same response's broker list, so a client has somewhere to " +:+
      "route to")
     (λ ctx, metadata_leader_is_a_known_broker process_id probe_timestamp ctx);
  mkCheck "admin/describe-groups-reports-members"
     ("reports the members a live group has, rather than describing it as empty")
     (λ ctx, describe_groups_reports_members run_id ctx);
  mkCheck "offsets/metadata-round-trips"
     ("returns the metadata string a commit carried exactly as it was given, rather than dropping or " +:+
      "altering it beside an offset that reads back fine")
     (λ ctx, offsets_metadata_round_trips process_id run_id probe_timestamp ctx);
  mkCheck "create-topics/impossible-replication"
     ("refuses a replication factor the cluster cannot satisfy rather than creating the topic with " +:+
      "fewer replicas than were asked for")
     (λ ctx, create_topics_impossible_replication process_id ctx);
  mkCheck "groups/leave-unregisters-the-member"
     ("stops accepting heartbeats from a member that has left, so its partitions are reassigned " +:+
      "instead of being held by a member that is gone")
     (λ ctx, groups_leave_unregisters_the_member run_id ctx);
  mkCheck "list-offsets/by-timestamp"
     ("answers a timestamp with the first offset at or after it, and a timestamp past every record " +:+
      "with -1 rather than with either end of the log")
     (λ ctx, list_offsets_by_timestamp process_id probe_timestamp ctx);
  mkCheck "admin/delete-topics-removes-the-topic"
     ("a topic it reports deleted stops existing, rather than being acknowledged and left in place")
     (λ ctx, delete_topics_removes_the_topic process_id probe_timestamp ctx);
  mkCheck "produce/idempotent-retry-is-deduped"
     ("stores one copy of a batch sent twice under the same producer id, epoch and sequence, however " +:+
      "it answers the second one")
     (λ ctx, produce_idempotent_retry_is_deduped process_id probe_timestamp ctx);
  mkCheck "produce/sequence-gap-is-refused"
     ("refuses a stamped batch whose sequence skips past what it last accepted, with " +:+
      "OUT_OF_ORDER_SEQUENCE_NUMBER rather than by silently accepting the gap")
     (λ ctx, produce_sequence_gap_is_refused process_id probe_timestamp ctx);
  mkCheck "txn/init-bumps-the-epoch"
     ("hands a producer re-taking a transactional id a higher epoch than its predecessor, which is the " +:+
      "only thing that tells the two apart")
     (λ ctx, txn_init_bumps_the_epoch process_id ctx);
  mkCheck "txn/stale-epoch-is-fenced"
     ("refuses a transaction request carrying a superseded producer epoch, rather than letting a " +:+
      "fenced producer write into its successor's transaction")
     (λ ctx, txn_stale_epoch_is_fenced process_id probe_timestamp ctx);
  mkCheck "txn/unannounced-write-stays-in-the-transaction"
     ("either refuses a transactional produce to a partition the client never announced, or brings " +:+
      "that partition into the transaction itself — never writes the records outside it")
     (λ ctx, txn_unannounced_write_stays_in_the_transaction process_id probe_timestamp ctx);
  mkCheck "txn/open-transaction-holds-the-stable-offset"
     ("keeps the last stable offset below the high watermark while a transaction is open, so " +:+
      "read_committed consumers are not shown records that may yet be aborted")
     (λ ctx, txn_open_transaction_holds_the_stable_offset process_id probe_timestamp ctx);
  mkCheck "txn/fenced-producer-cannot-produce"
     ("refuses a transactional produce carrying a superseded epoch at the partition leader, not only " +:+
      "at the coordinator")
     (λ ctx, txn_fenced_producer_cannot_produce process_id probe_timestamp ctx);
  mkCheck "txn/commit-is-visible-to-readers"
     ("moves the stable offset past a committed transaction's records and does not name it in the " +:+
      "aborted list, so read_committed consumers can see it")
     (λ ctx, txn_commit_is_visible_to_readers process_id probe_timestamp ctx);
  mkCheck "txn/offsets-wait-for-the-commit"
     ("holds offsets committed inside a transaction back until it commits, so the input is never " +:+
      "marked processed while the output can still be thrown away")
     (λ ctx, txn_offsets_wait_for_the_commit process_id run_id probe_timestamp ctx);
  mkCheck "txn/abort-is-reported-to-readers"
     ("names the aborted transaction in a read_committed fetch over its records, which is the only way " +:+
      "a client can tell they were thrown away")
     (λ ctx, txn_abort_is_reported_to_readers process_id probe_timestamp ctx);
  mkCheck "cluster/brokers-agree-on-the-leader"
     ("every broker names the same leader for a partition, so a                       client that " +:+
      "refreshes metadata against a different broker                       than last time is not sent " +:+
      "somewhere else")
     (λ ctx, cluster_brokers_agree_on_the_leader process_id probe_timestamp ctx);
  mkCheck "cluster/brokers-agree-on-the-coordinator"
     ("every broker names the same coordinator for a group, so a                       group does not " +:+
      "end up with as many coordinators as it has                       bootstrap addresses")
     (λ ctx, cluster_brokers_agree_on_the_coordinator run_id ctx);
  mkCheck "cluster/replicas-span-brokers"
     ("places a topic asked for n replicas on n distinct brokers,                       with the " +:+
      "leader among them and the in-sync set drawn from                       them")
     (λ ctx, cluster_replicas_span_brokers process_id ctx);
  mkCheck "cluster/writes-go-to-the-leader"
     ("refuses a produce to a broker that does not lead the                       partition, rather " +:+
      "than appending to a log the leader knows                       nothing about")
     (λ ctx, cluster_writes_go_to_the_leader process_id probe_timestamp ctx);
  mkCheck "cluster/group-offsets-need-the-coordinator"
     ("refuses an offset commit on a broker that does not                       coordinate the group, " +:+
      "rather than storing it where the                       coordinator will never see it")
     (λ ctx, cluster_group_offsets_need_the_coordinator process_id run_id probe_timestamp ctx);
  mkCheck "cluster/leadership-moves-when-a-broker-stops"
     ("moves a partition's leadership to one of its replicas when                       the leader " +:+
      "stops, and the new leader accepts writes —                       otherwise the replicas were " +:+
      "decoration")
     (λ ctx, cluster_leadership_moves_when_a_broker_stops process_id probe_timestamp control ctx);
  mkCheck "cluster/committed-offsets-outlive-the-coordinator"
     ("gives the group a new coordinator when its own stops, still                       reporting the " +:+
      "offset it acknowledged — a commit is only as                       durable as what answers " +:+
      "after the failure")
     (λ ctx, cluster_committed_offsets_outlive_the_coordinator process_id run_id probe_timestamp control ctx);
  mkCheck "versions/advertised-versions-are-speakable"
     ("answers every version of every api it advertises, in the shape that version specifies — an " +:+
      "advertised range the server cannot serve sends clients to a version that fails")
     (λ ctx, versions_advertised_are_speakable process_id run_id probe_timestamp ctx)
].

Inductive Selection : Type := All | Ids (ids : list string).
Definition includes (s : Selection) (c : Check) : bool :=
  match s with All => true | Ids ids => bool_decide (check_id c ∈ ids) end.

(** The loop of [run_ctx]: each check that is selected, with the world the last left. *)
Fixpoint run_each (ctx : ServerCtx) (selection : Selection) (checks : list Check) (w : W) : list CheckOutcome * W :=
  match checks with
  | [] => ([], w)
  | c :: checks =>
      if includes selection c then
        let (v, w) := run_check (runner c ctx) w in
        let (outcomes, w) := run_each ctx selection checks w in
        (mkCheckOutcome (check_id c) (check_requirement c) v :: outcomes, w)
      else run_each ctx selection checks w
  end.
Definition run_ctx (ctx : ServerCtx) (selection : Selection) (w : W) : Report * W :=
  let (outcomes, w) := run_each ctx selection SERVER_CHECKS w in
  (ReportOps.new CARGO_PKG_VERSION ("server " +:+ addr ctx) outcomes, w).

(** [run_with_sasl], [run_with] and [run_ids]. *)
Definition run_with_sasl (address : string) (sasl : option string) (c : ProbeConfig) (w : W) : Report * W :=
  let (ctx, w) := discover_with_sasl CARGO_PKG_VERSION address sasl c w in run_ctx ctx All w.
Definition run_with (address : string) (c : ProbeConfig) (w : W) : Report * W :=
  let (ctx, w) := discover CARGO_PKG_VERSION address c w in run_ctx ctx All w.
Definition run_ids (address : string) (sasl : option string) (c : ProbeConfig) (ids : list string) (w : W) :
    Report * W :=
  let (ctx, w) := discover_with_sasl CARGO_PKG_VERSION address sasl c w in run_ctx ctx (Ids ids) w.

End catalog.
