(* ===== verification/Calibration.v ===== *)
(** * The suite, calibrated ([odradek-acceptance/tests/server_checks.rs])

    The checks against the reference broker: its cluster behind sockets is a world for
    them.  A broker without faults passes every check, each fault trips the check that
    claims to detect it, and a subject that cannot be reached is an error of the run
    and no failure of the subject's. *)
From S2P Require Import Prelude Text Budget Codec Wire Frame Fields MessageTrait MsgConnection MsgGroup MsgFetch Registry Sasl Scram Report Compression Probe ServerChecks TopicChecks TxnChecks OffsetChecks ClusterChecks Catalog Subject SubjectLog SubjectServe.

(** ** The cluster behind its sockets *)

(** One connection: the node at its other end, what was written and not yet read as a
    frame, what was answered and not yet read, and whether the node still serves it. *)
Record Link : Type := mkLink {
  link_node : Z;
  link_sasl : SaslState;
  unread : list byte;
  answers : list byte;
  serving : bool;
}.

Record World : Type := mkWorld {
  cluster : ClusterState;
  links : list Link;
  clock : Z;
}.

Section world.
Context {R : Runtime}.
Context `{Stringprep, Base64, Crypto}.
Context (faults : list Fault) (raw : option (list byte)) (lossy : list byte → text).

(** How long the node keeps a request waiting, in milliseconds. *)
Definition pause (frame : list byte) (s : ClusterState) : Z :=
  if sint 16 (be_val (take 2 frame)) =? key fetch_request.FetchRequest.t then
    match decode_request fetch_request.FetchRequest.t frame (sint 16 (be_val (take 2 (drop 2 frame)))) with
    | Some (_, request) => poll_ms request faults s
    | None => 0
    end
  else 0.

(** [handle_connection] on what has arrived: frames are taken off the front and served
    in turn; every frame takes four bytes, so the number of bytes is fuel enough. *)
Fixpoint serve_link (fuel : nat) (l : Link) (s : ClusterState) (at_ : Z) : Link * ClusterState * Z :=
  match fuel with
  | O => (l, s, at_)
  | S fuel =>
      let closed := mkLink (link_node l) (link_sasl l) [] (answers l) false in
      match try_split (unread l) DEFAULT_MAX_FRAME with
      | Err _ => (closed, s, at_)
      | Ok (None, _) => (l, s, at_)
      | Ok (Some frame, rest) =>
          match serve_frame lossy frame (link_node l) faults raw (link_sasl l) s s with
          | (Some out, sasl, s') =>
              serve_link fuel (mkLink (link_node l) sasl rest (answers l ++ out) true) s'
                (at_ + pause frame s * 1000000)
          | (None, _, s) => (closed, s, at_)
          end
      end
  end.

(** Dialling: a node listens at its port; one that is down takes the connection and
    drops it. *)
Definition dial (address : string) (w : World) : result string nat * World :=
  match List.find (λ n, String.eqb address (show_endpoint LOCALHOST n.2)) (nodes (cluster w)) with
  | Some (node, _) =>
      (Ok (length (links w)),
       mkWorld (cluster w) (links w ++ [mkLink node Unstarted [] [] (negb (is_down node (cluster w)))]) (clock w))
  | None => (Err "connection refused", w)
  end.

(** Writing to a node that is gone goes nowhere. *)
Definition deliver (i : nat) (bs : list byte) (w : World) : result string unit * World :=
  match links w !! i with
  | Some l =>
      if serving l then
        let l := mkLink (link_node l) (link_sasl l) (unread l ++ bs) (answers l) true in
        let '(l, s, at_) := serve_link (S (length (unread l))) l (cluster w) (clock w) in
        (Ok tt, mkWorld s (<[i := l]> (links w)) at_)
      else (Ok tt, w)
  | None => (Err "bad file descriptor", w)
  end.

(** Reading more than was answered waits for as long as the suite does, or sees the
    end of the stream. *)
Definition receive (i : nat) (n : Z) (w : World) : result (option string) (list byte) * World :=
  match links w !! i with
  | Some l =>
      if n <=? len (answers l) then
        (Ok (take (Z.to_nat n) (answers l)),
         mkWorld (cluster w)
           (<[i := mkLink (link_node l) (link_sasl l) (unread l) (drop (Z.to_nat n) (answers l)) (serving l)]> (links w))
           (clock w))
      else if serving l then (Err None, mkWorld (cluster w) (links w) (clock w + READ_TIMEOUT_MS * 1000000))
      else (Err (Some "early eof"), w)
  | None => (Err (Some "bad file descriptor"), w)
  end.

(** Looking at the clock takes a nanosecond. *)
#[export] Instance sockets : Subjects World := {|
  socket := nat;
  tcp := dial;
  tls := dial;
  write_all := deliver;
  read_exact := receive;
  sleep := λ ms w, mkWorld (cluster w) (links w) (clock w + ms * 1000000);
  now := λ w, (clock w, mkWorld (cluster w) (links w) (clock w + 1));
  instant := λ w, (clock w, mkWorld (cluster w) (links w) (clock w + 1));
  getrandom := λ _, raw |}.

(** [SubjectControl]: its brokers are tasks. *)
Definition control : ClusterControl World := mkClusterControl
  (λ node _ w, (Ok tt, mkWorld (stop node (cluster w)) (links w) (clock w)))
  (λ node _ w, (Ok tt, mkWorld (start node (cluster w)) (links w) (clock w))).

End world.

(** ** The calibration *)

Module calibration.

Definition PORTS : list Z := [19092; 19093; 19094].
Definition RAW : list byte := str_bytes "fyko+d2lbbFgONRv9q".
Definition BOOTSTRAP : string := "127.0.0.1:19092".
Definition subject (faults : list Fault) : World := mkWorld (spawned PORTS faults) [] 1700000000000000000.
Definition probe : ProbeConfig := mkProbeConfig 300 100 None 300 false.

#[local] Existing Instance plain_runtime.
#[local] Existing Instance rfc4648.base64.
#[local] Existing Instance ascii_only.
#[local] Existing Instance toy.crypto.
#[local] Existing Instance stored_codecs.
#[export] Instance renders : Renders := {|
  show_encode := λ _, "encode"; show_decode := λ _, "decode"; debug_str := λ s, s; debug_strs := λ _, "";
  debug_bytes := λ _, ""; debug_ints := λ _, ""; debug_ms := λ z, show_int z; debug_ns := λ z, show_int z;
  debug_verdict := λ _, "";  show_utf8_error := λ _, "" |}.

(** A run of the whole catalog, and of one check of it, on a broker with faults; and
    the latter with another listener for SASL. *)
Definition run_at (address sasl : string) (faults : list Fault) (checks : option (list string)) : Report :=
  let S := sockets faults (Some RAW) (λ bs, bs) in
  match checks with
  | None => (run_with_sasl (H := S) "0.1.0" 4242 "4242-1" 1700000000000 (λ bs, bs) (Some control)
               address (Some sasl) probe (subject faults)).1
  | Some ids => (run_ids (H := S) "0.1.0" 4242 "4242-1" 1700000000000 (λ bs, bs) (Some control)
                   address (Some sasl) probe ids (subject faults)).1
  end.
Definition run (faults : list Fault) : Report := run_at BOOTSTRAP BOOTSTRAP faults None.
Definition run_only (faults : list Fault) (check : string) : Report := run_at BOOTSTRAP BOOTSTRAP faults (Some [check]).

(** Which check has to detect which fault. *)
Definition SENSITIVITY : list (Fault * string) := [
  (WrongCorrelationEcho, "api-versions/correlation-echo");
  (InvertedVersionRange, "api-versions/v0-basic");
  (OmitApiVersionsKey, "api-versions/v0-basic");
  (TrailingGarbage, "api-versions/v0-basic");
  (FetchTrailingGarbage, "fetch/batch-integrity");
  (WrongErrorOnUnsupportedVersion, "api-versions/unsupported-version-error");
  (ErrorBodyNotV0, "api-versions/unsupported-version-error");
  (AdvertiseWrongMaxInError, "api-versions/unsupported-version-error");
  (FlexibleHeaderOnV3, "api-versions/flexible-v3");
  (MetadataEmptyBrokers, "metadata/basic");
  (MetadataUnrequestedTopic, "metadata/basic");
  (MetadataNonFlexibleHeader, "metadata/flexible-response-header");
  (ProduceWrongBaseOffset, "produce/basic");
  (FetchCorruptBatch, "fetch/batch-integrity");
  (ProduceTopicIdUnknown, "produce/topic-id");
  (FetchWrongTopicId, "fetch/topic-id");
  (ProduceAnswersAcksZero, "produce/acks-zero-is-silent");
  (MetadataRemintsTopicId, "metadata/topic-id-is-stable");
  (ProduceAcceptsFencedEpoch, "txn/fenced-producer-cannot-produce");
  (TxnCommitMarksAborted, "txn/commit-is-visible-to-readers");
  (TxnOffsetsPublishImmediately, "txn/offsets-wait-for-the-commit");
  (ProduceRewritesGzipBatches, "produce/gzip-passthrough");
  (ProduceRewritesSnappyBatches, "produce/snappy-passthrough");
  (ProduceRewritesLz4Batches, "produce/lz4-passthrough");
  (ProduceRewritesZstdBatches, "produce/zstd-passthrough");
  (FetchIgnoresMaxWait, "fetch/long-poll-contract");
  (MetadataLeaderIsUnknown, "metadata/leader-is-a-known-broker");
  (DescribeGroupsHidesMembers, "admin/describe-groups-reports-members");
  (OffsetCommitDropsMetadata, "offsets/metadata-round-trips");
  (LeaveGroupKeepsTheMember, "groups/leave-unregisters-the-member");
  (CreateTopicsIgnoresReplicationFactor, "create-topics/impossible-replication");
  (ListOffsetsTimestampReturnsLogEnd, "list-offsets/by-timestamp");
  (DeleteTopicsKeepsTheTopic, "admin/delete-topics-removes-the-topic");
  (ProduceAppendsIdempotentRetries, "produce/idempotent-retry-is-deduped");
  (ProduceAcceptsSequenceGaps, "produce/sequence-gap-is-refused");
  (TxnInitReusesEpoch, "txn/init-bumps-the-epoch");
  (TxnIgnoresProducerEpoch, "txn/stale-epoch-is-fenced");
  (TxnUnannouncedWriteEscapes, "txn/unannounced-write-stays-in-the-transaction");
  (TxnStableOffsetIgnoresOpenTxn, "txn/open-transaction-holds-the-stable-offset");
  (TxnAbortListOmitted, "txn/abort-is-reported-to-readers");
  (ListOffsetsWrongEarliest, "list-offsets/earliest-latest");
  (FindCoordinatorWrongKey, "find-coordinator/group");
  (OffsetFetchLosesCommit, "offsets/commit-fetch-roundtrip");
  (OffsetFetchUnsetIsZero, "offsets/unset-is-sentinel");
  (FetchCorruptOnOldVersions, "fetch/batch-integrity");
  (FetchPastEndSucceeds, "fetch/offset-out-of-range");
  (MetadataUnknownTopicOmitted, "metadata/unknown-topic");
  (CreateTopicsDuplicateSucceeds, "create-topics/duplicate");
  (CreateTopicsValidateOnlyCreates, "create-topics/validate-only");
  (JoinGroupAcceptsEmptyMemberId, "groups/member-id-required");
  (SyncGroupRewritesAssignment, "groups/assignment-round-trips");
  (GroupIgnoresGeneration, "groups/stale-generation-fenced");
  (ConsumerGroupEpochStuck, "consumer-group/epoch-advances");
  (ConsumerGroupAssignsNothing, "consumer-group/assigns-subscription");
  (ConsumerGroupNullSubscriptionRevokes, "consumer-group/omitted-subscription-is-unchanged");
  (ConsumerGroupIgnoresEpoch, "consumer-group/fenced-epoch");
  (SaslAuthenticateWithoutHandshake, "sasl/authenticate-requires-handshake");
  (SaslHandshakeHidesMechanisms, "sasl/refusal-names-mechanisms");
  (ScramNonceReplacesClients, "sasl/scram-nonce-extends-client");
  (ScramWeakIterations, "sasl/scram-iteration-floor");
  (ScramSkipsServerSignature, "sasl/scram-server-proves-itself");
  (BrokersDisagreeOnLeader, "cluster/brokers-agree-on-the-leader");
  (CoordinatorIsWhoeverAsked, "cluster/brokers-agree-on-the-coordinator");
  (ReplicasCollapseToTheLeader, "cluster/replicas-span-brokers");
  (AnyBrokerAcceptsWrites, "cluster/writes-go-to-the-leader");
  (AnyBrokerServesGroups, "cluster/group-offsets-need-the-coordinator");
  (LeadershipStaysWithTheStoppedBroker, "cluster/leadership-moves-when-a-broker-stops");
  (OffsetsDieWithTheirCoordinator, "cluster/committed-offsets-outlive-the-coordinator");
  (MisshapesOneProduceVersion, "versions/advertised-versions-are-speakable")
].

Definition passes (v : Verdict) : bool := match v with Pass => true | _ => false end.
Definition fails (v : Verdict) : bool := match v with Fail _ => true | _ => false end.

(** The ids of the catalog. *)
Definition CATALOG : list string :=
  let S := sockets [] (Some RAW) (λ bs, bs) in
  check_id <$> SERVER_CHECKS (H := S) "0.1.0" 4242 "4242-1" 1700000000000 (λ bs, bs) None.

(** Everything of the catalog ran, in its order, and passed. *)
Definition all_pass (r : Report) : bool :=
  bool_decide ((id <$> outcomes r) = CATALOG) && forallb (λ o, passes (verdict o)) (outcomes r).
Definition detects (fault : Fault) (check : string) : bool :=
  match ReportOps.verdict_of check (run_only [fault] check) with Some v => fails v | None => false end.

End calibration.
Import calibration.

(** ** Properties *)

(** C27: The suite is calibrated against the reference broker, over real frames through
    its sockets.  A broker without faults passes every check of the catalog, in the
    catalog's order, and the run exits successfully; every fault the broker can be
    given has a check that claims to detect it, every check has a fault, and a broker
    with that one fault fails that check. *)
Theorem suite_is_calibrated :
  all_pass (run []) = true ∧
  (∀ f, f ∈ ALL → f ∈ SENSITIVITY.*1) ∧
  (∀ c, c ∈ CATALOG → c ∈ SENSITIVITY.*2) ∧
  Forall (λ p, detects p.1 p.2 = true) SENSITIVITY.
Proof.
  split; [vm_compute; reflexivity|].
  assert (bool_decide (Forall (λ f, f ∈ SENSITIVITY.*1) ALL) = true) as Hf by (vm_compute; reflexivity).
  assert (bool_decide (Forall (λ c, c ∈ SENSITIVITY.*2) CATALOG) = true) as Hc by (vm_compute; reflexivity).
  apply bool_decide_eq_true in Hf, Hc. rewrite Forall_forall in Hf. rewrite Forall_forall in Hc.
  split; [done|]. split; [done|].
  apply Forall_forall. intros p Hp%list_elem_of_In. revert p Hp. apply forallb_forall. vm_compute. reflexivity.
Qed.
