(* ===== verification/SuiteErrors.v ===== *)
(** * What the suite makes of a subject it cannot reach

    A check that could not run must not read as a check that failed.  Of the whole
    catalog that holds when nothing answers at the address from the start; it does not
    when the subject goes away after discovery: one check passes then, and one fails. *)
From S2P Require Import Prelude Text Budget Codec Wire Frame Fields MessageTrait MsgGroup MsgConnection Registry Sasl Scram Report Compression Probe ServerChecks TopicChecks TxnChecks OffsetChecks ClusterChecks Catalog Subject SubjectServe Calibration.
Import ReportOps.

(** Nothing listens at an address, whatever has happened. *)
Definition unreachable {W} `{Subjects W} (address : string) : Prop :=
  ∀ w, (∃ e w', tcp address w = (Err e, w')) ∧ (∃ e w', tls address w = (Err e, w')).

Section errors.
Context {R : Runtime} {W : Type} `{HS : Subjects W} `{HR : Renders}.
Context `{HP : Stringprep, HB : Base64, HC : Crypto, HK : Codecs}.
Context (CARGO_PKG_VERSION : string) (process_id : Z) (run_id : string) (probe_timestamp : Z) (lossy : list byte → text)
  (control : option (ClusterControl W)).

Lemma io_bind_err {E A B} (m : io W E A) (k : A → io W E B) w e w' :
  m w = (Err e, w') → io_bind m k w = (Err e, w').
Proof. intros Hm. unfold io_bind. by rewrite Hm. Qed.

Lemma connect_unreachable c address w :
  unreachable address → ∃ d w', connect c address w = (Err (Infra d), w').
Proof.
  intros Hu. destruct (Hu w) as [(e & w1 & Ht) (e' & w1' & Htls)]. unfold connect.
  destruct (over_tls c); eexists _, _; apply io_bind_err; unfold io_map_err.
  - rewrite Htls. done.
  - rewrite Ht. done.
Qed.

Lemma exchange_unreachable c address v hv correlation at_ w :
  unreachable address →
  ∃ d w', exchange CARGO_PKG_VERSION c address v hv correlation at_ w = (Err (Infra d), w').
Proof.
  intros (d & w' & Hc)%(connect_unreachable c address w). exists d, w'. by apply io_bind_err.
Qed.

(** Every outcome of a run over checks that all end in an error. *)
Lemma run_each_errors ctx (checks : list (Check (W := W))) :
  Forall (λ c, ∀ w, ∃ d w', run_check (runner c ctx) w = (Error d, w')) checks →
  ∀ w, (id <$> (run_each ctx All checks w).1) = (check_id <$> checks) ∧
       Forall (λ o, ∃ d, verdict o = Error d) (run_each ctx All checks w).1.
Proof.
  induction 1 as [|c checks Hc Hall IH]; intros w; [done|]. cbn [run_each includes].
  destruct (Hc w) as (d & w' & ->).
  destruct (run_each ctx All checks w') as [os w''] eqn:E.
  destruct (IH w') as [Hid Ho]. rewrite E in Hid, Ho. cbn.
  split; [by f_equal|]. constructor; [by eexists|done].
Qed.

(** Every check of the catalog first needs what discovery learned, or to connect. *)
Lemma discovery_errors address d c sasl :
  unreachable address →
  Forall (λ check, ∀ w, ∃ d' w', run_check (runner check (mkServerCtx address (Err d) c (Some sasl))) w = (Error d', w'))
    (SERVER_CHECKS CARGO_PKG_VERSION process_id run_id probe_timestamp lossy control).
Proof.
  intros Hu. unfold SERVER_CHECKS.
  repeat (apply Forall_cons_2; [intros w; cbn [runner]|]); [..|apply Forall_nil_2];
    first [ eexists _, _; reflexivity
          | destruct (exchange_unreachable c address 0 1 1 0 w Hu) as (e & w1 & He);
            exists e, w1; unfold v0_basic, run_check, io_bind, ServerChecks.verdict_of, io_map_err;
            cbn [config addr]; rewrite He; reflexivity
          | destruct (exchange_unreachable c address 0 1 (i32_max - 17) 0 w Hu) as (e & w1 & He);
            exists e, w1; unfold correlation_echo, run_check, io_bind, ServerChecks.verdict_of, io_map_err;
            cbn [config addr]; rewrite He; reflexivity ].
Qed.

(** What a report of errors alone comes to. *)
Lemma errors_conform suite subject os :
  Forall (λ o, ∃ d, verdict o = Error d) os → is_conformant (ReportOps.new suite subject os) = true.
Proof.
  intros Hall. apply Z.eqb_eq. unfold failed, count. cbn [outcomes ReportOps.new].
  rewrite filter_none; [done|]. apply Forall_forall. intros o Ho. rewrite Forall_forall in Hall.
  by destruct (Hall o Ho) as [d ->].
Qed.

Lemma errors_exit suite subject os :
  Forall (λ o, ∃ d, verdict o = Error d) os → os ≠ [] → exit_status (ReportOps.new suite subject os) None = FAILURE.
Proof.
  intros Hall Hne. unfold exit_status. destruct (0 <? errored _) eqn:He; [done|]. exfalso. apply Z.ltb_ge in He.
  assert (errored (ReportOps.new suite subject os) = 0) as Hz.
  { unfold errored, count in *. lia. }
  destruct Hall as [|o os [d Hd] _]; [done|].
  apply (proj1 (errored_none _) Hz o (proj2 (elem_of_cons os o o) (or_introl eq_refl)) d Hd).
Qed.

Lemma errors_diff suite subject os baseline x :
  Forall (λ o, ∃ d, verdict o = Error d) os → x ∈ diff_against baseline (ReportOps.new suite subject os) →
  (∃ i e, x = Infrastructure i e) ∨ (∃ i s, x = RemovedCheck i s).
Proof.
  intros Hall. unfold diff_against. rewrite elem_of_app, !list_elem_of_In, !in_concat.
  intros [(l & Hl & Hx)|(l & Hl & Hx)]; apply list_elem_of_In in Hl, Hx; apply list_elem_of_fmap in Hl as (o & -> & Ho).
  - left. rewrite Forall_forall in Hall. destruct (Hall o Ho) as [d Hd]. unfold diff_outcome in Hx. rewrite Hd in Hx.
    apply list_elem_of_singleton in Hx. by eexists _, _.
  - right. destruct (existsb _ _); [by apply not_elem_of_nil in Hx|].
    apply list_elem_of_singleton in Hx. by eexists _, _.
Qed.

Lemma open_unreachable ctx address w :
  unreachable address → ∃ d w', Probe.open ctx address w = (Err (Infra d), w').
Proof.
  intros (d & w' & Hc)%(connect_unreachable (config ctx) address w). exists d, w'. by apply io_bind_err.
Qed.

Lemma coordinator_unanswered ctx version group base w :
  unreachable (addr ctx) →
  ∃ d w', run_check (find_coordinator_at ctx version group base) w = (Error d, w').
Proof.
  intros (d & w' & Ho)%(open_unreachable ctx (addr ctx) w). exists d, w'.
  unfold run_check, find_coordinator_at. erewrite io_bind_err; [reflexivity|].
  unfold ServerChecks.verdict_of, io_map_err. by rewrite Ho.
Qed.

Lemma coordinator_versions_pass ctx group versions :
  unreachable (addr ctx) → ∀ i w, ∃ w', find_coordinator_versions ctx group i versions w = (Ok Pass, w').
Proof.
  intros Hu. induction versions as [|v vs IH]; intros i w; [by eexists|].
  cbn [find_coordinator_versions]. unfold io_bind.
  edestruct (coordinator_unanswered ctx v group) as (d & w' & E); [done|]. rewrite E. apply IH.
Qed.

(** C28: A subject that cannot be reached is an error of the run, never a verdict on it.
    Whatever the world, when nothing listens at an address, a run that is told of a
    listener for authentication too (the checks of one are skipped otherwise) ends
    every check of the catalog in an error, in the catalog's order; nothing fails, the
    command does not exit successfully, and against any baseline the run differs only
    as infrastructure or in checks that no longer exist. *)
Theorem unreachable_subject_errors (address sasl : string) (c : ProbeConfig) (w : W) :
  unreachable address →
  let r := (run_with_sasl CARGO_PKG_VERSION process_id run_id probe_timestamp lossy control
              address (Some sasl) c w).1 in
  (id <$> outcomes r) =
    (check_id <$> SERVER_CHECKS CARGO_PKG_VERSION process_id run_id probe_timestamp lossy control) ∧
  Forall (λ o, ∃ d, verdict o = Error d) (outcomes r) ∧
  is_conformant r = true ∧ exit_status r None = FAILURE ∧
  ∀ baseline d, d ∈ diff_against baseline r →
    (∃ i e, d = Infrastructure i e) ∨ (∃ i s, d = RemovedCheck i s).
Proof.
  intros Hu. unfold run_with_sasl, discover_with_sasl, discover.
  destruct (exchange_unreachable c address 0 1 9 0 w Hu) as (e & w1 & ->). unfold run_ctx. cbn [addr discovery config].
  destruct (run_each _ All _ w1) as [os w2] eqn:E.
  destruct (run_each_errors _ _ (discovery_errors address ("discovery (ApiVersions v0): " +:+ e) c sasl Hu) w1)
    as [Hid Hall].
  rewrite E in Hid, Hall. cbn [fst] in *. cbn [outcomes ReportOps.new].
  split; [done|]. split; [done|]. split; [|split].
  - by apply errors_conform.
  - apply errors_exit; [done|]. intros ->. by apply (f_equal length) in Hid.
  - intros baseline d. by apply errors_diff.
Qed.

(** C29: The coordinator check passes a subject that has gone away: only what is a
    failure of a version ends its sweep, so a connection that is refused, or an answer
    that never comes, once the api has been advertised reads as a pass. *)
Theorem gone_subject_passes_the_coordinator_check (ctx : ServerCtx) (versions : list Z) (w : W) :
  (let? advertised := range ctx find_coordinator_request.FindCoordinatorRequest.API_KEY in
   negotiate_all "FindCoordinator" advertised find_coordinator_request.FindCoordinatorRequest.MIN_VERSION
     find_coordinator_request.FindCoordinatorRequest.MAX_VERSION) = Ok versions →
  unreachable (addr ctx) →
  (∀ v, ∃ d, (run_check (find_coordinator_at ctx v (check_group run_id "find-coordinator") 51) w).1 = Error d) ∧
  (run_check (find_coordinator_group run_id ctx) w).1 = Pass.
Proof.
  intros Hv Hu. split.
  - intros v. destruct (coordinator_unanswered ctx v (check_group run_id "find-coordinator") 51 w Hu) as (d & w' & E).
    exists d. by rewrite E.
  - destruct (coordinator_versions_pass ctx (check_group run_id "find-coordinator") versions Hu 0 w) as (w' & E).
    unfold run_check, find_coordinator_group, io_bind, negotiated_all, io_of. rewrite Hv, E. reflexivity.
Qed.

End errors.

(** ** On the reference broker *)

#[local] Existing Instance plain_runtime.
#[local] Existing Instance rfc4648.base64.
#[local] Existing Instance ascii_only.
#[local] Existing Instance toy.crypto.
#[local] Existing Instance stored_codecs.
Import calibration.

Definition NOWHERE : string := "nowhere:9092".

Lemma nowhere_unreachable : unreachable (H := sockets [] (Some RAW) (λ bs, bs)) NOWHERE.
Proof.
  intros w. cbn [tcp tls sockets]. unfold dial.
  assert (List.find (λ n, String.eqb NOWHERE (show_endpoint LOCALHOST n.2)) (nodes (cluster w)) = None) as ->.
  { induction (nodes (cluster w)) as [|n l IH]; [done|]. exact IH. }
  split; by eexists _, _.
Qed.

Definition fails_then_errs (a b : option Verdict) : bool :=
  match a, b with Some (Fail _), Some (Error _) => true | _, _ => false end.
Lemma fails_then_errs_spec a b :
  fails_then_errs a b = true → (∃ d, a = Some (Fail d)) ∧ (∃ d, b = Some (Error d)).
Proof. destruct a as [[]|], b as [[]|]; try done. intros _. split; by eexists. Qed.

(** A broker without faults, and a second listener that refuses connections: what asks
    that listener about mechanisms could not run, and the sweep of versions blames the
    broker. *)
Theorem unreachable_listener_fails_the_sweep :
  let sweep := "versions/advertised-versions-are-speakable" in
  let refusal := "sasl/refusal-names-mechanisms" in
  let r := run_at BOOTSTRAP NOWHERE [] (Some [sweep; refusal]) in
  (∃ d, verdict_of sweep r = Some (Fail d)) ∧ (∃ d, verdict_of refusal r = Some (Error d)).
Proof. intros sweep refusal r. apply fails_then_errs_spec. vm_compute. reflexivity. Qed.

Lemma unreachable_subject_errors_witness :
  let S := sockets [] (Some RAW) (λ bs, bs) in
  unreachable (H := S) NOWHERE ∧
  is_conformant (run_with_sasl (H := S) "0.1.0" 4242 "4242-1" 1700000000000 (λ bs, bs) (Some control)
    NOWHERE (Some NOWHERE) probe (subject [])).1 = true.
Proof.
  split; [exact nowhere_unreachable|].
  pose proof (unreachable_subject_errors (HS := sockets [] (Some RAW) (λ bs, bs)) "0.1.0" 4242 "4242-1" 1700000000000
    (λ bs, bs) (Some control) NOWHERE NOWHERE probe (subject []) nowhere_unreachable) as (_ & _ & Hc & _).
  exact Hc.
Defined.

Lemma gone_subject_passes_the_coordinator_check_witness :
  let S := sockets [] (Some RAW) (λ bs, bs) in
  let ctx := mkServerCtx NOWHERE (Ok [api_versions_response.ApiVersion.mk 10 0 6 []]) probe None in
  (run_check (find_coordinator_group (H := S) "4242-1" ctx) (subject [])).1 = Pass.
Proof.
  destruct (gone_subject_passes_the_coordinator_check (HS := sockets [] (Some RAW) (λ bs, bs)) "4242-1"
    (mkServerCtx NOWHERE (Ok [api_versions_response.ApiVersion.mk 10 0 6 []]) probe None)
    [0; 1; 2; 3; 4; 5; 6] (subject [])) as [_ H].
  - vm_compute. reflexivity.
  - exact nowhere_unreachable.
  - exact H.
Defined.
